(* ===== verification/_CoqProject ===== *)
-Q . S2P
Prelude.v
Ringbuffer.v
Bcd.v
Datetime.v
Timer.v
Pid.v
DList.v
MemPool.v
Bus.v
Async.v
AsyncSchedule.v
SoftI2c.v
SoftSpi.v
Devices.v
Analog.v
Rtc.v
Ltc6804.v
MqttPacket.v
MqttPublish.v
MqttSubscribe.v
MqttConnect.v
MqttClient.v
MqttSession.v
Shell.v
AtCmd.v
AtModem.v
Hcs12.v
Hcs12I2c.v
DtuM35.v
LuaStr.v
LuaPattern.v
LuaMatch.v
LuaFind.v
LuaSafe.v
LuaFormat.v
LuaFormatSafe.v
LuaLex.v
LuaLexStream.v
LuaLexSafe.v
LuaLexPrint.v
LuaOpcodes.v
LuaCheck.v
LuaCheckSafe.v
LuaDump.v
LuaUndump.v
LuaChunk.v
LuaChunkSafe.v
LuaTable.v
LuaTableChain.v
LuaTableHash.v
LuaTablePlace.v
LuaTableRehash.v
LuaTableGrow.v
LuaTableInsert.v
LuaTableMap.v
LuaTableSpec.v
