(* ===== verification/Prelude.v ===== *)
(** * Verification of embedded_template

    A library of reusable parts for embedded C programs (src/src): containers,
    date and control arithmetic, the MQTT packet library and client, a command
    shell, a modem client and a data terminal on top of it, bus abstractions
    with bit-banged implementations and those of a microcontroller, an event
    loop, drivers of the chips behind the buses, and a Lua interpreter, of which
    the string library, the lexer, and the format and the checking of
    precompiled code are modelled. Every file below models
    one part, one definition per C function, and proves what the part
    promises.

    ** Conventions

    An integer of the source is a [Z], and each conversion or wrap-around of a
    C type is written where the code has it ([u8], [u16], [u32], [s8], [s16],
    [s32] of this file; plain [char] is signed and [int] and [long] have 32
    bits). Code that can go wrong returns [res A]: [Ok], or [Err] with
    the fault (null dereference, access outside an object, signed overflow,
    division by zero, use of a local variable before it is set, a failed
    ASSERT, or [NoFuel] when a loop was given too
    few rounds). A theorem that shows [Ok] therefore shows that none of these
    happens. A pointer into a buffer is a [ptr]: nothing, or an object and an
    offset; [load] and [store] are checked accesses. Drivers run in the state
    monad [M W] of Bus.v over a world [W] and call the hardware through
    classes that are the operation tables of the source.

    ** The files

    - Prelude.v: the above, and lemmas on lengths, slices and rounding.
    - Ringbuffer.v (ringbuffer/ringbuffer.c): the byte queue. [repr rb c q]
      says that the buffer has the capacity [c] and holds the queue [q].
      [rb_op] are the operations of ringbuffer.h, [queue_op] is what it
      documents of them, and [keeps_contract] where the code does that:
      everywhere, but for [ringbuffer_read] and the two [drop] operations.
    - DList.v (misc/list.h): the intrusive lists on a store of pointers. [rep]
      says which heads have which entries and which nodes are on no list; the
      operations refine [abs_step] on sequences.
    - MemPool.v (mem_pool/mem_pool.c): the first-fit allocator, a memory of
      segment headers and the ordered free list in it; allocation splits,
      release coalesces.
    - Bcd.v, Timer.v (misc/bcd_code.c, timer.c, logger.c), Datetime.v
      (misc/second_datetime.c), Pid.v (pidcontrol/pidcontrol.c): arithmetic.
      Datetime.v relates the conversions to a calendar stepped day by day and
      to each other; Pid.v gives the control law and the gains within which it
      does not overflow.
    - MqttPacket.v, MqttPublish.v, MqttSubscribe.v, MqttConnect.v (the .c
      files of the same names in mqtt/MQTTPacket/src): serializers and parsers
      of both sides. A serializer refuses by its length estimate or writes
      exactly the wire format, and a parser gives back what the packet says;
      the readers are run on byte streams.
    - MqttClient.v (mqtt/MQTTClient-C/src/MQTTClient.c): the client over those
      files and Timer.v: sending and receiving with timeouts, topic matching,
      delivery, and the exchanges. MqttSession.v gives it a simulated network
      and clock, and shows what goes over the wire in each exchange and what
      the application sees.
    - Shell.v (shell/shell.c): reading a line, splitting it in place and
      running the command. [scan] and [strip] are the reference tokenizer.
    - AtCmd.v (atcmd/atcmd.c): the modem client over Ringbuffer.v: a receiver
      called for every byte, and commands that wait while it runs. AtModem.v
      simulates the modem (bytes with the times they arrive at) and shows
      which replies and data reach the caller.
    - DtuM35.v (dtu_m35/dtu_m35.c): the data terminal, a task over AtCmd.v that
      configures the modem and serves the commands other tasks put into a
      Ringbuffer.v, and the calls of those tasks. [desk] is a world with one
      client and the terminal's task, [mains] the modem's supply and power key.
    - Async.v (async/event.c, looper.c, async.c): the event loop, a client of
      DList.v and Ringbuffer.v. The invariant [inv] places every event on the
      free list, on the loop's list or in a queued command; [act] and [run]
      are the calls of the tasks and the rounds of the loop, one at a time.
      AsyncSchedule.v shows which callbacks a round runs, and that no deadline
      is missed.
    - Bus.v (gpio, i2c, spi, rs485_bus): the interfaces [GpioOps], [I2cOps],
      [SpiOps], [Rs485Ops] and what is built from them alone.
    - SoftI2c.v, SoftSpi.v (i2c/softi2c.c, spi/softspi.c): implementations of
      the interfaces on GPIO pins, proved against a simulated bus and a
      simulated slave: the symbols on the wires and the values returned.
    - Hcs12.v, Hcs12I2c.v (platform_hw/hcs12): the implementations of the
      interfaces on the registers of an HCS12: pins, the SPI unit, the serial
      unit, and the I2C controller with its interrupt handler, against
      simulated units.
    - Devices.v: simulated peripherals behind the interfaces (a register file,
      a recorder, pins). They stand for hardware, not for code.
    - Analog.v, Rtc.v, Ltc6804.v (drivers/): the chip drivers, against the
      interfaces in the definitions and the simulated peripherals in the
      theorems: what is sent, how far a result is from the quantity asked for,
      that times and data survive the chip, and that a corrupted reading is
      refused.

    - LuaStr.v (lua/lstrlib.c): the string library with its pattern matcher,
      over [outcome] (a value, a Lua error, or a fault). LuaPattern.v gives
      patterns a meaning of their own: items, the list [matches] of all
      matches in the order of preference, and the same as a relation [Match].
      LuaMatch.v shows that the matcher finds the first of [matches];
      LuaFind.v that searching finds the leftmost one, and plain text where
      the matcher does; LuaSafe.v that nothing goes wrong with patterns that
      are not well formed either, and that a substitution by the match itself
      changes nothing.
    - LuaFormat.v (lstrlib.c and the conversions in lobject.c and lauxlib.c):
      [string.format] with the part of [sprintf] it uses; LuaFormatSafe.v
      bounds what it writes to its fixed buffers.
    - LuaLex.v (lua/llex.c, lzio.c): the lexer as a state monad [lex] over the
      stream of buffers. LuaLexStream.v shows that the buffers make no
      difference ([view] is what the lexer sees), LuaLexSafe.v that it
      terminates on any source and stays inside its buffer, LuaLexPrint.v that
      printed tokens are read back.
    - LuaOpcodes.v (lua/lopcodes.h, lopcodes.c): the instructions as 32-bit
      words, their fields, and the table of their modes.
    - LuaCheck.v (lua/ldebug.c): prototypes and the checker of their code,
      [symbexec] with all its accesses checked. LuaCheckSafe.v gives the
      control flow of the interpreter loop of lvm.c ([vm_next]) and the places
      an instruction uses ([vm_operands]), and shows that both stay inside
      checked code.
    - LuaDump.v (lua/ldump.c), LuaUndump.v (lundump.c): writing a prototype for
      a target machine, and loading it; two state monads, [dump] over a writer
      and [ldr] over the stream of LuaLex.v, where every store has a
      destination of a known size. LuaChunk.v gives the format as a
      list of bytes ([chunk]) that the one emits and the other reads
      ([emits], [reads]); LuaChunkSafe.v is about any other stream, and about
      writers that fail.
    - LuaTable.v (lua/ltable.c; lobject.c, lstring.c): tables, an array part and
      a hash part with chains between its nodes, as a state monad [tab] over
      one table; nodes are indices, a link into a vector that has been
      reallocated is [Stale]. [newkey], [rehash], [resize] and [luaH_set], which
      call each other, take the inner insertion as an argument. The invariant
      is [wf] in LuaTableHash.v: the chains are a forest, and every key is on
      the chain of its main position. LuaTableChain.v is about chains,
      LuaTableHash.v about searching, storing and inserting, LuaTablePlace.v
      about moving nodes to their positions, LuaTableRehash.v about the hash
      part resized in place, LuaTableGrow.v about the counts behind the sizes,
      LuaTableInsert.v about resizing both parts and inserting into a full
      table. LuaTableMap.v adds raw access (lapi.c) and shows what a step of a
      client does to the map that a table represents, LuaTableSpec.v any
      sequence of steps on a new table.

    ** What the theorems show

    Refinement: Ringbuffer.v and DList.v against queues and sequences, tables
    against maps, a call through the queue of the data terminal against the
    call itself. Round
    trips: every MQTT packet kind that has both sides, the length field,
    strings, dates, both clock chips, Lua tokens and quoted strings, precompiled
    functions across machines. Equivalence: the shell's tokenizer, the
    packet error code, the calendar, topic matching by levels, the I2C controller
    with its interrupts against the bit-banged master, the pattern matcher
    against the meaning of patterns, a source in other buffers, and the sizes
    of a table against the best ones. Invariants and safety:
    the free list of the memory pool, the event loop, the state of the modem
    client, the line buffer of the shell, the string library, the lexer and the
    loader of Lua on any input, the interpreter loop in checked code. End to end: every exchange of the
    MQTT client, a typed command line, a command and a data frame of the
    modem, each through all layers below. Functional behaviour on every branch:
    the serializers, the bit-banged buses, the drivers. Bounds: the control
    step, conversion codes, buffers. Termination is part of each statement of
    the form "... = Ok ...", since a loop that runs out of fuel is an error.
    Some theorems state exactly where the code does something else than it
    means to: a ring buffer that cannot be read when it is full, with the
    event loop and the data terminal that lose their commands for that reason;
    a parser of subscriptions that does not look at the size of its arrays; a
    freed block at the end of the pool that ends the free list with a poison
    value; a topic filter that accepts reserved topics;
    the waits of the I2C controller that have no end; the acknowledgement
    serializers that overrun short buffers; a pool that loses the free list
    behind a segment that fits; a client that sends stale bytes when the
    network takes a packet in pieces, and registers a handler when the broker
    refuses; a modem client that reports data as sent without a reply; a number
    whose text is longer than the buffer of a format item; a dump that never
    ends after a writer's error; code that the checker accepts and the
    interpreter runs out of.

    ** Fuel

    A loop over [n] bytes gets [n + 1] rounds. The length field of MQTT gets 5
    (it has at most four bytes), the searches of the date arithmetic 5 and 12
    (a leap cycle and a year), clock stretching the 100 polls of the source,
    the polling of a conversion its 20 polls and one more. List walks get one
    round more than the list is long, the event loop one more than there are
    events. The pattern matcher calls itself once more than the pattern is
    long, and a loop of the lexer has a round more than bytes are left
    ([fueled]). Symbolic execution follows at most one instruction more than
    it is asked to, an alignment has at most 4 rounds, and the loader calls
    itself 201 times, once more than it allows. A chain of a table is followed
    for one round more than there are nodes, [newkey] is entered twice at most
    ([rehashes]: there is room after a rehash), the search for the length
    doubles its bound 31 times and halves it 32 times. Loops that wait take their fuel as an argument: two rounds are
    enough for an exchange whose answer comes at once, one more than there
    are lines before the reply for a command, one more than there are
    characters for a typed line. With these the theorems give [Ok], so that they are enough.

    ** Parameters

    The network ([Network]), the terminal ([Console]), the serial port with
    its waits ([Serial], [Waiting]), registers ([Regs], with the bit positions
    of third-party headers and the width of [int]), the power supply of the
    modem and the memory, semaphore and tasks around the data terminal
    ([Power], [Memory], [CmdSem], [Clients]) are classes; mutexes, semaphores
    and clocks of the operating system (locked_i2c.c, async, timers), the
    application's callbacks (required to return and to keep the invariant),
    the memory layout of queued commands ([Layout], [ParamLayout]), and
    [hex_to_bcd] and [bcd_to_hex], which sd2405al.c calls and which are
    declared nowhere. Lua numbers are the C library's [double] ([Double]: its
    type, conversions and output; [Machine]: its bytes and those of the target,
    with [MachineLaws]; [Numbers]: comparison, conversion to int and the words
    that are hashed, with [NumbersLaws]), the writer of a dump and the allocator are arguments,
    and a replacement function or table is an
    argument of [str_gsub]. The event loop is modelled with one looper, and a
    task switch between operations, not inside one.

    ** What is not modelled

    The rest of the interpreter in lua (vendored: the compiler, what the
    instructions of the virtual machine compute, the collector, the other
    libraries; of the string library the registration, of the lexer the texts
    of messages, of the loader the chunks executed in place, of tables the
    metatable, dead keys, which only a collector leaves, freeing, and the
    read-only tables of lrotable.c),
    platform_os (calls of operating
    systems), MQTTFormat.c and
    the logger's printing (output), the examples, applications and unit tests,
    mmcsd (unfinished), ringstorage (a stub) and j1939 (an interface without a
    protocol). The configuration calls of ltc6804.c take a structure that is
    defined nowhere. *)
From stdpp Require Export base numbers list list_numbers.
From Stdlib Require Export ZArith Lia.
#[export] Set Default Goal Selector "!".
#[global] Open Scope Z_scope.

(** ** Machine integers

    A C integer of width [w] is a [Z]; the functions below are the
    conversions the language performs when a value is stored in an object
    of that type. *)
Definition wrap (w x : Z) : Z := x mod 2 ^ w.
Definition swrap (w x : Z) : Z := (x + 2 ^ (w - 1)) mod 2 ^ w - 2 ^ (w - 1).
Abbreviation u8 := (wrap 8).
Abbreviation u16 := (wrap 16).
Abbreviation u32 := (wrap 32).
Abbreviation s8 := (swrap 8).
Abbreviation s16 := (swrap 16).
Abbreviation s32 := (swrap 32).

Definition in_range (w x : Z) : Prop := 0 <= x < 2 ^ w.
Abbreviation is_u8 := (in_range 8).
Abbreviation is_u16 := (in_range 16).
Abbreviation is_u32 := (in_range 32).

(** C truth values: [!=0] is true; comparisons yield 0 or 1. *)
Definition ctrue (x : Z) : bool := negb (x =? 0).
Definition cbool (b : bool) : Z := if b then 1 else 0.

(** ** Outcomes

    A C function that can go wrong returns a [res]: [Err OutOfBounds] is an
    access outside the object, [Err NullDeref] the dereference of a null or
    poisoned pointer, [Err AssertLoop] the endless loop of a failing
    [ASSERT] (src/src/misc/assert.h), [Err DivByZero] and [Err SignedOverflow]
    undefined arithmetic, [Err Uninit] the use of an object nothing was
    stored in, [Err NoFuel] a loop bound of the model
    that was too small (theorems show it is not reached). *)
Inductive fault := OutOfBounds | NullDeref | AssertLoop | DivByZero | SignedOverflow | Uninit | NoFuel.
Inductive res (A : Type) : Type :=
  | Ok (a : A)
  | Err (f : fault).
Arguments Ok {A} _.
Arguments Err {A} _.

#[export] Instance fault_eq_dec : EqDecision fault.
Proof. solve_decision. Defined.
#[export] Instance res_ret : MRet res := fun A a => Ok a.
#[export] Instance res_bind : MBind res :=
  fun A B f m => match m with Ok a => f a | Err e => Err e end.

Definition is_ok {A} (m : res A) : bool := match m with Ok _ => true | Err _ => false end.

Lemma bind_ok {A B} (m : res A) (f : A -> res B) b :
  mbind f m = Ok b -> exists a, m = Ok a /\ f a = Ok b.
Proof. destruct m; cbn; naive_solver. Qed.

(** ** Byte memory: the object a pointer points into, as a list *)
Definition Zlen {A} (l : list A) : Z := Z.of_nat (length l).

Definition bget {A} (b : list A) (i : Z) : res A :=
  if 0 <=? i then match b !! Z.to_nat i with Some x => Ok x | None => Err OutOfBounds end
  else Err OutOfBounds.
Definition bset {A} (b : list A) (i : Z) (x : A) : res (list A) :=
  if (0 <=? i) && (i <? Zlen b) then Ok (<[Z.to_nat i := x]> b) else Err OutOfBounds.

(** A pointer into a byte object: [None] is the null pointer, [Some (b, o)]
    points to offset [o] of the object [b]. *)
Definition ptr : Type := option (list Z * Z).
Definition ptr_add (p : ptr) (n : Z) : ptr := match p with Some (b, o) => Some (b, o + n) | None => None end.
Definition is_null (p : ptr) : bool := match p with Some _ => false | None => true end.
Definition load (p : ptr) : res Z := match p with Some (b, o) => bget b o | None => Err NullDeref end.
Definition store (p : ptr) (x : Z) : res ptr :=
  match p with Some (b, o) => b' ← bset b o x; Ok (Some (b', o)) | None => Err NullDeref end.
(** The object behind the pointer [q], after accesses through a pointer
    derived from it, seen from the offset of [p]. *)
Definition rebase (p q : ptr) : ptr :=
  match p, q with Some (_, o), Some (b, _) => Some (b, o) | _, _ => p end.

(** Signed 32-bit arithmetic that must not overflow. *)
Definition int32 (x : Z) : res Z :=
  if (-2147483648 <=? x) && (x <=? 2147483647) then Ok x else Err SignedOverflow.

(** ** Lemmas on machine integers *)
Lemma int32_ok x : -2147483648 <= x <= 2147483647 -> int32 x = Ok x.
Proof. intros. unfold int32. by rewrite (proj2 (Z.leb_le _ x)), (proj2 (Z.leb_le x _)) by lia. Qed.

Lemma wrap_small w x : 0 <= x < 2 ^ w -> wrap w x = x.
Proof. apply Z.mod_small. Qed.

Lemma wrap_range w x : 0 <= w -> 0 <= wrap w x < 2 ^ w.
Proof. intros. apply Z.mod_pos_bound. lia. Qed.

Lemma swrap_small w x : 0 < w -> - 2 ^ (w - 1) <= x < 2 ^ (w - 1) -> swrap w x = x.
Proof.
  intros Hw Hx. unfold swrap. rewrite Z.mod_small; [lia|].
  replace (2 ^ w) with (2 * 2 ^ (w - 1)); [lia|].
  rewrite <- Z.pow_succ_r by lia. f_equal. lia.
Qed.

Lemma swrap_range w x : 0 < w -> - 2 ^ (w - 1) <= swrap w x < 2 ^ (w - 1).
Proof.
  intros Hw. unfold swrap.
  assert (2 ^ w = 2 * 2 ^ (w - 1)) as E.
  { rewrite <- Z.pow_succ_r by lia. f_equal. lia. }
  pose proof (Z.mod_pos_bound (x + 2 ^ (w - 1)) (2 ^ w)). lia.
Qed.

(** [wrap_lia] evaluates the powers of two of the fixed widths and calls
    [lia] on what is left, after removing the wraps that are the identity. *)
Ltac pow2_norm :=
  unfold in_range in *;
  change (2 ^ 8) with 256 in *; change (2 ^ 16) with 65536 in *;
  change (2 ^ 32) with 4294967296 in *.
Ltac unwrap :=
  repeat match goal with
  | |- context [wrap ?w ?x] => rewrite (wrap_small w x) by (pow2_norm; lia)
  | H : context [wrap ?w ?x] |- _ => rewrite (wrap_small w x) in H by (pow2_norm; lia)
  end.
Ltac wrap_lia := unwrap; pow2_norm; lia.

(** Turn boolean comparisons into propositions. *)
Ltac bool_to_prop :=
  repeat match goal with
  | H : (_ && _) = true |- _ => apply andb_true_iff in H as [? ?]
  | H : (_ || _) = false |- _ => apply orb_false_iff in H as [? ?]
  | H : (_ && _) = false |- _ => apply andb_false_iff in H
  | H : (_ || _) = true |- _ => apply orb_true_iff in H
  | H : negb _ = true |- _ => apply negb_true_iff in H
  | H : negb _ = false |- _ => apply negb_false_iff in H
  | H : (_ <? _) = true |- _ => apply Z.ltb_lt in H
  | H : (_ <? _) = false |- _ => apply Z.ltb_ge in H
  | H : (_ <=? _) = true |- _ => apply Z.leb_le in H
  | H : (_ <=? _) = false |- _ => apply Z.leb_gt in H
  | H : (_ =? _) = true |- _ => apply Z.eqb_eq in H
  | H : (_ =? _) = false |- _ => apply Z.eqb_neq in H
  | H : (_ >=? _) = _ |- _ => rewrite Z.geb_leb in H
  | H : (_ >? _) = _ |- _ => rewrite Z.gtb_ltb in H
  end.

(** Split on the first boolean test of the goal and keep it as a fact. *)
Ltac case_test :=
  match goal with
  | |- context [if ?b then _ else _] =>
    lazymatch b with context [if _ then _ else _] => fail | _ => idtac end;
    let E := fresh "E" in destruct b eqn:E; bool_to_prop
  end.

(** Check a decidable statement on the [n] integers from [a] on. *)
Lemma range_forallb (n : nat) (P : Z -> bool) (a : Z) :
  forallb (fun i => P (a + Z.of_nat i)) (seq 0 n) = true ->
  forall x, a <= x < a + Z.of_nat n -> P x = true.
Proof.
  intros H x Hx. rewrite forallb_forall in H.
  specialize (H (Z.to_nat (x - a))). rewrite in_seq in H.
  replace (a + Z.of_nat (Z.to_nat (x - a))) with x in H by lia. apply H. lia.
Qed.

(** ** Lemmas on byte memory *)
Section memory.
  Context {A : Type}.
  Implicit Types (b l : list A) (i : Z) (x : A).

Lemma Zlen_nonneg l : 0 <= Zlen l.
  Proof. unfold Zlen. lia. Qed.
Lemma Zlen_nil : Zlen (@nil A) = 0.
  Proof. done. Qed.
Lemma Zlen_cons x l : Zlen (x :: l) = 1 + Zlen l.
  Proof. unfold Zlen. cbn. lia. Qed.
Lemma Zlen_app l1 l2 : Zlen (l1 ++ l2) = Zlen l1 + Zlen l2.
  Proof. unfold Zlen. rewrite length_app. lia. Qed.
Lemma Zlen_insert i x l : Zlen (<[Z.to_nat i := x]> l) = Zlen l.
  Proof. unfold Zlen. by rewrite length_insert. Qed.
Lemma Zlen_to_nat l : Z.to_nat (Zlen l) = length l.
  Proof. unfold Zlen. lia. Qed.
Lemma Zlen_replicate n x : Zlen (replicate n x) = Z.of_nat n.
  Proof. unfold Zlen. by rewrite length_replicate. Qed.

Lemma bget_Ok b i x : bget b i = Ok x <-> 0 <= i /\ b !! Z.to_nat i = Some x.
  Proof. unfold bget. case_test; destruct (b !! Z.to_nat i); naive_solver lia. Qed.
Lemma bget_in b i : 0 <= i < Zlen b -> exists x, bget b i = Ok x.
  Proof.
    intros [? Hi]. destruct (lookup_lt_is_Some_2 b (Z.to_nat i)) as [x Hx].
    { unfold Zlen in Hi. lia. }
    exists x. by apply bget_Ok.
  Qed.
Lemma bset_in b i x : 0 <= i < Zlen b -> bset b i x = Ok (<[Z.to_nat i := x]> b).
  Proof. intros. unfold bset. by rewrite (proj2 (Z.leb_le 0 i)), (proj2 (Z.ltb_lt i _)) by lia. Qed.
Lemma bset_Ok b i x b' :
    bset b i x = Ok b' <-> 0 <= i < Zlen b /\ b' = <[Z.to_nat i := x]> b.
  Proof. unfold bset. case_test; naive_solver lia. Qed.

  (** Sequential access: what a pointer that walks through a prefix sees. *)
Lemma bget_middle l x l2 : bget (l ++ x :: l2) (Zlen l) = Ok x.
  Proof. apply bget_Ok. split; [apply Zlen_nonneg|]. by rewrite Zlen_to_nat, list_lookup_middle. Qed.
Lemma bset_middle l x y l2 : bset (l ++ x :: l2) (Zlen l) y = Ok (l ++ y :: l2).
  Proof.
    rewrite bset_in.
    - by rewrite Zlen_to_nat, insert_app_r_alt, Nat.sub_diag by lia.
    - pose proof (Zlen_nonneg l). pose proof (Zlen_nonneg l2). rewrite Zlen_app, Zlen_cons. lia.
  Qed.
End memory.

Create Rewrite HintDb zlen.
#[export] Hint Rewrite @Zlen_nil @Zlen_cons @Zlen_app @Zlen_insert @Zlen_replicate : zlen.
Ltac zlen :=
  autorewrite with zlen in *;
  repeat match goal with
  | |- context [@Zlen ?A []] => change (@Zlen A []) with 0
  | H : context [@Zlen ?A []] |- _ => change (@Zlen A []) with 0 in H
  end.
#[export] Hint Resolve Zlen_nonneg : core.
Lemma Zlen_eqb0 {A} (l : list A) : l <> [] -> (Zlen l =? 0) = false.
Proof. intros H. apply Z.eqb_neq. destruct l; [done|]. unfold Zlen. cbn. lia. Qed.

(** ** Writing a run of bytes

    [overwrite b o l] is [b] after the bytes [l] were stored from offset
    [o] on; [slice b o n] the [n] bytes from offset [o] on. *)
Definition overwrite {A} (b : list A) (o : Z) (l : list A) : list A :=
  take (Z.to_nat o) b ++ l ++ drop (Z.to_nat o + length l) b.
Definition slice {A} (b : list A) (o n : Z) : list A := take (Z.to_nat n) (drop (Z.to_nat o) b).

Section overwrite.
  Context {A : Type}.
  Implicit Types (b l : list A) (o : Z) (x : A).

Lemma overwrite_nil b o : overwrite b o [] = b.
  Proof. unfold overwrite. cbn. by rewrite Nat.add_0_r, take_drop. Qed.

Lemma Zlen_overwrite b o l : 0 <= o -> o + Zlen l <= Zlen b -> Zlen (overwrite b o l) = Zlen b.
  Proof. unfold overwrite, Zlen. rewrite !length_app, length_take, length_drop. lia. Qed.

Lemma bset_overwrite b o l x i :
    0 <= o -> o + Zlen l < Zlen b -> i = o + Zlen l ->
    bset (overwrite b o l) i x = Ok (overwrite b o (l ++ [x])).
  Proof.
    intros Ho Hl ->. unfold overwrite.
    assert (length (take (Z.to_nat o) b) = Z.to_nat o) as Et.
    { rewrite length_take. unfold Zlen in Hl. lia. }
    destruct (drop (Z.to_nat o + length l) b) as [|y r] eqn:Ed.
    { apply (f_equal length) in Ed. rewrite length_drop in Ed. unfold Zlen in Hl. cbn in Ed. lia. }
    replace (o + Zlen l) with (Zlen (take (Z.to_nat o) b ++ l)).
    2: { rewrite Zlen_app. unfold Zlen at 1. rewrite Et. lia. }
    rewrite app_assoc, bset_middle, <- !app_assoc. cbn.
    do 4 f_equal. rewrite length_app. cbn.
    replace (Z.to_nat o + (length l + 1))%nat with (Z.to_nat o + length l + 1)%nat by lia.
    by rewrite <- drop_drop, Ed.
  Qed.

Lemma overwrite_overwrite b o l1 l2 o2 :
    0 <= o -> o2 = o + Zlen l1 -> o + Zlen l1 + Zlen l2 <= Zlen b ->
    overwrite (overwrite b o l1) o2 l2 = overwrite b o (l1 ++ l2).
  Proof.
    intros Ho -> Hl. unfold overwrite.
    assert (length (take (Z.to_nat o) b ++ l1) = Z.to_nat (o + Zlen l1)) as Et.
    { rewrite length_app, length_take. unfold Zlen in *. lia. }
    rewrite (app_assoc (take _ b) l1), take_app_le, take_ge by lia.
    rewrite <- !app_assoc. do 3 f_equal.
    rewrite (app_assoc (take _ b) l1), drop_app_ge by lia.
    rewrite Et, drop_drop, length_app. f_equal. unfold Zlen. lia.
  Qed.

Lemma slice_overwrite b o l :
    0 <= o -> o + Zlen l <= Zlen b -> slice (overwrite b o l) o (Zlen l) = l.
  Proof.
    intros Ho Hl. unfold slice, overwrite.
    rewrite drop_app_length' by (rewrite length_take; unfold Zlen in *; lia).
    by rewrite take_app_length' by (unfold Zlen; lia).
  Qed.

Lemma take_overwrite_all b l : Zlen l <= Zlen b -> take (length l) (overwrite b 0 l) = l.
  Proof. intros. unfold overwrite. change (Z.to_nat 0) with 0%nat. rewrite take_0, app_nil_l. apply take_app_length. Qed.

  (** A write leaves the bytes before and behind it alone. *)
Lemma slice_overwrite_disjoint b p l o n :
    0 <= o -> 0 <= p -> 0 <= n -> p + Zlen l <= Zlen b -> o + n <= p \/ p + Zlen l <= o ->
    slice (overwrite b p l) o n = slice b o n.
  Proof.
    intros Ho Hp Hn Hb Hd. unfold slice, overwrite, Zlen in *.
    assert (Ht : length (take (Z.to_nat p) b) = Z.to_nat p) by (rewrite length_take; lia).
    destruct Hd as [Hd|Hd].
    - rewrite drop_app_le by lia. rewrite take_app_le by (rewrite length_drop; lia).
      rewrite <- (take_drop (Z.to_nat p) b) at 2.
      rewrite (drop_app_le (take _ b)) by lia. rewrite take_app_le by (rewrite length_drop; lia). done.
    - rewrite app_assoc, drop_app_ge by (rewrite length_app; lia). rewrite length_app, Ht, drop_drop.
      do 2 f_equal. lia.
  Qed.
Lemma bget_slice b o n i : 0 <= o -> 0 <= i < n -> bget (slice b o n) i = bget b (o + i).
  Proof.
    intros Ho Hi. unfold bget, slice. rewrite (proj2 (Z.leb_le 0 i)), (proj2 (Z.leb_le 0 (o + i))) by lia.
    rewrite lookup_take_lt, lookup_drop by lia. by rewrite Z2Nat.inj_add by lia.
  Qed.
End overwrite.

(** ** Reading a run of bytes

    [suffix b p l]: from offset [p] on, the object [b] holds exactly [l].
    [read_bytes b p n] is what [memcpy] reads from there. *)
Definition suffix {A} (b : list A) (p : Z) (l : list A) : Prop :=
  0 <= p <= Zlen b /\ drop (Z.to_nat p) b = l.
Definition read_bytes {A} (b : list A) (p n : Z) : res (list A) :=
  if (0 <=? p) && (0 <=? n) && (p + n <=? Zlen b) then Ok (slice b p n) else Err OutOfBounds.

Section suffix.
  Context {A : Type}.
  Implicit Types (b l r : list A) (p : Z) (x : A).

Lemma suffix_start b : suffix b 0 b.
Proof. split; [pose proof (Zlen_nonneg b); lia|done]. Qed.

Lemma suffix_middle l r : suffix (l ++ r) (Zlen l) r.
Proof.
  split; [rewrite Zlen_app; pose proof (Zlen_nonneg l); pose proof (Zlen_nonneg r); lia|].
  by rewrite Zlen_to_nat, drop_app_length.
Qed.

Lemma suffix_app b p l r q : suffix b p (l ++ r) -> q = p + Zlen l -> suffix b q r.
Proof.
  intros [Hp E] ->. pose proof (f_equal length E) as El. rewrite length_drop, length_app in El.
  unfold Zlen in *. split; [unfold Zlen in *; lia|].
  replace (Z.to_nat (p + Z.of_nat (length l))) with (Z.to_nat p + length l)%nat by lia.
  by rewrite <- drop_drop, E, drop_app_length.
Qed.

Lemma suffix_cons b p x r : suffix b p (x :: r) -> bget b p = Ok x /\ suffix b (p + 1) r.
Proof.
  intros H. split.
  - destruct H as [Hp E]. apply bget_Ok. split; [lia|].
    rewrite <- (Nat.add_0_r (Z.to_nat p)), <- lookup_drop, E. done.
  - by apply (suffix_app b p [x] r).
Qed.

Lemma suffix_len b p l : suffix b p l -> Zlen b = p + Zlen l.
Proof. intros [Hp E]. apply (f_equal length) in E. rewrite length_drop in E. unfold Zlen in *. lia. Qed.

Lemma suffix_read_bytes b p l r n : suffix b p (l ++ r) -> n = Zlen l -> read_bytes b p n = Ok l.
Proof.
  intros H ->. pose proof (suffix_len _ _ _ H) as El. destruct H as [Hp E]. rewrite Zlen_app in El.
  pose proof (Zlen_nonneg l). pose proof (Zlen_nonneg r).
  unfold read_bytes.
  rewrite (proj2 (Z.leb_le 0 p)) by lia. rewrite (proj2 (Z.leb_le 0 (Zlen l))) by lia.
  rewrite (proj2 (Z.leb_le (p + Zlen l) _)) by lia.
  cbn. unfold slice. by rewrite E, Zlen_to_nat, take_app_length.
Qed.
End suffix.

(** ** C strings: the array up to its terminating zero *)
Fixpoint strlen (s : list Z) : res Z :=
  match s with
  | [] => Err OutOfBounds
  | c :: s => if c =? 0 then Ok 0 else n ← strlen s; Ok (n + 1)
  end.

Lemma strlen_eq l r : Forall (fun c => c <> 0) l -> strlen (l ++ 0 :: r) = Ok (Zlen l).
Proof.
  induction 1 as [|c l Hc Hl IH]; [done|]. cbn. rewrite (proj2 (Z.eqb_neq c 0) Hc), IH. cbn.
  rewrite Zlen_cons. f_equal. lia.
Qed.

(** Bytes, checked by evaluation. *)
Lemma bytes_ok (l : list Z) :
  forallb (fun b => (0 <=? b) && (b <? 256)) l = true -> Forall (fun b => 0 <= b < 256) l.
Proof. intros H. apply Forall_forall. intros b Hb%list_elem_of_In. rewrite forallb_forall in H. specialize (H b Hb). bool_to_prop. lia. Qed.

(** Division of [x] by [d] rounded to nearest, the way the C code writes
    it: the result is within half a divisor, and below a bound that [x] is
    below. *)
Lemma round_div x d : 0 < d -> 2 * Z.abs ((x + d / 2) / d * d - x) <= d.
Proof.
  intros Hd. pose proof (Z.div_mod (x + d / 2) d ltac:(lia)). pose proof (Z.mod_pos_bound (x + d / 2) d Hd).
  pose proof (Z.div_mod d 2 ltac:(lia)). pose proof (Z.mod_pos_bound d 2). nia.
Qed.
Lemma round_div_nonneg x d : 0 < d -> 0 <= x -> 0 <= (x + d / 2) / d.
Proof. intros. apply Z.div_pos; [|lia]. pose proof (Z.div_pos d 2). lia. Qed.
Lemma round_div_le x d n : 0 < d -> x <= n * d -> (x + d / 2) / d <= n.
Proof.
  intros Hd Hx. apply Z.lt_succ_r. apply Z.div_lt_upper_bound; [lia|].
  pose proof (Z.div_mod d 2 ltac:(lia)). pose proof (Z.mod_pos_bound d 2). nia.
Qed.

(** Joining bit fields is addition. *)
Lemma lor_add hi lo k : 0 <= k -> 0 <= lo < 2 ^ k -> Z.lor (hi * 2 ^ k) lo = hi * 2 ^ k + lo.
Proof.
  intros Hk Hlo.
  assert (E : Z.land (hi * 2 ^ k) lo = 0).
  { apply Z.bits_inj'. intros n Hn. rewrite Z.land_spec, Z.bits_0, Z.mul_pow2_bits by lia.
    destruct (Z.ltb_spec n k).
    - by rewrite (Z.testbit_neg_r hi) by lia.
    - rewrite <- (Z.mod_small lo (2 ^ k)) by lia. rewrite Z.mod_pow2_bits_high by lia. by rewrite andb_false_r. }
  by rewrite <- Z.lxor_lor, <- Z.add_nocarry_lxor.
Qed.
