(* ===== verification/Ringbuffer.v ===== *)
(** The byte ring buffer of src/src/ringbuffer/ringbuffer.c: its struct, one
    definition per function, the representation relation [repr] of its
    contents as a FIFO queue, and the theorems about every operation. *)
From S2P Require Import Prelude.

(** ** The structure and the operations *)

(** [struct ringbuffer]; [rb_buf] is the array [buf] points to and the
    index fields have the type [RINGBUFFER_SIZE_TYPE] = [uint16_t]. *)
Record ringbuffer := MkRb {
  rb_cap : Z;
  rb_len : Z;
  rb_in : Z;
  rb_out : Z;
  rb_buf : list Z
}.

Definition set_len (rb : ringbuffer) (n : Z) : ringbuffer :=
  MkRb (rb_cap rb) n (rb_in rb) (rb_out rb) (rb_buf rb).
Definition set_in (rb : ringbuffer) (n : Z) : ringbuffer :=
  MkRb (rb_cap rb) (rb_len rb) n (rb_out rb) (rb_buf rb).
Definition set_out (rb : ringbuffer) (n : Z) : ringbuffer :=
  MkRb (rb_cap rb) (rb_len rb) (rb_in rb) n (rb_buf rb).

(** The guard [RINGBUFFER_IS_VALID]: the operations on a null buffer. *)
Definition guard_valid {A} (rb : option ringbuffer) (zero : A)
    (f : ringbuffer -> res (ringbuffer * A)) : res (option ringbuffer * A) :=
  match rb with
  | None => Ok (None, zero)
  | Some rb => '(rb', a) ← f rb; Ok (Some rb', a)
  end.

Definition rb_clear (rb : ringbuffer) : ringbuffer := set_out (set_in (set_len rb 0) 0) 0.
Definition ringbuffer_clear (rb : option ringbuffer) : option ringbuffer := rb_clear <$> rb.

Definition ringbuffer_init (buf : list Z) (len : Z) : ringbuffer := MkRb (u16 len) 0 0 0 buf.

(** [rb->buf[rb->in++] = b; if (rb->in >= rb->cap) rb->in = 0; ++rb->len;] *)
Definition push_byte (rb : ringbuffer) (b : Z) : res ringbuffer :=
  buf ← bset (rb_buf rb) (rb_in rb) b;
  let in1 := u16 (rb_in rb + 1) in
  let in2 := if rb_cap rb <=? in1 then 0 else in1 in
  Ok (MkRb (rb_cap rb) (u16 (rb_len rb + 1)) in2 (rb_out rb) buf).

(** [c = rb->buf[rb->out]; ++rb->out; if (rb->out >= rb->cap) rb->out = 0; --rb->len;] *)
Definition take_byte (rb : ringbuffer) : res (Z * ringbuffer) :=
  c ← bget (rb_buf rb) (rb_out rb);
  let out1 := u16 (rb_out rb + 1) in
  let out2 := if rb_cap rb <=? out1 then 0 else out1 in
  Ok (c, MkRb (rb_cap rb) (u16 (rb_len rb - 1)) (rb_in rb) out2 (rb_buf rb)).

Fixpoint put_loop (fuel : nat) (rb : ringbuffer) (uch len i : Z) : res (ringbuffer * Z) :=
  match fuel with
  | O => Err NoFuel
  | S fuel =>
    if (i <? len) && (rb_len rb <? rb_cap rb) then
      rb' ← push_byte rb uch; put_loop fuel rb' uch len (u16 (i + 1))
    else Ok (rb, i)
  end.
Definition rb_put (rb : ringbuffer) (uch len : Z) : res (ringbuffer * Z) :=
  put_loop (S (Z.to_nat len)) rb uch len 0.
Definition ringbuffer_put (rb : option ringbuffer) (uch len : Z) : res (option ringbuffer * Z) :=
  guard_valid rb 0 (fun rb => rb_put rb uch len).

(** The loops over a destination pointer return the buffer behind it. *)
Fixpoint try_read_loop (fuel : nat) (rb : ringbuffer) (buf : ptr) (len i : Z)
    : res (ringbuffer * (ptr * Z)) :=
  match fuel with
  | O => Err NoFuel
  | S fuel =>
    if (i <? len) && (0 <? rb_len rb) then
      '(c, rb') ← take_byte rb;
      buf' ← store buf c;
      try_read_loop fuel rb' (ptr_add buf' 1) len (u16 (i + 1))
    else Ok (rb, (buf, i))
  end.
Definition rb_try_read (rb : ringbuffer) (buf : ptr) (len : Z) : res (ringbuffer * (ptr * Z)) :=
  if is_null buf then Ok (rb, (buf, 0)) else
  '(rb', (b, i)) ← try_read_loop (S (Z.to_nat len)) rb buf len 0;
  Ok (rb', (rebase buf b, i)).
Definition ringbuffer_try_read (rb : option ringbuffer) (buf : ptr) (len : Z) :=
  guard_valid rb (buf, 0) (fun rb => rb_try_read rb buf len).

Fixpoint try_read_util_loop (fuel : nat) (rb : ringbuffer) (buf : ptr) (len term i : Z)
    : res (ringbuffer * (ptr * Z)) :=
  match fuel with
  | O => Err NoFuel
  | S fuel =>
    if (i <? len) && (0 <? rb_len rb) then
      '(c, rb') ← take_byte rb;
      buf' ← store buf c;
      if c =? term then Ok (rb', (buf', u16 (i + 1)))
      else try_read_util_loop fuel rb' (ptr_add buf' 1) len term (u16 (i + 1))
    else Ok (rb, (buf, i))
  end.
Definition rb_try_read_util (rb : ringbuffer) (buf : ptr) (len term : Z) : res (ringbuffer * (ptr * Z)) :=
  if is_null buf then Ok (rb, (buf, 0)) else
  '(rb', (b, i)) ← try_read_util_loop (S (Z.to_nat len)) rb buf len term 0;
  Ok (rb', (rebase buf b, i)).
Definition ringbuffer_try_read_util (rb : option ringbuffer) (buf : ptr) (len term : Z) :=
  guard_valid rb (buf, 0) (fun rb => rb_try_read_util rb buf len term).

Fixpoint try_write_loop (fuel : nat) (rb : ringbuffer) (dat : ptr) (len i : Z) : res (ringbuffer * Z) :=
  match fuel with
  | O => Err NoFuel
  | S fuel =>
    if (i <? len) && (rb_len rb <? rb_cap rb) then
      c ← load dat;
      rb' ← push_byte rb c;
      try_write_loop fuel rb' (ptr_add dat 1) len (u16 (i + 1))
    else Ok (rb, i)
  end.
Definition rb_try_write (rb : ringbuffer) (dat : ptr) (len : Z) : res (ringbuffer * Z) :=
  if is_null dat then Ok (rb, 0) else try_write_loop (S (Z.to_nat len)) rb dat len 0.
Definition ringbuffer_try_write (rb : option ringbuffer) (dat : ptr) (len : Z) :=
  guard_valid rb 0 (fun rb => rb_try_write rb dat len).

(** [rb->cap - rb->len] is computed in [int]; both fields are [uint16_t]. *)
Definition rb_read (rb : ringbuffer) (buf : ptr) (len : Z) : res (ringbuffer * (ptr * Z)) :=
  if rb_cap rb - rb_len rb <? len then Ok (rb, (buf, 0)) else rb_try_read rb buf len.
Definition ringbuffer_read (rb : option ringbuffer) (buf : ptr) (len : Z) :=
  guard_valid rb (buf, 0) (fun rb => rb_read rb buf len).

Definition rb_write (rb : ringbuffer) (dat : ptr) (len : Z) : res (ringbuffer * Z) :=
  if rb_cap rb - rb_len rb <? len then Ok (rb, 0) else rb_try_write rb dat len.
Definition ringbuffer_write (rb : option ringbuffer) (dat : ptr) (len : Z) :=
  guard_valid rb 0 (fun rb => rb_write rb dat len).

Definition rb_get_left_space (rb : ringbuffer) : Z := u16 (rb_cap rb - rb_len rb).
Definition ringbuffer_get_left_space (rb : option ringbuffer) : Z :=
  match rb with None => 0 | Some rb => rb_get_left_space rb end.

(** [pop_char]: the character read, or [None] (return value 0). *)
Definition pop_char (rb : ringbuffer) : res (ringbuffer * option Z) :=
  if rb_len rb =? 0 then Ok (rb, None)
  else '(c, rb') ← take_byte rb; Ok (rb', Some c).

Fixpoint read_string_loop (fuel : nat) (rb : ringbuffer) (buf : ptr) (bufSize ret : Z)
    : res (ringbuffer * (ptr * Z)) :=
  match fuel with
  | O => Err NoFuel
  | S fuel =>
    '(rb', oc) ← pop_char rb;
    match oc with
    | None => Ok (rb', (buf, ret))
    | Some chr =>
      '(buf', ret') ←
        (if negb (is_null buf) && (ret <? bufSize)
         then b ← store (ptr_add buf ret) chr; Ok (rebase buf b, u16 (ret + 1))
         else Ok (buf, ret));
      if chr =? 0 then Ok (rb', (buf', ret')) else read_string_loop fuel rb' buf' bufSize ret'
    end
  end.
Definition rb_read_string (rb : ringbuffer) (buf : ptr) (bufSize : Z) : res (ringbuffer * (ptr * Z)) :=
  read_string_loop (S (Z.to_nat (rb_len rb))) rb buf bufSize 0.
Definition ringbuffer_read_string (rb : option ringbuffer) (buf : ptr) (bufSize : Z) :=
  guard_valid rb (buf, 0) (fun rb => rb_read_string rb buf bufSize).

(** [saved += ringbuffer_read_string(rb, &buf[saved], *size - saved)] *)
Definition read_rest (rb : ringbuffer) (buf : ptr) (size saved : Z) : res (ringbuffer * (ptr * Z)) :=
  '(rb', (b, n)) ← rb_read_string rb (ptr_add buf saved) (u16 (size - saved));
  Ok (rb', (rebase buf b, u16 (saved + n))).

(** The [for] loop over the prefix: the state on leaving it is the buffer,
    the destination, [saved], [chr] and whether the end of the prefix was
    reached; [None] in the last component is the early [return 0]. *)
Fixpoint prefix_loop (fuel : nat) (rb : ringbuffer) (prefix : list Z) (pe : Z) (buf : ptr) (size saved chr : Z)
    : res (ringbuffer * (ptr * (Z * option (Z * bool)))) :=
  match fuel with
  | O => Err NoFuel
  | S fuel =>
    p ← bget prefix pe;
    if p =? 0 then Ok (rb, (buf, (saved, Some (chr, true)))) else
    '(rb', oc) ← pop_char rb;
    match oc with
    | None => Ok (rb', (buf, (saved, None)))
    | Some chr =>
      '(buf', saved') ←
        (if negb (is_null buf) && (saved <? size)
         then b ← store (ptr_add buf saved) chr; Ok (rebase buf b, u16 (saved + 1))
         else Ok (buf, saved));
      if p =? chr then prefix_loop fuel rb' prefix (pe + 1) buf' size saved' chr
      else if chr =? 0 then Ok (rb', (buf', (saved', Some (chr, false))))
      else '(rb2, (buf2, saved2)) ← read_rest rb' buf' size saved';
           Ok (rb2, (buf2, (saved2, Some (chr, false))))
    end
  end.

(** [prefix] and [size] may be null; [size] is read and written. *)
Definition rb_read_string_and_is_with_prefix (rb : ringbuffer) (prefix : option (list Z)) (buf : ptr)
    (size : option Z) : res (ringbuffer * (ptr * (option Z * Z))) :=
  match size with
  | None => Ok (rb, (buf, (None, 0)))
  | Some size =>
    match prefix with
    | None =>
      '(rb', (buf', n)) ← rb_read_string rb buf size;
      Ok (rb', (buf', (Some n, cbool (0 <? n))))
    | Some prefix =>
      '(rb', (buf', (saved, out))) ← prefix_loop (S (length prefix)) rb prefix 0 buf size 0 1;
      match out with
      | None | Some (_, false) => Ok (rb', (buf', (Some saved, 0)))
      | Some (chr, true) =>
        if negb (chr =? 0) then
          '(rb2, (buf2, saved2)) ← read_rest rb' buf' size saved;
          Ok (rb2, (buf2, (Some saved2, 1)))
        else if negb (is_null buf') && (saved <? size) then
          b ← store (ptr_add buf' saved) 0;
          Ok (rb', (rebase buf' b, (Some saved, 1)))
        else Ok (rb', (buf', (Some saved, 1)))
      end
    end
  end.
Definition ringbuffer_read_string_and_is_with_prefix (rb : option ringbuffer) (prefix : option (list Z))
    (buf : ptr) (size : option Z) :=
  guard_valid rb (buf, (size, 0)) (fun rb => rb_read_string_and_is_with_prefix rb prefix buf size).

Definition rb_drop_from_tail (rb : ringbuffer) (size : Z) : ringbuffer * Z :=
  if size =? 0 then (rb, 0) else
  let size := if size <? rb_len rb then rb_len rb else size in
  let out := if rb_out rb <? size then u16 (rb_out rb + rb_cap rb - size) else u16 (rb_out rb - size) in
  (set_len (set_out rb out) (u16 (rb_len rb - size)), size).
Definition ringbuffer_drop_from_tail (rb : option ringbuffer) (size : Z) :=
  guard_valid rb 0 (fun rb => Ok (rb_drop_from_tail rb size)).

Definition rb_drop_from_head (rb : ringbuffer) (size : Z) : ringbuffer * Z :=
  let size := if size <? rb_len rb then rb_len rb else size in
  let in1 := u16 (rb_in rb + size) in
  let in2 := if rb_cap rb <=? in1 then u16 (in1 - rb_cap rb) else in1 in
  (set_len (set_in rb in2) (u16 (rb_len rb - size)), size).
Definition ringbuffer_drop_from_head (rb : option ringbuffer) (size : Z) :=
  guard_valid rb 0 (fun rb => Ok (rb_drop_from_head rb size)).

(** ** Abstract specification: a bounded FIFO queue of bytes *)

(** The index [i < 2*cap] of the circular array. *)
Definition idx (cap i : Z) : Z := if i <? cap then i else i - cap.

#[global] Arguments idx : simpl never.

(** The queue a buffer stands for, oldest byte first. *)
Definition contents (rb : ringbuffer) : list Z :=
  (fun k => rb_buf rb !!! Z.to_nat (idx (rb_cap rb) (rb_out rb + k))) <$> seqZ 0 (rb_len rb).

(** Representation invariant of a buffer that was initialised with an
    array of [cap] bytes. *)
Record wf (rb : ringbuffer) : Prop := {
  wf_cap : 0 < rb_cap rb < 65536;
  wf_buf : Zlen (rb_buf rb) = rb_cap rb;
  wf_len : 0 <= rb_len rb <= rb_cap rb;
  wf_out : 0 <= rb_out rb < rb_cap rb;
  wf_in : rb_in rb = idx (rb_cap rb) (rb_out rb + rb_len rb)
}.

(** [repr rb c q]: the buffer is well formed, has capacity [c] and holds [q]. *)
Definition repr (rb : ringbuffer) (c : Z) (q : list Z) : Prop :=
  wf rb /\ rb_cap rb = c /\ contents rb = q.

Lemma contents_length rb : Zlen (contents rb) = Z.max 0 (rb_len rb).
Proof. unfold contents, Zlen. rewrite length_fmap, length_seqZ. lia. Qed.

Lemma repr_len rb c q : repr rb c q -> rb_len rb = Zlen q.
Proof. intros (W & _ & <-). rewrite contents_length. destruct W. lia. Qed.

Lemma repr_bounds rb c q : repr rb c q -> 0 < c < 65536 /\ Zlen q <= c.
Proof. intros R. pose proof (repr_len _ _ _ R). destruct R as ([] & <- & _). lia. Qed.

Lemma seqZ_snoc m n : 0 <= n -> seqZ m (n + 1) = seqZ m n ++ [m + n].
Proof.
  intros. rewrite (seqZ_app m n 1) by lia. f_equal.
Qed.

(** The FIFO primitives the functions are made of. *)
Lemma repr_push rb c q b :
  repr rb c q -> Zlen q < c ->
  exists rb', push_byte rb b = Ok rb' /\ repr rb' c (q ++ [b]).
Proof.
  intros R Hq. pose proof (repr_len _ _ _ R) as Hl. destruct R as ([] & <- & <-).
  assert (0 <= rb_in rb < rb_cap rb) by (rewrite wf_in0; unfold idx; case_test; lia).
  unfold push_byte. rewrite bset_in by lia. cbn.
  unwrap. eexists; split; [done|].
  split; [|split; [done|]].
  - split; cbn; rewrite ?Zlen_insert; try lia.
    rewrite wf_in0. unfold idx. repeat case_test; wrap_lia.
  - unfold contents; cbn. rewrite seqZ_snoc, fmap_app by lia. f_equal.
    + apply list_fmap_ext. intros i k Hk. apply lookup_seqZ in Hk as [-> ?].
      rewrite list_lookup_total_insert_ne; [done|].
      rewrite wf_in0. unfold idx. repeat case_test; lia.
    + cbn. f_equal. rewrite Z.add_0_l, <- wf_in0. apply list_lookup_total_insert_eq.
      unfold Zlen in wf_buf0. rewrite wf_in0. unfold idx. case_test; lia.
Qed.

Lemma contents_cons rb x q :
  wf rb -> contents rb = x :: q ->
  rb_buf rb !! Z.to_nat (rb_out rb) = Some x /\
  q = (fun k => rb_buf rb !!! Z.to_nat (idx (rb_cap rb) (rb_out rb + k))) <$> seqZ 1 (rb_len rb - 1).
Proof.
  intros W Hc. pose proof (contents_length rb) as Hl. rewrite Hc in Hl. zlen.
  pose proof (Zlen_nonneg q). destruct W.
  unfold contents in Hc. rewrite seqZ_cons in Hc by lia. cbn in Hc. injection Hc as <- Hq.
  split.
  - rewrite Z.add_0_r. unfold idx. rewrite (proj2 (Z.ltb_lt _ _)) by lia.
    apply list_lookup_lookup_total_lt. unfold Zlen in wf_buf0. lia.
  - rewrite <- Hq. done.
Qed.

Lemma repr_take rb c x q :
  repr rb c (x :: q) -> exists rb', take_byte rb = Ok (x, rb') /\ repr rb' c q.
Proof.
  intros R. pose proof (repr_len _ _ _ R) as Hl. destruct R as (W & <- & Hc).
  destruct (contents_cons _ _ _ W Hc) as [Hx Hq]. zlen. pose proof (Zlen_nonneg q). destruct W.
  unfold take_byte. rewrite (proj2 (bget_Ok (rb_buf rb) (rb_out rb) x)) by (split; [lia|done]). cbn.
  unwrap. eexists; split; [done|]. split; [|split; [done|]].
  - split; cbn; try (repeat case_test; lia).
    rewrite wf_in0. unfold idx. repeat case_test; lia.
  - rewrite Hq. unfold contents; cbn.
    rewrite <- (fmap_add_seqZ 1 0), <- list_fmap_compose. cbn.
    apply list_fmap_ext. intros i k Hk. apply lookup_seqZ in Hk as [-> ?]. cbn.
    do 2 f_equal. unfold idx. repeat case_test; lia.
Qed.

(** What a walking pointer [p] sees: [points p l] when the bytes [l] are in
    the object from the pointer's offset on, [room p n] when [n] bytes can
    be stored there, and [written p l] the pointer's object afterwards. *)
Definition points (p : ptr) (l : list Z) : Prop :=
  match p with Some (b, o) => 0 <= o /\ slice b o (Zlen l) = l /\ o + Zlen l <= Zlen b | None => False end.
Definition room (p : ptr) (n : Z) : Prop :=
  match p with Some (b, o) => 0 <= o /\ o + n <= Zlen b | None => False end.
Definition written (p : ptr) (l : list Z) : ptr :=
  match p with Some (b, o) => Some (overwrite b o l, o) | None => None end.

Lemma points_nil p : points p [] -> is_null p = false.
Proof. by destruct p. Qed.

Lemma points_cons p x l : points p (x :: l) -> load p = Ok x /\ points (ptr_add p 1) l.
Proof.
  destruct p as [[b o]|]; cbn; [|done]. intros (Ho & Hs & Hl). zlen. pose proof (Zlen_nonneg l).
  unfold slice in *. split.
  - apply bget_Ok. split; [done|].
    apply (f_equal (lookup 0%nat)) in Hs. cbn in Hs.
    rewrite lookup_take_lt in Hs by (unfold Zlen in *; cbn in *; lia).
    by rewrite lookup_drop, Nat.add_0_r in Hs.
  - split; [lia|]. split; [|lia].
    apply (f_equal tail) in Hs. cbn in Hs. rewrite <- Hs at 2.
    replace (Z.to_nat (o + 1)) with (Z.to_nat o + 1)%nat by lia. rewrite <- drop_drop.
    replace (Z.to_nat (1 + Zlen l)) with (S (Z.to_nat (Zlen l))) by lia.
    by destruct (drop (Z.to_nat o) b); destruct (Z.to_nat (Zlen l)).
Qed.

Lemma room_le p m n : m <= n -> room p n -> room p m.
Proof. destruct p as [[b o]|]; cbn; [lia|done]. Qed.

(** A pointer that was advanced while the bytes [l] were stored. *)
Definition after (p : ptr) (l : list Z) : ptr := ptr_add (written p l) (Zlen l).

Lemma after_nil p : after p [] = p.
Proof. destruct p as [[b o]|]; cbn; [|done]. rewrite overwrite_nil, Zlen_nil. by rewrite Z.add_0_r. Qed.

Lemma rebase_after p l : rebase p (after p l) = written p l.
Proof. by destruct p as [[b o]|]. Qed.

Lemma rebase_refl p : rebase p p = p.
Proof. by destruct p as [[b o]|]. Qed.

Lemma store_after p l x :
  room p (Zlen l + 1) -> exists q, store (after p l) x = Ok q /\ ptr_add q 1 = after p (l ++ [x]) /\
    rebase p q = written p (l ++ [x]).
Proof.
  destruct p as [[b o]|]; cbn; [|done]. intros [Ho Hl].
  rewrite bset_overwrite by lia. cbn. eexists; split; [done|]. cbn. zlen.
  split; [|done]. do 2 f_equal. change (Zlen []) with 0. lia.
Qed.

(** ** The loops, against the queue *)
Lemma put_loop_spec fuel rb c q u len i :
  repr rb c q -> 0 <= i <= len -> len < 65536 -> len - i < Z.of_nat fuel ->
  let k := Z.min (len - i) (c - Zlen q) in
  exists rb', put_loop fuel rb u len i = Ok (rb', i + k) /\
              repr rb' c (q ++ replicate (Z.to_nat k) u).
Proof.
  revert rb q i. induction fuel as [|fuel IH]; intros rb q i R Hi Hl Hf k; [lia|].
  pose proof (repr_len _ _ _ R) as Elen. pose proof (repr_bounds _ _ _ R).
  assert (rb_cap rb = c) as Ecap by apply R.
  cbn [put_loop]. rewrite Elen, Ecap. case_test.
  - destruct (repr_push _ _ _ u R) as (rb' & Hp & R'); [lia|]. rewrite Hp. cbn. unwrap.
    destruct (IH rb' _ (i + 1) R') as (rb2 & Hr & R2); try lia.
    rewrite Hr. zlen. exists rb2. split; [do 2 f_equal; lia|].
    replace (Z.to_nat k) with (S (Z.to_nat (Z.min (len - (i + 1)) (c - (Zlen q + (1 + 0)))))) by lia.
    cbn. by rewrite <- app_assoc in R2.
  - exists rb. replace k with 0 by lia. rewrite Z.add_0_r. cbn. by rewrite app_nil_r.
Qed.

Lemma try_write_loop_spec fuel rb c q dat l len i :
  repr rb c q -> points dat l -> Zlen l = len - i ->
  0 <= i -> len < 65536 -> len - i < Z.of_nat fuel ->
  let k := Z.min (len - i) (c - Zlen q) in
  exists rb', try_write_loop fuel rb dat len i = Ok (rb', i + k) /\
              repr rb' c (q ++ take (Z.to_nat k) l).
Proof.
  revert rb q dat l i. induction fuel as [|fuel IH]; intros rb q dat l i R Hd Hll Hi Hl Hf k.
  { pose proof (Zlen_nonneg l). lia. }
  pose proof (repr_len _ _ _ R) as Elen. pose proof (repr_bounds _ _ _ R).
  assert (rb_cap rb = c) as Ecap by apply R.
  cbn [try_write_loop]. rewrite Elen, Ecap. case_test.
  - destruct l as [|x l]; [zlen; lia|]. zlen. pose proof (Zlen_nonneg l).
    apply points_cons in Hd as [Hld Hd]. rewrite Hld. cbn.
    destruct (repr_push _ _ _ x R) as (rb' & Hp & R'); [lia|]. rewrite Hp. cbn. unwrap.
    destruct (IH rb' _ _ _ (i + 1) R' Hd) as (rb2 & Hr & R2); try lia.
    rewrite Hr. zlen. exists rb2. split; [do 2 f_equal; lia|].
    replace (Z.to_nat k) with (S (Z.to_nat (Z.min (len - (i + 1)) (c - (Zlen q + (1 + 0)))))) by lia.
    cbn. by rewrite <- app_assoc in R2.
  - exists rb. pose proof (Zlen_nonneg l). replace k with 0 by lia. rewrite Z.add_0_r. cbn.
    by rewrite app_nil_r.
Qed.

Lemma try_read_loop_spec fuel rb c q p l len i :
  repr rb c q -> room p (Zlen l + Z.min (len - i) (Zlen q)) ->
  0 <= i <= len -> len < 65536 -> len - i < Z.of_nat fuel ->
  let k := Z.min (len - i) (Zlen q) in
  exists rb', try_read_loop fuel rb (after p l) len i =
                Ok (rb', (after p (l ++ take (Z.to_nat k) q), i + k)) /\
              repr rb' c (drop (Z.to_nat k) q).
Proof.
  revert rb q l i. induction fuel as [|fuel IH]; intros rb q l i R Hp Hi Hl Hf k; [lia|].
  pose proof (repr_len _ _ _ R) as Elen.
  cbn [try_read_loop]. rewrite Elen. case_test.
  - subst k. destruct q as [|x q]; [zlen; lia|]. zlen. pose proof (Zlen_nonneg q).
    destruct (repr_take _ _ _ _ R) as (rb' & Ht & R'). rewrite Ht. cbn.
    destruct (store_after p l x) as (p' & Hs & Ha & _).
    { eapply room_le, Hp. lia. }
    rewrite Hs. cbn. rewrite Ha. unwrap.
    destruct (IH rb' q (l ++ [x]) (i + 1) R') as (rb2 & Hr & R2); try lia.
    { eapply room_le, Hp. zlen. lia. }
    rewrite Hr. exists rb2.
    replace (Z.to_nat (Z.min (len - i) (1 + Zlen q))) with (S (Z.to_nat (Z.min (len - (i + 1)) (Zlen q)))) by lia.
    cbn. rewrite <- app_assoc. split; [|done]. do 3 f_equal; lia.
  - exists rb. pose proof (Zlen_nonneg q). replace k with 0 by lia. rewrite Z.add_0_r. cbn.
    by rewrite app_nil_r, drop_0.
Qed.

(** ** The entry points, against the queue *)
Lemma rb_put_spec rb c q u n :
  repr rb c q -> is_u16 n ->
  let k := Z.min n (c - Zlen q) in
  exists rb', rb_put rb u n = Ok (rb', k) /\ repr rb' c (q ++ replicate (Z.to_nat k) u).
Proof.
  intros R Hn k. pow2_norm.
  destruct (put_loop_spec (S (Z.to_nat n)) rb c q u n 0 R) as (rb' & H & R'); try lia.
  rewrite Z.sub_0_r in *. eauto.
Qed.

Lemma rb_try_write_spec rb c q dat l :
  repr rb c q -> points dat l -> Zlen l < 65536 ->
  let k := Z.min (Zlen l) (c - Zlen q) in
  exists rb', rb_try_write rb dat (Zlen l) = Ok (rb', k) /\ repr rb' c (q ++ take (Z.to_nat k) l).
Proof.
  intros R Hd Hl k. unfold rb_try_write. destruct dat as [d|]; [|done]. cbn [is_null].
  pose proof (Zlen_nonneg l).
  destruct (try_write_loop_spec (S (Z.to_nat (Zlen l))) rb c q (Some d) l (Zlen l) 0 R Hd)
    as (rb' & H' & R'); try lia.
  rewrite Z.sub_0_r in *. eauto.
Qed.

Lemma rb_try_read_spec rb c q p n :
  repr rb c q -> is_u16 n -> room p (Z.min n (Zlen q)) ->
  let k := Z.min n (Zlen q) in
  exists rb', rb_try_read rb p n = Ok (rb', (written p (take (Z.to_nat k) q), k)) /\
              repr rb' c (drop (Z.to_nat k) q).
Proof.
  intros R Hn Hp k. pow2_norm. unfold rb_try_read. destruct (is_null p) eqn:Ep.
  { by destruct p. }
  destruct (try_read_loop_spec (S (Z.to_nat n)) rb c q p [] n 0 R) as (rb' & H & R'); try lia.
  { eapply room_le, Hp. rewrite Zlen_nil; lia. }
  rewrite after_nil, Z.sub_0_r in H. rewrite H. cbn. rewrite rebase_after.
  exists rb'. rewrite Z.sub_0_r in *. eauto.
Qed.

(** ** Strings in the queue *)

(** The oldest string of the queue, with its terminating 0 when it is
    complete, and what is behind it. *)
Fixpoint line (q : list Z) : list Z :=
  match q with [] => [] | x :: q => if x =? 0 then [x] else x :: line q end.
Definition rest (q : list Z) : list Z := drop (length (line q)) q.

(** What is stored of the bytes [l] into [size] bytes at [p]. *)
Definition keep (p : ptr) (size : Z) (l : list Z) : list Z :=
  if is_null p then [] else take (Z.to_nat size) l.
Definition fits (p : ptr) (size : Z) (l : list Z) : Prop :=
  is_null p = true \/ room p (Zlen (keep p size l)).

Lemma line_rest q : line q ++ rest q = q.
Proof.
  unfold rest. induction q as [|x q IH]; cbn; [done|]. case_test; cbn; [by rewrite drop_0|].
  by rewrite IH.
Qed.

Lemma line_app s q : Forall (fun x => x <> 0) s -> line (s ++ q) = s ++ line q.
Proof.
  induction 1 as [|x s Hx _ IH]; cbn; [done|]. rewrite (proj2 (Z.eqb_neq _ _) Hx). by rewrite IH.
Qed.

Lemma line_zero q : line (0 :: q) = [0] /\ rest (0 :: q) = q.
Proof. done. Qed.

Lemma line_nonzero x q : x <> 0 -> line (x :: q) = x :: line q /\ rest (x :: q) = rest q.
Proof. intros Hx. unfold rest. cbn. by rewrite (proj2 (Z.eqb_neq _ _) Hx). Qed.

Lemma rest_app s q : Forall (fun x => x <> 0) s -> rest (s ++ q) = rest q.
Proof. intros H. unfold rest. by rewrite line_app, length_app, <- drop_drop, drop_app_length. Qed.

Lemma Zlen_keep p n l : 0 <= n -> Zlen (keep p n l) = if is_null p then 0 else Z.min n (Zlen l).
Proof. intros. unfold keep. destruct (is_null p); [done|]. unfold Zlen. rewrite length_take. lia. Qed.

Lemma keep_app p n l1 l2 :
  0 <= n -> keep p n (l1 ++ l2) = keep p n l1 ++ keep p (n - Zlen (keep p n l1)) l2.
Proof.
  intros. rewrite Zlen_keep by done. unfold keep. destruct (is_null p); [done|].
  rewrite take_app. f_equal. f_equal. unfold Zlen. lia.
Qed.

Lemma keep_prefix p n l1 l2 : Zlen (keep p n l1) <= Zlen (keep p n (l1 ++ l2)).
Proof.
  unfold keep. destruct (is_null p); [done|]. unfold Zlen. rewrite !length_take, length_app. lia.
Qed.

Lemma fits_prefix p n l1 l2 : fits p n (l1 ++ l2) -> fits p n l1.
Proof.
  intros [H|H]; [by left|right]. eapply room_le, H. apply keep_prefix.
Qed.

Lemma keep_nil p n : keep p n [] = [].
Proof. unfold keep. destruct (is_null p); [done|]. apply take_nil. Qed.

Lemma is_null_written p l : is_null (written p l) = is_null p.
Proof. by destruct p as [[b o]|]. Qed.

Lemma written_nil p : written p [] = p.
Proof. destruct p as [[b o]|]; cbn; [by rewrite overwrite_nil|done]. Qed.


(** One step of the string readers: store the character when there is a
    buffer with space left. *)
Lemma keep_store p n l x :
  is_u16 n -> fits p n (l ++ [x]) ->
  (if negb (is_null (written p (keep p n l))) && (Zlen (keep p n l) <? n)
   then b ← store (ptr_add (written p (keep p n l)) (Zlen (keep p n l))) x;
        Ok (rebase (written p (keep p n l)) b, u16 (Zlen (keep p n l) + 1))
   else Ok (written p (keep p n l), Zlen (keep p n l)))
  = Ok (written p (keep p n (l ++ [x])), Zlen (keep p n (l ++ [x]))).
Proof.
  intros Hn Hf. pow2_norm. rewrite is_null_written, keep_app by lia.
  set (k := keep p n l) in *. assert (0 <= Zlen k) by done.
  destruct (is_null p) eqn:Ep.
  { subst k. by destruct p as [[]|]. }
  cbn [negb andb].
  assert (Zlen k <= n) by (subst k; rewrite Zlen_keep, Ep; lia).
  case_test.
  - destruct Hf as [Hf|Hf]; [congruence|].
    assert (keep p (n - Zlen k) [x] = [x]) as Ek.
    { unfold keep. rewrite Ep. apply take_ge. cbn. lia. }
    rewrite keep_app in Hf by lia. fold k in Hf. rewrite Ek in *. zlen.
    destruct (store_after p k x) as (q & Hs & _ & Hr).
    { eapply room_le, Hf. lia. }
    fold (after p k). rewrite Hs. cbn. unwrap. do 2 f_equal.
    rewrite <- Hr. destruct p as [[b o]|]; [|done]. destruct q as [[b' o']|]; [done|].
    apply bind_ok in Hs as (? & _ & ?). congruence.
  - assert (keep p (n - Zlen k) [x] = []) as ->.
    { unfold keep. rewrite Ep. by replace (Z.to_nat (n - Zlen k)) with 0%nat by lia. }
    by rewrite app_nil_r.
Qed.

Lemma pop_char_spec rb c q :
  repr rb c q ->
  match q with
  | [] => pop_char rb = Ok (rb, None)
  | x :: q => exists rb', pop_char rb = Ok (rb', Some x) /\ repr rb' c q
  end.
Proof.
  intros R. unfold pop_char. rewrite (repr_len _ _ _ R). destruct q as [|x q]; [done|].
  destruct (repr_take _ _ _ _ R) as (rb' & Ht & R').
  rewrite Zlen_cons, (proj2 (Z.eqb_neq _ _)) by (pose proof (Zlen_nonneg q); lia).
  rewrite Ht. eauto.
Qed.

Lemma read_string_loop_spec fuel rb c q p l n :
  repr rb c q -> is_u16 n -> fits p n (l ++ line q) -> (length q < fuel)%nat ->
  exists rb', read_string_loop fuel rb (written p (keep p n l)) n (Zlen (keep p n l)) =
    Ok (rb', (written p (keep p n (l ++ line q)), Zlen (keep p n (l ++ line q)))) /\ repr rb' c (rest q).
Proof.
  revert rb q l. induction fuel as [|fuel IH]; intros rb q l R Hn Hf Hl; [lia|].
  cbn [read_string_loop]. pose proof (pop_char_spec _ _ _ R) as Hp. destruct q as [|x q].
  { rewrite Hp. cbn. exists rb. by rewrite app_nil_r. }
  destruct Hp as (rb' & Hp & R'). rewrite Hp. cbn [mbind res_bind].
  assert (fits p n (l ++ [x])) as Hf1.
  { cbn [line] in Hf. destruct (x =? 0); [done|].
    rewrite (cons_middle x l (line q)), app_assoc in Hf. by eapply fits_prefix. }
  rewrite keep_store by done. cbn [mbind res_bind]. unfold rest. cbn [line] in *.
  destruct (x =? 0); [by eauto|].
  destruct (IH rb' q (l ++ [x]) R') as (rb2 & H2 & R2).
  - done.
  - by rewrite <- app_assoc.
  - cbn in Hl. lia.
  - rewrite H2, <- app_assoc. by eauto.
Qed.

Lemma rb_read_string_spec rb c q p n :
  repr rb c q -> is_u16 n -> fits p n (line q) ->
  exists rb', rb_read_string rb p n =
    Ok (rb', (written p (keep p n (line q)), Zlen (keep p n (line q)))) /\ repr rb' c (rest q).
Proof.
  intros R Hn Hf. unfold rb_read_string. rewrite (repr_len _ _ _ R), Zlen_to_nat.
  destruct (read_string_loop_spec (S (length q)) rb c q p [] n R) as (rb' & H & R'); auto.
  rewrite keep_nil, written_nil in H. eauto.
Qed.

Lemma is_null_after p l : is_null (after p l) = is_null p.
Proof. by destruct p as [[b o]|]. Qed.

Lemma written_after p k l :
  is_null p = true \/ room p (Zlen (k ++ l)) ->
  rebase (written p k) (written (after p k) l) = written p (k ++ l).
Proof.
  destruct p as [[b o]|]; cbn; [|done]. intros [?|[Ho Hr]]; [done|]. zlen.
  by rewrite overwrite_overwrite by lia.
Qed.

Lemma room_after p k n : 0 <= n -> room p (Zlen k + n) -> room (after p k) n.
Proof.
  destruct p as [[b o]|]; cbn; [|done]. intros Hn [Ho Hr]. pose proof (Zlen_nonneg k).
  rewrite Zlen_overwrite by lia. lia.
Qed.

Lemma read_rest_spec rb c q p n l :
  repr rb c q -> is_u16 n -> fits p n (l ++ line q) ->
  exists rb', read_rest rb (written p (keep p n l)) n (Zlen (keep p n l)) =
    Ok (rb', (written p (keep p n (l ++ line q)), Zlen (keep p n (l ++ line q)))) /\ repr rb' c (rest q).
Proof.
  intros R Hn Hf. pow2_norm. set (k := keep p n l).
  assert (0 <= Zlen k <= n) as Hk.
  { split; [done|]. subst k. rewrite Zlen_keep by lia. destruct (is_null p); lia. }
  assert (keep (after p k) (n - Zlen k) (line q) = keep p (n - Zlen k) (line q)) as Ek.
  { unfold keep. by rewrite is_null_after. }
  rewrite keep_app in * by lia. fold k in Hf |- *.
  unfold read_rest. fold (after p k). rewrite wrap_small by (pow2_norm; lia).
  destruct (rb_read_string_spec rb c q (after p k) (n - Zlen k) R) as (rb' & H & R').
  - pow2_norm. lia.
  - unfold fits. rewrite is_null_after, Ek. destruct Hf as [Hf|Hf]; [by left|right].
    apply room_after; [done|]. rewrite keep_app in Hf by lia. fold k in Hf. by rewrite Zlen_app in Hf.
  - rewrite H. cbn. rewrite Ek. exists rb'. split; [|done]. rewrite written_after.
    + do 3 f_equal. rewrite Zlen_app. apply wrap_small. pow2_norm.
      rewrite (Zlen_keep p (n - Zlen k)) by lia. pose proof (Zlen_nonneg (line q)); destruct (is_null p); lia.
    + destruct Hf as [Hf|Hf]; [by left|right]. by rewrite keep_app in Hf by lia.
Qed.

(** The prefix loop: [l] was read already, [s] is the rest of the prefix. *)
Lemma prefix_loop_spec fuel rb c q p n l s1 s t chr :
  repr rb c q -> is_u16 n -> fits p n (l ++ line q) -> Forall (fun x => x <> 0) s ->
  (length s < fuel)%nat -> chr <> 0 ->
  exists rb' out,
    let l' := l ++ (if decide (s `prefix_of` q) then s else line q) in
    let q' := if decide (s `prefix_of` q) then drop (length s) q else rest q in
    prefix_loop fuel rb (s1 ++ s ++ 0 :: t) (Zlen s1) (written p (keep p n l)) n (Zlen (keep p n l)) chr =
      Ok (rb', (written p (keep p n l'), (Zlen (keep p n l'), out))) /\
    repr rb' c q' /\
    (if decide (s `prefix_of` q) then exists ch, ch <> 0 /\ out = Some (ch, true)
     else out = None \/ exists x, out = Some (x, false)).
Proof.
  revert rb q l s1 s chr. induction fuel as [|fuel IH]; intros rb q l s1 s chr R Hn Hf Hs Hl Hc; [lia|].
  cbn [prefix_loop]. destruct s as [|y s].
  { cbn [app]. rewrite bget_middle. cbn. exists rb. eexists.
    rewrite !decide_True by apply prefix_nil. rewrite app_nil_r, drop_0. eauto 6. }
  apply Forall_cons in Hs as [Hy Hs]. cbn [app]. rewrite bget_middle. cbn [mbind res_bind].
  rewrite (proj2 (Z.eqb_neq _ _) Hy). pose proof (pop_char_spec _ _ _ R) as Hp.
  destruct q as [|x q].
  { rewrite Hp. cbn [mbind res_bind]. exists rb, None.
    rewrite !decide_False by (intros [? ?]; done). cbn. rewrite app_nil_r. split; [done|].
    split; [done|by left]. }
  destruct Hp as (rb1 & Hp & R1). rewrite Hp. cbn [mbind res_bind].
  assert (fits p n (l ++ [x])) as Hf1.
  { cbn [line] in Hf. destruct (x =? 0); [done|].
    rewrite (cons_middle x l (line q)), app_assoc in Hf. by eapply fits_prefix. }
  rewrite keep_store by done. cbn [mbind res_bind]. destruct (y =? x) eqn:Eyx; bool_to_prop; subst.
  - destruct (line_nonzero x q Hy) as [El Er]. rewrite El in *.
    destruct (IH rb1 q (l ++ [x]) (s1 ++ [x]) s x R1) as (rb' & out & H' & R' & O').
    { done. } { by rewrite <- app_assoc. } { done. } { cbn in Hl. lia. } { done. }
    exists rb', out. rewrite <- app_assoc in H'. rewrite Zlen_app in H'.
    change (Zlen [x]) with 1 in H'. cbn [app] in H'. rewrite H', Er, <- app_assoc.
    destruct (decide (s `prefix_of` q)) as [Hpre|Hpre].
    + by rewrite !decide_True by (by apply prefix_cons).
    + by rewrite !decide_False by (by intros ?%prefix_cons_inv_2).
  - assert (~ y :: s `prefix_of` x :: q) as Hpre by (by intros ?%prefix_cons_inv_1).
    rewrite !decide_False by done. destruct (x =? 0) eqn:Ex; bool_to_prop.
    + subst x. destruct (line_zero q) as [-> ->]. exists rb1. eexists.
      rewrite decide_False by done. eauto.
    + destruct (line_nonzero x q Ex) as [El Er]. rewrite El, Er in *.
      destruct (read_rest_spec rb1 c q p n (l ++ [x]) R1 Hn) as (rb2 & H2 & R2).
      { by rewrite <- app_assoc. }
      rewrite H2, <- app_assoc. exists rb2. eexists. rewrite decide_False by done. eauto.
Qed.

(** Whatever the prefix, exactly one string is consumed; its characters are
    stored as far as there is space; the answer tells the prefix test. *)
Lemma rb_read_string_and_is_with_prefix_spec rb c q p n s t :
  repr rb c q -> is_u16 n -> fits p n (line q) -> Forall (fun x => x <> 0) s ->
  exists rb', rb_read_string_and_is_with_prefix rb (Some (s ++ 0 :: t)) p (Some n) =
    Ok (rb', (written p (keep p n (line q)),
        (Some (Zlen (keep p n (line q))), cbool (bool_decide (s `prefix_of` q))))) /\
    repr rb' c (rest q).
Proof.
  intros R Hn Hf Hs. unfold rb_read_string_and_is_with_prefix.
  destruct (prefix_loop_spec (S (length (s ++ 0 :: t))) rb c q p n [] [] s t 1 R Hn)
    as (rb1 & out & H1 & R1 & O1); auto.
  { rewrite length_app. lia. }
  rewrite keep_nil in H1. rewrite written_nil in H1. change (Zlen (@nil Z)) with 0 in H1. cbn [app] in *. rewrite H1. cbn [mbind res_bind].
  destruct (decide (s `prefix_of` q)) as [[q' ->]|Hpre].
  - destruct O1 as (ch & Hch & ->). rewrite (proj2 (Z.eqb_neq _ _) Hch). cbn [negb].
    rewrite drop_app_length in R1. rewrite line_app, rest_app in * by done.
    destruct (read_rest_spec rb1 c q' p n s R1 Hn Hf) as (rb2 & H2 & R2).
    rewrite H2, bool_decide_eq_true_2 by (by exists q'). by exists rb2.
  - exists rb1. rewrite bool_decide_eq_false_2 by done. by destruct O1 as [->|[x ->]].
Qed.

(** The bytes [try_read_util] takes: up to and including the first [term]. *)
Fixpoint upto (term : Z) (q : list Z) : list Z :=
  match q with [] => [] | x :: q => if x =? term then [x] else x :: upto term q end.

Lemma upto_prefix term q : exists r, q = upto term q ++ r.
Proof.
  induction q as [|x q [r IH]]; cbn; [by exists []|]. case_test; [by exists q|].
  exists r. cbn. by rewrite <- IH.
Qed.

(** Where the pointer stands after reading [m]: on the terminator when it
    was found. Only its object matters to the caller. *)
Lemma try_read_util_loop_spec fuel rb c q p l len term i :
  repr rb c q -> room p (Zlen l + Z.min (len - i) (Zlen q)) ->
  0 <= i <= len -> len < 65536 -> len - i < Z.of_nat fuel ->
  let m := upto term (take (Z.to_nat (len - i)) q) in
  exists rb' p', try_read_util_loop fuel rb (after p l) len term i = Ok (rb', (p', i + Zlen m)) /\
    rebase p p' = written p (l ++ m) /\ repr rb' c (drop (length m) q).
Proof.
  revert rb q l i. induction fuel as [|fuel IH]; intros rb q l i R Hp Hi Hl Hf m; [lia|].
  pose proof (repr_len _ _ _ R) as Elen. pose proof (Zlen_nonneg q).
  cbn [try_read_util_loop]. rewrite Elen. case_test.
  - subst m. destruct q as [|x q]; [zlen; lia|]. zlen. pose proof (Zlen_nonneg q).
    destruct (repr_take _ _ _ _ R) as (rb' & Ht & R'). rewrite Ht. cbn [mbind res_bind].
    destruct (store_after p l x) as (p' & Hs & Ha & Hr).
    { eapply room_le, Hp. lia. }
    rewrite Hs. cbn [mbind res_bind]. unwrap.
    replace (Z.to_nat (len - i)) with (S (Z.to_nat (len - (i + 1)))) by lia. cbn [take upto].
    destruct (x =? term); [by exists rb', p'|].
    rewrite Ha. destruct (IH rb' q (l ++ [x]) (i + 1) R') as (rb2 & p2 & Hlp & Hr2 & R2); try lia.
    { eapply room_le, Hp. zlen. lia. }
    rewrite Hlp. rewrite <- app_assoc in Hr2. exists rb2, p2. zlen. split; [|done]. do 3 f_equal; lia.
  - exists rb, (after p l). subst m.
    assert (upto term (take (Z.to_nat (len - i)) q) = []) as ->.
    { destruct q; [by rewrite take_nil|]. zlen. pose proof (Zlen_nonneg q).
      by replace (Z.to_nat (len - i)) with 0%nat by lia. }
    rewrite app_nil_r, Z.add_0_r, drop_0, rebase_after. done.
Qed.

Lemma rb_try_read_util_spec rb c q p n term :
  repr rb c q -> is_u16 n -> room p (Z.min n (Zlen q)) ->
  let m := upto term (take (Z.to_nat n) q) in
  exists rb', rb_try_read_util rb p n term = Ok (rb', (written p m, Zlen m)) /\
              repr rb' c (drop (length m) q).
Proof.
  intros R Hn Hp m. pow2_norm. unfold rb_try_read_util. destruct (is_null p) eqn:Ep.
  { by destruct p. }
  destruct (try_read_util_loop_spec (S (Z.to_nat n)) rb c q p [] n term 0 R)
    as (rb' & p' & H & Hr & R'); try lia.
  { eapply room_le, Hp. rewrite Zlen_nil. lia. }
  rewrite after_nil in H. rewrite H. cbn [mbind res_bind]. rewrite Hr. rewrite Z.sub_0_r in *. eauto.
Qed.

(** [clear] and [init] give the empty queue. *)
Lemma rb_clear_spec rb c q : repr rb c q -> repr (rb_clear rb) c [].
Proof.
  intros ([] & <- & _). split; [|done]. split; cbn; try lia.
  unfold idx. by rewrite (proj2 (Z.ltb_lt _ _)) by lia.
Qed.

Lemma ringbuffer_init_spec buf n : 0 < n < 65536 -> Zlen buf = n -> repr (ringbuffer_init buf n) n [].
Proof.
  intros Hn Hb. unfold ringbuffer_init. rewrite wrap_small by (pow2_norm; lia).
  split; [|done]. split; cbn; try lia. unfold idx. by rewrite (proj2 (Z.ltb_lt _ _)) by lia.
Qed.

(** ** Refinement: every sequence of operations against the queue *)

(** Every operation of ringbuffer.h on an initialised buffer, as its callers
    use it, reading into a fresh array of the size they announce. *)
Inductive rb_op :=
  | OpClear
  | OpPut (uch n : Z)
  | OpTryWrite (l : list Z)
  | OpWrite (l : list Z)
  | OpTryRead (n : Z)
  | OpTryReadUtil (n term : Z)
  | OpRead (n : Z)
  | OpReadString (n : Z)
  | OpReadPrefix (s : list Z) (n : Z)
  | OpLeftSpace
  | OpDropTail (n : Z)
  | OpDropHead (n : Z).

Definition fresh (n : Z) : ptr := Some (replicate (Z.to_nat n) 0, 0).
Definition stored (p : ptr) (n : Z) : list Z :=
  match p with Some (b, o) => slice b o n | None => [] end.

(** The bytes delivered and the return value of one call. *)
Definition exec_op (rb : ringbuffer) (o : rb_op) : res (ringbuffer * (list Z * Z)) :=
  let deliver := fun m : res (ringbuffer * (ptr * Z)) =>
    '(rb', (p, n)) ← m; Ok (rb', (stored p n, n)) in
  let count := fun m : res (ringbuffer * Z) => '(rb', n) ← m; Ok (rb', ([], n)) in
  match o with
  | OpClear => Ok (rb_clear rb, ([], 0))
  | OpPut u n => count (rb_put rb u n)
  | OpTryWrite l => count (rb_try_write rb (Some (l, 0)) (Zlen l))
  | OpWrite l => count (rb_write rb (Some (l, 0)) (Zlen l))
  | OpTryRead n => deliver (rb_try_read rb (fresh n) n)
  | OpTryReadUtil n term => deliver (rb_try_read_util rb (fresh n) n term)
  | OpRead n => deliver (rb_read rb (fresh n) n)
  | OpReadString n => deliver (rb_read_string rb (fresh n) n)
  | OpReadPrefix s n =>
    '(rb', (p, (sz, r))) ← rb_read_string_and_is_with_prefix rb (Some (s ++ [0])) (fresh n) (Some n);
    Ok (rb', (stored p (default 0 sz), r))
  | OpLeftSpace => Ok (rb, ([], rb_get_left_space rb))
  | OpDropTail n => let r := rb_drop_from_tail rb n in Ok (r.1, ([], r.2))
  | OpDropHead n => let r := rb_drop_from_head rb n in Ok (r.1, ([], r.2))
  end.

(** What ringbuffer.h documents for a queue [q] of capacity [c]: the queue
    afterwards, the bytes delivered and the return value.  [ringbuffer_read]
    takes [n] bytes or, when fewer are stored, none and returns 0; the
    [drop] operations discard up to [n] bytes at one end and return how many
    (the tail is the end that is read, the head the one that is written).
    [ringbuffer_try_read_util] is [ringbuffer_try_read] that stops behind
    [term], as its name and its summary line have it. *)
Definition queue_op (c : Z) (q : list Z) (o : rb_op) : list Z * (list Z * Z) :=
  let append := fun l => let k := Z.min (Zlen l) (c - Zlen q) in (q ++ take (Z.to_nat k) l, ([], k)) in
  let remove := fun n => let k := Z.min n (Zlen q) in
                         (drop (Z.to_nat k) q, (take (Z.to_nat k) q, k)) in
  match o with
  | OpClear => ([], ([], 0))
  | OpPut u n => append (replicate (Z.to_nat n) u)
  | OpTryWrite l => append l
  | OpWrite l => if c - Zlen q <? Zlen l then (q, ([], 0)) else (q ++ l, ([], Zlen l))
  | OpTryRead n => remove n
  | OpTryReadUtil n term =>
    let m := upto term (take (Z.to_nat n) q) in (drop (length m) q, (m, Zlen m))
  | OpRead n => if Zlen q <? n then (q, ([], 0)) else remove n
  | OpReadString n => let m := take (Z.to_nat n) (line q) in (rest q, (m, Zlen m))
  | OpReadPrefix s n =>
    (rest q, (take (Z.to_nat n) (line q), cbool (bool_decide (s `prefix_of` q))))
  | OpLeftSpace => (q, ([], c - Zlen q))
  | OpDropTail n => let k := Z.min n (Zlen q) in (drop (Z.to_nat k) q, ([], k))
  | OpDropHead n => let k := Z.min n (Zlen q) in (take (Z.to_nat (Zlen q - k)) q, ([], k))
  end.

(** Where the code keeps that contract.  [ringbuffer_read] compares with the
    free space instead of the stored bytes, so the two have to agree about
    the request (or the buffer is empty).  The [drop] operations discard the
    maximum instead of the minimum and move the index of the other end:
    harmless when nothing is discarded, and when everything is and the wrong
    index lands where the right one would, which takes a full or a half full
    buffer. *)
Definition drains (c : Z) (q : list Z) (n : Z) : Prop :=
  n = Zlen q /\ (n = 0 \/ 2 * n = c \/ n = c).
Definition keeps_contract (c : Z) (q : list Z) (o : rb_op) : Prop :=
  match o with
  | OpRead n => q = [] \/ (n <= Zlen q <-> n <= c - Zlen q)
  | OpDropTail n => n = 0 \/ drains c q n
  | OpDropHead n => drains c q n /\ (n = 0 \/ c <= 32768)
  | _ => True
  end.

(** Arguments the C types can hold; a prefix is a C string. *)
Definition op_ok (o : rb_op) : Prop :=
  match o with
  | OpClear => True
  | OpPut _ n | OpTryRead n | OpTryReadUtil n _ | OpRead n | OpReadString n
  | OpDropTail n | OpDropHead n => is_u16 n
  | OpLeftSpace => True
  | OpTryWrite l | OpWrite l => Zlen l < 65536
  | OpReadPrefix s n => is_u16 n /\ Forall (fun x => x <> 0) s
  end.

Fixpoint exec_ops (rb : ringbuffer) (os : list rb_op) : res (ringbuffer * list (list Z * Z)) :=
  match os with
  | [] => Ok (rb, [])
  | o :: os => '(rb', out) ← exec_op rb o; '(rb'', outs) ← exec_ops rb' os; Ok (rb'', out :: outs)
  end.
Fixpoint queue_ops (c : Z) (q : list Z) (os : list rb_op) : list Z * list (list Z * Z) :=
  match os with
  | [] => (q, [])
  | o :: os => let r := queue_op c q o in let rs := queue_ops c r.1 os in (rs.1, r.2 :: rs.2)
  end.

(** The sequences every call of which has arguments of its types and is made
    where the code keeps the contract. *)
Fixpoint ops_ok (c : Z) (q : list Z) (os : list rb_op) : Prop :=
  match os with
  | [] => True
  | o :: os => op_ok o /\ keeps_contract c q o /\ ops_ok c (queue_op c q o).1 os
  end.

(** The call [o] on [rb] is the documented operation on the queue. *)
Definition refines_op (rb : ringbuffer) (c : Z) (q : list Z) (o : rb_op) : Prop :=
  exists rb', exec_op rb o = Ok (rb', (queue_op c q o).2) /\ repr rb' c (queue_op c q o).1.

Lemma points_src l : points (Some (l, 0)) l.
Proof. cbn. unfold slice. rewrite Zlen_to_nat. change (Z.to_nat 0) with 0%nat. rewrite drop_0, firstn_all. split_and!; (done || lia). Qed.

Lemma room_fresh n m : 0 <= n -> m <= n -> room (fresh n) m.
Proof. intros. cbn. rewrite Zlen_replicate. lia. Qed.

Lemma stored_fresh n l : 0 <= n -> Zlen l <= n -> stored (written (fresh n) l) (Zlen l) = l.
Proof. intros. cbn. apply slice_overwrite; [lia|]. rewrite Zlen_replicate. lia. Qed.

Lemma keep_fresh n k l : keep (fresh n) k l = take (Z.to_nat k) l.
Proof. done. Qed.

Lemma Zlen_take k (l : list Z) : 0 <= k -> Zlen (take (Z.to_nat k) l) = Z.min k (Zlen l).
Proof. intros. unfold Zlen. rewrite length_take. lia. Qed.

Lemma Zlen_upto t l : Zlen (upto t l) <= Zlen l.
Proof. destruct (upto_prefix t l) as [r Hr]. rewrite Hr at 2. zlen. pose proof (Zlen_nonneg r). lia. Qed.

#[local] Hint Resolve room_fresh points_src : core.

Lemma exec_try_read rb c q n :
  repr rb c q -> is_u16 n ->
  exists rb', exec_op rb (OpTryRead n) = Ok (rb', (queue_op c q (OpTryRead n)).2) /\
              repr rb' c (queue_op c q (OpTryRead n)).1.
Proof.
  intros R Hn. pose proof (Zlen_nonneg q). pow2_norm.
  destruct (rb_try_read_spec rb c q (fresh n) n R) as (rb' & H' & R').
  { done. } { apply room_fresh; lia. }
  exists rb'. set (m := take (Z.to_nat (Z.min n (Zlen q))) q) in *.
  assert (Z.min n (Zlen q) = Zlen m) as Em by (subst m; rewrite Zlen_take; lia).
  cbn [exec_op queue_op fst snd]. rewrite H'. cbn [mbind res_bind]. split; [|done].
  fold m. rewrite Em, stored_fresh by lia. done.
Qed.

(** [ringbuffer_read] by comparison with the free space. *)
Lemma rb_read_cases rb c q n :
  repr rb c q -> is_u16 n ->
  if c - Zlen q <? n then exec_op rb (OpRead n) = Ok (rb, ([], 0))
  else exec_op rb (OpRead n) = exec_op rb (OpTryRead n).
Proof.
  intros R Hn. cbn [exec_op]. unfold rb_read.
  assert (rb_cap rb = c) as -> by apply R. rewrite (repr_len _ _ _ R). by case_test.
Qed.

Lemma read_refines rb c q n :
  repr rb c q -> is_u16 n -> keeps_contract c q (OpRead n) -> refines_op rb c q (OpRead n).
Proof.
  intros R Hn Hk. pose proof (rb_read_cases rb c q n R Hn) as E. pose proof (repr_bounds _ _ _ R).
  pose proof (exec_try_read rb c q n R Hn) as T. pose proof (Zlen_nonneg q). pow2_norm.
  unfold refines_op. cbn [queue_op] in *. destruct Hk as [->|Hk].
  - rewrite Zlen_nil in *. destruct (c - 0 <? n) eqn:En; bool_to_prop.
    + exists rb. rewrite E. by destruct (Z.ltb_spec 0 n); [|lia].
    + rewrite E. rewrite drop_nil, take_nil in T. rewrite Z.min_r in T by lia.
      destruct (Z.ltb_spec 0 n); [done|]. by rewrite drop_nil, take_nil, Z.min_r by lia.
  - destruct (c - Zlen q <? n) eqn:En; bool_to_prop; rewrite E.
    + exists rb. by destruct (Z.ltb_spec (Zlen q) n); [|lia].
    + by destruct (Z.ltb_spec (Zlen q) n); [lia|].
Qed.

Lemma Zlen_0_inv (q : list Z) : Zlen q = 0 -> q = [].
Proof. destruct q; [done|]. zlen. pose proof (Zlen_nonneg q). lia. Qed.

(** Both indices after everything was discarded: the representation holds
    exactly when they meet. *)
Lemma empty_wf rb : 0 < rb_cap rb < 65536 -> Zlen (rb_buf rb) = rb_cap rb -> rb_len rb = 0 ->
  0 <= rb_out rb < rb_cap rb -> wf rb <-> rb_in rb = rb_out rb.
Proof.
  intros Hc Hb Hl Ho. assert (idx (rb_cap rb) (rb_out rb + rb_len rb) = rb_out rb) as E.
  { rewrite Hl, Z.add_0_r. unfold idx. case_test; lia. }
  split; [intros []; lia|]. intros Hi. split; lia.
Qed.

(** Discarding everything from the tail: [out] goes backwards. *)
Lemma drop_tail_all rb c q :
  repr rb c q -> 0 < Zlen q ->
  (rb_drop_from_tail rb (Zlen q)).2 = Zlen q /\
  (repr (rb_drop_from_tail rb (Zlen q)).1 c [] <-> 2 * Zlen q = c \/ Zlen q = c).
Proof.
  intros R Hq. pose proof (repr_len _ _ _ R) as El. pose proof (repr_bounds _ _ _ R).
  unfold rb_drop_from_tail. rewrite (proj2 (Z.eqb_neq _ 0)), El, Z.ltb_irrefl, Z.sub_diag by lia.
  destruct R as ([] & Ec & _). rewrite El in *. split; [by case_test|]. unfold repr. cbn [fst].
  set (rb' := set_len _ _). assert (contents rb' = []) as Ecn by done.
  assert (rb_out rb' = if rb_out rb <? Zlen q then rb_out rb + c - Zlen q else rb_out rb - Zlen q) as Eo.
  { cbn. case_test; rewrite wrap_small; (pow2_norm; lia). }
  rewrite empty_wf by (cbn -[rb_out wrap]; rewrite ?Eo; try case_test; lia || done).
  rewrite Eo. cbn [rb' rb_in set_len set_out rb_cap]. rewrite wf_in0. unfold idx. split.
  - intros (Hi & _). revert Hi. repeat case_test; lia.
  - intros Hi. split; [|done]. repeat case_test; lia.
Qed.

(** And from the head: [in] goes forwards. *)
Lemma drop_head_all rb c q :
  repr rb c q -> c <= 32768 \/ q = [] ->
  (rb_drop_from_head rb (Zlen q)).2 = Zlen q /\
  (repr (rb_drop_from_head rb (Zlen q)).1 c [] <-> Zlen q = 0 \/ 2 * Zlen q = c \/ Zlen q = c).
Proof.
  intros R Hc. pose proof (repr_len _ _ _ R) as El. pose proof (repr_bounds _ _ _ R).
  pose proof (Zlen_nonneg q). assert (c <= 32768 \/ Zlen q = 0) as Hs by (by destruct Hc as [Hc | ->]; [left|right]).
  unfold rb_drop_from_head. rewrite El, Z.ltb_irrefl, Z.sub_diag.
  destruct R as ([] & Ec & _). rewrite El in *. split; [done|]. unfold repr. cbn [fst].
  assert (0 <= rb_in rb < c) as Hi by (rewrite wf_in0; unfold idx; case_test; lia).
  set (rb' := set_len _ _). assert (contents rb' = []) as Ecn by done.
  assert (rb_in rb' = if c <=? rb_in rb + Zlen q then rb_in rb + Zlen q - c else rb_in rb + Zlen q) as Ei.
  { cbn. rewrite (wrap_small 16 (rb_in rb + Zlen q)), Ec by (pow2_norm; lia).
    case_test; [rewrite wrap_small|]; (pow2_norm; lia). }
  rewrite empty_wf by (cbn -[rb_in wrap]; lia || done).
  rewrite Ei. cbn [rb' rb_out set_len set_in rb_cap]. rewrite wf_in0. unfold idx. split.
  - intros (Hj & _). revert Hj. repeat case_test; lia.
  - intros Hj. split; [|done]. repeat case_test; lia.
Qed.

Lemma drop_tail_refines rb c q n :
  repr rb c q -> is_u16 n -> keeps_contract c q (OpDropTail n) -> refines_op rb c q (OpDropTail n).
Proof.
  intros R Hn Hk. pose proof (Zlen_nonneg q). unfold refines_op. cbn [exec_op queue_op fst snd].
  destruct (decide (n = 0)) as [->|Hn0].
  - exists rb. rewrite Z.min_l by lia. by rewrite drop_0.
  - destruct Hk as [?|[-> Hc]]; [done|]. destruct (drop_tail_all rb c q R) as [-> Hr]; [lia|].
    rewrite Z.min_id, Zlen_to_nat, drop_all. eexists. split; [done|]. apply Hr. lia.
Qed.

Lemma drop_head_refines rb c q n :
  repr rb c q -> is_u16 n -> keeps_contract c q (OpDropHead n) -> refines_op rb c q (OpDropHead n).
Proof.
  intros R Hn [[-> Hc] Hs]. unfold refines_op. cbn [exec_op queue_op fst snd].
  destruct (drop_head_all rb c q R) as [-> Hr]; [destruct Hs as [Hs|Hs]; [right; by apply Zlen_0_inv|by left]|].
  rewrite Z.min_id, Z.sub_diag. eexists. split; [done|]. by apply Hr.
Qed.

(** One call refines the corresponding step of the queue. *)
Lemma exec_op_refines rb c q o :
  repr rb c q -> op_ok o -> keeps_contract c q o -> refines_op rb c q o.
Proof.
  intros R Ho Hk. pose proof (repr_len _ _ _ R) as El. pose proof (repr_bounds _ _ _ R).
  pose proof (Zlen_nonneg q). assert (rb_cap rb = c) as Ec by apply R. unfold refines_op.
  destruct o as [|u n|l|l|n|n term|n|n|s n| |n|n]; cbn [op_ok] in Ho.
  - exists (rb_clear rb). split; [done|]. by eapply rb_clear_spec.
  - pow2_norm. destruct (rb_put_spec rb c q u n R) as (rb' & H' & R'); [pow2_norm; lia|].
    exists rb'. cbn [exec_op queue_op fst snd]. rewrite H', Zlen_replicate. cbn [mbind res_bind].
    rewrite Z2Nat.id by lia. split; [done|]. rewrite take_replicate. by rewrite Nat.min_l by lia.
  - destruct (rb_try_write_spec rb c q _ l R (points_src l) Ho) as (rb' & H' & R').
    exists rb'. cbn [exec_op queue_op fst snd]. by rewrite H'.
  - cbn [exec_op queue_op]. unfold rb_write. rewrite El, Ec. case_test; [by exists rb|].
    destruct (rb_try_write_spec rb c q _ l R (points_src l) Ho) as (rb' & H' & R').
    rewrite H'. rewrite Z.min_l in * by lia. rewrite Zlen_to_nat, firstn_all in R'. by exists rb'.
  - by apply exec_try_read.
  - destruct (rb_try_read_util_spec rb c q (fresh n) n term R Ho) as (rb' & H' & R').
    { pow2_norm. apply room_fresh; lia. }
    exists rb'. cbn [exec_op queue_op fst snd]. rewrite H'. cbn [mbind res_bind]. split; [|done].
    pow2_norm. rewrite stored_fresh; [done|lia|]. etrans; [apply Zlen_upto|]. rewrite Zlen_take; lia.
  - by apply read_refines.
  - destruct (rb_read_string_spec rb c q (fresh n) n R Ho) as (rb' & H' & R').
    { right. pow2_norm. apply room_fresh; [lia|]. rewrite keep_fresh, Zlen_take; lia. }
    exists rb'. cbn [exec_op queue_op fst snd]. rewrite H'. cbn [mbind res_bind]. split; [|done].
    pow2_norm. rewrite keep_fresh, stored_fresh; [done|lia|]. rewrite Zlen_take; lia.
  - destruct Ho as [Hn Hs].
    destruct (rb_read_string_and_is_with_prefix_spec rb c q (fresh n) n s [] R Hn) as (rb' & H' & R').
    { right. pow2_norm. apply room_fresh; [lia|]. rewrite keep_fresh, Zlen_take; lia. }
    { done. }
    exists rb'. cbn [exec_op queue_op fst snd]. rewrite H'. cbn [mbind res_bind default]. split; [|done].
    pow2_norm. rewrite keep_fresh, stored_fresh; [done|lia|]. rewrite Zlen_take; lia.
  - exists rb. cbn [exec_op queue_op fst snd]. unfold rb_get_left_space. rewrite El, Ec.
    rewrite wrap_small by (pow2_norm; lia). done.
  - by apply drop_tail_refines.
  - by apply drop_head_refines.
Qed.

Lemma exec_ops_refines os : forall rb c q,
  repr rb c q -> ops_ok c q os ->
  exists rb', exec_ops rb os = Ok (rb', (queue_ops c q os).2) /\ repr rb' c (queue_ops c q os).1.
Proof.
  induction os as [|o os IH]; intros rb c q R Hos; [by exists rb|].
  destruct Hos as (Ho & Hk & Hos).
  destruct (exec_op_refines rb c q o R Ho Hk) as (rb1 & H1 & R1).
  destruct (IH rb1 c _ R1 Hos) as (rb2 & H2 & R2).
  exists rb2. cbn [exec_ops queue_ops]. rewrite H1. cbn [mbind res_bind]. by rewrite H2.
Qed.

Lemma drop_from_tail_length rb c q n :
  repr rb c q -> 0 < n < 65536 ->
  (rb_drop_from_tail rb n).2 = Z.max n (Zlen q) /\
  rb_len (rb_drop_from_tail rb n).1 = u16 (Zlen q - Z.max n (Zlen q)) /\
  rb_cap (rb_drop_from_tail rb n).1 = c.
Proof.
  intros R Hn. pose proof (repr_len _ _ _ R) as El. assert (rb_cap rb = c) as Ec by apply R.
  unfold rb_drop_from_tail. rewrite (proj2 (Z.eqb_neq n 0)) by lia. rewrite El.
  case_test; cbn; repeat split; try done; try lia; do 2 f_equal; lia.
Qed.

Lemma drop_from_head_length rb c q n :
  repr rb c q -> 0 <= n < 65536 ->
  (rb_drop_from_head rb n).2 = Z.max n (Zlen q) /\
  rb_len (rb_drop_from_head rb n).1 = u16 (Zlen q - Z.max n (Zlen q)) /\
  rb_cap (rb_drop_from_head rb n).1 = c.
Proof.
  intros R Hn. pose proof (repr_len _ _ _ R) as El. assert (rb_cap rb = c) as Ec by apply R.
  unfold rb_drop_from_head. rewrite El.
  case_test; cbn; repeat split; try done; try lia; do 2 f_equal; lia.
Qed.

#[global] Instance keeps_dec c q o : Decision (keeps_contract c q o).
Proof. destruct o; cbn; unfold drains; apply _. Defined.
#[global] Instance op_ok_dec o : Decision (op_ok o).
Proof. destruct o; cbn; unfold in_range; apply _. Defined.
#[global] Instance ops_ok_dec c q os : Decision (ops_ok c q os).
Proof. revert q. induction os; cbn; apply _. Defined.

(** Outside that range a call is not the documented one. *)
Lemma contract_broken rb c q o :
  repr rb c q -> c <= 32768 -> op_ok o -> ~ keeps_contract c q o -> ~ refines_op rb c q o.
Proof.
  intros R Hc Ho Hk (rb' & He & R'). pose proof (Zlen_nonneg q). pose proof (repr_bounds _ _ _ R).
  destruct o as [|u n|l|l|n|n term|n|n|s n| |n|n]; try (by apply Hk); cbn [op_ok keeps_contract] in *; pow2_norm.
  - pose proof (rb_read_cases rb c q n R Ho) as E.
    destruct (exec_try_read rb c q n R Ho) as (rb2 & E2 & _). cbn [queue_op] in *.
    assert (Zlen q <> 0) by (intros ?%Zlen_0_inv; tauto).
    destruct (c - Zlen q <? n) eqn:En; bool_to_prop; rewrite E in He.
    + destruct (Z.ltb_spec (Zlen q) n); [apply Hk; right; lia|]. injection He as _ _ ?. lia.
    + rewrite E2 in He. destruct (Z.ltb_spec (Zlen q) n); [|apply Hk; right; lia].
      injection He as _ _ ?. lia.
  - destruct (decide (n = 0)) as [->|Hn]; [tauto|].
    destruct (drop_from_tail_length rb c q n R) as (E & _); [lia|]. cbn [exec_op queue_op fst snd] in *.
    assert ((rb_drop_from_tail rb n).1 = rb') as Er by congruence.
    assert ((rb_drop_from_tail rb n).2 = Z.min n (Zlen q)) as En by congruence. assert (n = Zlen q) as -> by lia.
    destruct (drop_tail_all rb c q R) as [_ Hr]; [lia|].
    rewrite Z.min_id, Zlen_to_nat, drop_all in R'. rewrite <- Er in R'. apply Hk. right. split; [done|].
    right. by apply Hr.
  - destruct (drop_from_head_length rb c q n R) as (E & _); [lia|]. cbn [exec_op queue_op fst snd] in *.
    assert ((rb_drop_from_head rb n).1 = rb') as Er by congruence.
    assert ((rb_drop_from_head rb n).2 = Z.min n (Zlen q)) as En by congruence. assert (n = Zlen q) as -> by lia.
    destruct (drop_head_all rb c q R) as [_ Hr]; [by left|].
    rewrite Z.min_id, Z.sub_diag in R'. rewrite <- Er in R'. apply Hk. split; [|by right].
    split; [done|]. by apply Hr.
Qed.

(** ** Properties *)

(** C1: On an initialised ring buffer any sequence of its operations
    each of which is made where the code keeps its contract runs without an
    access outside the array, delivers the bytes and return values that
    ringbuffer.h documents for a bounded FIFO queue, and leaves the
    representation of that queue: the indices wrap correctly in [uint16_t].
    For clear, put, (try_)write, try_read, try_read_util, the string and
    prefix reads and the left space that is every state; for
    [ringbuffer_read] and the two [drop] operations it is the states of
    [keeps_contract], and in buffers of up to 32768 bytes exactly these: a
    call outside them returns something else or leaves a buffer that does
    not represent the documented queue. *)
Theorem ringbuffer_refines_queue buf n os :
  0 < n < 65536 -> Zlen buf = n ->
  (ops_ok n [] os ->
     exists rb', exec_ops (ringbuffer_init buf n) os = Ok (rb', (queue_ops n [] os).2) /\
                 repr rb' n (queue_ops n [] os).1) /\
  (forall rb q o, repr rb n q -> n <= 32768 -> op_ok o -> refines_op rb n q o <-> keeps_contract n q o).
Proof.
  intros Hn Hb. split; [intros Hos; apply exec_ops_refines; [by apply ringbuffer_init_spec|done]|].
  intros rb q o R Hs Ho. split; [|by apply exec_op_refines].
  intros Hr. destruct (keeps_dec n q o) as [Hk|Hk]; [done|]. by destruct (contract_broken rb n q o R Hs Ho Hk).
Qed.

Definition demo_ops : list rb_op :=
  [OpWrite [72; 105; 0; 65]; OpReadPrefix [72] 8; OpPut 7 9; OpDropTail 0; OpTryRead 3; OpRead 2;
   OpTryWrite [1; 2; 3]; OpLeftSpace; OpPut 9 4; OpDropHead 5].

Lemma ringbuffer_refines_queue_witness :
  (queue_ops 5 [] demo_ops).2 =
    [([], 4); ([72; 105; 0], 1); ([], 4); ([], 0); ([65; 7; 7], 3); ([7; 7], 2); ([], 3); ([], 2); ([], 2); ([], 5)] /\
  exists rb', exec_ops (ringbuffer_init [0; 0; 0; 0; 0] 5) demo_ops = Ok (rb', (queue_ops 5 [] demo_ops).2) /\
              repr rb' 5 (queue_ops 5 [] demo_ops).1.
Proof.
  split; [vm_compute; reflexivity|].
  apply (ringbuffer_refines_queue [0; 0; 0; 0; 0] 5 demo_ops); [lia|reflexivity|].
  apply (bool_decide_unpack _). vm_compute. exact I.
Defined.

(** [ringbuffer_read_string_and_is_with_prefix] consumes exactly the
    oldest string of the buffer (through its terminating 0, or everything
    when there is none), stores as much of it as the caller's buffer holds,
    returns that length through [size], and answers 1 iff the string begins
    with the prefix. *)
Theorem prefix_read_consumes_one_string rb c q b o n s t :
  repr rb c q -> is_u16 n -> Forall (fun x => x <> 0) s -> 0 <= o ->
  o + Z.min n (Zlen (line q)) <= Zlen b ->
  let m := take (Z.to_nat n) (line q) in
  exists rb', ringbuffer_read_string_and_is_with_prefix (Some rb) (Some (s ++ 0 :: t)) (Some (b, o)) (Some n) =
    Ok (Some rb', (Some (overwrite b o m, o), (Some (Zlen m), cbool (bool_decide (s `prefix_of` q))))) /\
    repr rb' c (rest q).
Proof.
  intros R Hn Hs Ho Hb m.
  destruct (rb_read_string_and_is_with_prefix_spec rb c q (Some (b, o)) n s t R Hn) as (rb' & H & R'); auto.
  - right. cbn [room]. rewrite Zlen_keep by (pow2_norm; lia). cbn [is_null]. lia.
  - exists rb'. cbn [ringbuffer_read_string_and_is_with_prefix guard_valid]. by rewrite H.
Qed.

Definition demo_rb : ringbuffer := MkRb 8 5 2 5 [67; 0; 0; 0; 0; 79; 75; 0].

Lemma prefix_read_consumes_one_string_witness :
  contents demo_rb = [79; 75; 0; 67; 0] /\
  let m := take (Z.to_nat 4) (line [79; 75; 0; 67; 0]) in
  exists rb', ringbuffer_read_string_and_is_with_prefix (Some demo_rb) (Some [79; 75; 0])
      (Some ([9; 9; 9; 9], 0)) (Some 4) =
    Ok (Some rb', (Some (overwrite [9; 9; 9; 9] 0 m, 0),
      (Some (Zlen m), cbool (bool_decide ([79; 75] `prefix_of` [79; 75; 0; 67; 0]))))) /\
    repr rb' 8 (rest [79; 75; 0; 67; 0]).
Proof.
  split; [reflexivity|].
  apply (prefix_read_consumes_one_string demo_rb 8 [79; 75; 0; 67; 0] [9; 9; 9; 9] 0 4 [79; 75] []).
  - split; [|done]. split; cbn; lia || reflexivity.
  - unfold in_range. lia.
  - repeat constructor; lia.
  - lia.
  - unfold Zlen; cbn; lia.
Defined.

(** [ringbuffer_read] tests the free space instead of the stored bytes:
    with [n] above the free space it returns 0 and takes nothing, however
    much is stored; otherwise it is [try_read] and may deliver fewer than
    [n] bytes.  In particular a full buffer can never be read with it. *)
Theorem ringbuffer_read_guards_free_space rb c q b o n :
  repr rb c q -> is_u16 n -> 0 <= o -> o + Z.min n (Zlen q) <= Zlen b ->
  let k := Z.min n (Zlen q) in
  if c - Zlen q <? n
  then ringbuffer_read (Some rb) (Some (b, o)) n = Ok (Some rb, (Some (b, o), 0))
  else exists rb', ringbuffer_read (Some rb) (Some (b, o)) n =
         Ok (Some rb', (Some (overwrite b o (take (Z.to_nat k) q), o), k)) /\
       repr rb' c (drop (Z.to_nat k) q).
Proof.
  intros R Hn Ho Hb k. cbn [ringbuffer_read guard_valid]. unfold rb_read.
  assert (rb_cap rb = c) as -> by apply R. rewrite (repr_len _ _ _ R). case_test; [done|].
  destruct (rb_try_read_spec rb c q (Some (b, o)) n R Hn) as (rb' & H & R'); [done|].
  rewrite H. by exists rb'.
Qed.

Lemma ringbuffer_read_guards_free_space_witness :
  (forall n, 1 <= n <= 4 ->
    ringbuffer_read (Some (MkRb 4 4 0 0 [1; 2; 3; 4])) (Some ([0; 0; 0; 0], 0)) n =
      Ok (Some (MkRb 4 4 0 0 [1; 2; 3; 4]), (Some ([0; 0; 0; 0], 0), 0))) /\
  exists rb', ringbuffer_read (Some (MkRb 4 1 1 0 [1; 2; 3; 4])) (Some ([0; 0; 0; 0], 0)) 3 =
    Ok (Some rb', (Some ([1; 0; 0; 0], 0), 1)).
Proof.
  split.
  - intros n Hn.
    pose proof (ringbuffer_read_guards_free_space (MkRb 4 4 0 0 [1; 2; 3; 4]) 4 [1; 2; 3; 4] [0; 0; 0; 0] 0 n) as H.
    change (4 - Zlen [1; 2; 3; 4]) with 0 in H. rewrite (proj2 (Z.ltb_lt 0 n)) in H by lia. apply H.
    + split; [|done]. split; cbn; lia || reflexivity.
    + unfold in_range. lia.
    + lia.
    + unfold Zlen; cbn; lia.
  - destruct (ringbuffer_read_guards_free_space (MkRb 4 1 1 0 [1; 2; 3; 4]) 4 [1] [0; 0; 0; 0] 0 3)
      as (rb' & H & _).
    + split; [|done]. split; cbn; lia || reflexivity.
    + unfold in_range. lia.
    + lia.
    + unfold Zlen; cbn; lia.
    + exists rb'. exact H.
Defined.

(** The [drop] operations compare the wrong way round: the number of
    bytes dropped is the maximum of the request and the length, so a request
    for part of the contents discards all of them, and a request for more
    than the contents makes [len] wrap around to above the capacity. *)
Theorem ringbuffer_drop_takes_maximum rb c q n :
  repr rb c q -> 0 < n < 65536 ->
  (rb_drop_from_tail rb n).2 = Z.max n (Zlen q) /\ (rb_drop_from_head rb n).2 = Z.max n (Zlen q) /\
  (n <= Zlen q -> contents (rb_drop_from_tail rb n).1 = [] /\ contents (rb_drop_from_head rb n).1 = []) /\
  (Zlen q < n <= c -> c < 32768 -> ~ wf (rb_drop_from_tail rb n).1 /\ ~ wf (rb_drop_from_head rb n).1).
Proof.
  intros R Hn. pose proof (Zlen_nonneg q). pose proof (repr_bounds _ _ _ R).
  destruct (drop_from_tail_length rb c q n R Hn) as (E1 & E2 & E3).
  destruct (drop_from_head_length rb c q n R) as (F1 & F2 & F3); [lia|].
  split; [done|]. split; [done|]. split.
  - intros Hq. rewrite Z.max_r, Z.sub_diag in * by lia. unfold contents. by rewrite E2, F2.
  - intros Hq Hc. rewrite Z.max_l in * by lia.
    assert (c < u16 (Zlen q - n)).
    { unfold wrap. pow2_norm. replace (Zlen q - n) with (65536 + Zlen q - n + -1 * 65536) by lia.
      rewrite Z_mod_plus_full, Z.mod_small by lia. lia. }
    split; intros [_ _ Hw _ _]; [rewrite E2, E3 in Hw|rewrite F2, F3 in Hw]; lia.
Qed.

Lemma ringbuffer_drop_takes_maximum_witness :
  contents (rb_drop_from_tail demo_rb 1).1 = [] /\ ~ wf (rb_drop_from_head demo_rb 6).1.
Proof.
  assert (repr demo_rb 8 [79; 75; 0; 67; 0]) as R.
  { split; [|done]. split; cbn; lia || reflexivity. }
  split.
  - destruct (ringbuffer_drop_takes_maximum demo_rb 8 [79; 75; 0; 67; 0] 1 R) as (_ & _ & H & _); [lia|].
    apply H. unfold Zlen; cbn; lia.
  - destruct (ringbuffer_drop_takes_maximum demo_rb 8 [79; 75; 0; 67; 0] 6 R) as (_ & _ & _ & H); [lia|].
    apply H; [unfold Zlen; cbn; lia|lia].
Defined.
