(* ===== verification/Bcd.v ===== *)
(** Two-digit packed BCD, src/src/misc/bcd_code.c: both conversions and
    their round trips. *)
From S2P Require Import Prelude.

Definition from_bcd (bcd : Z) : Z :=
  let h := Z.shiftr bcd 4 in
  if 9 <? h then 0 else
  let l := Z.land bcd 15 in
  if 9 <? l then 0 else u8 (h * 10 + l).

Definition to_bcd (hex : Z) : Z :=
  let h := hex / 10 in
  if 9 <? h then 0 else u8 (Z.lor (Z.shiftl h 4) (hex mod 10)).

(** A byte whose two nibbles are decimal digits. *)
Definition is_bcd (b : Z) : bool := (Z.shiftr b 4 <=? 9) && (Z.land b 15 <=? 9).

Lemma to_bcd_small v : 0 <= v < 100 ->
  (from_bcd (to_bcd v) =? v) && is_bcd (to_bcd v) && (to_bcd v <? 256) && (0 <=? to_bcd v) = true.
Proof. apply (range_forallb 100 (fun v =>
  (from_bcd (to_bcd v) =? v) && is_bcd (to_bcd v) && (to_bcd v <? 256) && (0 <=? to_bcd v)) 0). by vm_compute. Qed.

Lemma from_to_bcd v : 0 <= v < 100 -> from_bcd (to_bcd v) = v.
Proof. intros H%to_bcd_small. bool_to_prop. done. Qed.
Lemma to_bcd_is_bcd v : 0 <= v < 100 -> is_bcd (to_bcd v) = true.
Proof. intros H%to_bcd_small. apply andb_true_iff in H as [[[? ?]%andb_true_iff ?]%andb_true_iff ?]. done. Qed.
Lemma to_bcd_range v : 0 <= v < 100 -> 0 <= to_bcd v < 256.
Proof. intros H%to_bcd_small. bool_to_prop. lia. Qed.
Lemma to_bcd_big v : 100 <= v -> to_bcd v = 0.
Proof. intros H. unfold to_bcd. rewrite (proj2 (Z.ltb_lt 9 _)); [done|]. assert (10 <= v / 10); [|lia]. apply Z.div_le_lower_bound; lia. Qed.

Lemma from_bcd_all b : 0 <= b < 256 ->
  (from_bcd b <? 100) && (0 <=? from_bcd b) &&
  (if is_bcd b then to_bcd (from_bcd b) =? b else from_bcd b =? 0) = true.
Proof. apply (range_forallb 256 (fun b => (from_bcd b <? 100) && (0 <=? from_bcd b) &&
  (if is_bcd b then to_bcd (from_bcd b) =? b else from_bcd b =? 0)) 0). by vm_compute. Qed.

Lemma from_bcd_range b : 0 <= b < 256 -> 0 <= from_bcd b < 100.
Proof. intros H%from_bcd_all. bool_to_prop. lia. Qed.
Lemma to_from_bcd b : 0 <= b < 256 -> is_bcd b = true -> to_bcd (from_bcd b) = b.
Proof. intros H%from_bcd_all E. rewrite E in H. bool_to_prop. done. Qed.
Lemma from_bcd_invalid b : 0 <= b < 256 -> is_bcd b = false -> from_bcd b = 0.
Proof. intros H%from_bcd_all E. rewrite E in H. bool_to_prop. done. Qed.

(** The two BCD conversions are inverse to each other exactly on the
    two-digit numbers and the bytes with two decimal nibbles; every other
    argument is converted to 0. *)
Theorem bcd_round_trip (v : Z) :
  is_u8 v ->
  (if v <? 100 then from_bcd (to_bcd v) = v /\ is_bcd (to_bcd v) = true else to_bcd v = 0) /\
  (if is_bcd v then to_bcd (from_bcd v) = v /\ from_bcd v < 100 else from_bcd v = 0).
Proof.
  intros Hv. pow2_norm. split.
  - destruct (Z.ltb_spec v 100); [split; [apply from_to_bcd | apply to_bcd_is_bcd] | apply to_bcd_big]; lia.
  - destruct (is_bcd v) eqn:E; [|by apply from_bcd_invalid].
    split; [by apply to_from_bcd | apply from_bcd_range; lia].
Qed.

Lemma bcd_round_trip_witness : is_u8 42 /\ from_bcd (to_bcd 42) = 42 /\ to_bcd 42 = 66.
Proof.
  split; [by vm_compute|]. split; [|by vm_compute].
  apply (bcd_round_trip 42 ltac:(by vm_compute)).
Defined.
