(* ===== verification/Datetime.v ===== *)
(** Seconds since 2000-01-01 and calendar dates,
    src/src/misc/second_datetime.c: both conversions and the validity test,
    their round trips, and the relation to the Gregorian calendar. *)
From S2P Require Import Prelude.

(** ** Data and operations *)

(** [struct datetime]: every field is a [uint8_t]. *)
Record datetime := MkDt {
  year : Z;
  month : Z;
  day : Z;
  weekday : Z;
  hour : Z;
  minute : Z;
  second : Z
}.

#[export] Instance datetime_eq_dec : EqDecision datetime.
Proof. solve_decision. Defined.

Definition SECONDS_PER_MINUTE := 60.
Definition SECONDS_PER_HOUR := SECONDS_PER_MINUTE * 60.
Definition SECONDS_PER_DAY := SECONDS_PER_HOUR * 24.
Definition SECONDS_PER_WEEK := SECONDS_PER_DAY * 7.
Definition SECONDS_PER_COM_YEAR := SECONDS_PER_DAY * 365.
Definition SECONDS_PER_LEAP_YEAR := SECONDS_PER_DAY * 366.
Definition SECONDS_PER_FOUR_YEARS := SECONDS_PER_LEAP_YEAR + SECONDS_PER_COM_YEAR * 3.

Definition is_leap_year (d : datetime) : bool := year d mod 4 =? 0.

Definition seconds_table_4year : list Z :=
  [0; SECONDS_PER_LEAP_YEAR; SECONDS_PER_LEAP_YEAR + SECONDS_PER_COM_YEAR * 1;
   SECONDS_PER_LEAP_YEAR + SECONDS_PER_COM_YEAR * 2].
Definition month_days_acc_table_com_year : list Z :=
  [0; 31; 59; 90; 120; 151; 181; 212; 243; 273; 304; 334].
Definition month_days_acc_table_leap_year : list Z :=
  [0; 31; 60; 91; 121; 152; 182; 213; 244; 274; 305; 335].

Definition set_year (d : datetime) (y : Z) : datetime :=
  MkDt y (month d) (day d) (weekday d) (hour d) (minute d) (second d).
Definition set_month_day (d : datetime) (m dd : Z) : datetime :=
  MkDt (year d) m dd (weekday d) (hour d) (minute d) (second d).
Definition set_weekday (d : datetime) (w : Z) : datetime :=
  MkDt (year d) (month d) (day d) w (hour d) (minute d) (second d).
Definition set_time (d : datetime) (h m s : Z) : datetime :=
  MkDt (year d) (month d) (day d) (weekday d) h m s.

(** [for (; i < n; ++i) if (x < table[i]) break;] — the final [i]. *)
Fixpoint search (fuel : nat) (table : list Z) (n x i : Z) : res Z :=
  match fuel with
  | O => Err NoFuel
  | S fuel =>
    if i <? n then t ← bget table i; if x <? t then Ok i else search fuel table n x (u8 (i + 1))
    else Ok i
  end.

Definition calc_year (d : datetime) (second : Z) : res (datetime * Z) :=
  let d := set_year d (u8 ((second / SECONDS_PER_FOUR_YEARS) * 4)) in
  let second := second mod SECONDS_PER_FOUR_YEARS in
  i ← search 5 seconds_table_4year (Zlen seconds_table_4year) second 0;
  let i := u8 (i - 1) in
  let d := set_year d (u8 (year d + i)) in
  t ← bget seconds_table_4year i;
  Ok (d, u32 (second - t)).

Definition yearToSeconds (d : datetime) : res Z :=
  t ← bget seconds_table_4year (year d mod 4);
  Ok (u32 ((year d / 4) * SECONDS_PER_FOUR_YEARS + t)).

Definition month_table (d : datetime) : list Z :=
  if is_leap_year d then month_days_acc_table_leap_year else month_days_acc_table_com_year.

Definition calc_month_and_date (d : datetime) (dayOffsetOfYear : Z) : res datetime :=
  let table := month_table d in
  i ← search 12 table 12 dayOffsetOfYear 1;
  t ← bget table (i - 1);
  Ok (set_month_day d i (u8 (dayOffsetOfYear - t + 1))).

Definition monthDateToSeconds (d : datetime) : res Z :=
  t ← bget (month_table d) (month d - 1);
  Ok (u32 ((t + day d - 1) * SECONDS_PER_DAY)).

Definition calWeekDay (second : Z) : Z :=
  let second := second mod SECONDS_PER_WEEK in
  let day := u8 (second / SECONDS_PER_DAY) in
  let day := u8 (day + 5) in
  if 7 <=? day then u8 (day - 7) else day.

Definition calc_time (d : datetime) (second : Z) : datetime :=
  let second := second mod SECONDS_PER_DAY in
  let h := u8 (second / SECONDS_PER_HOUR) in
  let second := second mod SECONDS_PER_HOUR in
  set_time d h (u8 (second / SECONDS_PER_MINUTE)) (u8 (second mod SECONDS_PER_MINUTE)).

Definition timeToSeconds (d : datetime) : Z :=
  u32 (hour d * SECONDS_PER_HOUR + minute d * SECONDS_PER_MINUTE + second d).

Definition is_valid_datatime_ignore_weekday (d : datetime) : bool :=
  (0 <? month d) && (month d <=? 12) && (0 <? day d) && (day d <=? 31) &&
  (hour d <? 24) && (minute d <=? 59) && (second d <=? 59).

Definition toSeconds (d : datetime) : res Z :=
  y ← yearToSeconds d;
  m ← monthDateToSeconds d;
  Ok (u32 (u32 (y + m) + timeToSeconds d)).

(** [None] stands for the null pointer; the result is the new object and
    the return value. *)
Definition second_to_datetime (dt : option datetime) (second : Z) : res (option datetime * Z) :=
  match dt with
  | None => Ok (None, 0)
  | Some d =>
    let d := set_weekday d (calWeekDay second) in
    '(d, second) ← calc_year d second;
    d ← calc_month_and_date d (second / SECONDS_PER_DAY);
    Ok (Some (calc_time d second), 1)
  end.

Definition datetime_to_second (seconds : option Z) (dt : option datetime) : res (option Z * Z) :=
  match seconds, dt with
  | Some _, Some d =>
    if negb (is_valid_datatime_ignore_weekday d) then Ok (seconds, 0) else
    s ← toSeconds d; Ok (Some s, 1)
  | _, _ => Ok (seconds, 0)
  end.

Definition datetime_is_valid (d : datetime) (need_check_weekday : Z) : res Z :=
  if negb (is_valid_datatime_ignore_weekday d) then Ok 0 else
  if negb (ctrue need_check_weekday) then Ok 1 else
  s ← toSeconds d; Ok (cbool (calWeekDay s =? weekday d)).

Example convert_example :
  second_to_datetime (Some (MkDt 0 0 0 0 0 0 0)) 439846555 = Ok (Some (MkDt 13 12 8 6 19 35 55), 1).
Proof. by vm_compute. Qed.

(** ** The calendar the code implements

    [day_number y m d] counts the days since 2000-01-01; the leap rule is
    the code's ([y mod 4 = 0]). *)
Definition year_len (y : Z) : Z := if y mod 4 =? 0 then 366 else 365.
Definition year_start (y : Z) : Z := y * 365 + (y + 3) / 4.
Definition month_start (leap : bool) (m : Z) : Z :=
  nth (Z.to_nat (m - 1)) (if leap then month_days_acc_table_leap_year else month_days_acc_table_com_year) 0.
Definition month_len (leap : bool) (m : Z) : Z :=
  if (m =? 4) || (m =? 6) || (m =? 9) || (m =? 11) then 30
  else if m =? 2 then (if leap then 29 else 28) else 31.
Definition day_number (y m d : Z) : Z := year_start y + month_start (y mod 4 =? 0) m + d - 1.
Definition valid_day (leap : bool) (m d : Z) : bool :=
  (1 <=? m) && (m <=? 12) && (1 <=? d) && (d <=? month_len leap m).
Definition valid_time (h mi s : Z) : Prop := 0 <= h < 24 /\ 0 <= mi < 60 /\ 0 <= s < 60.

Lemma SECONDS_PER_DAY_eq : SECONDS_PER_DAY = 86400.
Proof. done. Qed.
Ltac seconds :=
  change SECONDS_PER_FOUR_YEARS with 126230400 in *; change SECONDS_PER_WEEK with 604800 in *;
  change SECONDS_PER_DAY with 86400 in *; change SECONDS_PER_HOUR with 3600 in *;
  change SECONDS_PER_MINUTE with 60 in *.

(** *** Years *)
Lemma year_split y : 0 <= y ->
  exists q k, y = 4 * q + k /\ 0 <= q /\ 0 <= k < 4 /\ y / 4 = q /\ y mod 4 = k /\
    year_start y = 1461 * q + 365 * k + (if k =? 0 then 0 else 1).
Proof.
  intros Hy. exists (y / 4), (y mod 4). unfold year_start.
  pose proof (Z.div_mod y 4). pose proof (Z.mod_pos_bound y 4).
  split_and!; try lia.
  destruct (Z.eqb_spec (y mod 4) 0).
  - assert ((y + 3) / 4 = y / 4) by (symmetry; apply (Z.div_unique _ 4 _ 3); lia). lia.
  - assert ((y + 3) / 4 = y / 4 + 1) by (symmetry; apply (Z.div_unique _ 4 _ (y mod 4 - 1)); lia). lia.
Qed.

Lemma year_start_succ y : 0 <= y -> year_start (y + 1) = year_start y + year_len y.
Proof.
  intros Hy. unfold year_len, year_start.
  pose proof (Z.div_mod y 4). pose proof (Z.mod_pos_bound y 4).
  destruct (Z.eqb_spec (y mod 4) 0).
  - assert ((y + 1 + 3) / 4 = y / 4 + 1) by (symmetry; apply (Z.div_unique _ 4 _ 0); lia).
    assert ((y + 3) / 4 = y / 4) by (symmetry; apply (Z.div_unique _ 4 _ 3); lia). lia.
  - assert ((y + 1 + 3) / 4 = y / 4 + 1) by (symmetry; apply (Z.div_unique _ 4 _ (y mod 4)); lia).
    assert ((y + 3) / 4 = y / 4 + 1) by (symmetry; apply (Z.div_unique _ 4 _ (y mod 4 - 1)); lia). lia.
Qed.

(** [search] stops at the first entry above [x], or at [n]. *)
Lemma search_eq fuel table n x i j :
  0 <= i <= j -> j <= n < 256 -> (Z.to_nat (j - i) < fuel)%nat ->
  (forall a, i <= a < j -> exists t, bget table a = Ok t /\ t <= x) ->
  (j < n -> exists t, bget table j = Ok t /\ x < t) ->
  search fuel table n x i = Ok j.
Proof.
  revert i. induction fuel as [|fuel IH]; intros i Hi Hj Hf Hlow Hhigh; [lia|].
  cbn [search]. destruct (Z.ltb_spec i n); [|f_equal; lia].
  destruct (decide (i = j)) as [->|].
  - destruct Hhigh as (t & -> & ?); [lia|]. cbn. by rewrite (proj2 (Z.ltb_lt x t)).
  - destruct (Hlow i) as (t & -> & ?); [lia|]. cbn. rewrite (proj2 (Z.ltb_ge x t)) by lia.
    unwrap. apply IH; [lia..| |done]. intros a Ha. apply Hlow. lia.
Qed.

Lemma table_4year a : 0 <= a < 4 ->
  bget seconds_table_4year a = Ok ((365 * a + (if a =? 0 then 0 else 1)) * 86400).
Proof. intros. assert (a = 0 \/ a = 1 \/ a = 2 \/ a = 3) as [-> | [-> | [-> | ->]]] by lia; by vm_compute. Qed.

Lemma calc_year_eq d y off :
  0 <= y -> 0 <= off < year_len y * 86400 -> year_start y * 86400 + off < 2 ^ 32 ->
  calc_year d (year_start y * 86400 + off) = Ok (set_year d y, off).
Proof.
  intros Hy Ho Hs. pow2_norm. unfold year_len in Ho.
  destruct (year_split y Hy) as (q & k & Ey & Hq & Hk & Hdiv & Hmod & E). rewrite Hmod in Ho.
  set (r := (365 * k + (if k =? 0 then 0 else 1)) * 86400 + off).
  assert (year_start y * 86400 + off = 126230400 * q + r) as -> by lia.
  assert (0 <= r < 126230400) as Hr.
  { subst r. destruct (Z.eqb_spec k 0); lia. }
  unfold calc_year. seconds.
  rewrite <- (Z.div_unique (126230400 * q + r) 126230400 q r) by lia.
  rewrite <- (Z.mod_unique (126230400 * q + r) 126230400 q r) by lia.
  rewrite (wrap_small 8 (q * 4)) by (pow2_norm; lia).
  assert (search 5 seconds_table_4year (Zlen seconds_table_4year) r 0 = Ok (k + 1)) as ->.
  { apply search_eq; change (Zlen seconds_table_4year) with 4; [lia..| |].
    - intros a Ha. rewrite table_4year by lia. eexists; split; [done|]. subst r.
      destruct (Z.eqb_spec k 0), (Z.eqb_spec a 0); lia.
    - intros Hk4. rewrite table_4year by lia. eexists; split; [done|]. subst r.
      destruct (Z.eqb_spec k 0), (Z.eqb_spec (k + 1) 0); lia. }
  cbn [mbind res_bind]. replace (k + 1 - 1) with k by lia. unwrap.
  rewrite table_4year by lia. cbn [mbind res_bind year set_year]. unwrap.
  rewrite wrap_small by (subst r; pow2_norm; destruct (Z.eqb_spec k 0); lia).
  unfold set_year. cbn. do 3 f_equal; subst r; lia.
Qed.

Lemma year_start_bound y : 0 <= y -> 365 * y <= year_start y.
Proof. intros. unfold year_start. assert (0 <= (y + 3) / 4) by (apply Z.div_pos; lia). lia. Qed.

Lemma year_exists n : 0 <= n -> exists y o, 0 <= y /\ n = year_start y + o /\ 0 <= o < year_len y.
Proof.
  intros Hn. pattern n. revert n Hn. apply natlike_ind.
  - exists 0, 0. by vm_compute.
  - intros n Hn (y & o & Hy & -> & Ho).
    destruct (decide (o + 1 < year_len y)).
    + exists y, (o + 1). lia.
    + exists (y + 1), 0. rewrite year_start_succ by done.
      assert (0 < year_len (y + 1)) by (unfold year_len; by case_test). lia.
Qed.

Lemma yearToSeconds_eq d : 0 <= year d -> yearToSeconds d = Ok (u32 (year_start (year d) * 86400)).
Proof.
  intros Hy. destruct (year_split _ Hy) as (q & k & Ey & Hq & Hk & Hdiv & Hmod & E).
  unfold yearToSeconds. rewrite Hmod, Hdiv, E. seconds.
  rewrite table_4year by lia. cbn. do 2 f_equal. lia.
Qed.

(** *** Months *)
Lemma month_cases m (P : Z -> Prop) :
  P 1 -> P 2 -> P 3 -> P 4 -> P 5 -> P 6 -> P 7 -> P 8 -> P 9 -> P 10 -> P 11 -> P 12 ->
  1 <= m <= 12 -> P m.
Proof.
  intros. assert (m = 1 \/ m = 2 \/ m = 3 \/ m = 4 \/ m = 5 \/ m = 6 \/ m = 7 \/ m = 8 \/
    m = 9 \/ m = 10 \/ m = 11 \/ m = 12) by lia. naive_solver.
Qed.

Definition acc_table (leap : bool) : list Z :=
  if leap then month_days_acc_table_leap_year else month_days_acc_table_com_year.

Lemma acc_table_get leap m : 1 <= m <= 12 -> bget (acc_table leap) (m - 1) = Ok (month_start leap m).
Proof. apply (month_cases m (fun m => bget (acc_table leap) (m - 1) = Ok (month_start leap m))); by destruct leap. Qed.

Lemma month_start_succ leap m : 1 <= m < 12 -> month_start leap (m + 1) = month_start leap m + month_len leap m.
Proof.
  intros. assert (m < 12 -> month_start leap (m + 1) = month_start leap m + month_len leap m); [|lia].
  apply (month_cases m (fun m => m < 12 -> month_start leap (m + 1) = month_start leap m + month_len leap m));
    try lia; by destruct leap.
Qed.

Lemma month_len_bound leap m : 28 <= month_len leap m <= 31.
Proof. unfold month_len. destruct leap; repeat case_test; lia. Qed.

Lemma month_start_mono leap m m' : 1 <= m <= m' -> m' <= 12 -> month_start leap m <= month_start leap m'.
Proof.
  intros [Hm Hle] H'. revert H'. pattern m'. revert m' Hle. apply Zlt_lower_bound_ind.
  intros x IH Hx H'. destruct (decide (x = m)) as [->|]; [lia|].
  specialize (IH (x - 1)). pose proof (month_start_succ leap (x - 1)).
  replace (x - 1 + 1) with x in * by lia. pose proof (month_len_bound leap (x - 1)). lia.
Qed.

Lemma year_len_month y : month_start (y mod 4 =? 0) 12 + 31 = year_len y.
Proof. unfold year_len. by destruct (y mod 4 =? 0). Qed.

Lemma month_start_range leap m : 1 <= m <= 12 -> 0 <= month_start leap m <= 335.
Proof. apply (month_cases m (fun m => 0 <= month_start leap m <= 335)); destruct leap; by vm_compute. Qed.

Lemma valid_day_spec leap m d :
  valid_day leap m d = true <-> 1 <= m <= 12 /\ 1 <= d <= month_len leap m.
Proof. unfold valid_day. rewrite !andb_true_iff, !Z.leb_le. lia. Qed.

Lemma calc_month_and_date_eq x m d :
  valid_day (is_leap_year x) m d = true ->
  calc_month_and_date x (month_start (is_leap_year x) m + d - 1) = Ok (set_month_day x m d).
Proof.
  intros [Hm Hd]%valid_day_spec. set (leap := is_leap_year x) in *.
  pose proof (month_len_bound leap m). unfold calc_month_and_date, month_table. fold leap. fold (acc_table leap).
  rewrite (search_eq 12 _ _ _ 1 m); [|lia..| |].
  - cbn. rewrite acc_table_get by lia. cbn. rewrite wrap_small by (pow2_norm; lia). do 2 f_equal. lia.
  - intros a Ha. exists (month_start leap (a + 1)). replace a with (a + 1 - 1) at 1 by lia.
    rewrite acc_table_get by lia. split; [done|]. pose proof (month_start_mono leap (a + 1) m). lia.
  - intros Hm'. exists (month_start leap (m + 1)). replace m with (m + 1 - 1) at 1 by lia.
    rewrite acc_table_get by lia. split; [done|]. rewrite month_start_succ by lia. lia.
Qed.

Lemma day_exists y o : 0 <= o < year_len y ->
  exists m d, valid_day (y mod 4 =? 0) m d = true /\ o = month_start (y mod 4 =? 0) m + d - 1.
Proof.
  rewrite <- year_len_month. set (leap := y mod 4 =? 0).
  intros [Ho Hlt].
  assert (forall m, 1 <= m <= 12 -> o < month_start leap m + month_len leap m ->
    exists m' d, valid_day leap m' d = true /\ o = month_start leap m' + d - 1) as H.
  { intros m [Hm Hle]. revert Hle. pattern m. revert m Hm. apply Zlt_lower_bound_ind.
    intros x IH Hx Hle Hlen. destruct (decide (month_start leap x <= o)) as [Hge|Hlow].
    - exists x, (o - month_start leap x + 1). rewrite valid_day_spec. lia.
    - destruct (decide (x = 1)) as [->|].
      { assert (month_start leap 1 = 0) as E by (by destruct leap). lia. }
      apply (IH (x - 1)); [lia..|]. rewrite <- month_start_succ by lia.
      replace (x - 1 + 1) with x by lia. lia. }
  apply (H 12); [lia|]. assert (month_len leap 12 = 31) as -> by done. lia.
Qed.

(** *** Times of the day and week days *)
Definition time_seconds (h mi s : Z) : Z := h * 3600 + mi * 60 + s.

Lemma time_exists t : 0 <= t < 86400 -> exists h mi s, valid_time h mi s /\ t = time_seconds h mi s.
Proof.
  intros Ht. exists (t / 3600), (t mod 3600 / 60), (t mod 60). unfold valid_time, time_seconds.
  pose proof (Z.div_mod t 3600). pose proof (Z.mod_pos_bound t 3600).
  pose proof (Z.div_mod (t mod 3600) 60). pose proof (Z.mod_pos_bound (t mod 3600) 60).
  assert (t mod 60 = (t mod 3600) mod 60) as E.
  { rewrite <- Znumtheory.Zmod_div_mod; [done|lia..|]. by exists 60. }
  rewrite E. lia.
Qed.

Lemma calc_time_eq x n h mi s : valid_time h mi s ->
  calc_time x (n * 86400 + time_seconds h mi s) = set_time x h mi s.
Proof.
  intros (Hh & Hm & Hs). unfold calc_time, time_seconds. seconds.
  rewrite <- (Z.mod_unique (n * 86400 + (h * 3600 + mi * 60 + s)) 86400 n (h * 3600 + mi * 60 + s)) by lia.
  rewrite <- (Z.div_unique (h * 3600 + mi * 60 + s) 3600 h (mi * 60 + s)) by lia.
  rewrite <- (Z.mod_unique (h * 3600 + mi * 60 + s) 3600 h (mi * 60 + s)) by lia.
  rewrite <- (Z.div_unique (mi * 60 + s) 60 mi s) by lia.
  rewrite <- (Z.mod_unique (mi * 60 + s) 60 mi s) by lia. by unwrap.
Qed.

(** 2000-01-01 was a Saturday, day 5 of a week that starts on Monday. *)
Definition weekday_of (n : Z) : Z := (n + 5) mod 7.

Lemma calWeekDay_eq n t : 0 <= n -> 0 <= t < 86400 -> calWeekDay (n * 86400 + t) = weekday_of n.
Proof.
  intros Hn Ht. unfold calWeekDay, weekday_of. seconds.
  pose proof (Z.div_mod n 7). pose proof (Z.mod_pos_bound n 7).
  rewrite <- (Z.mod_unique (n * 86400 + t) 604800 (n / 7) ((n mod 7) * 86400 + t)) by lia.
  rewrite <- (Z.div_unique ((n mod 7) * 86400 + t) 86400 (n mod 7) t) by lia. unwrap.
  case_test; unwrap.
  - apply (Z.mod_unique _ _ (n / 7 + 1)); lia.
  - apply (Z.mod_unique _ _ (n / 7)); lia.
Qed.

(** *** The two conversions, on the calendar *)
Lemma second_to_datetime_eq x y m d h mi s :
  0 <= y -> valid_day (y mod 4 =? 0) m d = true -> valid_time h mi s ->
  day_number y m d * 86400 + time_seconds h mi s < 2 ^ 32 ->
  second_to_datetime (Some x) (day_number y m d * 86400 + time_seconds h mi s)
  = Ok (Some (MkDt y m d (weekday_of (day_number y m d)) h mi s), 1).
Proof.
  intros Hy Hd Ht Hs. assert (0 <= time_seconds h mi s < 86400) as Hts.
  { unfold valid_time, time_seconds in *. lia. }
  unfold second_to_datetime. pose proof Hd as [Hm Hd']%valid_day_spec.
  set (o := month_start (y mod 4 =? 0) m + d - 1).
  assert (0 <= o < year_len y) as Ho.
  { subst o. rewrite <- year_len_month. pose proof (month_start_range (y mod 4 =? 0) m Hm).
    pose proof (month_start_mono (y mod 4 =? 0) m 12).
    destruct (decide (m = 12)) as [->|]; [change (month_len (y mod 4 =? 0) 12) with 31 in *; lia|].
    pose proof (month_start_mono (y mod 4 =? 0) (m + 1) 12).
    pose proof (month_start_succ (y mod 4 =? 0) m). lia. }
  pose proof (year_start_bound y Hy).
  rewrite calWeekDay_eq by (unfold day_number; lia).
  assert (day_number y m d * 86400 + time_seconds h mi s = year_start y * 86400 + (o * 86400 + time_seconds h mi s))
    as Es by (unfold day_number; fold o; lia).
  rewrite Es in *. rewrite calc_year_eq by (try done; lia). cbn [mbind res_bind].
  seconds. rewrite <- (Z.div_unique _ 86400 o (time_seconds h mi s)) by lia.
  subst o. set (x' := set_year _ y). change (y mod 4 =? 0) with (is_leap_year x').
  rewrite calc_month_and_date_eq by done. cbn [mbind res_bind]. by rewrite calc_time_eq.
Qed.

Lemma seconds_exist s : 0 <= s ->
  exists y m d h mi se, 0 <= y /\ valid_day (y mod 4 =? 0) m d = true /\ valid_time h mi se /\
    s = day_number y m d * 86400 + time_seconds h mi se.
Proof.
  intros Hs.
  destruct (year_exists (s / 86400)) as (y & o & Hy & En & Ho); [apply Z.div_pos; lia|].
  destruct (day_exists y o Ho) as (m & d & Hd & ->).
  destruct (time_exists (s mod 86400)) as (h & mi & se & Ht & Et); [apply Z.mod_pos_bound; lia|].
  exists y, m, d, h, mi, se. split_and!; try done. rewrite <- Et. unfold day_number.
  pose proof (Z.div_mod s 86400). lia.
Qed.

Lemma toSeconds_eq y m d w h mi s :
  0 <= y -> 1 <= m <= 12 -> 1 <= d <= 31 -> valid_time h mi s ->
  toSeconds (MkDt y m d w h mi s) = Ok (u32 (day_number y m d * 86400 + time_seconds h mi s)).
Proof.
  intros Hy Hm Hd (Hh & Hmi & Hs). unfold toSeconds. rewrite yearToSeconds_eq by done.
  unfold monthDateToSeconds, month_table, is_leap_year. cbn [mbind res_bind year month day].
  fold (acc_table (y mod 4 =? 0)). rewrite acc_table_get by done. cbn [mbind res_bind].
  unfold timeToSeconds. cbn. seconds. unfold wrap.
  rewrite (Z.mod_small (h * 3600 + mi * 60 + s)) by (pow2_norm; lia).
  rewrite <- Z.add_mod by done. rewrite Z.add_mod_idemp_l by done.
  unfold day_number, time_seconds. do 2 f_equal. lia.
Qed.

Lemma day_number_nonneg y m d : 0 <= y -> valid_day (y mod 4 =? 0) m d = true -> 0 <= day_number y m d.
Proof.
  intros Hy [Hm Hd]%valid_day_spec. pose proof (year_start_bound y Hy).
  pose proof (month_start_range (y mod 4 =? 0) m Hm). unfold day_number. lia.
Qed.

(** The fields of a calendar date pass the code's own validity test. *)
Lemma valid_ignore_weekday y m d w h mi s :
  valid_day (y mod 4 =? 0) m d = true -> valid_time h mi s ->
  is_valid_datatime_ignore_weekday (MkDt y m d w h mi s) = true.
Proof.
  intros [Hm Hd]%valid_day_spec (? & ? & ?). pose proof (month_len_bound (y mod 4 =? 0) m).
  unfold is_valid_datatime_ignore_weekday. cbn.
  rewrite !andb_true_iff, !Z.leb_le, !Z.ltb_lt. lia.
Qed.

Lemma valid_iff x :
  is_valid_datatime_ignore_weekday x = true <->
  1 <= month x <= 12 /\ 1 <= day x <= 31 /\ hour x < 24 /\ minute x <= 59 /\ second x <= 59.
Proof. unfold is_valid_datatime_ignore_weekday. rewrite !andb_true_iff, !Z.leb_le, !Z.ltb_lt. lia. Qed.

(** C33: Every 32-bit second count is converted to a date that the validity
    test accepts, weekday included, and that converts back to the same count. *)
Theorem second_datetime_round_trip (x : datetime) (s s0 : Z) :
  is_u32 s ->
  exists d, second_to_datetime (Some x) s = Ok (Some d, 1) /\
    datetime_is_valid d 1 = Ok 1 /\ datetime_to_second (Some s0) (Some d) = Ok (Some s, 1).
Proof.
  intros Hs. destruct (seconds_exist s) as (y & m & d & h & mi & se & Hy & Hd & Ht & E); [apply Hs|].
  rewrite E in *. exists (MkDt y m d (weekday_of (day_number y m d)) h mi se).
  pose proof Hd as [Hm Hd']%valid_day_spec. pose proof (month_len_bound (y mod 4 =? 0) m).
  split; [by apply second_to_datetime_eq; try apply Hs|].
  unfold datetime_is_valid, datetime_to_second. rewrite valid_ignore_weekday by done. cbn [negb ctrue Z.eqb].
  rewrite toSeconds_eq by (try done; lia). rewrite wrap_small by apply Hs. cbn [mbind res_bind].
  split; [|done]. rewrite calWeekDay_eq, Z.eqb_refl; [done|by apply day_number_nonneg|].
  unfold valid_time, time_seconds in *. lia.
Qed.

Lemma second_datetime_round_trip_witness :
  is_u32 4294967295 /\
  exists d, second_to_datetime (Some (MkDt 0 0 0 0 0 0 0)) 4294967295 = Ok (Some d, 1) /\
    datetime_is_valid d 1 = Ok 1 /\ datetime_to_second (Some 0) (Some d) = Ok (Some 4294967295, 1).
Proof.
  split; [by vm_compute|]. apply (second_datetime_round_trip (MkDt 0 0 0 0 0 0 0) 4294967295 0). by vm_compute.
Defined.

(** [datetime_to_second] accepts exactly the objects with fields in
    range; a real calendar day of the supported range is converted to the
    count from which [second_to_datetime] rebuilds it, field by field, with
    the right day of the week. *)
Theorem datetime_second_round_trip (y m d w h mi s : Z) (x : datetime) (s0 : Z) :
  0 <= y <= 135 -> valid_day (y mod 4 =? 0) m d = true -> valid_time h mi s ->
  exists t, datetime_to_second (Some s0) (Some (MkDt y m d w h mi s)) = Ok (Some t, 1) /\
    second_to_datetime (Some x) t = Ok (Some (MkDt y m d (calWeekDay t) h mi s), 1).
Proof.
  intros Hy Hd Ht. pose proof Hd as [Hm Hd']%valid_day_spec.
  pose proof (month_len_bound (y mod 4 =? 0) m).
  assert (day_number y m d * 86400 + time_seconds h mi s < 2 ^ 32) as Hlt.
  { pose proof (month_start_range (y mod 4 =? 0) m Hm). unfold day_number, year_start, time_seconds.
    destruct Ht as (? & ? & ?). assert ((y + 3) / 4 < 35); [|pow2_norm; lia].
    apply Z.div_lt_upper_bound; lia. }
  pose proof (day_number_nonneg y m d ltac:(lia) Hd).
  assert (0 <= time_seconds h mi s < 86400) by (unfold valid_time, time_seconds in Ht |- *; lia).
  exists (day_number y m d * 86400 + time_seconds h mi s). split.
  - unfold datetime_to_second. rewrite valid_ignore_weekday by done. cbn [negb].
    rewrite toSeconds_eq by (try done; lia). rewrite wrap_small by lia. done.
  - rewrite calWeekDay_eq by done. apply second_to_datetime_eq; try done; lia.
Qed.

Lemma datetime_second_round_trip_witness :
  (0 <= 13 <= 135 /\ valid_day (13 mod 4 =? 0) 12 8 = true /\ valid_time 19 35 55) /\
  exists t, datetime_to_second (Some 0) (Some (MkDt 13 12 8 6 19 35 55)) = Ok (Some t, 1) /\
    second_to_datetime (Some (MkDt 0 0 0 0 0 0 0)) t = Ok (Some (MkDt 13 12 8 (calWeekDay t) 19 35 55), 1).
Proof.
  assert (0 <= 13 <= 135) as H1 by lia.
  assert (valid_day (13 mod 4 =? 0) 12 8 = true) as H2 by (by vm_compute).
  assert (valid_time 19 35 55) as H3 by (by vm_compute).
  split; [done|].
  exact (datetime_second_round_trip 13 12 8 6 19 35 55 (MkDt 0 0 0 0 0 0 0) 0 H1 H2 H3).
Defined.

(** ** The Gregorian calendar, day by day *)
Definition gregorian_leap (Y : Z) : bool := (Y mod 4 =? 0) && (negb (Y mod 100 =? 0) || (Y mod 400 =? 0)).
Definition next_day (date : Z * Z * Z) : Z * Z * Z :=
  let '(Y, m, d) := date in
  if d <? month_len (gregorian_leap Y) m then (Y, m, d + 1)
  else if m <? 12 then (Y, m + 1, 1) else (Y + 1, 1, 1).
Definition gregorian_date (n : nat) : Z * Z * Z := Nat.iter n next_day (2000, 1, 1).

Definition date_of (s : Z) : res (Z * Z * Z) :=
  '(d, _) ← second_to_datetime (Some (MkDt 0 0 0 0 0 0 0)) s;
  match d with Some d => Ok (2000 + year d, month d, day d) | None => Err NullDeref end.

Lemma gregorian_leap_eq y : 0 <= y < 100 -> gregorian_leap (2000 + y) = (y mod 4 =? 0).
Proof.
  intros Hy. apply eqb_prop.
  apply (range_forallb 100 (fun y => Bool.eqb (gregorian_leap (2000 + y)) (y mod 4 =? 0)) 0); [by vm_compute|lia].
Qed.

(** The calendar date of the [n]-th day agrees with the code's arithmetic
    before the year 2100. *)
Lemma gregorian_day_number n : Z.of_nat n < 36525 ->
  exists y m d, gregorian_date n = (2000 + y, m, d) /\ 0 <= y < 100 /\
    valid_day (y mod 4 =? 0) m d = true /\ day_number y m d = Z.of_nat n.
Proof.
  induction n as [|n IH]; intros Hn.
  { exists 0, 1, 1. by vm_compute. }
  destruct IH as (y & m & d & E & Hy & [Hm Hd]%valid_day_spec & En); [lia|].
  unfold gregorian_date in *. cbn [Nat.iter nat_rect]. fold (Nat.iter n next_day (2000, 1, 1)). rewrite E.
  unfold next_day. rewrite gregorian_leap_eq by lia. unfold day_number in *.
  pose proof (month_len_bound (y mod 4 =? 0) (m + 1)).
  case_test; [|case_test].
  - exists y, m, (d + 1). rewrite valid_day_spec. split_and!; [done|lia..].
  - exists y, (m + 1), 1. rewrite valid_day_spec, month_start_succ by lia. split_and!; [done|lia..].
  - assert (m = 12) as -> by lia. pose proof (year_start_succ y). pose proof (year_len_month y).
    change (month_len (y mod 4 =? 0) 12) with 31 in *.
    assert (month_start ((y + 1) mod 4 =? 0) 1 = 0) as Em by (by destruct ((y + 1) mod 4 =? 0)).
    assert (y + 1 < 100).
    { destruct (decide (y = 99)) as [->|]; [|lia]. exfalso.
      change (year_start 99) with 36160 in *. change (month_start (99 mod 4 =? 0) 12) with 334 in *. lia. }
    pose proof (month_len_bound ((y + 1) mod 4 =? 0) 1).
    exists (y + 1), 1, 1. rewrite valid_day_spec, Em. split_and!; [f_equal; f_equal; lia|lia..].
Qed.

(** C36: Up to the end of the year 2099 the date computed from a second
    count is the date of the Gregorian calendar: the one obtained from
    Saturday 2000-01-01 by stepping day by day. *)
Theorem second_to_datetime_gregorian (n : nat) (t : Z) :
  Z.of_nat n < 36525 -> 0 <= t < 86400 ->
  date_of (Z.of_nat n * 86400 + t) = Ok (gregorian_date n) /\
  calWeekDay (Z.of_nat n * 86400 + t) = (5 + Z.of_nat n) mod 7.
Proof.
  intros Hn Ht. destruct (gregorian_day_number n Hn) as (y & m & d & E & Hy & Hd & En).
  destruct (time_exists t Ht) as (h & mi & s & Hv & ->). split.
  - unfold date_of. rewrite <- En. rewrite second_to_datetime_eq by (try done; pow2_norm; lia).
    cbn [mbind res_bind year month day]. by rewrite E.
  - rewrite calWeekDay_eq by lia. unfold weekday_of. f_equal. lia.
Qed.

Lemma second_to_datetime_gregorian_witness :
  (Z.of_nat 60 < 36525 /\ 0 <= 5 < 86400) /\ date_of (Z.of_nat 60 * 86400 + 5) = Ok (2000, 3, 1).
Proof.
  assert (Z.of_nat 60 < 36525) as H1 by (vm_compute; done). assert (0 <= 5 < 86400) as H2 by lia.
  split; [done|]. exact (proj1 (second_to_datetime_gregorian 60 5 H1 H2)).
Defined.

(** The year 2100 is treated as a leap year: the day after 28 February
    2100 is reported as the 29th, which the Gregorian calendar does not have,
    and [datetime_is_valid] accepts it; the 30th of February is accepted
    in every year. *)
Theorem second_to_datetime_2100 :
  (forall t, 0 <= t < 86400 -> date_of (36584 * 86400 + t) = Ok (2100, 2, 29)) /\
  gregorian_leap 2100 = false /\ next_day (2100, 2, 28) = (2100, 3, 1) /\
  datetime_is_valid (MkDt 100 2 29 0 0 0 0) 0 = Ok 1 /\
  (forall y w, datetime_is_valid (MkDt y 2 30 w 0 0 0) 0 = Ok 1).
Proof.
  split; [|by split_and!].
  intros t Ht. destruct (time_exists t Ht) as (h & mi & s & Hv & ->). unfold date_of.
  change 36584 with (day_number 100 2 29).
  rewrite second_to_datetime_eq; [done|lia|done|done|].
  change (day_number 100 2 29) with 36584. pow2_norm. lia.
Qed.
