(* ===== verification/Timer.v ===== *)
(** Software timers (src/src/misc/timer.c) on the 32-bit millisecond clock
    of platform_os, and the level names of src/src/misc/logger.c. The clock
    value read by [os_get_time] is an argument. *)
From Stdlib Require Import String.
From S2P Require Import Prelude.

Record timer := MkTimer { start : Z; wait : Z }.

Definition timer_init (now : Z) : timer := MkTimer now 0.
Definition timer_is_expired (t : timer) (now : Z) : Z := cbool (u32 (start t + wait t) <=? now).
Definition timer_countdown_ms (now wait_ms : Z) : timer := MkTimer now wait_ms.
(** [wait_second * 1000] is an [int] product. *)
Definition timer_countdown_second (now wait_second : Z) : res timer :=
  w ← int32 (wait_second * 1000); Ok (MkTimer now (u32 w)).
Definition timer_left_ms (t : timer) (now : Z) : Z :=
  let elapse := u32 (now - start t) in
  if wait t <=? elapse then 0 else u32 (wait t - elapse).

Definition logger_level_string (lvl : Z) : string :=
  match nth_error ["TRACE"; "DEBUG"; " INFO"; " WARN"; "ERROR"; "FAULT"]%string (Z.to_nat lvl) with
  | Some s => s
  | None => "     "%string
  end.

(** A timer that was started at [t0] for [w] milliseconds reports, [e]
    milliseconds later (the clock may have wrapped), the time that is left;
    it is expired from the deadline on, provided the deadline does not lie
    beyond the wrap-around of the clock. *)
Theorem timer_deadline (t0 w e : Z) :
  is_u32 t0 -> is_u32 w -> is_u32 e ->
  let t := timer_countdown_ms t0 w in
  timer_left_ms t (u32 (t0 + e)) = Z.max 0 (w - e) /\
  (t0 + w < 2 ^ 32 -> t0 + e < 2 ^ 32 ->
   timer_is_expired t (u32 (t0 + e)) = cbool (w <=? e) /\
   (timer_is_expired t (u32 (t0 + e)) = 1 <-> timer_left_ms t (u32 (t0 + e)) = 0)).
Proof.
  intros H0 Hw He t. assert (timer_left_ms t (u32 (t0 + e)) = Z.max 0 (w - e)) as El.
  { unfold timer_left_ms. cbn.
    assert (u32 (u32 (t0 + e) - t0) = e) as ->.
    { unfold wrap. rewrite Zminus_mod_idemp_l. replace (t0 + e - t0) with e by lia. by apply Z.mod_small. }
    case_test; [lia|]. rewrite wrap_small by (unfold in_range in *; lia). lia. }
  split; [done|]. intros Ht Hte.
  assert (timer_is_expired t (u32 (t0 + e)) = cbool (w <=? e)) as Ee.
  { unfold timer_is_expired. cbn. rewrite !wrap_small by (unfold in_range in *; lia).
    f_equal. apply eq_true_iff_eq. rewrite !Z.leb_le. lia. }
  split; [done|]. rewrite Ee, El. unfold cbool. case_test; lia.
Qed.

Lemma timer_deadline_witness :
  (is_u32 4294967000 /\ is_u32 500 /\ is_u32 400) /\
  timer_left_ms (timer_countdown_ms 4294967000 500) (u32 (4294967000 + 400)) = 100.
Proof.
  assert (is_u32 4294967000) as H1 by (by vm_compute). assert (is_u32 500) as H2 by (by vm_compute).
  assert (is_u32 400) as H3 by (by vm_compute). split; [done|].
  exact (proj1 (timer_deadline 4294967000 500 400 H1 H2 H3)).
Defined.

(** A timer whose deadline lies beyond the wrap-around of the clock is
    reported as expired at once, and as long as the clock has not wrapped,
    although [timer_left_ms] still counts down to the deadline. *)
Theorem timer_wraparound (t0 w e : Z) :
  is_u32 t0 -> is_u32 w -> 2 ^ 32 <= t0 + w -> 0 <= e < w -> t0 + e < 2 ^ 32 ->
  let t := timer_countdown_ms t0 w in
  timer_is_expired t (t0 + e) = 1 /\ 0 < timer_left_ms t (t0 + e).
Proof.
  intros H0 Hw Hge He Hte t. unfold timer_is_expired, timer_left_ms. cbn. pow2_norm.
  assert (u32 (t0 + w) = t0 + w - 4294967296) as ->.
  { unfold wrap. pow2_norm. symmetry. apply (Z.mod_unique _ _ 1); lia. }
  rewrite (proj2 (Z.leb_le _ (t0 + e))) by lia. split; [done|].
  replace (t0 + e - t0) with e by lia. rewrite (wrap_small 32 e) by (pow2_norm; lia).
  rewrite (proj2 (Z.leb_gt w e)) by lia. rewrite wrap_small by (pow2_norm; lia). lia.
Qed.

Lemma timer_wraparound_witness :
  (2 ^ 32 <= 4294967000 + 500 /\ 0 <= 10 < 500) /\
  timer_is_expired (timer_countdown_ms 4294967000 500) (4294967000 + 10) = 1.
Proof.
  split; [by vm_compute|].
  exact (proj1 (timer_wraparound 4294967000 500 10 ltac:(by vm_compute) ltac:(by vm_compute)
    ltac:(by vm_compute) ltac:(lia) ltac:(by vm_compute))).
Defined.
