(* ===== verification/Pid.v ===== *)
(** The incremental PID controller of src/src/pidcontrol/pidcontrol.c. *)
From S2P Require Import Prelude.

(** [struct pid_parameter]: [int16_t] gains and a [uint16_t] divisor. *)
Record pid_parameter := MkParam { kp : Z; ki : Z; kd : Z; factor : Z }.

(** [struct pid_value]; [ek0] to [ek2] are the [int16_t] array [ek]. *)
Record pid_value := MkPid {
  param : pid_parameter;
  expect_output : Z;
  control_value : Z;
  ek0 : Z;
  ek1 : Z;
  ek2 : Z
}.

Definition pid_init (val : pid_value) (control expect : Z) : pid_value :=
  MkPid (param val) expect control 0 0 0.

Definition pid_exec (val : pid_value) (real_output : Z) : res pid_value :=
  let e2 := ek1 val in
  let e1 := ek0 val in
  let e0 := s16 (expect_output val - real_output) in
  p ← int32 (kp (param val) * e0);
  i ← int32 (ki (param val) * (e0 - e1));
  d ← int32 (kd (param val) * (e0 - 2 * e1 + e2));
  pi ← int32 (p + i);
  diff ← int32 (pi + d);
  diff ← (if factor (param val) =? 0 then Err DivByZero else int32 (Z.quot diff (factor (param val))));
  v ← int32 (control_value val + diff);
  let c := if v <? 0 then 0 else if 65535 <? v then 65535 else u16 v in
  Ok (MkPid (param val) (expect_output val) c e0 e1 e2).

(** The field ranges of the struct. *)
Definition is_s16 (x : Z) : Prop := -32768 <= x < 32768.
Definition pid_ok (val : pid_value) : Prop :=
  is_s16 (kp (param val)) /\ is_s16 (ki (param val)) /\ is_s16 (kd (param val)) /\
  is_u16 (factor (param val)) /\ is_u16 (expect_output val) /\ is_u16 (control_value val) /\
  is_s16 (ek0 val) /\ is_s16 (ek1 val) /\ is_s16 (ek2 val).

(** The control law: the weighted sum of the error, its first and its
    second difference. *)
Definition pid_sum (q : pid_parameter) (e0 e1 e2 : Z) : Z :=
  kp q * e0 + ki q * (e0 - e1) + kd q * (e0 - 2 * e1 + e2).
Definition clamp16 (v : Z) : Z := Z.max 0 (Z.min 65535 v).
(** Gains small enough for the 32-bit sum; the worst case errors are
    32768, 65535 and 131070. *)
Definition gains_ok (q : pid_parameter) : Prop :=
  32768 * Z.abs (kp q) + 65535 * Z.abs (ki q) + 131070 * Z.abs (kd q) <= 2147400000.

Lemma s16_range x : is_s16 (s16 x).
Proof. apply (swrap_range 16 x). lia. Qed.

Lemma mul_abs_bound k x a : Z.abs x <= a -> Z.abs (k * x) <= a * Z.abs k.
Proof. intros. rewrite Z.abs_mul. nia. Qed.

Lemma quot_abs_bound x f : 0 < f -> Z.abs (Z.quot x f) <= Z.abs x.
Proof. intros. rewrite <- Z.quot_abs by lia. rewrite (Z.abs_eq f) by lia. apply Z.quot_le_upper_bound; nia. Qed.

(** C39: With a nonzero divisor and gains within the 32-bit budget a control
    step is free of undefined arithmetic: it shifts the error history and
    moves the control value by the control law, saturated to 0..65535. *)
Theorem pid_exec_control_law (val : pid_value) (real : Z) :
  pid_ok val -> is_u16 real -> gains_ok (param val) -> factor (param val) <> 0 ->
  let e0 := s16 (expect_output val - real) in
  exists val', pid_exec val real = Ok val' /\ pid_ok val' /\
    control_value val' =
      clamp16 (control_value val + Z.quot (pid_sum (param val) e0 (ek0 val) (ek1 val)) (factor (param val))) /\
    (ek0 val', ek1 val', ek2 val') = (e0, ek0 val, ek1 val) /\ param val' = param val.
Proof.
  intros (Hp & Hi & Hd & Hf & He & Hc & H0 & H1 & H2) Hr Hg Hf0 e0.
  destruct val as [[p i d f] ex c x0 x1 x2]; cbn in *. unfold gains_ok in Hg; cbn in Hg.
  pose proof (s16_range (ex - real)) as Hs. fold e0 in Hs. unfold is_s16 in *.
  pose proof (mul_abs_bound p e0 32768). pose proof (mul_abs_bound i (e0 - x0) 65535).
  pose proof (mul_abs_bound d (e0 - 2 * x0 + x1) 131070).
  unfold pid_exec, pid_sum; cbn [param kp ki kd factor ek0 ek1 expect_output control_value]. fold e0.
  set (P := p * e0) in *. set (I := i * (e0 - x0)) in *. set (D := d * (e0 - 2 * x0 + x1)) in *.
  assert (Z.abs P + Z.abs I + Z.abs D <= 2147400000) as Hsum by (clear -Hg H H3 H4 Hs H0 H1; lia).
  pose proof (quot_abs_bound (P + I + D) f) as HQ. set (Q := Z.quot (P + I + D) f) in *.
  assert (Z.abs Q <= 2147400000) as HQ' by (clear -Hsum HQ Hf Hf0; unfold in_range in Hf; lia).
  clearbody P I D. clear HQ H H3 H4 Hg. pow2_norm.
  do 5 (rewrite int32_ok by (clear -Hsum; lia); cbn [mbind res_bind]).
  rewrite (proj2 (Z.eqb_neq f 0)) by done. fold Q.
  do 2 (rewrite int32_ok by (clear -HQ' Hc; lia); cbn [mbind res_bind]).
  set (v := c + _). eexists. split; [done|].
  assert ((if v <? 0 then 0 else if 65535 <? v then 65535 else u16 v) = clamp16 v) as ->.
  { unfold clamp16. repeat case_test; try lia. rewrite wrap_small by (pow2_norm; lia). lia. }
  split; [|done]. clearbody v. unfold clamp16. split_and!; unfold is_s16, in_range;
    cbn [param kp ki kd factor expect_output control_value ek0 ek1 ek2]; pow2_norm; lia.
Qed.

Lemma pid_exec_control_law_witness :
  let val := MkPid (MkParam 5 1 2 10) 1000 500 20 10 0 in
  (pid_ok val /\ gains_ok (param val)) /\
  exists val', pid_exec val 900 = Ok val' /\ control_value val' = 572.
Proof.
  intros val. assert (pid_ok val) as H1 by (by vm_compute). assert (gains_ok (param val)) as H2 by (by vm_compute).
  split; [done|].
  destruct (pid_exec_control_law val 900 H1 ltac:(by vm_compute) H2 ltac:(done)) as (v & E & _ & Ec & _).
  exists v. split; [done|]. rewrite Ec. by vm_compute.
Defined.

(** Outside these conditions a step is undefined: a zero divisor always
    is, and there are gains and errors within the field types whose sum
    does not fit in 32 bits; an error above 32767 changes its sign. *)
Theorem pid_exec_undefined :
  (forall val real, factor (param val) = 0 -> is_ok (pid_exec val real) = false) /\
  pid_exec (MkPid (MkParam 32767 32767 32767 1) 32767 0 (-32768) 32767 0) 0 = Err SignedOverflow /\
  (exists val', pid_exec (MkPid (MkParam 1 0 0 1) 65535 100 0 0 0) 0 = Ok val' /\ control_value val' = 99).
Proof.
  split_and!; [|by vm_compute|by eexists].
  intros val real E. unfold pid_exec. rewrite E. cbn [Z.eqb].
  do 5 (match goal with |- is_ok (mbind _ (int32 ?x)) = _ => destruct (int32 x) end; cbn [mbind res_bind]; [|done]). done.
Qed.
