(* ===== verification/DList.v ===== *)
(** The intrusive doubly linked lists of src/src/misc/list.h: every function
    as a program on a store of [struct list_head] objects, the circular list
    [cyc] such an object is the head of, and the theorems that the functions
    implement the operations on sequences. *)
From stdpp Require Import gmap.
From S2P Require Import Prelude.

(** ** The store: one map per field of [struct list_head] *)
Record store := MkStore { s_prev : gmap Z Z; s_next : gmap Z Z }.

Definition get_next (h : store) (p : Z) : res Z :=
  match s_next h !! p with Some q => Ok q | None => Err NullDeref end.
Definition get_prev (h : store) (p : Z) : res Z :=
  match s_prev h !! p with Some q => Ok q | None => Err NullDeref end.
Definition set_next (h : store) (p q : Z) : res store :=
  match s_next h !! p with Some _ => Ok (MkStore (s_prev h) (<[p := q]> (s_next h))) | None => Err NullDeref end.
Definition set_prev (h : store) (p q : Z) : res store :=
  match s_prev h !! p with Some _ => Ok (MkStore (<[p := q]> (s_prev h)) (s_next h)) | None => Err NullDeref end.

Definition LIST_POISON1 := 16777214.
Definition LIST_POISON2 := 16777215.

(** ** The functions *)
Definition INIT_LIST_HEAD (h : store) (list : Z) : res store :=
  h ← set_next h list list; set_prev h list list.

(** [__list_add] *)
Definition list_add_between (h : store) (new prev next : Z) : res store :=
  h ← set_prev h next new;
  h ← set_next h new next;
  h ← set_prev h new prev;
  set_next h prev new.
Definition list_add (h : store) (new head : Z) : res store :=
  n ← get_next h head; list_add_between h new head n.
Definition list_add_tail (h : store) (new head : Z) : res store :=
  p ← get_prev h head; list_add_between h new p head.

(** [__list_del] and [__list_del_entry] *)
Definition list_del_between (h : store) (prev next : Z) : res store :=
  h ← set_prev h next prev; set_next h prev next.
Definition list_del_entry (h : store) (entry : Z) : res store :=
  p ← get_prev h entry; n ← get_next h entry; list_del_between h p n.
Definition list_del (h : store) (entry : Z) : res store :=
  p ← get_prev h entry; n ← get_next h entry;
  h ← list_del_between h p n;
  h ← set_next h entry LIST_POISON1;
  set_prev h entry LIST_POISON2.

Definition list_replace (h : store) (old new : Z) : res store :=
  n ← get_next h old;
  h ← set_next h new n;
  n ← get_next h new;
  h ← set_prev h n new;
  p ← get_prev h old;
  h ← set_prev h new p;
  p ← get_prev h new;
  set_next h p new.
Definition list_replace_init (h : store) (old new : Z) : res store :=
  h ← list_replace h old new; INIT_LIST_HEAD h old.
Definition list_del_init (h : store) (entry : Z) : res store :=
  h ← list_del_entry h entry; INIT_LIST_HEAD h entry.
Definition list_move (h : store) (list head : Z) : res store :=
  h ← list_del_entry h list; list_add h list head.
Definition list_move_tail (h : store) (list head : Z) : res store :=
  h ← list_del_entry h list; list_add_tail h list head.

Definition list_is_last (h : store) (list head : Z) : res bool :=
  n ← get_next h list; Ok (n =? head).
Definition list_empty (h : store) (head : Z) : res bool :=
  n ← get_next h head; Ok (n =? head).
Definition list_empty_careful (h : store) (head : Z) : res bool :=
  n ← get_next h head; p ← get_prev h head; Ok ((n =? head) && (n =? p)).
Definition list_rotate_left (h : store) (head : Z) : res store :=
  e ← list_empty h head;
  if (e : bool) then Ok h else first ← get_next h head; list_move_tail h first head.
Definition list_is_singular (h : store) (head : Z) : res bool :=
  e ← list_empty h head; n ← get_next h head; p ← get_prev h head;
  Ok (negb e && (n =? p)).

(** [__list_cut_position] *)
Definition list_cut_at (h : store) (list head entry : Z) : res store :=
  new_first ← get_next h entry;
  n ← get_next h head;
  h ← set_next h list n;
  n ← get_next h list;
  h ← set_prev h n list;
  h ← set_prev h list entry;
  h ← set_next h entry list;
  h ← set_next h head new_first;
  set_prev h new_first head.
Definition list_cut_position (h : store) (list head entry : Z) : res store :=
  e ← list_empty h head;
  if (e : bool) then Ok h else
  s ← list_is_singular h head;
  n ← get_next h head;
  if s && (negb (n =? entry) && negb (head =? entry)) then Ok h else
  if entry =? head then INIT_LIST_HEAD h list else list_cut_at h list head entry.

(** [__list_splice] *)
Definition list_splice_between (h : store) (list prev next : Z) : res store :=
  first ← get_next h list;
  last ← get_prev h list;
  h ← set_prev h first prev;
  h ← set_next h prev first;
  h ← set_next h last next;
  set_prev h next last.
Definition list_splice (h : store) (list head : Z) : res store :=
  e ← list_empty h list;
  if (e : bool) then Ok h else n ← get_next h head; list_splice_between h list head n.
Definition list_splice_tail (h : store) (list head : Z) : res store :=
  e ← list_empty h list;
  if (e : bool) then Ok h else p ← get_prev h head; list_splice_between h list p head.
Definition list_splice_init (h : store) (list head : Z) : res store :=
  e ← list_empty h list;
  if (e : bool) then Ok h else
  n ← get_next h head; h ← list_splice_between h list head n; INIT_LIST_HEAD h list.
Definition list_splice_tail_init (h : store) (list head : Z) : res store :=
  e ← list_empty h list;
  if (e : bool) then Ok h else
  p ← get_prev h head; h ← list_splice_between h list p head; INIT_LIST_HEAD h list.

(** [list_for_each]: the entries from [pos] up to the head. *)
Fixpoint list_for_each (fuel : nat) (h : store) (pos head : Z) : res (list Z) :=
  match fuel with
  | O => Err NoFuel
  | S fuel => if pos =? head then Ok [] else n ← get_next h pos; l ← list_for_each fuel h n head; Ok (pos :: l)
  end.
Definition list_entries (fuel : nat) (h : store) (head : Z) : res (list Z) :=
  n ← get_next h head; list_for_each fuel h n head.
(** [list_for_each_prev] *)
Fixpoint list_for_each_prev (fuel : nat) (h : store) (pos head : Z) : res (list Z) :=
  match fuel with
  | O => Err NoFuel
  | S fuel => if pos =? head then Ok [] else n ← get_prev h pos; l ← list_for_each_prev fuel h n head; Ok (pos :: l)
  end.

(** ** Circular lists

    [path h x l y]: from [x] the next pointers lead through [l] to [y], and
    the prev pointers back. [cyc h head l]: [head] is the head of a
    circular list with the entries [l]. *)
Definition linked (h : store) (x y : Z) : Prop := s_next h !! x = Some y /\ s_prev h !! y = Some x.
Fixpoint path (h : store) (x : Z) (l : list Z) (y : Z) : Prop :=
  match l with
  | [] => linked h x y
  | z :: l => linked h x z /\ path h z l y
  end.
Definition cyc (h : store) (head : Z) (l : list Z) : Prop := path h head l head /\ NoDup (head :: l).

(** An object that exists, whatever it contains. *)
Definition exists_node (h : store) (p : Z) : Prop := is_Some (s_next h !! p) /\ is_Some (s_prev h !! p).
(** The two stores agree on the objects outside [S]. *)
Definition same_outside (S : list Z) (h h' : store) : Prop :=
  (forall p, p ∉ S -> s_next h' !! p = s_next h !! p /\ s_prev h' !! p = s_prev h !! p) /\
  (forall p, exists_node h p -> exists_node h' p).

Lemma path_app h x l1 z l2 y : path h x (l1 ++ z :: l2) y <-> path h x l1 z /\ path h z l2 y.
Proof. revert x. induction l1 as [|w l1 IH]; intros x; cbn; [done|]. rewrite IH. tauto. Qed.

Lemma cyc_rotate h x l1 z l2 : cyc h x (l1 ++ z :: l2) <-> cyc h z (l2 ++ x :: l1).
Proof.
  unfold cyc. rewrite !path_app. split; intros [[? ?] Hd]; (split; [done|]).
  - rewrite app_comm_cons in Hd. rewrite Permutation_app_comm in Hd. exact Hd.
  - rewrite app_comm_cons in Hd. rewrite Permutation_app_comm in Hd. exact Hd.
Qed.

Lemma set_next_ok h p q : is_Some (s_next h !! p) ->
  set_next h p q = Ok (MkStore (s_prev h) (<[p := q]> (s_next h))).
Proof. intros [x E]. unfold set_next. by rewrite E. Qed.
Lemma set_prev_ok h p q : is_Some (s_prev h !! p) ->
  set_prev h p q = Ok (MkStore (<[p := q]> (s_prev h)) (s_next h)).
Proof. intros [x E]. unfold set_prev. by rewrite E. Qed.

(** A path is untouched by stores to the next fields of other nodes and to
    the prev fields of nodes it does not enter. *)
Lemma path_agree h h' x l y :
  (forall p, p ∈ x :: l -> s_next h' !! p = s_next h !! p) ->
  (forall p, p ∈ l ++ [y] -> s_prev h' !! p = s_prev h !! p) ->
  path h x l y -> path h' x l y.
Proof.
  revert x. induction l as [|z l IH]; intros x Hn Hp; cbn; unfold linked.
  - rewrite Hn, Hp by set_solver. done.
  - rewrite Hn, Hp by set_solver. intros [? ?]. split; [done|]. apply IH; set_solver.
Qed.
Lemma path_exists h x l y : path h x l y -> forall p, p ∈ x :: l -> is_Some (s_next h !! p).
Proof.
  revert x. induction l as [|z l IH]; intros x Hp p; cbn in *.
  - intros ->%list_elem_of_singleton. destruct Hp as [-> _]. by eexists.
  - intros [-> | H]%elem_of_cons; [destruct Hp as [[-> _] _]; by eexists|]. destruct Hp as [_ Hp]. by apply (IH z).
Qed.

(** Existence of every field an operation stores to. *)
Lemma is_Some_insert (m : gmap Z Z) p q r : is_Some (m !! p) -> is_Some (<[q := r]> m !! p).
Proof. intros H. destruct (decide (p = q)) as [->|]; [rewrite lookup_insert_eq; by eexists|by rewrite lookup_insert_ne]. Qed.
#[local] Hint Resolve is_Some_insert : core.

Lemma path_exists_prev h x l y : path h x l y -> forall p, p ∈ l ++ [y] -> is_Some (s_prev h !! p).
Proof.
  revert x. induction l as [|z l IH]; intros x Hp p; cbn in *.
  - intros ->%list_elem_of_singleton. destruct Hp as [_ ->]. by eexists.
  - intros [-> | H]%elem_of_cons; [destruct Hp as [[_ ->] _]; by eexists|]. destruct Hp as [_ Hp]. by apply (IH z).
Qed.
Lemma cyc_exists h x l p : cyc h x l -> p ∈ x :: l -> exists_node h p.
Proof.
  intros [Hp _] H. split; [by apply (path_exists _ _ _ _ Hp)|].
  apply (path_exists_prev _ _ _ _ Hp). set_solver.
Qed.

(** Run the loads and stores of an operation whose objects exist. *)
Ltac run :=
  repeat first
    [ progress cbn [mbind res_bind s_next s_prev]
    | rewrite set_next_ok by (cbn [s_next s_prev]; eauto)
    | rewrite set_prev_ok by (cbn [s_next s_prev]; eauto) ].
Ltac lookups :=
  repeat first
    [ progress cbn [s_next s_prev]
    | rewrite lookup_insert_eq
    | rewrite lookup_insert_ne by set_solver ].

Lemma same_outside_refl S h : same_outside S h h.
Proof. by split. Qed.
Lemma same_outside_trans S h1 h2 h3 : same_outside S h1 h2 -> same_outside S h2 h3 -> same_outside S h1 h3.
Proof.
  intros [H1 E1] [H2 E2]. split; [|eauto]. intros p Hp. destruct (H2 p Hp) as [-> ->]. by apply H1.
Qed.
Lemma same_outside_mono S S' h h' : S ⊆ S' -> same_outside S h h' -> same_outside S' h h'.
Proof. intros HS [H E]. split; [|done]. intros p Hp. apply H. set_solver. Qed.

(** Circular lists away from the change are kept. *)
Lemma cyc_same S h h' x l : same_outside S h h' -> (forall p, p ∈ x :: l -> p ∉ S) -> cyc h x l -> cyc h' x l.
Proof.
  intros [H _] HS [Hp Hd]. split; [|done].
  eapply path_agree; [| |exact Hp]; intros p Hin; apply H, HS; set_solver.
Qed.

(** [__list_add] after [x]: the new node becomes the first of the list seen
    from [x]. *)
Lemma list_add_between_cyc h new x l : cyc h x l -> exists_node h new -> new ∉ x :: l ->
  exists h', list_add_between h new x (hd x l) = Ok h' /\ cyc h' x (new :: l) /\ same_outside (new :: x :: l) h h'.
Proof.
  intros Hc [Hn Hp] Hin. pose proof Hc as [Hpath Hd].
  assert (forall p, p ∈ x :: l -> exists_node h p) as Hex by (intros; by eapply cyc_exists).
  destruct (Hex x) as [Hxn Hxp]; [set_solver|].
  destruct (Hex (hd x l)) as [Hhn Hhp]; [destruct l; set_solver|].
  unfold list_add_between. run. eexists. split; [done|]. split; [split|].
  - destruct l as [|z l]; cbn in Hpath |- *; unfold linked.
    + assert (new <> x) by set_solver. lookups. done.
    + destruct Hpath as [[Hl1 Hl2] Hpath]. apply NoDup_cons in Hd as [Hx Hd]. apply NoDup_cons in Hd as [Hz Hd].
      assert (new <> x /\ new <> z /\ x <> z) as (? & ? & ?) by set_solver.
      lookups. split_and!; try done. eapply path_agree; [| |exact Hpath]; intros p Hp'; lookups; done.
  - apply NoDup_cons in Hd as [? ?]. rewrite !NoDup_cons. set_solver.
  - split; [|intros p [? ?]; split; cbn; auto]. intros p Hp'. destruct l; cbn [hd] in *; lookups; done.
Qed.

Lemma get_next_cyc h x l : cyc h x l -> get_next h x = Ok (hd x l).
Proof. intros [Hp _]. unfold get_next. destruct l; cbn in Hp; [by destruct Hp as [-> _]|by destruct Hp as [[-> _] _]]. Qed.
Lemma get_prev_cyc h x l : cyc h x l -> get_prev h x = Ok (List.last l x).
Proof.
  intros [Hp _]. unfold get_prev. destruct l as [|y l] using rev_ind; cbn in Hp; [by destruct Hp as [_ ->]|].
  apply path_app in Hp as [_ [_ Hp]]. rewrite Hp. f_equal. symmetry. apply last_last.
Qed.

Lemma list_add_cyc h new x l : cyc h x l -> exists_node h new -> new ∉ x :: l ->
  exists h', list_add h new x = Ok h' /\ cyc h' x (new :: l) /\ same_outside (new :: x :: l) h h'.
Proof.
  intros Hc Hn Hin. unfold list_add. rewrite (get_next_cyc h x l Hc). by apply list_add_between_cyc.
Qed.

Lemma list_add_tail_cyc h new x l : cyc h x l -> exists_node h new -> new ∉ x :: l ->
  exists h', list_add_tail h new x = Ok h' /\ cyc h' x (l ++ [new]) /\ same_outside (new :: x :: l) h h'.
Proof.
  intros Hc Hn Hin. unfold list_add_tail. rewrite (get_prev_cyc h x l Hc). cbn [mbind res_bind].
  destruct l as [|y l] using rev_ind; [by apply (list_add_between_cyc h new x [])|].
  clear IHl. rewrite last_last. apply (cyc_rotate h x l y []) in Hc. cbn in Hc.
  destruct (list_add_between_cyc h new y (x :: l) Hc Hn) as (h' & E & Hc' & Hs); [set_solver|].
  exists h'. split; [exact E|]. split.
  - rewrite <- app_assoc. cbn. by rewrite cyc_rotate.
  - eapply same_outside_mono; [|exact Hs]. set_solver.
Qed.

(** [__list_del_entry]: the neighbours of [e] are linked to each other and
    [e] itself is left as it was. *)
Lemma list_del_entry_cyc h e x l : cyc h e (x :: l) ->
  exists h', list_del_entry h e = Ok h' /\ cyc h' x l /\ same_outside (e :: x :: l) h h' /\
    s_next h' !! e = s_next h !! e /\ s_prev h' !! e = s_prev h !! e.
Proof.
  intros Hc. pose proof Hc as [Hpath Hd].
  assert (forall p, p ∈ e :: x :: l -> exists_node h p) as Hex by (intros; by eapply cyc_exists).
  unfold list_del_entry. rewrite (get_prev_cyc h e _ Hc), (get_next_cyc h e _ Hc). cbn [mbind res_bind hd].
  assert (List.last (x :: l) e ∈ x :: l) as Hlast.
  { destruct (exists_last (l := x :: l)) as (m & y & E); [done|]. rewrite E, last_last. set_solver. }
  destruct (Hex (List.last (x :: l) e)) as [Hyn Hyp]; [set_solver|]. destruct (Hex x) as [Hxn Hxp]; [set_solver|].
  unfold list_del_between. run. eexists. split; [done|]. apply NoDup_cons in Hd as [He Hd].
  split; [split; [|done]|split_and!].
  - destruct Hpath as [Hl1 Hpath]. destruct l as [|y l _] using rev_ind.
    + cbn. unfold linked. by lookups.
    + rewrite app_comm_cons, last_last in *. cbn [app] in *. apply path_app in Hpath as [Hp1 Hp2]. apply path_app.
      apply NoDup_cons in Hd as [Hx Hd]. apply NoDup_app in Hd as (Hd1 & Hd2 & _).
      split; [|cbn; unfold linked; by lookups].
      eapply path_agree; [| |exact Hp1]; intros p Hp; lookups; set_solver.
  - split; [|intros p [? ?]; split; cbn; auto]. intros p Hp'. assert (p <> List.last (x :: l) e) by (intros ->; set_solver).
    assert (p <> x) by set_solver. lookups. done.
  - assert (e <> List.last (x :: l) e) by (intros E; rewrite <- E in Hlast; set_solver). by lookups.
  - by lookups.
Qed.

Lemma INIT_LIST_HEAD_cyc h x : exists_node h x ->
  exists h', INIT_LIST_HEAD h x = Ok h' /\ cyc h' x [] /\ same_outside [x] h h'.
Proof.
  intros [Hn Hp]. unfold INIT_LIST_HEAD. run. eexists. split; [done|]. split; [split|split].
  - cbn. unfold linked. by lookups.
  - apply NoDup_singleton.
  - intros p Hp'. by lookups.
  - intros p [? ?]. split; cbn; auto.
Qed.

(** [__list_splice] of a non-empty list behind [y]. *)
Lemma list_splice_between_cyc h x l y m : cyc h x l -> cyc h y m -> l <> [] -> (forall p, p ∈ x :: l -> p ∉ y :: m) ->
  exists h', list_splice_between h x y (hd y m) = Ok h' /\ cyc h' y (l ++ m) /\ same_outside (x :: l ++ y :: m) h h'.
Proof.
  intros Hx Hy Hl Hdis. pose proof Hx as [Hpx Hdx]. pose proof Hy as [Hpy Hdy].
  assert (forall p, p ∈ x :: l -> exists_node h p) as Hexx by (intros; by eapply (cyc_exists h x l)).
  assert (forall p, p ∈ y :: m -> exists_node h p) as Hexy by (intros; by eapply (cyc_exists h y m)).
  unfold list_splice_between. rewrite (get_next_cyc h x l Hx), (get_prev_cyc h x l Hx).
  destruct l as [|f l]; [done|]. destruct (exists_last (l := f :: l)) as (l0 & e & El); [done|]. rewrite El, last_last.
  rewrite El in *. cbn [hd mbind res_bind].
  assert (hd x (l0 ++ [e]) = f /\ f ∈ l0 ++ [e] /\ hd y m ∈ y :: m) as (Ehd & Hf & Hm).
  { rewrite <- El. split_and!; [done|set_solver|destruct m; set_solver]. }
  rewrite Ehd. clear Hl.
  destruct (Hexx f) as [Hfn Hfp]; [set_solver|]. destruct (Hexx e) as [Hen Hep]; [set_solver|].
  destruct (Hexy y) as [Hyn Hyp]; [set_solver|]. destruct (Hexy (hd y m)) as [Hmn Hmp]; [done|].
  run. eexists. split; [done|].
  apply NoDup_cons in Hdx as [Hxl Hdl]. apply NoDup_cons in Hdy as [Hym Hdm].
  assert (forall p, p ∈ l0 ++ [e] -> p <> y /\ p <> hd y m /\ p ∉ m) as Hsep.
  { intros p Hp. assert (p ∉ y :: m) by (apply Hdis; set_solver). split_and!; set_solver. }
  assert (NoDup (f :: l)) as Hdfl by (by rewrite El).
  assert (Hfm : f <> hd y m) by (by apply Hsep). assert (Hey : e <> y) by (apply Hsep; set_solver).
  split; [split|split].
  - rewrite <- app_assoc. cbn [app].
    set (h' := MkStore _ _).
    assert (path h' y l0 e) as P1.
    { apply path_app in Hpx as [Hp1 _]. destruct l0 as [|z l0]; cbn in El, Hp1 |- *.
      - injection El as -> ->. unfold linked, h'. by lookups.
      - injection El as -> ->. destruct Hp1 as [_ Hp1]. split.
        + unfold linked, h'. by lookups.
        + apply NoDup_cons in Hdfl as [Hz Hdfl]. apply NoDup_app in Hdfl as (_ & He0 & _).
          assert (e <> z /\ e ∉ l0) as [? ?] by (split; [set_solver|intros ?; by apply (He0 e); [|set_solver]]).
          eapply path_agree; [| |exact Hp1]; intros p Hp; unfold h'; cbn [s_next s_prev].
          * assert (p ∈ (z :: l0) ++ [e]) as Hp2 by set_solver. destruct (Hsep p Hp2) as (? & ? & ?). by lookups.
          * assert (p ∈ (z :: l0) ++ [e]) as Hp2 by set_solver. destruct (Hsep p Hp2) as (? & ? & ?). by lookups. }
    apply path_app. split; [exact P1|]. destruct m as [|w m]; cbn [hd] in *.
    + cbn. unfold linked, h'. by lookups.
    + cbn in Hpy |- *. destruct Hpy as [_ Hpy]. apply NoDup_cons in Hdm as [Hw Hdm].
      assert (w <> y) by set_solver. split; [unfold linked, h'; by lookups|].
      eapply path_agree; [| |exact Hpy]; intros p Hp; unfold h'; cbn [s_next s_prev].
      * assert (p <> e /\ p <> y) as [? ?] by (split; [intros ->; destruct (Hsep e) as (_ & _ & ?); set_solver|set_solver]). by lookups.
      * assert (p <> f /\ p <> w) as [? ?].
        { split; [intros ->; destruct (Hsep f) as (? & _ & ?); [done|]; set_solver|set_solver]. } by lookups.
  - apply NoDup_cons. split.
    + intros [H|H]%elem_of_app; [by destruct (Hsep y H)|done].
    + apply NoDup_app. split_and!; [done| |done]. intros p Hp. by destruct (Hsep p Hp) as (_ & _ & ?).
  - intros p Hp. assert (p <> f /\ p <> e /\ p <> y /\ p <> hd y m) as (? & ? & ? & ?).
    { split_and!; [intros ->..]; set_solver. } by lookups.
  - intros p [? ?]. split; cbn; auto 6.
Qed.

(** ** Worlds of lists

    [rep h W F]: every head in the map [W] is the head of a circular list
    with the entries [W] gives, no object is on two lists, and the objects in
    [F] exist and are on no list. *)
Definition rep (h : store) (W : gmap Z (list Z)) (F : gset Z) : Prop :=
  (forall x l, W !! x = Some l -> cyc h x l) /\
  (forall x l y m p, W !! x = Some l -> W !! y = Some m -> p ∈ x :: l -> p ∈ y :: m -> x = y) /\
  (forall p, p ∈ F -> exists_node h p) /\
  (forall x l p, W !! x = Some l -> p ∈ x :: l -> p ∉ F).

Lemma rep_forget h W F x l : rep h W F -> W !! x = Some l -> rep h (delete x W) (list_to_set (x :: l) ∪ F).
Proof.
  intros (Hc & Hd & Hf & Hs) Hx. split_and!.
  - intros y m [? Hy]%lookup_delete_Some. by apply Hc.
  - intros y m z k p [? Hy]%lookup_delete_Some [? Hz]%lookup_delete_Some. by eapply Hd.
  - intros p [Hp|Hp]%elem_of_union; [|by apply Hf]. apply elem_of_list_to_set in Hp. by apply (cyc_exists h x l); [apply Hc|].
  - intros y m p [? Hy]%lookup_delete_Some Hp. intros [H'|H']%elem_of_union.
    + apply elem_of_list_to_set in H'. by eapply H, (Hd x l y m p).
    + by eapply Hs.
Qed.

Lemma rep_weaken h W F F' : rep h W F -> F' ⊆ F -> rep h W F'.
Proof. intros (Hc & Hd & Hf & Hs) HF. split_and!; [done|done|set_solver|]. intros x l p Hx Hp Hin. by eapply Hs, HF. Qed.

Lemma rep_make h h' W F x l S : rep h W F -> W !! x = None -> cyc h' x l -> same_outside S h h' ->
  (forall p, p ∈ S -> p ∈ F) -> (forall p, p ∈ x :: l -> p ∈ F) ->
  rep h' (<[x := l]> W) (F ∖ list_to_set (x :: l)).
Proof.
  intros (Hc & Hd & Hf & Hs) Hx Hl [Hsame Hex] HS HF.
  assert (forall y m p, W !! y = Some m -> p ∈ y :: m -> p ∉ x :: l) as Hfresh.
  { intros y m p Hy Hp H'. by eapply Hs, HF. }
  split_and!.
  - intros y m [[-> ->] | [? Hy]]%lookup_insert_Some; [done|].
    apply (cyc_same S h); [by split| |by apply Hc]. intros p Hp H'. by eapply Hs, HS.
  - intros y m z k p [[-> ->] | [? Hy]]%lookup_insert_Some [[-> ->] | [? Hz]]%lookup_insert_Some Hp Hp'; [done|..].
    + exfalso. by eapply (Hfresh z k p).
    + exfalso. by eapply (Hfresh y m p).
    + by eapply Hd.
  - intros p [Hp _]%elem_of_difference. by apply Hex, Hf.
  - intros y m p [[-> ->] | [? Hy]]%lookup_insert_Some Hp.
    + intros [_ H']%elem_of_difference. by apply H', elem_of_list_to_set.
    + intros [H' _]%elem_of_difference. by eapply Hs.
Qed.

(** Changing one list with nodes of its own and free ones. *)
Lemma rep_update h h' W F F' x l l' S : rep h W F -> W !! x = Some l -> cyc h' x l' -> same_outside S h h' ->
  (forall p, p ∈ S -> p ∈ x :: l \/ p ∈ F) -> (forall p, p ∈ l' -> p ∈ x :: l \/ p ∈ F) ->
  (forall p, p ∈ F' -> p ∉ x :: l' /\ (p ∈ x :: l \/ p ∈ F)) ->
  rep h' (<[x := l']> W) F'.
Proof.
  intros Hr Hx Hc Hs HS Hl HF'. apply (rep_weaken _ _ ((list_to_set (x :: l) ∪ F) ∖ list_to_set (x :: l'))).
  - rewrite <- insert_delete_eq. apply (rep_make h _ _ _ _ _ S); try done.
    + by apply rep_forget.
    + apply lookup_delete_eq.
    + intros p Hp. apply elem_of_union. rewrite elem_of_list_to_set. by apply HS.
    + intros p Hp. apply elem_of_union. rewrite elem_of_list_to_set.
      apply elem_of_cons in Hp as [-> | Hp]; [left; set_solver|by apply Hl].
  - intros p Hp. apply HF' in Hp as [? ?]. by rewrite elem_of_difference, elem_of_union, !elem_of_list_to_set.
Qed.

(** ** The operations on sequences *)
Inductive list_op :=
  | OpAdd (new head : Z)
  | OpAddTail (new head : Z)
  | OpDel (entry : Z)
  | OpDelInit (entry : Z)
  | OpMove (entry head : Z)
  | OpMoveTail (entry head : Z)
  | OpRotate (head : Z)
  | OpSpliceInit (list head : Z)
  | OpSpliceTailInit (list head : Z).

Definition exec (op : list_op) (h : store) : res store :=
  match op with
  | OpAdd new x => list_add h new x
  | OpAddTail new x => list_add_tail h new x
  | OpDel e => list_del h e
  | OpDelInit e => list_del_init h e
  | OpMove e x => list_move h e x
  | OpMoveTail e x => list_move_tail h e x
  | OpRotate x => list_rotate_left h x
  | OpSpliceInit a x => list_splice_init h a x
  | OpSpliceTailInit a x => list_splice_tail_init h a x
  end.

(** What each operation means, and when its call makes sense. *)
Inductive abs_step : gmap Z (list Z) * gset Z -> list_op -> gmap Z (list Z) * gset Z -> Prop :=
  | abs_add W F new x l : W !! x = Some l -> new ∈ F ->
      abs_step (W, F) (OpAdd new x) (<[x := new :: l]> W, F ∖ {[new]})
  | abs_add_tail W F new x l : W !! x = Some l -> new ∈ F ->
      abs_step (W, F) (OpAddTail new x) (<[x := l ++ [new]]> W, F ∖ {[new]})
  | abs_del W F e x l1 l2 : W !! x = Some (l1 ++ e :: l2) ->
      abs_step (W, F) (OpDel e) (<[x := l1 ++ l2]> W, {[e]} ∪ F)
  | abs_del_init W F e x l1 l2 : W !! x = Some (l1 ++ e :: l2) ->
      abs_step (W, F) (OpDelInit e) (<[e := []]> (<[x := l1 ++ l2]> W), F)
  | abs_move W F e y l1 l2 x m : W !! y = Some (l1 ++ e :: l2) -> <[y := l1 ++ l2]> W !! x = Some m ->
      abs_step (W, F) (OpMove e x) (<[x := e :: m]> (<[y := l1 ++ l2]> W), F)
  | abs_move_tail W F e y l1 l2 x m : W !! y = Some (l1 ++ e :: l2) -> <[y := l1 ++ l2]> W !! x = Some m ->
      abs_step (W, F) (OpMoveTail e x) (<[x := m ++ [e]]> (<[y := l1 ++ l2]> W), F)
  | abs_rotate W F x l : W !! x = Some l ->
      abs_step (W, F) (OpRotate x) (<[x := match l with [] => [] | e :: l => l ++ [e] end]> W, F)
  | abs_splice_init W F a l x m : W !! a = Some l -> W !! x = Some m -> a <> x ->
      abs_step (W, F) (OpSpliceInit a x) (<[a := []]> (<[x := l ++ m]> W), F)
  | abs_splice_tail_init W F a l x m : W !! a = Some l -> W !! x = Some m -> a <> x ->
      abs_step (W, F) (OpSpliceTailInit a x) (<[a := []]> (<[x := m ++ l]> W), F).

Inductive abs_steps : gmap Z (list Z) * gset Z -> list list_op -> gmap Z (list Z) * gset Z -> Prop :=
  | abs_nil s : abs_steps s [] s
  | abs_cons s1 s2 s3 op ops : abs_step s1 op s2 -> abs_steps s2 ops s3 -> abs_steps s1 (op :: ops) s3.
Fixpoint exec_all (ops : list list_op) (h : store) : res store :=
  match ops with [] => Ok h | op :: ops => h ← exec op h; exec_all ops h end.

Lemma rep_add h W F new x l (f : store -> Z -> Z -> res store) l' :
  rep h W F -> W !! x = Some l -> new ∈ F -> (forall p, p ∈ l' <-> p = new \/ p ∈ l) ->
  (cyc h x l -> exists_node h new -> new ∉ x :: l ->
    exists h', f h new x = Ok h' /\ cyc h' x l' /\ same_outside (new :: x :: l) h h') ->
  exists h', f h new x = Ok h' /\ rep h' (<[x := l']> W) (F ∖ {[new]}).
Proof.
  intros Hr Hx Hn Hl Hf. pose proof Hr as (Hc & _ & Hex & Hs).
  destruct Hf as (h' & E & Hc' & Hsame); [by apply Hc|by apply Hex|intros H; by eapply Hs|].
  exists h'. split; [done|]. apply (rep_update h _ _ F _ _ l _ (new :: x :: l)); try done.
  - intros p. rewrite !elem_of_cons. intros [-> | [-> | ?]]; auto.
  - intros p [-> | ?]%Hl; [auto|]. rewrite elem_of_cons. auto.
  - intros p [Hp Hne]%elem_of_difference. split; [|auto].
    rewrite elem_of_cons, Hl. intros [-> | [-> | H]]; [by eapply (Hs x l x); [|set_solver|]|set_solver|by eapply (Hs x l p); [|set_solver|]].
Qed.

Lemma rep_del_entry h W F e x l1 l2 : rep h W F -> W !! x = Some (l1 ++ e :: l2) ->
  exists h', list_del_entry h e = Ok h' /\ rep h' (<[x := l1 ++ l2]> W) ({[e]} ∪ F) /\
    exists_node h' e /\ get_next h e = get_next h' e /\ get_prev h e = get_prev h' e.
Proof.
  intros Hr Hx. pose proof Hr as (Hc & _ & Hex & Hs). pose proof (Hc x _ Hx) as Hcx. pose proof Hcx as [_ Hnd].
  apply cyc_rotate in Hcx.
  destruct (l2 ++ x :: l1) as [|z k] eqn:Ek; [by destruct l2|].
  destruct (list_del_entry_cyc h e z k Hcx) as (h' & E & Hc' & Hsame & En & Ep). exists h'. split; [done|].
  assert (forall p, p ∈ e :: z :: k <-> p ∈ x :: l1 ++ e :: l2) as Hel.
  { intros p. rewrite <- Ek. set_solver. }
  assert (exists_node h' e) as Hee by (apply Hsame, (cyc_exists h e (z :: k)); [done|set_solver]).
  split; [|split; [done|unfold get_next, get_prev; by rewrite En, Ep]].
  apply (rep_update h _ _ F _ _ (l1 ++ e :: l2) _ (e :: z :: k)); try done.
  - destruct l2 as [|w l2]; cbn in Ek; injection Ek as <- <-; [by rewrite app_nil_r|]. by apply cyc_rotate.
  - intros p Hp. left. by apply Hel.
  - intros p Hp. left. set_solver.
  - intros p Hp. apply NoDup_cons in Hnd as [Hxn Hnd]. apply NoDup_app in Hnd as (_ & Hd1 & Hnd). apply NoDup_cons in Hnd as [Hd2 _].
    apply elem_of_union in Hp as [->%elem_of_singleton | Hp].
    + split; [|left; set_solver]. rewrite elem_of_cons, elem_of_app. intros [-> | [H | H]]; [set_solver| |done]. by apply (Hd1 e H); set_solver.
    + split; [|by right]. intros H. eapply Hs; [exact Hx| |exact Hp]. set_solver.
Qed.

Lemma rep_free h h' W F p : rep h W F -> p ∈ F -> same_outside [p] h h' -> rep h' W F.
Proof.
  intros (Hc & Hd & Hf & Hs) Hp [Hsame Hex]. split_and!; [|done|eauto|done].
  intros x l Hx. apply (cyc_same [p] h); [by split| |by apply Hc].
  intros q Hq ->%list_elem_of_singleton. by eapply Hs.
Qed.

Lemma list_del_eq h e : list_del h e =
  (h' ← list_del_entry h e; h' ← set_next h' e LIST_POISON1; set_prev h' e LIST_POISON2).
Proof. unfold list_del, list_del_entry. destruct (get_prev h e); [|done]. cbn. by destruct (get_next h e). Qed.

(** Moving all entries of [a] to the list [x]. *)
Lemma rep_splice h W F a l x m l' S h' :
  rep h W F -> W !! a = Some l -> W !! x = Some m -> a <> x ->
  cyc h' x l' -> same_outside S h h' -> (forall p, p ∈ l' <-> p ∈ l \/ p ∈ m) ->
  (forall p, p ∈ S -> p ∈ a :: l ++ x :: m) ->
  rep h' (<[x := l']> (delete a W)) ({[a]} ∪ F).
Proof.
  intros Hr Ha Hx Hne Hc Hsame Hl HS. pose proof (rep_forget h W F a l Hr Ha) as Hr1.
  pose proof Hr as (Hcyc & Hd & _ & Hs). pose proof (Hcyc a l Ha) as [_ Hnd]. apply NoDup_cons in Hnd as [Hal _].
  apply (rep_update h _ _ (list_to_set (a :: l) ∪ F) _ _ m _ S); try done.
  - by rewrite lookup_delete_ne.
  - intros p Hp%HS. rewrite elem_of_union, elem_of_list_to_set. set_solver.
  - intros p [Hp | Hp]%Hl; rewrite elem_of_union, elem_of_list_to_set; set_solver.
  - intros p Hp. rewrite (elem_of_union (list_to_set _)), elem_of_list_to_set. rewrite elem_of_cons, Hl.
    apply elem_of_union in Hp as [->%elem_of_singleton | Hp].
    + split; [|right; left; set_solver]. intros [-> | [H | H]]; [done|done|].
      apply Hne. apply (Hd a l x m a); [done|done|set_solver|set_solver].
    + split; [|auto]. assert (forall q, q ∈ F -> q ∉ a :: l /\ q ∉ x :: m) as HF by (intros q Hq; split; intros H; [by apply (Hs a l q)|by apply (Hs x m q)]).
      intros [-> | [H | H]]; destruct (HF _ Hp); set_solver.
Qed.

Lemma rep_init h W F a : rep h W F -> a ∈ F -> W !! a = None ->
  exists h', INIT_LIST_HEAD h a = Ok h' /\ rep h' (<[a := []]> W) (F ∖ {[a]}).
Proof.
  intros Hr Ha Hn. pose proof Hr as (_ & _ & Hex & _). destruct (INIT_LIST_HEAD_cyc h a) as (h' & E & Hc & Hs); [by apply Hex|].
  exists h'. split; [done|]. apply (rep_weaken _ _ (F ∖ list_to_set [a])); [|set_solver].
  apply (rep_make h _ _ _ _ _ [a]); try done; intros p ->%list_elem_of_singleton; done.
Qed.

Lemma exec_splice h W F a l x m l' (between : res store) :
  rep h W F -> W !! a = Some l -> W !! x = Some m -> a <> x -> (forall p, p ∈ l' <-> p ∈ l \/ p ∈ m) -> l <> [] ->
  (exists h1 S, between = Ok h1 /\ cyc h1 x l' /\ same_outside S h h1 /\ (forall p, p ∈ S -> p ∈ a :: l ++ x :: m)) ->
  exists h', (h ← between; INIT_LIST_HEAD h a) = Ok h' /\ rep h' (<[a := []]> (<[x := l']> W)) F.
Proof.
  intros Hr Ha Hx Hne Hl _ (h1 & S & -> & Hc & Hs & HS). cbn [mbind res_bind].
  pose proof (rep_splice h W F a l x m l' S h1 Hr Ha Hx Hne Hc Hs Hl HS) as Hr1.
  destruct (rep_init h1 _ _ a Hr1) as (h' & E & Hr2); [set_solver|by rewrite lookup_insert_ne, lookup_delete_eq by done|].
  exists h'. split; [done|]. rewrite insert_insert_ne, insert_delete_eq in Hr2 by done.
  rewrite insert_insert_ne by done. apply (rep_weaken _ _ _ _ Hr2).
  destruct Hr as (_ & _ & _ & Hs'). intros p Hp. assert (p <> a); [|set_solver].
  intros ->. apply (Hs' a l a Ha); [left|done].
Qed.

Lemma list_empty_cyc h x l : cyc h x l -> list_empty h x = Ok (bool_decide (l = [])).
Proof.
  intros Hc. unfold list_empty. rewrite (get_next_cyc h x l Hc). cbn. f_equal. destruct l as [|y l]; cbn.
  - by rewrite Z.eqb_refl.
  - destruct Hc as [_ Hd]. apply NoDup_cons in Hd as [Hx _]. apply Z.eqb_neq. set_solver.
Qed.

Lemma disjoint_lists h W F a l x m p : rep h W F -> W !! a = Some l -> W !! x = Some m -> a <> x -> p ∈ a :: l -> p ∉ x :: m.
Proof. intros (_ & Hd & _) Ha Hx Hne Hp Hp'. by apply Hne, (Hd a l x m p). Qed.
Lemma not_free h W F x l p : rep h W F -> W !! x = Some l -> p ∈ x :: l -> p ∉ F.
Proof. intros (_ & _ & _ & Hs). apply Hs. Qed.

(** One operation. *)
Lemma exec_step h W F op W' F' : rep h W F -> abs_step (W, F) op (W', F') ->
  exists h', exec op h = Ok h' /\ rep h' W' F'.
Proof.
  intros Hr Hstep. remember (W, F) as s eqn:Es. remember (W', F') as s' eqn:Es'. revert Es Es'.
  destruct Hstep as [W0 F0 new x l Hx Hn | W0 F0 new x l Hx Hn | W0 F0 e x l1 l2 He | W0 F0 e x l1 l2 He
    | W0 F0 e y l1 l2 x m He Hx | W0 F0 e y l1 l2 x m He Hx | W0 F0 x l Hx
    | W0 F0 a l x m Ha Hx Hne | W0 F0 a l x m Ha Hx Hne]; intros [= -> ->] [= <- <-]; cbn [exec].
  - apply (rep_add h W F new x l list_add); try done; [set_solver|]. apply list_add_cyc.
  - apply (rep_add h W F new x l list_add_tail); try done; [set_solver|]. apply list_add_tail_cyc.
  - rewrite list_del_eq. destruct (rep_del_entry _ _ _ _ _ _ _ Hr He) as (h1 & -> & Hr1 & [Hn Hp] & _). cbn [mbind res_bind].
    run. eexists. split; [done|]. apply (rep_free h1 _ _ _ e Hr1); [set_solver|]. split.
    + intros p Hp'. by lookups.
    + intros p [? ?]. split; cbn; auto.
  - unfold list_del_init. destruct (rep_del_entry _ _ _ _ _ _ _ Hr He) as (h1 & -> & Hr1 & _). cbn [mbind res_bind].
    assert (e ∉ F) by (eapply not_free; [exact Hr|exact He|set_solver]).
    destruct (rep_init h1 _ _ e Hr1) as (h' & E & Hr2).
    + set_solver.
    + destruct Hr as (Hc & Hd & _). apply eq_None_not_Some. intros [m [[<- _] | [Hne Hm]]%lookup_insert_Some].
      * destruct (Hc _ _ He) as [_ Hnd]. apply NoDup_cons in Hnd as [Hnd _]. set_solver.
      * apply Hne. apply (Hd _ _ _ _ e He Hm); set_solver.
    + exists h'. split; [done|]. apply (rep_weaken _ _ _ _ Hr2). set_solver.
  - unfold list_move. destruct (rep_del_entry _ _ _ _ _ _ _ Hr He) as (h1 & -> & Hr1 & _). cbn [mbind res_bind].
    assert (e ∉ F) by (eapply not_free; [exact Hr|exact He|set_solver]).
    destruct (rep_add h1 _ _ e x m list_add (e :: m) Hr1 Hx) as (h' & E & Hr2); [set_solver|set_solver|apply list_add_cyc|].
    exists h'. split; [done|]. apply (rep_weaken _ _ _ _ Hr2). set_solver.
  - unfold list_move_tail. destruct (rep_del_entry _ _ _ _ _ _ _ Hr He) as (h1 & -> & Hr1 & _). cbn [mbind res_bind].
    assert (e ∉ F) by (eapply not_free; [exact Hr|exact He|set_solver]).
    destruct (rep_add h1 _ _ e x m list_add_tail (m ++ [e]) Hr1 Hx) as (h' & E & Hr2);
      [set_solver|set_solver|apply list_add_tail_cyc|].
    exists h'. split; [done|]. apply (rep_weaken _ _ _ _ Hr2). set_solver.
  - unfold list_rotate_left. pose proof Hr as (Hc & _). rewrite (list_empty_cyc h x l) by by apply Hc. cbn [mbind res_bind].
    destruct l as [|e l].
    + rewrite bool_decide_eq_true_2 by done. exists h. by rewrite insert_id.
    + rewrite bool_decide_eq_false_2 by done. rewrite (get_next_cyc h x (e :: l)) by by apply Hc. cbn [mbind res_bind hd].
      unfold list_move_tail. destruct (rep_del_entry h W F e x [] l Hr) as (h1 & -> & Hr1 & _); [done|]. cbn [mbind res_bind].
      assert (e ∉ F) by (eapply not_free; [exact Hr|exact Hx|set_solver]).
      destruct (rep_add h1 _ _ e x l list_add_tail (l ++ [e]) Hr1) as (h' & E & Hr2);
        [by rewrite lookup_insert_eq|set_solver|set_solver|apply list_add_tail_cyc|].
      exists h'. split; [done|]. rewrite insert_insert_eq in Hr2. apply (rep_weaken _ _ _ _ Hr2). set_solver.
  - unfold list_splice_init. pose proof Hr as (Hc & _). rewrite (list_empty_cyc h a l) by by apply Hc. cbn [mbind res_bind].
    destruct l as [|e l].
    + rewrite bool_decide_eq_true_2 by done. exists h. rewrite (insert_id W x) by done. by rewrite insert_id.
    + rewrite bool_decide_eq_false_2 by done. rewrite (get_next_cyc h x m) by by apply Hc. cbn [mbind res_bind].
      apply (exec_splice h W F a (e :: l) x m _ _ Hr Ha Hx Hne); [set_solver|done|].
      destruct (list_splice_between_cyc h a (e :: l) x m) as (h1 & E & Hc1 & Hs1); [by apply Hc|by apply Hc|done| |].
      { intros p Hp. by apply (disjoint_lists h W F a (e :: l) x m p). }
      exists h1, (a :: (e :: l) ++ x :: m). split_and!; try done.
  - unfold list_splice_tail_init. pose proof Hr as (Hc & _). rewrite (list_empty_cyc h a l) by by apply Hc. cbn [mbind res_bind].
    destruct l as [|e l].
    + rewrite bool_decide_eq_true_2 by done. exists h. rewrite app_nil_r, (insert_id W x) by done. by rewrite insert_id.
    + rewrite bool_decide_eq_false_2 by done. pose proof (Hc x m Hx) as Hcx. rewrite (get_prev_cyc h x m) by done. cbn [mbind res_bind].
      apply (exec_splice h W F a (e :: l) x m _ _ Hr Ha Hx Hne); [set_solver|done|].
      destruct m as [|y m _] using rev_ind.
      * destruct (list_splice_between_cyc h a (e :: l) x []) as (h1 & E & Hc1 & Hs1); [by apply Hc|done|done| |].
        { intros p Hp. by apply (disjoint_lists h W F a (e :: l) x [] p). }
        exists h1, (a :: (e :: l) ++ [x]). split_and!; [done|by rewrite app_nil_r in Hc1|done|done].
      * rewrite last_last. apply (cyc_rotate h x m y []) in Hcx. cbn in Hcx.
        destruct (list_splice_between_cyc h a (e :: l) y (x :: m)) as (h1 & E & Hc1 & Hs1); [by apply Hc|done|done| |].
        { intros p Hp. pose proof (disjoint_lists h W F a (e :: l) x (m ++ [y]) p Hr Ha Hx Hne Hp). set_solver. }
        exists h1, (a :: (e :: l) ++ y :: x :: m). split_and!; [exact E| |exact Hs1|set_solver].
        rewrite <- app_assoc. cbn [app]. apply cyc_rotate. by rewrite <- app_assoc || exact Hc1.
Qed.

Lemma list_for_each_path h head : forall l x fuel, path h x l head -> NoDup (x :: l) -> head ∉ x :: l ->
  (length l + 1 < fuel)%nat -> list_for_each fuel h x head = Ok (x :: l).
Proof.
  induction l as [|y l IH]; intros x fuel Hp Hd Hh Hf; (destruct fuel as [|fuel]; [lia|]); cbn [list_for_each];
    rewrite (proj2 (Z.eqb_neq x head)) by set_solver; cbn in Hp.
  - unfold get_next. destruct Hp as [-> _]. cbn. destruct fuel; [cbn in Hf; lia|]. cbn. by rewrite Z.eqb_refl.
  - destruct Hp as [[Hn _] Hp]. unfold get_next. rewrite Hn. cbn [mbind res_bind].
    apply NoDup_cons in Hd as [Hx Hd]. rewrite IH; [done|done|done|set_solver|cbn in Hf; lia].
Qed.

Lemma list_entries_cyc h x l fuel : cyc h x l -> (length l < fuel)%nat -> list_entries fuel h x = Ok l.
Proof.
  intros Hc Hf. unfold list_entries. rewrite (get_next_cyc h x l Hc). cbn. destruct Hc as [Hp Hd].
  apply NoDup_cons in Hd as [Hx Hd]. destruct l as [|y l]; cbn [hd].
  - destruct fuel; [lia|]. cbn. by rewrite Z.eqb_refl.
  - cbn in Hp. destruct Hp as [_ Hp]. apply list_for_each_path; try done. cbn in Hf. lia.
Qed.

(** ** Theorems *)

(** C9: The pointer programs refine operations on sequences. From a store
    that holds pairwise disjoint circular lists, any run of list_add,
    list_add_tail, list_del, list_del_init, list_move, list_move_tail,
    list_rotate_left, list_splice_init and list_splice_tail_init whose
    arguments are list heads, entries and detached objects succeeds, ends in a
    store that holds the lists the operations say, the others untouched, and
    [list_for_each] visits exactly their entries. *)
Theorem list_ops_refine_sequences (h : store) (W W' : gmap Z (list Z)) (F F' : gset Z) (ops : list list_op) :
  rep h W F -> abs_steps (W, F) ops (W', F') ->
  exists h', exec_all ops h = Ok h' /\ rep h' W' F' /\
    forall x l, W' !! x = Some l ->
      list_entries (S (length l)) h' x = Ok l /\ list_empty h' x = Ok (bool_decide (l = [])).
Proof.
  intros Hr Hs. remember (W, F) as s eqn:Es. remember (W', F') as s' eqn:Es'. revert h W F Es Es' Hr.
  induction Hs as [s | s1 [W1 F1] s3 op ops Hop Hs IH]; intros h W F -> Es' Hr.
  - injection Es' as -> ->. exists h. split; [done|]. split; [done|]. intros x l Hx. destruct Hr as (Hc & _).
    split; [apply list_entries_cyc; [by apply Hc|lia] | by apply list_empty_cyc, Hc].
  - destruct (exec_step h W F op W1 F1 Hr Hop) as (h1 & E & Hr1).
    destruct (IH h1 W1 F1 eq_refl Es' Hr1) as (h' & E' & H'). exists h'. split; [|done]. cbn. by rewrite E.
Qed.

(** A store with two empty lists 1 and 2 and three detached objects. *)
Definition demo_store : store :=
  MkStore {[1 := 1; 2 := 2; 10 := 0; 11 := 0; 12 := 0]} {[1 := 1; 2 := 2; 10 := 0; 11 := 0; 12 := 0]}.

Lemma demo_rep : rep demo_store {[1 := []; 2 := []]} {[10; 11; 12]}.
Proof.
  split_and!.
  - intros x l [[<- <-] | [_ [<- <-]%lookup_singleton_Some]]%lookup_insert_Some; (split; [done|apply NoDup_singleton]).
  - intros x l y m p [[<- <-] | [_ [<- <-]%lookup_singleton_Some]]%lookup_insert_Some
      [[<- <-] | [_ [<- <-]%lookup_singleton_Some]]%lookup_insert_Some; set_solver.
  - intros p Hp. assert (p = 10 \/ p = 11 \/ p = 12) as [-> | [-> | ->]] by set_solver; by split; eexists.
  - intros x l p [[<- <-] | [_ [<- <-]%lookup_singleton_Some]]%lookup_insert_Some; set_solver.
Qed.

Lemma list_ops_refine_sequences_witness :
  exists h', exec_all [OpAdd 10 1; OpAddTail 11 1; OpMove 11 2] demo_store = Ok h' /\
    list_entries 2 h' 1 = Ok [10] /\ list_entries 2 h' 2 = Ok [11].
Proof.
  destruct (list_ops_refine_sequences demo_store {[1 := []; 2 := []]}
    (<[2 := [11]]> (<[1 := [10]]> (<[1 := [10; 11]]> (<[1 := [10]]> {[1 := []; 2 := []]}))))
    {[10; 11; 12]} ({[10; 11; 12]} ∖ {[10]} ∖ {[11]})
    [OpAdd 10 1; OpAddTail 11 1; OpMove 11 2] demo_rep) as (h' & E & _ & Hl).
  - econstructor; [by apply (abs_add _ _ 10 1 []); [|set_solver]|].
    econstructor; [by apply (abs_add_tail _ _ 11 1 [10]); [|set_solver]|].
    econstructor; [by apply (abs_move _ _ 11 1 [10] [] 2 [])|]. constructor.
  - exists h'. split; [exact E|]. split; [apply (Hl 1 [10])|apply (Hl 2 [11])]; by vm_compute.
Defined.
