(* ===== verification/MemPool.v ===== *)
(** The first-fit memory pool of src/src/mem_pool/mem_pool.c: the segment
    headers in memory, every function, the free list they form, and the
    theorems on allocation, release and coalescing. *)
From stdpp Require Import gmap.
From S2P Require Import Prelude.

(** ** Memory

    [struct mem_pool_segment] at an address is a [next] pointer and a
    [uint16_t] size; a field nothing was stored in cannot be read. Pointers
    have 32 bits and the structure 8 bytes. *)
Record memory := MkMem { m_next : gmap Z Z; m_size : gmap Z Z }.
Definition SEGMENT_SIZE := 8.
Definition MEM_POOL_POISON := 4023233417.

Definition load_next (m : memory) (p : Z) : res Z :=
  match m_next m !! p with Some x => Ok x | None => Err Uninit end.
Definition load_size (m : memory) (p : Z) : res Z :=
  match m_size m !! p with Some x => Ok x | None => Err Uninit end.
Definition store_next (m : memory) (p x : Z) : memory := MkMem (<[p := x]> (m_next m)) (m_size m).
Definition store_size (m : memory) (p x : Z) : memory := MkMem (m_next m) (<[p := u16 x]> (m_size m)).

Definition ASSERT (b : bool) : res unit := if b then Ok tt else Err AssertLoop.

(** ** The functions *)
Definition try_combine_with_next (m : memory) (seg : Z) : res memory :=
  next ← load_next m seg;
  if negb (0 =? next) then
    size ← load_size m seg;
    if size + seg =? next then
      nn ← load_next m next;
      ns ← load_size m next;
      Ok (store_size (store_next m seg nn) seg (size + ns))
    else _ ← ASSERT (size + seg <? next); Ok m
  else Ok m.

Fixpoint add_segment_loop (fuel : nat) (m : memory) (pool seg pre : Z) : res (memory * Z) :=
  match fuel with
  | O => Err NoFuel
  | S fuel =>
    cur ← load_next m pre;
    if 0 =? cur then
      m ← try_combine_with_next (store_next m pre seg) pre; Ok (m, pool)
    else if seg <? cur then
      m ← try_combine_with_next (store_next m seg cur) seg;
      m ← try_combine_with_next (store_next m pre seg) pre; Ok (m, pool)
    else add_segment_loop fuel m pool seg cur
  end.
Definition add_segment (fuel : nat) (m : memory) (pool seg : Z) : res (memory * Z) :=
  if 0 =? pool then Ok (store_next m seg 0, seg) else
  if seg <? pool then m ← try_combine_with_next (store_next m seg pool) seg; Ok (m, seg) else
  add_segment_loop fuel m pool seg pool.

(** The new memory, [*left] and the return value. *)
Definition splite (m : memory) (seg size : Z) : res (memory * Z * Z) :=
  s ← load_size m seg;
  if s <? size then Ok (m, 0, 0) else
  if size + 2 * SEGMENT_SIZE <? s then
    let left := seg + size in
    n ← load_next m seg;
    Ok (store_size (store_next (store_size m left (s - size)) left n) seg size, left, 1)
  else Ok (m, 0, 1).

Definition mem_pool_add_buffer (fuel : nat) (m : memory) (pool buffer size : Z) : res (memory * Z) :=
  add_segment fuel (store_size m buffer size) pool buffer.

Fixpoint malloc_loop (fuel : nat) (m : memory) (pool size cur : Z) : res (memory * Z * Z) :=
  match fuel with
  | O => Err NoFuel
  | S fuel =>
    next ← load_next m cur;
    if 0 =? next then Ok (m, pool, 0) else
    '(m, n, ok) ← splite m next size;
    if ctrue ok then
      ret ← load_next m cur;
      Ok (store_next (store_next m cur n) ret MEM_POOL_POISON, pool, ret + SEGMENT_SIZE)
    else malloc_loop fuel m pool size next
  end.
(** The new memory, [*pool] and the returned pointer. *)
Definition mem_pool_malloc (fuel : nat) (m : memory) (pool size : Z) : res (memory * Z * Z) :=
  if 0 =? pool then Ok (m, pool, 0) else
  let size := u16 (size + SEGMENT_SIZE) in
  '(m, n, ok) ← splite m pool size;
  if ctrue ok then Ok (store_next m pool MEM_POOL_POISON, n, pool + SEGMENT_SIZE)
  else malloc_loop fuel m pool size pool.

Definition mem_pool_free (fuel : nat) (m : memory) (pool mem : Z) : res (memory * Z) :=
  if negb (mem =? 0) then
    let seg := mem - SEGMENT_SIZE in
    n ← load_next m seg;
    _ ← ASSERT (MEM_POOL_POISON =? n);
    add_segment fuel m pool seg
  else Ok (m, pool).

Fixpoint mem_pool_get_free_size (fuel : nat) (m : memory) (pool acc : Z) : res Z :=
  match fuel with
  | O => Err NoFuel
  | S fuel =>
    if negb (0 =? pool) then
      s ← load_size m pool; n ← load_next m pool; mem_pool_get_free_size fuel m n (u16 (acc + s))
    else Ok acc
  end.
Fixpoint mem_pool_get_segment_count (fuel : nat) (m : memory) (pool acc : Z) : res Z :=
  match fuel with
  | O => Err NoFuel
  | S fuel =>
    if negb (0 =? pool) then
      n ← load_next m pool; mem_pool_get_segment_count fuel m n (u16 (acc + 1))
    else Ok acc
  end.

(** ** The free list

    [chain_to e m p l]: from [p] on, the list holds the segments [l], given
    by address and size, and ends with the pointer [e]. [sorted l]: in address order, with a gap between
    neighbours. *)
Abbreviation segment := (Z * Z)%type.
Fixpoint chain_to (e : Z) (m : memory) (p : Z) (l : list segment) : Prop :=
  match l with
  | [] => p = e
  | (a, s) :: l => p = a /\ m_size m !! a = Some s /\ exists q, m_next m !! a = Some q /\ chain_to e m q l
  end.
Abbreviation chain := (chain_to 0).
Fixpoint sorted (lo : Z) (l : list segment) : Prop :=
  match l with
  | [] => True
  | (a, s) :: l => lo < a /\ 0 < s /\ sorted (a + s) l
  end.
Definition total (l : list segment) : Z := foldr (fun x n => x.2 + n) 0 l.
Definition top (l : list segment) : Z := foldr (fun x n => Z.max (x.1 + x.2) n) 0 l.

(** Putting a segment in front of a list, coalesced with its first one. *)
Definition join (x : segment) (l : list segment) : list segment :=
  match l with
  | y :: l' => if x.1 + x.2 =? y.1 then (x.1, x.2 + y.2) :: l' else x :: l
  | [] => [x]
  end.
(** The specification of [add_segment]. *)
Fixpoint insert_segment (l : list segment) (x : segment) : list segment :=
  match l with
  | [] => [x]
  | y :: l' => if x.1 <? y.1 then join x l else join y (insert_segment l' x)
  end.
(** [x] lies in a gap of the list. *)
Fixpoint fits (lo : Z) (l : list segment) (x : segment) : Prop :=
  match l with
  | [] => lo <= x.1
  | y :: l' => if x.1 <? y.1 then lo <= x.1 /\ x.1 + x.2 <= y.1 else fits (y.1 + y.2) l' x
  end.

(** ** Lemmas *)
Definition agree (S : list Z) (m m' : memory) : Prop :=
  forall p, p ∉ S -> m_next m' !! p = m_next m !! p /\ m_size m' !! p = m_size m !! p.
Definition wsorted (lo : Z) (l : list segment) : Prop :=
  match l with [] => True | (a, s) :: l => lo <= a /\ 0 < s /\ sorted (a + s) l end.

Lemma agree_refl S m : agree S m m.
Proof. by intros ? _. Qed.
Lemma agree_trans S m1 m2 m3 : agree S m1 m2 -> agree S m2 m3 -> agree S m1 m3.
Proof. intros H1 H2 p Hp. destruct (H2 p Hp) as [-> ->]. by apply H1. Qed.
Lemma agree_mono S S' m m' : S ⊆ S' -> agree S m m' -> agree S' m m'.
Proof. intros HS H p Hp. apply H. set_solver. Qed.
Lemma agree_next S m p x : p ∈ S -> agree S m (store_next m p x).
Proof. intros Hp q Hq. cbn. rewrite lookup_insert_ne by set_solver. done. Qed.
Lemma agree_size S m p x : p ∈ S -> agree S m (store_size m p x).
Proof. intros Hp q Hq. cbn. rewrite lookup_insert_ne by set_solver. done. Qed.

Lemma chain_agree S m m' e p l : agree S m m' -> (forall a, a ∈ l.*1 -> a ∉ S) -> chain_to e m p l -> chain_to e m' p l.
Proof.
  intros Ha. revert p. induction l as [|[a s] l IH]; intros p Hl; cbn; [done|].
  intros (-> & Hs & q & Hq & Hc). destruct (Ha a) as [En Es]; [apply Hl; cbn; set_solver|].
  rewrite Es, En. split_and!; [done|done|]. exists q. split; [done|]. apply IH; [|done]. intros b Hb. apply Hl. cbn. set_solver.
Qed.

Lemma sorted_lt lo l a : sorted lo l -> a ∈ l.*1 -> lo < a.
Proof.
  revert lo. induction l as [|[b t] l IH]; intros lo Hs Ha; cbn in *; [set_solver|].
  destruct Hs as (? & ? & Hs). apply elem_of_cons in Ha as [-> | Ha]; [lia|]. specialize (IH _ Hs Ha). lia.
Qed.
Lemma wsorted_le lo l a : wsorted lo l -> a ∈ l.*1 -> lo <= a.
Proof.
  destruct l as [|[b t] l]; cbn; [set_solver|]. intros (? & ? & Hs) [-> | Ha]%elem_of_cons; [lia|].
  apply (sorted_lt _ _ _ Hs) in Ha. lia.
Qed.
Lemma sorted_mono lo lo' l : lo' <= lo -> sorted lo l -> sorted lo' l.
Proof. destruct l as [|[a s] l]; cbn; [done|]. intros ? (? & ? & ?). split_and!; [lia|done|done]. Qed.
Lemma sorted_wsorted lo l : sorted lo l -> wsorted lo l.
Proof. destruct l as [|[a s] l]; cbn; [done|]. intros (? & ? & ?). split_and!; [lia|done|done]. Qed.
Lemma total_nonneg lo l : sorted lo l -> 0 <= total l.
Proof. revert lo. induction l as [|[a s] l IH]; intros lo; cbn; [lia|]. intros (? & ? & Hs). specialize (IH _ Hs). unfold total in IH. lia. Qed.

Lemma join_sorted lo x l : lo < x.1 -> 0 < x.2 -> wsorted (x.1 + x.2) l -> sorted lo (join x l).
Proof.
  destruct x as [a s], l as [|[b t] l]; cbn; intros Ha Hs; [done|]. intros (Hb & Ht & Hl).
  destruct (Z.eqb_spec (a + s) b); cbn; split_and!; try lia.
  - eapply sorted_mono; [|exact Hl]. lia.
  - done.
Qed.
Lemma join_total x l : total (join x l) = x.2 + total l.
Proof. destruct x as [a s], l as [|[b t] l]; cbn; [done|]. destruct (a + s =? b); cbn; lia. Qed.
Lemma insert_total l x : total (insert_segment l x) = total l + x.2.
Proof.
  induction l as [|y l IH]; [cbn; lia|]. cbn [insert_segment].
  destruct (x.1 <? y.1); rewrite join_total; [lia|]. rewrite IH. cbn. fold (total l). lia.
Qed.
Lemma insert_wsorted lo l x : sorted lo l -> fits lo l x -> 0 < x.2 -> wsorted lo (insert_segment l x).
Proof.
  revert lo. induction l as [|[b t] l IH]; intros lo Hs Hf Hx; cbn [insert_segment fits wsorted].
  - destruct x as [a s]; cbn in *. done.
  - cbn in Hs, Hf. destruct Hs as (Hb & Ht & Hs). cbn [fst snd] in *. destruct (Z.ltb_spec x.1 b).
    + destruct Hf as [Hlo Hf]. destruct x as [a s]; cbn in *.
      destruct (Z.eqb_spec (a + s) b); cbn; split_and!; try lia; [|done]. eapply sorted_mono; [|exact Hs]. lia.
    + apply sorted_wsorted, join_sorted; [done|done|]. by apply IH.
Qed.

(** Coalescing the segment at [a] with the list behind it. *)
Lemma try_combine_chain m a s q l e : m_size m !! a = Some s -> m_next m !! a = Some q -> chain_to e m q l -> (l = [] -> e = 0) ->
  0 <= a -> 0 < s -> wsorted (a + s) l -> s + total l < 65536 ->
  exists m', try_combine_with_next m a = Ok m' /\ chain_to e m' a (join (a, s) l) /\ agree [a] m m'.
Proof.
  intros Hs Hn Hc He Ha Hpos Hw Ht. unfold try_combine_with_next, load_next, load_size. rewrite Hn. cbn [mbind res_bind].
  destruct l as [|[b t] l].
  - cbn in Hc. rewrite Hc, He by done. cbn. exists m. split; [done|]. split; [|apply agree_refl]. split_and!; [done|done|]. exists q. split; [done|]. cbn. by rewrite Hc, He.
  - cbn in Hc. destruct Hc as (-> & Hbs & q' & Hbn & Hc). cbn in Hw. destruct Hw as (Hb & Htp & Hl).
    rewrite (proj2 (Z.eqb_neq 0 b)) by lia. cbn [negb]. rewrite Hs. cbn [mbind res_bind].
    replace (s + a) with (a + s) by lia. cbn [join fst snd]. destruct (Z.eqb_spec (a + s) b) as [E|E].
    + rewrite Hbn, Hbs. cbn [mbind res_bind]. eexists. split; [done|]. pose proof (total_nonneg _ _ Hl).
      cbn in Ht. fold (total l) in Ht. split.
      * cbn. split_and!; [done| |].
        -- rewrite lookup_insert_eq. f_equal. apply wrap_small. pow2_norm. lia.
        -- exists q'. rewrite lookup_insert_eq. split; [done|].
           apply (chain_agree [a] m); [|intros c Hc'|done].
           ++ intros p Hp. cbn. by rewrite !lookup_insert_ne by set_solver.
           ++ apply (sorted_lt _ _ _ Hl) in Hc'. intros ->%list_elem_of_singleton. lia.
      * intros p Hp. cbn. by rewrite !lookup_insert_ne by set_solver.
    + rewrite (proj2 (Z.ltb_lt (a + s) b)) by lia. cbn. exists m. split; [done|]. split; [|apply agree_refl].
      split_and!; [done|done|]. exists b. split; [done|]. split_and!; [done|done|]. by exists q'.
Qed.

Lemma join_first x l : exists s l', join x l = (x.1, s) :: l'.
Proof. destruct x as [a s], l as [|[b t] l]; cbn; [by do 2 eexists|]. destruct (a + s =? b); by do 2 eexists. Qed.

(** The pointer the list ends with after [x] was added: null, unless [x]
    goes behind the last segment; then it is whatever the header of [x]
    holds. *)
Definition tail_is (m : memory) (l : list segment) (x : segment) (e : Z) : Prop :=
  (Exists (fun y => x.1 < y.1) l /\ e = 0) \/ (~ Exists (fun y => x.1 < y.1) l /\ m_next m !! x.1 = Some e).

Lemma add_segment_loop_chain l : forall fuel m pool a sz pre s q lo e,
  m_size m !! pre = Some s -> m_next m !! pre = Some q -> chain m q l -> 0 <= lo -> sorted lo ((pre, s) :: l) ->
  m_size m !! a = Some sz -> 0 < sz -> pre + s <= a -> fits (pre + s) l (a, sz) -> s + total l + sz < 65536 ->
  tail_is m l (a, sz) e -> (length l < fuel)%nat -> a ∉ pre :: l.*1 ->
  exists m', add_segment_loop fuel m pool a pre = Ok (m', pool) /\
    chain_to e m' pre (join (pre, s) (insert_segment l (a, sz))) /\ agree (a :: pre :: l.*1) m m'.
Proof.
  induction l as [|[b t] l IH]; intros fuel m pool a sz pre s q lo e Hs Hn Hc Hlo Hsort Ha Hsz Hge Hfit Htot Htail Hf Hnin;
    (destruct fuel as [|fuel]; [cbn in Hf; lia|]); cbn [add_segment_loop].
  - cbn in Hc. subst q. unfold load_next at 1. rewrite Hn. cbn [mbind res_bind]. cbn [Z.eqb].
    destruct Htail as [[Htail _] | [_ Htail]]; [by apply Exists_nil in Htail|]. cbn in Htail. cbn in Hsort, Htot.
    assert (pre <> a) by set_solver.
    destruct (try_combine_chain (store_next m pre a) pre s a [(a, sz)] e) as (m' & -> & Hc' & Hag); try done; try (cbn; lia).
    + cbn. by rewrite lookup_insert_eq.
    + cbn. split_and!; [done|done|]. exists e. by rewrite lookup_insert_ne.
    + exists m'. split; [done|]. split; [done|]. apply (agree_trans _ _ (store_next m pre a)); [apply agree_next; set_solver|].
      eapply agree_mono; [|exact Hag]. set_solver.
  - cbn in Hc. destruct Hc as (-> & Hbs & q' & Hbn & Hc). cbn in Hsort. destruct Hsort as (Hpre & Hsp & Hb & Htp & Hsort).
    cbn [fits fst snd] in Hfit. cbn [total foldr snd] in Htot. fold (total l) in Htot. cbn [fmap list_fmap fst] in Hnin.
    pose proof (total_nonneg _ _ Hsort) as Hnn.
    unfold load_next at 1. rewrite Hn. cbn [mbind res_bind]. rewrite (proj2 (Z.eqb_neq 0 b)) by lia.
    cbn [insert_segment fst]. destruct (Z.ltb_spec a b) as [Hlt|Hgeb].
    + destruct Hfit as [_ Hfit]. assert (e = 0) as ->.
      { destruct Htail as [[_ ?] | [Hno _]]; [done|]. destruct Hno. by left. }
      destruct (try_combine_chain (store_next m a b) a sz b ((b, t) :: l) 0) as (m1 & -> & Hc1 & Hag1); try done; try lia.
      * cbn. by rewrite lookup_insert_eq.
      * cbn. split_and!; [done|done|]. exists q'. split; [by rewrite lookup_insert_ne by lia|].
        apply (chain_agree [a] m); [by apply agree_next; set_solver| |done].
        intros c Hc'. apply (sorted_lt _ _ _ Hsort) in Hc'. intros ->%list_elem_of_singleton; lia.
      * cbn. fold (total l). lia.
      * cbn [mbind res_bind]. assert (pre <> a) by lia.
        destruct (Hag1 pre) as [En Es]; [set_solver|]. cbn in En, Es. rewrite lookup_insert_ne in En by done.
        set (J := join (a, sz) ((b, t) :: l)) in *.
        assert (total J = sz + (t + total l)) as HtJ by (unfold J; rewrite join_total; cbn; by fold (total l)).
        assert (wsorted (pre + s) J) as HwJ.
        { unfold J. cbn. destruct (Z.eqb_spec (a + sz) b); cbn; split_and!; try lia; [|done].
          eapply sorted_mono; [|exact Hsort]. lia. }
        destruct (try_combine_chain (store_next m1 pre a) pre s a J 0) as (m' & -> & Hc' & Hag); try done; try lia.
        -- cbn. by rewrite Es.
        -- cbn. by rewrite lookup_insert_eq.
        -- apply (chain_agree [pre] m1); [apply agree_next; set_solver| |done].
           intros c Hc' ->%list_elem_of_singleton. apply (wsorted_le _ _ _ HwJ) in Hc'. lia.
        -- exists m'. split; [done|]. split; [done|].
           apply (agree_trans _ _ (store_next m a b)); [apply agree_next; set_solver|].
           apply (agree_trans _ _ m1); [eapply agree_mono; [|exact Hag1]; set_solver|].
           apply (agree_trans _ _ (store_next m1 pre a)); [apply agree_next; set_solver|].
           eapply agree_mono; [|exact Hag]. set_solver.
    + destruct (IH fuel m pool a sz b t q' (pre + s) e) as (m' & E & Hc' & Hag); try done; try lia.
      * assert (b <> a) by set_solver. destruct l as [|[c u] l]; cbn in Hfit; [lia|]. cbn in Hfit.
        destruct (Z.ltb_spec a c); [lia|]. 
        assert (forall l lo, fits lo l (a, sz) -> sorted lo l -> lo <= a) as Hfl.
        { clear. intros [|[c u] l] lo; cbn; [done|]. destruct (Z.ltb_spec a c); [lia|]. intros _ (? & ? & _). lia. }
        apply Hfl in Hfit; [|by destruct Hsort as (_ & _ & ?)]. destruct Hsort as (? & ? & _). lia.
      * destruct Htail as [[Htail ->] | [Hno Htail]]; [left|right; split; [|done]; intros Hx; by apply Hno; right].
        apply Exists_cons in Htail as [Hx | Hx]; [cbn in Hx; lia|done].
      * cbn in Hf. lia.
      * set_solver.
      * exists m'. split; [exact E|]. split; [|eapply agree_mono; [|exact Hag]; set_solver].
        destruct (join_first (b, t) (insert_segment l (a, sz))) as (s' & l' & EJ). rewrite EJ in Hc' |- *.
        cbn [join fst snd]. rewrite (proj2 (Z.eqb_neq (pre + s) b)) by lia.
        assert (pre ∉ a :: b :: l.*1) as Hpn.
        { intros [-> | [-> | Hin]%elem_of_cons]%elem_of_cons; [set_solver|lia|]. apply (sorted_lt _ _ _ Hsort) in Hin. lia. }
        destruct (Hag pre Hpn) as [En Es]. split_and!; [done|by rewrite Es|]. exists b. by rewrite En.
Qed.

(** A pool: the free segments [l], in address order with gaps between them. *)
Definition pool_ok (m : memory) (p : Z) (l : list segment) : Prop := chain m p l /\ sorted 0 l.

(** A walk along a list that ends with a wild pointer never succeeds. *)
Lemma wild_walk e m l : forall fuel p acc, chain_to e m p l -> sorted 0 l -> e <> 0 -> m_next m !! e = None ->
  is_ok (mem_pool_get_segment_count fuel m p acc) = false.
Proof.
  induction l as [|[a s] l IH]; intros [|fuel] p acc Hc Hs He Hm; try done;
    cbn [mem_pool_get_segment_count]; unfold load_next; cbn in Hc.
  - subst p. rewrite (proj2 (Z.eqb_neq 0 e)) by done. cbn. by rewrite Hm.
  - destruct Hc as (-> & Ha & q & Hq & Hc). cbn in Hs. destruct Hs as (H0 & Hpos & Hs).
    rewrite (proj2 (Z.eqb_neq 0 a)) by lia. cbn [negb]. rewrite Hq. cbn [mbind res_bind].
    apply IH; try done. eapply sorted_mono; [|exact Hs]. lia.
Qed.

Lemma free_size_chain m fuel : forall l p acc, chain m p l -> sorted 0 l -> (length l < fuel)%nat ->
  0 <= acc -> acc + total l < 65536 -> mem_pool_get_free_size fuel m p acc = Ok (acc + total l).
Proof.
  induction fuel as [|fuel IH]; intros l p acc Hc Hs Hf Hacc Ht; [lia|]. cbn [mem_pool_get_free_size].
  destruct l as [|[a s] l]; cbn in Hc.
  - subst p. cbn. f_equal. lia.
  - destruct Hc as (-> & Ha & q & Hq & Hc). cbn in Hs, Ht. destruct Hs as (H0 & Hpos & Hs). fold (total l) in Ht.
    pose proof (total_nonneg _ _ Hs). unfold load_size, load_next.
    rewrite (proj2 (Z.eqb_neq 0 a)) by lia. cbn [negb]. rewrite Ha, Hq. cbn [mbind res_bind].
    rewrite wrap_small by (pow2_norm; lia). rewrite IH with (l := l);
      [cbn; fold (total l); f_equal; lia|done|eapply sorted_mono; [|exact Hs]; lia|cbn in Hf; lia|lia|lia].
Qed.

Lemma add_segment_chain m p l a sz e fuel :
  pool_ok m p l -> m_size m !! a = Some sz -> 0 < a -> 0 < sz -> fits 1 l (a, sz) -> total l + sz < 65536 ->
  (l = [] /\ e = 0 \/ l <> [] /\ tail_is m l (a, sz) e) -> (length l < fuel)%nat ->
  exists m' p', add_segment fuel m p a = Ok (m', p') /\ chain_to e m' p' (insert_segment l (a, sz)) /\
    sorted 0 (insert_segment l (a, sz)) /\ agree (a :: l.*1) m m'.
Proof.
  intros [Hc Hs] Ha Hpos Hsz Hfit Ht Htail Hf. unfold add_segment.
  assert (sorted 0 (insert_segment l (a, sz))) as Hsort.
  { destruct l as [|[b t] l]; cbn [insert_segment fits] in *; [done|]. cbn [fst snd] in *.
    cbn in Hs. destruct Hs as (Hb & Htp & Hs). destruct (Z.ltb_spec a b).
    - apply join_sorted; [done|done|]. cbn. split_and!; [lia|done|done].
    - apply join_sorted; [done|done|]. cbn [fst snd]. by apply insert_wsorted. }
  destruct l as [|[b t] l].
  - cbn in Hc. subst p. cbn [Z.eqb]. do 2 eexists. split; [done|]. split; [|split; [done|apply agree_next; set_solver]].
    destruct Htail as [[_ ->] | [? _]]; [|done]. cbn. split_and!; [done|done|]. exists 0. by rewrite lookup_insert_eq.
  - destruct Htail as [[? _] | [_ Htail]]; [done|]. cbn in Hc. destruct Hc as (-> & Hbs & q & Hbn & Hc).
    cbn in Hs. destruct Hs as (Hb & Htp & Hs). pose proof (total_nonneg _ _ Hs).
    rewrite (proj2 (Z.eqb_neq 0 b)) by lia. cbn [fits fst snd] in Hfit. cbn in Ht. fold (total l) in Ht.
    cbn [insert_segment fst] in *. destruct (Z.ltb_spec a b).
    + assert (e = 0) as -> by (destruct Htail as [[_ ?] | [Hno _]]; [done|destruct Hno; by left]).
      destruct (try_combine_chain (store_next m a b) a sz b ((b, t) :: l) 0) as (m' & -> & Hc' & Hag); try done; try lia.
      * cbn. by rewrite lookup_insert_eq.
      * cbn. split_and!; [done|done|]. exists q. split; [by rewrite lookup_insert_ne by lia|].
        apply (chain_agree [a] m); [by apply agree_next; set_solver| |done].
        intros c Hc'. apply (sorted_lt _ _ _ Hs) in Hc'. intros ->%list_elem_of_singleton; lia.
      * cbn. split_and!; [lia|done|done].
      * cbn. fold (total l). lia.
      * do 2 eexists. split; [done|]. split; [done|]. split; [done|].
        apply (agree_trans _ _ (store_next m a b)); [apply agree_next; set_solver|]. eapply agree_mono; [|exact Hag]. set_solver.
    + assert (b + t <= a) as Hge.
      { destruct l as [|[c u] l]; cbn in Hfit; [lia|]. destruct (Z.ltb_spec a c); [lia|]. cbn in Hs. lia. }
      destruct (add_segment_loop_chain l fuel m b a sz b t q 0 e) as (m' & E & Hc' & Hag); try done; try lia.
      * destruct Htail as [[Htail ->] | [Hno Htail]]; [left|right; split; [|done]; intros Hx; by apply Hno; right].
        apply Exists_cons in Htail as [Hx | Hx]; [cbn in Hx; lia|done].
      * cbn in Hf. lia.
      * intros [-> | Hin]%elem_of_cons; [lia|]. clear -Hin Hfit Hs Hsz.
        assert (forall l lo, sorted lo l -> fits lo l (a, sz) -> a ∉ l.*1) as Hni.
        { clear -Hsz. induction l as [|[c u] l IH]; intros lo Hs Hf; cbn in *; [set_solver|]. destruct Hs as (? & ? & Hs).
          destruct (Z.ltb_spec a c).
          - intros [-> | Hin]%elem_of_cons; [lia|]. apply (sorted_lt _ _ _ Hs) in Hin. lia.
          - intros [-> | Hin]%elem_of_cons; [|by apply (IH _ Hs Hf)].
            clear IH. destruct l as [|[d v] l]; cbn in Hf; [lia|]. destruct (Z.ltb_spec c d); [lia|]. cbn in Hs. lia. }
        by apply (Hni l (b + t)).
      * exists m', b. split; [done|]. split; [done|]. by split.
Qed.

(** ** Theorems *)

(** The pointer the free list ends with once [x] was returned to [l]: the
    list has an end of its own when it is empty or goes on behind [x];
    otherwise [x] becomes the last segment, with what its header holds. *)
Definition free_behind (l : list segment) (x : segment) : bool :=
  bool_decide (l = []) || existsb (fun y => x.1 <? y.1) l.
Definition end_after (l : list segment) (x : segment) : Z := if free_behind l x then 0 else MEM_POOL_POISON.

Lemma free_behind_tail m l a sz : m_next m !! a = Some MEM_POOL_POISON ->
  l = [] /\ end_after l (a, sz) = 0 \/ l <> [] /\ tail_is m l (a, sz) (end_after l (a, sz)).
Proof.
  intros Hn. unfold end_after, free_behind. case_bool_decide as Hl; [by left|right]. split; [done|].
  destruct (existsb _ l) eqn:E; cbn [orb]; [left|right].
  - split; [|done]. apply existsb_exists in E as (y & Hy & Hlt). apply Exists_exists. exists y.
    split; [by apply list_elem_of_In|]. by apply Z.ltb_lt.
  - split; [|done]. intros (y & Hy & Hlt)%Exists_exists. apply not_true_iff_false in E. apply E.
    apply existsb_exists. exists y. split; [by apply list_elem_of_In|]. by apply Z.ltb_lt.
Qed.

(** C29: Returning a block ([mem_pool_free]) puts it back at its place in the
    free list and coalesces it with both neighbours: the list stays in address
    order with a gap between segments and no byte is lost.  When the list was
    empty or holds a segment behind the block, the result is a free list
    again; when the block lies behind every free segment, the list ends with
    the poison value that the block's header still holds, and not with the
    null pointer. *)
Theorem mem_pool_free_coalesces (m : memory) (p : Z) (l : list segment) (a sz : Z) (fuel : nat) :
  pool_ok m p l -> m_size m !! a = Some sz -> m_next m !! a = Some MEM_POOL_POISON -> 0 < a -> 0 < sz ->
  fits 1 l (a, sz) -> total l + sz < 65536 -> (length l < fuel)%nat ->
  exists m' p', mem_pool_free fuel m p (a + SEGMENT_SIZE) = Ok (m', p') /\
    chain_to (if free_behind l (a, sz) then 0 else MEM_POOL_POISON) m' p' (insert_segment l (a, sz)) /\
    sorted 0 (insert_segment l (a, sz)) /\ total (insert_segment l (a, sz)) = total l + sz /\
    (free_behind l (a, sz) = true -> pool_ok m' p' (insert_segment l (a, sz))).
Proof.
  intros Hp Ha Hn H0 Hsz Hfit Ht Hf.
  destruct (add_segment_chain m p l a sz _ fuel Hp Ha H0 Hsz Hfit Ht (free_behind_tail m l a sz Hn) Hf) as (m' & p' & E & Hc & Hs & _).
  exists m', p'. split_and!; [|done|done|apply insert_total|].
  - unfold mem_pool_free, load_next, SEGMENT_SIZE.
    rewrite (proj2 (Z.eqb_neq (a + 8) 0)) by lia. cbn [negb]. replace (a + 8 - 8) with a by lia. rewrite Hn.
    cbn [mbind res_bind]. by rewrite Z.eqb_refl.
  - intros Hb. unfold end_after in Hc. rewrite Hb in Hc. by split.
Qed.

(** A pool at 1000 with a used block of 40 bytes in front of a free one. *)
Definition demo_memory : memory :=
  MkMem {[1000 := MEM_POOL_POISON; 1040 := 0]} {[1000 := 40; 1040 := 60]}.

Lemma mem_pool_free_coalesces_witness :
  pool_ok demo_memory 1040 [(1040, 60)] /\
  exists m' p', mem_pool_free 2 demo_memory 1040 1008 = Ok (m', p') /\ pool_ok m' p' [(1000, 100)].
Proof.
  assert (pool_ok demo_memory 1040 [(1040, 60)]) as Hp.
  { split; [|done]. split_and!; [done|done|]. by exists 0. }
  split; [done|].
  destruct (mem_pool_free_coalesces demo_memory 1040 [(1040, 60)] 1000 40 2 Hp eq_refl eq_refl ltac:(lia) ltac:(lia)
    ltac:(by vm_compute) ltac:(by vm_compute) ltac:(cbn; lia)) as (m' & p' & E & _ & _ & _ & Hp').
  exists m', p'. split; [exact E|by apply Hp'].
Defined.

(** A block that lies behind every free segment is linked in with the
    poison value still in its header: [mem_pool_free] reports nothing, but the
    free list now ends in a wild pointer, and the next walk to its end
    fails. *)
Theorem mem_pool_free_at_end_poisons (m : memory) (p : Z) (l : list segment) (a sz : Z) (fuel : nat) :
  pool_ok m p l -> m_size m !! a = Some sz -> m_next m !! a = Some MEM_POOL_POISON -> 0 < a -> 0 < sz ->
  fits 1 l (a, sz) -> total l + sz < 65536 -> l <> [] -> Forall (fun y => y.1 <= a) l -> (length l < fuel)%nat ->
  m_next m !! MEM_POOL_POISON = None -> a <> MEM_POOL_POISON -> MEM_POOL_POISON ∉ l.*1 ->
  exists m' p', mem_pool_free fuel m p (a + SEGMENT_SIZE) = Ok (m', p') /\
  chain_to MEM_POOL_POISON m' p' (insert_segment l (a, sz)) /\
    forall fuel' acc, is_ok (mem_pool_get_segment_count fuel' m' p' acc) = false.
Proof.
  intros Hp Ha Hn H0 Hsz Hfit Ht Hl Hall Hf Hpn Hap Hpl.
  destruct (add_segment_chain m p l a sz MEM_POOL_POISON fuel) as (m' & p' & E & Hc & Hs & Hag); try done.
  { right. split; [done|right]. split; [|done]. rewrite Exists_exists. intros (y & Hy & Hlt).
    rewrite Forall_forall in Hall. specialize (Hall y Hy). cbn in Hlt. lia. }
  exists m', p'. split_and!.
  - unfold mem_pool_free, load_next, SEGMENT_SIZE.
    rewrite (proj2 (Z.eqb_neq (a + 8) 0)) by lia. cbn [negb]. replace (a + 8 - 8) with a by lia. rewrite Hn.
    cbn [mbind res_bind]. by rewrite Z.eqb_refl.
  - done.
  - intros fuel' acc. apply (wild_walk _ _ _ _ _ _ Hc); try done. destruct (Hag MEM_POOL_POISON) as [-> _]; [set_solver|done].
Qed.

Lemma mem_pool_free_at_end_poisons_witness :
  let m := MkMem {[1000 := 0; 1040 := MEM_POOL_POISON]} {[1000 := 30; 1040 := 60]} in
  pool_ok m 1000 [(1000, 30)] /\
  exists m' p', mem_pool_free 2 m 1000 1048 = Ok (m', p') /\
  forall fuel' acc, is_ok (mem_pool_get_segment_count fuel' m' p' acc) = false.
Proof.
  intros m. assert (pool_ok m 1000 [(1000, 30)]) as Hp.
  { split; [|done]. split_and!; [done|done|]. by exists 0. }
  split; [done|].
  destruct (mem_pool_free_at_end_poisons m 1000 [(1000, 30)] 1040 60 2 Hp eq_refl eq_refl ltac:(lia) ltac:(lia)
    ltac:(by vm_compute) ltac:(by vm_compute) ltac:(done) ltac:(repeat constructor; cbn; lia) ltac:(cbn; lia) eq_refl
    ltac:(done) ltac:(unfold MEM_POOL_POISON; set_solver)) as (m' & p' & E & _ & Hw).
  exists m', p'. split; [exact E|exact Hw].
Defined.

Lemma load_next_Some m p x : m_next m !! p = Some x -> load_next m p = Ok x.
Proof. unfold load_next. by intros ->. Qed.

(** What is left of a segment of size [s] at [a], and of the list [l2]
    behind it, after [n] bytes were taken from it. *)
Definition rest_of (n a s : Z) (l2 : list segment) : list segment :=
  if n + 2 * SEGMENT_SIZE <? s then (a + n, s - n) :: l2 else [].
Definition block_size (n s : Z) : Z := if n + 2 * SEGMENT_SIZE <? s then n else s.

Lemma splite_small m a s n : m_size m !! a = Some s -> s < n -> splite m a n = Ok (m, 0, 0).
Proof. intros E H. unfold splite, load_size. rewrite E. cbn. by rewrite (proj2 (Z.ltb_lt s n)). Qed.

Lemma splite_chain m a s n l2 q : m_size m !! a = Some s -> m_next m !! a = Some q -> chain m q l2 ->
  0 < a -> 0 < n <= s -> s < 65536 -> sorted (a + s) l2 ->
  exists m' left, splite m a n = Ok (m', left, 1) /\ chain m' left (rest_of n a s l2) /\ agree [a; a + n] m m' /\
    m_next m' !! a = Some q /\ m_size m' !! a = Some (block_size n s).
Proof.
  intros Hs Hq Hc Ha Hn H64 Hsort. unfold splite, load_size, load_next, rest_of, block_size. rewrite Hs. cbn [mbind res_bind].
  rewrite (proj2 (Z.ltb_ge s n)) by lia. destruct (Z.ltb_spec (n + 2 * SEGMENT_SIZE) s) as [Hb|Hb].
  - unfold SEGMENT_SIZE in Hb. rewrite Hq. cbn [mbind res_bind]. do 2 eexists. split; [done|]. split_and!.
    + cbn. split_and!; [done| |].
      * rewrite lookup_insert_ne by lia. rewrite lookup_insert_eq. f_equal. apply wrap_small. pow2_norm. lia.
      * exists q. rewrite lookup_insert_eq. split; [done|]. apply (chain_agree [a; a + n] m); [| |done].
        -- intros p Hp. cbn. by rewrite !lookup_insert_ne by set_solver.
        -- intros c Hc'. apply (sorted_lt _ _ _ Hsort) in Hc'. rewrite !elem_of_cons. intros [-> | [-> | Hx]]; [lia|lia|set_solver].
    + intros p Hp. cbn. by rewrite !lookup_insert_ne by set_solver.
    + cbn. by rewrite lookup_insert_ne by lia.
    + cbn. rewrite lookup_insert_eq. f_equal. apply wrap_small. pow2_norm. lia.
  - do 2 eexists. split; [done|]. split_and!; try done.
Qed.

Lemma malloc_loop_chain n pool : 0 < n -> forall l fuel m c sc q lo,
  m_size m !! c = Some sc -> m_next m !! c = Some q -> chain m q l -> 0 <= lo -> sorted lo ((c, sc) :: l) ->
  total l < 65536 -> (length l < fuel)%nat ->
  (Forall (fun x => x.2 < n) l -> malloc_loop fuel m pool n c = Ok (m, pool, 0)) /\
  (forall l1 a s l2, l = l1 ++ (a, s) :: l2 -> Forall (fun x => x.2 < n) l1 -> n <= s ->
   exists m', malloc_loop fuel m pool n c = Ok (m', pool, a + SEGMENT_SIZE) /\
     chain m' c ((c, sc) :: l1 ++ rest_of n a s l2) /\
     m_next m' !! a = Some MEM_POOL_POISON /\ m_size m' !! a = Some (block_size n s) /\
     (forall p, p < c -> m_next m' !! p = m_next m !! p /\ m_size m' !! p = m_size m !! p)).
Proof.
  intros Hn. induction l as [|[b t] l IH]; intros fuel m c sc q lo Hs Hq Hc Hlo Hsort Ht Hf;
    (destruct fuel as [|fuel]; [cbn in Hf; lia|]).
  - cbn in Hc. subst q. split; [|by intros [] ? ? ?].
    intros _. cbn [malloc_loop]. unfold load_next. by rewrite Hq.
  - cbn in Hc. destruct Hc as (-> & Hbs & q' & Hbn & Hc). cbn in Hsort. destruct Hsort as (Hc0 & Hsc & Hb & Htp & Hsort).
    cbn in Ht. fold (total l) in Ht. pose proof (total_nonneg _ _ Hsort).
    assert (forall r, malloc_loop (S fuel) m pool n c = r <-> ('(m, k, ok) ← splite m b n;
      if ctrue ok then ret ← load_next m c; Ok (store_next (store_next m c k) ret MEM_POOL_POISON, pool, ret + SEGMENT_SIZE)
      else malloc_loop fuel m pool n b) = r) as Hstep.
    { intros r. cbn [malloc_loop]. rewrite (load_next_Some _ _ _ Hq). cbn [mbind res_bind].
      by rewrite (proj2 (Z.eqb_neq 0 b)) by lia. }
    destruct (IH fuel m b t q' (c + sc)) as [IH1 IH2]; try done; try lia; [cbn in Hf; lia|].
    split.
    + intros [Hx Hall]%Forall_cons. cbn in Hx. apply Hstep. rewrite (splite_small m b t n) by done. by apply IH1.
    + intros [|y l1] a s l2 E Hall Hns; cbn in E.
      * injection E as -> -> ->.
        destruct (splite_chain m a s n l2 q') as (m1 & left & E1 & Hc1 & Hag & Hn1 & Hs1); try done; try lia.
        eexists. rewrite Hstep, E1. cbn [mbind res_bind]. change (ctrue 1) with true. cbv iota.
        assert (c ∉ [a; a + n]) as Hcn by (rewrite !elem_of_cons; intros [-> | [-> | Hx]]; [lia|lia|set_solver]).
        destruct (Hag c Hcn) as [Ecn Ecs]. unfold load_next. rewrite Ecn, Hq. cbn [mbind res_bind]. split; [done|].
        assert (c <> a) by lia. split_and!.
        -- cbn. split_and!; [done|by rewrite Ecs|]. exists left. rewrite lookup_insert_ne, lookup_insert_eq by done.
           split; [done|]. apply (chain_agree [c; a] m1); [| |done].
           ++ intros p Hp. cbn. by rewrite !lookup_insert_ne by set_solver.
           ++ intros d Hd. unfold rest_of in Hd. destruct (_ <? s); [|set_solver].
              cbn in Hd. rewrite !elem_of_cons in *. intros Hx.
              destruct Hd as [-> | Hd]; [destruct Hx as [? | [? | Hx]]; [lia|lia|set_solver]|].
              apply (sorted_lt _ _ _ Hsort) in Hd. destruct Hx as [? | [? | Hx]]; [lia|lia|set_solver].
        -- cbn. by rewrite lookup_insert_eq.
        -- done.
        -- intros p Hp. cbn. rewrite !lookup_insert_ne by lia. apply Hag.
           rewrite !elem_of_cons. intros [-> | [-> | Hx]]; [lia|lia|set_solver].
      * injection E as <- ->. apply Forall_cons in Hall as [Hx Hall]. cbn in Hx.
        destruct (IH2 l1 a s l2 eq_refl Hall Hns) as (m' & E' & Hc' & Hn' & Hs' & Hfr).
        exists m'. rewrite Hstep, (splite_small m b t n) by done. split; [done|].
        destruct (Hfr c ltac:(lia)) as [Ecn Ecs]. split; [|split_and!; [done|done|]].
        -- cbn. split_and!; [done|by rewrite Ecs|]. exists b. by rewrite Ecn.
        -- intros p Hp. apply Hfr. lia.
Qed.

(** C34: Allocation is first fit: the request plus its header is taken from
    the first segment that is large enough, and when none is, null is
    returned and nothing changes. The segment is split when more than two
    headers are left of it; then no other byte is lost. Otherwise the block
    keeps the whole segment, but every free segment behind it is lost too:
    the list is cut there. *)
Theorem mem_pool_malloc_first_fit (m : memory) (p : Z) (l : list segment) (size : Z) (fuel : nat) :
  pool_ok m p l -> total l < 65536 -> 0 <= size -> size + SEGMENT_SIZE < 65536 -> (length l < fuel)%nat ->
  let n := size + SEGMENT_SIZE in
  (Forall (fun x => x.2 < n) l -> mem_pool_malloc fuel m p size = Ok (m, p, 0)) /\
  (forall l1 a s l2, l = l1 ++ (a, s) :: l2 -> Forall (fun x => x.2 < n) l1 -> n <= s ->
   exists m' p', mem_pool_malloc fuel m p size = Ok (m', p', a + SEGMENT_SIZE) /\
     pool_ok m' p' (l1 ++ rest_of n a s l2) /\
     m_next m' !! a = Some MEM_POOL_POISON /\ m_size m' !! a = Some (block_size n s) /\
     total (l1 ++ rest_of n a s l2) + block_size n s = total l - (if n + 2 * SEGMENT_SIZE <? s then 0 else total l2)).
Proof.
  intros [Hc Hs] Ht Hsz H64 Hf n. unfold mem_pool_malloc, SEGMENT_SIZE in *. fold n.
  assert (forall l1 l2, total (l1 ++ l2) = total l1 + total l2) as Happ.
  { intros l1 l2. induction l1 as [|x l1 IH]; cbn; [done|]. fold (total (l1 ++ l2)) (total l1). lia. }
  assert (forall l1 a s l2 lo, sorted lo (l1 ++ (a, s) :: l2) -> sorted lo (l1 ++ rest_of n a s l2)) as Hkeep.
  { intros l1 a s l2. induction l1 as [|[c u] l1 IH]; intros lo; cbn.
    - unfold rest_of, SEGMENT_SIZE. intros (? & ? & ?). destruct (Z.ltb_spec (n + 2 * 8) s); cbn; [|done].
      split_and!; [lia|lia|]. by replace (a + n + (s - n)) with (a + s) by lia.
    - intros (? & ? & Hl). split_and!; [done|done|]. by apply IH. }
  assert (forall l1 a s l2, total (l1 ++ rest_of n a s l2) + block_size n s
    = total (l1 ++ (a, s) :: l2) - (if n + 2 * 8 <? s then 0 else total l2)) as Htot.
  { intros l1 a s l2. rewrite !Happ. unfold rest_of, block_size, SEGMENT_SIZE. cbn. fold (total l2).
    destruct (n + 2 * 8 <? s); cbn; fold (total l2); lia. }
  destruct l as [|[b t] l].
  { cbn in Hc. subst p. split; [done|]. by intros [] ? ? ?. }
  pose proof Hc as Hc0. cbn in Hc. destruct Hc as (-> & Hbs & q & Hbn & Hc). cbn in Hs. pose proof Hs as (Hb & Htp & Hsort).
  cbn in Ht. fold (total l) in Ht. pose proof (total_nonneg _ _ Hsort).
  rewrite (proj2 (Z.eqb_neq 0 b)) by lia. rewrite wrap_small by (pow2_norm; lia).
  destruct (malloc_loop_chain n b ltac:(lia) l fuel m b t q 0) as [L1 L2]; try done; try lia; [cbn in Hf; lia|].
  split.
  - intros [Hx Hall]%Forall_cons. cbn in Hx. rewrite (splite_small m b t) by done. by apply L1.
  - intros [|y l1] a s l2 E Hall Hns; cbn in E.
    + injection E as -> -> ->.
      destruct (splite_chain m a s n l2 q) as (m1 & left & E1 & Hc1 & Hag & Hn1 & Hs1); try done; try lia.
      rewrite E1. cbn [mbind res_bind]. change (ctrue 1) with true. cbv iota. do 2 eexists. split; [done|].
      cbn [app]. split_and!; [split|..].
      * apply (chain_agree [a] m1); [apply agree_next; set_solver| |done].
        intros d Hd. unfold rest_of, SEGMENT_SIZE in Hd. destruct (_ <? s); [|set_solver].
        cbn in Hd. intros ->%list_elem_of_singleton. apply elem_of_cons in Hd as [Hd | Hd]; [lia|].
        apply (sorted_lt _ _ _ Hsort) in Hd. lia.
      * by apply (Hkeep [] a s l2).
      * cbn. by rewrite lookup_insert_eq.
      * done.
      * by apply (Htot [] a s l2).
    + injection E as <- ->. apply Forall_cons in Hall as [Hx Hall]. cbn in Hx.
      destruct (L2 l1 a s l2 eq_refl Hall Hns) as (m' & E' & Hc' & Hn' & Hs' & _).
      rewrite (splite_small m b t) by done. exists m', b. split; [done|]. split_and!; [split|..]; try done.
      * by apply (Hkeep ((b, t) :: l1) a s l2).
Qed.

Lemma mem_pool_malloc_first_fit_witness :
  let m := MkMem {[1000 := 1040; 1040 := 0]} {[1000 := 30; 1040 := 60]} in
  pool_ok m 1000 [(1000, 30); (1040, 60)] /\
  (exists m' p', mem_pool_malloc 3 m 1000 24 = Ok (m', p', 1048) /\ pool_ok m' p' [(1000, 30); (1072, 28)]) /\
  (exists m' p', mem_pool_malloc 3 m 1000 16 = Ok (m', p', 1008) /\ pool_ok m' p' []).
Proof.
  intros m. assert (pool_ok m 1000 [(1000, 30); (1040, 60)]) as Hp.
  { split; [|done]. split_and!; [done|done|]. exists 1040. split; [done|]. split_and!; [done|done|]. by exists 0. }
  split; [done|].
  split.
  - destruct (proj2 (mem_pool_malloc_first_fit m 1000 _ 24 3 Hp ltac:(by vm_compute) ltac:(lia) ltac:(by vm_compute) ltac:(cbn; lia))
      [(1000, 30)] 1040 60 [] eq_refl ltac:(repeat constructor; by vm_compute) ltac:(by vm_compute)) as (m' & p' & E & Hp' & _).
    exists m', p'. split; [exact E|exact Hp'].
  - destruct (proj2 (mem_pool_malloc_first_fit m 1000 _ 16 3 Hp ltac:(by vm_compute) ltac:(lia) ltac:(by vm_compute) ltac:(cbn; lia))
      [] 1000 30 [(1040, 60)] eq_refl ltac:(constructor) ltac:(by vm_compute)) as (m' & p' & E & Hp' & _).
    exists m', p'. split; [exact E|exact Hp'].
Defined.
