(* ===== verification/Bus.v ===== *)
(** Hardware access: the state monad of the drivers, the interfaces of GPIO
    pins, I2C, SPI and RS-485 buses as the operation tables the C code calls
    through, and the modules that only forward to such a table or build one
    bus operation from another: src/src/gpio/gpio.c, i2c/i2c.c,
    i2c/locked_i2c.c, spi/spi.c and rs485_bus/rs485_bus.c. *)
From Stdlib Require Import String.
From S2P Require Import Prelude.

(** ** Effects

    A driver call changes the state [W] of the hardware (and of the tasks
    around it) and returns a value, or goes wrong. *)
Definition M (W A : Type) : Type := W -> res (W * A).
#[export] Instance M_ret W : MRet (M W) := fun A a w => Ok (w, a).
#[export] Instance M_bind W : MBind (M W) :=
  fun A B f m w => match m w with Ok (w', a) => f a w' | Err e => Err e end.
(** A computation that does not touch the hardware. *)
Definition pure {W A} (r : res A) : M W A := fun w => a ← r; Ok (w, a).

(** ** Objects

    A call on a structure [S] changes the structure and the world around it. *)
Section object.
  Context {S W : Type}.
Definition self : M (S * W) S := fun s => Ok (s, s.1).
Definition update (f : S -> S) : M (S * W) unit := fun s => Ok ((f s.1, s.2), tt).
Definition lift {A} (m : M W A) : M (S * W) A := fun s => '(w, a) ← m s.2; Ok ((s.1, w), a).
End object.

(** ** GPIO *)
Inductive gpio_mode := GPIO_MODE_INPUT | GPIO_MODE_OUTPUT_PUSHPULL | GPIO_MODE_OUTPUT_OPENDRAIN.
#[export] Instance gpio_mode_eq_dec : EqDecision gpio_mode.
Proof. solve_decision. Defined.

(** [struct gpio_operations]; a pin is the number that stands for its
    [void *]. *)
Class GpioOps (W : Type) := {
  gpio_ops_init : Z -> gpio_mode -> M W Z;
  gpio_ops_get_mode : Z -> M W gpio_mode;
  gpio_ops_input_is_high : Z -> M W Z;
  gpio_ops_output_is_high : Z -> M W Z;
  gpio_ops_set_output : Z -> Z -> M W Z
}.

(** ** I2C

    [struct i2c_operations]. [transmit addr w wlen r rlen]: [w] and [r] are
    null or the objects the pointers point to; the result is the count and
    the new content of [r]. *)
Class I2cOps (W : Type) := {
  i2c_ops_init : M W Z;
  i2c_ops_deinit : M W unit;
  i2c_ops_transmit : Z -> option (list Z) -> Z -> option (list Z) -> Z -> M W (Z * option (list Z))
}.

(** ** SPI

    [struct spi_operations]. [transfer r w len] as for I2C. *)
Class SpiOps (W : Type) := {
  spi_ops_init : Z -> M W Z;
  spi_ops_deinit : M W unit;
  spi_ops_select : Z -> Z -> M W Z;
  spi_ops_transmit_byte : Z -> M W (Z * Z);
  spi_ops_transfer : option (list Z) -> option (list Z) -> Z -> M W (Z * option (list Z))
}.

(** ** gpio.c *)
Section gpio.
  Context {W : Type} `{GpioOps W}.
Definition gpio_init (io : Z) (mode : gpio_mode) : M W Z := gpio_ops_init io mode.
Definition gpio_get_mode (io : Z) : M W gpio_mode := gpio_ops_get_mode io.
Definition gpio_input_is_high (io : Z) : M W Z := gpio_ops_input_is_high io.
Definition gpio_output_is_high (io : Z) : M W Z := gpio_ops_output_is_high io.
Definition gpio_set_output (io is_high : Z) : M W Z := gpio_ops_set_output io is_high.
Definition gpio_mode_to_string (mode : gpio_mode) : string :=
  match mode with
  | GPIO_MODE_INPUT => "INPUT"
  | GPIO_MODE_OUTPUT_PUSHPULL => "OUTPUT_PP"
  | GPIO_MODE_OUTPUT_OPENDRAIN => "OUTPUT_OD"
  end.
(** What [gpio_dump] prints: the prefix, the mode and the level. *)
Definition gpio_dump (io : option Z) (prefix : option string) : M W (option (option string * string * Z)) :=
  match io with
  | None => mret None
  | Some io =>
    mode ← gpio_get_mode io;
    v ← (if bool_decide (mode = GPIO_MODE_INPUT) then gpio_input_is_high io else gpio_output_is_high io);
    mret (Some (prefix, gpio_mode_to_string mode, v))
  end.
End gpio.

(** ** i2c.c *)
Section i2c.
  Context {W : Type} `{I2cOps W}.
Definition i2c_init : M W Z := i2c_ops_init.
Definition i2c_transmit (addr : Z) (w : option (list Z)) (wlen : Z) (r : option (list Z)) (rlen : Z)
    : M W (Z * option (list Z)) := i2c_ops_transmit addr w wlen r rlen.
End i2c.

(** ** spi.c *)
Section spi.
  Context {W : Type} `{SpiOps W}.
Definition SPI_FLAG_CLK_IDLE_HIGH := 1.
Definition SPI_FLAG_CLK_IDLE_LOW := 0.
Definition SPI_FLAG_CLK_FIRST_EDGE := 2.
Definition SPI_FLAG_CLK_SECOND_EDGE := 0.
Definition SPI_FLAG_LSB_FIRST := 4.
Definition SPI_FLAG_MSB_FIRST := 0.
Definition spi_init (flags : Z) : M W Z := spi_ops_init flags.
Definition spi_deinit : M W unit := spi_ops_deinit.
Definition spi_select (which is_select : Z) : M W Z := spi_ops_select which is_select.
(** The byte behind the pointer and the return value. *)
Definition spi_transmit_byte (b : Z) : M W (Z * Z) := spi_ops_transmit_byte b.
Definition spi_transfer (r w : option (list Z)) (len : Z) : M W (Z * option (list Z)) := spi_ops_transfer r w len.
End spi.

(** The three loops of [spi_transfer_use_transmit_onebyte] over the byte
    operation [transmit_byte]: byte out, byte in and return value. *)
Section transfer.
  Context {W : Type} (transmit_byte : Z -> M W (Z * Z)).

Fixpoint send (n : nat) (w : list Z) (i : Z) : M W Z :=
  match n with
  | O => mret i
  | S n => b ← pure (bget w i); '(_, ok) ← transmit_byte b;
           if ctrue ok then send n w (i + 1) else mret i
  end.
(** [tmp] is not initialised before the first byte: what is sent then is
    the argument [garbage]; later it is the byte received last. *)
Fixpoint recv (n : nat) (tmp : Z) (r : list Z) (i : Z) : M W (Z * list Z) :=
  match n with
  | O => mret (i, r)
  | S n => '(tmp, ok) ← transmit_byte tmp;
           if ctrue ok then r ← pure (bset r i tmp); recv n tmp r (i + 1) else mret (i, r)
  end.
Fixpoint send_and_recv (n : nat) (r w : list Z) (i : Z) : M W (Z * list Z) :=
  match n with
  | O => mret (i, r)
  | S n => b ← pure (bget w i); '(tmp, ok) ← transmit_byte b;
           if ctrue ok then r ← pure (bset r i tmp); send_and_recv n r w (i + 1) else mret (i, r)
  end.
Definition spi_transfer_use_transmit_onebyte (garbage : Z) (r w : option (list Z)) (len : Z)
    : M W (Z * option (list Z)) :=
  match r, w with
  | Some r, Some w => '(i, r) ← send_and_recv (Z.to_nat len) r w 0; mret (i, Some r)
  | Some r, None => '(i, r) ← recv (Z.to_nat len) garbage r 0; mret (i, Some r)
  | None, Some w => i ← send (Z.to_nat len) w 0; mret (i, None)
  | None, None => mret (0, None)
  end.
End transfer.

(** ** locked_i2c.c

    The operating system's mutexes, as far as the code relies on them; a
    null mutex is [None]. *)
Class MutexOps (W : Type) := {
  mutex : Type;
  os_create_mutex : M W (option mutex);
  os_destroy_mutex : option mutex -> M W unit;
  os_lock_mutex : option mutex -> M W unit;
  os_unlock_mutex : option mutex -> M W unit
}.
Section locked_i2c.
  Context {W : Type} `{I2cOps W} `{MutexOps W}.

  (** [struct lockedi2c_platform] is its mutex field; the bus is the
      instance. Each function returns the new field first. *)
Definition lockedi2c_init : M W (option mutex * Z) :=
  m ← os_create_mutex;
  match m with
  | None => mret (None, 0)
  | Some _ =>
    ok ← i2c_ops_init;
    if negb (ctrue ok) then _ ← os_destroy_mutex m; mret (None, 0) else mret (m, 1)
  end.
Definition lockedi2c_deinit (m : option mutex) : M W (option mutex) :=
  match m with
  | Some _ =>
    _ ← os_lock_mutex m; _ ← i2c_ops_deinit; _ ← os_unlock_mutex m; _ ← os_destroy_mutex m; mret None
  | None => mret None
  end.
Definition lockedi2c_write_then_read (m : option mutex) (addr : Z) (w : option (list Z)) (wlen : Z)
    (r : option (list Z)) (rlen : Z) : M W (Z * option (list Z)) :=
  match m with
  | None =>
    _ ← os_lock_mutex m;
    x ← i2c_ops_transmit addr w wlen r rlen;
    _ ← os_unlock_mutex m;
    mret x
  | Some _ => mret (0, r)
  end.
End locked_i2c.

(** ** rs485_bus.c *)
Class Rs485Ops (W : Type) := {
  rs485_ops_init : M W Z;
  rs485_ops_set_baud : Z -> M W Z;
  rs485_ops_tx_byte : Z -> M W Z
}.
Section rs485.
  Context {W : Type} `{Rs485Ops W}.

  (** [bus->baud] before and after. *)
Definition rs485_bus_init (old_baud baud : Z) : M W (Z * Z) :=
  ok ← rs485_ops_init;
  if negb (ctrue ok) then mret (old_baud, 0) else
  ok ← rs485_ops_set_baud baud;
  if negb (ctrue ok) then mret (old_baud, 0) else mret (baud, 1).
Definition rs485_bus_tx_byte (b : Z) : M W Z := rs485_ops_tx_byte b.
(** [s] is a zero-terminated array; [rc] is a [uint8_t]. *)
Fixpoint rs485_bus_tx_string (s : list Z) (rc : Z) : M W Z :=
  match s with
  | [] => pure (Err OutOfBounds)
  | c :: s => if c =? 0 then mret rc else _ ← rs485_ops_tx_byte c; rs485_bus_tx_string s (u8 (rc + 1))
  end.
Fixpoint rs485_bus_tx_bytes (n : nat) (dat : list Z) (i : Z) : M W Z :=
  match n with
  | O => mret i
  | S n => b ← pure (bget dat i); _ ← rs485_ops_tx_byte b; rs485_bus_tx_bytes n dat (i + 1)
  end.
End rs485.

(** ** Lemmas *)
Lemma M_bind_Ok {W A B} (m : M W A) (f : A -> M W B) w w' a :
  m w = Ok (w', a) -> mbind f m w = f a w'.
Proof. intros E. unfold mbind, M_bind. by rewrite E. Qed.
Lemma M_bind_eq {W A B} (m1 m2 : M W A) (f : A -> M W B) w : m1 w = m2 w -> (x ← m1; f x) w = (x ← m2; f x) w.
Proof. intros E. unfold mbind, M_bind. by rewrite E. Qed.
Lemma M_bind_ext {W A B} (m : M W A) (f g : A -> M W B) w : (forall x v, f x v = g x v) -> (x ← m; f x) w = (x ← m; g x) w.
Proof. intros E. unfold mbind, M_bind. destruct (m w) as [[v x]|]; cbn; [apply E|done]. Qed.
Lemma M_bind_assoc {W A B C} (m : M W A) (f : A -> M W B) (g : B -> M W C) w :
  (y ← (x ← m; f x); g y) w = (x ← m; y ← f x; g y) w.
Proof. unfold mbind, M_bind. by destruct (m w) as [[v x]|]. Qed.
Lemma pure_bind_Ok {W A B} (r : res A) (f : A -> M W B) w a : r = Ok a -> mbind f (pure r) w = f a w.
Proof. by intros ->. Qed.
Lemma pure_Ok {W A} (a : A) (w : W) : pure (Ok a) w = Ok (w, a).
Proof. done. Qed.

(** A byte operation that succeeds whenever the hardware is [sound] is an
    exchange of bytes. *)
Section exchange.
  Context {W : Type} (transmit_byte : Z -> M W (Z * Z)) (exchange : W -> Z -> W * Z) (sound : W -> Prop).
  Hypothesis transmit_ok : forall b w, sound w -> transmit_byte b w = Ok ((exchange w b).1, ((exchange w b).2, 1)).
  Hypothesis exchange_sound : forall b w, sound w -> sound (exchange w b).1.

  (** The hardware after the bytes [l] were exchanged, and what came back. *)
Fixpoint exchange_all (w : W) (l : list Z) : W * list Z :=
  match l with
  | [] => (w, [])
  | b :: l => let '(w1, x) := exchange w b in let '(w2, xs) := exchange_all w1 l in (w2, x :: xs)
  end.

Lemma exchange_all_length l w : length (exchange_all w l).2 = length l.
Proof.
  revert w. induction l as [|b l IH]; intros w; cbn; [done|].
  destruct (exchange w b) as [w1 x]. specialize (IH w1). destruct (exchange_all w1 l). cbn in *. by rewrite IH.
Qed.

Lemma send_eq : forall l pre post w, sound w ->
  send transmit_byte (length l) (pre ++ l ++ post) (Zlen pre) w = Ok ((exchange_all w l).1, Zlen pre + Zlen l).
Proof.
  induction l as [|b l IH]; intros pre post w Hs; cbn [send length exchange_all app].
  - unfold mret, M_ret. cbn. do 2 f_equal. zlen. lia.
  - rewrite (M_bind_Ok _ _ w w b); [|unfold pure; by rewrite bget_middle].
    rewrite (M_bind_Ok _ _ _ _ _ (transmit_ok b w Hs)). cbv beta iota. change (ctrue 1) with true. cbv iota.
    specialize (IH (pre ++ [b]) post (exchange w b).1 (exchange_sound b w Hs)). rewrite <- app_assoc in IH. cbn [app] in IH.
    rewrite (Zlen_app pre) in IH. change (Zlen [b]) with 1 in IH. rewrite IH.
    destruct (exchange w b) as [w1 x]. cbn [fst]. destruct (exchange_all w1 l). cbn. do 2 f_equal. zlen. lia.
Qed.

Lemma send_and_recv_eq r : forall l pre post done w,
  sound w -> Zlen pre = Zlen done -> Zlen done + Zlen l <= Zlen r ->
  send_and_recv transmit_byte (length l) (overwrite r 0 done) (pre ++ l ++ post) (Zlen pre) w
  = Ok ((exchange_all w l).1, (Zlen pre + Zlen l, overwrite r 0 (done ++ (exchange_all w l).2))).
Proof.
  induction l as [|b l IH]; intros pre post dn w Hs Hl Hr; cbn [send_and_recv length exchange_all app].
  - unfold mret, M_ret. cbn. rewrite app_nil_r. do 3 f_equal. zlen. lia.
  - rewrite (M_bind_Ok _ _ w w b); [|unfold pure; by rewrite bget_middle].
    rewrite (M_bind_Ok _ _ _ _ _ (transmit_ok b w Hs)). cbv beta iota. change (ctrue 1) with true. cbv iota.
    zlen. pose proof (Zlen_nonneg l). pose proof (Zlen_nonneg dn).
    rewrite (M_bind_Ok _ _ _ (exchange w b).1 (overwrite r 0 (dn ++ [(exchange w b).2])));
      [|unfold pure; by rewrite bset_overwrite by lia].
    specialize (IH (pre ++ [b]) post (dn ++ [(exchange w b).2]) (exchange w b).1 (exchange_sound b w Hs)).
    rewrite <- app_assoc in IH. cbn [app] in IH. rewrite !Zlen_app in IH.
    change (Zlen [b]) with 1 in IH. change (Zlen [(exchange w b).2]) with 1 in IH. rewrite IH by (zlen; lia).
    destruct (exchange w b) as [w1 x]. cbn [fst snd]. destruct (exchange_all w1 l). cbn [fst snd]. rewrite <- app_assoc.
    cbn [app]. do 3 f_equal. lia.
Qed.

(** On a sound bus, a transfer exchanges the
    bytes of [w] in order; full duplex stores what came back in [r] from the
    start on, write only drops it, and both return the length. *)
Theorem spi_transfer_exchanges (garbage len : Z) (l post r : list Z) (w : W) :
  sound w -> len = Zlen l -> len <= Zlen r ->
  spi_transfer_use_transmit_onebyte transmit_byte garbage (Some r) (Some (l ++ post)) len w
    = Ok ((exchange_all w l).1, (len, Some (overwrite r 0 (exchange_all w l).2))) /\
  spi_transfer_use_transmit_onebyte transmit_byte garbage None (Some (l ++ post)) len w
    = Ok ((exchange_all w l).1, (len, None)).
Proof.
  intros Hs -> Hr. unfold spi_transfer_use_transmit_onebyte. rewrite Zlen_to_nat. split.
  - pose proof (send_and_recv_eq r l [] post [] w Hs eq_refl Hr) as E. rewrite overwrite_nil in E.
    change (Zlen (@nil Z)) with 0 in E. cbn [app] in E. by rewrite (M_bind_Ok _ _ _ _ _ E).
  - pose proof (send_eq l [] post w Hs) as E. change (Zlen (@nil Z)) with 0 in E. cbn [app] in E.
    by rewrite (M_bind_Ok _ _ _ _ _ E).
Qed.
End exchange.

Lemma spi_transfer_exchanges_witness :
  spi_transfer_use_transmit_onebyte (fun b (w : Z) => Ok (w + 1, (b + w, 1))) 0 (Some [9; 9; 9]) (Some ([1; 2] ++ [])) 2 10
  = Ok (12, (2, Some [11; 13; 9])).
Proof.
  apply (spi_transfer_exchanges (fun b (w : Z) => Ok (w + 1, (b + w, 1))) (fun w b => (w + 1, b + w)) (fun _ => True)); done.
Defined.

(** A locked bus never transmits once it is initialised: the guard of
    [lockedi2c_write_then_read] lets only the null mutex through. *)
Lemma lockedi2c_never_transmits {W} `{I2cOps W} `{MutexOps W} (w w1 : W) m addr buf wlen r rlen :
  lockedi2c_init w = Ok (w1, (m, 1)) -> lockedi2c_write_then_read m addr buf wlen r rlen w1 = Ok (w1, (0, r)).
Proof.
  unfold lockedi2c_init, mbind, M_bind. destruct (os_create_mutex w) as [[w0 [mu|]]|]; [|by intros [= ]|done].
  destruct (i2c_ops_init w0) as [[w2 ok]|]; [|done]. destruct (negb (ctrue ok)).
  - destruct (os_destroy_mutex _ w2) as [[? ?]|]; by intros [= ].
  - by intros [= <- <-].
Qed.
