(* ===== verification/Async.v ===== *)
(** The event loop of src/src/async (event.c, looper.c, async.c, private.h)
    in its configuration with one looper: the pool of events on the linked
    lists of DList.v, the command queue on the ring buffer of Ringbuffer.v,
    and the operations of the tasks and of the loop. Operations run one at a
    time: a task switch between the critical sections of one operation is not
    modelled. *)
From stdpp Require Import gmap.
From S2P Require Import Prelude Ringbuffer DList Bus.

(** ** Data *)
Record event := MkEvent { cb : Z; timeout : Z; next_timestamp : Z; dat : Z }.
Record async_looper_command := MkCmd { type : Z; cmd_event : Z; addition_data : Z }.
Definition LOOPER_COMMAND_TYPE_CANCEL_EVENT := 0.
Definition LOOPER_COMMAND_TYPE_TRIGGER_CALL := 1.
Definition LOOPER_COMMAND_TYPE_ADD_EVENT := 2.
Definition LOOPER_COMMAND_TYPE_EXIT := 3.
Definition OS_TIME_FOREVER := 4294967295.
Definition ASYNC_EVENT_ADDITION_DATA_TIMEOUT := 4294967295.

(** The list heads [free_list] and [looper->events] of the one looper. An
    event is the address of its first member, the list entry [head]. *)
Definition FREE := 1.
Definition EVENTS := 2.

(** The whole state: the lists, the other fields of the events, the looper's
    queue, lock and semaphore with its count (a null handle is [None]), and how
    often the clock has been read. *)
Record async := MkAsync {
  a_heap : store; a_events : gmap Z event; a_rb : ringbuffer;
  a_lock : option Z; a_sem : option Z; a_count : Z; a_reads : nat }.
Definition set_heap (h : store) (a : async) := MkAsync h (a_events a) (a_rb a) (a_lock a) (a_sem a) (a_count a) (a_reads a).
Definition set_events (m : gmap Z event) (a : async) := MkAsync (a_heap a) m (a_rb a) (a_lock a) (a_sem a) (a_count a) (a_reads a).
Definition set_queue (rb : ringbuffer) (n : Z) (a : async) := MkAsync (a_heap a) (a_events a) rb (a_lock a) (a_sem a) n (a_reads a).
Definition set_handles (l s : option Z) (a : async) := MkAsync (a_heap a) (a_events a) (a_rb a) l s (a_count a) (a_reads a).

(** The bytes of a [struct async_looper_command] on the target. *)
Class Layout := {
  sizeof : Z;
  encode : async_looper_command -> list Z;
  decode : list Z -> async_looper_command;
  is_pointer : Z -> Prop;
  sizeof_range : 0 < sizeof < 65536;
  encode_length : forall c, Zlen (encode c) = sizeof;
  decode_encode : forall c, is_u8 (type c) -> is_pointer (cmd_event c) -> is_pointer (addition_data c) -> decode (encode c) = c
}.

(** What the operating system provides: the readings of the clock, and how
    far the semaphore counts. Callbacks are the application's. *)
Class Os := { clock : nat -> Z; sem_limit : Z }.
Class Callbacks := { callback : Z -> Z -> Z -> M async Z }.

Section async.
  Context `{Layout} `{Os} `{Callbacks}.

Definition on_heap (f : store -> res store) : M async unit := fun a => h ← f (a_heap a); Ok (set_heap h a, tt).
Definition in_heap {A} (f : store -> res A) : M async A := fun a => x ← f (a_heap a); Ok (a, x).
Definition get_event (e : Z) : M async event :=
  fun a => match a_events a !! e with Some x => Ok (a, x) | None => Err NullDeref end.
Definition put_event (e : Z) (x : event) : M async unit :=
  fun a => match a_events a !! e with Some _ => Ok (set_events (<[e := x]> (a_events a)) a, tt) | None => Err NullDeref end.
Definition os_get_time : M async Z :=
  fun a => Ok (MkAsync (a_heap a) (a_events a) (a_rb a) (a_lock a) (a_sem a) (a_count a) (S (a_reads a)), u32 (clock (a_reads a))).
Definition os_post_sem : M async Z := fun a =>
  if a_count a <? sem_limit then Ok (set_queue (a_rb a) (a_count a + 1) a, 1) else Ok (a, 0).
Definition os_pend_sem (wait : Z) : M async Z := fun a =>
  if 0 <? a_count a then Ok (set_queue (a_rb a) (a_count a - 1) a, 1) else Ok (a, 0).
Definition os_clear_sem : M async unit := fun a => Ok (set_queue (a_rb a) 0 a, tt).

(** ** looper.c: the command queue

    Locking the null mutex of a looper that was not created, or that has
    left its loop, is the null dereference it is. *)
Definition os_lock_mutex : M async unit := fun a => match a_lock a with Some _ => Ok (a, tt) | None => Err NullDeref end.
Definition async_notify_loop (priv : async_looper_command) : M async Z := fun a =>
  _ ← os_lock_mutex a;
  '(rb, ret) ← ringbuffer_write (Some (a_rb a)) (Some (encode priv, 0)) sizeof;
  let a := set_queue (default (a_rb a) rb) (a_count a) a in
  if negb (ret =? sizeof) then Ok (a, 0) else os_post_sem a.
(** [junk] is what the fields of a command hold that are not assigned. *)
Definition async_looper_exit (junk : Z) : M async Z := async_notify_loop (MkCmd LOOPER_COMMAND_TYPE_EXIT junk junk).

(** ** event.c *)
Fixpoint async_event_init (pool : list Z) : M async unit :=
  match pool with
  | [] => mret tt
  | e :: pool => _ ← on_heap (fun h => INIT_LIST_HEAD h e); _ ← on_heap (fun h => list_add h e FREE); async_event_init pool
  end.

Definition async_event_register (cb timeout dat junk : Z) : M async Z :=
  empty ← in_heap (fun h => list_empty h FREE);
  if (empty : bool) then mret 0 else
  ret ← in_heap (fun h => get_next h FREE);
  _ ← on_heap (fun h => list_del h ret);
  x ← get_event ret;
  _ ← put_event ret (MkEvent cb timeout (next_timestamp x) dat);
  ok ← async_notify_loop (MkCmd LOOPER_COMMAND_TYPE_ADD_EVENT ret junk);
  if ctrue ok then mret ret else
  _ ← on_heap (fun h => list_add h ret FREE);
  mret 0.

(** The body of the [list_for_each_safe], with the test at [__check_timestamp],
    and the walk: [n] is read before the body runs. *)
Definition check_timestamp (pos most_recent_time : Z) : M async Z :=
  x ← get_event pos;
  mret (if next_timestamp x <? most_recent_time then next_timestamp x else most_recent_time).
Definition exec_timeout_event (pos now most_recent_time : Z) : M async Z :=
  x ← get_event pos;
  if now <? next_timestamp x then check_timestamp pos most_recent_time else
  rc ← callback (cb x) pos ASYNC_EVENT_ADDITION_DATA_TIMEOUT;
  if rc =? 0 then _ ← on_heap (fun h => list_move h pos FREE); mret most_recent_time else
  x ← get_event pos;
  _ ← put_event pos (MkEvent (cb x) (timeout x) (u32 (now + timeout x)) (dat x));
  check_timestamp pos most_recent_time.
Fixpoint exec_timeout_loop (fuel : nat) (pos n now most_recent_time : Z) : M async Z :=
  match fuel with
  | O => pure (Err NoFuel)
  | S fuel =>
    if pos =? EVENTS then mret most_recent_time else
    most_recent_time ← exec_timeout_event pos now most_recent_time;
    nn ← in_heap (fun h => get_next h n);
    exec_timeout_loop fuel n nn now most_recent_time
  end.
Definition async_event_exec_timeout (fuel : nat) : M async Z :=
  now ← os_get_time;
  pos ← in_heap (fun h => get_next h EVENTS);
  n ← in_heap (fun h => get_next h pos);
  exec_timeout_loop fuel pos n now OS_TIME_FOREVER.

(** The search for an event in the looper's list. *)
Fixpoint find_event (fuel : nat) (pos n event : Z) : M async bool :=
  match fuel with
  | O => pure (Err NoFuel)
  | S fuel =>
    if pos =? EVENTS then mret false
    else if pos =? event then mret true
    else nn ← in_heap (fun h => get_next h n); find_event fuel n nn event
  end.
Definition is_in_list (fuel : nat) (event : Z) : M async bool :=
  pos ← in_heap (fun h => get_next h EVENTS);
  n ← in_heap (fun h => get_next h pos);
  find_event fuel pos n event.

Definition async_event_exec_trigger (fuel : nat) (event addition_data : Z) : M async Z :=
  found ← is_in_list fuel event;
  if negb found then mret OS_TIME_FOREVER else
  x ← get_event event;
  rc ← callback (cb x) event addition_data;
  if rc =? 0 then _ ← on_heap (fun h => list_move h event FREE); mret OS_TIME_FOREVER else
  t ← os_get_time;
  x ← get_event event;
  _ ← put_event event (MkEvent (cb x) (timeout x) (u32 (t + timeout x)) (dat x));
  x ← get_event event; mret (next_timestamp x).

(** The caller's [addition_data] is not stored in the command. *)
Definition async_event_trigger (event addition_data junk : Z) : M async Z :=
  async_notify_loop (MkCmd LOOPER_COMMAND_TYPE_TRIGGER_CALL event junk).

Definition async_event_add_to_looper_event_list (event : Z) : M async Z :=
  x ← get_event event;
  rc ← (if timeout x =? 0 then callback (cb x) event ASYNC_EVENT_ADDITION_DATA_TIMEOUT else mret 1);
  if rc =? 0 then _ ← on_heap (fun h => list_add h event FREE); mret OS_TIME_FOREVER else
  t ← os_get_time;
  x ← get_event event;
  _ ← put_event event (MkEvent (cb x) (timeout x) (u32 (t + timeout x)) (dat x));
  _ ← on_heap (fun h => list_add h event EVENTS);
  x ← get_event event; mret (next_timestamp x).

Definition async_event_free_from_looper_event_list (fuel : nat) (event : Z) : M async unit :=
  found ← is_in_list fuel event;
  if (found : bool) then on_heap (fun h => list_move h event FREE) else mret tt.
Definition async_event_free_all : M async unit := on_heap (fun h => list_splice_init h EVENTS FREE).

Definition async_event_set_callback (event f : Z) : M async unit :=
  x ← get_event event; put_event event (MkEvent f (timeout x) (next_timestamp x) (dat x)).
Definition async_event_set_timeout (event t : Z) : M async unit :=
  x ← get_event event; put_event event (MkEvent (cb x) t (next_timestamp x) (dat x)).
Definition async_event_set_data (event d : Z) : M async unit :=
  x ← get_event event; put_event event (MkEvent (cb x) (timeout x) (next_timestamp x) d).
Definition async_event_get_data (event : Z) : M async Z := x ← get_event event; mret (dat x).
Definition async_event_cancel (event junk : Z) : M async Z :=
  async_notify_loop (MkCmd LOOPER_COMMAND_TYPE_CANCEL_EVENT event junk).

(** ** looper.c: creation and the loop

    [m] and [s] are what the operating system returns for the mutex and the
    semaphore. *)
Definition async_looper_init (buf : list Z) : M async unit :=
  _ ← on_heap (fun h => INIT_LIST_HEAD h EVENTS);
  (fun a => Ok (set_queue (ringbuffer_init buf (Zlen buf)) (a_count a) a, tt)) : M async unit.
Definition async_looper_create (m s : option Z) : M async bool := fun a =>
  match a_lock a with
  | Some _ => Ok (a, false)
  | None =>
    match m, s with
    | Some _, Some _ => Ok (set_queue (a_rb a) 0 (set_handles m s a), true)
    | Some _, None => Ok (set_handles None None a, false)
    | None, _ => Ok (set_handles None None a, false)
    end
  end.

(** [async_init]: [g] is the global mutex, [m] the one that is created. *)
Definition async_init (g m : option Z) (buf pool : list Z) : M async (option Z) :=
  match g with
  | Some _ => mret g
  | None => _ ← async_looper_init buf; _ ← async_event_init pool; mret m
  end.

(** One round of [while (1)]: the new [next_timestamp], or [None] when the
    loop returns. *)
Definition dispatch (fuel : nat) (cmd : async_looper_command) (next_timestamp : Z) : M async (option Z) :=
  if type cmd =? LOOPER_COMMAND_TYPE_TRIGGER_CALL then
    timestamp ← async_event_exec_trigger fuel (cmd_event cmd) (addition_data cmd);
    mret (Some (if timestamp <? next_timestamp then timestamp else next_timestamp))
  else if type cmd =? LOOPER_COMMAND_TYPE_ADD_EVENT then
    timestamp ← async_event_add_to_looper_event_list (cmd_event cmd);
    mret (Some (if timestamp <? next_timestamp then timestamp else next_timestamp))
  else if type cmd =? LOOPER_COMMAND_TYPE_CANCEL_EVENT then
    _ ← async_event_free_from_looper_event_list fuel (cmd_event cmd);
    mret (Some next_timestamp)
  else if type cmd =? LOOPER_COMMAND_TYPE_EXIT then
    _ ← async_event_free_all;
    (fun a => Ok (set_handles None None a, None)) : M async (option Z)
  else mret (Some next_timestamp).

(** Taking a command from the queue: [None] when the ring buffer does not
    deliver a whole one; then queue and semaphore are cleared. *)
Definition take_command (junk : Z) : M async (option async_looper_command) := fun a =>
  _ ← os_lock_mutex a;
  '(rb, (p, n)) ← ringbuffer_read (Some (a_rb a)) (Some (replicate (Z.to_nat sizeof) junk, 0)) sizeof;
  let a := set_queue (default (a_rb a) rb) (a_count a) a in
  if negb (sizeof =? n) then
    let a := set_queue (default (a_rb a) (ringbuffer_clear (Some (a_rb a)))) (a_count a) a in
    '(a, _) ← os_clear_sem a;
    Ok (a, None)
  else match p with Some (buf, _) => Ok (a, Some (decode buf)) | None => Err NullDeref end.

Definition looper_round (fuel : nat) (junk next_timestamp : Z) : M async (option Z) :=
  now ← os_get_time;
  '(next_timestamp, now) ←
    (if next_timestamp <=? now then
       next_timestamp ← async_event_exec_timeout fuel;
       now ← os_get_time; mret (next_timestamp, now)
     else mret (next_timestamp, now));
  let diff := if next_timestamp <=? now then 1 else u32 (next_timestamp - now) in
  got ← os_pend_sem diff;
  if 0 =? got then mret (Some next_timestamp) else
  cmd ← take_command junk;
  match cmd with
  | None => mret (Some next_timestamp)
  | Some cmd => dispatch fuel cmd next_timestamp
  end.

(** ** The tasks and the loop

    What happens between two task switches: a call of a task, or a round of
    the loop, which runs until it returns. *)
Inductive action :=
  | Register (f t d junk : Z)
  | Trigger (e d junk : Z)
  | Cancel (e junk : Z)
  | SetCallback (e f : Z)
  | SetTimeout (e t : Z)
  | SetData (e d : Z)
  | GetData (e : Z)
  | Exit (junk : Z)
  | Round (junk : Z).
Definition act (fuel : nat) (o : action) (next_timestamp : Z) : M async (option Z) :=
  match o with
  | Register f t d junk => _ ← async_event_register f t d junk; mret (Some next_timestamp)
  | Trigger e d junk => _ ← async_event_trigger e d junk; mret (Some next_timestamp)
  | Cancel e junk => _ ← async_event_cancel e junk; mret (Some next_timestamp)
  | SetCallback e f => _ ← async_event_set_callback e f; mret (Some next_timestamp)
  | SetTimeout e t => _ ← async_event_set_timeout e t; mret (Some next_timestamp)
  | SetData e d => _ ← async_event_set_data e d; mret (Some next_timestamp)
  | GetData e => _ ← async_event_get_data e; mret (Some next_timestamp)
  | Exit junk => _ ← async_looper_exit junk; mret (Some next_timestamp)
  | Round junk => looper_round fuel junk next_timestamp
  end.
Fixpoint run (fuel : nat) (os : list action) (next_timestamp : Z) : M async (option Z) :=
  match os with
  | [] => mret (Some next_timestamp)
  | o :: os =>
    r ← act fuel o next_timestamp;
    match r with Some next_timestamp => run fuel os next_timestamp | None => mret None end
  end.

(** ** The invariant

    [free] and [events] are the two lists, [queue] the commands in the ring
    buffer. *)
Definition inflight (queue : list async_looper_command) : list Z :=
  cmd_event <$> filter (fun c => type c = LOOPER_COMMAND_TYPE_ADD_EVENT) queue.
Definition lists (free events : list Z) : gmap Z (list Z) := <[FREE := free]> (<[EVENTS := events]> ∅).
Definition command_ok (c : async_looper_command) : Prop := is_u8 (type c) /\ is_pointer (cmd_event c) /\ is_pointer (addition_data c).

(** Every event of the pool is in exactly one place: on the free list, on the
    looper's list, in a queued ADD command, or [lost]: in none of them. *)
Record inv (pool : list Z) (a : async) (free events : list Z) (queue : list async_looper_command) (lost : list Z) : Prop := {
  inv_rep : rep (a_heap a) (lists free events) (list_to_set (inflight queue ++ lost));
  inv_perm : free ++ events ++ inflight queue ++ lost ≡ₚ pool;
  inv_nodup : NoDup pool;
  inv_pointers : Forall is_pointer pool;
  inv_events : forall e, e ∈ pool -> is_Some (a_events a !! e);
  inv_queue : repr (a_rb a) 100 (concat (map encode queue));
  inv_commands : Forall command_ok queue;
  inv_count : a_count a = Zlen queue;
  inv_live : is_Some (a_lock a)
}.

Lemma lists_FREE free events : lists free events !! FREE = Some free.
Proof. unfold lists. by rewrite lookup_insert_eq. Qed.
Lemma lists_EVENTS free events : lists free events !! EVENTS = Some events.
Proof. unfold lists. rewrite lookup_insert_ne by done. by rewrite lookup_insert_eq. Qed.
Lemma lists_set_FREE free events l : <[FREE := l]> (lists free events) = lists l events.
Proof. unfold lists. by rewrite insert_insert_eq. Qed.
Lemma lists_set_EVENTS free events l : <[EVENTS := l]> (lists free events) = lists free l.
Proof. unfold lists. rewrite insert_insert_ne by done. by rewrite insert_insert_eq. Qed.
Lemma inflight_app q1 q2 : inflight (q1 ++ q2) = inflight q1 ++ inflight q2.
Proof. unfold inflight. by rewrite filter_app, fmap_app. Qed.
Lemma Zlen_commands (q : list async_looper_command) : Zlen (concat (map encode q)) = Zlen q * sizeof.
Proof.
  induction q as [|c q IH]; cbn [map concat]; [done|]. rewrite Zlen_app, encode_length, IH. zlen. lia.
Qed.

(** Reading the clock and storing the fields of an event do not matter. *)
Lemma inv_same pool a a' free events queue lost :
  inv pool a free events queue lost -> a_heap a' = a_heap a -> a_rb a' = a_rb a -> a_count a' = a_count a -> a_lock a' = a_lock a ->
  (forall e, e ∈ pool -> is_Some (a_events a' !! e)) -> inv pool a' free events queue lost.
Proof. intros [] Eh Er Ec El He. split; rewrite ?Eh, ?Er, ?Ec, ?El; done. Qed.

(** A list operation that the list library knows. *)
Lemma inv_exec pool a free events queue lost free' events' lost' op F' :
  inv pool a free events queue lost ->
  abs_step (lists free events, list_to_set (inflight queue ++ lost)) op (lists free' events', F') ->
  (list_to_set (inflight queue ++ lost') : gset Z) ⊆ F' ->
  free' ++ events' ++ lost' ≡ₚ free ++ events ++ lost ->
  exists h', exec op (a_heap a) = Ok h' /\ inv pool (set_heap h' a) free' events' queue lost'.
Proof.
  intros [] Hop HF HP. destruct (exec_step _ _ _ _ _ _ inv_rep0 Hop) as (h' & E & Hr).
  exists h'. split; [done|]. split; try done; cbn [a_heap set_heap].
  - by eapply rep_weaken.
  - rewrite <- inv_perm0. rewrite !(Permutation_app_comm (inflight queue)), !app_assoc. apply Permutation_app_tail.
    by rewrite <- !app_assoc.
Qed.

(** No event is in two places. *)
Lemma inv_disjoint pool a free events queue lost : inv pool a free events queue lost -> NoDup (free ++ events ++ inflight queue ++ lost).
Proof. intros []. by rewrite inv_perm0. Qed.
Lemma inv_in_pool pool a free events queue lost e : inv pool a free events queue lost ->
  e ∈ free \/ e ∈ events \/ e ∈ inflight queue \/ e ∈ lost -> e ∈ pool.
Proof. intros [] He. rewrite <- inv_perm0, !elem_of_app. tauto. Qed.
Lemma inv_event pool a free events queue lost e : inv pool a free events queue lost -> e ∈ pool ->
  exists x, get_event e a = Ok (a, x) /\ forall y, exists a', put_event e y a = Ok (a', tt) /\ inv pool a' free events queue lost.
Proof.
  intros Hi He. destruct (inv_events _ _ _ _ _ _ Hi e He) as [x Ex]. exists x. unfold get_event, put_event. rewrite Ex. split; [done|].
  intros y. eexists. split; [done|]. apply (inv_same pool a); try done. intros e' He'. cbn.
  destruct (decide (e = e')) as [<- | Hn]; [rewrite lookup_insert_eq by done; eauto|].
  rewrite lookup_insert_ne by done. by apply (inv_events _ _ _ _ _ _ Hi).
Qed.

(** *** The list operations of the loop *)
Lemma inv_take pool a e free events queue lost : inv pool a (e :: free) events queue lost ->
  exists a', on_heap (fun h => list_del h e) a = Ok (a', tt) /\ inv pool a' free events queue (e :: lost).
Proof.
  intros Hi. pose proof (abs_del _ (list_to_set (inflight queue ++ lost)) e FREE [] free (lists_FREE (e :: free) events)) as Hop.
  rewrite lists_set_FREE in Hop.
  destruct (inv_exec _ _ _ _ _ _ free events (e :: lost) _ _ Hi Hop) as (h & E & Hi').
  - intros p. rewrite elem_of_union, !elem_of_list_to_set, !elem_of_app, elem_of_cons. set_solver.
  - solve_Permutation.
  - exists (set_heap h a). unfold on_heap. cbn [exec] in E. by rewrite E.
Qed.

Lemma inv_add_subset pool a e free events queue lost : inv pool a free events queue (e :: lost) ->
  (list_to_set (inflight queue ++ lost) : gset Z) ⊆ list_to_set (inflight queue ++ e :: lost) ∖ {[e]}.
Proof.
  intros Hi%inv_disjoint. rewrite app_assoc in Hi. apply NoDup_app in Hi as (_ & _ & Hn).
  rewrite <- Permutation_middle in Hn. apply NoDup_cons in Hn as [He _]. intros p Hp. apply elem_of_difference. split; set_solver.
Qed.
Lemma inv_add_FREE pool a e free events queue lost : inv pool a free events queue (e :: lost) ->
  exists a', on_heap (fun h => list_add h e FREE) a = Ok (a', tt) /\ inv pool a' (e :: free) events queue lost.
Proof.
  intros Hi. pose proof (abs_add _ (list_to_set (inflight queue ++ e :: lost)) e FREE _ (lists_FREE free events) ltac:(set_solver)) as Hop.
  rewrite lists_set_FREE in Hop.
  destruct (inv_exec _ _ _ _ _ _ (e :: free) events lost _ _ Hi Hop) as (h & E & Hi').
  - by eapply inv_add_subset.
  - solve_Permutation.
  - exists (set_heap h a). unfold on_heap. cbn [exec] in E. by rewrite E.
Qed.
Lemma inv_add_EVENTS pool a e free events queue lost : inv pool a free events queue (e :: lost) ->
  exists a', on_heap (fun h => list_add h e EVENTS) a = Ok (a', tt) /\ inv pool a' free (e :: events) queue lost.
Proof.
  intros Hi. pose proof (abs_add _ (list_to_set (inflight queue ++ e :: lost)) e EVENTS _ (lists_EVENTS free events) ltac:(set_solver)) as Hop.
  rewrite lists_set_EVENTS in Hop.
  destruct (inv_exec _ _ _ _ _ _ free (e :: events) lost _ _ Hi Hop) as (h & E & Hi').
  - by eapply inv_add_subset.
  - solve_Permutation.
  - exists (set_heap h a). unfold on_heap. cbn [exec] in E. by rewrite E.
Qed.
Lemma inv_move pool a e free l1 l2 queue lost : inv pool a free (l1 ++ e :: l2) queue lost ->
  exists a', on_heap (fun h => list_move h e FREE) a = Ok (a', tt) /\ inv pool a' (e :: free) (l1 ++ l2) queue lost.
Proof.
  intros Hi.
  pose proof (abs_move _ (list_to_set (inflight queue ++ lost)) e EVENTS _ _ FREE free (lists_EVENTS free (l1 ++ e :: l2))) as Hop.
  rewrite lists_set_EVENTS in Hop. specialize (Hop (lists_FREE _ _)). rewrite lists_set_FREE in Hop.
  destruct (inv_exec _ _ _ _ _ _ (e :: free) (l1 ++ l2) lost _ _ Hi Hop) as (h & E & Hi'); [done|solve_Permutation|].
  exists (set_heap h a). unfold on_heap. cbn [exec] in E. by rewrite E.
Qed.
Lemma inv_splice pool a free events queue lost : inv pool a free events queue lost ->
  exists a', async_event_free_all a = Ok (a', tt) /\ inv pool a' (events ++ free) [] queue lost.
Proof.
  intros Hi.
  pose proof (abs_splice_init _ (list_to_set (inflight queue ++ lost)) EVENTS _ FREE _ (lists_EVENTS free events) (lists_FREE free events) ltac:(done)) as Hop.
  rewrite lists_set_FREE, lists_set_EVENTS in Hop.
  destruct (inv_exec _ _ _ _ _ _ (events ++ free) [] lost _ _ Hi Hop) as (h & E & Hi'); [done|solve_Permutation|].
  exists (set_heap h a). unfold async_event_free_all, on_heap. cbn [exec] in E. by rewrite E.
Qed.

(** What the lists say about the next pointers. *)
Lemma inv_first pool a free events queue lost : inv pool a free events queue lost ->
  get_next (a_heap a) EVENTS = Ok (hd EVENTS events) /\ get_next (a_heap a) FREE = Ok (hd FREE free) /\
  list_empty (a_heap a) FREE = Ok (bool_decide (free = [])).
Proof.
  intros [(Hc & _) _ _ _ _ _ _ _ _]. split_and!.
  - by apply get_next_cyc, Hc, lists_EVENTS.
  - by apply get_next_cyc, Hc, lists_FREE.
  - by apply list_empty_cyc, Hc, lists_FREE.
Qed.
Lemma inv_next pool a free l1 e l2 queue lost : inv pool a free (l1 ++ e :: l2) queue lost -> get_next (a_heap a) e = Ok (hd EVENTS l2).
Proof.
  intros [(Hc & _) _ _ _ _ _ _ _ _]. specialize (Hc EVENTS _ (lists_EVENTS _ _)). apply cyc_rotate in Hc.
  rewrite (get_next_cyc _ _ _ Hc). by destruct l2.
Qed.
Lemma inv_heads pool a free events queue lost : inv pool a free events queue lost -> EVENTS ∉ events /\ FREE ∉ free.
Proof.
  intros [(Hc & _) _ _ _ _ _ _ _ _].
  split; [destruct (Hc EVENTS _ (lists_EVENTS _ _)) as [_ Hn]|destruct (Hc FREE _ (lists_FREE _ _)) as [_ Hn]]; by apply NoDup_cons in Hn as [? _].
Qed.

(** *** The command queue *)
Hypothesis sem_enough : 100 <= sem_limit.

Lemma inv_notify pool a free events queue lost c lost' : inv pool a free events queue lost -> command_ok c ->
  inflight [c] ++ lost' ≡ₚ lost ->
  exists a' r, async_notify_loop c a = Ok (a', r) /\
    (r = 1 /\ inv pool a' free events (queue ++ [c]) lost' \/
     r = 0 /\ inv pool a' free events queue lost /\ 100 < (Zlen queue + 1) * sizeof).
Proof.
  intros Hi Hc HP. pose proof Hi as [Hr Hperm Hnd Hptr Hev Hq Hcs Hcount [l Hl]]. pose proof sizeof_range as Hs.
  pose proof (repr_len _ _ _ Hq) as Hlen. rewrite Zlen_commands in Hlen. pose proof Hq as ([] & Hcap & _).
  unfold async_notify_loop, os_lock_mutex. rewrite Hl. cbn [mbind res_bind]. unfold ringbuffer_write, guard_valid, rb_write.
  rewrite Hcap, Hlen. destruct (Z.ltb_spec (100 - Zlen queue * sizeof) sizeof) as [Hfull | Hroom].
  - cbn [mbind res_bind]. rewrite (proj2 (Z.eqb_neq 0 sizeof)) by lia. cbn [negb default].
    eexists _, 0. split; [done|]. right. split; [done|]. split; [by apply (inv_same pool a)|lia].
  - destruct (rb_try_write_spec (a_rb a) 100 _ (Some (encode c, 0)) (encode c) Hq) as (rb' & E & Hq').
    { apply points_src. }
    { rewrite encode_length. lia. }
    rewrite Zlen_commands, encode_length in E, Hq'. rewrite Z.min_l in E, Hq' by lia.
    rewrite E. cbn [mbind res_bind]. rewrite Z.eqb_refl. cbn [negb default from_option id]. unfold os_post_sem. cbn [a_count set_queue a_rb].
    rewrite (proj2 (Z.ltb_lt (a_count a) sem_limit)) by nia. eexists _, 1. split; [done|]. left. split; [done|].
    assert (inflight (queue ++ [c]) ++ lost' ≡ₚ inflight queue ++ lost) as HP'.
    { rewrite inflight_app, <- HP. by rewrite <- app_assoc. }
    split; cbn; try done.
    + eapply rep_weaken; [exact Hr|]. intros p. rewrite !elem_of_list_to_set. by rewrite HP'.
    + by rewrite HP'.
    + rewrite map_app, concat_app. cbn [map concat]. rewrite app_nil_r.
      rewrite firstn_all2 in Hq'; [done|]. pose proof (encode_length c). unfold Zlen in *. lia.
    + apply Forall_app. by split; [|apply Forall_singleton].
    + rewrite Hcount. zlen. lia.
Qed.

(** Taking a command: while less than a command's room is left in the queue,
    [ringbuffer_read] refuses and the whole queue is dropped. *)
Lemma inv_take_command pool a free events c queue lost junk : inv pool a free events (c :: queue) lost ->
  let b := set_queue (a_rb a) (a_count a - 1) a in
  exists a', (100 < (Zlen queue + 2) * sizeof /\ take_command junk b = Ok (a', None) /\ inv pool a' free events [] (inflight (c :: queue) ++ lost)) \/
    ((Zlen queue + 2) * sizeof <= 100 /\ take_command junk b = Ok (a', Some c) /\ inv pool a' free events queue (inflight [c] ++ lost)).
Proof.
  intros Hi. cbv zeta. pose proof Hi as [Hr Hperm Hnd Hptr Hev Hq Hcs Hcount [l Hl]]. pose proof sizeof_range as Hs.
  pose proof (repr_len _ _ _ Hq) as Hlen. rewrite Zlen_commands, Zlen_cons in Hlen. pose proof Hq as ([] & Hcap & _).
  unfold take_command, os_lock_mutex. cbn [a_lock set_queue]. rewrite Hl. cbn [mbind res_bind a_rb set_queue].
  unfold ringbuffer_read, guard_valid, rb_read. rewrite Hcap, Hlen.
  destruct (Z.ltb_spec (100 - (1 + Zlen queue) * sizeof) sizeof) as [Hfull | Hroom]; cbn [mbind res_bind].
  - rewrite (proj2 (Z.eqb_neq sizeof 0)) by lia. cbn [negb]. unfold os_clear_sem. cbn [mbind res_bind default from_option id].
    eexists. left. split; [lia|]. split; [done|]. split; cbn; try done. by eapply rb_clear_spec.
  - destruct (rb_try_read_spec (a_rb a) 100 _ (Some (replicate (Z.to_nat sizeof) junk, 0)) sizeof Hq) as (rb' & E & Hq').
    { pow2_norm. lia. }
    { cbn. zlen. lia. }
    rewrite Zlen_commands, Zlen_cons, Z.min_l in E, Hq' by (pose proof (Zlen_nonneg queue); nia).
    cbn [map concat] in E, Hq'.
    assert (Z.to_nat sizeof = length (encode c)) as Hn by (pose proof (encode_length c); unfold Zlen in *; lia).
    rewrite take_app_length' in E by done. rewrite drop_app_length' in Hq' by done.
    rewrite E. cbn [mbind res_bind written]. rewrite Z.eqb_refl. cbn [negb default from_option id].
    assert (overwrite (replicate (Z.to_nat sizeof) junk) 0 (encode c) = encode c) as ->.
    { unfold overwrite. rewrite drop_ge; [by rewrite app_nil_r|]. rewrite length_replicate. lia. }
    apply Forall_cons in Hcs as [(Ht & Hp1 & Hp2) Hcs]. rewrite decode_encode by done.
    eexists. right. split; [lia|]. split; [done|].
    assert (inflight queue ++ inflight [c] ++ lost ≡ₚ inflight (c :: queue) ++ lost) as HP.
    { change (c :: queue) with ([c] ++ queue). rewrite inflight_app. solve_Permutation. }
    split; cbn; try done.
    + eapply rep_weaken; [exact Hr|]. intros p. rewrite !elem_of_list_to_set. by rewrite HP.
    + by rewrite HP.
    + rewrite Hcount. zlen. lia.
Qed.

(** *** The operations of the tasks *)
Lemma in_heap_Ok {A} (f : store -> res A) a x : f (a_heap a) = Ok x -> in_heap f a = Ok (a, x).
Proof. intros E. unfold in_heap. by rewrite E. Qed.
Definition full (queue : list async_looper_command) : Prop := 100 < (Zlen queue + 1) * sizeof.

Lemma inv_register pool a free events queue lost f t d junk : inv pool a free events queue lost -> is_pointer junk ->
  exists a' r free' queue', async_event_register f t d junk a = Ok (a', r) /\ inv pool a' free' events queue' lost /\
    (r = 0 /\ free' = free /\ queue' = queue /\ (free = [] \/ full queue) \/
     free = r :: free' /\ queue' = queue ++ [MkCmd LOOPER_COMMAND_TYPE_ADD_EVENT r junk]).
Proof.
  intros Hi Hj. destruct (inv_first _ _ _ _ _ _ Hi) as (_ & Hf & He).
  unfold async_event_register. rewrite (M_bind_Ok _ _ _ _ _ (in_heap_Ok (fun h => list_empty h FREE) _ _ He)).
  destruct free as [|e free].
  { rewrite bool_decide_eq_true_2 by done. exists a, 0, [], queue. split; [done|]. split; [done|]. auto 6. }
  rewrite bool_decide_eq_false_2 by done. rewrite (M_bind_Ok _ _ _ _ _ (in_heap_Ok (fun h => get_next h FREE) _ _ Hf)). cbn [hd].
  assert (e ∈ pool) as Hp by (eapply inv_in_pool; [done|left; left]).
  assert (is_pointer e) as Hpe by (eapply Forall_forall; [apply (inv_pointers _ _ _ _ _ _ Hi)|done]).
  destruct (inv_take _ _ _ _ _ _ _ Hi) as (a1 & E1 & Hi1). rewrite (M_bind_Ok _ _ _ _ _ E1).
  destruct (inv_event _ _ _ _ _ _ e Hi1 Hp) as (x & E2 & Hput). rewrite (M_bind_Ok _ _ _ _ _ E2).
  destruct (Hput (MkEvent f t (next_timestamp x) d)) as (a2 & E3 & Hi2). rewrite (M_bind_Ok _ _ _ _ _ E3).
  destruct (inv_notify _ _ _ _ _ _ (MkCmd LOOPER_COMMAND_TYPE_ADD_EVENT e junk) lost Hi2) as (a3 & r & E4 & [[-> Hi3] | (-> & Hi3 & Hfull)]); [by split_and!|done|..].
  - rewrite (M_bind_Ok _ _ _ _ _ E4). exists a3, e, free. eexists. split; [done|]. split; [done|]. by right.
  - rewrite (M_bind_Ok _ _ _ _ _ E4). cbn [ctrue].
    destruct (inv_add_FREE _ _ _ _ _ _ _ Hi3) as (a4 & E5 & Hi4). change (ctrue 0) with false. cbv iota. rewrite (M_bind_Ok _ _ _ _ _ E5).
    exists a4, 0. do 2 eexists. split; [done|]. split; [done|]. left. auto 6.
Qed.

(** *** The operations of the loop

    What is required of the application's callbacks: they return, and what
    they do to the event system is what its operations do. The loop's list is
    the loop's own. *)
Hypothesis callback_keeps : forall pool a free events queue lost f e d,
  inv pool a free events queue lost -> e ∈ pool ->
  exists a' rc free' queue', callback f e d a = Ok (a', rc) /\ inv pool a' free' events queue' lost.

Lemma inv_time pool a free events queue lost : inv pool a free events queue lost ->
  exists a' t, os_get_time a = Ok (a', t) /\ inv pool a' free events queue lost.
Proof. intros Hi. do 2 eexists. split; [done|]. apply (inv_same pool a); try done. by apply (inv_events _ _ _ _ _ _ Hi). Qed.

Lemma inv_check_timestamp pool a free events queue lost e recent : inv pool a free events queue lost -> e ∈ pool ->
  exists r, check_timestamp e recent a = Ok (a, r).
Proof.
  intros Hi Hp. destruct (inv_event _ _ _ _ _ _ e Hi Hp) as (x & Ex & _).
  unfold check_timestamp. rewrite (M_bind_Ok _ _ _ _ _ Ex). by eexists.
Qed.

(** One event of the walk: it stays in the list or goes to the free list. *)
Lemma inv_exec_timeout_event pool a free l1 e l2 queue lost now recent : inv pool a free (l1 ++ e :: l2) queue lost ->
  exists a' r free' l1' queue', exec_timeout_event e now recent a = Ok (a', r) /\ inv pool a' free' (l1' ++ l2) queue' lost.
Proof.
  intros Hi. assert (e ∈ pool) as Hp by (eapply inv_in_pool; [done|right; left; set_solver]).
  destruct (inv_event _ _ _ _ _ _ e Hi Hp) as (x & Ex & _). unfold exec_timeout_event. rewrite (M_bind_Ok _ _ _ _ _ Ex).
  destruct (now <? next_timestamp x).
  { destruct (inv_check_timestamp _ _ _ _ _ _ e recent Hi Hp) as [r ->]. exists a, r, free, (l1 ++ [e]), queue. by rewrite <- app_assoc. }
  destruct (callback_keeps _ _ _ _ _ _ (cb x) e ASYNC_EVENT_ADDITION_DATA_TIMEOUT Hi Hp) as (a1 & rc & free1 & queue1 & E1 & Hi1).
  rewrite (M_bind_Ok _ _ _ _ _ E1). destruct (rc =? 0).
  - destruct (inv_move _ _ _ _ _ _ _ _ Hi1) as (a2 & E2 & Hi2). rewrite (M_bind_Ok _ _ _ _ _ E2). eexists a2, _, _, l1, _. by split.
  - destruct (inv_event _ _ _ _ _ _ e Hi1 Hp) as (y & Ey & Hput). rewrite (M_bind_Ok _ _ _ _ _ Ey).
    destruct (Hput (MkEvent (cb y) (timeout y) (u32 (now + timeout y)) (dat y))) as (a2 & E2 & Hi2). rewrite (M_bind_Ok _ _ _ _ _ E2).
    destruct (inv_check_timestamp _ _ _ _ _ _ e recent Hi2 Hp) as [r ->]. exists a2, r, free1, (l1 ++ [e]), queue1. by rewrite <- app_assoc.
Qed.

Lemma inv_next_hd pool a free l1 l2 queue lost : inv pool a free (l1 ++ l2) queue lost ->
  exists n, get_next (a_heap a) (hd EVENTS l2) = Ok n /\ (l2 <> [] -> n = hd EVENTS (tail l2)).
Proof.
  intros Hi. destruct l2 as [|e l2]; cbn [hd tail].
  - destruct (inv_first _ _ _ _ _ _ Hi) as (E & _). eexists. by split.
  - pose proof (inv_next _ _ _ _ _ _ _ _ Hi) as E. eexists. by split.
Qed.
Lemma inv_exec_timeout_loop pool lost now rest : forall l1 free queue a n recent fuel,
  inv pool a free (l1 ++ rest) queue lost -> (length rest < fuel)%nat -> (rest <> [] -> n = hd EVENTS (tail rest)) ->
  exists a' r free' events' queue', exec_timeout_loop fuel (hd EVENTS rest) n now recent a = Ok (a', r) /\
    inv pool a' free' events' queue' lost.
Proof.
  induction rest as [|e rest IH]; intros l1 free queue a n recent [|fuel] Hi Hf Hn; cbn [length] in Hf; try lia;
    cbn [exec_timeout_loop hd].
  { rewrite Z.eqb_refl. exists a, recent. do 3 eexists. by split. }
  rewrite Hn by done. cbn [tail]. destruct (inv_heads _ _ _ _ _ _ Hi) as [He _].
  rewrite (proj2 (Z.eqb_neq e EVENTS)) by (intros ->; apply He; set_solver).
  destruct (inv_exec_timeout_event _ _ _ _ _ _ _ _ now recent Hi) as (a1 & r & free1 & l1' & queue1 & E1 & Hi1).
  rewrite (M_bind_Ok _ _ _ _ _ E1).
  destruct (inv_next_hd _ _ _ _ _ _ _ Hi1) as (nn & E2 & Hnn).
  rewrite (M_bind_Ok _ _ _ _ _ (in_heap_Ok (fun h => get_next h (hd EVENTS rest)) _ _ E2)).
  apply (IH l1' free1 queue1); [done|lia|done].
Qed.
Lemma inv_exec_timeout pool a free events queue lost fuel : inv pool a free events queue lost -> (length events < fuel)%nat ->
  exists a' r free' events' queue', async_event_exec_timeout fuel a = Ok (a', r) /\ inv pool a' free' events' queue' lost.
Proof.
  intros Hi Hf. destruct (inv_time _ _ _ _ _ _ Hi) as (a1 & t & E1 & Hi1).
  unfold async_event_exec_timeout. rewrite (M_bind_Ok _ _ _ _ _ E1). destruct (inv_first _ _ _ _ _ _ Hi1) as (E2 & _).
  rewrite (M_bind_Ok _ _ _ _ _ (in_heap_Ok (fun h => get_next h EVENTS) _ _ E2)).
  destruct (inv_next_hd _ _ _ [] events _ _ Hi1) as (n & E3 & Hn).
  rewrite (M_bind_Ok _ _ _ _ _ (in_heap_Ok (fun h => get_next h (hd EVENTS events)) _ _ E3)).
  by apply (inv_exec_timeout_loop _ _ _ events [] free queue).
Qed.

(** The search finds an event exactly when it is in the looper's list. *)
Lemma inv_find_event pool free queue lost a e rest : forall l1 n fuel,
  inv pool a free (l1 ++ rest) queue lost -> (length rest < fuel)%nat -> (rest <> [] -> n = hd EVENTS (tail rest)) ->
  find_event fuel (hd EVENTS rest) n e a = Ok (a, bool_decide (e ∈ rest)).
Proof.
  induction rest as [|p rest IH]; intros l1 n [|fuel] Hi Hf Hn; cbn [length] in Hf; try lia; cbn [find_event hd].
  { by rewrite Z.eqb_refl. }
  rewrite Hn by done. cbn [tail]. destruct (inv_heads _ _ _ _ _ _ Hi) as [He _].
  rewrite (proj2 (Z.eqb_neq p EVENTS)) by (intros ->; apply He; set_solver).
  destruct (Z.eqb_spec p e) as [-> | Hne].
  { rewrite bool_decide_eq_true_2 by left. done. }
  rewrite (cons_middle p) , app_assoc in Hi. destruct (inv_next_hd _ _ _ _ _ _ _ Hi) as (nn & E & Hnn).
  rewrite (M_bind_Ok _ _ _ _ _ (in_heap_Ok (fun h => get_next h (hd EVENTS rest)) _ _ E)).
  rewrite (IH _ nn fuel Hi) by (done || lia). do 2 f_equal. apply bool_decide_ext. set_solver.
Qed.
Lemma inv_is_in_list pool a free events queue lost e fuel : inv pool a free events queue lost -> (length events < fuel)%nat ->
  is_in_list fuel e a = Ok (a, bool_decide (e ∈ events)).
Proof.
  intros Hi Hf. unfold is_in_list. destruct (inv_first _ _ _ _ _ _ Hi) as (E1 & _).
  rewrite (M_bind_Ok _ _ _ _ _ (in_heap_Ok (fun h => get_next h EVENTS) _ _ E1)).
  destruct (inv_next_hd _ _ _ [] events _ _ Hi) as (n & E2 & Hn).
  rewrite (M_bind_Ok _ _ _ _ _ (in_heap_Ok (fun h => get_next h (hd EVENTS events)) _ _ E2)).
  by apply (inv_find_event pool free queue lost a e events []).
Qed.

Lemma inv_free pool a free events queue lost e fuel : inv pool a free events queue lost -> (length events < fuel)%nat ->
  exists a' free' events', async_event_free_from_looper_event_list fuel e a = Ok (a', tt) /\ inv pool a' free' events' queue lost /\
    e ∉ events'.
Proof.
  intros Hi Hf. unfold async_event_free_from_looper_event_list. rewrite (M_bind_Ok _ _ _ _ _ (inv_is_in_list _ _ _ _ _ _ e _ Hi Hf)).
  destruct (decide (e ∈ events)) as [Hin | Hin].
  - rewrite bool_decide_eq_true_2 by done. apply list_elem_of_split in Hin as (l1 & l2 & ->).
    destruct (inv_move _ _ _ _ _ _ _ _ Hi) as (a' & E & Hi'). rewrite E. do 3 eexists. split; [done|]. split; [done|].
    intros Hin. apply inv_disjoint, NoDup_cons in Hi' as [Hn _]. set_solver.
  - rewrite bool_decide_eq_false_2 by done. do 3 eexists. by split_and!.
Qed.

Lemma inv_exec_trigger pool a free events queue lost e d fuel : inv pool a free events queue lost -> (length events < fuel)%nat ->
  exists a' r free' events' queue', async_event_exec_trigger fuel e d a = Ok (a', r) /\ inv pool a' free' events' queue' lost.
Proof.
  intros Hi Hf. unfold async_event_exec_trigger. rewrite (M_bind_Ok _ _ _ _ _ (inv_is_in_list _ _ _ _ _ _ e _ Hi Hf)).
  destruct (decide (e ∈ events)) as [Hin | Hin].
  2: { rewrite bool_decide_eq_false_2 by done. do 5 eexists. by split. }
  rewrite bool_decide_eq_true_2 by done. cbn [negb]. apply list_elem_of_split in Hin as (l1 & l2 & ->).
  assert (e ∈ pool) as Hp by (eapply inv_in_pool; [done|right; left; set_solver]).
  destruct (inv_event _ _ _ _ _ _ e Hi Hp) as (x & Ex & _). rewrite (M_bind_Ok _ _ _ _ _ Ex).
  destruct (callback_keeps _ _ _ _ _ _ (cb x) e d Hi Hp) as (a1 & rc & free1 & queue1 & E1 & Hi1).
  rewrite (M_bind_Ok _ _ _ _ _ E1). destruct (rc =? 0).
  { destruct (inv_move _ _ _ _ _ _ _ _ Hi1) as (a2 & E2 & Hi2). rewrite (M_bind_Ok _ _ _ _ _ E2). do 5 eexists. by split. }
  destruct (inv_time _ _ _ _ _ _ Hi1) as (a2 & t & E2 & Hi2). rewrite (M_bind_Ok _ _ _ _ _ E2).
  destruct (inv_event _ _ _ _ _ _ e Hi2 Hp) as (y & Ey & Hput). rewrite (M_bind_Ok _ _ _ _ _ Ey).
  destruct (Hput (MkEvent (cb y) (timeout y) (u32 (t + timeout y)) (dat y))) as (a3 & E3 & Hi3). rewrite (M_bind_Ok _ _ _ _ _ E3).
  destruct (inv_event _ _ _ _ _ _ e Hi3 Hp) as (z & Ez & _). rewrite (M_bind_Ok _ _ _ _ _ Ez). do 5 eexists. by split.
Qed.

(** Adding the event of an ADD command that was just taken. *)
Lemma inv_add pool a free events queue lost e : inv pool a free events queue (e :: lost) ->
  exists a' r free' events' queue', async_event_add_to_looper_event_list e a = Ok (a', r) /\ inv pool a' free' events' queue' lost.
Proof.
  intros Hi. assert (e ∈ pool) as Hp by (eapply inv_in_pool; [done|right; right; right; left]).
  destruct (inv_event _ _ _ _ _ _ e Hi Hp) as (x & Ex & _). unfold async_event_add_to_looper_event_list. rewrite (M_bind_Ok _ _ _ _ _ Ex).
  assert (exists a1 rc free1 queue1, (if timeout x =? 0 then callback (cb x) e ASYNC_EVENT_ADDITION_DATA_TIMEOUT else mret 1) a = Ok (a1, rc) /\
    inv pool a1 free1 events queue1 (e :: lost)) as (a1 & rc & free1 & queue1 & E1 & Hi1).
  { destruct (timeout x =? 0); [by apply (callback_keeps _ _ _ _ _ _ _ _ _ Hi)|]. exists a, 1, free, queue. by split. }
  rewrite (M_bind_Ok _ _ _ _ _ E1). destruct (rc =? 0).
  { destruct (inv_add_FREE _ _ _ _ _ _ _ Hi1) as (a2 & E2 & Hi2). rewrite (M_bind_Ok _ _ _ _ _ E2). do 5 eexists. by split. }
  destruct (inv_time _ _ _ _ _ _ Hi1) as (a2 & t & E2 & Hi2). rewrite (M_bind_Ok _ _ _ _ _ E2).
  destruct (inv_event _ _ _ _ _ _ e Hi2 Hp) as (y & Ey & Hput). rewrite (M_bind_Ok _ _ _ _ _ Ey).
  destruct (Hput (MkEvent (cb y) (timeout y) (u32 (t + timeout y)) (dat y))) as (a3 & E3 & Hi3). rewrite (M_bind_Ok _ _ _ _ _ E3).
  destruct (inv_add_EVENTS _ _ _ _ _ _ _ Hi3) as (a4 & E4 & Hi4). rewrite (M_bind_Ok _ _ _ _ _ E4).
  destruct (inv_event _ _ _ _ _ _ e Hi4 Hp) as (z & Ez & _). rewrite (M_bind_Ok _ _ _ _ _ Ez). do 5 eexists. by split.
Qed.

(** *** A round of the loop *)

(** The state the loop leaves when it returns: the looper's lock and
    semaphore are gone and its events are on the free list. *)
Definition returned_with (pool : list Z) (a : async) (lost : list Z) : Prop :=
  exists b free queue, a = set_handles None None b /\ inv pool b free [] queue lost.
Definition running_with (pool : list Z) (a : async) (lost : list Z) : Prop := exists free events queue, inv pool a free events queue lost.
Definition outcome_with (pool : list Z) (a : async) (r : option Z) (lost : list Z) : Prop :=
  match r with Some _ => running_with pool a lost | None => returned_with pool a lost end.
Definition returned (pool : list Z) (a : async) : Prop :=
  exists b free queue lost, a = set_handles None None b /\ inv pool b free [] queue lost.
Definition running (pool : list Z) (a : async) : Prop := exists lost, running_with pool a lost.
Definition outcome (pool : list Z) (a : async) (r : option Z) : Prop :=
  match r with Some _ => running pool a | None => returned pool a end.

Lemma running_inv pool a free events queue lost : inv pool a free events queue lost -> running_with pool a lost.
Proof. intros Hi. by do 3 eexists. Qed.

Lemma inv_length pool a free events queue lost : inv pool a free events queue lost -> (length events <= length pool)%nat.
Proof. intros []. rewrite <- inv_perm0, !length_app. lia. Qed.

Lemma inv_dispatch pool a free events queue lost c ts fuel : inv pool a free events queue (inflight [c] ++ lost) -> command_ok c ->
  (length pool < fuel)%nat -> exists a' r, dispatch fuel c ts a = Ok (a', r) /\ outcome_with pool a' r lost.
Proof.
  intros Hi Hc Hf. pose proof (inv_length _ _ _ _ _ _ Hi) as Hl. unfold dispatch.
  assert (type c <> LOOPER_COMMAND_TYPE_ADD_EVENT -> inv pool a free events queue lost) as Hno.
  { intros Hn. assert (inflight [c] = []) as Ec by (unfold inflight; by rewrite filter_cons_False). by rewrite Ec in Hi. }
  destruct (Z.eqb_spec (type c) LOOPER_COMMAND_TYPE_TRIGGER_CALL) as [Et | Et].
  { destruct (inv_exec_trigger _ _ _ _ _ _ (cmd_event c) (addition_data c) fuel (Hno ltac:(by rewrite Et))) as (a' & r & free' & events' & queue' & E & Hi'); [lia|].
    rewrite (M_bind_Ok _ _ _ _ _ E). do 2 eexists. split; [done|]. by eapply running_inv. }
  destruct (Z.eqb_spec (type c) LOOPER_COMMAND_TYPE_ADD_EVENT) as [Ea | Ea].
  { assert (inflight [c] = [cmd_event c]) as Ec by (unfold inflight; by rewrite filter_cons_True). rewrite Ec in Hi. cbn [app] in Hi.
    destruct (inv_add _ _ _ _ _ _ _ Hi) as (a' & r & free' & events' & queue' & E & Hi').
    rewrite (M_bind_Ok _ _ _ _ _ E). do 2 eexists. split; [done|]. by eapply running_inv. }
  destruct (Z.eqb_spec (type c) LOOPER_COMMAND_TYPE_CANCEL_EVENT) as [Ec | Ec].
  { destruct (inv_free _ _ _ _ _ _ (cmd_event c) fuel (Hno Ea)) as (a' & free' & events' & E & Hi' & _); [lia|].
    rewrite (M_bind_Ok _ _ _ _ _ E). do 2 eexists. split; [done|]. by eapply running_inv. }
  destruct (Z.eqb_spec (type c) LOOPER_COMMAND_TYPE_EXIT) as [Ee | Ee].
  { destruct (inv_splice _ _ _ _ _ _ (Hno Ea)) as (a' & E & Hi'). rewrite (M_bind_Ok _ _ _ _ _ E). do 2 eexists. split; [done|].
    by do 3 eexists. }
  do 2 eexists. split; [done|]. by eapply running_inv, Hno.
Qed.

(** The timeouts that a round starts with. *)
Lemma inv_round_timeouts pool a free events queue lost ts now fuel : inv pool a free events queue lost -> (length events < fuel)%nat ->
  exists a' p free' events' queue',
    (if ts <=? now then next_timestamp ← async_event_exec_timeout fuel; now ← os_get_time; mret (next_timestamp, now)
     else mret (ts, now)) a = Ok (a', p) /\ inv pool a' free' events' queue' lost.
Proof.
  intros Hi Hf. destruct (ts <=? now); [|do 5 eexists; by split].
  destruct (inv_exec_timeout _ _ _ _ _ _ fuel Hi Hf) as (a2 & r & free2 & events2 & queue2 & E2 & Hi2). rewrite (M_bind_Ok _ _ _ _ _ E2).
  destruct (inv_time _ _ _ _ _ _ Hi2) as (a3 & t' & E3 & Hi3). rewrite (M_bind_Ok _ _ _ _ _ E3). do 5 eexists. by split.
Qed.

(** The rest of a round: waiting for the semaphore and taking a command. *)
Lemma inv_pend pool a free events queue lost wait : inv pool a free events queue lost ->
  queue = [] /\ os_pend_sem wait a = Ok (a, 0) \/
  queue <> [] /\ os_pend_sem wait a = Ok (set_queue (a_rb a) (a_count a - 1) a, 1).
Proof.
  intros [_ _ _ _ _ _ _ Hc _]. unfold os_pend_sem. rewrite Hc. destruct queue as [|c queue]; [by left|right]. split; [done|].
  rewrite (proj2 (Z.ltb_lt 0 _)); [done|]. zlen. pose proof (Zlen_nonneg queue). lia.
Qed.

(** A round up to the command: the timeouts and the wait. *)
Definition await_command (fuel : nat) (next_timestamp : Z) : M async (Z * Z) :=
  now ← os_get_time;
  '(next_timestamp, now) ←
    (if next_timestamp <=? now then
       next_timestamp ← async_event_exec_timeout fuel;
       now ← os_get_time; mret (next_timestamp, now)
     else mret (next_timestamp, now));
  got ← os_pend_sem (if next_timestamp <=? now then 1 else u32 (next_timestamp - now));
  mret (next_timestamp, got).
(** The queue that the round finds is so full that it is dropped: [lost'] are
    the events of its ADD commands. *)
Definition dropped (pool : list Z) (fuel : nat) (o : action) (ts : Z) (a : async) (lost lost' : list Z) : Prop :=
  exists junk b ts' free events queue, o = Round junk /\ await_command fuel ts a = Ok (set_queue (a_rb b) (a_count b - 1) b, (ts', 1)) /\
    inv pool b free events queue lost /\ queue <> [] /\ 100 < (Zlen queue + 1) * sizeof /\ lost' = inflight queue ++ lost.
Definition conserved (pool : list Z) (fuel : nat) (o : action) (ts : Z) (a : async) (lost : list Z) (a' : async) (r : option Z) : Prop :=
  outcome_with pool a' r lost \/ r <> None /\ exists lost', dropped pool fuel o ts a lost lost' /\ outcome_with pool a' r lost'.

Lemma inv_looper_round pool a free events queue lost ts junk fuel : inv pool a free events queue lost -> (length pool < fuel)%nat ->
  exists a' r, looper_round fuel junk ts a = Ok (a', r) /\ conserved pool fuel (Round junk) ts a lost a' r.
Proof.
  intros Hi Hf. pose proof (inv_length _ _ _ _ _ _ Hi) as Hl. unfold looper_round, conserved, dropped, await_command.
  destruct (inv_time _ _ _ _ _ _ Hi) as (a1 & now & E1 & Hi1). rewrite !(M_bind_Ok _ _ _ _ _ E1).
  destruct (inv_round_timeouts _ _ _ _ _ _ ts now fuel Hi1) as (a2 & [ts2 now2] & free2 & events2 & queue2 & E2 & Hi2); [lia|].
  rewrite !(M_bind_Ok _ _ _ _ _ E2). cbv beta iota zeta.
  destruct (inv_pend _ _ _ _ _ _ (if ts2 <=? now2 then 1 else u32 (ts2 - now2)) Hi2) as [[-> E3] | [Hq E3]]; rewrite !(M_bind_Ok _ _ _ _ _ E3).
  { do 2 eexists. split; [done|]. left. by eapply running_inv. }
  destruct queue2 as [|c queue2]; [done|]. change (0 =? 1) with false. cbv iota.
  pose proof (inv_commands _ _ _ _ _ _ Hi2) as [Hc _]%Forall_cons.
  destruct (inv_take_command _ _ _ _ _ _ _ junk Hi2) as (a3 & [(Hfull & E4 & Hi3) | (_ & E4 & Hi3)]); rewrite (M_bind_Ok _ _ _ _ _ E4).
  - do 2 eexists. split; [done|]. right. split; [done|]. exists (inflight (c :: queue2) ++ lost). split; [|by eapply running_inv].
    exists junk, a2, ts2, free2, events2, (c :: queue2). rewrite Zlen_cons. split_and!; try done. lia.
  - destruct (inv_dispatch _ _ _ _ _ _ c ts2 fuel Hi3 Hc Hf) as (a4 & r & E5 & Ho). exists a4, r. split; [done|]. by left.
Qed.

(** *** Whole runs *)

(** The calls tasks may make: on events of the pool. *)
Definition action_ok (pool : list Z) (o : action) : Prop :=
  match o with
  | Register _ _ _ junk | Exit junk => is_pointer junk
  | Trigger e _ junk | Cancel e junk => e ∈ pool /\ is_pointer junk
  | SetCallback e _ | SetTimeout e _ | SetData e _ | GetData e => e ∈ pool
  | Round _ => True
  end.

Lemma inv_send pool a free events queue lost t e junk (ts : Z) : inv pool a free events queue lost ->
  is_u8 t -> t <> LOOPER_COMMAND_TYPE_ADD_EVENT -> is_pointer e -> is_pointer junk ->
  exists a', ((_ ← async_notify_loop (MkCmd t e junk); mret (Some ts)) : M async (option Z)) a = Ok (a', Some ts) /\ running_with pool a' lost.
Proof.
  intros Hi Ht Hn He Hj. assert (inflight [MkCmd t e junk] = []) as Ei by (unfold inflight; by rewrite filter_cons_False).
  destruct (inv_notify _ _ _ _ _ _ (MkCmd t e junk) lost Hi) as (a' & r & E & H'); [by split_and!|by rewrite Ei|].
  rewrite (M_bind_Ok _ _ _ _ _ E). eexists. split; [done|]. destruct H' as [[_ Hi'] | (_ & Hi' & _)]; by eapply running_inv.
Qed.
Lemma inv_set pool a free events queue lost e (g : event -> event) (ts : Z) : inv pool a free events queue lost -> e ∈ pool ->
  exists a', ((_ ← (x ← get_event e; put_event e (g x)); mret (Some ts)) : M async (option Z)) a = Ok (a', Some ts) /\ running_with pool a' lost.
Proof.
  intros Hi Hp. destruct (inv_event _ _ _ _ _ _ e Hi Hp) as (x & Ex & Hput). destruct (Hput (g x)) as (a' & E & Hi').
  erewrite M_bind_Ok by (rewrite (M_bind_Ok _ _ _ _ _ Ex); exact E). eexists. split; [done|]. by eapply running_inv.
Qed.

Lemma running_act pool a lost o ts fuel : running_with pool a lost -> action_ok pool o -> (length pool < fuel)%nat ->
  exists a' r, act fuel o ts a = Ok (a', r) /\ conserved pool fuel o ts a lost a' r.
Proof.
  intros (free & events & queue & Hi) Ho Hf.
  assert (forall e, e ∈ pool -> is_pointer e) as Hptr by (apply Forall_forall, (inv_pointers _ _ _ _ _ _ Hi)).
  destruct o as [f t d junk|e d junk|e junk|e f|e t|e d|e|junk|junk]; cbn in Ho; cbn [act].
  - destruct (inv_register _ _ _ _ _ _ f t d junk Hi Ho) as (a' & r & free' & queue' & E & Hi' & _).
    rewrite (M_bind_Ok _ _ _ _ _ E). do 2 eexists. split; [done|]. left. by eapply running_inv.
  - destruct (inv_send _ _ _ _ _ _ LOOPER_COMMAND_TYPE_TRIGGER_CALL e junk ts Hi) as (a' & E & Hr); [done|done|by apply Hptr, Ho|by apply Ho|].
    do 2 eexists. split; [done|]. by left.
  - destruct (inv_send _ _ _ _ _ _ LOOPER_COMMAND_TYPE_CANCEL_EVENT e junk ts Hi) as (a' & E & Hr); [done|done|by apply Hptr, Ho|by apply Ho|].
    do 2 eexists. split; [done|]. by left.
  - destruct (inv_set _ _ _ _ _ _ e (fun x => MkEvent f (timeout x) (next_timestamp x) (dat x)) ts Hi Ho) as (a' & E & Hr). do 2 eexists. split; [done|]. by left.
  - destruct (inv_set _ _ _ _ _ _ e (fun x => MkEvent (cb x) t (next_timestamp x) (dat x)) ts Hi Ho) as (a' & E & Hr). do 2 eexists. split; [done|]. by left.
  - destruct (inv_set _ _ _ _ _ _ e (fun x => MkEvent (cb x) (timeout x) (next_timestamp x) d) ts Hi Ho) as (a' & E & Hr). do 2 eexists. split; [done|]. by left.
  - destruct (inv_event _ _ _ _ _ _ e Hi Ho) as (x & Ex & _). unfold async_event_get_data.
    erewrite M_bind_Ok by (rewrite (M_bind_Ok _ _ _ _ _ Ex); reflexivity). do 2 eexists. split; [done|]. left. by eapply running_inv.
  - destruct (inv_send _ _ _ _ _ _ LOOPER_COMMAND_TYPE_EXIT junk junk ts Hi) as (a' & E & Hr); [done..|]. do 2 eexists. split; [done|]. by left.
  - by eapply inv_looper_round.
Qed.

(** A whole run. At any time the events of the pool are on the free list, on
    the looper's list, in a queued ADD command, or among [lost]; [lost] grows
    only by the ADD commands of a queue that is dropped, and when the loop
    returns, the looper's list is empty and [lost] is what it was. *)
Fixpoint accounted (pool : list Z) (fuel : nat) (os : list action) (ts : Z) (a : async) (lost : list Z) : Prop :=
  running_with pool a lost /\
  match os with
  | [] => True
  | o :: os => exists a' r, act fuel o ts a = Ok (a', r) /\
    match r with
    | None => returned_with pool a' lost
    | Some ts' => accounted pool fuel os ts' a' lost \/
        exists lost', dropped pool fuel o ts a lost lost' /\ accounted pool fuel os ts' a' lost'
    end
  end.
Lemma running_run pool fuel os : (length pool < fuel)%nat -> Forall (action_ok pool) os -> forall a ts lost, running_with pool a lost ->
  accounted pool fuel os ts a lost.
Proof.
  intros Hf. induction 1 as [|o os Ho _ IH]; intros a ts lost Hr; cbn [accounted]; (split; [done|]); [done|].
  destruct (running_act _ _ _ _ ts _ Hr Ho Hf) as (a1 & r & E & Hc). exists a1, r. split; [done|].
  destruct r as [ts1|]; destruct Hc as [Hc | (Hn & lost' & Hd & Hc)]; try done; [left; by apply IH|right]. exists lost'. split; [done|by apply IH].
Qed.
Lemma accounted_run pool fuel os : forall a ts lost, accounted pool fuel os ts a lost -> exists a' r, run fuel os ts a = Ok (a', r) /\ outcome pool a' r.
Proof.
  induction os as [|o os IH]; intros a ts lost [Hr Ha]; cbn [run].
  { do 2 eexists. split; [done|]. by exists lost. }
  destruct Ha as (a1 & r & E & Hr1). rewrite (M_bind_Ok _ _ _ _ _ E). destruct r as [ts1|].
  - destruct Hr1 as [Hr1 | (lost' & _ & Hr1)]; by eapply IH.
  - destruct Hr1 as (b & free & queue & Eb & Hi). do 2 eexists. split; [done|]. by exists b, free, queue, lost.
Qed.

(** *** The start *)
Lemma init_events pool : forall a free, rep (a_heap a) (lists free []) (list_to_set pool) -> NoDup pool ->
  exists h, async_event_init pool a = Ok (set_heap h a, tt) /\ rep h (lists (rev pool ++ free) []) ∅.
Proof.
  induction pool as [|e pool IH]; intros a free Hr Hn; cbn [async_event_init rev].
  { exists (a_heap a). by destruct a. }
  apply NoDup_cons in Hn as [He Hn].
  assert (lists free [] !! e = None) as Hnone.
  { unfold lists. rewrite !lookup_insert_None. split; [split; [done|]|]; intros Hq; subst e; destruct Hr as (_ & _ & _ & Hr).
    - by apply (Hr EVENTS [] EVENTS); [apply lists_EVENTS|left|set_solver].
    - by apply (Hr FREE free FREE); [apply lists_FREE|left|set_solver]. }
  destruct (rep_init _ _ _ e Hr) as (h1 & E1 & Hr1); [set_solver|done|].
  erewrite M_bind_Ok by (unfold on_heap; by rewrite E1).
  apply (rep_forget _ _ _ e []) in Hr1; [|by rewrite lookup_insert_eq].
  rewrite delete_insert_id in Hr1 by done.
  pose proof (abs_add _ (list_to_set [e] ∪ (list_to_set (e :: pool) ∖ {[e]})) e FREE _ (lists_FREE free []) ltac:(set_solver)) as Hop.
  rewrite lists_set_FREE in Hop. destruct (exec_step _ _ _ _ _ _ Hr1 Hop) as (h2 & E2 & Hr2). cbn [exec] in E2.
  erewrite M_bind_Ok by (unfold on_heap; cbn [a_heap set_heap]; by rewrite E2).
  destruct (IH (set_heap h2 (set_heap h1 a)) (e :: free)) as (h & E & Hr3).
  - eapply rep_weaken; [exact Hr2|]. intros p. rewrite !elem_of_difference, elem_of_union, !elem_of_list_to_set. set_solver.
  - done.
  - exists h. rewrite E. split; [done|]. by rewrite <- app_assoc.
Qed.

(** What the loader gives: the list heads and the pool in memory, the static
    head [free_list] initialised, no looper. *)
Definition booted (pool : list Z) (a : async) : Prop :=
  rep (a_heap a) {[FREE := []]} (list_to_set (EVENTS :: pool)) /\ NoDup (EVENTS :: pool) /\ Forall is_pointer pool /\
  (forall e, e ∈ pool -> is_Some (a_events a !! e)) /\ a_lock a = None.

Lemma booted_idle pool a g m s buf : booted pool a -> Zlen buf = 100 ->
  exists a1 a2, async_init None g buf pool a = Ok (a1, g) /\ async_looper_create (Some m) (Some s) a1 = Ok (a2, true) /\
    exists free, inv pool a2 free [] [] [].
Proof.
  intros (Hr & Hn & Hp & He & Hl) Hb. apply NoDup_cons in Hn as [HE Hn].
  destruct (rep_init _ _ _ EVENTS Hr) as (h & E & Hr1); [set_solver|done|].
  unfold async_init, async_looper_init. rewrite (M_bind_Ok _ _ _ (set_queue (ringbuffer_init buf (Zlen buf)) (a_count a) (set_heap h a)) tt).
  2: { erewrite M_bind_Ok by (unfold on_heap; by rewrite E). done. }
  destruct (init_events pool (set_queue (ringbuffer_init buf (Zlen buf)) (a_count a) (set_heap h a)) []) as (h2 & E2 & Hr2); [|done|].
  { cbn [a_heap set_queue set_heap]. replace (lists [] []) with (<[EVENTS := []]> ({[FREE := []]} : gmap Z (list Z))) by done.
    eapply rep_weaken; [exact Hr1|]. set_solver. }
  rewrite (M_bind_Ok _ _ _ _ _ E2). eexists _, _. split; [done|]. unfold async_looper_create. cbn [a_lock set_heap set_queue].
  rewrite Hl. split; [done|]. exists (rev pool). split; cbn; try done.
  - by rewrite app_nil_r in Hr2.
  - by rewrite app_nil_r, <- Permutation_rev.
  - rewrite Hb. by apply ringbuffer_init_spec.
Qed.
Lemma booted_starts pool a g m s buf : booted pool a -> Zlen buf = 100 ->
  exists a1 a2, async_init None g buf pool a = Ok (a1, g) /\ async_looper_create (Some m) (Some s) a1 = Ok (a2, true) /\ running_with pool a2 [].
Proof. intros Ha Hb. destruct (booted_idle _ _ g m s _ Ha Hb) as (a1 & a2 & E1 & E2 & free & Hi). exists a1, a2. split_and!; [done..|]. by eapply running_inv. Qed.

(** ** Theorems *)

(** C11: From boot on, whatever the tasks do with events of the pool and
    whenever the loop gets to run, no call goes wrong (no null or stray
    pointer, no access outside the queue's buffer, and every loop over the
    lists ends). At any time every event of the pool is in exactly one place:
    the free list, the looper's list, a queued ADD command, or lost. None is
    lost at boot, an event gets lost only when the loop drops a queue that is
    too full with its ADD command in it, and when the loop returns its list is
    empty and no event is lost that was not lost before: all the looper's events
    are back on the free list. *)
Theorem event_loop_conserves_events pool a g m s buf os :
  booted pool a -> Zlen buf = 100 -> Forall (action_ok pool) os ->
  exists a1 a2, async_init None g buf pool a = Ok (a1, g) /\ async_looper_create (Some m) (Some s) a1 = Ok (a2, true) /\
    accounted pool (S (length pool)) os OS_TIME_FOREVER a2 [] /\
    exists a' r, run (S (length pool)) os OS_TIME_FOREVER a2 = Ok (a', r) /\ outcome pool a' r.
Proof.
  intros Ha Hb Hos. destruct (booted_starts _ _ g m s _ Ha Hb) as (a1 & a2 & E1 & E2 & Hr). exists a1, a2. split; [done|]. split; [done|].
  assert (accounted pool (S (length pool)) os OS_TIME_FOREVER a2 []) as Hacc by (by apply running_run; [lia|..]). split; [done|]. by eapply accounted_run.
Qed.

(** When no further command fits, the next round of the loop executes
    none: it drops all the commands that are queued, and the events of the
    queued ADD commands are on no list any more. *)
Theorem full_queue_is_dropped pool a free events queue lost ts junk fuel :
  inv pool a free events queue lost -> full queue -> queue <> [] -> u32 (clock (a_reads a)) < ts ->
  exists a', looper_round fuel junk ts a = Ok (a', Some ts) /\ inv pool a' free events [] (inflight queue ++ lost).
Proof.
  intros Hi Hfull Hq Hts. unfold looper_round, os_get_time at 1.
  rewrite (M_bind_Ok _ _ _ (MkAsync (a_heap a) (a_events a) (a_rb a) (a_lock a) (a_sem a) (a_count a) (S (a_reads a))) (u32 (clock (a_reads a)))) by done.
  rewrite (proj2 (Z.leb_gt ts (u32 (clock (a_reads a))))) by done.
  erewrite M_bind_Ok by reflexivity.
  assert (inv pool (MkAsync (a_heap a) (a_events a) (a_rb a) (a_lock a) (a_sem a) (a_count a) (S (a_reads a))) free events queue lost) as Hi1.
  { apply (inv_same pool a); try done. by apply (inv_events _ _ _ _ _ _ Hi). }
  cbv beta iota zeta. rewrite (proj2 (Z.leb_gt ts (u32 (clock (a_reads a))))) by done.
  destruct (inv_pend _ _ _ _ _ _ (u32 (ts - u32 (clock (a_reads a)))) Hi1) as [[-> _] | [_ E]]; [done|].
  rewrite (M_bind_Ok _ _ _ _ _ E). change (0 =? 1) with false. cbv iota. destruct queue as [|c queue]; [done|].
  destruct (inv_take_command _ _ _ _ _ _ _ junk Hi1) as (a' & [(_ & E' & Hi') | (Hroom & _ & _)]).
  - rewrite (M_bind_Ok _ _ _ _ _ E'). by exists a'.
  - exfalso. unfold full in Hfull. rewrite Zlen_cons in Hfull. lia.
Qed.
End async.

(** ** A target

    One byte for the type and two each for the pointers, a clock that ticks
    with every reading, and three callbacks: one that is done, one that
    registers another event, and one that goes on. *)
Definition is_pointer16 (p : Z) : Prop := 0 <= p < 65536.
Definition encode16 (c : async_looper_command) : list Z :=
  [type c; cmd_event c mod 256; cmd_event c / 256; addition_data c mod 256; addition_data c / 256].
Definition decode16 (l : list Z) : async_looper_command :=
  MkCmd (l !!! 0%nat) (l !!! 1%nat + 256 * l !!! 2%nat) (l !!! 3%nat + 256 * l !!! 4%nat).
Lemma decode_encode16 c : is_u8 (type c) -> is_pointer16 (cmd_event c) -> is_pointer16 (addition_data c) -> decode16 (encode16 c) = c.
Proof.
  intros _ _ _. destruct c as [t e d]. unfold decode16, encode16. cbn. f_equal.
  - pose proof (Z.div_mod e 256). lia.
  - pose proof (Z.div_mod d 256). lia.
Qed.
Definition layout16 : Layout := {|
  sizeof := 5; encode := encode16; decode := decode16; is_pointer := is_pointer16;
  sizeof_range := conj eq_refl eq_refl; encode_length := fun _ => eq_refl; decode_encode := decode_encode16 |}.
Definition demo_os : Os := {| clock := Z.of_nat; sem_limit := 1000 |}.
Definition demo_callbacks : Callbacks := {|
  callback := fun f e d =>
    if f =? 0 then mret 0
    else if f =? 1 then _ ← @async_event_register layout16 demo_os 0 5 0 0; mret 0
    else mret 1 |}.

Lemma demo_callback_keeps pool a free events queue lost f e d :
  @inv layout16 pool a free events queue lost -> e ∈ pool ->
  exists a' rc free' queue', @callback demo_callbacks f e d a = Ok (a', rc) /\ @inv layout16 pool a' free' events queue' lost.
Proof.
  intros Hi _. cbn [callback demo_callbacks]. destruct (f =? 0); [by do 4 eexists|]. destruct (f =? 1); [|by do 4 eexists].
  destruct (@inv_register layout16 demo_os ltac:(done) pool a free events queue lost 0 5 0 0 Hi) as (a' & r & free' & queue' & E & Hi' & _); [done|].
  rewrite (M_bind_Ok _ _ _ _ _ E). do 4 eexists. by split.
Qed.

Definition demo_pool : list Z := [10; 11].
Definition demo_boot : async :=
  let m : gmap Z Z := <[FREE := FREE]> (list_to_map ((fun p => (p, 0)) <$> (EVENTS :: demo_pool))) in
  MkAsync (MkStore m m) (list_to_map ((fun p => (p, MkEvent 0 0 0 0)) <$> demo_pool)) (MkRb 0 0 0 0 []) None None 0 0.
Lemma demo_booted : @booted layout16 demo_pool demo_boot.
Proof.
  split_and!.
  - split_and!.
    + intros x l [<- <-]%lookup_singleton_Some. split; [by split; [vm_compute|]|]. by apply (bool_decide_unpack _).
    + intros x l y m p [<- <-]%lookup_singleton_Some [<- <-]%lookup_singleton_Some. done.
    + intros p. rewrite elem_of_list_to_set. intros Hp. repeat (apply elem_of_cons in Hp as [-> | Hp]; [split; vm_compute; eauto|]).
      by apply not_elem_of_nil in Hp.
    + intros x l p [<- <-]%lookup_singleton_Some ->%list_elem_of_singleton. by vm_compute.
  - by apply (bool_decide_unpack _).
  - repeat constructor; by vm_compute.
  - intros e Hp. repeat (apply elem_of_cons in Hp as [-> | Hp]; [vm_compute; eauto|]). by apply not_elem_of_nil in Hp.
  - done.
Qed.

Definition demo_actions : list action :=
  [Register 1 0 0 0; Round 0; Register 2 3 0 0; Round 0; Round 0; Trigger 10 0 0; Cancel 11 0; Round 0; SetData 10 7; Exit 0; Round 0; Round 0].
Definition demo_run (fuel : nat) : M async (option Z) :=
  _ ← async_init None (Some 1) (replicate 100 0) demo_pool; _ ← @async_looper_create (Some 2) (Some 3);
  @run layout16 demo_os demo_callbacks fuel demo_actions OS_TIME_FOREVER.

Lemma event_loop_conserves_events_witness :
  @booted layout16 demo_pool demo_boot /\
  (exists a1 a2, async_init None (Some 1) (replicate 100 0) demo_pool demo_boot = Ok (a1, Some 1) /\ async_looper_create (Some 2) (Some 3) a1 = Ok (a2, true) /\
    @accounted layout16 demo_os demo_callbacks demo_pool 3 demo_actions OS_TIME_FOREVER a2 []) /\
  (match demo_run 3 demo_boot with Ok (_, None) => True | _ => False end).
Proof.
  split; [exact demo_booted|]. split; [|by vm_compute].
  destruct (@event_loop_conserves_events layout16 demo_os demo_callbacks ltac:(done) demo_callback_keeps demo_pool demo_boot
    (Some 1) 2 3 (replicate 100 0) demo_actions demo_booted) as (a1 & a2 & E1 & E2 & Ha & _); [done| |by exists a1, a2].
  repeat constructor; by vm_compute.
Defined.

(** A looper whose queue is full: an ADD command and 19 triggers. *)
Definition full_commands : list async_looper_command :=
  MkCmd LOOPER_COMMAND_TYPE_ADD_EVENT 10 0 :: replicate 19 (MkCmd LOOPER_COMMAND_TYPE_TRIGGER_CALL 10 0).
Definition demo_full : async :=
  let m : gmap Z Z := list_to_map [(FREE, 11); (11, FREE); (EVENTS, EVENTS); (10, 0)] in
  MkAsync (MkStore m m) (list_to_map ((fun p => (p, MkEvent 0 0 0 0)) <$> demo_pool))
    (MkRb 100 100 0 0 (concat (map encode16 full_commands))) (Some 2) (Some 3) 20 0.
Lemma demo_lists_cyc x l : lists [11] [] !! x = Some l -> (x = FREE /\ l = [11]) \/ (x = EVENTS /\ l = []).
Proof. unfold lists. intros [[<- <-] | [_ [[<- <-] | [_ H]]%lookup_insert_Some]]%lookup_insert_Some; [by left|by right|done]. Qed.
Lemma demo_full_inv : @inv layout16 demo_pool demo_full [11] [] full_commands [].
Proof.
  split.
  - split_and!.
    + intros x l [[-> ->] | [-> ->]]%demo_lists_cyc; (split; [by vm_compute|by apply (bool_decide_unpack _)]).
    + intros x l y m p [[-> ->] | [-> ->]]%demo_lists_cyc [[-> ->] | [-> ->]]%demo_lists_cyc Hp Hq; try done;
        unfold FREE, EVENTS in *; set_solver.
    + intros p Hp. change (p ∈ (list_to_set [10] : gset Z)) in Hp. assert (p = 10) as -> by set_solver. split; vm_compute; eauto.
    + intros x l p Hx Hp Hq. change (p ∈ (list_to_set [10] : gset Z)) in Hq. assert (p = 10) as -> by set_solver.
      destruct (demo_lists_cyc x l Hx) as [[-> ->] | [-> ->]]; unfold FREE, EVENTS in *; set_solver.
  - by apply (bool_decide_unpack _).
  - by apply (bool_decide_unpack _).
  - repeat constructor; by vm_compute.
  - intros e Hp. repeat (apply elem_of_cons in Hp as [-> | Hp]; [vm_compute; eauto|]). by apply not_elem_of_nil in Hp.
  - by repeat split; vm_compute.
  - repeat constructor; by vm_compute.
  - done.
  - by eexists.
Qed.

Lemma full_queue_is_dropped_witness :
  exists a', @looper_round layout16 demo_os demo_callbacks 3 0 OS_TIME_FOREVER demo_full = Ok (a', Some OS_TIME_FOREVER) /\
    @inv layout16 demo_pool a' [11] [] [] [10].
Proof.
  destruct (@full_queue_is_dropped layout16 demo_os demo_callbacks demo_pool demo_full [11] [] full_commands [] OS_TIME_FOREVER 0 3
    demo_full_inv) as (a' & E & Hi); [by vm_compute..|]. exists a'. by split.
Defined.
