(* ===== verification/AsyncSchedule.v ===== *)
(** The schedule of the event loop of Async.v: which callbacks a round runs and
    in which order, and that the loop's next time stamp is never behind a
    deadline, so that an event that is due is called in the next round. *)
From stdpp Require Import gmap.
From S2P Require Import Prelude Ringbuffer DList Bus Async.

(** ** What keeps the deadlines *)
Definition stamp (a : async) (e : Z) : option Z := next_timestamp <$> a_events a !! e.
Definition keeps (a a' : async) : Prop := forall e, stamp a' e = stamp a e.
#[export] Instance keeps_preorder : PreOrder keeps.
Proof. split; [by intros a e|]. intros a b c H1 H2 e. by rewrite H2, H1. Qed.
(** A computation that changes no deadline. *)
Definition Keeps {B} (m : M async B) : Prop := forall a a' r, m a = Ok (a', r) -> keeps a a'.
Create HintDb keeps.
Lemma Keeps_ret {B} (x : B) : Keeps (mret x).
Proof. intros a a' r E. injection E as <- _. reflexivity. Qed.
Lemma Keeps_bind {B C} (m : M async B) (k : B -> M async C) : Keeps m -> (forall x, Keeps (k x)) -> Keeps (x ← m; k x).
Proof.
  intros Hm Hk a a' r E. unfold mbind, M_bind in E. destruct (m a) as [[b x]|] eqn:Em; [|done]. cbn in E.
  etransitivity; [by eapply Hm|by eapply Hk].
Qed.
Lemma Keeps_if {B} (c : bool) (m1 m2 : M async B) : Keeps m1 -> Keeps m2 -> Keeps (if c then m1 else m2).
Proof. by destruct c. Qed.
Lemma Keeps_heap f : Keeps (on_heap f).
Proof. intros a a' r E. unfold on_heap in E. destruct (f (a_heap a)); [|done]. by injection E as <- _. Qed.
Lemma Keeps_in_heap {B} (f : store -> res B) : Keeps (in_heap f).
Proof. intros a a' r E. unfold in_heap in E. destruct (f (a_heap a)); [|done]. by injection E as <- _. Qed.
Lemma Keeps_get e : Keeps (get_event e).
Proof. intros a a' r E. unfold get_event in E. destruct (a_events a !! e); [|done]. by injection E as <- _. Qed.
#[export] Hint Resolve Keeps_ret Keeps_bind Keeps_if Keeps_heap Keeps_in_heap Keeps_get : keeps.
(** Storing an event changes its deadline to the new one. *)
Lemma put_event_stamp e x a a' : put_event e x a = Ok (a', tt) -> forall e', stamp a' e' = if decide (e' = e) then Some (next_timestamp x) else stamp a e'.
Proof.
  unfold put_event. destruct (a_events a !! e); [|done]. intros [= <-] e'. unfold stamp. cbn. destruct (decide (e' = e)) as [->|Hn].
  - by rewrite lookup_insert_eq.
  - by rewrite lookup_insert_ne.
Qed.
Lemma Keeps_update e (g : event -> event) : (forall x, next_timestamp (g x) = next_timestamp x) -> Keeps (x ← get_event e; put_event e (g x)).
Proof.
  intros Hg a a' r E. unfold mbind, M_bind, get_event in E. destruct (a_events a !! e) as [x|] eqn:Ex; [|done]. cbn in E. destruct r.
  intros e'. rewrite (put_event_stamp _ _ _ _ E). case_decide; [|done]. subst. unfold stamp. rewrite Ex. cbn. by rewrite Hg.
Qed.

Lemma Keeps_update_then {B} e (g : event -> event) (k : M async B) : (forall x, next_timestamp (g x) = next_timestamp x) -> Keeps k ->
  Keeps (x ← get_event e; _ ← put_event e (g x); k).
Proof.
  intros Hg Hk a a' r E. unfold mbind, M_bind in E. destruct (get_event e a) as [[b x]|] eqn:Ex; [|done]. cbn in E.
  destruct (put_event e (g x) b) as [[c []]|] eqn:Ep; [|done]. cbn in E.
  etransitivity; [|by eapply Hk]. eapply (Keeps_update e g Hg). unfold mbind, M_bind. rewrite Ex. exact Ep.
Qed.
#[export] Hint Resolve Keeps_update : keeps.

Section schedule.
  Context `{Layout} `{Os} `{Callbacks}.
Lemma Keeps_time : Keeps os_get_time.
Proof. intros a a' r E. by injection E as <- _. Qed.
Lemma Keeps_notify c : Keeps (async_notify_loop c).
Proof.
  intros a a' r E. unfold async_notify_loop, os_lock_mutex, os_post_sem in E. destruct (a_lock a); [|done]. cbn in E.
  destruct (rb_write _ _ _) as [[rb k]|]; [|done]. cbn in E. destruct (k =? sizeof); cbn in E; [destruct (a_count a <? sem_limit)|]; by injection E as <- _.
Qed.
#[local] Hint Resolve Keeps_time Keeps_notify : keeps.
Lemma Keeps_register f t d junk : Keeps (async_event_register f t d junk).
Proof.
  apply Keeps_bind; [auto with keeps|]. intros []; [auto with keeps|]. apply Keeps_bind; [auto with keeps|]. intros e.
  apply Keeps_bind; [auto with keeps|]. intros []. apply (Keeps_update_then e (fun x => MkEvent f t (next_timestamp x) d)); [done|].
  auto 10 with keeps.
Qed.
Lemma Keeps_take_command junk : Keeps (take_command junk).
Proof.
  intros a a' r E. unfold take_command, os_lock_mutex in E. destruct (a_lock a); [|done]. cbn in E.
  destruct (rb_read _ _ _) as [[rb [p k]]|]; [|done]. cbn in E. destruct (sizeof =? k); cbn in E; [destruct p as [[? ?]|]; [|done]|]; by injection E as <- _.
Qed.
#[local] Hint Resolve Keeps_register Keeps_take_command : keeps.

(** ** The walk *)
(** Every event of a list, in its order. *)
Fixpoint visit (l : list Z) (now most_recent_time : Z) : M async Z :=
  match l with
  | [] => mret most_recent_time
  | e :: l => most_recent_time ← exec_timeout_event e now most_recent_time; visit l now most_recent_time
  end.

Lemma visit_app now l1 l2 recent a : visit (l1 ++ l2) now recent a = (r ← visit l1 now recent; visit l2 now r) a.
Proof.
  revert recent a. induction l1 as [|e l1 IH]; intros recent a; cbn [visit app]; [done|]. rewrite M_bind_assoc. apply M_bind_ext. intros r b. apply IH.
Qed.
(** What is required of the callbacks: as in Async.v, and that they leave the
    deadlines, which no operation of a task sets. *)
  Context (sem_enough : 100 <= sem_limit)
    (callback_keeps : forall pool a free events queue lost f e d, inv pool a free events queue lost -> e ∈ pool ->
      exists a' rc free' queue', callback f e d a = Ok (a', rc) /\ inv pool a' free' events queue' lost)
    (callback_stamps : forall f e d, Keeps (callback f e d)).

Lemma exec_timeout_loop_visit pool lost now rest : forall l1 free queue a n recent fuel,
  inv pool a free (l1 ++ rest) queue lost -> (length rest < fuel)%nat -> (rest <> [] -> n = hd EVENTS (tail rest)) ->
  exec_timeout_loop fuel (hd EVENTS rest) n now recent a = visit rest now recent a.
Proof.
  induction rest as [|e rest IH]; intros l1 free queue a n recent [|fuel] Hi Hf Hn; cbn [length] in Hf; try lia; cbn [exec_timeout_loop hd visit].
  { by rewrite Z.eqb_refl. }
  rewrite Hn by done. cbn [tail]. destruct (inv_heads _ _ _ _ _ _ Hi) as [He _].
  rewrite (proj2 (Z.eqb_neq e EVENTS)) by (intros ->; apply He; set_solver).
  destruct (inv_exec_timeout_event sem_enough callback_keeps _ _ _ _ _ _ _ _ now recent Hi) as (a1 & r & free1 & l1' & queue1 & E1 & Hi1).
  rewrite !(M_bind_Ok _ _ _ _ _ E1).
  destruct (inv_next_hd _ _ _ _ _ _ _ Hi1) as (nn & E2 & Hnn).
  rewrite (M_bind_Ok _ _ _ _ _ (in_heap_Ok (fun h => get_next h (hd EVENTS rest)) _ _ E2)).
  apply (IH l1' free1 queue1); [done|lia|done].
Qed.
Lemma exec_timeout_visit pool a free events queue lost fuel : inv pool a free events queue lost -> (length events < fuel)%nat ->
  async_event_exec_timeout fuel a = (now ← os_get_time; visit events now OS_TIME_FOREVER) a.
Proof.
  intros Hi Hf. destruct (inv_time _ _ _ _ _ _ Hi) as (a1 & t & E1 & Hi1).
  unfold async_event_exec_timeout. rewrite !(M_bind_Ok _ _ _ _ _ E1). destruct (inv_first _ _ _ _ _ _ Hi1) as (E2 & _).
  rewrite (M_bind_Ok _ _ _ _ _ (in_heap_Ok (fun h => get_next h EVENTS) _ _ E2)).
  destruct (inv_next_hd _ _ _ [] events _ _ Hi1) as (n & E3 & Hn).
  rewrite (M_bind_Ok _ _ _ _ _ (in_heap_Ok (fun h => get_next h (hd EVENTS events)) _ _ E3)).
  by apply (exec_timeout_loop_visit pool lost t events [] free queue).
Qed.

(** ** Deadlines *)
Definition in_time (a : async) (l : list Z) (ts : Z) : Prop := forall e t, e ∈ l -> stamp a e = Some t -> ts <= t.
Lemma in_time_keeps a a' l l' ts ts' : in_time a l ts -> keeps a a' -> l' ⊆ l -> ts' <= ts -> in_time a' l' ts'.
Proof. intros Ht Hk Hl Hle e t He Es. rewrite Hk in Es. specialize (Ht e t (Hl e He) Es). lia. Qed.
Lemma get_event_stamp a e x : get_event e a = Ok (a, x) -> stamp a e = Some (next_timestamp x).
Proof. unfold get_event, stamp. destruct (a_events a !! e); [|done]. by intros [= ->]. Qed.
(** Testing the time stamp of an event that stays in the list. *)
Lemma checked pool a free l1 e l2 queue lost recent : inv pool a free (l1 ++ e :: l2) queue lost -> in_time a l1 recent ->
  exists r, check_timestamp e recent a = Ok (a, r) /\ in_time a (l1 ++ [e]) r.
Proof.
  intros Hi Ht. assert (e ∈ pool) as Hp by (eapply inv_in_pool; [done|right; left; set_solver]).
  destruct (inv_event _ _ _ _ _ _ e Hi Hp) as (x & Ex & _). unfold check_timestamp. rewrite (M_bind_Ok _ _ _ _ _ Ex).
  eexists. split; [reflexivity|]. intros e' t [He|He%list_elem_of_singleton]%elem_of_app Es.
  - specialize (Ht e' t He Es). case_match; lia.
  - subst e'. rewrite (get_event_stamp _ _ _ Ex) in Es. injection Es as <-. case_match; lia.
Qed.
Lemma inv_apart pool a free l1 e l2 queue lost : inv pool a free (l1 ++ e :: l2) queue lost -> e ∉ l1 ++ l2.
Proof.
  intros Hn%inv_disjoint. apply NoDup_app in Hn as (_ & _ & Hn). apply NoDup_app in Hn as (Hn & _).
  rewrite <- Permutation_middle in Hn. by apply NoDup_cons in Hn as [Hn _].
Qed.
Lemma exec_timeout_event_in_time pool a free l1 e l2 queue lost now recent : inv pool a free (l1 ++ e :: l2) queue lost -> in_time a l1 recent ->
  exists a' r free' l1' queue', exec_timeout_event e now recent a = Ok (a', r) /\ inv pool a' free' (l1' ++ l2) queue' lost /\ in_time a' l1' r /\
    forall e', e' <> e -> stamp a' e' = stamp a e'.
Proof.
  intros Hi Ht. pose proof (inv_apart _ _ _ _ _ _ _ _ Hi) as Hne. rewrite elem_of_app in Hne.
  assert (e ∈ pool) as Hp by (eapply inv_in_pool; [done|right; left; set_solver]).
  destruct (inv_event _ _ _ _ _ _ e Hi Hp) as (x & Ex & _). unfold exec_timeout_event. rewrite (M_bind_Ok _ _ _ _ _ Ex).
  destruct (now <? next_timestamp x).
  { destruct (checked _ _ _ _ _ _ _ _ _ Hi Ht) as (r & -> & Hr). exists a, r, free, (l1 ++ [e]), queue. by rewrite <- app_assoc. }
  destruct (callback_keeps _ _ _ _ _ _ (cb x) e ASYNC_EVENT_ADDITION_DATA_TIMEOUT Hi Hp) as (a1 & rc & free1 & queue1 & E1 & Hi1).
  pose proof (callback_stamps _ _ _ _ _ _ E1) as K1. rewrite (M_bind_Ok _ _ _ _ _ E1). destruct (rc =? 0).
  - destruct (inv_move _ _ _ _ _ _ _ _ Hi1) as (a2 & E2 & Hi2). rewrite (M_bind_Ok _ _ _ _ _ E2). eexists a2, _, _, l1, _. split; [done|]. split; [done|].
    assert (keeps a a2) as K by (etransitivity; [exact K1|]; by eapply Keeps_heap).
    split; [|intros; apply K]. by eapply (in_time_keeps a); [done|exact K|done|lia].
  - destruct (inv_event _ _ _ _ _ _ e Hi1 Hp) as (y & Ey & Hput). rewrite (M_bind_Ok _ _ _ _ _ Ey).
    destruct (Hput (MkEvent (cb y) (timeout y) (u32 (now + timeout y)) (dat y))) as (a2 & E2 & Hi2). rewrite (M_bind_Ok _ _ _ _ _ E2).
    destruct (checked _ _ _ _ _ _ _ _ recent Hi2) as (r & -> & Hr).
    { intros e' t He Es. rewrite (put_event_stamp _ _ _ _ E2), decide_False in Es by (intros ->; tauto). rewrite K1 in Es. by apply (Ht e'). }
    exists a2, r, free1, (l1 ++ [e]), queue1. rewrite <- app_assoc. split_and!; [done..|].
    intros e' He. by rewrite (put_event_stamp _ _ _ _ E2), decide_False, K1 by done.
Qed.
Lemma visit_in_time pool lost now rest : forall l1 free queue a recent, inv pool a free (l1 ++ rest) queue lost -> in_time a l1 recent ->
  exists a' r free' events' queue', visit rest now recent a = Ok (a', r) /\ inv pool a' free' events' queue' lost /\ in_time a' events' r.
Proof.
  induction rest as [|e rest IH]; intros l1 free queue a recent Hi Ht; cbn [visit].
  { rewrite app_nil_r in Hi. by exists a, recent, free, l1, queue. }
  destruct (exec_timeout_event_in_time _ _ _ _ _ _ _ _ now recent Hi Ht) as (a1 & r & free1 & l1' & queue1 & E1 & Hi1 & Ht1 & _).
  rewrite (M_bind_Ok _ _ _ _ _ E1). by eapply IH.
Qed.

(** The walk up to an event that stays where it is. *)
Lemma visit_before pool lost now e l2 l1 : forall l0 free queue a recent, inv pool a free (l0 ++ l1 ++ e :: l2) queue lost -> in_time a l0 recent ->
  exists a' r free' l0' queue', visit l1 now recent a = Ok (a', r) /\ inv pool a' free' (l0' ++ e :: l2) queue' lost /\ stamp a' e = stamp a e.
Proof.
  induction l1 as [|p l1 IH]; intros l0 free queue a recent Hi Ht; cbn [visit].
  { by exists a, recent, free, l0, queue. }
  cbn [app] in Hi. destruct (exec_timeout_event_in_time _ _ _ _ _ _ _ _ now recent Hi Ht) as (a1 & r & free1 & l0' & queue1 & E1 & Hi1 & Ht1 & K1).
  rewrite (M_bind_Ok _ _ _ _ _ E1). destruct (IH _ _ _ _ r Hi1 Ht1) as (a' & r' & free' & l' & queue' & E & Hi' & K).
  do 5 eexists. split; [exact E|]. split; [exact Hi'|]. rewrite K. apply K1. intros ->. apply inv_apart in Hi. set_solver.
Qed.

(** ** Rounds *)
Definition scheduled (pool : list Z) (a : async) (ts : Z) : Prop :=
  exists free events queue lost, inv pool a free events queue lost /\ in_time a events ts.
Lemma scheduled_inv pool a free events queue lost ts : inv pool a free events queue lost -> in_time a events ts -> scheduled pool a ts.
Proof. intros. by exists free, events, queue, lost. Qed.
(** An event whose deadline is set anew, among events with theirs. *)
Lemma in_time_put e x a a' l ts r : put_event e x a = Ok (a', tt) -> in_time a l ts -> r <= ts -> r <= next_timestamp x -> in_time a' (e :: l) r.
Proof.
  intros E Ht Hr Hx e' t He Es. rewrite (put_event_stamp _ _ _ _ E) in Es. case_decide as Hd; [injection Es as <-; lia|].
  apply elem_of_cons in He as [->|He]; [done|]. specialize (Ht e' t He Es). lia.
Qed.
Lemma put_get e x a a' : put_event e x a = Ok (a', tt) -> get_event e a' = Ok (a', x).
Proof. unfold put_event, get_event. destruct (a_events a !! e); [|done]. intros [= <-]. cbn. by rewrite lookup_insert_eq. Qed.
Lemma get_event_on_heap f e x a a' : get_event e a = Ok (a, x) -> on_heap f a = Ok (a', tt) -> get_event e a' = Ok (a', x).
Proof.
  intros Ex E. unfold on_heap in E. destruct (f (a_heap a)); [|done]. injection E as <-.
  unfold get_event in *. cbn. destruct (a_events a !! e); [|done]. by injection Ex as ->.
Qed.
Definition lower (r ts : Z) : Z := if r <? ts then r else ts.
Lemma lower_le r ts : lower r ts <= ts /\ lower r ts <= r.
Proof. unfold lower. case_match; lia. Qed.

Lemma exec_trigger_in_time pool a free events queue lost e d ts fuel : inv pool a free events queue lost -> (length events < fuel)%nat -> in_time a events ts ->
  exists a' r, async_event_exec_trigger fuel e d a = Ok (a', r) /\ scheduled pool a' (lower r ts).
Proof.
  intros Hi Hf Ht. unfold async_event_exec_trigger. rewrite (M_bind_Ok _ _ _ _ _ (inv_is_in_list sem_enough callback_keeps _ _ _ _ _ _ e _ Hi Hf)).
  destruct (decide (e ∈ events)) as [Hin | Hin].
  2: { rewrite bool_decide_eq_false_2 by done. do 2 eexists. split; [reflexivity|]. eapply scheduled_inv; [done|].
       eapply in_time_keeps; [done|reflexivity|done|apply lower_le]. }
  rewrite bool_decide_eq_true_2 by done. cbn [negb]. apply list_elem_of_split in Hin as (l1 & l2 & ->).
  assert (e ∈ pool) as Hp by (eapply inv_in_pool; [done|right; left; set_solver]).
  destruct (inv_event _ _ _ _ _ _ e Hi Hp) as (x & Ex & _). rewrite (M_bind_Ok _ _ _ _ _ Ex).
  destruct (callback_keeps _ _ _ _ _ _ (cb x) e d Hi Hp) as (a1 & rc & free1 & queue1 & E1 & Hi1).
  pose proof (callback_stamps _ _ _ _ _ _ E1) as K1. rewrite (M_bind_Ok _ _ _ _ _ E1). destruct (rc =? 0).
  { destruct (inv_move _ _ _ _ _ _ _ _ Hi1) as (a2 & E2 & Hi2). rewrite (M_bind_Ok _ _ _ _ _ E2). do 2 eexists. split; [reflexivity|].
    eapply scheduled_inv; [done|]. eapply (in_time_keeps a); [done| |set_solver|apply lower_le]. etransitivity; [exact K1|]. by eapply Keeps_heap. }
  destruct (inv_time _ _ _ _ _ _ Hi1) as (a2 & t & E2 & Hi2). pose proof (Keeps_time _ _ _ E2) as K2. rewrite (M_bind_Ok _ _ _ _ _ E2).
  destruct (inv_event _ _ _ _ _ _ e Hi2 Hp) as (y & Ey & Hput). rewrite (M_bind_Ok _ _ _ _ _ Ey).
  destruct (Hput (MkEvent (cb y) (timeout y) (u32 (t + timeout y)) (dat y))) as (a3 & E3 & Hi3). rewrite (M_bind_Ok _ _ _ _ _ E3).
  rewrite (M_bind_Ok _ _ _ _ _ (put_get _ _ _ _ E3)). do 2 eexists. split; [reflexivity|]. eapply scheduled_inv; [done|].
  assert (in_time a2 (l1 ++ e :: l2) ts) as Ht2 by (eapply in_time_keeps; [done|by etransitivity|done|lia]).
  eapply in_time_keeps; [eapply (in_time_put e _ a2 a3 (l1 ++ e :: l2) ts (lower (u32 (t + timeout y)) ts) E3 Ht2)|reflexivity|set_solver|cbn [next_timestamp]; lia];
    apply lower_le.
Qed.
Lemma add_in_time pool a free events queue lost e ts : inv pool a free events queue (e :: lost) -> in_time a events ts ->
  exists a' r, async_event_add_to_looper_event_list e a = Ok (a', r) /\ scheduled pool a' (lower r ts).
Proof.
  intros Hi Ht. assert (e ∈ pool) as Hp by (eapply inv_in_pool; [done|right; right; right; left]).
  destruct (inv_event _ _ _ _ _ _ e Hi Hp) as (x & Ex & _). unfold async_event_add_to_looper_event_list. rewrite (M_bind_Ok _ _ _ _ _ Ex).
  assert (exists a1 rc free1 queue1, (if timeout x =? 0 then callback (cb x) e ASYNC_EVENT_ADDITION_DATA_TIMEOUT else mret 1) a = Ok (a1, rc) /\
    inv pool a1 free1 events queue1 (e :: lost)) as (a1 & rc & free1 & queue1 & E1 & Hi1).
  { destruct (timeout x =? 0); [by apply (callback_keeps _ _ _ _ _ _ _ _ _ Hi)|]. exists a, 1, free, queue. by split. }
  assert (keeps a a1) as K1 by (eapply (Keeps_if (timeout x =? 0)); [apply callback_stamps|apply Keeps_ret|exact E1]).
  rewrite (M_bind_Ok _ _ _ _ _ E1). destruct (rc =? 0).
  { destruct (inv_add_FREE _ _ _ _ _ _ _ Hi1) as (a2 & E2 & Hi2). rewrite (M_bind_Ok _ _ _ _ _ E2). do 2 eexists. split; [reflexivity|].
    eapply scheduled_inv; [done|]. eapply (in_time_keeps a); [done| |done|apply lower_le]. etransitivity; [exact K1|]. by eapply Keeps_heap. }
  destruct (inv_time _ _ _ _ _ _ Hi1) as (a2 & t & E2 & Hi2). pose proof (Keeps_time _ _ _ E2) as K2. rewrite (M_bind_Ok _ _ _ _ _ E2).
  destruct (inv_event _ _ _ _ _ _ e Hi2 Hp) as (y & Ey & Hput). rewrite (M_bind_Ok _ _ _ _ _ Ey).
  destruct (Hput (MkEvent (cb y) (timeout y) (u32 (t + timeout y)) (dat y))) as (a3 & E3 & Hi3). rewrite (M_bind_Ok _ _ _ _ _ E3).
  destruct (inv_add_EVENTS _ _ _ _ _ _ _ Hi3) as (a4 & E4 & Hi4). rewrite (M_bind_Ok _ _ _ _ _ E4).
  rewrite (M_bind_Ok _ _ _ _ _ (get_event_on_heap _ _ _ _ _ (put_get _ _ _ _ E3) E4)). do 2 eexists. split; [reflexivity|]. eapply scheduled_inv; [done|].
  assert (in_time a2 events ts) as Ht2 by (eapply in_time_keeps; [done|by etransitivity|done|lia]).
  eapply in_time_keeps; [eapply (in_time_put e _ a2 a3 events ts (lower (u32 (t + timeout y)) ts) E3 Ht2)|by eapply Keeps_heap|done|cbn [next_timestamp]; lia];
    apply lower_le.
Qed.
Lemma free_in_time pool a free events queue lost e ts fuel : inv pool a free events queue lost -> (length events < fuel)%nat -> in_time a events ts ->
  exists a', async_event_free_from_looper_event_list fuel e a = Ok (a', tt) /\ scheduled pool a' ts.
Proof.
  intros Hi Hf Ht. unfold async_event_free_from_looper_event_list. rewrite (M_bind_Ok _ _ _ _ _ (inv_is_in_list sem_enough callback_keeps _ _ _ _ _ _ e _ Hi Hf)).
  case_bool_decide as Hin; [|exists a; split; [done|by eapply scheduled_inv]].
  apply list_elem_of_split in Hin as (l1 & l2 & ->). destruct (inv_move _ _ _ _ _ _ _ _ Hi) as (a' & E & Hi'). exists a'. split; [done|].
  eapply scheduled_inv; [done|]. eapply in_time_keeps; [done|by eapply Keeps_heap|set_solver|lia].
Qed.

(** A round behind its walk: the wait and the command. *)
Definition finish (fuel : nat) (junk next_timestamp now : Z) : M async (option Z) :=
  got ← os_pend_sem (if next_timestamp <=? now then 1 else u32 (next_timestamp - now));
  if 0 =? got then mret (Some next_timestamp) else
  cmd ← take_command junk;
  match cmd with None => mret (Some next_timestamp) | Some cmd => dispatch fuel cmd next_timestamp end.
Definition going_on (pool : list Z) (a : async) (r : option Z) : Prop :=
  match r with Some ts => scheduled pool a ts | None => returned pool a end.

Lemma dispatch_in_time pool a free events queue lost c ts fuel : inv pool a free events queue (inflight [c] ++ lost) -> command_ok c ->
  (length pool < fuel)%nat -> in_time a events ts -> exists a' r, dispatch fuel c ts a = Ok (a', r) /\ going_on pool a' r.
Proof.
  intros Hi Hc Hf Ht. pose proof (inv_length _ _ _ _ _ _ Hi) as Hl. unfold dispatch.
  destruct (Z.eqb_spec (type c) LOOPER_COMMAND_TYPE_TRIGGER_CALL) as [Et | Et].
  { destruct (exec_trigger_in_time _ _ _ _ _ _ (cmd_event c) (addition_data c) ts fuel Hi) as (a' & r & E & Hs); [lia|done|].
    rewrite (M_bind_Ok _ _ _ _ _ E). by do 2 eexists. }
  destruct (Z.eqb_spec (type c) LOOPER_COMMAND_TYPE_ADD_EVENT) as [Ea | Ea].
  { assert (inflight [c] = [cmd_event c]) as Ec by (unfold inflight; by rewrite filter_cons_True). rewrite Ec in Hi.
    destruct (add_in_time _ _ _ _ _ _ _ ts Hi Ht) as (a' & r & E & Hs). rewrite (M_bind_Ok _ _ _ _ _ E). by do 2 eexists. }
  destruct (Z.eqb_spec (type c) LOOPER_COMMAND_TYPE_CANCEL_EVENT) as [Ec | Ec].
  { destruct (free_in_time _ _ _ _ _ _ (cmd_event c) ts fuel Hi) as (a' & E & Hs); [lia|done|].
    rewrite (M_bind_Ok _ _ _ _ _ E). by do 2 eexists. }
  destruct (Z.eqb_spec (type c) LOOPER_COMMAND_TYPE_EXIT) as [Ee | Ee].
  { destruct (inv_splice _ _ _ _ _ _ Hi) as (a' & E & Hi'). rewrite (M_bind_Ok _ _ _ _ _ E). do 2 eexists. split; [done|]. by do 4 eexists. }
  do 2 eexists. split; [done|]. by eapply scheduled_inv.
Qed.
Lemma finish_in_time pool a free events queue lost ts now junk fuel : inv pool a free events queue lost -> (length pool < fuel)%nat -> in_time a events ts ->
  exists a' r, finish fuel junk ts now a = Ok (a', r) /\ going_on pool a' r.
Proof.
  intros Hi Hf Ht. unfold finish.
  destruct (inv_pend _ _ _ _ _ _ (if ts <=? now then 1 else u32 (ts - now)) Hi) as [[-> E3] | [Hq E3]]; rewrite (M_bind_Ok _ _ _ _ _ E3).
  { do 2 eexists. split; [done|]. by eapply scheduled_inv. }
  destruct queue as [|c queue]; [done|]. change (0 =? 1) with false. cbv iota.
  pose proof (inv_commands _ _ _ _ _ _ Hi) as [Hc _]%Forall_cons.
  destruct (inv_take_command _ _ _ _ _ _ _ junk Hi) as (a3 & [(_ & E4 & Hi3) | (_ & E4 & Hi3)]); rewrite (M_bind_Ok _ _ _ _ _ E4);
    pose proof (Keeps_take_command _ _ _ _ E4) as K; assert (in_time a3 events ts) as Ht3 by (eapply (in_time_keeps a); [done|exact K|done|lia]).
  - do 2 eexists. split; [done|]. by eapply scheduled_inv.
  - by eapply dispatch_in_time.
Qed.
Lemma round_in_time pool a ts junk fuel : scheduled pool a ts -> (length pool < fuel)%nat ->
  exists a' r, looper_round fuel junk ts a = Ok (a', r) /\ going_on pool a' r.
Proof.
  intros (free & events & queue & lost & Hi & Ht) Hf. pose proof (inv_length _ _ _ _ _ _ Hi) as Hl. unfold looper_round. fold (finish fuel junk).
  destruct (inv_time _ _ _ _ _ _ Hi) as (a1 & now & E1 & Hi1). rewrite (M_bind_Ok _ _ _ _ _ E1). pose proof (Keeps_time _ _ _ E1) as K1.
  destruct (ts <=? now).
  2: { erewrite M_bind_Ok by reflexivity. eapply finish_in_time; [done|done|]. eapply in_time_keeps; [done..|lia]. }
  destruct (inv_time _ _ _ _ _ _ Hi1) as (a2 & t2 & E2 & Hi2).
  destruct (visit_in_time pool lost t2 events [] free queue a2 OS_TIME_FOREVER Hi2) as (a3 & r & free3 & events3 & queue3 & E3 & Hi3 & Ht3).
  { intros e t Hin. by apply not_elem_of_nil in Hin. }
  destruct (inv_time _ _ _ _ _ _ Hi3) as (a4 & t4 & E4 & Hi4).
  rewrite (M_bind_Ok _ _ a1 a4 (r, t4)).
  - eapply finish_in_time; [done|done|]. eapply in_time_keeps; [done|by eapply Keeps_time|done|lia].
  - rewrite (M_bind_Ok _ _ a1 a3 r); [by rewrite (M_bind_Ok _ _ _ _ _ E4)|].
    rewrite (exec_timeout_visit _ _ _ _ _ _ _ Hi1) by lia. by rewrite (M_bind_Ok _ _ _ _ _ E2).
Qed.

(** ** Runs *)
(** A computation after which the loop's list is what it was. *)
Lemma scheduled_task {B} (m : M async B) pool a ts : scheduled pool a ts -> Keeps m ->
  (forall free events queue lost, inv pool a free events queue lost -> exists a' x free' queue' lost', m a = Ok (a', x) /\ inv pool a' free' events queue' lost') ->
  exists a' r', (_ ← m; mret (Some ts)) a = Ok (a', r') /\ going_on pool a' r'.
Proof.
  intros (free & events & queue & lost & Hi & Ht) Hk Hm. destruct (Hm _ _ _ _ Hi) as (a' & x & free' & queue' & lost' & E & Hi').
  rewrite (M_bind_Ok _ _ _ _ _ E). do 2 eexists. split; [done|]. eapply scheduled_inv; [done|].
  eapply in_time_keeps; [done|by eapply Hk|done|lia].
Qed.
Lemma notify_task pool a free events queue lost t e junk : inv pool a free events queue lost ->
  is_u8 t -> t <> LOOPER_COMMAND_TYPE_ADD_EVENT -> is_pointer e -> is_pointer junk ->
  exists a' x free' queue' lost', async_notify_loop (MkCmd t e junk) a = Ok (a', x) /\ inv pool a' free' events queue' lost'.
Proof.
  intros Hi Ht Hn He Hj. assert (inflight [MkCmd t e junk] = []) as Ei by (unfold inflight; by rewrite filter_cons_False).
  destruct (inv_notify sem_enough _ _ _ _ _ _ (MkCmd t e junk) lost Hi) as (a' & r & E & H'); [by split_and!|by rewrite Ei|].
  destruct H' as [[_ Hi'] | (_ & Hi' & _)]; by do 5 eexists.
Qed.
Lemma set_task pool a free events queue lost e (g : event -> event) : inv pool a free events queue lost -> e ∈ pool ->
  exists a' x free' queue' lost', (x ← get_event e; put_event e (g x)) a = Ok (a', x) /\ inv pool a' free' events queue' lost'.
Proof.
  intros Hi Hp. destruct (inv_event _ _ _ _ _ _ e Hi Hp) as (x & Ex & Hput). destruct (Hput (g x)) as (a' & E & Hi').
  rewrite (M_bind_Ok _ _ _ _ _ Ex). by do 5 eexists.
Qed.
Lemma act_in_time pool a o ts fuel : scheduled pool a ts -> action_ok pool o -> (length pool < fuel)%nat ->
  exists a' r, act fuel o ts a = Ok (a', r) /\ going_on pool a' r.
Proof.
  intros Hs Ho Hf. assert (forall e, e ∈ pool -> is_pointer e) as Hptr.
  { destruct Hs as (free & events & queue & lost & Hi & _). apply Forall_forall, (inv_pointers _ _ _ _ _ _ Hi). }
  destruct o as [f t d junk|e d junk|e junk|e f|e t|e d|e|junk|junk]; cbn in Ho; cbn [act].
  8: { apply scheduled_task; [done|apply Keeps_notify|]. intros. by eapply notify_task. }
  8: { by apply round_in_time. }
  - apply scheduled_task; [done|apply Keeps_register|]. intros free events queue lost Hi.
    destruct (inv_register sem_enough _ _ _ _ _ _ f t d junk Hi Ho) as (a' & r & free' & queue' & E & Hi' & _). by do 5 eexists.
  - destruct Ho. apply scheduled_task; [done|apply Keeps_notify|]. intros. eapply notify_task; try done. by apply Hptr.
  - destruct Ho. apply scheduled_task; [done|apply Keeps_notify|]. intros. eapply notify_task; try done. by apply Hptr.
  - apply scheduled_task; [done|by apply Keeps_update|]. intros. by eapply (set_task _ _ _ _ _ _ e (fun x => MkEvent f (timeout x) (next_timestamp x) (dat x))).
  - apply scheduled_task; [done|by apply Keeps_update|]. intros. by eapply (set_task _ _ _ _ _ _ e (fun x => MkEvent (cb x) t (next_timestamp x) (dat x))).
  - apply scheduled_task; [done|by apply Keeps_update|]. intros. by eapply (set_task _ _ _ _ _ _ e (fun x => MkEvent (cb x) (timeout x) (next_timestamp x) d)).
  - apply scheduled_task; [done|apply Keeps_bind; [apply Keeps_get|intros; apply Keeps_ret]|]. intros free events queue lost Hi.
    destruct (inv_event _ _ _ _ _ _ e Hi Ho) as (x & Ex & _). exists a, (dat x), free, queue, lost. split; [|done].
    unfold async_event_get_data. by rewrite (M_bind_Ok _ _ _ _ _ Ex).
Qed.
Lemma run_in_time pool fuel os : (length pool < fuel)%nat -> Forall (action_ok pool) os -> forall a ts, scheduled pool a ts ->
  exists a' r, run fuel os ts a = Ok (a', r) /\ going_on pool a' r.
Proof.
  intros Hf. induction 1 as [|o os Ho _ IH]; intros a ts Hr; cbn [run].
  { do 2 eexists. by split. }
  destruct (act_in_time _ _ _ ts _ Hr Ho Hf) as (a1 & [ts1|] & E & Hout); rewrite (M_bind_Ok _ _ _ _ _ E).
  - by apply IH.
  - do 2 eexists. by split.
Qed.

(** ** Theorems *)
(** C12: From boot on, whatever the tasks do and whenever the loop gets to
    run, the time stamp at which the loop walks its list next is never behind
    the deadline of an event in the list. *)
Theorem deadlines_kept pool a g m s buf os :
  booted pool a -> Zlen buf = 100 -> Forall (action_ok pool) os ->
  exists a' r, (_ ← async_init None g buf pool; _ ← async_looper_create (Some m) (Some s);
                run (S (length pool)) os OS_TIME_FOREVER) a = Ok (a', r) /\
    match r with Some ts => scheduled pool a' ts | None => returned pool a' end.
Proof.
  intros Ha Hb Hos. destruct (booted_idle sem_enough callback_keeps _ _ g m s _ Ha Hb) as (a1 & a2 & E1 & E2 & free & Hi).
  rewrite (M_bind_Ok _ _ _ _ _ E1), (M_bind_Ok _ _ _ _ _ E2). apply run_in_time; [lia|done|].
  exists free, [], [], []. split; [done|]. intros e t He. by apply not_elem_of_nil in He.
Qed.

(** C13: When the deadline of an event in the looper's list has come, the next
    round calls its callback: the events before it are visited in the order
    of the list, then the event, then those behind it, and only then the
    round waits for commands. *)
Theorem due_event_called pool a free l1 e l2 queue lost ts t junk fuel :
  inv pool a free (l1 ++ e :: l2) queue lost -> in_time a (l1 ++ e :: l2) ts -> (length pool < fuel)%nat ->
  stamp a e = Some t -> t <= u32 (clock (a_reads a)) ->
  let now := u32 (clock (S (a_reads a))) in u32 (clock (a_reads a)) <= now ->
  exists b x recent, visit l1 now OS_TIME_FOREVER (MkAsync (a_heap a) (a_events a) (a_rb a) (a_lock a) (a_sem a) (a_count a) (S (S (a_reads a)))) = Ok (b, recent) /\
    get_event e b = Ok (b, x) /\
    looper_round fuel junk ts a =
      (rc ← callback (cb x) e ASYNC_EVENT_ADDITION_DATA_TIMEOUT;
       recent ← (if rc =? 0 then _ ← on_heap (fun h => list_move h e FREE); mret recent else
                 x ← get_event e; _ ← put_event e (MkEvent (cb x) (timeout x) (u32 (now + timeout x)) (dat x));
                 check_timestamp e recent);
       ts ← visit l2 now recent;
       now ← os_get_time;
       finish fuel junk ts now) b.
Proof.
  intros Hi Ht Hf Es Hdue now Hclock. pose proof (inv_length _ _ _ _ _ _ Hi) as Hl. pose proof (inv_apart _ _ _ _ _ _ _ _ Hi) as Hne.
  unfold looper_round. fold (finish fuel junk).
  destruct (inv_time _ _ _ _ _ _ Hi) as (a1 & now1 & E1 & Hi1). rewrite (M_bind_Ok _ _ _ _ _ E1). pose proof (Keeps_time _ _ _ E1) as K1.
  injection E1 as Ea1 En1. rewrite (proj2 (Z.leb_le ts now1)) by (rewrite <- En1; specialize (Ht e t ltac:(set_solver) Es); lia).
  destruct (inv_time _ _ _ _ _ _ Hi1) as (a2 & t2 & E2 & Hi2). pose proof (Keeps_time _ _ _ E2) as K2.
  assert (t2 = now) as -> by (injection E2 as _ <-; by subst a1).
  destruct (visit_before pool lost now e l2 l1 [] free queue a2 OS_TIME_FOREVER Hi2) as (b & recent & free3 & l0 & queue3 & E3 & Hi3 & K3).
  { intros e' t' Hin. by apply not_elem_of_nil in Hin. }
  exists b. assert (stamp b e = Some t) as Eb by (by rewrite K3, K2, K1).
  unfold stamp in Eb. destruct (a_events b !! e) as [x|] eqn:Ex; [|done]. injection Eb as Eb. exists x, recent.
  assert (get_event e b = Ok (b, x)) as Egx by (unfold get_event; by rewrite Ex).
  assert (a2 = MkAsync (a_heap a) (a_events a) (a_rb a) (a_lock a) (a_sem a) (a_count a) (S (S (a_reads a)))) as <-
    by (injection E2 as <- _; by subst a1).
  split; [done|split; [done|]]. assert (now <? next_timestamp x = false) as Hge.
  { apply Z.ltb_ge. rewrite Eb. lia. }
  transitivity ((ts ← visit (l1 ++ e :: l2) now OS_TIME_FOREVER; now ← os_get_time; finish fuel junk ts now) a2).
  - rewrite !M_bind_assoc. rewrite (M_bind_eq _ _ _ _ (exec_timeout_visit _ _ _ _ _ _ fuel Hi1 ltac:(lia))), M_bind_assoc.
    rewrite (M_bind_Ok _ _ _ _ _ E2). apply M_bind_ext. intros r c. by rewrite M_bind_assoc.
  - rewrite (M_bind_eq _ _ _ _ (visit_app _ _ _ _ _)), M_bind_assoc, (M_bind_Ok _ _ _ _ _ E3). cbn [visit]. rewrite M_bind_assoc.
    unfold exec_timeout_event. rewrite M_bind_assoc, (M_bind_Ok _ _ _ _ _ Egx), Hge, M_bind_assoc. apply M_bind_ext. intros rc c.
    apply M_bind_eq. by destruct (rc =? 0).
Qed.

(** An event without a timeout is not one that is never called: the deadline
    wraps around and has just passed. *)
Lemma forever_is_due pool a free events queue lost e x : inv pool a free events queue (e :: lost) -> get_event e a = Ok (a, x) ->
  timeout x = OS_TIME_FOREVER -> 0 < u32 (clock (a_reads a)) ->
  exists a', async_event_add_to_looper_event_list e a = Ok (a', u32 (clock (a_reads a)) - 1).
Proof.
  intros Hi Ex Et Hc. assert (e ∈ pool) as Hp by (eapply inv_in_pool; [done|right; right; right; left]).
  unfold async_event_add_to_looper_event_list. rewrite (M_bind_Ok _ _ _ _ _ Ex), Et. change (OS_TIME_FOREVER =? 0) with false. cbv iota.
  erewrite M_bind_Ok by reflexivity. change (1 =? 0) with false. cbv iota.
  destruct (inv_time _ _ _ _ _ _ Hi) as (a2 & t & E2 & Hi2). rewrite (M_bind_Ok _ _ _ _ _ E2). injection E2 as <- <-.
  match type of Hi2 with inv _ ?b _ _ _ _ => assert (get_event e b = Ok (b, x)) as Ey end.
  { unfold get_event in *. cbn. by destruct (a_events a !! e); [injection Ex as ->|]. }
  rewrite (M_bind_Ok _ _ _ _ _ Ey). destruct (inv_event _ _ _ _ _ _ e Hi2 Hp) as (_ & _ & Hput).
  destruct (Hput (MkEvent (cb x) (timeout x) (u32 (u32 (clock (a_reads a)) + timeout x)) (dat x))) as (a3 & E3 & Hi3). rewrite (M_bind_Ok _ _ _ _ _ E3).
  destruct (inv_add_EVENTS _ _ _ _ _ _ _ Hi3) as (a4 & E4 & Hi4). rewrite (M_bind_Ok _ _ _ _ _ E4).
  rewrite (M_bind_Ok _ _ _ _ _ (get_event_on_heap _ _ _ _ _ (put_get _ _ _ _ E3) E4)).
  exists a4. change (Ok (a4, u32 (u32 (clock (a_reads a)) + timeout x)) = Ok (a4, u32 (clock (a_reads a)) - 1)). do 2 f_equal. rewrite Et. unfold OS_TIME_FOREVER. pose proof (wrap_range 32 (clock (a_reads a)) ltac:(lia)) as Hr.
  unfold wrap at 1. replace (u32 (clock (a_reads a)) + 4294967295) with (u32 (clock (a_reads a)) - 1 + 1 * 2 ^ 32) by lia.
  rewrite Z.mod_add by lia. apply Z.mod_small. lia.
Qed.
End schedule.

(** ** Witnesses *)
Lemma demo_callback_stamps f e d : @Keeps Z (@callback demo_callbacks f e d).
Proof.
  cbn [callback demo_callbacks]. destruct (f =? 0); [apply Keeps_ret|]. destruct (f =? 1); [|apply Keeps_ret].
  apply Keeps_bind; [apply Keeps_register|intros; apply Keeps_ret].
Qed.
Lemma deadlines_kept_witness :
  exists a' r, (_ ← async_init None (Some 1) (replicate 100 0) demo_pool; _ ← @async_looper_create (Some 2) (Some 3);
    @run layout16 demo_os demo_callbacks 3 [Register 2 3 0 0; Round 0; Round 0] OS_TIME_FOREVER) demo_boot = Ok (a', r) /\
    match r with Some ts => @scheduled layout16 demo_pool a' ts | None => @returned layout16 demo_pool a' end.
Proof.
  apply (@deadlines_kept layout16 demo_os demo_callbacks ltac:(done) demo_callback_keeps demo_callback_stamps demo_pool demo_boot
    (Some 1) 2 3 (replicate 100 0) [Register 2 3 0 0; Round 0; Round 0] demo_booted); [done|]. repeat constructor; by vm_compute.
Defined.

(** A looper with one event, whose deadline has come. *)
Definition demo_due : async :=
  let m : gmap Z Z := list_to_map [(FREE, 11); (11, FREE); (EVENTS, 10); (10, EVENTS)] in
  MkAsync (MkStore m m) (list_to_map [(10, MkEvent 2 3 0 0); (11, MkEvent 0 0 0 0)]) (ringbuffer_init (replicate 100 0) 100) (Some 2) (Some 3) 0 0.
Lemma demo_due_lists x l : lists [11] [10] !! x = Some l -> (x = FREE /\ l = [11]) \/ (x = EVENTS /\ l = [10]).
Proof. unfold lists. intros [[<- <-] | [_ [[<- <-] | [_ H]]%lookup_insert_Some]]%lookup_insert_Some; [by left|by right|done]. Qed.
Lemma demo_due_inv : @inv layout16 demo_pool demo_due [11] [10] [] [].
Proof.
  split.
  - split_and!.
    + intros x l [[-> ->] | [-> ->]]%demo_due_lists; (split; [by vm_compute|by apply (bool_decide_unpack _)]).
    + intros x l y m p [[-> ->] | [-> ->]]%demo_due_lists [[-> ->] | [-> ->]]%demo_due_lists Hp Hq; try done;
        unfold FREE, EVENTS in *; set_solver.
    + intros p Hp. change (p ∈ (list_to_set [] : gset Z)) in Hp. set_solver.
    + intros x l p _ _ Hq. change (p ∈ (list_to_set [] : gset Z)) in Hq. set_solver.
  - by apply (bool_decide_unpack _).
  - by apply (bool_decide_unpack _).
  - repeat constructor; by vm_compute.
  - intros e Hp. repeat (apply elem_of_cons in Hp as [-> | Hp]; [vm_compute; eauto|]). by apply not_elem_of_nil in Hp.
  - by apply ringbuffer_init_spec.
  - constructor.
  - done.
  - by eexists.
Qed.
Lemma due_event_called_witness :
  exists b x recent, @get_event 10 b = Ok (b, x) /\ @looper_round layout16 demo_os demo_callbacks 3 0 0 demo_due =
    (rc ← @callback demo_callbacks (cb x) 10 ASYNC_EVENT_ADDITION_DATA_TIMEOUT;
     recent ← (if rc =? 0 then _ ← on_heap (fun h => list_move h 10 FREE); mret recent else
               x ← get_event 10; _ ← put_event 10 (MkEvent (cb x) (timeout x) (u32 (1 + timeout x)) (dat x));
               check_timestamp 10 recent);
     now ← @os_get_time demo_os;
     @finish layout16 demo_os demo_callbacks 3 0 recent now) b.
Proof.
  destruct (@due_event_called layout16 demo_os demo_callbacks ltac:(done) demo_callback_keeps demo_callback_stamps
    demo_pool demo_due [11] [] 10 [] [] [] 0 0 0 3) as (b & x & recent & _ & E & E'); [exact demo_due_inv| |by vm_compute; lia|done|done|by vm_compute|].
  { intros e t ->%list_elem_of_singleton Es. vm_compute in Es. injection Es as <-. done. }
  exists b, x, recent. split; [exact E|exact E'].
Defined.
