(* ===== verification/SoftI2c.v ===== *)
(** The bit-banged I2C master of src/src/i2c/softi2c.c on two GPIO pins, and
    its behaviour on a simulated bus: the symbols an observer of the two
    lines sees, and what the caller gets back. *)
From S2P Require Import Prelude Bus.

(** ** The driver

    [struct softi2c_platform] are the two pins. *)
Section softi2c.
  Context {W : Type} `{GpioOps W} (scl sda : Z).

Definition start : M W unit :=
  _ ← gpio_set_output scl 1;
  _ ← gpio_set_output sda 1;
  _ ← gpio_set_output sda 0;
  _ ← gpio_set_output scl 0;
  mret tt.
Definition stop : M W unit :=
  _ ← gpio_set_output sda 0;
  _ ← gpio_set_output scl 1;
  _ ← gpio_set_output sda 1;
  mret tt.
Definition restart : M W unit :=
  _ ← gpio_set_output sda 1;
  _ ← gpio_set_output scl 1;
  _ ← gpio_set_output sda 0;
  _ ← gpio_set_output scl 0;
  mret tt.

  (** The loop that polls SCL leaves as soon as SCL is low. *)
Fixpoint stretch (n : nat) : M W unit :=
  match n with
  | O => mret tt
  | S n => v ← gpio_input_is_high scl; if negb (ctrue v) then mret tt else stretch n
  end.
Definition onebit (bit : Z) : M W Z :=
  _ ← gpio_set_output sda bit;
  _ ← gpio_set_output scl 1;
  _ ← stretch 100;
  bit ← gpio_input_is_high sda;
  _ ← gpio_set_output scl 0;
  mret bit.

  (** [for (ret = 0, bit = 0x80; bit != 0x00; bit = bit >> 1)] *)
Fixpoint onebyte_loop (n : nat) (dat bit ret : Z) : M W Z :=
  match n with
  | O => mret ret
  | S n =>
    v ← onebit (Z.land dat bit);
    onebyte_loop n dat (Z.shiftr bit 1) (if ctrue v then Z.lor ret bit else ret)
  end.
Definition onebyte (dat : Z) : M W Z := onebyte_loop 8 dat 128 0.

Definition softi2c_init : M W Z :=
  ok ← gpio_init scl GPIO_MODE_OUTPUT_OPENDRAIN;
  if 0 =? ok then mret 0 else
  ok ← gpio_init sda GPIO_MODE_OUTPUT_OPENDRAIN;
  if 0 =? ok then mret 0 else
  _ ← stop; mret 1.
Definition softi2c_deinit : M W unit := mret tt.

  (** The data bytes of a write: how many were sent before the first that
      was not acknowledged, and whether all were. *)
Fixpoint write_loop (n : nat) (dat : list Z) (i : Z) : M W (Z * bool) :=
  match n with
  | O => mret (i, true)
  | S n =>
    b ← pure (bget dat i);
    _ ← onebyte b;
    nack ← onebit 1;
    if negb (0 =? nack) then mret (i, false) else write_loop n dat (i + 1)
  end.
Fixpoint read_loop (n : nat) (dat : list Z) (i len : Z) : M W (Z * list Z) :=
  match n with
  | O => mret (i, dat)
  | S n =>
    b ← onebyte 255;
    dat ← pure (bset dat i b);
    _ ← onebit (cbool (len <=? i + 1));
    read_loop n dat (i + 1) len
  end.

Definition softi2c_write (addr : Z) (dat : list Z) (len : Z) : M W Z :=
  _ ← start;
  _ ← onebyte (u8 (Z.shiftl addr 1));
  nack ← onebit 1;
  if negb (0 =? nack) then _ ← stop; mret 0 else
  '(i, _) ← write_loop (Z.to_nat len) dat 0;
  _ ← stop;
  mret i.
Definition softi2c_read (addr : Z) (dat : list Z) (len : Z) : M W (Z * list Z) :=
  _ ← start;
  _ ← onebyte (u8 (Z.shiftl addr 1 + 1));
  nack ← onebit 1;
  if negb (0 =? nack) then _ ← stop; mret (0, dat) else
  '(i, dat) ← read_loop (Z.to_nat len) dat 0 len;
  _ ← stop;
  mret (i, dat).

  (** Null pointers and zero lengths skip a phase. *)
Definition present (p : option (list Z)) (len : Z) : bool :=
  match p with Some _ => negb (len =? 0) | None => false end.
Definition write_phase (addr : Z) (w : option (list Z)) (wlen : Z) (reading : bool) : M W (Z * bool) :=
  match w with
  | Some dat =>
    if wlen =? 0 then mret (0, true) else
    _ ← onebyte (u8 (Z.shiftl addr 1));
    nack ← onebit 1;
    if negb (0 =? nack) then mret (0, false) else
    '(i, ok) ← write_loop (Z.to_nat wlen) dat 0;
    if (ok : bool) then
      _ ← (if reading then restart else mret tt); mret (i, true)
    else mret (i, false)
  | None => mret (0, true)
  end.
Definition read_phase (addr : Z) (r : option (list Z)) (rlen : Z) : M W (Z * option (list Z)) :=
  match r with
  | Some dat =>
    if rlen =? 0 then mret (0, r) else
    _ ← onebyte (u8 (Z.shiftl addr 1 + 1));
    nack ← onebit 1;
    if negb (0 =? nack) then mret (0, r) else
    '(i, dat) ← read_loop (Z.to_nat rlen) dat 0 rlen;
    mret (i, Some dat)
  | None => mret (0, r)
  end.
Definition softi2c_write_then_read (addr : Z) (w : option (list Z)) (wlen : Z) (r : option (list Z)) (rlen : Z)
    : M W (Z * option (list Z)) :=
  _ ← start;
  '(written, ok) ← write_phase addr w wlen (present r rlen);
  '(readed, r) ← (if (ok : bool) then read_phase addr r rlen else mret (0, r));
  _ ← stop;
  mret (u8 (readed + written), r).

#[export] Instance softi2c_ops : I2cOps W := {
  i2c_ops_init := softi2c_init;
  i2c_ops_deinit := softi2c_deinit;
  i2c_ops_transmit := softi2c_write_then_read
}.
End softi2c.

(** ** A bus to run it on

    The lines as the master drives them, the bits a slave puts on SDA during
    the coming clock pulses (1: released), and the symbols an observer has
    seen. A bit counts when SCL falls after a pulse without START or STOP. *)
Inductive symbol := START | STOP | BIT (b : Z).
Record bus := MkBus { b_scl : Z; b_sda : Z; b_armed : bool; b_slave : list Z; b_trace : list symbol }.
Definition SCL := 0.
Definition SDA := 1.

Definition line_sda (w : bus) : Z := Z.min (b_sda w) (default 1 (head (b_slave w))).
Definition set_scl (v : Z) (w : bus) : bus :=
  if v =? b_scl w then w
  else if v =? 1 then MkBus 1 (b_sda w) true (b_slave w) (b_trace w)
  else if b_armed w then MkBus 0 (b_sda w) false (tail (b_slave w)) (b_trace w ++ [BIT (line_sda w)])
  else MkBus 0 (b_sda w) false (b_slave w) (b_trace w).
Definition set_sda (v : Z) (w : bus) : bus :=
  if v =? b_sda w then w
  else if b_scl w =? 1 then
    MkBus (b_scl w) v false (b_slave w) (b_trace w ++ [if v =? 1 then STOP else START])
  else MkBus (b_scl w) v (b_armed w) (b_slave w) (b_trace w).

#[export] Instance bus_gpio : GpioOps bus := {
  gpio_ops_init := fun _ _ w => Ok (w, 1);
  gpio_ops_get_mode := fun _ w => Ok (w, GPIO_MODE_OUTPUT_OPENDRAIN);
  gpio_ops_input_is_high := fun io w => Ok (w, if io =? SCL then b_scl w else line_sda w);
  gpio_ops_output_is_high := fun io w => Ok (w, if io =? SCL then b_scl w else b_sda w);
  gpio_ops_set_output := fun io v w =>
    let v := cbool (ctrue v) in Ok (if io =? SCL then set_scl v w else set_sda v w, 1)
}.

(** The idle bus, before and after a transaction, and inside one. *)
Definition idle (slave : list Z) (t : list symbol) : bus := MkBus 1 1 false slave t.
Definition busy (d : Z) (slave : list Z) (t : list symbol) : bus := MkBus 0 d false slave t.

(** The bits of a byte, most significant first, and back. *)
Definition bits8 (d : Z) : list Z := map (fun k => Z.b2z (Z.testbit d k)) [7; 6; 5; 4; 3; 2; 1; 0].
Definition released : list Z := replicate 8 1.

(** ** Lemmas: the driver's operations on the bus *)
Lemma bit_mask d k : In k [7; 6; 5; 4; 3; 2; 1; 0] -> cbool (ctrue (Z.land d (2 ^ k))) = Z.b2z (Z.testbit d k).
Proof.
  intros Hk. assert (0 <= k) by (cbn in Hk; lia). unfold ctrue.
  assert (E : (Z.land d (2 ^ k) =? 0) = negb (Z.testbit d k)).
  { destruct (Z.testbit d k) eqn:T.
    - apply Z.eqb_neq. intros E. apply (f_equal (fun z => Z.testbit z k)) in E.
      by rewrite Z.land_spec, Z.bits_0, T, Z.pow2_bits_true in E.
    - apply Z.eqb_eq. apply Z.bits_inj'. intros n Hn. rewrite Z.land_spec, Z.bits_0, Z.pow2_bits_eqb by lia.
      destruct (Z.eqb_spec k n) as [<-|]; [by rewrite T|by rewrite andb_false_r]. }
  rewrite E. by destruct (Z.testbit d k).
Qed.

Lemma stretch_high n w : b_scl w = 1 -> stretch SCL n w = Ok (w, tt).
Proof. intros E. induction n as [|n IH]; cbn; [done|]. unfold mbind, M_bind. cbn. rewrite E. cbn. exact IH. Qed.

Lemma bus_set_output io v w :
  gpio_set_output io v w = Ok (if io =? SCL then set_scl (cbool (ctrue v)) w else set_sda (cbool (ctrue v)) w, 1).
Proof. done. Qed.

Lemma set_sda_busy v d slave t : set_sda v (busy d slave t) = busy v slave t.
Proof. unfold set_sda, busy. cbn. destruct (Z.eqb_spec v d) as [->|]; done. Qed.

Lemma onebit_sim bit d s slave t (v := cbool (ctrue bit)) :
  onebit SCL SDA bit (busy d (s :: slave) t) = Ok (busy v slave (t ++ [BIT (Z.min v s)]), Z.min v s).
Proof.
  unfold onebit. rewrite (M_bind_Ok _ _ _ _ _ (bus_set_output SDA bit _)).
  change (SDA =? SCL) with false. cbv iota. rewrite set_sda_busy. fold v.
  rewrite (M_bind_Ok _ _ _ _ _ (bus_set_output SCL 1 _)).
  erewrite M_bind_Ok by (by apply stretch_high). done.
Qed.

Lemma testbit_min d x k : Z.min (Z.b2z (Z.testbit d k)) (Z.b2z (Z.testbit x k)) = Z.b2z (Z.testbit (Z.land d x) k).
Proof. rewrite Z.land_spec. by destruct (Z.testbit d k), (Z.testbit x k). Qed.

(** A byte assembled from its bits the way [onebyte] does. *)
Definition assemble (y : Z) : Z :=
  foldl (fun ret k => if ctrue (Z.b2z (Z.testbit y k)) then Z.lor ret (2 ^ k) else ret) 0 [7; 6; 5; 4; 3; 2; 1; 0].
Lemma assemble_byte y : 0 <= y < 256 -> assemble y = y.
Proof.
  intros H. apply Z.eqb_eq.
  apply (range_forallb 256 (fun y => assemble y =? y) 0); [vm_compute; reflexivity|lia].
Qed.

Lemma onebyte_sim d x d0 rest t :
  0 <= Z.land d x < 256 ->
  onebyte SCL SDA d (busy d0 (bits8 x ++ rest) t)
  = Ok (busy (Z.b2z (Z.testbit d 0)) rest (t ++ map BIT (bits8 (Z.land d x))), Z.land d x).
Proof.
  intros Hy. unfold onebyte.
  assert (step : forall n k d0 slave t ret, In k [7; 6; 5; 4; 3; 2; 1; 0] ->
    onebyte_loop SCL SDA (S n) d (2 ^ k) ret (busy d0 (Z.b2z (Z.testbit x k) :: slave) t)
    = onebyte_loop SCL SDA n d (Z.shiftr (2 ^ k) 1)
        (if ctrue (Z.b2z (Z.testbit (Z.land d x) k)) then Z.lor ret (2 ^ k) else ret)
        (busy (Z.b2z (Z.testbit d k)) slave (t ++ [BIT (Z.b2z (Z.testbit (Z.land d x) k))]))).
  { intros n k d1 slave t1 ret Hk. cbn [onebyte_loop]. erewrite M_bind_Ok by apply onebit_sim.
    by rewrite (bit_mask d k Hk), testbit_min. }
  change 128 with (2 ^ 7). unfold bits8 at 1. cbn [map app].
  do 8 (rewrite step by (cbn; tauto); match goal with |- context [Z.shiftr (2 ^ ?k) 1] =>
    let v := eval vm_compute in (k - 1) in try change (Z.shiftr (2 ^ k) 1) with (2 ^ v) end).
  rewrite <- !app_assoc. cbn [onebyte_loop]. change (onebyte_loop SCL SDA 0) with (fun (_ _ r : Z) => mret (M := M bus) r).
  unfold mret, M_ret. f_equal. f_equal. apply (assemble_byte _ Hy).
Qed.

(** What the observer of the lines sees: a byte and its acknowledge bit. *)
Definition frame (d ack : Z) : list symbol := map BIT (bits8 d) ++ [BIT ack].
(** What a slave drives during a byte it listens to, answering [ack], and
    during a byte [x] it sends, leaving the acknowledge bit to the master. *)
Definition listen (ack : Z) : list Z := released ++ [ack].
Definition speak (x : Z) : list Z := bits8 x ++ [1].

Lemma released_bits8 : released = bits8 255.
Proof. done. Qed.
Lemma land_255 d : 0 <= d < 256 -> Z.land d 255 = d.
Proof. intros H. change 255 with (Z.ones 8). rewrite Z.land_ones by lia. by apply Z.mod_small. Qed.
Lemma land_255_l d : 0 <= d < 256 -> Z.land 255 d = d.
Proof. rewrite Z.land_comm. apply land_255. Qed.

(** One byte written, with the slave's answer. *)
Lemma send_byte_sim {A} (k : Z -> M bus A) d ack d0 rest t :
  0 <= d < 256 -> ack = 0 \/ ack = 1 ->
  mbind (fun _ : Z => mbind k (onebit SCL SDA 1)) (onebyte SCL SDA d) (busy d0 (listen ack ++ rest) t)
  = k ack (busy 1 rest (t ++ frame d ack)).
Proof.
  intros Hd Ha. unfold listen. rewrite <- app_assoc, released_bits8.
  erewrite M_bind_Ok by (apply onebyte_sim; rewrite land_255; lia).
  cbn [app]. erewrite M_bind_Ok by apply onebit_sim.
  change (cbool (ctrue 1)) with 1. replace (Z.min 1 ack) with ack by lia.
  rewrite land_255 by lia. unfold frame. by rewrite <- app_assoc.
Qed.

Lemma write_loop_cons n dat i :
  write_loop SCL SDA (S n) dat i = (b ← pure (bget dat i); _ ← onebyte SCL SDA b; nack ← onebit SCL SDA 1;
    if negb (0 =? nack) then mret (i, false) else write_loop SCL SDA n dat (i + 1)).
Proof. done. Qed.

(** Acknowledged bytes are all sent. *)
Lemma write_loop_acked : forall l pre post n d0 rest t,
  Forall (fun b => 0 <= b < 256) l ->
  write_loop SCL SDA (length l + n) (pre ++ l ++ post) (Zlen pre)
    (busy d0 (concat (map (fun _ => listen 0) l) ++ rest) t)
  = write_loop SCL SDA n ((pre ++ l) ++ post) (Zlen (pre ++ l))
      (busy (if l is [] then d0 else 1) rest (t ++ concat (map (fun b => frame b 0) l))).
Proof.
  induction l as [|b l IH]; intros pre post n d0 rest t Hl.
  - cbn. by rewrite !app_nil_r.
  - inversion Hl as [|? ? Hb Hl']; subst. cbn [length Nat.add map concat app]. rewrite write_loop_cons.
    erewrite pure_bind_Ok by apply bget_middle.
    rewrite <- app_assoc, send_byte_sim by (auto; lia). change (0 =? 0) with true. cbn [negb].
    specialize (IH (pre ++ [b]) post n 1 rest (t ++ frame b 0) Hl').
    rewrite <- !app_assoc in IH. cbn [app] in IH.
    rewrite (Zlen_app pre [b]) in IH. change (Zlen [b]) with 1 in IH. rewrite IH. cbn [app].
    rewrite <- !app_assoc. cbn [app]. by destruct l.
Qed.

(** Bytes the slave sends: the master answers all but the last. *)
Fixpoint read_frames (xs : list Z) : list symbol :=
  match xs with
  | [] => []
  | x :: xs => frame x (if xs is [] then 1 else 0) ++ read_frames xs
  end.

Lemma read_loop_sim dat : forall xs pre d0 rest t len,
  Forall (fun b => 0 <= b < 256) xs -> len = Zlen pre + Zlen xs -> len <= Zlen dat ->
  d0 = 0 \/ d0 = 1 ->
  exists d, (d = 0 \/ d = 1) /\ read_loop SCL SDA (length xs) (overwrite dat 0 pre) (Zlen pre) len
    (busy d0 (concat (map speak xs) ++ rest) t)
  = Ok (busy d rest (t ++ read_frames xs), (len, overwrite dat 0 (pre ++ xs))).
Proof.
  induction xs as [|x xs IH]; intros pre d0 rest t len Hx Hlen Hd Hd0.
  - exists d0. split; [done|]. cbn. rewrite !app_nil_r. change (Zlen (@nil Z)) with 0 in Hlen. rewrite Z.add_0_r in Hlen. by subst.
  - inversion Hx as [|? ? Hb Hx']; subst. pose proof (Zlen_nonneg pre). pose proof (Zlen_nonneg xs).
    cbn [length map concat]. unfold speak at 1. rewrite <- !app_assoc. cbn [read_loop].
    erewrite M_bind_Ok by (apply onebyte_sim; rewrite land_255_l; lia).
    rewrite land_255_l by lia. cbn [app]. rewrite (Zlen_cons x xs) in *.
    erewrite pure_bind_Ok by (apply bset_overwrite; lia).
    erewrite M_bind_Ok by apply onebit_sim.
    set (v := cbool (ctrue (cbool (Zlen pre + (1 + Zlen xs) <=? Zlen pre + 1)))).
    assert (Ev : v = if xs is [] then 1 else 0).
    { unfold v. destruct xs as [|y xs]; [change (Zlen (@nil Z)) with 0|rewrite Zlen_cons];
        [rewrite (proj2 (Z.leb_le _ _)) by lia; done|].
      pose proof (Zlen_nonneg xs). rewrite (proj2 (Z.leb_gt _ _)) by lia. done. }
    replace (Z.min v 1) with v by (rewrite Ev; by destruct xs).
    destruct (IH (pre ++ [x]) v rest (t ++ frame x v) (Zlen pre + (1 + Zlen xs)) Hx') as (d & Hd' & E); [zlen; lia|lia|rewrite Ev; destruct xs; auto|].
    exists d. split; [done|]. rewrite (Zlen_app pre), Zlen_cons in E. change (Zlen (@nil Z)) with 0 in E.
    replace (Zlen pre + (1 + 0)) with (Zlen pre + 1) in E by lia.
    unfold frame in E. rewrite <- !app_assoc in E. rewrite <- !app_assoc. cbn [app] in E |- *. rewrite E.
    cbn [read_frames]. unfold frame. rewrite <- Ev, <- !app_assoc. done.
Qed.

(** START, repeated START and STOP. *)
Lemma start_sim slave t : start SCL SDA (idle slave t) = Ok (busy 0 slave (t ++ [START]), tt).
Proof. done. Qed.
Lemma restart_sim d slave t : d = 0 \/ d = 1 -> restart SCL SDA (busy d slave t) = Ok (busy 0 slave (t ++ [START]), tt).
Proof. by intros [-> | ->]. Qed.
Lemma stop_sim d slave t : d = 0 \/ d = 1 -> stop SCL SDA (busy d slave t) = Ok (idle slave (t ++ [STOP]), tt).
Proof. by intros [-> | ->]. Qed.

Lemma u8_range x : 0 <= u8 x < 256.
Proof. apply (wrap_range 8 x). lia. Qed.

(** A write phase that the slave acknowledges throughout, before a read. *)
Lemma write_phase_acked addr l post rest t :
  l <> [] -> Forall (fun b => 0 <= b < 256) l ->
  write_phase SCL SDA addr (Some (l ++ post)) (Zlen l) true
    (busy 0 (listen 0 ++ concat (map (fun _ => listen 0) l) ++ rest) t)
  = Ok (busy 0 rest (t ++ frame (u8 (Z.shiftl addr 1)) 0 ++ concat (map (fun b => frame b 0) l) ++ [START]), (Zlen l, true)).
Proof.
  intros Hn Hl. unfold write_phase. rewrite (Zlen_eqb0 l Hn).
  rewrite send_byte_sim by (auto using u8_range). change (negb (0 =? 0)) with false. cbv iota.
  pose proof (write_loop_acked l [] post 0 1 rest (t ++ frame (u8 (Z.shiftl addr 1)) 0) Hl) as E.
  cbn [app] in E. rewrite Nat.add_0_r in E. change (Zlen (@nil Z)) with 0 in E. rewrite Zlen_to_nat.
  erewrite M_bind_Ok by (rewrite E; reflexivity). cbv beta iota.
  erewrite M_bind_Ok by (apply restart_sim; destruct l; auto). by rewrite <- !app_assoc.
Qed.

(** The slave acknowledges [l] and refuses the byte after it. *)
Lemma write_phase_refused addr l b post rest t reading :
  Forall (fun b => 0 <= b < 256) (l ++ [b]) ->
  write_phase SCL SDA addr (Some (l ++ b :: post)) (Zlen (l ++ b :: post)) reading
    (busy 0 (listen 0 ++ concat (map (fun _ => listen 0) l) ++ listen 1 ++ rest) t)
  = Ok (busy 1 rest (t ++ frame (u8 (Z.shiftl addr 1)) 0 ++ concat (map (fun b => frame b 0) l) ++ frame b 1), (Zlen l, false)).
Proof.
  intros [Hl Hb]%Forall_app. apply Forall_inv in Hb. unfold write_phase.
  rewrite (Zlen_eqb0 (l ++ b :: post)) by (by destruct l).
  rewrite send_byte_sim by (auto using u8_range). change (negb (0 =? 0)) with false. cbv iota.
  pose proof (write_loop_acked l [] (b :: post) (S (length post)) 1 (listen 1 ++ rest) (t ++ frame (u8 (Z.shiftl addr 1)) 0) Hl) as E.
  cbn [app] in E. change (Zlen (@nil Z)) with 0 in E. rewrite Zlen_to_nat, length_app. cbn [length].
  rewrite write_loop_cons in E. erewrite pure_bind_Ok in E by apply bget_middle.
  rewrite send_byte_sim in E by (auto; lia). change (negb (0 =? 1)) with true in E. cbv iota in E.
  rewrite (M_bind_Ok _ _ _ _ _ E). cbv beta iota. unfold mret, M_ret. by rewrite <- !app_assoc.
Qed.

Lemma read_phase_acked addr r xs rest t :
  xs <> [] -> Forall (fun b => 0 <= b < 256) xs -> Zlen xs <= Zlen r ->
  exists d, (d = 0 \/ d = 1) /\
  read_phase SCL SDA addr (Some r) (Zlen xs) (busy 0 (listen 0 ++ concat (map speak xs) ++ rest) t)
  = Ok (busy d rest (t ++ frame (u8 (Z.shiftl addr 1 + 1)) 0 ++ read_frames xs), (Zlen xs, Some (overwrite r 0 xs))).
Proof.
  intros Hn Hx Hr. unfold read_phase. rewrite (Zlen_eqb0 xs Hn).
  rewrite send_byte_sim by (auto using u8_range). change (negb (0 =? 0)) with false. cbv iota.
  destruct (read_loop_sim r xs [] 1 rest (t ++ frame (u8 (Z.shiftl addr 1 + 1)) 0) (Zlen xs) Hx) as (d & Hd & E);
    [done|done|auto|].
  rewrite overwrite_nil in E. cbn [app] in E. change (Zlen (@nil Z)) with 0 in E. rewrite Zlen_to_nat.
  exists d. split; [done|]. rewrite (M_bind_Ok _ _ _ _ _ E). cbv beta iota. unfold mret, M_ret. by rewrite <- !app_assoc.
Qed.

Lemma softi2c_transaction_eq (addr : Z) (l post r xs rest : list Z) (t : list symbol) :
  Forall (fun b => 0 <= b < 256) l -> Forall (fun b => 0 <= b < 256) xs -> xs <> [] -> Zlen xs <= Zlen r -> l <> [] ->
  let W := frame (u8 (Z.shiftl addr 1)) in
  let R := frame (u8 (Z.shiftl addr 1 + 1)) in
  let sent l := concat (map (fun b => frame b 0) l) in
  let acks l := concat (map (fun _ => listen 0) l) in
  softi2c_write_then_read SCL SDA addr (Some (l ++ post)) (Zlen l) (Some r) (Zlen xs)
    (idle (listen 0 ++ acks l ++ listen 0 ++ concat (map speak xs) ++ rest) t)
  = Ok (idle rest (t ++ [START] ++ W 0 ++ sent l ++ [START] ++ R 0 ++ read_frames xs ++ [STOP]),
        (u8 (Zlen xs + Zlen l), Some (overwrite r 0 xs))) /\
  (forall l1 b l2, l = l1 ++ b :: l2 ->
   softi2c_write_then_read SCL SDA addr (Some l) (Zlen l) (Some r) (Zlen xs) (idle (listen 0 ++ acks l1 ++ listen 1 ++ rest) t)
   = Ok (idle rest (t ++ [START] ++ W 0 ++ sent l1 ++ frame b 1 ++ [STOP]), (u8 (Zlen l1), Some r))) /\
  softi2c_write_then_read SCL SDA addr (Some (l ++ post)) (Zlen l) (Some r) (Zlen xs) (idle (listen 1 ++ rest) t)
  = Ok (idle rest (t ++ [START] ++ W 1 ++ [STOP]), (0, Some r)).
Proof.
  intros Hl Hx Hnx Hr Hnl. cbv zeta. unfold softi2c_write_then_read.
  assert (Hp : present (Some r) (Zlen xs) = true) by (cbn; by rewrite (Zlen_eqb0 xs Hnx)).
  rewrite Hp. split; [|split].
  - erewrite M_bind_Ok by apply start_sim.
    erewrite M_bind_Ok by (apply write_phase_acked; done). cbv beta iota.
    match goal with |- context [busy 0 _ ?t1] => destruct (read_phase_acked addr r xs rest t1 Hnx Hx Hr) as (d & Hd & E) end.
    erewrite M_bind_Ok by exact E. cbv beta iota. erewrite M_bind_Ok by (apply stop_sim; done).
    unfold mret, M_ret. by rewrite <- !app_assoc.
  - intros l1 b l2 ->. erewrite M_bind_Ok by apply start_sim.
    erewrite M_bind_Ok.
    2:{ apply write_phase_refused. rewrite cons_middle, app_assoc in Hl. by apply Forall_app in Hl as [? _]. }
    cbv beta iota. erewrite M_bind_Ok by reflexivity. cbv beta iota. erewrite M_bind_Ok by (apply stop_sim; auto).
    unfold mret, M_ret. by rewrite <- !app_assoc.
  - erewrite M_bind_Ok by apply start_sim. unfold write_phase.
    rewrite (Zlen_eqb0 l Hnl).
    erewrite M_bind_Ok by (rewrite send_byte_sim by (auto using u8_range); reflexivity).
    cbv beta iota. erewrite M_bind_Ok by reflexivity. cbv beta iota. erewrite M_bind_Ok by (apply stop_sim; auto).
    unfold mret, M_ret. by rewrite <- !app_assoc.
Qed.

(** C16: What a transaction of the bit-banged master looks like on the bus
    and to its caller, whatever the address and the bytes.
    - a slave that acknowledges everything sees START, the write address, the
      bytes of the write, a repeated START, the read address, then its own
      bytes with every one but the last acknowledged, and STOP; the bytes it
      sent are in the read buffer, and the count is that of both phases;
    - a slave that refuses a data byte sees STOP next, nothing is read and
      the count is that of the bytes it accepted;
    - when nobody answers to the address, STOP follows it and the count is 0. *)
Theorem softi2c_transaction (addr : Z) (l post r xs rest : list Z) (t : list symbol) :
  Forall (fun b => 0 <= b < 256) l -> Forall (fun b => 0 <= b < 256) xs -> xs <> [] -> Zlen xs <= Zlen r -> l <> [] ->
  let W := frame (u8 (Z.shiftl addr 1)) in
  let R := frame (u8 (Z.shiftl addr 1 + 1)) in
  let sent l := concat (map (fun b => frame b 0) l) in
  let acks l := concat (map (fun _ => listen 0) l) in
  softi2c_write_then_read SCL SDA addr (Some (l ++ post)) (Zlen l) (Some r) (Zlen xs)
    (idle (listen 0 ++ acks l ++ listen 0 ++ concat (map speak xs) ++ rest) t)
  = Ok (idle rest (t ++ [START] ++ W 0 ++ sent l ++ [START] ++ R 0 ++ read_frames xs ++ [STOP]),
        (u8 (Zlen xs + Zlen l), Some (overwrite r 0 xs))) /\
  (forall l1 b l2, l = l1 ++ b :: l2 ->
   softi2c_write_then_read SCL SDA addr (Some l) (Zlen l) (Some r) (Zlen xs) (idle (listen 0 ++ acks l1 ++ listen 1 ++ rest) t)
   = Ok (idle rest (t ++ [START] ++ W 0 ++ sent l1 ++ frame b 1 ++ [STOP]), (u8 (Zlen l1), Some r))) /\
  softi2c_write_then_read SCL SDA addr (Some (l ++ post)) (Zlen l) (Some r) (Zlen xs) (idle (listen 1 ++ rest) t)
  = Ok (idle rest (t ++ [START] ++ W 1 ++ [STOP]), (0, Some r)).
Proof. apply softi2c_transaction_eq. Qed.
Lemma softi2c_transaction_witness :
  let fr := frame in
  softi2c_write_then_read SCL SDA 80 (Some ([0; 7] ++ [])) 2 (Some [1; 1; 1]) 2
    (idle (listen 0 ++ (listen 0 ++ listen 0 ++ []) ++ listen 0 ++ (speak 170 ++ speak 85 ++ []) ++ []) [])
  = Ok (idle [] ([START] ++ fr 160 0 ++ (fr 0 0 ++ fr 7 0 ++ []) ++ [START] ++ fr 161 0 ++ (fr 170 0 ++ fr 85 1 ++ []) ++ [STOP]),
        (4, Some [170; 85; 1])).
Proof.
  destruct (softi2c_transaction 80 [0; 7] [] [1; 1; 1] [170; 85] [] []) as [E _];
    [by apply bytes_ok|by apply bytes_ok|done|by cbn|done|].
  revert E. vm_compute. exact id.
Defined.

(** The clock-stretching loop does not wait for the slave: it leaves at the
    first poll that finds SCL held low, and spins while SCL is high. *)
Lemma stretch_does_not_wait {W} `{GpioOps W} scl n (w w1 : W) :
  gpio_input_is_high scl w = Ok (w1, 0) -> stretch scl (S n) w = Ok (w1, tt).
Proof. intros E. cbn [stretch]. by rewrite (M_bind_Ok _ _ _ _ _ E). Qed.
