(* ===== verification/SoftSpi.v ===== *)
(** The bit-banged SPI master of src/src/spi/softspi.c on GPIO pins, in its
    four clocking modes, and its behaviour against a simulated slave. *)
From S2P Require Import Prelude Bus.

(** ** The driver

    [struct softspi_platform]; [struct softspi] is its flags and this. *)
Record softspi_platform := { clk : Z; mosi : Z; miso : Z; cs_pins : list Z; cs_num : Z }.

Section softspi.
  Context {W : Type} `{GpioOps W} (plat : softspi_platform).

Fixpoint init_cs (n : nat) (i : Z) : M W unit :=
  match n with
  | O => mret tt
  | S n =>
    pin ← pure (bget (cs_pins plat) i);
    _ ← gpio_init pin GPIO_MODE_OUTPUT_PUSHPULL;
    _ ← gpio_set_output pin 1;
    init_cs n (i + 1)
  end.
  (** The new [bus->flags] and the result. *)
Definition softspi_init (flags : Z) : M W (Z * Z) :=
  _ ← init_cs (Z.to_nat (cs_num plat)) 0;
  _ ← gpio_init (clk plat) GPIO_MODE_OUTPUT_PUSHPULL;
  _ ← gpio_set_output (clk plat) (Z.land flags SPI_FLAG_CLK_IDLE_HIGH);
  _ ← gpio_init (mosi plat) GPIO_MODE_OUTPUT_PUSHPULL;
  _ ← gpio_init (miso plat) GPIO_MODE_INPUT;
  mret (flags, 1).
Definition softspi_deinit : M W unit := mret tt.
Definition softspi_select (which is_select : Z) : M W Z :=
  if cs_num plat <=? which then mret 0 else
  pin ← pure (bget (cs_pins plat) which);
  _ ← gpio_set_output pin (cbool (is_select =? 0));
  mret 1.

  (** [for (b = 0x80u; b != 0u; b = b >> 1)] and
      [for (b = 0x01; b != 0; b = b << 1)] in a [uint8_t]. *)
Definition masks_msb_first : list Z := [128; 64; 32; 16; 8; 4; 2; 1].
Definition masks_lsb_first : list Z := [1; 2; 4; 8; 16; 32; 64; 128].

  (** One round of each of the four loops: [s] is sent, [r] collects. *)
Definition bit_1st_edge_msb_first (s idle b r : Z) : M W Z :=
  _ ← gpio_set_output (mosi plat) (cbool (negb (0 =? Z.land b s)));
  _ ← gpio_set_output (clk plat) (cbool (0 =? idle));
  v ← gpio_input_is_high (miso plat);
  let r := if ctrue v then Z.lor r b else r in
  _ ← gpio_set_output (clk plat) (cbool (negb (0 =? idle)));
  mret r.
Definition bit_2st_edge (s idle b r : Z) : M W Z :=
  _ ← gpio_set_output (clk plat) (cbool (0 =? idle));
  _ ← gpio_set_output (mosi plat) (cbool (negb (0 =? Z.land b s)));
  _ ← gpio_set_output (clk plat) (cbool (negb (0 =? idle)));
  v ← gpio_input_is_high (miso plat);
  mret (if ctrue v then Z.lor r b else r).
Definition bit_1st_edge_lsb_first (s idle b r : Z) : M W Z :=
  _ ← gpio_set_output (mosi plat) (cbool (negb (0 =? Z.land b s)));
  _ ← gpio_set_output (clk plat) (cbool (0 =? idle));
  v ← gpio_input_is_high (miso plat);
  let r := if ctrue v then Z.lor r b else r in
  _ ← gpio_set_output (clk plat) idle;
  mret r.
Fixpoint each_bit (f : Z -> Z -> M W Z) (bs : list Z) (r : Z) : M W Z :=
  match bs with
  | [] => mret r
  | b :: bs => r ← f b r; each_bit f bs r
  end.

  (** The byte behind [dat] after the call, and the result. *)
Definition transmit_1st_edge_msb_first (dat idle : Z) : M W (Z * Z) :=
  r ← each_bit (bit_1st_edge_msb_first dat idle) masks_msb_first 0; mret (r, 1).
Definition transmit_2st_edge_msb_first (dat idle : Z) : M W (Z * Z) :=
  r ← each_bit (bit_2st_edge dat idle) masks_msb_first 0; mret (r, 1).
Definition transmit_1st_edge_lsb_first (dat idle : Z) : M W (Z * Z) :=
  r ← each_bit (bit_1st_edge_lsb_first dat idle) masks_lsb_first 0; mret (r, 1).
Definition transmit_2st_edge_lsb_first (dat idle : Z) : M W (Z * Z) :=
  r ← each_bit (bit_2st_edge dat idle) masks_lsb_first 0; mret (r, 1).

Definition softspi_transmit_byte (flags dat : Z) : M W (Z * Z) :=
  let idle := Z.land flags SPI_FLAG_CLK_IDLE_HIGH in
  if ctrue (Z.land flags SPI_FLAG_LSB_FIRST) then
    if ctrue (Z.land flags SPI_FLAG_CLK_FIRST_EDGE) then transmit_1st_edge_lsb_first dat idle
    else transmit_2st_edge_lsb_first dat idle
  else
    if ctrue (Z.land flags SPI_FLAG_CLK_FIRST_EDGE) then transmit_1st_edge_msb_first dat idle
    else transmit_2st_edge_msb_first dat idle.
Definition softspi_transfer (flags garbage : Z) (r w : option (list Z)) (len : Z) : M W (Z * option (list Z)) :=
  spi_transfer_use_transmit_onebyte (softspi_transmit_byte flags) garbage r w len.
End softspi.

(** The operation table: the state carries [bus->flags] beside the pins. *)
Section ops.
  Context {W : Type} `{GpioOps W} (plat : softspi_platform) (garbage : Z).
Definition lift_pins {A} (m : M W A) : M (Z * W) A :=
  fun '(f, w) => match m w with Ok (w, a) => Ok ((f, w), a) | Err e => Err e end.
#[export] Instance softspi_ops : SpiOps (Z * W) := {
  spi_ops_init := fun flags '(f, w) =>
    match softspi_init plat flags w with Ok (w, (f, ok)) => Ok ((f, w), ok) | Err e => Err e end;
  spi_ops_deinit := lift_pins softspi_deinit;
  spi_ops_select := fun which is_select => lift_pins (softspi_select plat which is_select);
  spi_ops_transmit_byte := fun b '(f, w) => lift_pins (softspi_transmit_byte plat f b) (f, w);
  spi_ops_transfer := fun r w len '(f, s) => lift_pins (softspi_transfer plat f garbage r w len) (f, s)
}.
End ops.

(** ** A slave on the wires

    A slave of a given clock polarity and phase: the levels of the clock and
    of the two data lines, the bits it is going to send, and the bits it
    has sampled. *)
Record wires := MkWires { w_clk : Z; w_mosi : Z; w_miso : Z; w_out : list Z; w_in : list Z }.
Definition sample (w : wires) : wires :=
  MkWires (w_clk w) (w_mosi w) (w_miso w) (w_out w) (w_in w ++ [w_mosi w]).
Definition advance (w : wires) : wires :=
  MkWires (w_clk w) (w_mosi w) (default 0 (head (w_out w))) (tail (w_out w)) (w_in w).
Definition set_clk (idle : Z) (first : bool) (v : Z) (w : wires) : wires :=
  if v =? w_clk w then w else
  let w := MkWires v (w_mosi w) (w_miso w) (w_out w) (w_in w) in
  let leading := negb (v =? idle) in
  if eqb leading first then sample w else advance w.
Definition set_mosi (v : Z) (w : wires) : wires := MkWires (w_clk w) v (w_miso w) (w_out w) (w_in w).

(** The pins are numbered 0 (clock), 1 (MOSI), 2 (MISO); the chip select 3
    is not part of the slave. *)
Definition pins : softspi_platform := {| clk := 0; mosi := 1; miso := 2; cs_pins := [3]; cs_num := 1 |}.
Definition wires_gpio (idle : Z) (first : bool) : GpioOps wires := {|
  gpio_ops_init := fun _ _ w => Ok (w, 1);
  gpio_ops_get_mode := fun _ w => Ok (w, GPIO_MODE_OUTPUT_PUSHPULL);
  gpio_ops_input_is_high := fun io w => Ok (w, if io =? 2 then w_miso w else if io =? 0 then w_clk w else w_mosi w);
  gpio_ops_output_is_high := fun io w => Ok (w, if io =? 0 then w_clk w else w_mosi w);
  gpio_ops_set_output := fun io v w =>
    let v := cbool (ctrue v) in
    Ok (if io =? 0 then set_clk idle first v w else if io =? 1 then set_mosi v w else w, 1)
|}.

(** Between bytes: the clock is idle, [bits] are still to be sent. In the
    first-edge modes the first of them is on the line already. *)
Definition resting (idle : Z) (first : bool) (m o : Z) (bits inn : list Z) : wires :=
  if first then MkWires idle m (default 0 (head bits)) (tail bits) inn
  else MkWires idle m o bits inn.

Definition flag_bits (idle : Z) (first lsb : bool) : Z :=
  Z.lor (Z.lor idle (if first then SPI_FLAG_CLK_FIRST_EDGE else SPI_FLAG_CLK_SECOND_EDGE))
    (if lsb then SPI_FLAG_LSB_FIRST else SPI_FLAG_MSB_FIRST).
Definition order (lsb : bool) : list Z := if lsb then [0; 1; 2; 3; 4; 5; 6; 7] else [7; 6; 5; 4; 3; 2; 1; 0].
Definition wire_bits (lsb : bool) (d : Z) : list Z := map (fun k => Z.b2z (Z.testbit d k)) (order lsb).

Lemma mask_bit s k : 0 <= k -> cbool (ctrue (cbool (negb (0 =? Z.land (2 ^ k) s)))) = Z.b2z (Z.testbit s k).
Proof.
  intros Hk. rewrite Z.land_comm.
  assert (E : (0 =? Z.land s (2 ^ k)) = negb (Z.testbit s k)).
  { rewrite Z.eqb_sym. destruct (Z.testbit s k) eqn:T.
    - apply Z.eqb_neq. intros E. apply (f_equal (fun z => Z.testbit z k)) in E.
      by rewrite Z.land_spec, Z.bits_0, T, Z.pow2_bits_true in E.
    - apply Z.eqb_eq. apply Z.bits_inj'. intros n Hn. rewrite Z.land_spec, Z.bits_0, Z.pow2_bits_eqb by lia.
      destruct (Z.eqb_spec k n) as [<-|]; [by rewrite T|by rewrite andb_false_r]. }
  rewrite E. by destruct (Z.testbit s k).
Qed.

(** The round of the loop that the flags select. *)
Definition bit_op {W} `{GpioOps W} (plat : softspi_platform) (first lsb : bool) (s idle b r : Z) : M W Z :=
  if first then
    if lsb then bit_1st_edge_lsb_first plat s idle b r else bit_1st_edge_msb_first plat s idle b r
  else bit_2st_edge plat s idle b r.

Lemma bit_sim idle first lsb s k r m o b bits inn :
  idle = 0 \/ idle = 1 -> 0 <= k ->
  @bit_op wires (wires_gpio idle first) pins first lsb s idle (2 ^ k) r (resting idle first m o (b :: bits) inn)
  = Ok (resting idle first (Z.b2z (Z.testbit s k)) b bits (inn ++ [Z.b2z (Z.testbit s k)]),
        if ctrue b then Z.lor r (2 ^ k) else r).
Proof.
  intros Hi Hk. rewrite <- (mask_bit s k Hk). unfold bit_op, bit_1st_edge_lsb_first, bit_1st_edge_msb_first, bit_2st_edge.
  generalize (0 =? Z.land (2 ^ k) s) as z. intros z.
  destruct first, lsb, Hi as [-> | ->], z; reflexivity.
Qed.

Definition collect (x : Z) (ks : list Z) (r : Z) : Z :=
  foldl (fun r k => if ctrue (Z.b2z (Z.testbit x k)) then Z.lor r (2 ^ k) else r) r ks.

Lemma each_bit_sim idle first lsb s x rest : forall ks r m o inn,
  idle = 0 \/ idle = 1 -> Forall (fun k => 0 <= k) ks ->
  exists m' o', each_bit (@bit_op wires (wires_gpio idle first) pins first lsb s idle) (map (Z.pow 2) ks) r
    (resting idle first m o (map (fun k => Z.b2z (Z.testbit x k)) ks ++ rest) inn)
  = Ok (resting idle first m' o' rest (inn ++ map (fun k => Z.b2z (Z.testbit s k)) ks), collect x ks r).
Proof.
  induction ks as [|k ks IH]; intros r m o inn Hi Hks.
  - exists m, o. cbn [map app each_bit collect foldl]. by rewrite app_nil_r.
  - inversion Hks as [|? ? Hk Hks']; subst. cbn [map app each_bit].
    destruct (IH (if ctrue (Z.b2z (Z.testbit x k)) then Z.lor r (2 ^ k) else r) (Z.b2z (Z.testbit s k))
      (Z.b2z (Z.testbit x k)) (inn ++ [Z.b2z (Z.testbit s k)]) Hi Hks') as (m' & o' & E).
    exists m', o'. rewrite (M_bind_Ok _ _ _ _ _ (bit_sim idle first lsb s k r m o _ _ inn Hi Hk)), E.
    by rewrite <- app_assoc.
Qed.

Lemma collect_byte lsb x : 0 <= x < 256 -> collect x (order lsb) 0 = x.
Proof.
  intros H. apply Z.eqb_eq.
  destruct lsb; [apply (range_forallb 256 (fun x => collect x (order true) 0 =? x) 0)
                |apply (range_forallb 256 (fun x => collect x (order false) 0 =? x) 0)];
    solve [vm_compute; reflexivity|lia].
Qed.

(** The four loops of the code are one loop over the selected round. *)
Lemma mode_byte_eq {W} `{GpioOps W} plat idle first lsb dat :
  idle = 0 \/ idle = 1 ->
  softspi_transmit_byte plat (flag_bits idle first lsb) dat
  = (r ← each_bit (bit_op plat first lsb dat idle) (map (Z.pow 2) (order lsb)) 0; mret (r, 1)).
Proof. intros [-> | ->]; by destruct first, lsb. Qed.

(** C35: In each of the eight modes that the flags select, one byte
    operation between resting clocks is a full-duplex exchange with a slave
    of that mode: the slave has sampled exactly the bits of the byte sent, in
    the order of the mode; the byte returned is the one whose bits the slave
    put on the line; the clock is idle again and the slave's next bits are
    the following ones. The result is 1. *)
Theorem softspi_byte_exchange (idle : Z) (first lsb : bool) (s x m o : Z) (rest inn : list Z) :
  idle = 0 \/ idle = 1 -> 0 <= x < 256 ->
  exists m' o',
    @softspi_transmit_byte wires (wires_gpio idle first) pins (flag_bits idle first lsb) s
      (resting idle first m o (wire_bits lsb x ++ rest) inn)
    = Ok (resting idle first m' o' rest (inn ++ wire_bits lsb s), (x, 1)).
Proof.
  intros Hi Hx. rewrite mode_byte_eq by done.
  destruct (each_bit_sim idle first lsb s x rest (order lsb) 0 m o inn Hi) as (m' & o' & E).
  { destruct lsb; repeat (apply List.Forall_cons; [lia|]); apply List.Forall_nil. }
  exists m', o'. unfold wire_bits. rewrite (M_bind_Ok _ _ _ _ _ E), collect_byte by done. done.
Qed.
Lemma softspi_byte_exchange_witness :
  exists m' o',
    @softspi_transmit_byte wires (wires_gpio 1 false) pins (flag_bits 1 false true) 165
      (resting 1 false 0 0 (wire_bits true 60 ++ [1; 1]) [])
    = Ok (resting 1 false m' o' [1; 1] ([] ++ wire_bits true 165), (60, 1)).
Proof. apply (softspi_byte_exchange 1 false true 165 60 0 0 [1; 1] []); [by right|done]. Defined.
