(* ===== verification/Devices.v ===== *)
(** Simulated peripherals for the chip drivers: a register file on I2C, a
    recorder with canned answers on SPI, and a set of output pins. They are
    the concrete worlds at which the drivers, written against the interfaces
    of Bus.v, are run; they model the chips' documented bus protocol, not
    code of the repository. *)
From stdpp Require Import gmap.
From S2P Require Import Prelude Bus.

(** ** I2C: registers behind an auto-incrementing pointer

    The first byte of a write sets the pointer, the others are stored; a read
    continues at the pointer. The log keeps the slave address, the bytes
    written and the number of bytes read of each transaction. *)
Record regdev := MkReg { rd_ptr : Z; rd_regs : list Z; rd_log : list (Z * list Z * Z) }.

Definition reg_write (w : list Z) (d : regdev) : regdev :=
  match w with
  | [] => d
  | p :: l => MkReg (p + Zlen l) (overwrite (rd_regs d) p l) (rd_log d)
  end.
Definition bytes_of (w : option (list Z)) (n : Z) : res (list Z) :=
  match w with
  | Some l => if Zlen l <? n then Err OutOfBounds else Ok (take (Z.to_nat n) l)
  | None => if n =? 0 then Ok [] else Err NullDeref
  end.
Definition regdev_transmit (addr : Z) (w : option (list Z)) (wlen : Z) (r : option (list Z)) (rlen : Z)
    : M regdev (Z * option (list Z)) := fun d =>
  wb ← bytes_of w wlen;
  _ ← bytes_of r rlen;
  let d := reg_write wb d in
  Ok (MkReg (rd_ptr d + rlen) (rd_regs d) (rd_log d ++ [(addr, wb, rlen)]),
      (u8 (wlen + rlen), option_map (fun r => overwrite r 0 (slice (rd_regs d) (rd_ptr d) rlen)) r)).
#[export] Instance regdev_i2c : I2cOps regdev := {
  i2c_ops_init := fun d => Ok (d, 1);
  i2c_ops_deinit := fun d => Ok (d, tt);
  i2c_ops_transmit := regdev_transmit
}.

Lemma regdev_write_read addr p l d n (r : list Z) :
  0 <= n <= Zlen r -> Zlen (p :: l) + n < 256 ->
  i2c_transmit addr (Some (p :: l)) (Zlen (p :: l)) (Some r) n d
  = Ok (MkReg (p + Zlen l + n) (overwrite (rd_regs d) p l) (rd_log d ++ [(addr, p :: l, n)]),
        (Zlen (p :: l) + n, Some (overwrite r 0 (slice (overwrite (rd_regs d) p l) (p + Zlen l) n)))).
Proof.
  intros Hn Hs. unfold i2c_transmit. cbn -[Zlen]. unfold regdev_transmit, bytes_of.
  rewrite Z.ltb_irrefl, Zlen_to_nat, firstn_all. rewrite (proj2 (Z.ltb_ge _ _)) by lia. cbn -[Zlen].
  pose proof (Zlen_nonneg (p :: l)). unwrap. done.
Qed.
Lemma regdev_write addr p l d :
  Zlen (p :: l) < 256 ->
  i2c_transmit addr (Some (p :: l)) (Zlen (p :: l)) None 0 d
  = Ok (MkReg (p + Zlen l) (overwrite (rd_regs d) p l) (rd_log d ++ [(addr, p :: l, 0)]), (Zlen (p :: l), None)).
Proof.
  intros Hs. unfold i2c_transmit. cbn -[Zlen]. unfold regdev_transmit, bytes_of.
  rewrite Z.ltb_irrefl, Zlen_to_nat, firstn_all. cbn -[Zlen].
  pose proof (Zlen_nonneg (p :: l)). unwrap. by rewrite !Z.add_0_r.
Qed.
Lemma regdev_read addr n d (r : list Z) :
  0 <= n <= Zlen r -> n < 256 ->
  i2c_transmit addr None 0 (Some r) n d
  = Ok (MkReg (rd_ptr d + n) (rd_regs d) (rd_log d ++ [(addr, [], n)]),
        (n, Some (overwrite r 0 (slice (rd_regs d) (rd_ptr d) n)))).
Proof.
  intros Hn Hs. unfold i2c_transmit. cbn -[Zlen]. unfold regdev_transmit, bytes_of.
  rewrite (proj2 (Z.ltb_ge _ _)) by lia. cbn -[Zlen]. unwrap. by destruct d.
Qed.

(** ** SPI: what was sent, against a list of answers *)
Inductive spi_event := SpiInit (flags : Z) | Select (which is_select : Z) | Byte (b : Z).
Record spidev := MkSpi { sd_log : list spi_event; sd_answers : list Z }.
Definition spi_log (e : spi_event) (d : spidev) : spidev := MkSpi (sd_log d ++ [e]) (sd_answers d).
Definition spidev_byte (b : Z) : M spidev (Z * Z) := fun d =>
  Ok (MkSpi (sd_log d ++ [Byte b]) (tail (sd_answers d)), (default 255 (head (sd_answers d)), 1)).
#[export] Instance spidev_spi : SpiOps spidev := {
  spi_ops_init := fun flags d => Ok (spi_log (SpiInit flags) d, 1);
  spi_ops_deinit := fun d => Ok (d, tt);
  spi_ops_select := fun which on d => Ok (spi_log (Select which on) d, 1);
  spi_ops_transmit_byte := spidev_byte;
  spi_ops_transfer := spi_transfer_use_transmit_onebyte spidev_byte 0
}.

Definition spidev_exchange (d : spidev) (b : Z) : spidev * Z :=
  (MkSpi (sd_log d ++ [Byte b]) (tail (sd_answers d)), default 255 (head (sd_answers d))).
Lemma spidev_byte_ok b d : spidev_byte b d = Ok ((spidev_exchange d b).1, ((spidev_exchange d b).2, 1)).
Proof. done. Qed.

(** Bytes sent, with the answers dropped. *)
Lemma spidev_sent l d :
  (exchange_all spidev_exchange d l).1 = MkSpi (sd_log d ++ map Byte l) (drop (length l) (sd_answers d)).
Proof.
  revert d. induction l as [|b l IH]; intros d; cbn [exchange_all map length].
  - rewrite app_nil_r. by destruct d.
  - unfold spidev_exchange at 1. cbn. specialize (IH (MkSpi (sd_log d ++ [Byte b]) (tail (sd_answers d)))).
    destruct (exchange_all _ _ l). cbn in *. rewrite IH, <- app_assoc. by destruct (sd_answers d) as [|? ?]; cbn; rewrite ?drop_nil.
Qed.
Lemma spidev_transfer_write l n d :
  n = Zlen l ->
  spi_transfer None (Some l) n d = Ok (MkSpi (sd_log d ++ map Byte l) (drop (length l) (sd_answers d)), (n, None)).
Proof.
  intros ->. unfold spi_transfer, spi_ops_transfer. cbn -[spi_transfer_use_transmit_onebyte].
  unfold spi_transfer_use_transmit_onebyte. rewrite Zlen_to_nat.
  pose proof (send_eq spidev_byte spidev_exchange (fun _ => True) (fun b w _ => spidev_byte_ok b w) (fun _ _ _ => I) l [] [] d I) as E.
  rewrite app_nil_r in E. cbn [app] in E. change (Zlen (@nil Z)) with 0 in E.
  by rewrite (M_bind_Ok _ _ _ _ _ E), spidev_sent.
Qed.

(** ** GPIO: the level last driven on each pin *)
Abbreviation pinset := (gmap Z Z).
Definition level (w : pinset) (io : Z) : Z := default 0 (w !! io).
#[export] Instance pinset_gpio : GpioOps pinset := {
  gpio_ops_init := fun _ _ w => Ok (w, 1);
  gpio_ops_get_mode := fun _ w => Ok (w, GPIO_MODE_OUTPUT_PUSHPULL);
  gpio_ops_input_is_high := fun io w => Ok (w, level w io);
  gpio_ops_output_is_high := fun io w => Ok (w, level w io);
  gpio_ops_set_output := fun io v w => Ok (<[io := v]> w, 1)
}.
