(* ===== verification/Analog.v ===== *)
(** The analog front-end chips of src/src/drivers: the multiplexer hcf4052,
    the digital potentiometer ad5259, the converters ads8317, ads1015,
    dac856x and dac816x, each over the bus interfaces of Bus.v; and their
    theorems on the simulated peripherals of Devices.v: what reaches the chip,
    and how close the conversions are to the quantities asked for. *)
From stdpp Require Import gmap.
From S2P Require Import Prelude Bus Devices.

(** ** hcf4052/hcf4052.c *)
Inductive hcf4052_channel :=
  HCF4052_CHANNEL_0 | HCF4052_CHANNEL_1 | HCF4052_CHANNEL_2 | HCF4052_CHANNEL_3 | HCF4052_CHANNEL_NONE.
#[export] Instance hcf4052_channel_eq_dec : EqDecision hcf4052_channel.
Proof. solve_decision. Defined.
Record hcf4052_platform := { ctrl_a : Z; ctrl_b : Z; ctrl_inh : Z }.

Section hcf4052.
  Context {W : Type} `{GpioOps W} (plat : hcf4052_platform).
Definition hcf4052_init : M W unit :=
  _ ← gpio_init (ctrl_inh plat) GPIO_MODE_OUTPUT_PUSHPULL;
  _ ← gpio_set_output (ctrl_inh plat) 1;
  _ ← gpio_init (ctrl_a plat) GPIO_MODE_OUTPUT_PUSHPULL;
  _ ← gpio_init (ctrl_b plat) GPIO_MODE_OUTPUT_PUSHPULL;
  mret tt.
Definition set_ab (a b : Z) : M W unit :=
  _ ← gpio_set_output (ctrl_a plat) a;
  _ ← gpio_set_output (ctrl_b plat) b;
  mret tt.
Definition hcf4052_select_channel (channel : hcf4052_channel) : M W unit :=
  _ ← gpio_set_output (ctrl_inh plat) 1;
  let enable := (_ ← gpio_set_output (ctrl_inh plat) 0; mret tt) in
  match channel with
  | HCF4052_CHANNEL_0 => _ ← set_ab 0 0; enable
  | HCF4052_CHANNEL_1 => _ ← set_ab 1 0; enable
  | HCF4052_CHANNEL_2 => _ ← set_ab 0 1; enable
  | HCF4052_CHANNEL_3 => _ ← set_ab 1 1; enable
  | HCF4052_CHANNEL_NONE => mret tt
  end.
Definition io_to_channel : list hcf4052_channel :=
  [HCF4052_CHANNEL_0; HCF4052_CHANNEL_2; HCF4052_CHANNEL_1; HCF4052_CHANNEL_3].
  (** Both bits are taken from [ctrl_a]. *)
Definition hcf4052_get_current_channel : M W hcf4052_channel :=
  inh ← gpio_output_is_high (ctrl_inh plat);
  if ctrue inh then mret HCF4052_CHANNEL_NONE else
  a ← gpio_output_is_high (ctrl_a plat);
  let bits := if ctrue a then Z.lor 0 1 else 0 in
  a ← gpio_output_is_high (ctrl_a plat);
  let bits := if ctrue a then Z.lor bits 2 else bits in
  pure (bget io_to_channel bits).
End hcf4052.

(** ** ad5259/ad5259.c

    [nominal_resistance] and [addr] of the platform; the device keeps
    [resistance_ab]. Each function returns it first when it may change.
    [junk] stands for what an uninitialised local array holds. *)
Record ad5259_platform := { nominal_resistance : Z; ad5259_addr : Z }.
Definition RESISTANCE_W := 0.

Section ad5259.
  Context {W : Type} `{I2cOps W} (plat : ad5259_platform) (junk : Z).
Abbreviation addr := (ad5259_addr plat).

Definition resistance_of_tolerance (b0 b1 : Z) : Z :=
  let tolerance := u16 (Z.shiftl (Z.land b0 127) 8) in
  let tolerance := u16 (tolerance + b1) in
  let tolerance := if ctrue (Z.land b0 128) then u16 (25600 - tolerance) else u16 (25600 + tolerance) in
  u32 (u32 (tolerance * nominal_resistance plat) + 12800) / 25600.

  (** A buffer handed out to be read into comes back as an array. *)
Definition received (r : option (list Z)) : M W (list Z) :=
  match r with Some r => mret r | None => pure (Err NullDeref) end.
Definition init_get_resistance_ab (rab : Z) : M W (Z * Z) :=
  '(n, _) ← i2c_transmit addr (Some [62; junk]) 1 None 0;
  if negb (1 =? n) then mret (rab, 0) else
  '(n, r) ← i2c_transmit addr None 0 (Some [62; junk]) 2;
  if negb (2 =? n) then mret (rab, 0) else
  buf ← received r;
  b0 ← pure (bget buf 0); b1 ← pure (bget buf 1);
  mret (resistance_of_tolerance b0 b1, 1).
Definition ad5259_init (rab : Z) : M W (Z * Z) :=
  ok ← i2c_init;
  if negb (ctrue ok) then mret (rab, 0) else
  '(rab, ok) ← init_get_resistance_ab rab;
  if negb (ctrue ok) then mret (rab, 0) else mret (rab, 1).
Definition ad5259_get_resistance_ab (rab : Z) : Z := rab.

Definition clamp_rwb (rab rwb : Z) : Z :=
  if rwb <=? 2 * RESISTANCE_W then 0
  else if u32 (rab + 2 * RESISTANCE_W) <? rwb then rab
  else u32 (rwb - 2 * RESISTANCE_W).
  (** The wiper position computed, before it is cut to a byte. *)
Definition wiper (rab rwb : Z) : res Z :=
  if rab =? 0 then Err DivByZero else Ok (u32 (u32 (clamp_rwb rab rwb * 256) + rab / 2) / rab).
Definition ad5259_set_resistance_wb (rab rwb : Z) : M W Z :=
  pos ← pure (wiper rab rwb);
  '(n, _) ← i2c_transmit addr (Some [0; Z.land pos 255]) 2 None 0;
  if negb (2 =? n) then mret 0 else mret 1.
Definition position_resistance (rab buf : Z) : Z :=
  u32 (u32 (u32 (rab * buf) + 128) / 256 + 2 * RESISTANCE_W).
  (** [*rwb] after the call, and the result. *)
Definition ad5259_get_resistance_wb (rab rwb : Z) : M W (Z * Z) :=
  '(n, _) ← i2c_transmit addr (Some [0]) 1 None 0;
  if negb (1 =? n) then mret (rwb, 0) else
  '(n, r) ← i2c_transmit addr None 0 (Some [0]) 1;
  if negb (1 =? n) then mret (rwb, 0) else
  buf ← received r;
  b ← pure (bget buf 0);
  mret (position_resistance rab b, 1).
End ad5259.

(** ** ads8317/ads8317.c *)
Section ads8317.
  Context {W : Type} `{SpiOps W} (junk : Z).
Definition ads8317_init : M W unit :=
  _ ← spi_init (Z.lor (Z.lor SPI_FLAG_CLK_IDLE_HIGH SPI_FLAG_CLK_SECOND_EDGE) SPI_FLAG_MSB_FIRST); mret tt.
Definition ads8317_value (b0 b1 b2 : Z) : Z :=
  let ret := u16 (Z.shiftl b0 14) in
  let ret := Z.lor ret (u16 (Z.shiftl b1 6)) in
  let ret := Z.lor ret (Z.shiftr b2 2) in
  s16 ret.
Definition ads8317_read : M W Z :=
  _ ← spi_select 0 1;
  '(_, r) ← spi_transfer (Some [junk; junk; junk]) None 3;
  _ ← spi_select 0 0;
  buf ← received r;
  b0 ← pure (bget buf 0); b1 ← pure (bget buf 1); b2 ← pure (bget buf 2);
  mret (ads8317_value b0 b1 b2).
End ads8317.

(** ** dac856x/dac856x.c *)
Record dac856x_platform := { d856_cs_index : Z; d856_ref_voltage_uv : Z }.
Record dac856x := MkDac856 { power_status : Z; dac_value : Z; ref_vol_dot_1mv : Z }.
Definition DAC856X_POWER_ON := 0.
Definition DAC856X_POWER_DOWN_1K := 1.
Definition DAC856X_POWER_DOWN_100K := 2.
Definition DAC856X_POWER_DOWN_HiZ := 3.

Section dac856x.
  Context {W : Type} `{SpiOps W} (plat : dac856x_platform).
Definition update_to_device (dev : dac856x) : M W unit :=
  let buf := [power_status dev; Z.shiftr (dac_value dev) 8; u8 (dac_value dev)] in
  _ ← spi_select (d856_cs_index plat) 1;
  _ ← spi_transfer None (Some buf) 3;
  _ ← spi_select (d856_cs_index plat) 0;
  mret tt.
Definition dac856x_init : M W (dac856x * Z) :=
  _ ← spi_init (Z.lor SPI_FLAG_CLK_IDLE_HIGH SPI_FLAG_CLK_FIRST_EDGE);
  let dev := MkDac856 DAC856X_POWER_DOWN_100K 0
    (if d856_ref_voltage_uv plat =? 0 then 25000 else d856_ref_voltage_uv plat / 100) in
  _ ← update_to_device dev;
  mret (dev, 1).
Definition dac856x_set_power (dev : dac856x) (power : Z) : M W (dac856x * Z) :=
  if negb (power_status dev =? u8 power) then
    let dev := MkDac856 (u8 power) (dac_value dev) (ref_vol_dot_1mv dev) in
    _ ← update_to_device dev; mret (dev, 1)
  else mret (dev, 1).
Definition dac856x_set_regvalue (dev : dac856x) (regval : Z) : M W (dac856x * Z) :=
  if negb (dac_value dev =? regval) then
    let dev := MkDac856 (power_status dev) regval (ref_vol_dot_1mv dev) in
    _ ← update_to_device dev; mret (dev, 1)
  else mret (dev, 1).
Definition dac856x_get_regvalue (dev : dac856x) : Z := dac_value dev.
Definition output_code (dev : dac856x) (voltage : Z) : res Z :=
  if ref_vol_dot_1mv dev =? 0 then Err DivByZero else
  Ok (u32 (u32 (voltage / 100 * 65536) + ref_vol_dot_1mv dev / 2) / ref_vol_dot_1mv dev).
Definition dac856x_set_output (dev : dac856x) (voltage : Z) : M W (dac856x * Z) :=
  code ← pure (output_code dev voltage);
  dac856x_set_regvalue dev (u16 code).
End dac856x.

(** ** dac816x/dac816x.c *)
Record dac816x_platform := { d816_cs_index : Z; d816_ref_voltage_mv : Z }.
Record dac816x := MkDac816 {
  channel_a_power_status : Z; channel_b_power_status : Z; is_channel_a_gain_2 : Z; is_channel_b_gain_2 : Z }.
Definition CHANNEL_A := 0.
Definition CHANNEL_B := 1.
Definition CHANNEL_POWER_ON := 0.
Definition CHANNEL_POWER_DOWN_1K := 1.
Definition CHANNEL_POWER_DOWN_100K := 2.
Definition CHANNEL_POWER_DOWN_HiZ := 3.

Section dac816x.
  Context {W : Type} `{SpiOps W} (plat : dac816x_platform).
Definition transmit (cmd dat : Z) : M W unit :=
  let buf := [cmd; u8 (Z.shiftr dat 8); u8 dat] in
  _ ← spi_select (d816_cs_index plat) 1;
  _ ← spi_transfer None (Some buf) 3;
  _ ← spi_select (d816_cs_index plat) 0;
  mret tt.
Definition power_bits (power_status : Z) : option Z :=
  if power_status =? CHANNEL_POWER_ON then Some 0
  else if power_status =? CHANNEL_POWER_DOWN_1K then Some 16
  else if power_status =? CHANNEL_POWER_DOWN_100K then Some 32
  else if power_status =? CHANNEL_POWER_DOWN_HiZ then Some 48
  else None.
Definition channel_bit (channel : Z) : option Z :=
  if channel =? CHANNEL_A then Some 1 else if channel =? CHANNEL_B then Some 2 else None.
Definition set_channel_power_status (channel power_status : Z) : M W Z :=
  match power_bits power_status with
  | None => mret 0
  | Some dat =>
    match channel_bit channel with
    | None => mret 0
    | Some b => _ ← transmit 32 (Z.lor dat b); mret 1
    end
  end.
Definition gain_to_command_data (a b : Z) : Z :=
  if ctrue a && ctrue b then 0
  else if negb (ctrue a) && ctrue b then 1
  else if ctrue a && negb (ctrue b) then 2
  else 3.
Definition set_gain (dev : dac816x) : M W unit :=
  transmit 2 (gain_to_command_data (is_channel_a_gain_2 dev) (is_channel_b_gain_2 dev)).
Definition dac816x_init : M W (dac816x * Z) :=
  _ ← spi_init (Z.lor SPI_FLAG_CLK_IDLE_HIGH SPI_FLAG_CLK_FIRST_EDGE);
  let dev := MkDac816 CHANNEL_POWER_DOWN_100K CHANNEL_POWER_DOWN_100K 0 0 in
  _ ← transmit 72 1;
  _ ← transmit 192 0;
  _ ← set_channel_power_status CHANNEL_A (channel_a_power_status dev);
  _ ← set_channel_power_status CHANNEL_B (channel_a_power_status dev);
  _ ← (if negb (d816_ref_voltage_mv plat =? 0) then transmit 56 0 else transmit 56 1);
  _ ← set_gain dev;
  mret (dev, 1).
  (** The power fields are two bits wide, the gain fields one. *)
Definition with_power (dev : dac816x) (channel status : Z) : dac816x :=
  if channel =? CHANNEL_A then
    MkDac816 (wrap 2 status) (channel_b_power_status dev) (is_channel_a_gain_2 dev) (is_channel_b_gain_2 dev)
  else MkDac816 (channel_a_power_status dev) (wrap 2 status) (is_channel_a_gain_2 dev) (is_channel_b_gain_2 dev).
Definition dac816x_set_power (dev : dac816x) (channel power_status : Z) : M W (dac816x * Z) :=
  ok ← set_channel_power_status channel power_status;
  if negb (ctrue ok) then mret (dev, 0) else
  if (channel =? CHANNEL_A) || (channel =? CHANNEL_B) then mret (with_power dev channel power_status, 1)
  else mret (dev, 0).

Definition ref_vol : Z := if d816_ref_voltage_mv plat =? 0 then 2500 else d816_ref_voltage_mv plat.
Definition channel_on (dev : dac816x) (channel : Z) : bool :=
  if channel =? CHANNEL_A then channel_a_power_status dev =? CHANNEL_POWER_ON
  else if channel =? CHANNEL_B then channel_b_power_status dev =? CHANNEL_POWER_ON
  else false.
Definition update_gain (dev : dac816x) (channel gain : Z) : M W dac816x :=
  if channel =? CHANNEL_A then
    if negb (is_channel_a_gain_2 dev =? gain) then
      let dev := MkDac816 (channel_a_power_status dev) (channel_b_power_status dev) gain (is_channel_b_gain_2 dev) in
      _ ← set_gain dev; mret dev
    else mret dev
  else
    if negb (is_channel_b_gain_2 dev =? gain) then
      let dev := MkDac816 (channel_a_power_status dev) (channel_b_power_status dev) (is_channel_a_gain_2 dev) gain in
      _ ← set_gain dev; mret dev
    else mret dev.
  (** [(voltage * 65536 + ref_vol / 2) / ref_vol] in [int]. *)
Definition dac_code (voltage : Z) : res Z :=
  p ← int32 (voltage * 65536);
  s ← int32 (p + ref_vol / 2);
  Ok (u32 (s / ref_vol)).
Definition dac816x_set_output (dev : dac816x) (channel voltage : Z) : M W (dac816x * Z) :=
  if ref_vol * 2 <=? voltage then mret (dev, 0) else
  if negb (channel_on dev channel) then mret (dev, 0) else
  _ ← set_channel_power_status channel CHANNEL_POWER_DOWN_HiZ;
  let '(voltage, gain) := if ref_vol <=? voltage then (voltage / 2, 1) else (voltage, 0) in
  dev ← update_gain dev channel gain;
  dat ← pure (dac_code voltage);
  _ ← transmit (if channel =? CHANNEL_A then 24 else 25) (u16 dat);
  _ ← set_channel_power_status channel CHANNEL_POWER_ON;
  mret (dev, 1).
End dac816x.

(** ** ads1015/ads1015.c

    The platform's delay is an operation of the world. *)
Section ads1015.
  Context {W : Type} `{I2cOps W} (addr junk : Z) (delay_ms : Z -> M W unit).
Definition ADS1015_RESULT_ERROR := 32767.
Definition ADS1015_RESULT_FULL := 2048.
Definition write_register (reg value : Z) : M W Z :=
  '(n, _) ← i2c_transmit addr (Some [reg; u8 (Z.shiftr value 8); Z.land value 255]) 3 None 0;
  mret (cbool (n =? 3)).
  (** The register's value, or nothing when the transfer fails; the read
      goes into the array behind its first byte. *)
Definition read_register (reg : Z) : M W (option Z) :=
  '(n, r) ← i2c_transmit addr (Some [reg; junk; junk]) 1 (Some [junk; junk]) 2;
  if negb (3 =? n) then mret None else
  dat ← received r;
  h ← pure (bget dat 0); l ← pure (bget dat 1);
  mret (Some (u16 (Z.lor (Z.shiftl h 8) l))).
Definition ads1015_init : M W Z := i2c_init.
Definition conversion_config (channel fsl : Z) : Z :=
  u16 (Z.lor (Z.lor (Z.lor (Z.lor (Z.lor (Z.shiftl 0 15) (Z.shiftl channel 12)) (Z.shiftl fsl 9)) (Z.shiftl 1 8)) (Z.shiftl 0 5)) (Z.shiftl 3 0)).

  (** The do-while loop: [true] when the conversion is done, [false] on the
      error return. [i] counts the polls. *)
Fixpoint wait_conversion (fuel : nat) (i : Z) : M W bool :=
  match fuel with
  | O => pure (Err NoFuel)
  | S fuel =>
    _ ← delay_ms 1;
    let i := u8 (i + 1) in
    if 20 <? i then mret false else
    v ← read_register 1;
    match v with
    | None => mret false
    | Some tmp => if Z.land tmp 32768 =? 0 then wait_conversion fuel i else mret true
    end
  end.
Definition ads1015_single_convert (channel fsl : Z) : M W Z :=
  let tmp := conversion_config channel fsl in
  ok ← write_register 1 tmp;
  if negb (ctrue ok) then mret ADS1015_RESULT_ERROR else
  ok ← write_register 1 (Z.lor tmp 32768);
  if negb (ctrue ok) then mret ADS1015_RESULT_ERROR else
  done ← wait_conversion 21 0;
  if negb done then mret ADS1015_RESULT_ERROR else
  v ← read_register 0;
  match v with
  | None => mret ADS1015_RESULT_ERROR
  | Some result => mret (Z.shiftr (s16 result) 4)
  end.

Definition vt : list Z := [6144; 4096; 2048; 1024; 512; 256].
Definition ads1015_result_to_mv (result fsl : Z) : res Z :=
  if 6 <=? u8 fsl then Ok 0 else
  if ADS1015_RESULT_FULL <=? result then Ok 0 else
  if result <? - ADS1015_RESULT_FULL then Ok 0 else
  res ← bget vt fsl;
  let res := result * res in
  let res := if 0 <=? res then res + ADS1015_RESULT_FULL / 2 else res - ADS1015_RESULT_FULL / 2 in
  Ok (s16 (Z.quot res ADS1015_RESULT_FULL)).
End ads1015.

(** ** hcf4052 *)
Definition channel_index (c : hcf4052_channel) : Z :=
  match c with
  | HCF4052_CHANNEL_0 => 0 | HCF4052_CHANNEL_1 => 1 | HCF4052_CHANNEL_2 => 2
  | HCF4052_CHANNEL_3 => 3 | HCF4052_CHANNEL_NONE => 4
  end.
Lemma level_insert_eq (w : pinset) io v : level (<[io := v]> w) io = v.
Proof. unfold level. by rewrite lookup_insert_eq. Qed.
Lemma level_insert_ne (w : pinset) io io' v : io <> io' -> level (<[io := v]> w) io' = level w io'.
Proof. intros. unfold level. by rewrite lookup_insert_ne. Qed.

(** Selecting a channel of the multiplexer drives its address on the two
    control pins and enables the chip, selecting none disables it. The channel
    read back is right for 0, 3 and none only: both address bits are read from
    the first pin, so that channel 1 is reported as 3 and channel 2 as 0. *)
Theorem hcf4052_select_and_report (plat : hcf4052_platform) (c : hcf4052_channel) (w : pinset) :
  ctrl_a plat <> ctrl_b plat -> ctrl_a plat <> ctrl_inh plat -> ctrl_b plat <> ctrl_inh plat ->
  exists w', hcf4052_select_channel plat c w = Ok (w', tt) /\
    level w' (ctrl_inh plat) = (if decide (c = HCF4052_CHANNEL_NONE) then 1 else 0) /\
    (c <> HCF4052_CHANNEL_NONE -> level w' (ctrl_a plat) + 2 * level w' (ctrl_b plat) = channel_index c) /\
    hcf4052_get_current_channel plat w' = Ok (w', match c with
      | HCF4052_CHANNEL_1 => HCF4052_CHANNEL_3 | HCF4052_CHANNEL_2 => HCF4052_CHANNEL_0 | c => c end).
Proof.
  intros Hab Hai Hbi. destruct plat as [a b inh]. cbn in Hab, Hai, Hbi. cbn [ctrl_a ctrl_b ctrl_inh].
  assert (Hread : forall w1 : pinset, hcf4052_get_current_channel {| ctrl_a := a; ctrl_b := b; ctrl_inh := inh |} w1 =
    if ctrue (level w1 inh) then Ok (w1, HCF4052_CHANNEL_NONE) else
    Ok (w1, if ctrue (level w1 a) then HCF4052_CHANNEL_3 else HCF4052_CHANNEL_0)).
  { intros w1. unfold hcf4052_get_current_channel, mbind, M_bind. cbn. destruct (ctrue (level w1 inh)); [done|].
    by destruct (ctrue (level w1 a)). }
  destruct c; (eexists; split; [cbn; reflexivity|]); rewrite Hread; cbn [decide channel_index];
    repeat (first [rewrite level_insert_eq | rewrite level_insert_ne by done]);
    repeat split; try done; by intros [].
Qed.
Lemma hcf4052_select_and_report_witness :
  let plat := {| ctrl_a := 1; ctrl_b := 2; ctrl_inh := 3 |} in
  exists w', hcf4052_select_channel plat HCF4052_CHANNEL_1 ∅ = Ok (w', tt) /\
    hcf4052_get_current_channel plat w' = Ok (w', HCF4052_CHANNEL_3).
Proof.
  cbv zeta. destruct (hcf4052_select_and_report {| ctrl_a := 1; ctrl_b := 2; ctrl_inh := 3 |} HCF4052_CHANNEL_1 ∅)
    as (w' & E & _ & _ & E'); [done..|]. by exists w'.
Defined.

(** ** ad5259 *)
Lemma clamp_rwb_eq rab rwb : is_u32 rab -> is_u32 rwb -> clamp_rwb rab rwb = Z.min rwb rab.
Proof.
  intros Ha Hw. unfold clamp_rwb, RESISTANCE_W. change (2 * 0) with 0. pow2_norm.
  destruct (Z.leb_spec rwb 0); [lia|]. rewrite Z.add_0_r. unwrap. destruct (Z.ltb_spec rab rwb); [lia|].
  rewrite Z.sub_0_r. wrap_lia.
Qed.

(** The wiper position is the nearest of 0..256. *)
Lemma wiper_eq rab rwb (x := Z.min rwb rab) :
  0 < rab -> rab * 256 + rab / 2 < 2 ^ 32 -> is_u32 rwb ->
  exists p, wiper rab rwb = Ok p /\ 0 <= p <= 256 /\ 2 * Z.abs (p * rab - x * 256) <= rab /\
    (p = 256 <-> 256 * rab <= 256 * x + rab / 2).
Proof.
  intros Ha Hb Hw. pose proof (Z.div_pos rab 2). pow2_norm. exists ((x * 256 + rab / 2) / rab).
  unfold wiper. rewrite (proj2 (Z.eqb_neq _ _)) by lia. rewrite clamp_rwb_eq by (pow2_norm; lia). fold x.
  unwrap. split; [done|]. split; [split|split].
  - apply round_div_nonneg; lia.
  - apply round_div_le; lia.
  - by apply round_div.
  - pose proof (Z.div_mod (x * 256 + rab / 2) rab ltac:(lia)). pose proof (Z.mod_pos_bound (x * 256 + rab / 2) rab Ha).
    assert ((x * 256 + rab / 2) / rab <= 256) by (apply round_div_le; lia). split; intros; nia.
Qed.

(** Setting a resistance and reading it back from the chip gives the
    wanted resistance, capped at the device's total, to within half a wiper
    step - except in the top half step of the range: there the position 256
    is stored in a byte, so that asking for the full resistance puts the wiper
    at zero. *)
Theorem ad5259_set_then_get (plat : ad5259_platform) (junk rab rwb old : Z) (d : regdev) :
  0 < rab -> rab * 256 + rab / 2 < 2 ^ 32 -> is_u32 rwb -> rd_regs d <> [] ->
  let x := Z.min rwb rab in
  exists d1 d2 rwb', ad5259_set_resistance_wb plat rab rwb d = Ok (d1, 1) /\
    ad5259_get_resistance_wb plat rab old d1 = Ok (d2, (rwb', 1)) /\
    if 256 * rab <=? 256 * x + rab / 2 then rwb' = 0 else 512 * Z.abs (rwb' - x) <= rab + 256.
Proof.
  intros Ha Hb Hw Hd x. destruct (wiper_eq rab rwb Ha Hb Hw) as (p & Ep & Hp & Hx & H256). fold x in Hx, H256.
  assert (Hx0 : 0 <= x <= rab) by (unfold x; pow2_norm; lia).
  unfold ad5259_set_resistance_wb. rewrite Ep.
  destruct (rd_regs d) as [|r0 regs] eqn:Er; [done|].
  pose proof (regdev_write (ad5259_addr plat) 0 [Z.land p 255] d ltac:(by vm_compute)) as Ew.
  change (Zlen [0; Z.land p 255]) with 2 in Ew.
  eexists _, _, (position_resistance rab (Z.land p 255)). split; [|split].
  - by rewrite (M_bind_Ok _ _ _ _ _ (pure_Ok p d)), (M_bind_Ok _ _ _ _ _ Ew).
  - unfold ad5259_get_resistance_wb.
    match goal with |- context [mbind _ _ ?s] => set (d1 := s) end.
    pose proof (regdev_write (ad5259_addr plat) 0 [] d1 ltac:(by vm_compute)) as E1. change (Zlen [0]) with 1 in E1.
    rewrite (M_bind_Ok _ _ _ _ _ E1). cbv beta iota. change (negb (1 =? 1)) with false. cbv iota.
    match type of E1 with _ = Ok (?s, _) => pose proof (regdev_read (ad5259_addr plat) 1 s [0] ltac:(done) ltac:(done)) as E2 end.
    rewrite (M_bind_Ok _ _ _ _ _ E2). cbv beta iota. change (negb (1 =? 1)) with false. cbv iota.
    unfold d1. cbn. by rewrite Er.
  - assert (Hl : Z.land p 255 = p mod 256) by (change 255 with (Z.ones 8); by rewrite Z.land_ones).
    rewrite Hl. unfold position_resistance, RESISTANCE_W. pow2_norm. pose proof (Z.div_pos rab 2).
    assert (Hb2 : rab * 256 < 4294967296) by lia.
    destruct (Z.leb_spec (256 * rab) (256 * x + rab / 2)) as [Hbig|Hsmall].
    + rewrite (proj2 H256 Hbig). change (256 mod 256) with 0. rewrite Z.mul_0_r. by vm_compute.
    + assert (Hp' : 0 <= p < 256) by lia.
      rewrite Z.mod_small by lia. assert (0 <= rab * p < 4294967296 - 128) by nia.
      pose proof (Z.div_mod (rab * p + 128) 256). pose proof (Z.mod_pos_bound (rab * p + 128) 256).
      change (2 * 0) with 0. rewrite Z.add_0_r. unwrap. lia.
Qed.
Lemma ad5259_set_then_get_witness :
  let plat := {| nominal_resistance := 10000; ad5259_addr := 24 |} in
  let d := MkReg 0 [77] [] in
  (exists d1 d2 r, ad5259_set_resistance_wb plat 10000 2500 d = Ok (d1, 1) /\
     ad5259_get_resistance_wb plat 10000 0 d1 = Ok (d2, (r, 1)) /\ 512 * Z.abs (r - 2500) <= 10256) /\
  exists d1 d2, ad5259_set_resistance_wb plat 10000 10000 d = Ok (d1, 1) /\
     ad5259_get_resistance_wb plat 10000 0 d1 = Ok (d2, (0, 1)).
Proof.
  cbv zeta. split.
  - destruct (ad5259_set_then_get {| nominal_resistance := 10000; ad5259_addr := 24 |} 0 10000 2500 0 (MkReg 0 [77] []))
      as (d1 & d2 & r & E1 & E2 & Hr); [by vm_compute..|]. by exists d1, d2, r.
  - destruct (ad5259_set_then_get {| nominal_resistance := 10000; ad5259_addr := 24 |} 0 10000 10000 0 (MkReg 0 [77] []))
      as (d1 & d2 & r & E1 & E2 & Hr); [by vm_compute..|]. change (r = 0) in Hr. subst r. exists d1, d2. by split.
Defined.

(** ** ads8317 *)
Lemma ads8317_value_eq b0 b1 b2 :
  is_u8 b0 -> is_u8 b1 -> is_u8 b2 -> ads8317_value b0 b1 b2 = s16 ((b0 * 65536 + b1 * 256 + b2) / 4).
Proof.
  intros H0 H1 H2. unfold ads8317_value. pow2_norm.
  rewrite !Z.shiftl_mul_pow2, Z.shiftr_div_pow2 by lia.
  assert (Hq : (b0 * 65536 + b1 * 256 + b2) / 4 = b0 * 2 ^ 14 + (b1 * 2 ^ 6 + b2 / 4)).
  { replace (b0 * 65536 + b1 * 256 + b2) with ((b0 * 16384 + b1 * 64) * 4 + b2) by ring. rewrite Z.div_add_l by lia. lia. }
  assert (Hb2 : 0 <= b2 / 4 < 2 ^ 6) by (change (2 ^ 6) with 64; split; [apply Z.div_pos; lia|apply Z.div_lt_upper_bound; lia]).
  change (2 ^ 2) with 4. rewrite (wrap_small 16 (b1 * 2 ^ 6)) by (change (2 ^ 6) with 64; pow2_norm; lia).
  rewrite <- Z.lor_assoc, lor_add, Hq by lia.
  assert (Ew : u16 (b0 * 2 ^ 14) = (b0 mod 4) * 2 ^ 14).
  { unfold wrap. change (2 ^ 16) with (4 * 2 ^ 14). by rewrite Z.mul_mod_distr_r by lia. }
  rewrite Ew, lor_add by (change (2 ^ 14) with 16384; change (2 ^ 6) with 64 in *; lia).
  pose proof (Z.div_mod b0 4 ltac:(lia)) as Hd.
  unfold swrap. change (2 ^ (16 - 1)) with 32768. change (2 ^ 14) with 16384. f_equal.
  rewrite Hd at 2. replace ((4 * (b0 / 4) + b0 mod 4) * 16384 + (b1 * 2 ^ 6 + b2 / 4) + 32768)
    with (b0 mod 4 * 16384 + (b1 * 2 ^ 6 + b2 / 4) + 32768 + (b0 / 4) * 2 ^ 16) by (change (2 ^ 16) with 65536; ring).
  by rewrite Z.mod_add by done.
Qed.

(** Reading the converter selects the chip, clocks three bytes and
    deselects it; the bytes sent are what the transfer's own uninitialised
    byte held (0 in the simulation) and the echoes of those received; the result is the sixteen bits that follow the first six
    clocks of the frame, as a signed number. *)
Theorem ads8317_read_frame (junk b0 b1 b2 : Z) (log : list spi_event) (rest : list Z) :
  is_u8 b0 -> is_u8 b1 -> is_u8 b2 ->
  ads8317_read junk (MkSpi log (b0 :: b1 :: b2 :: rest))
  = Ok (MkSpi (log ++ [Select 0 1; Byte 0; Byte b0; Byte b1; Select 0 0]) rest,
        s16 ((b0 * 65536 + b1 * 256 + b2) / 4)).
Proof.
  intros H0 H1 H2. rewrite <- ads8317_value_eq by done. unfold ads8317_read.
  rewrite (M_bind_Ok _ _ _ (MkSpi (log ++ [Select 0 1]) (b0 :: b1 :: b2 :: rest)) 1) by done.
  rewrite (M_bind_Ok _ _ _ (MkSpi (log ++ [Select 0 1; Byte 0; Byte b0; Byte b1]) rest) (3, Some [b0; b1; b2])).
  2: { replace (log ++ [Select 0 1; Byte 0; Byte b0; Byte b1]) with ((((log ++ [Select 0 1]) ++ [Byte 0]) ++ [Byte b0]) ++ [Byte b1])
         by (by rewrite <- !app_assoc). reflexivity. }
  replace (log ++ [Select 0 1; Byte 0; Byte b0; Byte b1; Select 0 0])
    with ((log ++ [Select 0 1; Byte 0; Byte b0; Byte b1]) ++ [Select 0 0]) by (by rewrite <- !app_assoc). reflexivity.
Qed.
Lemma ads8317_read_frame_witness :
  ads8317_read 0 (MkSpi [] [0; 0; 255; 7])
  = Ok (MkSpi ([] ++ [Select 0 1; Byte 0; Byte 0; Byte 0; Select 0 0]) [7], s16 (255 / 4)).
Proof. apply (ads8317_read_frame 0 0 0 255 [] [7]); by vm_compute. Defined.

(** ** dac856x *)
Definition frame3 (cs b0 b1 b2 : Z) : list spi_event := [Select cs 1; Byte b0; Byte b1; Byte b2; Select cs 0].
Definition logged (d : spidev) (l : list spi_event) (n : nat) : spidev := MkSpi (sd_log d ++ l) (drop n (sd_answers d)).

(** Select, three bytes out, deselect: the only exchange of both chips. *)
Lemma spi_frame3 cs a b c d :
  (_ ← spi_select cs 1; _ ← spi_transfer None (Some [a; b; c]) 3; _ ← spi_select cs 0; mret tt) d
  = Ok (logged d (frame3 cs a b c) 3, tt).
Proof.
  rewrite (M_bind_Ok _ _ _ (spi_log (Select cs 1) d) 1) by done.
  rewrite (M_bind_Ok _ _ _ _ _ (spidev_transfer_write [a; b; c] 3 _ eq_refl)).
  rewrite (M_bind_Ok _ _ _ (spi_log (Select cs 0) (MkSpi ((sd_log d ++ [Select cs 1]) ++ [Byte a; Byte b; Byte c]) (drop 3 (sd_answers d)))) 1) by done.
  unfold logged, frame3, spi_log, mret, M_ret. cbn -[drop]. by rewrite <- !app_assoc.
Qed.

Lemma output_code_eq dev v :
  is_u32 v -> 0 < ref_vol_dot_1mv dev < 65536 -> v / 100 <= ref_vol_dot_1mv dev ->
  exists c, output_code dev v = Ok c /\ 0 <= c <= 65536 /\
    2 * Z.abs (c * ref_vol_dot_1mv dev - v / 100 * 65536) <= ref_vol_dot_1mv dev /\
    (c = 65536 <-> v / 100 = ref_vol_dot_1mv dev).
Proof.
  intros Hv Hr Hle. set (r := ref_vol_dot_1mv dev) in *. pow2_norm.
  assert (H100 : 0 <= v / 100) by (apply Z.div_pos; lia). pose proof (Z.div_pos r 2).
  pose proof (Z.div_mod r 2 ltac:(lia)). pose proof (Z.mod_pos_bound r 2).
  assert (Hcase : v / 100 < r \/ v / 100 = r) by lia.
  exists ((v / 100 * 65536 + r / 2) / r). unfold output_code. fold r. rewrite (proj2 (Z.eqb_neq _ _)) by lia.
  assert (Hbig : v / 100 <= 42949672) by (apply Z.lt_succ_r, Z.div_lt_upper_bound; lia).
  assert (v / 100 * 65536 + r / 2 < 4294967296) by nia. unwrap.
  split; [done|]. split; [split; [apply round_div_nonneg; lia|apply round_div_le; lia]|].
  split; [apply round_div; lia|].
  pose proof (Z.div_mod (v / 100 * 65536 + r / 2) r ltac:(lia)). pose proof (Z.mod_pos_bound (v / 100 * 65536 + r / 2) r).
  set (q := (v / 100 * 65536 + r / 2) / r) in *. split; intros; nia.
Qed.

(** Setting the output voltage (in microvolts, used in steps of 100)
    of an initialised converter to at most its reference: below the
    reference the code kept and sent is the nearest one, and the chip is sent
    a frame exactly when the code changes; at the reference itself the code
    65536 is cut to 16 bits, and the output goes to 0. *)
Theorem dac856x_output (plat : dac856x_platform) (dev : dac856x) (v : Z) (d : spidev) (r := ref_vol_dot_1mv dev) :
  is_u32 v -> 0 < r < 65536 -> v / 100 <= r ->
  exists c, dac856x_set_output plat dev v d
    = Ok (if dac_value dev =? c then d
          else logged d (frame3 (d856_cs_index plat) (power_status dev) (c / 256) (c mod 256)) 3,
          (MkDac856 (power_status dev) c r, 1)) /\
    0 <= c < 65536 /\
    (if v / 100 =? r then c = 0 else 2 * Z.abs (c * r - v / 100 * 65536) <= r).
Proof.
  intros Hv Hr Hle. destruct (output_code_eq dev v Hv Hr Hle) as (c & E & Hc & Hnear & Hfull). fold r in Hnear, Hfull.
  exists (u16 c). assert (Hu : 0 <= u16 c < 65536) by (apply (wrap_range 16 c); lia).
  split; [|split; [done|]].
  - unfold dac856x_set_output. rewrite E. rewrite (M_bind_Ok _ _ _ _ _ (pure_Ok c d)).
    unfold dac856x_set_regvalue. destruct (Z.eqb_spec (dac_value dev) (u16 c)) as [Heq|Hne].
    + cbn. rewrite <- Heq. by destruct dev.
    + cbn [negb]. unfold update_to_device. cbn [power_status dac_value ref_vol_dot_1mv].
      rewrite Z.shiftr_div_pow2 by lia. change (2 ^ 8) with 256. change (u8 (u16 c)) with (u16 c mod 256).
      by rewrite (M_bind_Ok _ _ _ _ _ (spi_frame3 _ _ _ _ d)).
  - destruct (Z.eqb_spec (v / 100) r) as [Hf|Hf]; [by rewrite (proj2 Hfull Hf)|].
    assert (c <> 65536) by tauto. rewrite wrap_small by (pow2_norm; lia). done.
Qed.
Lemma dac856x_output_witness :
  let plat := {| d856_cs_index := 2; d856_ref_voltage_uv := 0 |} in
  let dev := MkDac856 0 7 25000 in
  (exists c, dac856x_set_output plat dev 1250000 (MkSpi [] []) =
     Ok (MkSpi (frame3 2 0 (c / 256) (c mod 256)) [], (MkDac856 0 c 25000, 1)) /\ c = 32768) /\
  exists w, dac856x_set_output plat dev 2500000 (MkSpi [] []) = Ok (w, (MkDac856 0 0 25000, 1)).
Proof.
  cbv zeta. split.
  - destruct (dac856x_output {| d856_cs_index := 2; d856_ref_voltage_uv := 0 |} (MkDac856 0 7 25000) 1250000 (MkSpi [] []))
      as (c & E & Hc & Hn); [by vm_compute..|]. exists c.
    change (2 * Z.abs (c * 25000 - 12500 * 65536) <= 25000) in Hn. assert (c = 32768) as -> by lia. split; [exact E|done].
  - destruct (dac856x_output {| d856_cs_index := 2; d856_ref_voltage_uv := 0 |} (MkDac856 0 7 25000) 2500000 (MkSpi [] []))
      as (c & E & Hc & Hn); [by vm_compute..|]. change (c = 0) in Hn. subst c. by eexists.
Defined.

(** ** dac816x *)
Lemma logged_logged d l1 n1 l2 n2 : logged (logged d l1 n1) l2 n2 = logged d (l1 ++ l2) (n1 + n2).
Proof. unfold logged. cbn. by rewrite drop_drop, <- app_assoc. Qed.

Section dac816x.
  Context (plat : dac816x_platform).
Abbreviation cs := (d816_cs_index plat).
Abbreviation r := (ref_vol plat).

(** What a command looks like on the wire. *)
Definition command (cmd dat : Z) : list spi_event := frame3 cs cmd (dat / 256 mod 256) (dat mod 256).
Lemma transmit_eq cmd dat d : transmit plat cmd dat d = Ok (logged d (command cmd dat) 3, tt).
Proof. unfold transmit. rewrite spi_frame3, Z.shiftr_div_pow2 by lia. done. Qed.

Definition channel_code (channel : Z) : Z := if channel =? CHANNEL_A then 1 else 2.
Lemma set_power_eq channel b status bits d :
  channel_bit channel = Some b -> power_bits status = Some bits ->
  set_channel_power_status plat channel status d = Ok (logged d (command 32 (Z.lor bits b)) 3, 1).
Proof. intros Eb Ep. unfold set_channel_power_status. rewrite Ep, Eb. by rewrite (M_bind_Ok _ _ _ _ _ (transmit_eq _ _ d)). Qed.

Definition gain_of (dev : dac816x) (channel : Z) : Z :=
  if channel =? CHANNEL_A then is_channel_a_gain_2 dev else is_channel_b_gain_2 dev.
Definition with_gain (dev : dac816x) (channel g : Z) : dac816x :=
  if channel =? CHANNEL_A then
    MkDac816 (channel_a_power_status dev) (channel_b_power_status dev) g (is_channel_b_gain_2 dev)
  else MkDac816 (channel_a_power_status dev) (channel_b_power_status dev) (is_channel_a_gain_2 dev) g.
Definition gain_command (dev : dac816x) : list spi_event :=
  command 2 (gain_to_command_data (is_channel_a_gain_2 dev) (is_channel_b_gain_2 dev)).

Lemma update_gain_eq dev channel g d :
  update_gain plat dev channel g d
  = Ok (if gain_of dev channel =? g then d else logged d (gain_command (with_gain dev channel g)) 3, with_gain dev channel g).
Proof.
  unfold update_gain, gain_of, with_gain, set_gain.
  destruct (channel =? CHANNEL_A), dev as [pa pb ga gb]; cbn [is_channel_a_gain_2 is_channel_b_gain_2];
    match goal with |- context [negb (?x =? g)] => destruct (Z.eqb_spec x g) as [->|] end; cbn [negb]; try done;
    by rewrite (M_bind_Ok _ _ _ _ _ (transmit_eq _ _ d)).
Qed.

Lemma dac_code_eq x : 0 < r <= 32767 -> 0 <= x < r ->
  exists c, dac_code plat x = Ok c /\ 0 <= c < 65536 /\ 2 * Z.abs (c * r - x * 65536) <= r.
Proof.
  intros Hr Hx. pose proof (Z.div_pos r 2). pose proof (Z.div_mod r 2 ltac:(lia)). pose proof (Z.mod_pos_bound r 2).
  exists ((x * 65536 + r / 2) / r). unfold dac_code.
  rewrite !int32_ok by lia. cbn [mbind res_bind]. rewrite !int32_ok by lia. cbn [mbind res_bind].
  assert (B : 0 <= (x * 65536 + r / 2) / r < 65536).
  { split; [apply round_div_nonneg; lia|]. apply Z.div_lt_upper_bound; lia. }
  split; [|split; [done|apply round_div; lia]]. unwrap. done.
Qed.

(** Asking a channel for an output voltage (in millivolts).
    - A voltage of twice the reference or more, an unknown channel and a
      channel that is not powered on are refused without any bus traffic.
    - Otherwise the channel is switched to high impedance, the gain bits are
      sent if the channel's gain changes - two from the reference on, one
      below - then the code nearest to the voltage, and the channel is switched
      on again; only the channel's gain field changes. For references up to
      32767 mV no arithmetic overflows and the code fits in sixteen bits. *)
Theorem dac816x_output (dev : dac816x) (channel v : Z) (d : spidev) :
  0 < r <= 32767 -> is_u16 v ->
  if (2 * r <=? v) || negb (channel_on dev channel) then dac816x_set_output plat dev channel v d = Ok (d, (dev, 0))
  else
    let g := if r <=? v then 1 else 0 in
    let x := if r <=? v then v / 2 else v in
    let dev' := with_gain dev channel g in
    exists c n, dac816x_set_output plat dev channel v d
      = Ok (logged d (command 32 (48 + channel_code channel)
              ++ (if gain_of dev channel =? g then [] else gain_command dev')
              ++ command (24 + (channel_code channel - 1)) c
              ++ command 32 (channel_code channel)) n, (dev', 1)) /\
    0 <= c < 65536 /\ 2 * Z.abs (c * r - x * 65536) <= r.
Proof.
  intros Hr Hv. unfold dac816x_set_output. rewrite (Z.mul_comm 2 r).
  destruct (Z.leb_spec (r * 2) v) as [|Hlt]; [done|]. cbn [orb].
  destruct (channel_on dev channel) eqn:Hon; [|done]. cbn [negb].
  assert (Hb : channel_bit channel = Some (channel_code channel) /\ (channel = 0 \/ channel = 1)).
  { unfold channel_on, CHANNEL_A, CHANNEL_B in Hon. unfold channel_bit, channel_code, CHANNEL_A, CHANNEL_B.
    destruct (Z.eqb_spec channel 0); [auto|]. destruct (Z.eqb_spec channel 1); [auto|done]. }
  destruct Hb as [Hb Hch].
  set (g := if r <=? v then 1 else 0). set (x := if r <=? v then v / 2 else v). cbv zeta.
  assert (Hx : 0 <= x < r).
  { unfold x. pow2_norm. destruct (Z.leb_spec r v); [|lia]. split; [apply Z.div_pos; lia|apply Z.div_lt_upper_bound; lia]. }
  destruct (dac_code_eq x Hr Hx) as (c & Ec & Hc & Hn).
  exists c, (if gain_of dev channel =? g then 9%nat else 12%nat). split; [|done].
  rewrite (M_bind_Ok _ _ _ _ _ (set_power_eq channel _ CHANNEL_POWER_DOWN_HiZ 48 d Hb eq_refl)).
  assert (Epair : (if r <=? v then (v / 2, 1) else (v, 0)) = (x, g)) by (unfold x, g; by destruct (r <=? v)).
  rewrite Epair. cbv beta iota.
  rewrite (M_bind_Ok _ _ _ _ _ (update_gain_eq dev channel g _)), Ec.
  rewrite (M_bind_Ok _ _ _ _ _ (pure_Ok c _)), (M_bind_Ok _ _ _ _ _ (transmit_eq _ _ _)).
  rewrite (M_bind_Ok _ _ _ _ _ (set_power_eq channel _ CHANNEL_POWER_ON 0 _ Hb eq_refl)).
  unfold mret, M_ret. do 2 f_equal. rewrite (wrap_small 16 c) by (pow2_norm; lia).
  assert (E1 : Z.lor 48 (channel_code channel) = 48 + channel_code channel /\ Z.lor 0 (channel_code channel) = channel_code channel /\
    (if channel =? CHANNEL_A then 24 else 25) = 24 + (channel_code channel - 1)).
  { by destruct Hch as [-> | ->]. }
  destruct E1 as (-> & -> & ->).
  destruct (gain_of dev channel =? g); rewrite !logged_logged, <- ?app_assoc; done.
Qed.
End dac816x.
Lemma dac816x_output_witness :
  let plat := {| d816_cs_index := 1; d816_ref_voltage_mv := 0 |} in
  exists c n, dac816x_set_output plat (MkDac816 0 2 0 0) 0 3000 (MkSpi [] [])
    = Ok (logged (MkSpi [] []) (frame3 1 32 0 49 ++ frame3 1 2 0 2 ++ frame3 1 24 (c / 256 mod 256) (c mod 256) ++ frame3 1 32 0 1) n,
          (MkDac816 0 2 1 0, 1)) /\ c = 39322.
Proof.
  destruct (dac816x_output {| d816_cs_index := 1; d816_ref_voltage_mv := 0 |} (MkDac816 0 2 0 0) 0 3000 (MkSpi [] []))
    as (c & n & E & Hc & Hn); [by vm_compute..|]. exists c, n. split; [exact E|].
  change (2 * Z.abs (c * 2500 - 1500 * 65536) <= 2500) in Hn. lia.
Defined.

(** ** ads1015 *)
Lemma quot_round x : let y := if 0 <=? x then x + 1024 else x - 1024 in 2 * Z.abs (Z.quot y 2048 * 2048 - x) <= 2048.
Proof.
  cbv zeta. destruct (Z.leb_spec 0 x).
  - rewrite Z.quot_div_nonneg by lia. pose proof (Z.div_mod (x + 1024) 2048). pose proof (Z.mod_pos_bound (x + 1024) 2048). lia.
  - replace (x - 1024) with (- (- x + 1024)) by lia. rewrite Z.quot_opp_l, Z.quot_div_nonneg by lia.
    pose proof (Z.div_mod (- x + 1024) 2048). pose proof (Z.mod_pos_bound (- x + 1024) 2048). lia.
Qed.

(** A conversion result in its range is scaled to millivolts rounded to
    nearest, for each of the six full scales, and stays within the full
    scale; a result out of range and an unknown full scale give 0. *)
Theorem ads1015_result_to_mv_rounds (result fsl : Z) :
  is_u8 fsl ->
  match vt !! Z.to_nat fsl with
  | Some full =>
    if (-2048 <=? result) && (result <? 2048) then
      exists mv, ads1015_result_to_mv result fsl = Ok mv /\ 2 * Z.abs (mv * 2048 - result * full) <= 2048 /\ - full <= mv <= full
    else ads1015_result_to_mv result fsl = Ok 0
  | None => ads1015_result_to_mv result fsl = Ok 0
  end.
Proof.
  intros Hf. unfold ads1015_result_to_mv, ADS1015_RESULT_FULL. change (Z.opp 2048) with (-2048). rewrite (wrap_small 8) by done.
  destruct (vt !! Z.to_nat fsl) as [full|] eqn:E.
  - assert (Hlt : (Z.to_nat fsl < 6)%nat) by (by apply lookup_lt_Some in E). pow2_norm.
    rewrite (proj2 (Z.leb_gt 6 fsl)) by lia.
    destruct (Z.leb_spec (-2048) result), (Z.ltb_spec result 2048); cbn [andb].
    + rewrite (proj2 (Z.leb_gt 2048 result)), (proj2 (Z.ltb_ge result (-2048))) by lia.
      rewrite (proj2 (bget_Ok vt fsl full)) by (split; [lia|done]). cbn [mbind res_bind].
      assert (Hfull : 0 < full <= 6144).
      { assert (Forall (fun f => 0 < f <= 6144) vt) as HF by (unfold vt; repeat (apply List.Forall_cons; [lia|]); apply List.Forall_nil).
        rewrite Forall_lookup in HF. by apply (HF _ _ E). }
      pose proof (quot_round (result * full)) as Hq. cbv zeta in Hq. change (2048 / 2) with 1024.
      eexists. split; [reflexivity|].
      set (q := Z.quot _ _) in *. assert (- full <= q <= full) by nia.
      rewrite swrap_small by (cbn; lia). done.
    + by rewrite (proj2 (Z.leb_le 2048 result)) by lia.
    + rewrite (proj2 (Z.leb_gt 2048 result)), (proj2 (Z.ltb_lt result (-2048))) by lia. done.
    + lia.
  - apply lookup_ge_None in E. change (length vt) with 6%nat in E. pow2_norm.
    rewrite (proj2 (Z.leb_le 6 fsl)) by lia. done.
Qed.
Lemma ads1015_result_to_mv_rounds_witness :
  is_u8 1 /\ exists mv, ads1015_result_to_mv (-1001) 1 = Ok mv /\ 2 * Z.abs (mv * 2048 - (-1001) * 4096) <= 2048 /\ -4096 <= mv <= 4096.
Proof. split; [by vm_compute|]. apply (ads1015_result_to_mv_rounds (-1001) 1). by vm_compute. Defined.

(** A bus on which every transfer returns, and returns the buffer handed to
    it at its length with bytes in it. *)
Definition bus_returns {W} `{I2cOps W} : Prop := forall addr w wlen (r : option (list Z)) rlen s,
  exists s' n r', i2c_transmit addr w wlen r rlen s = Ok (s', (n, r')) /\
    match r, r' with Some r, Some r' => length r' = length r | None, _ => True | Some _, None => False end.

Section single_convert.
  Context {W : Type} `{I2cOps W} (addr junk : Z) (delay_ms : Z -> M W unit).
  Hypothesis bus : bus_returns.
  Hypothesis delay_returns : forall n s, exists s', delay_ms n s = Ok (s', tt).

Lemma write_register_returns reg v s : exists s' ok, write_register addr reg v s = Ok (s', ok).
Proof.
  unfold write_register. destruct (bus addr (Some [reg; u8 (Z.shiftr v 8); Z.land v 255]) 3 None 0 s) as (s' & n & r' & E & _).
  rewrite (M_bind_Ok _ _ _ _ _ E). by eexists _, _.
Qed.
Lemma read_register_returns reg s :
  exists s' v, read_register addr junk reg s = Ok (s', v) /\ match v with Some x => 0 <= x < 65536 | None => True end.
Proof.
  unfold read_register.
  destruct (bus addr (Some [reg; junk; junk]) 1 (Some [junk; junk]) 2 s) as (s' & n & r' & E & Hr).
  rewrite (M_bind_Ok _ _ _ _ _ E). cbv beta iota. destruct (negb (3 =? n)); [by eexists _, None|].
  destruct r' as [[|h [|l [|? ?]]]|]; try done. eexists _, _. split; [reflexivity|].
  apply (wrap_range 16). lia.
Qed.

(** The polling loop ends within its bound of twenty polls. *)
Lemma wait_conversion_returns : forall fuel i s, 0 <= i <= 20 -> (21 - Z.to_nat i <= fuel)%nat ->
  exists s' b, wait_conversion addr junk delay_ms fuel i s = Ok (s', b).
Proof.
  induction fuel as [|fuel IH]; intros i s Hi Hf; [lia|]. cbn [wait_conversion].
  destruct (delay_returns 1 s) as (s1 & E1). rewrite (M_bind_Ok _ _ _ _ _ E1).
  rewrite (wrap_small 8) by (pow2_norm; lia). destruct (Z.ltb_spec 20 (i + 1)); [by eexists _, _|].
  destruct (read_register_returns 1 s1) as (s2 & v & E2 & _). rewrite (M_bind_Ok _ _ _ _ _ E2).
  destruct v as [tmp|]; [|by eexists _, _]. destruct (Z.land tmp 32768 =? 0); [|by eexists _, _].
  apply IH; lia.
Qed.

(** On a bus whose transfers return, a single conversion always ends -
    the loop that waits for the chip gives up after twenty polls - and its
    result is a signed twelve-bit number or the error value 32767, which is
    none. *)
Theorem ads1015_single_convert_range (channel fsl : Z) (s : W) :
  exists s' v, ads1015_single_convert addr junk delay_ms channel fsl s = Ok (s', v) /\
    (v = ADS1015_RESULT_ERROR \/ -2048 <= v <= 2047).
Proof.
  unfold ads1015_single_convert. cbv zeta.
  destruct (write_register_returns 1 (conversion_config channel fsl) s) as (s1 & ok1 & E1).
  rewrite (M_bind_Ok _ _ _ _ _ E1). destruct (negb (ctrue ok1)); [eexists _, _; split; [reflexivity|by left]|].
  destruct (write_register_returns 1 (Z.lor (conversion_config channel fsl) 32768) s1) as (s2 & ok2 & E2).
  rewrite (M_bind_Ok _ _ _ _ _ E2). destruct (negb (ctrue ok2)); [eexists _, _; split; [reflexivity|by left]|].
  destruct (wait_conversion_returns 21 0 s2 ltac:(lia) ltac:(lia)) as (s3 & b & E3).
  rewrite (M_bind_Ok _ _ _ _ _ E3). destruct (negb b); [eexists _, _; split; [reflexivity|by left]|].
  destruct (read_register_returns 0 s3) as (s4 & v & E4 & Hv). rewrite (M_bind_Ok _ _ _ _ _ E4).
  destruct v as [x|]; [|eexists _, _; split; [reflexivity|by left]].
  eexists _, _. split; [reflexivity|right]. rewrite Z.shiftr_div_pow2 by lia. change (2 ^ 4) with 16.
  pose proof (swrap_range 16 x ltac:(lia)) as Hs. change (2 ^ (16 - 1)) with 32768 in Hs.
  pose proof (Z.div_mod (s16 x) 16). pose proof (Z.mod_pos_bound (s16 x) 16). lia.
Qed.
End single_convert.
(** The witness: a bus that acknowledges everything and reads 0x9abc. *)
Definition answering_bus : I2cOps Z := {|
  i2c_ops_init := fun w => Ok (w, 1);
  i2c_ops_deinit := fun w => Ok (w, tt);
  i2c_ops_transmit := fun _ _ wlen r rlen w => Ok (w + 1, (u8 (wlen + rlen), option_map (fun l => overwrite l 0 (take (length l) [154; 188])) r))
|}.
Lemma ads1015_single_convert_range_witness :
  (exists s' v, @ads1015_single_convert Z answering_bus 72 0 (fun _ w => Ok (w, tt)) 4 1 0 = Ok (s', v) /\
    (v = ADS1015_RESULT_ERROR \/ -2048 <= v <= 2047)) /\
  @ads1015_single_convert Z answering_bus 72 0 (fun _ w => Ok (w, tt)) 4 1 0 = Ok (4, -1621).
Proof.
  split; [|by vm_compute].
  apply (@ads1015_single_convert_range Z answering_bus).
  - intros addr w wlen r rlen s. eexists _, _, _. split; [reflexivity|]. destruct r as [l|]; [|done]. cbn.
    apply Nat2Z.inj. change (Zlen (overwrite l 0 (take (length l) [154; 188])) = Zlen l). apply Zlen_overwrite; [lia|].
    unfold Zlen. rewrite length_take. lia.
  - intros n s. by eexists.
Defined.
