(* ===== verification/Rtc.v ===== *)
(** The real-time clocks of src/src/drivers: pcf212x/pcf212x.c and
    sd2405al/sd2405al.c, over the I2C interface and the date arithmetic of
    Datetime.v, with the round trip of the time through the chip. *)
From S2P Require Import Prelude Bus Bcd Datetime Devices Analog.

(** [struct datetime t;] on the stack, before anything is stored in it. *)
Definition junk_datetime (junk : Z) : datetime := MkDt junk junk junk junk junk junk junk.

(** ** pcf212x/pcf212x.c

    [struct pcf212x] is its status; [addr] is the platform's. *)
Definition PCF212X_STATUS_NOT_INIT := 0.
Definition PCF212X_STATUS_OK := 1.
Definition PCF212X_STATUS_RESET := 2.

Section pcf212x.
  Context {W : Type} `{I2cOps W} (addr junk : Z).

Definition write_regs (reg_and_dat : option (list Z)) (len : Z) : M W Z :=
  '(n, _) ← i2c_transmit addr reg_and_dat len None 0;
  mret (if negb (len =? n) then 0 else 1).
Definition read_regs (reg : Z) (dat : list Z) (len : Z) : M W (Z * list Z) :=
  '(n, _) ← i2c_transmit addr (Some [reg]) 1 None 0;
  if negb (1 =? n) then mret (0, dat) else
  '(n, r) ← i2c_transmit addr None 0 (Some dat) len;
  dat ← received r;
  mret (if negb (len =? n) then 0 else 1, dat).

  (** The call [write_regs(dev->platform, 0x00, dat[0])] passes the register
      number where the pointer belongs. *)
Definition pcf212x_init : M W (Z * Z) :=
  ok ← i2c_init;
  if 0 =? ok then mret (PCF212X_STATUS_NOT_INIT, 0) else
  '(ok, dat) ← read_regs 0 (replicate 4 junk) 4;
  if 0 =? ok then mret (PCF212X_STATUS_NOT_INIT, 0) else
  d0 ← pure (bget dat 0);
  ok ← (if ctrue (Z.land d0 (Z.shiftl 1 3)) then write_regs None (u8 (Z.land d0 (Z.lnot (Z.shiftl 1 3)))) else mret 1);
  if 0 =? ok then mret (PCF212X_STATUS_NOT_INIT, 0) else
  d3 ← pure (bget dat 3);
  if ctrue (Z.land d3 (Z.shiftl 1 7)) then mret (PCF212X_STATUS_OK, 1) else mret (PCF212X_STATUS_RESET, 1).

Definition converted (seconds : Z) : M W datetime :=
  '(t, _) ← pure (second_to_datetime (Some (junk_datetime junk)) seconds);
  match t with Some t => mret t | None => pure (Err NullDeref) end.

Definition pcf212x_write_time (seconds : Z) : M W Z :=
  t ← converted seconds;
  write_regs (Some [3; to_bcd (second t); to_bcd (minute t); to_bcd (hour t); to_bcd (day t);
                    weekday t; to_bcd (month t); to_bcd (year t)]) 8.
Definition pcf212x_fields (treg : list Z) : res datetime :=
  r0 ← bget treg 0; r1 ← bget treg 1; r2 ← bget treg 2; r3 ← bget treg 3;
  r4 ← bget treg 4; r5 ← bget treg 5; r6 ← bget treg 6;
  Ok (MkDt (from_bcd r6) (from_bcd r5) (from_bcd r3) r4 (from_bcd (Z.land r2 63)) (from_bcd r1) (from_bcd r0)).
Definition pcf212x_read_time (seconds : option Z) : M W (option Z * Z) :=
  match seconds with
  | None => mret (None, 0)
  | Some _ =>
    '(ok, treg) ← read_regs 3 (replicate 7 junk) 7;
    if negb (ctrue ok) then mret (seconds, 0) else
    t ← pure (pcf212x_fields treg);
    pure (datetime_to_second seconds (Some t))
  end.
Definition pcf212x_dump_regs (dat : list Z) : M W (Z * list Z) := read_regs 0 dat 28.
Definition pcf212x_clear_alarm : M W Z :=
  ok ← write_regs (Some [0; 0; 0; 0; 0; 0]) 4;
  if 0 =? ok then mret 0 else
  ok ← write_regs (Some [10; 128; 128; 128; 128; 128]) 6;
  if 0 =? ok then mret 0 else mret 1.
Definition pcf212x_set_alarm (seconds : Z) : M W Z :=
  t ← converted seconds;
  ok ← write_regs (Some [10; to_bcd (second t); to_bcd (minute t); to_bcd (hour t); to_bcd (day t); 128]) 6;
  if 0 =? ok then mret 0 else
  ok ← write_regs (Some [1; Z.shiftl 1 1; to_bcd (minute t); to_bcd (hour t); to_bcd (day t); 128]) 2;
  if 0 =? ok then mret 0 else mret 1.
End pcf212x.

(** ** sd2405al/sd2405al.c

    [struct sd2405] with its shadows of the two control registers. The
    source calls [hex_to_bcd] and [bcd_to_hex] without declaring them and no
    file of the repository defines them: they are parameters. *)
Record sd2405 := MkSd { ctr1 : Z; ctr2 : Z }.
Inductive sd2405_interrupt_type :=
  SD2405_INTERRUPT_DISABLE | SD2405_INTERRUPT_ALARM | SD2405_INTERRUPT_FREQUENCY | SD2405_INTERRUPT_COUNTDOWN.
Inductive sd2405_interrupt_single := SD2405_INTERRUPT_SINGLE_LOWLEVEL | SD2405_INTERRUPT_SINGLE_PAUSE.

Section sd2405.
  Context {W : Type} `{I2cOps W} (hex_to_bcd bcd_to_hex : Z -> Z) (addr junk : Z).

Definition sd_read_regs (reg : Z) (dat : list Z) (len : Z) : M W (Z * list Z) :=
  '(n, r) ← i2c_transmit addr (Some [reg]) 1 (Some dat) len;
  dat ← received r;
  mret (if negb (len + 1 =? n) then 0 else 1, dat).
Abbreviation sd_write_regs := (write_regs addr).

Definition write_enable (dev : sd2405) (is_enable : Z) : M W (sd2405 * Z) :=
  if ctrue is_enable then
    let d1 := Z.lor (ctr2 dev) 128 in
    ok ← sd_write_regs (Some [16; d1]) 2;
    if negb (ctrue ok) then mret (dev, 0) else
    let dev := MkSd (ctr1 dev) d1 in
    let d1 := Z.lor (ctr1 dev) 132 in
    ok ← sd_write_regs (Some [15; d1]) 2;
    if negb (ctrue ok) then mret (dev, 0) else mret (MkSd d1 (ctr2 dev), 1)
  else
    let d1 := Z.land (ctr1 dev) (Z.lnot 132) in
    let d2 := Z.land (ctr2 dev) (Z.lnot 128) in
    ok ← sd_write_regs (Some [15; d1; d2]) 3;
    if negb (ctrue ok) then mret (dev, 0) else mret (MkSd d1 d2, 1).

Definition sd2405_init (dev : sd2405) : M W (sd2405 * Z) :=
  ok ← i2c_init;
  if 0 =? ok then mret (dev, 0) else
  '(ok, dat) ← sd_read_regs 15 (replicate 2 junk) 2;
  if 0 =? ok then mret (dev, 0) else
  c1 ← pure (bget dat 0); c2 ← pure (bget dat 1);
  let dev := MkSd c1 c2 in
  if Z.land (ctr2 dev) (Z.shiftl 1 3) =? 0 then
    let dev := MkSd (ctr1 dev) (Z.lor (ctr2 dev) (Z.shiftl 1 3)) in
    '(dev, ok) ← write_enable dev 1;
    if negb (ctrue ok) then mret (dev, 0) else
    '(dev, _) ← write_enable dev 0;
    mret (dev, 1)
  else mret (dev, 1).

  (** Registers written between enabling and disabling writes. *)
Definition guarded_write (dev : sd2405) (reg_and_dat : list Z) (len : Z) : M W (sd2405 * Z) :=
  ok ← sd_write_regs (Some reg_and_dat) len;
  '(dev, _) ← write_enable dev 0;
  mret (dev, if negb (ctrue ok) then 0 else 1).

Definition sd2405_write_time (dev : sd2405) (seconds : Z) : M W (sd2405 * Z) :=
  '(dev, ok) ← write_enable dev 1;
  if negb (ctrue ok) then mret (dev, 0) else
  t ← converted junk seconds;
  guarded_write dev [0; hex_to_bcd (second t); hex_to_bcd (minute t); Z.lor (hex_to_bcd (hour t)) 128; weekday t;
                     hex_to_bcd (day t); hex_to_bcd (month t); hex_to_bcd (year t)] 8.
Definition sd2405_fields (treg : list Z) : res datetime :=
  r0 ← bget treg 0; r1 ← bget treg 1; r2 ← bget treg 2;
  r4 ← bget treg 4; r5 ← bget treg 5; r6 ← bget treg 6;
  Ok (MkDt (bcd_to_hex r6) (bcd_to_hex r5) (bcd_to_hex r4) junk (bcd_to_hex (Z.land r2 63)) (bcd_to_hex r1) (bcd_to_hex r0)).
Definition sd2405_read_time (seconds : option Z) : M W (option Z * Z) :=
  match seconds with
  | None => mret (None, 0)
  | Some _ =>
    '(ok, treg) ← sd_read_regs 0 (replicate 7 junk) 7;
    if negb (ctrue ok) then mret (seconds, 0) else
    t ← pure (sd2405_fields treg);
    '(seconds, ok) ← pure (datetime_to_second seconds (Some t));
    mret (seconds, if negb (ctrue ok) then 0 else 1)
  end.

  (** The copy loop of [sd2405_store_data] into [reg_and_dat[13]]. *)
Fixpoint copy_loop (n : nat) (dat buf : list Z) (i : Z) : res (list Z) :=
  match n with
  | O => Ok buf
  | S n => x ← bget dat i; buf ← bset buf (i + 1) x; copy_loop n dat buf (i + 1)
  end.
Definition sd2405_store_data (dev : sd2405) (dat : option (list Z)) (offset len : Z) : M W (sd2405 * Z) :=
  match dat with
  | None => mret (dev, 0)
  | Some dat =>
    if 12 <? offset + len then mret (dev, 0) else
    '(dev, ok) ← write_enable dev 1;
    if negb (ctrue ok) then mret (dev, 0) else
    buf ← pure (copy_loop (Z.to_nat len) dat (u8 (20 + offset) :: replicate 12 junk) 0);
    guarded_write dev buf (len + 1)
  end.
Definition sd2405_restore_data (dat : option (list Z)) (offset len : Z) : M W (Z * option (list Z)) :=
  match dat with
  | None => mret (0, None)
  | Some dat =>
    if 12 <? offset + len then mret (0, Some dat) else
    '(ok, dat) ← sd_read_regs (u8 (20 + offset)) dat len; mret (ok, Some dat)
  end.
Definition sd2405_dump_regs (dat : list Z) : M W (Z * list Z) := sd_read_regs 0 dat 32.

Definition interrupt_bits (int_type : sd2405_interrupt_type) (d : Z) : Z :=
  match int_type with
  | SD2405_INTERRUPT_DISABLE => Z.land d (Z.lnot 48)
  | SD2405_INTERRUPT_ALARM => Z.lor d (Z.lor 16 2)
  | SD2405_INTERRUPT_FREQUENCY => Z.lor d (Z.lor 32 1)
  | SD2405_INTERRUPT_COUNTDOWN => Z.lor d (Z.lor 48 4)
  end.
  (** [None] is a value outside the enumeration, the [default] label. *)
Definition sd2405_config_interrupt (dev : sd2405) (int_type : option sd2405_interrupt_type) (single : sd2405_interrupt_single)
    : M W (sd2405 * Z) :=
  '(dev, ok) ← write_enable dev 1;
  if negb (ctrue ok) then mret (dev, 0) else
  let d1 := Z.lor (ctr2 dev) 8 in
  let d1 := match single with SD2405_INTERRUPT_SINGLE_PAUSE => Z.lor d1 64 | SD2405_INTERRUPT_SINGLE_LOWLEVEL => d1 end in
  match int_type with
  | None => '(dev, _) ← write_enable dev 0; mret (dev, 0)
  | Some ty =>
    let d1 := interrupt_bits ty d1 in
    ret ← sd_write_regs (Some [16; d1]) 2;
    let dev := if ctrue ret then MkSd (ctr1 dev) d1 else dev in
    '(dev, _) ← write_enable dev 0;
    mret (dev, ret)
  end.
Definition sd2405_clear_interrupt (dev : sd2405) : M W (sd2405 * Z) :=
  '(dev, ok) ← write_enable dev 1;
  if negb (ctrue ok) then mret (dev, 0) else
  ret ← sd_write_regs (Some [15; Z.land (ctr1 dev) (Z.lnot 3)]) 2;
  '(dev, _) ← write_enable dev 0;
  mret (dev, ret).
Definition sd2405_set_alarm (dev : sd2405) (seconds : Z) : M W (sd2405 * Z) :=
  '(dev, ok) ← write_enable dev 1;
  if negb (ctrue ok) then mret (dev, 0) else
  t ← converted junk seconds;
  guarded_write dev [7; 0; hex_to_bcd (minute t); hex_to_bcd (hour t); 0; hex_to_bcd (day t); hex_to_bcd (month t);
                     hex_to_bcd (year t); 118] 9.
End sd2405.

(** ** The clocks on a simulated register file *)
Section registers.
  Context (addr junk : Z).

Lemma received_Some {W} r (w : W) : received (Some r) w = Ok (w, r).
Proof. done. Qed.
Lemma write_regs_eq p l n d :
  n = Zlen (p :: l) -> n < 256 ->
  write_regs addr (Some (p :: l)) n d
  = Ok (MkReg (p + Zlen l) (overwrite (rd_regs d) p l) (rd_log d ++ [(addr, p :: l, 0)]), 1).
Proof.
  intros -> Hl. unfold write_regs. rewrite (M_bind_Ok _ _ _ _ _ (regdev_write addr p l d Hl)).
  by rewrite Z.eqb_refl.
Qed.
Lemma write_pointer reg d :
  i2c_transmit addr (Some [reg]) 1 None 0 d = Ok (MkReg reg (rd_regs d) (rd_log d ++ [(addr, [reg], 0)]), (1, None)).
Proof.
  pose proof (regdev_write addr reg [] d ltac:(done)) as E. change (Zlen [reg]) with 1 in E. rewrite E.
  rewrite overwrite_nil. change (Zlen (@nil Z)) with 0. by rewrite Z.add_0_r.
Qed.
(** Reading registers by setting the pointer first (pcf212x)... *)
Lemma read_regs_eq reg n r d :
  n = Zlen r -> n < 256 ->
  exists d', read_regs addr reg r n d = Ok (d', (1, overwrite r 0 (slice (rd_regs d) reg n))) /\ rd_regs d' = rd_regs d.
Proof.
  intros -> Hl. pose proof (Zlen_nonneg r). unfold read_regs. rewrite (M_bind_Ok _ _ _ _ _ (write_pointer reg d)).
  cbv beta iota. change (negb (1 =? 1)) with false. cbv iota.
  rewrite (M_bind_Ok _ _ _ _ _ (regdev_read addr (Zlen r) _ r ltac:(lia) ltac:(lia))). cbv beta iota.
  rewrite (M_bind_Ok _ _ _ _ _ (received_Some _ _)).
  eexists. by rewrite Z.eqb_refl.
Qed.
(** ...and in one transaction (sd2405). *)
Lemma sd_read_regs_eq reg n r d :
  n = Zlen r -> n + 1 < 256 ->
  exists d', sd_read_regs addr reg r n d = Ok (d', (1, overwrite r 0 (slice (rd_regs d) reg n))) /\ rd_regs d' = rd_regs d.
Proof.
  intros -> Hl. pose proof (Zlen_nonneg r). unfold sd_read_regs.
  pose proof (regdev_write_read addr reg [] d (Zlen r) r ltac:(lia) ltac:(zlen; lia)) as E.
  change (Zlen [reg]) with 1 in E. rewrite (M_bind_Ok _ _ _ _ _ E). cbv beta iota.
  rewrite (M_bind_Ok _ _ _ _ _ (received_Some _ _)). rewrite (Z.add_comm 1), Z.eqb_refl, overwrite_nil.
  change (Zlen (@nil Z)) with 0. rewrite Z.add_0_r. eexists. done.
Qed.

Lemma converted_eq {W} (w : W) y m dd h mi se (s := day_number y m dd * 86400 + time_seconds h mi se) :
  0 <= y -> valid_day (y mod 4 =? 0) m dd = true -> valid_time h mi se -> s < 2 ^ 32 ->
  converted junk s w = Ok (w, MkDt y m dd (weekday_of (day_number y m dd)) h mi se).
Proof.
  intros Hy Hd Ht Hs. unfold converted.
  rewrite (pure_bind_Ok _ _ w _ (second_to_datetime_eq (junk_datetime junk) y m dd h mi se Hy Hd Ht Hs)). done.
Qed.

(** Overwriting a whole buffer. *)
Lemma overwrite_full {A} (b l : list A) : length l = length b -> overwrite b 0 l = l.
Proof.
  intros E. unfold overwrite. change (Z.to_nat 0) with 0%nat. rewrite take_0, drop_ge by lia. by rewrite app_nil_r.
Qed.
Lemma length_slice {A} (b : list A) o n : 0 <= o -> 0 <= n -> o + n <= Zlen b -> length (slice b o n) = Z.to_nat n.
Proof. unfold slice, Zlen. rewrite length_take, length_drop. lia. Qed.
End registers.

(** What is read back of a date whose year was stored as [y2]. *)
Lemma back_to_seconds y2 m dd wd h mi se s0 :
  0 <= y2 -> valid_day (y2 mod 4 =? 0) m dd = true -> valid_time h mi se ->
  datetime_to_second (Some s0) (Some (MkDt y2 m dd wd h mi se))
  = Ok (Some (u32 (day_number y2 m dd * 86400 + time_seconds h mi se)), 1).
Proof.
  intros Hy Hd Ht. unfold datetime_to_second. rewrite valid_ignore_weekday by done. cbn [negb].
  pose proof Hd as [Hm Hdd]%valid_day_spec. pose proof (month_len_bound (y2 mod 4 =? 0) m).
  by rewrite toSeconds_eq by (done || lia).
Qed.

(** The years 2000 to 2099 as the code counts them. *)
Definition century : Z := year_start 100 * 86400.
Lemma year_of_century y m dd h mi se :
  0 <= y -> valid_day (y mod 4 =? 0) m dd = true -> valid_time h mi se ->
  day_number y m dd * 86400 + time_seconds h mi se < century -> y < 100.
Proof.
  intros Hy Hd Ht Hs. destruct (Z.lt_ge_cases y 100); [done|exfalso].
  pose proof Hd as [Hm Hdd]%valid_day_spec. pose proof (month_start_range (y mod 4 =? 0) m Hm).
  assert (year_start 100 <= year_start y).
  { unfold year_start. assert ((100 + 3) / 4 <= (y + 3) / 4) by (apply Z.div_le_mono; lia). lia. }
  unfold valid_time, time_seconds, day_number, century in *. lia.
Qed.

(** The time written to the clock chip in BCD registers is read back
    unchanged, for every second of a century. *)
Theorem pcf212x_time_round_trip (addr junk s s0 : Z) (d : regdev) :
  0 <= s < century -> 10 <= Zlen (rd_regs d) ->
  exists d1 d2, pcf212x_write_time addr junk s d = Ok (d1, 1) /\
    pcf212x_read_time addr junk (Some s0) d1 = Ok (d2, (Some s, 1)).
Proof.
  intros Hs Hr. destruct (seconds_exist s) as (y & m & dd & h & mi & se & Hy & Hd & Ht & E); [lia|]. rewrite E in *.
  pose proof (year_of_century _ _ _ _ _ _ Hy Hd Ht ltac:(lia)) as Hy100.
  pose proof Hd as [Hm Hdd]%valid_day_spec. pose proof (month_len_bound (y mod 4 =? 0) m). pose proof Ht as (Hh & Hmi & Hse).
  set (t := day_number y m dd * 86400 + time_seconds h mi se) in *.
  assert (Hmax : t < 2 ^ 32) by (change (2 ^ 32) with 4294967296; change century with 3155760000 in Hs; lia).
  unfold pcf212x_write_time. erewrite M_bind_Ok by (by apply converted_eq). cbn [second minute hour day weekday month year].
  eexists _. rewrite write_regs_eq by done.
  set (l := [to_bcd se; to_bcd mi; to_bcd h; to_bcd dd; _; to_bcd m; to_bcd y]).
  unfold pcf212x_read_time.
  destruct (read_regs_eq addr 3 7 (replicate 7 junk) (MkReg (3 + Zlen l) (overwrite (rd_regs d) 3 l) (rd_log d ++ [(addr, 3 :: l, 0)])))
    as (d2 & E2 & _); [done|done|]. exists d2. split; [done|].
  rewrite (M_bind_Ok _ _ _ _ _ E2). cbv beta iota. change (negb (ctrue 1)) with false. cbv iota.
  cbn [rd_regs]. change 7 with (Zlen l) at 1. rewrite slice_overwrite by (change (Zlen l) with 7; lia).
  rewrite overwrite_full by done. subst l.
  erewrite pure_bind_Ok by reflexivity.
  assert (Hhour : Z.land (to_bcd h) 63 = to_bcd h).
  { apply Z.eqb_eq. refine (range_forallb 24 (fun h => Z.land (to_bcd h) 63 =? to_bcd h) 0 _ h _); [by vm_compute|lia]. }
  rewrite Hhour, !from_to_bcd by lia. unfold pure. rewrite back_to_seconds by done. fold t. by rewrite wrap_small by lia.
Qed.
Lemma pcf212x_time_round_trip_witness :
  exists d1 d2, pcf212x_write_time 81 0 3155759999 (MkReg 0 (replicate 28 0) []) = Ok (d1, 1) /\
    pcf212x_read_time 81 0 (Some 0) d1 = Ok (d2, (Some 3155759999, 1)).
Proof. apply (pcf212x_time_round_trip 81 0 3155759999 0 (MkReg 0 (replicate 28 0) [])); by vm_compute. Defined.

(** ** sd2405: a write between enabling and disabling writes *)
Section sessions.
  Context (addr : Z).

  (** The control registers after a session, and what a session leaves in
      the chip: the bytes written, the shadows in registers 15 and 16, and
      everything else as it was. *)
Definition closed (dev : sd2405) : sd2405 :=
  MkSd (Z.land (Z.lor (ctr1 dev) 132) (Z.lnot 132)) (Z.land (Z.lor (ctr2 dev) 128) (Z.lnot 128)).
Definition shadows (dev : sd2405) (regs : list Z) : Prop := slice regs 15 2 = [ctr1 dev; ctr2 dev].
Definition same_outside (p n : Z) (regs regs' : list Z) : Prop :=
  forall o k, 0 <= o -> 0 <= k -> o + k <= p \/ p + n <= o -> o + k <= 15 \/ 17 <= o -> slice regs' o k = slice regs o k.

Lemma write_enable_on dev d : 32 <= Zlen (rd_regs d) ->
  exists d', write_enable addr dev 1 d = Ok (d', (MkSd (Z.lor (ctr1 dev) 132) (Z.lor (ctr2 dev) 128), 1)) /\
    Zlen (rd_regs d') = Zlen (rd_regs d) /\
    (forall o k, 0 <= o -> 0 <= k -> o + k <= 15 \/ 17 <= o -> slice (rd_regs d') o k = slice (rd_regs d) o k).
Proof.
  intros Hr. unfold write_enable. change (ctrue 1) with true. cbv iota zeta.
  rewrite (M_bind_Ok _ _ _ _ _ (write_regs_eq addr 16 [Z.lor (ctr2 dev) 128] 2 d eq_refl ltac:(done))).
  change (negb (ctrue 1)) with false. cbv iota. cbn [ctr1 ctr2].
  match goal with |- context [mbind _ _ ?s] => rewrite (M_bind_Ok _ _ _ _ _ (write_regs_eq addr 15 [Z.lor (ctr1 dev) 132] 2 s eq_refl ltac:(done))) end.
  eexists. split; [reflexivity|]. cbn [rd_regs].
  assert (L : Zlen (overwrite (rd_regs d) 16 [Z.lor (ctr2 dev) 128]) = Zlen (rd_regs d)) by (apply Zlen_overwrite; zlen; lia).
  split; [rewrite Zlen_overwrite; [done|lia|zlen; lia]|]. intros o k Ho Hk Hd.
  rewrite !slice_overwrite_disjoint; zlen; lia || done.
Qed.

Lemma guarded_write_eq dev p l n d :
  n = Zlen (p :: l) -> n < 256 -> 0 <= p -> p + Zlen l <= 15 \/ 17 <= p -> p + Zlen l <= Zlen (rd_regs d) -> 32 <= Zlen (rd_regs d) ->
  let dev' := MkSd (Z.land (ctr1 dev) (Z.lnot 132)) (Z.land (ctr2 dev) (Z.lnot 128)) in
  exists d', guarded_write addr dev (p :: l) n d = Ok (d', (dev', 1)) /\ Zlen (rd_regs d') = Zlen (rd_regs d) /\
    slice (rd_regs d') p (Zlen l) = l /\ shadows dev' (rd_regs d') /\ same_outside p (Zlen l) (rd_regs d) (rd_regs d').
Proof.
  intros -> Hn Hp Hfree Hb Hr. cbv zeta. unfold guarded_write. pose proof (Zlen_nonneg l).
  rewrite (M_bind_Ok _ _ _ _ _ (write_regs_eq addr p l _ d eq_refl Hn)).
  unfold write_enable. change (ctrue 0) with false. cbv iota zeta.
  match goal with |- context [mbind _ (mbind _ (write_regs _ (Some [_; ?a; ?b]) _)) ?s] =>
    assert (E : forall {B} (f : sd2405 * Z -> M regdev B), mbind f (mbind (fun ok => if negb (ctrue ok) then mret (dev, 0) else mret (MkSd a b, 1)) (write_regs addr (Some [15; a; b]) 3)) s
      = f (MkSd a b, 1) (MkReg (15 + 2) (overwrite (rd_regs s) 15 [a; b]) (rd_log s ++ [(addr, [15; a; b], 0)]))) end.
  { intros B f. apply M_bind_Ok. erewrite M_bind_Ok by (apply (write_regs_eq addr 15); done). done. }
  rewrite E. clear E. cbn [rd_regs]. eexists. split; [reflexivity|]. cbn [rd_regs].
  assert (L : Zlen (overwrite (rd_regs d) p l) = Zlen (rd_regs d)) by (apply Zlen_overwrite; zlen; lia).
  split; [rewrite Zlen_overwrite; [done|lia|zlen; lia]|]. split; [|split].
  - rewrite slice_overwrite_disjoint by (zlen; lia). apply slice_overwrite; lia.
  - unfold shadows. cbn [ctr1 ctr2]. match goal with |- slice (overwrite _ _ ?l2) _ _ = _ => apply (slice_overwrite _ 15 l2) end; [lia|zlen; lia].
  - intros o k Ho Hk Hd1 Hd2. rewrite !slice_overwrite_disjoint; zlen; lia || done.
Qed.
End sessions.

Section sd2405_chip.
  Context (hex_to_bcd bcd_to_hex : Z -> Z) (addr junk : Z).
  (** The two missing conversions are packed BCD on two-digit numbers. *)
  Hypothesis hex_to_bcd_spec : forall v, 0 <= v < 100 -> hex_to_bcd v = 16 * (v / 10) + v mod 10.
  Hypothesis bcd_to_hex_spec : forall v, 0 <= v < 100 -> bcd_to_hex (16 * (v / 10) + v mod 10) = v.

Lemma hex_bcd v : 0 <= v < 100 -> bcd_to_hex (hex_to_bcd v) = v.
Proof. intros. by rewrite hex_to_bcd_spec, bcd_to_hex_spec. Qed.
Lemma hour_flag h : 0 <= h < 24 -> Z.land (Z.lor (hex_to_bcd h) 128) 63 = hex_to_bcd h.
Proof.
  intros Hh. rewrite hex_to_bcd_spec by lia. apply Z.eqb_eq.
  refine (range_forallb 24 (fun v => Z.land (Z.lor (16 * (v / 10) + v mod 10) 128) 63 =? 16 * (v / 10) + v mod 10) 0 _ h _); [by vm_compute|lia].
Qed.

(** With packed BCD for the two conversions the source leaves
    undeclared, a time of the century written to the clock is read back
    unchanged; afterwards the write-enable bits are cleared again, in the
    chip as in the driver's shadow registers, and every other register is as
    it was. *)
Theorem sd2405_time_round_trip (dev : sd2405) (s s0 : Z) (d : regdev) :
  0 <= s < century -> 32 <= Zlen (rd_regs d) ->
  exists d1 d2, sd2405_write_time hex_to_bcd addr junk dev s d = Ok (d1, (closed dev, 1)) /\
    sd2405_read_time bcd_to_hex addr junk (Some s0) d1 = Ok (d2, (Some s, 1)) /\
    shadows (closed dev) (rd_regs d1) /\ same_outside 0 7 (rd_regs d) (rd_regs d1).
Proof.
  intros Hs Hr. destruct (seconds_exist s) as (y & m & dd & h & mi & se & Hy & Hd & Ht & E); [lia|]. rewrite E in *.
  pose proof (year_of_century _ _ _ _ _ _ Hy Hd Ht ltac:(lia)) as Hy100.
  pose proof Hd as [Hm Hdd]%valid_day_spec. pose proof (month_len_bound (y mod 4 =? 0) m). pose proof Ht as (Hh & Hmi & Hse).
  set (t := day_number y m dd * 86400 + time_seconds h mi se) in *.
  assert (Hmax : t < 2 ^ 32) by (change (2 ^ 32) with 4294967296; change century with 3155760000 in Hs; lia).
  unfold sd2405_write_time. destruct (write_enable_on addr dev d Hr) as (d0 & E0 & L0 & S0).
  rewrite (M_bind_Ok _ _ _ _ _ E0). cbv beta iota. change (negb (ctrue 1)) with false. cbv iota.
  erewrite M_bind_Ok by (by apply converted_eq). cbn [second minute hour day weekday month year].
  set (l := [hex_to_bcd se; hex_to_bcd mi; Z.lor (hex_to_bcd h) 128; _; hex_to_bcd dd; hex_to_bcd m; hex_to_bcd y]).
  destruct (guarded_write_eq addr (MkSd (Z.lor (ctr1 dev) 132) (Z.lor (ctr2 dev) 128)) 0 l 8 d0)
    as (d1 & E1 & L1 & S1 & Sh & Out); [done|done|done|by left|change (Zlen l) with 7; lia|lia|].
  destruct (sd_read_regs_eq addr 0 7 (replicate 7 junk) d1) as (d2 & E2 & _); [done|done|].
  exists d1, d2. split; [exact E1|]. split; [|split].
  - unfold sd2405_read_time. rewrite (M_bind_Ok _ _ _ _ _ E2). cbv beta iota. change (negb (ctrue 1)) with false. cbv iota.
    change 7 with (Zlen l) at 1. rewrite S1, overwrite_full by done. subst l.
    erewrite pure_bind_Ok by reflexivity. rewrite hour_flag, !hex_bcd by lia.
    erewrite pure_bind_Ok by (by apply back_to_seconds). cbv beta iota. fold t. by rewrite wrap_small by lia.
  - exact Sh.
  - intros o k Ho Hk Hd1 Hd2. rewrite Out by done. by apply S0.
Qed.
End sd2405_chip.
Lemma sd2405_time_round_trip_witness :
  exists d1 d2, sd2405_write_time to_bcd 50 0 (MkSd 0 8) 1000000000 (MkReg 0 (replicate 32 0) []) = Ok (d1, (closed (MkSd 0 8), 1)) /\
    sd2405_read_time from_bcd 50 0 (Some 0) d1 = Ok (d2, (Some 1000000000, 1)) /\
    shadows (closed (MkSd 0 8)) (rd_regs d1) /\ same_outside 0 7 (replicate 32 0) (rd_regs d1).
Proof.
  apply (sd2405_time_round_trip to_bcd from_bcd 50 0).
  - intros v Hv. apply Z.eqb_eq.
    refine (range_forallb 100 (fun v => to_bcd v =? 16 * (v / 10) + v mod 10) 0 _ v Hv). by vm_compute.
  - intros v Hv. apply Z.eqb_eq.
    refine (range_forallb 100 (fun v => from_bcd (16 * (v / 10) + v mod 10) =? v) 0 _ v Hv). by vm_compute.
  - by vm_compute.
  - by vm_compute.
Defined.

(** ** sd2405: the general-purpose registers *)
Lemma bytes_of_app b post : bytes_of (Some (b ++ post)) (Zlen b) = bytes_of (Some b) (Zlen b).
Proof.
  unfold bytes_of. rewrite Z.ltb_irrefl, (proj2 (Z.ltb_ge _ _)) by (rewrite Zlen_app; pose proof (Zlen_nonneg post); lia).
  rewrite Zlen_to_nat, take_app_length. by rewrite firstn_all.
Qed.
Lemma write_regs_app addr b post d : write_regs addr (Some (b ++ post)) (Zlen b) d = write_regs addr (Some b) (Zlen b) d.
Proof.
  unfold write_regs, mbind, M_bind, i2c_transmit. cbn -[Zlen regdev_transmit]. unfold regdev_transmit. by rewrite bytes_of_app.
Qed.

Lemma copy_loop_eq : forall l pre post done rest first,
  length done = length pre -> (length l <= length rest)%nat ->
  copy_loop (length l) (pre ++ l ++ post) (first :: done ++ rest) (Zlen pre) = Ok (first :: done ++ l ++ drop (length l) rest).
Proof.
  induction l as [|x l IH]; intros pre post dn rest first Hd Hl; cbn [copy_loop length app]; [by rewrite drop_0|].
  destruct rest as [|y rest]; [cbn in Hl; lia|]. rewrite bget_middle. cbn [mbind res_bind].
  replace (Zlen pre + 1) with (Zlen (first :: dn)) by (unfold Zlen; cbn; lia).
  change (first :: dn ++ y :: rest) with ((first :: dn) ++ y :: rest). rewrite bset_middle. cbn [mbind res_bind].
  specialize (IH (pre ++ [x]) post (dn ++ [x]) rest first ltac:(rewrite !length_app; cbn; lia) ltac:(cbn in Hl; lia)).
  replace (Zlen (pre ++ [x])) with (Zlen (first :: dn)) in IH by (unfold Zlen; rewrite length_app; cbn; lia).
  rewrite <- !app_assoc in IH. cbn [app] in IH |- *. rewrite IH. done.
Qed.

(** Data stored in the chip's general-purpose registers is restored
    unchanged when offset and length stay within the twelve registers; the
    write-enable bits are cleared again and all other registers keep their
    content. A null pointer or a range beyond the twelve registers is refused
    by both operations without touching the bus. *)
Theorem sd2405_data_round_trip (addr junk : Z) (dev : sd2405) (l post r : list Z) (offset : Z) (d : regdev) :
  0 <= offset -> 32 <= Zlen (rd_regs d) -> length r = length l ->
  if 12 <? offset + Zlen l then
    sd2405_store_data addr junk dev (Some (l ++ post)) offset (Zlen l) d = Ok (d, (dev, 0)) /\
    sd2405_restore_data addr (Some r) offset (Zlen l) d = Ok (d, (0, Some r))
  else exists d1 d2, sd2405_store_data addr junk dev (Some (l ++ post)) offset (Zlen l) d = Ok (d1, (closed dev, 1)) /\
    sd2405_restore_data addr (Some r) offset (Zlen l) d1 = Ok (d2, (1, Some l)) /\
    shadows (closed dev) (rd_regs d1) /\ same_outside (20 + offset) (Zlen l) (rd_regs d) (rd_regs d1).
Proof.
  intros Ho Hr Hlen. unfold sd2405_store_data, sd2405_restore_data.
  destruct (Z.ltb_spec 12 (offset + Zlen l)) as [|Hfit]; [done|]. pose proof (Zlen_nonneg l).
  destruct (write_enable_on addr dev d Hr) as (d0 & E0 & L0 & S0).
  rewrite (M_bind_Ok _ _ _ _ _ E0). cbv beta iota. change (negb (ctrue 1)) with false. cbv iota.
  rewrite (wrap_small 8) by (pow2_norm; lia). rewrite Zlen_to_nat.
  erewrite pure_bind_Ok by (apply (copy_loop_eq l [] post [] (replicate 12 junk)); [done|rewrite length_replicate; unfold Zlen in *; lia]).
  cbn [app].
  destruct (guarded_write_eq addr (MkSd (Z.lor (ctr1 dev) 132) (Z.lor (ctr2 dev) 128)) (20 + offset) l (Zlen l + 1) d0)
    as (d1 & E1 & L1 & S1 & Sh & Out); [zlen; lia|lia|lia|by right; lia|lia|lia|].
  destruct (sd_read_regs_eq addr (20 + offset) (Zlen l) r d1) as (d2 & E2 & _); [unfold Zlen; lia|lia|].
  exists d1, d2. split; [|split; [|split]].
  - refine (eq_trans _ E1). unfold guarded_write. unfold mbind at 1 3, M_bind at 1 3.
    rewrite app_comm_cons. replace (Zlen l + 1) with (Zlen (20 + offset :: l)) by (zlen; lia). by rewrite write_regs_app.
  - rewrite (M_bind_Ok _ _ _ _ _ E2). cbv beta iota. by rewrite S1, overwrite_full.
  - exact Sh.
  - intros o k Ho' Hk Hd1 Hd2. rewrite Out by done. by apply S0.
Qed.
Lemma sd2405_data_round_trip_witness :
  (exists d1 d2, sd2405_store_data 50 0 (MkSd 0 8) (Some ([1; 2; 3] ++ [4])) 9 3 (MkReg 0 (replicate 32 0) []) = Ok (d1, (closed (MkSd 0 8), 1)) /\
    sd2405_restore_data 50 (Some [0; 0; 0]) 9 3 d1 = Ok (d2, (1, Some [1; 2; 3])) /\
    shadows (closed (MkSd 0 8)) (rd_regs d1) /\ same_outside (20 + 9) 3 (replicate 32 0) (rd_regs d1)) /\
  sd2405_store_data 50 0 (MkSd 0 8) (Some ([1; 2; 3] ++ [4])) 10 3 (MkReg 0 (replicate 32 0) []) = Ok (MkReg 0 (replicate 32 0) [], (MkSd 0 8, 0)).
Proof.
  split.
  - apply (sd2405_data_round_trip 50 0 (MkSd 0 8) [1; 2; 3] [4] [0; 0; 0] 9 (MkReg 0 (replicate 32 0) [])); by vm_compute.
  - by vm_compute.
Defined.

(** Initialising the pcf212x never writes a register. When the
    power-on-reset override bit (bit 3 of register 0) is clear, the status
    reports the reset flag of register 3; when it is set, the call that should
    clear it passes a null pointer, and on a chip that dereferences it the
    initialisation goes wrong unless no other bit of the register is set. *)
Theorem pcf212x_init_status (addr junk c0 c1 c2 c3 : Z) (rest : list Z) (p : Z) (log : list (Z * list Z * Z)) :
  is_u8 c0 -> is_u8 c3 ->
  let status := if ctrue (Z.land c3 128) then PCF212X_STATUS_OK else PCF212X_STATUS_RESET in
  let r := pcf212x_init addr junk (MkReg p (c0 :: c1 :: c2 :: c3 :: rest) log) in
  if ctrue (Z.land c0 8) && ctrue (Z.land c0 247) then r = Err NullDeref
  else exists d', r = Ok (d', (status, 1)) /\ rd_regs d' = c0 :: c1 :: c2 :: c3 :: rest.
Proof.
  intros H0 H3. cbv zeta. unfold pcf212x_init.
  rewrite (M_bind_Ok _ _ _ (MkReg p (c0 :: c1 :: c2 :: c3 :: rest) log) 1) by done.
  change (0 =? 1) with false. cbv iota.
  destruct (read_regs_eq addr 0 4 (replicate 4 junk) (MkReg p (c0 :: c1 :: c2 :: c3 :: rest) log) eq_refl eq_refl) as (d' & E & Ed).
  rewrite (M_bind_Ok _ _ _ _ _ E). cbv beta iota. change (0 =? 1) with false. cbv iota.
  change (overwrite (replicate 4 junk) 0 (slice (rd_regs (MkReg p (c0 :: c1 :: c2 :: c3 :: rest) log)) 0 4)) with [c0; c1; c2; c3].
  erewrite pure_bind_Ok by reflexivity. change (Z.shiftl 1 3) with 8. change (Z.shiftl 1 7) with 128.
  assert (E247 : u8 (Z.land c0 (Z.lnot 8)) = Z.land c0 247).
  { apply Z.eqb_eq. refine (range_forallb 256 (fun c => u8 (Z.land c (Z.lnot 8)) =? Z.land c 247) 0 _ c0 _); [by vm_compute|].
    pow2_norm. lia. }
  rewrite E247. cbn [rd_regs] in Ed.
  assert (Efin : forall d1, rd_regs d1 = c0 :: c1 :: c2 :: c3 :: rest -> exists d2,
    (d3 ← pure (bget [c0; c1; c2; c3] 3); if ctrue (Z.land d3 128) then mret (PCF212X_STATUS_OK, 1) else mret (PCF212X_STATUS_RESET, 1)) d1
    = Ok (d2, (if ctrue (Z.land c3 128) then PCF212X_STATUS_OK else PCF212X_STATUS_RESET, 1)) /\ rd_regs d2 = c0 :: c1 :: c2 :: c3 :: rest).
  { intros d1 Hd1. exists d1. erewrite pure_bind_Ok by reflexivity. by destruct (ctrue (Z.land c3 128)). }
  destruct (ctrue (Z.land c0 8)) eqn:E8; cbn [andb].
  - destruct (Z.eqb_spec (Z.land c0 247) 0) as [Ez|Ez].
    + rewrite Ez. cbn [ctrue Z.eqb negb].
      erewrite (M_bind_Ok _ _ d' (MkReg (rd_ptr d' + 0) (rd_regs d') (rd_log d' ++ [(addr, [], 0)])) 1) by done.
      by apply Efin.
    + assert (Ect : ctrue (Z.land c0 247) = true) by (unfold ctrue; by rewrite (proj2 (Z.eqb_neq _ _))).
      rewrite Ect. unfold write_regs, mbind, M_bind, i2c_transmit. cbn -[regdev_transmit]. unfold regdev_transmit, bytes_of.
      by rewrite (proj2 (Z.eqb_neq _ _) Ez).
  - rewrite (M_bind_Ok _ _ d' d' 1) by done. by apply Efin.
Qed.
Lemma pcf212x_init_status_witness :
  (exists d', pcf212x_init 81 0 (MkReg 0 [0; 0; 0; 128; 7] []) = Ok (d', (PCF212X_STATUS_OK, 1)) /\ rd_regs d' = [0; 0; 0; 128; 7]) /\
  pcf212x_init 81 0 (MkReg 0 [9; 0; 0; 128; 7] []) = Err NullDeref.
Proof.
  split.
  - apply (pcf212x_init_status 81 0 0 0 0 128 [7] 0 []); by vm_compute.
  - apply (pcf212x_init_status 81 0 9 0 0 128 [7] 0 []); by vm_compute.
Defined.
