(* ===== verification/Ltc6804.v ===== *)
(** The battery monitor of src/src/drivers/ltc/ltc6804.c: its packet error
    code, and its commands and readings over the SPI interface. *)
From S2P Require Import Prelude Bus Devices.

(** ** The packet error code *)
Definition pec16Table : list Z :=
  [0; 50585; 52907; 2866; 55503; 7510; 5732; 54269; 62471; 12702; 15020; 65333;
   11464; 59729; 57955; 10234; 44439; 26638; 25404; 42661; 30040; 45249; 48115; 32362;
   22928; 39945; 38715; 21154; 33119; 17606; 20468; 35437; 23342; 40631; 38277; 20508;
   33761; 18040; 19786; 35027; 44841; 27312; 24962; 42011; 30694; 45695; 47437; 31956;
   63161; 13088; 14354; 64907; 11894; 60399; 57565; 9540; 702; 50983; 52245; 2444;
   55921; 8168; 5338; 53571; 62405; 13916; 15726; 63735; 11018; 61075; 58785; 8248;
   1986; 49755; 51561; 3312; 57101; 6804; 4518; 54335; 24146; 39883; 37113; 21856;
   34461; 17156; 18486; 36271; 43605; 28620; 25854; 41319; 29338; 46851; 48177; 31144;
   43243; 28018; 26176; 41945; 28708; 46525; 48783; 31510; 23788; 39285; 37447; 22494;
   33827; 16826; 19080; 36625; 1404; 49381; 52183; 3662; 56755; 6186; 4888; 54913;
   61819; 13538; 16336; 64073; 10676; 60461; 59167; 8838; 41491; 26506; 27832; 43297;
   31452; 48965; 46199; 29166; 22036; 37773; 39103; 23846; 36571; 19266; 16496; 34281;
   3972; 51741; 49455; 1206; 55115; 4818; 6624; 56441; 64387; 15898; 13608; 61617;
   9036; 59093; 60903; 10366; 63805; 15524; 14230; 61967; 8690; 58475; 61273; 10944;
   3386; 51363; 50065; 1544; 54773; 4204; 7006; 57031; 21674; 37171; 39425; 24472;
   35941; 18940; 17102; 34647; 41133; 25908; 28166; 43935; 30818; 48635; 46793; 29520;
   20950; 37967; 40829; 23268; 35097; 19584; 18354; 33323; 42449; 24648; 27514; 44771;
   32030; 47239; 46005; 30252; 64577; 14808; 13034; 63347; 9358; 57623; 59941; 12220;
   2118; 52703; 50925; 884; 53385; 5392; 7714; 56251; 2808; 53089; 50259; 458;
   53815; 6062; 7324; 55557; 65279; 15206; 12372; 62925; 9776; 58281; 59547; 11522;
   42863; 25334; 27076; 44125; 32672; 47673; 45323; 29842; 21352; 38641; 40387; 22618;
   35751; 20030; 17676; 32917].

(** [remainder] and [address] are 16 bits wide. *)
Fixpoint crc_loop (data : list Z) (remainder : Z) : res Z :=
  match data with
  | [] => Ok remainder
  | d :: data =>
    let address := Z.land (Z.lxor (Z.shiftr remainder 7) d) 255 in
    t ← bget pec16Table address;
    crc_loop data (Z.lxor (u16 (Z.shiftl remainder 8)) t)
  end.
Definition calc_crc16 (data : list Z) (len : Z) : res Z :=
  d ← read_bytes data 0 len;
  remainder ← crc_loop d 16;
  Ok (u16 (Z.shiftl remainder 1)).

(** ** The driver

    [struct ltc6804] is its register buffer [reg.dat]; [cs] is the platform's
    [cs_index]. *)
Definition VOL_REG_SIZE := 6.
Definition LTC6804_CMD_BITS_MD := 256.
Definition LTC6804_CMD_BITS_CHG := 1.
Definition LTC6804_CMD_WRCFG := 1.
Definition LTC6804_CMD_RDCFG := 2.
Definition LTC6804_CMD_RDCVA := 4.
Definition LTC6804_CMD_RDCVB := 6.
Definition LTC6804_CMD_RDCVC := 8.
Definition LTC6804_CMD_RDCVD := 10.
Definition LTC6804_CMD_RDAUXA := 12.
Definition LTC6804_CMD_RDAUXB := 14.
Definition LTC6804_CMD_ADAX := Z.lor (Z.lor 1120 LTC6804_CMD_BITS_MD) LTC6804_CMD_BITS_CHG.
Definition LTC6804_CMD_ADCVAX := Z.lor 1135 LTC6804_CMD_BITS_MD.

Section ltc6804.
  Context {W : Type} `{SpiOps W} (cs : Z).

  (** The waiting loop only counts. *)
Definition ltc_wake_up : M W unit :=
  _ ← spi_select cs 1;
  _ ← spi_select cs 0;
  mret tt.
Definition ltc_send_short_and_crc (data : Z) : M W unit :=
  let tmp := [u8 (Z.shiftr data 8); u8 data] in
  crc ← pure (calc_crc16 tmp 2);
  t0 ← pure (bget tmp 0); t1 ← pure (bget tmp 1);
  _ ← spi_transmit_byte t0;
  _ ← spi_transmit_byte t1;
  _ ← spi_transmit_byte (u8 (Z.shiftr crc 8));
  _ ← spi_transmit_byte (u8 crc);
  mret tt.
Fixpoint send_loop (n : nat) (dat : list Z) (i : Z) : M W unit :=
  match n with
  | O => mret tt
  | S n => tmp ← pure (bget dat i); _ ← spi_transmit_byte tmp; send_loop n dat (i + 1)
  end.
  (** A null [dat] comes with a length of 0. *)
Definition ltc_send_data_daisychain (count cmd : Z) (dat : option (list Z)) (len : Z) : M W unit :=
  _ ← ltc_wake_up;
  _ ← spi_select cs 1;
  _ ← ltc_send_short_and_crc cmd;
  crc ← pure (match dat with Some d => calc_crc16 d len
              | None => if 0 <? len then Err NullDeref else calc_crc16 [] 0 end);
  _ ← match dat with
      | Some d =>
        if 0 <? count then
          _ ← send_loop (Z.to_nat len) d 0;
          _ ← spi_transmit_byte (u8 (Z.shiftr crc 8));
          _ ← spi_transmit_byte (u8 crc);
          mret tt
        else mret tt
      | None => mret tt
      end;
  _ ← spi_select cs 0;
  mret tt.

Fixpoint recv_loop (n : nat) (buf : list Z) (i : Z) : M W (list Z) :=
  match n with
  | O => mret buf
  | S n =>
    b ← pure (bget buf i);
    '(b, _) ← spi_transmit_byte b;
    buf ← pure (bset buf i b);
    recv_loop n buf (i + 1)
  end.
  (** The loop counter is a [uint8_t]: [size] is below 256 in all callers. *)
Definition ltc_recv_data_daisychain (count cmd : Z) (buf : option (list Z)) (size : Z) : M W (Z * option (list Z)) :=
  match buf with
  | None => mret (0, None)
  | Some buf =>
    buf ← pure (if Zlen buf <? size then Err OutOfBounds else Ok (overwrite buf 0 (replicate (Z.to_nat size) 255)));
    _ ← ltc_wake_up;
    _ ← spi_select cs 1;
    _ ← ltc_send_short_and_crc cmd;
    buf ← recv_loop (Z.to_nat size) buf 0;
    '(c0, c1) ← (if 0 <? size then
                   '(c0, _) ← spi_transmit_byte 255;
                   '(c1, _) ← spi_transmit_byte 255;
                   mret (c0, c1)
                 else mret (255, 255));
    _ ← spi_select cs 0;
    if 0 <? size then
      crc ← pure (calc_crc16 buf size);
      mret (cbool ((c0 =? Z.shiftr crc 8) && (c1 =? Z.land crc 255)), Some buf)
    else mret (1, Some buf)
  end.

Definition ltc6804_init : M W unit :=
  _ ← spi_init (Z.lor (Z.lor SPI_FLAG_MSB_FIRST SPI_FLAG_CLK_IDLE_HIGH) SPI_FLAG_CLK_SECOND_EDGE);
  ltc_wake_up.
Definition ltc6804_1_send_cmd (cmd : Z) : M W unit := ltc_send_data_daisychain 0 cmd None 0.

  (** [list_cmd_rdcv] and [list_cmd_rdav]; the functions return how many
      values they put into [reg.dat]. *)
Definition list_cmd_rdcv : list Z := [LTC6804_CMD_RDCVA; LTC6804_CMD_RDCVB; LTC6804_CMD_RDCVC; LTC6804_CMD_RDCVD].
Definition list_cmd_rdav : list Z := [LTC6804_CMD_RDAUXA; LTC6804_CMD_RDAUXB].
Definition get_group (cmds : list Z) (reg : list Z) (gid : Z) : M W (list Z * Z) :=
  if gid <? Zlen cmds then
    cmd ← pure (bget cmds gid);
    '(ok, r) ← ltc_recv_data_daisychain 1 cmd (Some reg) VOL_REG_SIZE;
    let reg := match r with Some r => r | None => reg end in
    if ctrue ok then mret (reg, VOL_REG_SIZE / 2) else mret (reg, 0)
  else mret (reg, 0).
Definition ltc6804_get_voltage_with_group := get_group list_cmd_rdcv.
Definition ltc6804_get_aux_with_group := get_group list_cmd_rdav.

Definition ltc6804_start_channel (channel : Z) : M W Z :=
  if channel <? 6 then _ ← ltc_send_data_daisychain 1 (864 + u8 (channel + 1)) None 0; mret 1
  else if channel <? 12 then _ ← ltc_send_data_daisychain 1 (864 + u8 (channel - 5)) None 0; mret 1
  else mret 0.
Definition ltc6804_start_aux : M W Z := _ ← ltc_send_data_daisychain 1 LTC6804_CMD_ADAX None 0; mret 1.
Definition ltc6804_start_all : M W Z := _ ← ltc_send_data_daisychain 1 LTC6804_CMD_ADCVAX None 0; mret 1.
Definition ltc6804_read (cmd : Z) (buf : option (list Z)) (len : Z) : M W (Z * option (list Z)) :=
  ltc_recv_data_daisychain 1 cmd buf len.

  (** One value of the register buffer, low byte first. *)
Definition value_at (reg : list Z) (offset : Z) : res Z :=
  lo ← bget reg offset; hi ← bget reg (offset + 1); Ok (u16 (lo + u16 (Z.shiftl hi 8))).
Fixpoint copy_values (n : nat) (reg buf : list Z) (i count : Z) : res (list Z * Z) :=
  match n with
  | O => Ok (buf, count)
  | S n => v ← value_at reg (u8 (i * 2)); buf ← bset buf count v; copy_values n reg buf (i + 1) (u8 (count + 1))
  end.
  (** The loop of both functions over the groups; [groups] is 4 or 2. *)
Fixpoint get_values (groups : nat) (cmds reg buf : list Z) (index count size : Z) : M W (list Z * list Z * Z) :=
  match groups with
  | O => mret (reg, buf, count)
  | S groups =>
    if size <=? 0 then mret (reg, buf, count) else
    '(reg, ret) ← get_group cmds reg index;
    if 0 <? ret then
      let ret := if size <? ret then size else ret in
      '(buf, count) ← pure (copy_values (Z.to_nat ret) reg buf 0 count);
      get_values groups cmds reg buf (index + 1) count (size - ret)
    else mret (reg, buf, count)
  end.
Definition ltc6804_1_get_voltage (reg buf : list Z) (size : Z) : M W (list Z * list Z * Z) :=
  get_values 4 list_cmd_rdcv reg buf 0 0 size.
Definition ltc6804_1_get_aux (reg buf : list Z) (size : Z) : M W (list Z * list Z * Z) :=
  get_values 2 list_cmd_rdav reg buf 0 0 size.
  (** [reg.dat], [*vol] and the result. *)
Definition ltc6804_get_voltage (reg : list Z) (index : Z) (vol : option Z) : M W (list Z * option Z * Z) :=
  match vol with
  | None => mret (reg, None, 0)
  | Some _ =>
    '(reg, ret) ← ltc6804_get_voltage_with_group reg (index / 3);
    if 0 =? ret then mret (reg, vol, 0) else
    v ← pure (value_at reg ((index * 2) mod 6));
    mret (reg, Some v, 1)
  end.
End ltc6804.

(** ** The packet error code by the polynomial

    The chip's shift register: a 15-bit register divided by
    x^15 + x^14 + x^10 + x^8 + x^7 + x^4 + x^3 + 1 (0x4599), fed with the
    message bits, most significant first, from the initial value 16. *)
Definition pec_bit (r b : Z) : Z :=
  Z.lxor (Z.land (Z.shiftl r 1) 32767) (if xorb (Z.testbit r 14) (Z.odd b) then 17817 else 0).
Definition pec_byte (r d : Z) : Z :=
  foldl (fun r k => pec_bit r (Z.b2z (Z.testbit d k))) r [7; 6; 5; 4; 3; 2; 1; 0].
Definition pec15 (data : list Z) : Z := foldl pec_byte 16 data.

Lemma pec_bit_lxor r r' b b' :
  pec_bit (Z.lxor r r') (Z.b2z (xorb b b')) = Z.lxor (pec_bit r (Z.b2z b)) (pec_bit r' (Z.b2z b')).
Proof.
  unfold pec_bit. rewrite Z.lxor_spec, Z.shiftl_lxor.
  replace (Z.land (Z.lxor (Z.shiftl r 1) (Z.shiftl r' 1)) 32767)
    with (Z.lxor (Z.land (Z.shiftl r 1) 32767) (Z.land (Z.shiftl r' 1) 32767)).
  2: { apply Z.bits_inj'. intros n Hn. rewrite !Z.lxor_spec, !Z.land_spec, Z.lxor_spec.
       by destruct (Z.testbit (Z.shiftl r 1) n), (Z.testbit (Z.shiftl r' 1) n), (Z.testbit 32767 n). }
  generalize (Z.land (Z.shiftl r 1) 32767) (Z.land (Z.shiftl r' 1) 32767). intros x y.
  assert (E : forall c c' : bool, (if xorb c c' then 17817 else 0) = Z.lxor (if c then 17817 else 0) (if c' then 17817 else 0)).
  { by intros [] []. }
  assert (Eo : forall c : bool, Z.odd (Z.b2z c) = c) by (by intros []). rewrite !Eo.
  replace (xorb (xorb (Z.testbit r 14) (Z.testbit r' 14)) (xorb b b'))
    with (xorb (xorb (Z.testbit r 14) b) (xorb (Z.testbit r' 14) b')) by (by destruct (Z.testbit r 14), (Z.testbit r' 14), b, b').
  rewrite E. rewrite !Z.lxor_assoc. f_equal. rewrite <- !Z.lxor_assoc. f_equal. apply Z.lxor_comm.
Qed.

Lemma pec_byte_lxor r r' d d' : pec_byte (Z.lxor r r') (Z.lxor d d') = Z.lxor (pec_byte r d) (pec_byte r' d').
Proof.
  unfold pec_byte. generalize [7; 6; 5; 4; 3; 2; 1; 0]. intros ks. revert r r'.
  induction ks as [|k ks IH]; intros r r'; cbn [foldl]; [done|].
  by rewrite Z.lxor_spec, pec_bit_lxor, IH.
Qed.

(** The table is the code's own generator: 8 shifts of each byte. *)
Definition table_entry (a : Z) : Z := nth (Z.to_nat a) pec16Table 0.
Lemma table_spec a : 0 <= a < 256 ->
  bget pec16Table a = Ok (table_entry a) /\ pec_byte 0 a = Z.land (table_entry a) 32767.
Proof.
  intros Ha.
  assert (E : (pec_byte 0 a =? Z.land (table_entry a) 32767) = true).
  { refine (range_forallb 256 (fun a => pec_byte 0 a =? Z.land (table_entry a) 32767) 0 _ a _); [by vm_compute|lia]. }
  split; [|by apply Z.eqb_eq]. apply bget_Ok. split; [lia|].
  unfold table_entry. rewrite nth_lookup.
  destruct (lookup_lt_is_Some_2 pec16Table (Z.to_nat a)) as [x Ex]; [change (length pec16Table) with 256%nat; lia|].
  by rewrite Ex.
Qed.
Lemma pec_byte_high h : 0 <= h < 256 -> pec_byte (Z.shiftl h 7) h = 0.
Proof.
  intros Hh. apply Z.eqb_eq.
  refine (range_forallb 256 (fun h => pec_byte (Z.shiftl h 7) h =? 0) 0 _ h _); [by vm_compute|lia].
Qed.
Lemma pec_byte_low l : 0 <= l < 128 -> pec_byte l 0 = Z.shiftl l 8.
Proof.
  intros Hl. apply Z.eqb_eq.
  refine (range_forallb 128 (fun l => pec_byte l 0 =? Z.shiftl l 8) 0 _ l _); [by vm_compute|lia].
Qed.

(** Splitting a 15-bit register above bit 7. *)
Lemma split_register r : 0 <= r < 32768 ->
  r = Z.lxor (Z.shiftl (Z.shiftr r 7) 7) (Z.land r 127) /\ 0 <= Z.shiftr r 7 < 256 /\ 0 <= Z.land r 127 < 128.
Proof.
  intros Hr. change 127 with (Z.ones 7). rewrite Z.land_ones, Z.shiftr_div_pow2, Z.shiftl_mul_pow2 by lia.
  change (2 ^ 7) with 128. pose proof (Z.mod_pos_bound r 128). pose proof (Z.div_mod r 128 ltac:(lia)).
  split; [|lia].
  assert (El : Z.land (r / 128 * 128) (r mod 128) = 0).
  { apply Z.bits_inj'. intros n Hn. rewrite Z.land_spec, Z.bits_0. change 128 with (2 ^ 7).
    rewrite Z.mul_pow2_bits by lia. destruct (Z.ltb_spec n 7).
    - by rewrite (Z.testbit_neg_r (r / 2 ^ 7)) by lia.
    - rewrite Z.mod_pow2_bits_high by lia. by rewrite andb_false_r. }
  rewrite <- Z.add_nocarry_lxor by done. lia.
Qed.

(** A step of the loop, on the low 15 bits of the register. *)
Lemma crc_step R d : 0 <= R < 65536 -> 0 <= d < 256 ->
  let a := Z.land (Z.lxor (Z.shiftr R 7) d) 255 in
  let R' := Z.lxor (u16 (Z.shiftl R 8)) (table_entry a) in
  0 <= a < 256 /\ Z.land R' 32767 = pec_byte (Z.land R 32767) d.
Proof.
  intros HR Hd. cbv zeta. set (r := Z.land R 32767).
  assert (Hr : 0 <= r < 32768).
  { unfold r. change 32767 with (Z.ones 15). rewrite Z.land_ones by lia. apply Z.mod_pos_bound. done. }
  destruct (split_register r Hr) as (Er & Hh & Hl). set (h := Z.shiftr r 7) in *. set (lo := Z.land r 127) in *.
  assert (Ea : Z.land (Z.lxor (Z.shiftr R 7) d) 255 = Z.lxor h d).
  { apply Z.bits_inj'. intros n Hn. unfold h, r. rewrite Z.land_spec, !Z.lxor_spec, !Z.shiftr_spec, Z.land_spec by lia.
    change 255 with (Z.ones 8). change 32767 with (Z.ones 15).
    destruct (Z.ltb_spec n 8).
    - rewrite !Z.ones_spec_low by lia. by rewrite !andb_true_r.
    - rewrite !Z.ones_spec_high by lia. rewrite !andb_false_r. cbn [xorb].
      rewrite <- (Z.mod_small d (2 ^ 8)) by (change (2 ^ 8) with 256; lia). by rewrite Z.mod_pow2_bits_high by lia. }
  rewrite Ea. assert (Ha : 0 <= Z.lxor h d < 256).
  { rewrite <- Ea. change 255 with (Z.ones 8). rewrite Z.land_ones by lia. apply (Z.mod_pos_bound _ (2 ^ 8)). done. }
  split; [done|]. destruct (table_spec _ Ha) as [_ ET].
  assert (Eb : pec_byte r d = Z.lxor (Z.shiftl lo 8) (Z.land (table_entry (Z.lxor h d)) 32767)).
  { transitivity (pec_byte (Z.lxor (Z.lxor (Z.shiftl h 7) lo) 0) (Z.lxor (Z.lxor h 0) (Z.lxor h d))).
    - rewrite Z.lxor_0_r, <- Er. f_equal. by rewrite Z.lxor_0_r, <- Z.lxor_assoc, Z.lxor_nilpotent, Z.lxor_0_l.
    - by rewrite !pec_byte_lxor, pec_byte_high, pec_byte_low, ET, Z.lxor_0_l. }
  rewrite Eb.
  apply Z.bits_inj'. intros n Hn. rewrite !Z.lxor_spec, !Z.land_spec, Z.lxor_spec.
  change 32767 with (Z.ones 15). destruct (Z.ltb_spec n 15).
  - rewrite !Z.ones_spec_low by lia. rewrite !andb_true_r. f_equal.
    unfold wrap. rewrite Z.mod_pow2_bits_low by lia. rewrite !Z.shiftl_spec by lia.
    unfold lo, r. destruct (Z.ltb_spec n 8); [by rewrite !(Z.testbit_neg_r _ (n - 8)) by lia|].
    rewrite !Z.land_spec. change 127 with (Z.ones 7). change 32767 with (Z.ones 15).
    rewrite !Z.ones_spec_low by lia. by rewrite !andb_true_r.
  - rewrite !Z.ones_spec_high by lia. rewrite !andb_false_r. rewrite Z.shiftl_spec by lia.
    unfold lo. rewrite Z.land_spec. change 127 with (Z.ones 7). rewrite Z.ones_spec_high by lia. by rewrite andb_false_r.
Qed.

Lemma crc_loop_eq : forall data R, 0 <= R < 65536 -> Forall (fun b => 0 <= b < 256) data ->
  exists R', crc_loop data R = Ok R' /\ 0 <= R' < 65536 /\ Z.land R' 32767 = foldl pec_byte (Z.land R 32767) data.
Proof.
  induction data as [|d data IH]; intros R HR Hd; cbn [crc_loop foldl]; [by exists R|].
  inversion Hd as [|? ? Hb Hd']; subst. destruct (crc_step R d HR Hb) as [Ha E]. cbv zeta in *.
  destruct (table_spec _ Ha) as [-> _]. cbn [mbind res_bind]. rewrite <- E. apply IH; [|done].
  assert (Ht : 0 <= table_entry (Z.land (Z.lxor (Z.shiftr R 7) d) 255) < 65536).
  { assert (HF : Forall (fun t => 0 <= t < 65536) pec16Table).
    { apply Forall_forall. intros x Hx%list_elem_of_In.
      assert (Hb' : forallb (fun t => (0 <=? t) && (t <? 65536)) pec16Table = true) by (by vm_compute).
      rewrite forallb_forall in Hb'. specialize (Hb' x Hx). bool_to_prop. lia. }
    rewrite Forall_lookup in HF. destruct (table_spec _ Ha) as [[_ L]%bget_Ok _]. by apply (HF _ _ L). }
  pose proof (wrap_range 16 (Z.shiftl R 8) ltac:(lia)) as Hw. change (2 ^ 16) with 65536 in Hw.
  set (t := table_entry _) in *. set (w := u16 _) in *. clearbody t w. clear - Ht Hw.
  rewrite <- (Z.mod_small t (2 ^ 16)), <- (Z.mod_small w (2 ^ 16)) by done.
  rewrite <- !Z.land_ones by lia.
  replace (Z.lxor (Z.land w (Z.ones 16)) (Z.land t (Z.ones 16))) with (Z.land (Z.lxor w t) (Z.ones 16)).
  { rewrite Z.land_ones by lia. apply (Z.mod_pos_bound _ (2 ^ 16)). done. }
  apply Z.bits_inj'. intros n Hn. rewrite !Z.lxor_spec, !Z.land_spec, Z.lxor_spec.
  by destruct (Z.testbit w n), (Z.testbit t n), (Z.testbit (Z.ones 16) n).
Qed.

Lemma pec15_range data : 0 <= pec15 data < 32768.
Proof.
  unfold pec15. assert (H : 0 <= 16 < 32768) by lia. revert H. generalize 16. induction data as [|d data IH]; intros r Hr; [done|].
  cbn [foldl]. apply IH. clear IH. unfold pec_byte. revert r Hr. generalize [7; 6; 5; 4; 3; 2; 1; 0].
  intros ks. induction ks as [|k ks IH]; intros r Hr; [done|]. cbn [foldl]. apply IH. unfold pec_bit.
  set (x := Z.shiftl r 1). clearbody x. match goal with |- context [Z.lxor _ ?c0] => set (c := c0) end.
  assert (Hc : c = Z.land c 32767) by (unfold c; by destruct (xorb _ _)). rewrite Hc.
  replace (Z.lxor (Z.land x 32767) (Z.land c 32767)) with (Z.land (Z.lxor x c) 32767).
  { change 32767 with (Z.ones 15). rewrite Z.land_ones by lia. apply (Z.mod_pos_bound _ (2 ^ 15)). done. }
  apply Z.bits_inj'. intros n Hn. rewrite !Z.lxor_spec, !Z.land_spec, Z.lxor_spec.
  by destruct (Z.testbit x n), (Z.testbit c n), (Z.testbit 32767 n).
Qed.

Lemma calc_crc16_eq l post : Forall (fun b => 0 <= b < 256) l -> calc_crc16 (l ++ post) (Zlen l) = Ok (2 * pec15 l).
Proof.
  intros Hl. unfold calc_crc16.
  rewrite (suffix_read_bytes (l ++ post) 0 l post (Zlen l) (suffix_start _) eq_refl). cbn [mbind res_bind].
  destruct (crc_loop_eq l 16 ltac:(lia) Hl) as (R & -> & HR & E). cbn [mbind res_bind].
  change (Z.land 16 32767) with 16 in E. fold (pec15 l) in E. f_equal. rewrite <- E.
  change 32767 with (Z.ones 15). rewrite Z.land_ones, Z.shiftl_mul_pow2 by lia. unfold wrap.
  change (2 ^ 16) with (2 ^ 15 * 2 ^ 1). rewrite Z.mul_mod_distr_r by done. change (2 ^ 1) with 2. lia.
Qed.

(** C32: The table-driven packet error code is the code the chip computes
    bit by bit: the remainder of the message by the polynomial 0x4599 from the
    initial value 16, shifted left by one. It is an even 16-bit number, and
    flipping any pattern of bits in a message changes it by the code of the
    pattern alone. *)
Theorem calc_crc16_is_pec15 (l post : list Z) :
  Forall (fun b => 0 <= b < 256) l ->
  calc_crc16 (l ++ post) (Zlen l) = Ok (2 * pec15 l) /\ 0 <= 2 * pec15 l < 65536 /\
  (forall e : list Z, length e = length l ->
     pec15 (zip_with Z.lxor l e) = Z.lxor (pec15 l) (foldl pec_byte 0 e)).
Proof.
  intros Hl. split; [by apply calc_crc16_eq|]. pose proof (pec15_range l). split; [lia|].
  intros e He. unfold pec15.
  enough (G : forall r r', foldl pec_byte (Z.lxor r r') (zip_with Z.lxor l e) = Z.lxor (foldl pec_byte r l) (foldl pec_byte r' e)).
  { specialize (G 16 0). by rewrite Z.lxor_0_r in G. }
  clear H Hl. revert e He. induction l as [|x l IH]; intros [|y e] He r r'; try done.
  cbn [zip_with foldl]. rewrite pec_byte_lxor. apply IH. by injection He.
Qed.
Lemma calc_crc16_is_pec15_witness : calc_crc16 ([0; 1] ++ []) 2 = Ok (2 * pec15 [0; 1]) /\ 2 * pec15 [0; 1] = 15726.
Proof.
  split; [|by vm_compute]. apply (calc_crc16_is_pec15 [0; 1] []). by apply bytes_ok.
Defined.

(** ** Readings on a simulated chip *)
Lemma transmit_byte_eq b log a ans : spi_transmit_byte b (MkSpi log (a :: ans)) = Ok (MkSpi (log ++ [Byte b]) ans, (a, 1)).
Proof. done. Qed.

Lemma recv_loop_eq : forall xs pre post log rest,
  recv_loop (length xs) (pre ++ replicate (length xs) 255 ++ post) (Zlen pre) (MkSpi log (xs ++ rest))
  = Ok (MkSpi (log ++ replicate (length xs) (Byte 255)) rest, pre ++ xs ++ post).
Proof.
  induction xs as [|x xs IH]; intros pre post log rest; cbn [recv_loop length replicate app].
  - by rewrite app_nil_r.
  - erewrite pure_bind_Ok by apply bget_middle.
    rewrite (M_bind_Ok _ _ _ _ _ (transmit_byte_eq 255 log x (xs ++ rest))). cbv beta iota.
    erewrite pure_bind_Ok by apply bset_middle.
    specialize (IH (pre ++ [x]) post (log ++ [Byte 255]) rest). rewrite (Zlen_app pre [x]) in IH.
    change (Zlen [x]) with 1 in IH. rewrite <- !app_assoc in IH. cbn [app] in IH. exact IH.
Qed.

(** The four bytes of a command and its code. *)
Definition command_bytes (cmd : Z) : list Z :=
  let crc := 2 * pec15 [cmd / 256; cmd mod 256] in [cmd / 256; cmd mod 256; crc / 256; crc mod 256].
Lemma send_short_eq cmd log a0 a1 a2 a3 ans :
  is_u16 cmd ->
  ltc_send_short_and_crc cmd (MkSpi log (a0 :: a1 :: a2 :: a3 :: ans)) = Ok (MkSpi (log ++ map Byte (command_bytes cmd)) ans, tt).
Proof.
  intros Hc. unfold ltc_send_short_and_crc, command_bytes. cbv zeta. pow2_norm.
  assert (Hh : 0 <= cmd / 256 < 256) by (split; [apply Z.div_pos; lia|apply Z.div_lt_upper_bound; lia]).
  pose proof (Z.mod_pos_bound cmd 256).
  assert (Eh : u8 (Z.shiftr cmd 8) = cmd / 256).
  { rewrite Z.shiftr_div_pow2 by lia. apply wrap_small. done. }
  assert (El : u8 cmd = cmd mod 256) by done. rewrite Eh, El.
  pose proof (calc_crc16_eq [cmd / 256; cmd mod 256] []) as E. change (Zlen [cmd / 256; cmd mod 256]) with 2 in E.
  rewrite app_nil_r in E. rewrite E by (repeat (apply List.Forall_cons; [lia|]); apply List.Forall_nil). clear E.
  pose proof (pec15_range [cmd / 256; cmd mod 256]) as Hp. set (p := pec15 _) in *.
  erewrite pure_bind_Ok by reflexivity. erewrite pure_bind_Ok by reflexivity. erewrite pure_bind_Ok by reflexivity.
  do 4 (rewrite (M_bind_Ok _ _ _ _ _ (transmit_byte_eq _ _ _ _)); cbv beta iota).
  unfold mret, M_ret. rewrite Z.shiftr_div_pow2 by lia. change (2 ^ 8) with 256. unfold wrap. change (2 ^ 8) with 256.
  rewrite (Z.mod_small (2 * p / 256)) by (split; [apply Z.div_pos; lia|apply Z.div_lt_upper_bound; lia]).
  by rewrite <- !app_assoc.
Qed.

Lemma value_at_eq reg o lo hi :
  bget reg o = Ok lo -> bget reg (o + 1) = Ok hi -> 0 <= lo < 256 -> 0 <= hi < 256 -> value_at reg o = Ok (lo + 256 * hi).
Proof.
  intros E1 E2 Hlo Hhi. unfold value_at. rewrite E1, E2. cbn [mbind res_bind].
  rewrite Z.shiftl_mul_pow2 by lia. change (2 ^ 8) with 256.
  rewrite (wrap_small 16 (hi * 256)) by (pow2_norm; lia). rewrite wrap_small by (pow2_norm; lia). f_equal. lia.
Qed.

Section readings.
  Context (cs : Z).

(** The events of a reading of [n] bytes: a wake-up pulse on the chip select,
    the command, and as many clocks as the data and its code need. *)
Definition reading (cmd : Z) (n : nat) : list spi_event :=
  [Select cs 1; Select cs 0; Select cs 1] ++ map Byte (command_bytes cmd) ++ replicate n (Byte 255) ++ [Byte 255; Byte 255; Select cs 0].

Lemma recv_eq count cmd buf data c0 c1 a0 a1 a2 a3 log rest :
  is_u16 cmd -> Forall (fun b => 0 <= b < 256) data -> data <> [] -> length buf = length data -> is_u8 c0 -> is_u8 c1 ->
  ltc_recv_data_daisychain cs count cmd (Some buf) (Zlen data)
    (MkSpi log (a0 :: a1 :: a2 :: a3 :: data ++ c0 :: c1 :: rest))
  = Ok (MkSpi (log ++ reading cmd (length data)) rest, (cbool (c0 * 256 + c1 =? 2 * pec15 data), Some data)).
Proof.
  intros Hc Hd Hne Hb H0 H1. unfold ltc_recv_data_daisychain.
  assert (Hpos : 0 < Zlen data) by (destruct data; [done|zlen; pose proof (Zlen_nonneg data); lia]).
  rewrite (proj2 (Z.ltb_ge (Zlen buf) (Zlen data))) by (unfold Zlen; lia). erewrite pure_bind_Ok by reflexivity.
  rewrite Zlen_to_nat.
  replace (overwrite buf 0 (replicate (length data) 255)) with (replicate (length data) 255).
  2: { unfold overwrite. change (Z.to_nat 0) with 0%nat. rewrite take_0, drop_ge by (rewrite length_replicate; lia). by rewrite app_nil_r. }
  rewrite (M_bind_Ok _ _ _ (MkSpi ((log ++ [Select cs 1]) ++ [Select cs 0]) (a0 :: a1 :: a2 :: a3 :: data ++ c0 :: c1 :: rest)) tt) by done.
  rewrite (M_bind_Ok _ _ _ (MkSpi (((log ++ [Select cs 1]) ++ [Select cs 0]) ++ [Select cs 1]) (a0 :: a1 :: a2 :: a3 :: data ++ c0 :: c1 :: rest)) 1) by done.
  rewrite (M_bind_Ok _ _ _ _ _ (send_short_eq cmd _ a0 a1 a2 a3 _ Hc)).
  match goal with |- context [MkSpi ?l (data ++ ?r)] => pose proof (recv_loop_eq data [] [] l r) as E end.
  cbn [app] in E. rewrite app_nil_r in E. change (Zlen (@nil Z)) with 0 in E.
  rewrite (M_bind_Ok _ _ _ _ _ E). clear E. rewrite app_nil_r, (proj2 (Z.ltb_lt _ _) Hpos).
  match goal with |- context [MkSpi ?l (c0 :: c1 :: rest)] =>
    rewrite (M_bind_Ok _ _ _ (MkSpi ((l ++ [Byte 255]) ++ [Byte 255]) rest) (c0, c1)) by done end. cbv beta iota.
  match goal with |- context [mbind _ _ (MkSpi ?l rest)] =>
    rewrite (M_bind_Ok _ _ _ (MkSpi (l ++ [Select cs 0]) rest) 1) by done end. cbv beta iota.
  pose proof (calc_crc16_eq data [] Hd) as Ecrc. rewrite app_nil_r in Ecrc. rewrite Ecrc.
  erewrite pure_bind_Ok by reflexivity. unfold mret, M_ret, reading. rewrite <- !app_assoc. cbn [app]. do 4 f_equal.
  rewrite Z.shiftr_div_pow2 by lia. change (2 ^ 8) with 256. change 255 with (Z.ones 8) at 1. rewrite Z.land_ones by lia.
  change (2 ^ 8) with 256. pow2_norm. generalize (2 * pec15 data). intros p.
  pose proof (Z.div_mod p 256 ltac:(lia)). pose proof (Z.mod_pos_bound p 256).
  destruct (Z.eqb_spec c0 (p / 256)), (Z.eqb_spec c1 (p mod 256)), (Z.eqb_spec (c0 * 256 + c1) p); try done; exfalso; nia.
Qed.
Lemma get_group_eq cmds gid cmd reg data c0 c1 a0 a1 a2 a3 log rest :
  bget cmds gid = Ok cmd -> gid < Zlen cmds ->
  is_u16 cmd -> Forall (fun b => 0 <= b < 256) data -> length reg = 6%nat -> length data = 6%nat -> is_u8 c0 -> is_u8 c1 ->
  get_group cs cmds reg gid (MkSpi log (a0 :: a1 :: a2 :: a3 :: data ++ c0 :: c1 :: rest))
  = Ok (MkSpi (log ++ reading cmd 6) rest, (data, if c0 * 256 + c1 =? 2 * pec15 data then 3 else 0)).
Proof.
  intros Ecmd Hg Hc Hd Hr Hl H0 H1. unfold get_group. rewrite (proj2 (Z.ltb_lt _ _) Hg), Ecmd.
  pose proof (recv_eq 1 cmd reg data c0 c1 a0 a1 a2 a3 log rest Hc Hd ltac:(by destruct data) ltac:(lia) H0 H1) as E.
  replace (Zlen data) with VOL_REG_SIZE in E by (unfold Zlen; by rewrite Hl). rewrite Hl in E.
  erewrite pure_bind_Ok by reflexivity. rewrite (M_bind_Ok _ _ _ _ _ E). cbv beta iota.
  by destruct (c0 * 256 + c1 =? 2 * pec15 data).
Qed.
End readings.

(** Reading one cell voltage wakes the chip, sends the command of the
    cell's group with its error code and clocks the group's six bytes and two
    code bytes. When the code the chip sent is that of the bytes, the value is
    the cell's pair of them, low byte first, and the result 1; when it is not,
    the result is 0 and the caller's value is left alone. *)
Theorem ltc6804_get_voltage_checked (cs index old : Z) (reg data : list Z) (c0 c1 a0 a1 a2 a3 : Z) (log : list spi_event) (rest : list Z) :
  0 <= index < 12 -> length reg = 6%nat -> length data = 6%nat -> Forall (fun b => 0 <= b < 256) data -> is_u8 c0 -> is_u8 c1 ->
  let k := 2 * (index mod 3) in
  ltc6804_get_voltage cs reg index (Some old) (MkSpi log (a0 :: a1 :: a2 :: a3 :: data ++ c0 :: c1 :: rest))
  = Ok (MkSpi (log ++ reading cs (4 + 2 * (index / 3)) 6) rest,
        (data,
         if c0 * 256 + c1 =? 2 * pec15 data then Some (nth (Z.to_nat k) data 0 + 256 * nth (Z.to_nat k + 1) data 0) else Some old,
         cbool (c0 * 256 + c1 =? 2 * pec15 data))).
Proof.
  intros Hi Hr Hl Hd H0 H1. cbv zeta. unfold ltc6804_get_voltage, ltc6804_get_voltage_with_group.
  assert (Hg : 0 <= index / 3 < 4) by (split; [apply Z.div_pos; lia|apply Z.div_lt_upper_bound; lia]).
  assert (Ecmd : bget list_cmd_rdcv (index / 3) = Ok (4 + 2 * (index / 3)) /\ is_u16 (4 + 2 * (index / 3))).
  { split; [|pow2_norm; lia]. assert (index / 3 = 0 \/ index / 3 = 1 \/ index / 3 = 2 \/ index / 3 = 3) as [-> | [-> | [-> | ->]]] by lia; done. }
  destruct Ecmd as [Ecmd Hcmd].
  rewrite (M_bind_Ok _ _ _ _ _ (get_group_eq cs list_cmd_rdcv (index / 3) _ reg data c0 c1 a0 a1 a2 a3 log rest
    Ecmd ltac:(change (Zlen list_cmd_rdcv) with 4; lia) Hcmd Hd Hr Hl H0 H1)). cbv beta iota.
  assert (Hk : (index * 2) mod 6 = 2 * (index mod 3)).
  { rewrite Z.mul_comm. change 6 with (2 * 3). by rewrite Z.mul_mod_distr_l. }
  rewrite Hk. pose proof (Z.mod_pos_bound index 3 ltac:(lia)) as Hm.
  destruct (c0 * 256 + c1 =? 2 * pec15 data); [|done]. change (0 =? 3) with false. cbv iota.
  destruct data as [|d0 [|d1 [|d2 [|d3 [|d4 [|d5 [|? ?]]]]]]]; try done.
  do 6 (apply Forall_cons in Hd as [? Hd]).
  assert (index mod 3 = 0 \/ index mod 3 = 1 \/ index mod 3 = 2) as [-> | [-> | ->]] by lia;
    (erewrite pure_bind_Ok by (apply value_at_eq; [reflexivity|reflexivity|done|done])); done.
Qed.
Lemma ltc6804_get_voltage_checked_witness :
  let data := [16; 39; 32; 78; 48; 117] in
  let crc := 2 * pec15 data in
  let run c0 c1 := ltc6804_get_voltage 1 [0; 0; 0; 0; 0; 0] 4 (Some 7) (MkSpi [] ([0; 0; 0; 0] ++ data ++ [c0; c1])) in
  run (crc / 256) (crc mod 256) = Ok (MkSpi (reading 1 6 6) [], (data, Some 20000, 1)) /\
  run (crc / 256) (Z.lxor (crc mod 256) 1) = Ok (MkSpi (reading 1 6 6) [], (data, Some 7, 0)).
Proof.
  cbv zeta.
  pose proof (fun c0 c1 => ltc6804_get_voltage_checked 1 4 7 [0; 0; 0; 0; 0; 0] [16; 39; 32; 78; 48; 117] c0 c1 0 0 0 0 [] []
    ltac:(lia) eq_refl eq_refl ltac:(by apply bytes_ok)) as T.
  split; (etransitivity; [apply T; by vm_compute|by vm_compute]).
Defined.
