(* ===== verification/MqttPacket.v ===== *)
(** The primitives of the MQTT packet library,
    src/src/mqtt/MQTTPacket/src/MQTTPacket.c: the header byte, the variable
    length field, integers and strings on the wire, and the two functions
    that read one packet from a transport. *)
From S2P Require Import Prelude.

(** ** Data *)

(** [enum errors] and [enum msgTypes]. *)
Definition MQTTPACKET_BUFFER_TOO_SHORT := -2.
Definition MQTTPACKET_READ_ERROR := -1.
Definition CONNECT := 1.
Definition CONNACK := 2.
Definition PUBLISH := 3.
Definition PUBACK := 4.
Definition PUBREC := 5.
Definition PUBREL := 6.
Definition PUBCOMP := 7.
Definition SUBSCRIBE := 8.
Definition SUBACK := 9.
Definition UNSUBSCRIBE := 10.
Definition UNSUBACK := 11.
Definition PINGREQ := 12.
Definition PINGRESP := 13.
Definition DISCONNECT := 14.

(** A bit field of [w] bits at bit [pos] of a byte. *)
Definition get_bits (pos w byte : Z) : Z := (byte / 2 ^ pos) mod 2 ^ w.
Definition set_bits (pos w byte x : Z) : Z := byte + (x mod 2 ^ w - get_bits pos w byte) * 2 ^ pos.

(** The union [MQTTHeader]: retain, qos, dup and type from bit 0 on. *)
Definition header_byte (type dup qos retain : Z) : Z :=
  set_bits 0 1 (set_bits 1 2 (set_bits 3 1 (set_bits 4 4 0 type) dup) qos) retain.
Definition header_type (byte : Z) : Z := get_bits 4 4 byte.
Definition header_dup (byte : Z) : Z := get_bits 3 1 byte.
Definition header_qos (byte : Z) : Z := get_bits 1 2 byte.
Definition header_retain (byte : Z) : Z := get_bits 0 1 byte.

(** [MQTTString]: [cstring] is null or a zero-terminated array, [lenstring]
    a length and a pointer. *)
Record MQTTString := MkStr { cstring : option (list Z); len : Z; data : ptr }.
Definition MQTTString_initializer : MQTTString := MkStr None 0 None.

(** ** Writing

    A writer is the output buffer with the offset of [*pptr]. *)
Definition writer : Type := list Z * Z.

Definition writeChar (w : writer) (c : Z) : res writer :=
  b ← bset w.1 w.2 (u8 c); Ok (b, w.2 + 1).

Definition writeInt (w : writer) (anInt : Z) : res writer :=
  w ← writeChar w (Z.quot anInt 256); writeChar w (Z.rem anInt 256).

(** [memcpy] to the write pointer, which is then advanced. *)
Definition write_bytes (w : writer) (l : list Z) : res writer :=
  if (0 <=? w.2) && (w.2 + Zlen l <=? Zlen w.1) then Ok (overwrite w.1 w.2 l, w.2 + Zlen l)
  else Err OutOfBounds.
Definition memcpy_from (w : writer) (src : ptr) (n : Z) : res writer :=
  match src with
  | Some (b, o) => l ← read_bytes b o n; write_bytes w l
  | None => if n =? 0 then Ok w else Err NullDeref
  end.

Definition writeCString (w : writer) (string : list Z) : res writer :=
  n ← strlen string; w ← writeInt w n; memcpy_from w (Some (string, 0)) n.

Definition writeMQTTString (w : writer) (s : MQTTString) : res writer :=
  if 0 <? len s then w ← writeInt w (len s); memcpy_from w (data s) (len s)
  else match cstring s with
  | Some c => writeCString w c
  | None => writeInt w 0
  end.

Definition MQTTstrlen (s : MQTTString) : res Z :=
  match cstring s with Some c => strlen c | None => Ok (len s) end.

(** The loop of [MQTTPacket_encode]; a 31-bit length has at most five
    base-128 digits. *)
Fixpoint encode_loop (fuel : nat) (b : list Z) (o length rc : Z) : res (list Z * Z) :=
  match fuel with
  | O => Err NoFuel
  | S fuel =>
    let d := Z.rem length 128 in
    let length := Z.quot length 128 in
    let d := if 0 <? length then Z.lor d 128 else d in
    b ← bset b (o + rc) (u8 d);
    if 0 <? length then encode_loop fuel b o length (rc + 1) else Ok (b, rc + 1)
  end.
Definition MQTTPacket_encode (b : list Z) (o length : Z) : res (list Z * Z) :=
  encode_loop 5 b o length 0.
(** [ptr += MQTTPacket_encode(ptr, length)] *)
Definition write_length (w : writer) (length : Z) : res writer :=
  '(b, n) ← MQTTPacket_encode w.1 w.2 length; Ok (b, w.2 + n).

Definition MQTTPacket_len (rem_len : Z) : Z :=
  let rem_len := rem_len + 1 in
  if rem_len <? 128 then rem_len + 1
  else if rem_len <? 16384 then rem_len + 2
  else if rem_len <? 2097151 then rem_len + 3
  else rem_len + 4.

(** ** Reading

    A read pointer is an offset into the packet buffer; [char] is signed. *)
Definition readChar (b : list Z) (p : Z) : res (Z * Z) := c ← bget b p; Ok (s8 c, p + 1).
Definition readInt (b : list Z) (p : Z) : res (Z * Z) :=
  h ← bget b p; l ← bget b (p + 1); Ok (256 * h + l, p + 2).
Definition getLenStringLen (p : ptr) : res Z := h ← load p; l ← load (ptr_add p 1); Ok (256 * h + l).

(** [header.byte = readChar(&curdata)] *)
Definition read_header (buf : list Z) : res (Z * Z) := '(c, p) ← readChar buf 0; Ok (u8 c, p).

Definition readMQTTLenString (s : MQTTString) (b : list Z) (p enddata : Z) : res (Z * MQTTString * Z) :=
  if 1 <? enddata - p then
    '(n, p) ← readInt b p;
    if p + n <=? enddata then Ok (1, MkStr None n (Some (b, p)), p + n)
    else Ok (0, MkStr None n (data s), p)
  else Ok (0, MkStr None (len s) (data s), p).

(** [MQTTPacket_decode]: [getchar] is the callback asked for one byte; it
    returns its own state, its return value and the byte. *)
Section decode.
  Context {S : Type} (getchar : S -> res (S * Z * Z)).

Fixpoint decode_loop (fuel : nat) (s : S) (value multiplier len : Z) : res (S * Z * Z) :=
    match fuel with
    | O => Err NoFuel
    | Datatypes.S fuel =>
      let len := len + 1 in
      if 4 <? len then Ok (s, len, value) else
      '(s, rc, c) ← getchar s;
      if negb (rc =? 1) then Ok (s, len, value) else
      let value := value + Z.land c 127 * multiplier in
      let multiplier := multiplier * 128 in
      if negb (Z.land c 128 =? 0) then decode_loop fuel s value multiplier len
      else Ok (s, len, value)
    end.
Definition MQTTPacket_decode (s : S) : res (S * Z * Z) := decode_loop 5 s 0 1 0.
End decode.

(** [bufchar] reads [count] bytes through the static pointer [bufptr]; each
    replaces the one before. *)
Fixpoint bufchar_loop (count : nat) (b : list Z) (bufptr c : Z) : res (Z * Z) :=
  match count with
  | O => Ok (bufptr, c)
  | S count => c ← bget b bufptr; bufchar_loop count b (bufptr + 1) c
  end.
Definition bufchar (b : list Z) (count : Z) (bufptr : Z) : res (Z * Z * Z) :=
  '(p, c) ← bufchar_loop (Z.to_nat count) b bufptr 0; Ok (p, count, c).

(** The return value and [*value]. *)
Definition MQTTPacket_decodeBuf (b : list Z) (p : Z) : res (Z * Z) :=
  '(_, n, value) ← MQTTPacket_decode (bufchar b 1) p; Ok (n, value).

(** [strncmp(a, b, n)], up to its sign. *)
Fixpoint strncmp (n : nat) (a b : list Z) : res Z :=
  match n with
  | O => Ok 0
  | S n =>
    match a, b with
    | x :: a, y :: b => if negb (x =? y) then Ok (x - y) else if x =? 0 then Ok 0 else strncmp n a b
    | _, _ => Err OutOfBounds
    end
  end.
Definition bytes_from (p : ptr) : list Z :=
  match p with Some (b, o) => drop (Z.to_nat o) b | None => [] end.

Definition MQTTPacket_equals (a : MQTTString) (bptr : list Z) : res Z :=
  '(aptr, alen) ← match cstring a with
                  | Some c => n ← strlen c; Ok (c, n)
                  | None => Ok (bytes_from (data a), len a)
                  end;
  blen ← strlen bptr;
  if negb (alen =? blen) then Ok 0 else
  d ← strncmp (Z.to_nat alen) aptr bptr; Ok (cbool (d =? 0)).

(** ** Reading a packet from a transport

    [getfn s n] is the callback asked for [n] bytes: its state, its return
    value and the bytes it stored. *)
Section transport.
  Context {S : Type} (getfn : S -> Z -> res (S * Z * list Z)).

Definition get_into (b : list Z) (o : Z) (s : S) (n : Z) : res (S * Z * list Z) :=
  '(s, rc, l) ← getfn s n;
  '(b, _) ← write_bytes (b, o) l;
  Ok (s, rc, b).
Definition get_one (s : S) : res (S * Z * Z) :=
  '(s, rc, l) ← getfn s 1;
  Ok (s, rc, default 0 (head l)).

(** The state of the callback, the buffer and the return value. *)
Definition MQTTPacket_read (s : S) (buf : list Z) (buflen : Z) : res (S * list Z * Z) :=
  '(s, rc, buf) ← get_into buf 0 s 1;
  if negb (rc =? 1) then Ok (s, buf, -1) else
  '(s, _, rem_len) ← MQTTPacket_decode get_one s;
  '(buf, n) ← MQTTPacket_encode buf 1 rem_len;
  let len := 1 + n in
  if buflen <? rem_len + len then Ok (s, buf, -1) else
  '(s, rc, buf) ← get_into buf len s rem_len;
  if negb (rc =? rem_len) then Ok (s, buf, -1) else
  b0 ← bget buf 0;
  Ok (s, buf, header_type b0).

(** [MQTTTransport] without [getfn]. *)
Record MQTTTransport := MkTrp { sck : S; multiplier : Z; rem_len : Z; trp_len : Z; state : Z }.

Fixpoint decodenb_loop (fuel : nat) (t : MQTTTransport) : res (MQTTTransport * Z) :=
    match fuel with
    | O => Err NoFuel
    | Datatypes.S fuel =>
      let t := MkTrp (sck t) (multiplier t) (rem_len t) (trp_len t + 1) (state t) in
      if 4 <? trp_len t then Ok (t, MQTTPACKET_READ_ERROR) else
      '(s, frc, c) ← get_one (sck t);
      let t := MkTrp s (multiplier t) (rem_len t) (trp_len t) (state t) in
      if frc =? -1 then Ok (t, MQTTPACKET_READ_ERROR) else
      if frc =? 0 then Ok (t, 0) else
      let t := MkTrp s (multiplier t * 128) (rem_len t + Z.land c 127 * multiplier t) (trp_len t) (state t) in
      if negb (Z.land c 128 =? 0) then decodenb_loop fuel t else Ok (t, trp_len t)
    end.
Definition MQTTPacket_decodenb (t : MQTTTransport) : res (MQTTTransport * Z) :=
  decodenb_loop 5 (if trp_len t =? 0 then MkTrp (sck t) 1 0 0 (state t) else t).

Definition set_state (t : MQTTTransport) (n : Z) : MQTTTransport :=
  MkTrp (sck t) (multiplier t) (rem_len t) (trp_len t) n.

(** [case 2]: the payload. *)
Definition readnb_rest (buf : list Z) (t : MQTTTransport) : res (MQTTTransport * list Z * Z) :=
  '(s, frc, buf) ← get_into buf (trp_len t) (sck t) (rem_len t);
  let t := MkTrp s (multiplier t) (rem_len t) (trp_len t) (state t) in
  if frc =? -1 then Ok (set_state t 0, buf, -1) else
  if frc =? 0 then Ok (t, buf, 0) else
  let t := MkTrp s (multiplier t) (rem_len t - frc) (trp_len t + frc) (state t) in
  if ctrue (rem_len t) then Ok (t, buf, 0) else
  b0 ← bget buf 0;
  Ok (set_state t 0, buf, header_type b0).

(** [case 1]: the remaining length. *)
Definition readnb_length (buf : list Z) (buflen : Z) (t : MQTTTransport) : res (MQTTTransport * list Z * Z) :=
  '(t, frc) ← MQTTPacket_decodenb t;
  if frc =? MQTTPACKET_READ_ERROR then Ok (set_state t 0, buf, -1) else
  if frc =? 0 then Ok (t, buf, 0) else
  '(buf, n) ← MQTTPacket_encode buf 1 (rem_len t);
  let t := MkTrp (sck t) (multiplier t) (rem_len t) (1 + n) (state t) in
  if buflen <? rem_len t + trp_len t then Ok (set_state t 0, buf, -1) else
  readnb_rest buf (set_state t (state t + 1)).

Definition MQTTPacket_readnb (buf : list Z) (buflen : Z) (t : MQTTTransport) : res (MQTTTransport * list Z * Z) :=
  if state t =? 1 then readnb_length buf buflen t else
  if state t =? 2 then readnb_rest buf t else
  let t := set_state t 0 in
  '(s, frc, buf) ← get_into buf 0 (sck t) 1;
  let t := MkTrp s (multiplier t) (rem_len t) (trp_len t) (state t) in
  if frc =? -1 then Ok (set_state t 0, buf, -1) else
  if frc =? 0 then Ok (t, buf, 0) else
  readnb_length buf buflen (MkTrp s (multiplier t) (rem_len t) 0 (state t + 1)).
End transport.
Arguments MkTrp {S} _ _ _ _ _.

(** ** The wire format *)

(** The variable length field of an [n]-byte body, [n < 2^28]. *)
Definition remlen_bytes (n : Z) : list Z :=
  if n <? 128 then [n]
  else if n <? 16384 then [n mod 128 + 128; n / 128]
  else if n <? 2097152 then [n mod 128 + 128; n / 128 mod 128 + 128; n / 16384]
  else [n mod 128 + 128; n / 128 mod 128 + 128; n / 16384 mod 128 + 128; n / 2097152].
Definition int_bytes (n : Z) : list Z := [n / 256; n mod 256].
Definition string_bytes (l : list Z) : list Z := int_bytes (Zlen l) ++ l.
(** A packet: header byte, remaining length, body. *)
Definition packet (header : Z) (body : list Z) : list Z := header :: remlen_bytes (Zlen body) ++ body.

Definition max_body := 268435456.

(** [s] denotes the byte string [l]: by length and pointer, or as a
    zero-terminated array. *)
Inductive denotes : MQTTString -> list Z -> Prop :=
  | denotes_lenstring b o l r :
      Zlen l < 65536 -> suffix b o (l ++ r) -> denotes (MkStr None (Zlen l) (Some (b, o))) l
  | denotes_cstring l r n d :
      Zlen l < 65536 -> n <= 0 -> Forall (fun c => c <> 0) l -> denotes (MkStr (Some (l ++ 0 :: r)) n d) l
  | denotes_empty d : denotes (MkStr None 0 d) [].

(** ** Header *)
Lemma get_bits_range pos w b : 0 <= w -> 0 <= get_bits pos w b < 2 ^ w.
Proof. intros. apply Z.mod_pos_bound. lia. Qed.

Lemma header_byte_eq t d q r :
  header_byte t d q r = (t mod 16) * 16 + (d mod 2) * 8 + (q mod 4) * 2 + r mod 2.
Proof.
  unfold header_byte, set_bits, get_bits.
  change (2 ^ 4) with 16. change (2 ^ 3) with 8. change (2 ^ 2) with 4. change (2 ^ 1) with 2. change (2 ^ 0) with 1.
  rewrite Z.div_1_r. change (0 / 16 mod 16) with 0.
  pose proof (Z.mod_pos_bound t 16). pose proof (Z.mod_pos_bound d 2). pose proof (Z.mod_pos_bound q 4).
  set (t' := t mod 16) in *. set (d' := d mod 2) in *. set (q' := q mod 4) in *.
  assert ((0 + (t' - 0) * 16) / 8 mod 2 = 0) as ->.
  { rewrite <- (Z.div_unique (0 + (t' - 0) * 16) 8 (2 * t') 0) by lia. symmetry. apply (Z.mod_unique _ _ t'); lia. }
  set (h := 0 + (t' - 0) * 16 + (d' - 0) * 8).
  assert (h / 2 mod 4 = 0) as ->.
  { rewrite <- (Z.div_unique h 2 (8 * t' + 4 * d') 0) by (subst h; lia). symmetry.
    apply (Z.mod_unique _ _ (2 * t' + d')); lia. }
  assert ((h + (q' - 0) * 2) mod 2 = 0) as ->; [|subst h; lia].
  symmetry. apply (Z.mod_unique _ _ (8 * t' + 4 * d' + q')); subst h; lia.
Qed.

Lemma header_byte_range t d q r : 0 <= header_byte t d q r < 256.
Proof.
  rewrite header_byte_eq. pose proof (Z.mod_pos_bound t 16). pose proof (Z.mod_pos_bound d 2).
  pose proof (Z.mod_pos_bound q 4). pose proof (Z.mod_pos_bound r 2). lia.
Qed.

Lemma header_fields t d q r :
  header_type (header_byte t d q r) = t mod 16 /\ header_dup (header_byte t d q r) = d mod 2 /\
  header_qos (header_byte t d q r) = q mod 4 /\ header_retain (header_byte t d q r) = r mod 2.
Proof.
  rewrite header_byte_eq. unfold header_type, header_dup, header_qos, header_retain, get_bits.
  change (2 ^ 4) with 16. change (2 ^ 3) with 8. change (2 ^ 2) with 4. change (2 ^ 1) with 2. change (2 ^ 0) with 1.
  pose proof (Z.mod_pos_bound t 16). pose proof (Z.mod_pos_bound d 2).
  pose proof (Z.mod_pos_bound q 4). pose proof (Z.mod_pos_bound r 2).
  set (t' := t mod 16) in *. set (d' := d mod 2) in *. set (q' := q mod 4) in *. set (r' := r mod 2) in *.
  set (h := _ + r'). rewrite Z.div_1_r.
  rewrite <- (Z.div_unique h 16 t' (d' * 8 + q' * 2 + r')) by (subst h; lia).
  rewrite <- (Z.div_unique h 8 (2 * t' + d') (q' * 2 + r')) by (subst h; lia).
  rewrite <- (Z.div_unique h 2 (8 * t' + 4 * d' + q') r') by (subst h; lia).
  split_and!; symmetry.
  - apply (Z.mod_unique _ _ 0); lia.
  - apply (Z.mod_unique _ _ t'); lia.
  - apply (Z.mod_unique _ _ (2 * t' + d')); lia.
  - apply (Z.mod_unique _ _ (8 * t' + 4 * d' + q')); subst h; lia.
Qed.

(** ** Writers

    [wr buf l] is the writer on [buf] after the bytes [l]. *)
Definition wr (buf l : list Z) : writer := (overwrite buf 0 l, Zlen l).

Lemma wr_nil buf : wr buf [] = (buf, 0).
Proof. unfold wr. by rewrite overwrite_nil. Qed.

Lemma writeChar_wr buf l c : Zlen l < Zlen buf -> writeChar (wr buf l) c = Ok (wr buf (l ++ [u8 c])).
Proof.
  intros. unfold writeChar, wr; cbn. rewrite bset_overwrite by (zlen; lia). cbn. by zlen.
Qed.

Lemma writeInt_wr buf l n :
  0 <= n < 65536 -> Zlen l + 2 <= Zlen buf -> writeInt (wr buf l) n = Ok (wr buf (l ++ int_bytes n)).
Proof.
  intros Hn Hl. unfold writeInt. rewrite writeChar_wr by lia. cbn [mbind res_bind].
  rewrite writeChar_wr by (zlen; lia). unfold int_bytes.
  rewrite Z.quot_div_nonneg, Z.rem_mod_nonneg by lia.
  pose proof (Z.div_mod n 256). pose proof (Z.mod_pos_bound n 256). unwrap. by rewrite <- app_assoc.
Qed.

Lemma write_bytes_wr buf l m :
  Zlen l + Zlen m <= Zlen buf -> write_bytes (wr buf l) m = Ok (wr buf (l ++ m)).
Proof.
  intros H. pose proof (Zlen_nonneg l). pose proof (Zlen_nonneg m). unfold write_bytes, wr; cbn.
  rewrite Zlen_overwrite by lia.
  rewrite (proj2 (Z.leb_le 0 (Zlen l))), (proj2 (Z.leb_le _ (Zlen buf))) by lia. cbn.
  rewrite overwrite_overwrite by lia. by zlen.
Qed.

Lemma memcpy_wr buf l b o m r :
  suffix b o (m ++ r) -> Zlen l + Zlen m <= Zlen buf ->
  memcpy_from (wr buf l) (Some (b, o)) (Zlen m) = Ok (wr buf (l ++ m)).
Proof.
  intros Hs Hl. unfold memcpy_from. rewrite (suffix_read_bytes _ _ _ _ _ Hs) by done. cbn.
  by apply write_bytes_wr.
Qed.

Lemma Zlen_int_bytes n : Zlen (int_bytes n) = 2.
Proof. done. Qed.
Lemma Zlen_string_bytes l : Zlen (string_bytes l) = 2 + Zlen l.
Proof. unfold string_bytes. rewrite Zlen_app, Zlen_int_bytes. lia. Qed.
#[export] Hint Rewrite Zlen_int_bytes Zlen_string_bytes : zlen.

Lemma writeMQTTString_wr buf l s m :
  denotes s m -> Zlen l + 2 + Zlen m <= Zlen buf ->
  writeMQTTString (wr buf l) s = Ok (wr buf (l ++ string_bytes m)).
Proof.
  intros Hd Hl. unfold writeMQTTString, string_bytes. rewrite app_assoc. destruct Hd as [b o m r Hm Hs|m r n d Hm Hn Hz|d]; cbn.
  - destruct (Z.ltb_spec 0 (Zlen m)).
    + rewrite writeInt_wr by (pose proof (Zlen_nonneg m); lia). cbn.
      by apply (memcpy_wr _ _ _ _ _ r); [|zlen; lia].
    + destruct m as [|x m]; [|zlen; pose proof (Zlen_nonneg m); lia].
      rewrite app_nil_r. change (Zlen (@nil Z)) with 0. zlen. apply writeInt_wr; lia.
  - rewrite (proj2 (Z.ltb_ge 0 n)) by lia. unfold writeCString. rewrite strlen_eq by done. cbn [mbind res_bind].
    rewrite writeInt_wr by (pose proof (Zlen_nonneg m); lia). cbn [mbind res_bind].
    apply (memcpy_wr _ _ _ _ _ (0 :: r)); [apply suffix_start|zlen; lia].
  - rewrite app_nil_r. change (Zlen (@nil Z)) with 0 in *. apply writeInt_wr; lia.
Qed.

Lemma MQTTstrlen_denotes s m : denotes s m -> MQTTstrlen s = Ok (Zlen m).
Proof. destruct 1; cbn; [done|by apply strlen_eq|done]. Qed.

Lemma denotes_len s m : denotes s m -> 0 <= Zlen m < 65536.
Proof. intros [b o m' r Hm Hs|m' r n d Hm Hn Hz|d]; [pose proof (Zlen_nonneg m'); lia..|done]. Qed.

(** *** The length field *)
Fixpoint digits (fuel : nat) (n : Z) : list Z :=
  match fuel with
  | O => []
  | S fuel => if n <? 128 then [n] else (n mod 128 + 128) :: digits fuel (n / 128)
  end.

Lemma digits_remlen n : 0 <= n < max_body -> digits 5 n = remlen_bytes n.
Proof.
  unfold max_body. intros Hn. unfold remlen_bytes. cbn [digits].
  rewrite !Z.div_div by lia. change (128 * 128) with 16384. change (16384 * 128) with 2097152.
  repeat match goal with |- context [n / ?k] =>
    lazymatch goal with H : _ <= n - k * (n / k) < k |- _ => fail | _ =>
      assert (0 <= n - k * (n / k) < k) by (pose proof (Z.div_mod n k); pose proof (Z.mod_pos_bound n k); lia) end end.
  repeat (case_test; try done; try lia).
Qed.

Lemma lor_128 d : 0 <= d < 128 -> Z.lor d 128 = d + 128.
Proof.
  intros H. apply Z.eqb_eq.
  apply (range_forallb 128 (fun d => Z.lor d 128 =? d + 128) 0); [by vm_compute|lia].
Qed.

Lemma encode_loop_wr fuel buf l ds n :
  (0 < fuel)%nat -> 0 <= n < 128 ^ Z.of_nat fuel -> Zlen l + Zlen ds + Zlen (digits fuel n) <= Zlen buf ->
  encode_loop fuel (overwrite buf 0 (l ++ ds)) (Zlen l) n (Zlen ds)
  = Ok (overwrite buf 0 (l ++ ds ++ digits fuel n), Zlen ds + Zlen (digits fuel n)).
Proof.
  revert n ds. induction fuel as [|fuel IH]; intros n ds Hf Hn Hl; [lia|].
  cbn [encode_loop digits] in *.
  rewrite Z.quot_div_nonneg, Z.rem_mod_nonneg by lia.
  pose proof (Z.div_mod n 128). pose proof (Z.mod_pos_bound n 128).
  destruct (Z.ltb_spec n 128).
  - assert (n / 128 = 0) as -> by (apply Z.div_small; lia). cbn [Z.ltb Z.compare].
    rewrite (Z.mod_small n 128) by lia. zlen.
    rewrite bset_overwrite by (zlen; lia). cbn. rewrite wrap_small by (pow2_norm; lia). by rewrite <- app_assoc.
  - rewrite (proj2 (Z.ltb_lt 0 (n / 128))) by lia. zlen. rewrite lor_128 by lia.
    pose proof (Zlen_nonneg (digits fuel (n / 128))).
    rewrite bset_overwrite by (zlen; lia). cbn [mbind res_bind].
    rewrite wrap_small by (pow2_norm; lia).
    specialize (IH (n / 128) (ds ++ [n mod 128 + 128])). zlen.
    replace (Zlen ds + (1 + 0)) with (Zlen ds + 1) in IH by lia.
    rewrite <- app_assoc in *. rewrite IH; [| |split; [lia|]|lia].
    + rewrite <- ?app_assoc. do 2 f_equal. lia.
    + destruct fuel; [change (128 ^ Z.of_nat 1) with 128 in Hn|]; lia.
    + apply Z.div_lt_upper_bound; [lia|]. rewrite Nat2Z.inj_succ, Z.pow_succ_r in Hn by lia. lia.
Qed.

Lemma write_length_wr buf l n :
  0 <= n < max_body -> Zlen l + Zlen (remlen_bytes n) <= Zlen buf ->
  write_length (wr buf l) n = Ok (wr buf (l ++ remlen_bytes n)).
Proof.
  intros Hn Hl. rewrite <- digits_remlen in * by done. unfold write_length, MQTTPacket_encode, wr. cbn [fst snd].
  pose proof (encode_loop_wr 5 buf l [] n) as H. zlen. rewrite app_nil_r in H.
  unfold max_body in Hn. change (128 ^ Z.of_nat 5) with 34359738368 in H.
  rewrite H by lia. by cbn.
Qed.

(** ** Readers *)
Lemma readChar_suffix b p c r : suffix b p (c :: r) -> readChar b p = Ok (s8 c, p + 1).
Proof. intros [E _]%suffix_cons. unfold readChar. by rewrite E. Qed.

Lemma readInt_suffix b p n r :
  0 <= n -> suffix b p (int_bytes n ++ r) -> readInt b p = Ok (n, p + 2) /\ suffix b (p + 2) r.
Proof.
  intros Hn Hs. unfold int_bytes in Hs; cbn in Hs. unfold readInt.
  apply suffix_cons in Hs as [-> Hs]. apply suffix_cons in Hs as [-> Hs]. cbn.
  replace (p + 1 + 1) with (p + 2) in Hs by lia. split; [|done].
  do 2 f_equal. pose proof (Z.div_mod n 256). lia.
Qed.

(** Reading a string: present, or cut off by the end of the packet. *)
Lemma readMQTTLenString_suffix s b p e l r :
  suffix b p (string_bytes l ++ r) -> p + 2 + Zlen l <= e ->
  exists q, readMQTTLenString s b p e = Ok (1, MkStr None (Zlen l) (Some (b, p + 2)), q) /\
    q = p + 2 + Zlen l /\ suffix b (p + 2) (l ++ r) /\ suffix b q r.
Proof.
  intros Hs He. pose proof (Zlen_nonneg l). unfold string_bytes in Hs. rewrite <- app_assoc in Hs.
  apply readInt_suffix in Hs as [E Hs]; [|done].
  unfold readMQTTLenString. rewrite (proj2 (Z.ltb_lt 1 (e - p))), E by lia. cbn [mbind res_bind].
  rewrite (proj2 (Z.leb_le _ e)) by lia. eexists. split; [done|]. split; [done|]. split; [done|].
  by apply (suffix_app _ _ _ _ _ Hs).
Qed.

Lemma readMQTTLenString_denotes l b p r :
  Zlen l < 65536 -> suffix b p (l ++ r) -> denotes (MkStr None (Zlen l) (Some (b, p))) l.
Proof. intros. by eapply denotes_lenstring. Qed.

Lemma land_128_small d : 0 <= d < 128 -> Z.land d 128 = 0 /\ Z.land d 127 = d.
Proof.
  intros H. apply (range_forallb 128 (fun d => (Z.land d 128 =? 0) && (Z.land d 127 =? d)) 0) in H; [|by vm_compute].
  bool_to_prop. done.
Qed.
Lemma land_128_big d : 0 <= d < 128 -> Z.land (d + 128) 128 = 128 /\ Z.land (d + 128) 127 = d.
Proof.
  intros H.
  apply (range_forallb 128 (fun d => (Z.land (d + 128) 128 =? 128) && (Z.land (d + 128) 127 =? d)) 0) in H; [|by vm_compute].
  bool_to_prop. done.
Qed.

Lemma digits_nonempty fuel n : (0 < fuel)%nat -> 1 <= Zlen (digits fuel n).
Proof. destruct fuel; [lia|]. intros _. cbn. case_test; zlen; [lia|]. pose proof (Zlen_nonneg (digits fuel (n / 128))). lia. Qed.

(** A callback that delivers the bytes of a stream, [holds s l] saying that
    [l] is what is left of it, makes [decode_loop] read the digits. *)
Section stream.
  Context {S : Type} (getchar : S -> res (S * Z * Z)) (holds : S -> list Z -> Prop).
  Hypothesis getchar_holds : forall s c r, holds s (c :: r) ->
    exists s', getchar s = Ok (s', 1, c) /\ holds s' r.

Lemma decode_loop_digits fuel : forall fuel' s n r value m len,
  (0 < fuel)%nat -> 0 <= n < 128 ^ Z.of_nat fuel -> holds s (digits fuel n ++ r) ->
  len + Zlen (digits fuel n) <= 4 -> (Z.to_nat (Zlen (digits fuel n)) <= fuel')%nat ->
  exists s', decode_loop getchar fuel' s value m len = Ok (s', len + Zlen (digits fuel n), value + n * m) /\
    holds s' r.
Proof.
  induction fuel as [|fuel IH]; intros fuel' s n r value m len Hf Hn Hs Hlen Hf'; [lia|].
  pose proof (digits_nonempty (Datatypes.S fuel) n Hf). destruct fuel' as [|fuel']; [lia|].
  cbn [digits] in *. pose proof (Z.div_mod n 128). pose proof (Z.mod_pos_bound n 128).
  cbn [decode_loop]. rewrite (proj2 (Z.ltb_ge 4 (len + 1))) by lia.
  destruct (Z.ltb_spec n 128).
  - apply getchar_holds in Hs as (s' & -> & Hs). cbn [mbind res_bind Z.eqb Pos.eqb negb].
    destruct (land_128_small n) as [-> ->]; [lia|]. cbn. zlen. by exists s'.
  - cbn [app] in Hs. apply getchar_holds in Hs as (s' & -> & Hs). cbn [mbind res_bind Z.eqb Pos.eqb negb].
    destruct (land_128_big (n mod 128)) as [-> ->]; [lia|]. cbn [Z.eqb Pos.eqb negb].
    destruct fuel as [|fuel]; [change (128 ^ Z.of_nat 1) with 128 in Hn; lia|]. rewrite Zlen_cons in *.
    destruct (IH fuel' s' (n / 128) r (value + n mod 128 * m) (m * 128) (len + 1)) as (s2 & -> & Hs2);
      [lia| |done|lia|lia|].
    + split; [lia|]. apply Z.div_lt_upper_bound; [lia|].
      rewrite (Nat2Z.inj_succ (Datatypes.S fuel)), Z.pow_succ_r in Hn by lia. lia.
    + exists s2. split; [|done]. do 2 f_equal; [f_equal; lia|]. nia.
Qed.
End stream.

Lemma Zlen_remlen n : Zlen (remlen_bytes n) = if n <? 128 then 1 else if n <? 16384 then 2 else if n <? 2097152 then 3 else 4.
Proof. unfold remlen_bytes. by repeat case_test. Qed.

Lemma MQTTPacket_decode_remlen {S} getchar (holds : S -> list Z -> Prop) s n r :
  (forall s c r, holds s (c :: r) -> exists s', getchar s = Ok (s', 1, c) /\ holds s' r) ->
  0 <= n < max_body -> holds s (remlen_bytes n ++ r) ->
  exists s', MQTTPacket_decode getchar s = Ok (s', Zlen (remlen_bytes n), n) /\ holds s' r.
Proof.
  intros Hg Hn Hs. pose proof (Zlen_remlen n). rewrite <- (digits_remlen n) in * by done.
  assert (Zlen (digits 5 n) <= 4) by (rewrite H; repeat case_test; lia).
  unfold max_body in Hn. unfold MQTTPacket_decode.
  destruct (decode_loop_digits getchar holds Hg 5 5 s n r 0 1 0) as (s' & -> & Hs');
    [lia|change (128 ^ Z.of_nat 5) with 34359738368; lia|done|lia|lia|].
  exists s'. split; [|done]. do 2 f_equal. lia.
Qed.

Lemma bufchar_suffix b p c r :
  suffix b p (c :: r) -> exists p', bufchar b 1 p = Ok (p', 1, c) /\ suffix b p' r.
Proof.
  intros [E Hs]%suffix_cons. unfold bufchar. change (Z.to_nat 1) with 1%nat. cbn [bufchar_loop].
  rewrite E. by exists (p + 1).
Qed.

Lemma decodeBuf_remlen b p n r :
  0 <= n < max_body -> suffix b p (remlen_bytes n ++ r) ->
  MQTTPacket_decodeBuf b p = Ok (Zlen (remlen_bytes n), n).
Proof.
  intros Hn Hs. unfold MQTTPacket_decodeBuf.
  by destruct (MQTTPacket_decode_remlen (bufchar b 1) (suffix b) p n r (bufchar_suffix b) Hn Hs) as (p' & -> & _).
Qed.

(** Whatever the transport delivers, decoding stops within five bytes with
    a value of at most 28 bits. *)
Lemma decode_loop_bounds {S} (getchar : S -> res (S * Z * Z)) fuel : forall s value len s' len' value',
  0 <= len -> 0 <= value < 128 ^ len -> Z.of_nat fuel = 5 - len ->
  decode_loop getchar fuel s value (128 ^ len) len = Ok (s', len', value') ->
  len < len' <= 5 /\ 0 <= value' < max_body.
Proof.
  induction fuel as [|fuel IH]; intros s value len s' len' value' Hlen Hv Hf; [done|].
  assert (128 ^ len <= max_body -> value < max_body) by lia.
  cbn [decode_loop]. destruct (Z.ltb_spec 4 (len + 1)).
  { intros [= <- <- <-]. assert (len = 4) as -> by lia. change (128 ^ 4) with max_body in *. lia. }
  assert (128 ^ (len + 1) <= max_body).
  { change max_body with (128 ^ 4). apply Z.pow_le_mono_r; lia. }
  rewrite Z.pow_add_r in * by lia. change (128 ^ 1) with 128 in *.
  destruct (getchar s) as [[[s1 rc] c]|]; [|done]. cbn [mbind res_bind].
  destruct (rc =? 1); cbn [negb]; [|intros [= <- <- <-]; lia].
  assert (0 <= Z.land c 127 < 128) as Hc.
  { change 127 with (Z.ones 7). rewrite Z.land_ones by lia. apply Z.mod_pos_bound. lia. }
  set (d := Z.land c 127) in *.
  assert (0 <= value + d * 128 ^ len < 128 ^ len * 128) by nia.
  destruct (negb (Z.land c 128 =? 0)); [|intros [= <- <- <-]; lia].
  intros E. replace (128 ^ len * 128) with (128 ^ (len + 1)) in * by (rewrite Z.pow_add_r by lia; done).
  apply IH in E; lia.
Qed.

Lemma MQTTPacket_len_ge n : 0 <= n < max_body -> 1 + Zlen (remlen_bytes n) + n <= MQTTPacket_len n.
Proof. intros _. rewrite Zlen_remlen. unfold MQTTPacket_len. repeat case_test; lia. Qed.

(** The first two writes of every serializer. *)
Lemma write_packet_start buf h n :
  0 <= h < 256 -> 0 <= n < max_body -> 1 + Zlen (remlen_bytes n) <= Zlen buf ->
  (w ← writeChar (buf, 0) h; write_length w n) = Ok (wr buf (h :: remlen_bytes n)).
Proof.
  intros Hh Hn Hl. pose proof (Zlen_nonneg (remlen_bytes n)). rewrite <- wr_nil. rewrite writeChar_wr by (zlen; lia).
  cbn [mbind res_bind app]. rewrite wrap_small by (pow2_norm; lia). by rewrite write_length_wr by (zlen; lia).
Qed.

(** The first two reads of every deserializer. *)
Lemma read_header_packet h l : 0 <= h < 256 -> read_header (h :: l) = Ok (h, 1).
Proof.
  intros Hh. unfold read_header, readChar.
  change (bget (h :: l) 0) with (Ok h). cbn [mbind res_bind]. do 2 f_equal. unfold wrap, swrap.
  change (2 ^ (8 - 1)) with 128. change (2 ^ 8) with 256.
  rewrite Zminus_mod_idemp_l. replace (h + 128 - 128) with h by lia. by apply Z.mod_small.
Qed.

Lemma packet_suffix h body rest :
  Zlen body < max_body ->
  MQTTPacket_decodeBuf (packet h body ++ rest) 1 = Ok (Zlen (remlen_bytes (Zlen body)), Zlen body) /\
  suffix (packet h body ++ rest) (1 + Zlen (remlen_bytes (Zlen body))) (body ++ rest).
Proof.
  intros Hb. pose proof (Zlen_nonneg body).
  assert (suffix (packet h body ++ rest) 1 (remlen_bytes (Zlen body) ++ body ++ rest)) as Hs.
  { apply (suffix_app _ 0 [h]); [|done]. unfold packet. cbn [app]. rewrite <- app_assoc. apply suffix_start. }
  split; [by apply (decodeBuf_remlen _ _ _ (body ++ rest))|]. by apply (suffix_app _ _ _ _ _ Hs).
Qed.

(** ** Theorems *)

(** For every body length below 2^28 the length field is written in at
    most four bytes inside the buffer and is read back as the same number
    of bytes and the same value; [MQTTPacket_len] never underestimates the
    packet, and overestimates it, by one byte, only next to the boundaries. *)
Theorem length_field_round_trip (buf rest : list Z) (n : Z) :
  0 <= n < max_body -> Zlen (remlen_bytes n) <= Zlen buf ->
  (exists k, MQTTPacket_encode buf 0 n = Ok (overwrite buf 0 (remlen_bytes n), k) /\ k = Zlen (remlen_bytes n) /\ 1 <= k <= 4) /\
  MQTTPacket_decodeBuf (remlen_bytes n ++ rest) 0 = Ok (Zlen (remlen_bytes n), n) /\
  MQTTPacket_len n = 1 + Zlen (remlen_bytes n) + n +
    (if (n =? 127) || (n =? 16383) || (n =? 2097150) || (n =? 2097151) then 1 else 0).
Proof.
  intros Hn Hb. pose proof (Zlen_remlen n). split_and!.
  - pose proof (write_length_wr buf [] n Hn) as E. unfold write_length, wr in E; cbn [fst snd app] in E.
    rewrite overwrite_nil in E. change (Zlen (@nil Z)) with 0 in E.
    destruct (MQTTPacket_encode buf 0 n) as [[b k]|]; cbn in E; specialize (E Hb); [|done].
    injection E as <- E. exists k. split_and!; [done|lia|..]; rewrite <- (Z.add_0_l k), E, H; repeat case_test; lia.
  - apply (decodeBuf_remlen _ _ _ rest Hn). apply suffix_start.
  - rewrite H. unfold MQTTPacket_len. repeat (case_test; bool_to_prop; try lia).
Qed.

Lemma length_field_round_trip_witness :
  0 <= 321 < max_body /\ MQTTPacket_decodeBuf ([193; 2] ++ [7]) 0 = Ok (2, 321) /\ MQTTPacket_len 321 = 324.
Proof.
  assert (0 <= 321 < max_body) as H by (by vm_compute). split; [done|].
  destruct (length_field_round_trip [0; 0; 0; 0] [7] 321 H ltac:(by vm_compute)) as (_ & E & El).
  split; [exact E|exact El].
Defined.

(** Decoding a length field ends within five calls of the callback for
    every transport that does not fail, with a value below 2^28; five means
    a fourth continuation bit, that is, a malformed field. *)
Theorem decode_terminates_bounded {S} (getchar : S -> res (S * Z * Z)) (s : S) :
  (forall s, is_ok (getchar s) = true) ->
  exists s' k value, MQTTPacket_decode getchar s = Ok (s', k, value) /\ 1 <= k <= 5 /\ 0 <= value < max_body.
Proof.
  intros Hg.
  assert (forall fuel s v m len, Z.of_nat fuel = 5 - len -> 0 <= len < 5 ->
    exists r, decode_loop getchar fuel s v m len = Ok r) as Htot.
  { induction fuel as [|fuel IH]; intros s0 v m len Hf Hl; [lia|]. cbn [decode_loop].
    destruct (Z.ltb_spec 4 (len + 1)); [by eexists|].
    specialize (Hg s0) as Hs0. destruct (getchar s0) as [[[s1 rc] c]|]; [|done]. cbn [mbind res_bind].
    destruct (negb (rc =? 1)); [by eexists|]. destruct (negb _); [|by eexists]. apply IH; lia. }
  destruct (Htot 5%nat s 0 1 0) as [[[s' k] v] E]; [lia..|].
  exists s', k, v. split; [done|]. apply (decode_loop_bounds getchar 5 s 0 0) in E; lia.
Qed.

Lemma decode_terminates_bounded_witness :
  exists s' k value, MQTTPacket_decode (fun n : Z => Ok (n + 1, 1, 255)) 0 = Ok (s', k, value) /\
    1 <= k <= 5 /\ 0 <= value < max_body.
Proof. apply (decode_terminates_bounded (fun n : Z => Ok (n + 1, 1, 255)) 0). done. Defined.

(** A string, given by length or as a C string, is written as its
    length and its bytes and read back as a string of the same bytes that
    points into the packet; when the packet ends before the string does, it
    is refused. *)
Theorem string_round_trip (buf l m rest : list Z) (s s0 : MQTTString) (e : Z) :
  denotes s m -> Zlen l + 2 + Zlen m <= Zlen buf ->
  writeMQTTString (wr buf l) s = Ok (wr buf (l ++ string_bytes m)) /\
  MQTTstrlen s = Ok (Zlen m) /\
  let b := l ++ string_bytes m ++ rest in
  (if Zlen l + 2 + Zlen m <=? e then
     exists t, readMQTTLenString s0 b (Zlen l) e = Ok (1, t, Zlen l + 2 + Zlen m) /\ denotes t m
   else exists t p, readMQTTLenString s0 b (Zlen l) e = Ok (0, t, p)).
Proof.
  intros Hd Hl. split; [by apply writeMQTTString_wr|]. split; [by apply MQTTstrlen_denotes|]. intros b.
  pose proof (denotes_len _ _ Hd). assert (suffix b (Zlen l) (string_bytes m ++ rest)) as Hs by apply suffix_middle.
  case_test.
  - destruct (readMQTTLenString_suffix s0 b (Zlen l) e m rest Hs) as (q & -> & -> & Hm & _); [lia|].
    eexists. split; [done|]. eapply readMQTTLenString_denotes; [lia|done].
  - unfold readMQTTLenString. case_test; [|by do 2 eexists]. unfold string_bytes in Hs. rewrite <- app_assoc in Hs.
    apply readInt_suffix in Hs as [-> _]; [|lia]. cbn [mbind res_bind].
    rewrite (proj2 (Z.leb_gt _ e)) by lia. by do 2 eexists.
Qed.

Lemma string_round_trip_witness :
  denotes (MkStr (Some [97; 98; 0]) 0 None) [97; 98] /\
  exists t, readMQTTLenString MQTTString_initializer ([] ++ string_bytes [97; 98] ++ [5]) 0 4 = Ok (1, t, 4) /\
    denotes t [97; 98].
Proof.
  assert (denotes (MkStr (Some ([97; 98] ++ 0 :: [])) 0 None) [97; 98]) as Hd.
  { apply denotes_cstring; [by vm_compute|done|]. repeat constructor; done. }
  split; [exact Hd|].
  destruct (string_round_trip (replicate 10 0) [] [97; 98] [5] _ MQTTString_initializer 4 Hd ltac:(by vm_compute))
    as (_ & _ & E). exact E.
Defined.

(** ** Packets from a transport *)
Section read_packet.
  Context {S : Type} (getfn : S -> Z -> res (S * Z * list Z)) (holds : S -> list Z -> Prop).

  (** The transport is a byte stream: asked for [n] bytes it stores the next
      [n] bytes and returns [n]. *)
Definition is_stream : Prop := forall s l r, holds s (l ++ r) ->
    exists s', getfn s (Zlen l) = Ok (s', Zlen l, l) /\ holds s' r.

Lemma get_one_stream s c r : is_stream -> holds s (c :: r) ->
  exists s', get_one getfn s = Ok (s', 1, c) /\ holds s' r.
Proof.
  intros Hg Hs. destruct (Hg s [c] r Hs) as (s' & E & Hr). exists s'. unfold get_one.
  change (Zlen [c]) with 1 in E. by rewrite E.
Qed.

Lemma get_into_stream s l r buf m : is_stream -> holds s (m ++ r) -> Zlen l + Zlen m <= Zlen buf ->
  exists s', get_into getfn (wr buf l).1 (Zlen l) s (Zlen m) = Ok (s', Zlen m, (wr buf (l ++ m)).1) /\ holds s' r.
Proof.
  intros Hg Hs Hl. destruct (Hg s m r Hs) as (s' & E & Hr). exists s'. split; [|done].
  unfold get_into. rewrite E. cbn [mbind res_bind].
  pose proof (write_bytes_wr buf l m Hl) as Ew. unfold wr in Ew |- *. cbn [fst snd]. by rewrite Ew.
Qed.

(** Reading from a byte stream that starts with a packet stores
    exactly that packet in the buffer, returns its type and leaves the rest
    of the stream; a packet longer than the buffer is rejected after its
    length field, and nothing is written outside the buffer. *)
Theorem MQTTPacket_read_stream (s : S) (buf body rest : list Z) (h buflen : Z) :
  is_stream -> holds s (packet h body ++ rest) -> 0 <= h < 256 -> Zlen body < max_body ->
  buflen <= Zlen buf -> 5 <= Zlen buf ->
  if Zlen (packet h body) <=? buflen then
    exists s', MQTTPacket_read getfn s buf buflen = Ok (s', overwrite buf 0 (packet h body), header_type h) /\
      holds s' rest
  else exists s' buf', MQTTPacket_read getfn s buf buflen = Ok (s', buf', -1) /\ Zlen buf' = Zlen buf.
Proof.
  intros Hg Hs Hh Hb Hle H5. unfold packet in *. cbn [app] in Hs. rewrite <- app_assoc in Hs.
  pose proof (Zlen_nonneg body) as Hb0. pose proof (Zlen_remlen (Zlen body)) as Er.
  assert (1 <= Zlen (remlen_bytes (Zlen body)) <= 4) by (rewrite Er; repeat case_test; lia).
  destruct (get_into_stream s [] _ buf [h] Hg Hs) as (s1 & E1 & H1); [zlen; lia|].
  unfold MQTTPacket_read. unfold wr in E1. cbn [fst snd app] in E1. rewrite overwrite_nil in E1.
  change (Zlen (@nil Z)) with 0 in E1. change (Zlen [h]) with 1 in E1. rewrite E1. cbn [mbind res_bind negb Z.eqb Pos.eqb].
  destruct (MQTTPacket_decode_remlen (get_one getfn) holds s1 (Zlen body) (body ++ rest)) as (s2 & -> & H2);
    [intros; by apply get_one_stream|lia|done|]. cbn [mbind res_bind].
  pose proof (write_length_wr buf [h] (Zlen body)) as Ew. unfold write_length, wr in Ew. cbn [fst snd] in Ew.
  change (Zlen [h]) with 1 in Ew.
  destruct (MQTTPacket_encode (overwrite buf 0 [h]) 1 (Zlen body)) as [[buf2 k]|]; cbn [mbind res_bind] in Ew;
    [|by specialize (Ew ltac:(lia) ltac:(lia))].
  injection (Ew ltac:(lia) ltac:(lia)) as -> Ek. clear Ew. cbn [app] in Ek. rewrite Zlen_cons in Ek.
  cbn [mbind res_bind]. rewrite Zlen_cons, Zlen_app.
  destruct (Z.leb_spec (1 + (Zlen (remlen_bytes (Zlen body)) + Zlen body)) buflen).
  - rewrite (proj2 (Z.ltb_ge buflen _)) by lia.
    destruct (get_into_stream s2 ([h] ++ remlen_bytes (Zlen body)) rest buf body Hg H2) as (s3 & E3 & H3); [zlen; lia|].
    unfold wr in E3. cbn [fst snd app] in E3. rewrite Zlen_cons, <- Ek in E3. rewrite E3. cbn [mbind res_bind].
    rewrite Z.eqb_refl. cbn [negb].
    rewrite (proj2 (bget_Ok _ 0 h)) by done. cbn [mbind res_bind]. by exists s3.
  - rewrite (proj2 (Z.ltb_lt buflen _)) by lia. do 2 eexists. split; [done|].
    rewrite Zlen_overwrite; [done|lia|zlen; lia].
Qed.
End read_packet.

(** A list of bytes as a stream. *)
Definition list_stream (l : list Z) (n : Z) : res (list Z * Z * list Z) :=
  Ok (drop (Z.to_nat n) l, Z.min n (Zlen l), take (Z.to_nat n) l).
Lemma list_stream_is_stream : is_stream list_stream eq.
Proof.
  intros s l r ->. exists r. unfold list_stream. rewrite Zlen_to_nat, drop_app_length, take_app_length, Zlen_app.
  split; [|done]. do 3 f_equal. pose proof (Zlen_nonneg r). lia.
Qed.

Lemma MQTTPacket_read_stream_witness :
  is_stream list_stream eq /\
  exists s', MQTTPacket_read list_stream [48; 3; 0; 1; 97; 9] (replicate 8 0) 8
    = Ok (s', [48; 3; 0; 1; 97; 0; 0; 0], 3) /\ s' = [9].
Proof.
  split; [apply list_stream_is_stream|].
  destruct (MQTTPacket_read_stream list_stream eq [48; 3; 0; 1; 97; 9] (replicate 8 0) [0; 1; 97] [9] 48 8
    list_stream_is_stream ltac:(by vm_compute) ltac:(lia) ltac:(by vm_compute) ltac:(by vm_compute) ltac:(by vm_compute))
    as (s' & E & Es).
  exists s'. split; [exact E|exact Es].
Defined.

Lemma decodenb_empty {S} (getfn : S -> Z -> res (S * Z * list Z)) fuel (s : S) m n l st :
  getfn s 1 = Ok (s, 0, []) ->
  decodenb_loop getfn (Datatypes.S fuel) (MkTrp s m n l st) =
  Ok (MkTrp s m n (l + 1) st, if 4 <? l + 1 then MQTTPACKET_READ_ERROR else 0).
Proof.
  intros E. cbn [decodenb_loop trp_len sck multiplier rem_len state].
  case_test; [done|]. unfold get_one. by rewrite E.
Qed.

(** The non-blocking reader cannot finish a packet without a body: in
    state 2 with nothing left it asks the transport for 0 bytes and takes
    the answer 0 as "call again", for ever. The length field is lost too
    when the transport has no data: each empty poll is counted as one of its
    four bytes, and the fifth poll is an error. *)
Theorem readnb_defects {S} (getfn : S -> Z -> res (S * Z * list Z)) (s : S) (buf : list Z) (buflen m n l : Z) :
  0 <= l <= Zlen buf ->
  (getfn s 0 = Ok (s, 0, []) ->
   MQTTPacket_readnb getfn buf buflen (MkTrp s m 0 l 2) = Ok (MkTrp s m 0 l 2, buf, 0)) /\
  (getfn s 1 = Ok (s, 0, []) -> 1 <= l ->
   (l < 4 -> MQTTPacket_readnb getfn buf buflen (MkTrp s m n l 1) = Ok (MkTrp s m n (l + 1) 1, buf, 0)) /\
   (4 <= l -> exists t, MQTTPacket_readnb getfn buf buflen (MkTrp s m n l 1) = Ok (t, buf, -1))).
Proof.
  intros Hl. split.
  - intros E. unfold MQTTPacket_readnb, readnb_rest, get_into. cbn [state trp_len sck rem_len Z.eqb Pos.eqb]. rewrite E.
    cbn [mbind res_bind]. unfold write_bytes. cbn [fst snd]. change (Zlen (@nil Z)) with 0.
    rewrite (proj2 (Z.leb_le 0 l)), (proj2 (Z.leb_le (l + 0) (Zlen buf))) by lia.
    cbn. unfold overwrite; cbn. by rewrite Nat.add_0_r, take_drop.
  - intros E H1. unfold MQTTPacket_readnb, readnb_length, MQTTPacket_decodenb.
    cbn [state trp_len Z.eqb Pos.eqb]. rewrite (proj2 (Z.eqb_neq l 0)) by lia.
    rewrite decodenb_empty by done. cbn [mbind res_bind]. case_test; (split; intros; [try lia|try lia]).
    + by eexists.
    + done.
Qed.

Lemma readnb_defects_witness :
  MQTTPacket_readnb list_stream (replicate 8 0) 8 (MkTrp [] 1 0 2 2) = Ok (MkTrp [] 1 0 2 2, replicate 8 0, 0).
Proof. apply (readnb_defects list_stream [] (replicate 8 0) 8 1 0 2); [by vm_compute|done]. Defined.
