(* ===== verification/MqttPublish.v ===== *)
(** PUBLISH and the acknowledgements,
    src/src/mqtt/MQTTPacket/src/MQTTSerializePublish.c and
    MQTTDeserializePublish.c. *)
From S2P Require Import Prelude MqttPacket.

(** ** Operations

    A serializer returns the buffer and its return value; [buflen] is the
    length it is told, which need not be that of the array. *)
Definition MQTTSerialize_publishLength (qos : Z) (topicName : MQTTString) (payloadlen : Z) : res Z :=
  n ← MQTTstrlen topicName;
  let len := 2 + n + payloadlen in
  Ok (if 0 <? qos then len + 2 else len).

Definition MQTTSerialize_publish (buf : list Z) (buflen dup qos retained packetid : Z)
    (topicName : MQTTString) (payload : ptr) (payloadlen : Z) : res (list Z * Z) :=
  rem_len ← MQTTSerialize_publishLength qos topicName payloadlen;
  if buflen <? MQTTPacket_len rem_len then Ok (buf, MQTTPACKET_BUFFER_TOO_SHORT) else
  w ← writeChar (buf, 0) (header_byte PUBLISH dup qos retained);
  w ← write_length w rem_len;
  w ← writeMQTTString w topicName;
  w ← (if 0 <? qos then writeInt w packetid else Ok w);
  memcpy_from w payload payloadlen.

Definition MQTTSerialize_ack (buf : list Z) (buflen packettype dup packetid : Z) : res (list Z * Z) :=
  if buflen <? 4 then Ok (buf, MQTTPACKET_BUFFER_TOO_SHORT) else
  w ← writeChar (buf, 0) (header_byte packettype dup (if packettype =? PUBREL then 1 else 0) 0);
  w ← write_length w 2;
  writeInt w packetid.
Definition MQTTSerialize_puback (buf : list Z) (buflen packetid : Z) := MQTTSerialize_ack buf buflen PUBACK 0 packetid.
Definition MQTTSerialize_pubrel (buf : list Z) (buflen dup packetid : Z) := MQTTSerialize_ack buf buflen PUBREL dup packetid.
Definition MQTTSerialize_pubcomp (buf : list Z) (buflen packetid : Z) := MQTTSerialize_ack buf buflen PUBCOMP 0 packetid.

(** The objects behind the output pointers of the deserializers. *)
Record publish_out := MkPub {
  pub_dup : Z;
  pub_qos : Z;
  pub_retained : Z;
  pub_packetid : Z;
  pub_topicName : MQTTString;
  pub_payload : ptr;
  pub_payloadlen : Z
}.
Record ack_out := MkAck { ack_packettype : Z; ack_dup : Z; ack_packetid : Z }.

Definition MQTTDeserialize_publish (o : publish_out) (buf : list Z) : res (publish_out * Z) :=
  '(header, p) ← read_header buf;
  if negb (header_type header =? PUBLISH) then Ok (o, 0) else
  let o := MkPub (header_dup header) (header_qos header) (header_retain header)
             (pub_packetid o) (pub_topicName o) (pub_payload o) (pub_payloadlen o) in
  '(rc, mylen) ← MQTTPacket_decodeBuf buf p;
  let p := p + rc in
  let enddata := p + mylen in
  '(ok, t, p) ← readMQTTLenString (pub_topicName o) buf p enddata;
  let o := MkPub (pub_dup o) (pub_qos o) (pub_retained o) (pub_packetid o) t (pub_payload o) (pub_payloadlen o) in
  if negb (ctrue ok) || (enddata - p <? 0) then Ok (o, rc) else
  '(id, p) ← (if 0 <? pub_qos o then readInt buf p else Ok (pub_packetid o, p));
  Ok (MkPub (pub_dup o) (pub_qos o) (pub_retained o) id t (Some (buf, p)) (enddata - p), 1).

Definition MQTTDeserialize_ack (o : ack_out) (buf : list Z) : res (ack_out * Z) :=
  '(header, p) ← read_header buf;
  let o := MkAck (header_type header) (header_dup header) (ack_packetid o) in
  '(rc, mylen) ← MQTTPacket_decodeBuf buf p;
  let p := p + rc in
  let enddata := p + mylen in
  if enddata - p <? 2 then Ok (o, rc) else
  '(id, _) ← readInt buf p;
  Ok (MkAck (ack_packettype o) (ack_dup o) id, 1).

(** ** The packets on the wire *)
Definition publish_body (qos id : Z) (topic payload : list Z) : list Z :=
  string_bytes topic ++ (if 0 <? qos then int_bytes id else []) ++ payload.
Definition publish_bytes (dup qos retained id : Z) (topic payload : list Z) : list Z :=
  packet (header_byte PUBLISH dup qos retained) (publish_body qos id topic payload).
Definition ack_bytes (type dup id : Z) : list Z :=
  packet (header_byte type dup (if type =? PUBREL then 1 else 0) 0) (int_bytes id).

Lemma Zlen_publish_body qos id topic payload :
  Zlen (publish_body qos id topic payload) = 2 + Zlen topic + Zlen payload + (if 0 <? qos then 2 else 0).
Proof. unfold publish_body. rewrite !Zlen_app, Zlen_string_bytes. case_test; [rewrite Zlen_int_bytes|zlen]; lia. Qed.


(** ** Theorems *)

Lemma publish_serialize_eq (buf : list Z) (buflen dup qos retained id : Z)
    (s : MQTTString) (topic : list Z) (pb : list Z) (po : Z) (pl r : list Z) :
  denotes s topic -> suffix pb po (pl ++ r) -> is_u16 id -> buflen <= Zlen buf ->
  Zlen (publish_body qos id topic pl) < max_body ->
  MQTTSerialize_publish buf buflen dup qos retained id s (Some (pb, po)) (Zlen pl) =
    if buflen <? MQTTPacket_len (Zlen (publish_body qos id topic pl)) then Ok (buf, -2)
    else Ok (overwrite buf 0 (publish_bytes dup qos retained id topic pl),
             Zlen (publish_bytes dup qos retained id topic pl)).
Proof.
  intros Hs Hp Hid Hle Hmax. pose proof (denotes_len _ _ Hs). pose proof (Zlen_nonneg pl).
  unfold MQTTSerialize_publish, MQTTSerialize_publishLength. rewrite (MQTTstrlen_denotes _ _ Hs). cbn [mbind res_bind].
  assert ((if 0 <? qos then 2 + Zlen topic + Zlen pl + 2 else 2 + Zlen topic + Zlen pl)
    = Zlen (publish_body qos id topic pl)) as -> by (rewrite Zlen_publish_body; case_test; lia).
  set (body := publish_body qos id topic pl) in *. case_test; [done|].
  pose proof (MQTTPacket_len_ge (Zlen body)). pose proof (Zlen_nonneg body).
  pose proof (Zlen_publish_body qos id topic pl) as Eb. fold body in Eb.
  pose proof (write_packet_start buf (header_byte PUBLISH dup qos retained) (Zlen body) (header_byte_range _ _ _ _)) as Ew.
  destruct (writeChar (buf, 0) _) as [w|]; [|by specialize (Ew ltac:(lia) ltac:(lia))].
  cbn [mbind res_bind] in Ew |- *. rewrite Ew by lia. cbn [mbind res_bind]. clear Ew.
  assert (0 <= (if 0 <? qos then 2 else 0)) by (case_test; lia).
  rewrite (writeMQTTString_wr _ _ _ topic) by (try done; zlen; lia). cbn [mbind res_bind].
  set (hd := _ :: remlen_bytes (Zlen body)). assert (Zlen hd = 1 + Zlen (remlen_bytes (Zlen body))) by apply Zlen_cons.
  assert ((if 0 <? qos then writeInt (wr buf (hd ++ string_bytes topic)) id else Ok (wr buf (hd ++ string_bytes topic)))
    = Ok (wr buf ((hd ++ string_bytes topic) ++ if 0 <? qos then int_bytes id else []))) as ->.
  { destruct (0 <? qos); [|by rewrite app_nil_r]. apply writeInt_wr; [done|zlen; lia]. }
  cbn [mbind res_bind]. rewrite (memcpy_wr _ _ _ _ _ r); [|done|zlen; destruct (0 <? qos); zlen; lia].
  unfold publish_bytes, packet. fold body. unfold wr. subst hd. unfold body at 2 4 6, publish_body.
  by rewrite <- !app_assoc, <- !app_comm_cons.
Qed.

(** A publish whose length estimate exceeds [buflen] is refused and the
    buffer left alone; otherwise exactly the packet of the MQTT wire format
    is written at the start of the buffer, inside it, and its length
    returned. *)
Theorem publish_serialize (buf : list Z) (buflen dup qos retained id : Z)
    (s : MQTTString) (topic : list Z) (pb : list Z) (po : Z) (pl r : list Z) :
  denotes s topic -> suffix pb po (pl ++ r) -> is_u16 id -> buflen <= Zlen buf ->
  Zlen (publish_body qos id topic pl) < max_body ->
  MQTTSerialize_publish buf buflen dup qos retained id s (Some (pb, po)) (Zlen pl) =
    if buflen <? MQTTPacket_len (Zlen (publish_body qos id topic pl)) then Ok (buf, -2)
    else Ok (overwrite buf 0 (publish_bytes dup qos retained id topic pl),
             Zlen (publish_bytes dup qos retained id topic pl)).
Proof. apply publish_serialize_eq. Qed.

Lemma publish_serialize_witness :
  (denotes (MkStr (Some ([97] ++ 0 :: [])) 0 None) [97] /\ is_u16 7) /\
  MQTTSerialize_publish (replicate 12 9) 12 0 1 0 7 (MkStr (Some ([97] ++ 0 :: [])) 0 None) (Some ([1; 2], 0)) 2
  = Ok ([50; 7; 0; 1; 97; 0; 7; 1; 2; 9; 9; 9], 9).
Proof.
  assert (denotes (MkStr (Some ([97] ++ 0 :: [])) 0 None) [97]) as Hd.
  { apply denotes_cstring; [by vm_compute|done|]. repeat constructor; done. }
  split; [split; [exact Hd|by vm_compute]|].
  etransitivity; [apply (publish_serialize (replicate 12 9) 12 0 1 0 7 _ [97] [1; 2] 0 [1; 2] [] Hd); by vm_compute|].
  by vm_compute.
Defined.

Lemma deserialize_publish_eq (o : publish_out) (dup qos retained id : Z) (topic pl rest : list Z) :
  0 <= dup < 2 -> 0 <= qos < 4 -> 0 <= retained < 2 -> is_u16 id -> Zlen topic < 65536 ->
  Zlen (publish_body qos id topic pl) < max_body ->
  exists o', MQTTDeserialize_publish o (publish_bytes dup qos retained id topic pl ++ rest) = Ok (o', 1) /\
    (pub_dup o', pub_qos o', pub_retained o') = (dup, qos, retained) /\
    pub_packetid o' = (if 0 <? qos then id else pub_packetid o) /\
    (exists b p r, pub_topicName o' = MkStr None (Zlen topic) (Some (b, p)) /\ suffix b p (topic ++ r)) /\ pub_payloadlen o' = Zlen pl /\
    (exists b p, pub_payload o' = Some (b, p) /\ suffix b p (pl ++ rest)).
Proof.
  intros Hd Hq Hr Hid Ht Hmax. unfold publish_bytes. set (h := header_byte PUBLISH dup qos retained).
  pose proof (header_byte_range PUBLISH dup qos retained) as Hh. fold h in Hh.
  destruct (header_fields PUBLISH dup qos retained) as (Et & Ed & Eq & Er). fold h in Et, Ed, Eq, Er.
  rewrite Z.mod_small in Ed, Eq, Er by lia. change (PUBLISH mod 16) with PUBLISH in Et.
  set (body := publish_body qos id topic pl) in *.
  destruct (packet_suffix h body rest Hmax) as [El Hs]. unfold MQTTDeserialize_publish.
  assert (read_header (packet h body ++ rest) = Ok (h, 1)) as -> by (by apply read_header_packet).
  cbn [mbind res_bind]. rewrite Et, Ed, Eq, Er. change (negb (PUBLISH =? PUBLISH)) with false. cbv iota beta. cbn [mbind res_bind].
  rewrite El. cbn [mbind res_bind pub_dup pub_qos pub_retained pub_packetid pub_payload pub_payloadlen pub_topicName].
  set (b := packet h body ++ rest) in *.
  set (p0 := 1 + Zlen (remlen_bytes (Zlen body))) in *.
  pose proof (Zlen_publish_body qos id topic pl) as Eb. fold body in Eb. pose proof (Zlen_nonneg pl).
  unfold body at 1, publish_body in Hs. rewrite <- !app_assoc in Hs.
  destruct (readMQTTLenString_suffix (pub_topicName o) b p0 (p0 + Zlen body) topic _ Hs) as (q & -> & Eq' & Hs1 & Hs2).
  { destruct (0 <? qos); lia. }
  cbn [mbind res_bind]. cbn [pub_dup pub_qos pub_retained pub_packetid pub_payload pub_payloadlen].
  change (negb (ctrue 1)) with false. cbn [orb].
  rewrite (proj2 (Z.ltb_ge (p0 + Zlen body - q) 0)) by (destruct (0 <? qos); lia).
  assert (exists q' id', (if 0 <? qos then readInt b q else Ok (pub_packetid o, q)) = Ok (id', q') /\
    id' = (if 0 <? qos then id else pub_packetid o) /\ q' = q + (if 0 <? qos then 2 else 0) /\
    suffix b q' (pl ++ rest)) as (q' & id' & -> & -> & Eq2 & Hs3).
  { destruct (0 <? qos).
    - apply readInt_suffix in Hs2 as [E' Hs2]; [|apply Hid]. rewrite E'. by do 2 eexists.
    - do 2 eexists. split_and!; try done; lia. }
  cbn [mbind res_bind]. eexists. split; [done|].
  cbn [pub_dup pub_qos pub_retained pub_packetid pub_payload pub_payloadlen pub_topicName].
  split_and!; try done.
  - by do 3 eexists.
  - lia.
  - by exists b, q'.
Qed.

(** C6: A publish packet, whatever follows it in the buffer, is parsed back
    to its flags, topic, packet identifier and payload; the identifier object
    is untouched for QoS 0. *)
Theorem publish_round_trip (o : publish_out) (dup qos retained id : Z) (topic pl rest : list Z) :
  0 <= dup < 2 -> 0 <= qos < 4 -> 0 <= retained < 2 -> is_u16 id -> Zlen topic < 65536 ->
  Zlen (publish_body qos id topic pl) < max_body ->
  exists o', MQTTDeserialize_publish o (publish_bytes dup qos retained id topic pl ++ rest) = Ok (o', 1) /\
    (pub_dup o', pub_qos o', pub_retained o') = (dup, qos, retained) /\
    pub_packetid o' = (if 0 <? qos then id else pub_packetid o) /\
    denotes (pub_topicName o') topic /\ pub_payloadlen o' = Zlen pl /\
    (exists b p, pub_payload o' = Some (b, p) /\ suffix b p (pl ++ rest)).
Proof.
  intros Hd Hq Hr Hid Ht Hmax.
  destruct (deserialize_publish_eq o dup qos retained id topic pl rest Hd Hq Hr Hid Ht Hmax) as (o' & E & H1 & H2 & (b & p & r & Et & Hs) & H4 & H5).
  exists o'. split_and!; try done. rewrite Et. by eapply readMQTTLenString_denotes.
Qed.

(** The objects behind the outputs before a call. *)
Definition publish_out_init : publish_out := MkPub 0 0 0 0 MQTTString_initializer None 0.

Lemma publish_round_trip_witness :
  (is_u16 7 /\ Zlen [97] < 65536) /\
  exists o', MQTTDeserialize_publish publish_out_init (publish_bytes 1 2 0 7 [97] [1; 2] ++ [0; 0]) = Ok (o', 1) /\
    pub_packetid o' = 7.
Proof.
  split; [by vm_compute|].
  destruct (publish_round_trip publish_out_init 1 2 0 7 [97] [1; 2] [0; 0] ltac:(lia) ltac:(lia) ltac:(lia)
    ltac:(by vm_compute) ltac:(by vm_compute) ltac:(by vm_compute)) as (o' & E & _ & Ei & _).
  exists o'. split; [exact E|exact Ei].
Defined.

Lemma ack_eq (buf rest : list Z) (buflen type dup id : Z) (o : ack_out) :
  0 <= type < 16 -> 0 <= dup < 2 -> is_u16 id -> buflen <= Zlen buf ->
  MQTTSerialize_ack buf buflen type dup id =
    (if buflen <? 4 then Ok (buf, -2) else Ok (overwrite buf 0 (ack_bytes type dup id), 4)) /\
  MQTTDeserialize_ack o (ack_bytes type dup id ++ rest) = Ok (MkAck type dup id, 1).
Proof.
  intros Ht Hd Hid Hle. split.
  - unfold MQTTSerialize_ack. case_test; [done|]. set (q := if type =? PUBREL then 1 else 0).
    pose proof (write_packet_start buf (header_byte type dup q 0) 2 (header_byte_range _ _ _ _)) as Ew.
    change (Zlen (remlen_bytes 2)) with 1 in Ew.
    destruct (writeChar (buf, 0) _) as [w|]; [|by specialize (Ew ltac:(by vm_compute) ltac:(lia))].
    cbn [mbind res_bind] in Ew |- *. rewrite Ew by (first [by vm_compute|lia]). cbn [mbind res_bind].
    rewrite writeInt_wr by (try done; zlen; change (Zlen (remlen_bytes 2)) with 1; lia). done.
  - unfold ack_bytes. set (h := header_byte type dup _ 0).
    pose proof (header_byte_range type dup (if type =? PUBREL then 1 else 0) 0) as Hh. fold h in Hh.
    destruct (header_fields type dup (if type =? PUBREL then 1 else 0) 0) as (Et & Ed & _). fold h in Et, Ed.
    rewrite Z.mod_small in Et, Ed by lia.
    destruct (packet_suffix h (int_bytes id) rest) as [El Hs]; [by vm_compute|]. unfold MQTTDeserialize_ack.
    assert (read_header (packet h (int_bytes id) ++ rest) = Ok (h, 1)) as -> by (by apply read_header_packet).
    cbn [mbind res_bind]. rewrite El. cbn [mbind res_bind]. change (Zlen (int_bytes id)) with 2 in *.
    rewrite (proj2 (Z.ltb_ge _ 2)) by lia. apply readInt_suffix in Hs as [-> _]; [|apply Hid].
    cbn. by rewrite Et, Ed.
Qed.

(** An acknowledgement needs four bytes and is refused below; it is
    written as its four bytes and parsed back to its type, dup flag and
    identifier. *)
Theorem ack_round_trip (buf rest : list Z) (buflen type dup id : Z) (o : ack_out) :
  0 <= type < 16 -> 0 <= dup < 2 -> is_u16 id -> buflen <= Zlen buf ->
  MQTTSerialize_ack buf buflen type dup id =
    (if buflen <? 4 then Ok (buf, -2) else Ok (overwrite buf 0 (ack_bytes type dup id), 4)) /\
  MQTTDeserialize_ack o (ack_bytes type dup id ++ rest) = Ok (MkAck type dup id, 1).
Proof. apply ack_eq. Qed.

Lemma ack_round_trip_witness :
  is_u16 513 /\ MQTTDeserialize_ack (MkAck 0 0 0) ([98; 2; 2; 1] ++ []) = Ok (MkAck 6 0 513, 1).
Proof.
  split; [by vm_compute|].
  exact (proj2 (ack_round_trip (replicate 4 0) [] 4 6 0 513 (MkAck 0 0 0) ltac:(lia) ltac:(lia) ltac:(by vm_compute) ltac:(by vm_compute))).
Defined.

(** The parsers report success for packets that are too short: with a
    body below 128 bytes their return value is the 1 that counts the length
    bytes. So an acknowledgement without an identifier, and a publish whose
    topic runs beyond the packet, return 1 with the outputs not set. *)
Theorem short_packet_reported_as_success (h : Z) (o : ack_out) (q : publish_out) (n : Z) (rest : list Z) :
  0 <= h < 256 -> header_type h = PUBLISH -> 0 <= n < 128 ->
  (n < 2 -> MQTTDeserialize_ack o (h :: n :: rest) = Ok (MkAck PUBLISH (header_dup h) (ack_packetid o), 1)) /\
  (forall k m rest', rest = int_bytes k ++ rest' -> n = 2 + m -> 0 <= m < k ->
   exists q', MQTTDeserialize_publish q (h :: n :: rest) = Ok (q', 1) /\
     pub_payload q' = pub_payload q /\ data (pub_topicName q') = data (pub_topicName q)).
Proof.
  intros Hh Ht Hn.
  assert (MQTTPacket_decodeBuf (h :: n :: rest) 1 = Ok (1, n)) as El.
  { assert (remlen_bytes n = [n]) as E by (unfold remlen_bytes; by rewrite (proj2 (Z.ltb_lt n 128)) by lia).
    rewrite (decodeBuf_remlen _ 1 n rest); [by rewrite E|by unfold max_body; lia|].
    rewrite E. apply (suffix_app _ 0 [h]); [apply suffix_start|done]. }
  split.
  - intros H2. unfold MQTTDeserialize_ack. rewrite read_header_packet by done. cbn [mbind res_bind].
    rewrite El. cbn [mbind res_bind]. rewrite (proj2 (Z.ltb_lt _ 2)) by lia. by rewrite Ht.
  - intros k m rest' -> -> Hm. unfold MQTTDeserialize_publish. rewrite read_header_packet by done.
    cbn [mbind res_bind]. rewrite Ht. change (negb (PUBLISH =? PUBLISH)) with false. cbv iota.
    rewrite El. cbn [mbind res_bind]. unfold readMQTTLenString. change (1 + 1) with 2.
    replace (2 + (2 + m) - 2) with (2 + m) by lia. rewrite (proj2 (Z.ltb_lt 1 (2 + m))) by lia.
    assert (suffix (h :: 2 + m :: int_bytes k ++ rest') 2 (int_bytes k ++ rest')) as Hs.
    { apply (suffix_app _ 0 [h; 2 + m]); [apply suffix_start|done]. }
    apply readInt_suffix in Hs as [-> _]; [|lia]. cbn [mbind res_bind].
    rewrite (proj2 (Z.leb_gt _ (2 + (2 + m)))) by lia. by eexists.
Qed.

Lemma short_packet_reported_as_success_witness :
  header_type 64 = PUBACK /\ header_type 48 = PUBLISH /\
  MQTTDeserialize_ack (MkAck 9 9 9) [48; 0] = Ok (MkAck 3 0 9, 1).
Proof.
  split; [done|]. split; [done|].
  apply (short_packet_reported_as_success 48 (MkAck 9 9 9) publish_out_init 0 []); try done; lia.
Defined.
