(* ===== verification/MqttSubscribe.v ===== *)
(** SUBSCRIBE, SUBACK, UNSUBSCRIBE and UNSUBACK,
    src/src/mqtt/MQTTPacket/src/MQTTSubscribeClient.c, MQTTSubscribeServer.c,
    MQTTUnsubscribeClient.c and MQTTUnsubscribeServer.c. *)
From S2P Require Import Prelude MqttPacket MqttPublish.

(** ** Operations

    [topicFilters], [requestedQoSs] and [grantedQoSs] are the caller's
    arrays. *)
Fixpoint subscribeLength_loop (n : nat) (topicFilters : list MQTTString) (extra i len : Z) : res Z :=
  match n with
  | O => Ok len
  | S n => t ← bget topicFilters i; k ← MQTTstrlen t;
           subscribeLength_loop n topicFilters extra (i + 1) (len + 2 + k + extra)
  end.
Definition MQTTSerialize_subscribeLength (count : Z) (topicFilters : list MQTTString) : res Z :=
  subscribeLength_loop (Z.to_nat count) topicFilters 1 0 2.
Definition MQTTSerialize_unsubscribeLength (count : Z) (topicFilters : list MQTTString) : res Z :=
  subscribeLength_loop (Z.to_nat count) topicFilters 0 0 2.

Fixpoint subscribe_loop (n : nat) (w : writer) (topicFilters : list MQTTString) (requestedQoSs : list Z) (i : Z) : res writer :=
  match n with
  | O => Ok w
  | S n =>
    t ← bget topicFilters i; w ← writeMQTTString w t;
    q ← bget requestedQoSs i; w ← writeChar w q;
    subscribe_loop n w topicFilters requestedQoSs (i + 1)
  end.
Definition MQTTSerialize_subscribe (buf : list Z) (buflen dup packetid count : Z)
    (topicFilters : list MQTTString) (requestedQoSs : list Z) : res (list Z * Z) :=
  rem_len ← MQTTSerialize_subscribeLength count topicFilters;
  if buflen <? MQTTPacket_len rem_len then Ok (buf, MQTTPACKET_BUFFER_TOO_SHORT) else
  w ← writeChar (buf, 0) (header_byte SUBSCRIBE dup 1 0);
  w ← write_length w rem_len;
  w ← writeInt w packetid;
  subscribe_loop (Z.to_nat count) w topicFilters requestedQoSs 0.

Fixpoint unsubscribe_loop (n : nat) (w : writer) (topicFilters : list MQTTString) (i : Z) : res writer :=
  match n with
  | O => Ok w
  | S n => t ← bget topicFilters i; w ← writeMQTTString w t; unsubscribe_loop n w topicFilters (i + 1)
  end.
Definition MQTTSerialize_unsubscribe (buf : list Z) (buflen dup packetid count : Z)
    (topicFilters : list MQTTString) : res (list Z * Z) :=
  rem_len ← MQTTSerialize_unsubscribeLength count topicFilters;
  if buflen <? MQTTPacket_len rem_len then Ok (buf, MQTTPACKET_BUFFER_TOO_SHORT) else
  w ← writeChar (buf, 0) (header_byte UNSUBSCRIBE dup 1 0);
  w ← write_length w rem_len;
  w ← writeInt w packetid;
  unsubscribe_loop (Z.to_nat count) w topicFilters 0.

Fixpoint write_chars (n : nat) (w : writer) (a : list Z) (i : Z) : res writer :=
  match n with
  | O => Ok w
  | S n => c ← bget a i; w ← writeChar w c; write_chars n w a (i + 1)
  end.
Definition MQTTSerialize_suback (buf : list Z) (buflen packetid count : Z) (grantedQoSs : list Z) : res (list Z * Z) :=
  if buflen <? 2 + count then Ok (buf, MQTTPACKET_BUFFER_TOO_SHORT) else
  w ← writeChar (buf, 0) (header_byte SUBACK 0 0 0);
  w ← write_length w (2 + count);
  w ← writeInt w packetid;
  write_chars (Z.to_nat count) w grantedQoSs 0.

Definition MQTTSerialize_unsuback (buf : list Z) (buflen packetid : Z) : res (list Z * Z) :=
  if buflen <? 2 then Ok (buf, MQTTPACKET_BUFFER_TOO_SHORT) else
  w ← writeChar (buf, 0) (header_byte UNSUBACK 0 0 0);
  w ← write_length w 2;
  writeInt w packetid.

(** Outputs of the deserializers. *)
Record subscribe_out := MkSub {
  sub_dup : Z; sub_packetid : Z; sub_count : Z;
  sub_topicFilters : list MQTTString; sub_requestedQoSs : list Z
}.
Record suback_out := MkSuback { sa_packetid : Z; sa_count : Z; sa_grantedQoSs : list Z }.

(** The loops stop at [enddata]; each step moves the read pointer, so the
    fuel is the number of bytes left. *)
Fixpoint read_qos_loop (fuel : nat) (maxcount : Z) (o : suback_out) (buf : list Z) (p enddata : Z)
    : res (suback_out * option Z) :=
  match fuel with
  | O => Err NoFuel
  | S fuel =>
    if p <? enddata then
      if maxcount <? sa_count o then Ok (o, Some (-1)) else
      '(c, p) ← readChar buf p;
      a ← bset (sa_grantedQoSs o) (sa_count o) c;
      read_qos_loop fuel maxcount (MkSuback (sa_packetid o) (sa_count o + 1) a) buf p enddata
    else Ok (o, None)
  end.
Definition MQTTDeserialize_suback (o : suback_out) (maxcount : Z) (buf : list Z) : res (suback_out * Z) :=
  '(header, p) ← read_header buf;
  if negb (header_type header =? SUBACK) then Ok (o, 0) else
  '(rc, mylen) ← MQTTPacket_decodeBuf buf p;
  let p := p + rc in
  let enddata := p + mylen in
  if enddata - p <? 2 then Ok (o, rc) else
  '(id, p) ← readInt buf p;
  '(o, e) ← read_qos_loop (S (Z.to_nat (enddata - p))) maxcount (MkSuback id 0 (sa_grantedQoSs o)) buf p enddata;
  Ok (o, default 1 e).

(** [None] when the loop ran to the end, [Some] at a [goto exit]. *)
Fixpoint read_topics_loop (fuel : nat) (with_qos : bool) (o : subscribe_out) (buf : list Z) (p enddata : Z)
    : res (subscribe_out * bool) :=
  match fuel with
  | O => Err NoFuel
  | S fuel =>
    if p <? enddata then
      t0 ← bget (sub_topicFilters o) (sub_count o);
      '(ok, t, p) ← readMQTTLenString t0 buf p enddata;
      ts ← bset (sub_topicFilters o) (sub_count o) t;
      let o := MkSub (sub_dup o) (sub_packetid o) (sub_count o) ts (sub_requestedQoSs o) in
      if negb (ctrue ok) then Ok (o, false) else
      if with_qos then
        if enddata <=? p then Ok (o, false) else
        '(c, p) ← readChar buf p;
        qs ← bset (sub_requestedQoSs o) (sub_count o) c;
        read_topics_loop fuel with_qos (MkSub (sub_dup o) (sub_packetid o) (sub_count o + 1) ts qs) buf p enddata
      else
        read_topics_loop fuel with_qos (MkSub (sub_dup o) (sub_packetid o) (sub_count o + 1) ts (sub_requestedQoSs o)) buf p enddata
    else Ok (o, true)
  end.
Definition read_topics (type fail : Z) (with_qos : bool) (o : subscribe_out) (buf : list Z) : res (subscribe_out * Z) :=
  '(header, p) ← read_header buf;
  if negb (header_type header =? type) then Ok (o, fail) else
  let dup := header_dup header in
  '(rc, mylen) ← MQTTPacket_decodeBuf buf p;
  let p := p + rc in
  let enddata := p + mylen in
  '(id, p) ← readInt buf p;
  '(o, ok) ← read_topics_loop (S (Z.to_nat (enddata - p))) with_qos
    (MkSub dup id 0 (sub_topicFilters o) (sub_requestedQoSs o)) buf p enddata;
  Ok (o, if (ok : bool) then 1 else rc).
(** Neither function looks at [maxcount]. *)
Definition MQTTDeserialize_subscribe (o : subscribe_out) (maxcount : Z) (buf : list Z) : res (subscribe_out * Z) :=
  read_topics SUBSCRIBE (-1) true o buf.
Definition MQTTDeserialize_unsubscribe (o : subscribe_out) (maxcount : Z) (buf : list Z) : res (subscribe_out * Z) :=
  read_topics UNSUBSCRIBE 0 false o buf.

Definition MQTTDeserialize_unsuback (packetid : Z) (buf : list Z) : res (Z * Z) :=
  '(o, rc) ← MQTTDeserialize_ack (MkAck 0 0 packetid) buf;
  Ok (ack_packetid o, if ack_packettype o =? UNSUBACK then 1 else rc).

(** ** The packets on the wire *)
Fixpoint topic_bytes (ms : list (list Z)) (qs : list Z) : list Z :=
  match ms, qs with
  | m :: ms, q :: qs => string_bytes m ++ u8 q :: topic_bytes ms qs
  | _, _ => []
  end.
Definition subscribe_body (id : Z) (ms : list (list Z)) (qs : list Z) : list Z := int_bytes id ++ topic_bytes ms qs.
Definition subscribe_bytes (dup id : Z) (ms : list (list Z)) (qs : list Z) : list Z :=
  packet (header_byte SUBSCRIBE dup 1 0) (subscribe_body id ms qs).
Definition suback_body (id : Z) (qs : list Z) : list Z := int_bytes id ++ map u8 qs.
Definition suback_bytes (id : Z) (qs : list Z) : list Z :=
  packet (header_byte SUBACK 0 0 0) (suback_body id qs).

Lemma s8_u8 q : 0 <= q < 128 -> s8 (u8 q) = q /\ u8 q = q.
Proof. intros. rewrite wrap_small by (pow2_norm; lia). split; [|done]. apply swrap_small; [lia|]. change (2 ^ (8 - 1)) with 128. lia. Qed.

(** ** Writing *)
Lemma subscribeLength_loop_eq : forall ss ms qs pre len,
  Forall2 denotes ss ms -> length qs = length ss ->
  subscribeLength_loop (length ss) (pre ++ ss) 1 (Zlen pre) len = Ok (len + Zlen (topic_bytes ms qs)).
Proof.
  intros ss ms qs pre len Hd. revert qs pre len. induction Hd as [|s m ss ms Hs Hss IH]; intros [|q qs] pre len Hq; try done.
  { cbn. f_equal. zlen. lia. }
  cbn [length subscribeLength_loop]. rewrite bget_middle. cbn [mbind res_bind].
  rewrite (MQTTstrlen_denotes _ _ Hs). cbn [mbind res_bind topic_bytes].
  specialize (IH qs (pre ++ [s]) (len + 2 + Zlen m + 1)). rewrite <- app_assoc in IH. cbn in IH.
  rewrite (Zlen_app pre) in IH. change (Zlen [s]) with 1 in IH. rewrite IH by (by injection Hq). zlen. f_equal. lia.
Qed.

Lemma subscribe_loop_wr buf : forall ss ms qs pre prq l,
  Forall2 denotes ss ms -> length qs = length ss -> Zlen pre = Zlen prq ->
  Zlen l + Zlen (topic_bytes ms qs) <= Zlen buf ->
  subscribe_loop (length ss) (wr buf l) (pre ++ ss) (prq ++ qs) (Zlen pre) = Ok (wr buf (l ++ topic_bytes ms qs)).
Proof.
  intros ss ms qs pre prq l Hd. revert qs pre prq l.
  induction Hd as [|s m ss ms Hs Hss IH]; intros [|q qs] pre prq l Hq Hp Hl; try done.
  { cbn. by rewrite app_nil_r. }
  cbn [length subscribe_loop topic_bytes] in *. zlen. pose proof (Zlen_nonneg (topic_bytes ms qs)).
  rewrite bget_middle. cbn [mbind res_bind]. rewrite (writeMQTTString_wr _ _ _ m) by (try done; lia).
  cbn [mbind res_bind]. rewrite Hp, bget_middle. cbn [mbind res_bind]. rewrite writeChar_wr by (zlen; lia).
  cbn [mbind res_bind].
  specialize (IH qs (pre ++ [s]) (prq ++ [q]) ((l ++ string_bytes m) ++ [u8 q])).
  rewrite <- !app_assoc in IH. cbn [app] in IH. rewrite (Zlen_app pre), (Zlen_app prq) in IH.
  change (Zlen [s]) with 1 in IH. change (Zlen [q]) with 1 in IH. rewrite Hp in IH.
  rewrite <- !app_assoc. cbn [app]. apply IH; [by injection Hq|done|zlen; lia].
Qed.

Lemma write_chars_wr buf : forall qs pre l,
  Zlen l + Zlen qs <= Zlen buf ->
  write_chars (length qs) (wr buf l) (pre ++ qs) (Zlen pre) = Ok (wr buf (l ++ map u8 qs)).
Proof.
  induction qs as [|q qs IH]; intros pre l Hl; [cbn; by rewrite app_nil_r|].
  cbn [length write_chars map] in *. zlen. pose proof (Zlen_nonneg qs). rewrite bget_middle. cbn [mbind res_bind].
  rewrite writeChar_wr by lia. cbn [mbind res_bind]. specialize (IH (pre ++ [q]) (l ++ [u8 q])).
  rewrite <- !app_assoc in IH. cbn [app] in IH. rewrite (Zlen_app pre) in IH. change (Zlen [q]) with 1 in IH.
  apply IH. zlen. lia.
Qed.

(** Running the first three writes of a packet with an identifier. *)
Lemma write_id_start buf h n id (k : writer -> res (list Z * Z)) :
  0 <= h < 256 -> 0 <= n < max_body -> 1 + Zlen (remlen_bytes n) + 2 <= Zlen buf -> is_u16 id ->
  (w ← writeChar (buf, 0) h; w ← write_length w n; w ← writeInt w id; k w)
  = k (wr buf (h :: remlen_bytes n ++ int_bytes id)).
Proof.
  intros Hh Hn Hl Hid. pose proof (write_packet_start buf h n Hh Hn ltac:(lia)) as Ew.
  destruct (writeChar (buf, 0) h) as [w|]; [|done]. cbn [mbind res_bind] in *. rewrite Ew. cbn [mbind res_bind].
  pose proof (writeInt_wr buf (h :: remlen_bytes n) id Hid) as Ei. rewrite Ei by (zlen; lia). done.
Qed.

(** ** Reading *)
Lemma read_qos_loop_eq buf G id e : forall qs done p rest maxcount fuel,
  suffix buf p (map u8 qs ++ rest) -> e = p + Zlen qs -> Forall (fun q => 0 <= q < 128) qs ->
  Zlen done + Zlen qs <= Zlen G -> Zlen done + Zlen qs <= maxcount + 1 -> (length qs < fuel)%nat ->
  read_qos_loop fuel maxcount (MkSuback id (Zlen done) (overwrite G 0 done)) buf p e
  = Ok (MkSuback id (Zlen done + Zlen qs) (overwrite G 0 (done ++ qs)), None).
Proof.
  induction qs as [|q qs IH]; intros dn p rest maxcount fuel Hs -> Hq HG Hm Hf; (destruct fuel as [|fuel]; [cbn in Hf; lia|]).
  - cbn [read_qos_loop]. rewrite (proj2 (Z.ltb_ge p _)) by (zlen; lia). rewrite app_nil_r. zlen. do 3 f_equal. lia.
  - cbn [read_qos_loop map app length] in *. zlen. apply Forall_cons in Hq as [Hq Hqs]. pose proof (Zlen_nonneg qs).
    pose proof (Zlen_nonneg dn).
    rewrite (proj2 (Z.ltb_lt p _)) by lia. cbn [sa_count sa_grantedQoSs sa_packetid].
    rewrite (proj2 (Z.ltb_ge maxcount _)) by lia. rewrite (readChar_suffix _ _ _ _ Hs). cbn [mbind res_bind].
    apply suffix_cons in Hs as [_ Hs]. destruct (s8_u8 q Hq) as [-> _].
    rewrite bset_overwrite by lia. cbn [mbind res_bind].
    specialize (IH (dn ++ [q]) (p + 1) rest maxcount fuel Hs). rewrite (Zlen_app dn) in IH. change (Zlen [q]) with 1 in IH.
    rewrite IH by (try done; lia). rewrite <- app_assoc. cbn [app]. do 3 f_equal. lia.
Qed.

(** One round of the loop reads a topic and its QoS. *)
Lemma read_topics_step buf T Q dup id e fuel m ms q qs dt dq p rest :
  suffix buf p (topic_bytes (m :: ms) (q :: qs) ++ rest) -> e = p + Zlen (topic_bytes (m :: ms) (q :: qs)) ->
  0 <= q < 128 -> Zlen m < 65536 -> Zlen dt = Zlen dq -> Zlen dt < Zlen T -> Zlen dt < Zlen Q ->
  exists t p', read_topics_loop (S fuel) true (MkSub dup id (Zlen dt) (overwrite T 0 dt) (overwrite Q 0 dq)) buf p e
    = read_topics_loop fuel true (MkSub dup id (Zlen (dt ++ [t])) (overwrite T 0 (dt ++ [t])) (overwrite Q 0 (dq ++ [q]))) buf p' e /\
    denotes t m /\ suffix buf p' (topic_bytes ms qs ++ rest) /\ e = p' + Zlen (topic_bytes ms qs).
Proof.
  cbn [topic_bytes]. intros Hs He Hq Hm Hd HT HQ. rewrite <- app_assoc in Hs. cbn [app] in Hs. zlen.
  pose proof (Zlen_nonneg dt). pose proof (Zlen_nonneg m). pose proof (Zlen_nonneg (topic_bytes ms qs)).
  cbn [read_topics_loop]. rewrite (proj2 (Z.ltb_lt p _)) by lia. cbn [sub_topicFilters sub_count sub_dup sub_packetid sub_requestedQoSs].
  destruct (bget_in (overwrite T 0 dt) (Zlen dt)) as [t0 ->]; [rewrite Zlen_overwrite; lia|]. cbn [mbind res_bind].
  destruct (readMQTTLenString_suffix t0 buf p e m _ Hs) as (p1 & -> & Ep1 & Hm1 & Hs1); [lia|].
  cbn [mbind res_bind]. rewrite bset_overwrite by lia. cbn [mbind res_bind].
  change (negb (ctrue 1)) with false. cbv iota. rewrite (proj2 (Z.leb_gt e p1)) by lia.
  rewrite (readChar_suffix _ _ _ _ Hs1). cbn [mbind res_bind]. destruct (s8_u8 q Hq) as [-> _].
  cbn [sub_topicFilters sub_count sub_dup sub_packetid sub_requestedQoSs].
  apply suffix_cons in Hs1 as [_ Hs1]. rewrite bset_overwrite by lia. cbn [mbind res_bind].
  exists (MkStr None (Zlen m) (Some (buf, p + 2))), (p1 + 1). split; [by rewrite Zlen_app|].
  split; [by eapply readMQTTLenString_denotes|]. split; [done|]. lia.
Qed.

Lemma read_topics_loop_eq buf T Q dup id e : forall ms qs dt dq p rest fuel,
  suffix buf p (topic_bytes ms qs ++ rest) -> e = p + Zlen (topic_bytes ms qs) ->
  length ms = length qs -> Forall (fun q => 0 <= q < 128) qs -> Forall (fun m => Zlen m < 65536) ms ->
  Zlen dt = Zlen dq -> Zlen dt + Zlen qs <= Zlen T -> Zlen dt + Zlen qs <= Zlen Q -> (length qs < fuel)%nat ->
  exists ts, read_topics_loop fuel true (MkSub dup id (Zlen dt) (overwrite T 0 dt) (overwrite Q 0 dq)) buf p e
    = Ok (MkSub dup id (Zlen dt + Zlen qs) (overwrite T 0 (dt ++ ts)) (overwrite Q 0 (dq ++ qs)), true) /\
    Forall2 denotes ts ms.
Proof.
  induction ms as [|m ms IH]; intros [|q qs] dt dq p rest fuel Hs He Hlen Hq Hm Hd HT HQ Hf; try done;
    (destruct fuel as [|fuel]; [cbn in Hf; lia|]).
  - exists []. cbn [read_topics_loop topic_bytes] in *. change (Zlen (@nil Z)) with 0 in *. rewrite (proj2 (Z.ltb_ge p _)) by lia.
    rewrite !app_nil_r. split; [do 3 f_equal; lia|done].
  - apply Forall_cons in Hq as [Hq Hqs]. apply Forall_cons in Hm as [Hm Hms]. cbn [length] in *. zlen. pose proof (Zlen_nonneg qs).
    destruct (read_topics_step buf T Q dup id e fuel m ms q qs dt dq p rest Hs He Hq Hm Hd) as (t & p' & -> & Ht & Hs' & He'); [lia|lia|].
    destruct (IH qs (dt ++ [t]) (dq ++ [q]) p' rest fuel Hs' He') as (ts & -> & Hts);
      [lia|done|done|zlen; lia|zlen; lia|zlen; lia|lia|].
    exists (t :: ts). rewrite <- !app_assoc. split; [zlen; do 3 f_equal; lia|by constructor].
Qed.

(** More topics than the arrays have members: the one that does not fit is
    written behind the end. *)
Lemma read_topics_loop_overrun buf T Q dup id e : forall ms qs dt dq p rest fuel,
  suffix buf p (topic_bytes ms qs ++ rest) -> e = p + Zlen (topic_bytes ms qs) ->
  length ms = length qs -> Forall (fun q => 0 <= q < 128) qs -> Forall (fun m => Zlen m < 65536) ms ->
  Zlen dt = Zlen dq -> Zlen dt <= Zlen T -> Zlen T = Zlen Q -> Zlen T < Zlen dt + Zlen qs -> (length qs < fuel)%nat ->
  read_topics_loop fuel true (MkSub dup id (Zlen dt) (overwrite T 0 dt) (overwrite Q 0 dq)) buf p e = Err OutOfBounds.
Proof.
  induction ms as [|m ms IH]; intros [|q qs] dt dq p rest fuel Hs He Hlen Hq Hm Hd HT HQ Hn Hf; try done;
    (destruct fuel as [|fuel]; [cbn in Hf; lia|]); [zlen; lia|].
  apply Forall_cons in Hq as [Hq Hqs]. apply Forall_cons in Hm as [Hm Hms]. cbn [length] in *. zlen. pose proof (Zlen_nonneg qs).
  destruct (decide (Zlen dt < Zlen T)).
  - destruct (read_topics_step buf T Q dup id e fuel m ms q qs dt dq p rest Hs He Hq Hm Hd) as (t & p' & -> & _ & Hs' & He'); [lia|lia|].
    apply (IH qs (dt ++ [t]) (dq ++ [q]) p' rest fuel Hs' He'); [lia|done|done|zlen; lia|zlen; lia|done|zlen; lia|lia].
  - cbn [read_topics_loop topic_bytes] in *. zlen. pose proof (Zlen_nonneg m). pose proof (Zlen_nonneg (topic_bytes ms qs)).
    rewrite (proj2 (Z.ltb_lt p _)) by lia.
    cbn [sub_topicFilters sub_count].
    assert (bget (overwrite T 0 dt) (Zlen dt) = Err OutOfBounds) as ->; [|done].
    pose proof (Zlen_nonneg dt). unfold bget. rewrite (proj2 (Z.leb_le 0 _)) by lia. rewrite lookup_ge_None_2; [done|].
    pose proof (Zlen_overwrite T 0 dt ltac:(lia) ltac:(lia)). unfold Zlen in *. lia.
Qed.

Lemma topic_bytes_bound : forall ms qs, length ms = length qs -> 3 * Zlen qs <= Zlen (topic_bytes ms qs).
Proof.
  induction ms as [|m ms IH]; intros [|q qs] H; try done. cbn [topic_bytes]. injection H as H. specialize (IH qs H).
  pose proof (Zlen_nonneg m). zlen. lia.
Qed.

(** ** Theorems *)

Lemma subscribe_serialize_eq (buf : list Z) (buflen dup id : Z) (ss : list MQTTString) (ms : list (list Z)) (qs : list Z) :
  Forall2 denotes ss ms -> length qs = length ss -> is_u16 id -> 0 <= dup < 2 ->
  Zlen (subscribe_body id ms qs) < max_body -> buflen <= Zlen buf ->
  MQTTSerialize_subscribe buf buflen dup id (Zlen ss) ss qs =
    (if buflen <? MQTTPacket_len (Zlen (subscribe_body id ms qs)) then Ok (buf, -2)
     else Ok (overwrite buf 0 (subscribe_bytes dup id ms qs), Zlen (subscribe_bytes dup id ms qs))).
Proof.
  intros Hd Hlen Hid Hdup Hmax Hle. set (body := subscribe_body id ms qs) in *.
  pose proof (Forall2_length _ _ _ Hd) as Hlm.
  assert (Zlen body = 2 + Zlen (topic_bytes ms qs)) as Eb by (unfold body, subscribe_body; by zlen).
  pose proof (topic_bytes_bound ms qs ltac:(lia)) as Hb3. pose proof (Zlen_nonneg qs).
  unfold MQTTSerialize_subscribe, MQTTSerialize_subscribeLength. rewrite Zlen_to_nat.
  pose proof (subscribeLength_loop_eq ss ms qs [] 2 Hd Hlen) as El. cbn [app] in El.
  change (Zlen (@nil MQTTString)) with 0 in El. rewrite El. cbn [mbind res_bind]. rewrite <- Eb. case_test; [done|].
  pose proof (MQTTPacket_len_ge (Zlen body) ltac:(lia)).
  rewrite write_id_start by (first [apply header_byte_range|lia|exact Hid]).
  pose proof (subscribe_loop_wr buf ss ms qs [] []
    (header_byte SUBSCRIBE dup 1 0 :: remlen_bytes (Zlen body) ++ int_bytes id) Hd Hlen eq_refl) as Ew.
  cbn [app] in Ew. change (Zlen (@nil MQTTString)) with 0 in Ew. rewrite Ew by (zlen; lia).
  unfold subscribe_bytes, packet, wr. fold body. cbn [app]. rewrite <- app_assoc. done.
Qed.

(** Parsing comes down to the loop over the topics. *)
Lemma subscribe_parse_start (rest : list Z) (dup id : Z) (ms : list (list Z)) (qs : list Z) (o : subscribe_out) (maxcount : Z) :
  length ms = length qs -> is_u16 id -> 0 <= dup < 2 -> Zlen (subscribe_body id ms qs) < max_body ->
  let b := subscribe_bytes dup id ms qs ++ rest in
  exists p rc fuel, suffix b p (topic_bytes ms qs ++ rest) /\ (length qs < fuel)%nat /\
    MQTTDeserialize_subscribe o maxcount b =
      ('(o, ok) ← read_topics_loop fuel true (MkSub dup id 0 (sub_topicFilters o) (sub_requestedQoSs o)) b p (p + Zlen (topic_bytes ms qs));
       Ok (o, if (ok : bool) then 1 else rc)).
Proof.
  intros Hlen Hid Hdup Hmax. set (body := subscribe_body id ms qs) in *.
  assert (Zlen body = 2 + Zlen (topic_bytes ms qs)) as Eb by (unfold body, subscribe_body; by zlen).
  pose proof (topic_bytes_bound ms qs Hlen) as Hb3. pose proof (Zlen_nonneg qs).
  set (h := header_byte SUBSCRIBE dup 1 0). destruct (header_fields SUBSCRIBE dup 1 0) as (Et & Ed & _). fold h in Et, Ed.
  rewrite Z.mod_small in Ed by lia. destruct (packet_suffix h body rest Hmax) as [El Hs].
  unfold MQTTDeserialize_subscribe, read_topics, subscribe_bytes. fold h body.
  assert (read_header (packet h body ++ rest) = Ok (h, 1)) as -> by (apply read_header_packet, header_byte_range).
  cbn [mbind res_bind]. rewrite Et, Ed. change (negb (SUBSCRIBE mod 16 =? SUBSCRIBE)) with false. cbv iota.
  rewrite El. cbn [mbind res_bind]. set (b := packet h body ++ rest) in *.
  unfold body at 2, subscribe_body in Hs. rewrite <- app_assoc in Hs.
  apply readInt_suffix in Hs as [-> Hs]; [|apply Hid]. cbn [mbind res_bind].
  set (p0 := 1 + Zlen (remlen_bytes (Zlen body))) in *.
  exists (p0 + 2), (Zlen (remlen_bytes (Zlen body))), (S (Z.to_nat (p0 + Zlen body - (p0 + 2)))).
  split; [done|]. split; [unfold Zlen in *; lia|].
  replace (p0 + 2 + Zlen (topic_bytes ms qs)) with (p0 + Zlen body) by lia. done.
Qed.

Lemma denotes_short ss ms : Forall2 denotes ss ms -> Forall (fun m => Zlen m < 65536) ms.
Proof. intros Hd. eapply Forall2_Forall_r; [exact Hd|]. apply Forall_forall. intros x _ y Hy. by destruct (denotes_len _ _ Hy). Qed.

(** C30: A subscribe packet is refused, leaving the buffer alone, when its
    length estimate exceeds [buflen], and is otherwise written byte for byte
    as the wire format says.  Parsing it back into arrays of [maxcount]
    members, whatever follows in the buffer, stores the same topics and QoS
    values and returns 1 when they fit; when the packet names more than
    [maxcount] topics the parser writes behind the end of the arrays, because
    it never looks at [maxcount]. *)
Theorem subscribe_round_trip (buf rest : list Z) (buflen dup id : Z) (ss : list MQTTString)
    (ms : list (list Z)) (qs : list Z) (o : subscribe_out) (maxcount : Z) :
  Forall2 denotes ss ms -> length qs = length ss -> is_u16 id -> 0 <= dup < 2 ->
  Forall (fun q => 0 <= q < 128) qs -> Zlen (subscribe_body id ms qs) < max_body -> buflen <= Zlen buf ->
  Zlen (sub_topicFilters o) = maxcount -> Zlen (sub_requestedQoSs o) = maxcount ->
  MQTTSerialize_subscribe buf buflen dup id (Zlen ss) ss qs =
    (if buflen <? MQTTPacket_len (Zlen (subscribe_body id ms qs)) then Ok (buf, -2)
     else Ok (overwrite buf 0 (subscribe_bytes dup id ms qs), Zlen (subscribe_bytes dup id ms qs))) /\
  (Zlen qs <= maxcount ->
    exists ts, MQTTDeserialize_subscribe o maxcount (subscribe_bytes dup id ms qs ++ rest) =
      Ok (MkSub dup id (Zlen qs) (overwrite (sub_topicFilters o) 0 ts) (overwrite (sub_requestedQoSs o) 0 qs), 1) /\
      Forall2 denotes ts ms) /\
  (maxcount < Zlen qs ->
    MQTTDeserialize_subscribe o maxcount (subscribe_bytes dup id ms qs ++ rest) = Err OutOfBounds).
Proof.
  intros Hd Hlen Hid Hdup Hq Hmax Hle HT HQ. split; [by apply subscribe_serialize_eq|].
  assert (length ms = length qs) as Hlm by (by rewrite Hlen, (Forall2_length _ _ _ Hd)).
  pose proof (denotes_short _ _ Hd) as Hms. pose proof (Zlen_nonneg (sub_topicFilters o)).
  destruct (subscribe_parse_start rest dup id ms qs o maxcount Hlm Hid Hdup Hmax) as (p & rc & fuel & Hs & Hf & ->).
  split; intros Hc.
  - destruct (read_topics_loop_eq _ (sub_topicFilters o) (sub_requestedQoSs o) dup id _ ms qs [] [] p rest fuel Hs eq_refl Hlm Hq Hms eq_refl)
      as (ts & E & Hts); [change (Zlen []) with 0; lia..|done|].
    rewrite !overwrite_nil in E. change (Zlen (@nil MQTTString)) with 0 in E. rewrite E. by exists ts.
  - pose proof (read_topics_loop_overrun _ (sub_topicFilters o) (sub_requestedQoSs o) dup id _ ms qs [] [] p rest fuel Hs eq_refl Hlm Hq Hms eq_refl) as E.
    rewrite !overwrite_nil in E. change (Zlen (@nil MQTTString)) with 0 in E. rewrite E; [done|lia..|done].
Qed.

Lemma subscribe_round_trip_witness :
  let ss := [MkStr (Some ([97] ++ 0 :: [])) 0 None] in
  let o := fun n => MkSub 0 0 0 (replicate n MQTTString_initializer) (replicate n 0) in
  MQTTSerialize_subscribe (replicate 9 0) 9 0 5 1 ss [1] = Ok ([130; 6; 0; 5; 0; 1; 97; 1; 0], 8) /\
  (exists t, MQTTDeserialize_subscribe (o 1%nat) 1 [130; 6; 0; 5; 0; 1; 97; 1; 0] = Ok (MkSub 0 5 1 [t] [1], 1) /\ denotes t [97]) /\
  MQTTDeserialize_subscribe (o 0%nat) 0 [130; 6; 0; 5; 0; 1; 97; 1; 0] = Err OutOfBounds.
Proof.
  intros ss o. assert (Forall2 denotes ss [[97]]) as Hd.
  { constructor; [|done]. apply denotes_cstring; [by vm_compute|done|]. repeat constructor; done. }
  pose proof (fun n k => subscribe_round_trip (replicate 9 0) [0] 9 0 5 ss [[97]] [1] (o n) k Hd ltac:(done) ltac:(by vm_compute) ltac:(lia)
    ltac:(repeat constructor; lia) ltac:(by vm_compute) ltac:(by vm_compute)) as T.
  destruct (T 1%nat 1 ltac:(by vm_compute) ltac:(by vm_compute)) as (E & Hin & _).
  destruct (T 0%nat 0 ltac:(by vm_compute) ltac:(by vm_compute)) as (_ & _ & Hover).
  split; [exact E|]. split; [|by apply Hover]. destruct (Hin ltac:(by vm_compute)) as (ts & Ed & Ht).
  apply Forall2_cons_inv_r in Ht as (t & ts' & Ht & Hn & ->). apply Forall2_nil_inv_r in Hn as ->. exists t. split; [exact Ed|exact Ht].
Defined.

Lemma suback_parse_eq (rest : list Z) (id : Z) (qs : list Z) (o : suback_out) (maxcount : Z) :
  is_u16 id -> Forall (fun q => 0 <= q < 128) qs -> Zlen (suback_body id qs) < max_body ->
  Zlen (sa_grantedQoSs o) = maxcount ->
  (Zlen qs <= maxcount ->
   MQTTDeserialize_suback o maxcount (suback_bytes id qs ++ rest)
   = Ok (MkSuback id (Zlen qs) (overwrite (sa_grantedQoSs o) 0 qs), 1)) /\
  (Zlen qs = maxcount + 1 ->
   MQTTDeserialize_suback o maxcount (suback_bytes id qs ++ rest) = Err OutOfBounds).
Proof.
  intros Hid Hq Hmax HG. set (h := header_byte SUBACK 0 0 0).
  destruct (packet_suffix h (suback_body id qs) rest Hmax) as [El Hs].
  set (p0 := 1 + Zlen (remlen_bytes (Zlen (suback_body id qs)))) in *.
  assert (Zlen (suback_body id qs) = 2 + Zlen qs) as Eb.
  { unfold suback_body. zlen. unfold Zlen. by rewrite length_map. }
  pose proof (Zlen_nonneg qs).
  set (b := packet h (suback_body id qs) ++ rest) in *. unfold suback_body in Hs. rewrite <- app_assoc in Hs.
  apply readInt_suffix in Hs as [Er Hs]; [|apply Hid].
  assert (MQTTDeserialize_suback o maxcount (suback_bytes id qs ++ rest) =
    ('(o, e) ← read_qos_loop (S (Z.to_nat (p0 + Zlen (suback_body id qs) - (p0 + 2)))) maxcount
      (MkSuback id 0 (sa_grantedQoSs o)) b (p0 + 2) (p0 + Zlen (suback_body id qs)); Ok (o, default 1 e))) as ->.
  { unfold MQTTDeserialize_suback, suback_bytes. fold h.
    assert (read_header (packet h (suback_body id qs) ++ rest) = Ok (h, 1)) as -> by (by apply read_header_packet).
    cbn [mbind res_bind]. change (negb (header_type h =? SUBACK)) with false. cbv iota. fold b.
    rewrite El. cbn [mbind res_bind]. fold p0. rewrite (proj2 (Z.ltb_ge _ 2)) by lia. by rewrite Er. }
  replace (p0 + Zlen (suback_body id qs) - (p0 + 2)) with (Zlen qs) by lia. rewrite Zlen_to_nat. split.
  - intros Hc. pose proof (read_qos_loop_eq b (sa_grantedQoSs o) id (p0 + Zlen (suback_body id qs)) qs [] (p0 + 2) rest
      maxcount (S (length qs)) Hs) as E. change (Zlen (@nil Z)) with 0 in E. rewrite overwrite_nil in E.
    rewrite E by (try done; lia). done.
  - intros Hc. destruct (exists_last (l := qs)) as (qs' & q & ->); [by intros ->; zlen; pose proof (Zlen_nonneg (sa_grantedQoSs o)); lia|].
    zlen.
    assert (forall fuel dn p r, suffix b p (map u8 r ++ u8 q :: rest) -> Zlen dn + Zlen r = maxcount ->
      Forall (fun q => 0 <= q < 128) r -> p0 + (2 + (Zlen qs' + 1)) = p + Zlen r + 1 -> (length r < fuel)%nat ->
      read_qos_loop fuel maxcount (MkSuback id (Zlen dn) (overwrite (sa_grantedQoSs o) 0 dn)) b p (p0 + (2 + (Zlen qs' + 1)))
      = Err OutOfBounds) as H'.
    { induction fuel as [|fuel IH]; intros dn p r Hs' Hm Hr He Hf; [lia|]. cbn [read_qos_loop].
      pose proof (Zlen_nonneg r). pose proof (Zlen_nonneg dn). rewrite (proj2 (Z.ltb_lt p _)) by lia.
      cbn [sa_count sa_grantedQoSs sa_packetid]. rewrite (proj2 (Z.ltb_ge maxcount _)) by lia.
      destruct r as [|x r]; cbn [map app] in Hs'; rewrite (readChar_suffix _ _ _ _ Hs'); cbn [mbind res_bind].
      - unfold bset. zlen. rewrite Zlen_overwrite by lia. rewrite (proj2 (Z.ltb_ge (Zlen dn) _)) by lia.
        by rewrite andb_false_r.
      - apply Forall_cons in Hr as [Hx Hr]. destruct (s8_u8 x Hx) as [-> _]. zlen. pose proof (Zlen_nonneg r).
        rewrite bset_overwrite by lia. cbn [mbind res_bind]. replace (Zlen dn + 1) with (Zlen (dn ++ [x])) by (zlen; lia).
        apply suffix_cons in Hs' as [_ Hs']. apply (IH _ _ r); try done; [zlen; lia|lia|cbn in Hf; lia]. }
    specialize (H' (S (length (qs' ++ [q]))) [] (p0 + 2) qs'). change (Zlen (@nil Z)) with 0 in H'.
    rewrite overwrite_nil in H'. replace (p0 + Zlen (suback_body id (qs' ++ [q]))) with (p0 + (2 + (Zlen qs' + 1))) by lia.
    rewrite H'; [done| |lia| |lia|rewrite length_app; lia].
    + rewrite map_app, <- app_assoc in Hs. exact Hs.
    + by apply Forall_app in Hq as [? _].
Qed.

(** A suback packet with at most [maxcount] codes is parsed back to its
    identifier and codes; one with exactly [maxcount + 1] codes is not
    rejected either: its last code is stored behind an array of [maxcount]
    entries. *)
Theorem suback_parse (rest : list Z) (id : Z) (qs : list Z) (o : suback_out) (maxcount : Z) :
  is_u16 id -> Forall (fun q => 0 <= q < 128) qs -> Zlen (suback_body id qs) < max_body ->
  Zlen (sa_grantedQoSs o) = maxcount ->
  (Zlen qs <= maxcount ->
   MQTTDeserialize_suback o maxcount (suback_bytes id qs ++ rest)
   = Ok (MkSuback id (Zlen qs) (overwrite (sa_grantedQoSs o) 0 qs), 1)) /\
  (Zlen qs = maxcount + 1 ->
   MQTTDeserialize_suback o maxcount (suback_bytes id qs ++ rest) = Err OutOfBounds).
Proof. apply suback_parse_eq. Qed.

Lemma suback_parse_witness :
  MQTTDeserialize_suback (MkSuback 0 0 [9]) 1 ([144; 3; 0; 5; 1] ++ []) = Ok (MkSuback 5 1 [1], 1) /\
  MQTTDeserialize_suback (MkSuback 0 0 [9]) 1 ([144; 4; 0; 5; 1; 2] ++ []) = Err OutOfBounds.
Proof.
  split.
  - exact (proj1 (suback_parse [] 5 [1] (MkSuback 0 0 [9]) 1 ltac:(by vm_compute) ltac:(repeat constructor; lia)
      ltac:(by vm_compute) eq_refl) ltac:(by vm_compute)).
  - exact (proj2 (suback_parse [] 5 [1; 2] (MkSuback 0 0 [9]) 1 ltac:(by vm_compute) ltac:(repeat constructor; lia)
      ltac:(by vm_compute) eq_refl) ltac:(by vm_compute)).
Defined.

(** A successful write stays inside the buffer. *)
Definition inside (w : writer) : Prop := 0 <= w.2 <= Zlen w.1.
Lemma writeChar_inside w c w' : inside w -> writeChar w c = Ok w' -> inside w' /\ w'.2 = w.2 + 1 /\ Zlen w'.1 = Zlen w.1.
Proof.
  intros Hi H. unfold writeChar in H. apply bind_ok in H as (b & [Hb ->]%bset_Ok & [= <-]).
  unfold inside in *. cbn. rewrite Zlen_insert. lia.
Qed.
Lemma writeInt_inside w n w' : inside w -> writeInt w n = Ok w' -> inside w' /\ w'.2 = w.2 + 2 /\ Zlen w'.1 = Zlen w.1.
Proof.
  intros Hi H. unfold writeInt in H. apply bind_ok in H as (w1 & H1 & H2).
  apply writeChar_inside in H1 as (? & ? & ?); [|done]. apply writeChar_inside in H2 as (? & ? & ?); [|done].
  split; [done|lia].
Qed.
Lemma write_chars_inside a : forall n w i w', inside w -> write_chars n w a i = Ok w' ->
  inside w' /\ w'.2 = w.2 + Z.of_nat n /\ Zlen w'.1 = Zlen w.1.
Proof.
  induction n as [|n IH]; intros w i w' Hi H; cbn in H; [injection H as <-; split; [done|lia]|].
  apply bind_ok in H as (c & _ & H). apply bind_ok in H as (w1 & H1 & H).
  apply writeChar_inside in H1 as (? & ? & ?); [|done]. apply IH in H as (? & ? & ?); [|done]. split; [done|lia].
Qed.

(** The length check of the suback serializer leaves out the header and
    the length byte: with [2 + count] or [3 + count] bytes it passes and the
    packet runs over the end of the buffer, as does that of unsuback with 2
    or 3 bytes; with [4 + count] the packet is written exactly. *)
Theorem suback_serialize_bound (buf : list Z) (id : Z) (qs : list Z) :
  is_u16 id -> Zlen qs < 126 ->
  (4 + Zlen qs <= Zlen buf ->
   MQTTSerialize_suback buf (Zlen buf) id (Zlen qs) qs = Ok (overwrite buf 0 (suback_bytes id qs), 4 + Zlen qs)) /\
  (2 + Zlen qs <= Zlen buf < 4 + Zlen qs ->
   is_ok (MQTTSerialize_suback buf (Zlen buf) id (Zlen qs) qs) = false) /\
  (2 <= Zlen buf < 4 -> is_ok (MQTTSerialize_unsuback buf (Zlen buf) id) = false).
Proof.
  intros Hid Hc. pose proof (Zlen_nonneg qs).
  assert (Zlen (suback_body id qs) = 2 + Zlen qs) as Eb.
  { unfold suback_body. zlen. unfold Zlen. by rewrite length_map. }
  assert (forall n, 0 <= n < 128 -> remlen_bytes n = [n]) as Er.
  { intros n Hn. unfold remlen_bytes. by rewrite (proj2 (Z.ltb_lt n 128)) by lia. }
  split_and!.
  - intros Hl. unfold MQTTSerialize_suback. rewrite (proj2 (Z.ltb_ge _ (2 + Zlen qs))) by lia.
    rewrite write_id_start; [|apply header_byte_range|unfold max_body; lia|rewrite Er by lia; zlen; lia|done].
    rewrite Er, Zlen_to_nat by lia. pose proof (write_chars_wr buf qs []
      (header_byte SUBACK 0 0 0 :: [2 + Zlen qs] ++ int_bytes id)) as E. cbn [app] in E |- *.
    change (Zlen (@nil Z)) with 0 in E. rewrite E by (zlen; lia). unfold wr, suback_bytes, packet. rewrite Eb, Er by lia.
    do 2 f_equal. cbn. unfold Zlen at 1. cbn. rewrite length_map. unfold Zlen. lia.
  - intros Hl. unfold MQTTSerialize_suback. rewrite (proj2 (Z.ltb_ge _ (2 + Zlen qs))) by lia.
    pose proof (write_packet_start buf (header_byte SUBACK 0 0 0) (2 + Zlen qs) (header_byte_range _ _ _ _)) as Ew.
    rewrite Er in Ew by lia. change (Zlen [2 + Zlen qs]) with 1 in Ew. unfold max_body in Ew.
    destruct (writeChar (buf, 0) _) as [w|]; [|done]. cbn [mbind res_bind] in Ew |- *. rewrite Ew by lia.
    cbn [mbind res_bind]. destruct (writeInt _ id) as [w1|] eqn:E1; [|done]. cbn [mbind res_bind].
    apply writeInt_inside in E1 as (Hi & E1 & El); [|unfold inside, wr; cbn [fst snd]; rewrite Zlen_overwrite; zlen; lia].
    destruct (write_chars _ w1 qs 0) as [w2|] eqn:E2; [|done].
    apply write_chars_inside in E2 as (Hi2 & E2 & El2); [|done]. exfalso. unfold inside, wr in *. cbn [fst snd] in *.
    rewrite Zlen_overwrite in El by (zlen; lia). zlen. lia.
  - intros Hl. unfold MQTTSerialize_unsuback. rewrite (proj2 (Z.ltb_ge _ 2)) by lia.
    pose proof (write_packet_start buf (header_byte UNSUBACK 0 0 0) 2 (header_byte_range _ _ _ _)) as Ew.
    rewrite Er in Ew by lia. change (Zlen [2]) with 1 in Ew. unfold max_body in Ew.
    destruct (writeChar (buf, 0) _) as [w|]; [|done]. cbn [mbind res_bind] in Ew |- *. rewrite Ew by lia.
    cbn [mbind res_bind]. destruct (writeInt _ id) as [w1|] eqn:E1; [|done].
    apply writeInt_inside in E1 as (Hi & E1 & El); [|unfold inside, wr; cbn [fst snd]; rewrite Zlen_overwrite; zlen; lia].
    exfalso. unfold inside, wr in *. cbn [fst snd] in *. rewrite Zlen_overwrite in El by (zlen; lia). zlen. lia.
Qed.

Lemma suback_serialize_bound_witness :
  MQTTSerialize_suback [0; 0; 0; 0; 0] 5 7 1 [1] = Ok ([144; 3; 0; 7; 1], 5).
Proof. apply (suback_serialize_bound [0; 0; 0; 0; 0] 7 [1]); by vm_compute. Defined.
