(* ===== verification/MqttConnect.v ===== *)
(** CONNECT, CONNACK and the packets without a body,
    src/src/mqtt/MQTTPacket/src/MQTTConnectClient.c and MQTTConnectServer.c. *)
From S2P Require Import Prelude MqttPacket MqttPublish.

(** ** Data: [MQTTPacket_willOptions] and [MQTTPacket_connectData]. *)
Record willOptions := MkWill { will_topicName : MQTTString; will_message : MQTTString; will_retained : Z; will_qos : Z }.
Record connectData := MkConnect {
  MQTTVersion : Z;
  clientID : MQTTString;
  keepAliveInterval : Z;
  cleansession : Z;
  willFlag : Z;
  will : willOptions;
  username : MQTTString;
  password : MQTTString
}.

(** [s.cstring || s.lenstring.data] *)
Definition has_string (s : MQTTString) : bool :=
  match cstring s, data s with None, None => false | _, _ => true end.

(** The union [MQTTConnectFlags]. *)
Definition flag_cleansession (all : Z) : Z := get_bits 1 1 all.
Definition flag_will (all : Z) : Z := get_bits 2 1 all.
Definition flag_willQoS (all : Z) : Z := get_bits 3 2 all.
Definition flag_willRetain (all : Z) : Z := get_bits 5 1 all.
Definition flag_password (all : Z) : Z := get_bits 6 1 all.
Definition flag_username (all : Z) : Z := get_bits 7 1 all.

(** ** Operations *)
Definition MQTTSerialize_connectLength (options : connectData) : res Z :=
  let len := if MQTTVersion options =? 3 then 12 else if MQTTVersion options =? 4 then 10 else 0 in
  n ← MQTTstrlen (clientID options);
  let len := len + (n + 2) in
  len ← (if ctrue (willFlag options) then
           t ← MQTTstrlen (will_topicName (will options));
           m ← MQTTstrlen (will_message (will options));
           Ok (len + (t + 2 + m + 2))
         else Ok len);
  len ← (if has_string (username options) then n ← MQTTstrlen (username options); Ok (len + (n + 2)) else Ok len);
  if has_string (password options) then n ← MQTTstrlen (password options); Ok (len + (n + 2)) else Ok len.

Definition connect_flags (options : connectData) : Z :=
  let flags := set_bits 1 1 0 (cleansession options) in
  let flags := set_bits 2 1 flags (cbool (ctrue (willFlag options))) in
  let flags := if ctrue (flag_will flags) then
                 set_bits 5 1 (set_bits 3 2 flags (will_qos (will options))) (will_retained (will options))
               else flags in
  let flags := if has_string (username options) then set_bits 7 1 flags 1 else flags in
  if has_string (password options) then set_bits 6 1 flags 1 else flags.

Definition name_MQTT : list Z := [77; 81; 84; 84].
Definition name_MQIsdp : list Z := [77; 81; 73; 115; 100; 112].

Definition MQTTSerialize_connect (buf : list Z) (buflen : Z) (options : connectData) : res (list Z * Z) :=
  len ← MQTTSerialize_connectLength options;
  if buflen <? MQTTPacket_len len then Ok (buf, MQTTPACKET_BUFFER_TOO_SHORT) else
  w ← writeChar (buf, 0) (header_byte CONNECT 0 0 0);
  w ← write_length w len;
  w ← (if MQTTVersion options =? 4 then w ← writeCString w (name_MQTT ++ [0]); writeChar w 4
       else w ← writeCString w (name_MQIsdp ++ [0]); writeChar w 3);
  let flags := connect_flags options in
  w ← writeChar w flags;
  w ← writeInt w (keepAliveInterval options);
  w ← writeMQTTString w (clientID options);
  w ← (if ctrue (willFlag options) then
         w ← writeMQTTString w (will_topicName (will options));
         writeMQTTString w (will_message (will options))
       else Ok w);
  w ← (if ctrue (flag_username flags) then writeMQTTString w (username options) else Ok w);
  if ctrue (flag_password flags) then writeMQTTString w (password options) else Ok w.

(** [memcmp(data, name, min(k, len)) == 0] for the bytes of a string. *)
Definition same_prefix (s : MQTTString) (name : list Z) (k : Z) : res bool :=
  let n := if k <? len s then k else len s in
  match data s with
  | Some (b, o) => l ← read_bytes b o n; Ok (bool_decide (l = take (Z.to_nat n) name))
  | None => if n =? 0 then Ok true else Err NullDeref
  end.
Definition MQTTPacket_checkVersion (protocol : MQTTString) (version : Z) : res Z :=
  a ← (if version =? 3 then same_prefix protocol name_MQIsdp 6 else Ok false);
  if (a : bool) then Ok 1 else
  b ← (if version =? 4 then same_prefix protocol name_MQTT 4 else Ok false);
  Ok (cbool (b : bool)).

(** The state of the parser: the structure being filled and the read
    pointer; [None] is a [goto exit]. *)
Abbreviation step := (res (connectData * option Z)).
Definition continue (m : step) (k : connectData -> Z -> step) : step :=
  '(d, p) ← m; match p with Some p => k d p | None => Ok (d, None) end.

(** [readMQTTLenString(&data->field, ...)], the field given by its getter
    and its setter. *)
Definition read_field (get : connectData -> MQTTString) (set : connectData -> MQTTString -> connectData)
    (buf : list Z) (enddata : Z) (d : connectData) (p : Z) : step :=
  '(ok, s, p) ← readMQTTLenString (get d) buf p enddata;
  Ok (set d s, if ctrue ok then Some p else None).

Definition set_clientID (d : connectData) (s : MQTTString) :=
  MkConnect (MQTTVersion d) s (keepAliveInterval d) (cleansession d) (willFlag d) (will d) (username d) (password d).
Definition set_username (d : connectData) (s : MQTTString) :=
  MkConnect (MQTTVersion d) (clientID d) (keepAliveInterval d) (cleansession d) (willFlag d) (will d) s (password d).
Definition set_password (d : connectData) (s : MQTTString) :=
  MkConnect (MQTTVersion d) (clientID d) (keepAliveInterval d) (cleansession d) (willFlag d) (will d) (username d) s.
Definition set_will (d : connectData) (w : willOptions) :=
  MkConnect (MQTTVersion d) (clientID d) (keepAliveInterval d) (cleansession d) (willFlag d) w (username d) (password d).
Definition set_will_topic (d : connectData) (s : MQTTString) :=
  set_will d (MkWill s (will_message (will d)) (will_retained (will d)) (will_qos (will d))).
Definition set_will_message (d : connectData) (s : MQTTString) :=
  set_will d (MkWill (will_topicName (will d)) s (will_retained (will d)) (will_qos (will d))).

(** The part of the packet behind the protocol version. *)
Definition read_connect_rest (buf : list Z) (enddata : Z) (d : connectData) (p : Z) : step :=
  '(c, p) ← readChar buf p;
  let flags := u8 c in
  '(keep, p) ← readInt buf p;
  let d := MkConnect (MQTTVersion d) (clientID d) keep (flag_cleansession flags) (willFlag d) (will d) (username d) (password d) in
  continue (read_field clientID set_clientID buf enddata d p) (fun d p =>
  let d := MkConnect (MQTTVersion d) (clientID d) (keepAliveInterval d) (cleansession d) (flag_will flags) (will d) (username d) (password d) in
  continue (if ctrue (flag_will flags) then
              let d := set_will d (MkWill (will_topicName (will d)) (will_message (will d)) (flag_willRetain flags) (flag_willQoS flags)) in
              continue (read_field (fun d => will_topicName (will d)) set_will_topic buf enddata d p)
                (read_field (fun d => will_message (will d)) set_will_message buf enddata)
            else Ok (d, Some p)) (fun d p =>
  if ctrue (flag_username flags) then
    if enddata - p <? 3 then Ok (d, None) else
    continue (read_field username set_username buf enddata d p) (fun d p =>
    if ctrue (flag_password flags) then
      if enddata - p <? 3 then Ok (d, None) else read_field password set_password buf enddata d p
    else Ok (d, Some p))
  else if ctrue (flag_password flags) then Ok (d, None) else Ok (d, Some p))).

Definition MQTTDeserialize_connect (d : connectData) (buf : list Z) (len : Z) : res (connectData * Z) :=
  let enddata := len in
  '(header, p) ← read_header buf;
  if negb (header_type header =? CONNECT) then Ok (d, 0) else
  '(n, _) ← MQTTPacket_decodeBuf buf p;
  '(ok, protocol, p) ← readMQTTLenString MQTTString_initializer buf (p + n) enddata;
  if negb (ctrue ok) || (enddata - p <? 0) then Ok (d, 0) else
  '(version, p) ← readChar buf p;
  v ← MQTTPacket_checkVersion protocol version;
  if ctrue v then '(d, e) ← read_connect_rest buf enddata d p; Ok (d, match e with Some _ => 1 | None => 0 end)
  else Ok (d, 0).

(** [MQTTConnackFlags.sessionpresent] is the top bit of the byte. *)
Definition MQTTSerialize_connack (buf : list Z) (buflen connack_rc sessionPresent : Z) : res (list Z * Z) :=
  if buflen <? 2 then Ok (buf, MQTTPACKET_BUFFER_TOO_SHORT) else
  w ← writeChar (buf, 0) (header_byte CONNACK 0 0 0);
  w ← write_length w 2;
  w ← writeChar w (set_bits 7 1 0 sessionPresent);
  writeChar w connack_rc.

(** [(sessionPresent, connack_rc)] are the objects behind the outputs. *)
Definition MQTTDeserialize_connack (o : Z * Z) (buf : list Z) : res (Z * Z * Z) :=
  '(header, p) ← read_header buf;
  if negb (header_type header =? CONNACK) then Ok (o, 0) else
  '(rc, mylen) ← MQTTPacket_decodeBuf buf p;
  let p := p + rc in
  let enddata := p + mylen in
  if enddata - p <? 2 then Ok (o, rc) else
  '(f, p) ← readChar buf p;
  '(c, _) ← readChar buf p;
  Ok ((get_bits 7 1 (u8 f), u8 c), 1).

Definition MQTTSerialize_zero (buf : list Z) (buflen packettype : Z) : res (list Z * Z) :=
  if buflen <? 2 then Ok (buf, MQTTPACKET_BUFFER_TOO_SHORT) else
  w ← writeChar (buf, 0) (header_byte packettype 0 0 0);
  write_length w 0.
Definition MQTTSerialize_disconnect (buf : list Z) (buflen : Z) := MQTTSerialize_zero buf buflen DISCONNECT.
Definition MQTTSerialize_pingreq (buf : list Z) (buflen : Z) := MQTTSerialize_zero buf buflen PINGREQ.

(** ** What a CONNECT packet says *)
Record connect_spec := MkSpec {
  cs_client : list Z;
  cs_keep : Z;
  cs_clean : Z;
  cs_will : option (list Z * list Z * Z * Z);   (** topic, message, QoS, retain *)
  cs_user : option (list Z);
  cs_pass : option (list Z)
}.

Definition opt_denotes (s : MQTTString) (o : option (list Z)) : Prop :=
  match o with Some l => has_string s = true /\ denotes s l | None => has_string s = false end.
Definition will_denotes (d : connectData) (o : option (list Z * list Z * Z * Z)) : Prop :=
  match o with
  | Some (t, m, q, r) => willFlag d = 1 /\ denotes (will_topicName (will d)) t /\ denotes (will_message (will d)) m /\
      will_qos (will d) = q /\ will_retained (will d) = r
  | None => willFlag d = 0
  end.
(** A structure holds the content [s]. *)
Definition represents (d : connectData) (s : connect_spec) : Prop :=
  denotes (clientID d) (cs_client s) /\ keepAliveInterval d = cs_keep s /\ cleansession d = cs_clean s /\
  will_denotes d (cs_will s) /\ opt_denotes (username d) (cs_user s) /\ opt_denotes (password d) (cs_pass s).

Definition will_ok (o : option (list Z * list Z * Z * Z)) : Prop :=
  match o with
  | Some (t, m, q, r) => Zlen t < 65536 /\ Zlen m < 65536 /\ 0 <= q < 4 /\ 0 <= r < 2
  | None => True
  end.
Definition opt_ok (o : option (list Z)) : Prop := match o with Some l => Zlen l < 65536 | None => True end.
Definition spec_ok (s : connect_spec) : Prop :=
  Zlen (cs_client s) < 65536 /\ is_u16 (cs_keep s) /\ 0 <= cs_clean s < 2 /\ will_ok (cs_will s) /\
  opt_ok (cs_user s) /\ opt_ok (cs_pass s).

Definition b2 {A} (o : option A) : Z := match o with Some _ => 1 | None => 0 end.
Definition will_bits (o : option (list Z * list Z * Z * Z)) : Z :=
  match o with Some (_, _, q, r) => 4 + q * 8 + r * 32 | None => 0 end.
Definition flag_byte (s : connect_spec) : Z :=
  cs_clean s * 2 + will_bits (cs_will s) + b2 (cs_pass s) * 64 + b2 (cs_user s) * 128.
Definition opt_bytes (o : option (list Z)) : list Z := match o with Some l => string_bytes l | None => [] end.
Definition will_bytes (o : option (list Z * list Z * Z * Z)) : list Z :=
  match o with Some (t, m, _, _) => string_bytes t ++ string_bytes m | None => [] end.
Definition protocol_bytes (v : Z) : list Z :=
  if v =? 4 then string_bytes name_MQTT ++ [4] else string_bytes name_MQIsdp ++ [3].
Definition connect_body (v : Z) (s : connect_spec) : list Z :=
  protocol_bytes v ++ [flag_byte s] ++ int_bytes (cs_keep s) ++ string_bytes (cs_client s) ++
  will_bytes (cs_will s) ++ opt_bytes (cs_user s) ++ opt_bytes (cs_pass s).
Definition connect_bytes (v : Z) (s : connect_spec) : list Z :=
  packet (header_byte CONNECT 0 0 0) (connect_body v s).

Lemma two_cases x (P : Z -> Prop) : P 0 -> P 1 -> 0 <= x < 2 -> P x.
Proof. intros. assert (x = 0 \/ x = 1) as [-> | ->] by lia; done. Qed.
Lemma four_cases x (P : Z -> Prop) : P 0 -> P 1 -> P 2 -> P 3 -> 0 <= x < 4 -> P x.
Proof. intros. assert (x = 0 \/ x = 1 \/ x = 2 \/ x = 3) as [-> | [-> | [-> | ->]]] by lia; done. Qed.

(** The flag byte, field by field. *)
Lemma flag_byte_fields s : spec_ok s ->
  let f := flag_byte s in
  0 <= f < 256 /\ flag_cleansession f = cs_clean s /\ flag_will f = b2 (cs_will s) /\
  flag_username f = b2 (cs_user s) /\ flag_password f = b2 (cs_pass s) /\
  (forall t m q r, cs_will s = Some (t, m, q, r) -> flag_willQoS f = q /\ flag_willRetain f = r).
Proof.
  intros (_ & _ & Hc & Hw & _ & _) f. subst f. unfold flag_byte.
  set (P := fun c => let f := c * 2 + will_bits (cs_will s) + b2 (cs_pass s) * 64 + b2 (cs_user s) * 128 in
    0 <= f < 256 /\ flag_cleansession f = c /\ flag_will f = b2 (cs_will s) /\
    flag_username f = b2 (cs_user s) /\ flag_password f = b2 (cs_pass s) /\
    (forall t m q r, cs_will s = Some (t, m, q, r) -> flag_willQoS f = q /\ flag_willRetain f = r)).
  change (P (cs_clean s)). unfold P.
  destruct (cs_will s) as [[[[t m] q] r]|], (cs_user s), (cs_pass s); unfold will_ok in Hw; cbn [b2 will_bits];
    try (destruct Hw as (_ & _ & Hq & Hr); pattern r; (apply two_cases; [..|exact Hr]); pattern q; (apply four_cases; [..|exact Hq]));
    pattern (cs_clean s); (apply two_cases; [..|exact Hc]); cbv beta zeta; split_and!; first [done|by vm_compute|by intros ? ? ? ? [=]|by intros ? ? ? ? [= <- <- <- <-]; vm_compute].
Qed.

Lemma connect_flags_eq d s : represents d s -> spec_ok s -> connect_flags d = flag_byte s.
Proof.
  intros (_ & _ & Hcl & Hwd & Hu & Hp) (_ & _ & Hc & Hw & _ & _). unfold connect_flags, flag_byte. rewrite Hcl.
  assert (has_string (username d) = bool_decide (is_Some (cs_user s))) as ->.
  { destruct (cs_user s); cbn in Hu; [by destruct Hu as [-> _]|by rewrite Hu]. }
  assert (has_string (password d) = bool_decide (is_Some (cs_pass s))) as ->.
  { destruct (cs_pass s); cbn in Hp; [by destruct Hp as [-> _]|by rewrite Hp]. }
  destruct (cs_will s) as [[[[t m] q] r]|]; unfold will_denotes in Hwd; unfold will_ok in Hw; cbn [will_bits].
  - destruct Hwd as (-> & _ & _ & -> & ->). destruct Hw as (_ & _ & Hq & Hr).
    pattern r; (apply two_cases; [..|exact Hr]); pattern q; (apply four_cases; [..|exact Hq]);
      pattern (cs_clean s); (apply two_cases; [..|exact Hc]); by destruct (cs_user s), (cs_pass s).
  - rewrite Hwd. pattern (cs_clean s); (apply two_cases; [..|exact Hc]); by destruct (cs_user s), (cs_pass s).
Qed.

Lemma Zlen_protocol v : v = 3 \/ v = 4 -> Zlen (protocol_bytes v) = if v =? 3 then 9 else 7.
Proof. by intros [-> | ->]. Qed.
Lemma Zlen_opt_bytes o : Zlen (opt_bytes o) = match o with Some l => 2 + Zlen l | None => 0 end.
Proof. destruct o; cbn; [apply Zlen_string_bytes|done]. Qed.
Lemma Zlen_will_bytes o :
  Zlen (will_bytes o) = match o with Some (t, m, _, _) => 4 + Zlen t + Zlen m | None => 0 end.
Proof. destruct o as [[[[t m] q] r]|]; cbn; [zlen; lia|done]. Qed.

Lemma Zlen_connect_body v s : v = 3 \/ v = 4 ->
  Zlen (connect_body v s) = (if v =? 3 then 12 else 10) + (2 + Zlen (cs_client s)) +
    Zlen (will_bytes (cs_will s)) + Zlen (opt_bytes (cs_user s)) + Zlen (opt_bytes (cs_pass s)).
Proof.
  intros Hv. unfold connect_body. rewrite !Zlen_app, Zlen_string_bytes, Zlen_int_bytes, Zlen_protocol by done.
  change (Zlen [flag_byte s]) with 1. case_test; lia.
Qed.

Lemma opt_strlen s o (k : Z) : opt_denotes s o ->
  (if has_string s then n ← MQTTstrlen s; Ok (k + (n + 2)) else Ok k) = Ok (k + Zlen (opt_bytes o)).
Proof.
  rewrite Zlen_opt_bytes. destruct o as [l|]; cbn; [|intros ->; f_equal; lia].
  intros [-> Hd]. rewrite (MQTTstrlen_denotes _ _ Hd). cbn. f_equal. lia.
Qed.

Lemma connectLength_eq d s : represents d s -> MQTTVersion d = 3 \/ MQTTVersion d = 4 ->
  MQTTSerialize_connectLength d = Ok (Zlen (connect_body (MQTTVersion d) s)).
Proof.
  intros (Hc & _ & _ & Hw & Hu & Hp) Hv. rewrite Zlen_connect_body by done. unfold MQTTSerialize_connectLength.
  rewrite (MQTTstrlen_denotes _ _ Hc). cbn [mbind res_bind].
  set (k := _ + (Zlen (cs_client s) + 2)).
  assert ((if ctrue (willFlag d) then t ← MQTTstrlen (will_topicName (will d)); m ← MQTTstrlen (will_message (will d));
    Ok (k + (t + 2 + m + 2)) else Ok k) = Ok (k + Zlen (will_bytes (cs_will s)))) as ->.
  { rewrite Zlen_will_bytes. destruct (cs_will s) as [[[[t m] q] r]|]; cbn in Hw.
    - destruct Hw as (-> & Ht & Hm & _). cbn. rewrite (MQTTstrlen_denotes _ _ Ht), (MQTTstrlen_denotes _ _ Hm). cbn.
      f_equal. lia.
    - rewrite Hw. cbn. f_equal. lia. }
  cbn [mbind res_bind]. rewrite (opt_strlen _ _ _ Hu). cbn [mbind res_bind]. rewrite (opt_strlen _ _ _ Hp).
  f_equal. subst k. destruct Hv as [-> | ->]; cbn; lia.
Qed.

Lemma opt_write buf l s o flag : opt_denotes s o -> flag = b2 o -> Zlen l + Zlen (opt_bytes o) <= Zlen buf ->
  (if ctrue flag then writeMQTTString (wr buf l) s else Ok (wr buf l)) = Ok (wr buf (l ++ opt_bytes o)).
Proof.
  rewrite Zlen_opt_bytes. destruct o as [m|]; cbn; intros Hd -> Hl; cbn.
  - destruct Hd as [_ Hd]. apply writeMQTTString_wr; [done|lia].
  - by rewrite app_nil_r.
Qed.

Lemma will_write buf l d o : will_denotes d o -> Zlen l + Zlen (will_bytes o) <= Zlen buf ->
  (if ctrue (willFlag d) then w ← writeMQTTString (wr buf l) (will_topicName (will d));
     writeMQTTString w (will_message (will d)) else Ok (wr buf l)) = Ok (wr buf (l ++ will_bytes o)).
Proof.
  rewrite Zlen_will_bytes. destruct o as [[[[t m] q] r]|]; cbn; intros Hd Hl.
  - destruct Hd as (-> & Ht & Hm & _). cbn. pose proof (Zlen_nonneg m). rewrite (writeMQTTString_wr _ _ _ t) by (try done; lia).
    cbn [mbind res_bind]. rewrite (writeMQTTString_wr _ _ _ m) by (try done; zlen; lia). by rewrite <- app_assoc.
  - rewrite Hd. cbn. by rewrite app_nil_r.
Qed.

Lemma protocol_write buf l v : v = 3 \/ v = 4 -> Zlen l + Zlen (protocol_bytes v) <= Zlen buf ->
  (if v =? 4 then w ← writeCString (wr buf l) (name_MQTT ++ [0]); writeChar w 4
   else w ← writeCString (wr buf l) (name_MQIsdp ++ [0]); writeChar w 3) = Ok (wr buf (l ++ protocol_bytes v)).
Proof.
  assert (forall name c, Forall (fun c => c <> 0) name -> Zlen name < 65536 -> 0 <= c < 256 ->
    Zlen l + 3 + Zlen name <= Zlen buf ->
    (w ← writeCString (wr buf l) (name ++ [0]); writeChar w c) = Ok (wr buf (l ++ string_bytes name ++ [c]))) as H.
  { intros name c Hz Hn Hc Hl. unfold writeCString. rewrite strlen_eq by done. cbn [mbind res_bind].
    pose proof (Zlen_nonneg name). rewrite writeInt_wr by lia. cbn [mbind res_bind].
    rewrite (memcpy_wr _ _ _ _ _ [0]); [|apply suffix_start|zlen; lia]. cbn [mbind res_bind].
    rewrite writeChar_wr by (zlen; lia). rewrite wrap_small by (pow2_norm; lia). unfold string_bytes. by rewrite <- !app_assoc. }
  unfold protocol_bytes.
  intros [-> | ->]; cbn [Z.eqb Pos.eqb]; intros Hl; apply H; try done; try (repeat constructor; done).
  - zlen. change (Zlen name_MQIsdp) with 6 in *. lia.
  - zlen. change (Zlen name_MQTT) with 4 in *. lia.
Qed.

Lemma opt_max o : opt_ok o -> Zlen (opt_bytes o) < 65538.
Proof. rewrite Zlen_opt_bytes. destruct o; cbn; lia. Qed.
Lemma connect_body_max v s : spec_ok s -> v = 3 \/ v = 4 -> Zlen (connect_body v s) < max_body.
Proof.
  intros (Hc & _ & _ & Hw & Hu%opt_max & Hp%opt_max) Hv. rewrite Zlen_connect_body by done. unfold max_body.
  assert (Zlen (will_bytes (cs_will s)) < 200000); [|case_test; lia]. rewrite Zlen_will_bytes.
  destruct (cs_will s) as [[[[t m] q] r]|]; cbn in Hw; lia.
Qed.

(** ** Theorems *)

Lemma connect_serialize_eq (buf : list Z) (buflen : Z) (d : connectData) (s : connect_spec) :
  represents d s -> spec_ok s -> MQTTVersion d = 3 \/ MQTTVersion d = 4 -> buflen <= Zlen buf ->
  MQTTSerialize_connect buf buflen d =
    if buflen <? MQTTPacket_len (Zlen (connect_body (MQTTVersion d) s)) then Ok (buf, -2)
    else Ok (overwrite buf 0 (connect_bytes (MQTTVersion d) s), Zlen (connect_bytes (MQTTVersion d) s)).
Proof.
  intros Hr Hok Hv Hle. unfold MQTTSerialize_connect. rewrite (connectLength_eq d s Hr Hv). cbn [mbind res_bind].
  set (body := connect_body (MQTTVersion d) s). case_test; [done|].
  pose proof (connect_flags_eq d s Hr Hok) as Ef. destruct (flag_byte_fields s Hok) as (Hf & _ & _ & Hfu & Hfp & _).
  destruct Hr as (Hc & Hk & _ & Hw & Hu & Hp). pose proof Hok as Hok'. destruct Hok as (_ & Hkeep & _).
  pose proof (Zlen_connect_body (MQTTVersion d) s Hv) as Eb. fold body in Eb.
  pose proof (Zlen_nonneg (will_bytes (cs_will s))). pose proof (Zlen_nonneg (opt_bytes (cs_user s))).
  pose proof (Zlen_nonneg (opt_bytes (cs_pass s))). pose proof (Zlen_protocol _ Hv) as Epr.
  pose proof (connect_body_max (MQTTVersion d) s Hok' Hv) as Hmax. fold body in Hmax.
  pose proof (Zlen_nonneg (cs_client s)). pose proof (Zlen_remlen (Zlen body)) as Erl.
  assert (0 <= Zlen body) by apply Zlen_nonneg.
  pose proof (MQTTPacket_len_ge (Zlen body) ltac:(lia)).
  pose proof (Zlen_nonneg (remlen_bytes (Zlen body))).
  pose proof (write_packet_start buf (header_byte CONNECT 0 0 0) (Zlen body) (header_byte_range _ _ _ _)) as Ew.
  destruct (writeChar (buf, 0) _) as [w|]; [|by specialize (Ew ltac:(lia) ltac:(lia))].
  cbn [mbind res_bind] in Ew |- *. rewrite Ew by lia. cbn [mbind res_bind]. clear Ew w.
  assert (Zlen (protocol_bytes (MQTTVersion d)) + 3 = if MQTTVersion d =? 3 then 12 else 10) as Epr' by (rewrite Epr; case_test; lia).
  rewrite <- Epr' in Eb. clear Epr Epr' Erl.
  rewrite protocol_write by (try done; zlen; lia). cbn [mbind res_bind].
  rewrite writeChar_wr by (zlen; lia). cbn [mbind res_bind].
  rewrite Hk, writeInt_wr by (first [exact Hkeep|zlen; lia]). cbn [mbind res_bind].
  rewrite (writeMQTTString_wr _ _ _ (cs_client s)) by (try done; zlen; lia). cbn [mbind res_bind].
  rewrite (will_write _ _ _ (cs_will s)) by (try done; zlen; lia). cbn [mbind res_bind].
  rewrite Ef. rewrite (opt_write _ _ _ (cs_user s)) by (try done; zlen; lia). cbn [mbind res_bind].
  rewrite (opt_write _ _ _ (cs_pass s)) by (try done; zlen; lia).
  unfold connect_bytes, packet, wr. fold body. rewrite (wrap_small 8) by exact Hf.
  unfold body at 2 4, connect_body. cbn [app]. by rewrite <- !app_assoc, <- !app_comm_cons.
Qed.

(** Connect options of protocol version 3 or 4 are refused when the
    length estimate exceeds [buflen] and are otherwise written, inside the
    buffer, as exactly the CONNECT packet of the wire format. *)
Theorem connect_serialize (buf : list Z) (buflen : Z) (d : connectData) (s : connect_spec) :
  represents d s -> spec_ok s -> MQTTVersion d = 3 \/ MQTTVersion d = 4 -> buflen <= Zlen buf ->
  MQTTSerialize_connect buf buflen d =
    if buflen <? MQTTPacket_len (Zlen (connect_body (MQTTVersion d) s)) then Ok (buf, -2)
    else Ok (overwrite buf 0 (connect_bytes (MQTTVersion d) s), Zlen (connect_bytes (MQTTVersion d) s)).
Proof. apply connect_serialize_eq. Qed.

Lemma connect_serialize_witness :
  let d := MkConnect 4 (MkStr (Some ([97] ++ 0 :: [])) 0 None) 60 1 0
    (MkWill MQTTString_initializer MQTTString_initializer 0 0) MQTTString_initializer MQTTString_initializer in
  represents d (MkSpec [97] 60 1 None None None) /\
  MQTTSerialize_connect (replicate 16 0) 16 d = Ok ([16; 13; 0; 4; 77; 81; 84; 84; 4; 2; 0; 60; 0; 1; 97; 0], 15).
Proof.
  intros d. assert (represents d (MkSpec [97] 60 1 None None None)) as Hr.
  { split; [|done]. apply denotes_cstring; [by vm_compute|done|]. repeat constructor; done. }
  split; [exact Hr|].
  etransitivity; [apply (connect_serialize (replicate 16 0) 16 d _ Hr); [by vm_compute|by right|by vm_compute]|by vm_compute].
Defined.

(** ** Parsing *)
Lemma read_field_suffix get set b e d p l r :
  suffix b p (string_bytes l ++ r) -> p + 2 + Zlen l <= e -> Zlen l < 65536 ->
  exists t, read_field get set b e d p = Ok (set d t, Some (p + 2 + Zlen l)) /\ denotes t l /\
    suffix b (p + 2 + Zlen l) r /\ has_string t = true.
Proof.
  intros Hs He Hl. unfold read_field.
  destruct (readMQTTLenString_suffix (get d) b p e l r Hs He) as (q & -> & -> & Hm & Hs2). cbn.
  eexists. split; [done|]. split; [by eapply readMQTTLenString_denotes|done].
Qed.

Lemma readByte_suffix b p c r : suffix b p (c :: r) -> 0 <= c < 256 ->
  exists x, readChar b p = Ok (x, p + 1) /\ u8 x = c /\ suffix b (p + 1) r.
Proof.
  intros Hs Hc. rewrite (readChar_suffix _ _ _ _ Hs). apply suffix_cons in Hs as [_ Hs].
  exists (s8 c). split; [done|]. split; [|done]. unfold wrap, swrap. change (2 ^ (8 - 1)) with 128.
  change (2 ^ 8) with 256. rewrite Zminus_mod_idemp_l. replace (c + 128 - 128) with c by lia. by apply Z.mod_small.
Qed.

Lemma read_will_eq b e d p o rest Q R :
  suffix b p (will_bytes o ++ rest) -> will_ok o -> p + Zlen (will_bytes o) <= e -> willFlag d = b2 o ->
  (forall t m q r, o = Some (t, m, q, r) -> Q = q /\ R = r) ->
  exists w, (if ctrue (b2 o) then
      let d := set_will d (MkWill (will_topicName (will d)) (will_message (will d)) R Q) in
      continue (read_field (fun d => will_topicName (will d)) set_will_topic b e d p)
        (read_field (fun d => will_message (will d)) set_will_message b e)
    else Ok (d, Some p)) = Ok (set_will d w, Some (p + Zlen (will_bytes o))) /\
    will_denotes (set_will d w) o /\ suffix b (p + Zlen (will_bytes o)) rest.
Proof.
  rewrite Zlen_will_bytes. destruct o as [[[[t m] q] r]|]; cbn [b2 ctrue Z.eqb negb will_bytes will_ok].
  - intros Hs (Ht & Hm & _) He Hf HQ. destruct (HQ t m q r eq_refl) as [-> ->].
    pose proof (Zlen_nonneg t). pose proof (Zlen_nonneg m). rewrite <- app_assoc in Hs. set (d1 := set_will d _).
    destruct (read_field_suffix (fun d => will_topicName (will d)) set_will_topic b e d1 p t _ Hs)
      as (tt & E1 & Htt & Hs1 & _); [lia|done|]. unfold continue. cbn. rewrite E1. cbn [mbind res_bind].
    destruct (read_field_suffix (fun d => will_message (will d)) set_will_message b e (set_will_topic d1 tt) _ m _ Hs1)
      as (tm & E2 & Htm & Hs2 & _); [lia|done|]. rewrite E2.
    exists (MkWill tt tm r q). replace (p + (4 + Zlen t + Zlen m)) with (p + 2 + Zlen t + 2 + Zlen m) by lia.
    split; [done|]. split; [done|done].
  - intros Hs _ He Hf _. exists (will d). rewrite Z.add_0_r. split; [by destruct d|done].
Qed.

(** What the parser takes for a login: no password without a user name, and
    the last string is not empty. *)
Definition login_accepted (user pass : option (list Z)) : bool :=
  match user, pass with
  | None, None => true
  | None, Some _ => false
  | Some u, None => 1 <=? Zlen u
  | Some _, Some w => 1 <=? Zlen w
  end.

Lemma read_login_eq b e d p ou op rest :
  suffix b p (opt_bytes ou ++ opt_bytes op ++ rest) -> opt_ok ou -> opt_ok op ->
  e = p + Zlen (opt_bytes ou) + Zlen (opt_bytes op) ->
  has_string (username d) = false -> has_string (password d) = false ->
  exists u x q, (if ctrue (b2 ou) then
    if e - p <? 3 then Ok (d, None) else
    continue (read_field username set_username b e d p) (fun d p =>
    if ctrue (b2 op) then
      if e - p <? 3 then Ok (d, None) else read_field password set_password b e d p
    else Ok (d, Some p))
  else if ctrue (b2 op) then Ok (d, None) else Ok (d, Some p)) = Ok (set_password (set_username d u) x, q) /\
    if login_accepted ou op then q = Some e /\ opt_denotes u ou /\ opt_denotes x op else q = None.
Proof.
  rewrite !Zlen_opt_bytes. intros Hs Hu Hp He Hud Hpd. assert (d = set_password (set_username d (username d)) (password d)) as Ed by (by destruct d).
  destruct ou as [l|]; cbn [b2 ctrue Z.eqb negb opt_bytes opt_ok] in *.
  - pose proof (Zlen_nonneg l). destruct op as [m|]; cbn [b2 ctrue Z.eqb negb opt_bytes opt_ok login_accepted] in *.
    + pose proof (Zlen_nonneg m). rewrite (proj2 (Z.ltb_ge _ 3)) by lia. unfold continue.
      destruct (read_field_suffix username set_username b e d p l _ Hs) as (u & -> & Hu1 & Hs1 & Hh); [lia|lia|].
      cbn [mbind res_bind]. destruct (Z.leb_spec 1 (Zlen m)).
      * rewrite (proj2 (Z.ltb_ge _ 3)) by lia.
        destruct (read_field_suffix password set_password b e (set_username d u) _ m _ Hs1) as (x & -> & Hx & _ & Hhx); [lia|lia|].
        exists u, x, (Some e). split; [do 3 f_equal; lia|done].
      * rewrite (proj2 (Z.ltb_lt _ 3)) by lia. exists u, (password d), None. by destruct d.
    + destruct (Z.leb_spec 1 (Zlen l)).
      * rewrite (proj2 (Z.ltb_ge _ 3)) by lia. unfold continue.
        destruct (read_field_suffix username set_username b e d p l _ Hs) as (u & -> & Hu1 & Hs1 & Hh); [lia|lia|].
        exists u, (password d), (Some e). cbn [mbind res_bind]. split; [destruct d; do 3 f_equal; lia|done].
      * rewrite (proj2 (Z.ltb_lt _ 3)) by lia. exists (username d), (password d), None. by rewrite <- Ed.
  - exists (username d), (password d), (if op then None else Some p). destruct op; cbn [b2 ctrue Z.eqb negb login_accepted]; rewrite <- Ed; [done|].
    split; [done|]. split; [f_equal; lia|done].
Qed.

Lemma read_connect_rest_eq b e d p s rest :
  spec_ok s -> has_string (username d) = false -> has_string (password d) = false ->
  suffix b p ([flag_byte s] ++ int_bytes (cs_keep s) ++ string_bytes (cs_client s) ++ will_bytes (cs_will s) ++
    opt_bytes (cs_user s) ++ opt_bytes (cs_pass s) ++ rest) ->
  e = p + 5 + Zlen (cs_client s) + Zlen (will_bytes (cs_will s)) + Zlen (opt_bytes (cs_user s)) + Zlen (opt_bytes (cs_pass s)) ->
  exists d' q, read_connect_rest b e d p = Ok (d', q) /\ MQTTVersion d' = MQTTVersion d /\
    if login_accepted (cs_user s) (cs_pass s) then q = Some e /\ represents d' s else q = None.
Proof.
  intros Hok Hu0 Hp0 Hs ->. destruct (flag_byte_fields s Hok) as (Hf & Fc & Fw & Fu & Fp & Fwq).
  destruct Hok as (Hcl & Hk & _ & Hw & Hu & Hp).
  pose proof (Zlen_nonneg (will_bytes (cs_will s))). pose proof (Zlen_nonneg (opt_bytes (cs_user s))).
  pose proof (Zlen_nonneg (opt_bytes (cs_pass s))). set (e := p + 5 + _ + _ + _ + _).
  unfold read_connect_rest. apply readByte_suffix in Hs as (x & -> & Ex & Hs); [|done]. cbn [mbind res_bind].
  rewrite Ex, Fc, Fw, Fu, Fp. apply readInt_suffix in Hs as [-> Hs]; [|apply Hk]. cbn [mbind res_bind].
  set (d1 := MkConnect _ _ _ _ _ _ _ _). unfold continue at 1.
  destruct (read_field_suffix clientID set_clientID b e d1 _ _ _ Hs) as (tc & -> & Htc & Hs1 & _); [subst e; lia|done|].
  cbn [mbind res_bind]. set (d2 := MkConnect _ _ _ _ _ _ _ _). set (p2 := p + 1 + 2 + 2 + Zlen (cs_client s)) in *.
  destruct (read_will_eq b e d2 p2 _ _ (flag_willQoS (flag_byte s)) (flag_willRetain (flag_byte s)) Hs1 Hw)
    as (w & E & Hwd & Hs2); [subst e p2; lia|done|done|].
  cbv zeta in E. unfold continue at 1. rewrite E. cbn [mbind res_bind].
  destruct (read_login_eq b e (set_will d2 w) (p2 + Zlen (will_bytes (cs_will s))) _ _ _ Hs2 Hu Hp)
    as (u & y & q & -> & Hq); [subst e p2; lia|done|done|].
  eexists _, q. split; [done|]. split; [done|]. destruct (login_accepted _ _); [|done]. destruct Hq as (-> & Hud & Hpd). by split_and!.
Qed.

Lemma checkVersion_protocol v b : v = 3 \/ v = 4 ->
  exists name c, protocol_bytes v = string_bytes name ++ [c] /\ 0 <= c < 256 /\
    Zlen name = (if v =? 3 then 6 else 4) /\
    (forall x p r, u8 x = c -> -128 <= x < 128 -> suffix b p (name ++ r) ->
      MQTTPacket_checkVersion (MkStr None (Zlen name) (Some (b, p))) x = Ok 1).
Proof.
  intros [-> | ->].
  - exists name_MQIsdp, 3. split_and!; try done. intros x p r Ex Hx Hsp.
    assert (x = 3) as ->.
    { unfold wrap in Ex. change (2 ^ 8) with 256 in Ex. pose proof (Z.div_mod x 256).
      assert (x / 256 = 0 \/ x / 256 = -1) by (pose proof (Z.mod_pos_bound x 256); lia). lia. }
    unfold MQTTPacket_checkVersion, same_prefix. cbn [Z.eqb Pos.eqb len data].
    change (if 6 <? Zlen name_MQIsdp then 6 else Zlen name_MQIsdp) with 6.
    by rewrite (suffix_read_bytes _ _ _ _ 6 Hsp).
  - exists name_MQTT, 4. split_and!; try done. intros x p r Ex Hx Hsp.
    assert (x = 4) as ->.
    { unfold wrap in Ex. change (2 ^ 8) with 256 in Ex. pose proof (Z.div_mod x 256).
      assert (x / 256 = 0 \/ x / 256 = -1) by (pose proof (Z.mod_pos_bound x 256); lia). lia. }
    unfold MQTTPacket_checkVersion, same_prefix. cbn [Z.eqb Pos.eqb len data mbind res_bind].
    change (if 4 <? Zlen name_MQTT then 4 else Zlen name_MQTT) with 4.
    by rewrite (suffix_read_bytes _ _ _ _ 4 Hsp).
Qed.

(** C10: A CONNECT packet of either protocol version is accepted exactly when
    its password comes with a user name and the last login string is not empty.
    The structure then represents what the packet says, all but the protocol
    version: the field [MQTTVersion] keeps the value it had before. *)
Theorem connect_round_trip (d : connectData) (v : Z) (s : connect_spec) (rest : list Z) :
  v = 3 \/ v = 4 -> spec_ok s -> has_string (username d) = false -> has_string (password d) = false ->
  exists d', MQTTDeserialize_connect d (connect_bytes v s ++ rest) (Zlen (connect_bytes v s)) =
      Ok (d', cbool (login_accepted (cs_user s) (cs_pass s))) /\
    MQTTVersion d' = MQTTVersion d /\ (login_accepted (cs_user s) (cs_pass s) = true -> represents d' s).
Proof.
  intros Hv Hok Hu0 Hp0. pose proof (connect_body_max v s Hok Hv) as Hmax.
  set (h := header_byte CONNECT 0 0 0). destruct (packet_suffix h (connect_body v s) rest Hmax) as [El Hs].
  unfold MQTTDeserialize_connect, connect_bytes. fold h.
  assert (read_header (packet h (connect_body v s) ++ rest) = Ok (h, 1)) as -> by (by apply read_header_packet).
  cbn [mbind res_bind]. change (negb (header_type h =? CONNECT)) with false. cbv iota. rewrite El. cbn [mbind res_bind].
  set (b := packet h (connect_body v s) ++ rest) in *.
  assert (Zlen (packet h (connect_body v s)) = 1 + Zlen (remlen_bytes (Zlen (connect_body v s))) + Zlen (connect_body v s)) as Ee
    by (unfold packet; zlen; lia).
  rewrite Ee. set (p0 := 1 + Zlen (remlen_bytes (Zlen (connect_body v s)))) in *.
  pose proof (Zlen_connect_body v s Hv) as Eb. pose proof (Zlen_nonneg (cs_client s)).
  pose proof (Zlen_nonneg (will_bytes (cs_will s))). pose proof (Zlen_nonneg (opt_bytes (cs_user s))).
  pose proof (Zlen_nonneg (opt_bytes (cs_pass s))).
  destruct (checkVersion_protocol v b Hv) as (name & c & Ep & Hc & Hn & Hcheck).
  unfold connect_body in Hs. rewrite Ep, <- !app_assoc in Hs.
  destruct (readMQTTLenString_suffix MQTTString_initializer b p0 (p0 + Zlen (connect_body v s)) name _ Hs)
    as (q & -> & Eq & Hs1 & Hs2); [destruct (v =? 3); lia|].
  cbn [mbind res_bind]. change (negb (ctrue 1)) with false. cbn [orb].
  rewrite (proj2 (Z.ltb_ge _ 0)) by (destruct (v =? 3); lia).
  rewrite (readChar_suffix _ _ _ _ Hs2). cbn [mbind res_bind].
  destruct (readByte_suffix _ _ _ _ Hs2 Hc) as (x & Ex & Exc & Hs3).
  rewrite (readChar_suffix _ _ _ _ Hs2) in Ex. injection Ex as Ex.
  rewrite (Hcheck (s8 c) _ _ ltac:(by rewrite Ex) (swrap_range 8 c ltac:(lia)) Hs1). cbn [mbind res_bind].
  change (ctrue 1) with true. cbv iota.
  destruct (read_connect_rest_eq b (p0 + Zlen (connect_body v s)) d (q + 1) s rest Hok Hu0 Hp0 Hs3) as (d' & q' & -> & Ev & Hr);
    [destruct (v =? 3); lia|].
  cbn [mbind res_bind]. exists d'. destruct (login_accepted _ _); [destruct Hr as [-> Hr]|subst q']; done.
Qed.

Lemma connect_round_trip_witness :
  let s := MkSpec [97] 60 1 (Some ([116], [109], 2, 1)) (Some [117]) (Some [112]) in
  let d := MkConnect 4 MQTTString_initializer 0 0 0 (MkWill MQTTString_initializer MQTTString_initializer 0 0)
    MQTTString_initializer MQTTString_initializer in
  spec_ok s /\ exists d', MQTTDeserialize_connect d (connect_bytes 4 s ++ []) (Zlen (connect_bytes 4 s)) = Ok (d', 1) /\ represents d' s.
Proof.
  intros s d. assert (spec_ok s) as Hs by (by vm_compute). split; [done|].
  destruct (connect_round_trip d 4 s []) as (d' & E & _ & Hr); [by right|exact Hs|done|done|]. exists d'. split; [exact E|by apply Hr].
Defined.

(** The protocol name is compared over the shorter of the two lengths
    only, so that the empty name passes for either version; and a CONNECT
    that carries an empty user name, which the serializer writes, is
    rejected. *)
Theorem connect_parse_defects :
  (forall n d, MQTTPacket_checkVersion (MkStr n 0 (Some ([], 0))) 3 = Ok 1 /\
    MQTTPacket_checkVersion (MkStr n 0 (Some ([], 0))) 4 = Ok 1 /\ MQTTPacket_checkVersion (MkStr n 0 d) 5 = Ok 0) /\
  exists d s d', represents d s /\ MQTTVersion d = 4 /\ cs_user s = Some [] /\
    MQTTSerialize_connect (replicate 20 0) 20 d = Ok (overwrite (replicate 20 0) 0 (connect_bytes 4 s), Zlen (connect_bytes 4 s)) /\
    MQTTDeserialize_connect d (connect_bytes 4 s) (Zlen (connect_bytes 4 s)) = Ok (d', 0).
Proof.
  split; [intros n d; by split_and!|].
  set (str := MkStr None 1 (Some ([97], 0))).
  exists (MkConnect 4 str 60 1 0 (MkWill str str 0 0) (MkStr None 0 (Some ([97], 0))) MQTTString_initializer).
  exists (MkSpec [97] 60 1 None (Some []) None).
  eexists. split_and!; try done.
  - split_and!; try done.
    + apply (denotes_lenstring [97] 0 [97] []); [by vm_compute|apply suffix_start].
    + split; [done|]. apply (denotes_lenstring [97] 0 [] [97]); [by vm_compute|apply suffix_start].
Qed.

(** Connack checks for two bytes and writes four, so that a buffer of
    two or three bytes is overrun; with four the packet is written, and parsed
    back to its return code and session flag. *)
Theorem connack_bound (buf : list Z) (rc present : Z) (o : Z * Z) :
  is_u8 rc -> 0 <= present < 2 ->
  (4 <= Zlen buf -> exists pkt,
     MQTTSerialize_connack buf (Zlen buf) rc present = Ok (overwrite buf 0 pkt, 4) /\
     MQTTDeserialize_connack o pkt = Ok ((present, rc), 1)) /\
  (2 <= Zlen buf < 4 -> MQTTSerialize_connack buf (Zlen buf) rc present = Err OutOfBounds).
Proof.
  intros Hrc Hp. split.
  - intros Hl. exists [32; 2; present * 128; rc]. unfold MQTTSerialize_connack. rewrite (proj2 (Z.ltb_ge _ 2)) by lia.
    pose proof (write_packet_start buf (header_byte CONNACK 0 0 0) 2 (header_byte_range _ _ _ _)) as Ew.
    change (Zlen (remlen_bytes 2)) with 1 in Ew. unfold max_body in Ew.
    destruct (writeChar (buf, 0) _) as [w|]; [|by specialize (Ew ltac:(lia) ltac:(lia))].
    cbn [mbind res_bind] in Ew |- *. rewrite Ew by lia. cbn [mbind res_bind]. clear Ew.
    rewrite writeChar_wr by (change (Zlen (header_byte CONNACK 0 0 0 :: remlen_bytes 2)) with 2; lia). cbn [mbind res_bind].
    rewrite writeChar_wr by (zlen; change (Zlen (remlen_bytes 2)) with 1; lia). rewrite (wrap_small 8 rc) by exact Hrc.
    assert (u8 (s8 rc) = rc) as Es.
    { pow2_norm. destruct (readByte_suffix [rc] 0 rc [] (suffix_start _) Hrc) as (x & [= <-] & E & _). done. }
    assert (forall f, MQTTDeserialize_connack o [32; 2; f; rc] = Ok ((get_bits 7 1 (u8 (s8 f)), u8 (s8 rc)), 1)) as E by done.
    rewrite E, Es. by assert (present = 0 \/ present = 1) as [-> | ->] by lia.
  - intros Hl. unfold MQTTSerialize_connack. rewrite (proj2 (Z.ltb_ge _ 2)) by lia.
    assert ((exists x y, buf = [x; y]) \/ (exists x y z, buf = [x; y; z])) as [(x & y & ->) | (x & y & z & ->)]; [|done..].
    destruct buf as [|x [|y [|z [|w buf]]]]; zlen; try lia.
    + left. by do 2 eexists.
    + right. by do 3 eexists.
    + pose proof (Zlen_nonneg buf). lia.
Qed.

Lemma connack_bound_witness :
  MQTTSerialize_connack [0; 0; 0] (Zlen [0; 0; 0]) 5 1 = Err OutOfBounds.
Proof. apply (connack_bound [0; 0; 0] 5 1 (0, 0)); by vm_compute. Defined.
