(* ===== verification/MqttClient.v ===== *)
(** The MQTT client of src/src/mqtt/MQTTClient-C/src/MQTTClient.c over the
    packet library: sending and receiving packets with timeouts, topic
    matching and delivery, and the exchanges of CONNECT, SUBSCRIBE,
    UNSUBSCRIBE, PUBLISH and DISCONNECT. *)
From S2P Require Import Prelude Timer Bus MqttPacket MqttPublish MqttSubscribe MqttConnect.

(** ** Data *)
Definition MAX_PACKET_ID := 65535.
Definition MAX_MESSAGE_HANDLERS := 5.
Definition QOS0 := 0.
Definition QOS1 := 1.
Definition QOS2 := 2.
Definition FAILURE := -1.
Definition SUCCESS := 0.

(** [MQTTMessage]: what [MQTTDeserialize_publish] fills in, without the topic. *)
Record MQTTMessage := MkMsg { qos : Z; retained : Z; dup : Z; id : Z; payload : ptr; payloadlen : Z }.

(** [struct MessageHandlers]: a zero-terminated topic filter and the number
    that stands for the handler function. *)
Record message_handler := MkHandler { topicFilter : option (list Z); fp : option Z }.

(** [struct mqtt_client], its buffers included. *)
Record mqtt_client := MkClient {
  next_packetid : Z;
  command_timeout_ms : Z;
  buf_size : Z;
  readbuf_size : Z;
  c_buf : list Z;
  readbuf : list Z;
  keepAliveInterval : Z;
  ping_outstanding : Z;
  isconnected : Z;
  messageHandlers : list message_handler;
  defaultMessageHandler : option Z;
  ping_timer : timer
}.
Definition set_next_packetid (n : Z) (c : mqtt_client) := MkClient n (command_timeout_ms c) (buf_size c) (readbuf_size c) (c_buf c)
  (readbuf c) (keepAliveInterval c) (ping_outstanding c) (isconnected c) (messageHandlers c) (defaultMessageHandler c) (ping_timer c).
Definition set_buf (b : list Z) (c : mqtt_client) := MkClient (next_packetid c) (command_timeout_ms c) (buf_size c) (readbuf_size c) b
  (readbuf c) (keepAliveInterval c) (ping_outstanding c) (isconnected c) (messageHandlers c) (defaultMessageHandler c) (ping_timer c).
Definition set_readbuf (b : list Z) (c : mqtt_client) := MkClient (next_packetid c) (command_timeout_ms c) (buf_size c) (readbuf_size c) (c_buf c)
  b (keepAliveInterval c) (ping_outstanding c) (isconnected c) (messageHandlers c) (defaultMessageHandler c) (ping_timer c).
Definition set_keepAliveInterval (k : Z) (c : mqtt_client) := MkClient (next_packetid c) (command_timeout_ms c) (buf_size c) (readbuf_size c) (c_buf c)
  (readbuf c) k (ping_outstanding c) (isconnected c) (messageHandlers c) (defaultMessageHandler c) (ping_timer c).
Definition set_ping_outstanding (p : Z) (c : mqtt_client) := MkClient (next_packetid c) (command_timeout_ms c) (buf_size c) (readbuf_size c) (c_buf c)
  (readbuf c) (keepAliveInterval c) p (isconnected c) (messageHandlers c) (defaultMessageHandler c) (ping_timer c).
Definition set_isconnected (i : Z) (c : mqtt_client) := MkClient (next_packetid c) (command_timeout_ms c) (buf_size c) (readbuf_size c) (c_buf c)
  (readbuf c) (keepAliveInterval c) (ping_outstanding c) i (messageHandlers c) (defaultMessageHandler c) (ping_timer c).
Definition set_messageHandlers (h : list message_handler) (c : mqtt_client) := MkClient (next_packetid c) (command_timeout_ms c) (buf_size c) (readbuf_size c) (c_buf c)
  (readbuf c) (keepAliveInterval c) (ping_outstanding c) (isconnected c) h (defaultMessageHandler c) (ping_timer c).
Definition set_ping_timer (t : timer) (c : mqtt_client) := MkClient (next_packetid c) (command_timeout_ms c) (buf_size c) (readbuf_size c) (c_buf c)
  (readbuf c) (keepAliveInterval c) (ping_outstanding c) (isconnected c) (messageHandlers c) (defaultMessageHandler c) t.

(** What the client is given: the clock, [struct mqtt_network] and the
    application's handlers. [net_read size timeout] is the count returned and
    the bytes stored; a handler acts on the world, not on the client. *)
Class Network (W : Type) := {
  os_get_time : M W Z;
  net_read : Z -> Z -> M W (Z * list Z);
  net_write : list Z -> Z -> M W Z;
  on_message : Z -> MQTTString -> MQTTMessage -> M W unit
}.

(** ** Topic matching *)
Fixpoint skip_level (fuel : nat) (n : ptr) (curn curn_end : Z) : res Z :=
  match fuel with
  | O => Err NoFuel
  | S fuel =>
    if curn + 1 <? curn_end then
      c ← load (ptr_add n (curn + 1));
      if c =? 47 then Ok curn else skip_level fuel n (curn + 1) curn_end
    else Ok curn
  end.
Fixpoint topic_loop (fuel : nat) (f : list Z) (n : ptr) (curf curn curn_end : Z) : res (Z * Z) :=
  match fuel with
  | O => Err NoFuel
  | S fuel =>
    cf ← bget f curf;
    if negb (cf =? 0) && (curn <? curn_end) then
      cn ← load (ptr_add n curn);
      if (cn =? 47) && negb (cf =? 47) then Ok (curf, curn) else
      if negb (cf =? 43) && negb (cf =? 35) && negb (cf =? cn) then Ok (curf, curn) else
      curn ← (if cf =? 43 then skip_level fuel n curn curn_end
              else if cf =? 35 then Ok (curn_end - 1) else Ok curn);
      topic_loop fuel f n (curf + 1) (curn + 1) curn_end
    else Ok (curf, curn)
  end.
Definition isTopicMatched (fuel : nat) (topicFilter : list Z) (topicName : MQTTString) : res Z :=
  '(curf, curn) ← topic_loop fuel topicFilter (data topicName) 0 0 (len topicName);
  cf ← bget topicFilter curf;
  Ok (cbool ((curn =? len topicName) && (cf =? 0))).

(** ** The client

    A call changes the client and the world around it. *)
Section client.
  Context {W : Type} `{Network W}.

Definition C : Type := mqtt_client * W.
Notation client := (self : M C mqtt_client).
Definition now : M C Z := lift os_get_time.

Definition getNextPacketId : M C Z :=
  c ← client;
  let n := if next_packetid c =? MAX_PACKET_ID then 1 else next_packetid c + 1 in
  _ ← update (set_next_packetid n); mret n.

(** Every round of the loop offers [length] bytes from [&c->buf[sent]]. The
    loop returns [sent]. *)
Fixpoint sendPacket_loop (fuel : nat) (length sent : Z) (timer : timer) : M C Z :=
  match fuel with
  | O => pure (Err NoFuel)
  | S fuel =>
    if sent <? length then
      t ← now;
      if ctrue (timer_is_expired timer t) then mret sent else
      c ← client;
      dat ← pure (read_bytes (c_buf c) sent length);
      t ← now;
      rc ← lift (net_write dat (timer_left_ms timer t));
      if rc <? 0 then mret sent else sendPacket_loop fuel length (sent + rc) timer
    else mret sent
  end.
Definition sendPacket (fuel : nat) (length : Z) (timer : timer) : M C Z :=
  sent ← sendPacket_loop fuel length 0 timer;
  if sent =? length then
    c ← client;
    t ← now;
    p ← pure (timer_countdown_second t (keepAliveInterval c));
    _ ← update (set_ping_timer p);
    mret SUCCESS
  else mret FAILURE.

(** [MQTTClientInit]; the fields it does not set keep their values. *)
Definition MQTTClientInit (command_timeout sendbuf_size rbuf_size : Z) (sendbuf rbuf : list Z) (c : mqtt_client) : mqtt_client :=
  MkClient 1 command_timeout sendbuf_size rbuf_size sendbuf rbuf (keepAliveInterval c) 0 0
    ((fun h => MkHandler None (fp h)) <$> messageHandlers c) None (ping_timer c).

(** The length bytes read and [*value]; an error leaves what was read. *)
Fixpoint decodePacket_loop (fuel : nat) (timeout len value multiplier : Z) : M C (Z * Z) :=
  match fuel with
  | O => pure (Err NoFuel)
  | S fuel =>
    let len := len + 1 in
    if 4 <? len then mret (len, value) else
    '(rc, l) ← lift (net_read 1 timeout);
    if negb (rc =? 1) then mret (len, value) else
    i ← pure (match l with i :: _ => Ok i | [] => Err Uninit end);
    let value := value + Z.land i 127 * multiplier in
    if negb (Z.land i 128 =? 0) then decodePacket_loop fuel timeout len value (multiplier * 128)
    else mret (len, value)
  end.
Definition decodePacket (timeout : Z) : M C (Z * Z) := decodePacket_loop 5 timeout 0 0 1.

(** [c->ipstack->read(priv, c->readbuf + o, n, timer_left_ms(timer))] *)
Definition read_into (o n : Z) (timer : timer) : M C Z :=
  t ← now;
  '(rc, l) ← lift (net_read n (timer_left_ms timer t));
  c ← client;
  '(b, _) ← pure (write_bytes (readbuf c, o) l);
  _ ← update (set_readbuf b);
  mret rc.
Definition readPacket (timer : timer) : M C Z :=
  rc ← read_into 0 1 timer;
  if negb (rc =? 1) then mret FAILURE else
  t ← now;
  '(_, rem_len) ← decodePacket (timer_left_ms timer t);
  c ← client;
  '(b, n) ← pure (MQTTPacket_encode (readbuf c) 1 rem_len);
  _ ← update (set_readbuf b);
  let len := 1 + n in
  rc ← (if 0 <? rem_len then read_into len rem_len timer else mret rem_len);
  if negb (rc =? rem_len) then mret FAILURE else
  c ← client;
  h ← pure (bget (readbuf c) 0);
  mret (header_type h).

(** The loop over the handlers; [rc] is the result so far. *)
Fixpoint deliver_loop (fuel : nat) (hs : list message_handler) (topicName : MQTTString) (message : MQTTMessage) (rc : Z) : M C Z :=
  match hs with
  | [] => mret rc
  | h :: hs =>
    match topicFilter h with
    | None => deliver_loop fuel hs topicName message rc
    | Some f =>
      eq ← pure (MQTTPacket_equals topicName f);
      matched ← (if ctrue eq then mret 1 else pure (isTopicMatched fuel f topicName));
      match (if ctrue matched then fp h else None) with
      | Some g => _ ← lift (on_message g topicName message); deliver_loop fuel hs topicName message SUCCESS
      | None => deliver_loop fuel hs topicName message rc
      end
    end
  end.
Definition deliverMessage (fuel : nat) (topicName : MQTTString) (message : MQTTMessage) : M C Z :=
  c ← client;
  rc ← deliver_loop fuel (messageHandlers c) topicName message FAILURE;
  c ← client;
  match (if rc =? FAILURE then defaultMessageHandler c else None) with
  | Some g => _ ← lift (on_message g topicName message); mret SUCCESS
  | None => mret rc
  end.

Definition keepalive (fuel : nat) : M C Z :=
  c ← client;
  if keepAliveInterval c =? 0 then mret SUCCESS else
  t ← now;
  if negb (ctrue (timer_is_expired (ping_timer c) t)) then mret FAILURE else
  if ctrue (ping_outstanding c) then mret FAILURE else
  t ← now;
  let timer := timer_countdown_ms t (command_timeout_ms c) in
  '(b, len) ← pure (MQTTSerialize_pingreq (c_buf c) (buf_size c));
  _ ← update (set_buf b);
  if 0 <? len then
    rc ← sendPacket fuel len timer;
    if rc =? SUCCESS then _ ← update (set_ping_outstanding 1); mret rc else mret rc
  else mret FAILURE.

(** ** One cycle

    [junk] is what local variables hold before a parser fills them in;
    [fuel] bounds every loop that waits, sends or compares topics. *)
  Context (junk : publish_out) (fuel : nat).
Definition junk_ack : ack_out := MkAck 0 0 (pub_packetid junk).

(** [Some rc] is a jump to the label [exit], [None] the end of the case. *)
Definition cycle_publish (timer : timer) : M C (option Z) :=
  c ← client;
  '(o, ok) ← pure (MQTTDeserialize_publish junk (readbuf c));
  if negb (ok =? 1) then mret (Some SUCCESS) else
  let msg := MkMsg (pub_qos o) (pub_retained o) (pub_dup o) (pub_packetid o) (pub_payload o) (pub_payloadlen o) in
  _ ← deliverMessage fuel (pub_topicName o) msg;
  if qos msg =? QOS0 then mret None else
  c ← client;
  '(b, len) ← pure (if qos msg =? QOS1 then MQTTSerialize_ack (c_buf c) (buf_size c) PUBACK 0 (id msg)
                    else if qos msg =? QOS2 then MQTTSerialize_ack (c_buf c) (buf_size c) PUBREC 0 (id msg)
                    else Ok (c_buf c, 0));
  _ ← update (set_buf b);
  rc ← (if len <=? 0 then mret FAILURE else sendPacket fuel len timer);
  mret (if rc =? FAILURE then Some rc else None).

Definition cycle_pubrec (timer : timer) : M C (option Z) :=
  c ← client;
  '(o, ok) ← pure (MQTTDeserialize_ack junk_ack (readbuf c));
  if negb (ok =? 1) then mret (Some FAILURE) else
  c ← client;
  '(b, len) ← pure (MQTTSerialize_ack (c_buf c) (buf_size c) PUBREL 0 (ack_packetid o));
  _ ← update (set_buf b);
  if len <=? 0 then mret (Some FAILURE) else
  rc ← sendPacket fuel len timer;
  mret (if rc =? SUCCESS then None else Some FAILURE).

Definition cycle (timer : timer) : M C Z :=
  type ← readPacket timer;
  let packet_type := u16 type in
  exit ← (if packet_type =? PUBLISH then cycle_publish timer
          else if packet_type =? PUBREC then cycle_pubrec timer
          else if packet_type =? PINGRESP then _ ← update (set_ping_outstanding 0); mret None
          else mret None);
  match exit with
  | Some rc => mret (if rc =? SUCCESS then packet_type else rc)
  | None => _ ← keepalive fuel; mret packet_type
  end.

Fixpoint yield_loop (rounds : nat) (t : timer) : M C Z :=
  match rounds with
  | O => pure (Err NoFuel)
  | S rounds =>
    r ← cycle t;
    if r =? FAILURE then mret FAILURE else
    n ← now;
    if ctrue (timer_is_expired t n) then mret SUCCESS else yield_loop rounds t
  end.
Definition MQTTYield (timeout_ms : Z) : M C Z :=
  n ← now; yield_loop fuel (timer_countdown_ms n (u32 timeout_ms)).

(** The body of the endless loop. *)
Definition MQTTRun_round : M C unit := n ← now; _ ← cycle (timer_countdown_ms n 500); mret tt.

Fixpoint wait_loop (rounds : nat) (packet_type : Z) (timer : timer) (rc : Z) : M C Z :=
  match rounds with
  | O => pure (Err NoFuel)
  | S rounds =>
    n ← now;
    if ctrue (timer_is_expired timer n) then mret rc else
    rc ← cycle timer;
    if negb (rc =? packet_type) then wait_loop rounds packet_type timer rc else mret rc
  end.
Definition waitfor (packet_type : Z) (timer : timer) : M C Z := wait_loop fuel packet_type timer FAILURE.

(** ** The exchanges *)
Definition string_of (cstr : list Z) : MQTTString := MkStr (Some cstr) 0 None.
(** [MQTTPacket_connectData_initializer] *)
Definition default_options : connectData :=
  MkConnect 4 MQTTString_initializer 60 1 0 (MkWill MQTTString_initializer MQTTString_initializer 0 0)
    MQTTString_initializer MQTTString_initializer.

(** Writing a packet with [ser] into the send buffer and sending it, the
    answer to it awaited by [k]. *)
Definition transact (ser : mqtt_client -> res (list Z * Z)) (timer : timer) (k : M C Z) : M C Z :=
  c ← client;
  '(b, len) ← pure (ser c);
  _ ← update (set_buf b);
  if len <=? 0 then mret FAILURE else
  rc ← sendPacket fuel len timer;
  if negb (rc =? SUCCESS) then mret rc else k.

Definition MQTTConnect (options : option connectData) : M C Z :=
  c ← client;
  rc ← (if ctrue (isconnected c) then mret FAILURE else
    t ← now;
    let connect_timer := timer_countdown_ms t (command_timeout_ms c) in
    let options := default default_options options in
    _ ← update (set_keepAliveInterval (MqttConnect.keepAliveInterval options));
    t ← now;
    p ← pure (timer_countdown_second t (MqttConnect.keepAliveInterval options));
    _ ← update (set_ping_timer p);
    transact (fun c => MQTTSerialize_connect (c_buf c) (buf_size c) options) connect_timer (
      r ← waitfor CONNACK connect_timer;
      if negb (r =? CONNACK) then mret FAILURE else
      c ← client;
      '(_, connack_rc, ok) ← pure (MQTTDeserialize_connack (0, 255) (readbuf c));
      mret (if ok =? 1 then connack_rc else FAILURE)));
  if rc =? SUCCESS then _ ← update (set_isconnected 1); mret rc else mret rc.

(** The first handler slot without a filter. *)
Fixpoint add_handler (hs : list message_handler) (h : message_handler) : option (list message_handler) :=
  match hs with
  | [] => None
  | x :: hs => match topicFilter x with None => Some (h :: hs) | Some _ => cons x <$> add_handler hs h end
  end.

Definition MQTTSubscribe (topic : list Z) (q : Z) (handler : option Z) : M C Z :=
  c ← client;
  if negb (ctrue (isconnected c)) then mret FAILURE else
  n ← now;
  let t := timer_countdown_ms n (command_timeout_ms c) in
  pid ← getNextPacketId;
  transact (fun c => MQTTSerialize_subscribe (c_buf c) (buf_size c) 0 pid 1 [string_of topic] [q]) t (
    r ← waitfor SUBACK t;
    if negb (r =? SUBACK) then mret FAILURE else
    c ← client;
    '(o, ok) ← pure (MQTTDeserialize_suback (MkSuback (pub_packetid junk) 0 [-1]) 1 (readbuf c));
    grantedQoS ← pure (bget (sa_grantedQoSs o) 0);
    let rc := if ok =? 1 then grantedQoS else SUCCESS in
    if rc =? 128 then mret rc else
    match add_handler (messageHandlers c) (MkHandler (Some topic) handler) with
    | Some hs => _ ← update (set_messageHandlers hs); mret 0
    | None => mret rc
    end).

Definition MQTTUnsubscribe (topic : list Z) : M C Z :=
  c ← client;
  if negb (ctrue (isconnected c)) then mret FAILURE else
  n ← now;
  let t := timer_countdown_ms n (command_timeout_ms c) in
  pid ← getNextPacketId;
  transact (fun c => MQTTSerialize_unsubscribe (c_buf c) (buf_size c) 0 pid 1 [string_of topic]) t (
    r ← waitfor UNSUBACK t;
    if negb (r =? UNSUBACK) then mret FAILURE else
    c ← client;
    _ ← pure (MQTTDeserialize_unsuback (pub_packetid junk) (readbuf c));
    mret SUCCESS).

(** Waiting for the last packet of a QoS 1 or 2 exchange. *)
Definition await_ack (packet_type : Z) (t : timer) : M C Z :=
  r ← waitfor packet_type t;
  if negb (r =? packet_type) then mret FAILURE else
  c ← client;
  '(_, ok) ← pure (MQTTDeserialize_ack junk_ack (readbuf c));
  mret (if ok =? 1 then SUCCESS else FAILURE).

(** The result and the message with its new identifier. *)
Definition MQTTPublish (topicName : list Z) (message : MQTTMessage) : M C (Z * MQTTMessage) :=
  c ← client;
  if negb (ctrue (isconnected c)) then mret (FAILURE, message) else
  n ← now;
  let t := timer_countdown_ms n (command_timeout_ms c) in
  message ← (if (qos message =? QOS1) || (qos message =? QOS2) then
               pid ← getNextPacketId;
               mret (MkMsg (qos message) (retained message) (dup message) (u16 pid) (payload message) (payloadlen message))
             else mret message);
  rc ← transact (fun c => MQTTSerialize_publish (c_buf c) (buf_size c) 0 (qos message) (retained message) (id message)
                   (string_of topicName) (payload message) (payloadlen message)) t
         (if qos message =? QOS1 then await_ack PUBACK t
          else if qos message =? QOS2 then await_ack PUBCOMP t
          else mret SUCCESS);
  mret (rc, message).

Definition MQTTDisconnect : M C Z :=
  n ← now;
  c ← client;
  let t := timer_countdown_ms n (command_timeout_ms c) in
  '(b, len) ← pure (MQTTSerialize_disconnect (c_buf c) (buf_size c));
  _ ← update (set_buf b);
  rc ← (if 0 <? len then sendPacket fuel len t else mret FAILURE);
  _ ← update (set_isconnected 0);
  mret rc.
End client.

(** ** Topic matching against the standard

    The levels of a topic or filter between its slashes, when a filter is
    well formed, and what it matches by the MQTT standard (section 4.7). *)
Fixpoint levels (l : list Z) : list (list Z) :=
  match l with
  | [] => [[]]
  | c :: l => if c =? 47 then [] :: levels l else match levels l with x :: xs => (c :: x) :: xs | [] => [[c]] end
  end.
Definition literal (x : list Z) : bool := forallb (fun c => negb (c =? 43) && negb (c =? 35)) x.
Fixpoint wf_filter (f : list (list Z)) : bool :=
  match f with
  | [] => true
  | x :: f => (bool_decide (x = [43]) || literal x || bool_decide (x = [35] /\ f = [])) && wf_filter f
  end.
Fixpoint level_match (f n : list (list Z)) : bool :=
  match f, n with
  | [], [] => true
  | [], _ :: _ => false
  | x :: f, [] => bool_decide (x = [35] /\ f = [])
  | x :: f, y :: n =>
    if bool_decide (x = [35]) then true
    else (bool_decide (x = [43]) || bool_decide (x = y)) && level_match f n
  end.
(** Section 4.7.2: a filter that starts with a wildcard does not match a
    topic that starts with a dollar sign. *)
Definition leading_wildcard (f : list (list Z)) : bool :=
  match f with x :: _ => bool_decide (x = [43]) || bool_decide (x = [35]) | [] => false end.
Definition reserved (n : list (list Z)) : bool :=
  match n with (c :: _) :: _ => c =? 36 | _ => false end.
Definition matches (f n : list (list Z)) : bool :=
  level_match f n && negb (leading_wildcard f && reserved n).
(** What the code makes of it: a wildcard needs a level that is not empty. *)
Fixpoint matches_nonempty (f n : list (list Z)) : bool :=
  match f, n with
  | [], [] => true
  | x :: f, y :: n =>
    if bool_decide (x = [35]) then negb (bool_decide (y = []))
    else if bool_decide (x = [43]) then negb (bool_decide (y = [])) && matches_nonempty f n
    else bool_decide (x = y) && matches_nonempty f n
  | _, _ => false
  end.

(** The loops on lists of characters. *)
Fixpoint drop_level (n : list Z) : list Z :=
  match n with [] => [] | c :: n' => if c =? 47 then n else drop_level n' end.
Fixpoint char_match (f n : list Z) : bool :=
  match f, n with
  | [], _ => bool_decide (n = [])
  | _ :: _, [] => false
  | c :: f, d :: n =>
    if (d =? 47) && negb (c =? 47) then false
    else if negb (c =? 43) && negb (c =? 35) && negb (c =? d) then false
    else if c =? 43 then char_match f (drop_level n)
    else if c =? 35 then char_match f [] else char_match f n
  end.

Lemma levels_nonempty l : exists x xs, levels l = x :: xs.
Proof. destruct l as [|c l]; cbn; [by do 2 eexists|]. destruct (c =? 47); [by do 2 eexists|]. destruct (levels l); by do 2 eexists. Qed.
Lemma levels_cons c l : c <> 47 -> exists x xs, levels l = x :: xs /\ levels (c :: l) = (c :: x) :: xs.
Proof.
  intros Hc. destruct (levels_nonempty l) as (x & xs & E). exists x, xs. split; [done|]. cbn. rewrite E.
  by rewrite (proj2 (Z.eqb_neq c 47) Hc).
Qed.
Lemma levels_nil l : tail (levels l) = [] -> hd [] (levels l) = [] -> l = [].
Proof.
  destruct l as [|c l]; [done|]. destruct (Z.eqb_spec c 47) as [-> | Hc].
  - cbn. intros E. destruct (levels_nonempty l) as (x & xs & E'). congruence.
  - destruct (levels_cons c l Hc) as (x & xs & _ & ->). done.
Qed.
Lemma drop_level_levels n x xs : levels n = x :: xs ->
  (xs = [] /\ drop_level n = []) \/ exists r, drop_level n = 47 :: r /\ levels r = xs.
Proof.
  revert x xs. induction n as [|c n IH]; cbn; intros x xs.
  - intros [= <- <-]. by left.
  - destruct (Z.eqb_spec c 47) as [-> | Hc].
    + intros [= <- <-]. right. by eexists.
    + destruct (levels n) as [|y ys] eqn:E.
      * destruct (levels_nonempty n) as (? & ? & ?). congruence.
      * intros [= <- <-]. by eapply IH.
Qed.
Lemma literal_cons c x : literal (c :: x) = true -> c <> 43 /\ c <> 35 /\ literal x = true.
Proof. cbn. rewrite !andb_true_iff, !negb_true_iff, !Z.eqb_neq. tauto. Qed.
Lemma literal_not x : literal x = true -> x <> [43] /\ x <> [35].
Proof. intros Hx. split; intros ->; by apply literal_cons in Hx as (? & ? & _). Qed.

Lemma char_match_literal (f : list Z) : (forall g, (length g < length f)%nat -> forall n, wf_filter (levels g) = true ->
    char_match g n = matches_nonempty (levels g) (levels n)) ->
  forall n, literal (hd [] (levels f)) = true -> wf_filter (tail (levels f)) = true ->
  char_match f n = bool_decide (hd [] (levels f) = hd [] (levels n)) && matches_nonempty (tail (levels f)) (tail (levels n)).
Proof.
  induction f as [|c f IH]; intros HP n Hl Hw.
  - cbn [char_match levels hd tail]. destruct (levels_nonempty n) as (x & xs & E). rewrite E. cbn [hd tail].
    destruct n as [|d n]; [by injection E as <- <-|]. rewrite bool_decide_eq_false_2 by done.
    destruct (Z.eqb_spec d 47) as [-> | Hd]; cbn in E.
    + injection E as <- <-. destruct (levels_nonempty n) as (y & ys & ->). done.
    + destruct (levels_cons d n Hd) as (y & ys & _ & E'). cbn in E'. rewrite E' in E. by injection E as <- <-.
  - destruct (Z.eqb_spec c 47) as [-> | Hc].
    + cbn [levels Z.eqb Pos.eqb hd tail] in *. destruct n as [|d n]; cbn [char_match].
      { cbn [levels hd tail]. destruct (levels_nonempty f) as (y & ys & ->). done. }
      destruct (Z.eqb_spec d 47) as [-> | Hd].
      * cbn [levels Z.eqb Pos.eqb hd tail andb negb bool_decide]. by apply HP; [cbn; lia|].
      * destruct (levels_cons d n Hd) as (y & ys & _ & ->). cbn [hd tail]. rewrite bool_decide_eq_false_2 by done.
        by rewrite (proj2 (Z.eqb_neq 47 d)) by done.
    + destruct (levels_cons c f Hc) as (x & xs & E & E'). rewrite E' in *. cbn [hd tail] in *.
      apply literal_cons in Hl as (H43 & H35 & Hl).
      destruct n as [|d n]; cbn [char_match]; [by rewrite bool_decide_eq_false_2|].
      rewrite (proj2 (Z.eqb_neq c 47)), (proj2 (Z.eqb_neq c 43)), (proj2 (Z.eqb_neq c 35)) by done. cbn [negb andb].
      destruct (Z.eqb_spec d 47) as [-> | Hd]; cbn [andb].
      * cbn [levels Z.eqb Pos.eqb hd tail]. by rewrite bool_decide_eq_false_2.
      * destruct (levels_cons d n Hd) as (y & ys & Ey & ->). cbn [hd tail].
        destruct (Z.eqb_spec c d) as [-> | Hcd]; cbn [negb].
        -- rewrite IH; [|by intros; apply HP; [cbn; lia|]|by rewrite E|by rewrite E].
           rewrite E, Ey. cbn [hd tail]. f_equal. apply bool_decide_ext. split; congruence.
        -- rewrite bool_decide_eq_false_2 by congruence. done.
Qed.

Lemma char_match_levels f n : wf_filter (levels f) = true -> char_match f n = matches_nonempty (levels f) (levels n).
Proof.
  remember (length f) as k eqn:Ek. revert f Ek n. induction k as [k IH] using lt_wf_ind. intros f -> n Hw.
  destruct (levels_nonempty f) as (x & xs & E). destruct (levels_nonempty n) as (y & ys & En).
  pose proof Hw as Hw'. rewrite E in Hw'. cbn in Hw'. apply andb_true_iff in Hw' as [Hx Hxs].
  destruct (literal x) eqn:El.
  { rewrite char_match_literal; [|by intros g ? ?; apply (IH (length g))|by rewrite E|by rewrite E]. rewrite E, En.
    destruct (literal_not x El). cbn. by rewrite !(bool_decide_eq_false_2 (x = [_])) by done. }
  rewrite orb_false_r in Hx. destruct f as [|c f]; [by injection E as <- <-|].
  destruct (Z.eqb_spec c 47) as [-> | Hc]; [by injection E as <- <-|].
  destruct (levels_cons c f Hc) as (z & zs & E1 & E2). rewrite E in E2. injection E2 as -> ->. rewrite E, En.
  apply orb_true_iff in Hx as [Hx | Hx]; apply bool_decide_eq_true in Hx; [injection Hx as -> ->|destruct Hx as [[= -> ->] ->]].
  - cbn [char_match matches_nonempty]. rewrite (bool_decide_eq_false_2 ([43] = [35])), (bool_decide_eq_true_2 ([43] = [43])) by done.
    destruct n as [|d n]; [by injection En as <- <-|].
    destruct (Z.eqb_spec d 47) as [-> | Hd]; [by injection En as <- <-|]. cbn [andb negb Z.eqb Pos.eqb].
    destruct (levels_cons d n Hd) as (w & ws & E3 & E4). rewrite E4 in En. injection En as <- <-.
    rewrite bool_decide_eq_false_2 by done. cbn [negb andb].
    destruct (drop_level_levels n w ws E3) as [[-> ->] | (r & -> & <-)].
    + destruct f as [|d' f]; [by injection E1 as <-|]. destruct (Z.eqb_spec d' 47) as [-> | Hd']; [injection E1 as <-|].
      * cbn [char_match]. by destruct (levels_nonempty f) as (? & ? & ->).
      * destruct (levels_cons d' f Hd') as (? & ? & _ & E5). congruence.
    + destruct f as [|d' f]; [injection E1 as <-; cbn [char_match]|].
      * rewrite bool_decide_eq_false_2 by done. by destruct (levels_nonempty r) as (? & ? & ->).
      * destruct (Z.eqb_spec d' 47) as [-> | Hd']; [injection E1 as <-|].
        -- cbn [char_match Z.eqb Pos.eqb andb negb]. apply (IH (length f)); [cbn; lia|done|done].
        -- destruct (levels_cons d' f Hd') as (? & ? & _ & E5). congruence.
  - assert (f = []) as -> by (by apply levels_nil; rewrite E1). cbn [char_match matches_nonempty]. rewrite bool_decide_eq_true_2 by done.
    destruct n as [|d n]; [by injection En as <- <-|].
    destruct (Z.eqb_spec d 47) as [-> | Hd]; [by injection En as <- <-|].
    destruct (levels_cons d n Hd) as (w & ws & E3 & E4). rewrite E4 in En. injection En as <- <-. done.
Qed.

(** The loops on the arrays. *)
Section arrays.
  Context (b : list Z) (o : Z) (nm r : list Z) (Hb : suffix b o (nm ++ r)).

Lemma load_name n1 d n2 : nm = n1 ++ d :: n2 -> load (ptr_add (Some (b, o)) (Zlen n1)) = Ok d.
Proof using Hb.
  intros ->. cbn [ptr_add load]. rewrite <- app_assoc in Hb. eapply suffix_app in Hb; [|done].
  by apply suffix_cons in Hb as [E _].
Qed.

Lemma skip_level_eq n2 : forall n1 d fuel, nm = n1 ++ d :: n2 -> (length n2 < fuel)%nat ->
  skip_level fuel (Some (b, o)) (Zlen n1) (Zlen nm) = Ok (Zlen nm - Zlen (drop_level n2) - 1).
Proof using Hb.
  induction n2 as [|e n2 IH]; intros n1 d [|fuel] E Hf; cbn [length] in Hf; try lia; cbn [skip_level].
  - rewrite (proj2 (Z.ltb_ge _ _)) by (subst; zlen; lia). f_equal. subst. cbn [drop_level]. zlen. lia.
  - pose proof (Zlen_nonneg n2). rewrite (proj2 (Z.ltb_lt _ _)) by (subst; zlen; lia).
    assert (nm = (n1 ++ [d]) ++ e :: n2) as E' by (by rewrite <- app_assoc).
    pose proof (load_name _ _ _ E') as El. rewrite Zlen_app in El. change (Zlen [d]) with 1 in El. rewrite El. cbn [mbind res_bind drop_level].
    destruct (e =? 47).
    + f_equal. rewrite E. zlen. lia.
    + specialize (IH (n1 ++ [d]) e fuel E' ltac:(lia)). rewrite Zlen_app in IH. exact IH.
Qed.

Lemma drop_level_suffix n : exists n1, n = n1 ++ drop_level n.
Proof. induction n as [|c n [n1 IH]]; cbn; [by exists []|]. case_match; [by exists []|]. exists (c :: n1). cbn. by f_equal. Qed.

Lemma topic_loop_eq fs : forall f1 n1 ns fuel rf, nm = n1 ++ ns -> Forall (fun c => c <> 0) fs ->
  (length fs + length nm < fuel)%nat ->
  exists i j cf, topic_loop fuel (f1 ++ fs ++ 0 :: rf) (Some (b, o)) (Zlen f1) (Zlen n1) (Zlen nm) = Ok (i, j) /\
    bget (f1 ++ fs ++ 0 :: rf) i = Ok cf /\ (j =? Zlen nm) && (cf =? 0) = char_match fs ns.
Proof using Hb.
  induction fs as [|c fs IH]; intros f1 n1 ns [|fuel] rf E Hz Hf; cbn [length] in Hf; try lia; cbn [topic_loop].
  - cbn [app]. rewrite bget_middle. cbn [mbind res_bind negb Z.eqb andb]. exists (Zlen f1), (Zlen n1), 0.
    split; [done|]. split; [by rewrite bget_middle|]. rewrite andb_true_r. destruct ns; cbn [char_match].
    + rewrite bool_decide_eq_true_2 by done. apply Z.eqb_eq. subst. by rewrite app_nil_r.
    + rewrite bool_decide_eq_false_2 by done. apply Z.eqb_neq. subst. zlen. pose proof (Zlen_nonneg ns). lia.
  - apply Forall_cons in Hz as [Hc Hz]. cbn [app]. rewrite bget_middle. cbn [mbind res_bind].
    rewrite (proj2 (Z.eqb_neq c 0)) by done. cbn [negb andb]. destruct ns as [|d ns].
    { rewrite (proj2 (Z.ltb_ge _ _)) by (subst; zlen; lia). do 3 eexists. split; [done|]. split; [by rewrite bget_middle|].
      rewrite (proj2 (Z.eqb_neq c 0)) by done. by rewrite andb_false_r. }
    pose proof (Zlen_nonneg ns). assert (Zlen n1 < Zlen nm) as Hlt by (subst; zlen; lia).
    rewrite (proj2 (Z.ltb_lt _ _)) by done. rewrite (load_name _ _ _ E). cbn [mbind res_bind char_match].
    assert (exists i j cf, Ok (Zlen f1, Zlen n1) = Ok (i, j) /\ bget (f1 ++ c :: fs ++ 0 :: rf) i = Ok cf /\ (j =? Zlen nm) && (cf =? 0) = false) as Hstop.
    { do 3 eexists. split; [done|]. split; [by rewrite bget_middle|]. rewrite (proj2 (Z.eqb_neq c 0)) by done. by rewrite andb_false_r. }
    destruct ((d =? 47) && negb (c =? 47)); [done|].
    destruct (negb (c =? 43) && negb (c =? 35) && negb (c =? d)); [done|]. clear Hstop.
    assert (forall m1 ms x, nm = m1 ++ ms -> x = Zlen m1 ->
      exists i j cf, topic_loop fuel (f1 ++ c :: fs ++ 0 :: rf) (Some (b, o)) (Zlen f1 + 1) x (Zlen nm) = Ok (i, j) /\
        bget (f1 ++ c :: fs ++ 0 :: rf) i = Ok cf /\ (j =? Zlen nm) && (cf =? 0) = char_match fs ms) as Hgo.
    { intros m1 ms x Em ->. specialize (IH (f1 ++ [c]) m1 ms fuel rf Em Hz ltac:(lia)). rewrite Zlen_app in IH.
      by rewrite <- !app_assoc in IH. }
    destruct (c =? 43); [|destruct (c =? 35)].
    + rewrite (skip_level_eq ns n1 d fuel E) by (subst nm; rewrite length_app in Hf; cbn in Hf; lia). cbn [mbind res_bind].
      destruct (drop_level_suffix ns) as [m Em]. apply (Hgo (n1 ++ d :: m)); [by rewrite <- app_assoc, <- app_comm_cons, <- Em|].
      rewrite E. rewrite Em at 1. zlen. lia.
    + cbn [mbind res_bind]. apply (Hgo nm); [by rewrite app_nil_r|lia].
    + cbn [mbind res_bind]. apply (Hgo (n1 ++ [d])); [by rewrite <- app_assoc|by zlen].
Qed.
End arrays.

Lemma matches_nonempty_spec f : forall n, matches_nonempty f n = true -> level_match f n = true.
Proof.
  induction f as [|x f IH]; intros [|y n]; cbn; try done.
  destruct (bool_decide (x = [35])); [done|]. destruct (bool_decide (x = [43])); cbn; rewrite ?andb_true_iff; intros [? ?]; auto.
Qed.
Lemma matches_nonempty_complete f : forall n, wf_filter f = true -> Forall (fun y => y <> []) n -> (length f <= length n)%nat ->
  matches_nonempty f n = level_match f n.
Proof.
  induction f as [|x f IH]; intros [|y n]; cbn; try done; [lia|]. rewrite andb_true_iff. intros [_ Hw] [Hy Hn]%Forall_cons Hl.
  rewrite (bool_decide_eq_false_2 (y = [])) by done. destruct (bool_decide (x = [35])); [done|].
  rewrite (IH n) by (done || lia). by destruct (bool_decide (x = [43])).
Qed.

Lemma isTopicMatched_eq (f rf b nm r : list Z) (o : Z) (fuel : nat) :
  suffix b o (nm ++ r) -> Forall (fun c => c <> 0) f -> wf_filter (levels f) = true -> (length f + length nm < fuel)%nat ->
  isTopicMatched fuel (f ++ 0 :: rf) (MkStr None (Zlen nm) (Some (b, o))) = Ok (cbool (matches_nonempty (levels f) (levels nm))).
Proof.
  intros Hb Hz Hw Hf. unfold isTopicMatched. cbn [data len].
  destruct (topic_loop_eq b o nm r Hb f [] [] nm fuel rf eq_refl Hz Hf) as (i & j & cf & E & Ec & Em). cbn [app] in E, Ec.
  change (Zlen (@nil Z)) with 0 in E. rewrite E. cbn [mbind res_bind]. rewrite Ec. cbn [mbind res_bind]. by rewrite Em, char_match_levels.
Qed.

(** C28: For a well-formed topic filter the comparison ends inside both
    strings.  It answers yes only for topics that the MQTT standard lets the
    filter match, and for topics beginning with a dollar sign whose levels
    match a filter that begins with a wildcard, which section 4.7.2 of the
    standard excludes.  For topics without empty levels that have at least as
    many levels as the filter that is the only difference: the filter matches
    exactly when the code says so and this exclusion does not apply. *)
Theorem topic_filter_matching (f rf b nm r : list Z) (o : Z) (fuel : nat) :
  suffix b o (nm ++ r) -> Forall (fun c => c <> 0) f -> wf_filter (levels f) = true -> (length f + length nm < fuel)%nat ->
  let excluded := leading_wildcard (levels f) && reserved (levels nm) in
  exists m, isTopicMatched fuel (f ++ 0 :: rf) (MkStr None (Zlen nm) (Some (b, o))) = Ok (cbool m) /\
    m = matches_nonempty (levels f) (levels nm) /\
    (m = true -> matches (levels f) (levels nm) = negb excluded /\ level_match (levels f) (levels nm) = true) /\
    (Forall (fun y => y <> []) (levels nm) -> (length (levels f) <= length (levels nm))%nat ->
       m = level_match (levels f) (levels nm) /\ matches (levels f) (levels nm) = m && negb excluded).
Proof.
  intros Hb Hz Hw Hf excluded. exists (matches_nonempty (levels f) (levels nm)). split_and!; [by eapply isTopicMatched_eq|done| |].
  - intros Hm%matches_nonempty_spec. unfold matches. by rewrite Hm.
  - intros Hy Hl. unfold matches. by rewrite matches_nonempty_complete.
Qed.

(** "a/+/#" and "a/b/c/d"; "#" and "$SYS". *)
Lemma topic_filter_matching_witness :
  isTopicMatched 20 ([97; 47; 43; 47; 35] ++ 0 :: []) (MkStr None 7 (Some ([97; 47; 98; 47; 99; 47; 100], 0))) = Ok 1 /\
  isTopicMatched 20 ([35] ++ 0 :: []) (MkStr None 4 (Some ([36; 83; 89; 83], 0))) = Ok 1 /\
  matches (levels [35]) (levels [36; 83; 89; 83]) = false.
Proof.
  split.
  - destruct (topic_filter_matching [97; 47; 43; 47; 35] [] [97; 47; 98; 47; 99; 47; 100] [97; 47; 98; 47; 99; 47; 100] [] 0 20)
      as (m & E & _ & _ & Hm).
    + rewrite app_nil_r. apply suffix_start.
    + repeat constructor; done.
    + by vm_compute.
    + cbn. lia.
    + destruct Hm as [Hm _]; [|cbn; lia|rewrite Hm in E; exact E]. repeat constructor; done.
  - destruct (topic_filter_matching [35] [] [36; 83; 89; 83] [36; 83; 89; 83] [] 0 20) as (m & E & Hm & Hn & _).
    + rewrite app_nil_r. apply suffix_start.
    + repeat constructor; done.
    + by vm_compute.
    + cbn. lia.
    + rewrite Hm in E, Hn. split; [exact E|]. by apply Hn.
Defined.
