(* ===== verification/MqttSession.v ===== *)
(** The MQTT client of MqttClient.v on a simulated network: what one packet
    does to it, and the exchanges of CONNECT, SUBSCRIBE and PUBLISH from the
    first byte sent to the last byte received. *)
From S2P Require Import Prelude Timer Bus MqttPacket MqttPublish MqttSubscribe MqttConnect MqttClient.

(** ** The network

    [n_in] are the bytes that are still to arrive: a read that asks for more
    waits until its timeout. A write takes at most [n_chunk] bytes at once. *)
Record net := MkNet { n_in : list Z; n_out : list Z; n_time : Z; n_chunk : Z; n_got : list (Z * MQTTString * MQTTMessage) }.
Definition set_in (l : list Z) (w : net) := MkNet l (n_out w) (n_time w) (n_chunk w) (n_got w).
Definition add_out (l : list Z) (w : net) := MkNet (n_in w) (n_out w ++ l) (n_time w) (n_chunk w) (n_got w).
#[export] Instance simulated : Network net := {|
  os_get_time := fun w => Ok (w, n_time w);
  net_read := fun n t w =>
    if n <=? Zlen (n_in w) then Ok (set_in (drop (Z.to_nat n) (n_in w)) w, (n, take (Z.to_nat n) (n_in w)))
    else Ok (MkNet [] (n_out w) (u32 (n_time w + t)) (n_chunk w) (n_got w), (Zlen (n_in w), n_in w));
  net_write := fun l t w =>
    let k := Z.min (n_chunk w) (Zlen l) in Ok (add_out (take (Z.to_nat k) l) w, k);
  on_message := fun g t m w => Ok (MkNet (n_in w) (n_out w) (n_time w) (n_chunk w) (n_got w ++ [(g, t, m)]), tt)
|}.

Lemma net_read_stream l r t w : n_in w = l ++ r ->
  net_read (Zlen l) t w = Ok (set_in r w, (Zlen l, l)).
Proof.
  intros E. cbn. rewrite E, Zlen_app. pose proof (Zlen_nonneg r). rewrite (proj2 (Z.leb_le _ _)) by lia.
  by rewrite Zlen_to_nat, drop_app_length, take_app_length.
Qed.
Lemma set_in_in l r w : set_in l (set_in r w) = set_in l w.
Proof. done. Qed.

Lemma M_bind_Err {W A B} (m : M W A) (f : A -> M W B) w e : m w = Err e -> mbind f m w = Err e.
Proof. intros E. unfold mbind, M_bind. by rewrite E. Qed.

(** ** Reading

    [read_byte] is the byte reader of the packet library on the network; with
    it [decodePacket] is [MQTTPacket_decode]. *)
Definition read_byte {W} `{Network W} (timeout : Z) (s : C) : res (@C W * Z * Z) :=
  '(s, (rc, l)) ← lift (net_read 1 timeout) s;
  if rc =? 1 then match l with i :: _ => Ok (s, rc, i) | [] => Err Uninit end else Ok (s, rc, 0).

Lemma decode_loop_read {W} `{Network W} timeout fuel : forall (s : C) len value m,
  decodePacket_loop fuel timeout len value m s =
    ('(s, len, value) ← decode_loop (read_byte timeout) fuel s value m len; Ok (s, (len, value))).
Proof.
  induction fuel as [|fuel IH]; intros s len value m; [done|]. cbn [decodePacket_loop decode_loop].
  destruct (4 <? len + 1); [done|]. destruct (lift (net_read 1 timeout) s) as [[s' [rc l]]|e] eqn:E.
  2: { assert (read_byte timeout s = Err e) as -> by (unfold read_byte; by rewrite E). by rewrite (M_bind_Err _ _ _ _ E). }
  rewrite (M_bind_Ok _ _ _ _ _ E).
  assert (read_byte timeout s = if rc =? 1 then match l with i :: _ => Ok (s', rc, i) | [] => Err Uninit end else Ok (s', rc, 0)) as ->
    by (unfold read_byte; by rewrite E).
  destruct (Z.eqb_spec rc 1) as [-> | Hrc]; cbn [negb].
  - destruct l as [|i l]; [done|]. rewrite (pure_bind_Ok (Ok i) _ _ i eq_refl). cbn [mbind res_bind Z.eqb Pos.eqb negb].
    destruct (Z.land i 128 =? 0); [done|]. apply IH.
  - cbn [mbind res_bind]. by rewrite (proj2 (Z.eqb_neq rc 1)).
Qed.

(** The bytes that are still to arrive. *)
Definition holds (s : @C net) (l : list Z) : Prop := n_in s.2 = l.
Definition took (l : list Z) (s : @C net) : @C net := (s.1, set_in l s.2).
Lemma read_byte_stream timeout s c r : n_in s.2 = c :: r -> read_byte timeout s = Ok (took r s, 1, c).
Proof.
  intros E. unfold read_byte, lift. pose proof (net_read_stream [c] r timeout s.2 E) as Er. change (Zlen [c]) with 1 in Er.
  rewrite Er. done.
Qed.

Lemma decodePacket_remlen (s : @C net) timeout n r : 0 <= n < max_body -> n_in s.2 = remlen_bytes n ++ r ->
  decodePacket timeout s = Ok (took r s, (Zlen (remlen_bytes n), n)).
Proof.
  intros Hn E. unfold decodePacket. rewrite decode_loop_read.
  destruct (MQTTPacket_decode_remlen (read_byte timeout) (fun s' l => s' = took l s) s n r) as (s' & E' & ->); [|done| |].
  - intros s' c l ->. exists (took l s). split; [|done]. by rewrite (read_byte_stream _ _ c l).
  - rewrite <- E. destruct s as [c [? ? ? ? ?]]. done.
  - unfold MQTTPacket_decode in E'. by rewrite E'.
Qed.

Definition with_readbuf (b : list Z) (s : @C net) : @C net := (set_readbuf b s.1, s.2).

Lemma read_into_ok (s : @C net) timer b pre l r : n_in s.2 = l ++ r -> readbuf s.1 = overwrite b 0 pre -> Zlen pre <= Zlen b ->
  read_into (Zlen pre) (Zlen l) timer s =
    if Zlen pre + Zlen l <=? Zlen b then Ok (with_readbuf (overwrite b 0 (pre ++ l)) (took r s), Zlen l) else Err OutOfBounds.
Proof.
  intros E Eb Hpre. pose proof (Zlen_nonneg pre). pose proof (Zlen_nonneg l). unfold read_into.
  erewrite M_bind_Ok by reflexivity.
  erewrite M_bind_Ok by (unfold lift; rewrite (net_read_stream _ _ _ _ E); reflexivity).
  cbv beta iota. erewrite M_bind_Ok by reflexivity. cbn [fst snd]. rewrite Eb.
  destruct (Z.leb_spec (Zlen pre + Zlen l) (Zlen b)).
  - pose proof (write_bytes_wr b pre l ltac:(lia)) as Ew. unfold wr in Ew.
    by rewrite (pure_bind_Ok _ _ _ _ Ew).
  - rewrite (M_bind_Err _ _ _ OutOfBounds); [done|]. unfold pure, write_bytes. cbn [fst snd].
    rewrite Zlen_overwrite by lia. rewrite (proj2 (Z.leb_le 0 (Zlen pre))), (proj2 (Z.leb_gt _ (Zlen b))) by lia. done.
Qed.

(** A packet that fits is stored whole; the length of one that does not is
    not looked at, and its body is written past the end of the buffer. *)
Lemma readPacket_stream (s : @C net) timer h body r : n_in s.2 = packet h body ++ r -> 0 <= h < 256 -> Zlen body < max_body ->
  5 <= Zlen (readbuf s.1) ->
  readPacket timer s =
    if Zlen (packet h body) <=? Zlen (readbuf s.1)
    then Ok (with_readbuf (overwrite (readbuf s.1) 0 (packet h body)) (took r s), header_type h) else Err OutOfBounds.
Proof.
  intros E Hh Hb H5. set (b := readbuf s.1) in *. unfold packet in *. cbn [app] in E. rewrite <- app_assoc in E.
  pose proof (Zlen_nonneg body) as Hb0. pose proof (Zlen_remlen (Zlen body)) as Er.
  assert (1 <= Zlen (remlen_bytes (Zlen body)) <= 4) by (rewrite Er; repeat case_test; lia).
  unfold readPacket. pose proof (read_into_ok s timer b [] [h] _ E (eq_sym (overwrite_nil b 0)) ltac:(zlen; lia)) as E1.
  change (Zlen (@nil Z)) with 0 in E1. change (Zlen [h]) with 1 in E1. rewrite (proj2 (Z.leb_le _ _)) in E1 by lia.
  rewrite (M_bind_Ok _ _ _ _ _ E1). cbn [app negb Z.eqb Pos.eqb]. erewrite M_bind_Ok by reflexivity.
  erewrite M_bind_Ok by (apply decodePacket_remlen; [split; [done|exact Hb]|reflexivity]).
  cbv beta iota. erewrite M_bind_Ok by reflexivity. cbn [fst snd with_readbuf took readbuf set_readbuf].
  pose proof (write_length_wr b [h] (Zlen body)) as Ew. unfold write_length, wr in Ew. cbn [fst snd] in Ew. change (Zlen [h]) with 1 in Ew.
  destruct (MQTTPacket_encode (overwrite b 0 [h]) 1 (Zlen body)) as [[b2 k]|] eqn:Ee; cbn [mbind res_bind] in Ew;
    [|by specialize (Ew ltac:(lia) ltac:(lia))].
  injection (Ew ltac:(lia) ltac:(lia)) as -> Ek. clear Ew. cbn [app] in Ek. rewrite Zlen_cons in Ek.
  rewrite (pure_bind_Ok _ _ _ _ eq_refl). cbv beta iota. erewrite M_bind_Ok by reflexivity. cbn [app fst snd]. rewrite Zlen_cons, Zlen_app.
  set (hd := h :: remlen_bytes (Zlen body)) in *. assert (1 + k = Zlen hd) as -> by (subst hd; rewrite Zlen_cons; lia).
  assert (overwrite b 0 hd !! 0%nat = Some h) as Hget by done.
  set (s2 := (_, _) : @C net).
  pose proof (read_into_ok s2 timer b hd body r eq_refl eq_refl ltac:(subst hd; rewrite Zlen_cons; lia)) as E2.
  assert (Zlen hd <= 5) as Hhd by (subst hd; rewrite Zlen_cons; lia).
  assert ((if 0 <? Zlen body then read_into (Zlen hd) (Zlen body) timer else mret (Zlen body)) s2 =
    if Zlen hd + Zlen body <=? Zlen b then Ok (with_readbuf (overwrite b 0 (hd ++ body)) (took r s2), Zlen body) else Err OutOfBounds) as E3.
  { destruct body as [|x body]; [|rewrite (proj2 (Z.ltb_lt 0 _)) by (zlen; pose proof (Zlen_nonneg body); lia); exact E2].
    change (0 <? Zlen []) with false. rewrite (proj2 (Z.leb_le _ (Zlen b))) by (rewrite Zlen_nil; lia).
    rewrite app_nil_r. subst s2. unfold with_readbuf, took. cbn [app fst snd] in *. by destruct s as [c [? ? ? ? ?]]. }
  assert (Zlen hd = 1 + Zlen (remlen_bytes (Zlen body))) as El by (subst hd; by rewrite Zlen_cons). rewrite El in E3 at 2.
  destruct (Z.leb_spec (1 + (Zlen (remlen_bytes (Zlen body)) + Zlen body)) (Zlen b)).
  - rewrite (proj2 (Z.leb_le _ _)) in E3 by lia. rewrite (M_bind_Ok _ _ _ _ _ E3). rewrite Z.eqb_refl. cbn [negb].
    erewrite M_bind_Ok by reflexivity. erewrite pure_bind_Ok by reflexivity. done.
  - rewrite (proj2 (Z.leb_gt _ _)) in E3 by lia. by rewrite (M_bind_Err _ _ _ _ E3).
Qed.

(** ** Sending *)
Lemma read_bytes_overwrite (b l : list Z) : Zlen l <= Zlen b -> read_bytes (overwrite b 0 l) 0 (Zlen l) = Ok l.
Proof.
  intros Hl. pose proof (Zlen_nonneg l). unfold read_bytes. rewrite Zlen_overwrite by lia.
  rewrite !(proj2 (Z.leb_le _ _)) by lia. cbn [andb]. by rewrite slice_overwrite by lia.
Qed.

(** A timer that is not expired, a connection whose next ping is not due. *)
Definition live (t : timer) (s : @C net) : Prop := timer_is_expired t (n_time s.2) = 0.
Definition quiet (s : @C net) : Prop := keepAliveInterval s.1 = 0 \/ live (ping_timer s.1) s.
Definition sent (pkt : list Z) (s : @C net) : @C net :=
  (set_ping_timer (MkTimer (n_time s.2) (u32 (keepAliveInterval s.1 * 1000))) s.1, add_out pkt s.2).

(** One round offers a whole packet's length from where the last one ended. *)
Lemma send_round (s : @C net) timer length sent0 dat fuel : sent0 < length -> live timer s -> 0 <= n_chunk s.2 ->
  read_bytes (c_buf s.1) sent0 length = Ok dat -> Zlen dat = length ->
  sendPacket_loop (S fuel) length sent0 timer s =
    sendPacket_loop fuel length (sent0 + Z.min (n_chunk s.2) length) timer
      (s.1, add_out (take (Z.to_nat (Z.min (n_chunk s.2) length)) dat) s.2).
Proof.
  intros Hl Ht Hc E El. cbn [sendPacket_loop]. rewrite (proj2 (Z.ltb_lt sent0 _)) by done.
  erewrite M_bind_Ok by reflexivity. rewrite Ht. cbn [ctrue negb Z.eqb].
  erewrite M_bind_Ok by reflexivity. cbn [fst snd]. rewrite (pure_bind_Ok _ _ _ _ E).
  erewrite M_bind_Ok by reflexivity. erewrite M_bind_Ok by reflexivity. cbn [fst snd]. rewrite El.
  rewrite (proj2 (Z.ltb_ge _ 0)) by (pose proof (Zlen_nonneg dat); lia). done.
Qed.
Lemma send_done (s : @C net) timer length sent0 fuel : length <= sent0 -> sendPacket_loop (S fuel) length sent0 timer s = Ok (s, sent0).
Proof. intros Hl. cbn [sendPacket_loop]. by rewrite (proj2 (Z.ltb_ge sent0 _)). Qed.

Lemma sendPacket_ok (s : @C net) timer b pkt fuel : c_buf s.1 = overwrite b 0 pkt -> Zlen pkt <= Zlen b ->
  0 < Zlen pkt <= n_chunk s.2 -> live timer s -> is_u16 (keepAliveInterval s.1) ->
  sendPacket (S (S fuel)) (Zlen pkt) timer s = Ok (sent pkt s, SUCCESS).
Proof.
  intros Eb Hb Hl Ht Hk. unfold sendPacket.
  pose proof (send_round s timer (Zlen pkt) 0 pkt (S fuel) ltac:(lia) Ht ltac:(lia)) as E. rewrite Eb in E.
  specialize (E (read_bytes_overwrite _ _ Hb) eq_refl). rewrite Z.min_r in E by lia. rewrite (send_done _ timer (Zlen pkt) (0 + Zlen pkt)) in E by lia.
  rewrite Zlen_to_nat, firstn_all2 in E by done. rewrite (M_bind_Ok _ _ _ _ _ E). rewrite Z.add_0_l, Z.eqb_refl.
  erewrite M_bind_Ok by reflexivity. erewrite M_bind_Ok by reflexivity. cbn [fst snd].
  erewrite pure_bind_Ok by (unfold timer_countdown_second; rewrite int32_ok by (pow2_norm; lia); reflexivity). done.
Qed.

Lemma sent_live t pkt s : live t (sent pkt s) <-> live t s.
Proof. done. Qed.
(** After a packet was sent the next ping is not due. *)
Lemma sent_quiet pkt s : is_u16 (keepAliveInterval s.1) -> is_u32 (n_time s.2 + keepAliveInterval s.1 * 1000) -> 0 <= n_time s.2 -> quiet (sent pkt s).
Proof.
  intros Hk Ht H0. unfold quiet, live. cbn. destruct (Z.eqb_spec (keepAliveInterval s.1) 0); [by left|right].
  unfold timer_is_expired. cbn. pow2_norm. rewrite (wrap_small 32 (_ * 1000)), wrap_small by (pow2_norm; lia). by rewrite (proj2 (Z.leb_gt (n_time s.2 + keepAliveInterval s.1 * 1000) (n_time s.2))) by lia.
Qed.

(** ** One cycle *)

(** A client with room for an acknowledgement and a length field, on a
    network that takes whole packets, its next ping within the clock's range. *)
Record ready (s : @C net) : Prop := {
  r_keep : is_u16 (keepAliveInterval s.1);
  r_time : 0 <= n_time s.2 /\ is_u32 (n_time s.2 + keepAliveInterval s.1 * 1000);
  r_size : 4 <= buf_size s.1 <= Zlen (c_buf s.1);
  r_chunk : Zlen (c_buf s.1) <= n_chunk s.2;
  r_read : 5 <= Zlen (readbuf s.1)
}.
Definition with_buf (b : list Z) (s : @C net) : @C net := (set_buf b s.1, s.2).
Definition received (pkt r : list Z) (s : @C net) : @C net := with_readbuf (overwrite (readbuf s.1) 0 pkt) (took r s).
Definition transmitted (pkt : list Z) (s : @C net) : @C net := sent pkt (with_buf (overwrite (c_buf s.1) 0 pkt) s).

Lemma received_ready pkt r s : ready s -> Zlen pkt <= Zlen (readbuf s.1) -> ready (received pkt r s).
Proof. intros [] Hl. split; cbn; try done. pose proof (Zlen_nonneg pkt). by rewrite Zlen_overwrite by lia. Qed.
Lemma transmitted_ready pkt s : ready s -> Zlen pkt <= Zlen (c_buf s.1) -> ready (transmitted pkt s).
Proof. intros [] Hl. pose proof (Zlen_nonneg pkt). split; cbn; try done; by rewrite Zlen_overwrite by lia. Qed.
Lemma transmitted_quiet pkt s : ready s -> quiet (transmitted pkt s).
Proof. intros []. apply sent_quiet; cbn; tauto. Qed.

Section cycle.
  Context (junk : publish_out) (fuel : nat) (Hfuel : (2 <= fuel)%nat).

(** Storing a packet in the send buffer and sending it. *)
Lemma send_ok s timer pkt : ready s -> 0 < Zlen pkt <= Zlen (c_buf s.1) -> live timer s ->
  sendPacket fuel (Zlen pkt) timer (with_buf (overwrite (c_buf s.1) 0 pkt) s) = Ok (transmitted pkt s, SUCCESS).
Proof using Hfuel.
  intros [] Hl Ht. destruct fuel as [|[|f]]; [lia..|].
  apply (sendPacket_ok _ timer (c_buf s.1)); cbn; try done; lia.
Qed.

Lemma keepalive_quiet s : quiet s -> exists r, keepalive fuel s = Ok (s, r).
Proof.
  intros Hq. unfold keepalive. erewrite M_bind_Ok by reflexivity. cbn [fst].
  destruct (Z.eqb_spec (keepAliveInterval s.1) 0) as [E | E]; [by exists SUCCESS|]. destruct Hq as [Hq | Hq]; [done|].
  erewrite M_bind_Ok by reflexivity. cbn [fst snd]. unfold live in Hq. rewrite Hq. exists FAILURE. by destruct s.
Qed.

Lemma read_header_type h body : 0 <= h < 256 -> Zlen body < max_body -> Zlen (packet h body) = 1 + Zlen (remlen_bytes (Zlen body)) + Zlen body.
Proof. intros _ _. unfold packet. zlen. lia. Qed.

(** A packet that the switch has no work for. *)
Lemma cycle_plain s timer h body r : ready s -> quiet s -> n_in s.2 = packet h body ++ r -> 0 <= h < 256 -> Zlen body < max_body ->
  Zlen (packet h body) <= Zlen (readbuf s.1) -> header_type h ∉ [PUBLISH; PUBREC; PINGRESP] ->
  cycle junk fuel timer s = Ok (received (packet h body) r s, header_type h).
Proof.
  intros Hr Hq E Hh Hb Hfit Hn. unfold cycle.
  pose proof (readPacket_stream s timer h body r E Hh Hb (r_read _ Hr)) as Er. rewrite (proj2 (Z.leb_le _ _)) in Er by done.
  rewrite (M_bind_Ok _ _ _ _ _ Er).
  assert (0 <= header_type h < 16) by (apply get_bits_range; lia). rewrite wrap_small by (pow2_norm; lia).
  rewrite !not_elem_of_cons in Hn. destruct Hn as (H1 & H2 & H3 & _).
  rewrite (proj2 (Z.eqb_neq _ _) H1), (proj2 (Z.eqb_neq _ _) H2), (proj2 (Z.eqb_neq _ _) H3).
  erewrite M_bind_Ok by reflexivity. destruct (keepalive_quiet (received (packet h body) r s)) as [k Ek]; [exact Hq|].
  unfold received in Ek. by rewrite (M_bind_Ok _ _ _ _ _ Ek).
Qed.

Lemma overwrite_0 (b l : list Z) : overwrite b 0 l = l ++ drop (length l) b.
Proof. done. Qed.

Lemma Zlen_ack_bytes t d i : Zlen (ack_bytes t d i) = 4.
Proof. done. Qed.
Lemma ack_fits s t d i r : ready s -> Zlen (ack_bytes t d i) <= Zlen (readbuf s.1) /\ ready (received (ack_bytes t d i) r s).
Proof. intros Hr. destruct (Hr). rewrite Zlen_ack_bytes. split; [lia|]. apply received_ready; [done|]. rewrite Zlen_ack_bytes. lia. Qed.
Lemma ack_header t d i r s : 0 <= t < 16 -> 0 <= d < 2 -> is_u16 i -> n_in s.2 = ack_bytes t d i ++ r -> ready s ->
  forall timer, readPacket timer s = Ok (received (ack_bytes t d i) r s, t).
Proof.
  intros Ht Hd Hi E Hr timer. unfold ack_bytes in *. set (h := header_byte t d (if t =? PUBREL then 1 else 0) 0) in *.
  assert (0 <= h < 256) as Hh by apply header_byte_range.
  rewrite (readPacket_stream s timer _ _ r E Hh ltac:(by vm_compute) (r_read _ Hr)).
  rewrite (proj2 (Z.leb_le _ _)) by (by apply (ack_fits s t d i r)).
  unfold h. destruct (header_fields t d (if t =? PUBREL then 1 else 0) 0) as (-> & _). by rewrite Z.mod_small.
Qed.
Lemma send_ack s timer t i : ready s -> live timer s -> 0 <= t < 16 -> is_u16 i ->
  MQTTSerialize_ack (c_buf s.1) (buf_size s.1) t 0 i = Ok (overwrite (c_buf s.1) 0 (ack_bytes t 0 i), 4) /\
  sendPacket fuel 4 timer (with_buf (overwrite (c_buf s.1) 0 (ack_bytes t 0 i)) s) = Ok (transmitted (ack_bytes t 0 i) s, SUCCESS).
Proof using Hfuel.
  intros Hr Ht Hty Hi. split.
  - destruct (ack_eq (c_buf s.1) [] (buf_size s.1) t 0 i (MkAck 0 0 0)) as [-> _]; [done|lia|done|destruct Hr; lia|].
    rewrite (proj2 (Z.ltb_ge _ 4)) by (destruct Hr; lia). done.
  - apply (send_ok s timer (ack_bytes t 0 i)); [done| |done]. rewrite Zlen_ack_bytes. destruct Hr. lia.
Qed.
Lemma read_ack o t i r s : 0 <= t < 16 -> is_u16 i -> MQTTDeserialize_ack o (readbuf (received (ack_bytes t 0 i) r s).1) = Ok (MkAck t 0 i, 1).
Proof. intros Ht Hi. cbn [received with_readbuf took fst readbuf set_readbuf]. rewrite overwrite_0. apply (ack_eq [] _ 0); [done|lia|done|by vm_compute]. Qed.

(** PUBREC is answered with PUBREL for the same identifier. *)
Lemma cycle_pubrec_ok s timer i r : ready s -> live timer s -> is_u16 i -> n_in s.2 = ack_bytes PUBREC 0 i ++ r ->
  cycle junk fuel timer s = Ok (transmitted (ack_bytes PUBREL 0 i) (received (ack_bytes PUBREC 0 i) r s), PUBREC).
Proof using Hfuel.
  intros Hr Ht Hid E. unfold cycle. rewrite (M_bind_Ok _ _ _ _ _ (ack_header PUBREC 0 i r s ltac:(done) ltac:(done) Hid E Hr timer)).
  change (u16 PUBREC) with PUBREC. destruct (ack_fits s PUBREC 0 i r Hr) as [_ Hr1].
  set (s1 := received (ack_bytes PUBREC 0 i) r s) in *.
  assert (cycle_pubrec junk fuel timer s1 = Ok (transmitted (ack_bytes PUBREL 0 i) s1, None)) as E1.
  { unfold cycle_pubrec. erewrite M_bind_Ok by reflexivity. unfold s1. erewrite pure_bind_Ok by (apply read_ack; [by vm_compute|done]). fold s1.
    cbn [Z.eqb Pos.eqb negb ack_packetid]. destruct (send_ack s1 timer PUBREL i Hr1 Ht ltac:(done) Hid) as [Es1 Es2].
    erewrite M_bind_Ok by reflexivity. erewrite pure_bind_Ok by exact Es1. cbv beta iota.
    erewrite M_bind_Ok by reflexivity. cbn [Z.leb Z.compare]. by erewrite M_bind_Ok by exact Es2. }
  change (PUBREC =? PUBLISH) with false. change (PUBREC =? PUBREC) with true. cbv iota. rewrite (M_bind_Ok _ _ _ _ _ E1).
  destruct (keepalive_quiet (transmitted (ack_bytes PUBREL 0 i) s1)) as [k Ek]; [by apply transmitted_quiet|].
  by rewrite (M_bind_Ok _ _ _ _ _ Ek).
Qed.
(** An acknowledgement that the switch has no work for. *)
Lemma cycle_ack s timer t i r : ready s -> quiet s -> 0 <= t < 16 -> is_u16 i -> t ∉ [PUBLISH; PUBREC; PINGRESP] ->
  n_in s.2 = ack_bytes t 0 i ++ r -> cycle junk fuel timer s = Ok (received (ack_bytes t 0 i) r s, t).
Proof.
  intros Hr Hq Ht Hi Hn E. pose proof (ack_fits s t 0 i r Hr) as [Hfit _].
  assert (header_type (header_byte t 0 (if t =? PUBREL then 1 else 0) 0) = t) as Et
    by (destruct (header_fields t 0 (if t =? PUBREL then 1 else 0) 0) as (-> & _); by rewrite Z.mod_small).
  unfold ack_bytes in *. rewrite (cycle_plain s timer _ _ r Hr Hq E); [by rewrite Et|apply header_byte_range|by vm_compute|done|by rewrite Et].
Qed.

(** ** Waiting and exchanging *)
Lemma transact_ok s ser timer pkt k : ready s -> live timer s -> 0 < Zlen pkt <= Zlen (c_buf s.1) ->
  ser s.1 = Ok (overwrite (c_buf s.1) 0 pkt, Zlen pkt) -> transact fuel ser timer k s = k (transmitted pkt s).
Proof using Hfuel.
  intros Hr Ht Hl E. unfold transact. erewrite M_bind_Ok by reflexivity. erewrite pure_bind_Ok by exact E. cbv beta iota.
  erewrite M_bind_Ok by reflexivity. rewrite (proj2 (Z.leb_gt _ 0)) by lia.
  by rewrite (M_bind_Ok _ _ _ _ _ (send_ok s timer pkt Hr Hl Ht)).
Qed.
Lemma wait_hit n s s' type timer rc : live timer s -> cycle junk fuel timer s = Ok (s', type) ->
  wait_loop junk fuel (S n) type timer rc s = Ok (s', type).
Proof.
  intros Ht E. cbn [wait_loop]. erewrite M_bind_Ok by reflexivity. cbn [fst snd]. unfold live in Ht. rewrite Ht. cbn [ctrue negb Z.eqb].
  assert (cycle junk fuel timer (s.1, s.2) = Ok (s', type)) as E' by (by destruct s). rewrite (M_bind_Ok _ _ _ _ _ E').
  by rewrite Z.eqb_refl.
Qed.
Lemma wait_miss n s s' t type timer rc : live timer s -> cycle junk fuel timer s = Ok (s', t) -> t <> type ->
  wait_loop junk fuel (S n) type timer rc s = wait_loop junk fuel n type timer t s'.
Proof.
  intros Ht E Hn. cbn [wait_loop]. erewrite M_bind_Ok by reflexivity. cbn [fst snd]. unfold live in Ht. rewrite Ht. cbn [ctrue negb Z.eqb].
  assert (cycle junk fuel timer (s.1, s.2) = Ok (s', t)) as E' by (by destruct s). rewrite (M_bind_Ok _ _ _ _ _ E').
  by rewrite (proj2 (Z.eqb_neq t type)).
Qed.

Lemma waitfor_rounds type timer : waitfor junk fuel type timer = wait_loop junk fuel (S (S (fuel - 2))) type timer FAILURE.
Proof using Hfuel. unfold waitfor. f_equal. lia. Qed.

(** The acknowledgement a QoS 1 or 2 exchange ends with. *)
Lemma await_ack_ok s s' timer t i r : ready s -> live timer s -> 0 <= t < 16 -> is_u16 i ->
  waitfor junk fuel t timer s = Ok (received (ack_bytes t 0 i) r s', t) -> await_ack junk fuel t timer s = Ok (received (ack_bytes t 0 i) r s', SUCCESS).
Proof.
  intros Hr Ht Hty Hi E. unfold await_ack. rewrite (M_bind_Ok _ _ _ _ _ E). rewrite Z.eqb_refl. cbn [negb].
  erewrite M_bind_Ok by reflexivity. erewrite pure_bind_Ok by (by apply read_ack). done.
Qed.
Lemma await_puback s timer i r : ready s -> quiet s -> live timer s -> is_u16 i -> n_in s.2 = ack_bytes PUBACK 0 i ++ r ->
  await_ack junk fuel PUBACK timer s = Ok (received (ack_bytes PUBACK 0 i) r s, SUCCESS).
Proof using Hfuel.
  intros Hr Hq Ht Hi E. apply await_ack_ok; try done. rewrite waitfor_rounds.
  apply wait_hit; [done|]. apply cycle_ack; try done. by apply (bool_decide_unpack _).
Qed.
Lemma await_pubcomp s timer i j r : ready s -> quiet s -> live timer s -> is_u16 i -> is_u16 j ->
  n_in s.2 = ack_bytes PUBREC 0 i ++ ack_bytes PUBCOMP 0 j ++ r ->
  await_ack junk fuel PUBCOMP timer s =
    Ok (received (ack_bytes PUBCOMP 0 j) r (transmitted (ack_bytes PUBREL 0 i) (received (ack_bytes PUBREC 0 i) (ack_bytes PUBCOMP 0 j ++ r) s)), SUCCESS).
Proof using Hfuel.
  intros Hr Hq Ht Hi Hj E. apply await_ack_ok; try done. rewrite waitfor_rounds.
  pose proof (cycle_pubrec_ok s timer i _ Hr Ht Hi E) as E1. destruct (ack_fits s PUBREC 0 i (ack_bytes PUBCOMP 0 j ++ r) Hr) as [_ Hr1].
  set (s1 := received (ack_bytes PUBREC 0 i) (ack_bytes PUBCOMP 0 j ++ r) s) in *.
  rewrite (wait_miss _ _ _ _ _ _ _ Ht E1) by done. apply wait_hit; [done|]. apply cycle_ack; try done.
  - apply transmitted_ready; [done|]. rewrite Zlen_ack_bytes. destruct Hr1. lia.
  - by apply transmitted_quiet.
  - by apply (bool_decide_unpack _).
Qed.
End cycle.

(** ** Theorems *)

(** What a broker sends back during a publish of quality [q]. *)
Definition answers (q i j : Z) : list Z :=
  if q =? QOS1 then ack_bytes PUBACK 0 i else if q =? QOS2 then ack_bytes PUBREC 0 i ++ ack_bytes PUBCOMP 0 j else [].
(** The identifier of the next exchange. *)
Definition next_id (c : mqtt_client) : Z := if next_packetid c =? MAX_PACKET_ID then 1 else next_packetid c + 1.
Lemma getNextPacketId_eq (s : @C net) : getNextPacketId s = Ok ((set_next_packetid (next_id s.1) s.1, s.2), next_id s.1).
Proof. done. Qed.
Definition timely (s : @C net) : Prop := live (timer_countdown_ms (n_time s.2) (command_timeout_ms s.1)) s.

(** A message the send buffer has room for. *)
Record publishable (c : mqtt_client) (m : MQTTMessage) (tp pl : list Z) : Prop := {
  p_qos : 0 <= qos m <= 2;
  p_id : is_u16 (id m);
  p_topic : Zlen tp < 65536 /\ Forall (fun c => c <> 0) tp;
  p_payload : exists pb po x, payload m = Some (pb, po) /\ suffix pb po (pl ++ x);
  p_len : payloadlen m = Zlen pl;
  p_max : Zlen (publish_body (qos m) (id m) tp pl) < max_body;
  p_fits : MQTTPacket_len (Zlen (publish_body (qos m) (id m) tp pl)) <= buf_size c
}.
Lemma transact_publish fuel (s : @C net) timer m tp z pl k : (2 <= fuel)%nat -> ready s -> live timer s -> publishable s.1 m tp pl ->
  let pkt := publish_bytes 0 (qos m) (retained m) (id m) tp pl in
  transact fuel (fun c => MQTTSerialize_publish (c_buf c) (buf_size c) 0 (qos m) (retained m) (id m)
    (string_of (tp ++ 0 :: z)) (payload m) (payloadlen m)) timer k s = k (transmitted pkt s) /\ 0 < Zlen pkt <= Zlen (c_buf s.1).
Proof.
  intros Hf Hr Ht [Hq Hi [Htp Hz] (pb & po & x & Ep & Hs) El Hmax Hfit] pkt.
  assert (denotes (string_of (tp ++ 0 :: z)) tp) as Hd by (by apply denotes_cstring).
  set (body := publish_body (qos m) (id m) tp pl) in *. pose proof (Zlen_nonneg body) as Hb0.
  pose proof (MQTTPacket_len_ge (Zlen body) ltac:(lia)) as Hge. pose proof (Zlen_nonneg (remlen_bytes (Zlen body))) as Hrl.
  destruct (r_size _ Hr) as [_ Hsize].
  assert (0 < Zlen pkt <= Zlen (c_buf s.1)) as Hpkt.
  { unfold pkt, publish_bytes, packet. fold body. rewrite Zlen_cons, Zlen_app. lia. }
  split; [|done]. apply transact_ok; [done..|]. rewrite Ep, El.
  rewrite (publish_serialize_eq _ _ _ _ _ _ _ tp pb po pl x Hd Hs Hi Hsize Hmax). fold body.
  by rewrite (proj2 (Z.ltb_ge _ _)) by lia.
Qed.

(** The exchange after the identifier was chosen. *)
Lemma publish_finishes junk fuel (s : @C net) timer m tp z pl r i j : (2 <= fuel)%nat -> ready s -> live timer s -> publishable s.1 m tp pl ->
  is_u16 i -> is_u16 j -> n_in s.2 = answers (qos m) i j ++ r ->
  exists s', transact fuel (fun c => MQTTSerialize_publish (c_buf c) (buf_size c) 0 (qos m) (retained m) (id m)
      (string_of (tp ++ 0 :: z)) (payload m) (payloadlen m)) timer
      (if qos m =? QOS1 then await_ack junk fuel PUBACK timer else if qos m =? QOS2 then await_ack junk fuel PUBCOMP timer else mret SUCCESS) s
    = Ok (s', SUCCESS) /\ n_in s'.2 = r /\ isconnected s'.1 = isconnected s.1 /\ next_packetid s'.1 = next_packetid s.1 /\
    n_out s'.2 = n_out s.2 ++ publish_bytes 0 (qos m) (retained m) (id m) tp pl ++ (if qos m =? QOS2 then ack_bytes PUBREL 0 i else []).
Proof.
  intros Hf Hr Ht Hp Hi Hj E. edestruct (transact_publish fuel s timer m tp z pl) as [-> Hpkt]; [done..|].
  set (pkt := publish_bytes 0 (qos m) (retained m) (id m) tp pl) in *.
  pose proof (transmitted_ready pkt s Hr ltac:(lia)) as Hr2. pose proof (transmitted_quiet pkt s Hr) as Hq2.
  assert (n_in (transmitted pkt s).2 = answers (qos m) i j ++ r) as E2 by done. unfold answers in E2.
  destruct (Z.eqb_spec (qos m) QOS1) as [Eq | Hq1].
  { rewrite (await_puback junk fuel Hf _ timer i r Hr2 Hq2 Ht Hi E2). eexists. rewrite Eq. cbn [Z.eqb Pos.eqb QOS1 QOS2]. by rewrite app_nil_r. }
  destruct (Z.eqb_spec (qos m) QOS2) as [Eq | Hq2'].
  - rewrite <- app_assoc in E2. rewrite (await_pubcomp junk fuel Hf _ timer i j r Hr2 Hq2 Ht Hi Hj E2). eexists.
    split; [done|]. cbn. by rewrite <- app_assoc.
  - eexists. split; [done|]. cbn in *. by rewrite app_nil_r.
Qed.

(** The identifier a message is published with, the message and the state
    once it is chosen. *)
Definition publish_id (c : mqtt_client) (m : MQTTMessage) : Z := if qos m =? QOS0 then id m else next_id c.
Definition identified (c : mqtt_client) (m : MQTTMessage) : MQTTMessage :=
  MkMsg (qos m) (retained m) (dup m) (publish_id c m) (payload m) (payloadlen m).
Definition advanced (m : MQTTMessage) (s : @C net) : @C net :=
  (if qos m =? QOS0 then s.1 else set_next_packetid (next_id s.1) s.1, s.2).
Definition publish_rest (junk : publish_out) (fuel : nat) (topic : list Z) (m : MQTTMessage) (t : timer) : M (@C net) Z :=
  transact fuel (fun c => MQTTSerialize_publish (c_buf c) (buf_size c) 0 (qos m) (retained m) (id m) (string_of topic) (payload m) (payloadlen m)) t
    (if qos m =? QOS1 then await_ack junk fuel PUBACK t else if qos m =? QOS2 then await_ack junk fuel PUBCOMP t else mret SUCCESS).
Lemma next_id_range c : 1 <= next_packetid c <= MAX_PACKET_ID -> 1 <= next_id c <= MAX_PACKET_ID.
Proof. unfold next_id, MAX_PACKET_ID. case_test; lia. Qed.
Lemma publish_starts junk fuel (s : @C net) topic m : isconnected s.1 <> 0 -> 1 <= next_packetid s.1 <= MAX_PACKET_ID -> 0 <= qos m <= 2 ->
  MQTTPublish junk fuel topic m s =
    (rc ← publish_rest junk fuel topic (identified s.1 m) (timer_countdown_ms (n_time s.2) (command_timeout_ms s.1)); mret (rc, identified s.1 m)) (advanced m s).
Proof.
  intros Hc Hn Hq. pose proof (next_id_range _ Hn) as Hid.
  unfold MQTTPublish. erewrite M_bind_Ok by reflexivity. unfold ctrue. rewrite (proj2 (Z.eqb_neq _ 0) Hc). cbn [negb].
  erewrite M_bind_Ok by reflexivity. cbn [fst snd].
  assert (((if (qos m =? QOS1) || (qos m =? QOS2) then
      pid ← getNextPacketId; mret (MkMsg (qos m) (retained m) (dup m) (u16 pid) (payload m) (payloadlen m))
    else mret m) : M C MQTTMessage) (s.1, s.2) = Ok (advanced m s, identified s.1 m)) as E1; [|by rewrite (M_bind_Ok _ _ _ _ _ E1)].
  unfold advanced, identified, publish_id.
  assert (qos m = 0 \/ qos m = 1 \/ qos m = 2) as [Eq | [Eq | Eq]] by lia; rewrite Eq; cbn [orb Z.eqb Pos.eqb QOS0 QOS1 QOS2].
  - rewrite <- Eq. by destruct m.
  - rewrite (M_bind_Ok _ _ _ _ _ (getNextPacketId_eq (s.1, s.2))). cbn [fst snd]. by rewrite wrap_small by (unfold MAX_PACKET_ID in *; pow2_norm; lia).
  - rewrite (M_bind_Ok _ _ _ _ _ (getNextPacketId_eq (s.1, s.2))). cbn [fst snd]. by rewrite wrap_small by (unfold MAX_PACKET_ID in *; pow2_norm; lia).
Qed.
Lemma advanced_ready m s : ready s -> ready (advanced m s).
Proof. intros []. unfold advanced. destruct (qos m =? QOS0); by split. Qed.
Lemma identified_publishable m (s : @C net) tp pl : 1 <= next_packetid s.1 <= MAX_PACKET_ID -> publishable s.1 m tp pl ->
  publishable (advanced m s).1 (identified s.1 m) tp pl.
Proof.
  intros Hn [? Hidm ? ? ? Hmax Hfit]. pose proof (next_id_range _ Hn) as Hid. rewrite Zlen_publish_body in Hmax, Hfit.
  split; cbn [identified qos id payload payloadlen]; rewrite ?Zlen_publish_body; try done.
  - unfold publish_id. case_test; [done|]. unfold MAX_PACKET_ID in *; pow2_norm; lia.
  - unfold advanced. cbn [fst]. by destruct (qos m =? QOS0).
Qed.

(** C2: A connected client that publishes puts exactly the PUBLISH packet
    on the wire, for QoS 1 and 2 with a fresh identifier, waits for PUBACK,
    or answers PUBREC with PUBREL and waits for PUBCOMP, and reports
    success. The identifiers of the answers are not compared with its own:
    PUBREL repeats that of the PUBREC. *)
Theorem publish_exchange (junk : publish_out) (fuel : nat) (s : C) (tp z pl r : list Z) (m : MQTTMessage) (i j : Z) :
  (2 <= fuel)%nat -> ready s -> timely s -> isconnected s.1 <> 0 -> 1 <= next_packetid s.1 <= MAX_PACKET_ID ->
  publishable s.1 m tp pl -> is_u16 i -> is_u16 j -> n_in s.2 = answers (qos m) i j ++ r ->
  let pid := if qos m =? QOS0 then id m else next_id s.1 in
  exists s' m', MQTTPublish junk fuel (tp ++ 0 :: z) m s = Ok (s', (SUCCESS, m')) /\ id m' = pid /\
    n_in s'.2 = r /\ isconnected s'.1 = isconnected s.1 /\
    next_packetid s'.1 = (if qos m =? QOS0 then next_packetid s.1 else pid) /\ (qos m <> QOS0 -> 1 <= pid <= MAX_PACKET_ID) /\
    n_out s'.2 = n_out s.2 ++ publish_bytes 0 (qos m) (retained m) pid tp pl ++ (if qos m =? QOS2 then ack_bytes PUBREL 0 i else []).
Proof.
  intros Hf Hr Ht Hc Hn Hp Hi Hj E pid. pose proof (p_qos _ _ _ _ Hp) as Hq. rewrite publish_starts by done.
  set (t := timer_countdown_ms (n_time s.2) (command_timeout_ms s.1)).
  assert (live t (advanced m s)) as Ht1 by exact Ht.
  destruct (publish_finishes junk fuel (advanced m s) t (identified s.1 m) tp z pl r i j Hf (advanced_ready _ _ Hr) Ht1
    (identified_publishable _ _ _ _ Hn Hp) Hi Hj E) as (s' & E' & H1 & H2 & H3 & H4).
  unfold publish_rest. rewrite (M_bind_Ok _ _ _ _ _ E'). exists s', (identified s.1 m).
  split; [done|]. split; [done|]. split; [done|]. split; [|split; [|split; [|done]]].
  - rewrite H2. unfold advanced. cbn [fst]. by destruct (qos m =? QOS0).
  - rewrite H3. unfold advanced, pid. cbn [fst]. by destruct (qos m =? QOS0).
  - unfold pid. intros Hq0. rewrite (proj2 (Z.eqb_neq _ _) Hq0). by apply next_id_range.
Qed.

(** The client with the keep-alive interval of its options. *)
Definition keeping (k : Z) (s : @C net) : @C net :=
  (set_ping_timer (MkTimer (n_time s.2) (u32 (k * 1000))) (set_keepAliveInterval k s.1), s.2).

Lemma connack_parse o f rc rest : is_u8 rc ->
  MQTTDeserialize_connack o ([32; 2; f; rc] ++ rest) = Ok ((get_bits 7 1 (u8 (s8 f)), rc), 1).
Proof.
  intros Hrc. assert (u8 (s8 rc) = rc) as Es.
  { pow2_norm. destruct (readByte_suffix [rc] 0 rc [] (suffix_start _) Hrc) as (x & [= <-] & E & _). done. }
  assert (MQTTDeserialize_connack o ([32; 2; f; rc] ++ rest) = Ok ((get_bits 7 1 (u8 (s8 f)), u8 (s8 rc)), 1)) as -> by done. by rewrite Es.
Qed.

(** The exchange once the client knows its keep-alive interval. *)
Lemma connect_finishes junk fuel (s : @C net) timer d sp f rc r : (2 <= fuel)%nat -> represents d sp -> spec_ok sp ->
  MQTTVersion d = 3 \/ MQTTVersion d = 4 -> ready s -> live timer s ->
  MQTTPacket_len (Zlen (connect_body (MQTTVersion d) sp)) <= buf_size s.1 -> is_u8 rc -> n_in s.2 = [32; 2; f; rc] ++ r ->
  exists s', transact fuel (fun c => MQTTSerialize_connect (c_buf c) (buf_size c) d) timer (
      r ← waitfor junk fuel CONNACK timer;
      if negb (r =? CONNACK) then mret FAILURE else
      c ← self;
      '(_, connack_rc, ok) ← pure (MQTTDeserialize_connack (0, 255) (readbuf c));
      mret (if ok =? 1 then connack_rc else FAILURE)) s = Ok (s', rc) /\
    n_in s'.2 = r /\ isconnected s'.1 = isconnected s.1 /\ n_out s'.2 = n_out s.2 ++ connect_bytes (MQTTVersion d) sp.
Proof.
  intros Hf Hrep Hok Hv Hr Ht Hfit Hrc E. set (pkt := connect_bytes (MQTTVersion d) sp).
  set (body := connect_body (MQTTVersion d) sp) in *. pose proof (connect_body_max _ _ Hok Hv) as Hmax. fold body in Hmax.
  pose proof (Zlen_nonneg body) as Hb0. pose proof (MQTTPacket_len_ge (Zlen body) ltac:(lia)) as Hge.
  pose proof (Zlen_nonneg (remlen_bytes (Zlen body))) as Hrl. destruct (r_size _ Hr) as [_ Hsize].
  assert (0 < Zlen pkt <= Zlen (c_buf s.1)) as Hpkt by (unfold pkt, connect_bytes, packet; fold body; rewrite Zlen_cons, Zlen_app; lia).
  rewrite (transact_ok fuel Hf s _ timer pkt _ Hr Ht Hpkt).
  2: { rewrite (connect_serialize_eq _ _ d sp Hrep Hok Hv Hsize). fold body. by rewrite (proj2 (Z.ltb_ge _ _)) by lia. }
  pose proof (transmitted_ready pkt s Hr ltac:(lia)) as Hr2. pose proof (transmitted_quiet pkt s Hr) as Hq2.
  set (s2 := transmitted pkt s) in *.
  assert (cycle junk fuel timer s2 = Ok (received [32; 2; f; rc] r s2, CONNACK)) as Ec.
  { apply (cycle_plain junk fuel Hf s2 timer 32 [f; rc] r Hr2 Hq2); [exact E|done|done| |by apply (bool_decide_unpack _)].
    change (Zlen (packet 32 [f; rc])) with 4. destruct Hr2. lia. }
  erewrite M_bind_Ok by (rewrite waitfor_rounds by done; by apply wait_hit). rewrite Z.eqb_refl. cbn [negb].
  erewrite M_bind_Ok by reflexivity. erewrite pure_bind_Ok by (apply connack_parse; exact Hrc).
  eexists. by split_and!.
Qed.

(** C7: An unconnected client that connects puts exactly the CONNECT packet
    of its options on the wire, waits for the CONNACK, returns its code, and
    counts as connected exactly when that is 0. *)
Theorem connect_exchange (junk : publish_out) (fuel : nat) (s : C) (d : connectData) (sp : connect_spec) (f rc : Z) (r : list Z) :
  (2 <= fuel)%nat -> isconnected s.1 = 0 -> represents d sp -> spec_ok sp -> MQTTVersion d = 3 \/ MQTTVersion d = 4 ->
  ready (keeping (cs_keep sp) s) -> timely s ->
  MQTTPacket_len (Zlen (connect_body (MQTTVersion d) sp)) <= buf_size s.1 -> is_u8 rc ->
  n_in s.2 = [32; 2; f; rc] ++ r ->
  exists s', MQTTConnect junk fuel (Some d) s = Ok (s', rc) /\ isconnected s'.1 = cbool (rc =? 0) /\
    n_in s'.2 = r /\ n_out s'.2 = n_out s.2 ++ connect_bytes (MQTTVersion d) sp.
Proof.
  intros Hf Hc Hrep Hok Hv Hr Ht Hfit Hrc E. unfold MQTTConnect. pose proof Hrep as (_ & Hk & _).
  erewrite M_bind_Ok by reflexivity. cbn [fst]. rewrite Hc. cbn [ctrue negb Z.eqb default from_option Datatypes.id].
  destruct (connect_finishes junk fuel (keeping (cs_keep sp) s) (timer_countdown_ms (n_time s.2) (command_timeout_ms s.1))
    d sp f rc r Hf Hrep Hok Hv Hr Ht Hfit Hrc E) as (s' & E' & H1 & H2 & H3).
  erewrite M_bind_Ok.
  2: { erewrite M_bind_Ok by reflexivity. erewrite M_bind_Ok by reflexivity. erewrite M_bind_Ok by reflexivity. cbn [fst snd].
    destruct Hr as [Hkeep _ _ _ _]. cbn in Hkeep. rewrite Hk.
    erewrite pure_bind_Ok by (unfold timer_countdown_second; rewrite int32_ok by (pow2_norm; lia); reflexivity).
    erewrite M_bind_Ok by reflexivity. exact E'. }
  cbn [keeping fst snd set_ping_timer set_keepAliveInterval isconnected n_out] in H2, H3. change SUCCESS with 0. destruct (Z.eqb_spec rc 0) as [-> | Hrc0].
  - erewrite M_bind_Ok by reflexivity. eexists. by split_and!.
  - exists s'. split_and!; [done|by rewrite H2|done|done].
Qed.

(** ** Subscribing *)
Lemma suback_parse1 o a b g rest :
  MQTTDeserialize_suback (MkSuback o 0 [-1]) 1 ([144; 3; a; b; g] ++ rest) = Ok (MkSuback (256 * a + b) 1 [s8 g], 1).
Proof. done. Qed.

Lemma transact_subscribe fuel (s : @C net) t k pid f z q : (2 <= fuel)%nat -> ready s -> live t s -> is_u16 pid ->
  Zlen f < 65536 -> Forall (fun c => c <> 0) f -> 0 <= q <= 2 -> MQTTPacket_len (Zlen (subscribe_body pid [f] [q])) <= buf_size s.1 ->
  let pkt := subscribe_bytes 0 pid [f] [q] in
  transact fuel (fun c => MQTTSerialize_subscribe (c_buf c) (buf_size c) 0 pid 1 [string_of (f ++ 0 :: z)] [q]) t k s = k (transmitted pkt s) /\
  Zlen pkt <= Zlen (c_buf s.1).
Proof.
  intros Hf Hr Ht Hid Hfl Hz Hq Hfit pkt. destruct (r_size _ Hr) as [_ Hsize]. set (body := subscribe_body pid [f] [q]) in *.
  assert (Zlen body < max_body /\ 0 <= Zlen body) as [Hmax H0].
  { unfold body, subscribe_body, max_body. cbn [topic_bytes]. unfold string_bytes, int_bytes. zlen. pose proof (Zlen_nonneg f). lia. }
  assert (0 < Zlen pkt <= Zlen (c_buf s.1)) as Hpkt.
  { unfold pkt, subscribe_bytes, packet. fold body. rewrite Zlen_cons, Zlen_app.
    pose proof (MQTTPacket_len_ge (Zlen body) ltac:(lia)). pose proof (Zlen_nonneg (remlen_bytes (Zlen body))). lia. }
  split; [|lia]. apply transact_ok; [done..|].
  assert (denotes (string_of (f ++ 0 :: z)) f) as Hd by (by apply denotes_cstring).
  pose proof (subscribe_serialize_eq (c_buf s.1) (buf_size s.1) 0 pid [string_of (f ++ 0 :: z)] [f] [q]
    ltac:(by repeat constructor) eq_refl Hid ltac:(lia) Hmax ltac:(done)) as Es.
  change (Zlen [string_of (f ++ 0 :: z)]) with 1 in Es. rewrite Es. fold body. by rewrite (proj2 (Z.ltb_ge _ _)) by lia.
Qed.

(** C31: A connected client that subscribes puts exactly the SUBSCRIBE packet
    on the wire and, whatever the broker grants, enters the handler into its
    first free slot: the refusal 0x80 is read as -128 and the test for it
    never holds. Without a free slot it returns what the broker granted. *)
Theorem subscribe_exchange (junk : publish_out) (fuel : nat) (s : C) (f z r : list Z) (q a b g : Z) (h : option Z) :
  (2 <= fuel)%nat -> ready s -> timely s -> isconnected s.1 <> 0 -> 1 <= next_packetid s.1 <= MAX_PACKET_ID ->
  Zlen f < 65536 -> Forall (fun c => c <> 0) f -> 0 <= q <= 2 -> is_u8 g -> is_u8 a -> is_u8 b ->
  MQTTPacket_len (Zlen (subscribe_body (next_id s.1) [f] [q])) <= buf_size s.1 -> n_in s.2 = [144; 3; a; b; g] ++ r ->
  exists s' rc, MQTTSubscribe junk fuel (f ++ 0 :: z) q h s = Ok (s', rc) /\ n_in s'.2 = r /\
    n_out s'.2 = n_out s.2 ++ subscribe_bytes 0 (next_id s.1) [f] [q] /\ next_packetid s'.1 = next_id s.1 /\
    match add_handler (messageHandlers s.1) (MkHandler (Some (f ++ 0 :: z)) h) with
    | Some hs => rc = 0 /\ messageHandlers s'.1 = hs
    | None => rc = s8 g /\ messageHandlers s'.1 = messageHandlers s.1
    end.
Proof.
  intros Hf Hr Ht Hc Hn Hfl Hz Hq Hg Ha Hb Hfit E. pose proof (next_id_range _ Hn) as Hid.
  unfold MQTTSubscribe. erewrite M_bind_Ok by reflexivity. unfold ctrue. rewrite (proj2 (Z.eqb_neq _ 0) Hc). cbn [negb].
  erewrite M_bind_Ok by reflexivity. cbn [fst snd]. set (t := timer_countdown_ms _ _).
  rewrite (M_bind_Ok _ _ _ _ _ (getNextPacketId_eq (s.1, s.2))). cbn [fst snd].
  set (s1 := (set_next_packetid (next_id s.1) s.1, s.2) : @C net).
  assert (ready s1) as Hr1 by (destruct Hr; by split). assert (live t s1) as Ht1 by exact Ht.
  edestruct (transact_subscribe fuel s1 t) as [-> Hpkt]; [try done..|]; [unfold MAX_PACKET_ID in *; pow2_norm; lia|].
  set (pkt := subscribe_bytes 0 (next_id s.1) [f] [q]) in *.
  pose proof (transmitted_ready pkt s1 Hr1 ltac:(lia)) as Hr2. pose proof (transmitted_quiet pkt s1 Hr1) as Hq2.
  set (s2 := transmitted pkt s1) in *.
  assert (cycle junk fuel t s2 = Ok (received [144; 3; a; b; g] r s2, SUBACK)) as Ec.
  { apply (cycle_plain junk fuel Hf s2 t 144 [a; b; g] r Hr2 Hq2); [exact E|done|done| |by apply (bool_decide_unpack _)].
    change (Zlen (packet 144 [a; b; g])) with 5. by destruct Hr2. }
  erewrite M_bind_Ok by (rewrite waitfor_rounds by done; by apply wait_hit). rewrite Z.eqb_refl. cbn [negb].
  erewrite M_bind_Ok by reflexivity. erewrite pure_bind_Ok by (apply suback_parse1).
  cbn [sa_grantedQoSs]. erewrite pure_bind_Ok by reflexivity. cbn [Z.eqb Pos.eqb].
  assert (s8 g < 128) as H128 by (pose proof (swrap_range 8 g ltac:(lia)); change (2 ^ (8 - 1)) with 128 in *; lia).
  rewrite (proj2 (Z.eqb_neq (s8 g) 128)) by lia. change (messageHandlers (received _ r s2).1) with (messageHandlers s.1).
  destruct (add_handler _ _) as [hs|]; [erewrite M_bind_Ok by reflexivity|]; do 2 eexists; by split_and!.
Qed.

Lemma subscribe_exchange_witness (junk := MkPub 0 0 0 0 MQTTString_initializer None 0) :
  exists s', MQTTSubscribe junk 2 [98; 0] 1 (Some 8)
      (MkClient 65535 1000 64 64 (replicate 64 0) (replicate 64 0) 60 0 1 [MkHandler None None] None (MkTimer 0 60000), MkNet [144; 3; 0; 1; 128] [] 5 100 [])
    = Ok (s', 0) /\ n_out s'.2 = [130; 6; 0; 1; 0; 1; 98; 1] /\ messageHandlers s'.1 = [MkHandler (Some [98; 0]) (Some 8)].
Proof.
  destruct (subscribe_exchange junk 2
      (MkClient 65535 1000 64 64 (replicate 64 0) (replicate 64 0) 60 0 1 [MkHandler None None] None (MkTimer 0 60000), MkNet [144; 3; 0; 1; 128] [] 5 100 [])
      [98] [] [] 1 0 1 128 (Some 8)) as (s' & rc & E & _ & Eo & _ & -> & Eh);
    [done|split; by vm_compute|by vm_compute|done|by vm_compute|by vm_compute|by repeat constructor|lia|by vm_compute|by vm_compute|by vm_compute|by vm_compute|done|].
  exists s'. split; [exact E|]. split; [rewrite Eo; by vm_compute|exact Eh].
Defined.

(** ** Incoming messages *)
Lemma strncmp_eq (nm f r rf : list Z) : length nm = length f -> Forall (fun c => c <> 0) f ->
  exists d, strncmp (length nm) (nm ++ r) (f ++ 0 :: rf) = Ok d /\ (d =? 0) = bool_decide (nm = f).
Proof.
  revert f. induction nm as [|x nm IH]; intros [|y f] El Hz; try done; cbn [length strncmp app].
  - exists 0. by rewrite bool_decide_eq_true_2.
  - apply Forall_cons in Hz as [Hy Hz]. destruct (Z.eqb_spec x y) as [-> | Hxy]; cbn [negb].
    + rewrite (proj2 (Z.eqb_neq y 0)) by done. destruct (IH f ltac:(cbn in El; lia) Hz) as (d & E & Ed). exists d. split; [done|]. rewrite Ed.
      apply bool_decide_ext. split; congruence.
    + exists (x - y). rewrite bool_decide_eq_false_2 by congruence. split; [done|]. apply Z.eqb_neq. lia.
Qed.
Lemma MQTTPacket_equals_eq b o nm r f rf : suffix b o (nm ++ r) -> Forall (fun c => c <> 0) f ->
  MQTTPacket_equals (MkStr None (Zlen nm) (Some (b, o))) (f ++ 0 :: rf) = Ok (cbool (bool_decide (nm = f))).
Proof.
  intros [_ Hb] Hz. unfold MQTTPacket_equals. cbn [cstring len data bytes_from mbind res_bind]. rewrite strlen_eq by done. cbn [mbind res_bind].
  destruct (Z.eqb_spec (Zlen nm) (Zlen f)) as [El | El]; cbn [negb].
  - rewrite Hb, Zlen_to_nat. destruct (strncmp_eq nm f r rf) as (d & -> & Ed); [unfold Zlen in El; lia|done|]. cbn [mbind res_bind]. by rewrite Ed.
  - rewrite bool_decide_eq_false_2 by congruence. done.
Qed.

(** The topic filter a zero-terminated array holds, the topics a handler's
    filter accepts, and the handlers a message goes to. *)
Fixpoint cstr (l : list Z) : list Z := match l with c :: l => if c =? 0 then [] else c :: cstr l | [] => [] end.
Definition accepts (f nm : list Z) : bool := bool_decide (nm = f) || matches_nonempty (levels f) (levels nm).
Definition receiver (nm : list Z) (h : message_handler) : option Z :=
  match topicFilter h with Some a => if accepts (cstr a) nm then fp h else None | None => None end.
Definition receivers (hs : list message_handler) (nm : list Z) : list Z := omap (receiver nm) hs.
Definition handler_ok (k : nat) (h : message_handler) : Prop :=
  match topicFilter h with
  | Some a => 0 ∈ a /\ wf_filter (levels (cstr a)) = true /\ (length (cstr a) < k)%nat
  | None => True
  end.
Lemma cstr_split a : 0 ∈ a -> exists rf, a = cstr a ++ 0 :: rf /\ Forall (fun c => c <> 0) (cstr a).
Proof.
  induction a as [|c a IH]; [by intros ?%not_elem_of_nil|]. cbn. destruct (Z.eqb_spec c 0) as [-> | Hc].
  - intros _. by exists a.
  - intros [? | Hin]%elem_of_cons; [congruence|]. destruct (IH Hin) as (rf & E & Hz). exists rf. split; [by rewrite <- app_comm_cons, <- E|].
    by apply Forall_cons.
Qed.

Definition gets (gs : list Z) (t : MQTTString) (msg : MQTTMessage) (s : @C net) : @C net :=
  (s.1, MkNet (n_in s.2) (n_out s.2) (n_time s.2) (n_chunk s.2) (n_got s.2 ++ ((fun g => (g, t, msg)) <$> gs))).
Lemma gets_nil t msg s : gets [] t msg s = s.
Proof. destruct s as [c []]. unfold gets. cbn. by rewrite app_nil_r. Qed.
Lemma deliver_loop_eq fuel b o nm r msg k : suffix b o (nm ++ r) -> (k + length nm <= fuel)%nat ->
  forall hs, Forall (handler_ok k) hs -> forall rc s,
  deliver_loop fuel hs (MkStr None (Zlen nm) (Some (b, o))) msg rc s =
    Ok (gets (receivers hs nm) (MkStr None (Zlen nm) (Some (b, o))) msg s, if bool_decide (receivers hs nm = []) then rc else SUCCESS).
Proof.
  intros Hb Hf. set (t := MkStr None (Zlen nm) (Some (b, o))).
  induction 1 as [|[tf g] hs Hh _ IH]; intros rc s; cbn [deliver_loop topicFilter fp].
  { by rewrite gets_nil. }
  destruct tf as [a|]; [|by rewrite IH]. destruct Hh as (H0 & Hw & Hl). cbn [topicFilter] in Hl.
  destruct (cstr_split a H0) as (rf & Ea & Hz).
  assert (MQTTPacket_equals t a = Ok (cbool (bool_decide (nm = cstr a)))) as Eeq by (rewrite Ea at 1; by eapply MQTTPacket_equals_eq).
  rewrite (pure_bind_Ok _ _ _ _ Eeq).
  assert (exists m, (if ctrue (cbool (bool_decide (nm = cstr a))) then mret 1 else pure (isTopicMatched fuel a t)) s = Ok (s, m) /\
    ctrue m = accepts (cstr a) nm) as (m & Em & Ec).
  { unfold accepts. destruct (bool_decide (nm = cstr a)); [by exists 1|]. exists (cbool (matches_nonempty (levels (cstr a)) (levels nm))).
    split; [|by destruct (matches_nonempty _ _)]. cbn [cbool ctrue negb Z.eqb]. rewrite Ea at 1.
    unfold t. by rewrite (isTopicMatched_eq _ rf b nm r o fuel Hb Hz Hw) by lia. }
  rewrite (M_bind_Ok _ _ _ _ _ Em), Ec. 
  assert (receivers (MkHandler (Some a) g :: hs) nm =
    match (if accepts (cstr a) nm then g else None) with Some y => y :: receivers hs nm | None => receivers hs nm end) as -> by done.
  destruct (accepts (cstr a) nm); [|by rewrite IH]. destruct g as [g|]; [|by rewrite IH].
  erewrite M_bind_Ok by reflexivity. rewrite IH. rewrite (bool_decide_eq_false_2 (g :: _ = [])) by done.
  assert ((if bool_decide (receivers hs nm = []) then SUCCESS else SUCCESS) = SUCCESS) as -> by (by destruct (bool_decide _)). do 2 f_equal. unfold gets. cbn [fst snd n_in n_out n_time n_chunk n_got]. by rewrite <- app_assoc.
Qed.

Definition targets (c : mqtt_client) (nm : list Z) : list Z :=
  match receivers (messageHandlers c) nm with [] => option_list (defaultMessageHandler c) | gs => gs end.
Lemma deliverMessage_eq fuel (s : @C net) b o nm r msg k : suffix b o (nm ++ r) -> (k + length nm <= fuel)%nat ->
  Forall (handler_ok k) (messageHandlers s.1) ->
  exists rc, deliverMessage fuel (MkStr None (Zlen nm) (Some (b, o))) msg s = Ok (gets (targets s.1 nm) (MkStr None (Zlen nm) (Some (b, o))) msg s, rc).
Proof.
  intros Hb Hf Hh. unfold deliverMessage. erewrite M_bind_Ok by reflexivity. cbn [fst].
  rewrite (M_bind_Ok _ _ _ _ _ (deliver_loop_eq fuel b o nm r msg k Hb Hf _ Hh FAILURE s)). erewrite M_bind_Ok by reflexivity.
  unfold targets. cbn [gets fst]. destruct (receivers (messageHandlers s.1) nm) as [|g gs].
  - rewrite bool_decide_eq_true_2, gets_nil by done. change (FAILURE =? FAILURE) with true. cbv iota.
    destruct (defaultMessageHandler s.1) as [g|]; [|rewrite gets_nil; by eexists].
    erewrite M_bind_Ok by reflexivity. by eexists.
  - rewrite bool_decide_eq_false_2 by done. change (SUCCESS =? FAILURE) with false. by eexists.
Qed.

(** The acknowledgement a message of quality [q] is answered with. *)
Definition reply (q i : Z) : list Z :=
  if q =? QOS1 then ack_bytes PUBACK 0 i else if q =? QOS2 then ack_bytes PUBREC 0 i else [].

(** Delivering and answering, once the packet is parsed. *)
Lemma cycle_publish_ok junk fuel (s : @C net) timer b o nm r out k : (2 <= fuel)%nat -> ready s -> live timer s ->
  MQTTDeserialize_publish junk (readbuf s.1) = Ok (out, 1) -> pub_topicName out = MkStr None (Zlen nm) (Some (b, o)) -> suffix b o (nm ++ r) ->
  (k + length nm <= fuel)%nat -> Forall (handler_ok k) (messageHandlers s.1) -> 0 <= pub_qos out <= 2 -> (0 < pub_qos out -> is_u16 (pub_packetid out)) ->
  let t := pub_topicName out in
  let msg := MkMsg (pub_qos out) (pub_retained out) (pub_dup out) (pub_packetid out) (pub_payload out) (pub_payloadlen out) in
  let s1 := gets (targets s.1 nm) t msg s in
  cycle_publish junk fuel timer s =
    Ok (if pub_qos out =? QOS0 then s1 else transmitted (reply (pub_qos out) (pub_packetid out)) s1, None).
Proof.
  intros Hf Hr Ht E Et Hb Hk Hh Hq Hid t msg s1. unfold cycle_publish. erewrite M_bind_Ok by reflexivity.
  rewrite (pure_bind_Ok _ _ _ _ E). cbn [negb Z.eqb Pos.eqb]. fold msg. unfold s1, t in *. rewrite Et.
  destruct (deliverMessage_eq fuel s b o nm r msg k Hb Hk Hh) as [rc Ed]. rewrite (M_bind_Ok _ _ _ _ _ Ed).
  set (s2 := gets (targets s.1 nm) _ msg s). change (qos msg) with (pub_qos out). change (id msg) with (pub_packetid out).
  assert (ready s2) as Hr2 by (destruct Hr; by split). assert (live timer s2) as Ht2 by done.
  assert (pub_qos out = 0 \/ pub_qos out = 1 \/ pub_qos out = 2) as [Eq | [Eq | Eq]] by lia; rewrite Eq in *; [done|..];
    cbn [Z.eqb Pos.eqb QOS0 QOS1 QOS2 reply]; erewrite M_bind_Ok by reflexivity.
  - destruct (send_ack fuel Hf s2 timer PUBACK (pub_packetid out) Hr2 Ht2 ltac:(done) ltac:(by apply Hid)) as [E1 E2].
    rewrite (pure_bind_Ok _ _ _ _ E1). erewrite M_bind_Ok by reflexivity. cbn [Z.leb Z.compare].
    by rewrite (M_bind_Ok _ _ _ _ _ E2).
  - destruct (send_ack fuel Hf s2 timer PUBREC (pub_packetid out) Hr2 Ht2 ltac:(done) ltac:(by apply Hid)) as [E1 E2].
    rewrite (pure_bind_Ok _ _ _ _ E1). erewrite M_bind_Ok by reflexivity. cbn [Z.leb Z.compare].
    by rewrite (M_bind_Ok _ _ _ _ _ E2).
Qed.

(** C8: An incoming publish is handed to exactly the handlers whose filters
    accept its topic, or to the default handler when there are none, with its
    topic, payload, quality and identifier; it is answered with PUBACK or
    PUBREC by its quality. *)
Theorem incoming_publish (junk : publish_out) (fuel k : nat) (s : C) (t : timer) (dup q ret i : Z) (nm pl r : list Z) :
  (2 <= fuel)%nat -> (k + length nm <= fuel)%nat -> ready s -> quiet s -> live t s -> Forall (handler_ok k) (messageHandlers s.1) ->
  0 <= dup < 2 -> 0 <= q <= 2 -> 0 <= ret < 2 -> is_u16 i -> Zlen nm < 65536 -> Zlen (publish_body q i nm pl) < max_body ->
  Zlen (publish_bytes dup q ret i nm pl) <= Zlen (readbuf s.1) -> n_in s.2 = publish_bytes dup q ret i nm pl ++ r ->
  exists s' tn msg, cycle junk fuel t s = Ok (s', PUBLISH) /\ n_in s'.2 = r /\ n_out s'.2 = n_out s.2 ++ reply q i /\
    n_got s'.2 = n_got s.2 ++ ((fun g => (g, tn, msg)) <$> targets s.1 nm) /\
    denotes tn nm /\ (qos msg, retained msg, MqttClient.dup msg) = (q, ret, dup) /\ (q <> 0 -> id msg = i) /\ payloadlen msg = Zlen pl /\
    (exists b o x, payload msg = Some (b, o) /\ suffix b o (pl ++ x)).
Proof.
  intros Hf Hk Hr Hqu Ht Hh Hdup Hq Hret Hi Hnm Hmax Hfit E. set (h := header_byte PUBLISH dup q ret).
  set (pkt := publish_bytes dup q ret i nm pl) in *. set (s1 := received pkt r s).
  assert (readPacket t s = Ok (s1, PUBLISH)) as Er.
  { rewrite (readPacket_stream s t h _ r E (header_byte_range _ _ _ _) Hmax (r_read _ Hr)). fold pkt. rewrite (proj2 (Z.leb_le _ _)) by done.
    unfold h. destruct (header_fields PUBLISH dup q ret) as (-> & _). done. }
  destruct (deserialize_publish_eq junk dup q ret i nm pl (drop (length pkt) (readbuf s.1)) ltac:(lia) ltac:(lia) ltac:(lia) Hi Hnm Hmax)
    as (out & Ed & Eflags & Eid & (b & o & x & Etn & Hb) & Epl & (pb & po & Epay & Hs)). injection Eflags as Ed1 Eq1 Er1.
  assert (ready s1) as Hr1 by (by apply received_ready).
  pose proof (cycle_publish_ok junk fuel s1 t b o nm x out k Hf Hr1 Ht Ed Etn Hb Hk Hh ltac:(lia)
    ltac:(intros; rewrite Eid, <- Eq1, (proj2 (Z.ltb_lt 0 _)) by lia; exact Hi)) as Ec. cbv zeta in Ec.
  set (msg := MkMsg _ _ _ _ _ _) in Ec. set (s2 := if _ =? QOS0 then _ else _) in Ec.
  assert (quiet s2) as Hq2.
  { subst s2. destruct (_ =? QOS0); [exact Hqu|]. apply transmitted_quiet. destruct Hr1. by split. }
  destruct (keepalive_quiet fuel s2 Hq2) as [rk Ek].
  exists s2, (pub_topicName out), msg. split; [|split_and!].
  - unfold cycle. rewrite (M_bind_Ok _ _ _ _ _ Er). change (u16 PUBLISH) with PUBLISH. change (PUBLISH =? PUBLISH) with true. cbv iota.
    rewrite (M_bind_Ok _ _ _ _ _ Ec). by rewrite (M_bind_Ok _ _ _ _ _ Ek).
  - subst s2. by destruct (_ =? QOS0).
  - subst s2. rewrite Eq1, Eid. destruct (Z.eqb_spec q QOS0) as [-> | Hq0]; [cbn; by rewrite app_nil_r|].
    by rewrite (proj2 (Z.ltb_lt 0 q)) by (unfold QOS0 in *; lia).
  - subst s2. by destruct (_ =? QOS0).
  - rewrite Etn. by eapply denotes_lenstring.
  - subst msg. cbn. congruence.
  - intros Hq0. subst msg. cbn. rewrite Eid. by rewrite (proj2 (Z.ltb_lt 0 q)) by lia.
  - done.
  - subst msg. cbn. exists pb, po. by eexists.
Qed.

(** ** Silence *)

(** The clock at [n], nothing left to read. *)
Definition late (n : Z) (s : @C net) : @C net := (s.1, MkNet [] (n_out s.2) n (n_chunk s.2) (n_got s.2)).
Lemma readPacket_silent (s : @C net) t : n_in s.2 = [] ->
  readPacket t s = Ok (with_readbuf (readbuf s.1) (late (u32 (n_time s.2 + timer_left_ms t (n_time s.2))) s), FAILURE).
Proof.
  intros E. unfold readPacket.
  assert (read_into 0 1 t s = Ok (with_readbuf (readbuf s.1) (late (u32 (n_time s.2 + timer_left_ms t (n_time s.2))) s), 0)) as E1.
  { unfold read_into. erewrite M_bind_Ok by reflexivity. cbn [fst snd].
    erewrite M_bind_Ok by (unfold lift; cbn [net_read simulated fst snd]; rewrite E; reflexivity). cbv beta iota.
    erewrite M_bind_Ok by reflexivity. cbn [fst snd].
    assert (write_bytes (readbuf s.1, 0) [] = Ok (readbuf s.1, 0)) as Ew.
    { unfold write_bytes. cbn [fst snd]. pose proof (Zlen_nonneg (readbuf s.1)).
      change (Zlen (@nil Z)) with 0. rewrite !(proj2 (Z.leb_le _ _)) by lia. cbn [andb]. by rewrite overwrite_nil. }
    by rewrite (pure_bind_Ok _ _ _ _ Ew). }
  by rewrite (M_bind_Ok _ _ _ _ _ E1).
Qed.

(** Sending and pinging end, whatever the clock says, and take no time. *)
Lemma sendPacket_total fuel (s : @C net) timer pkt : (2 <= fuel)%nat -> ready s -> 0 < Zlen pkt <= Zlen (c_buf s.1) ->
  exists s' rc, sendPacket fuel (Zlen pkt) timer (with_buf (overwrite (c_buf s.1) 0 pkt) s) = Ok (s', rc) /\ n_time s'.2 = n_time s.2 /\ isconnected s'.1 = isconnected s.1.
Proof.
  intros Hf Hr Hl. destruct (Z.eqb_spec (timer_is_expired timer (n_time s.2)) 0) as [Ht | Ht].
  - exists (transmitted pkt s), SUCCESS. split; [|done]. by apply send_ok.
  - destruct fuel as [|f]; [lia|]. set (s1 := with_buf _ s). unfold sendPacket.
    assert (sendPacket_loop (S f) (Zlen pkt) 0 timer s1 = Ok (s1, 0)) as E.
    { cbn [sendPacket_loop]. rewrite (proj2 (Z.ltb_lt 0 _)) by lia. erewrite M_bind_Ok by reflexivity. cbn [with_buf fst snd].
      unfold ctrue. change (n_time s1.2) with (n_time s.2). rewrite (proj2 (Z.eqb_neq _ _) Ht). by destruct s1. }
    rewrite (M_bind_Ok _ _ _ _ _ E). rewrite (proj2 (Z.eqb_neq 0 _)) by lia. by do 2 eexists.
Qed.
Lemma pingreq_eq buf n : 2 <= n <= Zlen buf -> MQTTSerialize_pingreq buf n = Ok (overwrite buf 0 [192; 0], 2).
Proof.
  intros Hn. unfold MQTTSerialize_pingreq, MQTTSerialize_zero. rewrite (proj2 (Z.ltb_ge _ 2)) by lia.
  assert (header_byte PINGREQ 0 0 0 = 192) as -> by (by vm_compute).
  rewrite write_packet_start; [done|lia|done|]. change (Zlen (remlen_bytes 0)) with 1. lia.
Qed.

Lemma keepalive_total fuel (s : @C net) : (2 <= fuel)%nat -> ready s ->
  exists s' r, keepalive fuel s = Ok (s', r) /\ n_time s'.2 = n_time s.2 /\ isconnected s'.1 = isconnected s.1.
Proof.
  intros Hf Hr. unfold keepalive. erewrite M_bind_Ok by reflexivity. cbn [fst].
  destruct (_ =? 0); [by do 2 eexists|]. erewrite M_bind_Ok by reflexivity. cbn [fst snd]. destruct (negb _); [by do 2 eexists|].
  destruct (ctrue _); [by do 2 eexists|]. erewrite M_bind_Ok by reflexivity. cbn [fst snd].
  pose proof (r_size _ Hr). rewrite (pure_bind_Ok _ _ _ _ (pingreq_eq (c_buf s.1) (buf_size s.1) ltac:(lia))).
  erewrite M_bind_Ok by reflexivity. change (0 <? 2) with true. cbv iota.
  destruct (sendPacket_total fuel s (timer_countdown_ms (n_time s.2) (command_timeout_ms s.1)) [192; 0] Hf Hr ltac:(change (Zlen [192; 0]) with 2; lia))
    as (s' & rc & E & Et & Ec). change (Zlen [192; 0]) with 2 in E. 
  assert (exists s'' r, (rc ← sendPacket fuel 2 (timer_countdown_ms (n_time s.2) (command_timeout_ms s.1));
    if rc =? SUCCESS then _ ← update (set_ping_outstanding 1); mret rc else mret rc) (with_buf (overwrite (c_buf s.1) 0 [192; 0]) s) = Ok (s'', r)
    /\ n_time s''.2 = n_time s.2 /\ isconnected s''.1 = isconnected s.1) as Hx; [|exact Hx].
  rewrite (M_bind_Ok _ _ _ _ _ E). destruct (rc =? SUCCESS); [erewrite M_bind_Ok by reflexivity|]; by do 2 eexists.
Qed.

Lemma live_at_start (s : @C net) w : 0 < w -> is_u32 (n_time s.2 + w) -> live (timer_countdown_ms (n_time s.2) w) s.
Proof.
  intros Hw H32. unfold live, timer_is_expired. cbn. rewrite wrap_small by done. by rewrite (proj2 (Z.leb_gt _ _)) by lia.
Qed.

(** Within its deadline an unanswered wait ends exactly there. *)
Lemma cycle_silent junk fuel (s : @C net) t0 w : (2 <= fuel)%nat -> ready s -> n_in s.2 = [] -> n_time s.2 = t0 -> 0 < w ->
  is_u32 (t0 + w + keepAliveInterval s.1 * 1000) ->
  exists s', cycle junk fuel (timer_countdown_ms t0 w) s = Ok (s', u16 FAILURE) /\ n_time s'.2 = t0 + w /\ isconnected s'.1 = isconnected s.1.
Proof.
  intros Hf Hr E <- Hw H32. unfold cycle. rewrite (M_bind_Ok _ _ _ _ _ (readPacket_silent s _ E)).
  pose proof (r_keep _ Hr). pose proof (proj1 (r_time _ Hr)).
  assert (u32 (n_time s.2 + timer_left_ms (timer_countdown_ms (n_time s.2) w) (n_time s.2)) = n_time s.2 + w) as ->.
  { unfold timer_left_ms. cbn. rewrite Z.sub_diag. change (u32 0) with 0. rewrite (proj2 (Z.leb_gt w 0)) by lia. wrap_lia. }
  set (s1 := with_readbuf _ _).
  change (u16 FAILURE =? PUBLISH) with false. change (u16 FAILURE =? PUBREC) with false. change (u16 FAILURE =? PINGRESP) with false.
  erewrite M_bind_Ok by reflexivity. cbv beta iota.
  destruct (keepalive_total fuel s1 Hf) as (s' & r & Ek & Et & Ec). { destruct Hr. split; cbn; try done. split; [pow2_norm; lia|done]. }
  rewrite (M_bind_Ok _ _ _ _ _ Ek). exists s'. split; [done|]. split; [exact Et|exact Ec].
Qed.
Lemma wait_silent junk fuel (s : @C net) t0 w type : (2 <= fuel)%nat -> ready s -> n_in s.2 = [] -> n_time s.2 = t0 -> 0 < w ->
  is_u32 (t0 + w + keepAliveInterval s.1 * 1000) -> type <> u16 FAILURE ->
  exists s', waitfor junk fuel type (timer_countdown_ms t0 w) s = Ok (s', u16 FAILURE) /\ n_time s'.2 = t0 + w /\ isconnected s'.1 = isconnected s.1.
Proof.
  intros Hf Hr E Et Hw H32 Hty. destruct (cycle_silent junk fuel s t0 w Hf Hr E Et Hw H32) as (s' & Ec & En & Ei).
  pose proof (r_keep _ Hr). pose proof (proj1 (r_time _ Hr)).
  exists s'. split; [|done]. rewrite waitfor_rounds by done. erewrite wait_miss; [|..|exact Ec|done].
  - cbn [wait_loop]. erewrite M_bind_Ok by reflexivity. cbn [fst snd]. rewrite En. unfold timer_is_expired. cbn [timer_countdown_ms start wait].
    rewrite wrap_small by (pow2_norm; lia). rewrite Z.leb_refl. by destruct s'.
  - rewrite <- Et. apply live_at_start; [done|pow2_norm; lia].
Qed.

(** C38: A publish of QoS 1 or 2 that nobody answers fails, and at its
    deadline: the clock stands at the start plus the command timeout, and the
    client still counts as connected. *)
Theorem publish_unanswered (junk : publish_out) (fuel : nat) (s : C) (tp z pl : list Z) (m : MQTTMessage) :
  (2 <= fuel)%nat -> ready s -> is_u32 (n_time s.2 + command_timeout_ms s.1 + keepAliveInterval s.1 * 1000) -> 0 < command_timeout_ms s.1 ->
  isconnected s.1 <> 0 -> 1 <= next_packetid s.1 <= MAX_PACKET_ID -> qos m <> QOS0 ->
  publishable s.1 m tp pl -> n_in s.2 = [] ->
  exists s' m', MQTTPublish junk fuel (tp ++ 0 :: z) m s = Ok (s', (FAILURE, m')) /\ isconnected s'.1 = isconnected s.1 /\
    n_time s'.2 = n_time s.2 + command_timeout_ms s.1.
Proof.
  intros Hf Hr H32 Hw Hc Hn Hq0 Hp E. pose proof (r_keep _ Hr). pose proof (proj1 (r_time _ Hr)).
  pose proof (p_qos _ _ _ _ Hp) as Hq. rewrite publish_starts by done.
  set (t := timer_countdown_ms (n_time s.2) (command_timeout_ms s.1)). set (s1 := advanced m s). set (m1 := identified s.1 m).
  assert (live t s1) as Ht by (change (live t s); apply live_at_start; [lia|pow2_norm; lia]).
  assert (ready s1) as Hr1 by (by apply advanced_ready).
  assert (publishable s1.1 m1 tp pl) as Hp1 by (by apply identified_publishable).
  edestruct (transact_publish fuel s1 t m1 tp z pl) as [E1 Hpkt]; [done..|].
  set (pkt := publish_bytes _ _ _ _ _ _) in *. pose proof (transmitted_ready pkt s1 Hr1 ltac:(lia)) as Hr2.
  assert (keepAliveInterval s1.1 = keepAliveInterval s.1 /\ isconnected s1.1 = isconnected s.1) as [Ek Eic] by (unfold s1, advanced; cbn; by destruct (qos m =? QOS0)).
  assert (exists type, publish_rest junk fuel (tp ++ 0 :: z) m1 t s1 = await_ack junk fuel type t (transmitted pkt s1) /\ type <> u16 FAILURE)
    as (type & Er & Hty).
  { unfold publish_rest. rewrite E1. assert (qos m = 1 \/ qos m = 2) as [Eq | Eq] by (unfold QOS0 in *; lia); change (qos m1) with (qos m); rewrite Eq; by eexists. }
  destruct (wait_silent junk fuel (transmitted pkt s1) (n_time s.2) (command_timeout_ms s.1) type) as (s' & Ew & Et & Ei); try done.
  { change (keepAliveInterval (transmitted pkt s1).1) with (keepAliveInterval s1.1). by rewrite Ek. }
  exists s', m1. split; [|by rewrite Ei]. rewrite (M_bind_Ok _ _ s1 s' FAILURE); [done|]. rewrite Er. unfold await_ack.
  rewrite (M_bind_Ok _ _ _ _ _ Ew). by rewrite (proj2 (Z.eqb_neq _ _) (not_eq_sym Hty)).
Qed.

(** ** A network that takes a packet in pieces *)
Lemma slice_join (b : list Z) o k m : 0 <= o -> 0 <= k -> 0 <= m -> slice b o k ++ slice b (o + k) m = slice b o (k + m).
Proof.
  intros Ho Hk Hm. unfold slice. rewrite !Z2Nat.inj_add, <- drop_drop by lia. apply take_take_drop.
Qed.
Lemma send_pieces len timer k n : 0 < k <= len -> forall i fuel (s : @C net), n_chunk s.2 = k -> live timer s ->
  0 <= i -> i * k < len + k -> len <= (i + Z.of_nat n) * k -> (n = 0%nat \/ (i + Z.of_nat n - 1) * k < len) -> 2 * len <= Zlen (c_buf s.1) ->
  sendPacket_loop (S n + fuel) len (i * k) timer s =
    Ok ((s.1, add_out (slice (c_buf s.1) (i * k) (Z.of_nat n * k)) s.2), (i + Z.of_nat n) * k).
Proof.
  intros Hk. induction n as [|n IH]; intros i fuel s Hc Ht Hi Hik Hlen Hlast Hb.
  - change (S 0 + fuel)%nat with (S fuel). rewrite send_done by lia. unfold slice, add_out. rewrite app_nil_r. destruct s as [c []]. cbn.
    do 2 f_equal. lia.
  - destruct Hlast as [|Hlast]; [lia|]. assert (i * k < len) by nia.
    assert (read_bytes (c_buf s.1) (i * k) len = Ok (slice (c_buf s.1) (i * k) len)) as Er.
    { unfold read_bytes. rewrite !(proj2 (Z.leb_le _ _)) by nia. done. }
    assert (Zlen (slice (c_buf s.1) (i * k) len) = len) as El.
    { unfold slice, Zlen in *. rewrite length_take, length_drop. nia. }
    change (S (S n) + fuel)%nat with (S (S n + fuel)). erewrite send_round; [|done|done|lia|exact Er|exact El].
    rewrite Hc, Z.min_l by lia. replace (i * k + k) with ((i + 1) * k) by lia. rewrite IH; [|try done; nia..|]; [|done].
    do 2 f_equal; [|lia]. f_equal. unfold add_out. cbn. rewrite <- app_assoc. do 2 f_equal.
    assert (take (Z.to_nat k) (slice (c_buf s.1) (i * k) len) = slice (c_buf s.1) (i * k) k) as ->.
    { unfold slice. rewrite take_take. f_equal. lia. }
    replace ((i + 1) * k) with (i * k + k) by lia. rewrite slice_join by nia. f_equal. lia.
Qed.

(** What becomes of a packet that the network takes in pieces of [k]
    bytes: every round offers a packet's length again from where the last
    one ended, so that whole pieces go out until the length is reached or
    passed. The packet is reported as sent exactly when [k] divides its
    length; otherwise bytes that lie behind it in the buffer have been sent
    as well. *)
Theorem partial_write (fuel : nat) (s : C) (t : timer) (len k n : Z) :
  n_chunk s.2 = k -> 0 < k <= len -> n = (len + k - 1) / k -> live t s -> is_u16 (keepAliveInterval s.1) ->
  2 * len <= Zlen (c_buf s.1) ->
  exists s', sendPacket (S (Z.to_nat n) + fuel) len t s = Ok (s', if len mod k =? 0 then SUCCESS else FAILURE) /\
    n_out s'.2 = n_out s.2 ++ slice (c_buf s.1) 0 (n * k) /\ len <= n * k < len + k /\ (n * k = len <-> len mod k = 0).
Proof.
  intros Hc Hk En Ht Hka Hb.
  pose proof (Z.div_mod (len + k - 1) k ltac:(lia)) as Ed. pose proof (Z.mod_pos_bound (len + k - 1) k ltac:(lia)). rewrite <- En in Ed.
  assert (0 < n) by nia. assert (n * k = len <-> len mod k = 0) as Hmod.
  { pose proof (Z.div_mod len k ltac:(lia)). pose proof (Z.mod_pos_bound len k ltac:(lia)). split; intros Hx.
    - rewrite <- Hx. apply Z_mod_mult.
    - rewrite Hx in *. assert (n = len / k) as -> by nia. lia. }
  pose proof (send_pieces len t k (Z.to_nat n) Hk 0 fuel s Hc Ht ltac:(lia) ltac:(lia) ltac:(nia) ltac:(right; nia) Hb) as E.
  rewrite !Z2Nat.id, Z.add_0_l, Z.mul_0_l in E by lia. unfold sendPacket. rewrite (M_bind_Ok _ _ _ _ _ E).
  destruct (Z.eqb_spec (n * k) len) as [El | El].
  - rewrite (proj2 (Z.eqb_eq (len mod k) 0)) by tauto. erewrite M_bind_Ok by reflexivity. erewrite M_bind_Ok by reflexivity. cbn [fst snd].
    erewrite pure_bind_Ok by (unfold timer_countdown_second; rewrite int32_ok by (pow2_norm; lia); reflexivity).
    eexists. split; [done|]. split; [done|]. split; [lia|done].
  - rewrite (proj2 (Z.eqb_neq (len mod k) 0)) by tauto. eexists. split; [done|]. split; [done|]. split; [lia|done].
Qed.

(** Seven bytes through a network that takes three at a time. *)
Lemma partial_write_witness :
  exists s', sendPacket 4 7 (MkTimer 0 1000) (MkClient 1 1000 64 64 (seqZ 1 64) [] 60 0 1 [] None (MkTimer 0 60000), MkNet [] [] 5 3 []) =
    Ok (s', FAILURE) /\ n_out s'.2 = [1; 2; 3; 4; 5; 6; 7; 8; 9].
Proof.
  destruct (partial_write 0 (MkClient 1 1000 64 64 (seqZ 1 64) [] 60 0 1 [] None (MkTimer 0 60000), MkNet [] [] 5 3 []) (MkTimer 0 1000) 7 3 3)
    as (s' & E & Eo & _); [done|lia|done|by vm_compute|by vm_compute|by vm_compute|].
  exists s'. split; [exact E|]. rewrite Eo. by vm_compute.
Defined.

(** ** Concrete sessions *)
Definition ex_client (c : Z) : mqtt_client :=
  MkClient 65535 1000 64 64 (replicate 64 0) (replicate 64 0) 60 0 c [MkHandler (Some [97; 47; 43; 0]) (Some 7)] None (MkTimer 0 60000).
Definition ex_net (l : list Z) : net := MkNet l [] 5 100 [].
Definition ex_message (q : Z) : MQTTMessage := MkMsg q 0 0 0 (Some ([104; 105], 0)) 2.
Lemma ex_ready c l : ready (ex_client c, ex_net l).
Proof. split; [by vm_compute|by vm_compute|by vm_compute|by vm_compute|by vm_compute]. Qed.
Lemma ex_publishable c q : 0 <= q <= 2 -> publishable (ex_client c) (ex_message q) [97] [104; 105].
Proof.
  intros Hq. split; cbn [ex_message qos id payload payloadlen ex_client buf_size].
  - done.
  - by vm_compute.
  - split; [by vm_compute|by repeat constructor].
  - exists [104; 105], 0, []. split; [done|apply suffix_start].
  - done.
  - rewrite Zlen_publish_body. destruct (0 <? q); by vm_compute.
  - rewrite Zlen_publish_body. destruct (0 <? q); by vm_compute.
Qed.

Lemma publish_exchange_witness (junk := MkPub 0 0 0 0 MQTTString_initializer None 0) :
  exists s' m', MQTTPublish junk 2 [97; 0] (ex_message 2) (ex_client 1, ex_net [80; 2; 0; 1; 112; 2; 0; 1]) = Ok (s', (SUCCESS, m')) /\
    n_out s'.2 = [52; 7; 0; 1; 97; 0; 1; 104; 105; 98; 2; 0; 1].
Proof.
  destruct (publish_exchange junk 2 (ex_client 1, ex_net [80; 2; 0; 1; 112; 2; 0; 1]) [97] [] [104; 105] [] (ex_message 2) 1 1)
    as (s' & m' & E & _ & _ & _ & _ & _ & Eo); [done|apply ex_ready|by vm_compute|done|by vm_compute|by apply ex_publishable|by vm_compute|by vm_compute|by vm_compute|].
  exists s', m'. split; [exact E|]. rewrite Eo. by vm_compute.
Defined.

Lemma publish_unanswered_witness (junk := MkPub 0 0 0 0 MQTTString_initializer None 0) :
  exists s' m', MQTTPublish junk 2 [97; 0] (ex_message 1) (ex_client 1, ex_net []) = Ok (s', (FAILURE, m')) /\ n_time s'.2 = 1005.
Proof.
  destruct (publish_unanswered junk 2 (ex_client 1, ex_net []) [97] [] [104; 105] (ex_message 1))
    as (s' & m' & E & _ & Et); [done|apply ex_ready|by vm_compute|done|done|by vm_compute|done|by apply ex_publishable|done|].
  exists s', m'. split; [exact E|]. rewrite Et. by vm_compute.
Defined.

Definition ex_options : connectData :=
  MkConnect 4 (MkStr (Some ([97] ++ 0 :: [])) 0 None) 60 1 0
    (MkWill MQTTString_initializer MQTTString_initializer 0 0) MQTTString_initializer MQTTString_initializer.
Lemma ex_represents : represents ex_options (MkSpec [97] 60 1 None None None).
Proof. split; [|done]. apply denotes_cstring; [by vm_compute|done|]. repeat constructor; done. Qed.
Lemma connect_exchange_witness (junk := MkPub 0 0 0 0 MQTTString_initializer None 0) :
  exists s', MQTTConnect junk 2 (Some ex_options) (ex_client 0, ex_net [32; 2; 0; 5]) = Ok (s', 5) /\ isconnected s'.1 = 0 /\
    n_out s'.2 = [16; 13; 0; 4; 77; 81; 84; 84; 4; 2; 0; 60; 0; 1; 97].
Proof.
  destruct (connect_exchange junk 2 (ex_client 0, ex_net [32; 2; 0; 5]) ex_options (MkSpec [97] 60 1 None None None) 0 5 [])
    as (s' & E & Ec & _ & Eo); [done|done|apply ex_represents|by vm_compute|by right|split; by vm_compute|by vm_compute|by vm_compute|by vm_compute|done|].
  exists s'. split; [exact E|]. split; [rewrite Ec; done|]. rewrite Eo. by vm_compute.
Defined.

(** A client subscribed to "a/+" receives "hi" on "a/b". *)
Lemma incoming_publish_witness (junk := MkPub 0 0 0 0 MQTTString_initializer None 0) :
  exists s' t m, cycle junk 7 (MkTimer 0 1000) (ex_client 1, ex_net (publish_bytes 0 1 0 9 [97; 47; 98] [104; 105])) = Ok (s', PUBLISH) /\
    n_out s'.2 = [64; 2; 0; 9] /\ n_got s'.2 = [(7, t, m)] /\ denotes t [97; 47; 98] /\ id m = 9.
Proof.
  destruct (incoming_publish junk 7 4 (ex_client 1, ex_net (publish_bytes 0 1 0 9 [97; 47; 98] [104; 105])) (MkTimer 0 1000)
    0 1 0 9 [97; 47; 98] [104; 105] []) as (s' & t & m & E & _ & Eo & Eg & Ht & _ & Ei & _);
    [lia|cbn; lia|apply ex_ready|by right; vm_compute|by vm_compute| |lia|lia|lia|by vm_compute|by vm_compute|by vm_compute|by vm_compute|by vm_compute|].
  { apply Forall_singleton. split; [by apply (bool_decide_unpack _)|]. split; [done|cbn; lia]. }
  exists s', t, m. split; [exact E|]. split; [rewrite Eo; by vm_compute|]. split; [rewrite Eg; by vm_compute|]. split; [exact Ht|by apply Ei].
Defined.
