(* ===== verification/Shell.v ===== *)
(** The command shell of src/src/shell/shell.c: a line is read into a buffer
    of 50 bytes, split in place into arguments, and handed to the command
    that has the first one as its name. The theorems compare the splitting
    with a tokenizer on lists and show that no line overruns the buffer. *)
From Stdlib Require Import String.
From S2P Require Import Prelude Bus.

Definition SHELL_MAXSIZE := 50.
Definition SHELL_ALT_SPACE := 7.
Definition SHELL_MAX_ARGS := 10.

(** ** Strings in a buffer *)
Definition strlen_at (b : list Z) (p : Z) : res Z :=
  if (0 <=? p) && (p <=? Zlen b) then strlen (drop (Z.to_nat p) b) else Err OutOfBounds.
Fixpoint chr_loop (l : list Z) (p c : Z) : res (option Z) :=
  match l with
  | [] => Err OutOfBounds
  | x :: l => if x =? c then Ok (Some p) else if x =? 0 then Ok None else chr_loop l (p + 1) c
  end.
Definition strchr (b : list Z) (p c : Z) : res (option Z) :=
  if (0 <=? p) && (p <=? Zlen b) then chr_loop (drop (Z.to_nat p) b) p c else Err OutOfBounds.
(** [strcat] of one character. *)
Definition strcat1 (b : list Z) (p c : Z) : res (list Z) :=
  n ← strlen_at b p;
  b ← bset b (p + n) c;
  bset b (p + n + 1) 0.
Definition memmove (b : list Z) (dst src n : Z) : res (list Z) :=
  l ← read_bytes b src n;
  if (0 <=? dst) && (dst + n <=? Zlen b) then Ok (overwrite b dst l) else Err OutOfBounds.
(** The characters of the string at [p]. *)
Fixpoint until_zero (l : list Z) : res (list Z) :=
  match l with [] => Err OutOfBounds | c :: l => if c =? 0 then Ok [] else s ← until_zero l; Ok (c :: s) end.
Definition cstring_at (b : list Z) (p : Z) : res (list Z) :=
  if (0 <=? p) && (p <=? Zlen b) then until_zero (drop (Z.to_nat p) b) else Err OutOfBounds.

(** ** Commands

    What the shell is given: output, input, and the commands' handlers,
    which get their arguments and may do anything but return. *)
Inductive printed := Str (s : list Z) | Int (n : Z).
Class Console (W : Type) := {
  printf : string -> list printed -> M W unit;
  getchar : M W Z
}.
Record shell_command {W : Type} := MkCommand {
  cmd : list Z;
  summary : list Z;
  help : list Z;
  handler : list (list Z) -> M W Z
}.
Arguments shell_command : clear implicits.
Arguments MkCommand {W} _ _ _ _.

Section shell.
  Context {W : Type} `{Console W} (shell_help_help : list Z) (shell_commands : list (shell_command W)).

Fixpoint shell_list_summary_help (cmds : list (shell_command W)) : M W unit :=
  match cmds with
  | [] => printf "help <command> for more information of the command." []
  | pcmd :: cmds =>
    _ ← (if 0 <? Zlen (summary pcmd) then printf "  %-6s - %s" [Str (cmd pcmd); Str (summary pcmd)] else mret tt);
    shell_list_summary_help cmds
  end.
Fixpoint shell_detail_help (cmds : list (shell_command W)) (c : list Z) : M W (option (shell_command W)) :=
  match cmds with
  | [] => mret None
  | pcmd :: cmds =>
    if bool_decide (cmd pcmd = c) && (0 <? Zlen (summary pcmd)) then
      _ ← printf "%s - %s Usage: %s %s" [Str (cmd pcmd); Str (summary pcmd); Str (cmd pcmd); Str (help pcmd)];
      mret (Some pcmd)
    else shell_detail_help cmds c
  end.
Definition shell_func_help (argv : list (list Z)) : M W Z :=
  let argc := Zlen argv in
  a0 ← pure (bget argv 0);
  if 2 <? argc then _ ← printf "Usage: %s %s" [Str a0; Str shell_help_help]; mret (-1) else
  if argc =? 1 then
    _ ← printf "Shell commands:" []; _ ← shell_list_summary_help shell_commands; mret 0
  else
  a1 ← pure (bget argv 1);
  found ← shell_detail_help shell_commands a1;
  match found with
  | Some _ => mret 0
  | None =>
    _ ← printf "Unknown command '%s'." [Str a1];
    _ ← printf "For more information use 'help <command>'." [];
    mret (-2)
  end.

Fixpoint shell_execute_command_in_commands (cmds : list (shell_command W)) (argv : list (list Z)) : M W Z :=
  match cmds with
  | [] => a0 ← pure (bget argv 0); _ ← printf "Command %s cannot be found." [Str a0]; mret (-128)
  | pcmd :: cmds =>
    a0 ← pure (bget argv 0);
    if bool_decide (cmd pcmd = a0) then r ← handler pcmd argv; mret (s8 r)
    else shell_execute_command_in_commands cmds argv
  end.

(** ** Splitting a line *)
Fixpoint blank_loop (fuel : nat) (b : list Z) (p : Z) : res (list Z) :=
  match fuel with
  | O => Err NoFuel
  | S fuel =>
    c ← bget b p;
    if c =? 0 then Ok b else
    b ← (if (c =? 13) || (c =? 10) || (c =? 9) then bset b p 32 else Ok b);
    blank_loop fuel b (p + 1)
  end.
(** The buffer and [inside_quotes]. *)
Fixpoint quote_loop (fuel : nat) (b : list Z) (i : Z) (inside_quotes : bool) (quote_char : Z) : res (list Z * bool) :=
  match fuel with
  | O => Err NoFuel
  | S fuel =>
    n ← strlen_at b 0;
    if i <? n then
      c ← bget b i;
      if (c =? 39) || (c =? 34) then
        if negb inside_quotes then quote_loop fuel b (i + 1) true c
        else if c =? quote_char then quote_loop fuel b (i + 1) false 0
        else quote_loop fuel b (i + 1) inside_quotes quote_char
      else if (c =? 32) && inside_quotes then
        b ← bset b i SHELL_ALT_SPACE; quote_loop fuel b (i + 1) inside_quotes quote_char
      else quote_loop fuel b (i + 1) inside_quotes quote_char
    else Ok (b, inside_quotes)
  end.
Fixpoint squeeze_loop (fuel : nat) (b : list Z) (temp : Z) : res (list Z) :=
  match fuel with
  | O => Err NoFuel
  | S fuel =>
    c ← bget b temp;
    if c =? 32 then
      n ← strlen_at b temp;
      b ← memmove b temp (temp + 1) n;
      squeeze_loop fuel b temp
    else Ok b
  end.
Fixpoint collapse_loop (fuel : nat) (b : list Z) (p : option Z) : res (list Z) :=
  match fuel with
  | O => Err NoFuel
  | S fuel =>
    match p with
    | None => Ok b
    | Some p =>
      b ← squeeze_loop (S (Z.to_nat (Zlen b))) b (p + 1);
      q ← strchr b (p + 1) 32;
      collapse_loop fuel b q
    end
  end.
(** The buffer and the addresses in [argv]; [None] for too many. *)
Fixpoint split_loop (fuel : nat) (b : list Z) (p : Z) (argv : list Z) : res (list Z * option (list Z)) :=
  match fuel with
  | O => Err NoFuel
  | S fuel =>
    temp ← strchr b p 32;
    match temp with
    | None => Ok (b, Some argv)
    | Some temp =>
      b ← bset b temp 0;
      if Zlen argv =? SHELL_MAX_ARGS then Ok (b, None)
      else split_loop fuel b (temp + 1) (argv ++ [p])
    end
  end.
Fixpoint restore_loop (fuel : nat) (b : list Z) (p k : Z) : res (list Z) :=
  match fuel with
  | O => Err NoFuel
  | S fuel =>
    n ← strlen_at b p;
    if k <? n then
      c ← bget b (p + k);
      b ← (if c =? SHELL_ALT_SPACE then bset b (p + k) 32 else Ok b);
      restore_loop fuel b p (k + 1)
    else Ok b
  end.
Definition strip_quotes (b : list Z) (p : Z) : res (list Z * Z) :=
  c ← bget b p;
  if (c =? 39) || (c =? 34) then
    n ← strlen_at b p;
    d ← bget b (p + n - 1);
    if c =? d then n ← strlen_at b p; b ← bset b (p + n - 1) 0; Ok (b, p + 1) else Ok (b, p)
  else Ok (b, p).
Fixpoint args_loop (b : list Z) (argv : list Z) : res (list Z * list Z) :=
  match argv with
  | [] => Ok (b, [])
  | p :: argv =>
    b ← restore_loop (S (Z.to_nat (Zlen b))) b p 0;
    '(b, q) ← strip_quotes b p;
    '(b, argv) ← args_loop b argv;
    Ok (b, q :: argv)
  end.
Fixpoint strings_at (b : list Z) (argv : list Z) : res (list (list Z)) :=
  match argv with [] => Ok [] | p :: argv => s ← cstring_at b p; l ← strings_at b argv; Ok (s :: l) end.

(** What becomes of a line: an early return, or the arguments. *)
Inductive line := Return (rc : Z) | Run (argv : list (list Z)).
(** From the second [strcmp] on: the spaces are collapsed. *)
Definition parse_collapsed (b : list Z) (rc : Z) : res line :=
  s ← cstring_at b 0;
  if bool_decide (s = [32]) then Ok (Return (s8 rc)) else
  c ← bget b 0;
  let p := if c =? 32 then 1 else 0 in
  n ← strlen_at b p;
  c ← bget b (p + n - 1);
  b ← (if negb (c =? 32) then strcat1 b p 32 else Ok b);
  '(b, argv) ← split_loop (S (Z.to_nat (Zlen b))) b p [];
  match argv with
  | None => Ok (Return (-124))
  | Some argv => '(b, argv) ← args_loop b argv; l ← strings_at b argv; Ok (Run l)
  end.
Definition parse_line (b : list Z) (rc : Z) : res line :=
  n ← strlen_at b 0;
  if n =? 0 then Ok (Return (s8 rc)) else
  c ← bget b (n - 1);
  b ← (if negb (c =? 10) then strcat1 b 0 10 else Ok b);
  b ← blank_loop (S (Z.to_nat (Zlen b))) b 0;
  '(b, inside_quotes) ← quote_loop (S (Z.to_nat (Zlen b))) b 0 false 0;
  if (inside_quotes : bool) then Ok (Return (-126)) else
  p ← strchr b 0 32;
  b ← collapse_loop (S (Z.to_nat (Zlen b))) b p;
  parse_collapsed b rc.
Definition shell_execute_command (b : list Z) (rc : Z) : M W Z :=
  l ← pure (parse_line b rc);
  match l with
  | Return rc => mret rc
  | Run argv => shell_execute_command_in_commands shell_commands argv
  end.

(** ** Reading a line

    [p] is where [buf] points to. *)
Fixpoint getline_loop (fuel : nat) (b : list Z) (p i buf_size : Z) : M W (list Z) :=
  match fuel with
  | O => pure (Err NoFuel)
  | S fuel =>
    if i <? buf_size - 1 then
      c ← getchar;
      if (c =? 8) || (c =? 127) then
        if 0 <? i then getline_loop fuel b (p - 1) (i - 1) buf_size else getline_loop fuel b p i buf_size
      else
      b ← pure (if (c =? 13) || (c =? 10) then bset b p 0 else Ok b);
      if ((c =? 13) || (c =? 10)) && (0 <? i) then mret b else
      b ← pure (bset b p (u8 c));
      getline_loop fuel b (p + 1) (i + 1) buf_size
    else pure (bset b p 0)
  end.
Definition getline (fuel : nat) (b : list Z) (buf_size : Z) : M W (list Z) := getline_loop fuel b 0 0 buf_size.

(** The body of the endless loop of [shell_loop]: its buffer and [rc]. What a
    command leaves in the buffer is overwritten by the next line. *)
Definition shell_round (fuel : nat) (shell_prompt : list Z) (b : list Z) (rc : Z) : M W (list Z * Z) :=
  _ ← printf "[%d]%s# " [Int rc; Str shell_prompt];
  b ← getline fuel b (SHELL_MAXSIZE - 1);
  rc ← shell_execute_command b rc;
  mret (b, rc).
End shell.

(** ** What a line says

    [scan q w l] reads [l] with the quote [q] open and the word [w] begun:
    blanks outside quotes end a word, blanks inside are spaces of it.
    [strip] takes the quotes off a word that begins and ends with the same. *)
Definition is_blank (c : Z) : bool := (c =? 32) || (c =? 13) || (c =? 10) || (c =? 9).
Definition is_quote (c : Z) : bool := (c =? 39) || (c =? 34).
Definition ends (w : list Z) (ws : list (list Z)) : list (list Z) := match w with [] => ws | _ => w :: ws end.
Definition restore1 (c : Z) : Z := if c =? 7 then 32 else c.
Fixpoint scan (q : option Z) (w l : list Z) : option (list (list Z)) :=
  match l with
  | [] => match q with Some _ => None | None => Some (ends w []) end
  | c :: l =>
    if is_quote c then
      scan (match q with None => Some c | Some d => if c =? d then None else q end) (w ++ [c]) l
    else if is_blank c then
      match q with Some _ => scan q (w ++ [32]) l | None => ends w <$> scan None [] l end
    else scan q (w ++ [restore1 c]) l
  end.
Definition strip (w : list Z) : list Z :=
  match w with
  | c :: l => if is_quote c && bool_decide (last w = Some c) then removelast l else w
  | [] => w
  end.

Notation nonzero := (Forall (fun c => c <> 0)).

Section strings.
  Implicit Types (l z w : list Z).

Lemma drop_Zlen {A} (l r : list A) : drop (Z.to_nat (Zlen l)) (l ++ r) = r.
Proof. by rewrite Zlen_to_nat, drop_app_length. Qed.
Lemma Zlen_in_range {A} (l r : list A) : (0 <=? Zlen l) && (Zlen l <=? Zlen (l ++ r)) = true.
Proof. pose proof (Zlen_nonneg l). pose proof (Zlen_nonneg r). rewrite Zlen_app, !(proj2 (Z.leb_le _ _)) by lia. done. Qed.
Lemma strlen_at_eq l1 l z : nonzero l -> strlen_at (l1 ++ l ++ 0 :: z) (Zlen l1) = Ok (Zlen l).
Proof. intros Hl. unfold strlen_at. rewrite Zlen_in_range, drop_Zlen. by apply strlen_eq. Qed.
Lemma strlen_at_0 l z : nonzero l -> strlen_at (l ++ 0 :: z) 0 = Ok (Zlen l).
Proof. apply (strlen_at_eq [] l z). Qed.
Lemma until_zero_eq l z : nonzero l -> until_zero (l ++ 0 :: z) = Ok l.
Proof. induction 1 as [|c l Hc Hl IH]; [done|]. cbn. by rewrite (proj2 (Z.eqb_neq c 0)), IH. Qed.
Lemma cstring_at_eq l1 l z : nonzero l -> cstring_at (l1 ++ l ++ 0 :: z) (Zlen l1) = Ok l.
Proof. intros Hl. unfold cstring_at. rewrite Zlen_in_range, drop_Zlen. by apply until_zero_eq. Qed.
Lemma chr_loop_hit l c r p : nonzero l -> c ∉ l -> chr_loop (l ++ c :: r) p c = Ok (Some (p + Zlen l)).
Proof.
  intros Hl Hc. revert p. induction Hl as [|x l Hx Hl IH]; intros p; cbn.
  - rewrite Z.eqb_refl. do 2 f_equal. rewrite Zlen_nil. lia.
  - apply not_elem_of_cons in Hc as [Hxc Hc]. rewrite (proj2 (Z.eqb_neq x c)), (proj2 (Z.eqb_neq x 0)), IH by done.
    do 2 f_equal. rewrite Zlen_cons. lia.
Qed.
Lemma chr_loop_miss l c z p : nonzero l -> c ∉ l -> c <> 0 -> chr_loop (l ++ 0 :: z) p c = Ok None.
Proof.
  intros Hl Hc H0. revert p. induction Hl as [|x l Hx Hl IH]; intros p; cbn [app chr_loop]; [by rewrite (proj2 (Z.eqb_neq 0 c))|].
  apply not_elem_of_cons in Hc as [Hxc Hc]. by rewrite (proj2 (Z.eqb_neq x c)), (proj2 (Z.eqb_neq x 0)), IH by done.
Qed.
Lemma strchr_hit l1 l c r : nonzero l -> c ∉ l -> strchr (l1 ++ l ++ c :: r) (Zlen l1) c = Ok (Some (Zlen l1 + Zlen l)).
Proof. intros Hl Hc. unfold strchr. rewrite Zlen_in_range, drop_Zlen. by apply chr_loop_hit. Qed.
Lemma strchr_miss l1 l c z : nonzero l -> c ∉ l -> c <> 0 -> strchr (l1 ++ l ++ 0 :: z) (Zlen l1) c = Ok None.
Proof. intros Hl Hc H0. unfold strchr. rewrite Zlen_in_range, drop_Zlen. by apply chr_loop_miss. Qed.
Lemma strcat1_eq l1 l c y z : nonzero l -> strcat1 (l1 ++ l ++ 0 :: y :: z) (Zlen l1) c = Ok (l1 ++ (l ++ [c]) ++ 0 :: z).
Proof.
  intros Hl. unfold strcat1. rewrite strlen_at_eq by done. cbn [mbind res_bind].
  rewrite (app_assoc l1 l), <- Zlen_app, bset_middle. cbn [mbind res_bind].
  pose proof (bset_middle ((l1 ++ l) ++ [c]) y 0 z) as E. rewrite <- app_assoc in E. rewrite (Zlen_app (l1 ++ l)) in E.
  change (Zlen [c]) with 1 in E. cbn [app] in E. rewrite E. f_equal. by rewrite <- !app_assoc.
Qed.

(** ** The passes on lists *)
Definition deblank (c : Z) : Z := if (c =? 13) || (c =? 10) || (c =? 9) then 32 else c.
Fixpoint mark (q : option Z) (l : list Z) : list Z * bool :=
  match l with
  | [] => ([], bool_decide (is_Some q))
  | c :: l =>
    if is_quote c then
      let r := mark (match q with None => Some c | Some d => if c =? d then None else q end) l in (c :: r.1, r.2)
    else let r := mark q l in ((if (c =? 32) && bool_decide (is_Some q) then 7 else c) :: r.1, r.2)
  end.
Fixpoint squash (prev : bool) (l : list Z) : list Z :=
  match l with
  | [] => []
  | c :: l => if (c =? 32) && prev then squash true l else c :: squash (c =? 32) l
  end.
Fixpoint words (w l : list Z) : list (list Z) :=
  match l with
  | [] => ends w []
  | c :: l => if c =? 32 then ends w (words [] l) else words (w ++ [c]) l
  end.
(** Words with a character behind each. *)
Definition joined (c : Z) (ws : list (list Z)) : list Z := concat ((fun w => w ++ [c]) <$> ws).

Lemma blank_loop_eq l z : forall l1 fuel, nonzero l -> (length l < fuel)%nat ->
  blank_loop fuel (l1 ++ l ++ 0 :: z) (Zlen l1) = Ok (l1 ++ map deblank l ++ 0 :: z).
Proof.
  induction l as [|c l IH]; intros l1 [|fuel] Hz Hf; cbn [length] in Hf; try lia; cbn [blank_loop map app].
  - by rewrite bget_middle.
  - apply Forall_cons in Hz as [Hc Hz]. rewrite bget_middle. cbn [mbind res_bind]. rewrite (proj2 (Z.eqb_neq c 0)) by done.
    assert ((if (c =? 13) || (c =? 10) || (c =? 9) then bset (l1 ++ c :: l ++ 0 :: z) (Zlen l1) 32 else Ok (l1 ++ c :: l ++ 0 :: z)) =
      Ok (l1 ++ deblank c :: l ++ 0 :: z)) as -> by (unfold deblank; destruct (_ || _); [by rewrite bset_middle|done]).
    cbn [mbind res_bind]. specialize (IH (l1 ++ [deblank c]) fuel Hz ltac:(lia)). rewrite Zlen_app in IH. rewrite <- !app_assoc in IH. exact IH.
Qed.

Lemma quote_loop_eq l z : forall l1 q fuel, nonzero l1 -> nonzero l -> (length l < fuel)%nat ->
  quote_loop fuel (l1 ++ l ++ 0 :: z) (Zlen l1) (bool_decide (is_Some q)) (default 0 q) = Ok (l1 ++ (mark q l).1 ++ 0 :: z, (mark q l).2).
Proof.
  induction l as [|c l IH]; intros l1 q [|fuel] Hz1 Hz Hf; cbn [length] in Hf; try lia; cbn [quote_loop].
  - cbn [app]. rewrite strlen_at_0 by done. cbn [mbind res_bind]. by rewrite (proj2 (Z.ltb_ge _ _)) by lia.
  - pose proof Hz as Hz'. apply Forall_cons in Hz as [Hc Hz]. pose proof (strlen_at_0 (l1 ++ c :: l) z ltac:(by apply Forall_app)) as E.
    rewrite <- app_assoc in E. cbn [app] in *. rewrite E. cbn [mbind res_bind].
    rewrite (proj2 (Z.ltb_lt _ _)) by (zlen; pose proof (Zlen_nonneg l); lia). rewrite bget_middle. cbn [mbind res_bind mark].
    assert (forall d q', d <> 0 -> quote_loop fuel (l1 ++ d :: l ++ 0 :: z) (Zlen l1 + 1) (bool_decide (is_Some q')) (default 0 q') =
      Ok (l1 ++ d :: (mark q' l).1 ++ 0 :: z, (mark q' l).2)) as Hgo.
    { intros d q' Hd. specialize (IH (l1 ++ [d]) q' fuel ltac:(apply Forall_app; by repeat constructor) Hz ltac:(lia)).
      rewrite Zlen_app in IH. rewrite <- !app_assoc in IH. exact IH. }
    unfold is_quote. destruct ((c =? 39) || (c =? 34)).
    + destruct q as [d|]; [|by apply (Hgo c (Some c))]. cbn [negb]. rewrite bool_decide_eq_true_2 by (by eexists). cbn [negb default from_option Datatypes.id].
      destruct (Z.eqb_spec c d) as [-> | Hcd]; [by apply (Hgo d None)|by apply (Hgo c (Some d))].
    + destruct (_ && _); [|by apply Hgo]. rewrite bset_middle. cbn [mbind res_bind]. by apply Hgo.
Qed.

Lemma nonzero_deblank l : nonzero l -> nonzero (map deblank l).
Proof. intros Hl. apply Forall_map. eapply Forall_impl; [exact Hl|]. intros c Hc. cbn. unfold deblank. by destruct (_ || _). Qed.
Lemma nonzero_mark l : forall q, nonzero l -> nonzero (mark q l).1.
Proof.
  induction l as [|c l IH]; intros q Hl; [done|]. apply Forall_cons in Hl as [Hc Hl]. cbn. destruct (is_quote c); cbn; apply Forall_cons; auto.
  split; [|auto]. by destruct (_ && _).
Qed.
Lemma length_mark l : forall q, length (mark q l).1 = length l.
Proof. induction l as [|c l IH]; intros q; [done|]. cbn. destruct (is_quote c); cbn; by rewrite IH. Qed.

(** *** Collapsing spaces *)
Lemma squeeze_loop_eq l z : forall l1 fuel, nonzero l -> (length l < fuel)%nat ->
  exists l2 z', squeeze_loop fuel (l1 ++ l ++ 0 :: z) (Zlen l1) = Ok (l1 ++ l2 ++ 0 :: z') /\ squash true l = squash false l2 /\
    (length l2 <= length l)%nat /\ nonzero l2 /\ length (l2 ++ 0 :: z') = length (l ++ 0 :: z).
Proof.
  revert z. induction l as [|c l IH]; intros z l1 [|fuel] Hz Hf; cbn [length] in Hf; try lia; cbn [squeeze_loop].
  - cbn [app]. rewrite bget_middle. cbn [mbind res_bind Z.eqb]. by exists [], z.
  - cbn [app]. rewrite bget_middle. cbn [mbind res_bind]. pose proof Hz as Hz'. apply Forall_cons in Hz as [Hc Hz].
    destruct (Z.eqb_spec c 32) as [-> | Hs].
    + pose proof (strlen_at_eq l1 (32 :: l) z Hz') as En. cbn [app] in En. rewrite En. cbn [mbind res_bind]. unfold memmove.
      assert (suffix (l1 ++ 32 :: l ++ 0 :: z) (Zlen l1 + 1) ((l ++ [0]) ++ z)) as Hs.
      { rewrite <- app_assoc. cbn [app]. by apply (suffix_app _ (Zlen l1) [32] (l ++ 0 :: z)); [apply suffix_middle|]. }
      rewrite (suffix_read_bytes _ _ _ _ _ Hs) by (rewrite Zlen_cons, Zlen_app; change (Zlen [0]) with 1; lia). cbn [mbind res_bind].
      pose proof (Zlen_nonneg l1). pose proof (Zlen_nonneg z). rewrite !(proj2 (Z.leb_le _ _)) by (zlen; lia). cbn [andb].
      assert (overwrite (l1 ++ 32 :: l ++ 0 :: z) (Zlen l1) (l ++ [0]) = l1 ++ l ++ 0 :: 0 :: z) as ->.
      { unfold overwrite. rewrite Zlen_to_nat, take_app_length. rewrite <- app_assoc. do 2 f_equal. cbn [app]. f_equal.
        rewrite length_app. cbn [length]. replace (length l1 + (length l + 1))%nat with (length (l1 ++ 32 :: l)) by (rewrite length_app; cbn; lia).
        replace (l1 ++ 32 :: l ++ 0 :: z) with ((l1 ++ 32 :: l) ++ 0 :: z) by (by rewrite <- app_assoc). by rewrite drop_app_length. }
      cbn [mbind res_bind]. destruct (IH (0 :: z) l1 fuel Hz ltac:(lia)) as (l2 & z' & E & Hq & Hl2 & Hz2 & Hlen).
      exists l2, z'. split; [exact E|]. split; [done|]. split; [cbn; lia|]. split; [done|]. rewrite Hlen. cbn. rewrite !length_app. cbn. lia.
    + exists (c :: l), z. split; [done|]. split; [|done]. cbn. by rewrite (proj2 (Z.eqb_neq c 32)).
Qed.

Lemma first_space l : 32 ∉ l \/ exists a b, l = a ++ 32 :: b /\ 32 ∉ a.
Proof.
  induction l as [|c l IH]; [left; by intros ?%not_elem_of_nil|]. destruct (decide (c = 32)) as [-> | Hc].
  - right. exists [], l. split; [done|]. by intros ?%not_elem_of_nil.
  - destruct IH as [IH | (a & b & -> & Ha)].
    + left. by rewrite not_elem_of_cons.
    + right. exists (c :: a), b. split; [done|]. by rewrite not_elem_of_cons.
Qed.
Lemma squash_no_space a l : 32 ∉ a -> a <> [] -> forall p, squash p (a ++ l) = a ++ squash false l.
Proof.
  induction a as [|c a IH]; intros Ha Hne p; [done|]. apply not_elem_of_cons in Ha as [Hc Ha]. cbn.
  rewrite (proj2 (Z.eqb_neq c 32)) by done. cbn. f_equal. destruct a as [|d a]; [done|]. by apply IH.
Qed.
Lemma squash_false_app a l : 32 ∉ a -> squash false (a ++ l) = a ++ squash false l.
Proof. intros Ha. destruct a as [|c a]; [done|]. by apply squash_no_space. Qed.

Lemma collapse_loop_eq n : forall l l1 z fuel, (length l <= n)%nat -> (length l + 1 < fuel)%nat -> nonzero l ->
  exists z', collapse_loop fuel (l1 ++ 32 :: l ++ 0 :: z) (Some (Zlen l1)) = Ok (l1 ++ 32 :: squash true l ++ 0 :: z').
Proof.
  induction n as [n IH] using lt_wf_ind. intros l l1 z [|fuel] Hn Hf Hz; [lia|]. cbn [collapse_loop].
  set (b := l1 ++ 32 :: l ++ 0 :: z).
  destruct (squeeze_loop_eq l z (l1 ++ [32]) (S (Z.to_nat (Zlen b))) Hz) as (l2 & z2 & E & -> & Hl2 & Hz2 & Hlen).
  { subst b. rewrite Zlen_to_nat, !length_app. cbn. rewrite length_app. lia. }
  rewrite Zlen_app in E. rewrite <- !app_assoc in E. change (Zlen [32]) with 1 in E. cbn [app] in E. fold b in E. rewrite E. cbn [mbind res_bind].
  destruct (first_space l2) as [Hns | (a & b' & -> & Ha)].
  - pose proof (strchr_miss (l1 ++ [32]) l2 32 z2 Hz2 Hns ltac:(done)) as Es. rewrite Zlen_app in Es. rewrite <- !app_assoc in Es.
    change (Zlen [32]) with 1 in Es. cbn [app] in Es. rewrite Es. cbn [mbind res_bind]. exists z2.
    pose proof (squash_false_app l2 [] Hns) as Eq. rewrite !app_nil_r in Eq. rewrite Eq. destruct fuel; [lia|done].
  - pose proof (strchr_hit (l1 ++ [32]) a 32 (b' ++ 0 :: z2) ltac:(by apply Forall_app in Hz2 as [? _]) Ha) as Es.
    rewrite Zlen_app in Es. rewrite <- !app_assoc in Es. change (Zlen [32]) with 1 in Es. cbn [app] in Es. rewrite <- app_assoc. cbn [app]. rewrite Es. cbn [mbind res_bind].
    rewrite length_app in Hl2. cbn [length] in Hl2. apply Forall_app in Hz2 as [_ Hz2]. apply Forall_cons in Hz2 as [_ Hz2].
    destruct (IH (length b') ltac:(lia) b' (l1 ++ 32 :: a) z2 fuel ltac:(lia) ltac:(lia) Hz2) as (z' & E').
    exists z'. rewrite <- !app_assoc in E'. cbn [app] in E'. rewrite Zlen_app, Zlen_cons in E'. rewrite <- Z.add_assoc. rewrite E'.
    rewrite squash_false_app by done. cbn [squash andb Z.eqb Pos.eqb]. by rewrite <- app_assoc.
Qed.

Lemma words_nonempty l : forall w, Forall (fun x => x <> []) (words w l).
Proof.
  assert (forall w ws, Forall (fun x : list Z => x <> []) ws -> Forall (fun x => x <> []) (ends w ws)) as He by (intros [|c w] ws Hws; [done|by constructor]).
  induction l as [|c l IH]; intros w; cbn; [by apply He|]. destruct (c =? 32); [by apply He|by apply IH].
Qed.
Lemma words_no_space l : forall w, 32 ∉ w -> Forall (fun x => 32 ∉ x) (words w l).
Proof.
  assert (forall w ws, 32 ∉ w -> Forall (fun x : list Z => 32 ∉ x) ws -> Forall (fun x => 32 ∉ x) (ends w ws)) as He by (intros [|c w] ws Hw Hws; [done|by constructor]).
  assert (32 ∉ @nil Z) as H0 by (by intros ?%not_elem_of_nil).
  induction l as [|c l IH]; intros w Hw; cbn; [by apply He|]. destruct (Z.eqb_spec c 32); [by apply He; [|apply IH]|].
  apply IH. rewrite not_elem_of_app. split; [done|]. rewrite not_elem_of_cons. by split; [congruence|].
Qed.
Lemma nonzero_words l : forall w, nonzero w -> nonzero l -> Forall nonzero (words w l).
Proof.
  assert (forall w ws, nonzero w -> Forall nonzero ws -> Forall nonzero (ends w ws)) as He by (intros [|c w] ws Hw Hws; [done|by constructor]).
  induction l as [|c l IH]; intros w Hw Hl; cbn; [by apply He|]. apply Forall_cons in Hl as [Hc Hl]. destruct (c =? 32); [apply He; [done|]; by apply IH|].
  apply IH; [|done]. apply Forall_app. by repeat constructor.
Qed.
(** A line that ends in a space is its words with a space behind each. *)
Lemma squash_words l : forall w, 32 ∉ w -> last (w ++ l) = Some 32 \/ w ++ l = [] ->
  w ++ squash (bool_decide (w = [])) l = joined 32 (words w l).
Proof.
  induction l as [|c l IH]; intros w Hw Hl.
  - rewrite app_nil_r in *. destruct w as [|d w] using rev_ind; [done|]. destruct Hl as [Hl | Hl]; [|by destruct w].
    rewrite last_snoc in Hl. injection Hl as ->. exfalso. apply Hw. apply elem_of_app. right. by apply list_elem_of_singleton.
  - assert (last (w ++ c :: l) = Some 32) as Hl' by (destruct Hl as [|Hl]; [done|by destruct w]). clear Hl.
    assert (l = [] /\ c = 32 \/ last l = Some 32) as Hl.
    { destruct l as [|d l] using rev_ind; [left|right].
      - rewrite last_snoc in Hl'. by injection Hl' as ->.
      - rewrite app_comm_cons, app_assoc, last_snoc in Hl'. by rewrite last_snoc. }
    cbn [squash words]. destruct (Z.eqb_spec c 32) as [-> | Hc].
    + assert (squash true l = joined 32 (words [] l)) as E.
      { apply (IH []); [by intros ?%not_elem_of_nil|]. cbn. destruct Hl as [[-> _] | Hl]; [by right|by left]. }
      destruct w as [|d w]; [done|]. rewrite bool_decide_eq_false_2 by done. cbn [andb ends]. unfold joined in *. cbn [fmap list_fmap concat].
      rewrite <- E. by rewrite <- app_assoc.
    + cbn [andb]. destruct Hl as [[_ ->] | Hl]; [done|].
      rewrite <- (IH (w ++ [c])); [|rewrite not_elem_of_app, not_elem_of_cons; split; [done|split; [congruence|by intros ?%not_elem_of_nil]]|].
      * rewrite bool_decide_eq_false_2 by (by destruct w). by rewrite <- app_assoc.
      * left. rewrite last_app, Hl. done.
Qed.

(** *** Splitting *)
Fixpoint offsets (p : Z) (ws : list (list Z)) : list Z :=
  match ws with [] => [] | w :: ws => p :: offsets (p + Zlen w + 1) ws end.
Lemma split_loop_eq ws z : Forall nonzero ws -> Forall (fun w => 32 ∉ w) ws -> forall l1 argv fuel, (length ws < fuel)%nat -> Zlen argv <= SHELL_MAX_ARGS ->
  exists b, split_loop fuel (l1 ++ joined 32 ws ++ 0 :: z) (Zlen l1) argv =
    Ok (b, if SHELL_MAX_ARGS <? Zlen argv + Zlen ws then None else Some (argv ++ offsets (Zlen l1) ws)) /\
    (Zlen argv + Zlen ws <= SHELL_MAX_ARGS -> b = l1 ++ joined 0 ws ++ 0 :: z).
Proof.
  intros Hz Hs. induction ws as [|w ws IH]; intros l1 argv [|fuel] Hf Ha; cbn [length] in Hf; try lia; cbn [split_loop].
  - pose proof (strchr_miss l1 [] 32 z ltac:(done) ltac:(by intros ?%not_elem_of_nil) ltac:(done)) as E. cbn [app] in E.
    unfold joined. cbn [fmap list_fmap concat app]. rewrite E. cbn [mbind res_bind offsets].
    change (Zlen (@nil (list Z))) with 0. rewrite app_nil_r, (proj2 (Z.ltb_ge _ _)) by lia. by eexists.
  - apply Forall_cons in Hz as [Hw Hz]. apply Forall_cons in Hs as [Hws Hs]. unfold joined. cbn [fmap list_fmap concat]. rewrite <- !app_assoc.
    cbn [app]. rewrite strchr_hit by done. cbn [mbind res_bind]. rewrite (app_assoc l1 w), <- Zlen_app, bset_middle. cbn [mbind res_bind].
    pose proof (Zlen_nonneg ws). destruct (Z.eqb_spec (Zlen argv) SHELL_MAX_ARGS) as [E | E].
    { rewrite (proj2 (Z.ltb_lt _ _)) by (rewrite Zlen_cons; lia). eexists. split; [done|]. rewrite Zlen_cons. lia. }
    destruct (IH Hz Hs ((l1 ++ w) ++ [0]) (argv ++ [Zlen l1]) fuel ltac:(lia)) as (b & Eb & Hb).
    { rewrite Zlen_app. change (Zlen [Zlen l1]) with 1. lia. }
    rewrite !(Zlen_app _ [_]) in Eb. rewrite (Zlen_app argv) in Hb. change (Zlen [Zlen l1]) with 1 in *. change (Zlen [0]) with 1 in *.
    rewrite <- !app_assoc in Eb. cbn [app] in Eb. exists b. rewrite <- !app_assoc. cbn [app]. unfold joined in Eb. rewrite Eb. cbn [offsets]. rewrite Zlen_cons, Zlen_app.
    replace (Zlen argv + 1 + Zlen ws) with (Zlen argv + (1 + Zlen ws)) in * by lia. split; [done|]. intros Hle. rewrite Hb by done.
    unfold joined. by rewrite <- !app_assoc.
Qed.

(** *** Quotes *)
Lemma nonzero_restore l : nonzero l -> nonzero (map restore1 l).
Proof. intros Hl. apply Forall_map. eapply Forall_impl; [exact Hl|]. intros c Hc. cbn. unfold restore1. by destruct (_ =? 7). Qed.
Lemma restore_loop_eq l z : forall l1 a fuel, nonzero a -> nonzero l -> (length l < fuel)%nat ->
  restore_loop fuel (l1 ++ (a ++ l) ++ 0 :: z) (Zlen l1) (Zlen a) = Ok (l1 ++ (a ++ map restore1 l) ++ 0 :: z).
Proof.
  induction l as [|c l IH]; intros l1 a [|fuel] Ha Hl Hf; cbn [length] in Hf; try lia; cbn [restore_loop];
    (rewrite strlen_at_eq by (by apply Forall_app)); cbn [mbind res_bind].
  - rewrite (proj2 (Z.ltb_ge _ _)) by (rewrite app_nil_r; lia). done.
  - apply Forall_cons in Hl as [Hc Hl]. rewrite (proj2 (Z.ltb_lt _ _)) by (rewrite Zlen_app, Zlen_cons; pose proof (Zlen_nonneg l); lia).
    rewrite <- (app_assoc a), (app_assoc l1 a), <- Zlen_app. cbn [app]. rewrite bget_middle. cbn [mbind res_bind].
    assert ((if c =? SHELL_ALT_SPACE then bset ((l1 ++ a) ++ c :: l ++ 0 :: z) (Zlen (l1 ++ a)) 32 else Ok ((l1 ++ a) ++ c :: l ++ 0 :: z)) =
      Ok ((l1 ++ a) ++ restore1 c :: l ++ 0 :: z)) as -> by (unfold restore1, SHELL_ALT_SPACE; destruct (c =? 7); [by rewrite bset_middle|done]).
    cbn [mbind res_bind]. specialize (IH l1 (a ++ [restore1 c]) fuel). rewrite Zlen_app in IH. rewrite <- !app_assoc in *. cbn [app map] in *.
    apply IH; [|done|lia]. apply Forall_app. split; [done|]. constructor; [|done]. unfold restore1. by destruct (c =? 7).
Qed.
Lemma strip_quotes_eq l1 w z : nonzero w -> w <> [] ->
  exists r q, strip_quotes (l1 ++ w ++ 0 :: z) (Zlen l1) = Ok (l1 ++ r ++ z, q) /\ Zlen r = Zlen w + 1 /\
    forall t, cstring_at (l1 ++ r ++ t) q = Ok (strip w).
Proof.
  intros Hz Hne. destruct w as [|c l]; [done|]. unfold strip_quotes. cbn [app]. rewrite bget_middle. cbn [mbind res_bind strip].
  change ((c =? 39) || (c =? 34)) with (is_quote c).
  assert (exists q, Ok (l1 ++ c :: l ++ 0 :: z, Zlen l1) = Ok (l1 ++ ((c :: l) ++ [0]) ++ z, q) /\
    forall t, cstring_at (l1 ++ ((c :: l) ++ [0]) ++ t) q = Ok (c :: l)) as (q0 & E0 & Hq0).
  { exists (Zlen l1). rewrite <- app_assoc. cbn [app]. split; [done|]. intros t. rewrite <- app_assoc. by apply (cstring_at_eq l1 (c :: l) t). }
  destruct (is_quote c); [|exists ((c :: l) ++ [0]), q0; split_and!; [done|by zlen|done]].
  pose proof (strlen_at_eq l1 (c :: l) z Hz) as En. cbn [app] in En. rewrite En. cbn [mbind res_bind].
  destruct (exists_last (l := c :: l) ltac:(done)) as (m & d & Em). rewrite Em. rewrite last_snoc.
  assert (l1 ++ c :: l ++ 0 :: z = (l1 ++ m) ++ d :: 0 :: z) as Eb.
  { rewrite <- !app_assoc. f_equal. change (c :: l ++ 0 :: z) with ((c :: l) ++ 0 :: z). rewrite Em. by rewrite <- app_assoc. }
  assert (Zlen l1 + Zlen (m ++ [d]) - 1 = Zlen (l1 ++ m)) as -> by (rewrite !Zlen_app; change (Zlen [d]) with 1; lia).
  rewrite Eb, bget_middle. cbn [mbind res_bind andb]. destruct (Z.eqb_spec c d) as [<- | Hcd].
  - rewrite bool_decide_eq_true_2 by done. rewrite bset_middle. cbn [mbind res_bind]. exists (m ++ [0; 0]), (Zlen l1 + 1). split; [by rewrite <- !app_assoc|].
    split; [rewrite !Zlen_app; change (Zlen [0; 0]) with 2; change (Zlen [c]) with 1; lia|]. intros t.
    destruct m as [|c' m]; cbn [app] in Em; [injection Em as Em|injection Em as Ec Em].
    + subst l. pose proof (cstring_at_eq (l1 ++ [0]) [] t ltac:(done)) as E. rewrite Zlen_app, <- !app_assoc in E. exact E.
    + subst c' l. rewrite removelast_last. apply Forall_cons in Hz as [_ Hz]. apply Forall_app in Hz as [Hm _].
      pose proof (cstring_at_eq (l1 ++ [c]) m (0 :: t) Hm) as E. rewrite Zlen_app, <- !app_assoc in E.
      cbn [app]. rewrite <- app_assoc. exact E.
  - rewrite bool_decide_eq_false_2 by congruence. rewrite <- Eb, <- Em. exists ((c :: l) ++ [0]), q0. split_and!; [done|by zlen|done].
Qed.

Definition argument (w : list Z) : list Z := strip (map restore1 w).
Lemma args_loop_eq ws t : Forall nonzero ws -> Forall (fun w => w <> []) ws -> forall l1,
  exists out offs, args_loop (l1 ++ joined 0 ws ++ t) (offsets (Zlen l1) ws) = Ok (l1 ++ out ++ t, offs) /\
    strings_at (l1 ++ out ++ t) offs = Ok (argument <$> ws).
Proof.
  intros Hz Hne. induction ws as [|w ws IH]; intros l1; [by exists [], []|].
  apply Forall_cons in Hz as [Hw Hz]. apply Forall_cons in Hne as [Hwn Hne]. unfold joined. cbn [fmap list_fmap concat offsets args_loop].
  rewrite <- !app_assoc. cbn [app].
  pose proof (restore_loop_eq w (concat ((fun w => w ++ [0]) <$> ws) ++ t) l1 [] (S (Z.to_nat (Zlen (l1 ++ w ++ 0 :: concat ((fun w => w ++ [0]) <$> ws) ++ t))))
    ltac:(done) Hw ltac:(rewrite Zlen_to_nat, !length_app; lia)) as E. change (Zlen (@nil Z)) with 0 in E. cbn [app] in E. rewrite E. cbn [mbind res_bind].
  destruct (strip_quotes_eq l1 (map restore1 w) (concat ((fun w => w ++ [0]) <$> ws) ++ t) (nonzero_restore _ Hw) ltac:(by destruct w))
    as (r & q & -> & Hr & Hq). cbn [mbind res_bind].
  destruct (IH Hz Hne (l1 ++ r)) as (out & offs & Eo & Es). rewrite Zlen_app, Hr in Eo.
  assert (Zlen (map restore1 w) = Zlen w) as El by (unfold Zlen; by rewrite length_map). rewrite El in Eo.
  rewrite <- !app_assoc in Eo. rewrite Z.add_assoc in Eo. unfold joined in Eo. rewrite Eo. cbn [mbind res_bind].
  exists (r ++ out), (q :: offs). rewrite <- !app_assoc in *. split; [done|]. cbn [strings_at]. rewrite Hq. cbn [mbind res_bind]. by rewrite Es.
Qed.

(** *** The passes together *)
Lemma map_ends w ws : map restore1 <$> ends w ws = ends (map restore1 w) (map restore1 <$> ws).
Proof. by destruct w. Qed.
Lemma scan_words l : forall q w, scan q (map restore1 w) l =
  if (mark q (map deblank l)).2 then None else Some (map restore1 <$> words w (mark q (map deblank l)).1).
Proof.
  induction l as [|c l IH]; intros q w; cbn [scan map mark].
  - destruct q; cbn; [done|]. by rewrite map_ends.
  - assert (is_quote (deblank c) = is_quote c /\ (deblank c =? 32) = is_blank c) as [Eq Eb].
    { unfold is_quote, is_blank, deblank. destruct (Z.eqb_spec c 13), (Z.eqb_spec c 10), (Z.eqb_spec c 9); subst; try done. cbn. by rewrite !orb_false_r. }
    assert (is_blank c = false -> deblank c = c) as Hd.
    { unfold is_blank, deblank. destruct (c =? 32), (c =? 13), (c =? 10), (c =? 9); done. }
    rewrite Eq, Eb. destruct (is_quote c) eqn:Hq.
    + assert (is_blank c = false) as Hb by (unfold is_quote, is_blank in *; destruct (Z.eqb_spec c 39), (Z.eqb_spec c 34); subst; done).
      rewrite (Hd Hb). cbn [fst snd words]. assert ((c =? 32) = false) as -> by (unfold is_blank in Hb; by destruct (c =? 32)).
      rewrite <- IH, map_app. f_equal. cbn. unfold restore1. unfold is_quote in Hq. destruct (Z.eqb_spec c 7) as [-> |]; done.
    + cbn [fst snd]. destruct (is_blank c) eqn:Hb; cbn [andb].
      * destruct q as [d|].
        -- rewrite bool_decide_eq_true_2 by (by eexists). cbn [words Z.eqb Pos.eqb]. rewrite <- IH, map_app. done.
        -- rewrite bool_decide_eq_false_2 by (by intros []). specialize (IH None []). cbn [map] in IH. rewrite IH.
           assert (deblank c = 32) as -> by (by apply Z.eqb_eq). cbn [words Z.eqb Pos.eqb]. destruct (mark None (map deblank l)).2; cbn; [done|]. by rewrite map_ends.
      * rewrite (Hd eq_refl). cbn [words]. assert ((c =? 32) = false) as -> by (unfold is_blank in Hb; by destruct (c =? 32)).
        rewrite <- IH, map_app. done.
Qed.
Lemma scan_newline l : forall q w, scan q w (l ++ [10]) = scan q w l.
Proof.
  induction l as [|c l IH]; intros q w; cbn [app scan].
  - destruct q; cbn; [done|]. by destruct w.
  - destruct (is_quote c); [apply IH|]. destruct (is_blank c); [|apply IH]. destruct q; by rewrite IH.
Qed.
Lemma mark_space x : forall q, (mark q (x ++ [32])).2 = false -> exists y, (mark q (x ++ [32])).1 = y ++ [32].
Proof.
  induction x as [|c x IH]; intros q; cbn.
  - intros Hq. rewrite Hq. by exists [].
  - destruct (is_quote c); cbn; intros Hq; destruct (IH _ Hq) as [y ->]; by eexists (_ :: y).
Qed.
Lemma squash_start l : squash false l = (if bool_decide (head l = Some 32) then [32] else []) ++ squash true l.
Proof.
  destruct l as [|c l]; [done|]. cbn [squash head]. destruct (Z.eqb_spec c 32) as [-> | Hc]; [by rewrite bool_decide_eq_true_2|].
  by rewrite bool_decide_eq_false_2 by congruence.
Qed.

(** What the words of a line make of it. *)
Definition outcome (rc : Z) (o : option (list (list Z))) : line :=
  match o with
  | None => Return (-126)
  | Some [] => Return (s8 rc)
  | Some ws => if SHELL_MAX_ARGS <? Zlen ws then Return (-124) else Run (strip <$> ws)
  end.
Lemma joined_last c w ws : exists y, joined c (w :: ws) = y ++ [c].
Proof.
  revert w. induction ws as [|v ws IH]; intros w; [exists w; unfold joined; cbn; by rewrite app_nil_r|].
  destruct (IH v) as [y E]. exists ((w ++ [c]) ++ y). unfold joined in *. cbn [fmap list_fmap concat] in *. by rewrite E, <- (app_assoc _ y).
Qed.
Lemma nonzero_joined ws : Forall nonzero ws -> nonzero (joined 32 ws).
Proof.
  induction 1 as [|w ws Hw _ IH]; [done|]. unfold joined in *. cbn [fmap list_fmap concat]. apply Forall_app. split; [|done].
  apply Forall_app. by repeat constructor.
Qed.
Lemma length_joined c ws : (length ws <= length (joined c ws))%nat.
Proof. induction ws as [|w ws IH]; [done|]. unfold joined in *. cbn [fmap list_fmap concat length]. rewrite !length_app. cbn [length]. lia. Qed.

Lemma parse_collapsed_eq (lead : bool) ws z rc : ws <> [] -> Forall nonzero ws -> Forall (fun w => w <> []) ws -> Forall (fun w => 32 ∉ w) ws ->
  parse_collapsed ((if lead then [32] else []) ++ joined 32 ws ++ 0 :: z) rc = Ok (outcome rc (Some (map restore1 <$> ws))).
Proof.
  intros Hws Hz Hne Hs. set (pre := if lead then [32] else []). destruct ws as [|w ws]; [done|]. set (all := w :: ws) in *.
  assert (nonzero pre) as Hpre by (unfold pre; destruct lead; by repeat constructor).
  destruct (joined_last 32 w ws) as [y Ey]. fold all in Ey. pose proof (nonzero_joined all Hz) as Hjz.
  pose proof (proj1 (proj1 (Forall_cons _ _ _) Hne)) as Hw. pose proof (proj1 (proj1 (Forall_cons _ _ _) Hs)) as Hw32.
  assert (exists d l, joined 32 all = d :: l /\ d <> 32 /\ l <> []) as (d & l & Ed & Hd & Hl).
  { destruct w as [|d w]; [done|]. unfold joined. cbn. eexists d, _. split; [done|]. split; [|by destruct w].
    intros ->. apply Hw32. by left. }
  unfold parse_collapsed. pose proof (cstring_at_eq [] (pre ++ joined 32 all) z ltac:(by apply Forall_app)) as Ec.
  change (Zlen (@nil Z)) with 0 in Ec. cbn [app] in Ec. rewrite <- app_assoc in Ec. rewrite Ec. cbn [mbind res_bind].
  rewrite bool_decide_eq_false_2 by (rewrite Ed; unfold pre; destruct lead; cbn; congruence).
  assert (bget (pre ++ joined 32 all ++ 0 :: z) 0 = Ok (if lead then 32 else d)) as Eg by (rewrite Ed; unfold pre; by destruct lead).
  rewrite Eg. cbn [mbind res_bind]. assert ((if (if lead then 32 else d) =? 32 then 1 else 0) = Zlen pre) as ->.
  { unfold pre. destruct lead; [done|]. by rewrite (proj2 (Z.eqb_neq d 32)). }
  rewrite strlen_at_eq by done. cbn [mbind res_bind].
  assert (bget (pre ++ joined 32 all ++ 0 :: z) (Zlen pre + Zlen (joined 32 all) - 1) = Ok 32) as ->.
  { rewrite Ey. replace (Zlen pre + Zlen (y ++ [32]) - 1) with (Zlen (pre ++ y)) by (rewrite !Zlen_app; change (Zlen [32]) with 1; lia).
    rewrite <- app_assoc, (app_assoc pre y). apply bget_middle. }
  cbn [mbind res_bind Z.eqb Pos.eqb negb].
  destruct (split_loop_eq all z Hz Hs pre [] (S (Z.to_nat (Zlen (pre ++ joined 32 all ++ 0 :: z))))) as (b & -> & Hb); [|done|].
  { rewrite Zlen_to_nat, !length_app. pose proof (length_joined 32 all). lia. }
  cbn [mbind res_bind]. change (Zlen (@nil Z)) with 0 in *. rewrite Z.add_0_l in *. unfold outcome.
  assert (Zlen (map restore1 <$> all) = Zlen all) as El by (unfold Zlen; by rewrite length_fmap).
  destruct (map restore1 <$> all) as [|x xs] eqn:Ex; [by destruct all|]. rewrite El. rewrite <- Ex.
  destruct (Z.ltb_spec SHELL_MAX_ARGS (Zlen all)); [done|]. rewrite Hb by lia. cbn [app].
  destruct (args_loop_eq all (0 :: z) Hz Hne pre) as (out & offs & -> & Es). cbn [mbind res_bind]. rewrite Es. cbn [mbind res_bind].
  rewrite <- list_fmap_compose. done.
Qed.

Lemma words_spaces_nil y : last y = Some 32 -> words [] y = [] -> (if bool_decide (head y = Some 32) then [32] else []) ++ joined 32 (words [] y) = [32].
Proof.
  intros Hl E. rewrite E. destruct y as [|c y]; [done|]. cbn in E. destruct (Z.eqb_spec c 32) as [-> | Hc]; [done|]. exfalso.
  assert (forall l w, w <> [] -> words w l <> []) as Hw.
  { induction l as [|d l IH]; intros w Hw; cbn; [by destruct w|]. destruct (d =? 32); [by destruct w|]. apply IH. by destruct w. }
  by apply (Hw y [c]).
Qed.

(** The line after its newline was made sure of. *)
Lemma parse_line_newline x z rc fuel : nonzero x -> (length x + 1 < fuel)%nat ->
  (b ← blank_loop fuel ((x ++ [10]) ++ 0 :: z) 0;
   '(b, inside_quotes) ← quote_loop (S (Z.to_nat (Zlen b))) b 0 false 0;
   if (inside_quotes : bool) then Ok (Return (-126)) else
   p ← strchr b 0 32;
   b ← collapse_loop (S (Z.to_nat (Zlen b))) b p;
   parse_collapsed b rc) = Ok (outcome rc (scan None [] (x ++ [10]))).
Proof.
  intros Hz Hf. assert (nonzero (x ++ [10])) as Hz1 by (apply Forall_app; by repeat constructor).
  pose proof (blank_loop_eq (x ++ [10]) z [] fuel Hz1 ltac:(rewrite length_app; cbn; lia)) as E1. change (Zlen (@nil Z)) with 0 in E1. cbn [app] in E1.
  rewrite E1. cbn [mbind res_bind]. set (l1 := map deblank (x ++ [10])). assert (nonzero l1) as Hl1 by (by apply nonzero_deblank).
  pose proof (quote_loop_eq l1 z [] None (S (Z.to_nat (Zlen (l1 ++ 0 :: z)))) ltac:(done) Hl1
    ltac:(rewrite Zlen_to_nat, length_app; lia)) as E2. change (Zlen (@nil Z)) with 0 in E2. cbn [app default from_option] in E2.
  rewrite bool_decide_eq_false_2 in E2 by (by intros []). rewrite E2. cbn [mbind res_bind].
  pose proof (scan_words (x ++ [10]) None []) as Esc. cbn [map] in Esc. fold l1 in Esc. rewrite Esc.
  destruct (mark None l1).2 eqn:Eq; [done|]. pose proof (nonzero_mark l1 None Hl1) as Hy. 
  assert (l1 = map deblank x ++ [32]) as El by (unfold l1; apply map_app).
  rewrite El in Eq. destruct (mark_space _ _ Eq) as [y0 Ey]. rewrite <- El in Ey. set (y := (mark None l1).1) in *. assert (last y = Some 32) as Hlast by (by rewrite Ey, last_snoc).
  assert (exists z', (p ← strchr (y ++ 0 :: z) 0 32; collapse_loop (S (Z.to_nat (Zlen (y ++ 0 :: z)))) (y ++ 0 :: z) p) = Ok (squash false y ++ 0 :: z')) as [z' E3].
  { destruct (first_space y) as [Hns | (a & b & Eab & Ha)]; [exfalso; apply Hns; rewrite Ey; apply elem_of_app; right; by left|].
    rewrite Eab in Hy. apply Forall_app in Hy as [Ha0 Hb0]. apply Forall_cons in Hb0 as [_ Hb0].
    rewrite Eab, <- app_assoc. cbn [app]. pose proof (strchr_hit [] a 32 (b ++ 0 :: z) Ha0 Ha) as Es. change (Zlen (@nil Z)) with 0 in Es.
    rewrite Z.add_0_l in Es. cbn [app] in Es. rewrite Es. cbn [mbind res_bind].
    destruct (collapse_loop_eq (length b) b a z (S (Z.to_nat (Zlen (a ++ 32 :: b ++ 0 :: z)))) ltac:(done)
      ltac:(rewrite Zlen_to_nat, length_app; cbn; rewrite length_app; cbn; lia) Hb0) as [z' E].
    exists z'. rewrite E. rewrite squash_false_app by done. cbn [squash andb Z.eqb Pos.eqb]. by rewrite <- app_assoc. }
  destruct (strchr (y ++ 0 :: z) 0 32) as [p|]; [|done]. cbn [mbind res_bind] in *. rewrite E3. cbn [mbind res_bind].
  assert (squash true y = joined 32 (words [] y)) as Ej by (apply (squash_words y []); [by intros ?%not_elem_of_nil|by left]).
  rewrite squash_start, Ej. destruct (words [] y) as [|w ws] eqn:Ew.
  - pose proof (words_spaces_nil y Hlast Ew) as Ep. rewrite Ew in Ep. rewrite Ep.
    unfold parse_collapsed. pose proof (cstring_at_eq [] [32] z' ltac:(by repeat constructor)) as Ec. change (Zlen (@nil Z)) with 0 in Ec. cbn [app] in *.
    rewrite Ec. cbn [mbind res_bind]. by rewrite bool_decide_eq_true_2.
  - rewrite <- app_assoc. rewrite <- Ew.
    pose proof (parse_collapsed_eq (bool_decide (head y = Some 32)) (words [] y) z' rc) as Ep. destruct (bool_decide (head y = Some 32)); apply Ep;
      rewrite ?Ew; try done; rewrite <- Ew; try (by apply nonzero_words); try (by apply words_nonempty); apply words_no_space; by intros ?%not_elem_of_nil.
Qed.
End strings.

(** Splitting a line, with room for the newline it may lack, gives what the
    tokenizer says. *)
Lemma parse_line_eq (l z : list Z) (y rc : Z) : nonzero l -> parse_line (l ++ 0 :: y :: z) rc = Ok (outcome rc (scan None [] l)).
Proof.
  intros Hz. unfold parse_line. rewrite strlen_at_0 by done. cbn [mbind res_bind].
  destruct l as [|d x _] using rev_ind; [done|]. rewrite Zlen_app. change (Zlen [d]) with 1. pose proof (Zlen_nonneg x).
  rewrite (proj2 (Z.eqb_neq _ 0)) by lia. replace (Zlen x + 1 - 1) with (Zlen x) by lia.
  assert (bget ((x ++ [d]) ++ 0 :: y :: z) (Zlen x) = Ok d) as -> by (rewrite <- app_assoc; apply bget_middle). cbn [mbind res_bind].
  destruct (Z.eqb_spec d 10) as [-> | Hd]; cbn [negb].
  - cbn [mbind res_bind]. apply Forall_app in Hz as [Hx _].
    apply (parse_line_newline x (y :: z) rc); [done|]. rewrite Zlen_to_nat, !length_app. cbn. lia.
  - pose proof (strcat1_eq [] (x ++ [d]) 10 y z Hz) as E. change (Zlen (@nil Z)) with 0 in E. cbn [app] in E. rewrite E. cbn [mbind res_bind].
    rewrite (parse_line_newline (x ++ [d]) z rc); [by rewrite scan_newline|done|]. rewrite Zlen_to_nat, !length_app. cbn. lia.
Qed.

(** ** Running commands *)
Section running.
  Context {W : Type} `{Console W} (shell_commands : list (shell_command W)).

Definition named (n : list Z) (c : shell_command W) : Prop := cmd c = n.
#[export] Instance named_dec n c : Decision (named n c).
Proof. unfold named. apply _. Defined.
(** The command a name stands for: the first of the table. *)
Definition dispatch (argv : list (list Z)) (w : W) : res (W * Z) :=
  match list_find (named (hd [] argv)) shell_commands with
  | Some (_, c) => '(w, r) ← handler c argv w; Ok (w, s8 r)
  | None => '(w, _) ← printf "Command %s cannot be found." [Str (hd [] argv)] w; Ok (w, -128)
  end.
Lemma in_commands_eq cmds a argv w :
  shell_execute_command_in_commands cmds (a :: argv) w =
    match list_find (named a) cmds with
    | Some (_, c) => '(w, r) ← handler c (a :: argv) w; Ok (w, s8 r)
    | None => '(w, _) ← printf "Command %s cannot be found." [Str a] w; Ok (w, -128)
    end.
Proof.
  induction cmds as [|c cmds IH]; cbn [shell_execute_command_in_commands list_find].
  - by rewrite (pure_bind_Ok (bget (a :: argv) 0) _ _ a eq_refl).
  - rewrite (pure_bind_Ok (bget (a :: argv) 0) _ _ a eq_refl). unfold named at 1 2. destruct (decide (cmd c = a)) as [E | E].
    + rewrite bool_decide_eq_true_2 by done. done.
    + rewrite bool_decide_eq_false_2 by done. rewrite IH. by destruct (list_find (named a) cmds) as [[]|].
Qed.

Definition run_outcome (o : line) (w : W) : res (W * Z) :=
  match o with Return rc => Ok (w, rc) | Run argv => dispatch argv w end.
Lemma shell_execute_eq l z y rc w : nonzero l ->
  shell_execute_command shell_commands (l ++ 0 :: y :: z) rc w = run_outcome (outcome rc (scan None [] l)) w.
Proof.
  intros Hl. unfold shell_execute_command. rewrite (pure_bind_Ok _ _ _ _ (parse_line_eq l z y rc Hl)).
  destruct (scan None [] l) as [[|a ws]|]; [done| |done]. unfold outcome. destruct (_ <? _); [done|].
  cbn [run_outcome fmap list_fmap]. apply in_commands_eq.
Qed.

(** C3: A command line, with room in its buffer for the newline it may lack,
    is split in place exactly as the tokenizer says: nothing happens for a
    blank line, an open quote and an eleventh argument are errors, and
    otherwise the first command of the table with the name runs with the
    arguments, their quotes taken off. *)
Theorem shell_executes_lines (l z : list Z) (y rc : Z) (w : W) : nonzero l ->
  shell_execute_command shell_commands (l ++ 0 :: y :: z) rc w =
    match scan None [] l with
    | None => Ok (w, -126)
    | Some [] => Ok (w, s8 rc)
    | Some ws => if 10 <? Zlen ws then Ok (w, -124) else dispatch (strip <$> ws) w
    end.
Proof.
  intros Hl. rewrite shell_execute_eq by done. destruct (scan None [] l) as [[|a ws]|]; [done| |done].
  unfold outcome, SHELL_MAX_ARGS. by destruct (_ <? _).
Qed.
End running.

(** A console: what is typed (then nothing but end of file), what is printed. *)
Record terminal := MkTerm { t_in : list Z; t_out : list (string * list printed) }.
#[export] Instance terminal_console : Console terminal := {|
  printf := fun f l w => Ok (MkTerm (t_in w) (t_out w ++ [(f, l)]), tt);
  getchar := fun w => Ok (match t_in w with c :: l => (MkTerm l (t_out w), c) | [] => (w, -1) end)
|}.

(** "echo" prints its arguments and returns their number. *)
Definition echo : shell_command terminal :=
  MkCommand [101; 99; 104; 111] [] [] (fun argv => _ ← printf "echo" (Str <$> argv); mret (Zlen argv)).
(** A line whose last character is an open quote is refused, and without it
    the command is run. *)
Lemma shell_executes_lines_witness :
  shell_execute_command [echo] ([101; 99; 104; 111; 32; 32; 39; 97; 32; 98; 39; 32; 34] ++ 0 :: 0 :: []) 5 (MkTerm [] []) = Ok (MkTerm [] [], -126) /\
  shell_execute_command [echo] ([101; 99; 104; 111; 32; 32; 39; 97; 32; 98; 39; 32] ++ 0 :: 0 :: []) 5 (MkTerm [] []) =
    Ok (MkTerm [] [("echo"%string, [Str [101; 99; 104; 111]; Str [97; 32; 98]])], 2).
Proof.
  split; rewrite (shell_executes_lines [echo]); [by vm_compute|by apply (bool_decide_unpack _); vm_compute|by vm_compute|by apply (bool_decide_unpack _); vm_compute].
Defined.

(** ** Reading lines *)

(** What is typed up to the end of a line, [acc] so far: a newline at the
    start of a line is a character of it. *)
Fixpoint edit (n : Z) (acc l : list Z) : list Z * list Z :=
  if Zlen acc <? n then
    match l with
    | [] => (acc ++ replicate (Z.to_nat (n - Zlen acc)) 255, [])
    | c :: l =>
      if (c =? 8) || (c =? 127) then edit n (removelast acc) l
      else if ((c =? 13) || (c =? 10)) && (0 <? Zlen acc) then (acc, l)
      else edit n (acc ++ [u8 c]) l
    end
  else (acc, l).

Lemma getline_end n z : forall k acc fuel out, (k < fuel)%nat -> Zlen acc + Z.of_nat k = n -> n < Zlen (acc ++ z) ->
  exists z', getline_loop fuel (acc ++ z) (Zlen acc) (Zlen acc) (n + 1) (MkTerm [] out) = Ok (MkTerm [] out, (acc ++ replicate k 255) ++ 0 :: z') /\
    Zlen ((acc ++ replicate k 255) ++ 0 :: z') = Zlen (acc ++ z).
Proof.
  intros k. revert z. induction k as [|k IH]; intros z acc [|fuel] out Hf Hk Hn; try lia; cbn [getline_loop].
  - rewrite (proj2 (Z.ltb_ge _ _)) by lia. destruct z as [|d z]; [rewrite app_nil_r in Hn; lia|].
    unfold pure. rewrite bset_middle. cbn. exists z. rewrite !app_nil_r. split; [done|]. rewrite !Zlen_app. by zlen.
  - rewrite (proj2 (Z.ltb_lt _ _)) by lia. erewrite M_bind_Ok by reflexivity. cbn [t_in]. cbn [Z.eqb Pos.eqb orb andb].
    rewrite (pure_bind_Ok (Ok (acc ++ z)) _ _ _ eq_refl). destruct z as [|d z]; [rewrite app_nil_r in Hn; lia|].
    rewrite (pure_bind_Ok _ _ _ _ (bset_middle acc d (u8 (-1)) z)). change (u8 (-1)) with 255.
    destruct (IH z (acc ++ [255]) fuel out ltac:(lia)) as (z' & E & El).
    { rewrite Zlen_app. change (Zlen [255]) with 1. lia. } { rewrite !Zlen_app in *. zlen. lia. }
    rewrite Zlen_app in E. change (Zlen [255]) with 1 in E. rewrite <- app_assoc in E, El. cbn [app] in E, El. exists z'. cbn [replicate].
    replace (acc ++ 255 :: replicate k 255) with ((acc ++ [255]) ++ replicate k 255) by (by rewrite <- app_assoc). split; [exact E|].
    zlen. lia.
Qed.

Lemma removelast_snoc {A} (l : list A) : l <> [] -> exists x, l = removelast l ++ [x].
Proof. intros Hl. destruct (exists_last Hl) as (m & x & ->). exists x. by rewrite removelast_last. Qed.

Lemma getline_loop_eq n l : forall acc z fuel out, 0 <= n -> (length l + Z.to_nat n < fuel)%nat -> Zlen acc <= n -> n < Zlen (acc ++ z) ->
  exists z', getline_loop fuel (acc ++ z) (Zlen acc) (Zlen acc) (n + 1) (MkTerm l out) =
    Ok (MkTerm (edit n acc l).2 out, (edit n acc l).1 ++ 0 :: z') /\ Zlen ((edit n acc l).1 ++ 0 :: z') = Zlen (acc ++ z) /\ Zlen (edit n acc l).1 <= n.
Proof.
  induction l as [|c l IH]; intros acc z fuel out H0 Hf Ha Hn.
  - cbn [edit]. destruct (Z.ltb_spec (Zlen acc) n).
    + destruct (getline_end n z (Z.to_nat (n - Zlen acc)) acc fuel out ltac:(cbn in Hf; pose proof (Zlen_nonneg acc); lia) ltac:(lia) Hn) as (z' & E & El). exists z'.
      split; [done|]. split; [done|]. cbn [fst]. rewrite Zlen_app, Zlen_replicate. lia.
    + destruct (getline_end n z 0 acc fuel out ltac:(lia) ltac:(lia) Hn) as (z' & E & El). exists z'. cbn [replicate] in *. rewrite app_nil_r in *. done.
  - destruct fuel as [|fuel]; [lia|]. cbn [length] in Hf. cbn [edit getline_loop]. destruct (Z.ltb_spec (Zlen acc) n) as [Hlt | Hge].
    2: { assert ((Zlen acc <? n + 1 - 1) = false) as -> by (apply Z.ltb_ge; lia). destruct z as [|d z]; [rewrite app_nil_r in Hn; lia|].
      unfold pure. rewrite bset_middle. cbn [mbind res_bind fst snd]. exists z. split; [done|]. split; [|done]. by rewrite !Zlen_app, !Zlen_cons. }
    assert ((Zlen acc <? n + 1 - 1) = true) as -> by (apply Z.ltb_lt; lia). erewrite M_bind_Ok by reflexivity. cbn [t_in t_out].
    destruct ((c =? 8) || (c =? 127)).
    + destruct acc as [|a0 acc0]; [apply (IH [] z fuel out H0); [lia|done|done]|]. set (acc := a0 :: acc0) in *.
      assert (0 < Zlen acc) as Hpos by (unfold acc; rewrite Zlen_cons; pose proof (Zlen_nonneg acc0); lia).  rewrite (proj2 (Z.ltb_lt _ _)) by done.
      destruct (removelast_snoc acc ltac:(done)) as [x Ex]. assert (Zlen acc = Zlen (removelast acc) + 1) as Ez by (rewrite Ex at 1; by rewrite Zlen_app).
      destruct (IH (removelast acc) (x :: z) fuel out H0 ltac:(lia) ltac:(lia)) as (z' & E & El & Hl).
      { rewrite Ex, <- app_assoc in Hn. exact Hn. }
      assert (removelast acc ++ x :: z = acc ++ z) as Eb by (rewrite Ex at 2; by rewrite <- app_assoc). rewrite Eb in *.
      replace (Zlen acc - 1) with (Zlen (removelast acc)) by lia. by exists z'.
    + destruct z as [|d z]; [rewrite app_nil_r in Hn; lia|]. set (nl := (c =? 13) || (c =? 10)).
      assert (exists d', (if nl then bset (acc ++ d :: z) (Zlen acc) 0 else Ok (acc ++ d :: z)) = Ok (acc ++ d' :: z) /\ (nl = true -> d' = 0)) as (d' & E & Hd').
      { destruct nl; [exists 0; by rewrite bset_middle|by exists d]. }
      rewrite (pure_bind_Ok _ _ _ _ E). destruct (nl && (0 <? Zlen acc)) eqn:Eend.
      * apply andb_true_iff in Eend as [Enl _]. rewrite Hd' by done. exists z. split; [done|]. split; [|cbn; lia]. cbn [fst]. by rewrite !Zlen_app, !Zlen_cons.
      * rewrite (pure_bind_Ok _ _ _ _ (bset_middle acc d' (u8 c) z)).
        destruct (IH (acc ++ [u8 c]) z fuel out H0 ltac:(lia)) as (z' & E' & El & Hl).
        { rewrite Zlen_app. change (Zlen [u8 c]) with 1. lia. } { clear -Hn. zlen. lia. }
        rewrite Zlen_app in E'. change (Zlen [u8 c]) with 1 in E'. rewrite <- app_assoc in E', El. exists z'. split; [exact E'|]. split; [|done].
        rewrite El. by rewrite !Zlen_app, !Zlen_cons.
Qed.

Lemma split_zero l : exists s, nonzero s /\ (l = s \/ exists r, l = s ++ 0 :: r).
Proof.
  induction l as [|c l (s & Hs & IH)]; [by exists []; split; [|left]|]. destruct (Z.eq_dec c 0) as [-> | Hc]; [by exists []; split; [|right; exists l]|].
  exists (c :: s). split; [by constructor|]. destruct IH as [-> | [r ->]]; [by left|right; by exists r].
Qed.

Lemma shell_round_eq cmds fuel prompt b rc l out : Zlen b = SHELL_MAXSIZE -> (length l + 48 < fuel)%nat ->
  exists b', shell_round cmds fuel prompt b rc (MkTerm l out) =
      ('(w, rc) ← shell_execute_command cmds b' rc (MkTerm (edit 48 [] l).2 (out ++ [("[%d]%s# "%string, [Int rc; Str prompt])])); Ok (w, (b', rc))) /\
    Zlen b' = SHELL_MAXSIZE /\ exists z, b' = (edit 48 [] l).1 ++ 0 :: z /\ Zlen (edit 48 [] l).1 <= 48.
Proof.
  intros Hb Hf. unfold shell_round. erewrite M_bind_Ok by reflexivity. cbn [t_in t_out].
  destruct (getline_loop_eq 48 l [] b fuel (out ++ [("[%d]%s# "%string, [Int rc; Str prompt])]) ltac:(lia) ltac:(lia) ltac:(done)) as (z & E & El & Hl).
  { cbn [app]. rewrite Hb. done. }
  change (Zlen (@nil Z)) with 0 in E. cbn [app] in *. change (48 + 1) with (SHELL_MAXSIZE - 1) in E. unfold getline. rewrite (M_bind_Ok _ _ _ _ _ E).
  exists ((edit 48 [] l).1 ++ 0 :: z). split; [done|]. split; [by rewrite El|]. by exists z.
Qed.

(** C27: Whatever is typed, one round of the shell ends and stays inside its
    buffer, which keeps its size, if the commands return. *)
Theorem shell_round_safe (cmds : list (shell_command terminal)) (fuel : nat) (prompt b l : list Z) (rc : Z) (out : list (string * list printed)) :
  Forall (fun c => forall argv w, exists w' r, handler c argv w = Ok (w', r)) cmds ->
  Zlen b = SHELL_MAXSIZE -> (length l + 48 < fuel)%nat ->
  exists w b' rc', shell_round cmds fuel prompt b rc (MkTerm l out) = Ok (w, (b', rc')) /\ Zlen b' = SHELL_MAXSIZE.
Proof.
  intros Hc Hb Hf. destruct (shell_round_eq cmds fuel prompt b rc l out Hb Hf) as (b' & -> & Hb' & z & -> & Hl).
  assert (exists s y z', nonzero s /\ (edit 48 [] l).1 ++ 0 :: z = s ++ 0 :: y :: z') as (s & y & z' & Hs & Eb).
  { destruct (split_zero (edit 48 [] l).1) as (s & Hs & [E | [r E]]); rewrite E in *.
    - destruct z as [|y z]; [|by exists s, y, z]. rewrite Zlen_app in Hb'. change (Zlen [0]) with 1 in Hb'. unfold SHELL_MAXSIZE in *. lia.
    - exists s. rewrite <- app_assoc. cbn [app]. destruct r as [|y r]; [by exists 0, z|by exists y, (r ++ 0 :: z)]. }
  rewrite Eb. rewrite shell_execute_eq by done. set (w := MkTerm _ _).
  assert (exists w' r, run_outcome cmds (outcome rc (scan None [] s)) w = Ok (w', r)) as (w' & r & ->).
  { destruct (outcome _ _) as [rc'|argv]; cbn [run_outcome]; [by do 2 eexists|]. unfold dispatch.
    destruct (list_find _ cmds) as [[i c]|] eqn:Ef; [|by do 2 eexists]. apply list_find_Some in Ef as (Ei & _ & _).
    rewrite Forall_lookup in Hc. destruct (Hc _ _ Ei argv w) as (w' & r & ->). by do 2 eexists. }
  cbn [mbind res_bind]. do 3 eexists. split; [done|]. by rewrite <- Eb.
Qed.

(** Sixty characters without an end. *)
Lemma shell_round_safe_witness :
  exists w b' rc', shell_round [echo] 200 [] (replicate 50 1) 0 (MkTerm (replicate 60 97) []) = Ok (w, (b', rc')) /\ Zlen b' = 50.
Proof.
  apply (shell_round_safe [echo]); [|by vm_compute|cbn; lia]. repeat constructor. intros argv w. by do 2 eexists.
Defined.

Definition plain (c : Z) : Prop := 0 < c < 256 /\ c <> 8 /\ c <> 127 /\ c <> 13 /\ c <> 10.
Lemma edit_plain n l r : Forall plain l -> forall acc, 0 < Zlen acc + Zlen l < n -> edit n acc (l ++ 10 :: r) = (acc ++ l, r).
Proof.
  induction 1 as [|c l (Hc & H8 & H127 & H13 & H10) _ IH]; intros acc Hn; cbn [app edit].
  - change (Zlen (@nil Z)) with 0 in Hn. rewrite !(proj2 (Z.ltb_lt _ _)) by lia. cbn. by rewrite app_nil_r.
  - pose proof (Zlen_nonneg l). rewrite Zlen_cons in Hn. rewrite (proj2 (Z.ltb_lt _ _)) by lia.
    rewrite (proj2 (Z.eqb_neq c 8)), (proj2 (Z.eqb_neq c 127)), (proj2 (Z.eqb_neq c 13)), (proj2 (Z.eqb_neq c 10)) by done. cbn [orb andb].
    rewrite wrap_small by (pow2_norm; lia). rewrite IH by (rewrite Zlen_app; change (Zlen [c]) with 1; lia). by rewrite <- app_assoc.
Qed.

(** A line of fewer than 48 plain characters that is typed and ended is
    what the command runs with: one round prints the prompt, reads exactly
    the line, and does what the line says. *)
Theorem shell_runs_typed_line (cmds : list (shell_command terminal)) (fuel : nat) (prompt b l r : list Z) (rc : Z) (out : list (string * list printed)) :
  Zlen b = SHELL_MAXSIZE -> (length l + length r + 49 < fuel)%nat -> Forall plain l -> 0 < Zlen l < 48 ->
  exists b', shell_round cmds fuel prompt b rc (MkTerm (l ++ 10 :: r) out) =
    ('(w, rc) ← run_outcome cmds (outcome rc (scan None [] l)) (MkTerm r (out ++ [("[%d]%s# "%string, [Int rc; Str prompt])])); Ok (w, (b', rc))).
Proof.
  intros Hb Hf Hl Hn. destruct (shell_round_eq cmds fuel prompt b rc (l ++ 10 :: r) out Hb) as (b' & E & Hb' & z & Eb & _).
  { rewrite length_app. cbn [length]. lia. }
  rewrite (edit_plain 48 l r Hl []) in E, Eb by done. cbn [app fst snd] in *. exists b'. rewrite E. destruct z as [|y z].
  { rewrite Eb, Zlen_app in Hb'. change (Zlen [0]) with 1 in Hb'. unfold SHELL_MAXSIZE in *. lia. }
  rewrite Eb at 1. rewrite shell_execute_eq; [done|]. eapply Forall_impl; [exact Hl|]. intros c [? _]. lia.
Qed.

Lemma shell_runs_typed_line_witness :
  exists b', shell_round [echo] 200 [36] (replicate 50 1) 0 (MkTerm ([101; 99; 104; 111; 32; 97] ++ 10 :: [98]) []) =
    Ok (MkTerm [98] [("[%d]%s# "%string, [Int 0; Str [36]]); ("echo"%string, [Str [101; 99; 104; 111]; Str [97]])], (b', 2)).
Proof.
  destruct (shell_runs_typed_line [echo] 200 [36] (replicate 50 1) [101; 99; 104; 111; 32; 97] [98] 0 []) as [b' E];
    [done|cbn; lia|repeat constructor; lia|done|].
  exists b'. rewrite E. by vm_compute.
Defined.
