(* ===== verification/AtCmd.v ===== *)
(** The AT command client of src/src/atcmd/atcmd.c: the receiver that sorts
    the bytes of a modem into reply lines and data frames, and the commands
    that send a line and wait for its reply. The receiver runs while a
    command waits or sleeps. *)
From Stdlib Require Import String Ascii.
From S2P Require Import Prelude Bus Ringbuffer.

(** ** Strings and numbers *)
Definition str (s : string) : list Z := map (fun c => Z.of_N (N_of_ascii c)) (list_ascii_of_string s).
(** A string literal as the array it is. *)
Definition lit (s : string) : list Z := str s ++ [0].

Fixpoint dec_digits (fuel : nat) (n : Z) : list Z :=
  match fuel with
  | O => []
  | S fuel => (if n <? 10 then [] else dec_digits fuel (n / 10)) ++ [48 + n mod 10]
  end.
(** [%d] of a number that is not negative. *)
Definition dec (n : Z) : list Z := dec_digits 10 n.

Definition cstrlen (b : list Z) (p : Z) : res Z :=
  if (0 <=? p) && (p <=? Zlen b) then strlen (drop (Z.to_nat p) b) else Err OutOfBounds.
Fixpoint strcmp_loop (fuel : nat) (a b : list Z) (p q : Z) : res Z :=
  match fuel with
  | O => Err NoFuel
  | S fuel =>
    x ← bget a p; y ← bget b q;
    if negb (x =? y) then Ok (x - y) else if x =? 0 then Ok 0 else strcmp_loop fuel a b (p + 1) (q + 1)
  end.
Definition strcmp (a b : list Z) : res Z := strcmp_loop (S (length a)) a b 0 0.
Fixpoint find_char (l : list Z) (p c : Z) : res (option Z) :=
  match l with
  | [] => Err OutOfBounds
  | x :: l => if x =? c then Ok (Some p) else if x =? 0 then Ok None else find_char l (p + 1) c
  end.
Definition strchr (b : list Z) (p c : Z) : res (option Z) :=
  if (0 <=? p) && (p <=? Zlen b) then find_char (drop (Z.to_nat p) b) p c else Err OutOfBounds.

(** [strtol] with a 32-bit [long]: the number, which saturates, and where it
    ends; without digits 0 and the start. *)
Definition is_space (c : Z) : bool := (c =? 32) || ((9 <=? c) && (c <=? 13)).
Definition digit (base c : Z) : option Z :=
  let d := if (48 <=? c) && (c <=? 57) then c - 48
           else if (97 <=? c) && (c <=? 122) then c - 87
           else if (65 <=? c) && (c <=? 90) then c - 55 else 99 in
  if d <? base then Some d else None.
Fixpoint spaces (fuel : nat) (b : list Z) (p : Z) : res Z :=
  match fuel with
  | O => Err NoFuel
  | S fuel => c ← bget b p; if is_space c then spaces fuel b (p + 1) else Ok p
  end.
Fixpoint digits (fuel : nat) (base : Z) (b : list Z) (p n : Z) : res (Z * Z) :=
  match fuel with
  | O => Err NoFuel
  | S fuel =>
    c ← bget b p;
    match digit base c with Some d => digits fuel base b (p + 1) (n * base + d) | None => Ok (n, p) end
  end.
Definition saturate (n : Z) : Z := Z.max (-2147483648) (Z.min 2147483647 n).
Definition strtol (b : list Z) (start base : Z) : res (Z * Z) :=
  let fuel := S (length b) in
  p ← spaces fuel b start;
  c ← bget b p;
  let p1 := if (c =? 45) || (c =? 43) then p + 1 else p in
  z ← bget b p1;
  x ← (if (base =? 16) && (z =? 48) then bget b (p1 + 1) else Ok 0);
  h ← (if (x =? 120) || (x =? 88) then c ← bget b (p1 + 2); Ok (bool_decide (is_Some (digit 16 c))) else Ok false);
  let p2 := if (h : bool) then p1 + 2 else p1 in
  '(n, q) ← digits fuel base b p2 0;
  if q =? p2 then Ok (0, start) else Ok (saturate (if c =? 45 then - n else n), q).
Definition atoi (b : list Z) (p : Z) : res Z := '(n, _) ← strtol b p 10; Ok n.

(** ** State *)
Inductive recv_state := serial_recv_serial_default | serial_recv_ipd_length | serial_recv_ipd_content.
#[export] Instance recv_state_eq_dec : EqDecision recv_state.
Proof. solve_decision. Defined.

(** [struct atcmd]; the semaphore and [serial_send] belong to the world. *)
Record atcmd := MkAt {
  auto_prefix : list Z;
  auto_prefix_index : Z;
  ipd_length : Z;
  ipd_recv_index : Z;
  ipd_rb : ringbuffer;
  rb : ringbuffer;
  time_to_default : Z;
  serial_recv : recv_state
}.
Definition set_prefix (p : list Z) (i : Z) (a : atcmd) : atcmd :=
  MkAt p i (ipd_length a) (ipd_recv_index a) (ipd_rb a) (rb a) (time_to_default a) (serial_recv a).
Definition set_ipd (n i : Z) (a : atcmd) : atcmd :=
  MkAt (auto_prefix a) (auto_prefix_index a) n i (ipd_rb a) (rb a) (time_to_default a) (serial_recv a).
Definition set_ipd_rb (r : ringbuffer) (a : atcmd) : atcmd :=
  MkAt (auto_prefix a) (auto_prefix_index a) (ipd_length a) (ipd_recv_index a) r (rb a) (time_to_default a) (serial_recv a).
Definition set_rb (r : ringbuffer) (a : atcmd) : atcmd :=
  MkAt (auto_prefix a) (auto_prefix_index a) (ipd_length a) (ipd_recv_index a) (ipd_rb a) r (time_to_default a) (serial_recv a).
Definition set_due (t : Z) (a : atcmd) : atcmd :=
  MkAt (auto_prefix a) (auto_prefix_index a) (ipd_length a) (ipd_recv_index a) (ipd_rb a) (rb a) t (serial_recv a).
Definition set_recv (r : recv_state) (a : atcmd) : atcmd :=
  MkAt (auto_prefix a) (auto_prefix_index a) (ipd_length a) (ipd_recv_index a) (ipd_rb a) (rb a) (time_to_default a) r.

(** The platform: clock, semaphore and serial port. *)
Class Serial (W : Type) := {
  os_get_time : M W Z;
  os_post_sem : M W unit;
  os_clear_sem : M W unit;
  serial_send : list Z -> M W unit
}.

Section receive.
  Context {W : Type} `{Serial W}.
Definition A : Type := atcmd * W.

(** ** Receiving *)
Definition put_reply (b : Z) : M A unit :=
  a ← self; '(r, _) ← pure (rb_put (rb a) b 1); update (set_rb r).
Definition recv_ipd_content (b : Z) : M A unit :=
  a ← self;
  '(r, _) ← pure (rb_put (ipd_rb a) b 1);
  _ ← update (set_ipd_rb r);
  t ← lift os_get_time;
  _ ← update (set_due (u32 (t + 20)));
  _ ← update (fun a => set_ipd (ipd_length a) (u16 (ipd_recv_index a + 1)) a);
  a ← self;
  if ipd_length a <=? ipd_recv_index a then update (set_recv serial_recv_serial_default) else mret tt.
Definition recv_ipd_length (b : Z) : M A unit :=
  if b =? 58 then
    _ ← update (fun a => set_ipd (ipd_length a) 0 a);
    t ← lift os_get_time;
    _ ← update (set_due (u32 (t + 20)));
    update (set_recv serial_recv_ipd_content)
  else if (48 <=? b) && (b <=? 57) then
    _ ← update (fun a => set_ipd (u16 (ipd_length a * 10)) (ipd_recv_index a) a);
    update (fun a => set_ipd (u16 (ipd_length a + (b - 48))) (ipd_recv_index a) a)
  else mret tt.
Definition recv_serial_default (b : Z) : M A unit :=
  if b =? 10 then
    _ ← update (fun a => set_prefix (auto_prefix a) 0 a);
    _ ← put_reply 0;
    lift os_post_sem
  else if negb (b =? 13) then
    a ← self;
    _ ← (if auto_prefix_index a <? 5 then
           p ← pure (bset (auto_prefix a) (auto_prefix_index a) b);
           update (set_prefix p (u8 (auto_prefix_index a + 1)))
         else mret tt);
    a ← self;
    if (auto_prefix_index a =? 3) && bool_decide (take 3 (auto_prefix a) = str "IPD") then
      _ ← update (fun a => set_rb (rb_clear (rb a)) a);
      _ ← update (set_recv serial_recv_ipd_length);
      _ ← update (fun a => set_ipd 0 (ipd_recv_index a) a);
      _ ← update (fun a => set_prefix (auto_prefix a) 0 a);
      t ← lift os_get_time;
      update (set_due (u32 (t + 50)))
    else put_reply b
  else mret tt.
(** The function is declared to return a byte and returns none. *)
Definition atcmd_recv_serial_byte (b : Z) : M A unit :=
  a ← self;
  _ ← (if negb (bool_decide (serial_recv a = serial_recv_serial_default)) then
         t ← lift os_get_time;
         if time_to_default a <=? t then update (set_recv serial_recv_serial_default) else mret tt
       else mret tt);
  a ← self;
  match serial_recv a with
  | serial_recv_serial_default => recv_serial_default b
  | serial_recv_ipd_length => recv_ipd_length b
  | serial_recv_ipd_content => recv_ipd_content b
  end.
End receive.
Arguments A : clear implicits.

(** [atcmd_init]; the fields it does not set keep their values. *)
Definition atcmd_init (recv_buffer : list Z) (recv_len : Z) (ipd_buffer : list Z) (ipd_len : Z) (a : atcmd) : atcmd :=
  MkAt (auto_prefix a) 0 (ipd_length a) (ipd_recv_index a) (ringbuffer_init ipd_buffer (u8 ipd_len)) (ringbuffer_init recv_buffer (u8 recv_len))
    (time_to_default a) serial_recv_serial_default.

(** ** Commands

    [expect] and [recv_buff] may be null. *)
Record atcmd_expect := MkExp { expect : option (list Z); recv_buff : ptr; buff_size : Z }.

(** The waits of the platform: meanwhile bytes are received. *)
Class Waiting (W : Type) := {
  os_pend_sem : Z -> M (A W) Z;
  os_sleep : Z -> M (A W) unit
}.

Section commands.
  Context {W : Type} `{Serial W} `{Waiting W} (fuel : nat).
  (** What an array of [n] characters holds before it is written to. *)
  Context (junk : Z -> list Z).
Notation A := (A W).
Notation now := (lift os_get_time).

Definition send_string (s : list Z) : M A unit := n ← pure (cstrlen s 0); lift (serial_send (take (Z.to_nat n) s)).
Definition send_byte (b : Z) : M A unit := lift (serial_send [b]).
Definition send_bytes (s : list Z) (size : Z) : M A unit := l ← pure (read_bytes s 0 size); lift (serial_send l).
Definition clear_recv_buffer : M A unit :=
  _ ← update (fun a => set_rb (rb_clear (rb a)) a); lift os_clear_sem.

(** The result and the receive buffer. *)
Fixpoint expect_loop (rounds : nat) (e : atcmd_expect) (t end_ : Z) : M A (Z * ptr) :=
  match rounds with
  | O => pure (Err NoFuel)
  | S rounds =>
    if t <? end_ then
      got ← os_pend_sem (u32 (end_ - t));
      if got =? 0 then mret (0, recv_buff e) else
      a ← self;
      '(r, (buf, (_, rc))) ← pure (rb_read_string_and_is_with_prefix (rb a) (expect e) (recv_buff e) (Some (buff_size e)));
      _ ← update (set_rb r);
      if ctrue rc then mret (1, buf) else
      t ← now; expect_loop rounds (MkExp (expect e) buf (buff_size e)) t end_
    else mret (0, recv_buff e)
  end.
Definition do_expect (e : atcmd_expect) (ms : Z) : M A (Z * ptr) := t ← now; expect_loop fuel e t (u32 (t + ms)).

Definition atcmd_exec_command (cmd : option (list Z)) (e : option atcmd_expect) (ms : Z) : M A (Z * ptr) :=
  _ ← match cmd with
      | Some cmd =>
        _ ← clear_recv_buffer;
        _ ← send_string cmd;
        c ← pure (bget cmd 0);
        if negb (c =? 0) then send_byte 13 else mret tt
      | None => mret tt
      end;
  match e with
  | Some (MkExp (Some p) buf size) => do_expect (MkExp (Some p) buf size) ms
  | Some (MkExp None buf _) => _ ← os_sleep ms; mret (1, buf)
  | None => _ ← os_sleep ms; mret (1, None)
  end.
Definition exec (cmd : option (list Z)) (e : option atcmd_expect) (ms : Z) : M A bool :=
  '(rc, _) ← atcmd_exec_command cmd e ms; mret (ctrue rc).

Fixpoint atcmd_retry_until_reply (cmd : option (list Z)) (reply : option (list Z)) (ms : Z) (times : nat) : M A Z :=
  match times with
  | O => mret 0
  | S times =>
    ok ← exec cmd (Some (MkExp reply None 0)) ms;
    if (ok : bool) then mret 1 else atcmd_retry_until_reply cmd reply ms times
  end.

(** The contents of the array behind a buffer. *)
Definition object (p : ptr) : list Z := match p with Some (b, _) => b | None => [] end.
Fixpoint any_prefix (buf : list Z) (replys : list (list Z)) : res bool :=
  match replys with
  | [] => Ok false
  | r :: replys =>
    n ← cstrlen r 0;
    x ← read_bytes buf 0 n;
    y ← read_bytes r 0 n;
    if bool_decide (x = y) then Ok true else any_prefix buf replys
  end.
Fixpoint replys_loop (rounds : nat) (buf : list Z) (replys : list (list Z)) (t end_ : Z) : M A (bool * list Z) :=
  match rounds with
  | O => pure (Err NoFuel)
  | S rounds =>
    if t <? end_ then
      '(rc, p) ← atcmd_exec_command None (Some (MkExp (Some (lit "")) (Some (buf, 0)) 24)) (u32 (end_ - t));
      let buf := object p in
      found ← (if ctrue rc then pure (any_prefix buf replys) else mret false);
      if (found : bool) then mret (true, buf) else
      t ← now; replys_loop rounds buf replys t end_
    else mret (false, buf)
  end.
Fixpoint retry_replys (cmd : option (list Z)) (buf : list Z) (replys : list (list Z)) (ms : Z) (times : nat) : M A Z :=
  match times with
  | O => mret 0
  | S times =>
    t ← now;
    let end_ := u32 (t + ms) in
    _ ← atcmd_exec_command cmd None 0;
    t ← now;
    '(found, buf) ← replys_loop fuel buf replys t end_;
    if (found : bool) then mret 1 else retry_replys cmd buf replys ms times
  end.
Definition atcmd_retry_until_replys (cmd : option (list Z)) (replys : list (list Z)) (ms : Z) (times : nat) : M A Z :=
  retry_replys cmd (junk 24) replys ms times.

Definition strlen_ptr (p : ptr) : res Z := match p with Some (b, o) => cstrlen b o | None => Err NullDeref end.
(** [atcmd_get_ccid] and [atcmd_get_imei]: the result and the buffer. *)
Fixpoint ccid_loop (rounds : nat) (buf : ptr) (len t end_ : Z) : M A (Z * ptr) :=
  match rounds with
  | O => pure (Err NoFuel)
  | S rounds =>
    if t <? end_ then
      '(rc, p) ← atcmd_exec_command None (Some (MkExp (Some (lit "")) buf len)) (u32 (end_ - t));
      n ← (if ctrue rc then pure (strlen_ptr p) else mret 0);
      if (18 <? n) && (n <=? 21) then mret (1, p) else
      t ← now; ccid_loop rounds p len t end_
    else mret (0, buf)
  end.
Definition atcmd_get_ccid (buf : ptr) (len : Z) : M A (Z * ptr) :=
  t ← now;
  _ ← atcmd_exec_command (Some (lit "AT+QCCID")) None 0;
  ccid_loop fuel buf len t (u32 (t + 1000)).
Definition memset0 (p : ptr) (len : Z) : res ptr :=
  match p with
  | Some (b, o) =>
    if (0 <=? o) && (o + len <=? Zlen b) then Ok (Some (overwrite b o (replicate (Z.to_nat len) 0), o)) else Err OutOfBounds
  | None => if len =? 0 then Ok None else Err NullDeref
  end.
Fixpoint imei_loop (rounds : nat) (buf : ptr) (len t end_ : Z) : M A (Z * ptr) :=
  match rounds with
  | O => pure (Err NoFuel)
  | S rounds =>
    if t <? end_ then
      buf ← pure (memset0 buf len);
      '(rc, p) ← atcmd_exec_command None (Some (MkExp (Some (lit "")) buf len)) (u32 (end_ - t));
      n ← (if ctrue rc then pure (strlen_ptr p) else mret 0);
      if (12 <? n) && (n <? 30) then mret (1, p) else
      t ← now; imei_loop rounds p len t end_
    else mret (0, buf)
  end.
Definition atcmd_get_imei (buf : ptr) (len : Z) : M A (Z * ptr) :=
  t ← now;
  _ ← atcmd_exec_command (Some (lit "AT+GSN")) None 0;
  imei_loop fuel buf len t (u32 (t + 1000)).

Definition ip_segment (s : list Z) (p stop : Z) : res (option Z) :=
  '(n, q) ← strtol s p 10;
  c ← bget s q;
  Ok (if (n <? 0) || (255 <? n) || negb (c =? stop) then None else Some q).
Definition is_ip_string (s : option (list Z)) : res Z :=
  match s with
  | None => Ok 0
  | Some s =>
    q ← ip_segment s 0 46;
    match q with None => Ok 0 | Some q =>
    q ← ip_segment s (q + 1) 46;
    match q with None => Ok 0 | Some q =>
    q ← ip_segment s (q + 1) 46;
    match q with None => Ok 0 | Some q =>
    q ← ip_segment s (q + 1) 0;
    match q with None => Ok 0 | Some _ => Ok 1 end end end end
  end.

Definition quote : Z := 34.
Definition atcmd_connect_tcp (addr : option (list Z)) (port : Z) : M A Z :=
  ip ← pure (is_ip_string addr);
  ok ← atcmd_retry_until_reply (Some (if ctrue ip then lit "AT+QIDNSIP=0" else lit "AT+QIDNSIP=1")) (Some (lit "OK")) 1000 5;
  if negb (ctrue ok) then mret 0 else
  match addr with
  | Some addr =>
    if port =? 0 then mret 0 else
    _ ← send_string (str "AT+QIOPEN=" ++ [quote] ++ str "TCP" ++ [quote] ++ str "," ++ [quote; 0]);
    _ ← send_string addr;
    let line := overwrite (junk 48) 0 ([quote] ++ str "," ++ [quote] ++ dec port ++ [quote; 0]) in
    '(rc, p) ← atcmd_exec_command (Some line) (Some (MkExp (Some (lit "")) (Some (line, 0)) 48)) 1000;
    if negb (ctrue rc) then mret 0 else
    d ← pure (strcmp (object p) (lit "ALREADY CONNECT"));
    if d =? 0 then mret 1 else
    d ← pure (strcmp (object p) (lit "OK"));
    if negb (d =? 0) then mret 0 else
    '(rc, p) ← atcmd_exec_command None (Some (MkExp (Some (lit "CONNECT")) (Some (object p, 0)) 48)) 100000;
    if negb (ctrue rc) then mret 0 else
    d ← pure (strcmp (object p) (lit "CONNECT OK"));
    mret (if d =? 0 then 1 else 0)
  | None => mret 0
  end.
Definition atcmd_disconnect_tcp : M A Z :=
  ok ← exec (Some (lit "AT+QICLOSE")) (Some (MkExp (Some (lit "CLOSE OK")) None 0)) 1000;
  mret (if (ok : bool) then 1 else 0).

(** The number of bytes read and the buffer. *)
Fixpoint recv_tcp_loop (rounds : nat) (buff : ptr) (len read end_ : Z) : M A (Z * ptr) :=
  match rounds with
  | O => pure (Err NoFuel)
  | S rounds =>
    a ← self;
    '(r, (q, n)) ← pure (rb_try_read (ipd_rb a) (ptr_add buff read) (u16 (len - read)));
    _ ← update (set_ipd_rb r);
    let buff := rebase buff q in
    let read := u16 (read + n) in
    if len <=? read then mret (read, buff) else
    t ← now;
    if end_ <=? t then mret (read, buff) else
    _ ← os_sleep 10; recv_tcp_loop rounds buff len read end_
  end.
Definition atcmd_recv_tcp (buff : ptr) (len timeout_ms : Z) : M A (Z * ptr) :=
  t ← now; recv_tcp_loop fuel buff len 0 (u32 (t + timeout_ms)).

(** Waiting for the reply to sent data: [None] when the time is over. *)
Fixpoint sent_loop (rounds : nat) (buf : list Z) (end_ : Z) : M A (option Z * list Z) :=
  match rounds with
  | O => pure (Err NoFuel)
  | S rounds =>
    t ← now;
    if t <? end_ then
      '(rc, p) ← atcmd_exec_command None (Some (MkExp (Some (lit "")) (Some (buf, 0)) 20)) (u32 (end_ - t));
      let buf := object p in
      if negb (ctrue rc) then mret (Some 0, buf) else
      d ← pure (strcmp (lit "SEND OK") buf);
      if d =? 0 then mret (Some 1, buf) else
      d ← pure (strcmp (lit "SEND FAIL") buf);
      if d =? 0 then mret (Some 0, buf) else
      d ← pure (strcmp (lit "ERROR") buf);
      if d =? 0 then mret (Some 0, buf) else sent_loop rounds buf end_
    else mret (None, buf)
  end.
(** [AT+QISEND=] with the length. *)
Definition qisend (buf : list Z) (len : Z) : list Z := overwrite buf 0 (str "AT+QISEND=" ++ dec len ++ [0]).
Definition atcmd_send_tcp (dat : option (list Z)) (len timeout_ms : Z) : M A Z :=
  match dat with
  | None => mret 0
  | Some dat =>
    if len <=? 0 then mret 0 else
    t ← now;
    let end_ := u32 (t + timeout_ms) in
    let buf := qisend (junk 20) len in
    _ ← clear_recv_buffer;
    _ ← atcmd_exec_command (Some buf) None 250;
    _ ← send_bytes dat len;
    '(r, _) ← sent_loop fuel buf end_;
    mret (default 1 r)
  end.

(** Asking the callback for data until it has no more: the buffer and how
    much is missing. *)
  Context (cb_get : list Z -> Z -> M W (list Z * Z)).
Fixpoint get_loop (rounds : nat) (buf : list Z) (this_len : Z) : M A (list Z * Z) :=
  match rounds with
  | O => pure (Err NoFuel)
  | S rounds =>
    '(buf, i) ← lift (cb_get buf (if 20 <? this_len then 20 else this_len));
    if i =? 0 then mret (buf, this_len) else
    _ ← send_bytes buf i;
    let this_len := u16 (this_len - i) in
    if 0 <? this_len then get_loop rounds buf this_len else mret (buf, this_len)
  end.
Fixpoint pad_loop (n : nat) : M A unit :=
  match n with O => mret tt | S n => _ ← send_byte 0; pad_loop n end.
Fixpoint send_cb_loop (rounds : nat) (buf : list Z) (sent total_len : Z) : M A Z :=
  match rounds with
  | O => pure (Err NoFuel)
  | S rounds =>
    if sent <? total_len then
      let this_len := u16 (total_len - sent) in
      let this_len := if 1320 <? this_len then 1320 else this_len in
      let sent := u16 (sent + this_len) in
      let buf := qisend buf this_len in
      _ ← clear_recv_buffer;
      _ ← atcmd_exec_command (Some buf) None 250;
      '(buf, missing) ← get_loop fuel buf this_len;
      _ ← pad_loop (Z.to_nat missing);
      t ← now;
      '(r, buf) ← sent_loop fuel buf (u32 (t + 1000));
      if bool_decide (r = Some 0) then mret 0 else send_cb_loop rounds buf sent total_len
    else mret 1
  end.
Definition atcmd_send_tcp_cb (total_len : Z) : M A Z :=
  if total_len <=? 0 then mret 0 else send_cb_loop fuel (junk 20) 0 total_len.

(** ** Replies with numbers *)
Fixpoint skip_blanks (rounds : nat) (s : list Z) (p : Z) : res Z :=
  match rounds with
  | O => Err NoFuel
  | S rounds => c ← bget s p; if (c =? 32) || (c =? 9) then skip_blanks rounds s (p + 1) else Ok p
  end.
Definition atoi_skip_bank_prefix (s : list Z) (p : Z) : res Z := p ← skip_blanks (S (length s)) s p; atoi s p.

(** What the reply says: [None] for a format error. *)
Definition parse_csq (line : list Z) : res (option (Z * Z)) :=
  n ← atoi_skip_bank_prefix line 5;
  let this_rssi := u8 n in
  if (31 <? this_rssi) && negb (this_rssi =? 99) then Ok None else
  p ← strchr line 6 44;
  match p with
  | None => Ok None
  | Some p =>
    n ← atoi_skip_bank_prefix line (p + 1);
    let this_ber := u8 n in
    if (7 <? this_ber) && negb (this_ber =? 99) then Ok None else Ok (Some (this_rssi, this_ber))
  end.
Definition atcmd_get_signal_quality : M A (option (Z * Z)) :=
  '(rc, p) ← atcmd_exec_command (Some (lit "AT+CSQ")) (Some (MkExp (Some (lit "+CSQ:")) (Some (junk 20, 0)) 20)) 500;
  if negb (ctrue rc) then mret None else pure (parse_csq (object p)).

Definition parse_qisack (line : list Z) : res (option (Z * Z * Z)) :=
  this_sent ← atoi_skip_bank_prefix line 8;
  if this_sent =? -1 then Ok None else
  p ← strchr line 8 44;
  match p with None => Ok None | Some p =>
  this_acked ← atoi_skip_bank_prefix line (p + 1);
  if this_acked =? -1 then Ok None else
  p ← strchr line (p + 1) 44;
  match p with None => Ok None | Some p =>
  this_unacked ← atoi_skip_bank_prefix line (p + 1);
  if this_unacked =? -1 then Ok None else Ok (Some (this_sent, this_acked, this_unacked)) end end.
Definition atcmd_get_data_sent_info : M A (option (Z * Z * Z)) :=
  '(rc, p) ← atcmd_exec_command (Some (lit "AT+QISACK")) (Some (MkExp (Some (lit "+QISACK:")) (Some (junk 48, 0)) 48)) 1000;
  if negb (ctrue rc) then mret None else pure (parse_qisack (object p)).

(** The operator's name is copied to the start of the buffer; [len] is
    tested and never counted down. *)
Fixpoint copy_loop (rounds : nat) (buf : list Z) (dst ops len : Z) : res (list Z) :=
  match rounds with
  | O => Err NoFuel
  | S rounds =>
    c ← bget buf ops;
    if negb (c =? 0) && negb (c =? 34) && (1 <? len) then
      buf ← bset buf dst c; copy_loop rounds buf (dst + 1) (ops + 1) len
    else bset buf dst 0
  end.
Definition parse_cops (buf : list Z) (len : Z) : res (option (list Z)) :=
  ops ← strchr buf 0 34;
  match ops with
  | None => Ok None
  | Some ops => b ← copy_loop (S (length buf)) buf 0 (ops + 1) len; Ok (Some b)
  end.
Definition atcmd_get_ops (buf : list Z) (len : Z) : M A (option (list Z)) :=
  '(rc, p) ← atcmd_exec_command (Some (lit "AT+COPS?")) (Some (MkExp (Some (lit "+COPS:")) (Some (buf, 0)) len)) 1000;
  if negb (ctrue rc) then mret None else pure (parse_cops (object p) len).

(** The result and the two numbers; the first one stays stored when the
    second is missing. *)
Definition parse_creg (buf : list Z) (lac ci : Z) : res (Z * Z * Z) :=
  ops ← strchr buf 0 34;
  match ops with None => Ok (0, lac, ci) | Some ops =>
  '(n, q) ← strtol buf (ops + 1) 16;
  let lac := u16 n in
  c ← bget buf q;
  if negb (c =? 34) then Ok (0, lac, ci) else
  ops ← strchr buf (q + 1) 34;
  match ops with None => Ok (0, lac, ci) | Some ops =>
  '(n, q) ← strtol buf (ops + 1) 16;
  let ci := u16 n in
  c ← bget buf q;
  if negb (c =? 34) then Ok (0, lac, ci) else Ok (1, lac, ci) end end.
Definition atcmd_get_lacci (lac_ci : option (Z * Z)) : M A (Z * Z * Z) :=
  match lac_ci with
  | None => mret (0, 0, 0)
  | Some (lac, ci) =>
    '(rc, p) ← atcmd_exec_command (Some (lit "AT+CREG?")) (Some (MkExp (Some (lit "+CREG:")) (Some (junk 28, 0)) 28)) 1000;
    if negb (ctrue rc) then mret (0, lac, ci) else pure (parse_creg (object p) lac ci)
  end.
End commands.
