(* ===== verification/AtModem.v ===== *)
(** The AT command client of AtCmd.v with a modem behind its serial port: the
    receiver is safe for every stream and sorts lines and frames; a command
    gets the reply it waits for; replies with numbers are understood. *)
From Stdlib Require Import String Ascii.
From S2P Require Import Prelude Bus Ringbuffer AtCmd.

(** ** The modem

    [m_in] are the bytes that will arrive, each with its time. *)
Record modem := MkModem { m_time : Z; m_sem : Z; m_in : list (Z * Z); m_out : list Z }.
Definition at_time (t : Z) (w : modem) : modem := MkModem t (m_sem w) (m_in w) (m_out w).
#[export] Instance modem_serial : Serial modem := {|
  os_get_time := fun w => Ok (w, m_time w);
  os_post_sem := fun w => Ok (MkModem (m_time w) (m_sem w + 1) (m_in w) (m_out w), tt);
  os_clear_sem := fun w => Ok (MkModem (m_time w) 0 (m_in w) (m_out w), tt);
  serial_send := fun l w => Ok (MkModem (m_time w) (m_sem w) (m_in w) (m_out w ++ l), tt)
|}.
Notation A := (A modem).
Definition set_in (l : list (Z * Z)) (s : A) : A := (s.1, MkModem (m_time s.2) (m_sem s.2) l (m_out s.2)).
Definition set_time (t : Z) (s : A) : A := (s.1, at_time t s.2).
(** A byte arrives: the clock does not go back. *)
Definition arrive (t b : Z) (s : A) : res A :=
  '(s, _) ← atcmd_recv_serial_byte b (set_time (Z.max t (m_time s.2)) s); Ok s.
Fixpoint pend (l : list (Z * Z)) (deadline : Z) (s : A) : res (A * Z) :=
  if 0 <? m_sem s.2 then Ok (set_in l (s.1, MkModem (m_time s.2) (m_sem s.2 - 1) [] (m_out s.2)), 1) else
  match l with
  | (t, b) :: l' =>
    if t <=? deadline then s ← arrive t b s; pend l' deadline s else Ok (set_in l (set_time deadline s), 0)
  | [] => Ok (set_in [] (set_time deadline s), 0)
  end.
Fixpoint nap (l : list (Z * Z)) (deadline : Z) (s : A) : res (A * unit) :=
  match l with
  | (t, b) :: l' =>
    if t <=? deadline then s ← arrive t b s; nap l' deadline s else Ok (set_in l (set_time deadline s), tt)
  | [] => Ok (set_in [] (set_time deadline s), tt)
  end.
#[export] Instance modem_waiting : Waiting modem := {|
  os_pend_sem := fun ms s => pend (m_in s.2) (m_time s.2 + ms) s;
  os_sleep := fun ms s => nap (m_in s.2) (m_time s.2 + ms) s
|}.

(** ** The receiver is safe *)
Record sound (a : atcmd) : Prop := {
  s_rb : wf (rb a);
  s_ipd : wf (ipd_rb a);
  s_prefix : Zlen (auto_prefix a) = 10 /\ 0 <= auto_prefix_index a <= 5
}.
Lemma put_wf r b : wf r -> exists r' k, rb_put r b 1 = Ok (r', k) /\ wf r' /\ rb_cap r' = rb_cap r.
Proof.
  intros W. destruct (rb_put_spec r (rb_cap r) (contents r) b 1) as (r' & E & (W' & Ec & _)); [done|by vm_compute|]. by exists r', (Z.min 1 (rb_cap r - Zlen (contents r))).
Qed.
Definition caps (a : atcmd) : Z * Z := (rb_cap (rb a), rb_cap (ipd_rb a)).

Section serial.
  Context {W : Type} `{Serial W}
    (Htime : forall w, exists t, os_get_time w = Ok (w, t)).
  (** What posting the semaphore preserves of the world is preserved. *)
  Context (P : W -> Prop) (Hpost : forall w, P w -> exists w', os_post_sem w = Ok (w', tt) /\ P w').

Lemma put_reply_sound b (s : AtCmd.A W) : sound s.1 -> exists s', put_reply b s = Ok (s', tt) /\ sound s'.1 /\ caps s'.1 = caps s.1 /\ s'.2 = s.2.
Proof.
  intros [Hr Hi Hp]. destruct (put_wf (rb s.1) b Hr) as (r' & k & E & W' & Ec). unfold put_reply.
  erewrite M_bind_Ok by reflexivity. rewrite (pure_bind_Ok _ _ _ _ E). eexists. split; [done|].
  split; [by split|]. split; [|done]. unfold caps. cbn. by rewrite Ec.
Qed.
Lemma recv_ipd_content_sound b (s : AtCmd.A W) : sound s.1 -> exists s', recv_ipd_content b s = Ok (s', tt) /\ sound s'.1 /\ caps s'.1 = caps s.1 /\ s'.2 = s.2.
Proof using Htime.
  intros [Hr Hi Hp]. destruct (put_wf (ipd_rb s.1) b Hi) as (r' & k & E & W' & Ec). unfold recv_ipd_content.
  erewrite M_bind_Ok by reflexivity. rewrite (pure_bind_Ok _ _ _ _ E). erewrite M_bind_Ok by reflexivity. cbn [fst snd].
  destruct (Htime s.2) as [t Et]. erewrite M_bind_Ok by (unfold lift; cbn [fst snd]; rewrite Et; reflexivity).
  erewrite M_bind_Ok by reflexivity. erewrite M_bind_Ok by reflexivity. erewrite M_bind_Ok by reflexivity. cbn [fst snd].
  destruct (_ <=? _); eexists; (split; [done|]); (split; [by split|]); (split; [|done]); unfold caps; cbn; by rewrite Ec.
Qed.
Lemma recv_ipd_length_sound b (s : AtCmd.A W) : sound s.1 -> exists s', recv_ipd_length b s = Ok (s', tt) /\ sound s'.1 /\ caps s'.1 = caps s.1 /\ s'.2 = s.2.
Proof using Htime.
  intros Hs. unfold recv_ipd_length. destruct (b =? 58).
  - erewrite M_bind_Ok by reflexivity. cbn [fst snd]. destruct (Htime s.2) as [t Et].
    erewrite M_bind_Ok by (unfold lift; cbn [fst snd]; rewrite Et; reflexivity). erewrite M_bind_Ok by reflexivity.
    eexists. split; [done|]. destruct Hs. by split; [split|].
  - destruct (_ && _); [erewrite M_bind_Ok by reflexivity|]; eexists; (split; [done|]); destruct Hs; by split; [split|].
Qed.
Lemma recv_serial_default_sound b (s : AtCmd.A W) : sound s.1 -> P s.2 -> exists s', recv_serial_default b s = Ok (s', tt) /\ sound s'.1 /\ caps s'.1 = caps s.1 /\ P s'.2.
Proof using Htime Hpost.
  intros Hs HP. unfold recv_serial_default. destruct (b =? 10).
  { erewrite M_bind_Ok by reflexivity. destruct (put_reply_sound 0 (set_prefix (auto_prefix s.1) 0 s.1, s.2)) as (s' & E & Hs' & Hc & E2).
    { destruct Hs. split; try done. cbn. lia. }
    rewrite (M_bind_Ok _ _ _ _ _ E). cbn [fst snd] in E2. destruct (Hpost s'.2) as (w' & Ew & HP'); [by rewrite E2|]. unfold lift. rewrite Ew. by eexists. }
  destruct (negb (b =? 13)); [|by eexists]. erewrite M_bind_Ok by reflexivity.
  destruct Hs as [Hr Hi [Hl Hx]].
  assert (exists s1, (if auto_prefix_index s.1 <? 5 then p ← pure (bset (auto_prefix s.1) (auto_prefix_index s.1) b);
      update (set_prefix p (u8 (auto_prefix_index s.1 + 1))) else mret tt) s = Ok (s1, tt) /\ sound s1.1 /\ caps s1.1 = caps s.1 /\ s1.2 = s.2) as (s1 & E1 & Hs1 & Hc1 & Ew1).
  { destruct (Z.ltb_spec (auto_prefix_index s.1) 5); [|by eexists].
    erewrite pure_bind_Ok by (apply bset_in; lia). eexists. split; [done|]. split; [|done].
    split; try done. cbn. rewrite Zlen_insert, wrap_small by (pow2_norm; lia). lia. }
  rewrite (M_bind_Ok _ _ _ _ _ E1). erewrite M_bind_Ok by reflexivity.
  destruct (_ && _).
  - erewrite M_bind_Ok by reflexivity. erewrite M_bind_Ok by reflexivity. erewrite M_bind_Ok by reflexivity. erewrite M_bind_Ok by reflexivity. cbn [fst snd].
    destruct (Htime s1.2) as [t Et]. erewrite M_bind_Ok by (unfold lift; cbn [fst snd]; rewrite Et; reflexivity).
    eexists. split; [done|]. destruct Hs1 as [W1 ? ?]. split; [|split; [by rewrite <- Hc1|cbn; by rewrite Ew1]]. split; try done; [|cbn; lia].
    destruct (rb_clear_spec (rb s1.1) (rb_cap (rb s1.1)) (contents (rb s1.1))) as [W' _]; [done|exact W'].
  - destruct (put_reply_sound b s1 Hs1) as (s' & E & Hs' & Hc & E2). exists s'. split; [done|]. split; [done|]. split; [congruence|]. by rewrite E2, Ew1.
Qed.

Lemma receiver_keeps (b : Z) (s : AtCmd.A W) : sound s.1 -> P s.2 ->
  exists s', atcmd_recv_serial_byte b s = Ok (s', tt) /\ sound s'.1 /\ caps s'.1 = caps s.1 /\ P s'.2.
Proof using Htime Hpost.
  intros Hs HP. unfold atcmd_recv_serial_byte. erewrite M_bind_Ok by reflexivity.
  assert (exists s1, (if negb (bool_decide (serial_recv s.1 = serial_recv_serial_default)) then t ← lift os_get_time;
      if time_to_default s.1 <=? t then update (set_recv serial_recv_serial_default) else mret tt else mret tt) s = Ok (s1, tt) /\
    sound s1.1 /\ caps s1.1 = caps s.1 /\ s1.2 = s.2) as (s1 & E1 & Hs1 & Hc1 & Ew).
  { destruct (negb _); [|by eexists]. destruct (Htime s.2) as [t Et]. erewrite M_bind_Ok by (unfold lift; cbn [fst snd]; rewrite Et; reflexivity).
    destruct (_ <=? _); eexists; (split; [done|]); [|done]. destruct Hs. by split; [split|]. }
  rewrite (M_bind_Ok _ _ _ _ _ E1). erewrite M_bind_Ok by reflexivity. rewrite <- Ew in HP. rewrite <- Hc1.
  destruct (serial_recv s1.1); [by apply recv_serial_default_sound|
    destruct (recv_ipd_length_sound b s1 Hs1) as (s' & E & Hs' & Hc & Es)|destruct (recv_ipd_content_sound b s1 Hs1) as (s' & E & Hs' & Hc & Es)];
    exists s'; by rewrite Es.
Qed.
End serial.

(** C26: Whatever byte arrives in whatever state of the receiver and at
    whatever time, it is taken without a fault, and the buffers stay well
    formed and of their size. *)
Theorem receiver_safe {W : Type} `{Serial W} (b : Z) (s : AtCmd.A W) :
  (forall w, exists t, os_get_time w = Ok (w, t)) -> (forall w, exists w', os_post_sem w = Ok (w', tt)) -> sound s.1 ->
  exists s', atcmd_recv_serial_byte b s = Ok (s', tt) /\ sound s'.1 /\ caps s'.1 = caps s.1.
Proof.
  intros Htime Hpost Hs. destruct (receiver_keeps Htime (fun _ => True)) with (b := b) (s := s) as (s' & E & Hs' & Hc & _); [|done|done|by exists s'].
  intros w _. destruct (Hpost w) as [w' Ew]. by exists w'.
Qed.

(** A client right after its initialisation. *)
Definition ex_atcmd : atcmd :=
  atcmd_init (replicate 64 0) 64 (replicate 32 0) 32 (MkAt (replicate 10 0) 0 0 0 (MkRb 0 0 0 0 []) (MkRb 0 0 0 0 []) 0 serial_recv_serial_default).
Lemma ex_sound : sound ex_atcmd.
Proof.
  split; [apply (ringbuffer_init_spec (replicate 64 0) 64); done|apply (ringbuffer_init_spec (replicate 32 0) 32); done|done].
Qed.
Lemma receiver_safe_witness :
  exists s', atcmd_recv_serial_byte 255 (set_recv serial_recv_ipd_content ex_atcmd, MkModem 5 0 [] []) = Ok (s', tt) /\ caps s'.1 = (64, 32).
Proof.
  destruct (receiver_safe (W := modem) 255 (set_recv serial_recv_ipd_content ex_atcmd, MkModem 5 0 [] [])) as (s' & E & _ & Hc);
    [by eexists|by eexists|destruct ex_sound; by split|].
  exists s'. split; [exact E|]. rewrite Hc. by vm_compute.
Defined.

(** ** Sleeping *)
Lemma arrive_keeps t b (s : A) : sound s.1 ->
  exists s', arrive t b s = Ok s' /\ sound s'.1 /\ caps s'.1 = caps s.1 /\ m_out s'.2 = m_out s.2 /\ m_time s'.2 = Z.max t (m_time s.2).
Proof.
  intros Hs. unfold arrive.
  destruct (receiver_keeps (W := modem) ltac:(by eexists) (fun w => m_out w = m_out s.2 /\ m_time w = Z.max t (m_time s.2))
    ltac:(intros w Hw; eexists; split; [done|exact Hw]) b (set_time (Z.max t (m_time s.2)) s) Hs ltac:(done)) as (s' & E & Hs' & Hc & Ho & Ht).
  rewrite E. by exists s'.
Qed.
Lemma nap_keeps l deadline : forall s : A, sound s.1 ->
  exists s', nap l deadline s = Ok (s', tt) /\ sound s'.1 /\ caps s'.1 = caps s.1 /\ m_out s'.2 = m_out s.2 /\ m_time s'.2 = deadline.
Proof.
  induction l as [|[t b] l IH]; intros s Hs; cbn [nap]; [by eexists|]. destruct (t <=? deadline); [|by eexists].
  destruct (arrive_keeps t b s Hs) as (s1 & -> & Hs1 & Hc1 & Ho1 & _). cbn [mbind res_bind].
  destruct (IH s1 Hs1) as (s' & E & Hs' & Hc & Ho & Ht). exists s'. split_and!; [done|done|congruence|congruence|done].
Qed.

(** ** Strings and numbers *)
Lemma str_nonzero s : forallb (fun c => negb (c =? 0)) (str s) = true -> Forall (fun c => c <> 0) (str s).
Proof. rewrite forallb_forall. intros Hx. apply Forall_forall. intros c Hc%list_elem_of_In. specialize (Hx c Hc). bool_to_prop. done. Qed.
Lemma dec_digits_range fuel : forall n, 0 <= n -> Forall (fun c => 48 <= c <= 57) (dec_digits fuel n).
Proof.
  induction fuel as [|fuel IH]; intros n Hn; [done|]. cbn. apply Forall_app. split.
  - destruct (n <? 10); [done|]. apply IH. apply Z.div_pos; lia.
  - repeat constructor; pose proof (Z.mod_pos_bound n 10); lia.
Qed.
Lemma dec_range n : 0 <= n -> Forall (fun c => 48 <= c <= 57) (dec n).
Proof. apply dec_digits_range. Qed.
Lemma dec_nonzero n : 0 <= n -> Forall (fun c => c <> 0) (dec n).
Proof. intros Hn. eapply Forall_impl; [by apply dec_range|]. cbn. lia. Qed.
(** The value of a sequence of digits, read from the left. *)
Definition value (base : Z) (l : list Z) (n : Z) : Z := foldl (fun n c => n * base + (c - 48)) n l.
Lemma value_dec_digits fuel : forall n, 0 <= n < 10 ^ Z.of_nat fuel -> value 10 (dec_digits fuel n) 0 = n.
Proof.
  induction fuel as [|fuel IH]; intros n Hn; [cbn in *; lia|]. cbn [dec_digits]. unfold value in *. rewrite foldl_app. cbn [foldl].
  pose proof (Z.div_mod n 10 ltac:(lia)). destruct (Z.ltb_spec n 10).
  - cbn. rewrite Z.mod_small by lia. lia.
  - rewrite IH; [lia|]. rewrite Nat2Z.inj_succ, Z.pow_succ_r in Hn by lia. split; [apply Z.div_pos; lia|]. apply Z.div_lt_upper_bound; lia.
Qed.
Lemma value_dec n : 0 <= n < 10000000000 -> value 10 (dec n) 0 = n.
Proof. apply (value_dec_digits 10). Qed.
Lemma dec_digits_nonempty fuel n : dec_digits (S fuel) n <> [].
Proof. cbn. by intros [_ ?]%app_nil. Qed.
Lemma Zlen_dec_digits fuel n k : 0 <= n < 10 ^ k -> 1 <= k -> Zlen (dec_digits fuel n) <= k.
Proof.
  revert n k. induction fuel as [|fuel IH]; intros n k Hn Hk; [change (0 <= k); lia|]. cbn [dec_digits]. rewrite Zlen_app. change (Zlen [48 + n mod 10]) with 1.
  destruct (Z.ltb_spec n 10); [change (Zlen (@nil Z)) with 0; lia|].
  assert (2 <= k) by (destruct (Z.eq_dec k 1) as [-> |]; [change (10 ^ 1) with 10 in Hn|]; lia).
  specialize (IH (n / 10) (k - 1)). assert (10 ^ k = 10 * 10 ^ (k - 1)) as E by (rewrite <- Z.pow_succ_r by lia; f_equal; lia).
  assert (0 <= n / 10 < 10 ^ (k - 1)) by (split; [apply Z.div_pos; lia|apply Z.div_lt_upper_bound; lia]). lia.
Qed.

(** ** Sending data *)
Lemma send_string_ok l z (s : A) : Forall (fun c => c <> 0) l ->
  send_string (l ++ 0 :: z) s = Ok ((s.1, MkModem (m_time s.2) (m_sem s.2) (m_in s.2) (m_out s.2 ++ l)), tt).
Proof.
  intros Hl. unfold send_string. erewrite pure_bind_Ok.
  2: { unfold cstrlen. change (Z.to_nat 0) with 0%nat. rewrite drop_0, strlen_eq by done.
    pose proof (Zlen_nonneg (l ++ 0 :: z)). rewrite !(proj2 (Z.leb_le _ _)) by lia. reflexivity. }
  rewrite Zlen_to_nat, take_app_length. done.
Qed.
(** The client after it cleared its receive buffer and sent a command. *)
Definition commanded (l : list Z) (s : A) : A :=
  (set_rb (rb_clear (rb s.1)) s.1, MkModem (m_time s.2) 0 (m_in s.2) (m_out s.2 ++ l)).
Lemma exec_sends fuel l z e ms (s : A) : Forall (fun c => c <> 0) l -> l <> [] ->
  atcmd_exec_command fuel (Some (l ++ 0 :: z)) e ms s = atcmd_exec_command fuel None e ms (commanded (l ++ [13]) s).
Proof.
  intros Hl Hne. unfold atcmd_exec_command. rewrite (M_bind_Ok _ _ s (commanded (l ++ [13]) s) tt); [by erewrite (M_bind_Ok (W := A)) by reflexivity|].
  rewrite (M_bind_Ok _ _ _ (set_rb (rb_clear (rb s.1)) s.1, MkModem (m_time s.2) 0 (m_in s.2) (m_out s.2)) tt) by done.
  rewrite (M_bind_Ok _ _ _ _ _ (send_string_ok l z _ Hl)). destruct l as [|c l]; [done|].
  rewrite (pure_bind_Ok (bget ((c :: l) ++ 0 :: z) 0) _ _ c) by done.
  apply Forall_cons in Hl as [Hc _]. rewrite (proj2 (Z.eqb_neq c 0)) by done. unfold commanded. cbn [negb]. rewrite app_assoc. done.
Qed.
Lemma commanded_sound l s : sound s.1 -> sound (commanded l s).1.
Proof.
  intros [W1 W2 Hp]. split; try done. cbn. by destruct (rb_clear_spec (rb s.1) (rb_cap (rb s.1)) (contents (rb s.1))) as [W' _].
Qed.

(** The command that announces [len] bytes. *)
Definition announce (len : Z) : list Z := str "AT+QISEND=" ++ dec len.
Lemma announce_nonzero len : 0 <= len -> Forall (fun c => c <> 0) (announce len).
Proof. intros Hl. apply Forall_app. split; [by apply str_nonzero|by apply dec_nonzero]. Qed.
Lemma qisend_eq buf len : Zlen buf = 20 -> 0 <= len < 65536 -> exists z, qisend buf len = announce len ++ 0 :: z /\ Zlen (qisend buf len) = 20.
Proof.
  intros Hb Hl. assert (Zlen (dec len) <= 5) as Hd by (apply Zlen_dec_digits; lia).
  exists (drop (length (announce len ++ [0])) buf). unfold qisend, announce. rewrite Zlen_overwrite; [|lia|].
  - split; [|done]. unfold overwrite. change (Z.to_nat 0) with 0%nat. rewrite take_0. cbn [app Nat.add]. by rewrite <- !app_assoc.
  - rewrite !Zlen_app. change (Zlen (str "AT+QISEND=")) with 10. change (Zlen [0]) with 1. lia.
Qed.

(** Sending data with a timeout of at most 250 milliseconds, which is
    what the pause after the announcement takes, succeeds whatever the modem
    says: the announcement and the data are sent, and no reply is looked at. *)
Theorem send_without_reply (fuel : nat) (junk : Z -> list Z) (dat : list Z) (len timeout_ms : Z) (s : A) :
  (0 < fuel)%nat -> Zlen (junk 20) = 20 -> 0 < len <= Zlen dat -> len < 65536 -> 0 <= timeout_ms <= 250 -> 0 <= m_time s.2 < 4294967000 -> sound s.1 ->
  exists s', atcmd_send_tcp fuel junk (Some dat) len timeout_ms s = Ok (s', 1) /\ sound s'.1 /\
    m_out s'.2 = m_out s.2 ++ announce len ++ [13] ++ take (Z.to_nat len) dat.
Proof.
  intros Hf Hj Hl H16 Ht Hs Hso. unfold atcmd_send_tcp. rewrite (proj2 (Z.leb_gt _ 0)) by lia. erewrite M_bind_Ok by reflexivity.
  destruct (qisend_eq (junk 20) len Hj ltac:(lia)) as (z & Eq & _). cbn [fst snd].
  erewrite M_bind_Ok by reflexivity. rewrite Eq. set (s0 := (_, _) : A).
  assert (exists s1, atcmd_exec_command fuel (Some (announce len ++ 0 :: z)) None 250 s0 = Ok (s1, (1, None)) /\ sound s1.1 /\
    m_out s1.2 = m_out s.2 ++ announce len ++ [13] /\ m_time s1.2 = m_time s.2 + 250) as (s1 & E1 & Hs1 & Ho1 & Ht1).
  { rewrite exec_sends; [|apply announce_nonzero; lia|done]. unfold atcmd_exec_command. erewrite M_bind_Ok by reflexivity.
    destruct (nap_keeps (m_in s.2) (m_time s.2 + 250) (commanded (announce len ++ [13]) s0)) as (s1 & E & Hs1 & _ & Ho & Etm).
    { apply commanded_sound. destruct Hso as [W1 W2 Hp]. split; try done. by destruct (rb_clear_spec (rb s.1) (rb_cap (rb s.1)) (contents (rb s.1))) as [W' _]. }
    exists s1. erewrite M_bind_Ok by exact E. split; [done|]. split; [done|]. by rewrite Ho. }
  rewrite (M_bind_Ok _ _ _ _ _ E1). cbv beta iota. unfold send_bytes.
  assert (read_bytes dat 0 len = Ok (take (Z.to_nat len) dat)) as Er.
  { unfold read_bytes, slice. rewrite !(proj2 (Z.leb_le _ _)) by lia. done. }
  erewrite M_bind_Ok by (rewrite (pure_bind_Ok _ _ _ _ Er); reflexivity).
  destruct fuel as [|f]; [lia|]. erewrite M_bind_Ok.
  2: { cbn [sent_loop]. erewrite M_bind_Ok by reflexivity. cbn [m_time fst snd]. rewrite Ht1, wrap_small by (pow2_norm; lia).
    rewrite (proj2 (Z.ltb_ge _ _)) by lia. reflexivity. }
  eexists. split; [done|]. split; [done|]. cbn [m_out snd]. rewrite Ho1, <- !app_assoc. reflexivity.
Qed.

(** The modem answers that it failed. *)
Lemma send_without_reply_witness :
  exists s', atcmd_send_tcp 1 (fun n => replicate (Z.to_nat n) 0) (Some [1; 2; 3]) 3 200
      (ex_atcmd, MkModem 0 0 ((fun b => (10, b)) <$> str "SEND FAIL" ++ [13; 10]) []) = Ok (s', 1) /\
    m_out s'.2 = str "AT+QISEND=3" ++ [13; 1; 2; 3].
Proof.
  destruct (send_without_reply 1 (fun n => replicate (Z.to_nat n) 0) [1; 2; 3] 3 200
    (ex_atcmd, MkModem 0 0 ((fun b => (10, b)) <$> str "SEND FAIL" ++ [13; 10]) [])) as (s' & E & _ & Eo);
    [lia|done|by vm_compute|lia|lia|by vm_compute|apply ex_sound|].
  exists s'. split; [exact E|]. rewrite Eo. by vm_compute.
Defined.

(** ** Receiving lines

    A text is what stands before the end of a reply line; it does not begin
    like a frame. *)
Definition text (l : list Z) : Prop := Forall (fun c => c <> 0 /\ c <> 10 /\ c <> 13) l /\ ~ str "IPD" `prefix_of` l.
(** The receiver inside a line of which it has seen [p]; [q] and [d] are
    what its two buffers hold. *)
Record reading (c cd : Z) (p q d : list Z) (a : atcmd) : Prop := {
  g_recv : serial_recv a = serial_recv_serial_default;
  g_len : Zlen (auto_prefix a) = 10;
  g_index : auto_prefix_index a = Z.min 5 (Zlen p);
  g_prefix : take (Z.to_nat (auto_prefix_index a)) (auto_prefix a) = take 5 p;
  g_rb : repr (rb a) c q;
  g_ipd : repr (ipd_rb a) cd d
}.
Notation idle c cd q d a := (reading c cd [] q d a).

Lemma put_repr r c q b : repr r c q -> Zlen q < c -> exists r', rb_put r b 1 = Ok (r', 1) /\ repr r' c (q ++ [b]).
Proof.
  intros R Hq. destruct (rb_put_spec r c q b 1 R ltac:(by vm_compute)) as (r' & E & R'). rewrite Z.min_l in E, R' by lia. by exists r'.
Qed.
Lemma default_at c cd p q d b (s : A) : reading c cd p q d s.1 -> atcmd_recv_serial_byte b s = recv_serial_default b s.
Proof.
  intros G. unfold atcmd_recv_serial_byte. erewrite M_bind_Ok by reflexivity. rewrite (g_recv _ _ _ _ _ _ G).
  rewrite bool_decide_eq_true_2 by done. cbn [negb]. erewrite M_bind_Ok by reflexivity. erewrite M_bind_Ok by reflexivity.
  by rewrite (g_recv _ _ _ _ _ _ G).
Qed.
(** Remembering the first characters of a line. *)
Lemma remember c cd p q d b (s : A) : reading c cd p q d s.1 ->
  exists s', (if auto_prefix_index s.1 <? 5 then x ← pure (bset (auto_prefix s.1) (auto_prefix_index s.1) b);
      update (set_prefix x (u8 (auto_prefix_index s.1 + 1))) else mret tt) s = Ok (s', tt) /\ reading c cd (p ++ [b]) q d s'.1 /\ s'.2 = s.2 /\
    time_to_default s'.1 = time_to_default s.1.
Proof.
  intros [Hr Hl Hi Hp Rr Ri]. pose proof (Zlen_nonneg p) as Hp0. destruct (Z.ltb_spec (auto_prefix_index s.1) 5) as [Hlt | Hge].
  - rewrite Z.min_r in Hi by lia.
    erewrite pure_bind_Ok by (apply bset_in; lia). eexists. split; [done|]. split; [|done].
    split; cbn; try done; [by rewrite Zlen_insert| |].
    + rewrite wrap_small by (pow2_norm; lia). rewrite Zlen_app. change (Zlen [b]) with 1. lia.
    + rewrite wrap_small by (pow2_norm; lia). rewrite Hi in *. rewrite Zlen_to_nat in *. rewrite (firstn_all2 p) in Hp by (unfold Zlen in *; lia).
      replace (Z.to_nat (Zlen p + 1)) with (S (length p)) by (unfold Zlen; lia).
      rewrite (take_S_r _ _ b) by (apply list_lookup_insert_eq; unfold Zlen in *; lia).
      rewrite take_insert_ge by lia. rewrite Hp. by rewrite firstn_all2 by (rewrite length_app; cbn; unfold Zlen in *; lia).
  - exists s. split; [done|]. split; [|done]. assert (Z.to_nat (auto_prefix_index s.1) = 5%nat /\ (5 <= length p)%nat) as [H5 Hlen] by (unfold Zlen in *; lia).
    split; try done.
    + rewrite Zlen_app. change (Zlen [b]) with 1. lia.
    + rewrite Hp. by rewrite take_app_le.
Qed.
Lemma recv_char c cd p q d b (s : A) : reading c cd p q d s.1 -> Zlen q < c -> b <> 10 -> b <> 13 -> p ++ [b] <> str "IPD" ->
  exists s', atcmd_recv_serial_byte b s = Ok (s', tt) /\ reading c cd (p ++ [b]) (q ++ [b]) d s'.1 /\ s'.2 = s.2.
Proof.
  intros G Hq H10 H13 Hn. rewrite (default_at _ _ _ _ _ _ _ G). unfold recv_serial_default.
  rewrite (proj2 (Z.eqb_neq b 10)), (proj2 (Z.eqb_neq b 13)) by done. cbn [negb]. erewrite M_bind_Ok by reflexivity.
  destruct (remember c cd p q d b s G) as (s1 & E1 & G1 & Es & _). rewrite (M_bind_Ok _ _ _ _ _ E1). erewrite M_bind_Ok by reflexivity.
  assert ((auto_prefix_index s1.1 =? 3) && bool_decide (take 3 (auto_prefix s1.1) = str "IPD") = false) as ->.
  { destruct (Z.eqb_spec (auto_prefix_index s1.1) 3) as [E3 | E3]; [|done]. cbn [andb]. apply bool_decide_eq_false_2. intros Hi. apply Hn.
    pose proof (g_prefix _ _ _ _ _ _ G1) as Hp. pose proof (g_index _ _ _ _ _ _ G1) as Hx. rewrite E3 in *. change (Z.to_nat 3) with 3%nat in Hp.
    rewrite Hi in Hp. rewrite Hp. symmetry. apply firstn_all2. unfold Zlen in Hx. lia. }
  destruct (put_repr (rb s1.1) c q b (g_rb _ _ _ _ _ _ G1) Hq) as (r' & E & R').
  unfold put_reply. erewrite M_bind_Ok by reflexivity. rewrite (pure_bind_Ok _ _ _ _ E). eexists. split; [done|].
  split; [|by rewrite <- Es]. destruct G1. by split.
Qed.
Lemma recv_cr c cd p q d (s : A) : reading c cd p q d s.1 -> atcmd_recv_serial_byte 13 s = Ok (s, tt).
Proof. intros G. by rewrite (default_at _ _ _ _ _ _ _ G). Qed.
Lemma recv_newline c cd p q d (s : A) : reading c cd p q d s.1 -> Zlen q < c ->
  exists s', atcmd_recv_serial_byte 10 s = Ok (s', tt) /\ idle c cd (q ++ [0]) d s'.1 /\
    s'.2 = MkModem (m_time s.2) (m_sem s.2 + 1) (m_in s.2) (m_out s.2).
Proof.
  intros G Hq. rewrite (default_at _ _ _ _ _ _ _ G). unfold recv_serial_default. cbn [Z.eqb Pos.eqb]. erewrite M_bind_Ok by reflexivity.
  destruct (put_repr (rb s.1) c q 0 (g_rb _ _ _ _ _ _ G) Hq) as (r' & E & R').
  erewrite M_bind_Ok. 2: { unfold put_reply. erewrite M_bind_Ok by reflexivity. cbn [fst snd rb set_prefix]. rewrite (pure_bind_Ok _ _ _ _ E). reflexivity. }
  eexists. split; [done|]. split; [|done]. destruct G. split; try done.
Qed.

Lemma arrive_eq t b (s s' : A) : atcmd_recv_serial_byte b (set_time (Z.max t (m_time s.2)) s) = Ok (s', tt) -> arrive t b s = Ok s'.
Proof. intros E. unfold arrive. by rewrite E. Qed.
(** The bytes [tl] are the text [txt] and the end of its line. *)
Definition line_of (tl : list (Z * Z)) (txt : list Z) : Prop := snd <$> tl = txt ++ [13; 10] /\ text txt.

Lemma pend_text c cd d txt1 : forall r p q deadline T (s : A) tl, reading c cd p q d s.1 -> m_sem s.2 = 0 -> snd <$> tl = txt1 ->
  text (p ++ txt1) -> Zlen q + Zlen txt1 <= c -> Forall (fun x => x.1 <= T) tl -> m_time s.2 <= T -> T <= deadline ->
  exists s', pend (tl ++ r) deadline s = pend r deadline s' /\ reading c cd (p ++ txt1) (q ++ txt1) d s'.1 /\ m_sem s'.2 = 0 /\
    m_out s'.2 = m_out s.2 /\ m_time s.2 <= m_time s'.2 <= T.
Proof.
  induction txt1 as [|b txt1 IH]; intros r p q deadline T s tl G Hsem Etl Ht Hroom Htimes HT HTd.
  { apply fmap_nil_inv in Etl as ->. exists s. rewrite !app_nil_r. split; [done|]. by split_and!. }
  destruct tl as [|[t b'] tl]; [done|]. cbn in Etl. injection Etl as -> Etl. apply Forall_cons in Htimes as [Ht1 Htimes]. cbn in Ht1.
  pose proof (Zlen_nonneg txt1). rewrite Zlen_cons in Hroom. destruct Ht as [Hch Hn].
  assert (b <> 10 /\ b <> 13) as [H10 H13]. { rewrite Forall_app, Forall_cons in Hch. tauto. }
  cbn [app pend]. rewrite Hsem. change (0 <? 0) with false. cbv iota. rewrite (proj2 (Z.leb_le t deadline)) by lia.
  destruct (recv_char c cd p q d b (set_time (Z.max t (m_time s.2)) s)) as (s1 & E & G1 & E2); [exact G|lia|done|done| |].
  { intros Ep. apply Hn. rewrite cons_middle, app_assoc, Ep. by eexists. }
  rewrite (arrive_eq _ _ _ _ E). cbn [mbind res_bind].
  destruct (IH r (p ++ [b]) (q ++ [b]) deadline T s1 tl G1) as (s' & E' & G' & Hs' & Ho' & Htm); [by rewrite E2|done| | |done| |done|].
  { by rewrite <- app_assoc. } { rewrite Zlen_app. change (Zlen [b]) with 1. lia. } { rewrite E2. cbn. lia. }
  exists s'. rewrite <- !app_assoc in G'. rewrite E2 in *. cbn in Htm. split_and!; try done; lia.
Qed.
Lemma pend_line c cd q d txt tl r deadline T (s : A) : idle c cd q d s.1 -> m_sem s.2 = 0 -> line_of tl txt -> Zlen q + Zlen txt + 1 <= c ->
  Forall (fun x => x.1 <= T) tl -> m_time s.2 <= T -> T <= deadline ->
  exists s', pend (tl ++ r) deadline s = Ok (s', 1) /\ idle c cd (q ++ txt ++ [0]) d s'.1 /\ m_sem s'.2 = 0 /\ m_in s'.2 = r /\
    m_out s'.2 = m_out s.2 /\ m_time s.2 <= m_time s'.2 <= T.
Proof.
  intros G Hsem [Etl Ht] Hroom Htimes HT HTd. apply fmap_app_inv in Etl as (t1 & t2 & E1 & E2 & ->).
  destruct t2 as [|[tr br] [|[tn bn] [|]]]; try done. cbn in E2. injection E2 as <- <-.
  apply Forall_app in Htimes as [Hf1 Hf2]. apply Forall_cons in Hf2 as [Hr Hf2]. apply Forall_cons in Hf2 as [Hn _]. cbn in Hr, Hn.
  destruct (pend_text c cd d txt ((tr, 13) :: (tn, 10) :: r) [] q deadline T s t1 G Hsem (eq_sym E1) Ht ltac:(lia) Hf1 HT HTd) as (s1 & E & G1 & Hs1 & Ho1 & Ht1).
  rewrite <- app_assoc. cbn [app]. rewrite E. cbn [pend]. rewrite Hs1. change (0 <? 0) with false. cbv iota.
  rewrite (proj2 (Z.leb_le tr deadline)) by lia. cbn [app] in G1.
  set (s1' := set_time (Z.max tr (m_time s1.2)) s1).
  rewrite (arrive_eq _ _ _ _ (recv_cr c cd txt (q ++ txt) d s1' G1)). cbn [mbind res_bind]. change (m_sem s1'.2) with (m_sem s1.2). rewrite Hs1.
  change (0 <? 0) with false. cbv iota. rewrite (proj2 (Z.leb_le tn deadline)) by lia.
  destruct (recv_newline c cd txt (q ++ txt) d (set_time (Z.max tn (m_time s1'.2)) s1') G1) as (s2 & E2 & G2 & Es2).
  { rewrite Zlen_app. lia. }
  rewrite (arrive_eq _ _ _ _ E2). cbn [mbind res_bind].
  assert (m_sem s2.2 = 1) as Hsem2 by (rewrite Es2; cbn; lia). rewrite <- app_assoc in G2.
  assert (pend r deadline s2 = Ok (set_in r (s2.1, MkModem (m_time s2.2) (m_sem s2.2 - 1) [] (m_out s2.2)), 1)) as -> by (destruct r; cbn; by rewrite Hsem2).
  eexists. split; [done|]. cbn. rewrite Hsem2. split; [done|]. split; [done|]. split; [done|]. rewrite Es2. cbn. split; [done|]. lia.
Qed.

(** ** Waiting for a reply *)
Lemma line_text txt : Forall (fun c => c <> 0) txt -> line (txt ++ [0]) = txt ++ [0] /\ rest (txt ++ [0]) = [].
Proof. intros Ht. rewrite line_app, rest_app by done. done. Qed.
Lemma text_nonzero txt : text txt -> Forall (fun c => c <> 0) txt.
Proof. intros [Ht _]. eapply Forall_impl; [exact Ht|]. cbn. tauto. Qed.
Lemma prefix_snoc_zero (p txt : list Z) : Forall (fun c => c <> 0) p -> p `prefix_of` txt ++ [0] <-> p `prefix_of` txt.
Proof.
  intros Hp. split; [|by apply prefix_app_r]. intros [k E]. destruct k as [|x k _] using rev_ind.
  - rewrite app_nil_r in E. subst p. apply Forall_app in Hp as [_ Hp]. by apply Forall_cons in Hp as [? _].
  - rewrite app_assoc in E. apply app_inj_tail in E as [-> _]. by eexists.
Qed.

(** Buffers of the same size, at the same offset. *)
Definition alike (p q : ptr) : Prop :=
  match p, q with Some (b, o), Some (b', o') => o = o' /\ Zlen b = Zlen b' | None, None => True | _, _ => False end.
Lemma alike_written p l n : is_null p = true \/ room p n -> Zlen l <= n -> alike p (written p l).
Proof.
  destruct p as [[b o]|]; [|done]. cbn. intros [? | [Ho Hr]] Hl; [done|]. split; [done|]. symmetry. apply Zlen_overwrite; lia.
Qed.
Lemma alike_trans p q r : alike p q -> alike q r -> alike p r.
Proof. destruct p as [[]|], q as [[]|], r as [[]|]; cbn; try done. intuition congruence. Qed.
Lemma alike_room p q n : alike p q -> is_null p = true \/ room p n -> is_null q = true \/ room q n.
Proof. destruct p as [[]|], q as [[]|]; cbn; try done. intros [-> ->] [? | ?]; [done|by right]. Qed.
Lemma keep_alike p q n l : alike p q -> keep p n l = keep q n l.
Proof. by destruct p as [[]|], q as [[]|]. Qed.

Section reply.
  Context (c cd : Z) (d : list Z) (pfx pz : list Z) (n : Z) (Hpfx : Forall (fun c => c <> 0) pfx) (Hn : is_u16 n).
Definition pat : list Z := pfx ++ 0 :: pz.

(** One line: it is taken, stored as far as it fits, and compared. *)
Lemma expect_line rounds buf txt tl r end_ T (s : A) : idle c cd [] d s.1 -> m_sem s.2 = 0 -> m_in s.2 = tl ++ r -> line_of tl txt -> Zlen txt + 1 <= c ->
  is_null buf = true \/ room buf n -> Forall (fun x => x.1 <= T) tl -> 0 <= m_time s.2 <= T -> T < end_ -> end_ < 4294967296 ->
  exists s' buf', expect_loop (S rounds) (MkExp (Some pat) buf n) (m_time s.2) end_ s =
      (if bool_decide (pfx `prefix_of` txt) then Ok (s', (1, buf')) else expect_loop rounds (MkExp (Some pat) buf' n) (m_time s'.2) end_ s') /\
    buf' = written buf (keep buf n (txt ++ [0])) /\ idle c cd [] d s'.1 /\ m_sem s'.2 = 0 /\ m_in s'.2 = r /\ m_out s'.2 = m_out s.2 /\
    m_time s.2 <= m_time s'.2 <= T.
Proof using Hpfx Hn.
  intros G Hsem Ein Hl Hroom Hbuf Htimes HT HTe He. pow2_norm. cbn [expect_loop]. rewrite (proj2 (Z.ltb_lt _ end_)) by lia.
  destruct (pend_line c cd [] d txt tl r end_ T s G Hsem Hl ltac:(change (Zlen (@nil Z)) with 0; lia) Htimes ltac:(lia) ltac:(lia)) as (s1 & E & G1 & Hs1 & Hi1 & Ho1 & Ht1).
  rewrite (M_bind_Ok _ _ s s1 1).
  2: { cbn [os_pend_sem modem_waiting]. rewrite wrap_small by (pow2_norm; lia). rewrite Ein. by replace (m_time s.2 + (end_ - m_time s.2)) with end_ by lia. }
  cbn [Z.eqb]. erewrite M_bind_Ok by reflexivity. cbn [expect recv_buff buff_size]. pose proof (text_nonzero _ (proj2 Hl)) as Hz.
  destruct (line_text txt Hz) as [El Er]. cbn [app] in G1.
  destruct (rb_read_string_and_is_with_prefix_spec (rb s1.1) c (txt ++ [0]) buf n pfx pz (g_rb _ _ _ _ _ _ G1) Hn) as (r' & E' & R'); [|done|].
  { rewrite El. destruct Hbuf as [Hb | Hb]; [by left|right]. destruct buf as [[b o]|]; [|done]. cbn in *. unfold Zlen. rewrite length_take. unfold Zlen in *. lia. }
  rewrite El, Er in *. fold pat in E'. rewrite (pure_bind_Ok _ _ _ _ E'). erewrite M_bind_Ok by reflexivity.
  exists (set_rb r' s1.1, s1.2), (written buf (keep buf n (txt ++ [0]))). split.
  - destruct (decide (pfx `prefix_of` txt)) as [Hd | Hd].
    + rewrite !bool_decide_eq_true_2 by (done || by apply prefix_snoc_zero). done.
    + rewrite !bool_decide_eq_false_2 by (by rewrite ?prefix_snoc_zero). cbn [cbool ctrue Z.eqb negb]. by erewrite M_bind_Ok by reflexivity.
  - split; [done|]. split; [destruct G1; by split|]. done.
Qed.

(** Lines that do not begin with what is expected are skipped. *)
Lemma expect_lines skips : forall rounds buf txt tl r end_ T (s : A), idle c cd [] d s.1 -> m_sem s.2 = 0 ->
  m_in s.2 = concat (fst <$> skips) ++ tl ++ r -> Forall (fun x => line_of x.1 x.2 /\ Zlen x.2 + 1 <= c /\ ~ pfx `prefix_of` x.2) skips ->
  line_of tl txt -> Zlen txt + 1 <= c -> pfx `prefix_of` txt -> is_null buf = true \/ room buf n ->
  Forall (fun x => x.1 <= T) (concat (fst <$> skips) ++ tl) -> 0 <= m_time s.2 <= T -> T < end_ -> end_ < 4294967296 -> (length skips < rounds)%nat ->
  exists s' buf', expect_loop rounds (MkExp (Some pat) buf n) (m_time s.2) end_ s = Ok (s', (1, written buf' (keep buf n (txt ++ [0])))) /\
    alike buf buf' /\ idle c cd [] d s'.1 /\ m_sem s'.2 = 0 /\ m_in s'.2 = r /\ m_out s'.2 = m_out s.2 /\ m_time s.2 <= m_time s'.2 <= T.
Proof using Hpfx Hn.
  induction skips as [|[tl0 txt0] skips IH]; intros rounds buf txt tl r end_ T s G Hsem Ein Hsk Hl Hroom Hp Hbuf Htimes HT HTe He Hr.
  - destruct rounds as [|rounds]; [lia|].
    destruct (expect_line rounds buf txt tl r end_ T s G Hsem Ein Hl Hroom Hbuf Htimes HT HTe He) as (s' & buf' & E & -> & G' & H1 & H2 & H3 & H4).
    rewrite bool_decide_eq_true_2 in E by done. exists s', buf. split; [done|]. split; [destruct buf as [[]|]; done|]. done.
  - destruct rounds as [|rounds]; [cbn in Hr; lia|]. apply Forall_cons in Hsk as [(Hl0 & Hc0 & Hn0) Hsk]. cbn [fst snd] in *.
    cbn [fmap list_fmap concat fst] in Ein, Htimes. rewrite <- app_assoc in Ein, Htimes. apply Forall_app in Htimes as [Ht0 Htimes].
    destruct (expect_line rounds buf txt0 tl0 _ end_ T s G Hsem Ein Hl0 Hc0 Hbuf Ht0 HT HTe He) as (s1 & buf1 & E & Eb & G1 & H1 & H2 & H3 & H4).
    rewrite bool_decide_eq_false_2 in E by done. assert (alike buf buf1) as Ha.
    { subst buf1. apply (alike_written _ _ n Hbuf). rewrite Zlen_keep by (unfold in_range in Hn; lia). destruct (is_null buf); unfold in_range in Hn; lia. }
    destruct (IH rounds buf1 txt tl r end_ T s1 G1 H1 H2 Hsk Hl Hroom Hp) as (s' & buf' & E' & Ha' & G' & H1' & H2' & H3' & H4');
      [by apply (alike_room buf)|done|lia|done|done|cbn in Hr; lia|].
    exists s', buf'. rewrite E, E'. rewrite (keep_alike buf buf1) by done. split; [done|]. split; [by eapply alike_trans|].
    split_and!; try done; [congruence|lia|lia].
Qed.
End reply.

Lemma command_gets_reply_eq (fuel : nat) (cmd z pfx pz : list Z) (buf : ptr) (n ms c cd T : Z) (q d txt : list Z)
    (skips : list (list (Z * Z) * list Z)) (tl r : list (Z * Z)) (s : A) :
  (length skips < fuel)%nat -> Forall (fun c => c <> 0) cmd -> cmd <> [] -> Forall (fun c => c <> 0) pfx -> is_u16 n -> is_null buf = true \/ room buf n ->
  idle c cd q d s.1 -> m_in s.2 = concat (fst <$> skips) ++ tl ++ r ->
  Forall (fun x => line_of x.1 x.2 /\ Zlen x.2 + 1 <= c /\ ~ pfx `prefix_of` x.2) skips -> line_of tl txt -> Zlen txt + 1 <= c -> pfx `prefix_of` txt ->
  Forall (fun x => x.1 <= T) (concat (fst <$> skips) ++ tl) -> 0 <= m_time s.2 <= T -> T < m_time s.2 + ms < 4294967296 ->
  exists s' buf', atcmd_exec_command fuel (Some (cmd ++ 0 :: z)) (Some (MkExp (Some (pfx ++ 0 :: pz)) buf n)) ms s =
      Ok (s', (1, written buf' (keep buf n (txt ++ [0])))) /\ alike buf buf' /\
    m_out s'.2 = m_out s.2 ++ cmd ++ [13] /\ m_in s'.2 = r /\ idle c cd [] d s'.1 /\ m_sem s'.2 = 0 /\ m_time s.2 <= m_time s'.2 <= T.
Proof.
  intros Hf Hcmd Hne Hp Hn Hbuf G Ein Hsk Hl Hroom Hpre Htimes HT HTe. rewrite exec_sends by done. set (s1 := commanded (cmd ++ [13]) s).
  assert (idle c cd [] d s1.1) as G1.
  { destruct G. split; try done. by eapply rb_clear_spec. }
  unfold atcmd_exec_command. erewrite M_bind_Ok by reflexivity. unfold do_expect. erewrite M_bind_Ok by reflexivity. cbn [fst snd].
  rewrite wrap_small by (pow2_norm; cbn; lia).
  destruct (expect_lines c cd d pfx pz n Hp Hn skips fuel buf txt tl r (m_time s.2 + ms) T s1 G1 eq_refl Ein Hsk Hl Hroom Hpre Hbuf Htimes HT
    ltac:(lia) ltac:(lia) Hf) as (s' & buf' & E & Ha & G' & Hs' & Hi & Ho & Ht).
  exists s', buf'. split; [exact E|]. split_and!; try done; cbn in Ht; lia.
Qed.

(** C5: A command sends its line and a carriage return, skips the lines of
    the modem that do not begin with the text expected, and returns with the
    first that does, stored as far as the buffer goes; what arrives behind
    that line is left for later. *)
Theorem command_gets_reply (fuel : nat) (cmd z pfx pz : list Z) (buf : ptr) (n ms c cd T : Z) (q d txt : list Z)
    (skips : list (list (Z * Z) * list Z)) (tl r : list (Z * Z)) (s : A) :
  (length skips < fuel)%nat -> Forall (fun c => c <> 0) cmd -> cmd <> [] -> Forall (fun c => c <> 0) pfx -> is_u16 n -> is_null buf = true \/ room buf n ->
  idle c cd q d s.1 -> m_in s.2 = concat (fst <$> skips) ++ tl ++ r ->
  Forall (fun x => line_of x.1 x.2 /\ Zlen x.2 + 1 <= c /\ ~ pfx `prefix_of` x.2) skips -> line_of tl txt -> Zlen txt + 1 <= c -> pfx `prefix_of` txt ->
  Forall (fun x => x.1 <= T) (concat (fst <$> skips) ++ tl) -> 0 <= m_time s.2 <= T -> T < m_time s.2 + ms < 4294967296 ->
  exists s' buf', atcmd_exec_command fuel (Some (cmd ++ 0 :: z)) (Some (MkExp (Some (pfx ++ 0 :: pz)) buf n)) ms s =
      Ok (s', (1, written buf' (keep buf n (txt ++ [0])))) /\ alike buf buf' /\
    m_out s'.2 = m_out s.2 ++ cmd ++ [13] /\ m_in s'.2 = r /\ idle c cd [] d s'.1 /\ m_sem s'.2 = 0 /\ m_time s.2 <= m_time s'.2 <= T.
Proof. apply command_gets_reply_eq. Qed.

(** ** Replies with numbers *)
Lemma digits_eq l x r : Forall (fun c => 48 <= c <= 57) l -> digit 10 x = None -> forall l1 n fuel, (length l < fuel)%nat ->
  digits fuel 10 (l1 ++ l ++ x :: r) (Zlen l1) n = Ok (value 10 l n, Zlen l1 + Zlen l).
Proof.
  intros Hl Hx. induction Hl as [|c l Hc _ IH]; intros l1 n [|fuel] Hf; cbn [length] in Hf; try lia; cbn [digits app]; rewrite bget_middle; cbn [mbind res_bind].
  - rewrite Hx. change (Zlen (@nil Z)) with 0. by rewrite Z.add_0_r.
  - assert (digit 10 c = Some (c - 48)) as ->.
    { unfold digit. rewrite !(proj2 (Z.leb_le _ _)) by lia. cbn [andb]. by rewrite (proj2 (Z.ltb_lt _ _)) by lia. }
    specialize (IH (l1 ++ [c]) (n * 10 + (c - 48)) fuel ltac:(lia)). rewrite Zlen_app in IH. change (Zlen [c]) with 1 in IH.
    rewrite <- app_assoc in IH. cbn [app] in IH. rewrite IH. rewrite Zlen_cons. by rewrite Z.add_assoc.
Qed.
Lemma dec_head n : 0 <= n -> exists c l, dec n = c :: l /\ 48 <= c <= 57.
Proof.
  intros Hn. pose proof (dec_range n Hn) as Hd. destruct (dec n) as [|c l] eqn:E; [by apply (dec_digits_nonempty 9 n) in E|].
  apply Forall_cons in Hd as [Hc _]. by exists c, l.
Qed.
Lemma strtol_dec l1 n x r : 0 <= n <= 2147483647 -> digit 10 x = None ->
  strtol (l1 ++ dec n ++ x :: r) (Zlen l1) 10 = Ok (n, Zlen l1 + Zlen (dec n)).
Proof.
  intros Hn Hx. destruct (dec_head n ltac:(lia)) as (c & l & Ed & Hc). unfold strtol. set (b := l1 ++ dec n ++ x :: r).
  assert (bget b (Zlen l1) = Ok c) as Eg by (unfold b; rewrite Ed; apply bget_middle).
  assert (spaces (S (length b)) b (Zlen l1) = Ok (Zlen l1)) as ->.
  { cbn [spaces]. rewrite Eg. cbn [mbind res_bind]. assert (is_space c = false) as -> by (unfold is_space; destruct (Z.eqb_spec c 32), (Z.leb_spec c 13); lia || (by rewrite andb_false_r)). done. }
  cbn [mbind res_bind]. rewrite Eg. cbn [mbind res_bind]. rewrite (proj2 (Z.eqb_neq c 45)), (proj2 (Z.eqb_neq c 43)) by lia. cbn [orb].
  rewrite Eg. cbn [mbind res_bind Z.eqb Pos.eqb andb orb].
  pose proof (digits_eq (dec n) x r (dec_range n ltac:(lia)) Hx l1 0 (S (length b)) ltac:(unfold b; rewrite !length_app; lia)) as Ed'. fold b in Ed'.
  rewrite Ed'. cbn [mbind res_bind].
  rewrite (proj2 (Z.eqb_neq _ (Zlen l1))) by (rewrite Ed, Zlen_cons; pose proof (Zlen_nonneg l); lia).
  rewrite value_dec by lia. unfold saturate. by rewrite Z.min_r, Z.max_r by lia.
Qed.
Lemma atoi_dec l1 sp n x r : 0 <= n <= 2147483647 -> digit 10 x = None -> Forall (fun c => c = 32) sp ->
  atoi_skip_bank_prefix (l1 ++ sp ++ dec n ++ x :: r) (Zlen l1) = Ok n.
Proof.
  intros Hn Hx Hsp. unfold atoi_skip_bank_prefix.
  assert (forall sp l0 fuel, Forall (fun c => c = 32) sp -> (length sp < fuel)%nat ->
    skip_blanks fuel (l0 ++ sp ++ dec n ++ x :: r) (Zlen l0) = Ok (Zlen l0 + Zlen sp)) as Hskip.
  { clear l1 sp Hsp. intros sp. induction sp as [|c sp IH]; intros l1 [|fuel] Hsp Hf; cbn [length] in Hf; try lia; cbn [skip_blanks app].
    - destruct (dec_head n ltac:(lia)) as (c & l & -> & Hc). cbn [app]. rewrite bget_middle. cbn [mbind res_bind].
      rewrite (proj2 (Z.eqb_neq c 32)), (proj2 (Z.eqb_neq c 9)) by lia. cbn [orb]. change (Zlen (@nil Z)) with 0. by rewrite Z.add_0_r.
    - apply Forall_cons in Hsp as [-> Hsp]. rewrite bget_middle. cbn [mbind res_bind Z.eqb Pos.eqb orb].
      specialize (IH (l1 ++ [32]) fuel Hsp ltac:(lia)). rewrite Zlen_app in IH. change (Zlen [32]) with 1 in IH. rewrite <- app_assoc in IH. cbn [app] in IH.
      rewrite IH. rewrite Zlen_cons. by rewrite Z.add_assoc. }
  rewrite Hskip; [|done|rewrite !length_app; lia]. cbn [mbind res_bind]. unfold atoi. rewrite <- Zlen_app, app_assoc.
  by rewrite strtol_dec.
Qed.
Lemma strchr_eq l1 l c r : Forall (fun x => x <> c /\ x <> 0) l -> strchr (l1 ++ l ++ c :: r) (Zlen l1) c = Ok (Some (Zlen l1 + Zlen l)).
Proof.
  intros Hl. unfold strchr. pose proof (Zlen_nonneg l1). pose proof (Zlen_nonneg (l ++ c :: r)). rewrite !(proj2 (Z.leb_le _ _)) by (rewrite ?Zlen_app in *; lia). cbn [andb].
  rewrite Zlen_to_nat, drop_app_length. generalize (Zlen l1) as p. induction Hl as [|x l [Hxc Hx0] _ IH]; intros p; cbn [app find_char].
  - rewrite Z.eqb_refl. change (Zlen (@nil Z)) with 0. by rewrite Z.add_0_r.
  - rewrite (proj2 (Z.eqb_neq x c)), (proj2 (Z.eqb_neq x 0)), IH by done. rewrite Zlen_cons. by rewrite Z.add_assoc.
Qed.
Lemma dec_no c n : 0 <= n -> c < 48 -> Forall (fun x => x <> c /\ x <> 0) (dec n).
Proof. intros Hn Hc. eapply Forall_impl; [by apply dec_range|]. cbn. lia. Qed.

(** [+CSQ: r, b] *)
Definition csq (r b : Z) : list Z := str "+CSQ: " ++ dec r ++ str ", " ++ dec b.
Lemma parse_csq_eq r b z : 0 <= r <= 31 \/ r = 99 -> 0 <= b <= 7 \/ b = 99 -> parse_csq (csq r b ++ 0 :: z) = Ok (Some (r, b)).
Proof.
  intros Hr Hb. unfold parse_csq, csq.
  assert ((str "+CSQ: " ++ dec r ++ str ", " ++ dec b) ++ 0 :: z = str "+CSQ:" ++ [32] ++ dec r ++ 44 :: (32 :: dec b ++ 0 :: z)) as ->
    by (by rewrite <- !app_assoc).
  pose proof (atoi_dec (str "+CSQ:") [32] r 44 (32 :: dec b ++ 0 :: z) ltac:(lia) eq_refl ltac:(by repeat constructor)) as E1.
  change (Zlen (str "+CSQ:")) with 5 in E1. rewrite E1. cbn [mbind res_bind]. rewrite (wrap_small 8 r) by (pow2_norm; lia).
  assert ((31 <? r) && negb (r =? 99) = false) as -> by (destruct (Z.ltb_spec 31 r); [|done]; destruct (Z.eqb_spec r 99); [done|lia]).
  pose proof (strchr_eq (str "+CSQ:" ++ [32]) (dec r) 44 (32 :: dec b ++ 0 :: z) (dec_no 44 r ltac:(lia) ltac:(lia))) as E2.
  rewrite <- app_assoc in E2. change (Zlen (str "+CSQ:" ++ [32])) with 6 in E2. rewrite E2. cbn [mbind res_bind].
  pose proof (atoi_dec (str "+CSQ:" ++ [32] ++ dec r ++ [44]) [32] b 0 z ltac:(lia) eq_refl ltac:(by repeat constructor)) as E3.
  rewrite <- !app_assoc in E3. rewrite !Zlen_app in E3. change (Zlen (str "+CSQ:")) with 5 in E3. change (Zlen [32]) with 1 in E3. change (Zlen [44]) with 1 in E3.
  cbn [app] in E3 |- *. replace (5 + (1 + (Zlen (dec r) + 1))) with (6 + Zlen (dec r) + 1) in E3 by lia. rewrite E3. cbn [mbind res_bind].
  rewrite (wrap_small 8 b) by (pow2_norm; lia).
  by assert ((7 <? b) && negb (b =? 99) = false) as -> by (destruct (Z.ltb_spec 7 b); [|done]; destruct (Z.eqb_spec b 99); [done|lia]).
Qed.

(** Asking for the signal quality sends AT+CSQ and returns the two
    numbers of the modem's answer, whatever lines come before it. *)
Theorem signal_quality_read (fuel : nat) (junk : Z -> list Z) (c cd T rssi ber : Z) (q d : list Z)
    (skips : list (list (Z * Z) * list Z)) (tl r : list (Z * Z)) (s : A) :
  (length skips < fuel)%nat -> Zlen (junk 20) = 20 -> 0 <= rssi <= 31 \/ rssi = 99 -> 0 <= ber <= 7 \/ ber = 99 -> idle c cd q d s.1 -> 20 <= c ->
  m_in s.2 = concat (fst <$> skips) ++ tl ++ r -> Forall (fun x => line_of x.1 x.2 /\ Zlen x.2 + 1 <= c /\ ~ str "+CSQ:" `prefix_of` x.2) skips ->
  line_of tl (csq rssi ber) -> Forall (fun x => x.1 <= T) (concat (fst <$> skips) ++ tl) -> 0 <= m_time s.2 <= T -> T < m_time s.2 + 500 < 4294967296 ->
  exists s', atcmd_get_signal_quality fuel junk s = Ok (s', Some (rssi, ber)) /\
    m_out s'.2 = m_out s.2 ++ str "AT+CSQ" ++ [13] /\ m_in s'.2 = r /\ idle c cd [] d s'.1 /\ m_sem s'.2 = 0.
Proof.
  intros Hf Hj Hr Hb G Hc Ein Hsk Hl Htimes HT HTe.
  assert (Zlen (csq rssi ber) <= 12) as Hlen.
  { unfold csq. rewrite !Zlen_app. change (Zlen (str "+CSQ: ")) with 6. change (Zlen (str ", ")) with 2.
    pose proof (Zlen_dec_digits 10 rssi 2 ltac:(change (10 ^ 2) with 100; lia) ltac:(lia)) as H1. pose proof (Zlen_dec_digits 10 ber 2 ltac:(change (10 ^ 2) with 100; lia) ltac:(lia)) as H2.
    fold (dec rssi) in H1. fold (dec ber) in H2. lia. }
  destruct (command_gets_reply_eq fuel (str "AT+CSQ") [] (str "+CSQ:") [] (Some (junk 20, 0)) 20 500 c cd T q d (csq rssi ber) skips tl r s)
    as (s' & buf' & E & Ha & Ho & Hi & G' & Hs' & _); try done; [by apply str_nonzero|by apply str_nonzero|right; split; lia|lia|by eexists|].
  unfold atcmd_get_signal_quality. unfold lit. rewrite (M_bind_Ok _ _ _ _ _ E). cbn [ctrue negb Z.eqb].
  exists s'. split; [|done]. destruct buf' as [[b' o]|]; [|done]. destruct Ha as [<- Hb']. unfold keep. cbn [is_null written object].
  rewrite firstn_all2 by (unfold Zlen in Hlen; rewrite length_app; change (length [0]) with 1%nat; lia).
  assert (overwrite b' 0 (csq rssi ber ++ [0]) = csq rssi ber ++ 0 :: drop (length (csq rssi ber ++ [0])) b') as ->.
  { unfold overwrite. change (Z.to_nat 0) with 0%nat. rewrite take_0. cbn [app Nat.add]. by rewrite <- app_assoc. }
  unfold pure. by rewrite parse_csq_eq.
Qed.

(** ** Frames *)
Fixpoint feed (l : list (Z * Z)) (s : A) : res A :=
  match l with [] => Ok s | (t, b) :: l => s ← arrive t b s; feed l s end.
Lemma feed_app l1 l2 s : feed (l1 ++ l2) s = (s ← feed l1 s; feed l2 s).
Proof. revert s. induction l1 as [|[t b] l1 IH]; intros s; [done|]. cbn. destruct (arrive t b s); cbn; [apply IH|done]. Qed.

(** The receiver inside a frame; [due] is when it gives up. *)
Record framing (c cd : Z) (m : recv_state) (n k due : Z) (q d : list Z) (a : atcmd) : Prop := {
  f_recv : serial_recv a = m;
  f_length : ipd_length a = n;
  f_index : ipd_recv_index a = k;
  f_due : time_to_default a = due;
  f_idle : idle c cd q d (set_recv serial_recv_serial_default a)
}.
Lemma framing_at c cd m n k due q d b (s : A) : framing c cd m n k due q d s.1 -> m <> serial_recv_serial_default -> m_time s.2 < due ->
  atcmd_recv_serial_byte b s = match m with serial_recv_ipd_length => recv_ipd_length b s | _ => recv_ipd_content b s end.
Proof.
  intros G Hm Ht. unfold atcmd_recv_serial_byte. erewrite M_bind_Ok by reflexivity. rewrite (f_recv _ _ _ _ _ _ _ _ _ G).
  rewrite bool_decide_eq_false_2 by done. cbn [negb].
  rewrite (M_bind_Ok _ _ s s tt).
  2: { erewrite M_bind_Ok by reflexivity. rewrite (f_due _ _ _ _ _ _ _ _ _ G), (proj2 (Z.leb_gt _ _)) by done. by destruct s. }
  erewrite M_bind_Ok by reflexivity. rewrite (f_recv _ _ _ _ _ _ _ _ _ G). by destruct m.
Qed.
(** The receiver gives up a frame that is late. *)
Lemma late_byte b (s : A) : serial_recv s.1 <> serial_recv_serial_default -> time_to_default s.1 <= m_time s.2 ->
  atcmd_recv_serial_byte b s = recv_serial_default b (set_recv serial_recv_serial_default s.1, s.2).
Proof.
  intros Hm Ht. unfold atcmd_recv_serial_byte. erewrite M_bind_Ok by reflexivity. rewrite bool_decide_eq_false_2 by done. cbn [negb].
  rewrite (M_bind_Ok _ _ s (set_recv serial_recv_serial_default s.1, s.2) tt).
  2: { erewrite M_bind_Ok by reflexivity. by rewrite (proj2 (Z.leb_le _ _)). }
  by erewrite M_bind_Ok by reflexivity.
Qed.

Section frames.
  Context (c cd : Z).
Lemma frame_start q d t1 t2 t3 (s : A) : idle c cd q d s.1 -> Zlen q + 2 <= c -> m_time s.2 <= t3 -> t1 <= t3 -> t2 <= t3 -> 0 <= t3 < 4294967000 ->
  exists s', feed [(t1, 73); (t2, 80); (t3, 68)] s = Ok s' /\ framing c cd serial_recv_ipd_length 0 (ipd_recv_index s'.1) (t3 + 50) [] d s'.1 /\
    m_time s'.2 = t3 /\ m_sem s'.2 = m_sem s.2.
Proof.
  intros G Hq H0 H1 H2 H3.
  destruct (recv_char c cd [] q d 73 (set_time (Z.max t1 (m_time s.2)) s) G) as (s1 & E1 & G1 & Es1); [lia|done|done|done|].
  destruct (recv_char c cd [73] (q ++ [73]) d 80 (set_time (Z.max t2 (m_time s1.2)) s1) G1) as (s2 & E2 & G2 & Es2);
    [rewrite Zlen_app; change (Zlen [73]) with 1; lia|done|done|done|].
  cbn [feed]. rewrite (arrive_eq _ _ _ _ E1). cbn [mbind res_bind]. rewrite (arrive_eq _ _ _ _ E2). cbn [mbind res_bind].
  assert (Z.max t3 (m_time s2.2) = t3) as Et by (rewrite Es2; cbn; rewrite Es1; cbn; lia). cbn [app] in G2.
  set (s2' := set_time (Z.max t3 (m_time s2.2)) s2). assert (reading c cd [73; 80] ((q ++ [73]) ++ [80]) d s2'.1) as G2' by exact G2.
  destruct (remember c cd _ _ d 68 s2' G2') as (s3 & E3 & G3 & Es3 & _).
  eexists. rewrite (arrive_eq t3 68 s2 (set_due (u32 (t3 + 50)) (set_prefix (auto_prefix s3.1) 0 (set_ipd 0 (ipd_recv_index s3.1)
    (set_recv serial_recv_ipd_length (set_rb (rb_clear (rb s3.1)) s3.1)))), s3.2)).
  - cbn [mbind res_bind]. split; [done|]. rewrite wrap_small by (pow2_norm; lia). split; [|rewrite Es3; split; [done|]; cbn; by rewrite Es2; cbn; rewrite Es1].
    destruct G3 as [? ? ? ? Rr ?]. split; try done. split; try done. by eapply rb_clear_spec.
  - fold s2'. rewrite (default_at _ _ _ _ _ _ _ G2'). unfold recv_serial_default. cbn [Z.eqb Pos.eqb negb]. erewrite M_bind_Ok by reflexivity.
    rewrite (M_bind_Ok _ _ _ _ _ E3). erewrite M_bind_Ok by reflexivity.
    assert ((auto_prefix_index s3.1 =? 3) && bool_decide (take 3 (auto_prefix s3.1) = str "IPD") = true) as ->.
    { pose proof (g_index _ _ _ _ _ _ G3) as Hi. pose proof (g_prefix _ _ _ _ _ _ G3) as Hp. change (Z.min 5 (Zlen ([73; 80] ++ [68]))) with 3 in Hi. rewrite Hi in *.
      cbn [Z.eqb Pos.eqb andb]. by apply bool_decide_eq_true_2. }
    do 4 (erewrite M_bind_Ok by reflexivity). erewrite M_bind_Ok by reflexivity. rewrite Es3. cbn. by rewrite Et.
Qed.

(** One digit of the length, its end, one byte of the content. *)
Lemma frame_digit n k due q d t x (s : A) : framing c cd serial_recv_ipd_length n k due q d s.1 -> Z.max t (m_time s.2) < due -> 48 <= x <= 57 ->
  0 <= n -> n * 10 + (x - 48) < 65536 ->
  exists s', arrive t x s = Ok s' /\ framing c cd serial_recv_ipd_length (n * 10 + (x - 48)) k due q d s'.1 /\ s'.2 = at_time (Z.max t (m_time s.2)) s.2.
Proof.
  intros G Ht Hx Hn Hmax. eexists. split; [apply arrive_eq|split].
  - rewrite (framing_at c cd _ n k due q d x (set_time (Z.max t (m_time s.2)) s) G) by done. unfold recv_ipd_length. rewrite (proj2 (Z.eqb_neq x 58)) by lia.
    rewrite !(proj2 (Z.leb_le _ _)) by lia. cbn [andb]. by erewrite M_bind_Ok by reflexivity.
  - destruct G as [Hm Hnn Hk Hd Hi]. split; cbn; try done.
    + rewrite Hnn, (wrap_small 16 (n * 10)) by (pow2_norm; lia). by rewrite wrap_small by (pow2_norm; lia).
    + destruct Hi. by split.
  - done.
Qed.
Lemma frame_digits due k q d l : forall tl n (s : A), snd <$> tl = l -> framing c cd serial_recv_ipd_length n k due q d s.1 -> m_time s.2 < due ->
  Forall (fun x => x.1 < due) tl -> Forall (fun x => 48 <= x <= 57) l -> 0 <= n ->
  (forall l1 l2, l = l1 ++ l2 -> value 10 l1 n < 65536) ->
  exists s', feed tl s = Ok s' /\ framing c cd serial_recv_ipd_length (value 10 l n) k due q d s'.1 /\ m_sem s'.2 = m_sem s.2 /\
    m_time s'.2 = foldl Z.max (m_time s.2) (fst <$> tl) /\ m_time s'.2 < due.
Proof.
  induction l as [|x l IH]; intros tl n s Etl G Hs Ht Hx Hn Hv.
  { apply fmap_nil_inv in Etl as ->. exists s. by split_and!. }
  destruct tl as [|[t x'] tl]; [done|]. cbn in Etl. injection Etl as -> Etl. apply Forall_cons in Ht as [Ht1 Ht]. apply Forall_cons in Hx as [Hx1 Hx]. cbn [fst] in Ht1.
  destruct (frame_digit n k due q d t x s G ltac:(lia) Hx1 Hn) as (s1 & E & G1 & Es). { apply (Hv [x] l eq_refl). }
  cbn [feed]. rewrite E. cbn [mbind res_bind].
  destruct (IH tl (n * 10 + (x - 48)) s1 Etl G1) as (s' & E' & G' & Hm' & Ht' & Hd'); [rewrite Es; cbn; lia|done|done|lia| |].
  { intros l1 l2 El. apply (Hv (x :: l1) l2). by rewrite El. }
  exists s'. rewrite Es in *. split_and!; try done. rewrite Ht'. cbn. by rewrite Z.max_comm.
Qed.
Lemma frame_colon n k due q d t (s : A) : framing c cd serial_recv_ipd_length n k due q d s.1 -> Z.max t (m_time s.2) < due -> 0 <= m_time s.2 -> due < 4294967200 ->
  exists s', arrive t 58 s = Ok s' /\ framing c cd serial_recv_ipd_content n 0 (Z.max t (m_time s.2) + 20) q d s'.1 /\
    m_sem s'.2 = m_sem s.2 /\ m_time s'.2 = Z.max t (m_time s.2).
Proof.
  intros G Ht H0 Hd. eexists. split; [apply arrive_eq|split].
  - rewrite (framing_at c cd _ n k due q d 58 (set_time (Z.max t (m_time s.2)) s) G) by done. unfold recv_ipd_length. cbn [Z.eqb Pos.eqb].
    do 3 (erewrite M_bind_Ok by reflexivity). reflexivity.
  - destruct G as [Hm Hnn Hk Hdu Hi]. split; cbn; try done; [by rewrite wrap_small by (pow2_norm; lia)|destruct Hi; by split].
  - done.
Qed.
Lemma frame_byte n k due q d t x (s : A) : framing c cd serial_recv_ipd_content n k due q d s.1 -> Z.max t (m_time s.2) < due -> 0 <= m_time s.2 -> due < 4294967200 ->
  0 <= k < n -> n < 65536 -> Zlen d < cd ->
  exists s', arrive t x s = Ok s' /\ m_sem s'.2 = m_sem s.2 /\ m_time s'.2 = Z.max t (m_time s.2) /\
    (if n <=? k + 1 then idle c cd q (d ++ [x]) s'.1 else framing c cd serial_recv_ipd_content n (k + 1) (Z.max t (m_time s.2) + 20) q (d ++ [x]) s'.1).
Proof.
  intros G Ht H0 Hd Hk Hn Hroom. pose proof (framing_at c cd _ n k due q d x (set_time (Z.max t (m_time s.2)) s) G ltac:(done) Ht) as Ea.
  destruct G as [Hm Hnn Hkk Hdu Hi]. destruct (put_repr (ipd_rb s.1) cd d x (g_ipd _ _ _ _ _ _ Hi) Hroom) as (r' & E & R').
  set (a1 := set_ipd n (k + 1) (set_due (Z.max t (m_time s.2) + 20) (set_ipd_rb r' s.1))).
  exists ((if n <=? k + 1 then set_recv serial_recv_serial_default a1 else a1), at_time (Z.max t (m_time s.2)) s.2). split; [apply arrive_eq|].
  - rewrite Ea. unfold recv_ipd_content. erewrite M_bind_Ok by reflexivity. cbn [set_time fst snd]. rewrite (pure_bind_Ok _ _ _ _ E).
    do 5 (erewrite M_bind_Ok by reflexivity). cbn [fst snd ipd_length ipd_recv_index set_ipd set_due set_ipd_rb at_time m_time set_time]. rewrite Hnn, Hkk.
    rewrite (wrap_small 16 (k + 1)), wrap_small by (pow2_norm; lia). destruct (n <=? k + 1); reflexivity.
  - split; [done|]. split; [done|]. destruct Hi. destruct (n <=? k + 1); [by split|]. split; [done..|]. by split.
Qed.

(** Bytes that follow each other in time. *)
Fixpoint prompt (now : Z) (l : list (Z * Z)) : Prop :=
  match l with [] => True | (t, _) :: l => t < now + 20 /\ t < 4294967000 /\ prompt (Z.max t now) l end.
Lemma frame_content n q l : forall tl k d (s : A), snd <$> tl = l -> l <> [] -> framing c cd serial_recv_ipd_content n k (m_time s.2 + 20) q d s.1 -> prompt (m_time s.2) tl ->
  0 <= m_time s.2 < 4294967000 -> 0 <= k -> k + Zlen l = n -> n < 65536 -> Zlen d + Zlen l <= cd ->
  exists s', feed tl s = Ok s' /\ idle c cd q (d ++ l) s'.1 /\ m_sem s'.2 = m_sem s.2.
Proof.
  induction l as [|x l IH]; intros tl k d s Etl Hne G Hp Ht Hk Hn Hmax Hroom; [done|]. destruct tl as [|[t x'] tl]; [done|]. cbn in Etl. injection Etl as -> Etl.
  destruct Hp as (Hp1 & Hp2 & Hp). pose proof (Zlen_nonneg l). rewrite Zlen_cons in Hn, Hroom.
  destruct (frame_byte n k _ q d t x s G ltac:(lia) ltac:(lia) ltac:(lia) ltac:(lia) ltac:(lia) ltac:(lia)) as (s1 & E & Hs1 & Ht1 & G1).
  cbn [feed]. rewrite E. cbn [mbind res_bind]. destruct l as [|y l].
  - apply fmap_nil_inv in Etl as ->. change (Zlen (@nil Z)) with 0 in Hn. rewrite (proj2 (Z.leb_le n _)) in G1 by lia. by exists s1.
  - rewrite Zlen_cons in *. pose proof (Zlen_nonneg l). rewrite (proj2 (Z.leb_gt n _)) in G1 by lia. rewrite <- Ht1 in *.
    destruct (IH tl (k + 1) (d ++ [x]) s1 Etl ltac:(done) G1) as (s' & E' & G' & Hs'); [done|lia|lia|lia|done| |].
    { rewrite Zlen_app. change (Zlen [x]) with 1. lia. }
    exists s'. rewrite <- app_assoc in G'. split_and!; [done|done|congruence].
Qed.
End frames.

Lemma value_prefix l1 l2 n : Forall (fun c => 48 <= c <= 57) (l1 ++ l2) -> 0 <= n -> 0 <= value 10 l1 n <= value 10 (l1 ++ l2) n.
Proof.
  intros Hl Hn. unfold value. rewrite foldl_app. apply Forall_app in Hl as [H1 H2].
  assert (forall l m, Forall (fun c => 48 <= c <= 57) l -> 0 <= m -> m <= foldl (fun n c => n * 10 + (c - 48)) m l) as Hgo.
  { induction l as [|x l IH]; intros m Hf Hm; cbn; [lia|]. apply Forall_cons in Hf as [Hx Hf]. specialize (IH (m * 10 + (x - 48)) Hf). lia. }
  pose proof (Hgo l1 n H1 Hn). pose proof (Hgo l2 (foldl (fun n c => n * 10 + (c - 48)) n l1) H2). lia.
Qed.

(** C4: A frame whose length and content arrive in time is delivered: its
    content is appended to the data queue, byte for byte, and the receiver is
    back where it was. The reply lines not yet read are lost. *)
Theorem frame_received (c cd n t1 t2 t3 t4 : Z) (q d data : list Z) (tn tl : list (Z * Z)) (s : A) :
  idle c cd q d s.1 -> Zlen q + 2 <= c -> 0 < n < 65536 -> Zlen data = n -> Zlen d + n <= cd ->
  m_time s.2 <= t3 -> t1 <= t3 -> t2 <= t3 -> 0 <= t3 < 4294966900 ->
  snd <$> tn = dec n -> Forall (fun x => x.1 < t3 + 50) tn -> t4 < t3 + 50 -> snd <$> tl = data ->
  prompt (Z.max t4 (foldl Z.max t3 (fst <$> tn))) tl ->
  exists s', feed ([(t1, 73); (t2, 80); (t3, 68)] ++ tn ++ (t4, 58) :: tl) s = Ok s' /\ idle c cd [] (d ++ data) s'.1 /\ m_sem s'.2 = m_sem s.2.
Proof.
  intros G Hq Hn Hdata Hroom H0 H1 H2 H3 Etn Htn Ht4 Etl Hp.
  destruct (frame_start c cd q d t1 t2 t3 s G Hq H0 H1 H2 ltac:(lia)) as (s1 & E1 & G1 & Ht1 & Hs1). rewrite feed_app, E1. cbn [mbind res_bind].
  pose proof (dec_range n ltac:(lia)) as Hdec. pose proof (value_dec n ltac:(lia)) as Hv.
  destruct (frame_digits c cd (t3 + 50) _ [] d (dec n) tn 0 s1 Etn G1 ltac:(lia) Htn Hdec ltac:(lia)) as (s2 & E2 & G2 & Hs2 & Ht2 & Hd2).
  { intros l1 l2 El. rewrite El in Hdec, Hv. pose proof (value_prefix l1 l2 0 Hdec). lia. }
  rewrite feed_app, E2. cbn [mbind res_bind]. rewrite Hv in G2. rewrite Ht1 in Ht2.
  assert (t3 <= m_time s2.2) as Hge.
  { rewrite Ht2. clear. generalize (fst <$> tn). intros l. revert t3. induction l as [|x l IH]; intros t3; cbn; [lia|]. specialize (IH (Z.max t3 x)). lia. }
  destruct (frame_colon c cd n _ (t3 + 50) [] d t4 s2 G2 ltac:(lia) ltac:(lia) ltac:(lia)) as (s3 & E3 & G3 & Hs3 & Ht3).
  cbn [feed]. rewrite E3. cbn [mbind res_bind]. rewrite <- Ht3 in G3.
  destruct (frame_content c cd n [] data tl 0 d s3 Etl) as (s' & E & G' & Hs'); [|exact G3| |lia|lia|lia|lia|lia|].
  { intros ->. change (Zlen (@nil Z)) with 0 in Hdata. lia. }
  { rewrite Ht3, Ht2. exact Hp. }
  exists s'. split_and!; [done|done|congruence].
Qed.

Lemma ex_idle : idle 64 32 [] [] ex_atcmd.
Proof.
  by split.
Qed.
(** The frame IPD12: with twelve bytes of which two are ends of lines. *)
Lemma frame_received_witness :
  exists s', feed ([(1, 73); (2, 80); (3, 68)] ++ [(4, 49); (5, 50)] ++ (6, 58) :: ((fun b => (7, b)) <$> [1; 2; 3; 13; 10; 6; 7; 8; 9; 13; 10; 0]))
    (ex_atcmd, MkModem 0 0 [] []) = Ok s' /\ contents (ipd_rb s'.1) = [1; 2; 3; 13; 10; 6; 7; 8; 9; 13; 10; 0].
Proof.
  destruct (frame_received 64 32 12 1 2 3 6 [] [] [1; 2; 3; 13; 10; 6; 7; 8; 9; 13; 10; 0] [(4, 49); (5, 50)]
    ((fun b => (7, b)) <$> [1; 2; 3; 13; 10; 6; 7; 8; 9; 13; 10; 0]) (ex_atcmd, MkModem 0 0 [] [])) as (s' & E & G & _);
    [apply ex_idle|by vm_compute|lia|done|by vm_compute|by vm_compute|lia|lia|lia|by vm_compute|by repeat constructor|lia|done|by vm_compute|].
  exists s'. split; [exact E|]. by destruct (g_ipd _ _ _ _ _ _ G) as (_ & _ & ->).
Defined.

(** A frame that breaks off does not take the reply behind it along:
    when the modem's next line begins after the receiver's deadline, a waiting
    command gets that line, whole. *)
Theorem line_after_broken_frame (c cd due T t b ms : Z) (q d txt : list Z) (tl r : list (Z * Z)) (s : A) (m : recv_state) (n k : Z) :
  framing c cd m n k due q d s.1 -> m <> serial_recv_serial_default -> due <= t -> m_sem s.2 = 0 -> m_in s.2 = ((t, b) :: tl) ++ r -> line_of ((t, b) :: tl) txt ->
  Zlen q + Zlen txt + 1 <= c -> Forall (fun x => x.1 <= T) ((t, b) :: tl) -> m_time s.2 <= T <= m_time s.2 + ms ->
  exists s', os_pend_sem ms s = Ok (s', 1) /\ idle c cd (q ++ txt ++ [0]) d s'.1 /\ m_sem s'.2 = 0 /\ m_in s'.2 = r.
Proof.
  intros G Hm Hdue Hsem Ein Hl Hroom Htimes HT. destruct G as [Hr _ _ Hd Hi].
  destruct (pend_line c cd q d txt ((t, b) :: tl) r (m_time s.2 + ms) T (set_recv serial_recv_serial_default s.1, s.2) Hi Hsem Hl Hroom Htimes ltac:(cbn; lia) ltac:(lia))
    as (s' & E & G' & Hs' & Hin & _). exists s'. split; [|done]. cbn [os_pend_sem modem_waiting]. rewrite Ein, <- E. cbn [app pend]. cbn [snd fst]. rewrite Hsem.
  change (0 <? 0) with false. cbv iota. apply Forall_cons in Htimes as [Ht _]. cbn [fst] in Ht. rewrite (proj2 (Z.leb_le t _)) by lia.
  assert (arrive t b s = arrive t b (set_recv serial_recv_serial_default s.1, s.2)) as ->; [|done].
  unfold arrive. rewrite late_byte; [|cbn; by rewrite Hr|cbn; lia]. by rewrite (default_at c cd [] q d b (set_time (Z.max t (m_time (set_recv serial_recv_serial_default s.1, s.2).2)) (set_recv serial_recv_serial_default s.1, s.2)) Hi).
Qed.

Lemma line_after_broken_frame_witness :
  exists s', os_pend_sem 100 (set_due 20 (set_recv serial_recv_ipd_content ex_atcmd), MkModem 5 0 [(30, 79); (30, 75); (30, 13); (30, 10)] []) = Ok (s', 1) /\
    contents (rb s'.1) = [79; 75; 0].
Proof.
  destruct (line_after_broken_frame 64 32 20 30 30 79 100 [] [] [79; 75] [(30, 75); (30, 13); (30, 10)] []
    (set_due 20 (set_recv serial_recv_ipd_content ex_atcmd), MkModem 5 0 [(30, 79); (30, 75); (30, 13); (30, 10)] []) serial_recv_ipd_content 0 0)
    as (s' & E & G & _); [split; try done; destruct ex_idle; by split|done|lia|done|done| |by vm_compute|by repeat constructor|cbn; lia|].
  { split; [done|]. split; [by repeat constructor|]. intros [x Ex]. discriminate. }
  exists s'. split; [exact E|]. by destruct (g_rb _ _ _ _ _ _ G) as (_ & _ & ->).
Defined.

(** ** Answers *)
Lemma ex_text l : forallb (fun c => negb (c =? 0) && negb (c =? 10) && negb (c =? 13)) l = true -> bool_decide (str "IPD" `prefix_of` l) = false -> text l.
Proof.
  intros Hl Hn. split; [|by apply bool_decide_eq_false in Hn]. apply Forall_forall. intros c Hc%list_elem_of_In. rewrite forallb_forall in Hl.
  specialize (Hl c Hc). bool_to_prop. done.
Qed.
Definition at_once (t : Z) (l : list Z) : list (Z * Z) := (fun b => (t, b)) <$> (l ++ [13; 10]).
Lemma ex_line t l : text l -> line_of (at_once t l) l.
Proof. intros Hl. split; [|done]. unfold at_once. rewrite <- list_fmap_compose. cbn. apply list_fmap_id. Qed.

(** A modem that says RING before it answers. *)
Definition ex_modem : modem := MkModem 5 3 (at_once 50 (str "RING") ++ at_once 60 (csq 17 0) ++ [(70, 79)]) [].
Lemma command_gets_reply_witness :
  exists s' buf', atcmd_exec_command 5 (Some (str "AT+CSQ" ++ [0])) (Some (MkExp (Some (str "+CSQ" ++ [0])) None 0)) 500 (ex_atcmd, ex_modem) =
      Ok (s', (1, written buf' (keep None 0 (csq 17 0 ++ [0])))) /\ m_out s'.2 = str "AT+CSQ" ++ [13] /\ m_in s'.2 = [(70, 79)].
Proof.
  destruct (command_gets_reply 5 (str "AT+CSQ") [] (str "+CSQ") [] None 0 500 64 32 60 [] [] (csq 17 0) [(at_once 50 (str "RING"), str "RING")]
    (at_once 60 (csq 17 0)) [(70, 79)] (ex_atcmd, ex_modem)) as (s' & buf' & E & _ & Eo & Ei & _);
    [cbn; lia|by apply str_nonzero|done|by apply str_nonzero|by vm_compute|by left|apply ex_idle|by vm_compute| | |by vm_compute|by apply (bool_decide_unpack _)|
     by repeat constructor|by vm_compute|by vm_compute|].
  { apply Forall_singleton. split; [by apply ex_line, ex_text|]. split; [by vm_compute|]. by apply (bool_decide_eq_false_1 _). }
  { by apply ex_line, ex_text. }
  exists s', buf'. split; [exact E|]. split; [rewrite Eo; by vm_compute|done].
Defined.
Lemma signal_quality_read_witness :
  exists s', atcmd_get_signal_quality 5 (fun n => replicate (Z.to_nat n) 1) (ex_atcmd, ex_modem) = Ok (s', Some (17, 0)) /\ m_out s'.2 = str "AT+CSQ" ++ [13].
Proof.
  destruct (signal_quality_read 5 (fun n => replicate (Z.to_nat n) 1) 64 32 60 17 0 [] [] [(at_once 50 (str "RING"), str "RING")]
    (at_once 60 (csq 17 0)) [(70, 79)] (ex_atcmd, ex_modem)) as (s' & E & Eo & _);
    [cbn; lia|by vm_compute|lia|lia|apply ex_idle|lia|by vm_compute| |by apply ex_line, ex_text|by repeat constructor|by vm_compute|by vm_compute|].
  { apply Forall_singleton. split; [by apply ex_line, ex_text|]. split; [by vm_compute|]. by apply (bool_decide_eq_false_1 _). }
  exists s'. split; [exact E|]. rewrite Eo. by vm_compute.
Defined.

(** ** Silence *)
Lemma exec_silent fuel l z p buf n ms (s : A) : (0 < fuel)%nat -> Forall (fun c => c <> 0) l -> l <> [] -> m_in s.2 = [] -> 0 < ms -> 0 <= m_time s.2 -> m_time s.2 + ms < 4294967296 ->
  exists s', atcmd_exec_command fuel (Some (l ++ 0 :: z)) (Some (MkExp (Some p) buf n)) ms s = Ok (s', (0, buf)) /\
    m_out s'.2 = m_out s.2 ++ l ++ [13] /\ m_in s'.2 = [] /\ m_time s'.2 = m_time s.2 + ms.
Proof.
  intros Hf Hl Hne Ein Hms H0 Hmax. rewrite exec_sends by done. set (s1 := commanded (l ++ [13]) s).
  unfold atcmd_exec_command. erewrite M_bind_Ok by reflexivity. unfold do_expect. erewrite M_bind_Ok by reflexivity. cbn [fst snd].
  destruct fuel as [|f]; [lia|]. cbn [expect_loop]. change (m_time s1.2) with (m_time s.2). rewrite wrap_small by (pow2_norm; lia).
  rewrite (proj2 (Z.ltb_lt (m_time s.2) _)) by lia. replace (m_time s.2 + ms - m_time s.2) with ms by lia. rewrite wrap_small by (pow2_norm; lia).
  assert (os_pend_sem ms (s1.1, s1.2) = Ok (set_in [] (set_time (m_time s.2 + ms) s1), 0)) as E.
  { cbn [os_pend_sem modem_waiting]. change (m_in (s1.1, s1.2).2) with (m_in s.2). rewrite Ein. reflexivity. }
  rewrite (M_bind_Ok _ _ _ _ _ E). cbn [Z.eqb]. eexists. split; [done|]. done.
Qed.
Lemma retry_gives_up_eq (fuel times : nat) (cmd z reply : list Z) (ms : Z) (s : A) :
  (0 < fuel)%nat -> Forall (fun c => c <> 0) cmd -> cmd <> [] -> m_in s.2 = [] -> 0 < ms -> 0 <= m_time s.2 -> m_time s.2 + Z.of_nat times * ms < 4294967296 ->
  exists s', atcmd_retry_until_reply fuel (Some (cmd ++ 0 :: z)) (Some reply) ms times s = Ok (s', 0) /\
    m_out s'.2 = m_out s.2 ++ concat (replicate times (cmd ++ [13])) /\ m_time s'.2 = m_time s.2 + Z.of_nat times * ms /\ m_in s'.2 = [].
Proof.
  intros Hf Hc Hne Ein Hms H0 Hmax. revert s Ein H0 Hmax. induction times as [|times IH]; intros s Ein H0 Hmax; cbn [atcmd_retry_until_reply replicate concat].
  { exists s. rewrite app_nil_r. split; [done|]. split; [done|]. split; [lia|done]. }
  destruct (exec_silent fuel cmd z reply None 0 ms s) as (s1 & E & Eo & Ei & Et); [done..|nia|].
  unfold exec at 1. rewrite (M_bind_Ok _ _ s s1 false) by (by rewrite (M_bind_Ok _ _ _ _ _ E)). cbv iota.
  destruct (IH s1 Ei ltac:(lia)) as (s' & E' & Eo' & Et' & Ei'); [rewrite Et; nia|]. exists s'. split; [exact E'|]. rewrite Eo', Eo, Et', Et.
  split; [by rewrite <- !app_assoc|]. split; [lia|done].
Qed.
(** A command that is repeated until its reply comes gives up after the
    number of attempts asked for: a silent modem has then been sent the
    command that often, and the wait has taken so many timeouts. *)
Theorem retry_gives_up (fuel times : nat) (cmd z reply : list Z) (ms : Z) (s : A) :
  (0 < fuel)%nat -> Forall (fun c => c <> 0) cmd -> cmd <> [] -> m_in s.2 = [] -> 0 < ms -> 0 <= m_time s.2 -> m_time s.2 + Z.of_nat times * ms < 4294967296 ->
  exists s', atcmd_retry_until_reply fuel (Some (cmd ++ 0 :: z)) (Some reply) ms times s = Ok (s', 0) /\
    m_out s'.2 = m_out s.2 ++ concat (replicate times (cmd ++ [13])) /\ m_time s'.2 = m_time s.2 + Z.of_nat times * ms.
Proof. intros Hf Hc Hne Ein Hms H0 Hmax. destruct (retry_gives_up_eq fuel times cmd z reply ms s) as (s' & E & Eo & Et & _); [done..|]. by exists s'. Qed.
Lemma retry_gives_up_witness :
  exists s', atcmd_retry_until_reply 1 (Some (str "AT" ++ [0])) (Some (lit "OK")) 1000 2 (ex_atcmd, MkModem 0 0 [] []) = Ok (s', 0) /\
    m_out s'.2 = [65; 84; 13; 65; 84; 13] /\ m_time s'.2 = 2000.
Proof.
  destruct (retry_gives_up 1 2 (str "AT") [] (lit "OK") 1000 (ex_atcmd, MkModem 0 0 [] [])) as (s' & E & Eo & Et);
    [lia|by apply str_nonzero|done|done|lia|done|by vm_compute|].
  exists s'. split; [exact E|]. split; [rewrite Eo|rewrite Et]; by vm_compute.
Defined.

(** ** Addresses *)
Lemma ip_segment_dec l1 n x r stop : 0 <= n <= 2147483647 -> digit 10 x = None ->
  ip_segment (l1 ++ dec n ++ x :: r) (Zlen l1) stop = Ok (if (255 <? n) || negb (x =? stop) then None else Some (Zlen (l1 ++ dec n))).
Proof.
  intros Hn Hx. unfold ip_segment. rewrite strtol_dec by done. cbn [mbind res_bind].
  rewrite <- Zlen_app, app_assoc, bget_middle. cbn [mbind res_bind]. by rewrite (proj2 (Z.ltb_ge n 0)) by lia.
Qed.
(** Four numbers with dots between them are taken for an address exactly
    when none is above 255; so are three dots without any number. *)
Theorem ip_strings (a b c d : Z) (z : list Z) : 0 <= a <= 2147483647 -> 0 <= b <= 2147483647 -> 0 <= c <= 2147483647 -> 0 <= d <= 2147483647 ->
  is_ip_string (Some (dec a ++ 46 :: dec b ++ 46 :: dec c ++ 46 :: dec d ++ 0 :: z)) =
    Ok (cbool ((a <=? 255) && (b <=? 255) && (c <=? 255) && (d <=? 255))) /\
  is_ip_string (Some (lit "...")) = Ok 1.
Proof.
  intros Ha Hb Hc Hd. split; [|done]. unfold is_ip_string.
  assert (forall n, (255 <? n) = negb (n <=? 255)) as Hneg by (intros n; destruct (Z.ltb_spec 255 n), (Z.leb_spec n 255); lia || done).
  pose proof (ip_segment_dec [] a 46 (dec b ++ 46 :: dec c ++ 46 :: dec d ++ 0 :: z) 46 Ha eq_refl) as E. change (Zlen (@nil Z)) with 0 in E. cbn [app] in E.
  rewrite E. cbn [mbind res_bind]. rewrite Hneg, Z.eqb_refl. cbn [negb]. rewrite orb_false_r. destruct (a <=? 255); [|done]. cbn [negb andb].
  pose proof (ip_segment_dec (dec a ++ [46]) b 46 (dec c ++ 46 :: dec d ++ 0 :: z) 46 Hb eq_refl) as E2. rewrite Zlen_app in E2. change (Zlen [46]) with 1 in E2.
  rewrite <- app_assoc in E2. cbn [app] in E2. rewrite E2. cbn [mbind res_bind]. rewrite Hneg, Z.eqb_refl. cbn [negb]. rewrite orb_false_r. destruct (b <=? 255); [|done]. cbn [negb andb].
  pose proof (ip_segment_dec (((dec a ++ [46]) ++ dec b) ++ [46]) c 46 (dec d ++ 0 :: z) 46 Hc eq_refl) as E3. rewrite (Zlen_app _ [46]) in E3. change (Zlen [46]) with 1 in E3.
  rewrite <- !app_assoc in E3. cbn [app] in E3. rewrite <- !app_assoc. cbn [app]. rewrite E3. cbn [mbind res_bind]. rewrite Hneg, Z.eqb_refl. cbn [negb]. rewrite orb_false_r. destruct (c <=? 255); [|done]. cbn [negb andb].
  pose proof (ip_segment_dec (dec a ++ 46 :: dec b ++ 46 :: dec c ++ [46]) d 0 z 0 Hd eq_refl) as E4.
  assert (Zlen (dec a ++ 46 :: dec b ++ 46 :: dec c ++ [46]) = Zlen (dec a ++ 46 :: dec b ++ 46 :: dec c) + 1) as El by (zlen; lia).
  rewrite El in E4. rewrite <- !app_assoc in E4. cbn [app] in E4. rewrite <- !app_assoc in E4. cbn [app] in E4. rewrite <- !app_assoc in E4. cbn [app] in E4. rewrite E4. cbn [mbind res_bind]. rewrite Hneg, Z.eqb_refl. cbn [negb]. rewrite orb_false_r. by destruct (d <=? 255).
Qed.
Lemma ip_strings_witness : is_ip_string (Some (str "10.0.0.256" ++ [0])) = Ok 0.
Proof. exact (proj1 (ip_strings 10 0 0 256 [] ltac:(lia) ltac:(lia) ltac:(lia) ltac:(lia))). Defined.
