(* ===== verification/Hcs12.v ===== *)
(** The peripherals of the HCS12 microcontroller, src/src/platform_hw/hcs12:
    GPIO pins (hcs12_gpio.c), SPI (hcs12_spi.c), the serial port of the RS-485
    buses (hcs12_rs485_bus.c) and the bus clock (hcs12_misc.c), over their
    memory-mapped registers, and simulated units they are run against. The
    I2C controller is in Hcs12I2c.v. *)
From S2P Require Import Prelude Bus.

(** ** Registers

    What a register holds and what an access does is up to the hardware [W];
    [R] names the registers of a unit. *)
Class Regs (R W : Type) := { rd : R -> M W Z; wr : R -> Z -> M W unit }.
Section access.
  Context {R W : Type} `{Regs R W}.
(** [r |= m], [r &= ~m] and the assignment to a field of one bit. *)
Definition set_bits (r : R) (m : Z) : M W unit := x ← rd r; wr r (u8 (Z.lor x m)).
Definition clear_bits (r : R) (m : Z) : M W unit := x ← rd r; wr r (u8 (Z.land x (Z.lnot m))).
Definition set_field (r : R) (n : Z) (v : bool) : M W unit :=
  x ← rd r; wr r (if v then Z.setbit x n else Z.clearbit x n).
Definition field (r : R) (n : Z) : M W bool := x ← rd r; mret (Z.testbit x n).
End access.

(** ** hcs12_gpio.c

    [struct hcs12_gpio]: the addresses of the registers and the pin's mask. *)
Record hcs12_gpio := MkPin { in_reg : Z; out_reg : Z; dir_reg : Z; bit : Z }.
Section gpio.
  Context {W : Type} `{Regs Z W}.

Definition hcs12_gpio_init (io : hcs12_gpio) (mode : gpio_mode) : M W Z :=
  if bool_decide (mode = GPIO_MODE_OUTPUT_PUSHPULL) || bool_decide (mode = GPIO_MODE_OUTPUT_OPENDRAIN) then
    _ ← set_bits (dir_reg io) (bit io); mret 1
  else if bool_decide (mode = GPIO_MODE_INPUT) then
    _ ← clear_bits (dir_reg io) (bit io); mret 1
  else mret 0.
(** The test [*reg & io->bit]. *)
Definition masked (reg : Z) (io : hcs12_gpio) : M W bool :=
  x ← rd reg; mret (ctrue (Z.land x (bit io))).
Definition hcs12_gpio_get_mode (io : hcs12_gpio) : M W gpio_mode :=
  out ← masked (dir_reg io) io;
  mret (if (out : bool) then GPIO_MODE_OUTPUT_PUSHPULL else GPIO_MODE_INPUT).
Definition hcs12_gpio_input_is_high (io : hcs12_gpio) : M W Z :=
  out ← masked (dir_reg io) io;
  if (out : bool) then mret 0 else x ← masked (in_reg io) io; mret (cbool x).
Definition hcs12_gpio_output_is_high (io : hcs12_gpio) : M W Z :=
  out ← masked (dir_reg io) io;
  if (out : bool) then x ← masked (out_reg io) io; mret (cbool x) else mret 0.
Definition hcs12_gpio_set_output (io : hcs12_gpio) (is_high : Z) : M W Z :=
  out ← masked (dir_reg io) io;
  if (out : bool) then
    _ ← (if ctrue is_high then set_bits (out_reg io) (bit io) else clear_bits (out_reg io) (bit io));
    mret 1
  else mret 0.
(** [pins] gives the structure a pin's number stands for. *)
Definition hcs12_gpio_ops (pins : Z -> hcs12_gpio) : GpioOps W := {|
  gpio_ops_init := fun io mode => hcs12_gpio_init (pins io) mode;
  gpio_ops_get_mode := fun io => hcs12_gpio_get_mode (pins io);
  gpio_ops_input_is_high := fun io => hcs12_gpio_input_is_high (pins io);
  gpio_ops_output_is_high := fun io => hcs12_gpio_output_is_high (pins io);
  gpio_ops_set_output := fun io is_high => hcs12_gpio_set_output (pins io) is_high
|}.
End gpio.

(** ** hcs12_spi.c *)
Inductive hcs12_spi_regs := cr1 | cr2 | br | sr | dr.
Record hcs12_spi_platform := MkSpi { baud_reg_value : Z; cs_num : Z; cs_pins : list hcs12_gpio }.
Section spi.
  Context {W : Type} `{Regs Z W} `{Regs hcs12_spi_regs W} (platform : hcs12_spi_platform).
  (** The bit numbers of the fields [SPTEF] and [SPIF], and what the local
      variable of spi.c holds before it is set. *)
  Context (SPTEF SPIF garbage : Z).

Fixpoint init_cs (n : nat) (temp : Z) : M W unit :=
  match n with
  | O => mret tt
  | S n =>
    io ← pure (bget (cs_pins platform) temp);
    _ ← hcs12_gpio_init io GPIO_MODE_OUTPUT_PUSHPULL;
    _ ← hcs12_gpio_set_output io 1;
    init_cs n (temp + 1)
  end.
Definition spi_control (flags : Z) : Z :=
  let temp := Z.lor (Z.shiftl 1 6) (Z.shiftl 1 4) in
  let temp := if ctrue (Z.land flags SPI_FLAG_CLK_IDLE_HIGH) then Z.lor temp (Z.shiftl 1 3) else temp in
  let temp := if Z.land flags SPI_FLAG_CLK_FIRST_EDGE =? 0 then Z.lor temp (Z.shiftl 1 2) else temp in
  if ctrue (Z.land flags SPI_FLAG_LSB_FIRST) then Z.lor temp 1 else temp.
Definition hcs12_spi_init (flags : Z) : M W Z :=
  _ ← wr cr1 (spi_control flags);
  _ ← wr cr2 (Z.shiftl 1 1);
  _ ← wr br (baud_reg_value platform);
  _ ← init_cs (Z.to_nat (cs_num platform)) 0;
  mret 1.
Definition hcs12_spi_deinit : M W unit := mret tt.
Definition hcs12_spi_select (which is_select : Z) : M W Z :=
  if cs_num platform <=? which then mret 0 else
  io ← pure (bget (cs_pins platform) which);
  _ ← hcs12_gpio_set_output io (cbool (0 =? is_select));
  mret 1.
Fixpoint wait_flag (fuel : nat) (flag i : Z) : M W bool :=
  match fuel with
  | O => pure (Err NoFuel)
  | S fuel =>
    x ← field sr flag;
    if (x : bool) then mret true else
    if 10000 <? i then mret false else wait_flag fuel flag (u16 (i + 1))
  end.
(** The most polls there are: [i] goes from 0 to 10001. *)
Definition POLLS : nat := Z.to_nat 10002.
(** The byte behind the pointer and the result. *)
Definition hcs12_spi_transmit_byte (dat : Z) : M W (Z * Z) :=
  ok ← wait_flag POLLS SPTEF 0;
  if negb ok then mret (dat, 0) else
  _ ← wr dr dat;
  ok ← wait_flag POLLS SPIF 0;
  if negb ok then mret (dat, 0) else
  dat ← rd dr;
  mret (dat, 1).
Definition hcs12_spi_transfer (r w : option (list Z)) (len : Z) : M W (Z * option (list Z)) :=
  spi_transfer_use_transmit_onebyte hcs12_spi_transmit_byte garbage r w len.
Definition hcs12_spi_ops : SpiOps W := {|
  spi_ops_init := hcs12_spi_init;
  spi_ops_deinit := hcs12_spi_deinit;
  spi_ops_select := hcs12_spi_select;
  spi_ops_transmit_byte := hcs12_spi_transmit_byte;
  spi_ops_transfer := hcs12_spi_transfer
|}.
End spi.

(** ** hcs12_misc.c *)
Inductive crg_regs := SYNR | REFDV | CLKSEL.
Definition HCS12_OSCFREQ := 8000000.
Section clock.
  Context {W : Type} `{Regs crg_regs W} (CLKSEL_PLLSEL_MASK : Z).

Definition hcs12_get_bus_clock : M W Z :=
  s ← rd SYNR;
  let mul := u8 (Z.land s 63 + 1) in
  r ← rd REFDV;
  let div := u8 (Z.land r 63 + 1) in
  c ← rd CLKSEL;
  clk_freq ← pure (if 0 <? Z.land c CLKSEL_PLLSEL_MASK then
                     if div =? 0 then Err DivByZero else Ok (u32 (u32 (HCS12_OSCFREQ * 2) * mul) / div)
                   else Ok HCS12_OSCFREQ);
  mret (clk_freq / 2).
End clock.

(** ** hcs12_rs485_bus.c *)
Inductive sci_regs := bdh_asr1 | bdl_acr1 | cr1_acr2 | sci_cr2 | sr1 | sr2 | drh | drl.
(** [struct hcs12_rs485_bus]; the numbers stand for what the pointers point
    to. *)
Record hcs12_rs485_bus := MkRs { rs_dat : Z; on_recv_byte : option Z }.
Section rs485.
  Context {W : Type} `{Regs crg_regs W} `{Regs sci_regs W} (CLKSEL_PLLSEL_MASK : Z).
  (** The width of [int], which decides where [baud << 4] wraps around; the
      rounds given to the waiting loop; and the receivers. *)
  Context (int_bits : Z) (fuel : nat) (recv : Z -> Z -> Z -> M W unit).
Notation B := (hcs12_rs485_bus * W)%type.

Definition hcs12_rs485_bus_init (dat : Z) (cb : option Z) : M B Z :=
  _ ← update (fun _ => MkRs dat cb);
  _ ← lift (wr cr1_acr2 0);
  _ ← lift (wr sci_cr2 (Z.lor (Z.lor (Z.shiftl 1 3) (Z.shiftl 1 2)) (Z.shiftl 1 5)));
  mret 1.
(** A [uint16_t] shifted to the left: of type [int], or of type [unsigned]
    where [int] has 16 bits. *)
Definition shl16 (x n : Z) : Z := if int_bits =? 16 then u16 (Z.shiftl x n) else Z.shiftl x n.
Definition baud_div (bus_clk baud : Z) : res Z :=
  if shl16 baud 4 =? 0 then Err DivByZero else Ok (u16 (u32 (bus_clk + shl16 baud 3) / shl16 baud 4)).
Definition hcs12_rs485_bus_set_baud (baud : Z) : M B Z :=
  bus_clk ← lift (hcs12_get_bus_clock CLKSEL_PLLSEL_MASK);
  div ← pure (baud_div bus_clk baud);
  _ ← lift (wr bdh_asr1 (u8 (Z.shiftr div 8)));
  _ ← lift (wr bdl_acr1 (u8 div));
  mret 1.
Fixpoint wait_sent (fuel : nat) : M W unit :=
  match fuel with
  | O => pure (Err NoFuel)
  | S fuel => x ← rd sr1; if Z.land x (Z.shiftl 1 7) =? 0 then wait_sent fuel else mret tt
  end.
Definition hcs12_rs485_bus_tx_byte (b : Z) : M B Z :=
  _ ← lift (wr drl b);
  _ ← lift (wait_sent fuel);
  mret 1.
Definition hcs12_rs485_bus_isr : M B unit :=
  status ← lift (rd sr1);
  d ← lift (rd drl);
  if negb (Z.land status (Z.shiftl 1 5) =? 0) then
    bus ← self;
    match on_recv_byte bus with Some f => lift (recv f (rs_dat bus) d) | None => mret tt end
  else mret tt.
Definition hcs12_rs485_bus_ops (dat : Z) (cb : option Z) : Rs485Ops B := {|
  rs485_ops_init := hcs12_rs485_bus_init dat cb;
  rs485_ops_set_baud := hcs12_rs485_bus_set_baud;
  rs485_ops_tx_byte := hcs12_rs485_bus_tx_byte
|}.
End rs485.

(** ** Ports

    Registers that are plain memory: what the pins of a port show. *)
Definition ports : Type := Z -> Z.
#[export] Instance ports_regs : Regs Z ports := {
  rd := fun a m => Ok (m, m a);
  wr := fun a v m => Ok (fun x => if x =? a then v else m x, tt)
}.
Definition bytes (m : ports) : Prop := forall a, is_u8 (m a).
Record pin_ok (p : hcs12_gpio) : Prop := {
  bit_ok : 0 < bit p < 256;
  regs_apart : dir_reg p <> out_reg p
}.
(** Two pins do not share a bit of a register. *)
Record apart (p q : hcs12_gpio) : Prop := {
  dir_apart : dir_reg p = dir_reg q -> Z.land (bit p) (bit q) = 0;
  out_apart : out_reg p = out_reg q -> Z.land (bit p) (bit q) = 0;
  dir_out : dir_reg p <> out_reg q;
  out_dir : out_reg p <> dir_reg q;
  dir_in : dir_reg p <> in_reg q;
  out_in : out_reg p <> in_reg q
}.
(** All that can be read of a pin. *)
Definition observe {W} `{Regs Z W} (io : hcs12_gpio) : M W (gpio_mode * Z * Z) :=
  m ← hcs12_gpio_get_mode io; i ← hcs12_gpio_input_is_high io; o ← hcs12_gpio_output_is_high io; mret (m, i, o).

Lemma land_set x b : Z.land (Z.lor x b) b = b.
Proof. apply Z.bits_inj'. intros n _. rewrite Z.land_spec, Z.lor_spec. by destruct (Z.testbit x n), (Z.testbit b n). Qed.
Lemma land_clear x b : Z.land (Z.land x (Z.lnot b)) b = 0.
Proof.
  apply Z.bits_inj'. intros n Hn. rewrite !Z.land_spec, Z.lnot_spec, Z.bits_0 by done. by destruct (Z.testbit x n), (Z.testbit b n).
Qed.
Lemma land_apart b c n : Z.land b c = 0 -> Z.testbit b n && Z.testbit c n = false.
Proof. intros E. by rewrite <- Z.land_spec, E, Z.bits_0. Qed.
Lemma land_set_apart x b c : Z.land b c = 0 -> Z.land (Z.lor x b) c = Z.land x c.
Proof.
  intros E. apply Z.bits_inj'. intros n _. rewrite !Z.land_spec, Z.lor_spec. pose proof (land_apart b c n E).
  destruct (Z.testbit x n), (Z.testbit b n), (Z.testbit c n); done.
Qed.
Lemma land_clear_apart x b c : Z.land b c = 0 -> Z.land (Z.land x (Z.lnot b)) c = Z.land x c.
Proof.
  intros E. apply Z.bits_inj'. intros n Hn. rewrite !Z.land_spec, Z.lnot_spec by done. pose proof (land_apart b c n E).
  destruct (Z.testbit x n), (Z.testbit b n), (Z.testbit c n); done.
Qed.
Lemma lor_u8 x b : is_u8 x -> 0 < b < 256 -> is_u8 (Z.lor x b).
Proof.
  unfold in_range. change (2 ^ 8) with 256. intros Hx Hb. split; [apply Z.lor_nonneg; lia|].
  destruct (Z.eqb_spec (Z.lor x b) 0); [lia|]. apply (Z.log2_lt_pow2 _ 8).
  { assert (0 <= Z.lor x b) by (apply Z.lor_nonneg; lia). lia. }
  rewrite Z.log2_lor by lia. apply Z.max_lub_lt; [|by apply Z.log2_lt_pow2; change (2 ^ 8) with 256; lia].
  destruct (Z.eq_dec x 0) as [-> | ]; [by cbn|]. apply Z.log2_lt_pow2; change (2 ^ 8) with 256; lia.
Qed.
Lemma land_u8 x y : is_u8 x -> is_u8 (Z.land x y).
Proof.
  unfold in_range. intros Hx. assert (Z.land x y = Z.land x y mod 2 ^ 8) as ->; [|apply Z.mod_pos_bound; lia].
  rewrite <- Z.land_ones by lia. apply Z.bits_inj'. intros n Hn. rewrite !Z.land_spec.
  destruct (Z.ltb_spec n 8); [by rewrite Z.ones_spec_low, andb_true_r by lia|].
  rewrite Z.ones_spec_high, andb_false_r by lia. by rewrite <- (Z.mod_small x (2 ^ 8)), Z.mod_pow2_bits_high by lia.
Qed.

Section pins.
  Implicit Types (p q : hcs12_gpio) (m : ports).
Definition written_port (a v : Z) (m : ports) : ports := fun x => if x =? a then v else m x.
Lemma written_eq a v m : written_port a v m a = v.
Proof. unfold written_port. by rewrite Z.eqb_refl. Qed.
Lemma written_ne a v m x : a <> x -> written_port a v m x = m x.
Proof. intros. unfold written_port. by rewrite (proj2 (Z.eqb_neq x a)). Qed.
Lemma written_bytes a v m : bytes m -> is_u8 v -> bytes (written_port a v m).
Proof. intros Hm Hv x. unfold written_port. by case_match. Qed.

(** What is seen of a pin, as a function of the registers. *)
Definition is_out q m : bool := ctrue (Z.land (m (dir_reg q)) (bit q)).
Definition seen q m : gpio_mode * Z * Z :=
  if is_out q m then (GPIO_MODE_OUTPUT_PUSHPULL, 0, cbool (ctrue (Z.land (m (out_reg q)) (bit q))))
  else (GPIO_MODE_INPUT, cbool (ctrue (Z.land (m (in_reg q)) (bit q))), 0).
Lemma observe_eq q m : observe q m = Ok (m, seen q m).
Proof.
  unfold observe, seen, is_out, hcs12_gpio_get_mode, hcs12_gpio_input_is_high, hcs12_gpio_output_is_high, masked, mbind, M_bind, mret, M_ret. cbn.
  destruct (ctrue (Z.land (m (dir_reg q)) (bit q))) eqn:E; by rewrite ?E.
Qed.
Lemma set_bits_eq (a b : Z) m : bytes m -> 0 < b < 256 -> set_bits a b m = Ok (written_port a (Z.lor (m a) b) m, tt).
Proof. intros Hm Hb. unfold set_bits, mbind, M_bind. cbn. by rewrite wrap_small by (by apply lor_u8). Qed.
Lemma clear_bits_eq (a b : Z) m : bytes m -> clear_bits a b m = Ok (written_port a (Z.land (m a) (Z.lnot b)) m, tt).
Proof. intros Hm. unfold clear_bits, mbind, M_bind. cbn. by rewrite wrap_small by (by apply land_u8). Qed.
Lemma set_output_eq p v m : bytes m -> 0 < bit p < 256 ->
  hcs12_gpio_set_output p v m =
    Ok (if is_out p m then (written_port (out_reg p) (if ctrue v then Z.lor (m (out_reg p)) (bit p) else Z.land (m (out_reg p)) (Z.lnot (bit p))) m, 1)
        else (m, 0)).
Proof.
  intros Hm Hb. unfold hcs12_gpio_set_output. rewrite (M_bind_Ok _ _ m m (is_out p m)) by done. destruct (is_out p m); [|done].
  destruct (ctrue v); [rewrite (M_bind_Ok _ _ _ _ _ (set_bits_eq _ _ _ Hm Hb))|rewrite (M_bind_Ok _ _ _ _ _ (clear_bits_eq _ _ _ Hm))]; done.
Qed.

(** Making a pin an output and setting it drives the pin, is read back,
    and changes nothing that can be read of the other pins; a pin that is an
    input refuses to be set. *)
Lemma hcs12_gpio_drives p v m : pin_ok p -> bytes m ->
  exists m', (_ ← hcs12_gpio_init p GPIO_MODE_OUTPUT_PUSHPULL; hcs12_gpio_set_output p v) m = Ok (m', 1) /\ bytes m' /\
    observe p m' = Ok (m', (GPIO_MODE_OUTPUT_PUSHPULL, 0, cbool (ctrue v))) /\
    (forall q, apart p q -> seen q m' = seen q m).
Proof.
  intros [Hb Hr] Hm. unfold hcs12_gpio_init. rewrite bool_decide_eq_true_2 by done. cbn [orb].
  erewrite M_bind_Ok by (rewrite (M_bind_Ok _ _ _ _ _ (set_bits_eq _ _ _ Hm Hb)); reflexivity).
  set (m1 := written_port (dir_reg p) _ m). assert (bytes m1) as Hm1 by (by apply written_bytes, lor_u8).
  rewrite set_output_eq by done.
  assert (is_out p m1 = true) as Ho.
  { unfold is_out, m1. rewrite written_eq, land_set. apply negb_true_iff, Z.eqb_neq. lia. }
  rewrite Ho. eexists. split; [done|]. split; [|split].
  - apply written_bytes; [done|]. destruct (ctrue v); [by apply lor_u8|by apply land_u8].
  - rewrite observe_eq. unfold seen, is_out. rewrite written_ne by done. fold (is_out p m1). rewrite Ho. rewrite written_eq.
    destruct (ctrue v); [|by rewrite land_clear]. rewrite land_set. unfold ctrue. by rewrite (proj2 (Z.eqb_neq _ 0)) by lia.
  - intros q [H1 H2 H3 H4 H5 H6]. unfold seen, is_out. rewrite (written_ne (out_reg p) _ m1 (dir_reg q)), (written_ne (out_reg p) _ m1 (in_reg q)) by done.
    assert (m1 (in_reg q) = m (in_reg q)) as -> by (by apply written_ne). unfold m1 at 1.
    assert (forall a w1 u, (a = dir_reg q -> Z.land w1 (bit q) = Z.land (u a) (bit q)) -> Z.land (written_port a w1 u (dir_reg q)) (bit q) = Z.land (u (dir_reg q)) (bit q)) as Hd.
    { intros a w1 u E. destruct (Z.eq_dec a (dir_reg q)) as [Ea | Ea]; [subst; rewrite written_eq; auto|by rewrite written_ne]. }
    rewrite (Hd (dir_reg p)); [|intros Ea; apply land_set_apart; auto].
    destruct (Z.eq_dec (out_reg p) (out_reg q)) as [Ea | Ea].
    + rewrite Ea, written_eq. unfold m1. rewrite <- Ea, (written_ne (dir_reg p) _ m (out_reg p)) by done.
      destruct (ctrue v); [rewrite land_set_apart by auto|rewrite land_clear_apart by auto]; done.
    + rewrite written_ne by done. unfold m1. by rewrite written_ne by done.
Qed.
End pins.

(** ** A simulated SPI unit

    After a byte is written the unit is busy for [s_latency] polls of its
    status register; then the transmitter is empty again (bit 5) and the byte
    shifted in from the slave is there (bit 7) until it is read. *)
Record spi_unit := MkUnit {
  s_control : Z * Z * Z;
  s_latency : nat;
  s_busy : nat;
  s_full : bool;
  s_data : Z;
  s_in : list Z;
  s_out : list Z;
  s_ports : ports
}.
Definition spi_status (w : spi_unit) : Z :=
  if bool_decide (s_busy w = 0%nat) then Z.b2z (s_full w) * 128 + 32 else 0.
Definition set_busy (n : nat) (w : spi_unit) : spi_unit :=
  MkUnit (s_control w) (s_latency w) n (s_full w) (s_data w) (s_in w) (s_out w) (s_ports w).
#[export] Instance spi_unit_ports : Regs Z spi_unit := {
  rd := fun a w => Ok (w, s_ports w a);
  wr := fun a v w => Ok (MkUnit (s_control w) (s_latency w) (s_busy w) (s_full w) (s_data w) (s_in w) (s_out w) (written_port a v (s_ports w)), tt)
}.
#[export] Instance spi_unit_regs : Regs hcs12_spi_regs spi_unit := {
  rd := fun r w =>
    match r with
    | cr1 => Ok (w, (s_control w).1.1)
    | cr2 => Ok (w, (s_control w).1.2)
    | br => Ok (w, (s_control w).2)
    | sr => Ok (set_busy (pred (s_busy w)) w, spi_status w)
    | dr => Ok (MkUnit (s_control w) (s_latency w) (s_busy w) false (s_data w) (s_in w) (s_out w) (s_ports w), s_data w)
    end;
  wr := fun r v w =>
    let con c := MkUnit c (s_latency w) (s_busy w) (s_full w) (s_data w) (s_in w) (s_out w) (s_ports w) in
    match r with
    | cr1 => Ok (con (v, (s_control w).1.2, (s_control w).2), tt)
    | cr2 => Ok (con ((s_control w).1.1, v, (s_control w).2), tt)
    | br => Ok (con ((s_control w).1.1, (s_control w).1.2, v), tt)
    | sr => Ok (w, tt)
    | dr => Ok (MkUnit (s_control w) (s_latency w) (s_latency w) true (default 255 (head (s_in w))) (tail (s_in w)) (s_out w ++ [v]) (s_ports w), tt)
    end
}.

(** One byte out and one in. *)
Definition shifted (w : spi_unit) (b : Z) : spi_unit * Z :=
  (MkUnit (s_control w) (s_latency w) 0 false (default 255 (head (s_in w))) (tail (s_in w)) (s_out w ++ [b]) (s_ports w), default 255 (head (s_in w))).

Section spi_transfer.
  Implicit Types (w : spi_unit).
(** Polling for a flag that comes with the unit's being ready. *)
Lemma wait_flag_ready (flag : Z) : forall n fuel i w, s_busy w = n -> (n < fuel)%nat -> 0 <= i -> i + Z.of_nat n <= 10001 ->
  Z.testbit (spi_status (set_busy 0 w)) flag = true -> wait_flag fuel flag i w = Ok (set_busy 0 w, true).
Proof.
  induction n as [|n IH]; intros fuel i w En Hf Hi Hn Hb; (destruct fuel as [|fuel]; [lia|]); cbn [wait_flag];
    (unfold field; erewrite M_bind_Ok by reflexivity).
  - unfold spi_status in *. cbn [set_busy s_busy s_full] in Hb. rewrite bool_decide_eq_true_2 in Hb by done.
    rewrite En, bool_decide_eq_true_2, Hb by done. done.
  - unfold spi_status. rewrite En, bool_decide_eq_false_2 by done. rewrite Z.bits_0. cbv iota. rewrite (proj2 (Z.ltb_ge _ _)) by lia.
    rewrite wrap_small by (pow2_norm; lia). cbn [pred]. by rewrite (IH _ _ (set_busy n w)) by (done || cbn; lia).
Qed.
Lemma wait_flag_late (flag : Z) : forall fuel i w, (Z.to_nat (10001 - i) < s_busy w)%nat -> (Z.to_nat (10001 - i) < fuel)%nat -> 0 <= i <= 10001 ->
  wait_flag fuel flag i w = Ok (set_busy (s_busy w - Z.to_nat (10002 - i)) w, false).
Proof.
  induction fuel as [|fuel IH]; intros i w Hb Hf Hi; [lia|]. cbn [wait_flag]. unfold field. erewrite M_bind_Ok by reflexivity.
  destruct (s_busy w) as [|n] eqn:En; [lia|]. unfold spi_status. rewrite En, bool_decide_eq_false_2 by done. rewrite Z.bits_0. cbv iota. cbn [pred].
  destruct (Z.ltb_spec 10000 i).
  - assert (i = 10001) as -> by lia. unfold mret, M_ret. do 3 f_equal. change (Z.to_nat (10002 - 10001)) with 1%nat. lia.
  - rewrite wrap_small by (pow2_norm; lia). rewrite IH by (cbn; lia). cbn [s_busy set_busy].
    by assert (S n - Z.to_nat (10002 - i) = n - Z.to_nat (10002 - (i + 1)))%nat as -> by lia.
Qed.
Lemma hcs12_byte_ok w b : Z.of_nat (s_busy w) <= 10001 -> Z.of_nat (s_latency w) <= 10001 ->
  hcs12_spi_transmit_byte 5 7 b w = Ok ((shifted w b).1, ((shifted w b).2, 1)).
Proof.
  intros H1 H2. unfold hcs12_spi_transmit_byte.
  erewrite M_bind_Ok by (eapply (wait_flag_ready 5); [done|unfold POLLS; lia|lia|lia|]; unfold spi_status; cbn; by destruct (s_full w)). cbn [negb].
  erewrite M_bind_Ok by reflexivity.
  erewrite M_bind_Ok by (eapply (wait_flag_ready 7); [done|cbn; unfold POLLS; lia|lia|cbn; lia|done]). cbn [negb].
  by erewrite M_bind_Ok by reflexivity.
Qed.
Lemma shifted_all : forall l xs rest w, s_in w = xs ++ rest -> length xs = length l ->
  (exchange_all shifted w l).2 = xs /\ s_in (exchange_all shifted w l).1 = rest /\ s_out (exchange_all shifted w l).1 = s_out w ++ l.
Proof.
  induction l as [|b l IH]; intros xs rest w E Hl.
  - destruct xs; [|done]. cbn in *. by rewrite app_nil_r.
  - destruct xs as [|x xs]; [done|]. injection Hl as Hl. cbn [app] in E. cbn [exchange_all]. unfold shifted at 1 3 5. rewrite E.
    cbn [head tail default from_option]. match goal with |- context [exchange_all shifted ?w1 l] => destruct (IH xs rest w1 eq_refl Hl) as (E1 & E2 & E3); destruct (exchange_all shifted w1 l) end.
    cbn in *. subst. split; [done|]. split; [done|]. rewrite E3. by rewrite <- app_assoc.
Qed.

(** A transfer over the unit, whatever the time it takes for a byte up to
    the 10001 polls the driver grants: exactly the bytes of [w] go out, what
    the slave sends comes back in order, and all bytes are counted. A unit
    that takes longer gets the first byte only, and none is counted. *)
Theorem hcs12_spi_full_duplex (garbage : Z) (l post r xs rest : list Z) (w : spi_unit) :
  s_in w = xs ++ rest -> length xs = length l -> Zlen l <= Zlen r -> Z.of_nat (s_busy w) <= 10001 ->
  let transfer := hcs12_spi_transfer 5 7 garbage (Some r) (Some (l ++ post)) (Zlen l) w in
  (Z.of_nat (s_latency w) <= 10001 ->
   exists w', transfer = Ok (w', (Zlen l, Some (overwrite r 0 xs))) /\ s_out w' = s_out w ++ l /\ s_in w' = rest) /\
  (10001 < Z.of_nat (s_latency w) -> l <> [] ->
   exists w', transfer = Ok (w', (0, Some r)) /\ s_out w' = s_out w ++ take 1 l).
Proof.
  intros Ein Hl Hr Hb. cbv zeta. unfold hcs12_spi_transfer. split.
  - intros Hlat.
    set (sound := fun w => Z.of_nat (s_busy w) <= 10001 /\ Z.of_nat (s_latency w) <= 10001).
    assert (forall b u, sound u -> sound (shifted u b).1) as Hk by (intros b u [? ?]; split; cbn; lia).
    pose proof (send_and_recv_eq (hcs12_spi_transmit_byte 5 7) shifted sound
      (fun b u H => hcs12_byte_ok u b (proj1 H) (proj2 H)) Hk r l [] post [] w (conj Hb Hlat) eq_refl Hr) as E.
    rewrite overwrite_nil in E. change (Zlen (@nil Z)) with 0 in E. cbn [app] in E.
    destruct (shifted_all l xs rest w Ein Hl) as (E1 & E2 & E3). rewrite E1 in E.
    unfold spi_transfer_use_transmit_onebyte. rewrite Zlen_to_nat, (M_bind_Ok _ _ _ _ _ E). by eexists.
  - intros Hlat Hne. destruct l as [|b l]; [done|]. unfold spi_transfer_use_transmit_onebyte. rewrite Zlen_to_nat. cbn [length send_and_recv].
    assert (exists w', hcs12_spi_transmit_byte 5 7 b w = Ok (w', (b, 0)) /\ s_out w' = s_out w ++ [b]) as (w' & E & Eo).
    { unfold hcs12_spi_transmit_byte.
      erewrite M_bind_Ok by (eapply (wait_flag_ready 5); [done|unfold POLLS; lia|lia|lia|]; unfold spi_status; cbn; by destruct (s_full w)). cbn [negb].
      erewrite M_bind_Ok by reflexivity.
      erewrite M_bind_Ok by (apply wait_flag_late; cbn; unfold POLLS; lia). cbn [negb]. by eexists. }
    exists w'. split; [|done]. erewrite M_bind_Ok; [|erewrite pure_bind_Ok by reflexivity; by rewrite (M_bind_Ok _ _ _ _ _ E)]. done.
Qed.
Definition ex_unit (latency : nat) : spi_unit := MkUnit (0, 0, 0) latency 3 false 0 [7; 8; 9] [] (fun _ => 0).
Lemma hcs12_spi_full_duplex_witness :
  (exists w', hcs12_spi_transfer 5 7 0 (Some [0; 0; 0]) (Some ([1; 2] ++ [3])) 2 (ex_unit 5) = Ok (w', (2, Some [7; 8; 0])) /\ s_out w' = [1; 2] /\ s_in w' = [9]) /\
  (exists w', hcs12_spi_transfer 5 7 0 (Some [0; 0; 0]) (Some ([1; 2] ++ [3])) 2 (ex_unit (Z.to_nat 20000)) = Ok (w', (0, Some [0; 0; 0])) /\ s_out w' = [1]).
Proof.
  split.
  - apply (hcs12_spi_full_duplex 0 [1; 2] [3] [0; 0; 0] [7; 8] [9] (ex_unit 5)); cbn; done || lia.
  - apply (hcs12_spi_full_duplex 0 [1; 2] [3] [0; 0; 0] [7; 8] [9] (ex_unit (Z.to_nat 20000))); [done|done|done|cbn; lia|unfold ex_unit; cbn [s_latency]; lia|done].
Defined.
End spi_transfer.

(** ** The serial port

    A simulated port: after a byte is written the transmitter is busy for
    [c_latency] polls of its status register. *)
Record sci_unit := MkSci { c_clock : crg_regs -> Z; c_regs : sci_regs -> Z; c_latency : nat; c_busy : nat; c_out : list Z }.
#[export] Instance crg_regs_eq_dec : EqDecision crg_regs.
Proof. solve_decision. Defined.
#[export] Instance sci_regs_eq_dec : EqDecision sci_regs.
Proof. solve_decision. Defined.
#[export] Instance sci_unit_clock : Regs crg_regs sci_unit := {
  rd := fun r w => Ok (w, c_clock w r);
  wr := fun r v w => Ok (MkSci (fun x => if decide (x = r) then v else c_clock w x) (c_regs w) (c_latency w) (c_busy w) (c_out w), tt)
}.
#[export] Instance sci_unit_regs : Regs sci_regs sci_unit := {
  rd := fun r w =>
    match r with
    | sr1 => Ok (MkSci (c_clock w) (c_regs w) (c_latency w) (pred (c_busy w)) (c_out w), if bool_decide (c_busy w = 0%nat) then 128 else 0)
    | _ => Ok (w, c_regs w r)
    end;
  wr := fun r v w =>
    match r with
    | drl => Ok (MkSci (c_clock w) (c_regs w) (c_latency w) (c_latency w) (c_out w ++ [v]), tt)
    | _ => Ok (MkSci (c_clock w) (fun x => if decide (x = r) then v else c_regs w x) (c_latency w) (c_busy w) (c_out w), tt)
    end
}.

(** The bus clock: half the oscillator's, or half of what the PLL makes of
    it; [mask] is the bit that selects the PLL. *)
Definition bus_clock (mask : Z) (c : crg_regs -> Z) : Z :=
  (if 0 <? Z.land (c CLKSEL) mask then 16000000 * (c SYNR mod 64 + 1) / (c REFDV mod 64 + 1) else 8000000) / 2.
Lemma hcs12_get_bus_clock_eq mask w : hcs12_get_bus_clock mask w = Ok (w, bus_clock mask (c_clock w)).
Proof.
  unfold hcs12_get_bus_clock, bus_clock. do 3 (erewrite M_bind_Ok by reflexivity).
  change 63 with (Z.ones 6). rewrite !Z.land_ones by lia. change (2 ^ 6) with 64.
  pose proof (Z.mod_pos_bound (c_clock w SYNR) 64 ltac:(lia)). pose proof (Z.mod_pos_bound (c_clock w REFDV) 64 ltac:(lia)).
  rewrite !(wrap_small 8) by (pow2_norm; lia). rewrite (proj2 (Z.eqb_neq _ 0)) by lia.
  change (HCS12_OSCFREQ * 2) with 16000000. change (u32 16000000) with 16000000. rewrite wrap_small by (pow2_norm; nia).
  by destruct (0 <? _).
Qed.
Lemma bus_clock_range mask c : 0 <= bus_clock mask c <= 512000000.
Proof.
  unfold bus_clock. pose proof (Z.mod_pos_bound (c SYNR) 64 ltac:(lia)). pose proof (Z.mod_pos_bound (c REFDV) 64 ltac:(lia)).
  match goal with |- context [?x / 2] => set (k := x) end. assert (0 <= k <= 1024000000) as Hk.
  { unfold k. destruct (0 <? _); [|lia]. split; [apply Z.div_pos; lia|]. apply Z.div_le_upper_bound; nia. }
  pose proof (Z.div_mod k 2 ltac:(lia)). pose proof (Z.mod_pos_bound k 2 ltac:(lia)). lia.
Qed.

(** The divisor the data sheet asks for: the clock over sixteen times the
    rate, rounded to the nearest. *)
Definition nearest_div (clk baud : Z) : Z := (clk + 8 * baud) / (16 * baud).
Lemma nearest_div_error clk baud : 0 < baud -> - 8 * baud <= 16 * baud * nearest_div clk baud - clk <= 8 * baud.
Proof.
  intros. unfold nearest_div. pose proof (Z.div_mod (clk + 8 * baud) (16 * baud) ltac:(lia)).
  pose proof (Z.mod_pos_bound (clk + 8 * baud) (16 * baud) ltac:(lia)). lia.
Qed.
Lemma baud_div_eq bits clk baud : 0 < baud < 65536 -> bits <> 16 \/ baud < 4096 -> 0 <= clk <= 512000000 ->
  baud_div bits clk baud = Ok (u16 (nearest_div clk baud)).
Proof.
  intros Hb Hw Hc. unfold baud_div, shl16. rewrite !Z.shiftl_mul_pow2 by lia. change (2 ^ 4) with 16. change (2 ^ 3) with 8.
  assert ((if bits =? 16 then u16 (baud * 16) else baud * 16) = 16 * baud) as ->
    by (destruct (Z.eqb_spec bits 16); [rewrite wrap_small by (pow2_norm; lia)|]; lia).
  assert ((if bits =? 16 then u16 (baud * 8) else baud * 8) = 8 * baud) as ->
    by (destruct (Z.eqb_spec bits 16); [rewrite wrap_small by (pow2_norm; lia)|]; lia).
  rewrite (proj2 (Z.eqb_neq _ 0)) by lia. by rewrite (wrap_small 32) by (pow2_norm; lia).
Qed.

Section serial.
  Context (mask bits : Z) (fuel : nat) (recv : Z -> Z -> Z -> M sci_unit unit) (dat : Z) (cb : option Z).
#[local] Instance ops : Rs485Ops (hcs12_rs485_bus * sci_unit) := hcs12_rs485_bus_ops mask bits fuel dat cb.

Lemma wait_sent_eq : forall n f w, c_busy w = n -> (n < f)%nat -> wait_sent f w = Ok (MkSci (c_clock w) (c_regs w) (c_latency w) 0 (c_out w), tt).
Proof.
  induction n as [|n IH]; intros f w En Hf; (destruct f as [|f]; [lia|]); cbn [wait_sent]; erewrite M_bind_Ok by reflexivity; rewrite En.
  - by rewrite bool_decide_eq_true_2.
  - rewrite bool_decide_eq_false_2 by done. rewrite Z.land_0_l. cbn [Z.eqb pred]. by rewrite IH by (done || lia).
Qed.
Lemma tx_byte_eq b s : (c_latency s.2 < fuel)%nat -> hcs12_rs485_bus_tx_byte fuel b s =
  Ok ((s.1, MkSci (c_clock s.2) (c_regs s.2) (c_latency s.2) 0 (c_out s.2 ++ [b])), 1).
Proof.
  intros Hf. unfold hcs12_rs485_bus_tx_byte. erewrite M_bind_Ok by reflexivity.
  erewrite M_bind_Ok by (unfold lift; cbn [fst snd]; rewrite (wait_sent_eq (c_latency s.2)) by done; reflexivity). done.
Qed.
Lemma tx_string_eq : forall l z n s, (c_latency s.2 < fuel)%nat -> Forall (fun c => c <> 0) l -> exists s',
  rs485_bus_tx_string (l ++ 0 :: z) (u8 n) s = Ok (s', u8 (n + Zlen l)) /\ c_out s'.2 = c_out s.2 ++ l.
Proof.
  induction l as [|c l IH]; intros z n s Hf Hl; cbn [app rs485_bus_tx_string].
  - exists s. rewrite app_nil_r. change (Zlen (@nil Z)) with 0. by rewrite Z.add_0_r.
  - apply Forall_cons in Hl as [Hc Hl]. rewrite (proj2 (Z.eqb_neq c 0)) by done.
    cbn [rs485_ops_tx_byte ops hcs12_rs485_bus_ops]. rewrite (M_bind_Ok _ _ _ _ _ (tx_byte_eq c s Hf)).
    assert (u8 (u8 n + 1) = u8 (n + 1)) as -> by (unfold wrap; by rewrite Zplus_mod_idemp_l).
    edestruct (IH z (n + 1)) as (s' & E & Eo); [..|rewrite E]; [exact Hf|done|]. exists s'. rewrite Zlen_cons. rewrite Eo. cbn [snd c_out].
    split; [do 3 f_equal; lia|by rewrite <- app_assoc].
Qed.

Lemma set_baud_eq baud d s : baud_div bits (bus_clock mask (c_clock s.2)) baud = Ok d ->
  hcs12_rs485_bus_set_baud mask bits baud s =
    Ok ((s.1, MkSci (c_clock s.2) (fun x => if decide (x = bdl_acr1) then u8 d else if decide (x = bdh_asr1) then u8 (Z.shiftr d 8) else c_regs s.2 x)
         (c_latency s.2) (c_busy s.2) (c_out s.2)), 1).
Proof.
  intros E. unfold hcs12_rs485_bus_set_baud. erewrite M_bind_Ok by (unfold lift; rewrite hcs12_get_bus_clock_eq; reflexivity).
  by rewrite (pure_bind_Ok _ _ _ _ E).
Qed.

(** Opening an RS-485 bus through rs485_bus.c on this port programs the
    divisor that is nearest to the rate asked for, to half a unit, and then a
    string goes out byte for byte: for every rate where [int] has 32 bits,
    and for rates below 4096 where it has 16. *)
Theorem hcs12_rs485_opens_and_sends (old baud : Z) (l z : list Z) (s : hcs12_rs485_bus * sci_unit) :
  0 < baud < 65536 -> bits <> 16 \/ baud < 4096 -> (c_latency s.2 < fuel)%nat -> Forall (fun c => c <> 0) l ->
  let clk := bus_clock mask (c_clock s.2) in
  nearest_div clk baud < 65536 ->
  exists s1 s2, rs485_bus_init old baud s = Ok (s1, (baud, 1)) /\ s1.1 = MkRs dat cb /\
    (let d := c_regs s1.2 bdh_asr1 * 256 + c_regs s1.2 bdl_acr1 in - 8 * baud <= 16 * baud * d - clk <= 8 * baud) /\
    c_regs s1.2 sci_cr2 = 44 /\
    rs485_bus_tx_string (l ++ 0 :: z) 0 s1 = Ok (s2, u8 (Zlen l)) /\ c_out s2.2 = c_out s.2 ++ l.
Proof.
  intros Hb Hw Hf Hl clk Hd. pose proof (bus_clock_range mask (c_clock s.2)) as Hc. fold clk in Hc.
  assert (0 <= nearest_div clk baud) as Hd0 by (apply Z.div_pos; lia).
  set (d := nearest_div clk baud) in *.
  assert (exists s1, rs485_bus_init old baud s = Ok (s1, (baud, 1)) /\ s1.1 = MkRs dat cb /\ c_regs s1.2 bdh_asr1 = d / 256 /\ c_regs s1.2 bdl_acr1 = d mod 256 /\
    c_regs s1.2 sci_cr2 = 44 /\ c_out s1.2 = c_out s.2 /\ c_latency s1.2 = c_latency s.2) as (s1 & E & E0 & E1 & E2 & E3 & E4 & E5).
  { unfold rs485_bus_init. cbn [rs485_ops_init rs485_ops_set_baud ops hcs12_rs485_bus_ops]. eexists. split.
    - erewrite M_bind_Ok by reflexivity. cbn [ctrue negb Z.eqb].
      erewrite M_bind_Ok by (apply set_baud_eq, baud_div_eq; done). reflexivity.
    - cbn [fst snd c_clock c_regs c_out c_latency decide]. fold clk d. rewrite (wrap_small 16 d) by (pow2_norm; lia). split; [done|].
      assert (Z.shiftr d 8 = d / 256) as -> by (by rewrite Z.shiftr_div_pow2 by lia).
      rewrite (wrap_small 8 (d / 256)) by (pow2_norm; split; [apply Z.div_pos; lia|apply Z.div_lt_upper_bound; lia]). done. }
  destruct (tx_string_eq l z 0 s1) as (s2 & Es & Eo); [by rewrite E5|done|]. exists s1, s2.
  split; [exact E|]. split; [exact E0|]. split; [|split; [exact E3|split; [exact Es|by rewrite Eo, E4]]].
  cbv zeta. rewrite E1, E2. pose proof (Z.div_mod d 256 ltac:(lia)). replace (d / 256 * 256 + d mod 256) with d by lia.
  apply nearest_div_error. lia.
Qed.
End serial.
Definition ex_sci : sci_unit := MkSci (fun _ => 0) (fun _ => 0) 3 0 [].
Lemma hcs12_rs485_opens_and_sends_witness :
  exists s1 s2, @rs485_bus_init _ (hcs12_rs485_bus_ops 128 32 4 7 None) 0 9600 (MkRs 0 None, ex_sci) = Ok (s1, (9600, 1)) /\
    s1.1 = MkRs 7 None /\
    (let d := c_regs s1.2 bdh_asr1 * 256 + c_regs s1.2 bdl_acr1 in - 8 * 9600 <= 16 * 9600 * d - 4000000 <= 8 * 9600) /\
    c_regs s1.2 sci_cr2 = 44 /\
    @rs485_bus_tx_string _ (hcs12_rs485_bus_ops 128 32 4 7 None) ([72; 105] ++ [0]) 0 s1 = Ok (s2, 2) /\ c_out s2.2 = [72; 105].
Proof.
  apply (hcs12_rs485_opens_and_sends 128 32 4 7 None 0 9600 [72; 105] [] (MkRs 0 None, ex_sci)); [lia|by left|cbn; lia|by repeat constructor|done].
Defined.

(** Where [int] has 16 bits, [baud << 4] is reduced modulo 65536: at a bus
    clock of 4 MHz the divisor for 9600 is 178 and not 26, and every multiple
    of 4096 divides by zero. *)
Lemma hcs12_baud_wraps (clk k : Z) : baud_div 16 clk (4096 * k) = Err DivByZero /\ baud_div 16 4000000 9600 = Ok 178 /\ nearest_div 4000000 9600 = 26.
Proof.
  split; [|done]. unfold baud_div, shl16. rewrite Z.shiftl_mul_pow2 by lia. cbn [Z.eqb Pos.eqb].
  replace (u16 (4096 * k * 2 ^ 4)) with 0; [done|]. unfold wrap. change (2 ^ 4) with 16. change (2 ^ 16) with 65536.
  replace (4096 * k * 16) with (k * 65536) by lia. by rewrite Z_mod_mult.
Qed.
