(* ===== verification/Hcs12I2c.v ===== *)
(** The I2C controller of the HCS12, src/src/platform_hw/hcs12/hcs12_i2c.c:
    calls that start a transfer and wait, and the interrupt handler that
    carries it on byte by byte. A simulated controller with a slave behind it
    runs both; the theorems compare what happens on the wires with the
    bit-banged master of SoftI2c.v. *)
From S2P Require Import Prelude Bus SoftI2c Hcs12.

(** ** State *)
Inductive hcs12_i2c_regs := address | freq_div | control | status | dat | control2.
(** [flags], whose [byte] is only set to 0. *)
Record i2c_flags := MkFlags { aquired : bool; txing : bool; rxing : bool; txing_addr : bool; txed_addr : bool }.
Definition no_flags : i2c_flags := MkFlags false false false false false.
(** [struct hcs12_i2c], the divider of its platform included. *)
Record hcs12_i2c := MkI2c {
  plat_freq_div : Z;
  flags : i2c_flags;
  tx_data : ptr;
  rx_data : ptr;
  tx_length : Z;
  tx_index : Z;
  rx_length : Z;
  rx_index : Z;
  slave_addr : Z
}.
Definition set_flags (f : i2c_flags) (i : hcs12_i2c) : hcs12_i2c :=
  MkI2c (plat_freq_div i) f (tx_data i) (rx_data i) (tx_length i) (tx_index i) (rx_length i) (rx_index i) (slave_addr i).
Definition with_flags (g : i2c_flags -> i2c_flags) (i : hcs12_i2c) : hcs12_i2c := set_flags (g (flags i)) i.
Definition set_aquired (b : bool) (f : i2c_flags) : i2c_flags := MkFlags b (txing f) (rxing f) (txing_addr f) (txed_addr f).
Definition set_txing (b : bool) (f : i2c_flags) : i2c_flags := MkFlags (aquired f) b (rxing f) (txing_addr f) (txed_addr f).
Definition set_rxing (b : bool) (f : i2c_flags) : i2c_flags := MkFlags (aquired f) (txing f) b (txing_addr f) (txed_addr f).
Definition set_txing_addr (b : bool) (f : i2c_flags) : i2c_flags := MkFlags (aquired f) (txing f) (rxing f) b (txed_addr f).
Definition set_tx_index (n : Z) (i : hcs12_i2c) : hcs12_i2c :=
  MkI2c (plat_freq_div i) (flags i) (tx_data i) (rx_data i) (tx_length i) n (rx_length i) (rx_index i) (slave_addr i).
Definition set_rx_index (n : Z) (i : hcs12_i2c) : hcs12_i2c :=
  MkI2c (plat_freq_div i) (flags i) (tx_data i) (rx_data i) (tx_length i) (tx_index i) (rx_length i) n (slave_addr i).
Definition set_rx_data (p : ptr) (i : hcs12_i2c) : hcs12_i2c :=
  MkI2c (plat_freq_div i) (flags i) (tx_data i) p (tx_length i) (tx_index i) (rx_length i) (rx_index i) (slave_addr i).
Definition set_tx (p : ptr) (n k : Z) (i : hcs12_i2c) : hcs12_i2c :=
  MkI2c (plat_freq_div i) (flags i) p (rx_data i) n k (rx_length i) (rx_index i) (slave_addr i).
Definition set_rx (p : ptr) (n k : Z) (i : hcs12_i2c) : hcs12_i2c :=
  MkI2c (plat_freq_div i) (flags i) (tx_data i) p (tx_length i) (tx_index i) n k (slave_addr i).
Definition set_slave (a : Z) (i : hcs12_i2c) : hcs12_i2c :=
  MkI2c (plat_freq_div i) (flags i) (tx_data i) (rx_data i) (tx_length i) (tx_index i) (rx_length i) (rx_index i) a.

(** [OSTimeDly(1)]: meanwhile interrupts are taken. *)
Class Delay (W : Type) := { OSTimeDly : M (hcs12_i2c * W) unit }.
(** The bit numbers of the fields of the control and status registers. *)
Class I2cBits := { TXAK : Z; TX_RX : Z; IBIF : Z; RXAK : Z }.

(** The code between OS_ENTER_CRITICAL and OS_EXIT_CRITICAL is not
    interrupted; here interrupts come during delays only. *)
Section i2c.
  Context {W : Type} `{Regs hcs12_i2c_regs W} `{I2cBits}.
Notation D := (hcs12_i2c * W)%type.
Definition reg_wr (r : hcs12_i2c_regs) (v : Z) : M D unit := lift (wr r v).

Definition hcs12_i2c_init : M D Z :=
  _ ← update (set_tx None 0 0);
  _ ← update (set_rx None 0 0);
  _ ← update (set_flags no_flags);
  i ← self;
  _ ← reg_wr freq_div (plat_freq_div i);
  _ ← reg_wr control 0;
  mret 1.
Definition hcs12_i2c_deinit : M D unit := mret tt.
Definition init_regs : M D unit :=
  _ ← reg_wr status (Z.lor (Z.lor (Z.shiftl 1 7) (Z.shiftl 1 4)) (Z.shiftl 1 1));
  reg_wr control 196.
Definition deinit_regs : M D unit := reg_wr control 0.

(** ** The interrupt handler *)
Definition start_rx_data : M D unit :=
  i ← self;
  _ ← lift (set_field control TXAK (rx_length i =? 1));
  _ ← lift (set_field control TX_RX false);
  x ← lift (rd dat);
  p ← pure (store (rx_data i) x);
  _ ← update (set_rx_data p);
  _ ← update (set_rx_index 0);
  update (with_flags (set_rxing true)).
Definition start_tx_data : M D unit :=
  _ ← update (with_flags (set_txing true));
  i ← self;
  x ← pure (load (tx_data i));
  _ ← reg_wr dat x;
  _ ← update (set_tx_index 0);
  update (with_flags (set_txing true)).
Definition send_stop : M D unit := lift (clear_bits control 32).
Definition isr_address : M D unit :=
  _ ← update (with_flags (set_txing_addr false));
  nack ← lift (field status RXAK);
  if (nack : bool) then send_stop else
  i ← self;
  if tx_index i <? tx_length i then start_tx_data
  else if rx_index i <? rx_length i then start_rx_data
  else mret tt.
Definition isr_transmit : M D unit :=
  nack ← lift (field status RXAK);
  if (nack : bool) then _ ← update (with_flags (set_txing false)); send_stop else
  _ ← update (fun i => set_tx_index (u8 (tx_index i + 1)) i);
  i ← self;
  if tx_length i <=? tx_index i then
    _ ← update (with_flags (set_txing false));
    if 0 <? rx_length i then
      _ ← lift (set_bits control (Z.shiftl 1 2));
      _ ← reg_wr dat (u8 (Z.lor (Z.shiftl (slave_addr i) 1) 1));
      update (with_flags (set_txing_addr true))
    else send_stop
  else
    c ← pure (load (ptr_add (tx_data i) (tx_index i)));
    reg_wr dat c.
Definition isr_receive : M D unit :=
  i ← self;
  _ ← (if rx_length i =? rx_index i + 2 then lift (set_field control TXAK true)
       else if rx_length i =? rx_index i + 1 then _ ← send_stop; update (with_flags (set_rxing false))
       else mret tt);
  x ← lift (rd dat);
  i ← self;
  q ← pure (store (ptr_add (rx_data i) (rx_index i)) x);
  _ ← update (set_rx_data (rebase (rx_data i) q));
  update (set_rx_index (u8 (rx_index i + 1))).
Definition hcs12_i2c_isr : M D unit :=
  _ ← lift (set_field status IBIF true);
  i ← self;
  _ ← (if txing_addr (flags i) then isr_address
       else if txing (flags i) then isr_transmit
       else if rxing (flags i) then isr_receive
       else mret tt);
  lift (set_field status IBIF true).

(** ** The calls *)
  Context `{Delay W} (fuel : nat).

(** [n] is [20 - i]. *)
Fixpoint acquire_loop (n : nat) : M D bool :=
  i ← self;
  if negb (aquired (flags i)) then
    _ ← update (with_flags (set_aquired true));
    _ ← init_regs;
    mret true
  else match n with O => mret false | S n => _ ← OSTimeDly; acquire_loop n end.
Definition acquire_i2c : M D bool := acquire_loop 20.
Definition release_i2c : M D unit := _ ← deinit_regs; update (set_flags no_flags).

Fixpoint wait_loop (fuel : nat) (index length : hcs12_i2c -> Z) (k : Z) : M D Z :=
  match fuel with
  | O => pure (Err NoFuel)
  | S fuel =>
    i ← self;
    if length i <=? index i then mret (index i) else
    if length i <? k then mret (index i) else
    _ ← OSTimeDly;
    wait_loop fuel index length (u8 (k + 1))
  end.
Definition wait_txing : M D Z := wait_loop fuel tx_index tx_length 0.
Definition wait_rxing : M D Z := wait_loop fuel rx_index rx_length 0.

(** The first loop never counts [i] up. *)
Fixpoint wait_bus (fuel : nat) (i : Z) : M D bool :=
  match fuel with
  | O => pure (Err NoFuel)
  | S fuel =>
    s ← lift (rd status);
    if Z.land s (Z.shiftl 1 5) =? 0 then mret true else
    if 10 <? i then mret false else
    _ ← OSTimeDly;
    wait_bus fuel i
  end.
Fixpoint wait_start (n : nat) : M D Z :=
  match n with
  | O => mret 0
  | S n =>
    s ← lift (rd status);
    if Z.land s (Z.shiftl 1 5) =? 0 then wait_start n else
    i ← self;
    let addr := u8 (Z.shiftl (slave_addr i) 1) in
    let addr := if tx_length i <=? 0 then Z.lor addr 1 else addr in
    _ ← reg_wr dat addr;
    mret 1
  end.
Definition hcs12_i2c_start_and_tx_addr : M D Z :=
  free ← wait_bus fuel 0;
  if negb free then mret 0 else
  _ ← update (with_flags (set_txing_addr true));
  _ ← lift (set_bits control 48);
  wait_start (Z.to_nat 1000).

(** The count and, for the reading calls, the caller's buffer. *)
Definition hcs12_i2c_write (addr : Z) (dat : ptr) (len : Z) : M D Z :=
  got ← acquire_i2c;
  if negb got then mret 0 else
  _ ← update (set_tx dat len 0);
  _ ← update (fun i => set_rx (rx_data i) 0 (rx_index i) i);
  _ ← update (set_flags no_flags);
  _ ← update (set_slave addr);
  ok ← hcs12_i2c_start_and_tx_addr;
  if negb (ctrue ok) then _ ← release_i2c; mret 0 else
  len ← wait_txing;
  _ ← release_i2c;
  mret len.
Definition hcs12_i2c_read (addr : Z) (dat : ptr) (len : Z) : M D (Z * ptr) :=
  got ← acquire_i2c;
  if negb got then mret (0, dat) else
  _ ← update (fun i => set_tx (tx_data i) 0 (tx_index i) i);
  _ ← update (set_rx dat len 0);
  _ ← update (set_slave addr);
  ok ← hcs12_i2c_start_and_tx_addr;
  if negb (ctrue ok) then _ ← release_i2c; i ← self; mret (0, rx_data i) else
  len ← wait_rxing;
  _ ← release_i2c;
  i ← self;
  mret (len, rx_data i).
Definition hcs12_i2c_write_then_read (addr : Z) (w : ptr) (wlen : Z) (r : ptr) (rlen : Z) : M D (Z * ptr) :=
  got ← acquire_i2c;
  if negb got then mret (0, r) else
  _ ← update (set_tx w wlen 0);
  _ ← update (set_rx r rlen 0);
  _ ← update (set_slave addr);
  ok ← hcs12_i2c_start_and_tx_addr;
  if negb (ctrue ok) then _ ← release_i2c; i ← self; mret (0, rx_data i) else
  len ← (if 0 <? wlen then wait_txing else mret 0);
  if (0 <? wlen) && (len <? wlen) then _ ← release_i2c; i ← self; mret (len, rx_data i) else
  len ← (if 0 <? rlen then n ← wait_rxing; mret (u8 (len + n)) else mret len);
  _ ← release_i2c;
  i ← self;
  mret (len, rx_data i).

Definition object_at (p : option (list Z)) : ptr := (fun b => (b, 0)) <$> p.
Definition hcs12_i2c_ops : I2cOps D := {|
  i2c_ops_init := hcs12_i2c_init;
  i2c_ops_deinit := hcs12_i2c_deinit;
  i2c_ops_transmit := fun addr w wlen r rlen =>
    '(n, p) ← hcs12_i2c_write_then_read addr (object_at w) wlen (object_at r) rlen; mret (n, fst <$> p)
|}.
End i2c.

(** ** A simulated controller

    The registers and the two wires, with the slave of SoftI2c.v behind
    them: what the slave drives is a list of bits, and what an observer sees
    a list of symbols. [i_shift] is the byte being shifted, [i_foreign] says
    that another master holds the bus, and [i_rate] is the number of bytes
    that fit into one delay. *)
Record iic := MkIic {
  i_control : Z;
  i_freq : Z;
  i_shift : option Z;
  i_data : Z;
  i_rxak : Z;
  i_pending : bool;
  i_foreign : bool;
  i_slave : list Z;
  i_trace : list symbol;
  i_rate : nat
}.
#[export] Instance hcs12_bits : I2cBits := { TXAK := 3; TX_RX := 4; IBIF := 1; RXAK := 0 }.
Definition i_master (w : iic) : bool := Z.testbit (i_control w) 5.
Definition i_sending (w : iic) : bool := Z.testbit (i_control w) 4.
Definition i_status (w : iic) : Z :=
  128 * cbool (bool_decide (i_shift w = None)) + 32 * cbool (i_master w || i_foreign w) + 2 * cbool (i_pending w) + i_rxak w.
(** What a write to the control register does to the wires. *)
Definition edge (old new : Z) (t : list symbol) : list symbol :=
  if Z.testbit old 5 then if Z.testbit new 5 then if Z.testbit new 2 then t ++ [START] else t else t ++ [STOP]
  else if Z.testbit new 5 then t ++ [START] else t.
Definition set_shift (b : option Z) (w : iic) : iic :=
  MkIic (i_control w) (i_freq w) b (i_data w) (i_rxak w) (i_pending w) (i_foreign w) (i_slave w) (i_trace w) (i_rate w).
Definition set_pending (b : bool) (w : iic) : iic :=
  MkIic (i_control w) (i_freq w) (i_shift w) (i_data w) (i_rxak w) b (i_foreign w) (i_slave w) (i_trace w) (i_rate w).
#[export] Instance iic_regs : Regs hcs12_i2c_regs iic := {
  rd := fun r w =>
    match r with
    | control => Ok (w, i_control w)
    | status => Ok (w, i_status w)
    | dat => Ok (if i_master w && negb (i_sending w) then set_shift (Some 255) w else w, i_data w)
    | freq_div => Ok (w, i_freq w)
    | _ => Ok (w, 0)
    end;
  wr := fun r v w =>
    match r with
    | control => Ok (MkIic (Z.clearbit v 2) (i_freq w) (i_shift w) (i_data w) (i_rxak w) (i_pending w) (i_foreign w) (i_slave w)
                       (edge (i_control w) v (i_trace w)) (i_rate w), tt)
    | status => Ok (if Z.testbit v 1 then set_pending false w else w, tt)
    | dat => Ok (if i_master w && i_sending w then set_shift (Some v) w else w, tt)
    | freq_div => Ok (MkIic (i_control w) v (i_shift w) (i_data w) (i_rxak w) (i_pending w) (i_foreign w) (i_slave w) (i_trace w) (i_rate w), tt)
    | _ => Ok (w, tt)
    end
}.

(** The time of one byte: the nine bits of a byte that is being shifted pass
    over the wires, and the interrupt is taken. *)
Definition of_bits (l : list Z) : Z := foldl (fun n b => 2 * n + b) 0 l.
Definition pass (d : Z) (w : iic) : iic :=
  let s := i_slave w ++ replicate 9 1 in
  let y := Z.land d (of_bits (take 8 s)) in
  let ack := Z.min (if i_sending w then 1 else cbool (Z.testbit (i_control w) 3)) (nth 8 s 1) in
  MkIic (i_control w) (i_freq w) None y ack true (i_foreign w) (drop 9 (i_slave w)) (i_trace w ++ frame y ack) (i_rate w).
Definition tick : M (hcs12_i2c * iic) unit := fun s =>
  match i_shift s.2 with
  | Some d => let s1 := (s.1, pass d s.2) in if Z.testbit (i_control s.2) 6 then hcs12_i2c_isr s1 else Ok (s1, tt)
  | None => Ok (s, tt)
  end.
Fixpoint ticks (n : nat) : M (hcs12_i2c * iic) unit :=
  match n with O => mret tt | S n => _ ← tick; ticks n end.
#[export] Instance iic_delay : Delay iic := { OSTimeDly := fun s => ticks (i_rate s.2) s }.

(** *** A run on a small example *)
Definition ex_i2c : hcs12_i2c := MkI2c 31 no_flags None None 0 0 0 0 0.
Definition ex_iic (slave : list Z) : iic := MkIic 0 0 None 0 0 false false slave [] 1.
Example ex_i2c_run :
  (fun x => match x with Ok (s, r) => Some (i_trace s.2, i_slave s.2, i_control s.2, r) | Err _ => None end)
  (hcs12_i2c_write_then_read 10 80 (Some ([0; 7], 0)) 2 (Some ([1; 1; 1], 0)) 2
    (ex_i2c, ex_iic (listen 0 ++ listen 0 ++ listen 0 ++ listen 0 ++ speak 170 ++ speak 85))) =
  Some ([START] ++ frame 160 0 ++ frame 0 0 ++ frame 7 0 ++ [START] ++ frame 161 0 ++ frame 170 0 ++ frame 85 1 ++ [STOP], [], 0,
        (4, Some ([170; 85; 1], 0))).
Proof. vm_compute. reflexivity. Qed.

(** ** One byte and its interrupt *)
Lemma of_bits_bits8 x : 0 <= x < 256 -> of_bits (bits8 x) = x.
Proof. intros H. apply Z.eqb_eq. apply (range_forallb 256 (fun y => of_bits (bits8 y) =? y) 0); [vm_compute; reflexivity|lia]. Qed.
Lemma pass_bits d x a w rest : i_slave w = bits8 x ++ a :: rest -> 0 <= x < 256 ->
  let ack := Z.min (if i_sending w then 1 else cbool (Z.testbit (i_control w) 3)) a in
  pass d w = MkIic (i_control w) (i_freq w) None (Z.land d x) ack true (i_foreign w) rest (i_trace w ++ frame (Z.land d x) ack) (i_rate w).
Proof.
  intros E Hx. unfold pass. rewrite E. rewrite <- app_assoc, take_app_length', of_bits_bits8 by done.
  assert (forall u : list Z, nth 8 (bits8 x ++ (a :: rest) ++ u) 1 = a) as -> by done. done.
Qed.

Section steps.
  (** The driver in the middle of a transaction: what changes from byte to
      byte are the flags, the indices, the read buffer, the control register,
      the byte being shifted, the last byte and its acknowledge bit, and
      the wires. *)
  Context (fd fr addr : Z) (wb : list Z) (n k : Z) (q : nat).
Definition st (f : i2c_flags) (ti ri : Z) (rb : list Z) (ctl : Z) (sh : option Z) (da ak : Z) (sl : list Z) (t : list symbol) : hcs12_i2c * iic :=
  (MkI2c fd f (Some (wb, 0)) (Some (rb, 0)) n ti k ri addr, MkIic ctl fr sh da ak false false sl t q).
Definition f_addr : i2c_flags := MkFlags true false false true false.
Definition f_tx : i2c_flags := MkFlags true true false false false.
Definition f_rx : i2c_flags := MkFlags true false true false false.
Definition f_done : i2c_flags := MkFlags true false false false false.
Notation W := (u8 (Z.shiftl addr 1)).
Notation R := (u8 (Z.lor (Z.shiftl addr 1) 1)).

Lemma irq_clear (s : hcs12_i2c * iic) : lift (set_field status IBIF true) s = Ok ((s.1, set_pending false s.2), tt).
Proof.
  change (lift (set_field status IBIF true) s) with (Ok ((s.1, if Z.testbit (Z.setbit (i_status s.2) 1) 1 then set_pending false s.2 else s.2), tt)).
  by rewrite Z.setbit_eq.
Qed.
Lemma tick_send f ti ri rb d da ak sl t a : 0 <= d < 256 -> a = 0 \/ a = 1 ->
  tick (st f ti ri rb 240 (Some d) da ak (listen a ++ sl) t) =
    hcs12_i2c_isr (let s := st f ti ri rb 240 None d a sl (t ++ frame d a) in (s.1, set_pending true s.2)).
Proof.
  intros Hd Ha. unfold tick. cbn [snd fst st i_shift i_control Z.testbit]. cbv iota.
  change (Z.testbit 240 6) with true. cbv iota.
  unfold listen. rewrite released_bits8. rewrite (pass_bits d 255 a _ sl) by first [reflexivity | lia]. rewrite land_255 by done.
  cbn [i_control i_freq i_foreign i_trace i_rate i_sending]. unfold i_sending. cbn [i_control]. change (Z.testbit 240 4) with true. cbv iota.
  by replace (Z.min 1 a) with a by lia.
Qed.
Lemma tick_receive f ti ri rb ctl x da ak sl t : 0 <= x < 256 -> Z.testbit ctl 6 = true -> Z.testbit ctl 4 = false ->
  let a := cbool (Z.testbit ctl 3) in
  tick (st f ti ri rb ctl (Some 255) da ak (speak x ++ sl) t) =
    hcs12_i2c_isr (let s := st f ti ri rb ctl None x a sl (t ++ frame x a) in (s.1, set_pending true s.2)).
Proof.
  intros Hx H6 H4. unfold tick. cbn [snd fst st i_shift i_control]. cbv iota. rewrite H6.
  unfold speak. rewrite (pass_bits 255 x 1 _ sl) by first [reflexivity | lia]. rewrite land_255_l by done.
  cbn [i_control i_freq i_foreign i_trace i_rate]. unfold i_sending. cbn [i_control]. rewrite H4.
  replace (Z.min _ 1) with (cbool (Z.testbit ctl 3)) by (by destruct (Z.testbit ctl 3)). done.
Qed.

Lemma nack_eq b (s : hcs12_i2c * iic) : i_rxak s.2 = cbool b -> lift (field status RXAK) s = Ok (s, b).
Proof.
  intros E. change (lift (field status RXAK) s) with (Ok ((s.1, s.2), Z.testbit (i_status s.2) 0)).
  unfold i_status. rewrite E. rewrite Z.bit0_odd. set (x := cbool _). set (y := cbool _). set (z := cbool _).
  replace (128 * x + 32 * y + 2 * z + cbool b) with (cbool b + 2 * (64 * x + 16 * y + z)) by lia. rewrite Z.odd_add_mul_2.
  by destruct s, b.
Qed.
(** The handler on a state whose interrupt is pending: it acknowledges it
    before and after the work. *)
Lemma isr_eq (s s' : hcs12_i2c * iic) (m : M (hcs12_i2c * iic) unit) :
  m = (if txing_addr (flags s.1) then isr_address else if txing (flags s.1) then isr_transmit
       else if rxing (flags s.1) then isr_receive else mret tt) ->
  i_pending s'.2 = false -> m (s.1, set_pending false s.2) = Ok (s', tt) ->
  hcs12_i2c_isr (s.1, set_pending true s.2) = Ok (s', tt).
Proof.
  intros -> Hp E. unfold hcs12_i2c_isr. rewrite (M_bind_Ok _ _ _ _ _ (irq_clear _)). erewrite M_bind_Ok by reflexivity. cbn [fst].
  change (set_pending false (s.1, set_pending true s.2).2) with (set_pending false s.2). rewrite (M_bind_Ok _ _ _ _ _ E), irq_clear.
  destruct s' as [i []]. cbn in *. by subst.
Qed.
Ltac run := repeat (erewrite M_bind_Ok by reflexivity).
Ltac handled m := apply (isr_eq _ _ m); [reflexivity|reflexivity|].
Ltac acked := erewrite M_bind_Ok by (by apply (nack_eq false)); cbv iota; run.
Lemma store_eq (rb : list Z) (i x : Z) : 0 <= i < Zlen rb -> store (Some (rb, i)) x = Ok (Some (<[Z.to_nat i := x]> rb, i)).
Proof. intros [H1 H2]. unfold store, bset. by rewrite (proj2 (Z.leb_le 0 i) H1), (proj2 (Z.ltb_lt _ _) H2). Qed.

Section acked.
  Implicit Types (rb sl : list Z) (t : list symbol).
Lemma step_addr_tx rb da ak sl t b : 0 < n -> bget wb 0 = Ok b ->
  tick (st f_addr 0 0 rb 240 (Some W) da ak (listen 0 ++ sl) t) = Ok (st f_tx 0 0 rb 240 (Some b) W 0 sl (t ++ frame W 0), tt).
Proof.
  intros Hn Hb. rewrite tick_send by (auto; apply u8_range). cbv zeta. handled (isr_address (W := iic)).
  unfold isr_address. erewrite M_bind_Ok by reflexivity. acked. cbn [st fst snd tx_index tx_length with_flags set_flags].
  rewrite (proj2 (Z.ltb_lt 0 n)) by done. unfold start_tx_data. run. erewrite pure_bind_Ok by exact Hb. run; reflexivity.
Qed.
Lemma step_tx rb da ak sl t i d c : 0 <= d < 256 -> 0 <= i -> i + 1 < n < 256 -> bget wb (i + 1) = Ok c ->
  tick (st f_tx i 0 rb 240 (Some d) da ak (listen 0 ++ sl) t) = Ok (st f_tx (i + 1) 0 rb 240 (Some c) d 0 sl (t ++ frame d 0), tt).
Proof.
  intros Hd Hi Hn Hc. rewrite tick_send by auto. cbv zeta. handled (isr_transmit (W := iic)).
  unfold isr_transmit. acked. cbn [st fst snd tx_index tx_length tx_data set_tx_index ptr_add load]. rewrite (wrap_small 8 (i + 1)) by (pow2_norm; lia).
  rewrite (proj2 (Z.leb_gt n _)) by lia. by erewrite pure_bind_Ok by exact Hc.
Qed.
Lemma step_tx_last rb da ak sl t i d : 0 <= d < 256 -> 0 <= i -> i + 1 = n -> n < 256 -> 0 < k ->
  tick (st f_tx i 0 rb 240 (Some d) da ak (listen 0 ++ sl) t) = Ok (st f_addr n 0 rb 240 (Some R) d 0 sl ((t ++ frame d 0) ++ [START]), tt).
Proof.
  intros Hd Hi Hn Hc Hk. rewrite tick_send by auto. cbv zeta. handled (isr_transmit (W := iic)).
  unfold isr_transmit. acked. cbn [st fst snd tx_index tx_length tx_data set_tx_index]. rewrite (wrap_small 8 (i + 1)) by (pow2_norm; lia).
  rewrite (proj2 (Z.leb_le n _)) by lia. cbv iota. run. cbn [rx_length set_tx_index].
  rewrite (proj2 (Z.ltb_lt 0 k)) by done. cbv iota. run. by rewrite Hn.
Qed.
Lemma step_addr_rx rb da ak sl t : 0 < k -> 0 < Zlen rb ->
  tick (st f_addr n 0 rb 240 (Some R) da ak (listen 0 ++ sl) t) =
    Ok (st f_rx n 0 (<[0%nat := R]> rb) (if k =? 1 then 232 else 224) (Some 255) R 0 sl (t ++ frame R 0), tt).
Proof.
  intros Hk Hr. rewrite tick_send by (auto; apply u8_range). cbv zeta. handled (isr_address (W := iic)).
  unfold isr_address. erewrite M_bind_Ok by reflexivity. acked.
  cbn [st fst snd tx_index tx_length rx_length rx_index with_flags set_flags].
  rewrite (proj2 (Z.ltb_ge n n)), (proj2 (Z.ltb_lt 0 k)) by lia. unfold start_rx_data. erewrite M_bind_Ok by reflexivity.
  cbn [rx_length rx_data with_flags set_flags fst]. destruct (k =? 1); run; (erewrite pure_bind_Ok by (by apply store_eq)); run; reflexivity.
Qed.
Lemma step_rx rb da ak sl t i x : 0 <= x < 256 -> 0 <= i -> i + 1 < k < 256 -> i < Zlen rb ->
  tick (st f_rx n i rb 224 (Some 255) da ak (speak x ++ sl) t) =
    Ok (st f_rx n (i + 1) (<[Z.to_nat i := x]> rb) (if k =? i + 2 then 232 else 224) (Some 255) x 0 sl (t ++ frame x 0), tt).
Proof.
  intros Hx Hi Hk Hr. rewrite tick_receive by done. cbv zeta. handled (isr_receive (W := iic)).
  unfold isr_receive. erewrite M_bind_Ok by reflexivity. cbn [st fst snd rx_length rx_index]. rewrite (proj2 (Z.eqb_neq k (i + 1))) by lia.
  assert (u8 (i + 1) = i + 1) as Ei by (apply wrap_small; pow2_norm; lia).
  destruct (k =? i + 2); run; (erewrite pure_bind_Ok by (by apply store_eq)); cbn [rebase ptr_add]; run; cbn; rewrite Ei; reflexivity.
Qed.
Lemma step_rx_last rb da ak sl t i x : 0 <= x < 256 -> 0 <= i -> i + 1 = k -> k < 256 -> i < Zlen rb ->
  tick (st f_rx n i rb 232 (Some 255) da ak (speak x ++ sl) t) =
    Ok (st f_done n k (<[Z.to_nat i := x]> rb) 200 None x 1 sl ((t ++ frame x 1) ++ [STOP]), tt).
Proof.
  intros Hx Hi Hk Hk2 Hr. rewrite tick_receive by done. cbv zeta. handled (isr_receive (W := iic)).
  unfold isr_receive. erewrite M_bind_Ok by reflexivity. cbn [st fst snd rx_length rx_index]. rewrite (proj2 (Z.eqb_neq k (i + 2))), (proj2 (Z.eqb_eq k (i + 1))) by lia.
  assert (u8 (i + 1) = k) as Ei by (rewrite wrap_small; pow2_norm; lia).
  run. (erewrite pure_bind_Ok by (by apply store_eq)). run. cbn. rewrite Ei. reflexivity.
Qed.
End acked.

Lemma step_nack_addr rb da ak sl t : tick (st f_addr 0 0 rb 240 (Some W) da ak (listen 1 ++ sl) t) =
  Ok (st f_done 0 0 rb 208 None W 1 sl ((t ++ frame W 1) ++ [STOP]), tt).
Proof.
  rewrite tick_send by (auto; apply u8_range). cbv zeta. handled (isr_address (W := iic)).
  unfold isr_address. erewrite M_bind_Ok by reflexivity. by erewrite M_bind_Ok by (by apply (nack_eq true)).
Qed.
Lemma step_nack_data rb da ak sl t i d : 0 <= d < 256 -> tick (st f_tx i 0 rb 240 (Some d) da ak (listen 1 ++ sl) t) =
  Ok (st f_done i 0 rb 208 None d 1 sl ((t ++ frame d 1) ++ [STOP]), tt).
Proof.
  intros Hd. rewrite tick_send by auto. cbv zeta. handled (isr_transmit (W := iic)).
  unfold isr_transmit. by erewrite M_bind_Ok by (by apply (nack_eq true)).
Qed.
Lemma step_done f ti ri rb ctl da ak sl t : tick (st f ti ri rb ctl None da ak sl t) = Ok (st f ti ri rb ctl None da ak sl t, tt).
Proof. done. Qed.

(** ** Waiting

    [P m s] says that [s] is a state after [m] bytes. *)
Section waiting.
  Context (P : nat -> hcs12_i2c * iic -> Prop).
  Hypothesis P_step : forall m s, P m s -> exists s', tick s = Ok (s', tt) /\ P (S m) s'.
  Hypothesis P_rate : forall m s, P m s -> i_rate s.2 = q.
  Hypothesis q_pos : (0 < q)%nat.

Lemma ticks_P : forall j m s, P m s -> exists s', ticks j s = Ok (s', tt) /\ P (m + j)%nat s'.
Proof.
  induction j as [|j IH]; intros m s Hs; cbn [ticks].
  - exists s. by rewrite Nat.add_0_r.
  - destruct (P_step m s Hs) as (s1 & E & H1). rewrite (M_bind_Ok _ _ _ _ _ E). rewrite Nat.add_succ_r. by apply (IH (S m)).
Qed.
Lemma delay_P m s : P m s -> exists s', OSTimeDly s = Ok (s', tt) /\ P (m + q)%nat s'.
Proof. intros Hs. cbn. rewrite (P_rate m s Hs). by apply ticks_P. Qed.

(** The loop ends once the index has reached the length, if [M] bytes are
    enough for that and there are that many delays left. *)
Lemma wait_done (index len : hcs12_i2c -> Z) (L : Z) (M : nat) : L < 256 ->
  (forall m s, P m s -> len s.1 = L) -> (forall m s, (M <= m)%nat -> P m s -> L <= index s.1) ->
  forall j fuel m s, P m s -> Z.of_nat j <= L + 1 -> (M <= m + j)%nat -> (j < fuel)%nat ->
  exists m' s', wait_loop fuel index len (u8 (L + 1 - Z.of_nat j)) s = Ok (s', index s'.1) /\ P m' s' /\ L <= index s'.1.
Proof.
  intros HL Hlen Hidx. induction j as [|j IH]; intros fuel m s Hs Hj HM Hf; (destruct fuel as [|fuel]; [lia|]); cbn [wait_loop].
  all: erewrite M_bind_Ok by reflexivity; rewrite (Hlen m s Hs); destruct (Z.leb_spec L (index s.1)); [by exists m, s|].
  - specialize (Hidx m s ltac:(lia) Hs). lia.
  - rewrite (wrap_small 8) by (pow2_norm; lia). rewrite (proj2 (Z.ltb_ge L _)) by lia.
    destruct (delay_P m s Hs) as (s1 & E & H1). rewrite (M_bind_Ok _ _ _ _ _ E).
    replace (L + 1 - Z.of_nat (S j) + 1) with (L + 1 - Z.of_nat j) by lia. apply (IH fuel (m + q)%nat); lia || done.
Qed.
(** It ends after [L + 1] delays when the index stays below the length. *)
Lemma wait_timeout (index len : hcs12_i2c -> Z) (L : Z) : L < 255 ->
  (forall m s, P m s -> len s.1 = L /\ index s.1 < L) ->
  forall j fuel m s, P m s -> Z.of_nat j <= L + 1 -> (j < fuel)%nat ->
  exists m' s', wait_loop fuel index len (u8 (L + 1 - Z.of_nat j)) s = Ok (s', index s'.1) /\ P m' s' /\ (m + j <= m')%nat.
Proof.
  intros HL Hlen. induction j as [|j IH]; intros fuel m s Hs Hj Hf; (destruct fuel as [|fuel]; [lia|]); cbn [wait_loop].
  all: erewrite M_bind_Ok by reflexivity; destruct (Hlen m s Hs) as [El Hi]; rewrite El, (proj2 (Z.leb_gt L _)) by lia; rewrite (wrap_small 8) by (pow2_norm; lia).
  - rewrite (proj2 (Z.ltb_lt L _)) by lia. exists m, s. split; [done|]. split; [done|lia].
  - rewrite (proj2 (Z.ltb_ge L _)) by lia. destruct (delay_P m s Hs) as (s1 & E & H1). rewrite (M_bind_Ok _ _ _ _ _ E).
    replace (L + 1 - Z.of_nat (S j) + 1) with (L + 1 - Z.of_nat j) by lia.
    destruct (IH fuel (m + q)%nat s1 H1) as (m' & s' & E' & H' & Hm); [lia|lia|]. exists m', s'.
    split; [exact E'|]. split; [done|lia].
Qed.
End waiting.

(** ** The phases of a transaction *)
Definition sent (l : list Z) : list symbol := concat (map (fun b => frame b 0) l).
Definition acks (l : list Z) : list Z := concat (map (fun _ => listen 0) l).
Lemma sent_snoc l b : sent (l ++ [b]) = sent l ++ frame b 0.
Proof. unfold sent. rewrite map_app, concat_app. cbn [map concat]. by rewrite app_nil_r. Qed.
Lemma read_frames_snoc l x : read_frames (l ++ [x]) = sent l ++ frame x 1.
Proof.
  induction l as [|y l IH]; [cbn [app read_frames]; by rewrite app_nil_r|]. cbn [app read_frames]. rewrite IH. unfold sent at 2. cbn [map concat]. rewrite <- app_assoc.
  by destruct (l ++ [x]) eqn:E; [destruct l|].
Qed.

Lemma not_nil (l : list Z) : l <> [] -> exists b l2, l = b :: l2 /\ 0 < Zlen l.
Proof. destruct l as [|b l]; [done|]. intros _. exists b, l. rewrite Zlen_cons. pose proof (Zlen_nonneg l). split; [done|lia]. Qed.

Section transaction.
  Context (l post r xs rest : list Z) (t : list symbol).
  Hypotheses (Hl : Forall (fun b => 0 <= b < 256) l) (Hx : Forall (fun b => 0 <= b < 256) xs).
  Hypotheses (Hnl : l <> []) (Hnx : xs <> []) (Ew : wb = l ++ post) (En : n = Zlen l) (Ek : k = Zlen xs).
  Hypotheses (Hn : n < 256) (Hk : k < 256) (Hr : k <= Zlen r).
Let speaks (ys : list Z) : list Z := concat (map speak ys) ++ rest.
Let t1 (l : list Z) : list symbol := (t ++ [START]) ++ frame W 0 ++ sent l.
Let t2 : list symbol := (t1 l ++ [START]) ++ frame R 0.
Inductive acked_phase : nat -> hcs12_i2c * iic -> Prop :=
  | A_addr da ak : acked_phase 0 (st f_addr 0 0 r 240 (Some W) da ak (listen 0 ++ acks l ++ listen 0 ++ speaks xs) (t ++ [START]))
  | A_tx l1 b l2 da ak : l = l1 ++ b :: l2 ->
      acked_phase (S (length l1)) (st f_tx (Zlen l1) 0 r 240 (Some b) da ak (acks (b :: l2) ++ listen 0 ++ speaks xs) (t1 l1))
  | A_raddr da ak : acked_phase (S (length l)) (st f_addr n 0 r 240 (Some R) da ak (listen 0 ++ speaks xs) (t1 l ++ [START]))
  | A_rx xs1 x xs2 y da ak : xs = xs1 ++ x :: xs2 ->
      acked_phase (S (S (length l)) + length xs1)
        (st f_rx n (Zlen xs1) (xs1 ++ y :: drop (S (length xs1)) r) (if xs2 is [] then 232 else 224) (Some 255) da ak (speaks (x :: xs2)) (t2 ++ sent xs1))
  | A_done m da : (S (S (length l)) + length xs <= m)%nat ->
      acked_phase m (st f_done n k (xs ++ drop (length xs) r) 200 None da 1 rest ((t2 ++ read_frames xs) ++ [STOP])).
Lemma sent_step l1 b u : (u ++ frame W 0 ++ sent l1) ++ frame b 0 = u ++ frame W 0 ++ sent (l1 ++ [b]).
Proof. by rewrite sent_snoc, <- !app_assoc. Qed.
Lemma drop_cons_S (i : nat) (u : list Z) : (i < length u)%nat -> exists y, drop i u = y :: drop (S i) u.
Proof. intros H. destruct (lookup_lt_is_Some_2 u i H) as [y Hy]. exists y. by apply drop_S. Qed.
Lemma insert_at (l1 l2 : list Z) y x : <[Z.to_nat (Zlen l1) := x]> (l1 ++ y :: l2) = l1 ++ x :: l2.
Proof. rewrite Zlen_to_nat. rewrite insert_app_r_alt by lia. by rewrite Nat.sub_diag. Qed.

Lemma acked_tx l1 b l2 da ak : l = l1 ++ b :: l2 -> 0 < k ->
  exists s', tick (st f_tx (Zlen l1) 0 r 240 (Some b) da ak (acks (b :: l2) ++ listen 0 ++ speaks xs) (t1 l1)) = Ok (s', tt) /\ acked_phase (S (S (length l1))) s'.
Proof.
  intros E Hk0.
  pose proof Hl as Hb. rewrite E in Hb. apply Forall_app in Hb as [_ [Hb _]%Forall_cons]. unfold acks. cbn [map concat]. rewrite <- app_assoc. fold (acks l2).
  assert (t1 l1 ++ frame b 0 = t1 (l1 ++ [b])) as Et by (unfold t1; apply sent_step). pose proof (Zlen_nonneg l1).
  assert (n = Zlen l1 + 1 + Zlen l2) as En2 by (rewrite En, E, Zlen_app, Zlen_cons; lia).
  destruct l2 as [|c l2].
  - change (Zlen (@nil Z)) with 0 in En2. eexists. split; [apply step_tx_last; lia|]. rewrite Et, <- E.
    assert (S (length l1) = length l) as -> by (rewrite E, length_app; cbn; lia). apply A_raddr.
  - rewrite Zlen_cons in En2. pose proof (Zlen_nonneg l2). eexists. split.
    + apply step_tx with (c := c); [done|lia|lia|]. rewrite Ew, E. replace (Zlen l1 + 1) with (Zlen (l1 ++ [b])) by (by rewrite Zlen_app).
      replace ((l1 ++ b :: c :: l2) ++ post) with ((l1 ++ [b]) ++ c :: (l2 ++ post)) by (by rewrite <- !app_assoc). apply bget_middle.
    + rewrite Et. replace (Zlen l1 + 1) with (Zlen (l1 ++ [b])) by (by rewrite Zlen_app).
      replace (S (S (length l1))) with (S (length (l1 ++ [b]))) by (rewrite length_app; cbn; lia).
      apply A_tx. by rewrite E, <- app_assoc.
Qed.
Lemma acked_rx xs1 x xs2 y da ak : xs = xs1 ++ x :: xs2 -> 0 < k ->
  exists s', tick (st f_rx n (Zlen xs1) (xs1 ++ y :: drop (S (length xs1)) r) (if xs2 is [] then 232 else 224) (Some 255) da ak (speaks (x :: xs2)) (t2 ++ sent xs1)) = Ok (s', tt) /\
    acked_phase (S (S (S (length l)) + length xs1)) s'.
Proof.
  intros E Hk0.
  pose proof Hx as Hb. rewrite E in Hb. apply Forall_app in Hb as [_ [Hb _]%Forall_cons]. unfold speaks at 1. cbn [map concat]. rewrite <- app_assoc. fold (speaks xs2).
  pose proof (Zlen_nonneg xs1). assert (k = Zlen xs1 + 1 + Zlen xs2) as Ek2 by (rewrite Ek, E, Zlen_app, Zlen_cons; lia).
  assert (Zlen (xs1 ++ y :: drop (S (length xs1)) r) = Zlen r) as Elen.
  { rewrite Zlen_app, Zlen_cons. unfold Zlen in *. rewrite length_drop. lia. }
  assert (sent xs1 ++ frame x 0 = sent (xs1 ++ [x])) as Et by (by rewrite sent_snoc).
  destruct xs2 as [|x2 xs2].
  - change (Zlen (@nil Z)) with 0 in Ek2. eexists. split; [apply step_rx_last; lia|]. rewrite insert_at.
    assert ((t2 ++ sent xs1) ++ frame x 1 = t2 ++ read_frames xs) as -> by (rewrite E, read_frames_snoc; by rewrite <- app_assoc).
    assert (xs1 ++ x :: drop (S (length xs1)) r = xs ++ drop (length xs) r) as ->.
    { rewrite E, <- app_assoc, length_app. cbn [app length]. by rewrite Nat.add_1_r. }
    apply A_done. rewrite E, length_app. cbn. lia.
  - rewrite Zlen_cons in Ek2. pose proof (Zlen_nonneg xs2). eexists. split; [apply step_rx; lia|]. rewrite insert_at.
    destruct (drop_cons_S (S (length xs1)) r) as [y2 Ey]; [subst k; rewrite E in Hr; unfold Zlen in *; rewrite length_app in Hr; cbn in Hr; lia|].
    replace (k =? Zlen xs1 + 2) with (match xs2 with [] => true | _ => false end).
    2: { rewrite Ek2. destruct xs2; [by rewrite (proj2 (Z.eqb_eq _ _)) by (change (Zlen (@nil Z)) with 0; lia)|].
         rewrite Zlen_cons. pose proof (Zlen_nonneg xs2). by rewrite (proj2 (Z.eqb_neq _ _)) by lia. }
    rewrite <- (app_assoc t2), Et. replace (Zlen xs1 + 1) with (Zlen (xs1 ++ [x])) by (by rewrite Zlen_app).
    replace (xs1 ++ x :: drop (S (length xs1)) r) with ((xs1 ++ [x]) ++ y2 :: drop (S (length (xs1 ++ [x]))) r)
      by (rewrite length_app; cbn [length]; rewrite Nat.add_1_r, <- app_assoc; cbn [app]; by rewrite Ey).
    replace (S (S (S (length l)) + length xs1)) with (S (S (length l)) + length (xs1 ++ [x]))%nat by (rewrite length_app; cbn; lia).
    pose proof (A_rx (xs1 ++ [x]) x2 xs2 y2 x 0) as HA. destruct xs2; apply HA; by rewrite E, <- app_assoc.
Qed.
Lemma acked_step m s : acked_phase m s -> exists s', tick s = Ok (s', tt) /\ acked_phase (S m) s'.
Proof.
  destruct (not_nil l Hnl) as (b0 & l0 & El0 & Hl0), (not_nil xs Hnx) as (x0 & xs0 & Exs & Hxs0).
  intros [da ak|l1 b l2 da ak E|da ak|xs1 x xs2 y da ak E|m' da Hm].
  - eexists. split.
    + apply step_addr_tx with (b := b0); [lia|]. rewrite Ew, El0. exact (bget_middle [] b0 (l0 ++ post)).
    + replace ((t ++ [START]) ++ frame W 0) with (t1 []) by (unfold t1; cbn [sent map concat]; by rewrite app_nil_r).
      replace (acks l) with (acks (b0 :: l0)) by (by rewrite El0). exact (A_tx [] b0 l0 W 0 El0).
  - apply acked_tx; [done|lia].
  - eexists. split; [apply step_addr_rx; lia|].
    destruct (drop_cons_S 0 r) as [y Ey]; [unfold Zlen in *; lia|]. rewrite drop_0 in Ey.
    replace (<[0%nat := R]> r) with ([] ++ R :: drop (S (length (@nil Z))) r) by (rewrite Ey; done).
    replace (k =? 1) with (match xs0 with [] => true | _ => false end).
    2: { rewrite Ek, Exs, Zlen_cons. destruct xs0; [done|]. rewrite Zlen_cons. pose proof (Zlen_nonneg xs0). by rewrite (proj2 (Z.eqb_neq _ 1)) by lia. }
    pose proof (A_rx [] x0 xs0 R R 0 Exs) as HA. rewrite Nat.add_0_r in HA. cbn [sent map concat] in HA. rewrite app_nil_r in HA.
    rewrite <- Exs in HA. destruct xs0; exact HA.
  - apply acked_rx; [done|lia].
  - eexists. split; [apply step_done|]. apply A_done. lia.
Qed.
End transaction.

(** The two ways a transaction breaks off. *)
Section refused.
  Context (l1 l2 post r rest : list Z) (b : Z) (t : list symbol).
  Hypotheses (Hl : Forall (fun b => 0 <= b < 256) (l1 ++ b :: l2)) (Ew : wb = l1 ++ b :: l2 ++ post) (En : n = Zlen (l1 ++ b :: l2)) (Hn : n < 256).
Let t1 (l : list Z) : list symbol := (t ++ [START]) ++ frame W 0 ++ sent l.
Inductive refused_phase : nat -> hcs12_i2c * iic -> Prop :=
  | D_addr da ak : refused_phase 0 (st f_addr 0 0 r 240 (Some W) da ak (listen 0 ++ acks l1 ++ listen 1 ++ rest) (t ++ [START]))
  | D_tx m1 c m2 da ak : l1 ++ [b] = m1 ++ c :: m2 ->
      refused_phase (S (length m1)) (st f_tx (Zlen m1) 0 r 240 (Some c) da ak (acks (take (length l1 - length m1) l1) ++ listen 1 ++ rest) (t1 m1))
  | D_done m da : (S (S (length l1)) <= m)%nat ->
      refused_phase m (st f_done (Zlen l1) 0 r 208 None da 1 rest ((t1 l1 ++ frame b 1) ++ [STOP])).

Lemma acks_length u v : length u = length v -> acks u = acks v.
Proof. revert v. induction u as [|x u IH]; intros [|y v] H; try done. change (listen 0 ++ acks u = listen 0 ++ acks v). injection H as H. by rewrite (IH v). Qed.

Lemma refused_step m s : refused_phase m s -> exists s', tick s = Ok (s', tt) /\ refused_phase (S m) s'.
Proof.
  pose proof Hl as [Hl1 [Hb _]%Forall_cons]%Forall_app.
  intros [da ak|m1 c m2 da ak E|m' da Hm].
  - destruct (not_nil (l1 ++ [b])) as (c & m2 & E & _); [by destruct l1|]. eexists. split.
    + apply step_addr_tx with (b := c).
      * rewrite En, Zlen_app, Zlen_cons. pose proof (Zlen_nonneg l1). pose proof (Zlen_nonneg l2). lia.
      * rewrite Ew. replace (l1 ++ b :: l2 ++ post) with ((l1 ++ [b]) ++ l2 ++ post) by (by rewrite <- app_assoc). rewrite E. exact (bget_middle [] c _).
    + replace ((t ++ [START]) ++ frame W 0) with (t1 []) by (unfold t1; cbn [sent map concat]; by rewrite app_nil_r).
      pose proof (D_tx [] c m2 W 0 E) as HD. cbn [length] in HD. rewrite Nat.sub_0_r, firstn_all in HD. exact HD.
  - pose proof (Zlen_nonneg m1). pose proof (Zlen_nonneg l2).
    assert (n = Zlen l1 + 1 + Zlen l2) as En2 by (rewrite En, Zlen_app, Zlen_cons; lia).
    assert (length l1 = length m1 + length m2)%nat as El by (apply (f_equal length) in E; rewrite !length_app in E; cbn in E; lia).
    destruct m2 as [|c2 m2].
    + apply app_inj_tail in E as [<- <-]. rewrite Nat.sub_diag, take_0. eexists. split; [by apply step_nack_data|]. by apply D_done.
    + cbn [length] in El. assert (0 <= c < 256) as Hc.
      { assert (Forall (fun b => 0 <= b < 256) (l1 ++ [b])) as Hf by (apply Forall_app; split; [done|by apply Forall_cons]).
        rewrite E in Hf. apply Forall_app in Hf as [_ Hf]. by apply Forall_cons in Hf as [? _]. }
      destruct (length l1 - length m1)%nat as [|j] eqn:Ej; [lia|]. eexists. split.
      * replace (acks (take (S j) l1)) with (listen 0 ++ acks (take j l1)).
        2: { transitivity (acks (0 :: take j l1)); [done|]. apply acks_length. cbn [length]. rewrite !length_take. lia. }
        rewrite <- app_assoc. apply step_tx with (c := c2); [done|lia|unfold Zlen in *; lia|].
        rewrite Ew. replace (l1 ++ b :: l2 ++ post) with ((l1 ++ [b]) ++ l2 ++ post) by (by rewrite <- app_assoc). rewrite E.
        replace (Zlen m1 + 1) with (Zlen (m1 ++ [c])) by (by rewrite Zlen_app).
        replace ((m1 ++ c :: c2 :: m2) ++ l2 ++ post) with ((m1 ++ [c]) ++ c2 :: (m2 ++ l2 ++ post)) by (by rewrite <- !app_assoc). apply bget_middle.
      * assert (t1 m1 ++ frame c 0 = t1 (m1 ++ [c])) as -> by (unfold t1; by rewrite sent_snoc, <- !app_assoc).
        replace (Zlen m1 + 1) with (Zlen (m1 ++ [c])) by (by rewrite Zlen_app).
        pose proof (D_tx (m1 ++ [c]) c2 m2 c 0) as HD. rewrite length_app in HD. cbn [length] in HD.
        replace (length l1 - (length m1 + 1))%nat with j in HD by lia. rewrite Nat.add_1_r in HD. apply HD. by rewrite E, <- app_assoc.
  - eexists. split; [apply step_done|]. apply D_done. lia.
Qed.

Inductive absent_phase : nat -> hcs12_i2c * iic -> Prop :=
  | N_addr da ak : absent_phase 0 (st f_addr 0 0 r 240 (Some W) da ak (listen 1 ++ rest) (t ++ [START]))
  | N_done m da : (1 <= m)%nat -> absent_phase m (st f_done 0 0 r 208 None da 1 rest (((t ++ [START]) ++ frame W 1) ++ [STOP])).
Lemma absent_step m s : absent_phase m s -> exists s', tick s = Ok (s', tt) /\ absent_phase (S m) s'.
Proof.
  intros [da ak|m' da Hm]; eexists.
  - split; [apply step_nack_addr|]. by apply N_done.
  - split; [apply step_done|]. apply N_done. lia.
Qed.
End refused.

(** ** Calls *)
(** No transaction is under way, nobody holds the bus, the slave is about
    to drive [sl], and [t] is what has been seen so far. *)
Record rested (sl : list Z) (t : list symbol) (s : hcs12_i2c * iic) : Prop := {
  r_flags : flags s.1 = no_flags;
  r_master : Z.testbit (i_control s.2) 5 = false;
  r_shift : i_shift s.2 = None;
  r_free : i_foreign s.2 = false;
  r_rxak : i_rxak s.2 = 0 \/ i_rxak s.2 = 1;
  r_bits : i_slave s.2 = sl;
  r_trace : i_trace s.2 = t;
  r_rate : (0 < i_rate s.2)%nat
}.
Section calls.
  Context (fuel : nat) (Hfuel : (257 < fuel)%nat).
Lemma init_regs_eq i ctl f sh d a p fo sl t rate : Z.testbit ctl 5 = false ->
  init_regs (i, MkIic ctl f sh d a p fo sl t rate) = Ok ((i, MkIic 192 f sh d a false fo sl t rate), tt).
Proof.
  intros H. transitivity (Ok ((i, MkIic 192 f sh d a false fo sl (if Z.testbit ctl 5 then t ++ [STOP] else t) rate), tt)); [reflexivity|].
  by rewrite H.
Qed.
Lemma acquire_eq sl t s : rested sl t s -> acquire_i2c s =
  Ok ((set_flags f_done s.1, MkIic 192 (i_freq s.2) None (i_data s.2) (i_rxak s.2) false false sl t (i_rate s.2)), true).
Proof.
  destruct s as [i [ctl f sh d a p fo b tr rt]]. intros [H1 H2 H3 H4 H5 H6 H7 H8].
  cbn [fst snd i_control i_shift i_foreign i_rxak i_slave i_trace i_rate i_freq i_data] in *. subst.
  unfold acquire_i2c. change 20%nat with (S 19). cbn [acquire_loop]. erewrite M_bind_Ok by reflexivity. cbn [fst]. rewrite H1. cbn [aquired no_flags negb].
  erewrite M_bind_Ok by reflexivity. cbn [fst snd]. rewrite (M_bind_Ok _ _ _ _ _ (init_regs_eq _ _ _ _ _ _ _ _ _ _ _ H2)).
  unfold with_flags. by rewrite H1.
Qed.
Lemma start_eq r da ak sl t : 0 < n -> ak = 0 \/ ak = 1 ->
  hcs12_i2c_start_and_tx_addr fuel (st f_done 0 0 r 192 None da ak sl t) = Ok (st f_addr 0 0 r 240 (Some W) da ak sl (t ++ [START]), 1).
Proof.
  intros Hn Ha. unfold hcs12_i2c_start_and_tx_addr. destruct fuel as [|f]; [lia|]. cbn [wait_bus].
  erewrite M_bind_Ok by (erewrite M_bind_Ok by reflexivity; destruct Ha as [-> | ->]; reflexivity). cbn [negb].
  do 2 erewrite M_bind_Ok by reflexivity. replace (Z.to_nat 1000) with (S (Z.to_nat 999)) by lia. cbn [wait_start]. erewrite M_bind_Ok by reflexivity.
  replace (Z.land _ (Z.shiftl 1 5) =? 0) with false by (destruct Ha as [-> | ->]; reflexivity).
  erewrite M_bind_Ok by reflexivity. cbn [fst with_flags set_flags tx_length slave_addr]. cbv zeta. cbn [tx_length st fst snd].
  rewrite (proj2 (Z.leb_gt n 0)) by lia. reflexivity.
Qed.
Lemma release_eq f ti ri rb ctl da ak sl t : Z.testbit ctl 5 = false -> ak = 0 \/ ak = 1 -> (0 < q)%nat ->
  exists s', release_i2c (st f ti ri rb ctl None da ak sl t) = Ok (s', tt) /\ rested sl t s' /\ rx_data s'.1 = Some (rb, 0).
Proof.
  intros Hc Ha Hq. eexists. split.
  - transitivity (Ok (set_flags no_flags (st f ti ri rb ctl None da ak sl t).1, MkIic 0 fr None da ak false false sl (if Z.testbit ctl 5 then t ++ [STOP] else t) q, tt));
      [reflexivity|]. by rewrite Hc.
  - by split.
Qed.

(** [hcs12_i2c_write_then_read] from where the address is on its way. *)
Definition after_start : M (hcs12_i2c * iic) (Z * ptr) :=
  len ← wait_txing fuel;
  if len <? n then _ ← release_i2c; i ← self; mret (len, rx_data i) else
  len ← (if 0 <? k then m ← wait_rxing fuel; mret (u8 (len + m)) else mret len);
  _ ← release_i2c;
  i ← self;
  mret (len, rx_data i).
Lemma started_eq r sl t s : 0 < n -> rested sl t s -> plat_freq_div s.1 = fd -> i_freq s.2 = fr -> i_rate s.2 = q ->
  exists da ak, (ak = 0 \/ ak = 1) /\
    hcs12_i2c_write_then_read fuel addr (Some (wb, 0)) n (Some (r, 0)) k s = after_start (st f_addr 0 0 r 240 (Some W) da ak sl (t ++ [START])).
Proof.
  intros Hn Hs E1 E2 E3. exists (i_data s.2), (i_rxak s.2). split; [apply Hs|]. unfold hcs12_i2c_write_then_read.
  rewrite (M_bind_Ok _ _ _ _ _ (acquire_eq _ _ _ Hs)). cbn [negb]. do 3 erewrite M_bind_Ok by reflexivity.
  destruct s as [i w]. cbn [fst snd] in *. pose proof (start_eq r (i_data w) (i_rxak w) sl t Hn (r_rxak _ _ _ Hs)) as E.
  unfold st in E at 1. rewrite <- E1, <- E2, <- E3 in *. cbn [fst snd set_flags set_tx set_rx set_slave plat_freq_div flags tx_data rx_data tx_length tx_index rx_length rx_index slave_addr].
  rewrite (M_bind_Ok _ _ _ _ _ E). cbn [ctrue Z.eqb negb]. rewrite (proj2 (Z.ltb_lt 0 n)) by done. reflexivity.
Qed.

Section outcomes.
  Context (post r rest : list Z) (t : list symbol) (s : hcs12_i2c * iic).
  Hypotheses (E1 : plat_freq_div s.1 = fd) (E2 : i_freq s.2 = fr) (E3 : i_rate s.2 = q) (Hq : (0 < q)%nat).
Notation transfer := (hcs12_i2c_write_then_read fuel addr (Some (wb, 0)) n (Some (r, 0)) k s).

Lemma transfer_acked l xs : Forall (fun b => 0 <= b < 256) l -> Forall (fun b => 0 <= b < 256) xs -> l <> [] -> xs <> [] ->
  wb = l ++ post -> n = Zlen l -> k = Zlen xs -> n < 256 -> k < 256 -> k <= Zlen r ->
  rested (listen 0 ++ acks l ++ listen 0 ++ concat (map speak xs) ++ rest) t s ->
  exists s', transfer = Ok (s', (u8 (n + k), Some (xs ++ drop (length xs) r, 0))) /\
    rested rest (((((t ++ [START]) ++ frame W 0 ++ sent l) ++ [START]) ++ frame R 0) ++ read_frames xs ++ [STOP]) s'.
Proof.
  intros Hl Hx Hnl Hnx Ew En Ek Hn Hk Hr Hs. destruct (not_nil l Hnl) as (_ & _ & _ & Hl0), (not_nil xs Hnx) as (_ & _ & _ & Hx0).
  destruct (started_eq r _ t s ltac:(lia) Hs E1 E2 E3) as (da & ak & Ha & ->). unfold after_start.
  set (P := acked_phase l r xs rest t).
  assert (forall m u, P m u -> exists u', tick u = Ok (u', tt) /\ P (S m) u') as Hstep by (intros m u; by apply acked_step with (post := post)).
  assert (forall m u, P m u -> i_rate u.2 = q) as Hrate by (by intros m u []).
  destruct (wait_done P Hstep Hrate Hq tx_index tx_length n (S (length l)) Hn) with (j := Z.to_nat (n + 1)) (fuel := fuel) (m := 0%nat)
    (s := st f_addr 0 0 r 240 (Some W) da ak (listen 0 ++ acks l ++ listen 0 ++ concat (map speak xs) ++ rest) (t ++ [START])) as (m1 & u1 & Ew1 & H1 & Hi1).
  { by intros m u []. }
  { intros m u Hm Hp. revert Hm. destruct Hp as [? ?|l1 b l2 ? ? E|? ?|xs1 x xs2 y ? ? E|m' ? ?]; intros Hm; cbn; [lia| |lia..].
    rewrite E, length_app in Hm. cbn in Hm. lia. }
  { apply A_addr. } { lia. } { unfold Zlen in *. lia. } { lia. }
  replace (n + 1 - Z.of_nat (Z.to_nat (n + 1))) with 0 in Ew1 by lia. change (u8 0) with 0 in Ew1. unfold wait_txing. rewrite (M_bind_Ok _ _ _ _ _ Ew1).
  assert (tx_index u1.1 = n /\ (S (length l) <= m1)%nat) as [Ei1 Hm1].
  { destruct H1 as [? ?|l1 b l2 ? ? E|? ?|xs1 x xs2 y ? ? E|m' ? ?]; cbn in Hi1 |- *; [lia| |lia..].
    rewrite En, E, Zlen_app, Zlen_cons in Hi1. pose proof (Zlen_nonneg l2). lia. }
  rewrite Ei1, Z.ltb_irrefl. rewrite (proj2 (Z.ltb_lt 0 k)) by lia.
  destruct (wait_done P Hstep Hrate Hq rx_index rx_length k (S (S (length l)) + length xs) Hk) with (j := Z.to_nat (k + 1)) (fuel := fuel) (m := m1) (s := u1)
    as (m2 & u2 & Ew2 & H2 & Hi2).
  { by intros m u []. }
  { intros m u Hm Hp. revert Hm. destruct Hp as [? ?|l1 b l2 ? ? E|? ?|xs1 x xs2 y ? ? E|m' ? ?]; intros Hm; cbn; [lia| |lia| |lia].
    - rewrite E, length_app in Hm. cbn in Hm. lia.
    - rewrite E, length_app in Hm. cbn in Hm. lia. }
  { done. } { lia. } { unfold Zlen in *. lia. } { lia. }
  replace (k + 1 - Z.of_nat (Z.to_nat (k + 1))) with 0 in Ew2 by lia. change (u8 0) with 0 in Ew2. unfold wait_rxing.
  assert (exists da, u2 = st f_done n k (xs ++ drop (length xs) r) 200 None da 1 rest
    ((((((t ++ [START]) ++ frame W 0 ++ sent l) ++ [START]) ++ frame R 0) ++ read_frames xs) ++ [STOP])) as (da2 & Eu2).
  { destruct H2 as [? ?|l1 b l2 ? ? E|? ?|xs1 x xs2 y ? ? E|m' da2 ?]; cbn in Hi2; [lia..| |by exists da2].
    rewrite Ek, E, Zlen_app, Zlen_cons in Hi2. pose proof (Zlen_nonneg xs2). lia. }
  erewrite M_bind_Ok by (rewrite (M_bind_Ok _ _ _ _ _ Ew2); reflexivity). rewrite Eu2. cbn [st fst rx_index].
  destruct (release_eq f_done n k (xs ++ drop (length xs) r) 200 da2 1 rest
    ((((((t ++ [START]) ++ frame W 0 ++ sent l) ++ [START]) ++ frame R 0) ++ read_frames xs) ++ [STOP])) as (s' & Er & Hr' & Ed); [done|by right|done|].
  rewrite (M_bind_Ok _ _ _ _ _ Er). erewrite M_bind_Ok by reflexivity. rewrite Ed. exists s'. split; [done|]. by rewrite <- (app_assoc _ (read_frames xs)) in Hr'.
Qed.

(** A transaction that breaks off is noticed when the wait is over. *)
Lemma transfer_broken (P : nat -> hcs12_i2c * iic -> Prop) sl t' i M : n < 255 -> 0 <= i < n -> Z.of_nat M <= n + 1 ->
  (forall m u, P m u -> exists u', tick u = Ok (u', tt) /\ P (S m) u') ->
  (forall m u, P m u -> tx_length u.1 = n /\ tx_index u.1 < n /\ i_rate u.2 = q) ->
  (forall m u, P m u -> (M <= m)%nat -> exists da, u = st f_done i 0 r 208 None da 1 rest t') ->
  (forall da ak, ak = 0 \/ ak = 1 -> P 0%nat (st f_addr 0 0 r 240 (Some W) da ak sl (t ++ [START]))) ->
  rested sl t s -> exists s', transfer = Ok (s', (i, Some (r, 0))) /\ rested rest t' s'.
Proof.
  intros Hn Hi HM Hstep Hfields Hend H0 Hs. destruct (started_eq r sl t s ltac:(lia) Hs E1 E2 E3) as (da & ak & Ha & ->). unfold after_start.
  assert (forall m u, P m u -> i_rate u.2 = q) as Hrate by (intros m u Hp; by apply Hfields in Hp as (_ & _ & ?)).
  destruct (wait_timeout P Hstep Hrate Hq tx_index tx_length n Hn) with (j := Z.to_nat (n + 1)) (fuel := fuel) (m := 0%nat)
    (s := st f_addr 0 0 r 240 (Some W) da ak sl (t ++ [START])) as (m1 & u1 & Ew1 & H1 & Hm1).
  { intros m u Hp. by apply Hfields in Hp as (? & ? & _). }
  { by apply H0. } { lia. } { lia. }
  replace (n + 1 - Z.of_nat (Z.to_nat (n + 1))) with 0 in Ew1 by lia. change (u8 0) with 0 in Ew1. unfold wait_txing. rewrite (M_bind_Ok _ _ _ _ _ Ew1).
  destruct (Hend m1 u1 H1 ltac:(lia)) as [da1 ->]. cbn [st fst tx_index]. rewrite (proj2 (Z.ltb_lt i n)) by lia.
  destruct (release_eq f_done i 0 r 208 da1 1 rest t') as (s' & Er & Hr' & Ed); [done|by right|done|].
  rewrite (M_bind_Ok _ _ _ _ _ Er). erewrite M_bind_Ok by reflexivity. rewrite Ed. by exists s'.
Qed.
Lemma transfer_refused l1 b l2 : Forall (fun b => 0 <= b < 256) (l1 ++ b :: l2) -> wb = l1 ++ b :: l2 ++ post -> n = Zlen (l1 ++ b :: l2) -> n < 255 ->
  rested (listen 0 ++ acks l1 ++ listen 1 ++ rest) t s ->
  exists s', transfer = Ok (s', (Zlen l1, Some (r, 0))) /\ rested rest (((t ++ [START]) ++ frame W 0 ++ sent l1) ++ frame b 1 ++ [STOP]) s'.
Proof.
  intros Hl Ew En Hn Hs. pose proof (Zlen_nonneg l1). pose proof (Zlen_nonneg l2).
  assert (n = Zlen l1 + 1 + Zlen l2) as En2 by (rewrite En, Zlen_app, Zlen_cons; lia).
  rewrite app_assoc. apply (transfer_broken (refused_phase l1 r rest b t)) with (i := Zlen l1) (M := S (S (length l1))) (sl := listen 0 ++ acks l1 ++ listen 1 ++ rest); try done; [lia|unfold Zlen in *; lia|..].
  - intros m u. apply refused_step with (l2 := l2) (post := post); try done. lia.
  - intros m u [? ?|m1 c m2 ? ? E|m' ? ?]; cbn; [lia| |lia]. apply (f_equal Zlen) in E. rewrite !Zlen_app, !Zlen_cons in E.
    change (Zlen (@nil Z)) with 0 in E. pose proof (Zlen_nonneg m2). lia.
  - intros m u Hp Hm. revert Hm. destruct Hp as [? ?|m1 c m2 ? ? E|m' da ?]; intros Hm; [lia| |by exists da].
    apply (f_equal length) in E. rewrite !length_app in E. cbn in E. lia.
  - intros da ak _. apply D_addr.
Qed.
Lemma transfer_absent : 0 < n -> n < 255 -> rested (listen 1 ++ rest) t s ->
  exists s', transfer = Ok (s', (0, Some (r, 0))) /\ rested rest (((t ++ [START]) ++ frame W 1) ++ [STOP]) s'.
Proof.
  intros H0 Hn Hs. apply (transfer_broken (absent_phase r rest t)) with (i := 0) (M := 1%nat) (sl := listen 1 ++ rest); try done; [lia|..].
  - apply absent_step.
  - intros m u [? ?|m' ? ?]; cbn; lia.
  - intros m u Hp Hm. revert Hm. destruct Hp as [? ?|m' da ?]; intros Hm; [lia|by exists da].
  - intros da ak _. apply N_addr.
Qed.
End outcomes.
End calls.
End steps.

(** ** Two masters, one bus

    What a slave does in a transaction that writes [l] and reads [xs]: it
    answers to everything, refuses the byte number [i], or is not there. *)
Inductive behaviour := Answers | Refuses (i : nat) | Absent.
Definition drives (l xs : list Z) (b : behaviour) : list Z :=
  match b with
  | Answers => listen 0 ++ acks l ++ listen 0 ++ concat (map speak xs)
  | Refuses i => listen 0 ++ acks (take i l) ++ listen 1
  | Absent => listen 1
  end.
Lemma read_address addr : u8 (Z.shiftl addr 1 + 1) = u8 (Z.lor (Z.shiftl addr 1) 1).
Proof.
  f_equal. rewrite <- Z.add_lor_land. replace (Z.land (Z.shiftl addr 1) 1) with 0; [lia|].
  rewrite Z.shiftl_mul_pow2 by lia. rewrite (Z.land_ones _ 1) by lia. symmetry. apply Z_mod_mult.
Qed.

(** C15: Over the interface of i2c.c the interrupt-driven controller is
    interchangeable with the bit-banged master: for every address, every
    non-empty write and read of fewer than 255 bytes, and a slave that answers,
    refuses a byte or is absent, both put the same symbols on the wires,
    return the same count and leave the same bytes in the caller's buffer;
    and the controller is ready for the next transaction. It does so however
    many bytes fit between two looks of the waiting task. *)
Theorem hcs12_i2c_same_wires (fuel : nat) (addr : Z) (l r xs rest : list Z) (t : list symbol) (b : behaviour) (s : hcs12_i2c * iic) :
  (257 < fuel)%nat -> Forall (fun b => 0 <= b < 256) l -> Forall (fun b => 0 <= b < 256) xs -> l <> [] -> xs <> [] ->
  Zlen l < 255 -> Zlen xs < 255 -> Zlen xs <= Zlen r -> (forall i, b = Refuses i -> (i < length l)%nat) ->
  rested (drives l xs b ++ rest) t s ->
  exists tr n r' s',
    @i2c_transmit _ (softi2c_ops SCL SDA) addr (Some l) (Zlen l) (Some r) (Zlen xs) (idle (drives l xs b ++ rest) t) = Ok (idle rest tr, (n, Some r')) /\
    @i2c_transmit _ (hcs12_i2c_ops fuel) addr (Some l) (Zlen l) (Some r) (Zlen xs) s = Ok (s', (n, Some r')) /\ rested rest tr s'.
Proof.
  intros Hf Hl Hx Hnl Hnx Hn Hk Hr Hi Hs. destruct (not_nil l Hnl) as (_ & _ & _ & Hl0).
  destruct (softi2c_transaction_eq addr l [] r xs rest t Hl Hx Hnx Hr Hnl) as (S1 & S2 & S3). rewrite app_nil_r in S1, S3.
  unfold i2c_transmit. cbn [i2c_ops_transmit softi2c_ops hcs12_i2c_ops].
  pose proof (r_rate _ _ _ Hs) as Hq. destruct b as [|i|]; cbn [drives] in *; rewrite <- ?app_assoc in *.
  - destruct (transfer_acked (plat_freq_div s.1) (i_freq s.2) addr l (Zlen l) (Zlen xs) (i_rate s.2) fuel Hf [] r rest t s eq_refl eq_refl eq_refl Hq l xs)
      as (s' & E & Hr'); try done; [by rewrite app_nil_r|lia|lia|].
    eexists _, _, _, s'. split; [exact S1|]. unfold object_at. cbn [fmap option_fmap option_map]. rewrite (M_bind_Ok _ _ _ _ _ E). split.
    + by rewrite (Z.add_comm (Zlen l)).
    + by rewrite read_address, <- !app_assoc in *.
  - specialize (Hi i eq_refl). destruct (lookup_lt_is_Some_2 l i Hi) as [x Hx']. pose proof (take_drop_middle l i x Hx') as El.
    specialize (S2 (take i l) x (drop (S i) l) (eq_sym El)).
    destruct (transfer_refused (plat_freq_div s.1) (i_freq s.2) addr l (Zlen l) (Zlen xs) (i_rate s.2) fuel Hf [] r rest t s eq_refl eq_refl eq_refl Hq
      (take i l) x (drop (S i) l)) as (s' & E & Hr'); rewrite ?app_nil_r, ?El; try done.
    eexists _, _, _, s'. split; [exact S2|]. unfold object_at. cbn [fmap option_fmap option_map]. rewrite (M_bind_Ok _ _ _ _ _ E). split.
    + unfold mret, M_ret. cbn. do 3 f_equal. rewrite wrap_small; [done|]. pow2_norm. unfold Zlen in *. rewrite length_take. lia.
    + by rewrite <- !app_assoc in *.
  - destruct (transfer_absent (plat_freq_div s.1) (i_freq s.2) addr l (Zlen l) (Zlen xs) (i_rate s.2) fuel Hf r rest t s eq_refl eq_refl eq_refl Hq)
      as (s' & E & Hr'); try done.
    eexists _, _, _, s'. split; [exact S3|]. unfold object_at. cbn [fmap option_fmap option_map]. rewrite (M_bind_Ok _ _ _ _ _ E). split; [done|].
    by rewrite <- !app_assoc in *.
Qed.
Definition rest_iic (slave : list Z) : iic := MkIic 0 31 None 0 0 false false slave [] 3.
Lemma hcs12_i2c_same_wires_witness :
  exists tr n r' s',
    @i2c_transmit _ (softi2c_ops SCL SDA) 80 (Some [0; 7]) 2 (Some [1; 1; 1]) 2 (idle (drives [0; 7] [170; 85] (Refuses 1) ++ []) []) = Ok (idle [] tr, (n, Some r')) /\
    @i2c_transmit _ (hcs12_i2c_ops 258) 80 (Some [0; 7]) 2 (Some [1; 1; 1]) 2 (ex_i2c, rest_iic (drives [0; 7] [170; 85] (Refuses 1) ++ [])) = Ok (s', (n, Some r')) /\
    rested [] tr s'.
Proof.
  apply (hcs12_i2c_same_wires 258 80 [0; 7] [1; 1; 1] [170; 85] [] [] (Refuses 1)); try done; [lia|by repeat constructor|by repeat constructor|..].
  - intros i [= <-]. cbn. lia.
  - split; try done; [by left|cbn; lia].
Defined.

(** ** Waits without an end *)
Lemma delay_still (s : hcs12_i2c * iic) : i_shift s.2 = None -> OSTimeDly s = Ok (s, tt).
Proof.
  intros E. cbn. generalize (i_rate s.2). induction n as [|n IH]; cbn [ticks]; [by destruct s|].
  erewrite M_bind_Ok by (unfold tick; rewrite E; reflexivity). destruct s. exact IH.
Qed.
Lemma wait_bus_forever (s : hcs12_i2c * iic) fuel : i_shift s.2 = None -> i_foreign s.2 = true -> i_rxak s.2 = 0 \/ i_rxak s.2 = 1 ->
  wait_bus fuel 0 s = Err NoFuel.
Proof.
  intros E Hf Ha. induction fuel as [|fuel IH]; cbn [wait_bus]; [done|]. erewrite M_bind_Ok by reflexivity.
  assert (Z.land (i_status s.2) (Z.shiftl 1 5) =? 0 = false) as ->.
  { unfold i_status. rewrite E, Hf, orb_true_r. by destruct (i_pending s.2), Ha as [-> | ->]. }
  cbn [Z.ltb Z.compare]. destruct s as [i w]. cbn [fst snd] in *. erewrite M_bind_Ok by (by apply (delay_still (i, w))). exact IH.
Qed.
Lemma wait_loop_forever fuel c (s : hcs12_i2c * iic) : i_shift s.2 = None -> tx_length s.1 = 255 -> tx_index s.1 < 255 -> 0 <= c < 256 ->
  wait_loop fuel tx_index tx_length c s = Err NoFuel.
Proof.
  intros E El Hi. revert c. induction fuel as [|fuel IH]; intros c Hc; cbn [wait_loop]; [done|]. erewrite M_bind_Ok by reflexivity.
  rewrite El, (proj2 (Z.leb_gt 255 _)), (proj2 (Z.ltb_ge 255 c)) by lia. destruct s as [i w]. cbn [fst snd] in *.
  erewrite M_bind_Ok by (by apply (delay_still (i, w))). apply IH. apply u8_range.
Qed.

(** The driver can wait for ever, however many rounds its loops are
    given: when another master holds the bus, because the loop that waits for
    the bus does not count its rounds; and when a transfer of 255 bytes breaks
    off, because the counter of the loop that waits for its end is a byte and
    never exceeds 255. *)
Theorem hcs12_i2c_waits_forever (fuel : nat) (addr wlen rlen : Z) (w r : ptr) (s : hcs12_i2c * iic) :
  i_shift s.2 = None -> i_rxak s.2 = 0 \/ i_rxak s.2 = 1 ->
  (flags s.1 = no_flags -> Z.testbit (i_control s.2) 5 = false -> i_foreign s.2 = true ->
   hcs12_i2c_write_then_read fuel addr w wlen r rlen s = Err NoFuel) /\
  (tx_length s.1 = 255 -> tx_index s.1 < 255 -> wait_txing fuel s = Err NoFuel).
Proof.
  intros E Ha. split.
  - intros Hfl Hc Hf. destruct s as [i [ctl f sh d a p fo b tr rt]]. cbn [fst snd i_shift i_rxak i_control i_foreign] in *. subst.
    unfold hcs12_i2c_write_then_read, acquire_i2c. change 20%nat with (S 19). cbn [acquire_loop].
    erewrite M_bind_Ok.
    2: { erewrite M_bind_Ok by reflexivity. cbn [fst]. rewrite Hfl. cbn [aquired no_flags negb]. erewrite M_bind_Ok by reflexivity. cbn [fst snd].
         rewrite (M_bind_Ok _ _ _ _ _ (init_regs_eq _ _ _ _ _ _ _ _ _ _ _ Hc)). reflexivity. }
    cbn [negb]. do 3 erewrite M_bind_Ok by reflexivity. unfold hcs12_i2c_start_and_tx_addr.
    match goal with |- context [mbind _ _ ?u] => pose proof (wait_bus_forever u fuel eq_refl eq_refl Ha) as Ew end.
    unfold mbind, M_bind in *. by rewrite Ew.
  - intros Hl Hi. apply wait_loop_forever; try done.
Qed.
Lemma hcs12_i2c_waits_forever_witness :
  hcs12_i2c_write_then_read 500 80 None 1 None 0 (ex_i2c, MkIic 0 0 None 0 0 false true [] [] 1) = Err NoFuel /\
  wait_txing 500 (set_tx None 255 254 ex_i2c, MkIic 0 0 None 0 0 false true [] [] 1) = Err NoFuel.
Proof.
  split.
  - apply (hcs12_i2c_waits_forever 500 80 1 0 None None (ex_i2c, MkIic 0 0 None 0 0 false true [] [] 1)); try done. by left.
  - apply (hcs12_i2c_waits_forever 500 80 1 0 None None (set_tx None 255 254 ex_i2c, MkIic 0 0 None 0 0 false true [] [] 1)); try done. by left.
Defined.
