(* ===== verification/DtuM35.v ===== *)
(** The M35 data terminal of src/src/dtu_m35/dtu_m35.c: the task that powers
    the modem up, configures it and serves the commands of other tasks, and the
    calls of those tasks, which queue a command and wait until the task has
    stored its result in a variable of theirs. A client of AtCmd.v and
    Ringbuffer.v. *)
From Stdlib Require Import String.
From S2P Require Import Prelude Bus Ringbuffer AtCmd AtModem.

(** ** State *)
Inductive DTUM35_RUNTIME_STATUS :=
  | DTUM35_RUNTIME_STATUS_UNKNOWN | DTUM35_RUNTIME_STATUS_POWERUP | DTUM35_RUNTIME_STATUS_CONFIGURE
  | DTUM35_RUNTIME_STATUS_WAIT_REGISTER | DTUM35_RUNTIME_STATUS_SEND_SMS | DTUM35_RUNTIME_STATUS_CONNECT_SERVER
  | DTUM35_RUNTIME_STATUS_GET_SIGNAL_QUALITY | DTUM35_RUNTIME_STATUS_CHECK_CONNECTION | DTUM35_RUNTIME_STATUS_WAIT_EVENT
  | DTUM35_RUNTIME_STATUS_SEND_DATA | DTUM35_RUNTIME_STATUS_RECV_DATA | DTUM35_RUNTIME_STATUS_RECV_SMS
  | DTUM35_RUNTIME_STATUS_DELAT_TO_RESTART | DTUM35_RUNTIME_STATUS_SIM_INIT.
Inductive DTUM35_OPS := DTU_OPS_UNKNOWN | DTU_OPS_CHINA_UNIONCOM | DTU_OPS_CHINA_MOBILE | DTU_OPS_CHINA_TELECOM.

(** [struct dtu_m35], without the fields nothing uses; the semaphore and the
    platform's functions belong to the world. *)
Record dtu_m35 := MkDtu {
  m_atcmd : atcmd;
  cmd_rb : ringbuffer;
  runtime_status : DTUM35_RUNTIME_STATUS;
  wait_time_index_for_restart : Z;
  ops : DTUM35_OPS;
  imei : list Z;
  ccid : list Z;
  lacci : Z * Z;
  rssi : Z;
  ber : Z;
  data_acked : Z
}.
Definition set_atcmd (a : atcmd) (d : dtu_m35) : dtu_m35 := MkDtu a (cmd_rb d) (runtime_status d) (wait_time_index_for_restart d) (ops d) (imei d) (ccid d) (lacci d) (rssi d) (ber d) (data_acked d).
Definition set_cmd_rb (r : ringbuffer) (d : dtu_m35) : dtu_m35 := MkDtu (m_atcmd d) r (runtime_status d) (wait_time_index_for_restart d) (ops d) (imei d) (ccid d) (lacci d) (rssi d) (ber d) (data_acked d).
Definition RUNTIME_STATUS_SET (x : DTUM35_RUNTIME_STATUS) (d : dtu_m35) : dtu_m35 := MkDtu (m_atcmd d) (cmd_rb d) x (wait_time_index_for_restart d) (ops d) (imei d) (ccid d) (lacci d) (rssi d) (ber d) (data_acked d).
Definition set_wait_index (i : Z) (d : dtu_m35) : dtu_m35 := MkDtu (m_atcmd d) (cmd_rb d) (runtime_status d) i (ops d) (imei d) (ccid d) (lacci d) (rssi d) (ber d) (data_acked d).
Definition set_ops (o : DTUM35_OPS) (d : dtu_m35) : dtu_m35 := MkDtu (m_atcmd d) (cmd_rb d) (runtime_status d) (wait_time_index_for_restart d) o (imei d) (ccid d) (lacci d) (rssi d) (ber d) (data_acked d).
Definition set_imei (l : list Z) (d : dtu_m35) : dtu_m35 := MkDtu (m_atcmd d) (cmd_rb d) (runtime_status d) (wait_time_index_for_restart d) (ops d) l (ccid d) (lacci d) (rssi d) (ber d) (data_acked d).
Definition set_ccid (l : list Z) (d : dtu_m35) : dtu_m35 := MkDtu (m_atcmd d) (cmd_rb d) (runtime_status d) (wait_time_index_for_restart d) (ops d) (imei d) l (lacci d) (rssi d) (ber d) (data_acked d).
Definition set_quality (l : Z * Z) (r b a : Z) (d : dtu_m35) : dtu_m35 := MkDtu (m_atcmd d) (cmd_rb d) (runtime_status d) (wait_time_index_for_restart d) (ops d) (imei d) (ccid d) l r b a.

(** [union cmd_param] with the command it belongs to. Pointers are numbers:
    of strings and data, and of the variable that takes the result. *)
Definition CMD_CONNECT_TCP := 0.
Definition CMD_DISCONNECT_TCP := 1.
Definition CMD_SEND_TCP := 2.
Inductive cmd_param :=
  | connect_tcp (host port ret : Z)
  | disconnect_tcp (ret : Z)
  | send_tcp (dat len timeout ret : Z).
Definition cmd_of (p : cmd_param) : Z :=
  match p with connect_tcp _ _ _ => CMD_CONNECT_TCP | disconnect_tcp _ => CMD_DISCONNECT_TCP | send_tcp _ _ _ _ => CMD_SEND_TCP end.

Definition param_ok (pointer : Z -> Prop) (p : cmd_param) : Prop :=
  match p with
  | connect_tcp host port ret => pointer host /\ is_u16 port /\ pointer ret
  | disconnect_tcp ret => pointer ret
  | send_tcp dat len timeout ret => pointer dat /\ is_u16 len /\ is_u32 timeout /\ pointer ret
  end.

(** The bytes of the parameter structures on the target: their sizes by
    command, and the size of the union. *)
Class ParamLayout := {
  sizeof : Z -> Z;
  sizeof_union : Z;
  encode : cmd_param -> list Z;
  decode : Z -> list Z -> cmd_param;
  pointer : Z -> Prop;
  sizeof_range : forall p, 0 < sizeof (cmd_of p) <= sizeof_union;
  union_range : sizeof_union < 256;
  encode_length : forall p, Zlen (encode p) = sizeof (cmd_of p);
  decode_encode : forall p, param_ok pointer p -> decode (cmd_of p) (encode p) = p
}.

(** What the terminal is given: the power supply of the modem, the memory
    of the tasks, and the other tasks, which run while it waits for a command
    and while a client sleeps. *)
Class Power (W : Type) := {
  platform_init : M W unit;
  is_poweron : M W Z;
  power_enable : Z -> M W unit;
  power_key : Z -> M W unit
}.
Class Memory (W : Type) := {
  read_object : Z -> M W (option (list Z));
  read_cell : Z -> M W Z;
  write_cell : Z -> Z -> M W unit
}.
Class CmdSem (W : Type) := {
  post_cmd_sem : M W unit;
  pend_cmd_sem : Z -> M (dtu_m35 * W) Z
}.
Class Clients (W : Type) := { client_sleep : Z -> M (dtu_m35 * W) unit }.

Section terminal.
  Context {W : Type} `{Serial W} `{Waiting W} `{Power W} `{Memory W} `{ParamLayout} (fuel : nat) (junk : Z -> list Z).
Notation D := (dtu_m35 * W)%type.

(** A call on [&m35->atcmd]. *)
Definition on_atcmd {B} (m : M (AtCmd.A W) B) : M D B :=
  fun s => '(aw, x) ← m (m_atcmd s.1, s.2); Ok ((set_atcmd aw.1 s.1, aw.2), x).
Definition sleep (ms : Z) : M D unit := on_atcmd (os_sleep ms).
Definition retry (cmd reply : list Z) (ms : Z) (times : nat) : M D Z :=
  on_atcmd (atcmd_retry_until_reply fuel (Some cmd) (Some reply) ms times).
Definition retrys (cmd : list Z) (replys : list (list Z)) (ms : Z) (times : nat) : M D Z :=
  on_atcmd (atcmd_retry_until_replys fuel junk (Some cmd) replys ms times).

(** ** Powering up and configuring *)
Fixpoint power_up (fuel : nat) : M D unit :=
  match fuel with
  | O => pure (Err NoFuel)
  | S fuel =>
    on ← lift is_poweron;
    if ctrue on then mret tt else
    _ ← lift (power_enable 1);
    _ ← sleep 1000;
    _ ← lift (power_key 1);
    _ ← sleep 1800;
    _ ← lift (power_key 0);
    _ ← sleep 800;
    on ← lift is_poweron;
    if ctrue on then sleep 5000 else
    _ ← lift (power_enable 0);
    _ ← sleep 3000;
    power_up fuel
  end.
(** [if (!...) goto __error;] *)
Definition need (m : M D Z) (k : M D Z) : M D Z := ok ← m; if ctrue ok then k else mret 0.
Definition start_and_config_modem : M D Z :=
  _ ← update (RUNTIME_STATUS_SET DTUM35_RUNTIME_STATUS_POWERUP);
  _ ← power_up fuel;
  _ ← update (RUNTIME_STATUS_SET DTUM35_RUNTIME_STATUS_CONFIGURE);
  _ ← on_atcmd (atcmd_exec_command fuel (Some (lit "AT")) None 500);
  _ ← retry (lit "AT") (lit "Call Ready") 2000 1;
  need (retry (lit "ATE0") (lit "OK") 1200 4) (
  need (retry (lit "AT+CREG=2") (lit "OK") 1200 4) (
  need (retry (lit "AT+CGREG=0") (lit "OK") 1200 4) (
  need (retry (lit "AT+CMGF=1") (lit "OK") 1200 4) (
  need (retry (lit "AT+CSDH=0") (lit "OK") 1200 4) (
  _ ← retry (lit "AT+QIHEAD=1") (lit "OK") 1200 1;
  need (retry (lit "AT+CNMI=2,2,0,0,0") (lit "OK") 1000 5) (
  _ ← update (RUNTIME_STATUS_SET DTUM35_RUNTIME_STATUS_SIM_INIT);
  need (retry (lit "AT+CPIN?") (lit "+CPIN: READY") 1000 10) (
  _ ← update (RUNTIME_STATUS_SET DTUM35_RUNTIME_STATUS_WAIT_REGISTER);
  need (retrys (lit "AT+CREG?") [lit "+CREG: 2,1"; lit "+CREG: 2,5"] 1000 30) (
  _ ← retrys (lit "AT+CGREG?") [lit "+CGREG: 0,1"; lit "+CGREG: 0,5"] 1000 30;
  need (retry (lit "AT+CMGF=1") (lit "OK") 1000 5) (
  need (retry (str "AT+CSCS=" ++ [quote] ++ str "GSM" ++ [quote; 0]) (lit "OK") 1000 5) (
  _ ← retry (lit "AT+QIPROMPT=0") (lit "OK") 500 5;
  mret 1)))))))))).
Definition stop_modem : M D unit :=
  on ← lift is_poweron;
  _ ← (if ctrue on then
         _ ← lift (power_key 1); _ ← sleep 1200; _ ← lift (power_key 0); sleep 12000
       else mret tt);
  lift (power_enable 0).
Definition wait_time_table_for_restart : list Z := [10000; 30000; 100000; 300000; 900000; 1800000; 3600000].
Definition wait_to_restart : M D unit :=
  d ← self;
  ms ← pure (bget wait_time_table_for_restart (wait_time_index_for_restart d));
  _ ← sleep ms;
  d ← self;
  if wait_time_index_for_restart d <? Zlen wait_time_table_for_restart - 1 then
    update (set_wait_index (u8 (wait_time_index_for_restart d + 1)))
  else mret tt.

(** ** Updates *)
Definition update_ops : M D Z :=
  b ← on_atcmd (atcmd_get_ops fuel (junk 32) 32);
  match b with
  | None => mret 0
  | Some b =>
    d ← pure (strcmp b (lit "CHINA MOBILE"));
    if 0 =? d then _ ← update (set_ops DTU_OPS_CHINA_MOBILE); mret 1 else
    d ← pure (strcmp b (lit "CHINA UNIONCOM"));
    if 0 =? d then _ ← update (set_ops DTU_OPS_CHINA_UNIONCOM); mret 1 else
    d ← pure (strcmp b (lit "CHINA TELECOM"));
    if 0 =? d then _ ← update (set_ops DTU_OPS_CHINA_TELECOM); mret 1 else
    _ ← update (set_ops DTU_OPS_UNKNOWN); mret 0
  end.
Fixpoint imei_attempts (n : nat) : M D Z :=
  match n with
  | O => mret 0
  | S n =>
    d ← self;
    '(rc, p) ← on_atcmd (atcmd_get_imei fuel (Some (imei d, 0)) 19);
    _ ← update (set_imei (object p));
    if ctrue rc then mret 1 else imei_attempts n
  end.
Definition update_imei : M D Z := _ ← update (set_imei (replicate 20 0)); imei_attempts 10.
Fixpoint ccid_attempts (n : nat) : M D Z :=
  match n with
  | O => mret 0
  | S n =>
    d ← self;
    '(rc, p) ← on_atcmd (atcmd_get_ccid fuel (Some (ccid d, 0)) 23);
    _ ← update (set_ccid (object p));
    if ctrue rc then mret 1 else ccid_attempts n
  end.
Definition update_ccid : M D Z := _ ← update (set_ccid (replicate 24 0)); ccid_attempts 10.
Definition update_signal_quality : M D Z :=
  x ← on_atcmd (atcmd_get_signal_quality fuel junk);
  match x with
  | Some (r, b) => _ ← update (fun d => set_quality (lacci d) r b (data_acked d) d); mret 1
  | None => mret 0
  end.
Definition update_lacci : M D Z :=
  d ← self;
  '(rc, lac, ci) ← on_atcmd (atcmd_get_lacci fuel junk (Some (lacci d)));
  _ ← update (fun d => set_quality (lac, ci) (rssi d) (ber d) (data_acked d) d);
  mret rc.
Definition update_data_send_info : M D Z :=
  x ← on_atcmd (atcmd_get_data_sent_info fuel junk);
  match x with
  | None => mret 0
  | Some (_, acked, unacked) =>
    d ← self;
    if data_acked d <? u32 acked then _ ← update (fun d => set_quality (lacci d) (rssi d) (ber d) (u32 acked) d); mret 1 else
    mret (if 0 <? u32 unacked then 0 else 1)
  end.

(** ** Commands of other tasks *)
(** [dtum35_init] is declared to return a byte and returns none. [0] in
    every field is what [memset] leaves. *)
Definition dtum35_init : M D unit :=
  _ ← update (fun _ => MkDtu (MkAt (replicate 10 0) 0 0 0 (MkRb 0 0 0 0 []) (MkRb 0 0 0 0 []) 0 serial_recv_serial_default)
                (ringbuffer_init (replicate 100 0) 100) DTUM35_RUNTIME_STATUS_UNKNOWN 0 DTU_OPS_UNKNOWN (replicate 20 0) (replicate 24 0) (0, 0) 0 0 0);
  _ ← lift platform_init;
  update (fun d => set_atcmd (atcmd_init (replicate 100 0) 100 (replicate 200 0) 200 (m_atcmd d)) d).
Definition handle_disconnect_tcp (p : cmd_param) : M D unit :=
  match p with
  | disconnect_tcp ret => x ← on_atcmd (atcmd_disconnect_tcp fuel); lift (write_cell ret x)
  | _ => pure (Err OutOfBounds)
  end.
Definition handle_connect_tcp (p : cmd_param) : M D unit :=
  match p with
  | connect_tcp host port ret =>
    h ← lift (read_object host); x ← on_atcmd (atcmd_connect_tcp fuel junk h port); lift (write_cell ret x)
  | _ => pure (Err OutOfBounds)
  end.
Definition handle_send_tcp (p : cmd_param) : M D unit :=
  match p with
  | send_tcp dat len timeout ret =>
    l ← lift (read_object dat); x ← on_atcmd (atcmd_send_tcp fuel junk l len timeout); lift (write_cell ret x)
  | _ => pure (Err OutOfBounds)
  end.
Definition cmd_handle_maps : list (Z * Z * (cmd_param -> M D unit)) :=
  [(CMD_SEND_TCP, sizeof CMD_SEND_TCP, handle_send_tcp);
   (CMD_CONNECT_TCP, sizeof CMD_CONNECT_TCP, handle_connect_tcp);
   (CMD_DISCONNECT_TCP, sizeof CMD_DISCONNECT_TCP, handle_disconnect_tcp)].
Fixpoint get_cmd_handle (maps : list (Z * Z * (cmd_param -> M D unit))) (cmd : Z) : option (Z * Z * (cmd_param -> M D unit)) :=
  match maps with
  | [] => None
  | m :: maps => if m.1.1 =? cmd then Some m else get_cmd_handle maps cmd
  end.
(** [ringbuffer_read] from the queue into a variable of [len] bytes. *)
Definition read_queue (len n : Z) : M D (Z * list Z) :=
  d ← self;
  '(r, (p, k)) ← pure (rb_read (cmd_rb d) (Some (replicate (Z.to_nat len) 0, 0)) n);
  _ ← update (set_cmd_rb r);
  mret (k, object p).

  Context `{CmdSem W}.
Definition clear_rb : M D unit := update (fun d => set_cmd_rb (rb_clear (cmd_rb d)) d).
(** The body of the inner endless loop of [dtum35_run]. *)
Definition serve : M D unit :=
  got ← pend_cmd_sem 5000;
  if negb (ctrue got) then clear_rb else
  '(n, info) ← read_queue 2 2;
  if negb (2 =? n) then clear_rb else
  cmd ← pure (bget info 0);
  param_len ← pure (bget info 1);
  if sizeof_union <? param_len then clear_rb else
  '(n, param) ← read_queue sizeof_union param_len;
  if negb (param_len =? n) then clear_rb else
  match get_cmd_handle cmd_handle_maps cmd with
  | None => clear_rb
  | Some (_, len, handle) =>
    if negb (param_len =? len) then clear_rb else handle (decode cmd (take (Z.to_nat param_len) param))
  end.
(** The outer loop up to the inner one, which never ends: [true] when it is
    reached, [false] for another round. *)
Definition attempt : M D bool :=
  ok ← start_and_config_modem;
  if ctrue ok then mret true else
  _ ← update (RUNTIME_STATUS_SET DTUM35_RUNTIME_STATUS_DELAT_TO_RESTART);
  _ ← stop_modem;
  _ ← wait_to_restart;
  mret false.

  Context `{Clients W}.
(** The calls of the clients; [ret] is the address of their variable. *)
Fixpoint wait_result (rounds : nat) (ret : Z) : M D Z :=
  match rounds with
  | O => pure (Err NoFuel)
  | S rounds =>
    _ ← client_sleep 2;
    x ← lift (read_cell ret);
    if x =? 127 then wait_result rounds ret else mret x
  end.
(** What the three calls share: [None] when the queue is full. *)
Definition call (p : cmd_param) (ret : Z) : M D (option Z) :=
  let n := sizeof (cmd_of p) in
  d ← self;
  if rb_get_left_space (cmd_rb d) <? n + 2 then mret None else
  _ ← lift (write_cell ret 127);
  d ← self;
  '(r, _) ← pure (rb_write (cmd_rb d) (Some ([cmd_of p; u8 n], 0)) 2);
  '(r, _) ← pure (rb_write r (Some (encode p, 0)) n);
  _ ← update (set_cmd_rb r);
  _ ← lift post_cmd_sem;
  x ← wait_result fuel ret;
  mret (Some x).
Definition dtum35_tcp_read (buf : ptr) (len timeout_ms : Z) : M D (Z * ptr) :=
  on_atcmd (atcmd_recv_tcp fuel buf (u16 len) timeout_ms).
Definition dtum35_tcp_write (buffer len timeout_ms ret : Z) : M D Z :=
  x ← call (send_tcp buffer (u16 len) timeout_ms ret) ret;
  match x with
  | None => mret 0
  | Some x => mret (if ctrue x then len else -1)
  end.
Definition dtum35_tcp_connect (host port ret : Z) : M D Z :=
  x ← call (connect_tcp host port ret) ret; mret (default 0 x).
Definition dtum35_tcp_disconnect (ret : Z) : M D Z :=
  x ← call (disconnect_tcp ret) ret; mret (default 0 x).
End terminal.

(** ** Two tasks

    A world with the memory of the tasks, the semaphore of the queue and a
    modem [X], and a single client: while it sleeps, the terminal's task
    serves one round. *)
Record desk (X : Type) := MkDesk { k_modem : X; k_count : Z; k_cells : Z -> Z; k_objects : Z -> option (list Z) }.
Arguments MkDesk {X} _ _ _ _.
Arguments k_modem {X} _.
Arguments k_count {X} _.
Arguments k_cells {X} _ _.
Arguments k_objects {X} _ _.
Definition set_count {X} (n : Z) (k : desk X) : desk X := MkDesk (k_modem k) n (k_cells k) (k_objects k).
Definition set_cell {X} (p x : Z) (k : desk X) : desk X :=
  MkDesk (k_modem k) (k_count k) (fun q => if q =? p then x else k_cells k q) (k_objects k).
#[export] Instance desk_memory X : Memory (desk X) := {
  read_object := fun p k => Ok (k, k_objects k p);
  read_cell := fun p k => Ok (k, k_cells k p);
  write_cell := fun p x k => Ok (set_cell p x k, tt)
}.
#[export] Instance desk_sem X : CmdSem (desk X) := {
  post_cmd_sem := fun k => Ok (set_count (k_count k + 1) k, tt);
  pend_cmd_sem := fun _ s => Ok (if 0 <? k_count s.2 then ((s.1, set_count (k_count s.2 - 1) s.2), 1) else (s, 0))
}.

Section tasks.
  Context {X : Type} `{Serial (desk X)} `{Waiting (desk X)} `{ParamLayout} (fuel : nat) (junk : Z -> list Z).
Notation D := (dtu_m35 * desk X)%type.
#[local] Instance one_client : Clients (desk X) := { client_sleep := fun _ => serve fuel junk }.

Lemma rb_read_ok (rb : ringbuffer) (c n : Z) (l q : list Z) (len : Z) : repr rb c (l ++ q) -> Zlen l = n -> n < 65536 -> n <= len ->
  n <= c - Zlen (l ++ q) -> exists rb', rb_read rb (Some (replicate (Z.to_nat len) 0, 0)) n =
    Ok (rb', (Some (overwrite (replicate (Z.to_nat len) 0) 0 l, 0), n)) /\ repr rb' c q.
Proof.
  intros R En Hn Hl Hc. pose proof (Zlen_nonneg l). pose proof (Zlen_nonneg q). unfold rb_read.
  assert (rb_cap rb = c) as -> by apply R. rewrite (repr_len _ _ _ R), (proj2 (Z.ltb_ge _ _)) by lia.
  rewrite Zlen_app in Hc.
  destruct (rb_try_read_spec rb c (l ++ q) (Some (replicate (Z.to_nat len) 0, 0)) n R) as (rb' & E & R').
  { pow2_norm; lia. } { cbn. rewrite Zlen_replicate, Zlen_app by lia. lia. }
  rewrite Zlen_app, Z.min_l in E, R' by lia. rewrite <- En in E at 2. rewrite <- En, Zlen_to_nat, drop_app_length in R'.
  rewrite Zlen_to_nat, take_app_length in E. exists rb'. by rewrite E.
Qed.
Lemma rb_read_refused (rb : ringbuffer) (c n : Z) (q : list Z) (p : ptr) : repr rb c q -> c - Zlen q < n -> rb_read rb p n = Ok (rb, (p, 0)).
Proof.
  intros R Hc. unfold rb_read. assert (rb_cap rb = c) as -> by apply R. by rewrite (repr_len _ _ _ R), (proj2 (Z.ltb_lt _ _)) by lia.
Qed.
Definition execute (p : cmd_param) : M D unit :=
  match p with
  | connect_tcp _ _ _ => handle_connect_tcp fuel junk p
  | disconnect_tcp _ => handle_disconnect_tcp fuel p
  | send_tcp _ _ _ _ => handle_send_tcp fuel junk p
  end.
Lemma get_cmd_handle_eq p : exists h, get_cmd_handle (cmd_handle_maps fuel junk) (cmd_of p) = Some (cmd_of p, sizeof (cmd_of p), h) /\ h p = execute p.
Proof. destruct p; cbn; by eexists. Qed.
Definition queued (p : cmd_param) : list Z := [cmd_of p; sizeof (cmd_of p)] ++ encode p.
Lemma Zlen_queued p : Zlen (queued p) = 2 + sizeof (cmd_of p).
Proof. unfold queued. rewrite Zlen_app, encode_length. done. Qed.

Lemma read_queue_eq len n (d : dtu_m35) (k : desk X) rb' l x : rb_read (cmd_rb d) (Some (replicate (Z.to_nat len) 0, 0)) n = Ok (rb', (Some (l, 0), x)) ->
  read_queue len n (d, k) = Ok ((set_cmd_rb rb' d, k), (x, l)).
Proof. intros E. unfold read_queue. erewrite M_bind_Ok by reflexivity. cbn [fst]. by rewrite (pure_bind_Ok _ _ _ _ E). Qed.

(** A round takes the oldest command from the queue and executes it, if
    enough bytes are free. *)
Lemma serve_executes p (d : dtu_m35) (k : desk X) q : repr (cmd_rb d) 100 (queued p ++ q) -> param_ok pointer p -> 0 < k_count k ->
  Zlen (queued p ++ q) <= 98 -> sizeof (cmd_of p) + Zlen (encode p ++ q) <= 100 ->
  exists rb', repr rb' 100 q /\ serve fuel junk (d, k) = execute p (set_cmd_rb rb' d, set_count (k_count k - 1) k).
Proof.
  intros R Hp Hk Hq1 Hq2. pose proof (sizeof_range p) as [Hs Hu]. pose proof union_range as Hur. pose proof (encode_length p) as El.
  unfold queued in R, Hq1. rewrite <- app_assoc in R, Hq1.
  destruct (rb_read_ok (cmd_rb d) 100 2 [cmd_of p; sizeof (cmd_of p)] (encode p ++ q) 2 R eq_refl ltac:(lia) ltac:(lia) ltac:(lia)) as (rb1 & E1 & R1).
  assert (sizeof (cmd_of p) <= 100 - Zlen (encode p ++ q)) as Hq2' by lia.
  destruct (rb_read_ok rb1 100 (sizeof (cmd_of p)) (encode p) q sizeof_union R1 El ltac:(lia) Hu Hq2') as (rb2 & E2 & R2).
  exists rb2. split; [done|]. unfold serve. rewrite (M_bind_Ok _ _ _ (d, set_count (k_count k - 1) k) 1) by (cbn; by rewrite (proj2 (Z.ltb_lt 0 _))).
  cbn [ctrue negb Z.eqb]. rewrite (M_bind_Ok _ _ _ _ _ (read_queue_eq _ _ _ _ _ _ _ E1)). change (overwrite _ 0 _) with [cmd_of p; sizeof (cmd_of p)].
  cbn [negb Pos.eqb]. do 2 (erewrite pure_bind_Ok by reflexivity). rewrite (proj2 (Z.ltb_ge _ _)) by lia.
  rewrite (M_bind_Ok _ _ _ _ _ (read_queue_eq _ _ (set_cmd_rb rb1 d) _ _ _ _ E2)).
  rewrite Z.eqb_refl. cbn [negb]. destruct (get_cmd_handle_eq p) as (h & -> & Eh). rewrite Z.eqb_refl. cbn [negb].
  assert (take (Z.to_nat (sizeof (cmd_of p))) (overwrite (replicate (Z.to_nat sizeof_union) 0) 0 (encode p)) = encode p) as ->.
  { unfold overwrite. change (Z.to_nat 0) with 0%nat. rewrite take_0. cbn [app]. rewrite <- El, Zlen_to_nat. apply take_app_length. }
  by rewrite decode_encode, Eh by done.
Qed.

Lemma posted_taken (k : desk X) : set_count (k_count (set_count (k_count k + 1) k) - 1) (set_count (k_count k + 1) k) = k.
Proof. unfold set_count. cbn. rewrite Z.add_simpl_r. by destruct k. Qed.
(** A client's call, served while the client sleeps. *)
Lemma call_served p ret (d : dtu_m35) (k k2 : desk X) (a' : atcmd) (x : Z) : repr (cmd_rb d) 100 [] -> param_ok pointer p -> 0 <= k_count k ->
  sizeof (cmd_of p) <= 50 -> (0 < fuel)%nat -> x <> 127 ->
  (forall rb', execute p (set_cmd_rb rb' d, set_cell ret 127 k) = Ok ((set_atcmd a' (set_cmd_rb rb' d), set_cell ret x k2), tt)) ->
  exists rb', repr rb' 100 [] /\ call fuel p ret (d, k) = Ok ((set_atcmd a' (set_cmd_rb rb' d), set_cell ret x k2), Some x).
Proof.
  intros R Hp Hk Hs Hf Hx He. pose proof (sizeof_range p) as [Hs0 _]. pose proof (encode_length p) as El.
  unfold call. erewrite M_bind_Ok by reflexivity. cbn [fst]. unfold rb_get_left_space. assert (rb_cap (cmd_rb d) = 100) as Ec by apply R.
  rewrite Ec, (repr_len _ _ _ R). change (u16 (100 - Zlen [])) with 100. rewrite (proj2 (Z.ltb_ge 100 _)) by lia.
  do 2 (erewrite M_bind_Ok by reflexivity). cbn [fst]. rewrite (wrap_small 8) by (pow2_norm; lia).
  destruct (rb_try_write_spec (cmd_rb d) 100 [] (Some ([cmd_of p; sizeof (cmd_of p)], 0)) [cmd_of p; sizeof (cmd_of p)] R (points_src _)) as (rb1 & E1 & R1); [done|].
  change (repr rb1 100 [cmd_of p; sizeof (cmd_of p)]) in R1. assert (rb_write (cmd_rb d) (Some ([cmd_of p; sizeof (cmd_of p)], 0)) 2 = Ok (rb1, 2)) as E1'.
  { unfold rb_write. rewrite Ec, (repr_len _ _ _ R). exact E1. }
  rewrite (pure_bind_Ok _ _ _ _ E1').
  destruct (rb_try_write_spec rb1 100 _ (Some (encode p, 0)) (encode p) R1 (points_src _)) as (rb2 & E2 & R2); [lia|].
  change (Zlen [cmd_of p; sizeof (cmd_of p)]) with 2 in E2, R2. rewrite Z.min_l in E2, R2 by lia. rewrite Zlen_to_nat, firstn_all in R2.
  assert (rb_write rb1 (Some (encode p, 0)) (sizeof (cmd_of p)) = Ok (rb2, sizeof (cmd_of p))) as E2'.
  { unfold rb_write. assert (rb_cap rb1 = 100) as -> by apply R1. rewrite (repr_len _ _ _ R1), <- El. change (Zlen [cmd_of p; Zlen (encode p)]) with 2.
    rewrite El at 1. rewrite (proj2 (Z.ltb_ge _ _)) by (cbn; lia). exact E2. }
  rewrite (pure_bind_Ok _ _ _ _ E2'). do 2 (erewrite M_bind_Ok by reflexivity). cbn [fst snd].
  assert (exists f, fuel = S f) as [f Ef] by (destruct fuel; [lia|by eexists]).
  assert (repr (cmd_rb (set_cmd_rb rb2 d)) 100 (queued p ++ [])) as R2' by (rewrite app_nil_r; exact R2).
  destruct (serve_executes p (set_cmd_rb rb2 d) (set_count (k_count (set_cell ret 127 k) + 1) (set_cell ret 127 k)) [] R2' Hp) as (rb3 & R3 & E3).
  { cbn. lia. } { rewrite app_nil_r, Zlen_queued. lia. } { rewrite app_nil_r. lia. }
  exists rb3. split; [done|].
  erewrite M_bind_Ok; [reflexivity|]. rewrite Ef. cbn [wait_result]. erewrite M_bind_Ok.
  2: { rewrite posted_taken in E3. etransitivity; [exact E3|exact (He rb3)]. }
  erewrite M_bind_Ok by reflexivity. cbn [fst snd k_cells set_cell]. rewrite Z.eqb_refl. by rewrite (proj2 (Z.eqb_neq x 127)).
Qed.

(** C14: A call of another task is the call on the modem: with an empty queue,
    sending, connecting and disconnecting do what the AT command client does
    with the same arguments, its result reaches the caller through the
    variable it waits for, and the queue is empty again. *)
Theorem dtum35_calls (d : dtu_m35) (k k2 : desk X) (a' : atcmd) (p ret x : Z) :
  repr (cmd_rb d) 100 [] -> 0 <= k_count k -> pointer p -> pointer ret -> (forall c, sizeof c <= 50) -> (0 < fuel)%nat -> x <> 127 ->
  let after rb' := (set_atcmd a' (set_cmd_rb rb' d), set_cell ret x k2) in
  let s := (m_atcmd d, set_cell ret 127 k) in
  (forall len ms, is_u32 ms -> atcmd_send_tcp fuel junk (k_objects k p) (u16 len) ms s = Ok ((a', k2), x) ->
    exists rb', repr rb' 100 [] /\ dtum35_tcp_write fuel p len ms ret (d, k) = Ok (after rb', if ctrue x then len else -1)) /\
  (forall port, is_u16 port -> atcmd_connect_tcp fuel junk (k_objects k p) port s = Ok ((a', k2), x) ->
    exists rb', repr rb' 100 [] /\ dtum35_tcp_connect fuel p port ret (d, k) = Ok (after rb', x)) /\
  (atcmd_disconnect_tcp fuel s = Ok ((a', k2), x) ->
    exists rb', repr rb' 100 [] /\ dtum35_tcp_disconnect fuel ret (d, k) = Ok (after rb', x)).
Proof.
  intros R Hk Hp Hr Hs Hf Hx after s. unfold s. clear s. split; [|split].
  - intros len ms Hms E. destruct (call_served (send_tcp p (u16 len) ms ret) ret d k k2 a' x) as (rb' & R' & E'); try done.
    { split; [done|]. split; [apply wrap_range; lia|done]. }
    { intros rb'. cbn [execute handle_send_tcp]. erewrite M_bind_Ok by reflexivity. erewrite M_bind_Ok; [|unfold on_atcmd; cbn [fst snd m_atcmd set_cmd_rb k_objects set_cell]; by rewrite E]. reflexivity. }
    exists rb'. split; [done|]. unfold dtum35_tcp_write. by rewrite (M_bind_Ok _ _ _ _ _ E').
  - intros port Hport E. destruct (call_served (connect_tcp p port ret) ret d k k2 a' x) as (rb' & R' & E'); try done.
    { intros rb'. cbn [execute handle_connect_tcp]. erewrite M_bind_Ok by reflexivity. erewrite M_bind_Ok; [|unfold on_atcmd; cbn [fst snd m_atcmd set_cmd_rb k_objects set_cell]; by rewrite E]. reflexivity. }
    exists rb'. split; [done|]. unfold dtum35_tcp_connect. by rewrite (M_bind_Ok _ _ _ _ _ E').
  - intros E. destruct (call_served (disconnect_tcp ret) ret d k k2 a' x) as (rb' & R' & E'); try done.
    { intros rb'. cbn [execute handle_disconnect_tcp]. erewrite M_bind_Ok; [|unfold on_atcmd; cbn [fst snd m_atcmd set_cmd_rb]; by rewrite E]. reflexivity. }
    exists rb'. split; [done|]. unfold dtum35_tcp_disconnect. by rewrite (M_bind_Ok _ _ _ _ _ E').
Qed.

(** ** Commands that are lost *)
Lemma serve_idle (d : dtu_m35) (k : desk X) : repr (cmd_rb d) 100 [] ->
  exists d' n, repr (cmd_rb d') 100 [] /\ serve fuel junk (d, k) = Ok ((d', set_count n k), tt).
Proof.
  intros R. pose proof (rb_clear_spec _ _ _ R) as Rc. unfold serve. destruct (0 <? k_count k) eqn:Ek.
  2: { rewrite (M_bind_Ok _ _ _ (d, k) 0) by (cbn; by rewrite Ek). exists (set_cmd_rb (rb_clear (cmd_rb d)) d), (k_count k).
       split; [done|]. cbn. by destruct k. }
  rewrite (M_bind_Ok _ _ _ (d, set_count (k_count k - 1) k) 1) by (cbn; by rewrite Ek). cbn [ctrue negb Z.eqb].
  destruct (rb_try_read_spec (cmd_rb d) 100 [] (Some (replicate 2 0, 0)) 2 R) as (rb' & E & R'); [by pow2_norm; split|by vm_compute|].
  assert (rb_read (cmd_rb d) (Some (replicate (Z.to_nat 2) 0, 0)) 2 = Ok (rb', (Some (replicate 2 0, 0), 0))) as E'.
  { unfold rb_read. assert (rb_cap (cmd_rb d) = 100) as -> by apply R. rewrite (repr_len _ _ _ R). exact E. }
  rewrite (M_bind_Ok _ _ _ _ _ (read_queue_eq _ _ _ _ _ _ _ E')). cbn [negb Z.eqb].
  exists (set_cmd_rb (rb_clear rb') d), (k_count k - 1). split; [|done]. exact (rb_clear_spec _ _ _ R').
Qed.
Lemma serve_crowded p (d : dtu_m35) (k : desk X) q : repr (cmd_rb d) 100 (queued p ++ q) -> 0 < k_count k ->
  102 - sizeof (cmd_of p) < Zlen (queued p ++ q) ->
  exists d', repr (cmd_rb d') 100 [] /\ serve fuel junk (d, k) = Ok ((d', set_count (k_count k - 1) k), tt).
Proof.
  intros R Hk Hq. pose proof (sizeof_range p) as [Hs Hu]. pose proof union_range as Hur. pose proof (encode_length p) as El.
  unfold serve. rewrite (M_bind_Ok _ _ _ (d, set_count (k_count k - 1) k) 1) by (cbn; by rewrite (proj2 (Z.ltb_lt 0 _))).
  cbn [ctrue negb Z.eqb]. destruct (Z_lt_le_dec (100 - Zlen (queued p ++ q)) 2) as [Hl|Hl].
  { rewrite (M_bind_Ok _ _ _ _ _ (read_queue_eq _ _ _ _ _ _ _ (rb_read_refused _ _ _ _ _ R Hl))). cbn [negb Z.eqb].
    exists (set_cmd_rb (rb_clear (cmd_rb d)) d). split; [exact (rb_clear_spec _ _ _ R)|]. cbn. by destruct d. }
  unfold queued in R, Hq, Hl. rewrite <- app_assoc in R, Hq, Hl.
  destruct (rb_read_ok (cmd_rb d) 100 2 [cmd_of p; sizeof (cmd_of p)] (encode p ++ q) 2 R eq_refl ltac:(lia) ltac:(lia) ltac:(lia)) as (rb1 & E1 & R1).
  rewrite (M_bind_Ok _ _ _ _ _ (read_queue_eq _ _ _ _ _ _ _ E1)). change (overwrite _ 0 _) with [cmd_of p; sizeof (cmd_of p)].
  cbn [negb Pos.eqb]. do 2 (erewrite pure_bind_Ok by reflexivity). rewrite (proj2 (Z.ltb_ge _ _)) by lia.
  assert (100 - Zlen (encode p ++ q) < sizeof (cmd_of p)) as Hl2 by (rewrite (Zlen_app [cmd_of p; sizeof (cmd_of p)]) in Hq; change (Zlen [cmd_of p; sizeof (cmd_of p)]) with 2 in Hq; lia).
  rewrite (M_bind_Ok _ _ _ _ _ (read_queue_eq _ _ (set_cmd_rb rb1 d) _ _ _ _ (rb_read_refused _ _ _ _ _ R1 Hl2))).
  rewrite (proj2 (Z.eqb_neq _ 0)) by lia. cbn [negb].
  exists (set_cmd_rb (rb_clear rb1) d). split; [exact (rb_clear_spec _ _ _ R1)|]. done.
Qed.
Lemma waits_idle ret rounds : forall (d : dtu_m35) (k : desk X), repr (cmd_rb d) 100 [] -> k_cells k ret = 127 -> wait_result rounds ret (d, k) = Err NoFuel.
Proof.
  induction rounds as [|rounds IH]; intros d k R Hr; [done|]. destruct (serve_idle d k R) as (d' & n & R' & E).
  cbn [wait_result client_sleep one_client]. rewrite (M_bind_Ok _ _ _ _ _ E). erewrite M_bind_Ok by reflexivity.
  cbn [fst snd k_cells set_count]. rewrite Hr, Z.eqb_refl. by apply IH.
Qed.
(** When so many commands are queued that fewer bytes are free than the
    next one takes, the terminal discards all of them without executing one,
    and a client that waits for the result of its command waits forever. *)
Theorem queued_commands_lost (p : cmd_param) (ret : Z) (d : dtu_m35) (k : desk X) (q : list Z) :
  repr (cmd_rb d) 100 (queued p ++ q) -> 0 < k_count k -> 102 - sizeof (cmd_of p) < Zlen (queued p ++ q) -> k_cells k ret = 127 ->
  (exists d', repr (cmd_rb d') 100 [] /\ serve fuel junk (d, k) = Ok ((d', set_count (k_count k - 1) k), tt)) /\
  forall rounds, wait_result rounds ret (d, k) = Err NoFuel.
Proof.
  intros R Hk Hq Hr. destruct (serve_crowded p d k q R Hk Hq) as (d' & R' & E). split; [by exists d'|].
  intros [|rounds]; [done|]. cbn [wait_result client_sleep one_client]. rewrite (M_bind_Ok _ _ _ _ _ E). erewrite M_bind_Ok by reflexivity.
  cbn [fst snd k_cells set_count]. rewrite Hr, Z.eqb_refl. by apply waits_idle.
Qed.
End tasks.

(** ** A modem that never answers

    Its power supply and its power key: without the supply it is off; pressing
    the key for at least a second turns it on or off. The world records what
    the terminal does in one trace, [m_out]: beside the bytes of the serial
    line, which are below 256, an entry for each switching with its time. *)
Record supply := MkSupply { supplied : bool; running : bool; pressed : option Z }.
Definition off : supply := MkSupply false false None.
Definition up : supply := MkSupply true true None.
Inductive switching := Enable (on : bool) | Key (down : bool).
Definition code_of (e : switching) : Z :=
  match e with Enable false => 0 | Enable true => 1 | Key false => 2 | Key true => 3 end.
Definition switched (t : Z) (e : switching) : Z := 256 + 4 * t + code_of e.
Definition act (p : supply) (t : Z) (e : switching) : supply :=
  match e with
  | Enable false => MkSupply false false (pressed p)
  | Enable true => MkSupply true (running p) (pressed p)
  | Key true => MkSupply (supplied p) (running p) (Some t)
  | Key false =>
    match pressed p with
    | Some t0 => MkSupply (supplied p) (if supplied p && (1000 <=? t - t0) then negb (running p) else running p) None
    | None => p
    end
  end.
Definition step_supply (p : supply) (e : Z) : supply :=
  if e <? 256 then p else
  let t := (e - 256) / 4 in
  match (e - 256) mod 4 with
  | 0 => act p t (Enable false) | 1 => act p t (Enable true) | 2 => act p t (Key false) | _ => act p t (Key true)
  end.
Definition supply_after (l : list Z) : supply := foldl step_supply off l.
Definition do_switch (e : switching) : M modem unit :=
  fun w => Ok (MkModem (m_time w) (m_sem w) (m_in w) (m_out w ++ [switched (m_time w) e]), tt).
Definition mains : Power modem := {|
  platform_init := fun w => Ok (w, tt);
  is_poweron := fun w => Ok (w, cbool (running (supply_after (m_out w))));
  power_enable := fun on => do_switch (Enable (ctrue on));
  power_key := fun down => do_switch (Key (ctrue down))
|}.
Lemma step_switched p t e : 0 <= t -> step_supply p (switched t e) = act p t e.
Proof.
  intros Ht. unfold step_supply, switched. assert (0 <= code_of e < 4) by (destruct e as [[]|[]]; cbn; lia).
  rewrite (proj2 (Z.ltb_ge _ 256)) by lia. replace (256 + 4 * t + code_of e - 256) with (code_of e + t * 4) by lia.
  rewrite Z.div_add, Z.mod_add, Z.div_small, Z.mod_small, Z.add_0_l by lia. by destruct e as [[]|[]].
Qed.
Lemma step_bytes p l : Forall (fun c => c < 256) l -> foldl step_supply p l = p.
Proof.
  induction l as [|c l IH]; intros H; [done|]. apply Forall_cons in H as [Hc Hl]. cbn. unfold step_supply at 2.
  rewrite (proj2 (Z.ltb_lt c 256)) by done. by apply IH.
Qed.
(** From [s] to [s'] it took [n] milliseconds in which [l] was sent and nothing
    arrived. *)
Definition quiet (n : Z) (l : list Z) (s s' : dtu_m35 * modem) : Prop :=
  m_in s'.2 = [] /\ m_time s'.2 = m_time s.2 + n /\ m_out s'.2 = m_out s.2 ++ l /\
  wait_time_index_for_restart s'.1 = wait_time_index_for_restart s.1.
Lemma quiet_trans n1 n2 l1 l2 s1 s2 s3 : quiet n1 l1 s1 s2 -> quiet n2 l2 s2 s3 -> quiet (n1 + n2) (l1 ++ l2) s1 s3.
Proof. intros (I1 & T1 & O1 & X1) (I2 & T2 & O2 & X2). split; [done|]. split; [lia|]. split; [by rewrite O2, O1, app_assoc|]. by rewrite X2. Qed.

Section silence.
  Context `{ParamLayout} (fuel : nat) (junk : Z -> list Z) (Hfuel : (0 < fuel)%nat).
#[local] Instance silence_mains : Power modem := mains.
Notation D := (dtu_m35 * modem)%type.
Lemma sleep_quiet ms (s : D) : m_in s.2 = [] -> exists s', sleep ms s = Ok (s', tt) /\ quiet ms [] s s'.
Proof.
  intros E. unfold sleep, on_atcmd. cbn [os_sleep modem_waiting fst snd]. rewrite E. eexists. split; [reflexivity|].
  split; [done|]. split; [done|]. split; [|done]. symmetry. apply app_nil_r.
Qed.
Lemma retry_quiet l reply ms times (s : D) : forallb (fun c => negb (c =? 0)) (str l) = true -> str l <> [] -> m_in s.2 = [] -> 0 < ms -> 0 <= m_time s.2 ->
  m_time s.2 + Z.of_nat times * ms < 4294967296 ->
  exists s', retry fuel (lit l) reply ms times s = Ok (s', 0) /\ quiet (Z.of_nat times * ms) (concat (replicate times (str l ++ [13]))) s s'.
Proof.
  intros Hl Hne Ei Hms H0 Hmax.
  destruct (retry_gives_up_eq fuel times (str l) [] reply ms (m_atcmd s.1, s.2)) as (s' & E & Eo & Et & Ei'); [done|by apply str_nonzero|done..|].
  unfold retry, on_atcmd. change (lit l) with (str l ++ [0]). rewrite E. eexists. split; [reflexivity|]. by split.
Qed.
Lemma send_quiet l ms (s : D) : forallb (fun c => negb (c =? 0)) (str l) = true -> str l <> [] -> m_in s.2 = [] ->
  exists s' p, on_atcmd (atcmd_exec_command fuel (Some (lit l)) None ms) s = Ok (s', p) /\ quiet ms (str l ++ [13]) s s'.
Proof.
  intros Hl Hne Ei. unfold on_atcmd. change (lit l) with (str l ++ [0]). rewrite exec_sends by (done || by apply str_nonzero).
  unfold atcmd_exec_command. erewrite (M_bind_Ok (mret tt)) by reflexivity. erewrite M_bind_Ok.
  2: { cbn [os_sleep modem_waiting]. change (m_in (commanded (str l ++ [13]) (m_atcmd s.1, s.2)).2) with (m_in s.2). rewrite Ei. reflexivity. }
  eexists _, _. split; [reflexivity|]. by split.
Qed.
Lemma switch_quiet e (s : D) : m_in s.2 = [] -> exists s', lift (do_switch e) s = Ok (s', tt) /\ quiet 0 [switched (m_time s.2) e] s s'.
Proof. intros Ei. eexists. split; [reflexivity|]. split; [done|]. split; [cbn; lia|]. by split. Qed.
(** One command of a sequence in which the modem stays silent. *)
Lemma quiet_seq {B C} (m : M D B) (x : B) (k : B -> M D C) n1 l1 n2 l2 (s : D) (y : C) :
  (exists s', m s = Ok (s', x) /\ quiet n1 l1 s s') ->
  (forall s', quiet n1 l1 s s' -> exists s'', k x s' = Ok (s'', y) /\ quiet n2 l2 s' s'') ->
  exists s'', (z ← m; k z) s = Ok (s'', y) /\ quiet (n1 + n2) (l1 ++ l2) s s''.
Proof.
  intros (s' & E & Q) Hk. destruct (Hk s' Q) as (s'' & E' & Q'). exists s''. rewrite (M_bind_Ok _ _ _ _ _ E).
  split; [done|]. by eapply quiet_trans.
Qed.
Lemma quiet_in n l s s' : quiet n l s s' -> m_in s'.2 = [].
Proof. by intros (? & _). Qed.
Lemma quiet_time n l s s' : quiet n l s s' -> m_time s'.2 = m_time s.2 + n.
Proof. by intros (_ & ? & _). Qed.
Lemma quiet_supply n l s s' : quiet n l s s' -> supply_after (m_out s'.2) = foldl step_supply (supply_after (m_out s.2)) l.
Proof. intros (_ & _ & -> & _). unfold supply_after. by rewrite foldl_app. Qed.
Lemma poweron_eq {C} (k : Z -> M D C) (s : D) : (x ← lift is_poweron; k x) s = k (cbool (running (supply_after (m_out s.2)))) s.
Proof. by destruct s. Qed.

(** The pulse of the power key on a modem that is supplied. *)
Definition pulse (t n : Z) : list Z := [switched t (Key true); switched (t + n) (Key false)].
Lemma pulse_supply r t n : 0 <= t -> 1000 <= n -> foldl step_supply (MkSupply true r None) (pulse t n) = MkSupply true (negb r) None.
Proof.
  intros Ht Hn. cbn [foldl pulse]. rewrite !step_switched by lia. cbn [act pressed supplied running andb].
  by rewrite (proj2 (Z.leb_le 1000 _)) by lia.
Qed.
Definition powering (t : Z) : list Z := switched t (Enable true) :: pulse (t + 1000) 1800.
Lemma power_up_silent (s : D) : m_in s.2 = [] -> supply_after (m_out s.2) = off -> 0 <= m_time s.2 ->
  exists s', power_up fuel s = Ok (s', tt) /\ quiet 8600 (powering (m_time s.2)) s s'.
Proof.
  intros Ei Ep H0. replace (power_up fuel) with (power_up (S (pred fuel))) by (f_equal; lia). cbn [power_up]. rewrite poweron_eq, Ep. cbn [off running cbool ctrue Z.eqb negb].
  set (t := m_time s.2). change 8600 with (0 + (1000 + (0 + (1800 + (0 + (800 + 5000)))))).
  change (powering t) with ([switched t (Enable true)] ++ [] ++ [switched (t + 1000) (Key true)] ++ [] ++ [switched (t + 1000 + 1800) (Key false)] ++ [] ++ []).
  apply (quiet_seq _ tt); [by apply switch_quiet|]. intros s1 Q1.
  apply (quiet_seq _ tt); [by apply sleep_quiet, (quiet_in _ _ _ _ Q1)|]. intros s2 Q2. pose proof (quiet_trans _ _ _ _ _ _ _ Q1 Q2) as P2.
  replace (t + 1000) with (m_time s2.2) by (rewrite (quiet_time _ _ _ _ P2); unfold t; lia).
  apply (quiet_seq _ tt); [by apply switch_quiet, (quiet_in _ _ _ _ P2)|]. intros s3 Q3.
  apply (quiet_seq _ tt); [by apply sleep_quiet, (quiet_in _ _ _ _ Q3)|]. intros s4 Q4. pose proof (quiet_trans _ _ _ _ _ _ _ Q3 Q4) as P4.
  replace (m_time s2.2 + 1800) with (m_time s4.2) by (rewrite (quiet_time _ _ _ _ P4); lia).
  apply (quiet_seq _ tt); [by apply switch_quiet, (quiet_in _ _ _ _ P4)|]. intros s5 Q5.
  apply (quiet_seq _ tt); [by apply sleep_quiet, (quiet_in _ _ _ _ Q5)|]. intros s6 Q6.
  pose proof (quiet_trans _ _ _ _ _ _ _ P2 (quiet_trans _ _ _ _ _ _ _ P4 (quiet_trans _ _ _ _ _ _ _ Q5 Q6))) as P6.
  rewrite poweron_eq, (quiet_supply _ _ _ _ P6), Ep.
  assert (m_time s4.2 = m_time s2.2 + 1800) as -> by (rewrite (quiet_time _ _ _ _ P4); lia).
  rewrite (quiet_time _ _ _ _ P2). cbn [app].
  replace (foldl _ _ _) with up; [by apply sleep_quiet, (quiet_in _ _ _ _ P6)|].
  cbn [foldl]. rewrite (step_switched off) by lia. change (act off _ _) with (MkSupply true false None).
  symmetry. apply (pulse_supply false); lia.
Qed.

Lemma power_up_running (s : D) : supply_after (m_out s.2) = up -> power_up fuel s = Ok (s, tt).
Proof. intros Ep. replace (power_up fuel) with (power_up (S (pred fuel))) by (f_equal; lia). cbn [power_up]. by rewrite poweron_eq, Ep. Qed.

(** A round starts with a modem that is off or with one that is running. *)
Definition power_time (p : supply) : Z := if running p then 0 else 8600.
Definition power_trace (p : supply) (t : Z) : list Z := if running p then [] else powering t.
Definition asking : list Z := str "AT" ++ [13] ++ str "AT" ++ [13] ++ concat (replicate 4 (str "ATE0" ++ [13])).

Lemma power_up_quiet (s : D) : let p := supply_after (m_out s.2) in p = off \/ p = up -> m_in s.2 = [] -> 0 <= m_time s.2 ->
  exists s', power_up fuel s = Ok (s', tt) /\ quiet (power_time p) (power_trace p (m_time s.2)) s s' /\ supply_after (m_out s'.2) = up.
Proof.
  cbv zeta. intros [Ep|Ep] Ei H0; rewrite Ep.
  - destruct (power_up_silent s Ei Ep H0) as (s' & E & Q). exists s'. split; [done|]. split; [done|].
    rewrite (quiet_supply _ _ _ _ Q), Ep. unfold powering. cbn [foldl]. rewrite (step_switched off) by lia.
    change (act off _ _) with (MkSupply true false None). apply (pulse_supply false); lia.
  - exists s. split; [by apply power_up_running|]. split; [|done]. split; [done|]. split; [cbn; lia|]. split; [by rewrite app_nil_r|done].
Qed.
Lemma asking_supply p : foldl step_supply p asking = p.
Proof. apply step_bytes. apply (bool_decide_unpack _). by vm_compute. Qed.

Lemma start_silent (s : D) : let p := supply_after (m_out s.2) in p = off \/ p = up -> m_in s.2 = [] ->
  0 <= m_time s.2 -> m_time s.2 + 15900 < 4294967296 ->
  exists s', start_and_config_modem fuel junk s = Ok (s', 0) /\
    quiet (power_time p + 7300) (power_trace p (m_time s.2) ++ asking) s s' /\ supply_after (m_out s'.2) = up.
Proof.
  intros p Hp Ei H0 Hmax. unfold start_and_config_modem. erewrite M_bind_Ok by reflexivity.
  destruct (power_up_quiet (RUNTIME_STATUS_SET DTUM35_RUNTIME_STATUS_POWERUP s.1, s.2) Hp Ei H0) as (s0 & E0 & Q0 & Ep).
  rewrite (M_bind_Ok _ _ _ _ _ E0). erewrite M_bind_Ok by reflexivity. set (s1 := (_, s0.2)).
  assert (quiet (power_time p) (power_trace p (m_time s.2)) s s1) as Q1 by exact Q0.
  assert (power_time p <= 8600) by (unfold power_time; destruct (running p); lia).
  pose proof (quiet_time _ _ _ _ Q1) as T1. assert (0 <= power_time p) by (unfold power_time; destruct (running p); lia).
  destruct (send_quiet "AT" 500 s1) as (s2 & x & E2 & Q2); [done|done|exact (quiet_in _ _ _ _ Q1)|]. rewrite (M_bind_Ok _ _ _ _ _ E2).
  pose proof (quiet_time _ _ _ _ Q2) as T2.
  destruct (retry_quiet "AT" (lit "Call Ready") 2000 1 s2) as (s3 & E3 & Q3); [done|done|exact (quiet_in _ _ _ _ Q2)|lia..|]. rewrite (M_bind_Ok _ _ _ _ _ E3).
  pose proof (quiet_time _ _ _ _ Q3) as T3.
  destruct (retry_quiet "ATE0" (lit "OK") 1200 4 s3) as (s4 & E4 & Q4); [done|done|exact (quiet_in _ _ _ _ Q3)|lia..|]. unfold need at 1. rewrite (M_bind_Ok _ _ _ _ _ E4).
  exists s4. split; [done|]. pose proof (quiet_trans _ _ _ _ _ _ _ Q2 (quiet_trans _ _ _ _ _ _ _ Q3 Q4)) as Q24.
  split; [exact (quiet_trans _ _ _ _ _ _ _ Q1 Q24)|]. rewrite (quiet_supply _ _ _ _ Q24). change (supply_after (m_out s1.2)) with (supply_after (m_out s0.2)).
  rewrite Ep. apply asking_supply.
Qed.
Definition stopping (t : Z) : list Z := pulse t 1200 ++ [switched (t + 13200) (Enable false)].
Lemma stop_quiet (s : D) : supply_after (m_out s.2) = up -> m_in s.2 = [] -> 0 <= m_time s.2 ->
  exists s', stop_modem s = Ok (s', tt) /\ quiet 13200 (stopping (m_time s.2)) s s' /\ supply_after (m_out s'.2) = off.
Proof.
  intros Ep Ei H0. set (t := m_time s.2).
  assert (exists s', stop_modem s = Ok (s', tt) /\ quiet 13200 (stopping t) s s') as (s' & E & Q).
  { unfold stop_modem. rewrite poweron_eq, Ep. cbn [up running cbool ctrue Z.eqb negb].
    change 13200 with ((0 + (1200 + (0 + 12000))) + 0) at 1.
    change (stopping t) with (([switched t (Key true)] ++ [] ++ [switched (t + 1200) (Key false)] ++ []) ++ [switched (t + 13200) (Enable false)]).
    apply (quiet_seq _ tt).
    - apply (quiet_seq _ tt); [by apply switch_quiet|]. intros s1 Q1.
      apply (quiet_seq _ tt); [by apply sleep_quiet, (quiet_in _ _ _ _ Q1)|]. intros s2 Q2. pose proof (quiet_trans _ _ _ _ _ _ _ Q1 Q2) as P2.
      replace (t + 1200) with (m_time s2.2) by (rewrite (quiet_time _ _ _ _ P2); unfold t; lia).
      apply (quiet_seq _ tt); [by apply switch_quiet, (quiet_in _ _ _ _ P2)|]. intros s3 Q3. by apply sleep_quiet, (quiet_in _ _ _ _ Q3).
    - intros s1 Q1. replace (t + 13200) with (m_time s1.2) by (rewrite (quiet_time _ _ _ _ Q1); unfold t; lia).
      by apply switch_quiet, (quiet_in _ _ _ _ Q1). }
  exists s'. split; [done|]. split; [done|]. rewrite (quiet_supply _ _ _ _ Q), Ep. unfold stopping. rewrite foldl_app.
  rewrite (pulse_supply true) by lia. cbn [foldl]. by rewrite step_switched by lia.
Qed.
Lemma wait_quiet (s : D) i : m_in s.2 = [] -> wait_time_index_for_restart s.1 = Z.of_nat i -> (i < 7)%nat ->
  exists s', wait_to_restart s = Ok (s', tt) /\ m_in s'.2 = [] /\ m_time s'.2 = m_time s.2 + nth i wait_time_table_for_restart 0 /\
    m_out s'.2 = m_out s.2 /\ wait_time_index_for_restart s'.1 = Z.min (Z.of_nat i + 1) 6.
Proof.
  intros Ei Hi Hlt. unfold wait_to_restart. erewrite M_bind_Ok by reflexivity. rewrite Hi.
  assert (bget wait_time_table_for_restart (Z.of_nat i) = Ok (nth i wait_time_table_for_restart 0)) as E by (do 7 (destruct i as [|i]; [done|]); lia).
  rewrite (pure_bind_Ok _ _ _ _ E). destruct (sleep_quiet (nth i wait_time_table_for_restart 0) (s.1, s.2) Ei) as (s1 & E1 & I1 & T1 & O1 & X1).
  destruct s as [d m]. cbn [fst snd] in *. rewrite (M_bind_Ok _ _ _ _ _ E1). erewrite M_bind_Ok by reflexivity. rewrite X1, Hi.
  change (Zlen wait_time_table_for_restart - 1) with 6. rewrite app_nil_r in O1. destruct (Z.ltb_spec (Z.of_nat i) 6).
  - eexists. split; [reflexivity|]. split; [done|]. split; [done|]. split; [done|]. cbn. rewrite wrap_small by (pow2_norm; lia). lia.
  - exists s1. split; [by destruct s1|]. split; [done|]. split; [done|]. split; [done|]. rewrite X1, Hi. lia.
Qed.
(** C37: A modem that never answers is stopped and started again.  A round
    turns on the supply and presses the power key for 1.8 seconds, unless the
    modem was running, sends [AT] twice and [ATE0] four times, then presses
    the key for 1.2 seconds, waits for 12 more, and cuts the supply: this and
    nothing else, in this order and at these times, and the modem is off
    afterwards, as the next round finds it.  The pause before that is the next
    of the table, whose last entry is never left. *)
Theorem silent_modem_backoff (s : D) (i : nat) : m_in s.2 = [] -> wait_time_index_for_restart s.1 = Z.of_nat i -> (i < 7)%nat ->
  let t := m_time s.2 in let p := supply_after (m_out s.2) in
  p = off \/ p = up -> 0 <= t -> t + 15900 < 4294967296 ->
  let start := if running p then [] else [switched t (Enable true); switched (t + 1000) (Key true); switched (t + 2800) (Key false)] in
  let t1 := t + (if running p then 0 else 8600) + 7300 in
  exists s', attempt fuel junk s = Ok (s', false) /\ m_in s'.2 = [] /\
    m_out s'.2 = m_out s.2 ++ start ++ str "AT" ++ [13] ++ str "AT" ++ [13] ++ concat (replicate 4 (str "ATE0" ++ [13])) ++
                 [switched t1 (Key true); switched (t1 + 1200) (Key false); switched (t1 + 13200) (Enable false)] /\
    supply_after (m_out s'.2) = off /\
    m_time s'.2 = t1 + 13200 + nth i [10000; 30000; 100000; 300000; 900000; 1800000; 3600000] 0 /\
    wait_time_index_for_restart s'.1 = Z.min (Z.of_nat i + 1) 6.
Proof.
  intros Ei Hi Hlt t p Hp H0 Hmax start t1. destruct (start_silent s Hp Ei H0 Hmax) as (s1 & E1 & Q1 & P1). unfold attempt. rewrite (M_bind_Ok _ _ _ _ _ E1).
  cbn [ctrue Z.eqb negb]. erewrite M_bind_Ok by reflexivity.
  set (s1' := (RUNTIME_STATUS_SET DTUM35_RUNTIME_STATUS_DELAT_TO_RESTART s1.1, s1.2)).
  assert (m_time s1'.2 = t1) as T1 by (cbn; rewrite (quiet_time _ _ _ _ Q1); unfold t1, power_time, p; lia).
  destruct (stop_quiet s1' P1 (proj1 Q1)) as (s2 & E2 & Q2 & P2); [rewrite T1; unfold t1; destruct (running p); lia|]. rewrite (M_bind_Ok _ _ _ _ _ E2).
  rewrite T1 in Q2. destruct (quiet_trans _ _ _ _ s s1' s2 Q1 Q2) as (I2 & T2 & O2 & X2). rewrite Hi in X2.
  destruct (wait_quiet s2 i I2 X2 Hlt) as (s3 & E3 & I3 & T3 & O3 & X3). rewrite (M_bind_Ok _ _ _ _ _ E3).
  exists s3. split; [done|]. split; [done|]. rewrite O3. split; [|split; [done|split; [|done]]].
  - rewrite O2, <- app_assoc. f_equal. fold p. change (m_time s.2) with t.
    assert (power_trace p t = start) as ->; [|done]. unfold power_trace, powering, pulse, start.
    by replace (t + 1000 + 1800) with (t + 2800) by lia.
  - rewrite T3, (quiet_time _ _ _ _ Q2), T1. done.
Qed.
End silence.

(** ** A 32-bit little-endian target *)
Fixpoint le (n : nat) (x : Z) : list Z := match n with O => [] | S n => x mod 256 :: le n (x / 256) end.
Fixpoint unle (l : list Z) : Z := match l with [] => 0 | x :: l => x + 256 * unle l end.
Lemma unle_le n : forall x, 0 <= x < 256 ^ Z.of_nat n -> unle (le n x) = x.
Proof.
  induction n as [|n IH]; intros x Hx; cbn [le unle]; [cbn in Hx; lia|]. rewrite Nat2Z.inj_succ, Z.pow_succ_r in Hx by lia.
  rewrite IH; [pose proof (Z.div_mod x 256); lia|]. split; [apply Z.div_pos; lia|apply Z.div_lt_upper_bound; lia].
Qed.
Definition at_pos (l : list Z) (p n : nat) : Z := unle (take n (drop p l)).
Definition ilp32_size (cmd : Z) : Z := if cmd =? CMD_CONNECT_TCP then 12 else if cmd =? CMD_DISCONNECT_TCP then 4 else 16.
Definition ilp32_encode (p : cmd_param) : list Z :=
  match p with
  | connect_tcp host port ret => le 4 host ++ le 2 port ++ [0; 0] ++ le 4 ret
  | disconnect_tcp ret => le 4 ret
  | send_tcp dat len timeout ret => le 4 dat ++ le 2 len ++ [0; 0] ++ le 4 timeout ++ le 4 ret
  end.
Definition ilp32_decode (cmd : Z) (l : list Z) : cmd_param :=
  if cmd =? CMD_CONNECT_TCP then connect_tcp (at_pos l 0 4) (at_pos l 4 2) (at_pos l 8 4)
  else if cmd =? CMD_DISCONNECT_TCP then disconnect_tcp (at_pos l 0 4)
  else send_tcp (at_pos l 0 4) (at_pos l 4 2) (at_pos l 8 4) (at_pos l 12 4).
Lemma ilp32_round_trip p : param_ok (fun x => 0 <= x < 4294967296) p -> ilp32_decode (cmd_of p) (ilp32_encode p) = p.
Proof.
  destruct p as [host port ret|ret|dat len timeout ret]; intros Hp; cbn [param_ok] in Hp; pow2_norm; cbv [ilp32_decode cmd_of]; cbn [Z.eqb Pos.eqb CMD_CONNECT_TCP CMD_DISCONNECT_TCP CMD_SEND_TCP].
  - change (connect_tcp (unle (le 4 host)) (unle (le 2 port)) (unle (le 4 ret)) = connect_tcp host port ret). rewrite !unle_le by (cbn; lia). done.
  - change (disconnect_tcp (unle (le 4 ret)) = disconnect_tcp ret). rewrite unle_le by (cbn; lia). done.
  - change (send_tcp (unle (le 4 dat)) (unle (le 2 len)) (unle (le 4 timeout)) (unle (le 4 ret)) = send_tcp dat len timeout ret).
    rewrite !unle_le by (cbn; lia). done.
Qed.
Lemma ilp32_size_range p : 0 < ilp32_size (cmd_of p) <= 16.
Proof. by destruct p. Qed.
Lemma ilp32_encode_length p : Zlen (ilp32_encode p) = ilp32_size (cmd_of p).
Proof. by destruct p. Qed.
Definition ilp32 : ParamLayout := {|
  sizeof := ilp32_size; sizeof_union := 16; encode := ilp32_encode; decode := ilp32_decode; pointer := fun x => 0 <= x < 4294967296;
  sizeof_range := ilp32_size_range; union_range := eq_refl; encode_length := ilp32_encode_length; decode_encode := ilp32_round_trip
|}.
#[local] Existing Instance ilp32.

(** The modem of a desk. *)
Definition set_modem {X} (m : X) (k : desk X) : desk X := MkDesk m (k_count k) (k_cells k) (k_objects k).
Definition in_desk {X B} (m : M X B) : M (desk X) B := fun k => '(x, b) ← m (k_modem k); Ok (set_modem x k, b).
Definition at_desk {X B} (m : M (AtCmd.A X) B) : M (AtCmd.A (desk X)) B :=
  fun s => '(x, b) ← m (s.1, k_modem s.2); Ok ((x.1, set_modem x.2 s.2), b).
#[local] Instance desk_serial : Serial (desk modem) := {|
  os_get_time := in_desk os_get_time; os_post_sem := in_desk os_post_sem; os_clear_sem := in_desk os_clear_sem;
  serial_send := fun l => in_desk (serial_send l)
|}.
#[local] Instance desk_waiting : Waiting (desk modem) := {|
  os_pend_sem := fun ms => at_desk (os_pend_sem ms); os_sleep := fun ms => at_desk (os_sleep ms)
|}.
Definition ex_dtu (q : list Z) : dtu_m35 :=
  MkDtu ex_atcmd (MkRb 100 (Zlen q) (Zlen q) 0 (q ++ replicate (100 - length q) 0)) DTUM35_RUNTIME_STATUS_WAIT_REGISTER 0 DTU_OPS_UNKNOWN [] [] (0, 0) 0 0 0.
Definition ex_desk (m : modem) (n : Z) : desk modem := MkDesk m n (fun _ => 127) (fun _ => Some (str "hello")).
#[local] Instance ex_clients : Clients (desk modem) := one_client 30 (fun _ => []).
#[local] Existing Instance mains.
Ltac ex_queue :=
  split; [constructor; [split; vm_compute; reflexivity|vm_compute; reflexivity|split; vm_compute; discriminate|split; vm_compute; [discriminate|reflexivity]|vm_compute; reflexivity]|
          split; [reflexivity|vm_compute; reflexivity]].
Definition closing : modem := MkModem 5 0 (at_once 50 (str "CLOSE OK")) [].
Lemma dtum35_calls_witness :
  exists s, dtum35_tcp_disconnect 30 7 (ex_dtu [], ex_desk closing 0) = Ok (s, 1) /\
    m_out (k_modem s.2) = str "AT+QICLOSE" ++ [13].
Proof.
  assert (exists a' k', atcmd_disconnect_tcp 30 (ex_atcmd, set_cell 7 127 (ex_desk closing 0)) = Ok ((a', k'), 1) /\ m_out (k_modem k') = str "AT+QICLOSE" ++ [13])
    as (a' & k' & E & Eo) by (eexists _, _; vm_compute; by split).
  destruct (dtum35_calls 30 (fun _ => []) (ex_dtu []) (ex_desk closing 0) k' a' 0 7 1) as (_ & _ & T);
    [ex_queue|done|split; by vm_compute|split; by vm_compute| |lia|done|].
  { intros c. cbn. unfold ilp32_size. repeat case_match; lia. }
  destruct (T E) as (rb' & _ & E'). eexists. split; [exact E'|exact Eo].
Defined.
Definition five_sends : list Z := mjoin (replicate 5 (queued (send_tcp 64 5 1000 7))).
Lemma queued_commands_lost_witness : wait_result 1000000 7 (ex_dtu five_sends, ex_desk closing 5) = Err NoFuel.
Proof.
  apply (queued_commands_lost 30 (fun _ => []) (send_tcp 64 5 1000 7) 7 (ex_dtu five_sends) (ex_desk closing 5) (drop 18 five_sends));
    [ex_queue|by vm_compute|by vm_compute|by vm_compute].
Defined.
Lemma silent_modem_backoff_witness :
  exists s', attempt 1 (fun _ => []) (ex_dtu [], MkModem 0 0 [] []) = Ok (s', false) /\ m_time s'.2 = 39100 /\
    filter (fun e => 256 <= e) (m_out s'.2) =
      [switched 0 (Enable true); switched 1000 (Key true); switched 2800 (Key false);
       switched 15900 (Key true); switched 17100 (Key false); switched 29100 (Enable false)].
Proof.
  destruct (silent_modem_backoff 1 (fun _ => []) ltac:(lia) (ex_dtu [], MkModem 0 0 [] []) 0) as (s' & E & _ & O & _ & T & _);
    [done|done|lia|by left|done|done|].
  exists s'. split; [exact E|]. split; [exact T|]. rewrite O. vm_compute. reflexivity.
Defined.
