(* ===== verification/LuaStr.v ===== *)
(** The string library of the Lua interpreter, src/src/lua/lstrlib.c: the
    pattern matcher with its backtracking over one mutable match state, and
    the library functions on top of it. A function of the library is a
    function of the arguments it has fetched from the Lua stack; its result
    are the values it pushes. *)
From Stdlib Require String Ascii.
From S2P Require Import Prelude.

(** ** Outcomes

    A value, an error raised with [luaL_error] or by the lexer, or a fault of
    the C code. *)
Inductive lua_error :=
  | InvalidCaptureIndex | InvalidPatternCapture | MalformedEndsWithPercent | MalformedMissingBracket
  | UnbalancedPattern | TooManyCaptures | MissingBracketAfterF | UnfinishedCapture | SliceTooLong
  | InvalidValue | InvalidReplacement | RepeatedFlags | WidthTooLong | NoValue | InvalidOption | BadArgument
  | LexicalElementTooLong | TooManyLines | MalformedNumber | UnfinishedLongString | UnfinishedLongComment
  | NestingDeprecated | UnfinishedString | EscapeTooLarge | InvalidLongDelimiter
  | UnexpectedEnd | BadSize | BadInteger | BadConstant | CodeTooDeep | BadCode | BadHeader | BlockTooBig | NotEnoughMemory | UnableToDump
  | TableIndexIsNil | TableIndexIsNaN | TableOverflow | InvalidKeyToNext.
Inductive outcome (A : Type) := Val (a : A) | Raise (e : lua_error) | Fault (f : fault).
Arguments Val {A} _.
Arguments Raise {A} _.
Arguments Fault {A} _.
#[export] Instance outcome_ret : MRet outcome := fun A a => Val a.
#[export] Instance outcome_bind : MBind outcome :=
  fun A B f m => match m with Val a => f a | Raise e => Raise e | Fault e => Fault e end.
Definition of_res {A} (r : res A) : outcome A := match r with Ok a => Val a | Err f => Fault f end.

(** ** Characters, in the C locale *)
Definition between (a c b : Z) : bool := (a <=? c) && (c <=? b).
Definition isdigit (c : Z) : bool := between 48 c 57.
Definition islower (c : Z) : bool := between 97 c 122.
Definition isupper (c : Z) : bool := between 65 c 90.
Definition isalpha (c : Z) : bool := islower c || isupper c.
Definition isalnum (c : Z) : bool := isalpha c || isdigit c.
Definition iscntrl (c : Z) : bool := between 0 c 31 || (c =? 127).
Definition isspace (c : Z) : bool := between 9 c 13 || (c =? 32).
Definition isxdigit (c : Z) : bool := isdigit c || between 97 c 102 || between 65 c 70.
Definition ispunct (c : Z) : bool := between 33 c 126 && negb (isalnum c).
Definition tolower (c : Z) : Z := if isupper c then c + 32 else c.
Definition toupper (c : Z) : Z := if islower c then c - 32 else c.

(** ** Functions on whole strings *)
Definition posrelat (pos len : Z) : Z :=
  let pos := if pos <? 0 then pos + (len + 1) else pos in if 0 <=? pos then pos else 0.
(** [lua_pushlstring] of [n] bytes from the offset [o] of a string object. *)
Definition pushlstring (s : list Z) (o n : Z) : outcome (list Z) :=
  if (0 <=? o) && (0 <=? n) && (o + n <=? Zlen s) then Val (slice s o n) else Fault OutOfBounds.
(** The object behind a Lua string: its bytes and a terminating zero. *)
Definition cstr (s : list Z) : list Z := s ++ [0].
Definition str_len (s : list Z) : Z := Zlen s.
Definition str_sub (s : list Z) (i j : Z) : outcome (list Z) :=
  let l := Zlen s in
  let start := posrelat i l in
  let end_ := posrelat j l in
  let start := if start <? 1 then 1 else start in
  let end_ := if l <? end_ then l else end_ in
  if start <=? end_ then pushlstring (cstr s) (start - 1) (end_ - start + 1) else mret [].
Fixpoint reverse_loop (s : list Z) (l : nat) (b : list Z) : outcome (list Z) :=
  match l with
  | O => mret b
  | S l => c ← of_res (bget (cstr s) (Z.of_nat l)); reverse_loop s l (b ++ [c])
  end.
Definition str_reverse (s : list Z) : outcome (list Z) := reverse_loop s (length s) [].
Fixpoint map_loop (f : Z -> Z) (s : list Z) (n : nat) (i : Z) (b : list Z) : outcome (list Z) :=
  match n with
  | O => mret b
  | S n => c ← of_res (bget (cstr s) i); map_loop f s n (i + 1) (b ++ [f c])
  end.
Definition str_lower (s : list Z) : outcome (list Z) := map_loop tolower s (length s) 0 [].
Definition str_upper (s : list Z) : outcome (list Z) := map_loop toupper s (length s) 0 [].
Fixpoint rep_loop (s : list Z) (n : nat) (b : list Z) : list Z :=
  match n with O => b | S n => rep_loop s n (b ++ s) end.
Definition str_rep (s : list Z) (n : Z) : list Z := rep_loop s (Z.to_nat n) [].
Fixpoint byte_loop (s : list Z) (n : nat) (p : Z) : outcome (list Z) :=
  match n with
  | O => mret []
  | S n => c ← of_res (bget (cstr s) (p - 1)); l ← byte_loop s n (p + 1); mret (c :: l)
  end.
(** [luaL_checkstack] is the limit [stack] on the number of results. *)
Definition str_byte (stack : Z) (s : list Z) (i j : Z) : outcome (list Z) :=
  let l := Zlen s in
  let posi := posrelat i l in
  let pose := posrelat j l in
  let posi := if posi <=? 0 then 1 else posi in
  let pose := if l <? pose then l else pose in
  if pose <? posi then mret [] else
  let n := s32 (pose - posi + 1) in
  if posi + n <=? pose then Raise SliceTooLong else
  if stack <? n then Raise SliceTooLong else byte_loop s (Z.to_nat n) posi.
Fixpoint str_char (l : list Z) : outcome (list Z) :=
  match l with
  | [] => mret []
  | c :: l => if u8 c =? c then b ← str_char l; mret (u8 c :: b) else Raise InvalidValue
  end.

(** ** Pattern matching *)
Definition LUA_MAXCAPTURES := 10.
Definition CAP_UNFINISHED := -1.
Definition CAP_POSITION := -2.
Definition L_ESC := 37.

(** [struct MatchState]; the subject and the pattern are variables below,
    pointers into them offsets. *)
Record MatchState := MkMs { level : Z; capture : list (Z * Z) }.
Definition set_level (n : Z) (ms : MatchState) : MatchState := MkMs n (capture ms).
Definition set_capture (c : list (Z * Z)) (ms : MatchState) : MatchState := MkMs (level ms) c.

Section match_state.
  (** The subject and the pattern. *)
  Context (str pat : list Z).
Definition src_end : Z := Zlen str.
Definition at_s (i : Z) : outcome Z := of_res (bget (cstr str) i).
Definition at_p (i : Z) : outcome Z := of_res (bget (cstr pat) i).
Definition cap (ms : MatchState) (l : Z) : outcome (Z * Z) := of_res (bget (capture ms) l).
Definition put_cap (ms : MatchState) (l : Z) (c : Z * Z) : outcome MatchState :=
  b ← of_res (bset (capture ms) l c); mret (set_capture b ms).

Definition check_capture (ms : MatchState) (l : Z) : outcome Z :=
  let l := l - 49 in
  if (l <? 0) || (level ms <=? l) then Raise InvalidCaptureIndex else
  c ← cap ms l;
  if c.2 =? CAP_UNFINISHED then Raise InvalidCaptureIndex else mret l.
Fixpoint close_loop (ms : MatchState) (n : nat) : outcome Z :=
  match n with
  | O => Raise InvalidPatternCapture
  | S n => c ← cap ms (Z.of_nat n); if c.2 =? CAP_UNFINISHED then mret (Z.of_nat n) else close_loop ms n
  end.
Definition capture_to_close (ms : MatchState) : outcome Z := close_loop ms (Z.to_nat (level ms)).

Fixpoint class_loop (fuel : nat) (p : Z) : outcome Z :=
  match fuel with
  | O => Fault NoFuel
  | S fuel =>
    c ← at_p p;
    if c =? 0 then Raise MalformedMissingBracket else
    let p := p + 1 in
    d ← at_p p;
    let p := if (c =? L_ESC) && negb (d =? 0) then p + 1 else p in
    d ← at_p p;
    if d =? 93 then mret (p + 1) else class_loop fuel p
  end.
Definition classend (p : Z) : outcome Z :=
  c ← at_p p;
  let p := p + 1 in
  if c =? L_ESC then
    d ← at_p p; if d =? 0 then Raise MalformedEndsWithPercent else mret (p + 1)
  else if c =? 91 then
    d ← at_p p; class_loop (S (length pat)) (if d =? 94 then p + 1 else p)
  else mret p.

Definition match_class (c cl : Z) : bool :=
  let k := tolower cl in
  let neg res := if islower cl then res else negb res in
  if k =? 97 then neg (isalpha c) else if k =? 99 then neg (iscntrl c) else if k =? 100 then neg (isdigit c)
  else if k =? 108 then neg (islower c) else if k =? 112 then neg (ispunct c) else if k =? 115 then neg (isspace c)
  else if k =? 117 then neg (isupper c) else if k =? 119 then neg (isalnum c) else if k =? 120 then neg (isxdigit c)
  else if k =? 122 then neg (c =? 0) else cl =? c.
Fixpoint bracket_loop (fuel : nat) (c p ec : Z) (sig : bool) : outcome bool :=
  match fuel with
  | O => Fault NoFuel
  | S fuel =>
    let p := p + 1 in
    if negb (p <? ec) then mret (negb sig) else
    x ← at_p p;
    if x =? L_ESC then
      let p := p + 1 in
      x ← at_p p;
      if match_class c x then mret sig else bracket_loop fuel c p ec sig
    else
      d ← at_p (p + 1);
      if (d =? 45) && (p + 2 <? ec) then
        let p := p + 2 in
        lo ← at_p (p - 2); hi ← at_p p;
        if (lo <=? c) && (c <=? hi) then mret sig else bracket_loop fuel c p ec sig
      else if x =? c then mret sig else bracket_loop fuel c p ec sig
  end.
Definition matchbracketclass (c p ec : Z) : outcome bool :=
  d ← at_p (p + 1);
  if d =? 94 then bracket_loop (S (length pat)) c (p + 1) ec false else bracket_loop (S (length pat)) c p ec true.
Definition singlematch (c p ep : Z) : outcome bool :=
  x ← at_p p;
  if x =? 46 then mret true
  else if x =? L_ESC then cl ← at_p (p + 1); mret (match_class c cl)
  else if x =? 91 then matchbracketclass c p (ep - 1)
  else mret (x =? c).

Fixpoint balance_loop (fuel : nat) (s b e cont : Z) : outcome (option Z) :=
  match fuel with
  | O => Fault NoFuel
  | S fuel =>
    let s := s + 1 in
    if negb (s <? src_end) then mret None else
    c ← at_s s;
    if c =? e then if cont - 1 =? 0 then mret (Some (s + 1)) else balance_loop fuel s b e (cont - 1)
    else balance_loop fuel s b e (if c =? b then cont + 1 else cont)
  end.
Definition matchbalance (s p : Z) : outcome (option Z) :=
  b ← at_p p;
  if b =? 0 then Raise UnbalancedPattern else
  e ← at_p (p + 1);
  if e =? 0 then Raise UnbalancedPattern else
  c ← at_s s;
  if negb (c =? b) then mret None else balance_loop (S (length str)) s b e 1.

(** The item at [p] that ends at [ep] accepts the character at [s]. *)
Definition item_at (s p ep : Z) : outcome bool :=
  if s <? src_end then c ← at_s s; singlematch c p ep else mret false.

(** [memcmp] of parts of the subject. *)
Definition same_bytes (i j len : Z) : outcome bool :=
  if (0 <=? i) && (0 <=? j) && (0 <=? len) && (i + len <=? Zlen (cstr str)) && (j + len <=? Zlen (cstr str))
  then mret (bool_decide (slice (cstr str) i len = slice (cstr str) j len)) else Fault OutOfBounds.
Definition match_capture (ms : MatchState) (s l : Z) : outcome (option Z) :=
  l ← check_capture ms l;
  c ← cap ms l;
  let len := u32 c.2 in
  if len <=? src_end - s then
    b ← same_bytes c.1 s len; mret (if (b : bool) then Some (s + len) else None)
  else mret None.

(** The functions that call [match] again are given it as [rec]. *)
Section recursive.
  Context (rec : MatchState -> Z -> Z -> outcome (MatchState * option Z)).
Fixpoint count_loop (fuel : nat) (s p ep i : Z) : outcome Z :=
  match fuel with
  | O => Fault NoFuel
  | S fuel => m ← item_at (s + i) p ep; if (m : bool) then count_loop fuel s p ep (i + 1) else mret i
  end.
(** [n] is [i + 1]. *)
Fixpoint try_loop (ms : MatchState) (n : nat) (s ep : Z) : outcome (MatchState * option Z) :=
  match n with
  | O => mret (ms, None)
  | S i =>
    '(ms, res) ← rec ms (s + Z.of_nat i) (ep + 1);
    match res with Some e => mret (ms, Some e) | None => try_loop ms i s ep end
  end.
Definition max_expand (ms : MatchState) (s p ep : Z) : outcome (MatchState * option Z) :=
  i ← count_loop (S (length str)) s p ep 0;
  try_loop ms (Z.to_nat (i + 1)) s ep.
Fixpoint min_loop (fuel : nat) (ms : MatchState) (s p ep : Z) : outcome (MatchState * option Z) :=
  match fuel with
  | O => Fault NoFuel
  | S fuel =>
    '(ms, res) ← rec ms s (ep + 1);
    match res with
    | Some e => mret (ms, Some e)
    | None => m ← item_at s p ep; if (m : bool) then min_loop fuel ms (s + 1) p ep else mret (ms, None)
    end
  end.
Definition min_expand := min_loop (S (length str)).
Definition start_capture (ms : MatchState) (s p what : Z) : outcome (MatchState * option Z) :=
  let level := level ms in
  if LUA_MAXCAPTURES <=? level then Raise TooManyCaptures else
  ms ← put_cap ms level (s, what);
  '(ms, res) ← rec (set_level (level + 1) ms) s p;
  match res with
  | Some e => mret (ms, Some e)
  | None => mret (set_level (LuaStr.level ms - 1) ms, None)
  end.
Definition end_capture (ms : MatchState) (s p : Z) : outcome (MatchState * option Z) :=
  l ← capture_to_close ms;
  c ← cap ms l;
  ms ← put_cap ms l (c.1, s - c.1);
  '(ms, res) ← rec ms s p;
  match res with
  | Some e => mret (ms, Some e)
  | None => c ← cap ms l; ms ← put_cap ms l (c.1, CAP_UNFINISHED); mret (ms, None)
  end.

(** From [default] on: a single character with its suffix. *)
Definition match_item (ms : MatchState) (s p : Z) : outcome (MatchState * option Z) :=
  ep ← classend p;
  m ← item_at s p ep;
  x ← at_p ep;
  if x =? 63 then
    (if (m : bool) then
       '(ms, res) ← rec ms (s + 1) (ep + 1);
       match res with Some e => mret (ms, Some e) | None => rec ms s (ep + 1) end
     else rec ms s (ep + 1))
  else if x =? 42 then max_expand ms s p ep
  else if x =? 43 then if (m : bool) then max_expand ms (s + 1) p ep else mret (ms, None)
  else if x =? 45 then min_expand ms s p ep
  else if (m : bool) then rec ms (s + 1) ep else mret (ms, None).
Definition match_frontier (ms : MatchState) (s p : Z) : outcome (MatchState * option Z) :=
  x ← at_p p;
  if negb (x =? 91) then Raise MissingBracketAfterF else
  ep ← classend p;
  previous ← (if s =? 0 then mret 0 else at_s (s - 1));
  a ← matchbracketclass previous p (ep - 1);
  if (a : bool) then mret (ms, None) else
  c ← at_s s;
  b ← matchbracketclass c p (ep - 1);
  if (b : bool) then rec ms s ep else mret (ms, None).
Definition match_body (ms : MatchState) (s p : Z) : outcome (MatchState * option Z) :=
  x ← at_p p;
  if x =? 40 then
    d ← at_p (p + 1);
    if d =? 41 then start_capture ms s (p + 2) CAP_POSITION else start_capture ms s (p + 1) CAP_UNFINISHED
  else if x =? 41 then end_capture ms s (p + 1)
  else if x =? L_ESC then
    d ← at_p (p + 1);
    if d =? 98 then
      r ← matchbalance s (p + 2);
      match r with None => mret (ms, None) | Some s => rec ms s (p + 4) end
    else if d =? 102 then match_frontier ms s (p + 2)
    else if isdigit d then
      r ← match_capture ms s d;
      match r with None => mret (ms, None) | Some s => rec ms s (p + 2) end
    else match_item ms s p
  else if x =? 0 then mret (ms, Some s)
  else if x =? 36 then
    d ← at_p (p + 1);
    if d =? 0 then mret (ms, if s =? src_end then Some s else None) else match_item ms s p
  else match_item ms s p.
End recursive.

(** [match]; [goto init] is a call. A call moves on in the pattern. *)
Fixpoint do_match (fuel : nat) (ms : MatchState) (s p : Z) : outcome (MatchState * option Z) :=
  match fuel with
  | O => Fault NoFuel
  | S fuel => match_body (do_match fuel) ms s p
  end.
End match_state.

(** ** Searching *)
Inductive value := VNil | VInteger (n : Z) | VString (l : list Z).
Section search.
  (** [stack] is the limit of [luaL_checkstack], [junk] what the captures of
      the local match state hold before they are set. *)
  Context (stack : Z) (junk : list (Z * Z)) (str pat : list Z).
Definition run_match (ms : MatchState) (s p : Z) : outcome (MatchState * option Z) := do_match str pat (S (length pat)) ms s p.

Fixpoint memchr_loop (n : nat) (s c : Z) : outcome (option Z) :=
  match n with
  | O => mret None
  | S n => x ← at_s str s; if x =? c then mret (Some s) else memchr_loop n (s + 1) c
  end.
(** [memcmp] of [n] bytes of the subject and the pattern. *)
Definition same_as_pat (s p n : Z) : outcome bool :=
  if (0 <=? s) && (0 <=? p) && (0 <=? n) && (s + n <=? Zlen (cstr str)) && (p + n <=? Zlen (cstr pat))
  then mret (bool_decide (slice (cstr str) s n = slice (cstr pat) p n)) else Fault OutOfBounds.
Fixpoint memfind_loop (fuel : nat) (s1 l1 l2 : Z) : outcome (option Z) :=
  match fuel with
  | O => Fault NoFuel
  | S fuel =>
    if l1 <=? 0 then mret None else
    c ← at_p pat 0;
    init ← memchr_loop (Z.to_nat l1) s1 c;
    match init with
    | None => mret None
    | Some init =>
      let init := init + 1 in
      same ← same_as_pat init 1 l2;
      if (same : bool) then mret (Some (init - 1)) else memfind_loop fuel init (l1 - (init - s1)) l2
    end
  end.
(** [lmemfind]: the pattern in [l1] bytes of the subject from [s1] on. *)
Definition lmemfind (s1 l1 : Z) : outcome (option Z) :=
  let l2 := Zlen pat in
  if l2 =? 0 then mret (Some s1)
  else if l1 <? l2 then mret None
  else memfind_loop (S (Z.to_nat l1)) s1 (l1 - (l2 - 1)) (l2 - 1).

Definition push_onecapture (ms : MatchState) (i : Z) (s : option Z) (e : Z) : outcome value :=
  if level ms <=? i then
    if i =? 0 then match s with Some s => l ← pushlstring (cstr str) s (e - s); mret (VString l) | None => Fault NullDeref end
    else Raise InvalidCaptureIndex
  else
    c ← cap ms i;
    if c.2 =? CAP_UNFINISHED then Raise UnfinishedCapture
    else if c.2 =? CAP_POSITION then mret (VInteger (c.1 + 1))
    else l ← pushlstring (cstr str) c.1 c.2; mret (VString l).
Fixpoint captures_loop (ms : MatchState) (n : nat) (i : Z) (s : option Z) (e : Z) : outcome (list value) :=
  match n with
  | O => mret []
  | S n => v ← push_onecapture ms i s e; l ← captures_loop ms n (i + 1) s e; mret (v :: l)
  end.
Definition push_captures (ms : MatchState) (s : option Z) (e : Z) : outcome (list value) :=
  let nlevels := if (level ms =? 0) && bool_decide (is_Some s) then 1 else level ms in
  if stack <? nlevels then Raise TooManyCaptures else captures_loop ms (Z.to_nat nlevels) 0 s e.

(** [strpbrk(p, SPECIALS)]: the pattern up to its first zero. *)
Definition SPECIALS : list Z := [94; 36; 42; 43; 63; 46; 40; 91; 37; 45].
Fixpoint has_specials (p : list Z) : bool :=
  match p with [] => false | c :: p => if c =? 0 then false else bool_decide (c ∈ SPECIALS) || has_specials p end.
Fixpoint find_loop (fuel : nat) (find anchor : bool) (ms : MatchState) (s1 p : Z) : outcome (list value) :=
  match fuel with
  | O => Fault NoFuel
  | S fuel =>
    '(ms, res) ← run_match (set_level 0 ms) s1 p;
    match res with
    | Some res =>
      if find then l ← push_captures ms None 0; mret (VInteger (s1 + 1) :: VInteger res :: l)
      else push_captures ms (Some s1) res
    | None => if (s1 <? src_end str) && negb anchor then find_loop fuel find anchor ms (s1 + 1) p else mret [VNil]
    end
  end.
Definition str_find_aux (find : bool) (init : Z) (plain : bool) : outcome (list value) :=
  let l1 := Zlen str in
  let init := posrelat init l1 - 1 in
  let init := if init <? 0 then 0 else if l1 <? init then l1 else init in
  if find && (plain || negb (has_specials pat)) then
    r ← lmemfind init (l1 - init);
    match r with
    | Some s2 => mret [VInteger (s2 + 1); VInteger (s2 + Zlen pat)]
    | None => mret [VNil]
    end
  else
    c ← at_p pat 0;
    let anchor := c =? 94 in
    find_loop (S (length str)) find anchor (MkMs 0 junk) init (if anchor then 1 else 0).

(** [gmatch_aux] with its third upvalue: the position it goes on from. *)
Fixpoint gmatch_loop (fuel : nat) (ms : MatchState) (src : Z) : outcome (option (Z * list value)) :=
  match fuel with
  | O => Fault NoFuel
  | S fuel =>
    if src_end str <? src then mret None else
    '(ms, e) ← run_match (set_level 0 ms) src 0;
    match e with
    | Some e =>
      let newstart := if e =? src then e + 1 else e in
      l ← push_captures ms (Some src) e; mret (Some (newstart, l))
    | None => gmatch_loop fuel ms (src + 1)
    end
  end.
Definition gmatch_aux (start : Z) : outcome (option (Z * list value)) :=
  gmatch_loop (S (S (length str))) (MkMs 0 junk) start.

(** ** Substitution *)
(** What a replacement function or table gives. *)
Inductive replacement := Falsy | Text (l : list Z) | NotAString.
Inductive repl (W : Type) :=
  | RString (news : list Z)
  | RFunction (call : list value -> W -> outcome (W * replacement))
  | RTable (get : value -> W -> outcome (W * replacement)).
Arguments RString {W} _.
Arguments RFunction {W} _.
Arguments RTable {W} _.
Definition value_bytes (tostring : Z -> list Z) (v : value) : list Z :=
  match v with VString l => l | VInteger n => tostring n | VNil => [] end.

Section gsub.
  (** [tostring] is how [luaL_addvalue] writes a number. *)
  Context {W : Type} (tostring : Z -> list Z).
Fixpoint add_s_loop (fuel : nat) (ms : MatchState) (news : list Z) (i : Z) (b : list Z) (s e : Z) : outcome (list Z) :=
  match fuel with
  | O => Fault NoFuel
  | S fuel =>
    if negb (i <? Zlen news) then mret b else
    c ← of_res (bget (cstr news) i);
    if negb (c =? L_ESC) then add_s_loop fuel ms news (i + 1) (b ++ [c]) s e else
    let i := i + 1 in
    d ← of_res (bget (cstr news) i);
    b ← (if negb (isdigit d) then mret (b ++ [d])
         else if d =? 48 then l ← pushlstring (cstr str) s (e - s); mret (b ++ l)
         else v ← push_onecapture ms (d - 49) (Some s) e; mret (b ++ value_bytes tostring v));
    add_s_loop fuel ms news (i + 1) b s e
  end.
Definition add_s (ms : MatchState) (news b : list Z) (s e : Z) : outcome (list Z) :=
  add_s_loop (S (length news)) ms news 0 b s e.
Definition add_value (r : repl W) (ms : MatchState) (b : list Z) (s e : Z) (w : W) : outcome (W * list Z) :=
  let finish w v :=
    match v with
    | Falsy => l ← pushlstring (cstr str) s (e - s); mret (w, b ++ l)
    | Text l => mret (w, b ++ l)
    | NotAString => Raise InvalidReplacement
    end in
  match r with
  | RString news => b ← add_s ms news b s e; mret (w, b)
  | RFunction call => l ← push_captures ms (Some s) e; '(w, v) ← call l w; finish w v
  | RTable get => k ← push_onecapture ms 0 (Some s) e; '(w, v) ← get k w; finish w v
  end.
Fixpoint gsub_loop (fuel : nat) (r : repl W) (max_s : Z) (anchor : bool) (ms : MatchState) (src p n : Z) (b : list Z) (w : W) :
    outcome (W * (Z * Z * list Z)) :=
  match fuel with
  | O => Fault NoFuel
  | S fuel =>
    if negb (n <? max_s) then mret (w, (src, n, b)) else
    '(ms, e) ← run_match (set_level 0 ms) src p;
    '(w, n, b) ← match e with
                 | Some e => '(w, b) ← add_value r ms b src e w; mret (w, n + 1, b)
                 | None => mret (w, n, b)
                 end;
    '(next, src, b) ← (if match e with Some e => src <? e | None => false end then mret (true, default src e, b)
                       else if src <? src_end str then c ← at_s str src; mret (true, src + 1, b ++ [c])
                       else mret (false, src, b));
    if (negb next || anchor : bool) then mret (w, (src, n, b))
    else gsub_loop fuel r max_s anchor ms src p n b w
  end.
(** The result string and the number of substitutions. *)
Definition str_gsub (r : repl W) (max_s : option Z) (w : W) : outcome (W * (list Z * Z)) :=
  let max_s := default (Zlen str + 1) max_s in
  c ← at_p pat 0;
  let anchor := c =? 94 in
  '(w, (src, n, b)) ← gsub_loop (S (S (length str))) r max_s anchor (MkMs 0 junk) 0 (if anchor then 1 else 0) 0 [] w;
  l ← pushlstring (cstr str) src (src_end str - src);
  mret (w, (b ++ l, n)).
End gsub.
End search.
Arguments RString {W} _.
Arguments RFunction {W} _.
Arguments RTable {W} _.

(** Tests on concrete strings. *)
Section tests.
Let s (x : String.string) : list Z := map (fun c => Z.of_N (Ascii.N_of_ascii c)) (String.list_ascii_of_string x).
Import Stdlib.Strings.String.
Example find_captures_test : str_find_aux 100 (replicate 10 (0, 0)) (s "hello world") (s "(o)(.-)l") true 1 false =
  Val [VInteger 5; VInteger 10; VString (s "o"); VString (s " wor")].
Proof. vm_compute. reflexivity. Qed.
Example gsub_test : str_gsub 100 (replicate 10 (0, 0)) (s "abc = 12, d = 7") (s "(%w+)%s*=%s*(%d+)") (fun _ => []) (RString (s "%2<%1>")) None tt =
  Val (tt, (s "12<abc>, 7<d>", 2)).
Proof. vm_compute. reflexivity. Qed.
Example find_frontier_test : str_find_aux 100 (replicate 10 (0, 0)) (s "THE (quick) fox") (s "%f[%a]%a+%A*%b()") true 1 false = Val [VInteger 1; VInteger 11].
Proof. vm_compute. reflexivity. Qed.
End tests.
