(* ===== verification/LuaPattern.v ===== *)
(** What the patterns of LuaStr.v mean: a parser of patterns, a relation that
    says what an item list matches, and the order in which a match is chosen;
    the backtracking matcher gives the first match, and fails exactly when
    there is none. *)
From S2P Require Import Prelude LuaStr.

(** ** Patterns

    [f] is the set of characters of a single-character class. *)
Inductive item :=
  | Single (f : Z -> bool) | Optional (f : Z -> bool) | Star (f : Z -> bool) | Plus (f : Z -> bool) | Lazy (f : Z -> bool)
  | Open | Position | Close | Balance (b e : Z) | Frontier (f : Z -> bool) | Back (l : Z) | AtEnd.

(** The contents of a bracket: classes, ranges and characters. *)
Fixpoint in_set (l : list Z) (c : Z) : bool :=
  match l with
  | [] => false
  | x :: l' =>
    if x =? L_ESC then match l' with y :: l'' => match_class c y || in_set l'' c | [] => match_class c 93 end
    else match l' with
         | d :: ((hi :: l'') as _) => if d =? 45 then between x c hi || in_set l'' c else (x =? c) || in_set l' c
         | _ => (x =? c) || in_set l' c
         end
  end.
(** The contents and what is behind the closing bracket. *)
Fixpoint set_end (q : list Z) : option (list Z * list Z) :=
  let after pre r rec := if hd 0 r =? 93 then Some (pre, tail r) else (fun x => (pre ++ x.1, x.2)) <$> rec in
  match q with
  | [] => None
  | x :: q' =>
    if x =? 0 then None else
    match q' with
    | y :: q'' => if (x =? L_ESC) && negb (y =? 0) then after [x; y] q'' (set_end q'') else after [x] q' (set_end q')
    | [] => after [x] q' (set_end q')
    end
  end.
(** A bracket without its opening character. *)
Definition bracket (q : list Z) : option ((Z -> bool) * list Z) :=
  let neg := hd 0 q =? 94 in
  match set_end (if neg then tail q else q) with
  | Some (l, r) => Some (fun c => xorb neg (in_set l c), r)
  | None => None
  end.
Definition single (q : list Z) : option ((Z -> bool) * list Z) :=
  let x := hd 0 q in
  if x =? L_ESC then
    let d := hd 0 (tail q) in if d =? 0 then None else Some (fun c => match_class c d, tail (tail q))
  else if x =? 91 then bracket (tail q)
  else Some (fun c => if x =? 46 then true else x =? c, tail q).

Definition then_items (i : item) (r : option (list item)) : option (list item) := (i ::.) <$> r.
(** A single character with its suffix; [rec] parses what is behind it. *)
Definition parse_item (rec : list Z -> option (list item)) (q : list Z) : option (list item) :=
  match single q with
  | None => None
  | Some (f, r) =>
    let y := hd 0 r in
    if y =? 63 then then_items (Optional f) (rec (tail r))
    else if y =? 42 then then_items (Star f) (rec (tail r))
    else if y =? 43 then then_items (Plus f) (rec (tail r))
    else if y =? 45 then then_items (Lazy f) (rec (tail r))
    else then_items (Single f) (rec r)
  end.
(** [n] is more than the pattern is long. *)
Fixpoint parse (n : nat) (q : list Z) : option (list item) :=
  match n with
  | O => None
  | S n =>
    let x := hd 0 q in
    let d := hd 0 (tail q) in
    let item := parse_item (parse n) in
    if x =? 40 then
      if d =? 41 then then_items Position (parse n (tail (tail q))) else then_items Open (parse n (tail q))
    else if x =? 41 then then_items Close (parse n (tail q))
    else if x =? L_ESC then
      if d =? 98 then
        let b := hd 0 (tail (tail q)) in
        let e := hd 0 (tail (tail (tail q))) in
        if (b =? 0) || (e =? 0) then None else then_items (Balance b e) (parse n (drop 4 q))
      else if d =? 102 then
        if hd 0 (tail (tail q)) =? 91 then
          match bracket (drop 3 q) with Some (f, r) => then_items (Frontier f) (parse n r) | None => None end
        else None
      else if isdigit d then then_items (Back (d - 49)) (parse n (tail (tail q)))
      else item q
    else if x =? 0 then Some []
    else if (x =? 36) && (d =? 0) then Some [AtEnd]
    else item q
  end.
Definition pattern (q : list Z) : option (list item) := parse (S (length q)) q.

(** ** Captures

    A capture is its start and its length, or one of the two marks. *)
Fixpoint close_last (caps : list (Z * Z)) (s : Z) : option (list (Z * Z)) :=
  match caps with
  | [] => None
  | c :: caps =>
    match close_last caps s with
    | Some caps => Some (c :: caps)
    | None => if c.2 =? CAP_UNFINISHED then Some ((c.1, s - c.1) :: caps) else None
    end
  end.

(** What can be said of a pattern without a subject: captures that are open,
    closed, or positions. A pattern is well formed when it opens at most ten
    captures, closes what it opens, and refers back to captures that are not
    open. *)
Inductive mark := Opened | Closed | Pos.
#[export] Instance mark_eq_dec : EqDecision mark.
Proof. solve_decision. Defined.
Fixpoint close_mark (l : list mark) : option (list mark) :=
  match l with
  | [] => None
  | m :: l => match close_mark l with
              | Some l => Some (m :: l)
              | None => match m with Opened => Some (Closed :: l) | _ => None end
              end
  end.
Fixpoint well_formed (its : list item) (marks : list mark) : bool :=
  match its with
  | [] => true
  | Open :: its => (Zlen marks <? LUA_MAXCAPTURES) && well_formed its (marks ++ [Opened])
  | Position :: its => (Zlen marks <? LUA_MAXCAPTURES) && well_formed its (marks ++ [Pos])
  | Close :: its => match close_mark marks with Some marks => well_formed its marks | None => false end
  | Back l :: its =>
    (0 <=? l) && match marks !! Z.to_nat l with Some Opened | None => false | Some _ => well_formed its marks end
  | _ :: its => well_formed its marks
  end.
Definition mark_of (c : Z * Z) : mark := if c.2 =? CAP_UNFINISHED then Opened else if c.2 =? CAP_POSITION then Pos else Closed.

(** ** Meaning *)
Section meaning.
  Context (str : list Z).
(** The character at [s], and the one before it: zero at the ends. *)
Definition char_at (s : Z) : Z := cstr str !!! Z.to_nat s.
Definition char_before (s : Z) : Z := if s =? 0 then 0 else char_at (s - 1).
Definition accepts (f : Z -> bool) (s : Z) : bool := (s <? Zlen str) && f (char_at s).
(** How many characters from [s] on are accepted, at most [n]. *)
Fixpoint run_length (f : Z -> bool) (n : nat) (s : Z) : nat :=
  match n with O => O | S n => if accepts f s then S (run_length f n (s + 1)) else O end.
(** How far the balanced text that is open [depth] times goes. *)
Fixpoint balanced (b e depth : Z) (l : list Z) : option Z :=
  match l with
  | [] => None
  | c :: l =>
    if c =? e then if depth =? 1 then Some 1 else Z.succ <$> balanced b e (depth - 1) l
    else Z.succ <$> balanced b e (if c =? b then depth + 1 else depth) l
  end.

(** All matches of an item list from [s] on, in the order of preference: the
    captures and the end of each. *)
Fixpoint matches (its : list item) (caps : list (Z * Z)) (s : Z) : list (list (Z * Z) * Z) :=
  match its with
  | [] => [(caps, s)]
  | i :: its =>
    match i with
    | Single f => if accepts f s then matches its caps (s + 1) else []
    | Optional f => (if accepts f s then matches its caps (s + 1) else []) ++ matches its caps s
    | Star f => concat (map (fun k => matches its caps (s + Z.of_nat k)) (rev (seq 0 (S (run_length f (length str) s)))))
    | Plus f =>
      if accepts f s then concat (map (fun k => matches its caps (s + 1 + Z.of_nat k)) (rev (seq 0 (S (run_length f (length str) (s + 1))))))
      else []
    | Lazy f => concat (map (fun k => matches its caps (s + Z.of_nat k)) (seq 0 (S (run_length f (length str) s))))
    | Open => matches its (caps ++ [(s, CAP_UNFINISHED)]) s
    | Position => matches its (caps ++ [(s, CAP_POSITION)]) s
    | Close => match close_last caps s with Some caps => matches its caps s | None => [] end
    | Balance b e =>
      if char_at s =? b then
        match balanced b e 1 (drop (Z.to_nat s + 1) str) with Some k => matches its caps (s + 1 + k) | None => [] end
      else []
    | Frontier f => if negb (f (char_before s)) && f (char_at s) then matches its caps s else []
    | Back l =>
      match caps !! Z.to_nat l with
      | Some (i, n) => if (0 <=? n) && (s + n <=? Zlen str) && bool_decide (slice str i n = slice str s n) then matches its caps (s + n) else []
      | None => []
      end
    | AtEnd => if s =? Zlen str then [(caps, s)] else []
    end
  end.

(** The same without the order: [Match its caps s caps' e] says that the items
    match the text from [s] to [e], and turn the captures [caps] into
    [caps']. *)
Inductive Match : list item -> list (Z * Z) -> Z -> list (Z * Z) -> Z -> Prop :=
  | Match_nil caps s : Match [] caps s caps s
  | Match_Single f its caps s caps' e : accepts f s = true -> Match its caps (s + 1) caps' e -> Match (Single f :: its) caps s caps' e
  | Match_Optional_one f its caps s caps' e : accepts f s = true -> Match its caps (s + 1) caps' e -> Match (Optional f :: its) caps s caps' e
  | Match_Optional_none f its caps s caps' e : Match its caps s caps' e -> Match (Optional f :: its) caps s caps' e
  | Match_Star f its caps s k caps' e :
      (forall i, 0 <= i < k -> accepts f (s + i) = true) -> 0 <= k -> Match its caps (s + k) caps' e -> Match (Star f :: its) caps s caps' e
  | Match_Plus f its caps s k caps' e :
      (forall i, 0 <= i < k -> accepts f (s + i) = true) -> 0 < k -> Match its caps (s + k) caps' e -> Match (Plus f :: its) caps s caps' e
  | Match_Lazy f its caps s k caps' e :
      (forall i, 0 <= i < k -> accepts f (s + i) = true) -> 0 <= k -> Match its caps (s + k) caps' e -> Match (Lazy f :: its) caps s caps' e
  | Match_Open its caps s caps' e : Match its (caps ++ [(s, CAP_UNFINISHED)]) s caps' e -> Match (Open :: its) caps s caps' e
  | Match_Position its caps s caps' e : Match its (caps ++ [(s, CAP_POSITION)]) s caps' e -> Match (Position :: its) caps s caps' e
  | Match_Close its caps caps1 s caps' e : close_last caps s = Some caps1 -> Match its caps1 s caps' e -> Match (Close :: its) caps s caps' e
  | Match_Balance b e0 k its caps s caps' e : char_at s = b -> balanced b e0 1 (drop (Z.to_nat s + 1) str) = Some k ->
      Match its caps (s + 1 + k) caps' e -> Match (Balance b e0 :: its) caps s caps' e
  | Match_Frontier f its caps s caps' e : f (char_before s) = false -> f (char_at s) = true -> Match its caps s caps' e ->
      Match (Frontier f :: its) caps s caps' e
  | Match_Back l i n its caps s caps' e : caps !! Z.to_nat l = Some (i, n) -> 0 <= n -> s + n <= Zlen str -> slice str i n = slice str s n ->
      Match its caps (s + n) caps' e -> Match (Back l :: its) caps s caps' e
  | Match_AtEnd its caps : Match (AtEnd :: its) caps (Zlen str) caps (Zlen str).

(** A run of accepted characters is at most as long as [run_length] says. *)
Lemma run_length_spec f n : forall s k, 0 <= s -> Zlen str - s <= Z.of_nat n ->
  (k <= run_length f n s)%nat <-> forall i, 0 <= i < Z.of_nat k -> accepts f (s + i) = true.
Proof.
  induction n as [|n IH]; intros s k Hs Hn; cbn [run_length].
  - split; [intros Hk i Hi; lia|]. intros H. destruct k as [|k]; [done|]. specialize (H 0 ltac:(lia)).
    unfold accepts in H. apply andb_true_iff in H as [H _]. apply Z.ltb_lt in H. lia.
  - destruct (accepts f s) eqn:E.
    + destruct k as [|k]; [split; [intros _ i Hi; lia|lia]|]. rewrite <- Nat.succ_le_mono, (IH (s + 1) k) by lia. split; intros H i Hi.
      * destruct (decide (i = 0)) as [->|]; [by rewrite Z.add_0_r|]. replace (s + i) with (s + 1 + (i - 1)) by lia. apply H. lia.
      * replace (s + 1 + i) with (s + (i + 1)) by lia. apply H. lia.
    + split; [intros Hk i Hi; lia|]. intros H. destruct k as [|k]; [done|]. specialize (H 0 ltac:(lia)). by rewrite Z.add_0_r, E in H.
Qed.
Lemma in_concat_map {A B} (g : A -> list B) l y : In y (concat (map g l)) <-> exists x, In x l /\ In y (g x).
Proof.
  rewrite in_concat. split.
  - intros (z & (x & <- & Hx)%in_map_iff & Hy). by exists x.
  - intros (x & Hx & Hy). exists (g x). split; [|done]. apply in_map_iff. by exists x.
Qed.
(** The runs a repetition tries. *)
Lemma in_runs f its caps s m (ks : list nat) : 0 <= s -> (forall k, In k ks <-> (k < S (run_length f (length str) s))%nat) ->
  In m (concat (map (fun k => matches its caps (s + Z.of_nat k)) ks)) <->
  exists k, (forall i, 0 <= i < k -> accepts f (s + i) = true) /\ 0 <= k /\ In m (matches its caps (s + k)).
Proof.
  intros Hs Hks. rewrite in_concat_map. split.
  - intros (k & Hk & Hm). exists (Z.of_nat k). split; [|split; [lia|done]]. apply Hks in Hk. apply run_length_spec with (n := length str); [done|unfold Zlen; lia|lia].
  - intros (k & Hr & Hk & Hm). exists (Z.to_nat k). rewrite Z2Nat.id by lia. split; [|done]. apply Hks. apply Nat.lt_succ_r.
    apply run_length_spec; [done|unfold Zlen; lia|]. rewrite Z2Nat.id by lia. done.
Qed.
Lemma in_seq_S n k : In k (seq 0 (S n)) <-> (k < S n)%nat.
Proof. rewrite in_seq. lia. Qed.
Lemma in_rev_seq_S n k : In k (rev (seq 0 (S n))) <-> (k < S n)%nat.
Proof. rewrite <- in_rev. apply in_seq_S. Qed.

Lemma balanced_pos b e l : forall depth k, balanced b e depth l = Some k -> 0 <= k.
Proof.
  induction l as [|c l IH]; intros depth k; cbn [balanced]; [done|].
  destruct (c =? e); [destruct (depth =? 1); [intros [= <-]; lia|]|]; (intros (k' & E & ->)%fmap_Some; apply IH in E; lia).
Qed.
Lemma matches_iff its : forall caps s caps' e, 0 <= s -> In (caps', e) (matches its caps s) <-> Match its caps s caps' e.
Proof.
  induction its as [|i its IH]; intros caps s caps' e Hs.
  { cbn. split; [intros [[= <- <-]|[]]; constructor|]. inversion 1; subst. by left. }
  destruct i as [f|f|f|f|f| | | |b e0|f|l|]; cbn [matches].
  - destruct (accepts f s) eqn:E.
    + rewrite IH by lia. split; [by constructor|]. by inversion 1.
    + split; [done|]. inversion 1; congruence.
  - rewrite in_app_iff, (IH caps s) by lia. split.
    + intros [H|H]; [|by apply Match_Optional_none]. destruct (accepts f s) eqn:E; [|done]. apply IH in H; [|lia]. by apply Match_Optional_one.
    + inversion 1; subst; [left|by right]. match goal with Ha : accepts _ _ = true |- _ => rewrite Ha end. by apply IH; [lia|].
  - rewrite (in_runs f) by (done || apply in_rev_seq_S). split.
    + intros (k & Hr & Hk & Hm). apply IH in Hm; [|lia]. by apply (Match_Star f its caps s k).
    + inversion 1; subst. exists k. split; [done|]. split; [done|]. by apply IH; [lia|].
  - destruct (accepts f s) eqn:E.
    + rewrite (in_runs f) by (lia || apply in_rev_seq_S). split.
      * intros (k & Hr & Hk & Hm). apply IH in Hm; [|lia]. apply (Match_Plus f its caps s (1 + k)); [|lia|by rewrite Z.add_assoc].
        intros i Hi. destruct (decide (i = 0)) as [->|]; [by rewrite Z.add_0_r|]. replace (s + i) with (s + 1 + (i - 1)) by lia. apply Hr. lia.
      * inversion 1; subst. exists (k - 1). split; [intros i Hi; rewrite <- Z.add_assoc; match goal with Ha : forall _, _ |- _ => apply Ha end; lia|]. split; [lia|]. apply IH; [lia|].
        by replace (s + 1 + (k - 1)) with (s + k) by lia.
    + split; [done|]. inversion 1; subst. match goal with Ha : forall _, _ |- _ => specialize (Ha 0 ltac:(lia)); by rewrite Z.add_0_r, E in Ha end.
  - rewrite (in_runs f) by (done || apply in_seq_S). split.
    + intros (k & Hr & Hk & Hm). apply IH in Hm; [|lia]. by apply (Match_Lazy f its caps s k).
    + inversion 1; subst. exists k. split; [done|]. split; [done|]. by apply IH; [lia|].
  - rewrite IH by done. split; [by constructor|by inversion 1].
  - rewrite IH by done. split; [by constructor|by inversion 1].
  - destruct (close_last caps s) as [caps1|] eqn:E.
    + rewrite IH by done. split; [by econstructor|]. inversion 1; subst. congruence.
    + split; [done|]. inversion 1; congruence.
  - destruct (Z.eqb_spec (char_at s) b) as [Hb|Hb]; [|split; [done|]; inversion 1; congruence].
    destruct (balanced b e0 1 (drop (Z.to_nat s + 1) str)) as [k|] eqn:E; [|split; [done|]; inversion 1; congruence].
    assert (0 <= k) as Hk by (by apply balanced_pos in E). rewrite IH by lia. split; [by econstructor|]. inversion 1; subst. congruence.
  - destruct (f (char_before s)) eqn:E1; cbn [negb andb]; [split; [done|]; inversion 1; congruence|].
    destruct (f (char_at s)) eqn:E2; [|split; [done|]; inversion 1; congruence]. rewrite IH by done. split; [by constructor|by inversion 1].
  - destruct (caps !! Z.to_nat l) as [[i n]|] eqn:E; [|split; [done|]; inversion 1; congruence].
    destruct ((0 <=? n) && (s + n <=? Zlen str) && bool_decide (slice str i n = slice str s n)) eqn:Ec.
    + apply andb_true_iff in Ec as [[Hn He]%andb_true_iff Hb]. apply Z.leb_le in Hn, He. apply bool_decide_eq_true in Hb.
      rewrite IH by lia. split; [by econstructor|]. inversion 1; subst. congruence.
    + split; [done|]. inversion 1; subst. rewrite E in *. simplify_eq. rewrite !(proj2 (Z.leb_le _ _)), bool_decide_eq_true_2 in Ec by done. done.
  - destruct (Z.eqb_spec s (Zlen str)) as [->|Hne]; [|split; [done|]; inversion 1; congruence].
    cbn. split; [intros [[= <- <-]|[]]; constructor|]. inversion 1; subst. by left.
Qed.
End meaning.
