(* ===== verification/LuaMatch.v ===== *)
(** The pattern matcher of LuaStr.v computes the first match in the sense of
    LuaPattern.v, and searching finds the leftmost one. *)
From S2P Require Import Prelude LuaStr LuaPattern.

(** ** The pattern behind a pointer *)
Section pattern.
  Context (pat : list Z).
Definition here (p : Z) (q : list Z) : Prop := exists l, pat = l ++ q /\ p = Zlen l.
Lemma at_p_here p q : here p q -> at_p pat p = Val (hd 0 q).
Proof.
  intros (l & E & ->). unfold at_p, cstr. rewrite E, <- app_assoc. destruct q as [|x q]; cbn [app hd]; by rewrite bget_middle.
Qed.
Lemma here_next p x q : here p (x :: q) -> here (p + 1) q.
Proof. intros (l & -> & ->). exists (l ++ [x]). rewrite <- app_assoc. split; [done|]. zlen. lia. Qed.
Lemma here_app p l q : here p (l ++ q) -> here (p + Zlen l) q.
Proof. intros (l0 & -> & ->). exists (l0 ++ l). rewrite <- app_assoc. split; [done|]. zlen. lia. Qed.
Lemma here_length p q : here p q -> (length q <= length pat)%nat.
Proof. intros (l & -> & _). rewrite length_app. lia. Qed.
Lemma outcome_bind_val {A B} (m : outcome A) (k : A -> outcome B) a : m = Val a -> (x ← m; k x) = k a.
Proof. by intros ->. Qed.

Lemma set_end_unfold x q : set_end (x :: q) =
  if x =? 0 then None else
  if (x =? L_ESC) && negb (hd 0 q =? 0) then
    if hd 0 (tail q) =? 93 then Some ([x; hd 0 q], tail (tail q)) else (fun y => (x :: hd 0 q :: y.1, y.2)) <$> set_end (tail q)
  else if hd 0 q =? 93 then Some ([x], tail q) else (fun y => (x :: y.1, y.2)) <$> set_end q.
Proof.
  destruct q as [|y q]; cbn [set_end hd tail]; [by rewrite andb_false_r|]. destruct (x =? 0); [done|].
  by destruct ((x =? L_ESC) && negb (y =? 0)).
Qed.
Lemma hd_eq q x : hd 0 q = x -> x <> 0 -> q = x :: tail q.
Proof. by destruct q; cbn; intros <-. Qed.

Lemma class_loop_spec fuel : forall p q l r, set_end q = Some (l, r) -> here p q -> (length q < fuel)%nat ->
  q = l ++ 93 :: r /\ class_loop pat fuel p = Val (p + Zlen l + 1).
Proof.
  induction fuel as [|fuel IH]; intros p q l r E H Hf; [lia|]. destruct q as [|x q]; [done|]. rewrite set_end_unfold in E.
  cbn [class_loop]. rewrite (outcome_bind_val _ _ _ (at_p_here _ _ H)). cbn [hd]. destruct (Z.eqb_spec x 0) as [|Hx]; [done|].
  pose proof (here_next _ _ _ H) as H1. rewrite (outcome_bind_val _ _ _ (at_p_here _ _ H1)). cbn [length] in Hf.
  destruct ((x =? L_ESC) && negb (hd 0 q =? 0)) eqn:Ec.
  - apply andb_true_iff in Ec as [_ Ec]. apply negb_true_iff, Z.eqb_neq in Ec. pose proof (hd_eq _ _ eq_refl Ec) as Eq.
    destruct q as [|y q]; [done|]. cbn [hd tail] in *. pose proof (here_next _ _ _ H1) as H2. rewrite (outcome_bind_val _ _ _ (at_p_here _ _ H2)).
    destruct (Z.eqb_spec (hd 0 q) 93) as [E93|E93].
    + injection E as <- <-. rewrite (hd_eq _ _ E93 ltac:(done)) at 1. split; [done|]. unfold mret, outcome_ret. f_equal; zlen; lia.
    + destruct (set_end q) as [[l' r']|] eqn:E'; [|done]. injection E as <- <-. cbn [length] in Hf.
      destruct (IH _ _ _ _ E' H2 ltac:(lia)) as [-> ->]. split; [done|]. f_equal; zlen; lia.
  - rewrite (outcome_bind_val _ _ _ (at_p_here _ _ H1)). destruct (Z.eqb_spec (hd 0 q) 93) as [E93|E93].
    + injection E as <- <-. rewrite (hd_eq _ _ E93 ltac:(done)) at 1. split; [done|]. unfold mret, outcome_ret. f_equal; zlen; lia.
    + destruct (set_end q) as [[l' r']|] eqn:E'; [|done]. injection E as <- <-.
      destruct (IH _ _ _ _ E' H1 ltac:(lia)) as [-> ->]. split; [done|]. f_equal; zlen; lia.
Qed.
Lemma bracket_loop_spec fuel c sig r : forall l p, here (p + 1) (l ++ 93 :: r) -> (length l < fuel)%nat ->
  bracket_loop pat fuel c p (p + 1 + Zlen l) sig = Val (if in_set l c then sig else negb sig).
Proof.
  induction fuel as [|fuel IH]; intros l p H Hf; [lia|]. cbn [bracket_loop]. destruct l as [|x l].
  { zlen. by rewrite (proj2 (Z.ltb_ge _ _)) by lia. }
  pose proof (Zlen_nonneg l) as Hl. rewrite (proj2 (Z.ltb_lt _ _)) by (zlen; lia). cbn [negb].
  rewrite (outcome_bind_val _ _ _ (at_p_here _ _ H)). cbn [hd app]. cbn [length] in Hf.
  pose proof (here_next _ _ _ H) as H1. cbn [in_set]. destruct (x =? L_ESC).
  - rewrite (outcome_bind_val _ _ _ (at_p_here _ _ H1)). destruct l as [|y l]; cbn [app hd].
    { destruct (match_class c 93); [done|]. destruct fuel as [|fuel]; [cbn in Hf; lia|]. cbn [bracket_loop]. zlen.
      by rewrite (proj2 (Z.ltb_ge _ _)) by lia. }
    destruct (match_class c y); [done|]. cbn [length] in Hf. replace (p + 1 + Zlen (x :: y :: l)) with (p + 1 + 1 + 1 + Zlen l) by (zlen; lia).
    apply IH; [exact (here_next _ _ _ H1)|lia].
  - rewrite (outcome_bind_val _ _ _ (at_p_here _ _ H1)).
    assert (forall l', l = l' -> bracket_loop pat fuel c (p + 1) (p + 1 + Zlen (x :: l)) sig = Val (if in_set l c then sig else negb sig)) as Hnext.
    { intros l' _. replace (p + 1 + Zlen (x :: l)) with (p + 1 + 1 + Zlen l) by (zlen; lia). apply IH; [done|lia]. }
    assert ((if x =? c then mret sig else bracket_loop pat fuel c (p + 1) (p + 1 + Zlen (x :: l)) sig) =
      Val (if (x =? c) || in_set l c then sig else negb sig)) as Hone by (destruct (x =? c); [done|by rewrite (Hnext l)]).
    destruct l as [|d l]; cbn [app hd]; [by change (93 =? 45) with false|]. destruct l as [|hi l].
    { rewrite (proj2 (Z.ltb_ge (p + 1 + 2) _)) by (zlen; lia). by rewrite andb_false_r. }
    rewrite (proj2 (Z.ltb_lt (p + 1 + 2) _)) by (pose proof (Zlen_nonneg l); zlen; lia). rewrite andb_true_r.
    destruct (d =? 45); [|exact Hone]. replace (p + 1 + 2 - 2) with (p + 1) by lia.
    rewrite (outcome_bind_val _ _ _ (at_p_here _ _ H)). pose proof (here_next _ _ _ H1) as H2. replace (p + 1 + 2) with (p + 1 + 1 + 1) by lia.
    rewrite (outcome_bind_val _ _ _ (at_p_here _ _ H2)). cbn [hd app]. unfold between. destruct ((x <=? c) && (c <=? hi)); [done|].
    cbn [length] in Hf. replace (p + 1 + Zlen (x :: d :: hi :: l)) with (p + 1 + 1 + 1 + 1 + Zlen l) by (zlen; lia).
    apply IH; [exact (here_next _ _ _ H2)|lia].
Qed.
Lemma bracket_spec p q f r : bracket q = Some (f, r) -> here p (91 :: q) ->
  exists ep, classend pat p = Val ep /\ here ep r /\ p < ep /\ forall c, matchbracketclass pat c p (ep - 1) = Val (f c).
Proof.
  intros E H. pose proof (here_next _ _ _ H) as H1. pose proof (here_length _ _ H) as Hlen. cbn [length] in Hlen. unfold bracket in E.
  unfold classend. rewrite (outcome_bind_val _ _ _ (at_p_here _ _ H)). cbn [hd]. change (91 =? L_ESC) with false. change (91 =? 91) with true. cbv iota.
  rewrite (outcome_bind_val _ _ _ (at_p_here _ _ H1)).
  assert (forall c ec, matchbracketclass pat c p ec =
    if hd 0 q =? 94 then bracket_loop pat (S (length pat)) c (p + 1) ec false else bracket_loop pat (S (length pat)) c p ec true) as Em.
  { intros c ec. unfold matchbracketclass. by rewrite (outcome_bind_val _ _ _ (at_p_here _ _ H1)). }
  destruct (Z.eqb_spec (hd 0 q) 94) as [E94|_].
  - rewrite (hd_eq _ _ E94 ltac:(done)) in H1. pose proof (here_next _ _ _ H1) as H2.
    destruct (set_end (tail q)) as [[l r']|] eqn:El; [|done]. injection E as <- <-.
    pose proof (here_length _ _ H2) as Hlen2. destruct (class_loop_spec (S (length pat)) _ _ _ _ El H2 ltac:(lia)) as [El' ->].
    rewrite El' in H2, Hlen2. rewrite length_app in Hlen2. pose proof (Zlen_nonneg l). eexists. split; [done|]. split; [|split; [lia|]].
    + replace (p + 1 + 1 + Zlen l + 1) with (p + 1 + 1 + Zlen (l ++ [93])) by (zlen; lia). apply here_app. by rewrite <- app_assoc.
    + intros c. rewrite Em. replace (p + 1 + 1 + Zlen l + 1 - 1) with (p + 1 + 1 + Zlen l) by lia.
      rewrite (bracket_loop_spec _ _ _ r') by (done || lia). by destruct (in_set l c).
  - destruct (set_end q) as [[l r']|] eqn:El; [|done]. injection E as <- <-.
    destruct (class_loop_spec (S (length pat)) _ _ _ _ El H1 ltac:(lia)) as [El' ->].
    rewrite El' in H1, Hlen. rewrite length_app in Hlen. pose proof (Zlen_nonneg l). eexists. split; [done|]. split; [|split; [lia|]].
    + replace (p + 1 + Zlen l + 1) with (p + 1 + Zlen (l ++ [93])) by (zlen; lia). apply here_app. by rewrite <- app_assoc.
    + intros c. rewrite Em. replace (p + 1 + Zlen l + 1 - 1) with (p + 1 + Zlen l) by lia.
      rewrite (bracket_loop_spec _ _ _ r') by (done || lia). by destruct (in_set l c).
Qed.
Lemma single_spec p q f r : single q = Some (f, r) -> here p q -> hd 0 q <> 0 ->
  exists ep, classend pat p = Val ep /\ here ep r /\ p < ep /\ forall c, singlematch pat c p ep = Val (f c).
Proof.
  intros E H Hx. destruct q as [|x q]; [done|]. cbn [hd] in Hx. pose proof (here_next _ _ _ H) as H1. unfold single in E. cbn [hd tail] in E.
  destruct (Z.eqb_spec x L_ESC) as [->|He].
  - destruct (Z.eqb_spec (hd 0 q) 0) as [|Hd]; [done|]. injection E as <- <-.
    unfold classend, singlematch. rewrite !(outcome_bind_val _ _ _ (at_p_here _ _ H)). cbn [hd]. change (L_ESC =? L_ESC) with true. change (L_ESC =? 46) with false. cbv iota.
    rewrite !(outcome_bind_val _ _ _ (at_p_here _ _ H1)). rewrite (proj2 (Z.eqb_neq _ _) Hd).
    rewrite (hd_eq _ _ eq_refl Hd) in H1. eexists. split; [done|]. split; [exact (here_next _ _ _ H1)|]. split; [lia|].
    intros c. rewrite (outcome_bind_val _ _ _ (at_p_here _ _ H)). cbn [hd]. change (L_ESC =? 46) with false. change (L_ESC =? L_ESC) with true. cbv iota.
    by rewrite (outcome_bind_val _ _ _ (at_p_here _ _ H1)).
  - destruct (Z.eqb_spec x 91) as [->|Hb].
    + destruct (bracket_spec _ _ _ _ E H) as (ep & Ec & He' & Hlt & Em). exists ep. split; [done|]. split; [done|]. split; [done|].
      intros c. unfold singlematch. rewrite (outcome_bind_val _ _ _ (at_p_here _ _ H)). exact (Em c).
    + injection E as <- <-. exists (p + 1). unfold classend, singlematch. rewrite (outcome_bind_val _ _ _ (at_p_here _ _ H)). cbn [hd].
      rewrite !(proj2 (Z.eqb_neq _ _)) by done. split; [done|]. split; [done|]. split; [lia|].
      intros c. rewrite (outcome_bind_val _ _ _ (at_p_here _ _ H)). cbn [hd]. rewrite (proj2 (Z.eqb_neq x L_ESC)), (proj2 (Z.eqb_neq x 91)) by done.
      by destruct (x =? 46).
Qed.
End pattern.

(** ** The match state *)
Section match_state.
  Context (str pat : list Z).
(** The active captures. *)
Definition rep (ms : MatchState) (caps : list (Z * Z)) : Prop :=
  length (capture ms) = 10%nat /\ level ms = Zlen caps /\ take (length caps) (capture ms) = caps.
(** The captures when the matcher has come to [s]. *)
Definition valid (caps : list (Z * Z)) (s : Z) : Prop :=
  Forall (fun c => 0 <= c.1 <= s /\ (c.2 = CAP_UNFINISHED \/ c.2 = CAP_POSITION \/ 0 <= c.2 /\ c.1 + c.2 <= s)) caps.
Definition post (r : MatchState * option Z) (caps : list (Z * Z)) (ml : list (list (Z * Z) * Z)) : Prop :=
  match ml with
  | (caps', e) :: _ => r.2 = Some e /\ rep r.1 caps'
  | [] => r.2 = None /\ rep r.1 caps
  end.
Definition result (o : outcome (MatchState * option Z)) (caps : list (Z * Z)) (ml : list (list (Z * Z) * Z)) : Prop :=
  exists r, o = Val r /\ post r caps ml.
(** [rec] continues with the items [its], whose pattern begins at [p]. *)
Definition good (rec : MatchState -> Z -> Z -> outcome (MatchState * option Z)) (p : Z) (its : list item) : Prop :=
  forall caps ms s, well_formed its (map mark_of caps) = true -> rep ms caps -> valid caps s -> 0 <= s <= Zlen str ->
    result (rec ms s p) caps (matches str its caps s).
Lemma valid_le caps s s' : valid caps s -> s <= s' -> valid caps s'.
Proof. intros H Hs. eapply Forall_impl; [exact H|]. cbn. intros c (? & [?|[?|[? ?]]]); (split; [lia|]); [by left|by right; left|right; right; lia]. Qed.
(** A failed attempt, then another one. *)
Lemma post_app r caps l1 l2 : post r caps l1 -> l1 <> [] -> post r caps (l1 ++ l2).
Proof. by destruct l1 as [|[? ?] ?]. Qed.
Lemma result_then (o : outcome (MatchState * option Z)) caps l1 l2 k : result o caps l1 -> (forall ms, rep ms caps -> result (k ms) caps l2) ->
  result ('(ms, res) ← o; match res with Some e => mret (ms, Some e) | None => k ms end) caps (l1 ++ l2).
Proof.
  intros ([ms r] & -> & P) Hk. cbn [mbind outcome_bind]. destruct l1 as [|[c e] l1]; destruct P as [Er Hr]; cbn in Er, Hr; subst r.
  - by apply Hk.
  - eexists. split; [reflexivity|]. by split.
Qed.

Lemma at_s_char s : 0 <= s <= Zlen str -> at_s str s = Val (char_at str s).
Proof.
  intros Hs. unfold at_s, char_at, of_res. destruct (bget_in (cstr str) s) as [x E]; [unfold cstr; zlen; lia|]. rewrite E.
  apply bget_Ok in E as [_ E]. by rewrite (list_lookup_total_correct _ _ _ E).
Qed.
Lemma item_at_spec f p ep s : (forall c, singlematch pat c p ep = Val (f c)) -> 0 <= s -> item_at str pat s p ep = Val (accepts str f s).
Proof.
  intros H Hs. unfold item_at, accepts, src_end. destruct (Z.ltb_spec s (Zlen str)); [|done]. rewrite at_s_char by lia. cbn. apply H.
Qed.
Lemma run_length_le f n : forall s, s <= Zlen str -> s + Z.of_nat (run_length str f n s) <= Zlen str.
Proof.
  induction n as [|n IH]; intros s Hs; cbn [run_length]; [lia|]. destruct (accepts str f s) eqn:E; [|lia].
  unfold accepts in E. apply andb_true_iff in E as [E _]. apply Z.ltb_lt in E. specialize (IH (s + 1) ltac:(lia)). lia.
Qed.
Lemma accepts_end f s : Zlen str <= s -> accepts str f s = false.
Proof. intros H. unfold accepts. by rewrite (proj2 (Z.ltb_ge _ _)). Qed.

Section expand.
  Context (rec : MatchState -> Z -> Z -> outcome (MatchState * option Z)) (f : Z -> bool) (p ep : Z)
    (Hf : forall c, singlematch pat c p ep = Val (f c)).
Lemma count_loop_spec s fuel : forall n i, 0 <= s + i -> Zlen str - (s + i) <= Z.of_nat n -> (n < fuel)%nat ->
  count_loop str pat fuel s p ep i = Val (i + Z.of_nat (run_length str f n (s + i))).
Proof.
  induction fuel as [|fuel IH]; intros n i Hs Hn Hl; [lia|]. cbn [count_loop]. rewrite (outcome_bind_val _ _ _ (item_at_spec f p ep (s + i) Hf Hs)).
  destruct n as [|n]; cbn [run_length].
  - rewrite accepts_end by lia. unfold mret, outcome_ret. f_equal. lia.
  - destruct (accepts str f (s + i)); [|unfold mret, outcome_ret; f_equal; lia].
    rewrite (IH n) by lia. f_equal. replace (s + (i + 1)) with (s + i + 1) by lia. lia.
Qed.
Lemma try_loop_spec its caps s : good rec (ep + 1) its -> well_formed its (map mark_of caps) = true -> valid caps s -> 0 <= s -> forall n ms,
  rep ms caps -> s + Z.of_nat n <= Zlen str + 1 ->
  result (try_loop rec ms n s ep) caps (concat (map (fun k => matches str its caps (s + Z.of_nat k)) (rev (seq 0 n)))).
Proof.
  intros Hg Hw Hv Hs. induction n as [|n IH]; intros ms Hr Hn; cbn [try_loop].
  { eexists. split; [done|]. by split. }
  rewrite seq_S, rev_app_distr. cbn [rev app map concat Nat.add]. apply result_then.
  - apply Hg; [done|done|eapply valid_le; [done|lia]|lia].
  - intros ms' Hr'. apply IH; [done|lia].
Qed.
Lemma max_expand_spec its caps ms s : good rec (ep + 1) its -> well_formed its (map mark_of caps) = true -> rep ms caps -> valid caps s -> 0 <= s <= Zlen str ->
  result (max_expand str pat rec ms s p ep) caps
    (concat (map (fun k => matches str its caps (s + Z.of_nat k)) (rev (seq 0 (S (run_length str f (length str) s)))))).
Proof.
  intros Hg Hw Hr Hv Hs. unfold max_expand. rewrite (outcome_bind_val _ _ _ (count_loop_spec s (S (length str)) (length str) 0 ltac:(lia) ltac:(unfold Zlen; lia) ltac:(lia))).
  rewrite Z.add_0_r, Z.add_0_l. pose proof (run_length_le f (length str) s ltac:(lia)).
  replace (Z.to_nat (Z.of_nat (run_length str f (length str) s) + 1)) with (S (run_length str f (length str) s)) by lia.
  apply try_loop_spec; [done|done|done|lia|done|lia].
Qed.
Lemma min_loop_spec its caps : good rec (ep + 1) its -> well_formed its (map mark_of caps) = true -> forall fuel n ms s,
  rep ms caps -> valid caps s -> 0 <= s <= Zlen str -> Zlen str - s <= Z.of_nat n -> (n < fuel)%nat ->
  result (min_loop str pat rec fuel ms s p ep) caps
    (concat (map (fun k => matches str its caps (s + Z.of_nat k)) (seq 0 (S (run_length str f n s))))).
Proof.
  intros Hg Hw. induction fuel as [|fuel IH]; intros n ms s Hr Hv Hs Hn Hl; [lia|]. cbn [min_loop seq map concat]. rewrite Z.add_0_r.
  apply result_then; [by apply Hg|]. intros ms' Hr'. rewrite (outcome_bind_val _ _ _ (item_at_spec f p ep s Hf ltac:(lia))).
  destruct n as [|n]; cbn [run_length].
  { rewrite accepts_end by lia. eexists. split; [done|]. by split. }
  destruct (accepts str f s) eqn:Ea; [|eexists; split; [done|by split]].
  unfold accepts in Ea. apply andb_true_iff in Ea as [Ea _]. apply Z.ltb_lt in Ea.
  rewrite <- seq_shift, map_map.
  erewrite map_ext; [apply (IH n); [done|eapply valid_le; [done|lia]|lia|lia|lia]|]. intros k. cbn. f_equal. lia.
Qed.
End expand.

(** Reading and setting active captures. *)
Lemma rep_lookup ms caps k : rep ms caps -> (k < length caps)%nat -> capture ms !! k = caps !! k.
Proof. intros (_ & _ & E) Hk. rewrite <- E. by rewrite lookup_take_lt. Qed.
Lemma rep_cap ms c1 x c2 : rep ms (c1 ++ x :: c2) -> cap ms (Zlen c1) = Val x.
Proof.
  intros H. unfold cap, of_res. rewrite (proj2 (bget_Ok (capture ms) (Zlen c1) x)); [done|]. split; [done|].
  rewrite Zlen_to_nat, (rep_lookup _ _ _ H); [by apply list_lookup_middle|]. rewrite length_app. cbn. lia.
Qed.
Lemma rep_length ms caps : rep ms caps -> (length caps <= 10)%nat.
Proof. intros (E10 & _ & E). rewrite <- E, length_take. lia. Qed.
Lemma rep_put ms c1 x y c2 : rep ms (c1 ++ x :: c2) -> exists ms', put_cap ms (Zlen c1) y = Val ms' /\ rep ms' (c1 ++ y :: c2).
Proof.
  intros H. pose proof (rep_length _ _ H) as Hl. destruct H as (E10 & El & E). rewrite length_app in Hl. cbn in Hl.
  unfold put_cap, of_res. rewrite bset_in by (unfold Zlen; lia). eexists. split; [done|]. unfold set_capture. split; [|split]; cbn.
  - by rewrite length_insert.
  - rewrite El. by zlen.
  - rewrite Zlen_to_nat, length_app. cbn. rewrite length_app in E. cbn in E.
    rewrite take_insert_lt by lia. rewrite E. by rewrite insert_app_r_alt, Nat.sub_diag by lia.
Qed.
Lemma rep_push ms caps y : rep ms caps -> Zlen caps < LUA_MAXCAPTURES ->
  exists ms', put_cap ms (level ms) y = Val ms' /\ rep (set_level (level ms + 1) ms') (caps ++ [y]).
Proof.
  intros (E10 & El & E) Hl. unfold LUA_MAXCAPTURES, Zlen in Hl. unfold put_cap, of_res. rewrite El.
  rewrite bset_in by (unfold Zlen; lia). eexists. split; [done|]. split; [|split]; cbn.
  - by rewrite length_insert.
  - by zlen.
  - rewrite length_app. cbn. rewrite Nat.add_1_r, Zlen_to_nat.
    rewrite (take_S_r _ _ y); [|apply list_lookup_insert_eq; lia]. by rewrite take_insert_ge, E by lia.
Qed.
Lemma rep_pop ms caps y : rep ms (caps ++ [y]) -> rep (set_level (level ms - 1) ms) caps.
Proof.
  intros (E10 & El & E). split; [done|]. split; cbn; [rewrite El; zlen; lia|].
  apply (f_equal (take (length caps))) in E. rewrite take_app_length, take_take in E. rewrite <- E at 2. f_equal. rewrite length_app. cbn. lia.
Qed.

Section capture.
  Context (rec : MatchState -> Z -> Z -> outcome (MatchState * option Z)) (p : Z) (its : list item) (Hg : good rec p its).
Lemma start_capture_spec caps ms s what : well_formed its (map mark_of (caps ++ [(s, what)])) = true -> Zlen caps < LUA_MAXCAPTURES ->
  rep ms caps -> valid caps s -> 0 <= s <= Zlen str -> what = CAP_UNFINISHED \/ what = CAP_POSITION ->
  result (start_capture rec ms s p what) caps (matches str its (caps ++ [(s, what)]) s).
Proof.
  intros Hw Hl Hr Hv Hs Hwhat. unfold start_capture. pose proof Hr as (_ & El & _). rewrite El, (proj2 (Z.leb_gt _ _) Hl), <- El.
  destruct (rep_push _ _ (s, what) Hr Hl) as (ms1 & -> & Hr1). cbn [mbind outcome_bind].
  destruct (Hg _ _ s Hw Hr1) as ([ms2 r] & -> & P); [apply Forall_app; split; [done|]; apply Forall_singleton; cbn; split; [lia|tauto]|done|].
  cbn [mbind outcome_bind]. destruct (matches str its (caps ++ [(s, what)]) s) as [|[c e] ml]; destruct P as [Er Hr2]; cbn in Er, Hr2; subst r;
    (eexists; split; [reflexivity|split; [done|]]); [by eapply rep_pop|done].
Qed.
Lemma close_last_split caps s caps' : close_last caps s = Some caps' ->
  exists c1 i c2, caps = c1 ++ (i, CAP_UNFINISHED) :: c2 /\ caps' = c1 ++ (i, s - i) :: c2 /\ Forall (fun c => c.2 <> CAP_UNFINISHED) c2.
Proof.
  assert (forall l, close_last l s = None -> Forall (fun c => c.2 <> CAP_UNFINISHED) l) as Hnone.
  { induction l as [|c l IH]; cbn; [constructor|]. destruct (close_last l s); [done|]. destruct (Z.eqb_spec c.2 CAP_UNFINISHED); [done|]. intros _. constructor; auto. }
  revert caps'. induction caps as [|[i n] caps IH]; intros caps'; cbn; [done|]. destruct (close_last caps s) as [l|] eqn:E.
  - intros [= <-]. destruct (IH _ eq_refl) as (c1 & j & c2 & -> & -> & H). by exists ((i, n) :: c1), j, c2.
  - destruct (Z.eqb_spec n CAP_UNFINISHED) as [->|]; [|done]. intros [= <-]. exists [], i, caps. split; [done|]. split; [done|]. by apply Hnone.
Qed.
Lemma close_mark_spec caps s : Forall (fun c => c.1 <= s) caps ->
  close_mark (map mark_of caps) = (fun l => map mark_of l) <$> close_last caps s.
Proof.
  induction 1 as [|[i n] caps Hi _ IH]; cbn; [done|]. rewrite IH. destruct (close_last caps s); cbn; [done|]. cbn in Hi.
  unfold mark_of at 1. cbn. destruct (n =? CAP_UNFINISHED); cbn; [|by destruct (n =? CAP_POSITION)].
  unfold mark_of at 2. cbn. unfold CAP_UNFINISHED, CAP_POSITION. by rewrite !(proj2 (Z.eqb_neq _ _)) by lia.
Qed.
Lemma close_loop_spec ms k i n : capture ms !! k = Some (i, CAP_UNFINISHED) -> (k < n)%nat ->
  (forall j, (k < j < n)%nat -> exists c, capture ms !! j = Some c /\ c.2 <> CAP_UNFINISHED) -> close_loop ms n = Val (Z.of_nat k).
Proof.
  intros Hk Hn Hj. assert (forall j c, capture ms !! j = Some c -> cap ms (Z.of_nat j) = Val c) as Hcap.
  { intros j c E. unfold cap, of_res. rewrite (proj2 (bget_Ok (capture ms) (Z.of_nat j) c)); [done|]. split; [lia|]. by rewrite Nat2Z.id. }
  induction n as [|n IH]; [lia|]. cbn [close_loop]. destruct (decide (k = n)) as [<-|Hne].
  - by rewrite (outcome_bind_val _ _ _ (Hcap _ _ Hk)).
  - destruct (Hj n ltac:(lia)) as (c & Ec & Hc). rewrite (outcome_bind_val _ _ _ (Hcap _ _ Ec)), (proj2 (Z.eqb_neq _ _) Hc).
    apply IH; [lia|]. intros j Hj'. apply Hj. lia.
Qed.
Lemma capture_to_close_spec ms c1 i c2 : rep ms (c1 ++ (i, CAP_UNFINISHED) :: c2) -> Forall (fun c => c.2 <> CAP_UNFINISHED) c2 ->
  capture_to_close ms = Val (Zlen c1).
Proof.
  intros Hr Hc. unfold capture_to_close. pose proof Hr as (_ & El & _). rewrite El, Zlen_to_nat.
  apply (close_loop_spec ms (length c1) i).
  - rewrite (rep_lookup _ _ _ Hr); [by apply list_lookup_middle|]. rewrite length_app. cbn. lia.
  - rewrite length_app. cbn. lia.
  - intros j Hj. rewrite (rep_lookup _ _ _ Hr) by lia. rewrite length_app in Hj. cbn in Hj. rewrite lookup_app_r by lia.
    destruct (j - length c1)%nat as [|j'] eqn:Ej; [lia|]. cbn. destruct (lookup_lt_is_Some_2 c2 j') as [c Ec]; [lia|].
    exists c. split; [done|]. exact (proj1 (Forall_lookup _ _) Hc _ _ Ec).
Qed.
Lemma end_capture_spec caps caps' ms s : close_last caps s = Some caps' -> well_formed its (map mark_of caps') = true ->
  rep ms caps -> valid caps s -> 0 <= s <= Zlen str -> result (end_capture rec ms s p) caps (matches str its caps' s).
Proof.
  intros Ec Hw Hr Hv Hs. destruct (close_last_split _ _ _ Ec) as (c1 & i & c2 & -> & -> & Hc2).
  unfold end_capture. rewrite (capture_to_close_spec _ _ _ _ Hr Hc2). cbn [mbind outcome_bind]. rewrite (rep_cap _ _ _ _ Hr). cbn [mbind outcome_bind fst].
  destruct (rep_put _ _ _ (i, s - i) _ Hr) as (ms1 & -> & Hr1). cbn [mbind outcome_bind].
  apply Forall_app in Hv as [Hv1 Hv2]. apply Forall_cons in Hv2 as [[Hi _] Hv2]. cbn in Hi.
  destruct (Hg _ _ s Hw Hr1) as ([ms2 r] & -> & P); [apply Forall_app; split; [done|]; apply Forall_cons; split; [cbn; split; [lia|]; right; right; lia|done]|done|].
  cbn [mbind outcome_bind]. destruct (matches str its _ s) as [|[c e] ml]; destruct P as [Er Hr2]; cbn in Er, Hr2; subst r.
  - rewrite (rep_cap _ _ _ _ Hr2). cbn [mbind outcome_bind fst]. destruct (rep_put _ _ _ (i, CAP_UNFINISHED) _ Hr2) as (ms3 & -> & Hr3).
    eexists. by split.
  - eexists. by split.
Qed.
End capture.

(** Back references. *)
Lemma slice_cstr (i n : Z) : 0 <= i -> 0 <= n -> i + n <= Zlen str -> slice (cstr str) i n = slice str i n.
Proof. intros. unfold slice, cstr. rewrite drop_app_le, take_app_le; [done|..]; unfold Zlen in *; rewrite ?length_drop; lia. Qed.
Definition back (caps : list (Z * Z)) (l s : Z) : option Z :=
  match caps !! Z.to_nat l with
  | Some (i, n) => if (0 <=? n) && (s + n <=? Zlen str) && bool_decide (slice str i n = slice str s n) then Some (s + n) else None
  | None => None
  end.
Lemma match_capture_spec caps ms s l : 0 <= l -> (exists m, map mark_of caps !! Z.to_nat l = Some m /\ m <> Opened) -> rep ms caps -> valid caps s ->
  0 <= s <= Zlen str -> Zlen str < 2147483648 -> match_capture str ms s (l + 49) = Val (back caps l s).
Proof.
  intros Hl (m & Em & Hm) Hr Hv Hs Hlen. rewrite list_lookup_fmap in Em. destruct (caps !! Z.to_nat l) as [[i n]|] eqn:Ec; [|done].
  cbn in Em. injection Em as Em. pose proof (lookup_lt_Some _ _ _ Ec) as Hlt. pose proof Hr as (_ & El & _).
  assert (cap ms l = Val (i, n)) as Ecap.
  { unfold cap, of_res. rewrite (proj2 (bget_Ok (capture ms) l (i, n))); [done|]. split; [done|]. by rewrite (rep_lookup _ _ _ Hr). }
  assert (n <> CAP_UNFINISHED) as Hn by (intros ->; by rewrite <- Em in Hm).
  unfold match_capture, check_capture. replace (l + 49 - 49) with l by lia. rewrite El.
  rewrite (proj2 (Z.ltb_ge l 0)), (proj2 (Z.leb_gt (Zlen caps) l)) by (unfold Zlen; lia). cbn [orb].
  rewrite (outcome_bind_val _ _ _ Ecap). cbn [snd]. rewrite (proj2 (Z.eqb_neq _ _) Hn). cbn [mbind outcome_bind mret outcome_ret]. rewrite Ecap. cbn [mbind outcome_bind fst snd].
  unfold back. rewrite Ec. destruct (proj1 (Forall_lookup _ _) Hv _ _ Ec) as [Hi [Hc|[Hc|[Hc1 Hc2]]]]; cbn in Hi |- *; [done| |].
  - cbn in Hc. rewrite Hc. change (u32 CAP_POSITION) with 4294967294. change (0 <=? CAP_POSITION) with false. unfold src_end. by rewrite (proj2 (Z.leb_gt _ _)) by lia.
  - cbn in Hc1, Hc2. rewrite wrap_small by (pow2_norm; lia). rewrite (proj2 (Z.leb_le 0 n)) by done. unfold src_end.
    destruct (Z.leb_spec n (Zlen str - s)); [rewrite (proj2 (Z.leb_le _ _)) by lia|by rewrite (proj2 (Z.leb_gt _ _)) by lia].
    unfold same_bytes, cstr at 1 2. zlen. rewrite !(proj2 (Z.leb_le _ _)) by lia. cbn [andb mbind outcome_bind mret outcome_ret].
    by rewrite !slice_cstr by lia.
Qed.

(** Balanced text. *)
Lemma balanced_le b e l : forall depth k, balanced b e depth l = Some k -> 1 <= k <= Zlen l.
Proof.
  induction l as [|c l IH]; intros depth k; cbn [balanced]; [done|]. pose proof (Zlen_nonneg l). zlen.
  destruct (c =? e); [destruct (depth =? 1); [intros [= <-]; lia|]|];
    (intros (k' & E & ->)%fmap_Some; apply IH in E; lia).
Qed.
Lemma balance_loop_spec b e fuel : forall s cont, 0 <= s + 1 -> (Z.to_nat (Zlen str - (s + 1)) < fuel)%nat ->
  balance_loop str fuel s b e cont = Val ((fun k => s + 1 + k) <$> balanced b e cont (drop (Z.to_nat (s + 1)) str)).
Proof.
  induction fuel as [|fuel IH]; intros s cont Hs Hf; cbn [balance_loop].
  all: unfold src_end. 1: lia.
  destruct (Z.ltb_spec (s + 1) (Zlen str)) as [Hlt|Hge]; cbn [negb].
  2: { rewrite drop_ge by (unfold Zlen in Hge; lia). done. }
  rewrite (outcome_bind_val _ _ _ (at_s_char (s + 1) ltac:(lia))).
  destruct (lookup_lt_is_Some_2 str (Z.to_nat (s + 1))) as [c Ec]; [unfold Zlen in Hlt; lia|].
  rewrite (drop_S _ _ _ Ec). cbn [balanced].
  assert (char_at str (s + 1) = c) as -> by (unfold char_at, cstr; apply list_lookup_total_correct; by apply lookup_app_l_Some).
  replace (S (Z.to_nat (s + 1))) with (Z.to_nat (s + 1 + 1)) by lia.
  destruct (c =? e); [replace (cont - 1 =? 0) with (cont =? 1) by (destruct (Z.eqb_spec cont 1), (Z.eqb_spec (cont - 1) 0); lia); destruct (cont =? 1); [done|]|];
    (rewrite IH by lia; f_equal; rewrite <- option_fmap_compose; apply option_fmap_ext; intros k; cbn; lia).
Qed.
Lemma matchbalance_spec s p b e r : here pat p (b :: e :: r) -> b <> 0 -> e <> 0 -> 0 <= s <= Zlen str ->
  matchbalance str pat s p =
    Val (if char_at str s =? b then (fun k => s + 1 + k) <$> balanced b e 1 (drop (Z.to_nat s + 1) str) else None).
Proof.
  intros H Hb He Hs. unfold matchbalance. rewrite (outcome_bind_val _ _ _ (at_p_here _ _ _ H)). cbn [hd]. rewrite (proj2 (Z.eqb_neq _ _) Hb).
  rewrite (outcome_bind_val _ _ _ (at_p_here _ _ _ (here_next _ _ _ _ H))). cbn [hd]. rewrite (proj2 (Z.eqb_neq _ _) He).
  rewrite (outcome_bind_val _ _ _ (at_s_char s Hs)). destruct (char_at str s =? b); cbn [negb]; [|done].
  rewrite balance_loop_spec by (unfold Zlen; lia). by replace (Z.to_nat (s + 1)) with (Z.to_nat s + 1)%nat by lia.
Qed.

Lemma then_items_Some i r its : then_items i r = Some its -> exists its', r = Some its' /\ its = i :: its'.
Proof. unfold then_items. intros (its' & E & ->)%fmap_Some. by exists its'. Qed.
Lemma result_none ms caps : rep ms caps -> result (mret (ms, None)) caps [].
Proof. intros Hr. eexists. by split. Qed.
Lemma accepts_lt f s : accepts str f s = true -> s < Zlen str.
Proof. unfold accepts. intros [E _]%andb_true_iff. by apply Z.ltb_lt in E. Qed.
Lemma match_item_spec rec parse_rest p q its caps ms s : parse_item parse_rest q = Some its -> here pat p q -> hd 0 q <> 0 ->
  (forall q' p' its', parse_rest q' = Some its' -> here pat p' q' -> p < p' -> good rec p' its') ->
  well_formed its (map mark_of caps) = true -> rep ms caps -> valid caps s -> 0 <= s <= Zlen str ->
  result (match_item str pat rec ms s p) caps (matches str its caps s).
Proof.
  intros E H Hx Hrec Hw Hr Hv Hs. unfold parse_item in E. destruct (single q) as [[f r]|] eqn:Es; [|done].
  destruct (single_spec _ _ _ _ _ Es H Hx) as (ep & Ec & He & Hlt & Em). unfold match_item. rewrite Ec. cbn [mbind outcome_bind].
  rewrite (item_at_spec f p ep s Em) by lia. cbn [mbind outcome_bind]. rewrite (at_p_here _ _ _ He). cbn [mbind outcome_bind].
  assert (forall its' y, parse_rest (tail r) = Some its' -> hd 0 r = y -> y <> 0 -> good rec (ep + 1) its') as Hsuffix.
  { intros its' y E' Ey Hy. pose proof (hd_eq _ _ Ey Hy) as Er. rewrite Er in He. eapply Hrec; [exact E'|exact (here_next _ _ _ _ He)|lia]. }
  assert (valid caps (s + 1)) as Hv1 by (eapply valid_le; [done|lia]).
  destruct (Z.eqb_spec (hd 0 r) 63) as [Ey|_].
  { apply then_items_Some in E as (its' & E' & ->). pose proof (Hsuffix _ _ E' Ey ltac:(done)) as Hg. cbn [matches].
    destruct (accepts str f s) eqn:Ea; [|by apply Hg]. apply accepts_lt in Ea.
    apply result_then; [apply Hg; [done..|lia]|]. intros ms' Hr'. by apply Hg. }
  destruct (Z.eqb_spec (hd 0 r) 42) as [Ey|_].
  { apply then_items_Some in E as (its' & E' & ->). cbn [matches]. apply (max_expand_spec rec f p ep Em); [by eapply Hsuffix|done..]. }
  destruct (Z.eqb_spec (hd 0 r) 43) as [Ey|_].
  { apply then_items_Some in E as (its' & E' & ->). cbn [matches]. destruct (accepts str f s) eqn:Ea; [|by apply result_none]. apply accepts_lt in Ea.
    apply (max_expand_spec rec f p ep Em); [by eapply Hsuffix|done|done|done|lia]. }
  destruct (Z.eqb_spec (hd 0 r) 45) as [Ey|_].
  { apply then_items_Some in E as (its' & E' & ->). cbn [matches]. apply (min_loop_spec rec f p ep Em its' caps); [by eapply Hsuffix|done|done|done|lia|unfold Zlen; lia|lia]. }
  apply then_items_Some in E as (its' & E' & ->). cbn [matches]. destruct (accepts str f s) eqn:Ea; [|by apply result_none]. apply accepts_lt in Ea.
  eapply Hrec; [exact E'|done|lia|done|done|done|lia].
Qed.
Lemma here_shorter p q p' q' : here pat p q -> here pat p' q' -> p < p' -> (length q' < length q)%nat.
Proof.
  intros (l & E & ->) (l' & E' & ->) Hp. unfold Zlen in Hp. rewrite E in E'. apply (f_equal length) in E'. rewrite !length_app in E'. lia.
Qed.

Context (short : Zlen str < 2147483648).
Lemma frontier_spec rec p q f r its' caps ms s : bracket q = Some (f, r) -> here pat p (91 :: q) ->
  (forall p', here pat p' r -> p < p' -> good rec p' its') ->
  well_formed its' (map mark_of caps) = true -> rep ms caps -> valid caps s -> 0 <= s <= Zlen str ->
  result (match_frontier str pat rec ms s p) caps (matches str (Frontier f :: its') caps s).
Proof.
  intros E H Hrec Hw Hr Hv Hs. destruct (bracket_spec _ _ _ _ _ E H) as (ep & Ec & He & Hlt & Em). unfold match_frontier.
  rewrite (outcome_bind_val _ _ _ (at_p_here _ _ _ H)). cbn [hd]. change (negb (91 =? 91)) with false. cbv iota. rewrite Ec. cbn [mbind outcome_bind].
  assert ((if s =? 0 then mret 0 else at_s str (s - 1)) = Val (char_before str s)) as Eb.
  { unfold char_before. destruct (Z.eqb_spec s 0); [done|]. apply at_s_char. lia. }
  rewrite (outcome_bind_val _ _ _ Eb), Em. cbn [mbind outcome_bind matches]. destruct (f (char_before str s)); cbn [negb andb]; [by apply result_none|].
  rewrite (outcome_bind_val _ _ _ (at_s_char s Hs)), Em. cbn [mbind outcome_bind]. destruct (f (char_at str s)); [|by apply result_none].
  by apply (Hrec ep).
Qed.

Lemma hd_tail_cons (q : list Z) x : hd 0 q = x -> x <> 0 -> exists r, q = x :: r.
Proof. intros E Hx. exists (tail q). by apply hd_eq. Qed.
(** The body of [match], item by item. *)
Section body.
  Context (rec : MatchState -> Z -> Z -> outcome (MatchState * option Z)) (parse_rest : list Z -> option (list item)) (p : Z) (q : list Z).
  Context (Hrec : forall q' p' its', parse_rest q' = Some its' -> here pat p' q' -> p < p' -> good rec p' its').
  Context (caps : list (Z * Z)) (ms : MatchState) (s : Z) (Hr : rep ms caps) (Hv : valid caps s) (Hs : 0 <= s <= Zlen str).
Lemma open_spec its : here pat p (40 :: q) -> (if hd 0 q =? 41 then then_items Position (parse_rest (tail q)) else then_items Open (parse_rest q)) = Some its ->
  well_formed its (map mark_of caps) = true ->
  result (d ← at_p pat (p + 1); if d =? 41 then start_capture rec ms s (p + 2) CAP_POSITION else start_capture rec ms s (p + 1) CAP_UNFINISHED)
    caps (matches str its caps s).
Proof.
  intros H E Hw. pose proof (here_next _ _ _ _ H) as H1. rewrite (outcome_bind_val _ _ _ (at_p_here _ _ _ H1)).
  destruct (Z.eqb_spec (hd 0 q) 41) as [Ed|_]; apply then_items_Some in E as (its' & E & ->); cbn [well_formed matches] in *;
    apply andb_true_iff in Hw as [Hl Hw]; apply Z.ltb_lt in Hl;
    assert (Zlen caps < LUA_MAXCAPTURES) as Hl' by (unfold Zlen in *; by rewrite length_map in Hl).
  - destruct (hd_tail_cons _ _ Ed ltac:(done)) as (r & ->). cbn [tail] in E. pose proof (here_next _ _ _ _ H1) as H2.
    replace (p + 2) with (p + 1 + 1) by lia. apply (start_capture_spec rec _ its'); try done; [eapply Hrec; [exact E|done|lia]|by rewrite map_app|by right].
  - apply (start_capture_spec rec _ its'); try done; [eapply Hrec; [exact E|done|lia]|by rewrite map_app|by left].
Qed.
Lemma close_spec its : here pat p (41 :: q) -> then_items Close (parse_rest q) = Some its -> well_formed its (map mark_of caps) = true ->
  result (end_capture rec ms s (p + 1)) caps (matches str its caps s).
Proof.
  intros H E Hw. pose proof (here_next _ _ _ _ H) as H1. apply then_items_Some in E as (its' & E & ->). cbn [well_formed matches] in *.
  rewrite (close_mark_spec caps s) in Hw by (eapply Forall_impl; [exact Hv|]; cbn; lia).
  destruct (close_last caps s) as [caps'|] eqn:Ec; [|done]. cbn in Hw. apply (end_capture_spec rec _ its'); try done. eapply Hrec; [exact E|done|lia].
Qed.
Lemma balance_spec its : here pat p (37 :: 98 :: q) ->
  (if (hd 0 q =? 0) || (hd 0 (tail q) =? 0) then None else then_items (Balance (hd 0 q) (hd 0 (tail q))) (parse_rest (drop 2 q))) = Some its ->
  well_formed its (map mark_of caps) = true ->
  result (r ← matchbalance str pat s (p + 2); match r with None => mret (ms, None) | Some s => rec ms s (p + 4) end) caps (matches str its caps s).
Proof.
  intros H E Hw. destruct (Z.eqb_spec (hd 0 q) 0) as [|Hb]; [done|]. destruct (Z.eqb_spec (hd 0 (tail q)) 0) as [|He]; [done|]. cbn [orb] in E.
  destruct (hd_tail_cons _ _ eq_refl Hb) as (r & Eq). rewrite Eq in E, H, Hb, He. cbn [hd tail] in *.
  destruct (hd_tail_cons _ _ eq_refl He) as (r' & Er). rewrite Er in E, H, He. cbn [hd drop] in *. set (b := hd 0 q) in *. set (e := hd 0 r) in *.
  apply then_items_Some in E as (its' & E & ->). pose proof (here_next _ _ _ _ (here_next _ _ _ _ H)) as H2. replace (p + 1 + 1) with (p + 2) in H2 by lia.
  rewrite (matchbalance_spec _ _ _ _ _ H2 Hb He Hs). cbn [mbind outcome_bind matches]. destruct (char_at str s =? b); [|by apply result_none].
  destruct (balanced b e 1 (drop (Z.to_nat s + 1) str)) as [k|] eqn:Ek; cbn; [|by apply result_none].
  apply balanced_le in Ek. unfold Zlen in Ek. rewrite length_drop in Ek.
  eapply Hrec; [exact E| |lia|done|done|eapply valid_le; [done|lia]|unfold Zlen; lia].
  replace (p + 4) with (p + 2 + 1 + 1) by lia. apply here_next with (x := e). apply here_next with (x := b). done.
Qed.
Lemma back_spec d its : here pat p (37 :: d :: q) -> then_items (Back (d - 49)) (parse_rest q) = Some its -> well_formed its (map mark_of caps) = true ->
  result (r ← match_capture str ms s d; match r with None => mret (ms, None) | Some s => rec ms s (p + 2) end) caps (matches str its caps s).
Proof.
  intros H E Hw. apply then_items_Some in E as (its' & E & ->). cbn [well_formed matches] in *. apply andb_true_iff in Hw as [Hl Hw]. apply Z.leb_le in Hl.
  replace d with (d - 49 + 49) at 1 by lia. rewrite (match_capture_spec caps ms s (d - 49)); try done.
  2: { destruct (map mark_of caps !! Z.to_nat (d - 49)) as [m|]; [|done]. exists m. split; [done|]. by destruct m. }
  assert (well_formed its' (map mark_of caps) = true) as Hw' by (by destruct (map mark_of caps !! Z.to_nat (d - 49)) as [[]|]).
  cbn [mbind outcome_bind]. unfold back. destruct (caps !! Z.to_nat (d - 49)) as [[i n]|]; [|by apply result_none].
  destruct ((0 <=? n) && (s + n <=? Zlen str) && bool_decide (slice str i n = slice str s n)) eqn:Ec; [|by apply result_none].
  apply andb_true_iff in Ec as [[Hn He]%andb_true_iff _]. apply Z.leb_le in Hn, He.
  pose proof (here_next _ _ _ _ (here_next _ _ _ _ H)) as H2. replace (p + 1 + 1) with (p + 2) in H2 by lia.
  eapply Hrec; [exact E|done|lia|done|done|eapply valid_le; [done|lia]|lia].
Qed.
End body.

(** The matcher finds the first match. *)
Lemma do_match_good fuel : forall n q p its, parse n q = Some its -> here pat p q -> (length q < fuel)%nat -> good (do_match str pat fuel) p its.
Proof.
  induction fuel as [|fuel IH]; intros n q p its E H Hf caps ms s Hw Hr Hv Hs; [lia|]. destruct n as [|n]; [done|]. cbn [parse] in E.
  assert (forall q' p' its', parse n q' = Some its' -> here pat p' q' -> p < p' -> good (do_match str pat fuel) p' its') as Hrec.
  { intros q' p' its' E' H' Hp. eapply IH; [exact E'|done|]. pose proof (here_shorter _ _ _ _ H H' Hp). lia. }
  cbn [do_match]. unfold match_body. rewrite (outcome_bind_val _ _ _ (at_p_here _ _ _ H)).
  destruct (Z.eqb_spec (hd 0 q) 40) as [Ex|N40].
  { destruct (hd_tail_cons _ _ Ex ltac:(done)) as (r & ->). cbn [hd tail] in *. eapply open_spec; done. }
  destruct (Z.eqb_spec (hd 0 q) 41) as [Ex|N41].
  { destruct (hd_tail_cons _ _ Ex ltac:(done)) as (r & ->). cbn [hd tail] in *. eapply close_spec; done. }
  destruct (Z.eqb_spec (hd 0 q) L_ESC) as [Ex|NE].
  { destruct (hd_tail_cons _ _ Ex ltac:(done)) as (r & ->). cbn [hd tail] in *. pose proof (here_next _ _ _ _ H) as H1.
    rewrite (outcome_bind_val _ _ _ (at_p_here _ _ _ H1)).
    destruct (Z.eqb_spec (hd 0 r) 98) as [Ed|_].
    { destruct (hd_tail_cons _ _ Ed ltac:(done)) as (r' & ->). cbn [hd tail drop] in *. by eapply balance_spec. }
    destruct (Z.eqb_spec (hd 0 r) 102) as [Ed|_].
    { destruct (hd_tail_cons _ _ Ed ltac:(done)) as (r' & ->). cbn [hd tail drop] in *.
      destruct (Z.eqb_spec (hd 0 r') 91) as [Eb|]; [|done]. destruct (hd_tail_cons _ _ Eb ltac:(done)) as (r2 & ->). cbn [drop] in E. rewrite drop_0 in E.
      destruct (bracket r2) as [[f r3]|] eqn:Eb'; [|done]. apply then_items_Some in E as (its' & E & ->).
      pose proof (here_next _ _ _ _ H1) as H2. replace (p + 1 + 1) with (p + 2) in H2 by lia.
      eapply frontier_spec; [exact Eb'|exact H2| |done..]. intros p' Hp' Hlt. eapply Hrec; [exact E|done|lia]. }
    destruct (isdigit (hd 0 r)) eqn:Ed.
    { assert (hd 0 r <> 0) as Hd by (intros E0; by rewrite E0 in Ed). destruct (hd_tail_cons _ _ eq_refl Hd) as (r' & Er).
      rewrite Er in E, H. cbn [hd tail] in E. by eapply back_spec. }
    eapply match_item_spec; done. }
  destruct (Z.eqb_spec (hd 0 q) 0) as [Ex|N0].
  { injection E as <-. eexists. by split. }
  destruct (Z.eqb_spec (hd 0 q) 36) as [Ex|N36].
  { destruct (hd_tail_cons _ _ Ex ltac:(done)) as (r & ->). cbn [hd tail] in *. pose proof (here_next _ _ _ _ H) as H1.
    rewrite (outcome_bind_val _ _ _ (at_p_here _ _ _ H1)). cbn [andb] in E. destruct (Z.eqb_spec (hd 0 r) 0) as [Ed|_].
    { injection E as <-. cbn [matches]. unfold src_end. destruct (s =? Zlen str); (eexists; by split). }
    eapply match_item_spec; done. }
  cbn [andb] in E. eapply match_item_spec; done.
Qed.
End match_state.
