(* ===== verification/LuaFind.v ===== *)
(** Searching with the patterns of LuaStr.v: the matcher terminates with the
    first match or none, and [string.find] and [string.match] give the
    leftmost match and its captures. *)
From Stdlib Require String.
From S2P Require Import Prelude LuaStr LuaPattern LuaMatch.

(** ** Where a search begins *)
(** Where [string.find] begins for its argument [init]. *)
Definition first_pos (str : list Z) (init : Z) : Z :=
  let i := posrelat init (Zlen str) - 1 in if i <? 0 then 0 else if Zlen str <? i then Zlen str else i.
Lemma first_pos_range str init : 0 <= first_pos str init <= Zlen str.
Proof. unfold first_pos. pose proof (Zlen_nonneg str). destruct (Z.ltb_spec (posrelat init (Zlen str) - 1) 0); [lia|]. destruct (Z.ltb_spec (Zlen str) (posrelat init (Zlen str) - 1)); lia. Qed.

Section find.
  Context (str : list Z) (short : Zlen str < 2147483648).

(** ** What a match gives *)
(** The marks behind a pattern. *)
Fixpoint final_marks (its : list item) (marks : list mark) : list mark :=
  match its with
  | [] => marks
  | Open :: its => final_marks its (marks ++ [Opened])
  | Position :: its => final_marks its (marks ++ [Pos])
  | Close :: its => final_marks its (default marks (close_mark marks))
  | AtEnd :: _ => marks
  | _ :: its => final_marks its marks
  end.
Lemma valid_push caps s i : valid caps s -> i = CAP_UNFINISHED \/ i = CAP_POSITION -> 0 <= s -> valid (caps ++ [(s, i)]) s.
Proof. intros Hv Hi Hs. apply Forall_app. split; [done|]. apply Forall_singleton. cbn. split; [lia|tauto]. Qed.
Lemma valid_close caps caps1 s : close_last caps s = Some caps1 -> valid caps s -> 0 <= s -> valid caps1 s /\ map mark_of caps1 = default (map mark_of caps) (close_mark (map mark_of caps)).
Proof.
  intros E Hv Hs. split.
  - destruct (close_last_split _ _ _ E) as (c1 & i & c2 & -> & -> & _).
    apply Forall_app in Hv as [Hv1 [[Hi _] Hv2]%Forall_cons]. apply Forall_app. split; [done|]. apply Forall_cons. split; [|done]. cbn in *. split; [lia|].
    right. right. lia.
  - rewrite (close_mark_spec caps s) by (eapply Forall_impl; [exact Hv|]; cbn; lia). by rewrite E.
Qed.
Lemma run_end f s k : (forall i, 0 <= i < k -> accepts str f (s + i) = true) -> 0 <= k -> s <= Zlen str -> s + k <= Zlen str.
Proof. intros Hr Hk Hs. destruct (decide (k = 0)) as [->|]; [lia|]. specialize (Hr (k - 1) ltac:(lia)). apply accepts_lt in Hr. lia. Qed.
Lemma Match_valid its caps s caps' e : Match str its caps s caps' e -> valid caps s -> 0 <= s <= Zlen str ->
  valid caps' e /\ s <= e <= Zlen str /\ map mark_of caps' = final_marks its (map mark_of caps).
Proof.
  induction 1; intros Hv Hs; cbn [final_marks]; try (match goal with Ha : accepts _ _ _ = true |- _ => apply accepts_lt in Ha end).
  all: try (match goal with Ha : forall _, _ -> accepts _ _ _ = true |- _ => apply run_end in Ha; [|lia|lia] end).
  all: try match goal with Ha : balanced _ _ _ _ = Some _ |- _ => apply balanced_le in Ha; unfold Zlen in Ha; rewrite length_drop in Ha end.
  all: try match goal with Ha : close_last _ _ = Some _ |- _ => destruct (valid_close _ _ _ Ha Hv ltac:(lia)) as [Hv1 <-] end.
  all: try (destruct IHMatch as (? & ? & Em); [first [done|by eapply valid_le; [done|lia]|by apply valid_push; [done|tauto|lia]]|unfold Zlen in *; lia|];
            split; [done|]; split; [lia|]; rewrite Em, ?map_app; done).
  - split; [done|]. split; [lia|done].
  - split; [done|]. split; [lia|done].
Qed.
Lemma matches_Match its caps s caps' e ml : 0 <= s -> matches str its caps s = (caps', e) :: ml -> Match str its caps s caps' e.
Proof. intros Hs E. apply matches_iff; [done|]. rewrite E. by left. Qed.

(** ** The matcher *)
(** [pat] without an anchor, and where the matcher starts in it. *)
Definition anchored (pat : list Z) : bool := hd 0 pat =? 94.
Definition unanchored (pat : list Z) : list Z := if anchored pat then tail pat else pat.
Definition start (pat : list Z) : Z := if anchored pat then 1 else 0.
Lemma here_start pat : here pat (start pat) (unanchored pat).
Proof.
  unfold start, unanchored, anchored. destruct (Z.eqb_spec (hd 0 pat) 94) as [E|_].
  - exists [94]. split; [by apply hd_eq|done].
  - by exists [].
Qed.
Lemma run_match_eq (pat : list Z) its ms s : pattern (unanchored pat) = Some its -> well_formed its [] = true -> length (capture ms) = 10%nat ->
  0 <= s <= Zlen str -> result (run_match str pat (set_level 0 ms) s (start pat)) [] (matches str its [] s).
Proof.
  intros E Hw Hm Hs. pose proof (here_start pat) as H.
  apply (do_match_good str pat short (S (length pat)) _ _ _ its E H); [pose proof (here_length _ _ _ H); lia|done| |constructor|done].
  by split.
Qed.
(** For a well-formed pattern the matcher terminates without an error or
    an access outside its strings, whatever the subject. It finds a match
    exactly when there is one in the declarative sense, and then the first in
    the order of preference, with its captures. *)
Theorem match_finds_first (pat : list Z) (its : list item) (junk : list (Z * Z)) (s : Z) :
  pattern pat = Some its -> anchored pat = false -> well_formed its [] = true -> length junk = 10%nat -> 0 <= s <= Zlen str ->
  exists ms r, run_match str pat (MkMs 0 junk) s 0 = Val (ms, r) /\
    match r with
    | Some e => exists caps ml, matches str its [] s = (caps, e) :: ml /\ rep ms caps /\ Match str its [] s caps e
    | None => forall caps e, ~ Match str its [] s caps e
    end.
Proof.
  intros E Ha Hw Hj Hs. unfold unanchored, start in *. destruct (run_match_eq pat its (MkMs 0 junk) s) as ([ms r] & Er & P); [|done..|].
  { unfold unanchored. by rewrite Ha. }
  unfold start in Er. rewrite Ha in Er. exists ms, r. split; [done|]. unfold post in P. destruct (matches str its [] s) as [|[caps e] ml] eqn:Em; destruct P as [P1 P2]; cbn in P1, P2; subst r.
  - intros caps e Hm. apply matches_iff in Hm; [|lia]. by rewrite Em in Hm.
  - exists caps, ml. split; [done|]. split; [done|]. by eapply matches_Match; [lia|].
Qed.

(** ** Captures as values *)
Definition value_of (c : Z * Z) : value := if c.2 =? CAP_POSITION then VInteger (c.1 + 1) else VString (slice str c.1 c.2).
Definition captured (caps : list (Z * Z)) (whole : option Z) (e : Z) : list value :=
  match caps, whole with
  | [], Some s => [VString (slice str s (e - s))]
  | _, _ => map value_of caps
  end.
Context (pat : list Z) (stack : Z) (enough : 10 <= stack).
Lemma pushlstring_str o n : 0 <= o -> 0 <= n -> o + n <= Zlen str -> pushlstring (cstr str) o n = Val (slice str o n).
Proof.
  intros Ho Hn Hl. unfold pushlstring. rewrite !(proj2 (Z.leb_le _ _)) by (unfold cstr; zlen; lia). cbn [andb]. by rewrite slice_cstr.
Qed.
Lemma push_onecapture_spec ms c1 c c2 s e e1 : rep ms (c1 ++ c :: c2) -> valid (c1 ++ c :: c2) e -> e <= Zlen str -> mark_of c <> Opened ->
  push_onecapture str ms (Zlen c1) s e1 = Val (value_of c).
Proof.
  intros Hr Hv He Hm. unfold push_onecapture. pose proof Hr as (_ & El & _). rewrite El. rewrite (proj2 (Z.leb_gt _ _)) by (zlen; pose proof (Zlen_nonneg c2); lia).
  rewrite (rep_cap _ _ _ _ Hr). cbn [mbind outcome_bind]. apply Forall_app in Hv as [_ [[Hi Hc] _]%Forall_cons]. unfold mark_of in Hm. unfold value_of.
  destruct (c.2 =? CAP_UNFINISHED) eqn:E1; [done|]. destruct (c.2 =? CAP_POSITION) eqn:E2; [done|]. apply Z.eqb_neq in E1, E2.
  rewrite pushlstring_str by lia. done.
Qed.
Lemma captures_loop_spec ms s e e1 c2 : forall c1, rep ms (c1 ++ c2) -> valid (c1 ++ c2) e -> e <= Zlen str -> Opened ∉ map mark_of c2 ->
  captures_loop str ms (length c2) (Zlen c1) s e1 = Val (map value_of c2).
Proof.
  induction c2 as [|c c2 IH]; intros c1 Hr Hv He Hm; cbn [captures_loop length map]; [done|]. cbn in Hm. apply not_elem_of_cons in Hm as [Hm1 Hm2].
  rewrite (push_onecapture_spec _ _ _ _ _ _ _ Hr Hv He) by done. cbn [mbind outcome_bind].
  replace (Zlen c1 + 1) with (Zlen (c1 ++ [c])) by (zlen; lia). rewrite (cons_middle c), app_assoc in Hr, Hv. by rewrite IH.
Qed.
Lemma push_captures_spec ms caps whole e e1 : rep ms caps -> valid caps e -> e <= Zlen str -> (forall s, whole = Some s -> 0 <= s <= e1 /\ e1 <= Zlen str) ->
  Opened ∉ map mark_of caps -> push_captures stack str ms whole e1 = Val (captured caps whole e1).
Proof.
  intros Hr Hv He Hs Hm. pose proof (rep_length _ _ Hr) as Hlen. unfold push_captures. pose proof Hr as (_ & El & _). rewrite El.
  destruct caps as [|c caps]; cbn [captured].
  - change (Zlen (@nil (Z * Z)) =? 0) with true. cbn [andb]. destruct whole as [s|].
    + rewrite bool_decide_eq_true_2 by eauto. rewrite (proj2 (Z.ltb_ge stack 1)) by lia. specialize (Hs s eq_refl).
      change (Z.to_nat 1) with 1%nat. cbn [captures_loop]. unfold push_onecapture. rewrite El. change (Zlen (@nil (Z * Z)) <=? 0) with true. change (0 =? 0) with true. cbv iota.
      by rewrite pushlstring_str by lia.
    + rewrite bool_decide_eq_false_2 by (by intros []). change (Zlen (@nil (Z * Z))) with 0. rewrite (proj2 (Z.ltb_ge stack 0)) by lia. done.
  - rewrite (Zlen_eqb0 (c :: caps)) by done. cbn [andb]. rewrite (proj2 (Z.ltb_ge _ _)) by (unfold Zlen; lia). rewrite Zlen_to_nat.
    change 0 with (Zlen (@nil (Z * Z))). rewrite (captures_loop_spec ms whole e e1 (c :: caps) []) by done. by destruct whole.
Qed.

(** ** Searching *)
Context (junk : list (Z * Z)) (ten : length junk = 10%nat).
(** The starts that are tried, and what is given for a match. *)
Definition tried (anchor : bool) (from s : Z) : Prop := from <= s <= Zlen str /\ (anchor = true -> s = from).
Definition found (find : bool) (caps : list (Z * Z)) (s e : Z) : list value :=
  if find then VInteger (s + 1) :: VInteger e :: map value_of caps else captured caps (Some s) e.
(** The leftmost match of those that are tried, and there the first. *)
Definition leftmost (its : list item) (find anchor : bool) (from : Z) (l : list value) : Prop :=
  (exists s caps e ml, tried anchor from s /\ (forall s' caps' e', tried anchor from s' -> Match str its [] s' caps' e' -> s <= s') /\
     matches str its [] s = (caps, e) :: ml /\ l = found find caps s e) \/
  ((forall s caps e, tried anchor from s -> ~ Match str its [] s caps e) /\ l = [VNil]).
Lemma no_match its s : 0 <= s -> matches str its [] s = [] -> forall caps e, ~ Match str its [] s caps e.
Proof. intros Hs E caps e Hm. apply matches_iff in Hm; [|done]. by rewrite E in Hm. Qed.
Lemma pushed_found (find : bool) its ms s caps e ml : matches str its [] s = (caps, e) :: ml -> 0 <= s <= Zlen str -> Opened ∉ final_marks its [] -> rep ms caps ->
  (if find then push_captures stack str ms None 0 ≫= (fun l => Val (VInteger (s + 1) :: VInteger e :: l)) else push_captures stack str ms (Some s) e) =
    Val (found find caps s e).
Proof.
  intros Em Hs Ho Hr. destruct (Match_valid its [] s caps e (matches_Match _ _ _ _ _ _ (proj1 Hs) Em)) as (Hv & He & Ef); [constructor|lia|]. cbn in Ef.
  unfold found. destruct find.
  - rewrite (push_captures_spec ms caps None e 0) by (done || lia || by rewrite Ef). cbn [mbind outcome_bind mret outcome_ret]. by destruct caps.
  - apply (push_captures_spec ms caps (Some s) e e); [done|done|lia|intros ? [= <-]; lia|by rewrite Ef].
Qed.
Lemma find_loop_spec its find from : pattern (unanchored pat) = Some its -> well_formed its [] = true -> Opened ∉ final_marks its [] -> forall fuel s ms,
  length (capture ms) = 10%nat -> 0 <= from <= s -> s <= Zlen str -> Zlen str - s < Z.of_nat fuel -> (anchored pat = true -> s = from) ->
  (forall s' caps e, tried (anchored pat) from s' -> s' < s -> ~ Match str its [] s' caps e) ->
  exists l, find_loop stack str pat fuel find (anchored pat) ms s (start pat) = Val l /\ leftmost its find (anchored pat) from l.
Proof.
  intros E Hw Ho. induction fuel as [|fuel IH]; intros s ms Hm Hf Hs Hfuel Ha Hno; [lia|]. cbn [find_loop].
  destruct (run_match_eq pat its ms s E Hw Hm ltac:(lia)) as ([ms' r] & -> & P). cbn [mbind outcome_bind].
  unfold post in P. destruct (matches str its [] s) as [|[caps e] ml] eqn:Em; destruct P as [P1 P2]; cbn in P1, P2; subst r.
  - assert (forall s' caps e, tried (anchored pat) from s' -> s' < s + 1 -> ~ Match str its [] s' caps e) as Hno1.
    { intros s' caps e Ht Hlt. destruct (decide (s' < s)); [by apply Hno|]. assert (s' = s) as -> by lia. apply no_match; [lia|done]. }
    unfold src_end. destruct (Z.ltb_spec s (Zlen str)) as [Hlt|Hge]; cbn [andb].
    + destruct (anchored pat) eqn:Eanch; cbn [negb].
      * eexists. split; [done|]. right. split; [|done]. intros s' caps e Ht. apply Hno1; [done|]. destruct Ht as [_ Ht]. specialize (Ht eq_refl). specialize (Ha eq_refl). lia.
      * apply IH; [by destruct P2|lia|lia|lia|done|done].
    + eexists. split; [done|]. right. split; [|done]. intros s' caps e Ht. apply Hno1; [done|]. destruct Ht as [[? ?] _]. lia.
  - eexists. split; [by apply (pushed_found find its ms' s caps e ml Em ltac:(lia) Ho P2)|]. left. exists s, caps, e, ml. split; [by split; [lia|]|]. split; [|done].
    intros s' caps' e' Ht Hmatch. destruct (decide (s' < s)); [|lia]. by destruct (Hno s' caps' e' Ht).
Qed.
Lemma matcher_leftmost (its : list item) (find plain : bool) (init : Z) :
  pattern (unanchored pat) = Some its -> well_formed its [] = true -> Opened ∉ final_marks its [] -> find && (plain || negb (has_specials pat)) = false ->
  exists l, str_find_aux stack junk str pat find init plain = Val l /\ leftmost its find (anchored pat) (first_pos str init) l.
Proof.
  intros E Hw Ho Hfast. unfold str_find_aux. rewrite Hfast. fold (first_pos str init). pose proof (first_pos_range str init).
  assert (at_p pat 0 = Val (hd 0 pat)) as -> by (apply at_p_here; by exists []). cbn [mbind outcome_bind].
  apply (find_loop_spec its find (first_pos str init) E Hw Ho); [done|lia|lia|unfold Zlen in *; lia|done|].
  intros s' caps e [[? ?] _] ?. lia.
Qed.
End find.

(** ** Searching for plain text *)
Section plain.
  Context (str pat : list Z).
(** The pattern as it is, at the offset [i] of the subject. *)
Definition occurs (i : Z) : Prop := exists a b, str = a ++ pat ++ b /\ Zlen a = i.
Lemma occurs_slice i : 0 <= i -> i + Zlen pat <= Zlen str -> slice str i (Zlen pat) = pat <-> occurs i.
Proof.
  intros Hi Hl. unfold slice. rewrite Zlen_to_nat. split.
  - intros E. exists (take (Z.to_nat i) str), (drop (length pat) (drop (Z.to_nat i) str)). split; [by rewrite <- E at 1; rewrite !take_drop|].
    unfold Zlen in *. rewrite length_take. lia.
  - intros (a & b & -> & <-). by rewrite Zlen_to_nat, drop_app_length, take_app_length.
Qed.
Lemma occurs_range i : occurs i -> 0 <= i /\ i + Zlen pat <= Zlen str.
Proof. intros (a & b & -> & <-). pose proof (Zlen_nonneg b). pose proof (Zlen_nonneg a). zlen. lia. Qed.
Lemma memchr_loop_spec c n : forall s, 0 <= s -> s + Z.of_nat n <= Zlen str ->
  exists r, memchr_loop str n s c = Val r /\
    match r with
    | Some i => s <= i < s + Z.of_nat n /\ char_at str i = c /\ forall j, s <= j < i -> char_at str j <> c
    | None => forall j, s <= j < s + Z.of_nat n -> char_at str j <> c
    end.
Proof.
  induction n as [|n IH]; intros s Hs Hn; cbn [memchr_loop].
  - exists None. split; [done|]. intros j Hj. lia.
  - rewrite (outcome_bind_val _ _ _ (at_s_char str s ltac:(lia))). destruct (Z.eqb_spec (char_at str s) c) as [E|Hne].
    + exists (Some s). split; [done|]. split; [lia|]. split; [done|]. intros j Hj. lia.
    + destruct (IH (s + 1) ltac:(lia) ltac:(lia)) as (r & -> & P). exists r. split; [done|]. destruct r as [i|].
      * destruct P as (Hi & Ec & P). split; [lia|]. split; [done|]. intros j Hj. destruct (decide (j = s)) as [->|]; [done|]. apply P. lia.
      * intros j Hj. destruct (decide (j = s)) as [->|]; [done|]. apply P. lia.
Qed.
(** The first byte and the others. *)
Lemma slice_split (i k : Z) : 0 <= i -> 0 <= k -> i < Zlen str -> slice str i (k + 1) = char_at str i :: slice str (i + 1) k.
Proof.
  intros Hi Hk Hl. destruct (lookup_lt_is_Some_2 str (Z.to_nat i)) as [x Ex]; [unfold Zlen in Hl; lia|].
  unfold slice. rewrite (drop_S _ _ _ Ex). replace (Z.to_nat (k + 1)) with (S (Z.to_nat k)) by lia. replace (Z.to_nat (i + 1)) with (S (Z.to_nat i)) by lia.
  cbn [take]. f_equal. symmetry. unfold char_at, cstr. apply list_lookup_total_correct. by apply lookup_app_l_Some.
Qed.
Lemma memfind_loop_spec c t fuel : pat = c :: t -> forall s1 l1, 0 <= s1 -> s1 + l1 + Zlen t = Zlen str -> l1 < Z.of_nat fuel -> 0 < Z.of_nat fuel ->
  exists r, memfind_loop str pat fuel s1 l1 (Zlen t) = Val r /\
    match r with
    | Some i => s1 <= i /\ occurs i /\ forall j, s1 <= j < i -> ~ occurs j
    | None => forall j, s1 <= j -> ~ occurs j
    end.
Proof.
  intros Ep. assert (Zlen pat = Zlen t + 1) as Elen by (rewrite Ep; zlen; lia).
  assert (forall j, occurs j -> char_at str j = c /\ slice str (j + 1) (Zlen t) = t) as Hocc.
  { intros j Hj. pose proof (occurs_range j Hj) as [? ?]. apply occurs_slice in Hj; [|done..]. pose proof (Zlen_nonneg t).
    rewrite Elen, slice_split, Ep in Hj by lia. by injection Hj. }
  induction fuel as [|fuel IH]; intros s1 l1 Hs Hl Hf Hf0; [lia|]. cbn [memfind_loop]. pose proof (Zlen_nonneg t).
  destruct (Z.leb_spec l1 0) as [Hle|Hgt].
  { exists None. split; [done|]. intros j Hj [? ?]%occurs_range. lia. }
  assert (at_p pat 0 = Val c) as -> by (unfold at_p; by rewrite Ep). cbn [mbind outcome_bind].
  destruct (memchr_loop_spec c (Z.to_nat l1) s1 Hs ltac:(lia)) as ([i|] & -> & P); cbn [mbind outcome_bind].
  2: { exists None. split; [done|]. intros j Hj Ho. pose proof (occurs_range j Ho). apply (P j); [lia|]. by apply Hocc. }
  destruct P as (Hi & Ec & P). unfold same_as_pat, cstr at 1 2. zlen. rewrite !(proj2 (Z.leb_le _ _)) by lia. cbn [andb mbind outcome_bind mret outcome_ret].
  rewrite (slice_cstr str), (slice_cstr pat) by lia.
  assert (slice pat 1 (Zlen t) = t) as -> by (rewrite Ep; unfold slice; rewrite Zlen_to_nat; cbn; by rewrite firstn_all).
  case_bool_decide as Es.
  - exists (Some i). rewrite Z.add_simpl_r. split; [done|]. split; [lia|]. split.
    + apply occurs_slice; [lia|lia|]. rewrite Elen, slice_split, Ec, Es by lia. done.
    + intros j Hj Ho. apply (P j Hj). by apply Hocc.
  - destruct (IH (i + 1) (l1 - (i + 1 - s1)) ltac:(lia) ltac:(lia) ltac:(lia) ltac:(lia)) as (r & -> & Q). exists r. split; [done|].
    assert (forall j, s1 <= j < i + 1 -> ~ occurs j) as Hno.
    { intros j Hj Ho. destruct (decide (j = i)) as [->|]; [by apply Es, Hocc|]. apply (P j); [lia|]. by apply Hocc. }
    destruct r as [i'|].
    + destruct Q as (? & ? & Q). split; [lia|]. split; [done|]. intros j Hj. destruct (decide (j < i + 1)); [apply Hno|apply Q]; lia.
    + intros j Hj. destruct (decide (j < i + 1)); [apply Hno; lia|apply Q; lia].
Qed.
(** [lmemfind] on the subject from [s1] to its end: the first occurrence. *)
Lemma lmemfind_spec s1 : 0 <= s1 <= Zlen str -> exists r, lmemfind str pat s1 (Zlen str - s1) = Val r /\
  match r with
  | Some i => s1 <= i /\ occurs i /\ forall j, s1 <= j < i -> ~ occurs j
  | None => forall j, s1 <= j -> ~ occurs j
  end.
Proof.
  intros Hs. unfold lmemfind. destruct (Z.eqb_spec (Zlen pat) 0) as [E|Hne].
  { exists (Some s1). split; [done|]. split; [lia|]. split; [|lia]. apply occurs_slice; [lia..|].
    assert (pat = []) as -> by (destruct pat; [done|unfold Zlen in E; cbn in E; lia]). done. }
  destruct (Z.ltb_spec (Zlen str - s1) (Zlen pat)).
  { exists None. split; [done|]. intros j Hj [? ?]%occurs_range. lia. }
  assert (exists c t, pat = c :: t) as (c & t & Ep) by (destruct pat as [|c t]; [done|by exists c, t]).
  assert (Zlen pat = Zlen t + 1) as Elen by (rewrite Ep; zlen; lia). pose proof (Zlen_nonneg t).
  rewrite Elen, Z.add_simpl_r. apply (memfind_loop_spec c t); [done|lia..].
Qed.
End plain.

(** ** The fast path
    A pattern without special characters is searched for as plain text. *)
Section fast_path.
  Context (str pat : list Z).
Definition literal (x : Z) : item := Single (fun c => if x =? 46 then true else x =? c).
Lemma has_specials_cons x q : x <> 0 -> has_specials (x :: q) = false -> x ∉ SPECIALS /\ has_specials q = false.
Proof. intros Hx. cbn [has_specials]. rewrite (proj2 (Z.eqb_neq _ _) Hx), orb_false_iff, bool_decide_eq_false. done. Qed.
(** The goal is that a number is among the special characters. *)
Ltac special := apply (bool_decide_unpack _); by vm_compute.
Lemma parse_literals q : forall n its, has_specials q = false -> Forall (fun x => x <> 0) q -> parse n q = Some its -> well_formed its [] = true -> its = map literal q.
Proof.
  induction q as [|x q IH]; intros [|n] its Hs Hz E Hw; try done; cbn [parse hd tail] in E; [by injection E as <-|].
  apply Forall_cons in Hz as [Hx Hz]. destruct (has_specials_cons _ _ Hx Hs) as [Hn Hs']. unfold SPECIALS in Hn.
  assert (forall y, y ∈ SPECIALS -> (x =? y) = false) as Hne by (intros y Hy; apply Z.eqb_neq; by intros ->).
  rewrite (Hne 40), (Hne L_ESC), (Hne 36), (proj2 (Z.eqb_neq _ _) Hx) in E by special. cbn [andb] in E.
  destruct (x =? 41) eqn:E41.
  { apply then_items_Some in E as (its' & _ & ->). done. }
  unfold parse_item, single in E. cbn [hd tail] in E. rewrite (Hne L_ESC), (Hne 91) in E by special.
  assert (forall y, y ∈ SPECIALS -> (hd 0 q =? y) = false) as Hne'.
  { intros y Hy. apply Z.eqb_neq. intros Eh. destruct q as [|z q]; cbn in Eh; [subst y; by revert Hy; apply (bool_decide_unpack (¬ _)); vm_compute|].
    apply Forall_cons in Hz as [Hz0 _]. destruct (has_specials_cons _ _ Hz0 Hs') as [Hn' _]. by subst. }
  rewrite (Hne' 63), (Hne' 42), (Hne' 43), (Hne' 45) in E by special.
  apply then_items_Some in E as (its' & E & ->). cbn [map]. f_equal. by apply (IH n).
Qed.
Lemma Match_literals q : Forall (fun x => x <> 46) q -> forall caps s caps' e, 0 <= s <= Zlen str ->
  Match str (map literal q) caps s caps' e <-> caps' = caps /\ e = s + Zlen q /\ s + Zlen q <= Zlen str /\ slice str s (Zlen q) = q.
Proof.
  induction 1 as [|x q Hx Hq IH]; intros caps s caps' e Hs; cbn [map].
  { split; [inversion 1; subst; zlen; rewrite Z.add_0_r; repeat split; lia || done|]. intros (-> & -> & _). zlen. rewrite Z.add_0_r. constructor. }
  pose proof (Zlen_nonneg q). assert (Zlen (x :: q) = Zlen q + 1) as El by (zlen; lia). rewrite El.
  assert (s < Zlen str -> accepts str (fun c => if x =? 46 then true else x =? c) s = true <-> x = char_at str s) as Ha.
  { intros Hlt. unfold accepts. rewrite (proj2 (Z.ltb_lt _ _) Hlt), (proj2 (Z.eqb_neq _ _) Hx). cbn [andb]. apply Z.eqb_eq. }
  split.
  - unfold literal at 1. inversion 1 as [|? ? ? ? ? ? Hacc Hm| | | | | | | | | | | |]; subst. pose proof (accepts_lt _ _ _ Hacc) as Hlt. apply IH in Hm as (-> & -> & Hl & Es); [|lia].
    split; [done|]. split; [lia|]. split; [lia|]. rewrite slice_split, Es by lia. f_equal. symmetry. by apply Ha.
  - intros (-> & -> & Hl & Es). rewrite slice_split in Es by lia. injection Es as Ec Es. apply Match_Single; [by apply Ha; [lia|]|].
    apply IH; [lia|]. repeat split; lia || done.
Qed.
Lemma unspecial_first q : has_specials q = false -> Forall (fun x => x <> 0) q -> hd 0 q ∉ SPECIALS.
Proof.
  intros Hs Hz. destruct q as [|x q]; [apply (bool_decide_unpack (¬ _)); by vm_compute|]. apply Forall_cons in Hz as [Hx _]. by apply has_specials_cons in Hs as [Hn _].
Qed.
Lemma unspecial_dot q : has_specials q = false -> Forall (fun x => x <> 0) q -> Forall (fun x => x <> 46) q.
Proof.
  intros Hs Hz. induction Hz as [|x q Hx Hz IH]; [constructor|]. apply has_specials_cons in Hs as [Hn Hs]; [|done]. constructor; [|by apply IH].
  intros ->. apply Hn. special.
Qed.
(** Plain text is found where the matcher finds it. *)
Lemma plain_leftmost its from r : pattern (unanchored pat) = Some its -> well_formed its [] = true -> has_specials pat = false -> Forall (fun x => x <> 0) pat ->
  0 <= from <= Zlen str ->
  match r with
  | Some i => from <= i /\ occurs str pat i /\ forall j, from <= j < i -> ~ occurs str pat j
  | None => forall j, from <= j -> ~ occurs str pat j
  end ->
  leftmost str its true (anchored pat) from match r with Some i => [VInteger (i + 1); VInteger (i + Zlen pat)] | None => [VNil] end.
Proof.
  intros E Hw Hs Hz Hf P. assert (anchored pat = false) as Ea.
  { unfold anchored. apply Z.eqb_neq. intros E94. apply (unspecial_first pat Hs Hz). rewrite E94. special. }
  unfold unanchored in E. rewrite Ea in *. rewrite (parse_literals pat _ its Hs Hz E Hw). pose proof (unspecial_dot pat Hs Hz) as Hd.
  assert (forall s caps e, tried str false from s -> Match str (map literal pat) [] s caps e <-> caps = [] /\ e = s + Zlen pat /\ occurs str pat s) as Hm.
  { intros s caps e [Ht _]. rewrite (Match_literals _ Hd) by lia. split.
    - intros (-> & -> & Hl & Es). by rewrite <- occurs_slice by lia.
    - intros (-> & -> & Ho). pose proof (occurs_range _ _ _ Ho) as [_ Hl]. by rewrite occurs_slice by lia. }
  destruct r as [i|].
  - destruct P as (Hi & Ho & Hno). left. pose proof (occurs_range _ _ _ Ho) as [_ Hl]. pose proof (Zlen_nonneg pat).
    assert (tried str false from i) as Ht by (split; [lia|done]).
    destruct (matches str (map literal pat) [] i) as [|[caps e] ml] eqn:Em.
    { exfalso. eapply (no_match str _ i ltac:(lia) Em [] (i + Zlen pat)). by apply Hm. }
    pose proof (matches_Match str (map literal pat) [] i caps e ml ltac:(lia) Em) as HM. apply (Hm i caps e Ht) in HM as (-> & -> & _).
    exists i, [], (i + Zlen pat), ml. split; [done|]. split; [|split; done].
    intros j caps e Htj Hj. apply (Hm j caps e Htj) in Hj as (_ & _ & Hoj). destruct (decide (i <= j)); [done|]. destruct (Hno j); [destruct Htj; lia|done].
  - right. split; [|done]. intros s caps e Ht HM. apply (Hm s caps e Ht) in HM as (_ & _ & Ho). destruct Ht as [Ht _]. by apply (P s); [lia|].
Qed.
(** C17: [string.find] and [string.match] with a pattern that is well formed
    and closes its captures terminate without an error: they give the
    leftmost match from the start on (only at the start when the pattern is
    anchored), there the one the matcher prefers, as its bounds and captures
    or as the captured text, and nil exactly when nothing matches. The fast
    path of [string.find] for patterns without special characters gives the
    same. *)
Theorem find_leftmost (short : Zlen str < 2147483648) (stack : Z) (enough : 10 <= stack) (junk : list (Z * Z)) (ten : length junk = 10%nat)
  (its : list item) (find : bool) (init : Z) :
  Forall (fun x => x <> 0) pat -> pattern (unanchored pat) = Some its -> well_formed its [] = true -> Opened ∉ final_marks its [] ->
  exists l, str_find_aux stack junk str pat find init false = Val l /\ leftmost str its find (anchored pat) (first_pos str init) l.
Proof.
  intros Hz E Hw Ho. destruct (find && negb (has_specials pat)) eqn:Ef; [|by apply matcher_leftmost].
  unfold str_find_aux. cbn [orb]. rewrite Ef. apply andb_true_iff in Ef as [-> Hs]. apply negb_true_iff in Hs.
  fold (first_pos str init). pose proof (first_pos_range str init) as Hf.
  destruct (lmemfind_spec str pat (first_pos str init) Hf) as (r & -> & P). cbn [mbind outcome_bind].
  exists match r with Some i => [VInteger (i + 1); VInteger (i + Zlen pat)] | None => [VNil] end. split; [by destruct r|].
  exact (plain_leftmost its _ r E Hw Hs Hz Hf P).
Qed.
(** [string.find] for plain text gives the first occurrence from the start
    on, whatever bytes it contains, and nil when there is none. *)
Theorem find_plain_first (stack : Z) (junk : list (Z * Z)) (init : Z) :
  exists r, str_find_aux stack junk str pat true init true = Val match r with Some i => [VInteger (i + 1); VInteger (i + Zlen pat)] | None => [VNil] end /\
    match r with
    | Some i => first_pos str init <= i /\ occurs str pat i /\ forall j, first_pos str init <= j < i -> ~ occurs str pat j
    | None => forall j, first_pos str init <= j -> ~ occurs str pat j
    end.
Proof.
  destruct (lmemfind_spec str pat (first_pos str init) (first_pos_range str init)) as (r & E & P). exists r. split; [|done].
  unfold str_find_aux. cbn [andb orb]. fold (first_pos str init). rewrite E. by destruct r.
Qed.
End fast_path.
Lemma find_leftmost_witness : exists l, str_find_aux 100 (replicate 10 (0, 0)) [97; 98; 98; 99] [40; 98; 43; 41; 46] true 1 false = Val l /\
  leftmost [97; 98; 98; 99] (default [] (pattern [40; 98; 43; 41; 46])) true false 0 l.
Proof.
  apply (find_leftmost [97; 98; 98; 99] [40; 98; 43; 41; 46]); try reflexivity; try discriminate.
  - repeat constructor; discriminate.
  - apply (bool_decide_unpack (¬ _)). by vm_compute.
Defined.
