(* ===== verification/LuaSafe.v ===== *)
(** The string library of LuaStr.v is safe: with any pattern, well formed or
    not, and any subject, its functions terminate, do not read or write
    outside their strings and captures, and end with a value or an error. *)
From S2P Require Import Prelude LuaStr LuaPattern LuaMatch LuaFind.

(** ** Outcomes without a fault *)
Definition wp {A} (o : outcome A) (Q : A -> Prop) : Prop :=
  match o with Val a => Q a | Raise _ => True | Fault _ => False end.
Lemma wp_bind {A B} (m : outcome A) (k : A -> outcome B) Q : wp m (fun a => wp (k a) Q) -> wp (x ← m; k x) Q.
Proof. by destruct m. Qed.
Lemma wp_mono {A} (m : outcome A) (P Q : A -> Prop) : wp m P -> (forall a, P a -> Q a) -> wp m Q.
Proof. destruct m; cbn; auto. Qed.
Lemma wp_if {A} (b : bool) (m k : outcome A) Q : (b = true -> wp m Q) -> (b = false -> wp k Q) -> wp (if b then m else k) Q.
Proof. destruct b; auto. Qed.

Section safe.
  Context (str pat : list Z) (short : Zlen str < 2147483648).

(** ** The pattern *)
Lemma wp_byte l i Q : 0 <= i <= Zlen l -> (forall c, (c <> 0 -> i < Zlen l) -> Q c) -> wp (of_res (bget (cstr l) i)) Q.
Proof.
  intros Hi HQ. destruct (bget_in (cstr l) i) as [c E]; [unfold cstr; zlen; lia|]. rewrite E. cbn. apply HQ. intros Hc.
  destruct (decide (i = Zlen l)) as [->|]; [|lia]. unfold cstr in E. rewrite bget_middle in E. congruence.
Qed.
Lemma wp_at_p p Q : 0 <= p <= Zlen pat -> (forall c, (c <> 0 -> p < Zlen pat) -> Q c) -> wp (at_p pat p) Q.
Proof. apply wp_byte. Qed.
Lemma wp_at_s s Q : 0 <= s <= Zlen str -> (forall c, Q c) -> wp (at_s str s) Q.
Proof. intros Hs HQ. apply wp_byte; [done|]. auto. Qed.
(** Reads a byte of the pattern or of the subject. *)
Ltac byte := apply wp_bind; first [apply wp_at_p | apply wp_at_s]; [lia|intros].
Ltac case_b H := match goal with |- wp (if ?b then _ else _) _ => destruct b eqn:H end; rewrite ?andb_true_iff, ?Z.eqb_eq, ?Z.eqb_neq, ?negb_true_iff, ?negb_false_iff, ?Z.ltb_lt, ?Z.ltb_ge in H.

Lemma wp_class_loop fuel : forall p, 0 <= p <= Zlen pat -> Zlen pat - p < Z.of_nat fuel -> wp (class_loop pat fuel p) (fun ep => p < ep <= Zlen pat).
Proof.
  induction fuel as [|fuel IH]; intros p Hp Hf; [lia|]. cbn [class_loop]. byte. case_b E1; [done|]. byte.
  set (p' := if _ : bool then _ else _). assert (p + 1 <= p' <= Zlen pat) as Hp'.
  { unfold p'. destruct ((c =? L_ESC) && negb (c0 =? 0)) eqn:E; [|lia]. apply andb_true_iff in E as [_ E]. apply negb_true_iff, Z.eqb_neq in E. lia. }
  byte. case_b E2; [cbn; lia|]. eapply wp_mono; [apply IH; lia|]. cbn. intros. lia.
Qed.
Lemma wp_classend p : 0 <= p < Zlen pat -> wp (classend pat p) (fun ep => p < ep <= Zlen pat).
Proof.
  intros Hp. unfold classend. byte. case_b E1; [byte; case_b E2; [done|cbn; lia]|]. case_b E2; [|cbn; lia]. byte.
  assert (c0 = 94 -> p + 1 < Zlen pat) by (intros ->; lia).
  eapply wp_mono; [apply wp_class_loop; unfold Zlen in *; destruct (Z.eqb_spec c0 94); lia|]. cbn. intros ep. destruct (c0 =? 94); lia.
Qed.
Lemma wp_bracket_loop c ec sig fuel : forall p, 0 <= p -> ec < Zlen pat -> ec - p < Z.of_nat fuel -> 0 < Z.of_nat fuel -> wp (bracket_loop pat fuel c p ec sig) (fun _ => True).
Proof.
  induction fuel as [|fuel IH]; intros p Hp He Hf Hf0; [lia|]. cbn [bracket_loop]. case_b E1; [done|]. byte. case_b E2.
  - byte. case_b E3; [done|]. apply IH; lia.
  - byte. case_b E3.
    + destruct E3 as [_ E3]. byte. byte. case_b E4; [done|]. apply IH; lia.
    + case_b E4; [done|]. apply IH; lia.
Qed.
Lemma wp_matchbracketclass c p ec : 0 <= p < Zlen pat -> ec < Zlen pat -> wp (matchbracketclass pat c p ec) (fun _ => True).
Proof. intros Hp He. unfold matchbracketclass. byte. case_b E1; apply wp_bracket_loop; unfold Zlen in *; lia. Qed.
Lemma wp_singlematch c p ep : 0 <= p < Zlen pat -> ep <= Zlen pat -> wp (singlematch pat c p ep) (fun _ => True).
Proof.
  intros Hp He. unfold singlematch. byte. case_b E1; [done|]. case_b E2; [byte; done|]. case_b E3; [|done]. apply wp_matchbracketclass; lia.
Qed.
(** An item accepts no character behind the end. *)
Lemma wp_item_at s p ep : 0 <= s -> 0 <= p < Zlen pat -> ep <= Zlen pat -> wp (item_at str pat s p ep) (fun b => b = true -> s < Zlen str).
Proof.
  intros Hs Hp He. unfold item_at, src_end. case_b E1; [|done]. byte. eapply wp_mono; [by apply wp_singlematch|]. cbn. intros. lia.
Qed.
Lemma wp_balance_loop b e fuel : forall s cont, 0 <= s + 1 -> Zlen str - (s + 1) < Z.of_nat fuel ->
  0 < Z.of_nat fuel -> wp (balance_loop str fuel s b e cont) (fun r => match r with Some s' => s < s' <= Zlen str | None => True end).
Proof.
  induction fuel as [|fuel IH]; intros s cont Hs Hf Hf0; [lia|]. cbn [balance_loop]. unfold src_end. case_b E1; [done|]. byte.
  case_b E2; [case_b E3; [cbn; lia|]|]; (eapply wp_mono; [apply IH; lia|]; intros [s'|]; lia || done).
Qed.
Lemma wp_matchbalance s p : 0 <= s <= Zlen str -> 0 <= p <= Zlen pat ->
  wp (matchbalance str pat s p) (fun r => match r with Some s' => s < s' <= Zlen str /\ p + 2 <= Zlen pat | None => True end).
Proof.
  intros Hs Hp. unfold matchbalance. byte. case_b E1; [done|]. byte. case_b E2; [done|]. byte. case_b E3; [done|].
  eapply wp_mono; [apply wp_balance_loop; unfold Zlen in *; lia|]. intros [s'|]; cbn; lia || done.
Qed.

(** ** The captures *)
(** What every call of the matcher from [s] on leaves: the captures it was
    given when it fails, and captures inside the subject when it succeeds. *)
Definition kept (caps : list (Z * Z)) (s : Z) (r : MatchState * option Z) : Prop :=
  match r.2 with
  | None => rep r.1 caps
  | Some e => s <= e <= Zlen str /\ exists caps', rep r.1 caps' /\ valid caps' e
  end.
Definition keeps (rec : MatchState -> Z -> Z -> outcome (MatchState * option Z)) (p : Z) : Prop :=
  forall caps ms s, rep ms caps -> valid caps s -> 0 <= s <= Zlen str -> wp (rec ms s p) (kept caps s).
Lemma kept_le caps s s' r : s' <= s -> kept caps s r -> kept caps s' r.
Proof. unfold kept. destruct (r.2); [|done]. intros Hs [He H]. split; [lia|done]. Qed.
Lemma keeps_le rec p caps ms s s' : keeps rec p -> rep ms caps -> valid caps s' -> 0 <= s' <= s -> s <= Zlen str -> wp (rec ms s p) (kept caps s').
Proof. intros H Hr Hv Hs He. eapply wp_mono; [apply H; [done|by eapply valid_le; [|apply Hs]|lia]|]. intros r. apply kept_le. lia. Qed.
(** Another attempt after a failed one. *)
Lemma wp_retry (o : outcome (MatchState * option Z)) k caps s : wp o (kept caps s) -> (forall ms, rep ms caps -> wp (k ms) (kept caps s)) ->
  wp ('(ms, res) ← o; match res with Some e => mret (ms, Some e) | None => k ms end) (kept caps s).
Proof. intros Ho Hk. apply wp_bind. eapply wp_mono; [exact Ho|]. intros [ms [e|]] H; [exact H|by apply Hk]. Qed.
Lemma rep_in ms caps l : rep ms caps -> 0 <= l < Zlen caps -> exists c1 c c2, caps = c1 ++ c :: c2 /\ Zlen c1 = l /\ cap ms l = Val c.
Proof.
  intros Hr Hl. destruct (lookup_lt_is_Some_2 caps (Z.to_nat l)) as [c Ec]; [unfold Zlen in Hl; lia|].
  apply list_elem_of_split_length in Ec as (c1 & c2 & -> & Ec). exists c1, c, c2. assert (Zlen c1 = l) as <- by (unfold Zlen; lia).
  split; [done|]. split; [done|]. by apply (rep_cap _ _ _ _ Hr).
Qed.
Lemma valid_in c1 c c2 s : valid (c1 ++ c :: c2) s -> 0 <= c.1 <= s /\ (c.2 = CAP_UNFINISHED \/ c.2 = CAP_POSITION \/ 0 <= c.2 /\ c.1 + c.2 <= s).
Proof. by intros [_ [H _]%Forall_cons]%Forall_app. Qed.
Lemma valid_put c1 c c2 d s : valid (c1 ++ c :: c2) s -> 0 <= d.1 <= s /\ (d.2 = CAP_UNFINISHED \/ d.2 = CAP_POSITION \/ 0 <= d.2 /\ d.1 + d.2 <= s) ->
  valid (c1 ++ d :: c2) s.
Proof. intros [H1 [_ H2]%Forall_cons]%Forall_app Hd. apply Forall_app. split; [done|]. by apply Forall_cons. Qed.
Lemma wp_match_capture ms caps s d : rep ms caps -> valid caps s -> 0 <= s <= Zlen str ->
  wp (match_capture str ms s d) (fun r => match r with Some s' => s <= s' <= Zlen str | None => True end).
Proof.
  intros Hr Hv Hs. unfold match_capture, check_capture. pose proof Hr as (_ & El & _). rewrite El.
  destruct (_ || _) eqn:E1; [done|]. apply orb_false_iff in E1 as [E1 E2]. apply Z.ltb_ge in E1. apply Z.leb_gt in E2.
  destruct (rep_in _ _ _ Hr (conj E1 E2)) as (c1 & [i n] & c2 & -> & _ & Ec). rewrite Ec. cbn [mbind outcome_bind]. cbn [snd].
  destruct (n =? CAP_UNFINISHED) eqn:En; [done|]. apply Z.eqb_neq in En. cbn [mbind outcome_bind mret outcome_ret]. rewrite Ec. cbn [mbind outcome_bind fst snd].
  destruct (valid_in _ _ _ _ Hv) as [Hi Hn]. cbn in Hi, Hn. unfold src_end. destruct (Z.leb_spec (u32 n) (Zlen str - s)) as [Hl|]; [|done].
  destruct Hn as [Hn|[->|[Hn Hn']]]; [done|by change (u32 CAP_POSITION) with 4294967294 in Hl; lia|].
  rewrite wrap_small in * by (pow2_norm; lia). unfold same_bytes, cstr at 1 2. zlen. rewrite !(proj2 (Z.leb_le _ _)) by lia. cbn [andb mbind outcome_bind mret outcome_ret].
  destruct (bool_decide _); cbn; [lia|done].
Qed.
Lemma wp_close_loop ms caps n : rep ms caps -> Z.of_nat n <= Zlen caps ->
  wp (close_loop ms n) (fun l => 0 <= l < Zlen caps /\ exists i, cap ms l = Val (i, CAP_UNFINISHED)).
Proof.
  intros Hr. induction n as [|n IH]; intros Hn; cbn [close_loop]; [done|].
  destruct (rep_in _ _ (Z.of_nat n) Hr ltac:(lia)) as (c1 & [i m] & c2 & _ & _ & Ec). rewrite Ec. cbn [mbind outcome_bind snd].
  destruct (Z.eqb_spec m CAP_UNFINISHED) as [->|]; [|apply IH; lia]. cbn. split; [lia|]. by exists i.
Qed.

(** ** The matcher *)
Section recursive.
  Context (rec : MatchState -> Z -> Z -> outcome (MatchState * option Z)).
Lemma wp_count_loop s p ep fuel : forall i, 0 <= s -> 0 <= i -> s + i <= Zlen str -> 0 <= p < Zlen pat -> ep <= Zlen pat -> Zlen str - (s + i) < Z.of_nat fuel ->
  wp (count_loop str pat fuel s p ep i) (fun i => 0 <= i /\ s + i <= Zlen str).
Proof.
  induction fuel as [|fuel IH]; intros i Hs Hi He Hp Hep Hf; [lia|]. cbn [count_loop]. apply wp_bind.
  eapply wp_mono; [by apply wp_item_at; [lia|..]|]. intros [] Hb; [specialize (Hb eq_refl); apply IH; lia|]. cbn. lia.
Qed.
Lemma wp_try_loop caps s ep n : forall ms, keeps rec (ep + 1) -> rep ms caps -> valid caps s -> 0 <= s -> s + Z.of_nat n <= Zlen str + 1 ->
  wp (try_loop rec ms n s ep) (kept caps s).
Proof.
  induction n as [|n IH]; intros ms Hk Hr Hv Hs Hn; cbn [try_loop]; [done|]. apply wp_retry.
  - apply keeps_le; done || lia.
  - intros ms' Hr'. apply IH; done || lia.
Qed.
Lemma wp_max_expand caps ms s s0 p ep : keeps rec (ep + 1) -> rep ms caps -> valid caps s0 -> 0 <= s0 <= s -> s <= Zlen str -> 0 <= p < Zlen pat -> ep <= Zlen pat ->
  wp (max_expand str pat rec ms s p ep) (kept caps s0).
Proof.
  intros Hk Hr Hv Hs He Hp Hep. unfold max_expand. apply wp_bind. eapply wp_mono; [apply wp_count_loop; unfold Zlen in *; lia|]. cbn. intros i [Hi1 Hi2].
  eapply wp_mono; [apply (wp_try_loop caps); [done|done|by eapply valid_le; [|apply Hs]|lia|lia]|]. intros r. apply kept_le. lia.
Qed.
Lemma wp_min_loop caps p ep s0 fuel : forall ms s, keeps rec (ep + 1) -> rep ms caps -> valid caps s0 -> 0 <= s0 <= s -> s <= Zlen str -> 0 <= p < Zlen pat -> ep <= Zlen pat ->
  Zlen str - s < Z.of_nat fuel -> wp (min_loop str pat rec fuel ms s p ep) (kept caps s0).
Proof.
  induction fuel as [|fuel IH]; intros ms s Hk Hr Hv Hs He Hp Hep Hf; [lia|]. cbn [min_loop]. apply wp_retry; [apply keeps_le; done || lia|].
  intros ms' Hr'. apply wp_bind. eapply wp_mono; [by apply wp_item_at; [lia|..]|]. intros [] Hb; [specialize (Hb eq_refl); apply IH; done || lia|done].
Qed.
Lemma wp_start_capture caps ms s p what : keeps rec p -> rep ms caps -> valid caps s -> 0 <= s <= Zlen str -> what = CAP_UNFINISHED \/ what = CAP_POSITION ->
  wp (start_capture rec ms s p what) (kept caps s).
Proof.
  intros Hk Hr Hv Hs Hw. unfold start_capture. pose proof Hr as (_ & El & _). rewrite El. destruct (Z.leb_spec LUA_MAXCAPTURES (Zlen caps)) as [|Hl]; [done|].
  rewrite <- El. destruct (rep_push _ _ (s, what) Hr Hl) as (ms1 & -> & Hr1). cbn [mbind outcome_bind]. apply wp_bind.
  eapply wp_mono; [apply (Hk _ _ _ Hr1); [|done]|].
  - apply Forall_app. split; [done|]. apply Forall_singleton. cbn. split; [lia|tauto].
  - intros [ms2 [e|]]; [done|]. unfold kept. cbn. apply rep_pop.
Qed.
Lemma wp_end_capture caps ms s p : keeps rec p -> rep ms caps -> valid caps s -> 0 <= s <= Zlen str -> wp (end_capture rec ms s p) (kept caps s).
Proof.
  intros Hk Hr Hv Hs. unfold end_capture, capture_to_close. pose proof Hr as (_ & El & _). apply wp_bind. rewrite El.
  eapply wp_mono; [apply (wp_close_loop _ _ _ Hr); pose proof (Zlen_nonneg caps); lia|]. cbn. intros l [Hl [i0 Ei]].
  destruct (rep_in _ _ _ Hr Hl) as (c1 & [i n] & c2 & -> & <- & Ec). rewrite Ec in Ei. injection Ei as <- ->. rewrite Ec. cbn [mbind outcome_bind fst].
  destruct (valid_in _ _ _ _ Hv) as [Hi _]. cbn in Hi. destruct (rep_put _ _ _ (i, s - i) _ Hr) as (ms1 & -> & Hr1). cbn [mbind outcome_bind]. apply wp_bind.
  eapply wp_mono; [apply (Hk _ _ _ Hr1); [|done]|].
  - eapply valid_put; [done|]. cbn. split; [lia|]. right. right. lia.
  - intros [ms2 [e|]]; [done|]. unfold kept at 1. cbn [fst snd]. intros Hr2. rewrite (rep_cap _ _ _ _ Hr2). cbn [mbind outcome_bind fst].
    destruct (rep_put _ _ _ (i, CAP_UNFINISHED) _ Hr2) as (ms3 & -> & Hr3). done.
Qed.
Section body.
  Context (caps : list (Z * Z)) (ms : MatchState) (s p : Z) (Hr : rep ms caps) (Hv : valid caps s) (Hs : 0 <= s <= Zlen str)
    (Hp : 0 <= p <= Zlen pat) (Hk : forall p', p < p' <= Zlen pat -> keeps rec p').
Lemma wp_go s' p' : s <= s' <= Zlen str -> p < p' <= Zlen pat -> wp (rec ms s' p') (kept caps s).
Proof. intros Hs' Hp'. by apply keeps_le; [by apply Hk|done|done|lia|lia]. Qed.
Lemma wp_match_item : p < Zlen pat -> wp (match_item str pat rec ms s p) (kept caps s).
Proof.
  intros Hp0. unfold match_item. apply wp_bind. eapply wp_mono; [apply wp_classend; lia|]. cbn. intros ep Hep.
  apply wp_bind. eapply wp_mono; [apply wp_item_at; lia|]. cbn. intros m Hm. byte.
  assert (forall x, c = x -> x <> 0 -> p < ep + 1 <= Zlen pat) as Hc by (intros x -> Hx; lia).
  case_b E1; [|case_b E2; [|case_b E3; [|case_b E4]]]; try specialize (Hc _ ltac:(eassumption) ltac:(done)).
  - destruct m; [specialize (Hm eq_refl)|apply wp_go; lia]. apply wp_retry; [apply wp_go; lia|]. intros ms' Hr'. apply keeps_le; [by apply Hk|done|done|lia|lia].
  - apply wp_max_expand; [by apply Hk|done|done|lia..].
  - destruct m; [specialize (Hm eq_refl)|done]. apply wp_max_expand; [by apply Hk|done|done|lia..].
  - apply (wp_min_loop caps p ep s (S (length str)) ms s); [by apply Hk|done|done|unfold Zlen in *; lia..].
  - destruct m; [specialize (Hm eq_refl); apply wp_go; lia|done].
Qed.
Lemma wp_match_frontier p' : p <= p' <= Zlen pat -> wp (match_frontier str pat rec ms s p') (kept caps s).
Proof.
  intros Hp'. unfold match_frontier. byte. case_b E1; [done|]. apply wp_bind. eapply wp_mono; [apply wp_classend; lia|]. cbn. intros ep Hep.
  apply wp_bind. assert (wp (if s =? 0 then mret 0 else at_s str (s - 1)) (fun _ => True)) as Hprev.
  { case_b E0; [done|]. apply wp_at_s; [lia|done]. }
  eapply wp_mono; [exact Hprev|]. intros prev _. apply wp_bind. eapply wp_mono; [apply wp_matchbracketclass; lia|]. intros [] _; [done|]. byte.
  apply wp_bind. eapply wp_mono; [apply wp_matchbracketclass; lia|]. intros [] _; [apply wp_go; lia|done].
Qed.
Lemma wp_match_body : wp (match_body str pat rec ms s p) (kept caps s).
Proof.
  unfold match_body. byte. case_b E1.
  { byte. case_b E2; (apply wp_start_capture; [apply Hk; lia|done..|]); [by right|by left]. }
  case_b E2; [apply wp_end_capture; [apply Hk; lia|done..]|]. case_b E3.
  { unfold L_ESC in E3. byte. case_b E4; [|case_b E5; [apply wp_match_frontier; lia|]].
    - apply wp_bind. eapply wp_mono; [apply wp_matchbalance; lia|]. intros [s'|]; [|done]. intros [? ?]. apply wp_go; lia.
    - case_b E6; [|apply wp_match_item; lia]. assert (c0 <> 0) by (by intros ->). apply wp_bind. eapply wp_mono; [by apply (wp_match_capture _ caps)|].
      intros [s'|] ?; [apply wp_go; lia|done]. }
  case_b E4; [cbn; split; [lia|by exists caps]|]. case_b E5; [|apply wp_match_item; lia].
  byte. case_b E6; [|apply wp_match_item; lia]. unfold src_end. destruct (s =? Zlen str); [|done]. cbn. split; [lia|by exists caps].
Qed.
End body.
End recursive.
Lemma do_match_keeps fuel : forall p, 0 <= p <= Zlen pat -> Zlen pat - p < Z.of_nat fuel -> keeps (do_match str pat fuel) p.
Proof.
  induction fuel as [|fuel IH]; intros p Hp Hf caps ms s Hr Hv Hs; [lia|]. cbn [do_match]. apply wp_match_body; [done..|]. intros p' Hp'. apply IH; lia.
Qed.
(** A call of the matcher as the library functions make it. *)
Lemma wp_run_match ms s p : length (capture ms) = 10%nat -> 0 <= s <= Zlen str -> 0 <= p <= Zlen pat -> wp (run_match str pat (set_level 0 ms) s p) (kept [] s).
Proof. intros Hm Hs Hp. apply do_match_keeps; [done|unfold Zlen in *; lia|by split|constructor|done]. Qed.

(** ** The library functions *)
Lemma wp_pushlstring l o n Q : 0 <= o -> 0 <= n -> o + n <= Zlen l -> (forall x, Q x) -> wp (pushlstring (cstr l) o n) Q.
Proof. intros Ho Hn Hl HQ. unfold pushlstring, cstr. zlen. rewrite !(proj2 (Z.leb_le _ _)) by lia. cbn [andb wp]. apply HQ. Qed.
(** The whole match a capture function is given: none, or inside the subject. *)
Definition whole (caps : list (Z * Z)) (i : Z) (s : option Z) (e : Z) : Prop :=
  match s with Some s => 0 <= s <= e /\ e <= Zlen str | None => caps = [] -> i <> 0 end.
Lemma wp_push_onecapture ms caps e0 i s e : rep ms caps -> valid caps e0 -> e0 <= Zlen str -> 0 <= i -> whole caps i s e ->
  wp (push_onecapture str ms i s e) (fun _ => True).
Proof.
  intros Hr Hv He Hi Hw. unfold push_onecapture. pose proof Hr as (_ & El & _). rewrite El. destruct (Z.leb_spec (Zlen caps) i) as [Hl|Hl].
  - case_b E1; [|done]. destruct s as [s|]; cbn in Hw.
    + apply wp_bind. apply wp_pushlstring; done || lia.
    + exfalso. subst i. destruct caps; [by apply Hw|]. revert Hl. zlen. pose proof (Zlen_nonneg caps). lia.
  - destruct (rep_in _ _ _ Hr (conj Hi Hl)) as (c1 & c & c2 & -> & _ & Ec). rewrite Ec. cbn [mbind outcome_bind].
    destruct (valid_in _ _ _ _ Hv) as [Hc Hc2]. case_b E1; [done|]. case_b E2; [done|]. apply wp_bind. apply wp_pushlstring; done || lia.
Qed.
Lemma wp_captures_loop ms caps e0 s e n : forall i, rep ms caps -> valid caps e0 -> e0 <= Zlen str -> 0 <= i ->
  (forall j, 0 <= j < i + Z.of_nat n -> whole caps j s e) -> wp (captures_loop str ms n i s e) (fun _ => True).
Proof.
  induction n as [|n IH]; intros i Hr Hv He Hi Hw; cbn [captures_loop]; [done|]. apply wp_bind.
  eapply wp_mono; [eapply wp_push_onecapture; [done..|apply Hw; lia]|]. intros v _. apply wp_bind.
  eapply wp_mono; [apply IH; [done..|lia|]|done]. intros j Hj. apply Hw. lia.
Qed.
Lemma wp_push_captures stack ms caps e0 s e : rep ms caps -> valid caps e0 -> e0 <= Zlen str ->
  match s with Some s => 0 <= s <= e /\ e <= Zlen str | None => True end -> wp (push_captures stack str ms s e) (fun _ => True).
Proof.
  intros Hr Hv He Hw. unfold push_captures. pose proof Hr as (_ & El & _). rewrite El. cbv zeta. destruct (_ && _) eqn:E0.
  - case_b E1; [done|]. eapply wp_captures_loop; [done..|]. intros j Hj. apply andb_true_iff in E0 as [_ E0]. apply bool_decide_eq_true in E0 as [x ->]. done.
  - case_b E1; [done|]. eapply wp_captures_loop; [done..|]. intros j Hj. destruct s as [s|]; [done|]. intros ->. unfold Zlen in Hj. cbn in Hj. lia.
Qed.
Section library.
  Context (stack : Z) (junk : list (Z * Z)) (ten : length junk = 10%nat).
Lemma wp_find_loop find anchor p fuel : forall ms s, length (capture ms) = 10%nat -> 0 <= s <= Zlen str -> 0 <= p <= Zlen pat -> Zlen str - s < Z.of_nat fuel ->
  wp (find_loop stack str pat fuel find anchor ms s p) (fun _ => True).
Proof.
  induction fuel as [|fuel IH]; intros ms s Hm Hs Hp Hf; [lia|]. cbn [find_loop]. apply wp_bind. eapply wp_mono; [by apply wp_run_match|].
  intros [ms' [e|]]; unfold kept; cbn [fst snd].
  - intros [He (caps & Hr & Hv)]. destruct find; [apply wp_bind; eapply wp_mono; [|done]|]; (eapply wp_push_captures; [done|done|lia|cbn; lia]).
  - intros Hr. unfold src_end. case_b E1; [|done]. destruct E1 as [E1 _]. apply IH; [by destruct Hr|lia..].
Qed.
Lemma wp_find find init plain : wp (str_find_aux stack junk str pat find init plain) (fun _ => True).
Proof.
  pose proof (first_pos_range str init) as Hf. unfold str_find_aux. fold (first_pos str init). case_b E1.
  - destruct (lmemfind_spec str pat _ Hf) as (r & -> & _). by destruct r.
  - pose proof (Zlen_nonneg pat). byte. apply wp_find_loop; [done|done| |unfold Zlen in *; lia]. destruct (Z.eqb_spec c 94) as [->|]; lia.
Qed.
Lemma wp_gmatch_loop fuel : forall ms s, length (capture ms) = 10%nat -> 0 <= s -> Zlen str + 1 - s < Z.of_nat fuel -> 0 < Z.of_nat fuel ->
  wp (gmatch_loop stack str pat fuel ms s) (fun r => match r with Some (s', _) => s < s' <= Zlen str + 1 | None => True end).
Proof.
  induction fuel as [|fuel IH]; intros ms s Hm Hs Hf Hf0; [lia|]. cbn [gmatch_loop]. unfold src_end. case_b E1; [done|]. apply wp_bind.
  eapply wp_mono; [apply wp_run_match; [done|lia|pose proof (Zlen_nonneg pat); lia]|]. intros [ms' [e|]]; unfold kept; cbn [fst snd].
  - intros [He (caps & Hr & Hv)]. apply wp_bind. eapply wp_mono; [eapply wp_push_captures; [done|done|lia|cbn; lia]|]. intros l _. cbn. destruct (Z.eqb_spec e s); lia.
  - intros Hr. eapply wp_mono; [apply IH; [by destruct Hr|lia..]|]. intros [[s' l]|]; [lia|done].
Qed.

(** *** Substitution *)
Context {W : Type} (tostring : Z -> list Z).
(** A replacement whose function or table ends. *)
Definition repl_ends (r : repl W) : Prop :=
  match r with
  | RString _ => True
  | RFunction call => forall l w, wp (call l w) (fun _ => True)
  | RTable get => forall k w, wp (get k w) (fun _ => True)
  end.
Lemma wp_add_s_loop ms caps news s e fuel : forall i b, rep ms caps -> valid caps e -> 0 <= s <= e -> e <= Zlen str -> 0 <= i <= Zlen news + 1 ->
  Zlen news - i < Z.of_nat fuel -> 0 < Z.of_nat fuel -> wp (add_s_loop str tostring fuel ms news i b s e) (fun _ => True).
Proof.
  induction fuel as [|fuel IH]; intros i b Hr Hv Hs He Hi Hf Hf0; [lia|]. cbn [add_s_loop]. case_b E1; [done|].
  apply wp_bind, wp_byte; [lia|]. intros c Hc. case_b E2; [apply IH; done || lia|]. apply wp_bind, wp_byte; [lia|]. intros d Hd.
  apply wp_bind. assert (forall b', wp (add_s_loop str tostring fuel ms news (i + 1 + 1) b' s e) (fun _ => True)) as Hnext by (intros b'; apply IH; done || lia).
  case_b E3; [apply Hnext|]. case_b E4.
  - apply wp_bind, wp_pushlstring; [lia..|]. intros x. apply Hnext.
  - assert (49 <= d) as Hd1 by (unfold isdigit, between in E3; lia). apply wp_bind.
    eapply wp_mono; [eapply wp_push_onecapture; [done..|lia|cbn; lia]|]. intros v _. apply Hnext.
Qed.
Lemma wp_add_value r ms caps b s e w : repl_ends r -> rep ms caps -> valid caps e -> 0 <= s <= e -> e <= Zlen str ->
  wp (add_value stack str tostring r ms b s e w) (fun _ => True).
Proof.
  intros Hends Hr Hv Hs He. unfold add_value.
  assert (forall (w : W) v, wp (match v with Falsy => l ← pushlstring (cstr str) s (e - s); mret (w, b ++ l) | Text l => mret (w, b ++ l) | NotAString => Raise InvalidReplacement end) (fun _ => True)) as Hfin.
  { intros w' [|l|]; [|done..]. apply wp_bind, wp_pushlstring; done || lia. }
  destruct r as [news|call|get]; cbn in Hends; apply wp_bind.
  - eapply wp_mono; [apply (wp_add_s_loop ms caps); [done..|pose proof (Zlen_nonneg news); lia|unfold Zlen; lia|lia]|done].
  - eapply wp_mono; [eapply wp_push_captures; [done..|cbn; lia]|]. intros l _. apply wp_bind. eapply wp_mono; [apply Hends|]. intros [w' v] _. apply Hfin.
  - eapply wp_mono; [eapply wp_push_onecapture; [done..|cbn; lia]|]. intros k _. apply wp_bind. eapply wp_mono; [apply Hends|]. intros [w' v] _. apply Hfin.
Qed.
(** An invariant of the substitution: of the position and the result. *)
Section invariant.
  Context (r : repl W) (I : Z -> list Z -> Prop).
  Context (Hadd : forall ms caps b s e w, I s b -> rep ms caps -> valid caps e -> 0 <= s <= e -> e <= Zlen str ->
    wp (add_value stack str tostring r ms b s e w) (fun x => I e x.2)).
  Context (Hskip : forall b s, I s b -> 0 <= s < Zlen str -> I (s + 1) (b ++ [char_at str s])).
Lemma wp_gsub_loop max_s anchor p fuel : forall ms s n b w, length (capture ms) = 10%nat -> 0 <= p <= Zlen pat -> 0 <= s <= Zlen str -> Zlen str - s < Z.of_nat fuel ->
  I s b -> 0 <= n -> wp (gsub_loop stack str pat tostring fuel r max_s anchor ms s p n b w)
    (fun x => let '(w, (s', n', b')) := x in s <= s' <= Zlen str /\ n <= n' <= Z.max n max_s /\ I s' b').
Proof.
  induction fuel as [|fuel IH]; intros ms s n b w Hm Hp Hs Hf HI Hn; [lia|]. cbn [gsub_loop]. case_b E0; [cbn; split; [lia|split; [lia|done]]|].
  apply wp_bind. eapply wp_mono; [by apply wp_run_match|]. intros [ms' e] Hk. apply wp_bind.
  assert (length (capture ms') = 10%nat) as Hm'.
  { unfold kept in Hk. cbn in Hk. destruct e; [destruct Hk as (_ & ? & [? _] & _)|destruct Hk as [? _]]; done. }
  assert (wp (match e with Some e => '(w, b) ← add_value stack str tostring r ms' b s e w; mret (w, n + 1, b) | None => mret (w, n, b) end)
    (fun x => let '(w, n', b') := x in n <= n' <= n + 1 /\ match e with Some e => s <= e <= Zlen str /\ I e b' | None => I s b' end)) as Hval.
  { destruct e as [e|]; [|cbn; split; [lia|done]]. unfold kept in Hk. cbn in Hk. destruct Hk as (He & caps & Hr & Hv). apply wp_bind.
    eapply wp_mono; [by apply (Hadd _ _ _ _ _ _ HI Hr Hv); lia|]. intros [w' b'] HI'. cbn in *. split; [lia|done]. }
  eapply wp_mono; [exact Hval|]. intros [[w1 n1] b1] [Hn1 HI1]. apply wp_bind.
  destruct (match e with Some e => s <? e | None => false end) eqn:Ee.
  { destruct e as [e|]; [|done]. apply Z.ltb_lt in Ee. destruct HI1 as [He HI1]. cbn. case_b E1; [cbn; split; [lia|split; [lia|done]]|].
    eapply wp_mono; [apply IH; [done|done|lia|lia|done|lia]|]. intros [w2 [[s2 n2] b2]]. intros (? & ? & ?). split; [lia|split; [lia|done]]. }
  assert (I s b1) as HI2. { destruct e as [e|]; [|done]. apply Z.ltb_ge in Ee. destruct HI1 as [He HI1]. by replace s with e by lia. }
  unfold src_end. case_b E1; [|cbn; split; [lia|split; [lia|done]]]. apply wp_bind. rewrite at_s_char by lia. cbn [wp mret outcome_ret].
  assert (I (s + 1) (b1 ++ [char_at str s])) as HI3 by (apply Hskip; [done|lia]). cbn [negb orb]. destruct anchor; [cbn; split; [lia|split; [lia|done]]|].
  eapply wp_mono; [apply IH; [done|done|lia|lia|done|lia]|]. intros [w2 [[s2 n2] b2]]. intros (? & ? & ?). split; [lia|split; [lia|done]].
Qed.
Lemma wp_gsub max_s w : I 0 [] -> wp (str_gsub stack junk str pat tostring r max_s w)
  (fun x => let '(w, (b, n)) := x in 0 <= n <= Z.max 0 (default (Zlen str + 1) max_s) /\ exists s b0, 0 <= s <= Zlen str /\ I s b0 /\ b = b0 ++ drop (Z.to_nat s) str).
Proof.
  intros HI. unfold str_gsub. pose proof (Zlen_nonneg pat). pose proof (Zlen_nonneg str). byte. apply wp_bind.
  eapply wp_mono; [apply wp_gsub_loop; [done|destruct (Z.eqb_spec c 94) as [->|]; lia|lia|unfold Zlen; lia|done|done]|].
  intros [w1 [[s1 n1] b1]] (Hs & Hn & HI1). cbn beta iota. apply wp_bind. unfold pushlstring, src_end, cstr. zlen. rewrite !(proj2 (Z.leb_le _ _)) by lia. cbn.
  split; [done|]. exists s1, b1. split; [lia|]. split; [done|]. f_equal. unfold slice. rewrite drop_app_le by (unfold Zlen in *; lia).
  rewrite take_app_le by (rewrite length_drop; unfold Zlen; lia). apply take_ge. rewrite length_drop. unfold Zlen. lia.
Qed.
End invariant.
(** A replacement that puts back what was matched. *)
Definition keeps_text (r : repl W) : Prop :=
  match r with
  | RString news => news = [L_ESC; 48]
  | RFunction call => forall l w, wp (call l w) (fun x => x.2 = Falsy)
  | RTable get => forall k w, wp (get k w) (fun x => x.2 = Falsy)
  end.
Lemma keeps_text_add r ms caps b s e w : keeps_text r -> b = take (Z.to_nat s) str -> rep ms caps -> valid caps e -> 0 <= s <= e -> e <= Zlen str ->
  wp (add_value stack str tostring r ms b s e w) (fun x => x.2 = take (Z.to_nat e) str).
Proof.
  intros Hk -> Hr Hv Hs He. unfold add_value.
  assert (pushlstring (cstr str) s (e - s) = Val (slice str s (e - s))) as Ep by (apply pushlstring_str; lia).
  assert (take (Z.to_nat s) str ++ slice str s (e - s) = take (Z.to_nat e) str) as Et.
  { unfold slice. rewrite <- (take_drop (Z.to_nat s) (take (Z.to_nat e) str)), take_take, skipn_firstn_comm. f_equal; [f_equal; lia|f_equal; lia]. }
  destruct r as [news|call|get]; cbn in Hk; apply wp_bind.
  - subst news. unfold add_s. change (length [L_ESC; 48]) with 2%nat. cbn -[pushlstring cstr slice]. rewrite Ep. cbn -[slice]. exact Et.
  - eapply wp_mono; [eapply wp_push_captures; [done..|cbn; lia]|]. intros l _. apply wp_bind. eapply wp_mono; [apply Hk|]. intros [w' v]. cbn [snd]. intros ->. rewrite Ep. exact Et.
  - eapply wp_mono; [eapply wp_push_onecapture; [done..|cbn; lia]|]. intros k _. apply wp_bind. eapply wp_mono; [apply Hk|]. intros [w' v]. cbn [snd]. intros ->. rewrite Ep. exact Et.
Qed.
End library.
End safe.

(** With any pattern, subject and replacement, [string.find],
    [string.match], the iterator of [string.gmatch] and [string.gsub]
    terminate with values or an error: they never read or write outside the
    subject, the pattern, the replacement or the captures, and the iterator
    moves forward. *)
Theorem string_library_safe (str pat : list Z) (short : Zlen str < 2147483648) (stack : Z) (junk : list (Z * Z)) (ten : length junk = 10%nat) :
  (forall find init plain, wp (str_find_aux stack junk str pat find init plain) (fun _ => True)) /\
  (forall s, 0 <= s -> wp (gmatch_aux stack junk str pat s) (fun r => match r with Some (s', _) => s < s' | None => True end)) /\
  (forall W tostring (r : repl W) max_s w, repl_ends r ->
     wp (str_gsub stack junk str pat tostring r max_s w) (fun x => let '(_, (_, n)) := x in 0 <= n <= Z.max 0 (default (Zlen str + 1) max_s))).
Proof.
  split; [intros; by apply wp_find|]. split.
  - intros s Hs. eapply wp_mono; [eapply wp_gmatch_loop; [done..|unfold Zlen; lia|lia]|]. intros [[s' l]|]; [lia|done].
  - intros W tostring r max_s w Hr. eapply wp_mono; [apply (wp_gsub str pat short stack junk ten tostring r (fun _ _ => True)); [|done|done]|].
    + intros. eapply wp_mono; [by eapply wp_add_value|done].
    + intros [w' [b n]] [Hn _]. exact Hn.
Qed.
(** Substituting every match by itself (the replacement [%0], or a
    function or table that gives nil) gives the subject back, with any
    pattern and any limit. *)
Theorem gsub_identity (str pat : list Z) (short : Zlen str < 2147483648) (stack : Z) (junk : list (Z * Z)) (ten : length junk = 10%nat)
    (W : Type) (tostring : Z -> list Z) (r : repl W) (max_s : option Z) (w : W) :
  keeps_text r -> wp (str_gsub stack junk str pat tostring r max_s w) (fun x => x.2.1 = str).
Proof.
  intros Hr. eapply wp_mono; [apply (wp_gsub str pat short stack junk ten tostring r (fun s b => b = take (Z.to_nat s) str)); [| |done]|].
  - intros. by eapply keeps_text_add.
  - intros b s -> Hs. rewrite Z2Nat.inj_add by lia. change (Z.to_nat 1) with 1%nat. rewrite Nat.add_1_r.
    destruct (lookup_lt_is_Some_2 str (Z.to_nat s)) as [x Ex]; [unfold Zlen in Hs; lia|]. rewrite (take_S_r _ _ x Ex). f_equal. f_equal.
    unfold char_at, cstr. apply list_lookup_total_correct. by apply lookup_app_l_Some.
  - intros [w' [b n]] [_ (s & b0 & _ & -> & ->)]. apply take_drop.
Qed.
Lemma string_library_safe_witness : wp (str_find_aux 100 (replicate 10 (0, 0)) [97; 98] [40; 37; 98; 91] true 1 false) (fun _ => True).
Proof. apply (string_library_safe [97; 98] [40; 37; 98; 91]); reflexivity. Defined.
Lemma gsub_identity_witness : wp (str_gsub 100 (replicate 10 (0, 0)) [97; 98; 97] [97; 42] (fun _ => []) (RString [37; 48]) None tt) (fun x => x.2.1 = [97; 98; 97]).
Proof. apply (gsub_identity [97; 98; 97] [97; 42]); reflexivity. Defined.
