(* ===== verification/LuaFormat.v ===== *)
(** [string.format] of lstrlib.c with the conversions of numbers it uses
    (luaO_str2d in lobject.c, luaL_checknumber and luaL_checklstring in
    lauxlib.c): scanning a format item, the fixed buffers for the item and its
    text, and quoting. *)
From Stdlib Require String Ascii.
From S2P Require Import Prelude LuaStr.

(** ** Numbers

    A Lua number is a [double]: its type, its conversions and its output are
    the C library's. [strtod] gives the number and how many characters it has
    used, [sprintf_double] the text of a number for a format such as
    [%.14g]. *)
Class Double := {
  num : Type;
  of_Z : Z -> num;
  (** The integer part. *)
  trunc : num -> Z;
  strtod : list Z -> num * Z;
  sprintf_double : list Z -> num -> list Z;
}.

(** A C string ends at its first zero. *)
Fixpoint c_string (l : list Z) : list Z := match l with [] => [] | c :: l => if c =? 0 then [] else c :: c_string l end.
Fixpoint skip (f : Z -> bool) (l : list Z) : list Z := match l with c :: l' => if f c then skip f l' else l | [] => [] end.
Definition hex_digit (c : Z) : Z := if isdigit c then c - 48 else tolower c - 87.
Fixpoint hex_value (l : list Z) (n : Z) : Z * list Z :=
  match l with c :: l' => if isxdigit c then hex_value l' (16 * n + hex_digit c) else (n, l) | [] => (n, []) end.
(** [strtoul(s, &endptr, 16)] and how many characters it has used. *)
Definition strtoul16 (s : list Z) : Z * Z :=
  let l := skip isspace s in
  let neg := hd 0 l =? 45 in
  let l := if neg || (hd 0 l =? 43) then tail l else l in
  let l := if (hd 0 l =? 48) && ((hd 0 (tail l) =? 120) || (hd 0 (tail l) =? 88)) && isxdigit (hd 0 (tail (tail l))) then tail (tail l) else l in
  if isxdigit (hd 0 l) then
    let '(n, r) := hex_value l 0 in
    (if 2 ^ 32 <=? n then 2 ^ 32 - 1 else u32 (if neg then - n else n), Zlen s - Zlen r)
  else (0, 0).

Section numbers.
  Context `{Double}.
(** [s] without its terminating zero. *)
Definition luaO_str2d (s : list Z) : option num :=
  let s := c_string s in
  let '(x, endptr) := strtod s in
  if endptr =? 0 then None else
  let c := hd 0 (drop (Z.to_nat endptr) s) in
  let '(x, endptr) := if (c =? 120) || (c =? 88) then let '(n, e) := strtoul16 s in (of_Z n, e) else (x, endptr) in
  match drop (Z.to_nat endptr) s with
  | [] => Some x
  | r => match skip isspace r with [] => Some x | _ => None end
  end.
Definition lua_number2str (x : num) : list Z := sprintf_double [37; 46; 49; 52; 103] x.
(** An argument, and what the library takes it for. *)
Inductive arg := Number (x : num) | Text (l : list Z) | OtherType.
Definition luaL_checknumber (a : arg) : outcome num :=
  match a with
  | Number x => Val x
  | Text l => match luaO_str2d l with Some x => Val x | None => Raise BadArgument end
  | OtherType => Raise BadArgument
  end.
Definition luaL_checklstring (a : arg) : outcome (list Z) :=
  match a with Number x => Val (lua_number2str x) | Text l => Val l | OtherType => Raise BadArgument end.
End numbers.

(** ** [sprintf]
    What [string.format] uses of it: flags, width and precision with the
    conversions of integers, characters and strings. *)
Record spec := MkSpec { minus : bool; plus : bool; space : bool; alt : bool; zero : bool; width : Z; prec : option Z; conv : Z }.
Fixpoint decimal (l : list Z) (n : Z) : Z * list Z :=
  match l with c :: l' => if isdigit c then decimal l' (10 * n + (c - 48)) else (n, l) | [] => (n, []) end.
Definition is_flag (c : Z) : bool := bool_decide (c ∈ [45; 43; 32; 35; 48]).
(** A format, its percent sign included. *)
Definition read_spec (form : list Z) : spec :=
  let l := tail form in
  let flags := take (length l - length (skip is_flag l)) l in
  let '(w, l) := decimal (skip is_flag l) 0 in
  let '(p, l) := if hd 0 l =? 46 then let '(p, l) := decimal (tail l) 0 in (Some p, l) else (None, l) in
  let l := skip (fun c => c =? 108) l in
  MkSpec (bool_decide (45 ∈ flags)) (bool_decide (43 ∈ flags)) (bool_decide (32 ∈ flags)) (bool_decide (35 ∈ flags)) (bool_decide (48 ∈ flags)) w p (hd 0 l).
(** The digits of [n], which is below [2 ^ fuel]. *)
Fixpoint digits (fuel : nat) (base a n : Z) (acc : list Z) : list Z :=
  match fuel with
  | O => acc
  | S fuel => if n =? 0 then acc else let d := n mod base in digits fuel base a (n / base) ((if d <? 10 then 48 + d else a + (d - 10)) :: acc)
  end.
Definition pad_left (c n : Z) (l : list Z) : list Z := replicate (Z.to_nat (n - Zlen l)) c ++ l.
Definition pad_right (c n : Z) (l : list Z) : list Z := l ++ replicate (Z.to_nat (n - Zlen l)) c.
Definition pad (s : spec) (l : list Z) : list Z := if minus s then pad_right 32 (width s) l else pad_left 32 (width s) l.
(** A number with its sign or prefix in front. *)
Definition pad_number (s : spec) (sign l : list Z) : list Z :=
  if zero s && negb (minus s) && bool_decide (prec s = None) then sign ++ pad_left 48 (width s - Zlen sign) l else pad s (sign ++ l).
Definition fmt_signed (s : spec) (n : Z) : list Z :=
  pad_number s (if n <? 0 then [45] else if plus s then [43] else if space s then [32] else [])
    (pad_left 48 (default 1 (prec s)) (digits 64 10 0 (Z.abs n) [])).
Definition fmt_unsigned (s : spec) (n : Z) : list Z :=
  let c := conv s in
  if c =? 117 then pad_number s [] (pad_left 48 (default 1 (prec s)) (digits 64 10 0 n []))
  else if c =? 111 then
    let l := pad_left 48 (default 1 (prec s)) (digits 64 8 0 n []) in
    pad_number s [] (if alt s && negb (hd 0 l =? 48) then 48 :: l else l)
  else pad_number s (if alt s && negb (n =? 0) then [48; c] else []) (pad_left 48 (default 1 (prec s)) (digits 64 16 (if c =? 88 then 65 else 97) n [])).
Definition fmt_string (s : spec) (l : list Z) : list Z :=
  pad s (match prec s with Some p => take (Z.to_nat p) (c_string l) | None => c_string l end).

(** ** [string.format] *)
Definition FLAGS : list Z := [45; 43; 32; 35; 48].
Definition MAX_ITEM := 128.
Definition LUA_INTFRMLEN : list Z := [108].
(** [sizeof] counts the terminating zeros. *)
Definition MAX_FORMAT := (Zlen FLAGS + 1) + (Zlen LUA_INTFRMLEN + 1) + 10.

Fixpoint addquoted_loop (s : list Z) (n : nat) (i : Z) (b : list Z) : outcome (list Z) :=
  match n with
  | O => mret b
  | S n =>
    c ← of_res (bget (cstr s) i);
    let b := b ++ (if (c =? 34) || (c =? 92) || (c =? 10) then [92; c] else if c =? 13 then [92; 114] else if c =? 0 then [92; 48; 48; 48] else [c]) in
    addquoted_loop s n (i + 1) b
  end.
Definition addquoted (b s : list Z) : outcome (list Z) :=
  b ← addquoted_loop s (length s) 0 (b ++ [34]);
  mret (b ++ [34]).

Section format.
  Context `{Double} (fmt : list Z).
Definition at_f (i : Z) : outcome Z := of_res (bget (cstr fmt) i).
Fixpoint flags_loop (fuel : nat) (p : Z) : outcome Z :=
  match fuel with
  | O => Fault NoFuel
  | S fuel => c ← at_f p; if negb (c =? 0) && bool_decide (c ∈ FLAGS) then flags_loop fuel (p + 1) else mret p
  end.
Definition skip_digit (p : Z) : outcome Z := c ← at_f p; mret (if isdigit c then p + 1 else p).
(** The end of the item and the contents of [form]. *)
Definition scanformat (i : Z) : outcome (Z * list Z) :=
  p ← flags_loop (S (length fmt)) i;
  if Zlen FLAGS + 1 <=? p - i then Raise RepeatedFlags else
  p ← skip_digit p;
  p ← skip_digit p;
  c ← at_f p;
  p ← (if c =? 46 then p ← skip_digit (p + 1); skip_digit p else mret p);
  c ← at_f p;
  if isdigit c then Raise WidthTooLong else
  let n := p - i + 1 in
  if MAX_FORMAT <? 1 + n + 1 then Fault OutOfBounds else mret (p, 37 :: c_string (slice (cstr fmt) i n)).
Definition addintlen (form : list Z) : outcome (list Z) :=
  let l := Zlen form in
  if MAX_FORMAT <? l + Zlen LUA_INTFRMLEN + 1 then Fault OutOfBounds else mret (removelast form ++ LUA_INTFRMLEN ++ [List.last form 0]).
(** [sprintf] into [buff] and [luaL_addlstring] of what is there. *)
Definition add_item (b out : list Z) : outcome (list Z) :=
  if MAX_ITEM <? Zlen out + 1 then Fault OutOfBounds else mret (b ++ c_string out).
(** A conversion to a 32-bit integer type; it is undefined outside of it. *)
Definition to_signed (n : Z) : outcome Z := if (- 2 ^ 31 <=? n) && (n <? 2 ^ 31) then mret n else Fault SignedOverflow.
Definition to_unsigned (n : Z) : outcome Z := if (0 <=? n) && (n <? 2 ^ 32) then mret n else Fault SignedOverflow.
Definition format_item (form : list Z) (c : Z) (a : arg) (b : list Z) : outcome (list Z) :=
  if c =? 99 then
    x ← luaL_checknumber a; n ← to_signed (trunc x);
    add_item b (pad (read_spec form) [u8 n])
  else if (c =? 100) || (c =? 105) then
    form ← addintlen form; x ← luaL_checknumber a; n ← to_signed (trunc x);
    add_item b (fmt_signed (read_spec form) n)
  else if (c =? 111) || (c =? 117) || (c =? 120) || (c =? 88) then
    form ← addintlen form; x ← luaL_checknumber a; n ← to_unsigned (trunc x);
    add_item b (fmt_unsigned (read_spec form) n)
  else if (c =? 101) || (c =? 69) || (c =? 102) || (c =? 103) || (c =? 71) then
    x ← luaL_checknumber a; add_item b (sprintf_double form x)
  else if c =? 113 then s ← luaL_checklstring a; addquoted b s
  else if c =? 115 then
    s ← luaL_checklstring a;
    if negb (bool_decide (46 ∈ form)) && (100 <=? Zlen s) then mret (b ++ s) else add_item b (fmt_string (read_spec form) s)
  else Raise InvalidOption.
Fixpoint format_loop (fuel : nat) (i : Z) (args : list arg) (b : list Z) : outcome (list Z) :=
  match fuel with
  | O => Fault NoFuel
  | S fuel =>
    if negb (i <? Zlen fmt) then mret b else
    c ← at_f i;
    if negb (c =? L_ESC) then format_loop fuel (i + 1) args (b ++ [c]) else
    d ← at_f (i + 1);
    if d =? L_ESC then format_loop fuel (i + 2) args (b ++ [d]) else
    match args with
    | [] => Raise NoValue
    | a :: args =>
      '(p, form) ← scanformat (i + 1);
      c ← at_f p;
      b ← format_item form c a b;
      format_loop fuel (p + 1) args b
    end
  end.
Definition str_format (args : list arg) : outcome (list Z) := format_loop (S (length fmt)) 0 args [].
End format.

(** ** Tests
    The numbers without a fraction. *)
Definition integers : Double := {|
  num := Z; of_Z n := n; trunc n := n;
  strtod s := let '(n, r) := decimal s 0 in (n, Zlen s - Zlen r);
  sprintf_double form n := fmt_signed (MkSpec false false false false false 0 None 100) n
|}.
Section tests.
Let s (x : String.string) : list Z := map (fun c => Z.of_N (Ascii.N_of_ascii c)) (String.list_ascii_of_string x).
Import Stdlib.Strings.String.
#[local] Existing Instance integers.
Example format_test : str_format (s "%-5d|%05.1f|%+.3i|%#x|%s|%5.2s|%c%%") [Number 42; Number 7; Number 9; Number 255; Text (s "abc"); Text (s "abc"); Number 65] =
  Val (s "42   |7|+009|0xff|abc|   ab|A%").
Proof. vm_compute. reflexivity. Qed.
Example str2d_test : (luaO_str2d (s "12  "), luaO_str2d (s "0x1F"), luaO_str2d (s "12a")) = (Some 12, Some 31, None).
Proof. vm_compute. reflexivity. Qed.
End tests.
