(* ===== verification/LuaFormatSafe.v ===== *)
(** [string.format] of LuaFormat.v stays inside its two fixed buffers. *)
From S2P Require Import Prelude LuaStr LuaPattern LuaMatch LuaFind LuaSafe LuaFormat.

Ltac case_b H := match goal with |- wp (if ?b then _ else _) _ => destruct b eqn:H end; rewrite ?andb_true_iff, ?Z.eqb_eq, ?Z.eqb_neq, ?negb_true_iff, ?negb_false_iff, ?Z.ltb_lt, ?Z.ltb_ge in H.

Section scan.
  Context `{Double} (fmt : list Z).
Lemma at_f_here i q : here fmt i q -> at_f fmt i = Val (hd 0 q).
Proof. apply at_p_here. Qed.
Definition flag (c : Z) : Prop := c ∈ FLAGS.
Definition digit (c : Z) : Prop := isdigit c = true.
Lemma flag_nonzero c : flag c -> c <> 0.
Proof. intros Hc ->. revert Hc. apply (bool_decide_unpack (¬ _)). by vm_compute. Qed.
Lemma digit_nonzero c : digit c -> c <> 0.
Proof. by intros Hc ->. Qed.
Lemma flags_loop_spec fuel : forall i q, here fmt i q -> (length q < fuel)%nat ->
  exists l q', q = l ++ q' /\ Forall flag l /\ ~ flag (hd 0 q') /\ flags_loop fmt fuel i = Val (i + Zlen l) /\ here fmt (i + Zlen l) q'.
Proof.
  induction fuel as [|fuel IH]; intros i q Hq Hf; [lia|]. cbn [flags_loop]. rewrite (at_f_here _ _ Hq). cbn [mbind outcome_bind].
  destruct (negb (hd 0 q =? 0) && bool_decide (hd 0 q ∈ FLAGS)) eqn:E.
  - apply andb_true_iff in E as [E0 E]. apply negb_true_iff, Z.eqb_neq in E0. apply bool_decide_eq_true in E.
    pose proof (hd_eq _ _ eq_refl E0) as Eq. destruct q as [|c q]; [done|]. cbn [hd tail length] in *. pose proof (here_next _ _ _ _ Hq) as Hq1.
    destruct (IH _ _ Hq1 ltac:(lia)) as (l & q' & -> & Hl & Hh & -> & Hq'). exists (c :: l), q'. zlen. rewrite Z.add_assoc.
    split; [done|]. split; [by constructor|]. split; [done|]. split; [done|done].
  - exists [], q. rewrite Z.add_0_r. split; [done|]. split; [constructor|]. split; [|done]. intros Hc. pose proof (flag_nonzero _ Hc).
    rewrite (proj2 (Z.eqb_neq _ _)), bool_decide_eq_true_2 in E by done. done.
Qed.
(** At most two digits. *)
Lemma two_digits i q : here fmt i q -> exists l q', q = l ++ q' /\ Forall digit l /\ (length l <= 2)%nat /\
  (p ← skip_digit fmt i; skip_digit fmt p) = Val (i + Zlen l) /\ here fmt (i + Zlen l) q'.
Proof.
  intros Hq. unfold skip_digit. rewrite (at_f_here _ _ Hq). cbn [mbind outcome_bind mret outcome_ret]. destruct (isdigit (hd 0 q)) eqn:E1.
  - pose proof (hd_eq _ _ eq_refl (digit_nonzero _ E1)) as Eq. destruct q as [|c q]; [done|]. cbn [hd tail] in *. pose proof (here_next _ _ _ _ Hq) as Hq1.
    rewrite (at_f_here _ _ Hq1). cbn [mbind outcome_bind mret outcome_ret]. destruct (isdigit (hd 0 q)) eqn:E2.
    + pose proof (hd_eq _ _ eq_refl (digit_nonzero _ E2)) as Eq2. destruct q as [|d q]; [done|]. cbn [hd tail] in *. pose proof (here_next _ _ _ _ Hq1) as Hq2.
      exists [c; d], q. change (Zlen [c; d]) with 2. replace (i + 2) with (i + 1 + 1) by lia. by repeat constructor.
    + exists [c], q. change (Zlen [c]) with 1. repeat split; [by repeat constructor|cbn; lia|done].
  - rewrite (at_f_here _ _ Hq). cbn [mbind outcome_bind mret outcome_ret]. rewrite E1. exists [], q. rewrite Z.add_0_r. repeat split; [constructor|cbn; lia|done].
Qed.
(** What is behind the percent sign: flags, a width, a precision, and the
    conversion, which is missing at the end of the format. *)
Definition item_parts (form fl w pr : list Z) (c : Z) : Prop :=
  form = 37 :: fl ++ w ++ pr ++ (if c =? 0 then [] else [c]) /\ Forall flag fl /\ ~ flag (hd c (w ++ pr)) /\ (length fl <= 5)%nat /\
  Forall digit w /\ (length w <= 2)%nat /\ (pr = [] \/ exists d, pr = 46 :: d /\ Forall digit d /\ (length d <= 2)%nat) /\ ~ digit c.
Lemma wp_two_digits {A} i q (k : Z -> outcome A) Q : here fmt i q ->
  (forall l q', q = l ++ q' -> Forall digit l -> (length l <= 2)%nat -> here fmt (i + Zlen l) q' -> wp (k (i + Zlen l)) Q) ->
  wp (p ← skip_digit fmt i; p ← skip_digit fmt p; k p) Q.
Proof.
  intros Hq Hk. destruct (two_digits i q Hq) as (l & q' & E & Hl & Hn & Ed & Hq'). destruct (skip_digit fmt i) as [p| |]; [|done..].
  cbn [mbind outcome_bind] in *. rewrite Ed. cbn [mbind outcome_bind]. by eapply Hk.
Qed.
Lemma c_string_app l q : Forall (fun c => c <> 0) l -> c_string (l ++ q) = l ++ c_string q.
Proof. induction 1 as [|c l Hc _ IH]; [done|]. cbn. rewrite (proj2 (Z.eqb_neq _ _) Hc). by rewrite IH. Qed.
Lemma here_slice i l q : here fmt i (l ++ q) -> slice (cstr fmt) i (Zlen l + 1) = l ++ [hd 0 q].
Proof.
  intros (l0 & E & ->). unfold cstr. rewrite E. unfold slice. rewrite Zlen_to_nat, <- !app_assoc, drop_app_length.
  replace (Z.to_nat (Zlen l + 1)) with (length l + 1)%nat by (unfold Zlen; lia). rewrite take_app_add. by destruct q.
Qed.
Lemma here_drop i : 0 <= i <= Zlen fmt -> here fmt i (drop (Z.to_nat i) fmt).
Proof. intros Hi. exists (take (Z.to_nat i) fmt). rewrite take_drop. split; [done|]. unfold Zlen in *. rewrite length_take. lia. Qed.
Lemma here_range i q : here fmt i q -> 0 <= i /\ i + Zlen q = Zlen fmt.
Proof. intros (l & -> & ->). pose proof (Zlen_nonneg l). zlen. lia. Qed.
Lemma wp_scanformat i : 0 <= i <= Zlen fmt -> wp (scanformat fmt i) (fun x => let '(p, form) := x in
  i <= p <= Zlen fmt /\ exists fl w pr c, item_parts form fl w pr c /\ at_f fmt p = Val c /\ (c <> 0 -> p < Zlen fmt)).
Proof.
  intros Hi. pose proof (here_drop i Hi) as Hq. set (q := drop (Z.to_nat i) fmt) in *. unfold scanformat.
  destruct (flags_loop_spec (S (length fmt)) i q Hq) as (fl & q1 & E1 & Hfl & Hh & -> & Hq1). { pose proof (here_length _ _ _ Hq). lia. }
  cbn [mbind outcome_bind]. case_b E; [done|]. apply Z.leb_gt in E. apply (wp_two_digits _ _ _ _ Hq1). intros w q2 E2 Hw Hwl Hq2.
  rewrite (at_f_here _ _ Hq2). cbn [mbind outcome_bind].
  assert (exists pr q3, q2 = pr ++ q3 /\ (pr = [] \/ exists d, pr = 46 :: d /\ Forall digit d /\ (length d <= 2)%nat) /\
    (if hd 0 q2 =? 46 then p ← skip_digit fmt (i + Zlen fl + Zlen w + 1); skip_digit fmt p else mret (i + Zlen fl + Zlen w)) = Val (i + Zlen (fl ++ w ++ pr)) /\
    here fmt (i + Zlen (fl ++ w ++ pr)) q3) as (pr & q3 & E3 & Hpr & -> & Hq3).
  { destruct (Z.eqb_spec (hd 0 q2) 46) as [E46|_].
    - destruct (hd_tail_cons _ _ E46 ltac:(done)) as (q2' & ->). pose proof (here_next _ _ _ _ Hq2) as Hq2'.
      destruct (two_digits _ _ Hq2') as (d & q3 & -> & Hd & Hdl & -> & Hq3). exists (46 :: d), q3. split; [done|]. split; [right; by exists d|].
      replace (i + Zlen (fl ++ w ++ 46 :: d)) with (i + Zlen fl + Zlen w + 1 + Zlen d) by (zlen; lia). done.
    - exists [], q2. rewrite app_nil_r. replace (i + Zlen (fl ++ w)) with (i + Zlen fl + Zlen w) by (zlen; lia). split; [done|]. split; [by left|done]. }
  cbn [mbind outcome_bind]. rewrite (at_f_here _ _ Hq3). cbn [mbind outcome_bind]. case_b Ed; [done|].
  set (c := hd 0 q3). assert (Zlen fl <= 5 /\ Zlen w <= 2 /\ Zlen pr <= 3) as (L1 & L2 & L3).
  { unfold Zlen in *. cbn in E. split; [lia|]. split; [lia|]. destruct Hpr as [->|(d & -> & _ & ?)]; cbn; lia. }
  rewrite (proj2 (Z.ltb_ge _ _)) by (change MAX_FORMAT with 18; zlen; lia). cbn [wp mret outcome_ret].
  pose proof (here_range _ _ Hq3) as [_ Hr]. pose proof (Zlen_nonneg q3). pose proof (Zlen_nonneg (fl ++ w ++ pr)). split; [lia|].
  assert (q = (fl ++ w ++ pr) ++ q3) as Eq by (by rewrite E1, E2, E3, <- !app_assoc). rewrite Eq in Hq.
  replace (i + Zlen (fl ++ w ++ pr) - i + 1) with (Zlen (fl ++ w ++ pr) + 1) by lia. rewrite (here_slice _ _ _ Hq).
  assert (Forall (fun c => c <> 0) (fl ++ w ++ pr)) as Hnz.
  { rewrite !Forall_app. split; [eapply Forall_impl; [exact Hfl|apply flag_nonzero]|]. split; [eapply Forall_impl; [exact Hw|apply digit_nonzero]|].
    destruct Hpr as [->|(d & -> & Hd & _)]; [constructor|]. constructor; [done|]. eapply Forall_impl; [exact Hd|apply digit_nonzero]. }
  exists fl, w, pr, c. split; [|split; [by rewrite (at_f_here _ _ Hq3)|]].
  - split; [rewrite (c_string_app _ _ Hnz), <- !app_assoc; fold c; cbn [c_string]; by destruct (c =? 0)|]. split; [done|]. split.
    { replace (hd c (w ++ pr)) with (hd 0 q1); [done|]. rewrite E2, E3. destruct w; [|done]. by destruct pr. }
    unfold Zlen in L1. split; [lia|]. split; [done|]. split; [done|]. split; [done|]. unfold digit, c. by rewrite Ed.
  - intros Hc. unfold c in Hc. pose proof (hd_eq _ _ eq_refl Hc) as Eq3. rewrite Eq3 in Hr. revert Hr. zlen. pose proof (Zlen_nonneg (tail q3)). lia.
Qed.
End scan.

(** ** How long the text of an item is *)
Lemma decimal_bound l : forall n m, (forall d q, l = d ++ q -> Forall digit d -> (length d <= m)%nat) -> 0 <= n ->
  0 <= (decimal l n).1 <= 10 ^ Z.of_nat m * (n + 1) - 1.
Proof.
  induction l as [|c l IH]; intros n m Hm Hn; cbn [decimal]; [cbn; nia|]. destruct (isdigit c) eqn:E; [|cbn; nia].
  destruct m as [|m]. { specialize (Hm [c] l eq_refl ltac:(by repeat constructor)). cbn in Hm. lia. }
  assert (0 <= c - 48 <= 9) by (unfold isdigit, between in E; lia).
  destruct (IH (10 * n + (c - 48)) m) as [? ?]; [|lia|].
  { intros d q -> Hd. specialize (Hm (c :: d) q eq_refl ltac:(by constructor)). cbn in Hm. lia. }
  rewrite Nat2Z.inj_succ, Z.pow_succ_r by lia. split; [lia|]. etransitivity; [eassumption|]. nia.
Qed.
(** A run of digits in front of something that is none. *)
Lemma digits_run d r : forall w q, w ++ q = d ++ r -> Forall digit d -> ~ digit (hd 0 q) -> (length d <= length w)%nat.
Proof.
  induction d as [|x d IH]; intros w q E Hd Hq; [cbn; lia|]. apply Forall_cons in Hd as [Hx Hd].
  destruct w as [|y w]; cbn in E; [by subst q|]. injection E as -> E. cbn. specialize (IH w q E Hd Hq). lia.
Qed.
Lemma decimal_two w q : (length w <= 2)%nat -> ~ digit (hd 0 q) -> 0 <= (decimal (w ++ q) 0).1 <= 99.
Proof.
  intros Hw Hq. pose proof (decimal_bound (w ++ q) 0 2) as Hb. cbn in Hb. destruct Hb as [? ?]; [|lia|lia].
  intros d r E Hd. etransitivity; [eapply (digits_run d r w q); [done|done|done]|done].
Qed.
Lemma decimal_rest w q n : Forall digit w -> ~ digit (hd 0 q) -> exists m, decimal (w ++ q) n = (m, q).
Proof.
  intros Hw Hq. revert n. induction Hw as [|c w Hc _ IH]; intros n; cbn [decimal app].
  - exists n. destruct q as [|c q]; [done|]. cbn in *. unfold digit in Hq. by destruct (isdigit c).
  - unfold digit in Hc. rewrite Hc. apply IH.
Qed.
Definition fits (s : spec) : Prop := 0 <= width s <= 99 /\ forall p, prec s = Some p -> 0 <= p <= 99.
Lemma skip_flags fl q : Forall flag fl -> ~ flag (hd 0 q) -> skip is_flag (fl ++ q) = q.
Proof.
  intros Hf Hq. induction Hf as [|c fl Hc _ IH]; cbn [app skip].
  - destruct q as [|c q]; [done|]. cbn in *. unfold is_flag. rewrite bool_decide_eq_false_2; [done|]. exact Hq.
  - unfold is_flag at 1. by rewrite bool_decide_eq_true_2.
Qed.
(** [r] is the conversion with its length modifier. *)
Lemma read_spec_fits fl w pr r : Forall flag fl -> ~ flag (hd 0 (w ++ pr ++ r)) -> Forall digit w -> (length w <= 2)%nat ->
  (pr = [] \/ exists d, pr = 46 :: d /\ Forall digit d /\ (length d <= 2)%nat) -> ~ digit (hd 0 r) -> hd 0 r <> 46 ->
  fits (read_spec (37 :: fl ++ w ++ pr ++ r)) /\ (prec (read_spec (37 :: fl ++ w ++ pr ++ r)) = None -> pr = []).
Proof.
  intros Hfl Hh Hw Hwl Hpr Hr H46. unfold read_spec. cbn [tail]. rewrite skip_flags by done.
  assert (~ digit (hd 0 (pr ++ r))) as Hnd by (by destruct Hpr as [->|(d & -> & _)]).
  destruct (decimal_rest w (pr ++ r) 0 Hw Hnd) as (n & En). pose proof (decimal_two w (pr ++ r) Hwl Hnd) as Hn. rewrite En in *. cbn in Hn.
  destruct Hpr as [->|(d & -> & Hd & Hdl)]; cbn [app].
  - rewrite (proj2 (Z.eqb_neq _ _) H46). split; [split; cbn; [lia|done]|done].
  - cbn [hd tail]. change (46 =? 46) with true. cbv iota. destruct (decimal_rest d r 0 Hd Hr) as (m & Em). pose proof (decimal_two d r Hdl Hr) as Hm.
    rewrite Em in *. cbn in Hm. split; [|done]. split; cbn; [lia|]. intros p [= <-]. lia.
Qed.
Lemma pad_left_length c n l m : Zlen l <= m -> n <= m -> Zlen (pad_left c n l) <= m.
Proof. intros. unfold pad_left. zlen. lia. Qed.
Lemma pad_right_length c n l m : Zlen l <= m -> n <= m -> Zlen (pad_right c n l) <= m.
Proof. intros. unfold pad_right. zlen. lia. Qed.
Lemma pad_length s l m : fits s -> Zlen l <= m -> 99 <= m -> Zlen (pad s l) <= m.
Proof. intros [Hw _] Hl Hm. unfold pad. destruct (minus s); [apply pad_right_length|apply pad_left_length]; lia. Qed.
Lemma digits_length fuel base a : forall n acc, Zlen (digits fuel base a n acc) <= Z.of_nat fuel + Zlen acc.
Proof.
  induction fuel as [|fuel IH]; intros n acc; cbn [digits]; [lia|]. destruct (n =? 0); [lia|]. etransitivity; [apply IH|]. zlen. lia.
Qed.
Lemma digits_precision s base a n : fits s -> Zlen (pad_left 48 (default 1 (prec s)) (digits 64 base a n [])) <= 99.
Proof.
  intros [_ Hp]. apply pad_left_length; [etransitivity; [apply digits_length|by vm_compute]|]. destruct (prec s) as [p|]; cbn; [|lia]. specialize (Hp p eq_refl). lia.
Qed.
Lemma pad_number_length s sign l : fits s -> Zlen sign <= 2 -> Zlen l <= 100 -> Zlen (pad_number s sign l) <= 102.
Proof.
  intros Hs Hg Hl. unfold pad_number. destruct (_ && _); [|apply pad_length; [done|zlen; lia|lia]].
  assert (Zlen (pad_left 48 (width s - Zlen sign) l) <= 100) by (apply pad_left_length; [lia|]; destruct Hs; pose proof (Zlen_nonneg sign); lia). zlen. lia.
Qed.
Lemma fmt_signed_length s n : fits s -> Zlen (fmt_signed s n) <= 102.
Proof.
  intros Hs. unfold fmt_signed. pose proof (digits_precision s 10 0 (Z.abs n) Hs). apply pad_number_length; [done| |lia].
  destruct (n <? 0), (plus s), (space s); done.
Qed.
Lemma fmt_unsigned_length s n : fits s -> Zlen (fmt_unsigned s n) <= 102.
Proof.
  intros Hs. unfold fmt_unsigned. pose proof (digits_precision s) as Hd. destruct (_ =? 117); [apply pad_number_length; [done|done|]; specialize (Hd 10 0 n Hs); lia|].
  destruct (_ =? 111); [apply pad_number_length; [done|done|]; specialize (Hd 8 0 n Hs); destruct (_ && _); zlen; lia|].
  apply pad_number_length; [done|by destruct (_ && _)|]. etransitivity; [apply Hd; done|lia].
Qed.
Lemma fmt_string_length s l : fits s -> (prec s = None -> Zlen l < 100) -> Zlen (fmt_string s l) <= 102.
Proof.
  intros Hs Hl. unfold fmt_string. apply pad_length; [done| |lia]. destruct (prec s) as [p|] eqn:E.
  - destruct Hs as [_ Hp]. specialize (Hp p E). unfold Zlen. rewrite length_take. lia.
  - specialize (Hl eq_refl). assert (Zlen (c_string l) <= Zlen l); [|lia]. clear. induction l as [|c l IH]; cbn; [lia|]. zlen. destruct (c =? 0); zlen; [cbn; pose proof (Zlen_nonneg l); lia|lia].
Qed.

(** ** The items and the format *)
Section format.
  Context `{Double} (fmt : list Z).
  (** The C library's output of a number fits the buffer, and the numbers are
      in the range of both integer types. *)
  Context (floats_fit : forall form x, Zlen (sprintf_double form x) < MAX_ITEM).
Definition in_range (a : arg) : Prop := forall x, luaL_checknumber a = Val x -> 0 <= trunc x < 2 ^ 31.
Lemma wp_add_item b out : Zlen out < MAX_ITEM -> wp (add_item b out) (fun _ => True).
Proof. intros Ho. unfold add_item. by rewrite (proj2 (Z.ltb_ge _ _)) by lia. Qed.
Lemma wp_addquoted b s : wp (addquoted b s) (fun _ => True).
Proof.
  unfold addquoted. apply wp_bind. assert (forall n i b, 0 <= i -> i + Z.of_nat n <= Zlen s -> wp (addquoted_loop s n i b) (fun _ => True)) as Hl.
  { induction n as [|n IH]; intros i b' Hi Hn; cbn [addquoted_loop]; [done|]. apply wp_bind, wp_byte; [lia|]. intros c _. apply IH; lia. }
  eapply wp_mono; [apply Hl; unfold Zlen; lia|done].
Qed.
Lemma item_spec form fl w pr c r : item_parts form fl w pr c -> c <> 0 -> ~ flag (hd 0 r) -> ~ digit (hd 0 r) -> hd 0 r <> 46 ->
  fits (read_spec (37 :: fl ++ w ++ pr ++ r)) /\ (prec (read_spec (37 :: fl ++ w ++ pr ++ r)) = None -> pr = []).
Proof.
  intros (_ & Hfl & Hh & _ & Hw & Hwl & Hpr & _) Hc Hf Hd H46. apply read_spec_fits; try done. intros Hx. apply Hh.
  destruct w as [|x w]; [|done]. by destruct Hpr as [->|(d & -> & _)].
Qed.
Lemma item_form form fl w pr c : item_parts form fl w pr c -> c <> 0 -> form = 37 :: fl ++ w ++ pr ++ [c] /\ Zlen form <= 12.
Proof.
  intros (-> & _ & _ & H1 & _ & H2 & Hpr & _) Hc. rewrite (proj2 (Z.eqb_neq _ _) Hc). split; [done|]. unfold Zlen. cbn. rewrite !length_app. cbn.
  assert (length pr <= 3)%nat by (destruct Hpr as [->|(d & -> & _ & ?)]; cbn; lia). lia.
Qed.
Lemma addintlen_spec form fl w pr c : item_parts form fl w pr c -> c <> 0 -> addintlen form = Val (37 :: fl ++ w ++ pr ++ [108; c]).
Proof.
  intros Hi Hc. destruct (item_form _ _ _ _ _ Hi Hc) as [-> Hl]. unfold addintlen. change MAX_FORMAT with 18. change (Zlen LUA_INTFRMLEN) with 1.
  rewrite (proj2 (Z.ltb_ge _ _)) by lia. unfold mret, outcome_ret. f_equal.
  replace (37 :: fl ++ w ++ pr ++ [c]) with ((37 :: fl ++ w ++ pr) ++ [c]) by (by rewrite <- !app_comm_cons, <- !app_assoc).
  rewrite removelast_last, List.last_last. by rewrite <- !app_comm_cons, <- !app_assoc.
Qed.
Lemma wp_number a (k : num -> outcome (list Z)) : in_range a -> (forall x, 0 <= trunc x < 2 ^ 31 -> wp (k x) (fun _ => True)) ->
  wp (x ← luaL_checknumber a; k x) (fun _ => True).
Proof.
  intros Ha Hk. apply wp_bind. destruct (luaL_checknumber a) as [x|e|f] eqn:E; [by apply Hk, Ha|done|].
  destruct a as [x|l|]; [done| |done]. cbn in E. by destruct (luaO_str2d l).
Qed.
Lemma to_signed_in n : 0 <= n < 2 ^ 31 -> to_signed n = Val n.
Proof. intros Hn. unfold to_signed. by rewrite (proj2 (Z.leb_le _ _)), (proj2 (Z.ltb_lt _ _)) by lia. Qed.
Lemma to_unsigned_in n : 0 <= n < 2 ^ 31 -> to_unsigned n = Val n.
Proof. intros Hn. unfold to_unsigned. by rewrite (proj2 (Z.leb_le _ _)), (proj2 (Z.ltb_lt _ _)) by lia. Qed.
Lemma char_fits s n : fits s -> Zlen (pad s [n]) < MAX_ITEM.
Proof. intros Hs. assert (Zlen (pad s [n]) <= 99); [|by unfold MAX_ITEM; lia]. by apply pad_length. Qed.
Lemma wp_format_item form fl w pr c a b : item_parts form fl w pr c -> in_range a -> wp (format_item form c a b) (fun _ => True).
Proof.
  intros Hi Ha. destruct (decide (c = 0)) as [->|Hc]; [done|]. destruct (item_form _ _ _ _ _ Hi Hc) as [Ef _].
  assert (forall x, x = c -> ~ flag x /\ x <> 46 -> fits (read_spec form) /\ (prec (read_spec form) = None -> pr = [])) as Hf.
  { intros x -> [H1 H2]. rewrite Ef. apply (item_spec form fl w pr c [c]); try done. by destruct Hi as (_ & _ & _ & _ & _ & _ & _ & Hd). }
  assert (fits (read_spec (37 :: fl ++ w ++ pr ++ [108; c]))) as Hl.
  { apply (item_spec form fl w pr c [108; c]); try done; cbn. apply (bool_decide_unpack (¬ _)). by vm_compute. }
  pose proof (addintlen_spec _ _ _ _ _ Hi Hc) as Ea. unfold format_item. case_b E1.
  { destruct (Hf 99 (eq_sym E1)) as [Hs _]; [split; [apply (bool_decide_unpack (¬ _)); by vm_compute|done]|].
    apply wp_number; [done|]. intros x Hx. rewrite (to_signed_in _ Hx). cbn [mbind outcome_bind]. by apply wp_add_item, char_fits. }
  case_b E2.
  { rewrite Ea. cbn [mbind outcome_bind]. apply wp_number; [done|]. intros x Hx. rewrite (to_signed_in _ Hx). cbn [mbind outcome_bind].
    apply wp_add_item. pose proof (fmt_signed_length _ (trunc x) Hl). unfold MAX_ITEM. lia. }
  case_b E3.
  { rewrite Ea. cbn [mbind outcome_bind]. apply wp_number; [done|]. intros x Hx. rewrite (to_unsigned_in _ Hx). cbn [mbind outcome_bind].
    apply wp_add_item. pose proof (fmt_unsigned_length _ (trunc x) Hl). unfold MAX_ITEM. lia. }
  case_b E4; [apply wp_number; [done|]; intros x _; by apply wp_add_item|].
  assert (forall k, (forall s, wp (k s) (fun _ => True)) -> wp (s ← luaL_checklstring a; k s) (fun _ : list Z => True)) as Hstr.
  { intros k Hk. apply wp_bind. destruct a; cbn; [apply Hk..|done]. }
  case_b E5; [apply Hstr; intros s; apply wp_addquoted|]. case_b E6; [|done]. apply Hstr. intros s. case_b E7; [done|].
  destruct (Hf 115 (eq_sym E6)) as [Hs Hp]; [split; [apply (bool_decide_unpack (¬ _)); by vm_compute|done]|].
  apply wp_add_item. pose proof (fmt_string_length (read_spec form) s Hs) as Hl'. unfold MAX_ITEM. destruct (decide (46 ∈ form)) as [Hin|Hnin].
  - destruct (prec (read_spec form)) eqn:Ep; [specialize (Hl' ltac:(done)); lia|]. exfalso. rewrite (Hp eq_refl) in Ef. subst c form.
    destruct Hi as (_ & Hfl & _ & _ & Hw & _). apply list_elem_of_In in Hin. cbn in Hin. destruct Hin as [?|Hin]; [done|]. rewrite !in_app_iff in Hin.
    destruct Hin as [Hin|[Hin|[?|[]]]]; [| |done].
    + apply list_elem_of_In in Hin. pose proof (proj1 (Forall_forall _ _) Hfl _ Hin) as Hflag. revert Hflag. apply (bool_decide_unpack (¬ _)). by vm_compute.
    + apply list_elem_of_In in Hin. by pose proof (proj1 (Forall_forall _ _) Hw _ Hin).
  - rewrite bool_decide_eq_false_2 in E7 by done. apply Z.leb_gt in E7. specialize (Hl' ltac:(done)). lia.
Qed.
Lemma wp_format_loop fuel : forall i args b, 0 <= i <= Zlen fmt -> Zlen fmt - i < Z.of_nat fuel -> Forall in_range args -> wp (format_loop fmt fuel i args b) (fun _ => True).
Proof.
  induction fuel as [|fuel IH]; intros i args b Hi Hf Ha; [lia|]. cbn [format_loop]. case_b E0; [done|]. apply wp_bind, wp_byte; [lia|]. intros c _.
  case_b E1; [apply IH; done || lia|]. apply wp_bind, wp_byte; [lia|]. intros d Hd. case_b E2; [unfold L_ESC in E2; apply IH; done || lia|].
  destruct args as [|a args]; [done|]. apply Forall_cons in Ha as [Ha Has]. apply wp_bind. eapply wp_mono; [apply (wp_scanformat fmt); lia|].
  intros [p form] (Hp & fl & w & pr & x & Hparts & -> & Hx). cbn [mbind outcome_bind]. apply wp_bind.
  destruct (decide (x = 0)) as [->|Hx0]; [done|]. specialize (Hx Hx0).
  eapply wp_mono; [by eapply wp_format_item|]. intros b' _. apply IH; done || lia.
Qed.
End format.

(** [string.format] terminates and stays inside its two fixed buffers,
    the 18 bytes for a format item and the 128 bytes for its text, with any
    format and any arguments, as long as the numbers are in range of the
    integer types and the C library's text of a floating-point number fits. *)
Theorem format_stays_in_buffers `{Double} (fmt : list Z) (args : list arg) :
  (forall form x, Zlen (sprintf_double form x) < MAX_ITEM) -> Forall in_range args -> wp (str_format fmt args) (fun _ => True).
Proof. intros Hfit Ha. apply wp_format_loop; [done|pose proof (Zlen_nonneg fmt); lia|unfold Zlen; lia|done]. Qed.
Lemma format_stays_in_buffers_witness : wp (@str_format integers [37; 53; 100; 37; 115] [Number (7 : @num integers); Text [97]]) (fun _ => True).
Proof.
  apply (@format_stays_in_buffers integers).
  - intros form x. pose proof (fmt_signed_length (MkSpec false false false false false 0 None 100) x) as H. cbn [sprintf_double integers].
    assert (Zlen (fmt_signed (MkSpec false false false false false 0 None 100) x) <= 102); [|unfold MAX_ITEM; lia]. apply H. split; cbn; [lia|done].
  - apply Forall_cons. split; [|apply Forall_cons; split; [|constructor]]; intros x E; [injection E as <-; cbn; lia|done].
Defined.
(** A number whose text is longer overruns the buffer: [%99.99f] of 1e30
    has 131 characters. *)
Theorem format_float_overruns `{Double} (x : num) : MAX_ITEM <= Zlen (sprintf_double [37; 57; 57; 46; 57; 57; 102] x) ->
  str_format [37; 57; 57; 46; 57; 57; 102] [Number x] = Fault OutOfBounds.
Proof.
  intros Hx. unfold str_format. assert (scanformat [37; 57; 57; 46; 57; 57; 102] 1 = Val (6, [37; 57; 57; 46; 57; 57; 102])) as E by (vm_compute; reflexivity).
  change (length [37; 57; 57; 46; 57; 57; 102]) with 7%nat. remember 7%nat as k. cbn [format_loop]. change (0 + 1) with 1. rewrite E.
  assert (format_item [37; 57; 57; 46; 57; 57; 102] 102 (Number x) [] = Fault OutOfBounds) as Ei.
  { cbn -[sprintf_double add_item]. unfold add_item. by rewrite (proj2 (Z.ltb_lt _ _)) by lia. }
  change (at_f _ 0) with (Val 37). change (at_f _ 1) with (Val 57). cbn -[format_item]. change (at_f _ 6) with (Val 102). cbn [mbind outcome_bind]. by rewrite Ei.
Qed.
