(* ===== verification/LuaLex.v ===== *)
(** The input stream and the lexical analyser of the Lua interpreter,
    src/src/lua/lzio.c and llex.c, for chunks that are given piece by piece:
    every function over the state of the lexer. Error messages are left out:
    an error is the point where it is raised. *)
From Stdlib Require String Ascii.
From S2P Require Import Prelude LuaStr LuaFormat.

(** ** Streams

    [z_p] is what is left of the current buffer and [z_n] the counter of it;
    [z_rest] are the buffers the reader will give. *)
Record ZIO := MkZio { z_n : Z; z_i : Z; z_p : list Z; z_rest : list (list Z) }.
Definition EOZ := -1.
Definition char2int (c : Z) : Z := u8 c.
Definition luaZ_init (chunks : list (list Z)) : ZIO := MkZio 0 0 [] chunks.
(** A buffer without bytes is the end, as no buffer is. *)
Definition luaZ_fill (z : ZIO) : ZIO * Z :=
  match z_rest z with
  | (c :: p) :: rest => (MkZio (Zlen p) (z_i z) p rest, char2int c)
  | _ => (MkZio (z_n z) (z_i z) (z_p z) (tail (z_rest z)), EOZ)
  end.
Definition zgetc (z : ZIO) : outcome (ZIO * Z) :=
  let n := z_n z in
  let z := MkZio (u32 (n - 1)) (z_i z) (z_p z) (z_rest z) in
  if 0 <? n then match z_p z with c :: p => mret (MkZio (z_n z) (z_i z) p (z_rest z), char2int c) | [] => Fault OutOfBounds end
  else mret (luaZ_fill z).
Definition luaZ_lookahead (z : ZIO) : outcome (ZIO * Z) :=
  let look z := match z_p z with c :: _ => mret (z, char2int c) | [] => Fault OutOfBounds end in
  if z_n z =? 0 then
    match z_rest z with
    | (c :: p) :: rest => look (MkZio (u32 (Zlen p + 1)) (z_i z) (c :: p) rest)
    | _ => mret (luaZ_fill z)
    end
  else look z.
(** The bytes read and the number of missing ones. *)
Fixpoint luaZ_read_loop (fuel : nat) (z : ZIO) (b : list Z) (n : Z) : outcome (ZIO * (list Z * Z)) :=
  match fuel with
  | O => Fault NoFuel
  | S fuel =>
    if n =? 0 then mret (z, (b, 0)) else
    '(z, c) ← luaZ_lookahead z;
    if c =? EOZ then mret (z, (b, n)) else
    let m := if n <=? z_n z then n else z_n z in
    if Zlen (z_p z) <? m then Fault OutOfBounds else
    luaZ_read_loop fuel (MkZio (z_n z - m) (z_i z + m) (drop (Z.to_nat m) (z_p z)) (z_rest z)) (b ++ take (Z.to_nat m) (z_p z)) (n - m)
  end.
Definition luaZ_read (z : ZIO) (n : Z) : outcome (ZIO * (list Z * Z)) := luaZ_read_loop (S (S (length (z_rest z)))) z [] n.
(** What a stream that has not ended will give. *)
Fixpoint until_empty (l : list (list Z)) : list Z := match l with (c :: p) :: l => c :: p ++ until_empty l | _ => [] end.
Definition flat (z : ZIO) : list Z := if z_n z =? Zlen (z_p z) then z_p z ++ until_empty (z_rest z) else [].

(** ** Tokens *)
Definition FIRST_RESERVED := 257.
Section words.
Import Stdlib.Strings.String.
Definition reserved_words : list string := (["and"; "break"; "do"; "else"; "elseif"; "end"; "false"; "for"; "function"; "if";
  "in"; "local"; "nil"; "not"; "or"; "repeat"; "return"; "then"; "true"; "until"; "while"]%string)%list.
End words.
Definition bytes (s : String.string) : list Z := map (fun c => Z.of_N (Ascii.N_of_ascii c)) (String.list_ascii_of_string s).
Definition luaX_tokens : list (list Z) := map bytes reserved_words.
Definition TK_CONCAT := 278.
Definition TK_DOTS := 279.
Definition TK_EQ := 280.
Definition TK_GE := 281.
Definition TK_LE := 282.
Definition TK_NE := 283.
Definition TK_NUMBER := 284.
Definition TK_NAME := 285.
Definition TK_STRING := 286.
Definition TK_EOS := 287.
Definition MAX_SIZET := 2 ^ 32 - 3.
Definition MAX_INT := 2 ^ 31 - 3.
Definition LUA_MINBUFFER := 32.

Section lexer.
  (** The decimal point of the locale. *)
  Context `{Double} (decimal_point : Z).
Inductive seminfo := NoInfo | Num (r : num) | Str (ts : list Z).
Record Token := MkToken { token : Z; info : seminfo }.
(** [buff] are the bytes in use of the token buffer of [buffsize] bytes. *)
Record LexState := MkLs { current : Z; linenumber : Z; lastline : Z; t : Token; lookahead : Token; z : ZIO; buff : list Z; buffsize : Z; decpoint : Z }.
Definition set_input (c : Z) (z : ZIO) (s : LexState) := MkLs c (linenumber s) (lastline s) (t s) (lookahead s) z (buff s) (buffsize s) (decpoint s).
Definition set_line (n : Z) (s : LexState) := MkLs (current s) n (lastline s) (t s) (lookahead s) (z s) (buff s) (buffsize s) (decpoint s).
Definition set_lastline (n : Z) (s : LexState) := MkLs (current s) (linenumber s) n (t s) (lookahead s) (z s) (buff s) (buffsize s) (decpoint s).
Definition set_t (x : Token) (s : LexState) := MkLs (current s) (linenumber s) (lastline s) x (lookahead s) (z s) (buff s) (buffsize s) (decpoint s).
Definition set_lookahead (x : Token) (s : LexState) := MkLs (current s) (linenumber s) (lastline s) (t s) x (z s) (buff s) (buffsize s) (decpoint s).
Definition set_buff (b : list Z) (n : Z) (s : LexState) := MkLs (current s) (linenumber s) (lastline s) (t s) (lookahead s) (z s) b n (decpoint s).
Definition set_decpoint (c : Z) (s : LexState) := MkLs (current s) (linenumber s) (lastline s) (t s) (lookahead s) (z s) (buff s) (buffsize s) c.

(** A step of the lexer. *)
Definition lex (A : Type) : Type := LexState -> outcome (LexState * A).
#[global] Instance lex_ret : MRet lex := fun A a s => Val (s, a).
#[global] Instance lex_bind : MBind lex := fun A B f m s => '(s, a) ← m s; f a s.
Definition get {A} (f : LexState -> A) : lex A := fun s => Val (s, f s).
Definition modify (f : LexState -> LexState) : lex () := fun s => Val (f s, ()).
Definition raise {A} (e : lua_error) : lex A := fun _ => Raise e.
Definition out_of_fuel {A} : lex A := fun _ => Fault NoFuel.
(** The bytes to come, the current one included. *)
Definition remaining (s : LexState) : nat := (length (flat (z s)) + if Z.eqb (current s) EOZ then 0 else 1)%nat.

Definition next : lex () := fun s => '(z, c) ← zgetc (z s); mret (set_input c z s, ()).
Definition save (c : Z) : lex () := fun s =>
  let n := Zlen (buff s) in
  if buffsize s <? n + 1 then
    if MAX_SIZET / 2 <=? buffsize s then Raise LexicalElementTooLong else
    let newsize := buffsize s * 2 in
    if newsize <=? n then Fault OutOfBounds else mret (set_buff (buff s ++ [u8 c]) newsize s, ())
  else mret (set_buff (buff s ++ [u8 c]) (buffsize s) s, ()).
Definition save_and_next : lex () := c ← get current; _ ← save c; next.
Definition resetbuffer : lex () := modify (fun s => set_buff [] (buffsize s) s).
Definition currIsNewline : lex bool := c ← get current; mret ((c =? 10) || (c =? 13)).
Definition inclinenumber : lex () :=
  old ← get current;
  _ ← next;
  nl ← currIsNewline;
  c ← get current;
  _ ← (if (nl : bool) && negb (c =? old) then next else mret ());
  _ ← modify (fun s => set_line (linenumber s + 1) s);
  n ← get linenumber;
  if MAX_INT <=? n then raise TooManyLines else mret ().
(** [luaZ_resizebuffer] keeps what fits of the old buffer. *)
Definition luaX_setinput (z : ZIO) : lex () :=
  _ ← modify (fun s => MkLs (current s) 1 1 (t s) (MkToken TK_EOS (info (lookahead s))) z (buff s) LUA_MINBUFFER 46);
  next.
(** [strchr] also finds the terminating zero. *)
Definition check_next (set : list Z) : lex bool :=
  c ← get current;
  if bool_decide (u8 c ∈ set ++ [0]) then _ ← save_and_next; mret true else mret false.
Definition buffreplace (from to : Z) : lex () := modify (fun s => set_buff (map (fun c => if c =? from then to else c) (buff s)) (buffsize s) s).
Definition trydecpoint : lex seminfo :=
  old ← get decpoint;
  _ ← modify (set_decpoint decimal_point);
  _ ← buffreplace old decimal_point;
  b ← get buff;
  match luaO_str2d b with Some r => mret (Num r) | None => _ ← buffreplace decimal_point 46; raise MalformedNumber end.
Definition fueled {A} (f : nat -> lex A) : lex A := fun s => f (S (remaining s)) s.
(** [while] the current character is accepted, it is saved. *)
Fixpoint save_while (fuel : nat) (f : Z -> bool) : lex () :=
  match fuel with
  | O => out_of_fuel
  | S fuel => c ← get current; if f c then _ ← save_and_next; save_while fuel f else mret ()
  end.
Definition is_word (c : Z) : bool := isalnum c || (c =? 95).
Definition read_numeral : lex seminfo :=
  _ ← save_and_next;
  _ ← fueled (fun n => save_while n (fun c => isdigit c || (c =? 46)));
  e ← check_next [69; 101];
  _ ← (if (e : bool) then check_next [43; 45] else mret false);
  _ ← fueled (fun n => save_while n is_word);
  _ ← save 0;
  p ← get decpoint;
  _ ← buffreplace 46 p;
  b ← get buff;
  match luaO_str2d b with Some r => mret (Num r) | None => trydecpoint end.
Fixpoint count_seps (fuel : nat) (count : Z) : lex Z :=
  match fuel with
  | O => out_of_fuel
  | S fuel => c ← get current; if c =? 61 then _ ← save_and_next; count_seps fuel (count + 1) else mret count
  end.
Definition skip_sep : lex Z :=
  s ← get current;
  _ ← save_and_next;
  count ← fueled (fun n => count_seps n 0);
  c ← get current;
  mret (if c =? s then count else - count - 1).
(** [luaX_newstring] of a part of the buffer. *)
Definition newstring (o n : Z) : lex seminfo := fun s =>
  if (0 <=? o) && (0 <=? n) && (o + n <=? Zlen (buff s)) then mret (s, Str (slice (buff s) o n)) else Fault OutOfBounds.
(** [keep] says whether the text is wanted: it is not for a comment. *)
Fixpoint long_loop (fuel : nat) (keep : bool) (sep : Z) : lex () :=
  match fuel with
  | O => out_of_fuel
  | S fuel =>
    c ← get current;
    if c =? EOZ then raise (if keep then UnfinishedLongString else UnfinishedLongComment)
    else if c =? 91 then
      n ← skip_sep;
      if n =? sep then
        _ ← save_and_next; if sep =? 0 then raise NestingDeprecated else long_loop fuel keep sep
      else long_loop fuel keep sep
    else if c =? 93 then
      n ← skip_sep;
      if n =? sep then save_and_next else long_loop fuel keep sep
    else if (c =? 10) || (c =? 13) then
      _ ← save 10;
      _ ← inclinenumber;
      _ ← (if keep then mret () else resetbuffer);
      long_loop fuel keep sep
    else
      _ ← (if keep then save_and_next else next);
      long_loop fuel keep sep
  end.
Definition read_long_string (keep : bool) (sep : Z) : lex seminfo :=
  _ ← save_and_next;
  nl ← currIsNewline;
  _ ← (if (nl : bool) then inclinenumber else mret ());
  _ ← fueled (fun n => long_loop n keep sep);
  n ← get (fun s => Zlen (buff s));
  if keep then newstring (2 + sep) (n - 2 * (2 + sep)) else mret NoInfo.
(** A number of at most three digits; [i] are already read. *)
Fixpoint escape_loop (fuel : nat) (i c : Z) : lex Z :=
  match fuel with
  | O => out_of_fuel
  | S fuel =>
    d ← get current;
    let c := 10 * c + (d - 48) in
    _ ← next;
    d ← get current;
    if (i + 1 <? 3) && isdigit d then escape_loop fuel (i + 1) c else mret c
  end.
Definition read_escape : lex () :=
  _ ← next;
  c ← get current;
  let simple c := _ ← save c; next in
  if c =? 97 then simple 7 else if c =? 98 then simple 8 else if c =? 102 then simple 12 else if c =? 110 then simple 10
  else if c =? 114 then simple 13 else if c =? 116 then simple 9 else if c =? 118 then simple 11
  else if (c =? 10) || (c =? 13) then _ ← save 10; inclinenumber
  else if c =? EOZ then mret ()
  else if negb (isdigit c) then save_and_next
  else n ← escape_loop 3 0 0; if 255 <? n then raise EscapeTooLarge else save n.
Fixpoint string_loop (fuel : nat) (del : Z) : lex () :=
  match fuel with
  | O => out_of_fuel
  | S fuel =>
    c ← get current;
    if c =? del then mret ()
    else if (c =? EOZ) || (c =? 10) || (c =? 13) then raise UnfinishedString
    else if c =? 92 then _ ← read_escape; string_loop fuel del
    else _ ← save_and_next; string_loop fuel del
  end.
Definition read_string (del : Z) : lex seminfo :=
  _ ← save_and_next;
  _ ← fueled (fun n => string_loop n del);
  _ ← save_and_next;
  n ← get (fun s => Zlen (buff s));
  newstring 1 (n - 2).

(** A token that is there with or without an equals sign behind. *)
Definition with_eq (c tk : Z) : lex Z :=
  _ ← next;
  d ← get current;
  if d =? 61 then _ ← next; mret tk else mret c.
Fixpoint skip_line (fuel : nat) : lex () :=
  match fuel with
  | O => out_of_fuel
  | S fuel => c ← get current; if (c =? 10) || (c =? 13) || (c =? EOZ) then mret () else _ ← next; skip_line fuel
  end.
(** Behind a [-]: whether it starts a comment, which is skipped. *)
Definition skip_comment : lex () :=
  _ ← next;
  c ← get current;
  sep ← (if c =? 91 then sep ← skip_sep; _ ← resetbuffer; mret sep else mret (-1));
  if 0 <=? sep then _ ← read_long_string false sep; resetbuffer else fueled skip_line.
Fixpoint find_reserved (l : list (list Z)) (i : Z) (name : list Z) : option Z :=
  match l with [] => None | w :: l => if bool_decide (w = name) then Some i else find_reserved l (i + 1) name end.
Definition read_name : lex (Z * seminfo) :=
  _ ← save_and_next;
  _ ← fueled (fun n => save_while n is_word);
  _ ← save 0;
  b ← get buff;
  match find_reserved luaX_tokens 0 (c_string b) with
  | Some i => mret (i + FIRST_RESERVED, NoInfo)
  | None => ts ← newstring 0 (Zlen b - 1); mret (TK_NAME, ts)
  end.
(** A token and what it carries. *)
Definition plain (m : lex Z) : lex (Z * seminfo) := c ← m; mret (c, NoInfo).
Definition carry (tk : Z) (m : lex seminfo) : lex (Z * seminfo) := i ← m; mret (tk, i).
Fixpoint llex_loop (fuel : nat) : lex (Z * seminfo) :=
  match fuel with
  | O => out_of_fuel
  | S fuel =>
    c ← get current;
    if (c =? 10) || (c =? 13) then _ ← inclinenumber; llex_loop fuel
    else if c =? 45 then
      _ ← next;
      d ← get current;
      if negb (d =? 45) then mret (45, NoInfo) else _ ← skip_comment; llex_loop fuel
    else if c =? 91 then
      sep ← skip_sep;
      if 0 <=? sep then carry TK_STRING (read_long_string true sep)
      else if sep =? -1 then mret (91, NoInfo) else raise InvalidLongDelimiter
    else if c =? 61 then plain (with_eq 61 TK_EQ)
    else if c =? 60 then plain (with_eq 60 TK_LE)
    else if c =? 62 then plain (with_eq 62 TK_GE)
    else if c =? 126 then plain (with_eq 126 TK_NE)
    else if (c =? 34) || (c =? 39) then carry TK_STRING (read_string c)
    else if c =? 46 then
      _ ← save_and_next;
      dot ← check_next [46];
      if (dot : bool) then
        dot ← check_next [46]; mret ((if dot : bool then TK_DOTS else TK_CONCAT), NoInfo)
      else
        d ← get current;
        if negb (isdigit d) then mret (46, NoInfo) else carry TK_NUMBER read_numeral
    else if c =? EOZ then mret (TK_EOS, NoInfo)
    else if isspace c then _ ← next; llex_loop fuel
    else if isdigit c then carry TK_NUMBER read_numeral
    else if isalpha c || (c =? 95) then read_name
    else _ ← next; mret (c, NoInfo)
  end.
Definition llex : lex (Z * seminfo) := _ ← resetbuffer; fueled llex_loop.
(** A token that carries nothing leaves what was in the union. *)
Definition as_token (x : Z * seminfo) (old : Token) : Token := MkToken x.1 (match x.2 with NoInfo => info old | i => i end).
Definition luaX_next : lex () :=
  _ ← modify (fun s => set_lastline (linenumber s) s);
  ahead ← get lookahead;
  if negb (token ahead =? TK_EOS) then modify (fun s => set_lookahead (MkToken TK_EOS (info ahead)) (set_t ahead s))
  else x ← llex; modify (fun s => set_t (as_token x (t s)) s).
Definition luaX_lookahead : lex () :=
  x ← llex; modify (fun s => set_lookahead (as_token x (lookahead s)) s).
(** The state [luaX_setinput] is called with. *)
Definition blank : LexState := MkLs 0 0 0 (MkToken 0 NoInfo) (MkToken 0 NoInfo) (luaZ_init []) [] 0 0.
(** The first [n] tokens of a source that comes in chunks. *)
Fixpoint read_tokens (n : nat) : lex (list Token) :=
  match n with O => mret [] | S n => _ ← luaX_next; x ← get t; l ← read_tokens n; mret (x :: l) end.
Definition tokens (chunks : list (list Z)) (n : nat) : outcome (list Token) :=
  '(_, l) ← (_ ← luaX_setinput (luaZ_init chunks); read_tokens n) blank; mret l.
End lexer.
Arguments Num {_} _.
Arguments Str {_} _.
Arguments NoInfo {_}.

(** ** Tests *)
Section tests.
#[local] Existing Instance integers.
Import Stdlib.Strings.String.
Definition shown (x : Token) : Z * list Z := (token x, match info x with NoInfo => [] | Num n => [n : Z] | Str l => l end).
Definition shown_tokens (o : outcome (list Token)) : outcome (list (Z * list Z)) := l ← o; mret (map shown l).
Example lex_test : shown_tokens (tokens 46 [bytes "local x=1"; bytes "0 --[==[ c"; bytes "]] ]==] .. [[a]]..'\065'"]%string 9) =
  Val [(268, []); (TK_NAME, bytes "x"); (61, bytes "x"); (TK_NUMBER, [10]); (TK_CONCAT, [10]); (TK_STRING, bytes "a"); (TK_CONCAT, bytes "a");
       (TK_STRING, bytes "A"); (TK_EOS, bytes "A")].
Proof. vm_compute. reflexivity. Qed.
End tests.
