(* ===== verification/LuaLexStream.v ===== *)
(** The lexer of LuaLex.v sees a stream of bytes: where the reader cuts it
    into buffers makes no difference. *)
From S2P Require Import Prelude LuaStr LuaFormat LuaLex.

Section stream.
  Context `{Double} (decimal_point : Z).

(** ** What the lexer sees

    Buffers are shorter than the counter's range. Behind the end the counter
    is wrapped around: reading once more would leave the buffer. *)
Definition small (l : list (list Z)) : Prop := Forall (fun c => Zlen c <= 2 ^ 32) l.
Definition ok_stream (s : LexState) : Prop :=
  Zlen (z_p (z s)) <= 2 ^ 32 /\ small (z_rest (z s)) /\
  (if current s =? EOZ then 0 < z_n (z s) /\ z_p (z s) = [] else z_n (z s) = Zlen (z_p (z s))).
Definition view (s : LexState) : list Z := if current s =? EOZ then [] else current s :: map u8 (flat (z s)).
Lemma u8_not_EOZ c : u8 c <> EOZ.
Proof. pose proof (wrap_range 8 c). unfold EOZ. lia. Qed.
Lemma remaining_view s : ok_stream s -> remaining s = length (view s).
Proof.
  intros (_ & _ & Hz). unfold remaining, view. destruct (Z.eqb_spec (current s) EOZ).
  - destruct Hz as [Hn Hp]. unfold flat. rewrite Hp, (proj2 (Z.eqb_neq _ _)) by (zlen; lia). done.
  - cbn. rewrite length_map. lia.
Qed.
Lemma flat_live zz : z_n zz = Zlen (z_p zz) -> flat zz = z_p zz ++ until_empty (z_rest zz).
Proof. intros E. unfold flat. by rewrite (proj2 (Z.eqb_eq _ _) E). Qed.
Lemma fill_spec s : ok_stream s -> current s <> EOZ -> z_p (z s) = [] ->
  exists z' c, luaZ_fill (MkZio (u32 (0 - 1)) (z_i (z s)) [] (z_rest (z s))) = (z', c) /\ ok_stream (set_input c z' s) /\
    view (set_input c z' s) = map u8 (until_empty (z_rest (z s))).
Proof.
  intros (_ & Hs & _) _ _. unfold luaZ_fill. cbn [z_rest z_i z_n z_p].
  destruct (z_rest (z s)) as [|[|c p] rest].
  - eexists _, _. split; [done|]. done.
  - eexists _, _. split; [done|]. apply Forall_cons in Hs as [_ Hs]. done.
  - eexists _, _. split; [done|]. apply Forall_cons in Hs as [Hc Hs]. revert Hc. zlen. intros Hc. pose proof (u8_not_EOZ c) as Hne.
    unfold ok_stream, view. cbn [current z set_input z_p z_rest z_n]. unfold char2int. rewrite (proj2 (Z.eqb_neq _ _) Hne). split; [split; [lia|done]|].
    rewrite flat_live by done. done.
Qed.
Lemma zgetc_spec s : ok_stream s -> current s <> EOZ -> exists z' c, zgetc (z s) = Val (z', c) /\ ok_stream (set_input c z' s) /\
  view (set_input c z' s) = tail (view s).
Proof.
  intros Hok Hc. pose proof Hok as (Hp & Hs & Hn). unfold view at 2. rewrite (proj2 (Z.eqb_neq _ _) Hc) in *. cbn [tail]. rewrite (flat_live _ Hn).
  unfold zgetc. rewrite Hn. destruct (z_p (z s)) as [|c p] eqn:Ep.
  - destruct (fill_spec s Hok Hc Ep) as (z' & c & E & Hok' & Hv). exists z', c. cbn [z_n z_i z_p z_rest]. change (0 <? Zlen (@nil Z)) with false. cbv iota.
    change (Zlen (@nil Z)) with 0. split; [|by split]. unfold mret, outcome_ret. f_equal. exact E.
  - revert Hp. zlen. intros Hp. pose proof (Zlen_nonneg p). rewrite (proj2 (Z.ltb_lt _ _)) by lia. cbn [z_n z_i z_p z_rest].
    eexists _, _. split; [reflexivity|]. unfold ok_stream, view. cbn [current z set_input z_p z_rest z_n]. unfold char2int.
    rewrite !(proj2 (Z.eqb_neq _ _) (u8_not_EOZ c)).
    assert (u32 (1 + Zlen p - 1) = Zlen p) as Eu by (rewrite Z.add_simpl_l; apply wrap_small; pow2_norm; lia). rewrite Eu.
    split; [split; [lia|done]|]. rewrite flat_live by done. done.
Qed.
Lemma zgetc_end s : ok_stream s -> current s = EOZ -> zgetc (z s) = Fault OutOfBounds.
Proof.
  intros (_ & _ & Hn) Hc. rewrite (proj2 (Z.eqb_eq _ _) Hc) in Hn. destruct Hn as [Hn Hp]. unfold zgetc. rewrite (proj2 (Z.ltb_lt _ _) Hn). cbn [z_p]. by rewrite Hp.
Qed.

(** ** Reading in blocks
    [luaZ_read] gives the next bytes of the stream, as far as it has them. *)
Definition live (zz : ZIO) : Prop := z_n zz = Zlen (z_p zz) /\ Zlen (z_p zz) < 2 ^ 32 /\ Forall (fun c => Zlen c < 2 ^ 32) (z_rest zz).
Lemma lookahead_spec zz : live zz -> exists z' c, luaZ_lookahead zz = Val (z', c) /\
  ((c = EOZ /\ flat zz = []) \/
   (c <> EOZ /\ live z' /\ flat z' = flat zz /\ z_p z' <> [] /\ (length (z_rest z') + 1 <= length (z_rest zz) + match z_p zz with [] => 0 | _ => 1 end)%nat)).
Proof.
  intros (Hn & Hp & Hs). unfold luaZ_lookahead. rewrite (flat_live _ Hn). destruct (z_p zz) as [|c p] eqn:Ep.
  - rewrite Hn. change (Zlen (@nil Z) =? 0) with true. cbv iota. destruct (z_rest zz) as [|[|c p] rest] eqn:Er.
    + eexists _, _. unfold luaZ_fill. rewrite Er. split; [done|]. by left.
    + eexists _, _. unfold luaZ_fill. rewrite Er. split; [done|]. by left.
    + apply Forall_cons in Hs as [Hc Hs]. revert Hc. zlen. intros Hc. pose proof (Zlen_nonneg p). eexists _, _. split; [done|]. right.
      assert (u32 (Zlen p + 1) = Zlen (c :: p)) as Eu by (rewrite wrap_small by (pow2_norm; lia); zlen; lia). cbn [z_p z_rest].
      split; [apply u8_not_EOZ|]. split; [split; [exact Eu|]; split; [cbn [z_p]; zlen; lia|done]|]. split; [by rewrite flat_live|]. split; [done|]. cbn. lia.
  - rewrite Hn, (Zlen_eqb0 (c :: p)) by done. eexists _, _. split; [done|]. right. split; [apply u8_not_EOZ|].
    split; [split; [by rewrite Ep|]; by rewrite Ep|]. split; [rewrite flat_live by (by rewrite Ep); by rewrite Ep|]. rewrite Ep. split; [done|lia].
Qed.
Lemma luaZ_read_spec fuel : forall zz b n, live zz -> 0 <= n -> (length (z_rest zz) + match z_p zz with [] => 0 | _ => 1 end < fuel)%nat ->
  exists z', luaZ_read_loop fuel zz b n = Val (z', (b ++ take (Z.to_nat n) (flat zz), Z.max 0 (n - Zlen (flat zz)))).
Proof.
  induction fuel as [|fuel IH]; intros zz b n Hz Hn Hf; [lia|]. cbn [luaZ_read_loop]. pose proof (Zlen_nonneg (flat zz)) as Hl0. destruct (Z.eqb_spec n 0) as [->|Hn0].
  { exists zz. rewrite Z.max_l by lia. cbn. by rewrite app_nil_r. }
  destruct (lookahead_spec zz Hz) as (z' & c & -> & [[-> E]|(Hc & Hz' & E & Hp & Hr)]); cbn [mbind outcome_bind].
  { rewrite E. exists z'. change (EOZ =? EOZ) with true. cbv iota. rewrite take_nil, app_nil_r. change (Zlen (@nil Z)) with 0. by rewrite Z.max_r, Z.sub_0_r by lia. }
  rewrite (proj2 (Z.eqb_neq _ _) Hc). destruct Hz' as (Hn' & Hp' & Hs'). rewrite <- E. rewrite (flat_live _ Hn'), Hn'. set (p := z_p z') in *.
  set (q := until_empty (z_rest z')) in *. pose proof (Zlen_nonneg q). pose proof (Zlen_nonneg p). cbv zeta. destruct (Z.leb_spec n (Zlen p)) as [Hle|Hgt].
  - rewrite (proj2 (Z.ltb_ge _ _)) by lia. destruct fuel as [|fuel]; [lia|]. cbn [luaZ_read_loop]. rewrite Z.sub_diag. change (0 =? 0) with true. cbv iota.
    eexists. unfold mret, outcome_ret. rewrite take_app_le by (unfold Zlen in Hle; lia). rewrite Z.max_l by (zlen; lia). done.
  - rewrite Z.ltb_irrefl. rewrite Zlen_to_nat, firstn_all, drop_all, Z.sub_diag.
    destruct (IH (MkZio 0 (z_i z' + Zlen p) [] (z_rest z')) (b ++ p) (n - Zlen p)) as [z2 E2]; [by split|lia|cbn [z_p z_rest]; lia|].
    rewrite E2. exists z2. rewrite flat_live by done. cbn [z_p z_rest app]. fold q. rewrite <- app_assoc. rewrite (take_app_ge p q) by (unfold Zlen in Hgt; lia).
    replace (Z.to_nat (n - Zlen p)) with (Z.to_nat n - length p)%nat by (unfold Zlen; lia). f_equal. f_equal. f_equal. zlen. lia.
Qed.

Theorem luaZ_read_blocks zz n : live zz -> 0 <= n ->
  exists z', luaZ_read zz n = Val (z', (take (Z.to_nat n) (flat zz), Z.max 0 (n - Zlen (flat zz)))).
Proof. intros Hz Hn. apply luaZ_read_spec; [done|done|]. destruct (z_p zz); lia. Qed.

(** ** The same stream in other buffers *)
Record same (s1 s2 : LexState) : Prop := {
  same_view : view s1 = view s2;
  same_ok1 : ok_stream s1;
  same_ok2 : ok_stream s2;
  same_current : current s1 = current s2;
  same_linenumber : linenumber s1 = linenumber s2;
  same_lastline : lastline s1 = lastline s2;
  same_t : t s1 = t s2;
  same_lookahead : lookahead s1 = lookahead s2;
  same_buff : buff s1 = buff s2;
  same_buffsize : buffsize s1 = buffsize s2;
  same_decpoint : decpoint s1 = decpoint s2;
}.
(** The same outcome, in states that are the same. *)
Definition agree {A} (o1 o2 : outcome (LexState * A)) : Prop :=
  match o1, o2 with
  | Val (s1, a1), Val (s2, a2) => a1 = a2 /\ same s1 s2
  | Raise e1, Raise e2 => e1 = e2
  | Fault f1, Fault f2 => f1 = f2
  | _, _ => False
  end.
Definition respects {A} (m : lex A) : Prop := forall s1 s2, same s1 s2 -> agree (m s1) (m s2).
Lemma respects_ret {A} (a : A) : respects (mret a).
Proof. intros s1 s2 Hs. by split. Qed.
Lemma respects_bind {A B} (m : lex A) (k : A -> lex B) : respects m -> (forall a, respects (k a)) -> respects (m ≫= k).
Proof.
  intros Hm Hk s1 s2 Hs. specialize (Hm s1 s2 Hs). unfold mbind, lex_bind, agree in *.
  destruct (m s1) as [[s1' a1]|e1|f1], (m s2) as [[s2' a2]|e2|f2]; cbn in *; try done. destruct Hm as [-> Hs']. by apply Hk.
Qed.
Lemma respects_if {A} (b : bool) (m k : lex A) : respects m -> respects k -> respects (if b then m else k).
Proof. by destruct b. Qed.
Lemma respects_raise {A} e : respects (raise (A := A) e).
Proof. by intros s1 s2 _. Qed.
Lemma respects_no_fuel {A} : respects (out_of_fuel (A := A)).
Proof. by intros s1 s2 _. Qed.
Lemma respects_get {A} (f : LexState -> A) : (forall s1 s2, same s1 s2 -> f s1 = f s2) -> respects (get f).
Proof. intros Hf s1 s2 Hs. split; [by apply Hf|done]. Qed.
Lemma respects_next : respects next.
Proof.
  intros s1 s2 Hs. pose proof Hs as []. unfold next. destruct (decide (current s1 = EOZ)) as [E|Hne].
  - rewrite !zgetc_end by congruence. done.
  - destruct (zgetc_spec s1 ltac:(done) Hne) as (z1 & c1 & -> & Hok1 & Hv1). destruct (zgetc_spec s2 ltac:(done) ltac:(congruence)) as (z2 & c2 & -> & Hok2 & Hv2).
    cbn [mbind outcome_bind mret outcome_ret]. split; [done|].
    assert (view (set_input c1 z1 s1) = view (set_input c2 z2 s2)) as Hv by congruence.
    assert (c1 = c2) as Ec. { unfold view in Hv. cbn in Hv. destruct (c1 =? EOZ) eqn:E1, (c2 =? EOZ) eqn:E2; try done; [apply Z.eqb_eq in E1, E2; congruence|by injection Hv]. }
    by constructor.
Qed.
(** A change of the fields other than the stream. *)
Lemma respects_modify f : (forall s, view (f s) = view s /\ (ok_stream s -> ok_stream (f s))) ->
  (forall s1 s2, same s1 s2 -> current (f s1) = current (f s2) /\ linenumber (f s1) = linenumber (f s2) /\ lastline (f s1) = lastline (f s2) /\ t (f s1) = t (f s2) /\
     lookahead (f s1) = lookahead (f s2) /\ buff (f s1) = buff (f s2) /\ buffsize (f s1) = buffsize (f s2) /\ decpoint (f s1) = decpoint (f s2)) -> respects (modify f).
Proof.
  intros Hv Hf s1 s2 Hs. split; [done|]. pose proof Hs as []. destruct (Hf _ _ Hs) as (? & ? & ? & ? & ? & ? & ? & ?).
  constructor; try done; [destruct (Hv s1) as [-> _], (Hv s2) as [-> _]; done|by apply Hv..].
Qed.
Lemma respects_save c : respects (save c).
Proof.
  intros s1 s2 Hs. pose proof Hs as []. unfold save. rewrite same_buff0, same_buffsize0.
  destruct (_ <? _); [destruct (_ <=? _); [done|]; destruct (_ <=? _); [done|]|]; (split; [done|]); by constructor.
Qed.
Lemma respects_fueled {A} (f : nat -> lex A) : (forall n, respects (f n)) -> respects (fueled f).
Proof.
  intros Hf s1 s2 Hs. unfold fueled. pose proof Hs as []. rewrite (remaining_view s1), (remaining_view s2), same_view0 by done. by apply Hf.
Qed.
Lemma respects_newstring o n : respects (newstring o n).
Proof. intros s1 s2 Hs. pose proof Hs as []. unfold newstring. rewrite same_buff0. by destruct (_ && _). Qed.
End stream.

Create HintDb respects.
#[export] Hint Resolve respects_ret respects_raise respects_no_fuel respects_next respects_save respects_newstring : respects.
(** Goes through the steps of a function. *)
Ltac respects_step :=
  match goal with
  | |- forall _, _ => intro
  | |- respects (_ ≫= _) => apply respects_bind
  | |- respects (if _ then _ else _) => apply respects_if
  | |- respects (get _) => apply respects_get; intros ? ? []; congruence
  | |- respects (fueled _) => apply respects_fueled
  | |- respects (modify _) => apply respects_modify; [done|intros ? ? []; cbn; repeat split; congruence]
  | |- respects (match ?x with _ => _ end) => destruct x
  | |- respects (let _ := _ in _) => cbv zeta
  | |- respects _ => solve [eauto with respects]
  end.
Ltac respects := repeat respects_step.
(** A loop with fuel. *)
Ltac respects_loop fuel := let IH := fresh "IH" in induction fuel as [|fuel IH]; cbn; respects.

Section functions.
  Context `{Double} (decimal_point : Z).
Lemma respects_save_and_next : respects save_and_next.
Proof. unfold save_and_next. respects. Qed.
Lemma respects_resetbuffer : respects resetbuffer.
Proof. unfold resetbuffer. respects. Qed.
Lemma respects_currIsNewline : respects currIsNewline.
Proof. unfold currIsNewline. respects. Qed.
#[local] Hint Resolve respects_save_and_next respects_resetbuffer respects_currIsNewline : respects.
Lemma respects_inclinenumber : respects inclinenumber.
Proof. unfold inclinenumber. respects. Qed.
Lemma respects_check_next l : respects (check_next l).
Proof. unfold check_next. respects. Qed.
Lemma respects_buffreplace a b : respects (buffreplace a b).
Proof. unfold buffreplace. respects. Qed.
#[local] Hint Resolve respects_inclinenumber respects_check_next respects_buffreplace : respects.
Lemma respects_trydecpoint : respects (trydecpoint decimal_point).
Proof. unfold trydecpoint. respects. Qed.
#[local] Hint Resolve respects_trydecpoint : respects.
Lemma respects_save_while fuel f : respects (save_while fuel f).
Proof. respects_loop fuel. Qed.
#[local] Hint Resolve respects_save_while : respects.
Lemma respects_read_numeral : respects (read_numeral decimal_point).
Proof. unfold read_numeral. respects. Qed.
Lemma respects_count_seps fuel : forall n, respects (count_seps fuel n).
Proof. respects_loop fuel. Qed.
#[local] Hint Resolve respects_read_numeral respects_count_seps : respects.
Lemma respects_skip_sep : respects skip_sep.
Proof. unfold skip_sep. respects. Qed.
#[local] Hint Resolve respects_skip_sep : respects.
Lemma respects_long_loop fuel : forall keep sep, respects (long_loop fuel keep sep).
Proof. respects_loop fuel. Qed.
#[local] Hint Resolve respects_long_loop : respects.
Lemma respects_read_long_string keep sep : respects (read_long_string keep sep).
Proof. unfold read_long_string. respects. Qed.
Lemma respects_escape_loop fuel : forall i c, respects (escape_loop fuel i c).
Proof. respects_loop fuel. Qed.
#[local] Hint Resolve respects_read_long_string respects_escape_loop : respects.
Lemma respects_read_escape : respects read_escape.
Proof. unfold read_escape. respects. Qed.
#[local] Hint Resolve respects_read_escape : respects.
Lemma respects_string_loop fuel : forall del, respects (string_loop fuel del).
Proof. respects_loop fuel. Qed.
#[local] Hint Resolve respects_string_loop : respects.
Lemma respects_read_string del : respects (read_string del).
Proof. unfold read_string. respects. Qed.
Lemma respects_with_eq c tk : respects (with_eq c tk).
Proof. unfold with_eq. respects. Qed.
Lemma respects_skip_line fuel : respects (skip_line fuel).
Proof. respects_loop fuel. Qed.
#[local] Hint Resolve respects_read_string respects_with_eq respects_skip_line : respects.
Lemma respects_skip_comment : respects skip_comment.
Proof. unfold skip_comment. respects. Qed.
Lemma respects_read_name : respects read_name.
Proof. unfold read_name. respects. Qed.
#[local] Hint Resolve respects_skip_comment respects_read_name : respects.
Lemma respects_llex_loop fuel : respects (llex_loop decimal_point fuel).
Proof. respects_loop fuel; unfold plain, carry; respects. Qed.
#[local] Hint Resolve respects_llex_loop : respects.
Lemma respects_llex : respects (llex decimal_point).
Proof. unfold llex. respects. Qed.
#[local] Hint Resolve respects_llex : respects.
Lemma respects_luaX_next : respects (luaX_next decimal_point).
Proof. unfold luaX_next. respects. Qed.
#[local] Hint Resolve respects_luaX_next : respects.
Lemma respects_read_tokens n : respects (read_tokens decimal_point n).
Proof. respects_loop n. Qed.
(** The state in front of the first [next]. *)
Definition at_start (chunks : list (list Z)) : LexState :=
  MkLs 0 1 1 (MkToken 0 NoInfo) (MkToken TK_EOS NoInfo) (luaZ_init chunks) [] LUA_MINBUFFER 46.
Lemma at_start_ok chunks : small chunks -> ok_stream (at_start chunks) /\ view (at_start chunks) = 0 :: map u8 (until_empty chunks).
Proof. intros Hs. split; [by split; [done|split]|]. unfold view. cbn [current at_start]. change (0 =? EOZ) with false. by rewrite flat_live. Qed.
Lemma tokens_eq chunks n : tokens decimal_point chunks n = ('(_, l) ← (_ ← next; read_tokens decimal_point n) (at_start chunks); mret l).
Proof. done. Qed.
(** The tokens of a source do not depend on the buffers it comes in: two
    readers that give the same bytes up to their first empty buffer give the
    same tokens, or the same error after as many tokens. *)
Theorem tokens_of_chunks (chunks1 chunks2 : list (list Z)) (n : nat) : small chunks1 -> small chunks2 -> until_empty chunks1 = until_empty chunks2 ->
  tokens decimal_point chunks1 n = tokens decimal_point chunks2 n.
Proof.
  intros H1 H2 E. rewrite !tokens_eq. destruct (at_start_ok _ H1) as [Hok1 Hv1], (at_start_ok _ H2) as [Hok2 Hv2].
  assert (same (at_start chunks1) (at_start chunks2)) as Hs by (constructor; try done; by rewrite Hv1, Hv2, E).
  assert (respects (_ ← next; read_tokens decimal_point n)) as Hr by (apply respects_bind; [apply respects_next|intros _; apply respects_read_tokens]).
  specialize (Hr _ _ Hs). unfold agree in Hr. destruct ((_ ← next; _) (at_start chunks1)) as [[s1 l1]|e1|f1], ((_ ← next; _) (at_start chunks2)) as [[s2 l2]|e2|f2]; try done.
  - destruct Hr as [-> _]. done.
  - by subst.
  - by subst.
Qed.
End functions.
Lemma tokens_of_chunks_witness : @tokens integers 46 [[97; 98]; [32; 99]] 3 = @tokens integers 46 [[97]; [98; 32; 99]] 3.
Proof. apply (@tokens_of_chunks integers); [| |reflexivity]; repeat constructor; discriminate. Defined.
