(* ===== verification/LuaLexSafe.v ===== *)
(** The lexer of LuaLex.v is safe on any source: it terminates, reads nothing
    behind the end of the stream, stays inside its buffer, and every token
    but the last takes at least one byte. *)
From S2P Require Import Prelude LuaStr LuaPattern LuaMatch LuaFind LuaSafe LuaFormat LuaLex LuaLexStream.

Section safe.
  (** The token looked ahead, which reading a token leaves as it is. *)
  Context `{Double} (decimal_point : Z) (ahead : Token).
(** A well-formed state: the stream and the bytes in use of the buffer. *)
Definition ok (s : LexState) : Prop := (ok_stream s /\ current s < 256 /\ lookahead s = ahead) /\ Zlen (buff s) <= buffsize s /\ 1 <= buffsize s.
Lemma zgetc_byte zz z' c : zgetc zz = Val (z', c) -> c < 256.
Proof.
  assert (forall x, char2int x < 256) as Hb by (intros x; pose proof (wrap_range 8 x); unfold char2int; lia).
  unfold zgetc. destruct (0 <? z_n zz); cbn [z_p]; [destruct (z_p zz); [done|intros [= _ <-]; apply Hb]|].
  unfold luaZ_fill. cbn [z_rest]. destruct (z_rest zz) as [|[|x p] rest]; intros [= _ <-]; done || apply Hb.
Qed.
Definition left (s : LexState) : nat := length (view s).
(** A step is safe, takes [d] bytes or more, and saves [n] or more. *)
Definition moved (d : nat) (n : Z) (s s' : LexState) : Prop := ok s' /\ (left s' + d <= left s)%nat /\ Zlen (buff s) + n <= Zlen (buff s').
Definition lwp {A} (m : lex A) (s : LexState) (Q : LexState -> A -> Prop) : Prop := wp (m s) (fun x => Q x.1 x.2).
Lemma lwp_bind {A B} (m : lex A) (k : A -> lex B) s Q : lwp m s (fun s a => lwp (k a) s Q) -> lwp (m ≫= k) s Q.
Proof. unfold lwp, mbind, lex_bind. destruct (m s) as [[s' a]| |]; done. Qed.
Lemma lwp_mono {A} (m : lex A) s (P Q : LexState -> A -> Prop) : lwp m s P -> (forall s a, P s a -> Q s a) -> lwp m s Q.
Proof. intros Hm HPQ. eapply wp_mono; [exact Hm|]. intros [s' a]. apply HPQ. Qed.
Lemma lwp_step {A B} (m : lex A) (k : A -> lex B) s P Q : lwp m s P -> (forall s a, P s a -> lwp (k a) s Q) -> lwp (m ≫= k) s Q.
Proof. intros Hm Hk. apply lwp_bind. by eapply lwp_mono. Qed.
Lemma lwp_get {A B} (f : LexState -> A) (k : A -> lex B) s Q : lwp (k (f s)) s Q -> lwp (get f ≫= k) s Q.
Proof. done. Qed.
Lemma lwp_if {A} (b : bool) (m k : lex A) s Q : (b = true -> lwp m s Q) -> (b = false -> lwp k s Q) -> lwp (if b then m else k) s Q.
Proof. destruct b; auto. Qed.
Lemma lwp_ret {A} (a : A) s (Q : LexState -> A -> Prop) : Q s a -> lwp (mret a) s Q.
Proof. done. Qed.
Lemma moved_refl s : ok s -> moved 0 0 s s.
Proof. intros Hs. split; [done|]. split; lia. Qed.
Lemma moved_trans d1 d2 d n1 n2 n s1 s2 s3 : moved d1 n1 s1 s2 -> moved d2 n2 s2 s3 -> (d <= d1 + d2)%nat -> n <= n1 + n2 -> moved d n s1 s3.
Proof. intros (_ & ? & ?) (? & ? & ?) ? ?. split; [done|]. split; lia. Qed.
Lemma view_pos s : current s <> EOZ -> (0 < left s)%nat.
Proof. intros Hc. unfold left, view. rewrite (proj2 (Z.eqb_neq _ _) Hc). cbn. lia. Qed.

Lemma lwp_next s : ok s -> current s <> EOZ -> lwp next s (fun s' _ => moved 1 0 s s' /\ buff s' = buff s).
Proof.
  intros ((Hok & _ & Ha) & Hb & Hb1) Hc. unfold lwp, next. destruct (zgetc_spec s Hok Hc) as (z' & c & Eg & Hok' & Hv). rewrite Eg. apply zgetc_byte in Eg. cbn. split; [|done].
  split; [by split|]. split; [|cbn; lia]. unfold left. rewrite Hv. pose proof (view_pos s Hc) as Hp. unfold left in Hp. revert Hp. destruct (view s); cbn; lia.
Qed.
Lemma lwp_save c s : ok s -> lwp (save c) s (fun s' _ => moved 0 1 s s' /\ current s' = current s).
Proof.
  intros (Hok & Hb & Hb1). unfold lwp, save. pose proof (Zlen_nonneg (buff s)).
  destruct (Z.ltb_spec (buffsize s) (Zlen (buff s) + 1)).
  - destruct (_ <=? _); [done|]. rewrite (proj2 (Z.leb_gt _ _)) by lia. cbn. split; [|done].
    split; [split; [done|cbn; zlen; lia]|]. split; [unfold left, view; cbn; lia|cbn; zlen; lia].
  - cbn. split; [|done]. split; [split; [done|cbn; zlen; lia]|]. split; [unfold left, view; cbn; lia|cbn; zlen; lia].
Qed.
Lemma lwp_save_and_next s : ok s -> current s <> EOZ -> lwp save_and_next s (fun s' _ => moved 1 1 s s').
Proof.
  intros Hs Hc. unfold save_and_next. apply lwp_get. eapply lwp_step; [by apply lwp_save|]. intros s1 _ [H1 Ec]. cbn in H1.
  eapply lwp_mono; [apply lwp_next; [by apply H1|by rewrite Ec]|]. intros s2 _ [H2 _]. by eapply moved_trans; [exact H1|exact H2|lia|lia].
Qed.
(** A step with a condition on the state, behind others. *)
Lemma lwp_after {A B} d1 n1 d n s0 s (m : lex A) (k : A -> lex B) Q : moved d1 n1 s0 s -> lwp m s (fun s' _ => moved d n s s') ->
  (forall s' a, moved (d1 + d) (n1 + n) s0 s' -> lwp (k a) s' Q) -> lwp (m ≫= k) s Q.
Proof. intros H1 Hm Hk. eapply lwp_step; [exact Hm|]. intros s' a H2. apply Hk. by eapply moved_trans; [exact H1|exact H2|lia|lia]. Qed.
Lemma lwp_resetbuffer s : ok s -> lwp resetbuffer s (fun s' _ => ok s' /\ left s' = left s /\ current s' = current s /\ buff s' = []).
Proof. intros (Hok & Hb & Hb1). assert (Zlen (@nil Z) = 0) as E0 by done.
  unfold lwp, resetbuffer, modify. cbn. split; [split; [done|cbn; lia]|]. done. Qed.
Lemma lwp_newline s : lwp currIsNewline s (fun s' b => s' = s /\ b = (current s =? 10) || (current s =? 13)).
Proof. done. Qed.
Lemma lwp_inclinenumber s : ok s -> current s <> EOZ -> lwp inclinenumber s (fun s' _ => moved 1 0 s s').
Proof.
  intros Hs Hc. unfold inclinenumber. apply lwp_get. eapply lwp_step; [by apply lwp_next|]. intros s1 _ [H1 _].
  eapply lwp_step; [apply lwp_newline|]. intros s2 b [-> Eb]. apply lwp_get.
  eapply lwp_step with (P := fun s' _ => moved 1 0 s s').
  - apply lwp_if; [|done]. intros E. apply andb_true_iff in E as [E _]. rewrite E in Eb. symmetry in Eb. eapply lwp_mono; [apply lwp_next; [by apply H1|]|].
    + intros E'. rewrite E' in Eb. done.
    + intros s' _ [H2 _]. by eapply moved_trans; [exact H1|exact H2|lia|lia].
  - intros s3 ? H3. eapply lwp_step with (P := fun s' _ => moved 1 0 s s'); [exact H3|]. intros s4 ? H4. apply lwp_get. by destruct (_ <=? _).
Qed.
Lemma lwp_fueled {A} (f : nat -> lex A) s Q : ok s -> lwp (f (S (left s))) s Q -> lwp (fueled f) s Q.
Proof. intros Hs Hf. unfold lwp, fueled. rewrite remaining_view by apply Hs. exact Hf. Qed.
Lemma lwp_save_while f fuel : f EOZ = false -> forall s, ok s -> (left s < fuel)%nat -> lwp (save_while fuel f) s (fun s' _ => moved 0 0 s s').
Proof.
  intros Hf. induction fuel as [|fuel IH]; intros s Hs Hl; [lia|]. cbn [save_while]. apply lwp_get. apply lwp_if; intros E; [|by apply moved_refl].
  eapply lwp_step; [apply lwp_save_and_next; [done|congruence]|]. intros s1 ? H1. cbn in H1. pose proof H1 as (Hok & Hl1 & _).
  eapply lwp_mono; [apply IH; [done|lia]|]. intros s2 ? H2. by eapply moved_trans; [exact H1|exact H2|lia|lia].
Qed.
Lemma lwp_check_next l s : 255 ∉ l ++ [0] -> ok s -> lwp (check_next l) s (fun s' _ => moved 0 0 s s').
Proof.
  intros Hl Hs. unfold check_next. apply lwp_get. apply lwp_if; intros E; [|by apply moved_refl]. apply bool_decide_eq_true in E.
  eapply lwp_step; [apply lwp_save_and_next; [done|]|].
  - intros Ec. rewrite Ec in E. done.
  - intros s1 _ (H1 & H2 & H3). apply lwp_ret. split; [done|]. split; lia.
Qed.
(** Changes of the fields the safety does not depend on. *)
Lemma moved_fields s s1 s2 d n : moved d n s s1 -> current s2 = current s1 -> z s2 = z s1 -> Zlen (buff s2) = Zlen (buff s1) -> buffsize s2 = buffsize s1 -> lookahead s2 = lookahead s1 -> moved d n s s2.
Proof.
  intros ((((H1 & H2 & H3) & H8 & H9) & H4 & H5) & H6 & H7) Ec Ez Eb Es El. unfold moved, ok, ok_stream, left, view in *. rewrite Ec, Ez, Eb, Es, El. by repeat split.
Qed.
Lemma lwp_buffreplace a b s : ok s -> lwp (buffreplace a b) s (fun s' _ => moved 0 0 s s').
Proof. intros Hs. apply (moved_fields s s); [by apply moved_refl|done|done| |done|done]. cbn. unfold Zlen. by rewrite length_map. Qed.
Lemma lwp_read_numeral s : ok s -> current s <> EOZ -> lwp (read_numeral decimal_point) s (fun s' _ => moved 1 0 s s').
Proof.
  intros Hs Hc. unfold read_numeral. eapply lwp_step; [by apply lwp_save_and_next|]. intros s1 ? H1. cbn in H1.
  eapply lwp_after; [exact H1|apply lwp_fueled; [by apply H1|apply lwp_save_while; [done|by apply H1|lia]]|]. intros s2 ? H2.
  eapply lwp_after; [exact H2|apply lwp_check_next; [by apply (bool_decide_unpack (¬ _)); vm_compute|by apply H2]|]. intros s3 e H3.
  eapply lwp_after; [exact H3|apply lwp_if; intros _; [apply lwp_check_next; [by apply (bool_decide_unpack (¬ _)); vm_compute|by apply H3]|by apply moved_refl, H3]|]. intros s4 ? H4.
  eapply lwp_after; [exact H4|apply lwp_fueled; [by apply H4|apply lwp_save_while; [done|by apply H4|lia]]|]. intros s5 ? H5.
  eapply lwp_after with (n := 1); [exact H5|eapply lwp_mono; [apply lwp_save, H5|by intros ? ? [? _]]|]. intros s6 ? H6. apply lwp_get.
  eapply lwp_after; [exact H6|apply lwp_buffreplace, H6|]. intros s7 ? H7. apply lwp_get.
  assert (moved 1 0 s s7) as H7' by (destruct H7 as (? & ? & ?); split; [done|]; split; lia).
  destruct (luaO_str2d (buff s7)); [exact H7'|]. unfold trydecpoint. apply lwp_get.
  eapply lwp_step with (P := fun s' _ => moved 1 0 s s'); [by eapply moved_fields|]. intros s8 ? H8.
  eapply lwp_after; [exact H8|apply lwp_buffreplace, H8|]. intros s9 ? H9. apply lwp_get.
  destruct (luaO_str2d (buff s9)); [apply lwp_ret; destruct H9 as (? & ? & ?); split; [done|]; split; lia|]. eapply lwp_step; [apply lwp_buffreplace, H9|done].
Qed.
Lemma lwp_count_seps fuel : forall s count, ok s -> (left s < fuel)%nat -> 0 <= count -> lwp (count_seps fuel count) s (fun s' n => moved 0 (n - count) s s' /\ 0 <= n).
Proof.
  induction fuel as [|fuel IH]; intros s count Hs Hl Hn; [lia|]. cbn [count_seps]. apply lwp_get. apply lwp_if; intros E.
  - eapply lwp_step; [apply lwp_save_and_next; [done|]|]. { intros E'. by rewrite E' in E. }
    intros s1 ? H1. cbn in H1. pose proof H1 as (Hok & Hl1 & _). eapply lwp_mono; [apply IH; [done|lia|lia]|].
    intros s2 n [H2 ?]. split; [|lia]. by eapply moved_trans; [exact H1|exact H2|lia|lia].
  - apply lwp_ret. split; [|done]. replace (count - count) with 0 by lia. by apply moved_refl.
Qed.
(** A separator of [n] equals signs, when it is one. *)
Lemma lwp_skip_sep s : ok s -> current s <> EOZ -> lwp skip_sep s (fun s' n => moved 1 1 s s' /\ (0 <= n -> moved 1 (1 + n) s s' /\ current s' = current s)).
Proof.
  intros Hs Hc. unfold skip_sep. apply lwp_get. eapply lwp_step; [by apply lwp_save_and_next|]. intros s1 ? H1. cbn in H1.
  eapply lwp_step; [apply lwp_fueled; [by apply H1|apply lwp_count_seps; [by apply H1|lia|lia]]|]. intros s2 n [H2 Hn]. cbn in H2. apply lwp_get.
  destruct (Z.eqb_spec (current s2) (current s)).
  - apply lwp_ret. split; [by eapply moved_trans; [exact H1|exact H2|lia|lia]|]. intros _. split; [by eapply moved_trans; [exact H1|exact H2|lia|lia]|done].
  - apply lwp_ret. split; [by eapply moved_trans; [exact H1|exact H2|lia|lia]|]. lia.
Qed.
(** The same when the text is not kept. *)
Definition passed (keep : bool) (d : nat) (n : Z) (s s' : LexState) : Prop := ok s' /\ (left s' + d <= left s)%nat /\ (keep = true -> Zlen (buff s) + n <= Zlen (buff s')).
Lemma moved_passed keep d n s s' : moved d n s s' -> passed keep d n s s'.
Proof. intros (? & ? & ?). by split. Qed.
Lemma passed_trans keep d1 d2 d n1 n2 n s1 s2 s3 : passed keep d1 n1 s1 s2 -> passed keep d2 n2 s2 s3 -> (d <= d1 + d2)%nat -> n <= n1 + n2 -> passed keep d n s1 s3.
Proof. intros (_ & ? & H1) (? & ? & H2) ? ?. split; [done|]. split; [lia|]. intros Hk. specialize (H1 Hk). specialize (H2 Hk). lia. Qed.
Lemma lwp_long_loop keep sep fuel : 0 <= sep -> forall s, ok s -> (left s < fuel)%nat -> lwp (long_loop fuel keep sep) s (fun s' _ => passed keep 1 (2 + sep) s s').
Proof.
  intros Hsep. induction fuel as [|fuel IH]; intros s Hs Hl; [lia|]. cbn [long_loop]. apply lwp_get.
  assert (forall s1, passed keep 1 0 s s1 -> lwp (long_loop fuel keep sep) s1 (fun s' _ => passed keep 1 (2 + sep) s s')) as Hnext.
  { intros s1 H1. pose proof H1 as (Hok & ? & _). eapply lwp_mono; [apply IH; [done|lia]|]. intros s2 ? H2. by eapply passed_trans; [exact H1|exact H2|lia|lia]. }
  apply lwp_if; intros E1; [by destruct keep|]. apply Z.eqb_neq in E1. apply lwp_if; intros E2; [|apply lwp_if; intros E3; [|apply lwp_if; intros E4]].
  - eapply lwp_step; [by apply lwp_skip_sep|]. intros s1 n [H1 H1']. apply lwp_if; intros En.
    + apply Z.eqb_eq in En. destruct H1' as [_ Ec]; [lia|]. eapply lwp_step; [apply lwp_save_and_next; [apply H1|congruence]|]. intros s2 ? H2.
      apply lwp_if; intros _; [done|]. apply Hnext, moved_passed. by eapply moved_trans; [exact H1|exact H2|lia|lia].
    + apply Hnext, moved_passed. by eapply moved_trans; [exact H1|apply moved_refl, H1|lia|lia].
  - eapply lwp_step; [by apply lwp_skip_sep|]. intros s1 n [H1 H1']. apply lwp_if; intros En.
    + apply Z.eqb_eq in En. destruct H1' as [H1' Ec]; [lia|]. eapply lwp_mono; [apply lwp_save_and_next; [apply H1|congruence]|]. intros s2 ? H2.
      apply moved_passed. by eapply moved_trans; [exact H1'|exact H2|lia|lia].
    + apply Hnext, moved_passed. by eapply moved_trans; [exact H1|apply moved_refl, H1|lia|lia].
  - eapply lwp_step; [by apply lwp_save|]. intros s1 ? [H1 Ec]. eapply lwp_step; [apply lwp_inclinenumber; [apply H1|congruence]|]. intros s2 ? H2.
    assert (moved 1 0 s s2) as H12 by (by eapply moved_trans; [exact H1|exact H2|lia|lia]).
    eapply lwp_step with (P := fun s' _ => passed keep 1 0 s s'); [|intros; by apply Hnext].
    destruct keep; [by apply lwp_ret, moved_passed|]. eapply lwp_mono; [apply lwp_resetbuffer, H12|]. intros s3 ? (H3 & Hl3 & _). destruct H12 as (_ & ? & _).
    split; [done|]. split; [lia|done].
  - eapply lwp_step with (P := fun s' _ => passed keep 1 0 s s'); [|intros; by apply Hnext]. destruct keep.
    + eapply lwp_mono; [by apply lwp_save_and_next|]. intros s1 ? H1. apply moved_passed. by eapply moved_trans; [exact H1|apply moved_refl, H1|lia|lia].
    + eapply lwp_mono; [by apply lwp_next|]. intros s1 ? [H1 _]. by apply moved_passed.
Qed.
Lemma lwp_newstring o n s : 0 <= o -> 0 <= n -> o + n <= Zlen (buff s) -> lwp (newstring o n) s (fun s' _ => s' = s).
Proof. intros. unfold lwp, newstring. by rewrite !(proj2 (Z.leb_le _ _)) by lia. Qed.
Lemma lwp_read_long_string keep sep s : 0 <= sep -> ok s -> current s <> EOZ -> (keep = true -> 1 + sep <= Zlen (buff s)) ->
  lwp (read_long_string keep sep) s (fun s' _ => ok s' /\ (left s' < left s)%nat).
Proof.
  intros Hsep Hs Hc Hb. unfold read_long_string. eapply lwp_step; [by apply lwp_save_and_next|]. intros s1 ? H1.
  eapply lwp_step; [apply lwp_newline|]. intros s2 nl [-> Enl]. eapply lwp_step with (P := fun s' _ => moved 1 1 s s').
  { apply lwp_if; intros E; [|done]. rewrite E in Enl. symmetry in Enl. eapply lwp_mono; [apply lwp_inclinenumber; [by apply H1|intros E'; by rewrite E' in Enl]|].
    intros s3 ? H3. by eapply moved_trans; [exact H1|exact H3|lia|lia]. }
  intros s3 ? H3. eapply lwp_step; [apply lwp_fueled; [by apply H3|apply lwp_long_loop; [done|by apply H3|lia]]|]. intros s4 ? H4.
  assert (passed keep 2 (3 + sep) s s4) as (Hok & Hl & Hk) by (eapply passed_trans; [by apply moved_passed|exact H4|lia|lia]). apply lwp_get.
  destruct keep; [|apply lwp_ret; split; [done|lia]]. specialize (Hk eq_refl). specialize (Hb eq_refl).
  eapply lwp_mono; [apply lwp_newstring; lia|]. intros s5 ? ->. split; [done|lia].
Qed.
Lemma lwp_escape_loop fuel : forall s i c, ok s -> isdigit (current s) = true -> (3 <= Z.of_nat fuel + i) -> 0 <= i < 3 -> lwp (escape_loop fuel i c) s (fun s' _ => moved 1 0 s s').
Proof.
  induction fuel as [|fuel IH]; intros s i c Hs Hd Hf Hi; [lia|]. cbn [escape_loop]. apply lwp_get. cbv zeta.
  eapply lwp_step; [apply lwp_next; [done|intros E; by rewrite E in Hd]|]. intros s1 ? [H1 _]. apply lwp_get.
  apply lwp_if; intros E; [|by apply lwp_ret]. apply andb_true_iff in E as [E1 E2]. apply Z.ltb_lt in E1.
  eapply lwp_mono; [apply IH; [by apply H1|done|lia|lia]|]. intros s2 ? H2. by eapply moved_trans; [exact H1|exact H2|lia|lia].
Qed.
Lemma lwp_read_escape s : ok s -> current s <> EOZ -> lwp read_escape s (fun s' _ => moved 1 0 s s').
Proof.
  intros Hs Hc. unfold read_escape. eapply lwp_step; [by apply lwp_next|]. intros s1 ? [H1 _]. apply lwp_get. cbv zeta.
  assert (forall c, current s1 <> EOZ -> lwp (_ ← save c; next) s1 (fun s' _ => moved 1 0 s s')) as Hsimple.
  { intros c Hc1. eapply lwp_step; [apply lwp_save, H1|]. intros s2 ? [H2 Ec]. eapply lwp_mono; [apply lwp_next; [apply H2|congruence]|]. intros s3 ? [H3 _].
    eapply moved_trans; [exact H1|by eapply moved_trans; [exact H2|exact H3|apply Nat.le_refl|apply Z.le_refl]|lia|lia]. }
  do 7 (apply lwp_if; intros E; [apply Hsimple; intros E'; by rewrite E' in E|clear E]).
  apply lwp_if; intros E.
  { eapply lwp_step; [apply lwp_save, H1|]. intros s2 ? [H2 Ec]. eapply lwp_mono; [apply lwp_inclinenumber; [apply H2|]|].
    - intros E'. rewrite Ec in E'. by rewrite E' in E.
    - intros s3 ? H3. eapply moved_trans; [exact H1|by eapply moved_trans; [exact H2|exact H3|apply Nat.le_refl|apply Z.le_refl]|lia|lia]. }
  apply lwp_if; intros E1; [by apply lwp_ret|]. apply Z.eqb_neq in E1. apply lwp_if; intros E2.
  - eapply lwp_mono; [apply lwp_save_and_next; [apply H1|done]|]. intros s2 ? H2. by eapply moved_trans; [exact H1|exact H2|lia|lia].
  - apply negb_false_iff in E2. eapply lwp_step; [apply lwp_escape_loop; [apply H1|done|done|done]|]. intros s2 n H2. apply lwp_if; intros _; [done|].
    eapply lwp_mono; [apply lwp_save, H2|]. intros s3 ? [H3 _]. eapply moved_trans; [exact H1|by eapply moved_trans; [exact H2|exact H3|apply Nat.le_refl|apply Z.le_refl]|lia|lia].
Qed.
Lemma lwp_string_loop del fuel : forall s, del <> EOZ -> ok s -> (left s < fuel)%nat -> lwp (string_loop fuel del) s (fun s' _ => moved 0 0 s s' /\ current s' = del).
Proof.
  induction fuel as [|fuel IH]; intros s Hdel Hs Hl; [lia|]. cbn [string_loop]. apply lwp_get.
  assert (forall s1, moved 1 0 s s1 -> lwp (string_loop fuel del) s1 (fun s' _ => moved 0 0 s s' /\ current s' = del)) as Hnext.
  { intros s1 H1. pose proof H1 as (Hok & ? & _). eapply lwp_mono; [apply IH; [done|done|lia]|]. intros s2 ? [H2 ?]. split; [|done]. by eapply moved_trans; [exact H1|exact H2|lia|lia]. }
  apply lwp_if; intros E1; [apply Z.eqb_eq in E1; apply lwp_ret; split; [by apply moved_refl|done]|]. apply lwp_if; intros E2; [done|].
  assert (current s <> EOZ) as Hc by (intros E; by rewrite E in E2). apply lwp_if; intros E3.
  - eapply lwp_step; [by apply lwp_read_escape|]. intros s1 ? H1. by apply Hnext.
  - eapply lwp_step; [by apply lwp_save_and_next|]. intros s1 ? H1. apply Hnext. by eapply moved_trans; [exact H1|apply moved_refl, H1|lia|lia].
Qed.
(** What every function that reads a token leaves. *)
Definition shorter (s s' : LexState) : Prop := ok s' /\ (left s' < left s)%nat.
Lemma moved_shorter d n s s' : moved (S d) n s s' -> shorter s s'.
Proof. intros (? & ? & ?). split; [done|lia]. Qed.
Lemma lwp_read_string del s : del <> EOZ -> current s = del -> ok s -> lwp (read_string del) s (fun s' _ => shorter s s').
Proof.
  intros Hdel Hc Hs. unfold read_string. eapply lwp_step; [apply lwp_save_and_next; [done|congruence]|]. intros s1 ? H1.
  eapply lwp_step; [apply lwp_fueled; [apply H1|apply lwp_string_loop; [done|apply H1|lia]]|]. intros s2 ? [H2 Ec].
  eapply lwp_step; [apply lwp_save_and_next; [apply H2|congruence]|]. intros s3 ? H3. apply lwp_get.
  assert (moved 2 2 s s3) as Hm by (eapply moved_trans; [exact H1|by eapply moved_trans; [exact H2|exact H3|apply Nat.le_refl|apply Z.le_refl]|lia|lia]).
  pose proof Hm as (_ & _ & Hb). pose proof (Zlen_nonneg (buff s)). eapply lwp_mono; [apply lwp_newstring; lia|]. intros s4 ? ->. by eapply moved_shorter.
Qed.
Lemma lwp_with_eq c tk s : ok s -> current s <> EOZ -> lwp (with_eq c tk) s (fun s' x => shorter s s' /\ (x = c \/ x = tk)).
Proof.
  intros Hs Hc. unfold with_eq. eapply lwp_step; [by apply lwp_next|]. intros s1 ? [H1 _]. apply lwp_get. apply lwp_if; intros E.
  - apply Z.eqb_eq in E. eapply lwp_step; [apply lwp_next; [apply H1|by rewrite E]|]. intros s2 ? [H2 _]. apply lwp_ret. split; [|by right].
    apply (moved_shorter 1 0). by eapply moved_trans; [exact H1|exact H2|lia|lia].
  - apply lwp_ret. split; [by eapply moved_shorter|by left].
Qed.
Lemma lwp_skip_line fuel : forall s, ok s -> (left s < fuel)%nat -> lwp (skip_line fuel) s (fun s' _ => ok s' /\ (left s' <= left s)%nat).
Proof.
  induction fuel as [|fuel IH]; intros s Hs Hl; [lia|]. cbn [skip_line]. apply lwp_get. apply lwp_if; intros E; [by apply lwp_ret|].
  eapply lwp_step; [apply lwp_next; [done|intros E'; by rewrite E' in E]|]. intros s1 ? [(H1 & Hl1 & _) _]. eapply lwp_mono; [apply IH; [done|lia]|]. intros s2 ? [? ?]. split; [done|lia].
Qed.
Lemma lwp_skip_comment s : ok s -> current s <> EOZ -> lwp skip_comment s (fun s' _ => shorter s s').
Proof.
  intros Hs Hc. unfold skip_comment. eapply lwp_step; [by apply lwp_next|]. intros s1 ? [H1 _]. apply lwp_get. pose proof H1 as (Hok1 & Hl1 & _).
  eapply lwp_step with (P := fun s' sep => ok s' /\ (left s' < left s)%nat /\ (0 <= sep -> current s' <> EOZ)).
  - apply lwp_if; intros E; [|apply lwp_ret; split; [done|split; lia]]. apply Z.eqb_eq in E.
    eapply lwp_step; [apply lwp_skip_sep; [done|by rewrite E]|]. intros s2 n [(H2 & Hl2 & _) Hn]. eapply lwp_step; [by apply lwp_resetbuffer|].
    intros s3 ? (H3 & Hl3 & Ec & _). apply lwp_ret. split; [done|]. split; [lia|]. intros Hn0. destruct (Hn Hn0) as [_ E']. rewrite Ec, E', E. done.
  - intros s2 sep (H2 & Hl2 & Hsep). apply lwp_if; intros E.
    + apply Z.leb_le in E. eapply lwp_step; [by apply lwp_read_long_string; [done|done|by apply Hsep|]|]. intros s3 ? [H3 Hl3].
      eapply lwp_mono; [by apply lwp_resetbuffer|]. intros s4 ? (H4 & Hl4 & _). split; [done|lia].
    + eapply lwp_mono; [apply lwp_fueled; [done|apply lwp_skip_line; [done|lia]]|]. intros s3 ? [H3 Hl3]. split; [done|lia].
Qed.
Lemma find_reserved_range l name : forall i j, find_reserved l i name = Some j -> i <= j < i + Zlen l.
Proof.
  induction l as [|w l IH]; intros i j; cbn [find_reserved]; [done|]. pose proof (Zlen_nonneg l). zlen. case_bool_decide; [intros [= <-]; lia|].
  intros E. apply IH in E. lia.
Qed.
(** The end of the source is the only token that is no byte and may take none. *)
Definition token_read (s s' : LexState) (x : Z * seminfo) : Prop := ok s' /\ (x.1 = TK_EOS /\ left s' = 0%nat \/ x.1 <> TK_EOS /\ (left s' < left s)%nat).
Lemma token_read_le s s1 s2 x : (left s1 <= left s)%nat -> token_read s1 s2 x -> token_read s s2 x.
Proof. intros Hl [H2 Hx]. split; [done|]. destruct Hx as [?|[? ?]]; [by left|right; split; [done|lia]]. Qed.
Lemma lwp_read_name s : ok s -> current s <> EOZ -> lwp read_name s (token_read s).
Proof.
  intros Hs Hc. unfold read_name. eapply lwp_step; [by apply lwp_save_and_next|]. intros s1 ? H1.
  eapply lwp_after; [exact H1|apply lwp_fueled; [apply H1|apply lwp_save_while; [done|apply H1|lia]]|]. intros s2 ? H2.
  eapply lwp_after with (n := 1); [exact H2|eapply lwp_mono; [apply lwp_save, H2|by intros ? ? [? _]]|]. intros s3 ? H3. apply lwp_get.
  pose proof H3 as (Hok & Hl & Hb). pose proof (Zlen_nonneg (buff s)). destruct (find_reserved luaX_tokens 0 (c_string (buff s3))) as [i|] eqn:E.
  - apply find_reserved_range in E. change (Zlen luaX_tokens) with 21 in E. apply lwp_ret. split; [done|]. right. unfold FIRST_RESERVED, TK_EOS. cbn [fst]. lia.
  - eapply lwp_step; [apply lwp_newstring; lia|]. intros s4 ts ->. apply lwp_ret. split; [done|]. right. split; [done|lia].
Qed.
Lemma lwp_token (m : lex seminfo) s tk : tk <> TK_EOS -> lwp m s (fun s' _ => shorter s s') -> lwp (carry tk m) s (token_read s).
Proof. intros Htk Hm. unfold carry. eapply lwp_step; [exact Hm|]. intros s' i [? ?]. apply lwp_ret. split; [done|by right]. Qed.
Lemma lwp_plain (m : lex Z) s c tk : c <> TK_EOS -> tk <> TK_EOS -> lwp m s (fun s' x => shorter s s' /\ (x = c \/ x = tk)) -> lwp (plain m) s (token_read s).
Proof. intros Hc Htk Hm. unfold plain. eapply lwp_step; [exact Hm|]. intros s' x [[? ?] Hx]. apply lwp_ret. split; [done|right]. by destruct Hx as [->| ->]. Qed.
Lemma lwp_llex_loop fuel : forall s, ok s -> (left s < fuel)%nat -> lwp (llex_loop decimal_point fuel) s (token_read s).
Proof.
  induction fuel as [|fuel IH]; intros s Hs Hl; [lia|]. cbn [llex_loop]. apply lwp_get.
  assert (forall s1, shorter s s1 -> lwp (llex_loop decimal_point fuel) s1 (token_read s)) as Hnext.
  { intros s1 [H1 Hl1]. eapply lwp_mono; [apply IH; [done|lia]|]. intros s2 x. apply token_read_le. lia. }
  apply lwp_if; intros E1.
  { eapply lwp_step; [apply lwp_inclinenumber; [done|intros E; by rewrite E in E1]|]. intros s1 ? H1. apply Hnext. exact (moved_shorter 0 0 _ _ H1). }
  apply lwp_if; intros E2; [apply Z.eqb_eq in E2|].
  { eapply lwp_step; [apply lwp_next; [done|by rewrite E2]|]. intros s1 ? [(H1 & Hl1 & _) _]. apply lwp_get. apply lwp_if; intros E3; [apply lwp_ret; split; [done|]; right; split; [done|lia]|].
    apply negb_false_iff, Z.eqb_eq in E3. eapply lwp_step; [apply lwp_skip_comment; [done|by rewrite E3]|]. intros s2 ? [H2 Hl2]. apply Hnext. split; [done|lia]. }
  apply lwp_if; intros E3; [apply Z.eqb_eq in E3|].
  { eapply lwp_step; [apply lwp_skip_sep; [done|by rewrite E3]|]. intros s1 n [(H1 & Hl1 & _) Hn]. apply lwp_if; intros En.
    - apply Z.leb_le in En. destruct (Hn En) as [(_ & _ & Hb) Ec]. pose proof (Zlen_nonneg (buff s)). apply (lwp_mono _ _ (token_read s1)).
      + apply lwp_token; [done|]. apply lwp_read_long_string; [done|done|by rewrite Ec, E3|intros _; lia].
      + intros s2 x. apply token_read_le. lia.
    - apply lwp_if; intros _; [|done]. apply lwp_ret. split; [done|]. right. split; [done|lia]. }
  do 4 (apply lwp_if; intros E; [apply Z.eqb_eq in E; eapply lwp_plain; cycle 2; [apply lwp_with_eq; [done|by rewrite E]|done|done]|clear E]).
  apply lwp_if; intros E4.
  { apply lwp_token; [done|]. apply lwp_read_string; [intros E; by rewrite E in E4|done|done]. }
  apply lwp_if; intros E5; [apply Z.eqb_eq in E5|].
  { eapply lwp_step; [apply lwp_save_and_next; [done|by rewrite E5]|]. intros s1 ? (H1 & Hl1 & _).
    eapply lwp_step; [apply lwp_check_next; [by apply (bool_decide_unpack (¬ _)); vm_compute|done]|]. intros s2 dot (H2 & Hl2 & _). apply lwp_if; intros _.
    - eapply lwp_step; [apply lwp_check_next; [by apply (bool_decide_unpack (¬ _)); vm_compute|done]|]. intros s3 dot2 (H3 & Hl3 & _). apply lwp_ret.
      split; [done|]. right. split; [by destruct dot2|lia].
    - apply lwp_get. apply lwp_if; intros Ed; [apply lwp_ret; split; [done|]; right; split; [done|lia]|]. apply negb_false_iff in Ed.
      apply (lwp_mono _ _ (token_read s2)); [|intros s3 x; apply token_read_le; lia].
      apply lwp_token; [done|]. eapply lwp_mono; [apply lwp_read_numeral; [done|intros E; by rewrite E in Ed]|]. intros s3 ? H3. exact (moved_shorter 0 0 _ _ H3). }
  apply lwp_if; intros E6; [apply Z.eqb_eq in E6|].
  { apply lwp_ret. split; [done|]. left. split; [done|]. unfold left, view. by rewrite (proj2 (Z.eqb_eq _ _) E6). }
  apply Z.eqb_neq in E6. apply lwp_if; intros _.
  { eapply lwp_step; [by apply lwp_next|]. intros s1 ? [H1 _]. apply Hnext. exact (moved_shorter 0 0 _ _ H1). }
  apply lwp_if; intros _.
  { apply lwp_token; [done|]. eapply lwp_mono; [by apply lwp_read_numeral|]. intros s1 ? H1. exact (moved_shorter 0 0 _ _ H1). }
  apply lwp_if; intros _; [by apply lwp_read_name|].
  eapply lwp_step; [by apply lwp_next|]. intros s1 ? [(H1 & Hl1 & _) _]. apply lwp_ret. split; [done|]. right. split; [|lia]. destruct Hs as [(_ & ? & _) _]. unfold TK_EOS. cbn [fst]. lia.
Qed.
Lemma lwp_llex s : ok s -> lwp (llex decimal_point) s (token_read s).
Proof.
  intros Hs. unfold llex. eapply lwp_step; [by apply lwp_resetbuffer|]. intros s1 ? (H1 & Hl1 & _). eapply lwp_mono; [apply lwp_fueled; [done|apply lwp_llex_loop; [done|lia]]|].
  intros s2 x [H2 Hx]. split; [done|]. rewrite <- Hl1. exact Hx.
Qed.
Definition progress (s s' : LexState) : Prop :=
  token (t s') = TK_EOS /\ left s' = 0%nat \/ token (t s') <> TK_EOS /\ (left s' < left s)%nat.
Lemma lwp_luaX_next s : ok s -> token ahead = TK_EOS -> lwp (luaX_next decimal_point) s (fun s' _ => ok s' /\ progress s s').
Proof.
  intros Hs Hn. unfold luaX_next. eapply lwp_step with (P := fun s' _ => moved 0 0 s s').
  { by apply (moved_fields s s); [apply moved_refl|..]. }
  intros s1 ? H1. apply lwp_get. pose proof H1 as (((_ & _ & ->) & _ & _) & Hl1 & _). rewrite Hn. change (negb (TK_EOS =? TK_EOS)) with false. cbv iota.
  eapply lwp_step; [apply lwp_llex, H1|]. intros s2 x [H2 Hx].
  assert (moved 0 0 s2 (set_t (as_token x (t s2)) s2)) as (H3 & Hl3 & _) by (by apply (moved_fields s2 s2); [apply moved_refl|..]).
  split; [exact H3|]. destruct Hx as [[? ?]|[? ?]]; [left|right]; (split; [done|]); cbn [fst]; lia.
Qed.
Lemma lwp_read_tokens n : token ahead = TK_EOS -> forall s, ok s ->
  lwp (read_tokens decimal_point n) s (fun _ l => length l = n /\ ((left s < n)%nat -> token <$> last l = Some TK_EOS)).
Proof.
  intros Ha. induction n as [|n IH]; intros s Hs; cbn [read_tokens]; [split; [done|lia]|].
  eapply lwp_step; [by apply lwp_luaX_next|]. intros s1 ? [H1 Hp]. apply lwp_get. eapply lwp_step; [by apply IH|]. intros s2 l [Hl He].
  apply lwp_ret. cbn. split; [by rewrite Hl|]. intros Hn. destruct n as [|n].
  - destruct l; [|done]. cbn. destruct Hp as [[-> _]|[_ ?]]; [done|lia].
  - destruct l as [|x l]; [done|]. rewrite last_cons_cons. apply He. destruct Hp as [[_ ->]|[_ ?]]; lia.
Qed.
End safe.

(** [n] tokens of a source, the last one its end when there are more of them
    than bytes. *)
Definition reaches_end `{Double} (chunks : list (list Z)) (n : nat) (l : list Token) : Prop :=
  length l = n /\ ((length (until_empty chunks) < n)%nat -> token <$> last l = Some TK_EOS).
(** C40: Reading the tokens of any source, in buffers of any size, terminates
    with tokens or a syntax error: the lexer never reads behind the end of
    the stream and stays inside its token buffer, and the end of the source
    comes after at most as many tokens as it has bytes. *)
Theorem lexer_total `{Double} (decimal_point : Z) (chunks : list (list Z)) (n : nat) : small chunks ->
  wp (tokens decimal_point chunks n) (reaches_end chunks n).
Proof.
  intros Hs. rewrite tokens_eq. destruct (at_start_ok _ Hs) as [Hok Hv]. set (ahead := MkToken TK_EOS NoInfo).
  assert (lwp (_ ← next; read_tokens decimal_point n) (at_start chunks) (fun _ l => length l = n /\ ((length (until_empty chunks) < n)%nat -> token <$> last l = Some TK_EOS))) as Hw.
  { eapply lwp_step; [apply (lwp_next ahead)|]; [by split; [split|]|done|]. intros s1 ? [(H1 & Hl & _) _].
    eapply lwp_mono; [by apply (lwp_read_tokens decimal_point ahead)|]. intros s2 l [Hlen He]. split; [done|]. intros Hn. apply He.
    unfold left in *. rewrite Hv in Hl. cbn in Hl. rewrite length_map in Hl. lia. }
  unfold lwp in Hw. destruct ((_ ← next; _) (at_start chunks)) as [[s l]| |]; done.
Qed.
Lemma lexer_total_witness : wp (@tokens integers 46 [[91; 91; 97]; [92]] 5) (reaches_end [[91; 91; 97]; [92]] 5).
Proof. apply (@lexer_total integers 46 [[91; 91; 97]; [92]] 5). repeat constructor; discriminate. Defined.
