(* ===== verification/LuaLexPrint.v ===== *)
(** Printing tokens and reading them back: the lexer of LuaLex.v reads
    reserved words, names, symbols and the quoted strings of
    [string.format] as what they are. *)
From S2P Require Import Prelude LuaStr LuaPattern LuaMatch LuaFind LuaSafe LuaFormat LuaFormatSafe LuaLex LuaLexStream LuaLexSafe.

(** ** Texts *)
(** A byte as [%q] writes it. *)
Definition escaped (c : Z) : list Z :=
  if (c =? 34) || (c =? 92) || (c =? 10) then [92; c] else if c =? 13 then [92; 114] else if c =? 0 then [92; 48; 48; 48] else [c].
Definition quoted (s : list Z) : list Z := 34 :: concat (map escaped s) ++ [34].
Lemma addquoted_quoted b s : addquoted b s = Val (b ++ quoted s).
Proof.
  unfold addquoted. assert (forall n i b, Z.of_nat (length s) = i + Z.of_nat n -> 0 <= i -> addquoted_loop s n i b = Val (b ++ concat (map escaped (drop (Z.to_nat i) s)))) as Hl.
  { induction n as [|n IH]; intros i b' Hn Hi; cbn [addquoted_loop].
    - rewrite drop_ge by lia. by rewrite app_nil_r.
    - destruct (lookup_lt_is_Some_2 s (Z.to_nat i)) as [c Ec]; [lia|].
      assert (bget (cstr s) i = Ok c) as -> by (apply bget_Ok; split; [done|]; by apply lookup_app_l_Some).
      cbn [of_res mbind outcome_bind]. cbv zeta. rewrite IH by lia. rewrite (drop_S _ _ _ Ec). cbn [map concat].
      replace (Z.to_nat (i + 1)) with (S (Z.to_nat i)) by lia. by rewrite <- !app_assoc. }
  rewrite Hl by (unfold Zlen; lia). cbn [mbind outcome_bind]. unfold quoted. by rewrite <- !app_assoc.
Qed.
Inductive word := Reserved (i : nat) | Name (l : list Z) | Quoted (s : list Z) | Symbol (c : Z) | Compare (c : Z) | Concat | Dots.
Definition text (w : word) : list Z :=
  match w with
  | Reserved i => default [] (luaX_tokens !! i)
  | Name l => l
  | Quoted s => quoted s
  | Symbol c => [c]
  | Compare c => [c; 61]
  | Concat => [46; 46]
  | Dots => [46; 46; 46]
  end.
Definition symbols : list Z := [43; 45; 42; 47; 37; 94; 35; 40; 41; 123; 125; 91; 93; 59; 58; 44; 46; 61; 60; 62; 126].
Definition is_byte (c : Z) : bool := (0 <=? c) && (c <? 256).
Definition is_name (l : list Z) : bool := match l with [] => false | c :: _ => (isalpha c || (c =? 95)) && forallb is_word l end.
Definition valid_word (w : word) : bool :=
  match w with
  | Reserved i => (i <? 21)%nat
  | Name l => is_name l && negb (bool_decide (l ∈ luaX_tokens))
  | Quoted s => forallb is_byte s
  | Symbol c => bool_decide (c ∈ symbols)
  | Compare c => bool_decide (c ∈ [61; 60; 62; 126])
  | _ => true
  end.
Section meaning.
  Context `{Double}.
Definition meant (w : word) : Z * seminfo :=
  match w with
  | Reserved i => (Z.of_nat i + FIRST_RESERVED, NoInfo)
  | Name l => (TK_NAME, Str l)
  | Quoted s => (TK_STRING, Str s)
  | Symbol c => (c, NoInfo)
  | Compare c => (if c =? 61 then TK_EQ else if c =? 60 then TK_LE else if c =? 62 then TK_GE else TK_NE, NoInfo)
  | Concat => (TK_CONCAT, NoInfo)
  | Dots => (TK_DOTS, NoInfo)
  end.
(** The tokens, each with what the one before has left in the union. *)
Fixpoint expected (old : Token) (ws : list word) : list Token :=
  match ws with
  | [] => [as_token (TK_EOS, NoInfo) old]
  | w :: ws => let k := as_token (meant w) old in k :: expected k ws
  end.
End meaning.
Definition printed (ws : list word) : list Z := concat (map (fun w => text w ++ [32]) ws).

(** ** Steps that succeed *)
Section run.
  Context `{Double} (decimal_point : Z) (ahead : Token).
Definition twp {A} (m : lex A) (s : LexState) (Q : LexState -> A -> Prop) : Prop :=
  match m s with Val (s', a) => Q s' a | _ => False end.
Lemma twp_step {A B} (m : lex A) (k : A -> lex B) s P Q : twp m s P -> (forall s a, P s a -> twp (k a) s Q) -> twp (m ≫= k) s Q.
Proof. unfold twp, mbind, lex_bind. intros Hm Hk. destruct (m s) as [[s' a]| |]; [|done..]. exact (Hk _ _ Hm). Qed.
Lemma twp_mono {A} (m : lex A) s (P Q : LexState -> A -> Prop) : twp m s P -> (forall s a, P s a -> Q s a) -> twp m s Q.
Proof. unfold twp. intros Hm HPQ. destruct (m s) as [[s' a]| |]; [|done..]. exact (HPQ _ _ Hm). Qed.
Lemma twp_get {A B} (f : LexState -> A) (k : A -> lex B) s Q : twp (k (f s)) s Q -> twp (get f ≫= k) s Q.
Proof. done. Qed.
Lemma twp_ret {A} (a : A) s (Q : LexState -> A -> Prop) : Q s a -> twp (mret a) s Q.
Proof. done. Qed.
(** What is to come, what is in the buffer, the line and the last token. *)
Record at_ (s : LexState) (v b : list Z) (n : Z) (k : Token) : Prop := {
  at_ok : ok ahead s;
  at_view : view s = v;
  at_buff : buff s = b;
  at_line : linenumber s = n;
  at_t : t s = k;
}.
Lemma at_current s c v b n k : at_ s (c :: v) b n k -> current s = c /\ current s <> EOZ.
Proof. intros [_ Hv _ _ _]. unfold view in Hv. destruct (Z.eqb_spec (current s) EOZ); [done|]. by injection Hv. Qed.
Lemma at_end s b n k : at_ s [] b n k -> current s = EOZ.
Proof. intros [_ Hv _ _ _]. unfold view in Hv. by destruct (Z.eqb_spec (current s) EOZ). Qed.
Lemma twp_next s c v b n k : at_ s (c :: v) b n k -> twp next s (fun s' _ => at_ s' v b n k).
Proof.
  intros Ha. destruct (at_current _ _ _ _ _ _ Ha) as [_ Hc]. destruct Ha as [Hok Hv Hb Hl Ht]. pose proof (lwp_next ahead s Hok Hc) as Hn.
  unfold lwp, twp, next in *. destruct Hok as ((Hok & _ & Ha) & _). destruct (zgetc_spec s Hok Hc) as (z' & c' & E & _ & Hv'). rewrite E in *. cbn in *.
  destruct Hn as [[Hok' _] _]. constructor; try done. by rewrite Hv', Hv.
Qed.
Lemma twp_save c s v b n k : at_ s v b n k -> Zlen b < 2147483645 -> twp (save c) s (fun s' _ => at_ s' v (b ++ [u8 c]) n k).
Proof.
  intros [Hok Hv Hb Hl Ht] Hn. pose proof (lwp_save ahead c s Hok) as Hs. unfold lwp, twp, save in *. rewrite Hb in *.
  change (MAX_SIZET / 2) with 2147483646 in *. destruct (Z.ltb_spec (buffsize s) (Zlen b + 1)).
  - rewrite (proj2 (Z.leb_gt 2147483646 _)) in * by lia. destruct (_ <=? _); [done|]. destruct Hs as [[Hs _] _]. by constructor.
  - destruct Hs as [[Hs _] _]. by constructor.
Qed.
Lemma twp_save_and_next s c v b n k : at_ s (c :: v) b n k -> Zlen b < 2147483645 -> twp save_and_next s (fun s' _ => at_ s' v (b ++ [u8 c]) n k).
Proof.
  intros Ha Hb. unfold save_and_next. apply twp_get. destruct (at_current _ _ _ _ _ _ Ha) as [-> _].
  eapply twp_step; [by apply twp_save|]. intros s1 ? H1; cbv beta in H1. by eapply twp_next.
Qed.
(** A new line that is not followed by another one. *)
Lemma twp_inclinenumber s c v b n k : at_ s (c :: v) b n k -> n < MAX_INT - 1 -> match v with d :: _ => d <> 10 /\ d <> 13 | [] => True end ->
  twp inclinenumber s (fun s' _ => at_ s' v b (n + 1) k).
Proof.
  intros Ha Hn Hd. unfold inclinenumber. apply twp_get. eapply twp_step; [by eapply twp_next|]. intros s1 ? H1; cbv beta in H1.
  eapply twp_step with (P := fun s' nl => s' = s1 /\ nl = false).
  { unfold currIsNewline. apply twp_get, twp_ret. split; [done|]. destruct v as [|d v].
    - rewrite (at_end _ _ _ _ H1). done.
    - destruct (at_current _ _ _ _ _ _ H1) as [-> _]. by rewrite !(proj2 (Z.eqb_neq _ _)) by tauto. }
  intros s2 nl [-> ->]. apply twp_get. cbn [andb]. eapply twp_step with (P := fun s' _ => s' = s1); [done|]. intros s2 ? ->.
  eapply twp_step with (P := fun s' _ => at_ s' v b (n + 1) k); [destruct H1 as [? ? ? El ?]; constructor; cbn; congruence || done|]. intros s2 ? H2; cbv beta in H2. apply twp_get.
  pose proof H2 as [_ _ _ El2 _]. rewrite El2, (proj2 (Z.leb_gt _ _)) by lia. by apply twp_ret.
Qed.
Lemma twp_fueled {A} (f : nat -> lex A) s v b n k Q : at_ s v b n k -> twp (f (S (length v))) s Q -> twp (fueled f) s Q.
Proof. intros [Hok Hv _ _ _] Hf. unfold twp, fueled. rewrite remaining_view by apply Hok. by rewrite Hv. Qed.
(** An accepted run of characters. *)
Lemma twp_save_while f l : forall fuel s v b n k, Forall (fun c => f c = true /\ u8 c = c) l -> match v with d :: _ => f d = false | [] => f EOZ = false end -> at_ s (l ++ v) b n k ->
  Zlen b + Zlen l < 2147483646 -> (length l < fuel)%nat -> twp (save_while fuel f) s (fun s' _ => at_ s' v (b ++ l) n k).
Proof.
  induction l as [|c l IH]; intros fuel s v b n k Hl Hd Ha Hb Hf; (destruct fuel as [|fuel]; [cbn in Hf; lia|]); cbn [save_while app] in *; apply twp_get.
  - assert (f (current s) = false) as ->. { destruct v as [|d v]; [by rewrite (at_end _ _ _ _ Ha)|by destruct (at_current _ _ _ _ _ _ Ha) as [-> _]]. }
    apply twp_ret. by rewrite app_nil_r.
  - apply Forall_cons in Hl as [[Hc Hu] Hl]. destruct (at_current _ _ _ _ _ _ Ha) as [-> _]. rewrite Hc. revert Hb. zlen. intros Hb. pose proof (Zlen_nonneg l).
    eapply twp_step; [eapply twp_save_and_next; [exact Ha|lia]|]. intros s1 ? H1; cbv beta in H1. rewrite Hu in H1.
    replace (b ++ c :: l) with ((b ++ [c]) ++ l) by (by rewrite <- app_assoc). apply IH; [done|done|done|zlen; lia|cbn in Hf; lia].
Qed.
Lemma twp_newstring s v b n k o len : at_ s v b n k -> 0 <= o -> 0 <= len -> o + len <= Zlen b -> twp (newstring o len) s (fun s' x => s' = s /\ x = Str (slice b o len)).
Proof. intros [_ _ Eb _ _] Ho Hl Hb. unfold twp, newstring. rewrite Eb. by rewrite !(proj2 (Z.leb_le _ _)) by lia. Qed.
(** ** Quoted strings *)
Definition lines (l : list Z) : Z := Zlen (filter (fun c => c = 10) l).
Lemma lines_cons c l : lines (c :: l) = (if c =? 10 then 1 else 0) + lines l.
Proof. unfold lines. rewrite filter_cons. destruct (Z.eqb_spec c 10); [rewrite decide_True by done; zlen; lia|by rewrite decide_False]. Qed.
Lemma escaped_first l v : match concat (map escaped l) ++ 34 :: v with d :: _ => d <> 10 /\ d <> 13 | [] => True end.
Proof.
  destruct l as [|c l]; [done|]. cbn [map concat]. unfold escaped. destruct ((c =? 34) || (c =? 92) || (c =? 10)) eqn:E1; [done|].
  destruct (c =? 13) eqn:E2; [done|]. destruct (c =? 0); [done|]. cbn. apply orb_false_iff in E1 as [_ E1]. apply Z.eqb_neq in E1, E2. done.
Qed.
Lemma byte_u8 c : is_byte c = true -> u8 c = c.
Proof. unfold is_byte. intros Hc. apply wrap_small. pow2_norm. lia. Qed.
Lemma twp_read_escape s c v b n k : is_byte c = true -> (c =? 34) || (c =? 92) || (c =? 10) || (c =? 13) || (c =? 0) = true ->
  match v with d :: _ => d <> 10 /\ d <> 13 | [] => True end ->
  at_ s (escaped c ++ v) b n k -> Zlen b < 2147483645 -> n < MAX_INT - 1 ->
  twp read_escape s (fun s' _ => at_ s' v (b ++ [c]) (n + (if c =? 10 then 1 else 0)) k).
Proof.
  intros Hbyte Hc Hd Ha Hb Hn. unfold escaped in Ha. unfold read_escape.
  assert (c = 34 \/ c = 92 \/ c = 10 \/ c = 13 \/ c = 0) as Hcases by lia.
  destruct Hcases as [->|[->|[->|[->| ->]]]]; cbn in Ha; (eapply twp_step; [by eapply twp_next|]; intros s1 ? H1; cbv beta in H1; apply twp_get; destruct (at_current _ _ _ _ _ _ H1) as [-> _]; cbn [Z.eqb Pos.eqb orb negb isdigit between andb]).
  - rewrite Z.add_0_r. by apply (twp_save_and_next s1 34).
  - rewrite Z.add_0_r. by apply (twp_save_and_next s1 92).
  - eapply twp_step; [by apply (twp_save 10)|]. intros s2 ? H2; cbv beta in H2. by eapply twp_inclinenumber.
  - eapply twp_step; [by apply (twp_save 13)|]. intros s2 ? H2; cbv beta in H2. rewrite Z.add_0_r. by eapply twp_next.
  - rewrite Z.add_0_r. eapply twp_step with (P := fun s' x => at_ s' v b n k /\ x = 0).
    + cbn [escape_loop]. apply twp_get. cbv zeta. destruct (at_current _ _ _ _ _ _ H1) as [-> _]. eapply twp_step; [by eapply twp_next|]. intros s2 ? H2; cbv beta in H2.
      apply twp_get. destruct (at_current _ _ _ _ _ _ H2) as [-> _]. change ((0 + 1 <? 3) && isdigit 48) with true. cbv iota.
      apply twp_get. cbv zeta. destruct (at_current _ _ _ _ _ _ H2) as [-> _]. eapply twp_step; [by eapply twp_next|]. intros s3 ? H3; cbv beta in H3.
      apply twp_get. destruct (at_current _ _ _ _ _ _ H3) as [-> _]. change ((0 + 1 + 1 <? 3) && isdigit 48) with true. cbv iota.
      apply twp_get. cbv zeta. destruct (at_current _ _ _ _ _ _ H3) as [-> _]. eapply twp_step; [by eapply twp_next|]. intros s4 ? H4; cbv beta in H4.
      apply twp_get. by apply twp_ret.
    + intros s2 x [H2 ->]. by apply (twp_save 0).
Qed.
(** The escaped bytes of a string, up to the closing quote. *)
Lemma twp_string_loop v l : forall fuel s b n k, forallb is_byte l = true -> at_ s (concat (map escaped l) ++ 34 :: v) b n k ->
  Zlen b + Zlen l < 2147483645 -> n + lines l < MAX_INT - 1 -> (length (concat (map escaped l)) < fuel)%nat ->
  twp (string_loop fuel 34) s (fun s' _ => at_ s' (34 :: v) (b ++ l) (n + lines l) k).
Proof.
  induction l as [|c l IH]; intros fuel s b n k Hl Ha Hb Hn Hf; (destruct fuel as [|fuel]; [cbn in Hf; lia|]); cbn [string_loop]; apply twp_get.
  - cbn in Ha. destruct (at_current _ _ _ _ _ _ Ha) as [-> _]. apply twp_ret. change (lines []) with 0. by rewrite app_nil_r, Z.add_0_r.
  - cbn [forallb] in Hl. apply andb_true_iff in Hl as [Hc Hl]. rewrite lines_cons in *. revert Hb. zlen. intros Hb. cbn [map concat] in Ha, Hf. rewrite <- app_assoc in Ha.
    pose proof (Zlen_nonneg l) as Hl0. assert (0 <= lines l) as Hl1 by apply Zlen_nonneg.
    assert (forall s1, at_ s1 (concat (map escaped l) ++ 34 :: v) (b ++ [c]) (n + (if c =? 10 then 1 else 0)) k -> (length (concat (map escaped l)) < fuel)%nat ->
      twp (string_loop fuel 34) s1 (fun s' _ => at_ s' (34 :: v) (b ++ c :: l) (n + ((if c =? 10 then 1 else 0) + lines l)) k)) as Hnext.
    { intros s1 H1 Hf1. replace (b ++ c :: l) with ((b ++ [c]) ++ l) by (by rewrite <- app_assoc). rewrite Z.add_assoc. apply IH; [done|done|zlen; lia|destruct (c =? 10); lia|done]. }
    rewrite length_app in Hf. destruct ((c =? 34) || (c =? 92) || (c =? 10) || (c =? 13) || (c =? 0)) eqn:E.
    + assert (exists q, escaped c = 92 :: q) as [q Eq] by (unfold escaped; destruct ((c =? 34) || (c =? 92) || (c =? 10)); [by eexists|]; destruct (c =? 13); [by eexists|]; destruct (c =? 0); [by eexists|done]).
      pose proof Ha as Ha'. rewrite Eq in Ha', Hf. cbn [app] in Ha'. destruct (at_current _ _ _ _ _ _ Ha') as [-> _]. cbn [length] in Hf.
      change (92 =? 34) with false. change ((92 =? EOZ) || (92 =? 10) || (92 =? 13)) with false. change (92 =? 92) with true. cbv iota.
      eapply twp_step; [apply (twp_read_escape s c _ b n k Hc E (escaped_first l v) Ha); [lia|destruct (c =? 10); lia]|]. intros s1 ? H1; cbv beta in H1. apply Hnext; [done|lia].
    + assert (escaped c = [c]) as Ee by (unfold escaped; destruct (c =? 34), (c =? 92), (c =? 10), (c =? 13), (c =? 0); done). rewrite Ee in Ha, Hf. cbn [app length] in Ha, Hf.
      destruct (at_current _ _ _ _ _ _ Ha) as [-> HE]. assert ((c =? 34) = false /\ (c =? 92) = false /\ (c =? 10) = false /\ (c =? 13) = false) as (E1 & E2 & E3 & E4) by lia.
      rewrite E3, Z.add_0_r in Hnext. rewrite E1, E2, E3, E4, (proj2 (Z.eqb_neq _ _)) by (destruct (at_current _ _ _ _ _ _ Ha) as [<- ?]; done). cbn [orb].
      eapply twp_step; [eapply twp_save_and_next; [exact Ha|lia]|]. intros s1 ? H1; cbv beta in H1. rewrite (byte_u8 _ Hc) in H1. apply Hnext; [done|lia].
Qed.
(** ** One word *)
(** The word [x] was read, and a space is next. *)
Definition read_as (v : list Z) (n : Z) (k : Token) (x : Z * seminfo) (s' : LexState) (y : Z * seminfo) : Prop :=
  y = x /\ exists b, at_ s' (32 :: v) b n k.
Lemma twp_quoted l s v n k : forallb is_byte l = true -> at_ s (quoted l ++ 32 :: v) [] n k -> Zlen l < 2147483640 -> n + lines l < MAX_INT - 1 ->
  twp (carry TK_STRING (read_string 34)) s (read_as v (n + lines l) k (TK_STRING, Str l)).
Proof.
  intros Hl Ha Hb Hn. unfold carry, read_string. eapply twp_step with (P := fun s' x => (exists b, at_ s' (32 :: v) b (n + lines l) k) /\ x = Str l);
    [|intros s' x [? ->]; by apply twp_ret]. unfold quoted in Ha. cbn [app] in Ha. rewrite <- app_assoc in Ha. cbn [app] in Ha.
  eapply twp_step; [by apply (twp_save_and_next s 34)|]. intros s1 ? H1; cbv beta in H1. change ([] ++ [u8 34]) with [34] in H1.
  eapply twp_step; [eapply twp_fueled; [exact H1|]; apply (twp_string_loop (32 :: v) l); [done|exact H1|zlen; lia|done|rewrite length_app; cbn; lia]|].
  intros s2 ? H2; cbv beta in H2. eapply twp_step; [apply (twp_save_and_next s2 34); [exact H2|zlen; lia]|]. intros s3 ? H3; cbv beta in H3.
  change (u8 34) with 34 in H3. apply twp_get. pose proof H3 as [_ _ Eb _ _]. rewrite Eb. pose proof (Zlen_nonneg l).
  eapply twp_mono; [apply (twp_newstring _ _ _ _ _ _ _ H3); zlen; lia|]. intros s4 x [-> ->]. split; [by eexists|]. f_equal.
  unfold slice. cbn [app]. replace (Z.to_nat _) with (length l) at 1 by (unfold Zlen; cbn; rewrite !length_app; cbn; lia). change (Z.to_nat 1) with 1%nat. cbn [drop]. rewrite drop_0.
  by rewrite take_app_length.
Qed.
Lemma word_char c : is_word c = true -> u8 c = c /\ c <> 0.
Proof. unfold is_word, isalnum, isalpha, islower, isupper, isdigit, between. intros Hc. split; [apply wrap_small; pow2_norm; lia|lia]. Qed.
Lemma twp_name l s v n k : is_name l = true -> at_ s (l ++ 32 :: v) [] n k -> Zlen l < 2147483640 ->
  twp read_name s (read_as v n k (match find_reserved luaX_tokens 0 l with Some i => (i + FIRST_RESERVED, NoInfo) | None => (TK_NAME, Str l) end)).
Proof.
  intros Hn Ha Hb. destruct l as [|c l]; [done|]. unfold is_name in Hn. apply andb_true_iff in Hn as [_ Hw]. cbn [forallb] in Hw. apply andb_true_iff in Hw as [Hc Hw].
  destruct (word_char c Hc) as [Eu Hc0]. unfold read_name. cbn [app] in Ha. revert Hb. zlen. intros Hb. pose proof (Zlen_nonneg l) as Hl0.
  eapply twp_step; [by apply (twp_save_and_next s c)|]. intros s1 ? H1; cbv beta in H1. rewrite Eu in H1. cbn [app] in H1.
  assert (Forall (fun c => is_word c = true) l) as Hf by (by apply Forall_forall; intros x Hx; rewrite forallb_forall in Hw; apply Hw, list_elem_of_In).
  eapply twp_step; [eapply twp_fueled; [exact H1|]; eapply (twp_save_while is_word l _ s1 (32 :: v)); [|done|exact H1|zlen; lia|rewrite length_app; lia]|].
  { eapply Forall_impl; [exact Hf|]. cbn. intros x Hx. split; [done|]. by apply word_char. }
  intros s2 ? H2; cbv beta in H2. eapply twp_step; [apply (twp_save 0); [exact H2|zlen; lia]|]. intros s3 ? H3; cbv beta in H3. change (u8 0) with 0 in H3.
  apply twp_get. pose proof H3 as [_ _ Eb _ _]. rewrite Eb.
  assert (c_string (([c] ++ l) ++ [0]) = c :: l) as ->.
  { rewrite c_string_app; [by rewrite app_nil_r|]. apply Forall_cons. split; [done|]. eapply Forall_impl; [exact Hf|]. cbn. intros x Hx. by apply word_char. }
  destruct (find_reserved luaX_tokens 0 (c :: l)); [apply twp_ret; split; [done|by eexists]|].
  eapply twp_step; [apply (twp_newstring _ _ _ _ _ _ _ H3); zlen; lia|]. intros s4 x [-> ->]. apply twp_ret. split; [|by eexists]. f_equal. f_equal.
  unfold slice. cbn [Z.to_nat drop]. rewrite drop_0. replace (Z.to_nat _) with (length ([c] ++ l)) by (unfold Zlen; rewrite !length_app; cbn; lia). by rewrite take_app_length.
Qed.
Definition word_lines (w : word) : Z := match w with Quoted l => lines l | _ => 0 end.
Lemma find_reserved_not l name : forall i, name ∉ l -> find_reserved l i name = None.
Proof.
  induction l as [|w l IH]; intros i Hn; cbn [find_reserved]; [done|]. apply not_elem_of_cons in Hn as [Hw Hn]. rewrite bool_decide_eq_false_2 by congruence. by apply IH.
Qed.
Lemma reserved_all : forallb (fun i => let l := default [] (luaX_tokens !! i) in is_name l && bool_decide (find_reserved luaX_tokens 0 l = Some (Z.of_nat i)) && (length l <? 10)%nat) (seq 0 21) = true.
Proof. vm_compute. reflexivity. Qed.
Lemma reserved_spec i : (i < 21)%nat -> is_name (default [] (luaX_tokens !! i)) = true /\ find_reserved luaX_tokens 0 (default [] (luaX_tokens !! i)) = Some (Z.of_nat i).
Proof.
  intros Hi. pose proof reserved_all as Hall. rewrite forallb_forall in Hall. specialize (Hall i). rewrite in_seq in Hall. specialize (Hall ltac:(lia)). cbv zeta in Hall.
  apply andb_true_iff in Hall as [[Hn Hf]%andb_true_iff _]. by apply bool_decide_eq_true in Hf.
Qed.
Lemma name_first c l : is_name (c :: l) = true -> (c =? 10) || (c =? 13) = false /\ (c =? 45) = false /\ (c =? 91) = false /\ (c =? 61) = false /\ (c =? 60) = false /\
  (c =? 62) = false /\ (c =? 126) = false /\ (c =? 34) || (c =? 39) = false /\ (c =? 46) = false /\ (c =? EOZ) = false /\ isspace c = false /\ isdigit c = false /\ isalpha c || (c =? 95) = true.
Proof.
  unfold is_name. intros [Hc _]%andb_true_iff. rewrite Hc. revert Hc. unfold isalpha, islower, isupper, isspace, isdigit, between, EOZ. intros Hc. repeat split; lia.
Qed.
Lemma twp_name_word l s v n k fuel : is_name l = true -> at_ s (l ++ 32 :: v) [] n k -> Zlen l < 2147483640 ->
  twp (llex_loop decimal_point (S fuel)) s (read_as v n k (match find_reserved luaX_tokens 0 l with Some i => (i + FIRST_RESERVED, NoInfo) | None => (TK_NAME, Str l) end)).
Proof.
  intros Hn Ha Hb. pose proof (twp_name l s v n k Hn Ha Hb) as Hr. destruct l as [|c l]; [done|]. destruct (at_current _ _ _ _ _ _ Ha) as [Ec _].
  cbn [llex_loop]. apply twp_get. rewrite Ec. destruct (name_first c l Hn) as (-> & -> & -> & -> & -> & -> & -> & -> & -> & -> & -> & -> & ->). exact Hr.
Qed.
(** The first character decides. *)
Ltac first_char Ha := apply twp_get; destruct (at_current _ _ _ _ _ _ Ha) as [-> _].
Lemma twp_with_eq1 c tk s v n k : at_ s (c :: 32 :: v) [] n k -> twp (plain (with_eq c tk)) s (read_as v n k (c, NoInfo)).
Proof.
  intros Ha. unfold plain, with_eq. eapply twp_step with (P := fun s' x => at_ s' (32 :: v) [] n k /\ x = c); [|intros s' x [? ->]; apply twp_ret; split; [done|by eexists]].
  eapply twp_step; [by eapply twp_next|]. intros s1 ? H1; cbv beta in H1. first_char H1. by apply twp_ret.
Qed.
Lemma twp_with_eq2 c tk s v n k : at_ s (c :: 61 :: 32 :: v) [] n k -> twp (plain (with_eq c tk)) s (read_as v n k (tk, NoInfo)).
Proof.
  intros Ha. unfold plain, with_eq. eapply twp_step with (P := fun s' x => at_ s' (32 :: v) [] n k /\ x = tk); [|intros s' x [? ->]; apply twp_ret; split; [done|by eexists]].
  eapply twp_step; [by eapply twp_next|]. intros s1 ? H1; cbv beta in H1. first_char H1. change (61 =? 61) with true. cbv iota.
  eapply twp_step; [by eapply twp_next|]. intros s2 ? H2; cbv beta in H2. by apply twp_ret.
Qed.
Lemma twp_check_next_no l s c v b n k : at_ s (c :: v) b n k -> u8 c ∉ l ++ [0] -> twp (check_next l) s (fun s' x => s' = s /\ x = false).
Proof. intros Ha Hc. unfold check_next. first_char Ha. by rewrite bool_decide_eq_false_2. Qed.
Lemma twp_check_next_yes l s c v b n k : at_ s (c :: v) b n k -> u8 c ∈ l ++ [0] -> Zlen b < 2147483645 -> twp (check_next l) s (fun s' x => at_ s' v (b ++ [u8 c]) n k /\ x = true).
Proof.
  intros Ha Hc Hb. unfold check_next. first_char Ha. rewrite bool_decide_eq_true_2 by done. eapply twp_step; [by eapply twp_save_and_next|]. intros s1 ? H1; cbv beta in H1. by apply twp_ret.
Qed.
Lemma twp_symbol c s v n k fuel : c ∈ symbols -> at_ s (c :: 32 :: v) [] n k -> twp (llex_loop decimal_point (S fuel)) s (read_as v n k (c, NoInfo)).
Proof.
  intros Hc Ha. cbn [llex_loop]. first_char Ha.
  assert (twp (_ ← next; mret (c, NoInfo)) s (read_as v n k (c, NoInfo))) as Hplain.
  { eapply twp_step; [by eapply twp_next|]. intros s1 ? H1; cbv beta in H1. apply twp_ret. split; [done|by eexists]. }
  apply list_elem_of_In in Hc. cbn in Hc. repeat (destruct Hc as [<-|Hc]; [try exact Hplain; try (by apply twp_with_eq1)|]); [..|done].
  - change ((45 =? 10) || (45 =? 13)) with false. change (45 =? 45) with true. cbv iota.
    eapply twp_step; [by eapply twp_next|]. intros s1 ? H1; cbv beta in H1. first_char H1. apply twp_ret. split; [done|by eexists].
  - change ((91 =? 10) || (91 =? 13)) with false. change (91 =? 45) with false. change (91 =? 91) with true. cbv iota.
    eapply twp_step with (P := fun s' x => at_ s' (32 :: v) [91] n k /\ x = -1); [|intros s' x [? ->]; apply twp_ret; split; [done|by eexists]].
    unfold skip_sep. apply twp_get. eapply twp_step; [by apply (twp_save_and_next s 91)|]. intros s1 ? H1; cbv beta in H1. cbn [app] in H1. change (u8 91) with 91 in H1.
    eapply twp_step with (P := fun s' x => s' = s1 /\ x = 0).
    { eapply twp_fueled; [exact H1|]. cbn [count_seps]. first_char H1. by apply twp_ret. }
    intros s2 count [-> ->]. apply twp_get. destruct (at_current _ _ _ _ _ _ H1) as [-> _]. destruct (at_current _ _ _ _ _ _ Ha) as [-> _]. by apply twp_ret.
  - change ((46 =? 10) || (46 =? 13)) with false. change (46 =? EOZ) with false. cbn [Z.eqb Pos.eqb orb].
    eapply twp_step; [by apply (twp_save_and_next s 46)|]. intros s1 ? H1; cbv beta in H1.
    eapply twp_step; [by eapply twp_check_next_no; [exact H1|apply (bool_decide_unpack (¬ _)); vm_compute]|]. intros s2 dot [-> ->]. first_char H1. apply twp_ret. split; [done|by eexists].
Qed.
Lemma twp_dots s v n k fuel (three : bool) : at_ s ((if three then [46; 46; 46] else [46; 46]) ++ 32 :: v) [] n k ->
  twp (llex_loop decimal_point (S fuel)) s (read_as v n k (if three then TK_DOTS else TK_CONCAT, NoInfo)).
Proof.
  intros Ha. assert (at_ s (46 :: (if three then [46; 46] else [46]) ++ 32 :: v) [] n k) as Ha' by (by destruct three). cbn [llex_loop]. first_char Ha'.
  change ((46 =? 10) || (46 =? 13)) with false. change (46 =? EOZ) with false. cbn [Z.eqb Pos.eqb orb].
  eapply twp_step; [by apply (twp_save_and_next s 46)|]. intros s1 ? H1; cbv beta in H1.
  assert (at_ s1 (46 :: (if three then [46] else []) ++ 32 :: v) [46] n k) as H1' by (by destruct three).
  eapply twp_step; [apply (twp_check_next_yes [46] s1 46 _ _ _ _ H1'); [by apply (bool_decide_unpack _); vm_compute|done]|]. intros s2 dot [H2 ->].
  destruct three; cbn [app] in H2.
  - eapply twp_step; [apply (twp_check_next_yes [46] s2 46 _ _ _ _ H2); [by apply (bool_decide_unpack _); vm_compute|done]|]. intros s3 dot [H3 ->]. apply twp_ret. split; [done|by eexists].
  - eapply twp_step; [eapply twp_check_next_no; [exact H2|by apply (bool_decide_unpack (¬ _)); vm_compute]|]. intros s3 dot [-> ->]. apply twp_ret. split; [done|by eexists].
Qed.
Lemma twp_word w s v n k fuel : valid_word w = true -> at_ s (text w ++ 32 :: v) [] n k -> Zlen (text w) < 2147483640 -> n + word_lines w < MAX_INT - 1 ->
  twp (llex_loop decimal_point (S fuel)) s (read_as v (n + word_lines w) k (meant w)).
Proof.
  intros Hw Ha Hb Hn. destruct w as [i|l|l|c|c| |]; cbn [valid_word text word_lines meant] in *; rewrite ?Z.add_0_r in *.
  - apply Nat.ltb_lt in Hw. destruct (reserved_spec i Hw) as [Hname Hf]. pose proof (twp_name_word _ s v n k fuel Hname Ha Hb) as Hr. by rewrite Hf in Hr.
  - apply andb_true_iff in Hw as [Hname Hnot]. apply negb_true_iff, bool_decide_eq_false in Hnot. pose proof (twp_name_word _ s v n k fuel Hname Ha Hb) as Hr.
    by rewrite find_reserved_not in Hr.
  - cbn [llex_loop]. first_char Ha. apply twp_quoted; [done|done| |done]. assert (Zlen l <= Zlen (concat (map escaped l))) as Hlen.
    { clear. induction l as [|c l IH]; cbn; [lia|]. zlen. assert (1 <= Zlen (escaped c)); [|lia]. unfold escaped. destruct (_ || _), (c =? 13), (c =? 0); done. }
    unfold quoted in Hb. revert Hb. zlen. lia.
  - apply bool_decide_eq_true in Hw. by apply twp_symbol.
  - apply bool_decide_eq_true, list_elem_of_In in Hw. cbn in Hw. cbn [llex_loop app] in *. first_char Ha. destruct Hw as [<-|[<-|[<-|[<-|[]]]]]; by apply twp_with_eq2.
  - by apply (twp_dots s v n k fuel false).
  - by apply (twp_dots s v n k fuel true).
Qed.
(** ** Several words *)
Context (no_ahead : token ahead = TK_EOS).
(** Reading a token with one space in front or none. *)
Lemma twp_llex (sp : bool) (q : list Z) s b n k R : at_ s ((if sp then [32] else []) ++ q) b n k ->
  (forall fuel s, at_ s q [] n k -> twp (llex_loop decimal_point (S fuel)) s R) -> twp (llex decimal_point) s R.
Proof.
  intros Ha Hq. unfold llex. eapply twp_step with (P := fun s' _ => at_ s' ((if sp then [32] else []) ++ q) [] n k).
  { destruct Ha as [Hok Hv Hb Hl Ht]. pose proof (lwp_resetbuffer ahead s Hok) as Hr. unfold lwp, resetbuffer, modify in Hr. cbn in Hr. destruct Hr as (Hok' & _ & _). by constructor. }
  intros s1 ? H1; cbv beta in H1. eapply twp_fueled; [exact H1|]. destruct sp; cbn [app length] in *; [|by apply Hq].
  remember (S (length q)) as fuel eqn:Ef. cbn [llex_loop]. first_char H1. change ((32 =? 10) || (32 =? 13)) with false. change (32 =? EOZ) with false.
  cbn [Z.eqb Pos.eqb orb]. change (isspace 32) with true. cbv iota. eapply twp_step; [by eapply twp_next|]. intros s2 ? H2; cbv beta in H2. rewrite Ef. by apply Hq.
Qed.
(** [luaX_next] makes a token of it. *)
Lemma twp_luaX_next s v b n k v' n' x : at_ s v b n k -> (forall s1, at_ s1 v b n k -> twp (llex decimal_point) s1 (fun s' y => y = x /\ exists b', at_ s' v' b' n' k)) ->
  twp (luaX_next decimal_point) s (fun s' _ => exists b', at_ s' v' b' n' (as_token x k)).
Proof.
  intros Ha Hq. unfold luaX_next. eapply twp_step with (P := fun s' _ => at_ s' v b n k).
  { destruct Ha as [Hok Hv Hb Hl Ht]. by constructor. }
  intros s1 ? H1; cbv beta in H1. apply twp_get. pose proof H1 as [((_ & _ & ->) & _) _ _ _ _]. rewrite no_ahead. change (negb (TK_EOS =? TK_EOS)) with false. cbv iota.
  eapply twp_step; [by apply Hq|]. intros s2 y [-> [b' [Hok Hv Hb Hl Ht]]]. exists b'. constructor; try done. cbn. by rewrite Ht.
Qed.
Lemma word_lines_le w : 0 <= word_lines w <= Zlen (text w).
Proof.
  destruct w as [i|l|l|c|c| |]; cbn [word_lines text]; try (split; [lia|apply Zlen_nonneg]). split; [apply Zlen_nonneg|]. unfold quoted. zlen.
  induction l as [|c l IH]; cbn [map concat]; [by vm_compute|]. rewrite lines_cons. zlen. assert (1 <= Zlen (escaped c)); [|destruct (c =? 10); lia].
  unfold escaped. destruct (_ || _), (c =? 13), (c =? 0); done.
Qed.
Lemma printed_cons w ws : printed (w :: ws) = text w ++ 32 :: printed ws.
Proof. unfold printed. cbn. by rewrite <- app_assoc. Qed.
Lemma twp_llex_end s n k fuel : at_ s [] [] n k -> twp (llex_loop decimal_point (S fuel)) s (fun s' y => y = (TK_EOS, NoInfo) /\ exists b', at_ s' [] b' n k).
Proof. intros Ha. cbn [llex_loop]. apply twp_get. rewrite (at_end _ _ _ _ Ha). cbn. split; [done|]. by eexists. Qed.
Lemma twp_read_tokens ws : forall (sp : bool) s b n k, forallb valid_word ws = true -> at_ s ((if sp then [32] else []) ++ printed ws) b n k ->
  Zlen (printed ws) < 2147483640 -> n + Zlen (printed ws) < MAX_INT - 1 ->
  twp (read_tokens decimal_point (S (length ws))) s (fun _ l => l = expected k ws).
Proof.
  induction ws as [|w ws IH]; intros sp s b n k Hv Ha Hb Hn.
  - eapply twp_step; [eapply (twp_luaX_next s _ b n k [] n (TK_EOS, NoInfo) Ha); intros s1 H1; eapply twp_llex; [exact H1|intros fuel s2; apply twp_llex_end]|].
    intros s1 ? [b' H1]. apply twp_get. destruct H1 as [_ _ _ _ ->]. done.
  - cbn [forallb] in Hv. apply andb_true_iff in Hv as [Hw Hv]. rewrite printed_cons in Ha, Hb, Hn. revert Hb Hn. zlen. intros Hb Hn.
    pose proof (word_lines_le w) as Hlines. pose proof (Zlen_nonneg (printed ws)) as Hl0.
    change (read_tokens decimal_point (S (length (w :: ws)))) with (_ ← luaX_next decimal_point; x ← get t; l ← read_tokens decimal_point (S (length ws)); mret (x :: l)).
    eapply twp_step; [eapply (twp_luaX_next s _ b n k (32 :: printed ws) (n + word_lines w) (meant w) Ha); intros s1 H1; eapply twp_llex; [exact H1|]|].
    + intros fuel s2 H2. apply (twp_word w s2); [done|done|lia|lia].
    + intros s1 ? [b' H1]. apply twp_get. pose proof H1 as [_ _ _ _ Et]. rewrite Et.
      eapply twp_step; [apply (IH true s1 b' _ _ Hv H1); lia|]. intros s2 l ->. by apply twp_ret.
Qed.
End run.

(** ** The bytes of a text *)
Lemma text_bytes w : valid_word w = true -> Forall (fun c => u8 c = c) (text w).
Proof.
  assert (forall l, is_name l = true -> Forall (fun c => u8 c = c) l) as Hname.
  { intros l Hl. destruct l as [|c l]; [constructor|]. apply andb_true_iff in Hl as [_ Hl]. apply Forall_forall. intros x Hx. rewrite forallb_forall in Hl.
    apply word_char, Hl. by apply list_elem_of_In. }
  destruct w as [i|l|l|c|c| |]; cbn [valid_word text]; intros Hw; try by repeat constructor.
  - apply Nat.ltb_lt in Hw. by apply Hname, reserved_spec.
  - apply andb_true_iff in Hw as [Hw _]. by apply Hname.
  - unfold quoted. constructor; [done|]. apply Forall_app. split; [|by repeat constructor]. induction l as [|c l IH]; [constructor|]. cbn [forallb map concat] in *.
    apply andb_true_iff in Hw as [Hc Hw]. apply Forall_app. split; [|by apply IH]. unfold escaped. pose proof (byte_u8 c Hc). destruct (_ || _), (c =? 13), (c =? 0); by repeat constructor.
  - apply bool_decide_eq_true in Hw. assert (Forall (fun c => u8 c = c) symbols) as Hall by (by apply (bool_decide_unpack _); vm_compute). constructor; [|constructor]. by eapply (proj1 (Forall_forall _ _) Hall).
  - apply bool_decide_eq_true in Hw. assert (Forall (fun c => u8 c = c) [61; 60; 62; 126]) as Hall by (by apply (bool_decide_unpack _); vm_compute). constructor; [|by repeat constructor]. by eapply (proj1 (Forall_forall _ _) Hall).
Qed.
Lemma printed_bytes ws : forallb valid_word ws = true -> map u8 (printed ws) = printed ws.
Proof.
  induction ws as [|w ws IH]; [done|]. cbn [forallb]. intros [Hw Hws]%andb_true_iff. rewrite printed_cons, map_app. cbn [map]. rewrite IH by done. f_equal.
  pose proof (text_bytes w Hw) as Hf. induction Hf as [|c l Hc _ IHl]; [done|]. cbn. by rewrite Hc, IHl.
Qed.
(** C25: Tokens that are printed one after the other, in any cut into buffers,
    are read back: reserved words, names, symbols, and strings of arbitrary
    bytes in the text that [string.format] writes for them with [%q]. *)
Theorem printed_tokens_are_read `{Double} (decimal_point : Z) (ws : list word) (chunks : list (list Z)) :
  forallb valid_word ws = true -> Zlen (printed ws) < 2147483640 -> small chunks -> until_empty chunks = printed ws ->
  tokens decimal_point chunks (S (length ws)) = Val (expected (MkToken 0 NoInfo) ws) /\
  forall b s, Quoted s ∈ ws -> addquoted b s = Val (b ++ text (Quoted s)).
Proof.
  intros Hv Hl Hs E. split; [|intros b s _; apply addquoted_quoted]. rewrite tokens_eq. destruct (at_start_ok _ Hs) as [Hok Hview]. rewrite E, (printed_bytes ws Hv) in Hview. set (ahead := MkToken TK_EOS NoInfo).
  assert (at_ ahead (at_start chunks) (0 :: printed ws) [] 1 (MkToken 0 NoInfo)) as Ha by (constructor; try done; by split; [split|]).
  assert (twp (_ ← next; read_tokens decimal_point (S (length ws))) (at_start chunks) (fun _ l => l = expected (MkToken 0 NoInfo) ws)) as Hw.
  { eapply twp_step; [exact (twp_next ahead _ _ _ _ _ _ Ha)|]. intros s1 ? H1. cbv beta in H1. eapply (twp_read_tokens decimal_point ahead eq_refl ws false); [done|exact H1|done|unfold MAX_INT; lia]. }
  unfold twp in Hw. destruct ((_ ← next; _) (at_start chunks)) as [[s l]| |]; [|done..]. by subst l.
Qed.
Definition sample : list word := [Reserved 11; Name [120; 49]; Symbol 61; Quoted [34; 10; 0; 13; 92; 255]; Concat; Quoted []; Compare 60; Symbol 91].
Lemma printed_tokens_are_read_witness : @tokens integers 46 [take 7 (printed sample); drop 7 (printed sample)] 9 = Val (expected (MkToken 0 NoInfo) sample) /\
  forall b s, Quoted s ∈ sample -> addquoted b s = Val (b ++ text (Quoted s)).
Proof. apply (@printed_tokens_are_read integers 46 sample); [reflexivity|reflexivity| |reflexivity]. repeat constructor; discriminate. Defined.
