(* ===== verification/LuaOpcodes.v ===== *)
(** The instruction words of the Lua virtual machine, src/src/lua/lopcodes.h
    and lopcodes.c: fields of a 32-bit word, the operations and the table of
    their properties. *)
From Stdlib Require String.
From S2P Require Import Prelude LuaStr LuaFormat LuaLex.

(** ** Fields *)
Definition SIZE_C := 9.
Definition SIZE_B := 9.
Definition SIZE_Bx := SIZE_C + SIZE_B.
Definition SIZE_A := 8.
Definition SIZE_OP := 6.
Definition POS_OP := 0.
Definition POS_A := POS_OP + SIZE_OP.
Definition POS_C := POS_A + SIZE_A.
Definition POS_B := POS_C + SIZE_C.
Definition POS_Bx := POS_C.
Definition MAXARG_Bx := Z.shiftl 1 SIZE_Bx - 1.
Definition MAXARG_sBx := Z.shiftr MAXARG_Bx 1.
Definition MAXARG_A := Z.shiftl 1 SIZE_A - 1.
Definition MAXARG_B := Z.shiftl 1 SIZE_B - 1.
Definition MAXARG_C := Z.shiftl 1 SIZE_C - 1.
(** Masks are words of 32 bits. *)
Definition MASK1 (n p : Z) : Z := u32 (Z.shiftl (u32 (Z.lnot (u32 (Z.shiftl (u32 (Z.lnot 0)) n)))) p).
Definition MASK0 (n p : Z) : Z := u32 (Z.lnot (MASK1 n p)).
Definition GET_OPCODE (i : Z) : Z := Z.land (Z.shiftr i POS_OP) (MASK1 SIZE_OP 0).
Definition SET_OPCODE (i o : Z) : Z := Z.lor (Z.land i (MASK0 SIZE_OP POS_OP)) (Z.land (u32 (Z.shiftl (u32 o) POS_OP)) (MASK1 SIZE_OP POS_OP)).
Definition GETARG_A (i : Z) : Z := Z.land (Z.shiftr i POS_A) (MASK1 SIZE_A 0).
Definition SETARG_A (i u : Z) : Z := Z.lor (Z.land i (MASK0 SIZE_A POS_A)) (Z.land (u32 (Z.shiftl (u32 u) POS_A)) (MASK1 SIZE_A POS_A)).
Definition GETARG_B (i : Z) : Z := Z.land (Z.shiftr i POS_B) (MASK1 SIZE_B 0).
Definition SETARG_B (i b : Z) : Z := Z.lor (Z.land i (MASK0 SIZE_B POS_B)) (Z.land (u32 (Z.shiftl (u32 b) POS_B)) (MASK1 SIZE_B POS_B)).
Definition GETARG_C (i : Z) : Z := Z.land (Z.shiftr i POS_C) (MASK1 SIZE_C 0).
Definition SETARG_C (i b : Z) : Z := Z.lor (Z.land i (MASK0 SIZE_C POS_C)) (Z.land (u32 (Z.shiftl (u32 b) POS_C)) (MASK1 SIZE_C POS_C)).
Definition GETARG_Bx (i : Z) : Z := Z.land (Z.shiftr i POS_Bx) (MASK1 SIZE_Bx 0).
Definition SETARG_Bx (i b : Z) : Z := Z.lor (Z.land i (MASK0 SIZE_Bx POS_Bx)) (Z.land (u32 (Z.shiftl (u32 b) POS_Bx)) (MASK1 SIZE_Bx POS_Bx)).
Definition GETARG_sBx (i : Z) : Z := GETARG_Bx i - MAXARG_sBx.
Definition SETARG_sBx (i b : Z) : Z := SETARG_Bx i (u32 (b + MAXARG_sBx)).
Definition CREATE_ABC (o a b c : Z) : Z :=
  Z.lor (Z.lor (Z.lor (u32 (Z.shiftl (u32 o) POS_OP)) (u32 (Z.shiftl (u32 a) POS_A))) (u32 (Z.shiftl (u32 b) POS_B))) (u32 (Z.shiftl (u32 c) POS_C)).
Definition CREATE_ABx (o a bc : Z) : Z :=
  Z.lor (Z.lor (u32 (Z.shiftl (u32 o) POS_OP)) (u32 (Z.shiftl (u32 a) POS_A))) (u32 (Z.shiftl (u32 bc) POS_Bx)).
(** Operands that are a register or a constant. *)
Definition BITRK := Z.shiftl 1 (SIZE_B - 1).
Definition ISK (x : Z) : bool := negb (Z.land x BITRK =? 0).
Definition INDEXK (r : Z) : Z := Z.land r (Z.lnot BITRK).
Definition MAXINDEXRK := BITRK - 1.
Definition RKASK (x : Z) : Z := Z.lor x BITRK.
Definition NO_REG := MAXARG_A.

(** ** Operations *)
Inductive OpCode :=
  | OP_MOVE | OP_LOADK | OP_LOADBOOL | OP_LOADNIL | OP_GETUPVAL | OP_GETGLOBAL | OP_GETTABLE | OP_SETGLOBAL
  | OP_SETUPVAL | OP_SETTABLE | OP_NEWTABLE | OP_SELF | OP_ADD | OP_SUB | OP_MUL | OP_DIV | OP_MOD | OP_POW
  | OP_UNM | OP_NOT | OP_LEN | OP_CONCAT | OP_JMP | OP_EQ | OP_LT | OP_LE | OP_TEST | OP_TESTSET | OP_CALL
  | OP_TAILCALL | OP_RETURN | OP_FORLOOP | OP_FORPREP | OP_TFORLOOP | OP_SETLIST | OP_CLOSE | OP_CLOSURE | OP_VARARG.
#[export] Instance OpCode_eq_dec : EqDecision OpCode.
Proof. solve_decision. Defined.
Definition op_codes : list OpCode :=
  [OP_MOVE; OP_LOADK; OP_LOADBOOL; OP_LOADNIL; OP_GETUPVAL; OP_GETGLOBAL; OP_GETTABLE; OP_SETGLOBAL;
   OP_SETUPVAL; OP_SETTABLE; OP_NEWTABLE; OP_SELF; OP_ADD; OP_SUB; OP_MUL; OP_DIV; OP_MOD; OP_POW;
   OP_UNM; OP_NOT; OP_LEN; OP_CONCAT; OP_JMP; OP_EQ; OP_LT; OP_LE; OP_TEST; OP_TESTSET; OP_CALL;
   OP_TAILCALL; OP_RETURN; OP_FORLOOP; OP_FORPREP; OP_TFORLOOP; OP_SETLIST; OP_CLOSE; OP_CLOSURE; OP_VARARG].
(** The number of an enumerator, and the enumerator of a number. *)
Definition op_number (o : OpCode) : Z := match list_find (eq o) op_codes with Some (n, _) => Z.of_nat n | None => 0 end.
Definition op_of (n : Z) : option OpCode := if 0 <=? n then op_codes !! Z.to_nat n else None.
Definition NUM_OPCODES := op_number OP_VARARG + 1.

Inductive OpMode := iABC | iABx | iAsBx.
Inductive OpArgMask := OpArgN | OpArgU | OpArgR | OpArgK.
Definition mode_number (m : OpMode) : Z := match m with iABC => 0 | iABx => 1 | iAsBx => 2 end.
Definition mask_number (m : OpArgMask) : Z := match m with OpArgN => 0 | OpArgU => 1 | OpArgR => 2 | OpArgK => 3 end.
Definition opmode (t a : Z) (b c : OpArgMask) (m : OpMode) : Z :=
  Z.lor (Z.lor (Z.lor (Z.lor (Z.shiftl t 7) (Z.shiftl a 6)) (Z.shiftl (mask_number b) 4)) (Z.shiftl (mask_number c) 2)) (mode_number m).
Definition luaP_opmodes : list Z := [
  opmode 0 1 OpArgR OpArgN iABC; opmode 0 1 OpArgK OpArgN iABx; opmode 0 1 OpArgU OpArgU iABC; opmode 0 1 OpArgR OpArgN iABC;
  opmode 0 1 OpArgU OpArgN iABC; opmode 0 1 OpArgK OpArgN iABx; opmode 0 1 OpArgR OpArgK iABC; opmode 0 0 OpArgK OpArgN iABx;
  opmode 0 0 OpArgU OpArgN iABC; opmode 0 0 OpArgK OpArgK iABC; opmode 0 1 OpArgU OpArgU iABC; opmode 0 1 OpArgR OpArgK iABC;
  opmode 0 1 OpArgK OpArgK iABC; opmode 0 1 OpArgK OpArgK iABC; opmode 0 1 OpArgK OpArgK iABC; opmode 0 1 OpArgK OpArgK iABC;
  opmode 0 1 OpArgK OpArgK iABC; opmode 0 1 OpArgK OpArgK iABC; opmode 0 1 OpArgR OpArgN iABC; opmode 0 1 OpArgR OpArgN iABC;
  opmode 0 1 OpArgR OpArgN iABC; opmode 0 1 OpArgR OpArgR iABC; opmode 0 0 OpArgR OpArgN iAsBx; opmode 1 0 OpArgK OpArgK iABC;
  opmode 1 0 OpArgK OpArgK iABC; opmode 1 0 OpArgK OpArgK iABC; opmode 1 1 OpArgR OpArgU iABC; opmode 1 1 OpArgR OpArgU iABC;
  opmode 0 1 OpArgU OpArgU iABC; opmode 0 1 OpArgU OpArgU iABC; opmode 0 0 OpArgU OpArgN iABC; opmode 0 1 OpArgR OpArgN iAsBx;
  opmode 0 1 OpArgR OpArgN iAsBx; opmode 1 0 OpArgN OpArgU iABC; opmode 0 0 OpArgU OpArgU iABC; opmode 0 0 OpArgN OpArgN iABC;
  opmode 0 1 OpArgU OpArgN iABx; opmode 0 1 OpArgU OpArgN iABC].
Definition op_properties (o : OpCode) : Z := List.nth (Z.to_nat (op_number o)) luaP_opmodes 0.
Definition mask_of (n : Z) : OpArgMask := if n =? 0 then OpArgN else if n =? 1 then OpArgU else if n =? 2 then OpArgR else OpArgK.
Definition getOpMode (o : OpCode) : option OpMode :=
  let n := Z.land (op_properties o) 3 in
  if n =? 0 then Some iABC else if n =? 1 then Some iABx else if n =? 2 then Some iAsBx else None.
Definition getBMode (o : OpCode) : OpArgMask := mask_of (Z.land (Z.shiftr (op_properties o) 4) 3).
Definition getCMode (o : OpCode) : OpArgMask := mask_of (Z.land (Z.shiftr (op_properties o) 2) 3).
Definition testAMode (o : OpCode) : bool := negb (Z.land (op_properties o) (Z.shiftl 1 6) =? 0).
Definition testTMode (o : OpCode) : bool := negb (Z.land (op_properties o) (Z.shiftl 1 7) =? 0).
Section names.
Import Stdlib.Strings.String.
Definition luaP_opnames : list (list Z) := List.map bytes (["MOVE"; "LOADK"; "LOADBOOL"; "LOADNIL"; "GETUPVAL"; "GETGLOBAL";
  "GETTABLE"; "SETGLOBAL"; "SETUPVAL"; "SETTABLE"; "NEWTABLE"; "SELF"; "ADD"; "SUB"; "MUL"; "DIV"; "MOD"; "POW"; "UNM"; "NOT";
  "LEN"; "CONCAT"; "JMP"; "EQ"; "LT"; "LE"; "TEST"; "TESTSET"; "CALL"; "TAILCALL"; "RETURN"; "FORLOOP"; "FORPREP"; "TFORLOOP";
  "SETLIST"; "CLOSE"; "CLOSURE"; "VARARG"]%string)%list.
End names.
Definition LFIELDS_PER_FLUSH := 50.

(** ** A field as a slice of the word *)
Definition field (p s i : Z) : Z := (i / 2 ^ p) mod 2 ^ s.
Lemma get_field p s i m : 0 <= p -> 0 <= s -> m = Z.ones s -> Z.land (Z.shiftr i p) m = field p s i.
Proof. intros Hp Hs ->. rewrite Z.land_ones, Z.shiftr_div_pow2 by done. done. Qed.
Lemma GET_OPCODE_field i : GET_OPCODE i = field 0 6 i.
Proof. by apply get_field. Qed.
Lemma GETARG_A_field i : GETARG_A i = field 6 8 i.
Proof. by apply get_field. Qed.
Lemma GETARG_B_field i : GETARG_B i = field 23 9 i.
Proof. by apply get_field. Qed.
Lemma GETARG_C_field i : GETARG_C i = field 14 9 i.
Proof. by apply get_field. Qed.
Lemma GETARG_Bx_field i : GETARG_Bx i = field 14 18 i.
Proof. by apply get_field. Qed.
Create HintDb fields.
#[export] Hint Rewrite GET_OPCODE_field GETARG_A_field GETARG_B_field GETARG_C_field GETARG_Bx_field : fields.
Lemma field_range p s i : 0 <= s -> 0 <= field p s i < 2 ^ s.
Proof. intros. apply Z.mod_pos_bound. lia. Qed.
Lemma field_testbit p s i n : 0 <= p -> 0 <= s -> 0 <= n -> Z.testbit (field p s i) n = (n <? s) && Z.testbit i (n + p).
Proof.
  intros Hp Hs Hn. unfold field. rewrite <- Z.land_ones, <- Z.shiftr_div_pow2, Z.land_spec, Z.shiftr_spec by lia.
  destruct (Z.ltb_spec n s); [rewrite Z.ones_spec_low by lia|rewrite Z.ones_spec_high by lia]; cbn [andb]; [apply andb_true_r|apply andb_false_r].
Qed.
(** The bits of what [SETARG] stores. *)
Definition set_field (p s i u : Z) : Z :=
  Z.lor (Z.land i (u32 (Z.lnot (Z.shiftl (Z.ones s) p)))) (Z.land (u32 (Z.shiftl (u32 u) p)) (Z.shiftl (Z.ones s) p)).
Lemma u32_testbit x n : 0 <= n -> Z.testbit (u32 x) n = (n <? 32) && Z.testbit x n.
Proof.
  intros Hn. unfold wrap. rewrite <- Z.land_ones, Z.land_spec by lia.
  destruct (Z.ltb_spec n 32); [rewrite Z.ones_spec_low by lia|rewrite Z.ones_spec_high by lia]; cbn [andb]; [apply andb_true_r|apply andb_false_r].
Qed.
Lemma slot_testbit s p n : 0 <= s -> 0 <= p -> 0 <= n -> Z.testbit (Z.shiftl (Z.ones s) p) n = (p <=? n) && (n <? p + s).
Proof.
  intros Hs Hp Hn. rewrite Z.shiftl_spec by done. destruct (Z.leb_spec p n); cbn [andb].
  - destruct (Z.ltb_spec n (p + s)); [apply Z.ones_spec_low|apply Z.ones_spec_high]; lia.
  - apply Z.testbit_neg_r. lia.
Qed.
Lemma set_field_testbit p s i u n : 0 <= p -> 0 <= s -> 0 <= n < 32 ->
  Z.testbit (set_field p s i u) n = if (p <=? n) && (n <? p + s) then Z.testbit u (n - p) else Z.testbit i n.
Proof.
  intros Hp Hs Hn. unfold set_field. rewrite Z.lor_spec, !Z.land_spec, !u32_testbit, Z.lnot_spec, slot_testbit, Z.shiftl_spec by lia.
  rewrite (proj2 (Z.ltb_lt n 32)) by lia. cbn [andb]. destruct ((p <=? n) && (n <? p + s)) eqn:E; cbn [negb].
  - bool_to_prop. rewrite u32_testbit by lia. rewrite (proj2 (Z.ltb_lt (n - p) 32)) by lia. by rewrite andb_false_r, andb_true_r.
  - by rewrite andb_false_r, andb_true_r, orb_false_r.
Qed.
Lemma set_field_same p s i u : 0 <= p -> 0 <= s -> p + s <= 32 -> field p s (set_field p s i u) = u mod 2 ^ s.
Proof.
  intros Hp Hs Hw. apply Z.bits_inj'. intros n Hn. rewrite field_testbit by lia. destruct (Z.ltb_spec n s); cbn [andb].
  - rewrite set_field_testbit by lia. rewrite (proj2 (Z.leb_le p (n + p))), (proj2 (Z.ltb_lt (n + p) (p + s))) by lia. cbn [andb].
    rewrite Z.add_simpl_r. by rewrite Z.mod_pow2_bits_low by lia.
  - by rewrite Z.mod_pow2_bits_high by lia.
Qed.
Lemma set_field_other p s p' s' i u : 0 <= p -> 0 <= s -> 0 <= p' -> 0 <= s' -> p' + s' <= 32 -> p' + s' <= p \/ p + s <= p' ->
  field p' s' (set_field p s i u) = field p' s' i.
Proof.
  intros. apply Z.bits_inj'. intros n Hn. rewrite !field_testbit by lia. destruct (Z.ltb_spec n s'); cbn [andb]; [|done].
  rewrite set_field_testbit by lia. destruct (_ && _) eqn:E; [bool_to_prop; lia|done].
Qed.
Lemma lor_low hi lo k : 0 <= k -> 0 <= lo < 2 ^ k -> Z.lor lo (hi * 2 ^ k) = lo + hi * 2 ^ k.
Proof. intros. rewrite Z.lor_comm, lor_add by lia. lia. Qed.
Lemma CREATE_ABC_sum o a b c : 0 <= o < 64 -> 0 <= a < 256 -> 0 <= b < 512 -> 0 <= c < 512 ->
  CREATE_ABC o a b c = o + a * 2 ^ 6 + c * 2 ^ 14 + b * 2 ^ 23.
Proof.
  intros. unfold CREATE_ABC. change POS_OP with 0. change POS_A with 6. change POS_B with 23. change POS_C with 14.
  rewrite !Z.shiftl_mul_pow2 by lia. unfold wrap. change (2 ^ 0) with 1.
  rewrite !(Z.mod_small _ (2 ^ 32)) by (rewrite ?(Z.mod_small _ (2 ^ 32)) by lia; lia). rewrite Z.mul_1_r.
  rewrite <- Z.lor_assoc, (Z.lor_comm (b * _)), Z.lor_assoc. rewrite (lor_low a), (lor_low c), (lor_low b) by lia. done.
Qed.
Lemma CREATE_ABx_sum o a bc : 0 <= o < 64 -> 0 <= a < 256 -> 0 <= bc < 262144 -> CREATE_ABx o a bc = o + a * 2 ^ 6 + bc * 2 ^ 14.
Proof.
  intros. unfold CREATE_ABx. change POS_OP with 0. change POS_A with 6. change POS_Bx with 14.
  rewrite !Z.shiftl_mul_pow2 by lia. unfold wrap. change (2 ^ 0) with 1.
  rewrite !(Z.mod_small _ (2 ^ 32)) by (rewrite ?(Z.mod_small _ (2 ^ 32)) by lia; lia). rewrite Z.mul_1_r.
  rewrite (lor_low a), (lor_low bc) by lia. done.
Qed.

(** ** Properties *)

(** Instruction words and their fields: the fields of
    a word made of operation, A, B and C in range are these four, Bx is B and
    C together, and every 32-bit word is the one made of its fields. *)
Theorem instruction_fields :
  (forall o a b c, 0 <= o < 64 -> 0 <= a <= MAXARG_A -> 0 <= b <= MAXARG_B -> 0 <= c <= MAXARG_C ->
     let i := CREATE_ABC o a b c in
     is_u32 i /\ GET_OPCODE i = o /\ GETARG_A i = a /\ GETARG_B i = b /\ GETARG_C i = c /\ GETARG_Bx i = b * 512 + c) /\
  (forall o a bc, 0 <= o < 64 -> 0 <= a <= MAXARG_A -> 0 <= bc <= MAXARG_Bx ->
     let i := CREATE_ABx o a bc in is_u32 i /\ GET_OPCODE i = o /\ GETARG_A i = a /\ GETARG_Bx i = bc) /\
  (forall i, is_u32 i ->
     CREATE_ABC (GET_OPCODE i) (GETARG_A i) (GETARG_B i) (GETARG_C i) = i /\
     CREATE_ABx (GET_OPCODE i) (GETARG_A i) (GETARG_Bx i) = i).
Proof.
  change MAXARG_A with 255. change MAXARG_B with 511. change MAXARG_C with 511. change MAXARG_Bx with 262143.
  split_and!.
  - intros o a b c Ho Ha Hb Hc. cbv zeta. rewrite CREATE_ABC_sum by lia. autorewrite with fields. unfold field, in_range.
    change (2 ^ 0) with 1. change (2 ^ 6) with 64. change (2 ^ 8) with 256. change (2 ^ 9) with 512. change (2 ^ 14) with 16384.
    change (2 ^ 18) with 262144. change (2 ^ 23) with 8388608. change (2 ^ 32) with 4294967296. Z.to_euclidean_division_equations. lia.
  - intros o a bc Ho Ha Hb. cbv zeta. rewrite CREATE_ABx_sum by lia. autorewrite with fields. unfold field, in_range.
    change (2 ^ 0) with 1. change (2 ^ 6) with 64. change (2 ^ 8) with 256. change (2 ^ 14) with 16384.
    change (2 ^ 18) with 262144. change (2 ^ 32) with 4294967296. Z.to_euclidean_division_equations. lia.
  - intros i Hi. unfold in_range in Hi. autorewrite with fields.
    pose proof (field_range 0 6 i). pose proof (field_range 6 8 i). pose proof (field_range 14 9 i). pose proof (field_range 23 9 i).
    pose proof (field_range 14 18 i). rewrite CREATE_ABC_sum, CREATE_ABx_sum by lia. unfold field in *.
    change (2 ^ 0) with 1 in *. change (2 ^ 6) with 64 in *. change (2 ^ 8) with 256 in *. change (2 ^ 9) with 512 in *. change (2 ^ 14) with 16384 in *.
    change (2 ^ 18) with 262144 in *. change (2 ^ 23) with 8388608 in *. change (2 ^ 32) with 4294967296 in *.
    Z.to_euclidean_division_equations. lia.
Qed.
Lemma instruction_fields_witness : CREATE_ABC 28 3 300 77 = 28 + 3 * 64 + 77 * 16384 + 300 * 8388608 /\ GETARG_B (CREATE_ABC 28 3 300 77) = 300.
Proof.
  split; [reflexivity|]. destruct instruction_fields as [E _]. destruct (E 28 3 300 77) as (_ & _ & _ & Eb & _).
  1-4: by vm_compute.
  exact Eb.
Defined.

(** What [SETARG] and [SET_OPCODE] store is what [GETARG] and
    [GET_OPCODE] of the same field give back, cut to its size, and no other
    field changes; the signed field gives back its values of both signs. *)
Theorem instruction_update i u :
  (GET_OPCODE (SET_OPCODE i u) = u mod 64 /\ GETARG_A (SET_OPCODE i u) = GETARG_A i /\ GETARG_Bx (SET_OPCODE i u) = GETARG_Bx i) /\
  (GETARG_A (SETARG_A i u) = u8 u /\ GET_OPCODE (SETARG_A i u) = GET_OPCODE i /\ GETARG_Bx (SETARG_A i u) = GETARG_Bx i) /\
  (GETARG_B (SETARG_B i u) = u mod 512 /\ GET_OPCODE (SETARG_B i u) = GET_OPCODE i /\ GETARG_A (SETARG_B i u) = GETARG_A i /\ GETARG_C (SETARG_B i u) = GETARG_C i) /\
  (GETARG_C (SETARG_C i u) = u mod 512 /\ GET_OPCODE (SETARG_C i u) = GET_OPCODE i /\ GETARG_A (SETARG_C i u) = GETARG_A i /\ GETARG_B (SETARG_C i u) = GETARG_B i) /\
  (- MAXARG_sBx <= u <= MAXARG_sBx -> GETARG_sBx (SETARG_sBx i u) = u /\ GET_OPCODE (SETARG_sBx i u) = GET_OPCODE i /\ GETARG_A (SETARG_sBx i u) = GETARG_A i).
Proof.
  change (SET_OPCODE i u) with (set_field 0 6 i u). change (SETARG_A i u) with (set_field 6 8 i u). change (SETARG_B i u) with (set_field 23 9 i u).
  change (SETARG_C i u) with (set_field 14 9 i u). change (SETARG_sBx i u) with (set_field 14 18 i (u32 (u + 131071))).
  unfold GETARG_sBx. change MAXARG_sBx with 131071. autorewrite with fields.
  rewrite !set_field_same by lia. rewrite !(set_field_other) by lia. split_and!; try done. intros Hu.
  rewrite (wrap_small 32 (u + 131071)) by lia. change (2 ^ 18) with 262144. rewrite Z.mod_small by lia. split_and!; [lia|done..].
Qed.
Lemma instruction_update_witness : -5 <= 7 /\ GETARG_sBx (SETARG_sBx 4294967295 (-7)) = -7.
Proof. split; [lia|]. destruct (instruction_update 4294967295 (-7)) as (_ & _ & _ & _ & E). apply E. vm_compute; split; congruence. Defined.
