(* ===== verification/LuaCheck.v ===== *)
(** Function prototypes of the Lua virtual machine (src/src/lua/lobject.h) and
    the checker of their code, symbexec and luaG_checkcode of
    src/src/lua/ldebug.c, with the control flow and the operands of the
    interpreter loop luaV_execute of src/src/lua/lvm.c that it is to keep
    inside the prototype. *)
From S2P Require Import Prelude LuaStr LuaFormat LuaLex LuaOpcodes.

(** ** Prototypes

    Strings are interned, so that a string is its bytes; [None] is the null
    pointer. The sizes of the vectors of a prototype are their lengths. *)
Definition TString : Type := option (list Z).
Section proto.
  Context `{Double}.
Inductive TValue := VNil | VBoolean (b : Z) | VNumber (x : num) | VString (ts : TString).
Record LocVar := MkLocVar { varname : TString; startpc : Z; endpc : Z }.
Inductive Proto := MkProto {
  k : list TValue; code : list Z; p : list Proto; lineinfo : list Z; locvars : list LocVar; upvalues : list TString;
  source : TString; linedefined : Z; lastlinedefined : Z; nups : Z; numparams : Z; is_vararg : Z; maxstacksize : Z }.
Definition sizek (f : Proto) : Z := Zlen (k f).
Definition sizecode (f : Proto) : Z := Zlen (code f).
Definition sizep (f : Proto) : Z := Zlen (p f).
Definition sizelineinfo (f : Proto) : Z := Zlen (lineinfo f).
Definition sizelocvars (f : Proto) : Z := Zlen (locvars f).
Definition sizeupvalues (f : Proto) : Z := Zlen (upvalues f).
Definition VARARG_HASARG := 1.
Definition VARARG_ISVARARG := 2.
Definition VARARG_NEEDSARG := 4.
Definition MAXSTACK := 250.
Definition ttisstring (o : TValue) : bool := match o with VString _ => true | _ => false end.

(** ** Checks

    A function that returns zero at its first failing check: [None] is that
    zero. Accesses to the vectors of the prototype can be out of range. *)
Definition chk (A : Type) : Type := outcome (option A).
#[global] Instance chk_ret : MRet chk := fun A a => Val (Some a).
#[global] Instance chk_bind : MBind chk := fun A B f m =>
  match m with Val (Some a) => f a | Val None => Val None | Raise e => Raise e | Fault e => Fault e end.
Definition check (b : bool) : chk () := if b then Val (Some ()) else Val None.
Definition access {A} (l : list A) (i : Z) : chk A := match bget l i with Ok a => Val (Some a) | Err e => Fault e end.
Definition is_op (i : Z) (o : OpCode) : bool := GET_OPCODE i =? op_number o.

(** ** The checker *)
Section checker.
  Context (pt : Proto).
Definition checkreg (reg : Z) : chk () := check (reg <? maxstacksize pt).
Definition precheck : chk () :=
  _ ← check (maxstacksize pt <=? MAXSTACK);
  _ ← check (numparams pt + Z.land (is_vararg pt) VARARG_HASARG <=? maxstacksize pt);
  _ ← check (negb (ctrue (Z.land (is_vararg pt) VARARG_NEEDSARG)) || ctrue (Z.land (is_vararg pt) VARARG_HASARG));
  _ ← check (sizeupvalues pt <=? nups pt);
  _ ← check ((sizelineinfo pt =? sizecode pt) || (sizelineinfo pt =? 0));
  if 0 <? sizecode pt then i ← access (code pt) (sizecode pt - 1); check (is_op i OP_RETURN) else check false.
Definition luaG_checkopenop (i : Z) : chk () :=
  match op_of (GET_OPCODE i) with
  | Some OP_CALL | Some OP_TAILCALL | Some OP_RETURN | Some OP_SETLIST => check (GETARG_B i =? 0)
  | _ => check false
  end.
Definition checkopenop (pc : Z) : chk () := i ← access (code pt) (pc + 1); luaG_checkopenop i.
Definition checkArgMode (r : Z) (mode : OpArgMask) : chk () :=
  match mode with
  | OpArgN => check (r =? 0)
  | OpArgU => mret ()
  | OpArgR => checkreg r
  | OpArgK => check (if ISK r then INDEXK r <? sizek pt else r <? maxstacksize pt)
  end.
(** [SETLIST] whose count is the next word. *)
Definition long_setlist (d : Z) : bool := is_op d OP_SETLIST && (GETARG_C d =? 0).
(** How many words before [dest] look like one, from the [j]th on. *)
Fixpoint setlist_run (n : nat) (dest j : Z) : chk Z :=
  match n with
  | O => mret j
  | S n => d ← access (code pt) (dest - 1 - j); if long_setlist d then setlist_run n dest (j + 1) else mret j
  end.
Definition check_jump (pc b : Z) : chk () :=
  let dest := pc + 1 + b in
  _ ← check ((0 <=? dest) && (dest <? sizecode pt));
  if 0 <? dest then j ← setlist_run (Z.to_nat dest) dest 0; check (Z.land j 1 =? 0) else mret ().
(** The operands B and C of an instruction, as its format has them. *)
Definition symb_args (pc i : Z) (op : OpCode) : chk (Z * Z) :=
  match getOpMode op with
  | Some iABC =>
    _ ← checkArgMode (GETARG_B i) (getBMode op);
    _ ← checkArgMode (GETARG_C i) (getCMode op);
    mret (GETARG_B i, GETARG_C i)
  | Some iABx =>
    _ ← (match getBMode op with OpArgK => check (GETARG_Bx i <? sizek pt) | _ => mret () end : chk ());
    mret (GETARG_Bx i, 0)
  | Some iAsBx =>
    _ ← (match getBMode op with OpArgR => check_jump pc (GETARG_sBx i) | _ => mret () end : chk ());
    mret (GETARG_sBx i, 0)
  | None => mret (0, 0)
  end.
(** The pseudo-instructions behind [CLOSURE]. *)
Fixpoint check_upvalues (n : nat) (pc j : Z) : chk () :=
  match n with
  | O => mret ()
  | S n =>
    i ← access (code pt) (pc + j);
    _ ← check (is_op i OP_GETUPVAL || is_op i OP_MOVE);
    check_upvalues n pc (j + 1)
  end.
(** The cases of the instructions: the new [pc] and [last]. *)
Definition symb_op (lastpc reg pc last : Z) (op : OpCode) (a b c : Z) : chk (Z * Z) :=
  let jump : Z := if negb (reg =? NO_REG) && (pc <? pc + 1 + b) && (pc + 1 + b <=? lastpc) then pc + b else pc in
  match op with
  | OP_LOADBOOL =>
    if c =? 1 then
      _ ← check (pc + 2 <? sizecode pt);
      i ← access (code pt) (pc + 1);
      _ ← check (negb (is_op i OP_SETLIST) || negb (GETARG_C i =? 0));
      mret (pc, last)
    else mret (pc, last)
  | OP_LOADNIL => mret (pc, if (a <=? reg) && (reg <=? b) then pc else last)
  | OP_GETUPVAL | OP_SETUPVAL => _ ← check (b <? nups pt); mret (pc, last)
  | OP_GETGLOBAL | OP_SETGLOBAL => o ← access (k pt) b; _ ← check (ttisstring o); mret (pc, last)
  | OP_SELF => _ ← checkreg (a + 1); mret (pc, if reg =? a + 1 then pc else last)
  | OP_CONCAT => _ ← check (b <? c); mret (pc, last)
  | OP_TFORLOOP =>
    _ ← check (1 <=? c);
    _ ← checkreg (a + 2 + c);
    mret (pc, if a + 2 <=? reg then pc else last)
  | OP_FORLOOP | OP_FORPREP => _ ← checkreg (a + 3); mret (jump, last)
  | OP_JMP => mret (jump, last)
  | OP_CALL | OP_TAILCALL =>
    _ ← (if b =? 0 then mret () else checkreg (a + b - 1) : chk ());
    let c := c - 1 in
    _ ← (if c =? -1 then checkopenop pc else if c =? 0 then mret () else checkreg (a + c - 1) : chk ());
    mret (pc, if a <=? reg then pc else last)
  | OP_RETURN =>
    let b := b - 1 in
    _ ← (if 0 <? b then checkreg (a + b - 1) else mret () : chk ());
    mret (pc, last)
  | OP_SETLIST =>
    _ ← (if 0 <? b then checkreg (a + b) else mret () : chk ());
    if c =? 0 then
      let pc := pc + 1 in
      _ ← check (pc <? sizecode pt - 1);
      mret (pc, last)
    else mret (pc, last)
  | OP_CLOSURE =>
    _ ← check (b <? sizep pt);
    q ← access (p pt) b;
    let nup := nups q in
    _ ← check (pc + nup <? sizecode pt);
    _ ← check_upvalues (Z.to_nat nup) pc 1;
    mret (if reg =? NO_REG then pc else pc + nup, last)
  | OP_VARARG =>
    _ ← check (ctrue (Z.land (is_vararg pt) VARARG_ISVARARG) && negb (ctrue (Z.land (is_vararg pt) VARARG_NEEDSARG)));
    let b := b - 1 in
    _ ← (if b =? -1 then checkopenop pc else mret () : chk ());
    _ ← checkreg (a + b - 1);
    mret (pc, last)
  | _ => mret (pc, last)
  end.
(** One round of the loop. *)
Definition symb_instr (lastpc reg pc last : Z) : chk (Z * Z) :=
  i ← access (code pt) pc;
  let a := GETARG_A i in
  _ ← check (GET_OPCODE i <? NUM_OPCODES);
  _ ← checkreg a;
  op ← (match op_of (GET_OPCODE i) with Some op => mret op | None => Fault OutOfBounds end : chk OpCode);
  '(b, c) ← symb_args pc i op;
  let last := if testAMode op && (a =? reg) then pc else last in
  _ ← (if testTMode op then
         _ ← check (pc + 2 <? sizecode pt);
         i ← access (code pt) (pc + 1);
         check (is_op i OP_JMP)
       else mret () : chk ());
  symb_op lastpc reg pc last op a b c.
Fixpoint symb_loop (fuel : nat) (lastpc reg pc last : Z) : chk Z :=
  match fuel with
  | O => Fault NoFuel
  | S fuel =>
    if pc <? lastpc then
      '(pc, last) ← symb_instr lastpc reg pc last;
      symb_loop fuel lastpc reg (pc + 1) last
    else access (code pt) last
  end.
Definition symbexec (lastpc reg : Z) : outcome Z :=
  match (_ ← precheck; symb_loop (S (Z.to_nat lastpc)) lastpc reg 0 (sizecode pt - 1) : chk Z) with
  | Val (Some i) => Val i
  | Val None => Val 0
  | Raise e => Raise e
  | Fault e => Fault e
  end.
Definition luaG_checkcode : outcome bool := i ← symbexec (sizecode pt) NO_REG; mret (negb (i =? 0)).
End checker.
End proto.
