(* ===== verification/LuaCheckSafe.v ===== *)
(** What the checker of LuaCheck.v gives: it never reads outside the
    prototype, and the interpreter loop luaV_execute of src/src/lua/lvm.c
    stays inside checked code, its registers, constants and upvalues. *)
From S2P Require Import Prelude LuaStr LuaFormat LuaLex LuaOpcodes LuaCheck.

Section vm.
  Context `{Double}.

(** ** The interpreter loop

    The places an instruction uses: registers, slots above them for the call
    of an iterator, constants, upvalues and inner prototypes, as far as they
    are given by its fields. *)
Inductive operand := Reg (n : Z) | Above (n : Z) | Kst (n : Z) | Upv (n : Z) | Sub (n : Z).
Definition RK (x : Z) : operand := if ISK x then Kst (INDEXK x) else Reg x.
Definition regs (from to : Z) : list operand := map (fun n => Reg (from + Z.of_nat n)) (seq 0 (Z.to_nat (to - from + 1))).
Section program.
  Context (pt : Proto).
Definition fetch (pc : Z) : outcome Z := of_res (bget (code pt) pc).
(** Where the loop goes on in the same function, both ways of a condition. *)
Definition vm_next (pc : Z) : outcome (list Z) :=
  i ← fetch pc;
  let pc := pc + 1 in
  match op_of (GET_OPCODE i) with
  | Some OP_LOADBOOL => mret [if GETARG_C i =? 0 then pc else pc + 1]
  | Some OP_JMP | Some OP_FORPREP => mret [pc + GETARG_sBx i]
  | Some OP_FORLOOP => mret [pc; pc + GETARG_sBx i]
  | Some OP_EQ | Some OP_LT | Some OP_LE | Some OP_TEST | Some OP_TESTSET | Some OP_TFORLOOP =>
    d ← fetch pc; mret [pc + 1; pc + GETARG_sBx d + 1]
  | Some OP_RETURN => mret []
  | Some OP_SETLIST => if GETARG_C i =? 0 then _ ← fetch pc; mret [pc + 1] else mret [pc]
  | Some OP_CLOSURE => q ← of_res (bget (p pt) (GETARG_Bx i)); mret [pc + nups q]
  | _ => mret [pc]
  end.
Fixpoint closure_operands (n : nat) (pc : Z) : outcome (list operand) :=
  match n with
  | O => mret []
  | S n => i ← fetch pc; l ← closure_operands n (pc + 1); mret ((if is_op i OP_GETUPVAL then Upv (GETARG_B i) else Reg (GETARG_B i)) :: l)
  end.
Definition vm_operands (pc : Z) : outcome (list operand) :=
  i ← fetch pc;
  let a := GETARG_A i in
  let b := GETARG_B i in
  let c := GETARG_C i in
  let bx := GETARG_Bx i in
  match op_of (GET_OPCODE i) with
  | Some OP_MOVE | Some OP_UNM | Some OP_NOT | Some OP_LEN | Some OP_TESTSET => mret [Reg a; Reg b]
  | Some OP_LOADK | Some OP_GETGLOBAL | Some OP_SETGLOBAL => mret [Reg a; Kst bx]
  | Some OP_LOADBOOL | Some OP_NEWTABLE | Some OP_TEST | Some OP_CLOSE => mret [Reg a]
  | Some OP_LOADNIL => mret (Reg b :: regs a b)
  | Some OP_GETUPVAL | Some OP_SETUPVAL => mret [Reg a; Upv b]
  | Some OP_GETTABLE => mret [Reg a; Reg b; RK c]
  | Some OP_SETTABLE | Some OP_ADD | Some OP_SUB | Some OP_MUL | Some OP_DIV | Some OP_MOD | Some OP_POW => mret [Reg a; RK b; RK c]
  | Some OP_SELF => mret [Reg a; Reg (a + 1); Reg b; RK c]
  | Some OP_CONCAT => mret (Reg a :: regs b c)
  | Some OP_EQ | Some OP_LT | Some OP_LE => mret [RK b; RK c]
  | Some OP_CALL | Some OP_TAILCALL => mret (Reg a :: regs a (a + b - 1) ++ regs a (a + c - 2))
  | Some OP_RETURN => mret (Reg a :: regs a (a + b - 2))
  | Some OP_FORLOOP => mret (regs a (a + 3))
  | Some OP_FORPREP => mret (regs a (a + 2))
  | Some OP_TFORLOOP => mret (regs a (a + 2) ++ [Above (a + 3); Above (a + 4); Above (a + 5)] ++ regs (a + 3) (a + 2 + c))
  | Some OP_SETLIST => mret (regs a (a + b))
  | Some OP_CLOSURE => q ← of_res (bget (p pt) bx); l ← closure_operands (Z.to_nat (nups q)) (pc + 1); mret (Reg a :: Sub bx :: l)
  | Some OP_VARARG => mret (Reg a :: regs a (a + b - 2))
  | Some OP_JMP | None => mret []
  end.
Inductive vm_reaches : Z -> Prop :=
  | vm_start : vm_reaches 0
  | vm_step pc l pc' : vm_reaches pc -> vm_next pc = Val l -> pc' ∈ l -> vm_reaches pc'.
(** Inside the frame of the function; the stack has five more slots. *)
Definition EXTRA_STACK := 5.
Definition in_frame (o : operand) : Prop :=
  match o with
  | Reg n => 0 <= n < maxstacksize pt
  | Above n => 0 <= n < maxstacksize pt + EXTRA_STACK
  | Kst n => 0 <= n < sizek pt
  | Upv n => 0 <= n < nups pt
  | Sub n => 0 <= n < sizep pt
  end.

(** ** Positions where an instruction starts *)
Inductive starts : Z -> Prop :=
  | starts_zero : starts 0
  | starts_next pc i : starts pc -> bget (code pt) pc = Ok i -> starts (if long_setlist i then pc + 2 else pc + 1).
Lemma starts_nonneg pc : starts pc -> 0 <= pc.
Proof. induction 1; [lia|]. destruct (long_setlist i); lia. Qed.
End program.

(** ** The monad of checks *)
Lemma chk_bind_inv {A B} (m : chk A) (f : A -> chk B) b : mbind f m = Val (Some b) -> exists a, m = Val (Some a) /\ f a = Val (Some b).
Proof. destruct m as [[a|]| |]; cbn; naive_solver. Qed.
Lemma check_inv b u : check b = Val (Some u) -> b = true.
Proof. by destruct b. Qed.
Lemma access_inv {A} (l : list A) i x : access l i = Val (Some x) -> bget l i = Ok x.
Proof. unfold access. destruct (bget l i); naive_solver. Qed.
Lemma if_inv {A} (b : bool) (x y z : A) : (if b then x else y) = z -> (b = true /\ x = z) \/ (b = false /\ y = z).
Proof. destruct b; auto. Qed.
(** All that a successful sequence of checks says. *)
Ltac chk_inv :=
  repeat match goal with
  | H : mbind _ _ = Val (Some _) |- _ => apply chk_bind_inv in H as (? & ? & H)
  | H : check _ = Val (Some _) |- _ => apply check_inv in H
  | H : checkreg _ _ = Val (Some _) |- _ => apply check_inv in H
  | H : access _ _ = Val (Some _) |- _ => apply access_inv in H
  | H : mret _ = Val (Some _) |- _ => injection H as H
  | H : (_, _) = (_, _) |- _ => injection H as ? ?
  | x : (_ * _)%type |- _ => destruct x; cbn beta iota in *
  | x : () |- _ => destruct x
  end.

Lemma bget_range {A} (l : list A) i x : bget l i = Ok x -> 0 <= i < Zlen l.
Proof. intros E. apply bget_Ok in E as [Hi E]. apply lookup_lt_Some in E. unfold Zlen. lia. Qed.
Lemma access_in {A} (l : list A) i : 0 <= i < Zlen l -> exists x, access l i = Val (Some x) /\ bget l i = Ok x.
Proof. intros Hi. destruct (bget_in l i Hi) as [x E]. exists x. unfold access. by rewrite E. Qed.
Lemma op_of_range n : 0 <= n < NUM_OPCODES -> exists o, op_of n = Some o.
Proof.
  intros Hn. unfold op_of. rewrite (proj2 (Z.leb_le 0 n)) by lia. apply lookup_lt_is_Some.
  change NUM_OPCODES with 38 in Hn. change (length op_codes) with 38%nat. lia.
Qed.
Lemma op_number_of n o : op_of n = Some o -> n = op_number o.
Proof.
  intros E. unfold op_of in E. destruct (Z.leb_spec 0 n); [|done]. pose proof (lookup_lt_Some _ _ _ E) as Hl. change (length op_codes) with 38%nat in Hl.
  assert (forall m, (m < 38)%nat -> forall o, op_codes !! m = Some o -> Z.of_nat m = op_number o) as Hall.
  { intros m Hm. do 38 (destruct m as [|m]; [intros o' Eo; injection Eo as <-; reflexivity|]). lia. }
  specialize (Hall (Z.to_nat n) ltac:(lia) o E). lia.
Qed.
Lemma is_op_iff i o o' : op_of (GET_OPCODE i) = Some o' -> is_op i o = bool_decide (o = o').
Proof. intros E. unfold is_op. rewrite (op_number_of _ _ E). destruct o, o'; reflexivity. Qed.
Lemma GETARG_A_nonneg i : 0 <= GETARG_A i.
Proof. rewrite GETARG_A_field. apply field_range. lia. Qed.
Lemma GETARG_B_nonneg i : 0 <= GETARG_B i.
Proof. rewrite GETARG_B_field. apply field_range. lia. Qed.
Lemma GETARG_C_nonneg i : 0 <= GETARG_C i.
Proof. rewrite GETARG_C_field. apply field_range. lia. Qed.
Lemma GETARG_Bx_nonneg i : 0 <= GETARG_Bx i.
Proof. rewrite GETARG_Bx_field. apply field_range. lia. Qed.
#[local] Hint Resolve GETARG_A_nonneg GETARG_B_nonneg GETARG_C_nonneg GETARG_Bx_nonneg : core.
Lemma GET_OPCODE_nonneg i : 0 <= GET_OPCODE i.
Proof. rewrite GET_OPCODE_field. apply field_range. lia. Qed.

(** ** The run of words before a jump target *)
Section jumps.
  Context (pt : Proto).
Lemma every_position n : 0 <= n <= sizecode pt -> starts pt n \/ (exists d, bget (code pt) (n - 1) = Ok d /\ long_setlist d = true /\ starts pt (n - 1)).
Proof.
  intros [Hn Hle]. revert Hle. pattern n. apply natlike_ind; [|clear n Hn; intros n Hn IH Hle|done].
  { left. constructor. }
  unfold Z.succ in *. destruct (bget_in (code pt) n) as [d Ed]; [unfold sizecode in Hle; lia|].
  destruct IH as [Hs|(d' & Ed' & El & Hs)]; [lia| |].
  - pose proof (starts_next pt n d Hs Ed) as Hs'. destruct (long_setlist d) eqn:El; [|by left].
    right. exists d. by replace (n + 1 - 1) with n by lia.
  - left. pose proof (starts_next pt _ d' Hs Ed') as Hs'. rewrite El in Hs'. by replace (n + 1) with (n - 1 + 2) by lia.
Qed.
Lemma setlist_run_spec n dest : forall j r, setlist_run pt n dest j = Val (Some r) -> Z.of_nat n = dest - j ->
  j <= r <= dest /\
  (forall q, dest - r <= q < dest - j -> exists d, bget (code pt) q = Ok d /\ long_setlist d = true) /\
  (r = dest \/ exists d, bget (code pt) (dest - r - 1) = Ok d /\ long_setlist d = false).
Proof.
  induction n as [|n IH]; intros j r E Hn; cbn [setlist_run] in E.
  - injection E as <-. split_and!; [lia..| |]; [intros; lia|left; lia].
  - apply chk_bind_inv in E as (d & Ed & E). apply access_inv in Ed. destruct (long_setlist d) eqn:El.
    + destruct (IH _ _ E) as (Hr & Hq & Hend); [lia|]. split_and!; [lia..| |done]. intros q Hqr. destruct (decide (q = dest - 1 - j)) as [->|]; [by exists d|apply Hq; lia].
    + injection E as <-. split_and!; [lia..| |]; [intros; lia|]. right. exists d. by replace (dest - j - 1) with (dest - 1 - j) by lia.
Qed.
Lemma starts_even m : forall q, starts pt q -> (forall r, q <= r < q + 2 * Z.of_nat m -> exists d, bget (code pt) r = Ok d /\ long_setlist d = true) -> starts pt (q + 2 * Z.of_nat m).
Proof.
  induction m as [|m IH]; intros q Hs Hr; [by replace (q + 2 * Z.of_nat 0) with q by lia|].
  destruct (Hr q) as (d & Ed & El); [lia|]. pose proof (starts_next pt q d Hs Ed) as Hs'. rewrite El in Hs'.
  replace (q + 2 * Z.of_nat (S m)) with (q + 2 + 2 * Z.of_nat m) by lia. apply IH; [done|]. intros r Hrr. apply Hr. lia.
Qed.
Lemma check_jump_starts pc b u : check_jump pt pc b = Val (Some u) -> 0 <= pc + 1 + b < sizecode pt /\ starts pt (pc + 1 + b).
Proof.
  unfold check_jump. set (dest := pc + 1 + b). intros E. chk_inv. bool_to_prop. split; [lia|].
  destruct (Z.ltb_spec 0 dest) as [Hd|]; [|replace dest with 0 by lia; constructor].
  apply chk_bind_inv in E as (j & Ej & E). apply check_inv in E. apply Z.eqb_eq in E.
  destruct (setlist_run_spec _ _ _ _ Ej) as (Hj & Hq & Hend); [lia|].
  assert (starts pt (dest - j)) as Hs.
  { destruct (every_position (dest - j)) as [Hs|(d & Ed & El & _)]; [lia|done|]. destruct Hend as [->|(d' & Ed' & El')].
    - rewrite Z.sub_diag. constructor.
    - congruence. }
  assert (j = 2 * (j / 2)) as Hj2.
  { change 1 with (Z.ones 1) in E. rewrite Z.land_ones in E by lia. change (2 ^ 1) with 2 in E. pose proof (Z.div_mod j 2). lia. }
  pose proof (starts_even (Z.to_nat (j / 2)) _ Hs) as He. replace (dest - j + 2 * Z.of_nat (Z.to_nat (j / 2))) with dest in He by lia.
  apply He. intros r Hr. apply Hq. lia.
Qed.
End jumps.

(** ** What one round of the checker has checked *)
Definition test_ok (pt : Proto) (pc : Z) : Prop := pc + 2 < sizecode pt /\ exists d, bget (code pt) (pc + 1) = Ok d /\ is_op d OP_JMP = true.
Lemma symb_instr_inv pt lastpc reg pc last r : symb_instr pt lastpc reg pc last = Val (Some r) ->
  exists i op b c last', bget (code pt) pc = Ok i /\ op_of (GET_OPCODE i) = Some op /\ GETARG_A i < maxstacksize pt /\
    symb_args pt pc i op = Val (Some (b, c)) /\ (testTMode op = true -> test_ok pt pc) /\
    symb_op pt lastpc reg pc last' op (GETARG_A i) b c = Val (Some r).
Proof.
  unfold symb_instr. intros E. apply chk_bind_inv in E as (i & Ei & E). apply access_inv in Ei. cbv zeta in E.
  apply chk_bind_inv in E as (u1 & En & E). apply chk_bind_inv in E as (u2 & Ea & E). apply chk_bind_inv in E as (op & Eop & E).
  apply chk_bind_inv in E as ([b c] & Eargs & E). apply chk_bind_inv in E as (u3 & Et & E).
  destruct (op_of (GET_OPCODE i)) as [op'|] eqn:Eo; [|done]. injection Eop as ->.
  exists i, op, b, c, (if testAMode op && (GETARG_A i =? reg) then pc else last). apply check_inv in Ea. bool_to_prop. split_and!; try done.
  intros HT. rewrite HT in Et. chk_inv. bool_to_prop. unfold test_ok. eauto.
Qed.
(** Evaluate the properties of the operation at hand. *)
Ltac op_table E :=
  repeat match type of E with
  | context [getOpMode ?o] => let m := eval vm_compute in (getOpMode o) in change (getOpMode o) with m in E
  | context [getBMode ?o] => let m := eval vm_compute in (getBMode o) in change (getBMode o) with m in E
  | context [getCMode ?o] => let m := eval vm_compute in (getCMode o) in change (getCMode o) with m in E
  end; cbv iota in E.
Lemma is_long_setlist i op : op_of (GET_OPCODE i) = Some op -> long_setlist i = bool_decide (OP_SETLIST = op) && (GETARG_C i =? 0).
Proof. intros E. unfold long_setlist. by rewrite (is_op_iff _ _ _ E). Qed.
Lemma instr_advance pt lastpc pc last pc' last' i : symb_instr pt lastpc NO_REG pc last = Val (Some (pc', last')) -> bget (code pt) pc = Ok i ->
  pc' + 1 = if long_setlist i then pc + 2 else pc + 1.
Proof.
  intros E Hi. apply symb_instr_inv in E as (i' & op & b & c & l & Ei & Eop & _ & Eargs & _ & E). replace i' with i in * by congruence.
  rewrite (is_long_setlist _ _ Eop).
  assert (op = OP_SETLIST -> c = GETARG_C i) as Hc.
  { intros ->. unfold symb_args in Eargs. op_table Eargs. chk_inv. done. }
  clear Eargs Hi Ei i'. unfold symb_op in E. rewrite Z.eqb_refl in E. cbn [negb andb] in E.
  destruct op; try (rewrite bool_decide_eq_false_2 by done; cbn [andb]); try (chk_inv; lia).
  - destruct (c =? 1); chk_inv; lia.
  - rewrite bool_decide_eq_true_2, <- Hc by done. cbn [andb]. apply chk_bind_inv in E as (? & _ & E). destruct (c =? 0); chk_inv; lia.
Qed.
Lemma symb_loop_starts pt pc : (exists fuel last i, symb_loop pt fuel (sizecode pt) NO_REG 0 last = Val (Some i)) -> starts pt pc ->
  exists fuel last i, symb_loop pt fuel (sizecode pt) NO_REG pc last = Val (Some i).
Proof.
  intros H0 Hs. induction Hs as [|pc i Hs IH Ei]; [done|]. destruct IH as (fuel & last & r & E). destruct fuel as [|fuel]; [done|]. cbn [symb_loop] in E.
  pose proof (bget_range _ _ _ Ei) as Hr. unfold sizecode in E at 1. rewrite (proj2 (Z.ltb_lt _ _)) in E by lia.
  apply chk_bind_inv in E as ([pc' last'] & E1 & E). rewrite <- (instr_advance _ _ _ _ _ _ _ E1 Ei). eauto.
Qed.
Definition instr_checked (pt : Proto) (pc : Z) : Prop := exists last r, symb_instr pt (sizecode pt) NO_REG pc last = Val (Some r).
Lemma checked_inv pt pc i op : instr_checked pt pc -> bget (code pt) pc = Ok i -> op_of (GET_OPCODE i) = Some op ->
  GETARG_A i < maxstacksize pt /\ (testTMode op = true -> test_ok pt pc) /\
  exists b c last r, symb_args pt pc i op = Val (Some (b, c)) /\ symb_op pt (sizecode pt) NO_REG pc last op (GETARG_A i) b c = Val (Some r).
Proof.
  intros (last & r & E) Ei Eo. apply symb_instr_inv in E as (i' & op' & b & c & l & Ei' & Eo' & Ha & Eargs & Ht & E).
  replace i' with i in * by congruence. replace op' with op in * by congruence. split_and!; [done..|]. by exists b, c, l, r.
Qed.
Lemma checkcode_inv pt : luaG_checkcode pt = Val true ->
  (exists u, precheck pt = Val (Some u)) /\ exists fuel last i, symb_loop pt fuel (sizecode pt) NO_REG 0 last = Val (Some i).
Proof.
  unfold luaG_checkcode, symbexec. destruct (mbind _ (precheck pt)) as [[i|]| |] eqn:E; [|done..]. intros _.
  apply chk_bind_inv in E as (u & Ep & E). split; [eauto|]. eauto.
Qed.
Lemma starts_checked pt pc : luaG_checkcode pt = Val true -> starts pt pc -> pc < sizecode pt -> instr_checked pt pc.
Proof.
  intros E Hs Hlt. apply checkcode_inv in E as [_ H0]. destruct (symb_loop_starts pt pc H0 Hs) as (fuel & last & i & El).
  destruct fuel as [|fuel]; [done|]. cbn [symb_loop] in El. rewrite (proj2 (Z.ltb_lt _ _)) in El by done.
  apply chk_bind_inv in El as (r & Er & _). exists last, r. done.
Qed.
(** The last word is an instruction that leaves the function. *)
Lemma checked_last pt : luaG_checkcode pt = Val true -> 0 < sizecode pt /\ exists i, bget (code pt) (sizecode pt - 1) = Ok i /\ is_op i OP_RETURN = true.
Proof.
  intros E. apply checkcode_inv in E as [(u & E) _]. unfold precheck in E. do 5 (apply chk_bind_inv in E as (? & _ & E)).
  destruct (Z.ltb_spec 0 (sizecode pt)); [|done]. chk_inv. split; [done|]. eauto.
Qed.

(** ** The interpreter loop goes from start to start *)
(** What the compiler emits: the flag of [LOADBOOL] is zero or one, and a
    function has a byte for the number of its upvalues. *)
Record compiled (pt : Proto) : Prop := {
  compiled_loadbool : Forall (fun i => is_op i OP_LOADBOOL = true -> GETARG_C i <= 1) (code pt);
  compiled_nups : Forall (fun q => 0 <= nups q) (p pt);
}.
Section flow.
  Context (pt : Proto) (Hok : luaG_checkcode pt = Val true) (Hc : compiled pt).
Lemma start_inv pc i op : starts pt pc -> bget (code pt) pc = Ok i -> op_of (GET_OPCODE i) = Some op ->
  GETARG_A i < maxstacksize pt /\ (testTMode op = true -> test_ok pt pc) /\
  exists b c last r, symb_args pt pc i op = Val (Some (b, c)) /\ symb_op pt (sizecode pt) NO_REG pc last op (GETARG_A i) b c = Val (Some r).
Proof. intros Hs Ei Eo. eapply checked_inv; [|done..]. apply starts_checked; [done..|]. apply (bget_range _ _ _ Ei). Qed.
Lemma starts_succ pc i op : starts pt pc -> bget (code pt) pc = Ok i -> op_of (GET_OPCODE i) = Some op -> op <> OP_SETLIST -> starts pt (pc + 1).
Proof.
  intros Hs Ei Eo Hne. pose proof (starts_next pt pc i Hs Ei) as Hs'. rewrite (is_long_setlist _ _ Eo) in Hs'.
  by rewrite bool_decide_eq_false_2 in Hs' by done.
Qed.
Lemma not_last pc i op : bget (code pt) pc = Ok i -> op_of (GET_OPCODE i) = Some op -> op <> OP_RETURN -> pc + 1 < sizecode pt.
Proof.
  intros Ei Eo Hne. pose proof (bget_range _ _ _ Ei). destruct (checked_last pt Hok) as (Hpos & d & Ed & Hr).
  destruct (decide (pc = sizecode pt - 1)) as [->|]; [|unfold sizecode in *; lia].
  replace d with i in Hr by congruence. rewrite (is_op_iff _ _ _ Eo) in Hr. by apply bool_decide_eq_true in Hr.
Qed.
Lemma jump_starts pc i op : starts pt pc -> bget (code pt) pc = Ok i -> op_of (GET_OPCODE i) = Some op -> getOpMode op = Some iAsBx -> getBMode op = OpArgR ->
  0 <= pc + 1 + GETARG_sBx i < sizecode pt /\ starts pt (pc + 1 + GETARG_sBx i).
Proof.
  intros Hs Ei Eo Em Eb. destruct (start_inv _ _ _ Hs Ei Eo) as (_ & _ & b & c & last & r & Eargs & _).
  unfold symb_args in Eargs. rewrite Em, Eb in Eargs. apply chk_bind_inv in Eargs as (u & Ej & _). by apply check_jump_starts in Ej.
Qed.
Lemma op_of_is i op : is_op i op = true -> op_of (GET_OPCODE i) = Some op.
Proof. intros E. unfold is_op in E. apply Z.eqb_eq in E. rewrite E. by destruct op. Qed.
Lemma test_starts pc i op : starts pt pc -> bget (code pt) pc = Ok i -> op_of (GET_OPCODE i) = Some op -> testTMode op = true ->
  exists d, bget (code pt) (pc + 1) = Ok d /\ (pc + 2 < sizecode pt /\ starts pt (pc + 2)) /\ (pc + 2 + GETARG_sBx d < sizecode pt /\ starts pt (pc + 2 + GETARG_sBx d)).
Proof.
  intros Hs Ei Eo ET. destruct (start_inv _ _ _ Hs Ei Eo) as (_ & Ht & _).
  destruct (Ht ET) as (Hlt & d & Ed & Hd). apply op_of_is in Hd. exists d.
  assert (starts pt (pc + 1)) as Hs1 by (eapply starts_succ; [done..|]; intros ->; done).
  pose proof (starts_succ _ _ _ Hs1 Ed Hd) as Hs2. pose proof (jump_starts _ _ _ Hs1 Ed Hd eq_refl eq_refl) as [Hr Hj].
  replace (pc + 1 + 1) with (pc + 2) in * by lia. split_and!; try done; [by apply Hs2|lia].
Qed.
Lemma check_upvalues_inv n : forall pc j u, check_upvalues pt n pc j = Val (Some u) ->
  forall m, j <= m < j + Z.of_nat n -> exists i, bget (code pt) (pc + m) = Ok i /\ (op_of (GET_OPCODE i) = Some OP_GETUPVAL \/ op_of (GET_OPCODE i) = Some OP_MOVE).
Proof.
  induction n as [|n IH]; intros pc j u E m Hm; [lia|]. cbn [check_upvalues] in E.
  apply chk_bind_inv in E as (i & Ei & E). apply chk_bind_inv in E as (u' & Ec & E). apply access_inv in Ei. apply check_inv in Ec.
  destruct (decide (m = j)) as [->|]; [|eapply IH; [done|lia]]. exists i. split; [done|].
  apply orb_true_iff in Ec as [Ec|Ec]; apply op_of_is in Ec; auto.
Qed.
Lemma starts_past n pc : starts pt (pc + 1) -> (forall m, 1 <= m < 1 + Z.of_nat n -> exists i, bget (code pt) (pc + m) = Ok i /\
   (op_of (GET_OPCODE i) = Some OP_GETUPVAL \/ op_of (GET_OPCODE i) = Some OP_MOVE)) -> starts pt (pc + 1 + Z.of_nat n).
Proof.
  intros Hs. induction n as [|n IH]; intros Hm; [by rewrite Z.add_0_r|].
  destruct (Hm (1 + Z.of_nat n)) as (i & Ei & Eo); [lia|]. replace (pc + 1 + Z.of_nat (S n)) with (pc + (1 + Z.of_nat n) + 1) by lia.
  assert (starts pt (pc + (1 + Z.of_nat n))) by (replace (pc + (1 + Z.of_nat n)) with (pc + 1 + Z.of_nat n) by lia; apply IH; intros; apply Hm; lia).
  destruct Eo as [Eo|Eo]; eapply starts_succ; done.
Qed.
Lemma closure_inv pc i : starts pt pc -> bget (code pt) pc = Ok i -> op_of (GET_OPCODE i) = Some OP_CLOSURE ->
  exists q, bget (p pt) (GETARG_Bx i) = Ok q /\ 0 <= nups q /\ pc + nups q < sizecode pt /\
    forall m, 1 <= m < 1 + nups q -> exists i, bget (code pt) (pc + m) = Ok i /\ (op_of (GET_OPCODE i) = Some OP_GETUPVAL \/ op_of (GET_OPCODE i) = Some OP_MOVE).
Proof.
  intros Hs Ei Eo. destruct (start_inv _ _ _ Hs Ei Eo) as (_ & _ & b & c & last & r & Eargs & E).
  unfold symb_args in Eargs. op_table Eargs. chk_inv. subst b c. cbn [symb_op] in E. apply chk_bind_inv in E as (u & Hb & E).
  apply chk_bind_inv in E as (q & Eq & E). cbv zeta in E. apply chk_bind_inv in E as (u2 & Hn & E). apply chk_bind_inv in E as (u3 & Hup & _).
  apply access_inv in Eq. apply check_inv in Hn. apply Z.ltb_lt in Hn. exists q.
  assert (0 <= nups q) as Hq.
  { destruct Hc as [_ Hq]. apply bget_Ok in Eq as [_ Eq]. by apply (Forall_lookup_1 _ _ _ _ Hq Eq). }
  split_and!; [done..|]. intros m Hm. apply (check_upvalues_inv _ _ _ _ Hup). lia.
Qed.
Lemma closure_starts pc i : starts pt pc -> bget (code pt) pc = Ok i -> op_of (GET_OPCODE i) = Some OP_CLOSURE ->
  exists q, bget (p pt) (GETARG_Bx i) = Ok q /\ pc + 1 + nups q < sizecode pt /\ starts pt (pc + 1 + nups q).
Proof.
  intros Hs Ei Eo. destruct (closure_inv pc i Hs Ei Eo) as (q & Eq & Hq & Hn & Hm). exists q. split; [done|].
  assert (starts pt (pc + 1)) as Hs1 by (eapply starts_succ; done).
  pose proof (starts_past (Z.to_nat (nups q)) pc Hs1) as Hp. rewrite Z2Nat.id in * by done. split; [|by apply Hp].
  destruct (decide (nups q = 0)) as [->|]; [pose proof (not_last _ _ _ Ei Eo ltac:(done)); lia|].
  destruct (Hm (nups q)) as (d & Ed & Ed'); [lia|]. destruct Ed' as [Ed'|Ed']; pose proof (not_last _ _ _ Ed Ed' ltac:(done)); lia.
Qed.

(** Every way on from a start leads to a start inside the code. *)
Lemma next_starts pc : starts pt pc -> pc < sizecode pt -> exists l, vm_next pt pc = Val l /\ Forall (fun q => starts pt q /\ q < sizecode pt) l.
Proof.
  intros Hs Hlt. destruct (starts_checked pt pc Hok Hs Hlt) as (last & r & E).
  apply symb_instr_inv in E as (i & op & b & c & l & Ei & Eo & _ & Eargs & _ & E). unfold vm_next, fetch. rewrite Ei. cbn [of_res mbind outcome_bind]. rewrite Eo.
  pose proof (starts_succ pc i op Hs Ei Eo) as Hs1. pose proof (not_last pc i op Ei Eo) as Hl1.
  pose proof (jump_starts pc i op Hs Ei Eo) as Hj. pose proof (test_starts pc i op Hs Ei Eo) as Ht.
  destruct op; try (eexists; split; [reflexivity|]; repeat constructor; auto; fail).
  all: try (destruct (Hj eq_refl eq_refl) as [[? ?] ?]; eexists; split; [reflexivity|]; repeat constructor; auto; fail).
  all: try (destruct (Ht eq_refl) as (d & -> & [? ?] & [? ?]); cbn [of_res mbind outcome_bind]; replace (pc + 1 + 1) with (pc + 2) by lia;
            replace (pc + 1 + GETARG_sBx d + 1) with (pc + 2 + GETARG_sBx d) by lia; eexists; split; [reflexivity|]; repeat constructor; auto; fail).
  - unfold symb_args in Eargs. op_table Eargs. chk_inv. subst b c. cbn [symb_op] in E.
    assert (GETARG_C i <= 1) as HC.
    { destruct Hc as [Hb _]. apply bget_Ok in Ei as [_ Ei]. eapply (Forall_lookup_1 _ _ _ _ Hb Ei). by rewrite (is_op_iff _ _ _ Eo). }
    pose proof (GETARG_C_nonneg i). eexists. split; [reflexivity|]. repeat constructor.
    + destruct (Z.eqb_spec (GETARG_C i) 0); [by apply Hs1|]. replace (GETARG_C i) with 1 in E by lia. cbn [Z.eqb Pos.eqb] in E. chk_inv.
      assert (starts pt (pc + 1)) as Hs' by by apply Hs1. pose proof (starts_next pt (pc + 1) x0 Hs' ltac:(done)) as Hn.
      destruct (long_setlist x0) eqn:El; [|by replace (pc + 1 + 1) with (pc + 2) in * by lia; replace (pc + 1 + 1) with (pc + 2) by lia].
      unfold long_setlist in El. apply andb_true_iff in El as [El1 El2]. rewrite El1, El2 in *. done.
    + destruct (Z.eqb_spec (GETARG_C i) 0); [by apply Hl1|]. replace (GETARG_C i) with 1 in E by lia. cbn [Z.eqb Pos.eqb] in E. chk_inv. bool_to_prop. lia.
  - unfold symb_args in Eargs. op_table Eargs. chk_inv. subst b c. cbn [symb_op] in E. apply chk_bind_inv in E as (u & _ & E).
    pose proof (starts_next pt pc i Hs Ei) as Hn. rewrite (is_long_setlist _ _ Eo) in Hn. rewrite bool_decide_eq_true_2 in Hn by done. cbn [andb] in Hn.
    destruct (Z.eqb_spec (GETARG_C i) 0) as [E0|]; cbv zeta in E; chk_inv; bool_to_prop.
    + destruct (bget_in (code pt) (pc + 1)) as [d ->]; [pose proof (starts_nonneg _ _ Hs); unfold sizecode in *; lia|]. cbn [of_res mbind outcome_bind].
      eexists. split; [reflexivity|]. replace (pc + 1 + 1) with (pc + 2) by lia. repeat constructor; [done|lia].
    + eexists. split; [reflexivity|]. repeat constructor; auto.
  - destruct (closure_starts pc i Hs Ei Eo) as (q & -> & Hq & Hsq). cbn [of_res mbind outcome_bind]. eexists. split; [reflexivity|]. by repeat constructor.
Qed.
Lemma reaches_starts pc : vm_reaches pt pc -> starts pt pc /\ pc < sizecode pt.
Proof.
  induction 1 as [|pc l pc' _ [IHs IHl] El Hin]; [split; [constructor|apply checked_last, Hok]|].
  destruct (next_starts pc IHs IHl) as (l' & El' & Hall). replace l' with l in * by congruence. by apply (proj1 (Forall_forall _ _) Hall).
Qed.

(** ** The operands of checked code *)
Lemma RK_in_frame x : (if ISK x then INDEXK x <? sizek pt else x <? maxstacksize pt) = true -> 0 <= x -> in_frame pt (RK x).
Proof.
  intros E Hx. unfold RK. destruct (ISK x); bool_to_prop; cbn [in_frame]; [|lia].
  split; [|done]. unfold INDEXK. apply Z.land_nonneg. by left.
Qed.
Lemma regs_in_frame a b : 0 <= a -> (a <= b -> b < maxstacksize pt) -> Forall (in_frame pt) (regs a b).
Proof.
  intros Ha Hb. unfold regs. apply Forall_map, Forall_forall. intros n Hn. apply list_elem_of_In, in_seq in Hn. cbn. lia.
Qed.
Lemma checkreg_if (b : bool) x (m : chk ()) u : (if b then checkreg pt x else m) = Val (Some u) -> b = true -> x < maxstacksize pt.
Proof. intros E ->. chk_inv. by apply Z.ltb_lt. Qed.
Lemma checkreg_else (b : bool) x (m : chk ()) u : (if b then m else checkreg pt x) = Val (Some u) -> b = false -> x < maxstacksize pt.
Proof. intros E ->. chk_inv. by apply Z.ltb_lt. Qed.
Lemma checkreg_else_else (b b' : bool) x (m m' : chk ()) u : (if b then m else if b' then m' else checkreg pt x) = Val (Some u) -> b = false -> b' = false -> x < maxstacksize pt.
Proof. intros E -> ->. chk_inv. by apply Z.ltb_lt. Qed.
Lemma pseudo_operand pc i : instr_checked pt pc -> bget (code pt) pc = Ok i -> op_of (GET_OPCODE i) = Some OP_GETUPVAL \/ op_of (GET_OPCODE i) = Some OP_MOVE ->
  in_frame pt (if is_op i OP_GETUPVAL then Upv (GETARG_B i) else Reg (GETARG_B i)).
Proof.
  intros Hi Ei [Eo|Eo]; destruct (checked_inv _ _ _ _ Hi Ei Eo) as (_ & _ & b & c & last & r & Eargs & E); rewrite (is_op_iff _ _ _ Eo);
    pose proof (GETARG_B_nonneg i); unfold symb_args in Eargs; op_table Eargs; cbn [checkArgMode] in Eargs; cbn [symb_op] in E; chk_inv; subst b c; bool_to_prop.
  - rewrite bool_decide_eq_true_2 by done. cbn [in_frame]. lia.
  - rewrite bool_decide_eq_false_2 by done. cbn [in_frame]. lia.
Qed.
Lemma closure_operands_ok n : forall pc, (forall m, 1 <= m < 1 + Z.of_nat n -> exists i, bget (code pt) (pc + m) = Ok i /\ instr_checked pt (pc + m) /\
    (op_of (GET_OPCODE i) = Some OP_GETUPVAL \/ op_of (GET_OPCODE i) = Some OP_MOVE)) ->
  exists l, closure_operands pt n (pc + 1) = Val l /\ Forall (in_frame pt) l.
Proof.
  induction n as [|n IH]; intros pc Hm; [by exists []|]. destruct (Hm 1) as (i & Ei & Hi & Eo); [lia|].
  destruct (IH (pc + 1)) as (l & El & Hl). { intros m Hm'. replace (pc + 1 + m) with (pc + (1 + m)) by lia. apply Hm. lia. }
  cbn [closure_operands]. unfold fetch. rewrite Ei. cbn [of_res mbind outcome_bind]. rewrite El. cbn [mbind outcome_bind].
  eexists. split; [reflexivity|]. constructor; [|done]. by apply (pseudo_operand (pc + 1)).
Qed.
Lemma closure_in_frame pc i : starts pt pc -> bget (code pt) pc = Ok i -> op_of (GET_OPCODE i) = Some OP_CLOSURE ->
  exists q l, bget (p pt) (GETARG_Bx i) = Ok q /\ closure_operands pt (Z.to_nat (nups q)) (pc + 1) = Val l /\ Forall (in_frame pt) l.
Proof.
  intros Hs Ei Eo. destruct (closure_inv pc i Hs Ei Eo) as (q & Eq & Hq & _ & Hm).
  destruct (closure_operands_ok (Z.to_nat (nups q)) pc) as (l & El & Hl); [|by exists q, l]. rewrite Z2Nat.id by done.
  intros m Hr. destruct (Hm m Hr) as (d & Ed & Ed'). exists d. split_and!; try done.
  pose proof (starts_past (Z.to_nat (m - 1)) pc) as Hp. replace (pc + 1 + Z.of_nat (Z.to_nat (m - 1))) with (pc + m) in Hp by lia.
  apply starts_checked; [done|apply Hp|apply (bget_range _ _ _ Ed)].
  - by eapply starts_succ.
  - intros m' Hm'. apply Hm. lia.
Qed.

Lemma in_frame_app l1 l2 : Forall (in_frame pt) l1 -> Forall (in_frame pt) l2 -> Forall (in_frame pt) (l1 ++ l2).
Proof. intros. by apply Forall_app. Qed.
Ltac frame := repeat first
  [ apply regs_in_frame; [lia|intros; lia] | apply in_frame_app | apply Forall_nil_2 | apply Forall_cons_2
  | eapply RK_in_frame; [eassumption|lia] | cbn [in_frame]; unfold EXTRA_STACK; lia ].
(** The operands of every instruction the loop can come to. *)
Lemma operands_in_frame pc : starts pt pc -> pc < sizecode pt -> exists l, vm_operands pt pc = Val l /\ Forall (in_frame pt) l.
Proof.
  intros Hs Hlt. destruct (starts_checked pt pc Hok Hs Hlt) as (last & r & E0).
  apply symb_instr_inv in E0 as (i & op & _ & _ & _ & Ei & Eo & _). destruct (start_inv _ _ _ Hs Ei Eo) as (Ha & _ & b & c & l & r' & Eargs & E).
  unfold vm_operands, fetch. rewrite Ei. cbn [of_res mbind outcome_bind]. rewrite Eo.
  pose proof (GETARG_A_nonneg i). pose proof (GETARG_B_nonneg i). pose proof (GETARG_C_nonneg i). pose proof (GETARG_Bx_nonneg i).
  destruct (decide (op = OP_CLOSURE)) as [->|Hne].
  { destruct (closure_in_frame pc i Hs Ei Eo) as (q & l' & Eq & El & Hl). rewrite Eq. cbn [of_res mbind outcome_bind]. rewrite El. cbn [mbind outcome_bind].
    eexists. split; [reflexivity|]. apply bget_range in Eq. repeat constructor; [cbn; lia..| |done]. cbn. unfold sizep. lia. }
  destruct op; try done; unfold symb_args in Eargs; op_table Eargs; cbn [checkArgMode] in Eargs; cbn [symb_op] in E; cbv zeta in E; chk_inv;
    repeat match goal with
    | E : (if _ then checkreg pt _ else _) = Val (Some _) |- _ => pose proof (checkreg_if _ _ _ _ E); clear E
    | E : (if _ then _ else checkreg pt _) = Val (Some _) |- _ => pose proof (checkreg_else _ _ _ _ E); clear E
    | E : (if _ then _ else if _ then _ else checkreg pt _) = Val (Some _) |- _ => pose proof (checkreg_else_else _ _ _ _ _ _ E); clear E
    end; subst b c; bool_to_prop; (eexists; split; [reflexivity|]); frame.
Qed.
End flow.

(** ** The checker itself reads inside the prototype *)
Definition safely {A} (m : chk A) (P : A -> Prop) : Prop := match m with Val (Some a) => P a | Val None => True | _ => False end.
Lemma safely_bind {A B} (m : chk A) (f : A -> chk B) P : safely m (fun a => safely (f a) P) -> safely (mbind f m) P.
Proof. by destruct m as [[a|]| |]. Qed.
Lemma safely_check b (P : () -> Prop) : (b = true -> P ()) -> safely (check b) P.
Proof. destruct b; cbn; auto. Qed.
Lemma safely_access {A} (l : list A) i (P : A -> Prop) : 0 <= i < Zlen l -> (forall x, bget l i = Ok x -> P x) -> safely (access l i) P.
Proof. intros Hi HP. destruct (access_in l i Hi) as (x & -> & E). by apply HP. Qed.
Lemma safely_mono {A} (m : chk A) (P Q : A -> Prop) : safely m P -> (forall a, P a -> Q a) -> safely m Q.
Proof. destruct m as [[a|]| |]; cbn; auto. Qed.
Lemma safely_ret {A} (a : A) (P : A -> Prop) : P a -> safely (mret a : chk A) P.
Proof. done. Qed.
Lemma safely_if {A} (b : bool) (m m' : chk A) P : (b = true -> safely m P) -> (b = false -> safely m' P) -> safely (if b then m else m') P.
Proof. destruct b; auto. Qed.
Ltac safely := repeat match goal with
  | |- safely (mbind _ _) _ => apply safely_bind
  | |- safely (check _) _ => apply safely_check; intros ?
  | |- safely (mret _) _ => apply safely_ret
  | |- safely (if _ then _ else _) _ => apply safely_if; intros ?
  | |- safely (access _ _) _ => apply safely_access; [bool_to_prop; unfold sizecode, sizep, sizek in *; lia|intros ? ?]
  end.
Section total.
  Context (pt : Proto) (lastpc reg : Z) (Hlast : lastpc <= sizecode pt) (Hnups : Forall (fun q => 0 <= nups q) (p pt)).
  Context (Hret : exists i, bget (code pt) (sizecode pt - 1) = Ok i /\ is_op i OP_RETURN = true).
Lemma setlist_run_safely n dest : forall j, Z.of_nat n = dest - j -> 0 <= j -> dest < sizecode pt -> safely (setlist_run pt n dest j) (fun _ => True).
Proof. induction n as [|n IH]; intros j Hn Hj Hd; cbn [setlist_run]; safely; try done. apply IH; lia. Qed.
Lemma symb_args_safely pc i op : safely (symb_args pt pc i op) (fun '(b, c) => match getOpMode op with Some iABx => b = GETARG_Bx i /\ (getBMode op = OpArgK -> b < sizek pt) | _ => True end).
Proof.
  assert (forall r m, safely (checkArgMode pt r m) (fun _ => True)) as Ha.
  { intros r m. destruct m; unfold checkArgMode, checkreg; safely; done. }
  unfold symb_args. destruct (getOpMode op) as [[]|]; [| | |done].
  - apply safely_bind. eapply safely_mono; [apply Ha|]. intros _ _. apply safely_bind. eapply safely_mono; [apply Ha|]. done.
  - destruct (getBMode op); safely; bool_to_prop; done.
  - destruct (getBMode op); try (safely; done). unfold check_jump. safely; [|done].
    bool_to_prop. eapply safely_mono; [apply setlist_run_safely; lia|]. intros j _. by safely.
Qed.
Lemma checkopenop_safely pc i op : 0 <= pc -> bget (code pt) pc = Ok i -> op_of (GET_OPCODE i) = Some op -> op <> OP_RETURN -> safely (checkopenop pt pc) (fun _ => True).
Proof.
  intros Hpc Ei Eo Hne. destruct Hret as (d & Ed & Hr). pose proof (bget_range _ _ _ Ei).
  assert (pc <> sizecode pt - 1). { intros ->. replace d with i in Hr by congruence. rewrite (is_op_iff _ _ _ Eo) in Hr. by apply bool_decide_eq_true in Hr. }
  unfold checkopenop, luaG_checkopenop. safely. match goal with |- context [op_of (GET_OPCODE ?x)] => destruct (op_of (GET_OPCODE x)) as [[]|] end; by safely.
Qed.
Lemma check_upvalues_safely n pc : forall j, 0 <= pc + j -> pc + j + Z.of_nat n <= sizecode pt -> safely (check_upvalues pt n pc j) (fun _ => True).
Proof. induction n as [|n IH]; intros j Hj Hn; cbn [check_upvalues]; safely; try done. apply IH; lia. Qed.
Definition onward (pc : Z) (r : Z * Z) : Prop := pc <= fst r /\ 0 <= snd r < sizecode pt.
Lemma symb_op_safely pc last op i b c : 0 <= pc < lastpc -> 0 <= last < sizecode pt -> bget (code pt) pc = Ok i -> op_of (GET_OPCODE i) = Some op ->
  match getOpMode op with Some iABx => b = GETARG_Bx i /\ (getBMode op = OpArgK -> b < sizek pt) | _ => True end ->
  safely (symb_op pt lastpc reg pc last op (GETARG_A i) b c) (onward pc).
Proof.
  intros Hpc Hl Ei Eo Hb. pose proof (checkopenop_safely pc i op ltac:(lia) Ei Eo) as Ho. pose proof (GETARG_Bx_nonneg i).
  assert (forall P : () -> Prop, (forall u, P u) -> op <> OP_RETURN -> safely (checkopenop pt pc) P) as Ho'.
  { intros P HP Hne. eapply safely_mono; [by apply Ho|]. intros u _. apply HP. }
  assert (forall l pc', pc <= pc' -> 0 <= l < sizecode pt -> onward pc (pc', l)) as Hon by (intros; split; done).
  assert (forall x : bool, 0 <= (if x then pc else last) < sizecode pt) as Hif by (intros []; lia).
  assert (pc <= if negb (reg =? NO_REG) && (pc <? pc + 1 + b) && (pc + 1 + b <=? lastpc) then pc + b else pc) as Hjump.
  { destruct (_ && _) eqn:E; [bool_to_prop; lia|done]. }
  destruct op; op_table Hb; cbn [symb_op] in *; unfold checkreg; try (destruct Hb as [-> Hb]; try specialize (Hb eq_refl)); safely;
    try (apply Ho'; [intros _|done]); safely; try (apply Hon; [|try apply Hif; lia]; first [done|lia]).
  eapply safely_mono; [apply check_upvalues_safely|intros _ _; safely; apply Hon]; bool_to_prop;
    match goal with E : bget (p pt) _ = Ok ?q |- _ => assert (0 <= nups q) by (apply bget_Ok in E as [_ E]; apply (Forall_lookup_1 _ _ _ _ Hnups E)) end;
    try destruct (reg =? NO_REG); lia.
Qed.
Lemma symb_instr_safely pc last : 0 <= pc < lastpc -> 0 <= last < sizecode pt -> safely (symb_instr pt lastpc reg pc last) (onward pc).
Proof.
  intros Hpc Hl. unfold symb_instr, checkreg. safely. bool_to_prop. pose proof (GET_OPCODE_nonneg x).
  destruct (op_of_range (GET_OPCODE x)) as [op Eo]; [lia|]. rewrite Eo. safely. eapply safely_mono; [apply symb_args_safely|].
  intros [b c] Hb. cbv zeta. safely; bool_to_prop.
  - apply symb_op_safely; [done| |done..]. destruct (_ && _); lia.
  - apply symb_op_safely; [done| |done..]. destruct (_ && _); lia.
Qed.
Lemma symb_loop_safely fuel : forall pc last, 0 <= pc -> (Z.to_nat (lastpc - pc) < fuel)%nat -> 0 <= last < sizecode pt ->
  safely (symb_loop pt fuel lastpc reg pc last) (fun _ => True).
Proof.
  induction fuel as [|fuel IH]; intros pc last Hpc Hf Hl; [lia|]. cbn [symb_loop]. safely; [|done]. bool_to_prop.
  eapply safely_mono; [apply symb_instr_safely; lia|]. intros [pc' last'] [Hp Hl']. cbn in Hp, Hl'. apply IH; [lia..|done].
Qed.
End total.

(** ** Properties *)

(** Symbolic execution, for the checker of loaded code
    and for the names in error messages alike, ends for every code, position
    and register, and reads only inside the prototype. *)
Theorem symbexec_total pt lastpc reg : lastpc <= sizecode pt -> Forall (fun q => 0 <= nups q) (p pt) -> exists i, symbexec pt lastpc reg = Val i.
Proof.
  intros Hl Hn. unfold symbexec.
  assert (safely (_ ← precheck pt; symb_loop pt (S (Z.to_nat lastpc)) lastpc reg 0 (sizecode pt - 1) : chk Z) (fun _ => True)) as Hs.
  { unfold precheck. safely; bool_to_prop; [|done]. unfold is_op in *. eapply safely_mono; [apply symb_loop_safely|done]; try done; [|lia..].
    eexists. split; [eassumption|]. unfold is_op. lia. }
  destruct (mbind _ _) as [[i|]| |]; cbn in Hs; eauto; done.
Qed.

(** C23: The interpreter loop stays inside code that luaG_checkcode accepts,
    provided that every LOADBOOL has 0 or 1 as its C, as the compiler emits it
    and the checker does not test ([checker_misses_loadbool]), and that the
    inner functions have no negative number of upvalues, a byte in the C
    structure: wherever the loop comes to from the first instruction, the next
    instruction is in the code, all words it fetches are there, and its
    registers, constants, upvalues and inner functions are in the frame and
    the vectors of the prototype. *)
Theorem checked_code_stays_inside pt pc : luaG_checkcode pt = Val true -> compiled pt -> vm_reaches pt pc ->
  0 <= pc < sizecode pt /\ (exists l, vm_next pt pc = Val l) /\ exists l, vm_operands pt pc = Val l /\ Forall (in_frame pt) l.
Proof.
  intros Hok Hc Hr. destruct (reaches_starts pt Hok Hc pc Hr) as [Hs Hlt]. pose proof (starts_nonneg _ _ Hs).
  destruct (next_starts pt Hok Hc pc Hs Hlt) as (l & El & _). split_and!; [lia|done|eauto|]. by apply operands_in_frame.
Qed.
End vm.

(** ** Concrete prototypes *)
Section examples.
  #[local] Existing Instance integers.
Definition no_locals (c : list Z) (ks : list TValue) (ps : list Proto) (m : Z) : Proto := MkProto ks c ps [] [] [] (Some [64]) 0 0 0 0 0 m.
(** [for i = 1, 3 do print(i) end], with numbers of the instance. *)
Definition for_loop : Proto := no_locals
  [CREATE_ABx 1 0 0; CREATE_ABx 1 1 1; CREATE_ABx 1 2 0; SETARG_sBx (CREATE_ABx 32 0 0) 3;
   CREATE_ABx 5 4 2; CREATE_ABC 0 5 3 0; CREATE_ABC 28 4 2 1; SETARG_sBx (CREATE_ABx 31 0 0) (-4); CREATE_ABC 30 0 1 0]
  [VNumber (of_Z 1); VNumber (of_Z 3); VString (Some [112])] [] 6.
Lemma symbexec_total_witness : 5 <= sizecode for_loop /\ exists i, symbexec for_loop 5 4 = Val i.
Proof. split; [vm_compute; discriminate|]. apply (symbexec_total for_loop 5 4); [vm_compute; discriminate|constructor]. Defined.
Lemma for_loop_reaches : vm_reaches for_loop 4.
Proof.
  eapply (vm_step _ 7 [8; 4]); [|by vm_compute|apply list_elem_of_In; cbn; auto]. eapply (vm_step _ 3 [7]); [|by vm_compute|apply list_elem_of_In; cbn; auto].
  eapply (vm_step _ 2 [3]); [|by vm_compute|apply list_elem_of_In; cbn; auto]. eapply (vm_step _ 1 [2]); [|by vm_compute|apply list_elem_of_In; cbn; auto].
  eapply (vm_step _ 0 [1]); [|by vm_compute|apply list_elem_of_In; cbn; auto]. constructor.
Qed.
Lemma for_loop_compiled : compiled for_loop.
Proof. split; [|constructor]. repeat constructor; by vm_compute. Qed.
Lemma checked_code_stays_inside_witness : luaG_checkcode for_loop = Val true /\ 0 <= 4 < sizecode for_loop.
Proof.
  split; [by vm_compute|]. apply (checked_code_stays_inside for_loop 4); [by vm_compute|apply for_loop_compiled|apply for_loop_reaches].
Defined.
(** [LOADBOOL] skips an instruction for every flag that is not zero,
    the checker looks at the flag one only: code with the flag two is accepted
    and runs past its end. *)
Definition loadbool_two : Proto := no_locals [CREATE_ABC 2 0 0 2; CREATE_ABC 30 0 1 0] [] [] 2.
Theorem checker_misses_loadbool :
  luaG_checkcode loadbool_two = Val true /\ vm_reaches loadbool_two 2 /\ vm_next loadbool_two 2 = Fault OutOfBounds.
Proof. split_and!; [by vm_compute| |by vm_compute]. eapply (vm_step _ 0 [2]); [constructor|by vm_compute|apply list_elem_of_In; cbn; auto]. Qed.
End examples.
