(* ===== verification/LuaDump.v ===== *)
(** Precompiled chunks, the writing side: src/src/lua/ldump.c, for the local
    machine and for a cross-compilation target, over a writer that takes
    blocks of bytes. *)
From S2P Require Import Prelude LuaStr LuaFormat LuaLex LuaOpcodes LuaCheck.

(** ** Objects in memory

    The bytes of an integer of [n] bytes, lowest first or last. *)
Fixpoint le_bytes (n : nat) (x : Z) : list Z := match n with O => [] | S n => u8 x :: le_bytes n (x / 256) end.
Fixpoint le_int (l : list Z) : Z := match l with [] => 0 | b :: l => b + 256 * le_int l end.
Definition int_bytes (little : bool) (n : nat) (x : Z) : list Z := if little then le_bytes n x else rev (le_bytes n x).
Definition int_of (little : bool) (l : list Z) : Z := le_int (if little then l else rev l).
(** The machine: its byte order and the representation of a number as
    [double] and [float]; [float_is n x] is the comparison [(float)n == x]. *)
Class Machine `{Double} := {
  platform_little : bool;
  double_bytes : num -> list Z;
  double_of : list Z -> num;
  float_bytes : num -> list Z;
  float_is : Z -> num -> bool;
}.

Definition LUA_SIGNATURE : list Z := [27; 76; 117; 97].
Definition LUAC_VERSION := 81.
Definition LUAC_FORMAT := 0.
Definition LUAC_HEADERSIZE := 12.
Definition LUA_ERR_CC_INTOVERFLOW := 101.
Definition LUA_ERR_CC_NOTINTEGER := 102.
Definition LUA_TNIL := 0.
Definition LUA_TBOOLEAN := 1.
Definition LUA_TNUMBER := 5.
Definition LUA_TSTRING := 6.
Record DumpTargetInfo := MkTarget {
  little_endian : Z; sizeof_int : Z; sizeof_strsize_t : Z; sizeof_lua_Number : Z; lua_Number_integral : Z; is_arm_fpa : Z }.

Section dump.
  Context `{Machine}.
  (** [lua_Writer] with its data, and a bound on the rounds of [Align4]. *)
  Context {W : Type} (writer : W -> list Z -> W * Z) (fuel : nat).
Record DumpState := MkDump { data : W; strip : bool; status : Z; target : DumpTargetInfo; wrote : Z }.
Definition dump (A : Type) : Type := DumpState -> outcome (DumpState * A).
#[global] Instance dump_ret : MRet dump := fun A a D => Val (D, a).
#[global] Instance dump_bind : MBind dump := fun A B f m D => '(D, a) ← m D; f a D.
Definition gets {A} (f : DumpState -> A) : dump A := fun D => Val (D, f D).
Definition lift {A} (r : res A) : dump A := fun D => a ← of_res r; Val (D, a).
Definition set_status (n : Z) : dump () := fun D => Val (MkDump (data D) (strip D) n (target D) (wrote D), ()).
Definition when (b : bool) (m : dump ()) : dump () := if b then m else mret ().
Definition target_of {A} (f : DumpTargetInfo -> A) : dump A := gets (fun D => f (target D)).
Fixpoint for_each {A} (f : A -> dump ()) (l : list A) : dump () := match l with [] => mret () | a :: l => _ ← f a; for_each f l end.

Definition DumpBlock (b : list Z) : dump () := fun D =>
  if status D =? 0 then
    let '(data, status) := writer (data D) b in
    Val (MkDump data (strip D) status (target D) (u32 (wrote D + Zlen b)), ())
  else Val (D, ()).
Definition DumpChar (y : Z) : dump () := DumpBlock [u8 y].
Fixpoint align_loop (n : nat) : dump () :=
  match n with
  | O => fun _ => Fault NoFuel
  | S n => w ← gets wrote; if Z.land w 3 =? 0 then mret () else _ ← DumpChar 0; align_loop n
  end.
Definition Align4 : dump () := align_loop fuel.
(** Exchanging the bytes [i] and [numbersize - 1 - i]. *)
Fixpoint swap_loop (n : nat) (i : nat) (number : list Z) (numbersize : nat) : list Z :=
  match n with
  | O => number
  | S n =>
    let temp := List.nth i number 0 in
    swap_loop n (S i) (<[(numbersize - 1 - i)%nat := temp]> (<[i := List.nth (numbersize - 1 - i) number 0]> number)) numbersize
  end.
Definition MaybeByteSwap (number : list Z) (numbersize : nat) : dump (list Z) :=
  little ← target_of little_endian;
  mret (if cbool platform_little =? little then number else swap_loop (numbersize / 2) 0 number numbersize).
(** Stores the [n] low bytes of an integer in the order of the target. *)
Definition DumpIntBytes (n : nat) (x : Z) : dump () := b ← MaybeByteSwap (int_bytes platform_little n x) n; DumpBlock b.
Definition DumpIntWithSize (x sizeof_int : Z) : dump () :=
  if sizeof_int =? 1 then
    _ ← when ((127 <? x) || (x <? -128)) (set_status LUA_ERR_CC_INTOVERFLOW); DumpChar x
  else if sizeof_int =? 2 then
    _ ← when ((32767 <? x) || (x <? -32768)) (set_status LUA_ERR_CC_INTOVERFLOW); DumpIntBytes 2 x
  else if sizeof_int =? 4 then
    _ ← when ((2147483646 <? x) || (x <? -2147483647)) (set_status LUA_ERR_CC_INTOVERFLOW); DumpIntBytes 4 x
  else mret ().
Definition DumpInt (x : Z) : dump () := n ← target_of sizeof_int; DumpIntWithSize x n.
Definition DumpSize (x : Z) : dump () :=
  n ← target_of sizeof_strsize_t;
  if n =? 1 then
    _ ← when (255 <? x) (set_status LUA_ERR_CC_INTOVERFLOW); DumpChar x
  else if n =? 2 then
    _ ← when (65535 <? x) (set_status LUA_ERR_CC_INTOVERFLOW); DumpIntBytes 2 x
  else if n =? 4 then
    _ ← when (4294967294 <? x) (set_status LUA_ERR_CC_INTOVERFLOW); DumpIntBytes 4 x
  else mret ().
Definition DumpNumber (x : num) : dump () :=
  integral ← target_of lua_Number_integral;
  size ← target_of sizeof_lua_Number;
  if ctrue integral then
    n ← lift (int32 (trunc x));
    _ ← when (negb (float_is n x)) (set_status LUA_ERR_CC_NOTINTEGER);
    DumpIntWithSize n size
  else if size =? 4 then b ← MaybeByteSwap (float_bytes x) 4; DumpBlock b
  else if size =? 8 then
    arm ← target_of is_arm_fpa;
    let y := double_bytes x in
    let y := if ctrue arm then drop 4 y ++ take 4 y else y in
    b ← MaybeByteSwap y 8; DumpBlock b
  else mret ().
Definition DumpCode (f : Proto) : dump () :=
  _ ← DumpInt (sizecode f);
  _ ← Align4;
  for_each (DumpIntBytes 4) (code f).
Definition DumpString (s : TString) : dump () :=
  match s with
  | None => DumpSize 0
  | Some s =>
    let size := u32 (Zlen s + 1) in
    _ ← DumpSize size;
    DumpBlock (take (Z.to_nat size) (cstr s))
  end.
Definition ttype (o : TValue) : Z :=
  match o with VNil => LUA_TNIL | VBoolean _ => LUA_TBOOLEAN | VNumber _ => LUA_TNUMBER | VString _ => LUA_TSTRING end.
Definition DumpConstant (o : TValue) : dump () :=
  _ ← DumpChar (ttype o);
  match o with
  | VNil => mret ()
  | VBoolean b => DumpChar b
  | VNumber x => DumpNumber x
  | VString ts => DumpString ts
  end.
(** [DumpFunction] for the functions inside is an argument. *)
Definition DumpConstants (DumpFunction : Proto -> dump ()) (f : Proto) : dump () :=
  _ ← DumpInt (sizek f);
  _ ← for_each DumpConstant (k f);
  _ ← DumpInt (sizep f);
  for_each DumpFunction (p f).
Definition DumpLocVar (v : LocVar) : dump () := _ ← DumpString (varname v); _ ← DumpInt (startpc v); DumpInt (endpc v).
Definition DumpDebug (f : Proto) : dump () :=
  strip ← gets strip;
  let vector {A} (l : list A) := if strip : bool then [] else l in
  _ ← DumpInt (Zlen (vector (lineinfo f)));
  _ ← Align4;
  _ ← for_each DumpInt (vector (lineinfo f));
  _ ← DumpInt (Zlen (vector (locvars f)));
  _ ← for_each DumpLocVar (vector (locvars f));
  _ ← DumpInt (Zlen (vector (upvalues f)));
  for_each DumpString (vector (upvalues f)).
Fixpoint DumpFunction (parent : TString) (f : Proto) : dump () :=
  strip ← gets strip;
  _ ← DumpString (if bool_decide (source f = parent) || strip then None else source f);
  _ ← DumpInt (linedefined f);
  _ ← DumpInt (lastlinedefined f);
  _ ← DumpChar (nups f);
  _ ← DumpChar (numparams f);
  _ ← DumpChar (is_vararg f);
  _ ← DumpChar (maxstacksize f);
  _ ← DumpCode f;
  _ ← DumpConstants (DumpFunction (source f)) f;
  DumpDebug f.
Definition DumpHeader : dump () :=
  t ← gets target;
  DumpBlock (LUA_SIGNATURE ++ map u8 [LUAC_VERSION; LUAC_FORMAT; little_endian t; sizeof_int t; sizeof_strsize_t t; 4; sizeof_lua_Number t; lua_Number_integral t]).
Definition luaU_dump_crosscompile (f : Proto) (data0 : W) (strip : bool) (target : DumpTargetInfo) : outcome (W * Z) :=
  '(D, _) ← (_ ← DumpHeader; DumpFunction None f : dump ()) (MkDump data0 strip 0 target 0);
  mret (data D, status D).
Definition local_target : DumpTargetInfo := MkTarget (cbool platform_little) 4 4 8 0 0.
Definition luaU_dump (f : Proto) (data0 : W) (strip : bool) : outcome (W * Z) := luaU_dump_crosscompile f data0 strip local_target.
End dump.
(** [writer] of lstrlib.c: a buffer that takes everything. *)
Definition buffer_writer (B b : list Z) : list Z * Z := (B ++ b, 0).
Definition str_dump `{Machine} (f : Proto) : outcome (list Z) :=
  '(B, status) ← luaU_dump buffer_writer 4 f [] false;
  if status =? 0 then mret B else Raise UnableToDump.
