(* ===== verification/LuaUndump.v ===== *)
(** Precompiled chunks, the reading side: src/src/lua/lundump.c over an input
    stream of LuaLex.v, with the vectors it allocates by the macros of
    src/src/lua/lmem.h. The read-only chunks of the direct mode, whose vectors
    stay in the image of the chunk, are left out, as is the name of the chunk,
    which only stands in error messages. Every store goes to an object of a
    known size: a block of the allocator, the string buffer or a variable; a
    store or an access behind its end is a fault. *)
From S2P Require Import Prelude LuaStr LuaFormat LuaLex LuaOpcodes LuaCheck LuaDump.

Definition LUAI_MAXCCALLS := 200.
Definition sizeof_pointer := 4.
Definition sizeof_LocVar := 12.
(** The parent of a main function, the string [=?]. *)
Definition no_source : TString := Some [61; 63].

Section load.
  (** What the allocator can give, and the size of a value, which depends on
      the alignment of [double]. *)
  Context `{Machine} (can_alloc : Z -> bool) (sizeof_TValue : Z).
(** [struct LoadState], with the size of its buffer and the depth of calls of
    the Lua state. *)
Record LoadState := MkLoad { Zs : ZIO; buffsize : Z; swap : bool; numsize : Z; toflt : bool; total : Z; nCcalls : Z }.
Definition ldr (A : Type) : Type := LoadState -> outcome (LoadState * A).
#[global] Instance ldr_ret : MRet ldr := fun A a S => Val (S, a).
#[global] Instance ldr_bind : MBind ldr := fun A B f m S => '(S, a) ← m S; f a S.
Definition ask {A} (f : LoadState -> A) : ldr A := fun S => Val (S, f S).
Definition error {A} (e : lua_error) : ldr A := fun _ => Raise e.
Definition lifted {A} (m : outcome A) : ldr A := fun S => a ← m; Val (S, a).
Definition set_calls (n : Z) : ldr () := fun S => Val (MkLoad (Zs S) (buffsize S) (swap S) (numsize S) (toflt S) (total S) n, ()).
Definition set_buffsize (n : Z) : ldr () := fun S => Val (MkLoad (Zs S) n (swap S) (numsize S) (toflt S) (total S) (nCcalls S), ()).
Definition set_mode (sw : bool) (n : Z) (flt : bool) : ldr () := fun S => Val (MkLoad (Zs S) (buffsize S) sw n flt (total S) (nCcalls S), ()).
Definition set_total (n : Z) : ldr () := fun S => Val (MkLoad (Zs S) (buffsize S) (swap S) (numsize S) (toflt S) n (nCcalls S), ()).
(** [luaM_reallocv] without an old block, for a count of type [size_t]: the
    block it gives has this many bytes. *)
Definition luaM_reallocv (n e : Z) : ldr Z :=
  if u32 (n + 1) <=? MAX_SIZET / e then if can_alloc (u32 (n * e)) then mret (u32 (n * e)) else error NotEnoughMemory else error BlockTooBig.
(** [luaM_newvector], whose count is an [int]: the macro adds one to it before
    the cast. *)
Definition luaM_newvector (n e : Z) : ldr Z :=
  if n =? 2147483647 then lifted (Fault SignedOverflow) else luaM_reallocv n e.
(** The buffer, of which [buffsize] bytes are allocated, as large as it is
    then. *)
Definition luaZ_openspace (n : Z) : ldr Z :=
  old ← ask buffsize;
  if old <? n then
    let n := if n <? LUA_MINBUFFER then LUA_MINBUFFER else n in
    room ← luaM_reallocv n 1;
    _ ← set_buffsize n;
    mret room
  else mret old.
(** An access to the first [n] bytes of an object of [room] bytes. *)
Definition inside (n room : Z) : ldr () := if n <=? room then mret () else lifted (Fault OutOfBounds).

(** The destination is an object of [room] bytes: storing more bytes than that
    is a fault, also when the stream ends before the block does. *)
Definition LoadBlock (room size : Z) : ldr (list Z) := fun S =>
  '(z, (b, r)) ← luaZ_read (Zs S) size;
  if room <? Zlen b then Fault OutOfBounds else
  if negb (r =? 0) then Raise UnexpectedEnd else
  Val (MkLoad z (buffsize S) (swap S) (numsize S) (toflt S) (u32 (total S + size)) (nCcalls S), b).
(** The exchanges of one element, and of [n] elements one behind the other. *)
Definition swap_elem (l : list Z) : list Z :=
  match l with
  | [p0; p1] => [p1; p0]
  | [p0; p1; p2; p3] => [p3; p2; p1; p0]
  | [p0; p1; p2; p3; p4; p5; p6; p7] => [p7; p6; p5; p4; p3; p2; p1; p0]
  | _ => l
  end.
Fixpoint swap_vector (n : nat) (size : nat) (b : list Z) : list Z :=
  match n with O => b | S n => swap_elem (take size b) ++ swap_vector n size (drop size b) end.
Definition LoadMem (room n size : Z) : ldr (list Z) :=
  b ← LoadBlock room (u32 (n * size));
  sw ← ask swap;
  if sw : bool then
    if bool_decide (size ∈ [1; 2; 4; 8]) then
      _ ← inside (n * size) room;
      mret (swap_vector (Z.to_nat n) (Z.to_nat size) b)
    else error BadSize
  else mret b.
(** A variable of [size] bytes. *)
Definition LoadVar (size : Z) : ldr (list Z) := LoadMem size 1 size.
Definition LoadChar : ldr Z := b ← LoadVar 1; mret (s8 (int_of platform_little b)).
Definition LoadByte : ldr Z := x ← LoadChar; mret (u8 x).
Fixpoint load_align (n : nat) : ldr () :=
  match n with
  | O => fun _ => Fault NoFuel
  | S n => w ← ask total; if Z.land w 3 =? 0 then mret () else _ ← LoadChar; load_align n
  end.
Definition LoadAlign4 : ldr () := load_align 4.
Definition LoadInt : ldr Z := b ← LoadVar 4; let x := s32 (int_of platform_little b) in if x <? 0 then error BadInteger else mret x.
Definition LoadNumber : ldr num :=
  flt ← ask toflt;
  size ← ask numsize;
  if flt : bool then
    if size =? 1 then b ← LoadVar 1; mret (of_Z (s8 (int_of platform_little b)))
    else if size =? 2 then b ← LoadVar 2; mret (of_Z (s16 (int_of platform_little b)))
    else if size =? 4 then b ← LoadVar 4; mret (of_Z (s32 (int_of platform_little b)))
    else lifted (Fault Uninit)
  else b ← LoadVar 8; mret (double_of b).
(** [luaS_newlstr] of the bytes before the last. *)
Definition LoadString : ldr TString :=
  b ← LoadVar 4;
  let size := s32 (int_of platform_little b) in
  if size =? 0 then mret None else
  room ← luaZ_openspace (u32 size);
  s ← LoadBlock room (u32 size);
  let l := u32 (size - 1) in
  if can_alloc l then mret (Some (take (Z.to_nat l) s)) else error NotEnoughMemory.
(** Elements [i] to [i + n - 1] of a vector of [room] bytes in turn, each of
    [size] bytes, and the integers of a vector. *)
Fixpoint load_list {A} (room size i : Z) (n : nat) (m : ldr A) : ldr (list A) :=
  match n with
  | O => mret []
  | S n => a ← m; _ ← inside ((i + 1) * size) room; l ← load_list room size (i + 1) n m; mret (a :: l)
  end.
(** A vector of [n] elements, cleared and then loaded one by one. *)
Definition load_vector {A} (n size : Z) (m : ldr A) : ldr (list A) :=
  room ← luaM_newvector n size;
  _ ← inside (n * size) room;
  load_list room size 0 (Z.to_nat n) m.
Fixpoint words (n : nat) (b : list Z) : list Z := match n with O => [] | S n => int_of platform_little (take 4 b) :: words n (drop 4 b) end.
(** A vector of [n] words, loaded at once; its readers take it for one of [n]
    elements. *)
Definition load_words (n : Z) : ldr (list Z) :=
  room ← luaM_newvector n 4;
  b ← LoadMem room n 4;
  _ ← inside (n * 4) room;
  mret (words (Z.to_nat n) b).
Definition LoadCode : ldr (list Z) :=
  n ← LoadInt;
  _ ← LoadAlign4;
  code ← load_words n;
  mret code.
Definition LoadConstant : ldr TValue :=
  t ← LoadChar;
  if t =? LUA_TNIL then mret VNil
  else if t =? LUA_TBOOLEAN then b ← LoadChar; mret (VBoolean (cbool (negb (b =? 0))))
  else if t =? LUA_TNUMBER then x ← LoadNumber; mret (VNumber x)
  else if t =? LUA_TSTRING then ts ← LoadString; mret (VString ts)
  else error BadConstant.
Definition LoadConstants (LoadFunction : ldr Proto) : ldr (list TValue * list Proto) :=
  n ← LoadInt;
  k ← load_vector n sizeof_TValue LoadConstant;
  n ← LoadInt;
  p ← load_vector n sizeof_pointer LoadFunction;
  mret (k, p).
Definition LoadLocVar : ldr LocVar := v ← LoadString; s ← LoadInt; e ← LoadInt; mret (MkLocVar v s e).
Definition LoadDebug : ldr (list Z * list LocVar * list TString) :=
  n ← LoadInt;
  _ ← LoadAlign4;
  l ← load_words n;
  let lineinfo := map s32 l in
  n ← LoadInt;
  locvars ← load_vector n sizeof_LocVar LoadLocVar;
  n ← LoadInt;
  upvalues ← load_vector n sizeof_pointer LoadString;
  mret (lineinfo, locvars, upvalues).
(** The prototype of one function, whose inner functions [LoadFunction] loads. *)
Definition LoadProto (LoadFunction : TString -> ldr Proto) (parent : TString) : ldr Proto :=
  s ← LoadString;
  let source := match s with None => parent | Some _ => s end in
  linedefined ← LoadInt;
  lastlinedefined ← LoadInt;
  nups ← LoadByte;
  numparams ← LoadByte;
  is_vararg ← LoadByte;
  maxstacksize ← LoadByte;
  code ← LoadCode;
  '(k, p) ← LoadConstants (LoadFunction source);
  '(lineinfo, locvars, upvalues) ← LoadDebug;
  let f := MkProto k code p lineinfo locvars upvalues source linedefined lastlinedefined nups numparams is_vararg maxstacksize in
  ok ← lifted (luaG_checkcode f);
  if negb ok then error BadCode else mret f.
Fixpoint LoadFunction (fuel : nat) (parent : TString) : ldr Proto :=
  match fuel with
  | O => lifted (Fault NoFuel)
  | S fuel =>
    n ← ask nCcalls;
    _ ← set_calls (n + 1);
    if LUAI_MAXCCALLS <? n + 1 then error CodeTooDeep else
    f ← LoadProto (LoadFunction fuel) parent;
    n ← ask nCcalls;
    _ ← set_calls (n - 1);
    mret f
  end.
Definition luaU_header : list Z := LUA_SIGNATURE ++ [LUAC_VERSION; LUAC_FORMAT; cbool platform_little; 4; 4; 4; 8; 0].
Definition LoadHeader : ldr () :=
  let h := luaU_header in
  s ← LoadBlock LUAC_HEADERSIZE LUAC_HEADERSIZE;
  let sw := negb (List.nth 6 s 0 =? List.nth 6 h 0) in
  let s := <[6%nat := List.nth 6 h 0]> s in
  let numsize := List.nth 10 s 0 in
  let h := <[10%nat := numsize]> h in
  let toflt := 0 <? s8 (List.nth 11 s 0) in
  let s := if toflt then <[11%nat := List.nth 11 h 0]> s else s in
  _ ← set_mode sw numsize toflt;
  if bool_decide (h = s) then mret () else error BadHeader.
(** With the stream, the buffer and the depth of calls of the caller. *)
Definition luaU_undump (z : ZIO) (buff calls : Z) : outcome (LoadState * Proto) :=
  (_ ← LoadHeader;
   _ ← set_total 0;
   LoadFunction (S (Z.to_nat LUAI_MAXCCALLS)) no_source : ldr Proto) (MkLoad z buff false 0 false 0 calls).
End load.
