(* ===== verification/LuaChunk.v ===== *)
(** The format of precompiled chunks as a function of the prototype, and that
    LuaDump.v writes it and LuaUndump.v reads it back. *)
From S2P Require Import Prelude LuaStr LuaFormat LuaLex LuaLexStream LuaOpcodes LuaCheck LuaDump LuaUndump.

(** ** Integers in memory *)
Lemma le_bytes_length n : forall x, length (le_bytes n x) = n.
Proof. induction n as [|n IH]; intros x; cbn; [done|]. by rewrite IH. Qed.
Lemma int_bytes_length b n x : length (int_bytes b n x) = n.
Proof. destruct b; cbn; [apply le_bytes_length|]. rewrite length_rev. apply le_bytes_length. Qed.
Lemma le_int_bytes n : forall x, le_int (le_bytes n x) = x mod 256 ^ Z.of_nat n.
Proof.
  induction n as [|n IH]; intros x; cbn [le_bytes le_int]; [by rewrite Z.mod_1_r|]. rewrite IH, Nat2Z.inj_succ, Z.pow_succ_r by lia.
  unfold wrap. change (2 ^ 8) with 256. rewrite (Z.rem_mul_r x 256) by lia. lia.
Qed.
Lemma int_of_bytes b n x : int_of b (int_bytes b n x) = x mod 256 ^ Z.of_nat n.
Proof. destruct b; unfold int_of, int_bytes; [|rewrite rev_involutive]; apply le_int_bytes. Qed.
Lemma s32_mod x : s32 (x mod 256 ^ 4) = s32 x.
Proof. unfold swrap. change (256 ^ 4) with (2 ^ 32). by rewrite Zplus_mod_idemp_l. Qed.
Lemma u32_mod4 x : u32 x mod 4 = x mod 4.
Proof. unfold wrap. change (2 ^ 32) with (4 * 1073741824). rewrite (Z.rem_mul_r x 4) by lia. rewrite Z.mul_comm, Z.mod_add by lia. apply Z.mod_mod. lia. Qed.
Lemma u32_step w o n : w mod 4 = o mod 4 -> u32 (w + n) mod 4 = (o + n) mod 4.
Proof. intros E. rewrite u32_mod4, <- Zplus_mod_idemp_l, E, Zplus_mod_idemp_l. done. Qed.
Lemma land3 w : Z.land w 3 = w mod 4.
Proof. change 3 with (Z.ones 2). by rewrite Z.land_ones by lia. Qed.

(** ** Streams: a block read is followed by the rest *)
Lemma luaZ_read_rest fuel : forall zz b n, live zz -> 0 <= n <= Zlen (flat zz) -> (length (z_rest zz) + match z_p zz with [] => 0 | _ => 1 end < fuel)%nat ->
  exists z', luaZ_read_loop fuel zz b n = Val (z', (b ++ take (Z.to_nat n) (flat zz), 0)) /\ live z' /\ flat z' = drop (Z.to_nat n) (flat zz).
Proof.
  induction fuel as [|fuel IH]; intros zz b n Hz Hn Hf; [lia|]. cbn [luaZ_read_loop]. destruct (Z.eqb_spec n 0) as [->|Hn0].
  { exists zz. cbn. by rewrite app_nil_r, drop_0. }
  destruct (lookahead_spec zz Hz) as (z' & c & -> & [[-> E]|(Hc & Hz' & E & Hp & Hr)]); cbn [mbind outcome_bind].
  { rewrite E in Hn. change (Zlen (@nil Z)) with 0 in Hn. lia. }
  rewrite (proj2 (Z.eqb_neq _ _) Hc). rewrite <- E in *. clear E. destruct Hz' as (Hn' & Hp' & Hs'). rewrite (flat_live _ Hn') in *. rewrite Hn'. set (p := z_p z') in *.
  set (q := until_empty (z_rest z')) in *. pose proof (Zlen_nonneg q). pose proof (Zlen_nonneg p). cbv zeta. destruct (Z.leb_spec n (Zlen p)) as [Hle|Hgt].
  - rewrite (proj2 (Z.ltb_ge _ _)) by lia. destruct fuel as [|fuel]; [lia|]. cbn [luaZ_read_loop]. rewrite Z.sub_diag. change (0 =? 0) with true. cbv iota.
    eexists. rewrite take_app_le, drop_app_le by (unfold Zlen in Hle; lia). split; [done|].
    assert (Zlen p - n = Zlen (drop (Z.to_nat n) p)) as El by (unfold Zlen in *; rewrite length_drop; lia).
    split; [split; [done|]|]; cbn [z_p z_rest z_n]; [split; [lia|done]|]. rewrite flat_live by done. done.
  - rewrite Z.ltb_irrefl. rewrite Zlen_to_nat, firstn_all, drop_all, Z.sub_diag. revert Hn. zlen. intros Hn.
    destruct (IH (MkZio 0 (z_i z' + Zlen p) [] (z_rest z')) (b ++ p) (n - Zlen p)) as (z2 & E2 & Hl2 & Hf2); [by split|rewrite flat_live by done; cbn [z_p z_rest app]; fold q; lia|cbn [z_p z_rest]; lia|].
    rewrite E2. exists z2. rewrite flat_live in * by done. cbn [z_p z_rest app] in *. fold q in Hf2. fold q. rewrite <- app_assoc.
    rewrite (take_app_ge p q), (drop_app_ge p q) by (unfold Zlen in Hgt; lia). replace (Z.to_nat (n - Zlen p)) with (Z.to_nat n - length p)%nat in * by (unfold Zlen; lia). done.
Qed.
Lemma luaZ_read_next zz l rest : live zz -> flat zz = l ++ rest -> exists z', luaZ_read zz (Zlen l) = Val (z', (l, 0)) /\ live z' /\ flat z' = rest.
Proof.
  intros Hz E. destruct (luaZ_read_rest (S (S (length (z_rest zz)))) zz [] (Zlen l)) as (z' & Er & Hl & Hf); [done| |destruct (z_p zz); lia|].
  { rewrite E. zlen. pose proof (Zlen_nonneg l). pose proof (Zlen_nonneg rest). lia. }
  exists z'. unfold luaZ_read. rewrite Er, E in *. rewrite Zlen_to_nat in *. rewrite take_app_length, drop_app_length in *. done.
Qed.

(** ** The format

    An encoder gives the bytes of a part from its offset in the chunk, of
    which only the alignment matters. *)
Definition enc : Type := Z -> list Z.
Definition e_nil : enc := fun _ => [].
Definition e_app (a b : enc) : enc := fun o => a o ++ b (o + Zlen (a o)).
Definition e_bytes (l : list Z) : enc := fun _ => l.
Fixpoint e_concat (l : list enc) : enc := match l with [] => e_nil | a :: l => e_app a (e_concat l) end.
Definition e_align : enc := fun o => replicate (Z.to_nat (- o mod 4)) 0.
Infix "+++" := e_app (at level 60, right associativity).

(** The double of a machine is eight bytes that determine it. *)
Class MachineLaws `{Machine} : Prop := {
  double_bytes_length x : length (double_bytes x) = 8%nat;
  double_of_bytes x : double_of (double_bytes x) = x;
}.
Section chunk.
  Context `{MachineLaws} (t : DumpTargetInfo) (strip : bool).
Definition little : bool := little_endian t =? 1.
Definition e_int (x : Z) : enc := e_bytes (int_bytes little 4 x).
Definition e_char (x : Z) : enc := e_bytes [u8 x].
Definition e_string (s : TString) : enc := match s with None => e_int 0 | Some s => e_int (Zlen s + 1) +++ e_bytes (s ++ [0]) end.
Definition e_number (x : num) : enc :=
  e_bytes (if ctrue (lua_Number_integral t) then int_bytes little (Z.to_nat (sizeof_lua_Number t)) (trunc x)
           else if Bool.eqb little platform_little then double_bytes x else rev (double_bytes x)).
Definition e_constant (o : TValue) : enc :=
  e_char (ttype o) +++ match o with VNil => e_nil | VBoolean b => e_char b | VNumber x => e_number x | VString s => e_string s end.
Definition e_vector {A} (e : A -> enc) (l : list A) : enc := e_int (Zlen l) +++ e_concat (map e l).
Definition e_aligned {A} (e : A -> enc) (l : list A) : enc := e_int (Zlen l) +++ e_align +++ e_concat (map e l).
Definition e_locvar (v : LocVar) : enc := e_string (varname v) +++ e_int (startpc v) +++ e_int (endpc v).
Definition debug {A} (l : list A) : list A := if strip then [] else l.
Definition e_debug (f : Proto) : enc :=
  e_aligned e_int (debug (lineinfo f)) +++ e_vector e_locvar (debug (locvars f)) +++ e_vector e_string (debug (upvalues f)).
(** A function does not repeat the source of the one around it. *)
Fixpoint e_function (parent : TString) (f : Proto) : enc :=
  e_string (if bool_decide (source f = parent) || strip then None else source f) +++
  e_int (linedefined f) +++ e_int (lastlinedefined f) +++
  e_char (nups f) +++ e_char (numparams f) +++ e_char (is_vararg f) +++ e_char (maxstacksize f) +++
  e_aligned e_int (code f) +++
  (e_vector e_constant (k f) +++ e_vector (e_function (source f)) (p f)) +++
  e_debug f.
Definition header : list Z :=
  [27; 76; 117; 97; 81; 0; u8 (little_endian t); u8 (sizeof_int t); u8 (sizeof_strsize_t t); 4; u8 (sizeof_lua_Number t); u8 (lua_Number_integral t)].
Definition chunk (f : Proto) : list Z := header ++ e_function None f LUAC_HEADERSIZE.

(** Targets the loader takes, and prototypes that fit the format. *)
Record target_ok : Prop := {
  ok_endian : little_endian t = 0 \/ little_endian t = 1;
  ok_int : sizeof_int t = 4;
  ok_size : sizeof_strsize_t t = 4;
  ok_number : (lua_Number_integral t = 0 /\ sizeof_lua_Number t = 8 /\ is_arm_fpa t = 0) \/
              (lua_Number_integral t = 1 /\ (sizeof_lua_Number t = 1 \/ sizeof_lua_Number t = 2 \/ sizeof_lua_Number t = 4));
}.
Definition int_ok (x : Z) : Prop := 0 <= x <= 2147483646.
Definition line_ok (x : Z) : Prop := -2147483647 <= x <= 2147483646.
Definition string_ok (s : TString) : Prop := match s with None => True | Some s => Zlen s < 2147483646 end.
(** Numbers a target without floating point can hold. *)
Definition number_ok (x : num) : Prop :=
  lua_Number_integral t = 1 -> float_is (trunc x) x = true /\ of_Z (trunc x) = x /\
    -2147483647 <= trunc x <= 2147483646 /\ - 2 ^ (8 * sizeof_lua_Number t - 1) <= trunc x < 2 ^ (8 * sizeof_lua_Number t - 1).
Definition constant_ok (o : TValue) : Prop :=
  match o with VNil => True | VBoolean b => b = 0 \/ b = 1 | VNumber x => number_ok x | VString s => string_ok s end.
Definition locvar_ok (v : LocVar) : Prop := string_ok (varname v) /\ int_ok (startpc v) /\ int_ok (endpc v).
Definition vector_ok {A} (l : list A) : Prop := Zlen l <= 16777216.
Record proto_ok (f : Proto) : Prop := {
  ok_k : Forall constant_ok (k f) /\ vector_ok (k f);
  ok_code : Forall is_u32 (code f) /\ vector_ok (code f);
  ok_p : vector_ok (p f);
  ok_lines : Forall line_ok (lineinfo f) /\ vector_ok (lineinfo f);
  ok_locvars : Forall locvar_ok (locvars f) /\ vector_ok (locvars f);
  ok_upvalues : Forall string_ok (upvalues f) /\ vector_ok (upvalues f);
  ok_source : string_ok (source f);
  ok_defined : int_ok (linedefined f) /\ int_ok (lastlinedefined f);
  ok_bytes : is_u8 (nups f) /\ is_u8 (numparams f) /\ is_u8 (is_vararg f) /\ is_u8 (maxstacksize f);
}.
End chunk.
(** A property of a function and all the functions inside. *)
Inductive all_protos `{Double} (P : Proto -> Prop) : Proto -> Prop := all_intro f : P f -> Forall (all_protos P) (p f) -> all_protos P f.
Section proto_induction.
  Context `{Double} (P : Proto -> Prop) (HP : forall f, Forall P (p f) -> P f).
Fixpoint Proto_induction (f : Proto) : P f :=
  HP f (match f return Forall P (p f) with
        | MkProto _ _ l _ _ _ _ _ _ _ _ _ _ => (fix go (l : list Proto) : Forall P l := match l with [] => Forall_nil_2 _ | q :: l => Forall_cons_2 _ _ _ (Proto_induction q) (go l) end) l
        end).
End proto_induction.

(** ** Writing *)
Section emits.
  Context `{MachineLaws} (t : DumpTargetInfo) (strip0 : bool) (Ht : target_ok t) (fuel : nat) (Hfuel : (4 <= fuel)%nat).
Definition emits (m : dump ()) (e : enc) : Prop := forall (D : @DumpState (list Z)) o,
  target D = t -> strip D = strip0 -> status D = 0 -> wrote D mod 4 = o mod 4 ->
  exists D', m D = Val (D', ()) /\ data D' = data D ++ e o /\ target D' = t /\ strip D' = strip0 /\ status D' = 0 /\ wrote D' mod 4 = (o + Zlen (e o)) mod 4.
Lemma emits_ret : emits (mret ()) e_nil.
Proof. intros D o Et Es E0 Ew. exists D. unfold e_nil. rewrite app_nil_r, Z.add_0_r. done. Qed.
Lemma emits_bind m a (f : () -> dump ()) b : emits m a -> emits (f ()) b -> emits (mbind f m) (a +++ b).
Proof.
  intros Hm Hf D o Et Es E0 Ew. destruct (Hm D o Et Es E0 Ew) as (D1 & E1 & Ed & Et1 & Es1 & E01 & Ew1).
  destruct (Hf D1 _ Et1 Es1 E01 Ew1) as (D2 & E2 & Ed2 & Et2 & Es2 & E02 & Ew2). exists D2. unfold mbind, dump_bind. rewrite E1. cbn [mbind outcome_bind].
  rewrite E2. unfold e_app. rewrite Ed2, Ed, <- app_assoc. split_and!; try done. rewrite Ew2. f_equal. zlen. lia.
Qed.
Lemma emits_gets {A} (g : DumpState -> A) (f : A -> dump ()) e : (forall D : @DumpState (list Z), target D = t -> strip D = strip0 -> emits (f (g D)) e) -> emits (mbind f (gets g)) e.
Proof. intros Hf D o Et Es E0 Ew. by apply (Hf D Et Es D o). Qed.
Lemma emits_target {A} (g : DumpTargetInfo -> A) (f : A -> dump ()) e : emits (f (g t)) e -> emits (mbind f (target_of g)) e.
Proof. intros Hf. apply emits_gets. intros D -> _. done. Qed.
Lemma emits_block b : emits (DumpBlock buffer_writer b) (e_bytes b).
Proof.
  intros D o Et Es E0 Ew. unfold DumpBlock. rewrite E0. cbn. eexists. split; [reflexivity|]. cbn. split_and!; try done. by apply u32_step.
Qed.
Lemma emits_char x : emits (DumpChar buffer_writer x) (e_char x).
Proof. apply emits_block. Qed.
Lemma emits_for_each {A} (f : A -> dump ()) (e : A -> enc) l : Forall (fun a => emits (f a) (e a)) l -> emits (for_each f l) (e_concat (map e l)).
Proof. induction 1 as [|a l Ha _ IH]; cbn; [apply emits_ret|by apply emits_bind]. Qed.
Lemma emits_when b m (f : () -> dump ()) e : b = false -> emits (f ()) e -> emits (mbind f (when b m)) e.
Proof. intros -> Hf D o. apply Hf. Qed.
Lemma emits_ext m a b : (forall o, a o = b o) -> emits m a -> emits m b.
Proof. intros E Hm D o Et Es E0 Ew. rewrite <- !E. by apply Hm. Qed.

Lemma swap_loop_rev (l : list Z) : length l = 2%nat \/ length l = 4%nat \/ length l = 8%nat -> swap_loop (length l / 2) 0 l (length l) = rev l.
Proof.
  intros Hl. destruct l as [|a [|b [|c [|d [|e [|f [|g [|h [|]]]]]]]]]; cbn in Hl; try lia; reflexivity.
Qed.
Lemma same_order : (cbool platform_little =? little_endian t) = Bool.eqb (little t) platform_little.
Proof. unfold little. by destruct (ok_endian t Ht) as [-> | ->], platform_little. Qed.
Lemma emits_swapped l n : length l = n -> n = 2%nat \/ n = 4%nat \/ n = 8%nat ->
  emits (b ← MaybeByteSwap l n; DumpBlock buffer_writer b) (e_bytes (if Bool.eqb (little t) platform_little then l else rev l)).
Proof.
  intros <- Hl D o Et Es E0 Ew. destruct (emits_block (if Bool.eqb (little t) platform_little then l else rev l) D o Et Es E0 Ew) as (D' & E & HD).
  exists D'. split; [|done]. rewrite <- E. unfold MaybeByteSwap, target_of, gets, mbind, dump_bind, mret, dump_ret. cbn [mbind outcome_bind].
  rewrite Et, same_order, swap_loop_rev by done. done.
Qed.
Lemma int_bytes_order n x : (if Bool.eqb (little t) platform_little then int_bytes platform_little n x else rev (int_bytes platform_little n x)) = int_bytes (little t) n x.
Proof. destruct (little t), platform_little; cbn; by rewrite ?rev_involutive. Qed.
Lemma emits_int_bytes n x : n = 2%nat \/ n = 4%nat -> emits (DumpIntBytes buffer_writer n x) (e_bytes (int_bytes (little t) n x)).
Proof.
  intros Hn. rewrite <- int_bytes_order. unfold DumpIntBytes. apply emits_swapped; [apply int_bytes_length|lia].
Qed.
Lemma emits_int x : line_ok x -> emits (DumpInt buffer_writer x) (e_int t x).
Proof.
  intros Hx. unfold line_ok in Hx. unfold DumpInt. apply emits_target. rewrite (ok_int t Ht). unfold DumpIntWithSize. cbn [Z.eqb Pos.eqb].
  apply emits_when; [|apply emits_int_bytes; auto]. lia.
Qed.
Lemma emits_size x : 0 <= x <= 4294967294 -> emits (DumpSize buffer_writer x) (e_int t x).
Proof.
  intros Hx. unfold DumpSize. apply emits_target. rewrite (ok_size t Ht). cbn [Z.eqb Pos.eqb]. apply emits_when; [|apply emits_int_bytes; auto]. lia.
Qed.
Lemma emits_string s : string_ok s -> emits (DumpString buffer_writer s) (e_string t s).
Proof.
  intros Hs. destruct s as [s|]; [|apply emits_size; lia]. cbn [string_ok] in Hs. pose proof (Zlen_nonneg s). unfold DumpString. cbv zeta. cbn [e_string].
  rewrite wrap_small by (pow2_norm; lia). apply emits_bind; [apply emits_size; lia|].
  replace (take (Z.to_nat (Zlen s + 1)) (cstr s)) with (s ++ [0]); [apply emits_block|].
  unfold cstr. rewrite take_ge; [done|]. rewrite length_app. cbn. unfold Zlen. lia.
Qed.
Lemma emits_align_loop n : forall D o, target D = t -> strip D = strip0 -> status D = 0 -> wrote D mod 4 = o mod 4 -> (Z.to_nat (- o mod 4) < n)%nat ->
  exists D', align_loop buffer_writer n D = Val (D', ()) /\ data D' = data D ++ e_align o /\ target D' = t /\ strip D' = strip0 /\ status D' = 0 /\ wrote D' mod 4 = (o + Zlen (e_align o)) mod 4.
Proof.
  induction n as [|n IH]; intros D o Et Es E0 Ew Hn; [lia|]. cbn [align_loop]. unfold gets, mbind at 1, dump_bind at 1. cbn [mbind outcome_bind]. rewrite land3, Ew.
  destruct (Z.eqb_spec (o mod 4) 0) as [Eo|Eo].
  - exists D. unfold e_align. replace (- o mod 4) with 0 by (Z.to_euclidean_division_equations; lia). cbn. rewrite app_nil_r, Z.add_0_r. done.
  - destruct (emits_char 0 D o Et Es E0 Ew) as (D1 & E1 & Ed1 & Et1 & Es1 & E01 & Ew1).
    unfold mbind, dump_bind. rewrite E1. cbn [mbind outcome_bind]. change (Zlen (e_char 0 o)) with 1 in Ew1.
    assert (- o mod 4 = - (o + 1) mod 4 + 1) as Em by (Z.to_euclidean_division_equations; lia). pose proof (Z.mod_pos_bound (- (o + 1)) 4 ltac:(lia)).
    destruct (IH D1 (o + 1) Et1 Es1 E01 Ew1) as (D2 & E2 & Ed2 & Et2 & Es2 & E02 & Ew2); [lia|]. exists D2. split; [done|].
    assert (e_align o = 0 :: e_align (o + 1)) as Ea by (unfold e_align; rewrite Em, Z2Nat.inj_add by lia; rewrite Nat.add_comm; done).
    rewrite Ea, Ed2, Ed1, <- app_assoc. split_and!; try done. rewrite Ew2. f_equal. zlen. lia.
Qed.
Lemma emits_align : emits (Align4 buffer_writer fuel) e_align.
Proof.
  intros D o Et Es E0 Ew. apply emits_align_loop; try done. pose proof (Z.mod_pos_bound (- o) 4 ltac:(lia)). lia.
Qed.
Lemma emits_number x : number_ok t x -> emits (DumpNumber buffer_writer x) (e_number t x).
Proof.
  intros Hx. unfold DumpNumber, e_number. apply emits_target, emits_target. destruct (ok_number t Ht) as [(Ei & En & Ea)|(Ei & En)].
  - rewrite Ei, En. cbn [ctrue Z.eqb negb Pos.eqb]. apply emits_target. rewrite Ea. cbn [ctrue Z.eqb negb]. 
    apply emits_swapped; [apply double_bytes_length|auto].
  - rewrite Ei. destruct (Hx Ei) as (Hf & _ & Hr & Hs). cbn [ctrue Z.eqb negb Pos.eqb].
    assert (emits (_ ← when (negb (float_is (trunc x) x)) (set_status LUA_ERR_CC_NOTINTEGER); DumpIntWithSize buffer_writer (trunc x) (sizeof_lua_Number t) : dump ())
      (e_bytes (int_bytes (little t) (Z.to_nat (sizeof_lua_Number t)) (trunc x)))) as Hm.
    { apply emits_when; [by rewrite Hf|]. unfold DumpIntWithSize.
      destruct En as [En|[En|En]]; rewrite En in *; cbn [Z.eqb Pos.eqb]; (apply emits_when; [lia|]).
      - replace (int_bytes _ _ _) with [u8 (trunc x)]; [apply emits_char|]. change (Z.to_nat 1) with 1%nat. by destruct (little t).
      - apply emits_int_bytes. auto.
      - apply emits_int_bytes. auto. }
    intros D o Et Es E0 Ew. destruct (Hm D o Et Es E0 Ew) as (D' & E & HD). exists D'. split; [|done]. rewrite <- E.
    unfold mbind at 1, dump_bind at 1, lift. rewrite int32_ok by lia. done.
Qed.

Lemma int_ok_line x : int_ok x -> line_ok x.
Proof. unfold int_ok, line_ok. lia. Qed.
Lemma vector_ok_line {A} (l : list A) : vector_ok l -> line_ok (Zlen l).
Proof. unfold vector_ok, line_ok. pose proof (Zlen_nonneg l). lia. Qed.
Lemma vector_ok_debug {A} (l : list A) : vector_ok l -> vector_ok (debug strip0 l).
Proof. intros. by destruct strip0. Qed.
Lemma Forall_debug {A} (P : A -> Prop) l : Forall P l -> Forall P (debug strip0 l).
Proof. intros. destruct strip0; [constructor|done]. Qed.
#[local] Hint Resolve int_ok_line vector_ok_line vector_ok_debug emits_int emits_string emits_char emits_align emits_number emits_ret : emits.
Lemma emits_constant o : constant_ok t o -> emits (DumpConstant buffer_writer o) (e_constant t o).
Proof. intros Ho. unfold DumpConstant. apply emits_bind; [auto with emits|]. destruct o; cbn in Ho; auto with emits. Qed.
Lemma emits_locvar v : locvar_ok v -> emits (DumpLocVar buffer_writer v) (e_locvar t v).
Proof. intros (Hn & Hs & He). unfold DumpLocVar, e_locvar. repeat apply emits_bind; auto with emits. Qed.
Lemma emits_vector {A} (f : A -> dump ()) (e : A -> enc) l : vector_ok l -> Forall (fun a => emits (f a) (e a)) l ->
  emits (_ ← DumpInt buffer_writer (Zlen l); for_each f l) (e_vector t e l).
Proof. intros Hl Hf. apply emits_bind; [auto with emits|]. by apply emits_for_each. Qed.
Lemma emits_aligned {A} (f : A -> dump ()) (e : A -> enc) l : vector_ok l -> Forall (fun a => emits (f a) (e a)) l ->
  emits (_ ← DumpInt buffer_writer (Zlen l); _ ← Align4 buffer_writer fuel; for_each f l) (e_aligned t e l).
Proof. intros Hl Hf. apply emits_bind; [auto with emits|]. apply emits_bind; [auto with emits|]. by apply emits_for_each. Qed.
Lemma emits_assoc (m1 m2 m3 : dump ()) e : emits (_ ← (_ ← m1; m2); m3) e -> emits (_ ← m1; _ ← m2; m3) e.
Proof.
  intros Hm D o Et Es E0 Ew. destruct (Hm D o Et Es E0 Ew) as (D' & E & HD). exists D'. split; [|done]. rewrite <- E.
  unfold mbind, dump_bind. destruct (m1 D) as [[]| |]; done.
Qed.
Lemma emits_assoc3 (m1 m2 m3 m4 : dump ()) e : emits (_ ← (_ ← m1; _ ← m2; m3); m4) e -> emits (_ ← m1; _ ← m2; _ ← m3; m4) e.
Proof.
  intros Hm D o Et Es E0 Ew. destruct (Hm D o Et Es E0 Ew) as (D' & E & HD). exists D'. split; [|done]. rewrite <- E.
  unfold mbind, dump_bind. destruct (m1 D) as [[D1 []]| |]; [|done..]. cbn [mbind outcome_bind]. destruct (m2 D1) as [[]| |]; done.
Qed.
Lemma emits_debug f : proto_ok t f -> emits (DumpDebug buffer_writer fuel f) (e_debug t strip0 f).
Proof.
  intros [_ _ _ [Hl Hl'] [Hv Hv'] [Hu Hu'] _ _ _]. unfold DumpDebug. apply emits_gets. intros D _ ->. cbv zeta.
  change (if strip0 then [] else lineinfo f) with (debug strip0 (lineinfo f)). change (if strip0 then [] else locvars f) with (debug strip0 (locvars f)).
  change (if strip0 then [] else upvalues f) with (debug strip0 (upvalues f)).
  apply emits_assoc3. apply emits_bind.
  { apply emits_aligned; [auto with emits|]. apply Forall_debug. eapply Forall_impl; [exact Hl|]. auto with emits. }
  apply emits_assoc, emits_bind.
  { apply emits_vector; [auto with emits|]. apply Forall_debug. eapply Forall_impl; [exact Hv|]. apply emits_locvar. }
  apply emits_vector; [auto with emits|]. apply Forall_debug. eapply Forall_impl; [exact Hu|]. apply emits_string.
Qed.
Lemma emits_function f : all_protos (proto_ok t) f -> forall parent, emits (DumpFunction buffer_writer fuel parent f) (e_function t strip0 parent f).
Proof.
  induction f as [f IH] using Proto_induction. intros Hall parent. inversion Hall as [f' Hok Hin]; subst f'.
  pose proof Hok as [[Hk Hk'] [Hc Hc'] Hp _ _ _ Hs [Hd Hd'] _].
  assert (Forall (fun q => emits (DumpFunction buffer_writer fuel (source f) q) (e_function t strip0 (source f) q)) (p f)) as Hps.
  { apply Forall_forall. intros q Hq. apply (proj1 (Forall_forall _ _) IH q Hq). by apply (proj1 (Forall_forall _ _) Hin). }
  pose proof (emits_debug f Hok) as Hdebug. destruct f as [kf cf pf lf vf uf sf df ldf nf paf isf mf].
  cbn [DumpFunction e_function source linedefined lastlinedefined nups numparams is_vararg maxstacksize k code p] in *. apply emits_gets. intros D _ ->.
  apply emits_bind. { apply emits_string. by destruct (_ || _). }
  do 6 (apply emits_bind; [by auto with emits|]). apply emits_bind.
  { unfold DumpCode. apply emits_aligned; [done|]. apply Forall_forall. intros x _. apply emits_int_bytes. auto. }
  apply emits_bind; [|done]. unfold DumpConstants. apply emits_assoc, emits_bind.
  - apply emits_vector; [done|]. eapply Forall_impl; [exact Hk|]. apply emits_constant.
  - apply emits_vector; done.
Qed.
Lemma dump_writes_chunk f : all_protos (proto_ok t) f ->
  luaU_dump_crosscompile buffer_writer fuel f [] strip0 t = Val (chunk t strip0 f, 0).
Proof.
  intros Hall. unfold luaU_dump_crosscompile.
  assert (emits (_ ← DumpHeader buffer_writer; DumpFunction buffer_writer fuel None f : dump ()) (e_bytes (header t) +++ e_function t strip0 None f)) as Hm.
  { apply emits_bind; [|by apply emits_function]. unfold DumpHeader. apply emits_gets. intros D -> _. apply emits_block. }
  destruct (Hm (MkDump [] strip0 0 t 0) 0 eq_refl eq_refl eq_refl eq_refl) as (D' & E & Ed & _ & _ & E0 & _). rewrite E. cbn [mbind outcome_bind].
  rewrite Ed, E0. unfold e_app, chunk. done.
Qed.
End emits.

(** ** Reading *)
(** What a loaded prototype is: values that stand for the same, and the
    source of the function around for the one that was left out. *)
Definition or_else (s parent : TString) : TString := match s with None => parent | Some _ => s end.
Fixpoint loaded `{Double} (strip : bool) (dumped parent : TString) (f : Proto) : Proto :=
  let src := or_else (if bool_decide (source f = dumped) || strip then None else source f) parent in
  MkProto (k f) (code f) (map (loaded strip (source f) src) (p f)) (debug strip (lineinfo f)) (debug strip (locvars f)) (debug strip (upvalues f))
    src (linedefined f) (lastlinedefined f) (nups f) (numparams f) (is_vararg f) (maxstacksize f).
Section reads.
  Context `{MachineLaws} (t : DumpTargetInfo) (strip0 : bool) (Ht : target_ok t).
  Context (can_alloc : Z -> bool) (Hmem : forall n, can_alloc n = true) (calls : Z).
Record loads (S : LoadState) : Prop := {
  loads_swap : swap S = negb (Bool.eqb (little t) platform_little);
  loads_numsize : numsize S = sizeof_lua_Number t;
  loads_toflt : toflt S = ctrue (lua_Number_integral t);
  loads_live : live (Zs S);
  loads_calls : nCcalls S = calls;
}.
Definition reads {A} (m : ldr A) (e : enc) (a : A) : Prop := forall S o rest, loads S -> total S mod 4 = o mod 4 -> flat (Zs S) = e o ++ rest ->
  exists S', m S = Val (S', a) /\ loads S' /\ total S' mod 4 = (o + Zlen (e o)) mod 4 /\ flat (Zs S') = rest /\ nCcalls S' = nCcalls S.
Lemma reads_ret {A} (a : A) : reads (mret a) e_nil a.
Proof. intros S o rest HS Ht' Hf. exists S. unfold e_nil. rewrite Z.add_0_r. done. Qed.
Lemma reads_bind {A B} (m : ldr A) e a (f : A -> ldr B) e' b : reads m e a -> reads (f a) e' b -> reads (mbind f m) (e +++ e') b.
Proof.
  intros Hm Hf S o rest HS Ht' Hfl. unfold e_app in Hfl. rewrite <- app_assoc in Hfl.
  destruct (Hm S o _ HS Ht' Hfl) as (S1 & E1 & HS1 & Ht1 & Hf1 & Hc1). destruct (Hf S1 _ _ HS1 Ht1 Hf1) as (S2 & E2 & HS2 & Ht2 & Hf2 & Hc2).
  exists S2. unfold mbind, ldr_bind. rewrite E1. cbn [mbind outcome_bind]. split_and!; try done; [|congruence].
  rewrite Ht2. f_equal. unfold e_app. zlen. lia.
Qed.
Lemma reads_then {A B} (m : ldr A) e a (f : A -> ldr B) b : reads m e a -> reads (f a) e_nil b -> reads (mbind f m) e b.
Proof.
  intros Hm Hf S o rest HS Ht' Hfl. destruct (reads_bind m e a f e_nil b Hm Hf S o rest HS Ht') as (S' & E & HS' & Ht1 & Hr).
  { unfold e_app, e_nil. by rewrite app_nil_r. }
  exists S'. unfold e_app, e_nil in Ht1. rewrite app_nil_r in Ht1. done.
Qed.
(** Steps that read nothing. *)
Lemma reads_silent {A B} (m : ldr A) a (f : A -> ldr B) e b : (forall S, loads S -> exists S', m S = Val (S', a) /\ loads S' /\ total S' = total S /\ Zs S' = Zs S /\ nCcalls S' = nCcalls S) ->
  reads (f a) e b -> reads (mbind f m) e b.
Proof.
  intros Hm Hf S o rest HS Ht' Hfl. destruct (Hm S HS) as (S1 & E1 & HS1 & Ht1 & Hz1 & Hc1). rewrite <- Ht1 in Ht'. rewrite <- Hz1 in Hfl.
  destruct (Hf S1 o rest HS1 Ht' Hfl) as (S2 & E2 & HS2 & Ht2 & Hf2 & Hc2). exists S2. unfold mbind, ldr_bind. rewrite E1. cbn [mbind outcome_bind].
  split_and!; try done. congruence.
Qed.
Lemma reads_ask {A B} (g : LoadState -> A) a (f : A -> ldr B) e b : (forall S, loads S -> g S = a) -> reads (f a) e b -> reads (mbind f (ask g)) e b.
Proof. intros Hg. apply reads_silent. intros S HS. exists S. unfold ask. by rewrite Hg. Qed.
Lemma reads_inside {B} n room (f : () -> ldr B) e b : n <= room -> reads (f ()) e b -> reads (mbind f (inside n room)) e b.
Proof.
  intros Hn. apply reads_silent. intros S HS. exists S. unfold inside. by rewrite (proj2 (Z.leb_le _ _)).
Qed.
Lemma reads_block l room n : n = Zlen l -> n <= room -> reads (LoadBlock room n) (e_bytes l) l.
Proof.
  intros -> Hr S o rest HS Ht' Hfl. destruct (luaZ_read_next (Zs S) l rest (loads_live _ HS) Hfl) as (z' & E & Hl & Hf).
  unfold LoadBlock. rewrite E. cbn [mbind outcome_bind]. rewrite (proj2 (Z.ltb_ge _ _)) by done.
  change (negb (0 =? 0)) with false. cbv iota. eexists. split; [reflexivity|].
  destruct HS as [H2 H3 H4 _ H5]. split; [by split|]. cbn [total Zs nCcalls]. split_and!; try done. by apply u32_step.
Qed.
Lemma reads_map {A} (m : ldr A) e a b : a = b -> reads m e a -> reads m e b.
Proof. by intros ->. Qed.
(** Vectors of elements of [size] bytes. *)
Definition order (l : list Z) : list Z := if Bool.eqb (little t) platform_little then l else rev l.
Lemma swap_elem_rev (l : list Z) : length l = 1%nat \/ length l = 2%nat \/ length l = 4%nat \/ length l = 8%nat -> swap_elem l = rev l.
Proof. intros Hl. destruct l as [|a [|b [|c [|d [|e [|f [|g [|h [|]]]]]]]]]; cbn in Hl; try lia; reflexivity. Qed.
Lemma swap_vector_rev (ls : list (list Z)) size : size = 1%nat \/ size = 2%nat \/ size = 4%nat \/ size = 8%nat -> Forall (fun l => length l = size) ls ->
  swap_vector (length ls) size (concat ls) = concat (map (@rev Z) ls).
Proof.
  intros Hs. induction 1 as [|l ls Hl _ IH]; [done|]. cbn [length swap_vector concat map].
  rewrite take_app_length', drop_app_length' by done. rewrite swap_elem_rev, IH by lia. done.
Qed.
Lemma reads_mem (ls : list (list Z)) room n size : n = Zlen ls -> size = 1 \/ size = 2 \/ size = 4 \/ size = 8 -> Zlen ls * size < 2 ^ 32 ->
  Zlen ls * size <= room -> Forall (fun l => Zlen l = size) ls ->
  reads (LoadMem room n size) (e_bytes (concat (map order ls))) (concat ls).
Proof.
  intros -> Hs Hw Hr Hls. unfold LoadMem.
  assert (Forall (fun l => Zlen l = size) (map order ls)) as Hls'.
  { apply Forall_map. eapply Forall_impl; [exact Hls|]. intros l Hl. cbn. unfold order, Zlen in *. destruct (Bool.eqb _ _); by rewrite ?length_rev. }
  assert (Zlen (concat (map order ls)) = Zlen ls * size) as El.
  { replace (Zlen ls) with (Zlen (map order ls)) by (unfold Zlen; by rewrite length_map). clear -Hls'. induction Hls' as [|l ls' Hl _ IH]; [done|]. cbn [concat]. zlen. lia. }
  pose proof (Zlen_nonneg ls). rewrite wrap_small by nia.
  eapply reads_then; [apply reads_block; lia|]. eapply reads_ask; [intros S HS; apply (loads_swap S HS)|].
  assert (Hn : forall l : list Z, Zlen l = size -> length l = Z.to_nat size) by (unfold Zlen; lia).
  unfold order. destruct (Bool.eqb (little t) platform_little) eqn:Eo; cbn [negb].
  - rewrite map_id. apply reads_ret.
  - rewrite bool_decide_eq_true_2 by (destruct Hs as [-> |[-> |[-> | ->]]]; apply list_elem_of_In; cbn; auto).
    apply reads_inside; [done|]. eapply reads_map; [|apply reads_ret].
    rewrite Zlen_to_nat. rewrite <- (length_map (@rev Z) ls). rewrite swap_vector_rev; [|lia|].
    + rewrite map_map. f_equal. rewrite <- (map_id ls) at 2. apply map_ext. intros. apply rev_involutive.
    + apply Forall_map. eapply Forall_impl; [exact Hls|]. intros l Hl. cbn. rewrite length_rev. by apply Hn.
Qed.
Lemma reads_var l size : Zlen l = size -> size = 1 \/ size = 2 \/ size = 4 \/ size = 8 -> reads (LoadVar size) (e_bytes (order l)) l.
Proof.
  intros Hl Hs. unfold LoadVar. pose proof (reads_mem [l] size 1 size eq_refl Hs) as Hm. cbn [map concat] in Hm. rewrite !app_nil_r in Hm.
  apply Hm; [zlen; change (Zlen (@nil (list Z))) with 0; lia..|by constructor].
Qed.
Lemma order_int n x : order (int_bytes platform_little n x) = int_bytes (little t) n x.
Proof. apply int_bytes_order. Qed.
Lemma reads_int_bytes n x : n = 1%nat \/ n = 2%nat \/ n = 4%nat -> reads (LoadVar (Z.of_nat n)) (e_bytes (int_bytes (little t) n x)) (int_bytes platform_little n x).
Proof. intros Hn. rewrite <- order_int. apply reads_var; [unfold Zlen; by rewrite int_bytes_length|lia]. Qed.
Lemma reads_char x : reads (LoadChar) (e_char x) (s8 x).
Proof.
  unfold LoadChar. eapply reads_then.
  - replace (e_char x) with (e_bytes (int_bytes (little t) 1 x)) by (unfold e_char; by destruct (little t)). apply (reads_int_bytes 1 x). auto.
  - eapply reads_map; [|apply reads_ret]. rewrite int_of_bytes. unfold swrap. change (256 ^ Z.of_nat 1) with (2 ^ 8). by rewrite Zplus_mod_idemp_l.
Qed.
Lemma u8_s8 x : u8 (s8 x) = u8 x.
Proof.
  unfold swrap, wrap. rewrite <- Zminus_mod_idemp_l, Z.mod_mod, Zminus_mod_idemp_l by lia. f_equal. lia.
Qed.
Lemma reads_byte x : is_u8 x -> reads LoadByte (e_char x) x.
Proof. intros Hx. unfold LoadByte. eapply reads_then; [apply reads_char|]. eapply reads_map; [|apply reads_ret]. by rewrite u8_s8, wrap_small. Qed.
Lemma reads_int x : int_ok x -> reads LoadInt (e_int t x) x.
Proof.
  intros Hx. unfold int_ok in Hx. unfold LoadInt. eapply reads_then; [apply (reads_int_bytes 4 x); auto|]. rewrite int_of_bytes, s32_mod, swrap_small by lia.
  cbv zeta. rewrite (proj2 (Z.ltb_ge _ _)) by lia. apply reads_ret.
Qed.

Lemma load_align_reads n : forall S o rest, loads S -> total S mod 4 = o mod 4 -> flat (Zs S) = e_align o ++ rest -> (Z.to_nat (- o mod 4) < n)%nat ->
  exists S', load_align n S = Val (S', ()) /\ loads S' /\ total S' mod 4 = (o + Zlen (e_align o)) mod 4 /\ flat (Zs S') = rest /\ nCcalls S' = nCcalls S.
Proof.
  induction n as [|n IH]; intros S o rest HS Ht' Hf Hn; [lia|]. cbn [load_align]. unfold ask, mbind at 1, ldr_bind at 1. cbn [mbind outcome_bind]. rewrite land3, Ht'.
  destruct (Z.eqb_spec (o mod 4) 0) as [Eo|Eo].
  - exists S. assert (e_align o = []) as Ea by (unfold e_align; replace (- o mod 4) with 0 by (Z.to_euclidean_division_equations; lia); done).
    rewrite Ea in *. rewrite Z.add_0_r. done.
  - assert (- o mod 4 = - (o + 1) mod 4 + 1) as Em by (Z.to_euclidean_division_equations; lia). pose proof (Z.mod_pos_bound (- (o + 1)) 4 ltac:(lia)).
    assert (e_align o = e_char 0 o ++ e_align (o + 1)) as Ea by (unfold e_align; rewrite Em, Z2Nat.inj_add by lia; rewrite Nat.add_comm; done).
    rewrite Ea in Hf. rewrite <- app_assoc in Hf. destruct (reads_char 0 S o _ HS Ht' Hf) as (S1 & E1 & HS1 & Ht1 & Hf1 & Hc1). change (Zlen (e_char 0 o)) with 1 in Ht1.
    destruct (IH S1 (o + 1) rest HS1 Ht1 Hf1) as (S2 & E2 & HS2 & Ht2 & Hf2 & Hc2); [lia|]. exists S2. unfold mbind, ldr_bind. rewrite E1. cbn [mbind outcome_bind].
    split_and!; try done; [|congruence]. rewrite Ht2, Ea. f_equal. change (e_char 0 o ++ e_align (o + 1)) with (0 :: e_align (o + 1)). zlen. lia.
Qed.
Lemma reads_align : reads LoadAlign4 e_align ().
Proof. intros S o rest HS Ht' Hf. apply load_align_reads; try done. pose proof (Z.mod_pos_bound (- o) 4 ltac:(lia)). lia. Qed.
Lemma reallocv_silent n e S : 0 <= n -> 0 < e -> (n + 1) * e <= MAX_SIZET -> luaM_reallocv can_alloc n e S = Val (S, n * e).
Proof.
  intros Hn He Hs. unfold luaM_reallocv. change MAX_SIZET with 4294967293 in *. rewrite wrap_small by (pow2_norm; nia).
  rewrite (proj2 (Z.leb_le _ _)) by (apply Z.div_le_lower_bound; nia).
  rewrite Hmem, wrap_small by (pow2_norm; nia). done.
Qed.
Lemma reads_newvector {B} n e (f : Z -> ldr B) en b : 0 <= n <= 16777216 -> 0 < e <= 64 -> reads (f (n * e)) en b -> reads (mbind f (luaM_newvector can_alloc n e)) en b.
Proof.
  intros Hn He. apply reads_silent. intros S HS. exists S. unfold luaM_newvector. rewrite (proj2 (Z.eqb_neq _ _)) by lia. rewrite reallocv_silent; [done|lia..|]. change MAX_SIZET with 4294967293. nia.
Qed.
Lemma reads_openspace {B} n (f : Z -> ldr B) en b : 0 <= n < 2147483648 -> (forall room, n <= room -> reads (f room) en b) -> reads (mbind f (luaZ_openspace can_alloc n)) en b.
Proof.
  intros Hn Hf S o rest HS.
  assert (exists S' room, luaZ_openspace can_alloc n S = Val (S', room) /\ n <= room /\ loads S' /\ total S' = total S /\ Zs S' = Zs S /\ nCcalls S' = nCcalls S)
    as (S1 & room & E & Hr & HS1 & Ht1 & Hz1 & Hc1).
  { unfold luaZ_openspace, ask, mbind at 1, ldr_bind at 1. cbn [mbind outcome_bind].
    destruct (Z.ltb_spec (buffsize S) n) as [Hlt|Hge]; [|by exists S, (buffsize S)]. cbv zeta. unfold mbind, ldr_bind.
    assert (n <= (if n <? LUA_MINBUFFER then LUA_MINBUFFER else n) < 2147483648) as Hm by (destruct (Z.ltb_spec n LUA_MINBUFFER); unfold LUA_MINBUFFER in *; lia).
    rewrite reallocv_silent; [|lia|lia|change MAX_SIZET with 4294967293; lia].
    cbn [mbind outcome_bind set_buffsize]. eexists _, _. split; [reflexivity|]. split; [lia|]. destruct HS. by split. }
  intros Ht' Hfl. destruct (Hf room Hr S1 o rest HS1) as (S2 & E2 & HS2 & Ht2 & Hf2 & Hc2); [congruence..|].
  exists S2. unfold mbind, ldr_bind. rewrite E. cbn [mbind outcome_bind]. split_and!; try done. congruence.
Qed.
Lemma reads_string s : string_ok s -> reads (LoadString can_alloc) (e_string t s) s.
Proof.
  intros Hs. unfold LoadString. destruct s as [s|]; cbn [e_string string_ok] in *.
  - pose proof (Zlen_nonneg s). eapply reads_bind; [apply (reads_int_bytes 4); auto|]. rewrite int_of_bytes, s32_mod, swrap_small by lia. cbv zeta.
    rewrite (proj2 (Z.eqb_neq _ _)) by lia. rewrite !wrap_small by (pow2_norm; lia). apply reads_openspace; [lia|]. intros room Hr.
    eapply reads_then; [apply reads_block; [by zlen|done]|]. rewrite Hmem. replace (Z.to_nat (Zlen s + 1 - 1)) with (length s) by (unfold Zlen; lia).
    rewrite take_app_length. apply reads_ret.
  - eapply reads_then; [apply (reads_int_bytes 4); auto|]. rewrite int_of_bytes, s32_mod. apply reads_ret.
Qed.
Lemma reads_number x : number_ok t x -> reads LoadNumber (e_number t x) x.
Proof.
  intros Hx. unfold LoadNumber, e_number. eapply reads_ask; [apply loads_toflt|]. eapply reads_ask; [apply loads_numsize|].
  destruct (ok_number t Ht) as [(Ei & En & Ea)|(Ei & En)]; rewrite Ei; cbn [ctrue Z.eqb negb].
  - eapply reads_then; [|eapply reads_map; [apply double_of_bytes|apply reads_ret]]. change (if Bool.eqb (little t) platform_little then ?l else rev ?l) with (order l).
    apply reads_var; [unfold Zlen; by rewrite double_bytes_length|auto].
  - destruct (Hx Ei) as (_ & Hz & _ & Hs). destruct En as [En|[En|En]]; rewrite En in *; cbn [Z.eqb Pos.eqb].
    + eapply reads_then; [apply (reads_int_bytes 1); auto|]. eapply reads_map; [|apply reads_ret]. rewrite int_of_bytes. change (256 ^ Z.of_nat 1) with (2 ^ 8).
      rewrite <- Hz at 2. f_equal. unfold swrap at 1. rewrite Zplus_mod_idemp_l. apply swrap_small; lia.
    + eapply reads_then; [apply (reads_int_bytes 2); auto|]. eapply reads_map; [|apply reads_ret]. rewrite int_of_bytes. change (256 ^ Z.of_nat 2) with (2 ^ 16).
      rewrite <- Hz at 2. f_equal. unfold swrap at 1. rewrite Zplus_mod_idemp_l. apply swrap_small; lia.
    + eapply reads_then; [apply (reads_int_bytes 4); auto|]. eapply reads_map; [|apply reads_ret]. rewrite int_of_bytes. change (256 ^ Z.of_nat 4) with (2 ^ 32).
      rewrite <- Hz at 2. f_equal. unfold swrap at 1. rewrite Zplus_mod_idemp_l. apply swrap_small; lia.
Qed.
Lemma reads_constant o : constant_ok t o -> reads (LoadConstant can_alloc) (e_constant t o) o.
Proof.
  intros Ho. unfold LoadConstant. eapply reads_bind; [apply reads_char|]. destruct o as [|b|x|s]; cbn in Ho.
  - apply reads_ret.
  - change (reads (b ← LoadChar; mret (VBoolean (cbool (negb (b =? 0))))) (e_char b) (VBoolean b)). eapply reads_then; [apply reads_char|].
    eapply reads_map; [|apply reads_ret]. by destruct Ho as [-> | ->].
  - change (reads (x ← LoadNumber; mret (VNumber x)) (e_number t x) (VNumber x)). eapply reads_then; [by apply reads_number|apply reads_ret].
  - change (reads (ts ← LoadString can_alloc; mret (VString ts)) (e_string t s) (VString s)). eapply reads_then; [by apply reads_string|apply reads_ret].
Qed.

Lemma reads_list {A B} (m : ldr B) (e : A -> enc) (g : A -> B) sz l : 0 <= sz -> Forall (fun a => reads m (e a) (g a)) l ->
  forall room i, (i + Zlen l) * sz <= room -> reads (load_list room sz i (length l) m) (e_concat (map e l)) (map g l).
Proof.
  intros Hsz. induction 1 as [|a l Ha _ IH]; intros room i Hr; cbn [length load_list map e_concat]; [apply reads_ret|]. eapply reads_bind; [exact Ha|].
  zlen. pose proof (Zlen_nonneg l). apply reads_inside; [nia|]. eapply reads_then; [apply IH; nia|apply reads_ret].
Qed.
(** A count and as many elements. *)
Lemma reads_vector {A B C} sz (m : ldr B) (e : A -> enc) (g : A -> B) l (f : list B -> ldr C) e' c : 0 < sz <= 64 -> vector_ok l -> Forall (fun a => reads m (e a) (g a)) l ->
  reads (f (map g l)) e' c -> reads (n ← LoadInt; x ← load_vector can_alloc n sz m; f x) (e_vector t e l +++ e') c.
Proof.
  intros Hsz Hl Hm Hf. unfold vector_ok in Hl. pose proof (Zlen_nonneg l).
  assert (forall o, (e_int t (Zlen l) +++ e_concat (map e l) +++ e') o = (e_vector t e l +++ e') o) as Ea.
  { intros o. unfold e_vector, e_app. rewrite <- app_assoc. f_equal. f_equal. f_equal. zlen. lia. }
  intros S o rest HS Ht' Hfl. rewrite <- Ea in *. revert S o rest HS Ht' Hfl.
  eapply reads_bind; [apply reads_int; unfold int_ok; lia|]. cbv beta. eapply reads_bind; [|exact Hf].
  unfold load_vector. apply reads_newvector; [lia|done|]. apply reads_inside; [lia|]. rewrite Zlen_to_nat. apply reads_list; [lia|done|lia].
Qed.
Lemma e_concat_bytes {A} (g : A -> list Z) l o : e_concat (map (fun a => e_bytes (g a)) l) o = concat (map g l).
Proof. revert o. induction l as [|a l IH]; intros o; [done|]. cbn [map e_concat concat]. unfold e_app. by rewrite IH. Qed.
Lemma words_concat l : words (length l) (concat (map (int_bytes platform_little 4) l)) = map (fun x => x mod 2 ^ 32) l.
Proof.
  induction l as [|x l IH]; [done|]. cbn [length words map concat]. rewrite take_app_length', drop_app_length' by (by rewrite int_bytes_length). rewrite IH, int_of_bytes. done.
Qed.
Lemma reads_words {C} l (f : list Z -> ldr C) e' c : vector_ok l -> reads (f (map (fun x => x mod 2 ^ 32) l)) e' c ->
  reads (n ← LoadInt; _ ← LoadAlign4; x ← load_words can_alloc n; f x) (e_aligned t (e_int t) l +++ e') c.
Proof.
  intros Hl Hf. unfold vector_ok in Hl. pose proof (Zlen_nonneg l).
  assert (forall o, (e_int t (Zlen l) +++ e_align +++ e_bytes (concat (map order (map (int_bytes platform_little 4) l))) +++ e') o = (e_aligned t (e_int t) l +++ e') o) as Ea.
  { intros o. unfold e_aligned, e_app. change (map (e_int t) l) with (map (fun x => e_bytes (int_bytes (little t) 4 x)) l).
    rewrite e_concat_bytes, map_map. rewrite (map_ext _ _ (order_int 4)). unfold e_bytes. rewrite <- !app_assoc. do 4 f_equal. zlen. lia. }
  intros S o rest HS Ht' Hfl. rewrite <- Ea in *. revert S o rest HS Ht' Hfl.
  eapply reads_bind; [apply reads_int; unfold int_ok; lia|]. cbv beta. eapply reads_bind; [apply reads_align|].
  eapply reads_bind; [|exact Hf]. unfold load_words. apply reads_newvector; [lia..|].
  eapply reads_then.
  2: { apply reads_inside; [lia|]. rewrite Zlen_to_nat, words_concat. apply reads_ret. }
  apply reads_mem; [unfold Zlen; by rewrite length_map|auto|unfold Zlen in *; rewrite length_map; lia..|].
  apply Forall_map, Forall_forall. intros x _. cbn. unfold Zlen. by rewrite int_bytes_length.
Qed.

Lemma reads_nil {A} (m : ldr A) e a : reads m (e +++ e_nil) a -> reads m e a.
Proof.
  intros Hm S o rest HS Ht' Hf. destruct (Hm S o rest HS Ht') as (S' & E & HS' & Ht1 & Hr).
  { unfold e_app, e_nil. by rewrite app_nil_r. }
  exists S'. unfold e_app, e_nil in Ht1. rewrite app_nil_r in Ht1. done.
Qed.
Lemma words_u32 l : Forall is_u32 l -> map (fun x => x mod 2 ^ 32) l = l.
Proof.
  intros Hu. rewrite <- (map_id l) at 2. apply map_ext_in. intros x Hx. apply Z.mod_small.
  apply (proj1 (Forall_forall _ _) Hu x). by apply list_elem_of_In.
Qed.
Lemma words_s32 l : Forall line_ok l -> map s32 (map (fun x => x mod 2 ^ 32) l) = l.
Proof.
  intros Hl. rewrite map_map. rewrite <- (map_id l) at 2. apply map_ext_in. intros x Hx. rewrite s32_mod. apply list_elem_of_In in Hx.
  pose proof (proj1 (Forall_forall _ _) Hl x Hx) as Hx'. unfold line_ok in Hx'. apply swrap_small; lia.
Qed.
Lemma reads_code l : vector_ok l -> Forall is_u32 l -> reads (LoadCode can_alloc) (e_aligned t (e_int t) l) l.
Proof.
  intros Hl Hu. apply reads_nil. unfold LoadCode. apply (reads_words l mret); [done|].
  rewrite words_u32 by done. apply reads_ret.
Qed.
Lemma reads_constants sizeof_TValue (LF : ldr Proto) ks ps (g : Proto -> Proto) (e : Proto -> enc) : 0 < sizeof_TValue <= 64 -> vector_ok ks -> Forall (constant_ok t) ks -> vector_ok ps ->
  Forall (fun q => reads LF (e q) (g q)) ps ->
  reads (LoadConstants can_alloc sizeof_TValue LF) (e_vector t (e_constant t) ks +++ e_vector t e ps) (ks, map g ps).
Proof.
  intros Hsize Hk Hks Hp Hps. unfold LoadConstants.
  eapply (reads_vector _ _ (e_constant t) (fun x => x)); [done|done| |].
  { eapply Forall_impl; [exact Hks|]. apply reads_constant. }
  rewrite map_id. apply reads_nil. eapply (reads_vector _ _ e g); [unfold sizeof_pointer; lia|done..|]. apply reads_ret.
Qed.
Lemma reads_locvar v : locvar_ok v -> reads (LoadLocVar can_alloc) (e_locvar t v) v.
Proof.
  intros (Hn & Hs & He). unfold LoadLocVar, e_locvar. eapply reads_bind; [by apply reads_string|]. eapply reads_bind; [by apply reads_int|].
  eapply reads_then; [by apply reads_int|]. destruct v. apply reads_ret.
Qed.
Lemma reads_debug ls vs us : vector_ok ls -> Forall line_ok ls -> vector_ok vs -> Forall locvar_ok vs -> vector_ok us -> Forall string_ok us ->
  reads (LoadDebug can_alloc) (e_aligned t (e_int t) ls +++ e_vector t (e_locvar t) vs +++ e_vector t (e_string t) us) (ls, vs, us).
Proof.
  intros Hl Hls Hv Hvs Hu Hus. unfold LoadDebug.
  eapply (reads_words ls (fun l => let lineinfo := map s32 l in _)); [done|]. cbv zeta beta. rewrite words_s32 by done.
  eapply (reads_vector _ _ (e_locvar t) (fun x => x)); [unfold sizeof_LocVar; lia|done| |].
  { eapply Forall_impl; [exact Hvs|]. apply reads_locvar. }
  rewrite map_id. apply reads_nil. eapply (reads_vector _ _ (e_string t) (fun x => x)); [unfold sizeof_pointer; lia|done| |].
  { eapply Forall_impl; [exact Hus|]. apply reads_string. }
  rewrite map_id. apply reads_ret.
Qed.
End reads.

(** ** The checker and the loaded prototype *)
Lemma bget_map {A B} (g : A -> B) l i : bget (map g l) i = match bget l i with Ok x => Ok (g x) | Err e => Err e end.
Proof. unfold bget. destruct (0 <=? i); [|done]. change (map g l) with (g <$> l). rewrite list_lookup_fmap. by destruct (l !! Z.to_nat i). Qed.
Lemma Zlen_map {A B} (g : A -> B) l : Zlen (map g l) = Zlen l.
Proof. unfold Zlen. by rewrite length_map. Qed.
Section check_loaded.
  Context `{Double} (ks : list TValue) (c : list Z) (ps : list Proto) (li li' : list Z) (lv lv' : list LocVar) (uv uv' : list TString)
    (s s' : TString) (ld ldl nu np va ms : Z) (g : Proto -> Proto).
  Context (Hg : forall q, nups (g q) = nups q) (Hli : li' = li \/ li' = []) (Huv : uv' = uv \/ uv' = []) (Hnu : 0 <= nu).
Let f : Proto := MkProto ks c ps li lv uv s ld ldl nu np va ms.
Let f' : Proto := MkProto ks c (map g ps) li' lv' uv' s' ld ldl nu np va ms.
Lemma setlist_run_loaded n dest : forall j, setlist_run f' n dest j = setlist_run f n dest j.
Proof. induction n as [|n IH]; intros j; [done|]. cbn [setlist_run]. change (code f') with (code f). destruct (access _ _) as [[d|]| |]; [|done..]. cbn. by rewrite IH. Qed.
Lemma check_upvalues_loaded n pc : forall j, check_upvalues f' n pc j = check_upvalues f n pc j.
Proof.
  induction n as [|n IH]; intros j; [done|]. cbn [check_upvalues]. change (code f') with (code f). destruct (access _ _) as [[d|]| |]; [|done..].
  cbn. destruct (is_op _ _ || _); [|done]. cbn. by rewrite IH.
Qed.
Lemma symb_op_loaded lastpc reg pc last op a b x : symb_op f' lastpc reg pc last op a b x = symb_op f lastpc reg pc last op a b x.
Proof.
  destruct op; try reflexivity. cbn [symb_op]. unfold sizep. change (p f') with (map g ps). change (p f) with ps. rewrite Zlen_map.
  destruct (check _) as [[u|]| |]; [|done..]. unfold mbind, chk_bind. unfold access. rewrite bget_map. destruct (bget ps b) as [q|]; [|done]. rewrite Hg.
  change (sizecode f') with (sizecode f). destruct (check _) as [[u'|]| |]; [|done..]. by rewrite check_upvalues_loaded.
Qed.
Lemma symb_args_loaded pc i op : symb_args f' pc i op = symb_args f pc i op.
Proof. unfold symb_args. destruct (getOpMode op) as [[]|]; try reflexivity. Qed.
Lemma chk_bind_ext {A B} (m : chk A) (h h' : A -> chk B) : (forall a, h a = h' a) -> mbind h m = mbind h' m.
Proof. intros E. destruct m as [[a|]| |]; cbn; auto. Qed.
Lemma symb_instr_loaded lastpc reg pc last : symb_instr f' lastpc reg pc last = symb_instr f lastpc reg pc last.
Proof.
  unfold symb_instr. change (code f') with (code f). apply chk_bind_ext. intros i. cbv zeta. apply chk_bind_ext. intros _.
  change (checkreg f') with (checkreg f). apply chk_bind_ext. intros _. apply chk_bind_ext. intros op. rewrite symb_args_loaded.
  apply chk_bind_ext. intros [b x]. change (sizecode f') with (sizecode f). apply chk_bind_ext. intros _. apply symb_op_loaded.
Qed.
Lemma symb_loop_loaded fuel lastpc reg : forall pc last, symb_loop f' fuel lastpc reg pc last = symb_loop f fuel lastpc reg pc last.
Proof.
  induction fuel as [|fuel IH]; intros pc last; [done|]. cbn [symb_loop]. destruct (pc <? lastpc); [|done].
  rewrite symb_instr_loaded. apply chk_bind_ext. intros [pc' last']. apply IH.
Qed.
Lemma checkcode_loaded : luaG_checkcode f = Val true -> luaG_checkcode f' = Val true.
Proof.
  unfold luaG_checkcode, symbexec. change (sizecode f') with (sizecode f).
  assert (precheck f = Val (Some ()) -> precheck f' = Val (Some ())) as Hp.
  { unfold precheck. change (sizecode f') with (sizecode f). change (code f') with (code f). change (maxstacksize f') with (maxstacksize f).
    change (numparams f') with (numparams f). change (is_vararg f') with (is_vararg f). change (nups f') with (nups f).
    unfold mbind, chk_bind. destruct (check _) as [[]| |]; [|done..]. destruct (check _) as [[]| |]; [|done..]. destruct (check _) as [[]| |]; [|done..].
    unfold sizeupvalues, sizelineinfo. change (upvalues f') with uv'. change (lineinfo f') with li'. change (upvalues f) with uv. change (lineinfo f) with li. intros E.
    assert (check (Zlen uv' <=? nups f) = Val (Some ())) as ->.
    { destruct (Z.leb_spec (Zlen uv) (nups f)); [|done]. unfold check. destruct Huv as [-> | ->]; [|change (Zlen (@nil TString)) with 0; change (nups f) with nu]; by rewrite (proj2 (Z.leb_le _ _)) by lia. }
    assert (check ((Zlen li' =? sizecode f) || (Zlen li' =? 0)) = Val (Some ())) as ->.
    { destruct Hli as [-> | ->]; [|by rewrite orb_true_r]. destruct (check (Zlen uv <=? _)) as [[]| |]; [|done..]. destruct ((Zlen li =? _) || _); done. }
    destruct (check (Zlen uv <=? _)) as [[]| |]; [|done..]. destruct (check (_ || _)) as [[]| |]; done. }
  intros Hc. destruct (precheck f) as [[[]|]| |] eqn:E; try discriminate Hc. rewrite Hp by done. rewrite <- Hc. unfold mbind, chk_bind. by rewrite symb_loop_loaded.
Qed.
End check_loaded.

(** ** Loading a dumped function *)
Definition accepted `{Double} (f : Proto) : Prop := luaG_checkcode f = Val true.
Fixpoint depth `{Double} (f : Proto) : nat := S (foldr (fun q n => Nat.max (depth q) n) 0%nat (p f)).
Lemma depth_inner `{Double} f q : q ∈ p f -> (depth q < depth f)%nat.
Proof.
  intros Hq. destruct f as [kf cf pf lf vf uf sf df ldf nf paf isf mf]. cbn [depth p] in *. induction Hq as [q l|q q' l _ IH]; cbn [foldr]; lia.
Qed.
Section round_trip.
  Context `{MachineLaws} (t : DumpTargetInfo) (strip0 : bool) (Ht : target_ok t).
  Context (can_alloc : Z -> bool) (sizeof_TValue : Z) (Hmem : forall n, can_alloc n = true) (Hsize : 0 < sizeof_TValue <= 64).
Lemma loaded_source_ok f dumped : string_ok (source f) -> string_ok (if bool_decide (source f = dumped) || strip0 then None else source f).
Proof. intros Hs. by destruct (_ || _). Qed.
Lemma nups_loaded dumped parent q : nups (loaded strip0 dumped parent q) = nups q.
Proof. by destruct q. Qed.
Lemma debug_cases {A} (l : list A) : debug strip0 l = l \/ debug strip0 l = [].
Proof. unfold debug. destruct strip0; auto. Qed.
Lemma accepted_loaded f dumped parent : proto_ok t f -> accepted f -> accepted (loaded strip0 dumped parent f).
Proof.
  intros Hok. pose proof (ok_bytes t f Hok) as ((Hn & _) & _). destruct f as [kf cf pf lf vf uf sf df ldf nf paf isf mf]. cbn [nups] in Hn.
  apply checkcode_loaded; [intros q; apply nups_loaded|apply debug_cases..|apply Hn].
Qed.
Lemma reads_proto calls LF f dumped parent : proto_ok t f -> accepted f ->
  (forall src, Forall (fun q => reads t calls (LF src) (e_function t strip0 (source f) q) (loaded strip0 (source f) src q)) (p f)) ->
  reads t calls (LoadProto can_alloc sizeof_TValue LF parent) (e_function t strip0 dumped f) (loaded strip0 dumped parent f).
Proof.
  intros Hok Ha Hp. pose proof (accepted_loaded f dumped parent Hok Ha) as Hl.
  pose proof Hok as [[Hk Hk'] [Hc Hc'] Hpv [Hli Hli'] [Hv Hv'] [Hu Hu'] Hs [Hd Hd'] (Hn & Hnp & Hva & Hm)].
  destruct f as [kf cf pf lf vf uf sf df ldf nf paf isf mf]. cbn [e_function loaded source linedefined lastlinedefined nups numparams is_vararg maxstacksize k code p lineinfo locvars upvalues] in *.
  unfold LoadProto. set (dsrc := if bool_decide (sf = dumped) || strip0 then None else sf) in *.
  eapply reads_bind; [apply reads_string; [done|subst dsrc; by destruct (_ || _)]|]. cbv zeta. fold (or_else dsrc parent).
  do 2 (eapply reads_bind; [by apply reads_int|]). do 4 (eapply reads_bind; [by apply reads_byte|]).
  eapply reads_bind; [by apply reads_code|]. eapply reads_bind; [apply reads_constants; try done; apply Hp|].
  eapply reads_then.
  { apply reads_debug; first [done|by apply vector_ok_debug|by apply Forall_debug]. }
  cbv beta iota zeta. apply (reads_silent _ _ _ true); [|apply reads_ret]. intros S HS. exists S. unfold lifted. rewrite Hl. done.
Qed.
Definition at_calls (n : Z) (S : LoadState) : LoadState := MkLoad (Zs S) (buffsize S) (swap S) (numsize S) (toflt S) (total S) n.
Lemma LoadFunction_step fuel parent S : LoadFunction can_alloc sizeof_TValue (Datatypes.S fuel) parent S =
  if LUAI_MAXCCALLS <? nCcalls S + 1 then Raise CodeTooDeep else
  match LoadProto can_alloc sizeof_TValue (LoadFunction can_alloc sizeof_TValue fuel) parent (at_calls (nCcalls S + 1) S) with
  | Val (S2, f) => Val (at_calls (nCcalls S2 - 1) S2, f)
  | Raise e => Raise e
  | Fault e => Fault e
  end.
Proof.
  cbn [LoadFunction]. unfold mbind, ldr_bind, ask, set_calls. cbn [mbind outcome_bind]. destruct (_ <? _); [done|].
  unfold at_calls. destruct (LoadProto _ _ _ _ _) as [[]| |]; done.
Qed.
Lemma reads_function fuel : forall f calls dumped parent, all_protos (proto_ok t) f -> all_protos accepted f -> 0 <= calls ->
  calls + Z.of_nat (depth f) <= LUAI_MAXCCALLS -> (depth f <= fuel)%nat ->
  reads t calls (LoadFunction can_alloc sizeof_TValue fuel parent) (e_function t strip0 dumped f) (loaded strip0 dumped parent f).
Proof.
  induction fuel as [|fuel IH]; intros f calls dumped parent Hall Hacc Hc Hd Hf; [destruct f; cbn in Hf; lia|].
  inversion Hall as [f1 Hok Hin E1]; subst f1. inversion Hacc as [f2 Ha Hin2 E2]; subst f2.
  assert (1 <= Z.of_nat (depth f)) by (destruct f; cbn; lia).
  assert (reads t (calls + 1) (LoadProto can_alloc sizeof_TValue (LoadFunction can_alloc sizeof_TValue fuel) parent) (e_function t strip0 dumped f) (loaded strip0 dumped parent f)) as Hm.
  { apply reads_proto; [done..|]. intros src. apply Forall_forall. intros q Hq. pose proof (depth_inner f q Hq).
    apply IH; [by apply (proj1 (Forall_forall _ _) Hin)|by apply (proj1 (Forall_forall _ _) Hin2)|lia..]. }
  intros S o rest [Hs1 Hs2 Hs3 Hs4 Hs5] Ht' Hfl. rewrite LoadFunction_step, Hs5, (proj2 (Z.ltb_ge _ _)) by lia.
  destruct (Hm (at_calls (calls + 1) S) o rest) as (S2 & E & [Hs1' Hs2' Hs3' Hs4' Hs5'] & Ht2 & Hf2 & Hc2); [by split|done|done|].
  rewrite E, Hs5', Z.add_simpl_r. eexists. split; [reflexivity|]. split; [by split|]. done.
Qed.
Lemma header_length : Zlen (header t) = LUAC_HEADERSIZE.
Proof. done. Qed.
(** The header says how to read the rest. *)
Lemma LoadHeader_reads S rest : live (Zs S) -> flat (Zs S) = header t ++ rest -> exists S', LoadHeader S = Val (S', ()) /\ loads t (nCcalls S) S' /\ flat (Zs S') = rest.
Proof.
  intros Hl Hf. destruct (luaZ_read_next (Zs S) (header t) rest Hl Hf) as (z' & E & Hl' & Hf'). rewrite header_length in E.
  unfold LoadHeader, LoadBlock. cbv zeta. unfold mbind at 1, ldr_bind at 1. rewrite E. cbn [mbind outcome_bind].
  rewrite header_length, Z.ltb_irrefl.
  change (negb (0 =? 0)) with false. cbv iota. unfold set_mode, mbind, ldr_bind. cbn [mbind outcome_bind].
  assert (forall b1 b2 : bool, negb (cbool b1 =? cbool b2) = negb (Bool.eqb b1 b2)) as Hb by (by intros [] []).
  assert (little_endian t = cbool (little t)) as El by (unfold little; by destruct (ok_endian t Ht) as [-> | ->]).
  unfold header in *. rewrite El, (ok_int t Ht), (ok_size t Ht) in *. replace (u8 (cbool (little t))) with (cbool (little t)) in * by by destruct (little t).
  cbn [List.nth luaU_header app LUA_SIGNATURE]. rewrite Hb.
  destruct (ok_number t Ht) as [(Ei & En & Ea)|(Ei & [En|[En|En]])]; rewrite Ei, En;
    (rewrite bool_decide_eq_true_2 by (by destruct platform_little)); (eexists; split; [reflexivity|]); (split; [|done]); split; cbn [swap numsize toflt Zs nCcalls]; rewrite ?Ei, ?En; done.
Qed.
Lemma undump_chunk f buff calls chunks rest : all_protos (proto_ok t) f -> all_protos accepted f -> 0 <= calls -> calls + Z.of_nat (depth f) <= LUAI_MAXCCALLS ->
  Forall (fun c => Zlen c < 2 ^ 32) chunks -> until_empty chunks = chunk t strip0 f ++ rest ->
  exists S, luaU_undump can_alloc sizeof_TValue (luaZ_init chunks) buff calls = Val (S, loaded strip0 None no_source f) /\ flat (Zs S) = rest.
Proof.
  intros Hall Hacc Hc Hd Hch Hu. unfold luaU_undump. set (S0 := MkLoad (luaZ_init chunks) buff false 0 false 0 calls).
  destruct (LoadHeader_reads S0 (e_function t strip0 None f LUAC_HEADERSIZE ++ rest)) as (S1 & E1 & [Hs1 Hs2 Hs3 Hs4 Hs5] & Hf1).
  { by split. }
  { rewrite app_assoc. exact Hu. }
  unfold mbind at 1, ldr_bind at 1. rewrite E1. cbn [mbind outcome_bind]. unfold mbind, ldr_bind, set_total. cbn [mbind outcome_bind].
  set (S2 := MkLoad (Zs S1) (buffsize S1) (swap S1) (numsize S1) (toflt S1) 0 (nCcalls S1)).
  destruct (reads_function (S (Z.to_nat LUAI_MAXCCALLS)) f calls None no_source Hall Hacc Hc Hd ltac:(lia) S2 LUAC_HEADERSIZE rest) as (S3 & E3 & _ & _ & Hf3 & _); [by split|done|done|].
  exists S3. by split.
Qed.
End round_trip.

(** ** Properties *)
Section theorems.
  Context `{MachineLaws}.
Lemma loaded_same f : forall dumped parent, all_protos (fun q => source q <> None) f -> dumped = None \/ dumped = parent -> loaded false dumped parent f = f.
Proof.
  induction f as [f IH] using Proto_induction. intros dumped parent Hall Hd. inversion Hall as [f' Hs Hin]; subst f'.
  assert (or_else (if bool_decide (source f = dumped) || false then None else source f) parent = source f) as Esrc.
  { rewrite orb_false_r. case_bool_decide as E; [|by destruct (source f)]. cbn. destruct Hd; congruence. }
  assert (map (loaded false (source f) (source f)) (p f) = p f) as Ep.
  { rewrite <- (map_id (p f)) at 2. apply map_ext_in. intros q Hq%list_elem_of_In. apply (proj1 (Forall_forall _ _) IH q Hq); [by apply (proj1 (Forall_forall _ _) Hin)|by right]. }
  destruct f as [kf cf pf lf vf uf sf df ldf nf paf isf mf]. cbn [loaded source p debug] in *. by rewrite Esrc, Ep.
Qed.

(** C22: Dumping a function and loading it: for every
    target the loader takes (either byte order, numbers as doubles or as
    integers of one, two or four bytes), the dump ends without error, and the
    loader, whatever the buffers the bytes come in and whatever follows them,
    gives back the function, with the debug information exactly as it was, or
    stripped of it; what follows the chunk stays in the stream. *)
Theorem dump_load_round_trip t strip fuel can_alloc sizeof_TValue f calls chunks rest buff :
  target_ok t -> all_protos (proto_ok t) f -> all_protos accepted f -> all_protos (fun q => source q <> None) f ->
  (4 <= fuel)%nat -> (forall n, can_alloc n = true) -> 0 < sizeof_TValue <= 64 ->
  0 <= calls -> calls + Z.of_nat (depth f) <= LUAI_MAXCCALLS ->
  exists B, luaU_dump_crosscompile buffer_writer fuel f [] strip t = Val (B, 0) /\
    (Forall (fun c => Zlen c < 2 ^ 32) chunks -> until_empty chunks = B ++ rest ->
     exists S, luaU_undump can_alloc sizeof_TValue (luaZ_init chunks) buff calls = Val (S, if strip then loaded true None no_source f else f) /\ flat (Zs S) = rest).
Proof.
  intros Ht Hall Hacc Hsrc Hfuel Hmem Hsize Hc Hd. exists (chunk t strip f). split; [by apply dump_writes_chunk|]. intros Hch Hu.
  destruct (undump_chunk t strip Ht can_alloc sizeof_TValue Hmem Hsize f buff calls chunks rest Hall Hacc Hc Hd Hch Hu) as (S & E & Hf).
  exists S. split; [|done]. rewrite E. destruct strip; [done|]. rewrite loaded_same; auto.
Qed.
End theorems.
