(* ===== verification/LuaChunkSafe.v ===== *)
(** Malformed chunks and failing writers: the loader of LuaUndump.v on any
    stream of bytes, and the end of a dump of LuaDump.v after an error. *)
From S2P Require Import Prelude LuaStr LuaFormat LuaLex LuaLexStream LuaOpcodes LuaCheck LuaCheckSafe LuaDump LuaUndump LuaChunk.

(** ** Loading any stream *)
Section load.
  Context `{Machine} (can_alloc : Z -> bool) (sizeof_TValue : Z).
(** From any stream: a value, an error, or one of the two faults that are
    left, a number that was never read and a count that overflows an [int]. *)
Definition post {A} (S : LoadState) (P : A -> Prop) (o : outcome (LoadState * A)) : Prop :=
  match o with
  | Val (S', a) => live (Zs S') /\ nCcalls S' = nCcalls S /\ P a
  | Raise _ => True
  | Fault e => e = Uninit \/ e = SignedOverflow
  end.
Definition guarded {A} (calls : Z) (m : ldr A) (P : A -> Prop) : Prop := forall S, live (Zs S) -> nCcalls S = calls -> post S P (m S).
Lemma guarded_bind {A B} c (m : ldr A) (f : A -> ldr B) P : guarded c m (fun a => guarded c (f a) P) -> guarded c (mbind f m) P.
Proof.
  intros Hm S Hl Hc. specialize (Hm S Hl Hc). unfold mbind, ldr_bind. destruct (m S) as [[S' a]| |]; cbn in *; [|done..].
  destruct Hm as (Hl' & Hc' & Hf). specialize (Hf S' Hl' ltac:(lia)). destruct (f a S') as [[S2 b]| |]; cbn in *; [|done..]. destruct Hf as (? & ? & ?). split_and!; [done|lia|done].
Qed.
Lemma guarded_ret {A} c (a : A) (P : A -> Prop) : P a -> guarded c (mret a) P.
Proof. intros HP S Hl Hc. by split_and!. Qed.
Lemma guarded_error {A} c e (P : A -> Prop) : guarded c (error e) P.
Proof. done. Qed.
Lemma guarded_mono {A} c (m : ldr A) (P Q : A -> Prop) : guarded c m P -> (forall a, P a -> Q a) -> guarded c m Q.
Proof. intros Hm HPQ S Hl Hc. specialize (Hm S Hl Hc). destruct (m S) as [[S' a]| |]; cbn in *; [|done..]. destruct Hm as (? & ? & ?). auto. Qed.
Lemma guarded_if {A} c (b : bool) (m m' : ldr A) P : guarded c m P -> guarded c m' P -> guarded c (if b then m else m') P.
Proof. by destruct b. Qed.
Lemma guarded_ask {A} c (g : LoadState -> A) : guarded c (ask g) (fun _ => True).
Proof. intros S Hl Hc. by split_and!. Qed.
Lemma guarded_block c room n : 0 <= n <= room -> guarded c (LoadBlock room n) (fun _ => True).
Proof.
  intros [Hn Hr] S Hl Hc. unfold LoadBlock. destruct (luaZ_read_blocks (Zs S) n Hl Hn) as [z' E]. rewrite E. cbn [mbind outcome_bind].
  rewrite (proj2 (Z.ltb_ge _ _)) by (unfold Zlen; rewrite length_take; lia).
  destruct (Z.eqb_spec (Z.max 0 (n - Zlen (flat (Zs S)))) 0) as [E0|]; [|done]. cbn [negb post Zs nCcalls]. split_and!; [|done..].
  destruct (luaZ_read_rest (Datatypes.S (Datatypes.S (length (z_rest (Zs S))))) (Zs S) [] n Hl ltac:(lia)) as (z2 & E2 & Hl2 & _); [destruct (z_p (Zs S)); lia|].
  unfold luaZ_read in E. rewrite E2 in E. by injection E as <- _.
Qed.
Lemma guarded_true {A} c (m : ldr A) P : guarded c m P -> guarded c m (fun _ => True).
Proof. intros Hm. by eapply guarded_mono. Qed.
Lemma guarded_inside c n room : n <= room -> guarded c (inside n room) (fun _ => True).
Proof. intros Hn. unfold inside. rewrite (proj2 (Z.leb_le _ _)) by done. by apply guarded_ret. Qed.
#[local] Hint Resolve guarded_ret guarded_error guarded_ask guarded_block : guarded.
(** Sequences in which no value matters. *)
Lemma guarded_seq {A B} c (m : ldr A) (f : A -> ldr B) P : guarded c m (fun _ => True) -> (forall a, guarded c (f a) P) -> guarded c (mbind f m) P.
Proof. intros Hm Hf. apply guarded_bind. eapply guarded_mono; [exact Hm|]. auto. Qed.
Ltac step :=
  lazymatch goal with
  | |- guarded _ (mbind _ _) _ => apply guarded_seq; [|intros ?]
  | |- guarded _ (if _ then _ else _) _ => apply guarded_if
  | |- guarded _ (mret _) _ => apply guarded_ret; done
  | |- guarded _ (error _) _ => apply guarded_error
  | |- guarded _ (ask _) _ => apply guarded_ask
  end.
Lemma u32_le x : 0 <= x -> 0 <= u32 x <= x.
Proof. intros Hx. split; [apply wrap_range; lia|]. unfold wrap. apply Z.mod_le; lia. Qed.
Lemma guarded_mem c room n s : 0 <= n * s <= room -> guarded c (LoadMem room n s) (fun _ => True).
Proof.
  intros Hn. pose proof (u32_le (n * s) ltac:(lia)). unfold LoadMem. step; [apply guarded_block; lia|]. step; [step|].
  apply guarded_if; [|step]. apply guarded_if; [|step]. step; [apply guarded_inside; lia|step].
Qed.
Lemma guarded_var c s : 0 <= s -> guarded c (LoadVar s) (fun _ => True).
Proof. intros Hs. apply guarded_mem. lia. Qed.
Lemma guarded_char c : guarded c LoadChar (fun _ => True).
Proof. unfold LoadChar. step; [by apply guarded_var|step]. Qed.
Lemma guarded_byte c : guarded c LoadByte (fun x => 0 <= x).
Proof. unfold LoadByte. step; [apply guarded_char|]. apply guarded_ret. apply wrap_range. lia. Qed.
Lemma guarded_int c : guarded c LoadInt (fun x => 0 <= x < 2147483648).
Proof.
  unfold LoadInt. step; [by apply guarded_var|]. cbv zeta. destruct (Z.ltb_spec (s32 (int_of platform_little a)) 0); [step|]. apply guarded_ret.
  split; [done|]. unfold swrap. pose proof (Z.mod_pos_bound (int_of platform_little a + 2 ^ (32 - 1)) (2 ^ 32) eq_refl). lia.
Qed.
Lemma LoadChar_total S S' x : LoadChar S = Val (S', x) -> total S' = u32 (total S + 1).
Proof.
  unfold LoadChar, LoadVar, LoadMem. change (u32 (1 * 1)) with 1. unfold mbind, ldr_bind, ask. cbn [mbind outcome_bind].
  destruct (LoadBlock 1 1 S) as [[S1 b]| |] eqn:E; [|done..]. unfold LoadBlock in E. destruct (luaZ_read (Zs S) 1) as [[z' [b' r]]| |]; [|done..]. cbn [mbind outcome_bind] in E.
  destruct (1 <? Zlen b'); [done|].
  destruct (negb (r =? 0)); [done|]. injection E as <- <-. cbn [mbind outcome_bind swap]. rewrite bool_decide_eq_true_2 by (apply list_elem_of_In; cbn; auto).
  by destruct (swap S); intros [= <- _].
Qed.
Lemma guarded_align c : guarded c LoadAlign4 (fun _ => True).
Proof.
  unfold LoadAlign4. assert (forall n S, live (Zs S) -> nCcalls S = c -> (Z.to_nat (- total S mod 4) < n)%nat -> post S (fun _ => True) (load_align n S)) as Hn.
  { induction n as [|n IH]; intros S Hl Hc Hn; [lia|]. cbn [load_align]. unfold ask, mbind at 1, ldr_bind at 1. cbn [mbind outcome_bind]. rewrite land3.
    destruct (Z.eqb_spec (total S mod 4) 0) as [|Hne]; [by split_and!|]. unfold mbind, ldr_bind. pose proof (guarded_char c S Hl Hc) as Hch.
    destruct (LoadChar S) as [[S1 x]| |] eqn:E; cbn [post] in Hch; [|done..]. destruct Hch as (Hl1 & Hc1 & _). cbn [mbind outcome_bind]. apply LoadChar_total in E.
    assert (- total S1 mod 4 = - (total S + 1) mod 4) as E1.
    { rewrite <- (Z.sub_0_l (total S1)), <- (Z.sub_0_l (total S + 1)), <- Zminus_mod_idemp_r, E, u32_mod4, Zminus_mod_idemp_r. done. }
    assert (- total S mod 4 = - (total S + 1) mod 4 + 1) as E2 by (Z.to_euclidean_division_equations; lia). pose proof (Z.mod_pos_bound (- (total S + 1)) 4 ltac:(lia)).
    specialize (IH S1 Hl1 ltac:(lia) ltac:(lia)). destruct (load_align n S1) as [[S2 []]| |]; cbn in *; [|done..]. destruct IH as (? & ? & ?). split_and!; [done|lia|done]. }
  intros S Hl Hc. apply Hn; [done..|]. pose proof (Z.mod_pos_bound (- total S) 4 ltac:(lia)). lia.
Qed.
(** The block is as large as its elements need. *)
Lemma guarded_newvector c n e : 0 <= n < 2147483648 -> guarded c (luaM_newvector can_alloc n e) (fun room => room = n * e /\ 0 < e).
Proof.
  intros Hn. unfold luaM_newvector. apply guarded_if; [intros S Hl Hc; by right|]. unfold luaM_reallocv. rewrite wrap_small by (pow2_norm; lia). destruct (Z.leb_spec (n + 1) (MAX_SIZET / e)) as [Hle|]; [|step].
  assert (0 < e) as He.
  { destruct (Z_lt_le_dec 0 e) as [|He]; [done|]. assert (MAX_SIZET / e <= 0); [|lia].
    destruct (Z.eq_dec e 0) as [-> |]; [by rewrite Zdiv_0_r|]. change MAX_SIZET with 4294967293 in *.
    pose proof (Z.div_mod 4294967293 e ltac:(lia)). pose proof (Z.mod_neg_bound 4294967293 e ltac:(lia)). nia. }
  apply guarded_if; [|step]. apply guarded_ret. split; [|done]. apply wrap_small.
  pose proof (Z.mul_div_le MAX_SIZET e He). change MAX_SIZET with 4294967293 in *. pow2_norm. nia.
Qed.
Lemma guarded_newbytes c n : is_u32 n -> guarded c (luaM_reallocv can_alloc n 1) (fun room => room = n).
Proof.
  intros Hn. unfold luaM_reallocv. rewrite Z.mul_1_r, (wrap_small _ n) by done. repeat (apply guarded_if; [|step]). by apply guarded_ret.
Qed.
Lemma guarded_openspace c n : is_u32 n -> guarded c (luaZ_openspace can_alloc n) (fun room => n <= room).
Proof.
  intros Hn. unfold in_range in Hn. unfold luaZ_openspace. step; [step|]. destruct (Z.ltb_spec a n); [|by apply guarded_ret]. cbv zeta.
  apply guarded_bind. eapply guarded_mono; [apply guarded_newbytes|].
  { unfold in_range, LUA_MINBUFFER. repeat case_match; lia. }
  intros room ->. step; [intros S Hl Hc; by split_and!|]. apply guarded_ret. destruct (Z.ltb_spec n LUA_MINBUFFER); lia.
Qed.
Lemma guarded_number c : guarded c LoadNumber (fun _ => True).
Proof.
  unfold LoadNumber. repeat step; first [by apply guarded_var|intros S Hl Hc; by left].
Qed.
Lemma guarded_string c : guarded c (LoadString can_alloc) (fun _ => True).
Proof.
  unfold LoadString. step; [by apply guarded_var|]. cbv zeta. step; [step|].
  assert (is_u32 (u32 (s32 (int_of platform_little a)))) as Hu by (apply wrap_range; lia). set (w := u32 (s32 _)) in *. pose proof (proj1 Hu) as Hw.
  apply guarded_bind. eapply guarded_mono; [by apply guarded_openspace|]. intros room Hr. step; [by apply guarded_block|]. repeat step.
Qed.
Lemma guarded_list {A} c (m : ldr A) P room e n : guarded c m P -> 0 < e -> forall i, (i + Z.of_nat n) * e <= room -> guarded c (load_list room e i n m) (Forall P).
Proof.
  intros Hm He. induction n as [|n IH]; intros i Hi; cbn [load_list]; [by apply guarded_ret|]. apply guarded_bind. eapply guarded_mono; [exact Hm|]. intros a Ha.
  step; [apply guarded_inside; nia|]. apply guarded_bind. eapply guarded_mono; [apply IH; lia|]. intros l Hl. apply guarded_ret. by constructor.
Qed.
(** A count, and a vector of as many elements. *)
Lemma guarded_vector {A} c (m : ldr A) P n e : guarded c m P -> 0 <= n < 2147483648 -> guarded c (load_vector can_alloc n e m) (Forall P).
Proof.
  intros Hm Hn. unfold load_vector. apply guarded_bind. eapply guarded_mono; [by apply guarded_newvector|]. intros room [-> He].
  step; [by apply guarded_inside|]. apply guarded_list; [done|done|]. rewrite Z2Nat.id by lia. done.
Qed.
Lemma guarded_words c n : 0 <= n < 2147483648 -> guarded c (load_words can_alloc n) (fun _ => True).
Proof.
  intros Hn. unfold load_words. apply guarded_bind. eapply guarded_mono; [by apply guarded_newvector|]. intros room [-> _].
  step; [apply guarded_mem; lia|]. step; [by apply guarded_inside|step].
Qed.
Lemma guarded_constant c : guarded c (LoadConstant can_alloc) (fun _ => True).
Proof. unfold LoadConstant. step; [apply guarded_char|]. repeat step; first [apply guarded_char|apply guarded_number|apply guarded_string]. Qed.
(** The counts of vectors are integers that were read. *)
Ltac step_count := apply guarded_bind; eapply guarded_mono; [apply guarded_int|intros ? ?].
Lemma guarded_code c : guarded c (LoadCode can_alloc) (fun _ => True).
Proof. unfold LoadCode. step_count. step; [apply guarded_align|]. step; [by apply guarded_words|step]. Qed.
Lemma guarded_locvar c : guarded c (LoadLocVar can_alloc) (fun _ => True).
Proof. unfold LoadLocVar. step; [apply guarded_string|]. do 2 (step; [eapply guarded_true, guarded_int|]). step. Qed.
Lemma guarded_debug c : guarded c (LoadDebug can_alloc) (fun _ => True).
Proof.
  unfold LoadDebug. step_count. step; [apply guarded_align|]. step; [by apply guarded_words|].
  cbv zeta. step_count. step; [eapply guarded_true, guarded_vector; [apply guarded_locvar|done]|].
  step_count. step; [eapply guarded_true, guarded_vector; [apply guarded_string|done]|]. step.
Qed.
(** What the loader has checked of a function it gives back. *)
Definition verified (f : Proto) : Prop := all_protos (fun q => accepted q /\ 0 <= nups q) f.
Lemma guarded_proto c LF parent : (forall src, guarded c (LF src) verified) -> guarded c (LoadProto can_alloc sizeof_TValue LF parent) verified.
Proof.
  intros HLF. unfold LoadProto. step; [apply guarded_string|]. cbv zeta. do 2 (step; [eapply guarded_true, guarded_int|]).
  apply guarded_bind. eapply guarded_mono; [apply guarded_byte|]. intros nup Hnup. do 3 (step; [eapply guarded_true, guarded_byte|]).
  step; [apply guarded_code|]. apply guarded_bind.
  eapply (guarded_mono _ _ (fun kp : list TValue * list Proto => Forall verified (snd kp))).
  { unfold LoadConstants. step_count. step; [eapply guarded_true, guarded_vector; [apply guarded_constant|done]|].
    step_count. apply guarded_bind. eapply guarded_mono; [by apply guarded_vector|]. intros l Hl. by apply guarded_ret. }
  intros [ks ps] Hps. cbn [snd] in Hps. apply guarded_seq; [apply guarded_debug|intros [[li lv] us]]. cbv zeta.
  match goal with |- context [luaG_checkcode ?q] => set (f := q) end.
  destruct (symbexec_total f (sizecode f) NO_REG) as [i Ei]; [lia| |].
  { apply (Forall_impl _ _ _ Hps). intros q Hq. by inversion Hq as [q' [_ Hq'] _]. }
  assert (luaG_checkcode f = Val (negb (i =? 0))) as Ec by (unfold luaG_checkcode; by rewrite Ei).
  intros S Hl Hc. unfold mbind, ldr_bind, lifted. rewrite Ec. cbn [mbind outcome_bind]. destruct (negb (i =? 0)); [|done]. cbn [negb].
  split_and!; [done..|]. constructor; [by split|exact Hps].
Qed.
Lemma guarded_function fuel : forall calls parent, 0 <= calls -> Z.max 0 (LUAI_MAXCCALLS - calls) < Z.of_nat fuel ->
  guarded calls (LoadFunction can_alloc sizeof_TValue fuel parent) verified.
Proof.
  induction fuel as [|fuel IH]; intros calls parent Hc Hf S Hl HS; [lia|]. rewrite LoadFunction_step, HS.
  destruct (Z.ltb_spec LUAI_MAXCCALLS (calls + 1)); [done|].
  pose proof (guarded_proto (calls + 1) (LoadFunction can_alloc sizeof_TValue fuel) parent ltac:(intros src; apply IH; lia) (at_calls (calls + 1) S) Hl eq_refl) as Hp.
  destruct (LoadProto _ _ _ _ _) as [[S2 f]| |]; cbn in *; [|done..]. destruct Hp as (? & ? & ?). split_and!; [done|lia|done].
Qed.
Lemma guarded_header c : guarded c LoadHeader (fun _ => True).
Proof. unfold LoadHeader. cbv zeta. step; [by apply guarded_block|]. step; [intros S Hl Hc; by split_and!|]. repeat step. Qed.

(** ** Properties *)

(** C24: Loading any stream of bytes ends: with an error, or
    with a function of which the code of every part has been accepted (what
    that is worth says [checked_code_stays_inside]). The depth of recursion is bounded, and no byte is stored behind the end of
    its destination (a vector as the allocator gave it, the string buffer, a
    variable), whatever counts and lengths the stream announces and whichever
    requests the allocator refuses. Two faults are left: a number of a size the
    header should not have allowed, which is never read, and the sum of the
    macro [luaM_newvector] for a vector that announces [INT_MAX] elements. *)
Theorem undump_any_stream z buff calls : live z -> 0 <= calls ->
  match luaU_undump can_alloc sizeof_TValue z buff calls with
  | Val (S1, f) => live (Zs S1) /\ nCcalls S1 = calls /\ verified f
  | Raise _ => True
  | Fault e => e = Uninit \/ e = SignedOverflow
  end.
Proof.
  intros Hl Hc. unfold luaU_undump. set (S0 := MkLoad z buff false 0 false 0 calls).
  assert (guarded calls (_ ← LoadHeader; _ ← set_total 0; LoadFunction can_alloc sizeof_TValue (Datatypes.S (Z.to_nat LUAI_MAXCCALLS)) no_source : ldr Proto) verified) as Hg.
  { step; [apply guarded_header|]. step; [intros S Hl' Hc'; by split_and!|]. apply guarded_function; [done|]. unfold LUAI_MAXCCALLS. lia. }
  apply (Hg S0 Hl eq_refl).
Qed.
End load.

(** ** A dump after an error *)
Section dump_errors.
  Context `{Machine} {W : Type} (writer : W -> list Z -> W * Z).
Lemma block_after_error (D : @DumpState W) b : status D <> 0 -> DumpBlock writer b D = Val (D, ()).
Proof. intros Hs. unfold DumpBlock. by rewrite (proj2 (Z.eqb_neq _ _)). Qed.
(** After an error nothing is counted any more, so that [Align4] at an offset
    that is not aligned goes round for ever. *)
Theorem align_after_error n (D : @DumpState W) : status D <> 0 -> wrote D mod 4 <> 0 -> Align4 writer n D = Fault NoFuel.
Proof.
  intros Hs Hw. unfold Align4. induction n as [|n IH]; [done|]. cbn [align_loop]. unfold mbind, dump_bind, gets. cbn [mbind outcome_bind].
  rewrite land3, (proj2 (Z.eqb_neq _ _)) by done. unfold DumpChar. rewrite block_after_error by done. cbn [mbind outcome_bind]. apply IH.
Qed.
Lemma dump_step {A B} (m : @dump W A) (f : A -> @dump W B) D D' a : m D = Val (D', a) -> mbind f m D = f a D'.
Proof. intros E. unfold mbind, dump_bind. by rewrite E. Qed.
Lemma dump_fault {A B} (m : @dump W A) (f : A -> @dump W B) D e : m D = Fault e -> mbind f m D = Fault e.
Proof. intros E. unfold mbind, dump_bind. by rewrite E. Qed.
Lemma DumpFunction_unfold fuel parent f : DumpFunction writer fuel parent f = (
  strip ← gets strip;
  _ ← DumpString writer (if bool_decide (source f = parent) || strip then None else source f);
  _ ← DumpInt writer (linedefined f); _ ← DumpInt writer (lastlinedefined f);
  _ ← DumpChar writer (nups f); _ ← DumpChar writer (numparams f); _ ← DumpChar writer (is_vararg f); _ ← DumpChar writer (maxstacksize f);
  _ ← DumpCode writer fuel f; _ ← DumpConstants writer (DumpFunction writer fuel (source f)) f; DumpDebug writer fuel f).
Proof. by destruct f. Qed.
End dump_errors.

(** ** A machine: numbers of 64 bits, little endian *)
Section example.
Definition word64 : Type := dsig (fun x : Z => 0 <= x < 2 ^ 64).
Definition word64_of (x : Z) : word64 := dexist (x mod 2 ^ 64) (Z.mod_pos_bound x (2 ^ 64) eq_refl).
#[local] Instance words : Double := {| num := word64; of_Z := word64_of; trunc x := proj1_sig x; strtod _ := (word64_of 0, 0); sprintf_double _ _ := [] |}.
#[local] Instance word_machine : @Machine words := {|
  platform_little := true;
  double_bytes (x : @num words) := le_bytes 8 (proj1_sig x);
  double_of l := word64_of (le_int l);
  float_bytes (x : @num words) := le_bytes 4 (proj1_sig x);
  float_is n (x : @num words) := n =? proj1_sig x;
|}.
Lemma word_laws : @MachineLaws words word_machine.
Proof.
  split; [intros x; apply le_bytes_length|]. intros x. apply dsig_eq.
  assert (le_int (le_bytes 8 (proj1_sig x)) mod 2 ^ 64 = proj1_sig x) as E; [|exact E].
  rewrite le_int_bytes. change (256 ^ Z.of_nat 8) with (2 ^ 64). rewrite Z.mod_mod by done. apply Z.mod_small. apply (proj2_dsig x).
Qed.

(** A function inside a function, with every kind of constant. *)
Definition adder : Proto := MkProto [VNumber (word64_of 7); VString (Some [120]); VBoolean 1; VNil]
  [CREATE_ABx 1 1 0; CREATE_ABC 4 2 0 0; CREATE_ABC 12 1 1 2; CREATE_ABC 30 1 2 0; CREATE_ABC 30 0 1 0] [] [2; 2; 2; 2; 3]
  [MkLocVar (Some [97]) 0 4] [Some [98; 99]] (Some [64; 109]) 1 3 1 1 0 3.
Definition maker : Proto := MkProto [VString (Some [102])]
  [CREATE_ABx 36 0 0; CREATE_ABC 0 0 0 0; CREATE_ABx 7 0 0; CREATE_ABC 30 0 1 0] [adder] [3; 3; 3; 4] [] [] (Some [64; 109]) 0 0 0 0 2 2.
Ltac concrete := repeat constructor; solve [by vm_compute | unfold line_ok, int_ok, vector_ok; vm_compute; lia].
Lemma adder_ok t : lua_Number_integral t = 0 -> proto_ok t adder.
Proof.
  intros Ei. split; cbn; [|concrete..]. split; [|by vm_compute].
  apply Forall_cons_2; [intros E; congruence|]. apply Forall_cons_2; [by vm_compute|]. apply Forall_cons_2; [by right|]. by repeat constructor.
Qed.
Lemma maker_ok t : lua_Number_integral t = 0 -> all_protos (proto_ok t) maker.
Proof. intros Ei. constructor; [split; cbn; concrete|]. constructor; [constructor; [by apply adder_ok|constructor]|constructor]. Qed.
Lemma maker_accepted : all_protos accepted maker.
Proof. constructor; [by vm_compute|]. constructor; [constructor; [by vm_compute|constructor]|constructor]. Qed.
Lemma maker_sources : all_protos (fun q => source q <> None) maker.
Proof. constructor; [done|]. by repeat constructor. Qed.
(** For a big-endian target, in three buffers, with two more bytes behind. *)
Definition big_endian : DumpTargetInfo := MkTarget 0 4 4 8 0 0.
Definition maker_chunk : list Z := chunk big_endian false maker.
Lemma dump_load_round_trip_witness :
  exists S1, luaU_undump (fun _ => true) 16 (luaZ_init [take 5 maker_chunk; drop 5 maker_chunk; [1; 2]]) 0 0 = Val (S1, maker) /\ flat (Zs S1) = [1; 2].
Proof.
  destruct (@dump_load_round_trip words word_machine word_laws big_endian false 4 (fun _ => true) 16 maker 0 [take 5 maker_chunk; drop 5 maker_chunk; [1; 2]] [1; 2] 0)
    as (B & E & HB).
  - split; cbn; auto.
  - by apply maker_ok.
  - exact maker_accepted.
  - exact maker_sources.
  - auto.
  - done.
  - done.
  - done.
  - by vm_compute.
  - assert (B = maker_chunk) as ->.
    { assert (luaU_dump_crosscompile buffer_writer 4 maker [] false big_endian = Val (maker_chunk, 0)) as E2 by (by vm_compute). congruence. }
    apply HB; [repeat constructor|by vm_compute].
Defined.
Lemma undump_any_stream_witness : live (luaZ_init [maker_chunk]) /\
  (match luaU_undump (fun _ => true) 16 (luaZ_init [maker_chunk]) 0 0 with Val (_, f) => sizep f =? 1 | _ => false end) = true /\
  match luaU_undump (fun _ => true) 16 (luaZ_init [maker_chunk]) 0 0 with
  | Val (S1, f) => live (Zs S1) /\ nCcalls S1 = 0 /\ verified f
  | Raise _ => True
  | Fault e => e = Uninit \/ e = SignedOverflow
  end.
Proof.
  assert (live (luaZ_init [maker_chunk])) as Hl by (repeat split; repeat constructor). split; [done|]. split; [by vm_compute|].
  apply (undump_any_stream (fun _ => true) 16 (luaZ_init [maker_chunk]) 0 0 Hl). done.
Defined.
Lemma align_after_error_witness : Align4 buffer_writer 1000 (MkDump [] false 101 big_endian 19) = Fault NoFuel.
Proof. apply align_after_error; by vm_compute. Defined.
(** For a target with integers of two bytes, a function that
    starts at line forty thousand: the dump ought to end with the status that
    an integer is too large; it never ends. *)
Definition far_down : Proto := MkProto [] [CREATE_ABC 30 0 1 0] [] [] [] [] (Some [64; 97]) 40000 40000 0 0 0 2.
Theorem overflow_hangs fuel : luaU_dump_crosscompile buffer_writer fuel far_down [] false (MkTarget 1 2 4 8 0 0) = Fault NoFuel.
Proof.
  unfold luaU_dump_crosscompile. erewrite dump_step by (vm_compute; reflexivity). rewrite DumpFunction_unfold.
  do 8 (erewrite dump_step by (vm_compute; reflexivity)).
  erewrite dump_fault; [reflexivity|]. unfold DumpCode. erewrite dump_step by (vm_compute; reflexivity). apply dump_fault, align_after_error; by vm_compute.
Qed.
End example.
