(* ===== verification/LuaTable.v ===== *)
(** Tables of the Lua interpreter, src/src/lua/ltable.c, with the hash of
    strings of lstring.c, luaO_log2 and the comparison of values of lobject.c:
    an array part and a hash part, a chained scatter table with Brent's
    variation that is rehashed in place. Memory does not run out, and there is
    no collector, so that no key is dead; the metatable is left out. *)
From S2P Require Import Prelude LuaStr LuaFormat LuaLex.

(** ** Numbers

    [luai_numeq], [lua_number2int] (any int where the number is out of range:
    the conversion is undefined, or one of two tricks), and the two words of
    the representation. *)
Class Numbers `{Double} := {
  numeq : num -> num -> bool;
  number2int : num -> Z;
  num_words : num -> Z * Z;
}.

(** ** luaO_log2 *)
Definition log_2 : list Z := [0; 1; 2; 2] ++ replicate 4 3 ++ replicate 8 4 ++ replicate 16 5 ++ replicate 32 6 ++ replicate 64 7 ++ replicate 128 8.
Fixpoint log2_loop (fuel : nat) (x l : Z) : outcome Z :=
  match fuel with
  | O => Fault NoFuel
  | S fuel => if 256 <=? x then log2_loop fuel (Z.shiftr x 8) (l + 8) else d ← of_res (bget log_2 x); mret (l + d)
  end.
Definition luaO_log2 (x : Z) : outcome Z := log2_loop 4 x (-1).
Definition ceillog2 (x : Z) : outcome Z := l ← luaO_log2 (u32 (x - 1)); mret (l + 1).
Definition twoto (x : Z) : Z := Z.shiftl 1 x.
Definition MAXBITS := 26.
Definition MAXASIZE := Z.shiftl 1 MAXBITS.

(** ** The hash of a string, set when the string is created *)
Fixpoint hash_loop (n : nat) (str : list Z) (step l1 h : Z) : Z :=
  match n with
  | O => h
  | S n =>
    if step <=? l1
    then hash_loop n str step (l1 - step) (Z.lxor h (u32 (u32 (Z.shiftl h 5) + Z.shiftr h 2 + List.nth (Z.to_nat (l1 - 1)) str 0)))
    else h
  end.
Definition string_hash (str : list Z) : Z :=
  let l := Zlen str in
  hash_loop (length str) str (Z.shiftr l 5 + 1) l (u32 l).

Section table.
  Context `{Numbers}.

(** ** Values, nodes, tables

    A string is its bytes, since strings are interned; other objects are a
    type and an address. A link to a node of a vector that has been
    reallocated is [Stale]. [dummy] says that [node] is the constant
    [dummynode]; [lastfree] is an index, possibly in front of the vector.
    [array] is what is allocated, [sizearray] the field. *)
Inductive TValue :=
  | VNil | VBoolean (b : Z) | VLightUserdata (p : Z) | VNumber (x : num) | VString (s : list Z)
  | VRotable (p : Z) | VLightFunction (p : Z) | VObject (tt gc : Z).
Inductive link := Null | To (i : nat) | Stale.
Record Node := MkNode { gval : TValue; gkey : TValue; gnext : link }.
Record Table := MkTable { flags : Z; lsizenode : Z; array : list TValue; node : list Node; dummy : bool; lastfree : Z; sizearray : Z }.
Definition ttisnil (o : TValue) : bool := match o with VNil => true | _ => false end.
Definition ttisnumber (o : TValue) : bool := match o with VNumber _ => true | _ => false end.
Definition dummynode : Node := MkNode VNil VNil Null.
Definition sizenode (t : Table) : Z := twoto (lsizenode t).

(** Comparison without metamethods. *)
Definition luaO_rawequalObj (t1 t2 : TValue) : bool :=
  match t1, t2 with
  | VNil, VNil => true
  | VNumber x, VNumber y => numeq x y
  | VBoolean a, VBoolean b | VLightUserdata a, VLightUserdata b | VRotable a, VRotable b | VLightFunction a, VLightFunction b => a =? b
  | VString a, VString b => bool_decide (a = b)
  | VObject t a, VObject u b => (t =? u) && (a =? b)
  | _, _ => false
  end.

(** ** Operations on a table as state *)
Definition tab (A : Type) : Type := Table -> outcome (Table * A).
#[global] Instance tab_ret : MRet tab := fun A a t => Val (t, a).
#[global] Instance tab_bind : MBind tab := fun A B f m t => match m t with Val (t, a) => f a t | Raise e => Raise e | Fault e => Fault e end.
Definition reads_table {A} (f : Table -> outcome A) : tab A := fun t => match f t with Val a => Val (t, a) | Raise e => Raise e | Fault e => Fault e end.
Definition asks {A} (f : Table -> A) : tab A := fun t => Val (t, f t).
Definition modify (f : Table -> Table) : tab () := fun t => Val (f t, ()).
Definition raise {A} (e : lua_error) : tab A := fun _ => Raise e.
Definition faults {A} (e : fault) : tab A := fun _ => Fault e.
Definition set_flags (x : Z) (t : Table) : Table := MkTable x (lsizenode t) (array t) (node t) (dummy t) (lastfree t) (sizearray t).
Definition set_lsizenode (x : Z) (t : Table) : Table := MkTable (flags t) x (array t) (node t) (dummy t) (lastfree t) (sizearray t).
Definition set_array (x : list TValue) (t : Table) : Table := MkTable (flags t) (lsizenode t) x (node t) (dummy t) (lastfree t) (sizearray t).
Definition set_node (x : list Node) (d : bool) (t : Table) : Table := MkTable (flags t) (lsizenode t) (array t) x d (lastfree t) (sizearray t).
Definition set_lastfree (x : Z) (t : Table) : Table := MkTable (flags t) (lsizenode t) (array t) (node t) (dummy t) x (sizearray t).
Definition set_sizearray (x : Z) (t : Table) : Table := MkTable (flags t) (lsizenode t) (array t) (node t) (dummy t) (lastfree t) x.
Definition at_node (i : nat) (t : Table) : outcome Node := match node t !! i with Some n => Val n | None => Fault OutOfBounds end.
Definition get_node (i : nat) : tab Node := reads_table (at_node i).
(** A store to a node; the dummy node is constant. *)
Definition put_node (i : nat) (n : Node) : tab () := fun t =>
  if dummy t || bool_decide (node t !! i = None) then Fault OutOfBounds else Val (set_node (<[i := n]> (node t)) false t, ()).
Definition put_val (i : nat) (v : TValue) : tab () := n ← get_node i; put_node i (MkNode v (gkey n) (gnext n)).
Definition put_key (i : nat) (k : TValue) : tab () := n ← get_node i; put_node i (MkNode (gval n) k (gnext n)).
Definition put_next (i : nat) (l : link) : tab () := n ← get_node i; put_node i (MkNode (gval n) (gkey n) l).
Definition get_array (i : Z) : tab TValue := reads_table (fun t => of_res (bget (array t) i)).
Definition put_array (i : Z) (v : TValue) : tab () := fun t => a ← of_res (bset (array t) i v); Val (set_array a t, ()).

(** ** Hashing *)
Definition hashpow2 (size n : Z) : nat := Z.to_nat (Z.land n (size - 1)).
Definition hashmod (size n : Z) : nat := Z.to_nat (n mod Z.lor (size - 1) 1).
Definition hashnum (size : Z) (n : num) : nat :=
  if numeq n (of_Z 0) then O else let '(a0, a1) := num_words n in hashmod size (u32 (a0 + a1)).
(** The key of a node that is used is not nil. *)
Definition mainposition (t : Table) (key : TValue) : outcome nat :=
  match key with
  | VNumber x => Val (hashnum (sizenode t) x)
  | VString s => Val (hashpow2 (sizenode t) (string_hash s))
  | VBoolean b => Val (hashpow2 (sizenode t) b)
  | VLightUserdata p | VRotable p | VLightFunction p | VObject _ p => Val (hashmod (sizenode t) (u32 p))
  | VNil => Fault NullDeref
  end.
Definition arrayindex (key : TValue) : Z :=
  match key with VNumber n => let k := number2int n in if numeq (of_Z k) n then k else -1 | _ => -1 end.

(** ** Searching

    The loops [do ... while (n)] along a chain: the first node with [f]. *)
Fixpoint chain_find (fuel : nat) (t : Table) (f : Node -> bool) (i : nat) : outcome (option nat) :=
  match fuel with
  | O => Fault NoFuel
  | S fuel =>
    n ← at_node i t;
    if f n then mret (Some i) else match gnext n with To j => chain_find fuel t f j | Null => mret None | Stale => Fault NullDeref end
  end.
Definition chain_fuel (t : Table) : nat := S (length (node t)).
(** The result of a search: a pointer into the array part, to the value of a
    node, or to [luaO_nilobject]. *)
Inductive slot := SArray (i : Z) | SNode (i : nat) | SNil.
Definition found (r : option nat) : slot := match r with Some i => SNode i | None => SNil end.
Definition slot_value (t : Table) (s : slot) : outcome TValue :=
  match s with SArray i => of_res (bget (array t) i) | SNode i => n ← at_node i t; mret (gval n) | SNil => mret VNil end.
Definition put_slot (s : slot) (v : TValue) : tab () :=
  match s with SArray i => put_array i v | SNode i => put_val i v | SNil => faults OutOfBounds end.
Definition is_number (nk : num) (n : Node) : bool := match gkey n with VNumber x => numeq x nk | _ => false end.
Definition is_string (key : list Z) (n : Node) : bool := match gkey n with VString s => bool_decide (s = key) | _ => false end.
Definition is_key (key : TValue) (n : Node) : bool := luaO_rawequalObj (gkey n) key.
Definition luaH_getnum (t : Table) (key : Z) : outcome slot :=
  k ← of_res (int32 (key - 1));
  if u32 k <? u32 (sizearray t) then mret (SArray k) else
  let nk := of_Z key in
  r ← chain_find (chain_fuel t) t (is_number nk) (hashnum (sizenode t) nk);
  mret (found r).
Definition luaH_getstr (t : Table) (key : list Z) : outcome slot :=
  r ← chain_find (chain_fuel t) t (is_string key) (hashpow2 (sizenode t) (string_hash key));
  mret (found r).
Definition get_default (t : Table) (key : TValue) : outcome slot :=
  mp ← mainposition t key;
  r ← chain_find (chain_fuel t) t (is_key key) mp;
  mret (found r).
Definition luaH_get (t : Table) (key : TValue) : outcome slot :=
  match key with
  | VNil => mret SNil
  | VString s => luaH_getstr t s
  | VNumber n => let k := number2int n in if numeq (of_Z k) n then luaH_getnum t k else get_default t key
  | _ => get_default t key
  end.

(** ** Sizes *)
Definition count_as (lg : Z) (n : Z) (nums : list Z) : outcome (list Z) :=
  x ← of_res (bget nums lg); of_res (bset nums lg (x + n)).
Definition countint (key : TValue) (nums : list Z) : outcome (list Z * Z) :=
  let k := arrayindex key in
  if (0 <? k) && (k <=? MAXASIZE) then lg ← ceillog2 k; nums ← count_as lg 1 nums; mret (nums, 1) else mret (nums, 0).
(** The elements among [n] from index [i] on. *)
Fixpoint count_slice (n : nat) (t : Table) (i lc : Z) : outcome Z :=
  match n with
  | O => mret lc
  | S n => v ← of_res (bget (array t) (i - 1)); count_slice n t (i + 1) (if ttisnil v then lc else lc + 1)
  end.
Fixpoint slice_loop (n : nat) (t : Table) (lg ttlg i ause : Z) (nums : list Z) : outcome (list Z * Z) :=
  match n with
  | O => mret (nums, ause)
  | S n =>
    let over := sizearray t <? ttlg in
    let lim := if over then sizearray t else ttlg in
    if over && (lim <? i) then mret (nums, ause) else
    lc ← count_slice (Z.to_nat (lim - i + 1)) t i 0;
    nums ← count_as lg lc nums;
    slice_loop n t (lg + 1) (ttlg * 2) (Z.max i (lim + 1)) (ause + lc) nums
  end.
Definition numusearray (t : Table) (nums : list Z) : outcome (list Z * Z) := slice_loop (Z.to_nat (MAXBITS + 1)) t 0 1 1 0 nums.
(** The nodes below [i], from the last one on: counts, integer keys, all keys. *)
Fixpoint numusehash_loop (i : nat) (t : Table) (ause totaluse : Z) (nums : list Z) : outcome (list Z * Z * Z) :=
  match i with
  | O => mret (nums, ause, totaluse)
  | S i =>
    n ← at_node i t;
    if ttisnil (gval n) then numusehash_loop i t ause totaluse nums else
    '(nums, c) ← countint (gkey n) nums;
    numusehash_loop i t (ause + c) (totaluse + 1) nums
  end.
Definition numusehash (t : Table) (nums : list Z) : outcome (list Z * Z * Z) := numusehash_loop (Z.to_nat (sizenode t)) t 0 0 nums.
Fixpoint sizes_loop (fuel : nat) (nums : list Z) (narray i twotoi a na n : Z) : outcome (Z * Z) :=
  match fuel with
  | O => Fault NoFuel
  | S fuel =>
    if twotoi / 2 <? narray then
      x ← of_res (bget nums i);
      let a := if 0 <? x then a + x else a in
      let '(na, n) := if (0 <? x) && (twotoi / 2 <? a) then (a, twotoi) else (na, n) in
      if a =? narray then mret (na, n) else sizes_loop fuel nums narray (i + 1) (twotoi * 2) a na n
    else mret (na, n)
  end.
(** How many elements go to the array part, and its size. *)
Definition computesizes (nums : list Z) (narray : Z) : outcome (Z * Z) := sizes_loop (S (S (Z.to_nat MAXBITS))) nums narray 0 1 0 0 0.

(** ** Allocation *)
Definition setarrayvector (size : Z) : tab () :=
  modify (fun t => set_sizearray size (set_array (take (Z.to_nat (Z.min size (sizearray t))) (array t) ++ replicate (Z.to_nat (size - sizearray t)) VNil) t)).
Fixpoint free_loop (fuel : nat) : tab (option nat) :=
  match fuel with
  | O => faults NoFuel
  | S fuel =>
    l ← asks lastfree;
    _ ← modify (set_lastfree (l - 1));
    if 0 <? l then
      n ← get_node (Z.to_nat (l - 1));
      if ttisnil (gkey n) then mret (Some (Z.to_nat (l - 1))) else free_loop fuel
    else mret None
  end.
Definition getfreepos : tab (option nat) := l ← asks lastfree; free_loop (S (Z.to_nat l)).
Definition stale (n : Node) : Node := MkNode (gval n) (gkey n) (match gnext n with Null => Null | _ => Stale end).
Definition resizenodevector (oldsize newsize : Z) : tab () :=
  d ← asks dummy;
  if newsize =? 0 then
    _ ← modify (set_node [dummynode] true);
    _ ← modify (set_lsizenode 0);
    modify (set_lastfree 0)
  else
    lsize ← reads_table (fun _ => ceillog2 newsize);
    if MAXBITS <? lsize then raise TableOverflow else
    let newsize := twoto lsize in
    let oldsize := if d : bool then 0 else oldsize in
    _ ← modify (fun t => set_node (take (Z.to_nat newsize) (map stale (take (Z.to_nat oldsize) (node t))) ++ replicate (Z.to_nat (newsize - oldsize)) (MkNode VNil VNil Null)) false t);
    _ ← modify (set_lsizenode lsize);
    modify (set_lastfree newsize).

(** ** Rehashing in place *)
Definition next_is (next : nat) (n : Node) : bool := match gnext n with To j => Nat.eqb j next | _ => false end.
Definition find_prev_node (mp next : nat) : tab (option nat) := reads_table (fun t => chain_find (chain_fuel t) t (next_is next) mp).
Definition main_of (key : TValue) : tab nat := reads_table (fun t => mainposition t key).
Definition move_node (nd : nat) : tab bool :=
  n ← get_node nd;
  mp ← main_of (gkey n);
  if Nat.eqb mp nd then mret true else
  p ← find_prev_node mp nd;
  match p with
  | Some _ => mret true
  | None =>
    m ← get_node mp;
    d ← asks dummy;
    if negb (ttisnil (gval m)) || d then
      othermp ← main_of (gkey m);
      if negb (Nat.eqb othermp mp) then
        prev ← find_prev_node othermp mp;
        _ ← (match prev with Some q => put_next q (To nd) | None => mret () end : tab ());
        m ← get_node mp;
        _ ← put_node nd m;
        _ ← put_node mp n;
        mret (match prev with Some _ => true | None => false end)
      else
        _ ← put_next nd (gnext m);
        _ ← put_next mp (To nd);
        mret true
    else
      _ ← put_node mp n;
      _ ← put_next nd Null;
      _ ← put_key nd VNil;
      _ ← put_val nd VNil;
      mret true
  end.
Definition move_number (nd : nat) : tab bool :=
  n ← get_node nd;
  match gkey n with
  | VNumber x =>
    let key := number2int x in
    size ← asks sizearray;
    if numeq (of_Z key) x then
      k ← reads_table (fun _ => of_res (int32 (key - 1)));
      if u32 k <? u32 size then
        _ ← put_array k (gval n);
        _ ← put_key nd VNil;
        _ ← put_val nd VNil;
        mret true
      else mret false
    else mret false
  | _ => mret false
  end.
(** The first loop of [resize_hashpart]: one node, and the [n] nodes from [i]
    on. *)
Definition compact_node (i : nat) (nhsize : Z) : tab () :=
  _ ← put_next i Null;
  old ← get_node i;
  if ttisnil (gval old) then put_key i VNil else
  moved ← (if ttisnumber (gkey old) then move_number i else mret false : tab bool);
  if moved : bool then mret () else
  if nhsize <=? Z.of_nat i then
    f ← getfreepos;
    match f with Some f => put_node f old | None => faults NullDeref end
  else mret ().
Fixpoint compact_loop (n : nat) (i : nat) (nhsize : Z) : tab () :=
  match n with O => mret () | S n => _ ← compact_node i nhsize; compact_loop n (S i) nhsize end.
Fixpoint place_loop (fuel : nat) (nd : nat) : tab () :=
  match fuel with
  | O => faults NoFuel
  | S fuel => b ← move_node nd; if b : bool then mret () else place_loop fuel nd
  end.
Fixpoint chain_loop (n : nat) (i : nat) : tab () :=
  match n with
  | O => mret ()
  | S n =>
    curr ← get_node i;
    _ ← (if ttisnil (gval curr) then mret () else fuel ← asks chain_fuel; place_loop fuel i : tab ());
    chain_loop n (S i)
  end.
Definition resize_hashpart (nhsize : Z) : tab () :=
  oldhsize ← asks (fun t => if dummy t then 0 else sizenode t);
  lsize ← (if 0 <? nhsize then
             l ← reads_table (fun _ => ceillog2 nhsize);
             if MAXBITS <? l then raise TableOverflow else mret l
           else mret 0 : tab Z);
  let nhsize := twoto lsize in
  let rest : tab () :=
    _ ← compact_loop (Z.to_nat oldhsize) 0 nhsize;
    _ ← (if nhsize <? oldhsize then resizenodevector oldhsize nhsize else mret () : tab ());
    chain_loop (Z.to_nat nhsize) 0 in
  if oldhsize <? nhsize then _ ← resizenodevector oldhsize nhsize; rest
  else if 0 <? nhsize then _ ← modify (set_lsizenode lsize); _ ← modify (set_lastfree nhsize); rest
  else resizenodevector oldhsize nhsize.

(** The sizes that [rehash] asks for: of the array part, of the hash part. *)
Definition rehash_sizes (ek : TValue) (t : Table) : outcome (Z * Z) :=
  '(nums, nasize) ← numusearray t (replicate (Z.to_nat (MAXBITS + 1)) 0);
  '(nums, ause, totaluse) ← numusehash t nums;
  '(nums, c) ← countint ek nums;
  '(na, size) ← computesizes nums (nasize + ause + c);
  mret (size, nasize + totaluse + 1 - na).

(** ** Insertion

    [newkey], [rehash], [resize], [luaH_set] and [luaH_setnum] call each
    other: [nk] is [newkey]. *)
Section insertion.
  Variable nk : TValue -> tab slot.
Definition setnum_with (key : Z) : tab slot :=
  p ← reads_table (fun t => luaH_getnum t key);
  match p with SNil => nk (VNumber (of_Z key)) | _ => mret p end.
Definition set_with (key : TValue) : tab slot :=
  p ← reads_table (fun t => luaH_get t key);
  _ ← modify (set_flags 0);
  match p with
  | SNil =>
    match key with
    | VNil => raise TableIndexIsNil
    | VNumber x => if negb (numeq x x) then raise TableIndexIsNaN else nk key
    | _ => nk key
    end
  | _ => mret p
  end.
Fixpoint reinsert_loop (n : nat) (i : Z) : tab () :=
  match n with
  | O => mret ()
  | S n =>
    v ← get_array i;
    _ ← (if ttisnil v then mret () else s ← setnum_with (i + 1); v ← get_array i; put_slot s v : tab ());
    reinsert_loop n (i + 1)
  end.
Definition resize (nasize nhsize : Z) : tab () :=
  oldasize ← asks sizearray;
  _ ← (if oldasize <? nasize then setarrayvector nasize else mret () : tab ());
  _ ← resize_hashpart nhsize;
  if nasize <? oldasize then
    _ ← modify (set_sizearray nasize);
    _ ← reinsert_loop (Z.to_nat (oldasize - nasize)) nasize;
    modify (fun t => set_array (take (Z.to_nat nasize) (array t)) t)
  else mret ().
Definition luaH_resizearray_with (nasize : Z) : tab () :=
  nsize ← asks (fun t => if dummy t then 0 else sizenode t);
  resize nasize nsize.
Definition rehash (ek : TValue) : tab () :=
  sizes ← reads_table (rehash_sizes ek);
  resize sizes.1 sizes.2.
(** The node before [mp] on the chain from [o]. *)
Fixpoint pred_loop (fuel : nat) (t : Table) (o mp : nat) : outcome nat :=
  match fuel with
  | O => Fault NoFuel
  | S fuel =>
    n ← at_node o t;
    if next_is mp n then mret o else match gnext n with To j => pred_loop fuel t j mp | _ => Fault NullDeref end
  end.
Definition newkey_body (key : TValue) : tab slot :=
  mp ← main_of key;
  m ← get_node mp;
  d ← asks dummy;
  if negb (ttisnil (gval m)) || d then
    f ← getfreepos;
    match f with
    | None => _ ← rehash key; set_with key
    | Some n =>
      othern ← main_of (gkey m);
      mp ← (if negb (Nat.eqb othern mp) then
              o ← reads_table (fun t => pred_loop (chain_fuel t) t othern mp);
              _ ← put_next o (To n);
              m ← get_node mp;
              _ ← put_node n m;
              _ ← put_next mp Null;
              _ ← put_val mp VNil;
              mret mp
            else
              _ ← put_next n (gnext m);
              _ ← put_next mp (To n);
              mret n : tab nat);
      _ ← put_key mp key;
      mret (SNode mp)
    end
  else _ ← put_key mp key; mret (SNode mp).
End insertion.
Fixpoint newkey (fuel : nat) (key : TValue) : tab slot :=
  match fuel with O => faults NoFuel | S fuel => newkey_body (newkey fuel) key end.
(** After a rehash there is room for the key and for the elements that leave
    the array part: a second rehash does not follow. *)
Definition rehashes : nat := 2.
Definition luaH_set (key : TValue) : tab slot := set_with (newkey rehashes) key.
Definition luaH_setnum (key : Z) : tab slot := setnum_with (newkey rehashes) key.
Definition luaH_setstr (key : list Z) : tab slot :=
  p ← reads_table (fun t => luaH_getstr t key);
  match p with SNil => newkey rehashes (VString key) | _ => mret p end.
Definition luaH_resizearray (nasize : Z) : tab () := luaH_resizearray_with (newkey rehashes) nasize.
Definition luaH_new (narray nhash : Z) : outcome Table :=
  '(t, _) ← (_ ← setarrayvector narray; resizenodevector 0 nhash : tab ()) (MkTable (u8 (-1)) 0 [] [dummynode] true 0 0);
  mret t.

(** ** Traversal *)
Definition findindex (t : Table) (key : TValue) : outcome Z :=
  if ttisnil key then mret (-1) else
  let i := arrayindex key in
  if (0 <? i) && (i <=? sizearray t) then mret (i - 1) else
  mp ← mainposition t key;
  r ← chain_find (chain_fuel t) t (is_key key) mp;
  match r with Some i => mret (Z.of_nat i + sizearray t) | None => Raise InvalidKeyToNext end.
Fixpoint next_array (n : nat) (t : Table) (i : Z) : outcome (option (TValue * TValue)) :=
  match n with
  | O => mret None
  | S n => v ← of_res (bget (array t) i); if ttisnil v then next_array n t (i + 1) else mret (Some (VNumber (of_Z (i + 1)), v))
  end.
Fixpoint next_node (n : nat) (t : Table) (i : nat) : outcome (option (TValue * TValue)) :=
  match n with
  | O => mret None
  | S n => nd ← at_node i t; if ttisnil (gval nd) then next_node n t (S i) else mret (Some (gkey nd, gval nd))
  end.
(** The next key and its value. *)
Definition luaH_next (t : Table) (key : TValue) : outcome (option (TValue * TValue)) :=
  i ← findindex t key;
  let i := i + 1 in
  r ← next_array (Z.to_nat (sizearray t - i)) t i;
  match r with
  | Some kv => mret (Some kv)
  | None => let i := Z.max i (sizearray t) - sizearray t in next_node (Z.to_nat (sizenode t - i)) t (Z.to_nat i)
  end.

(** ** Boundaries *)
Definition num_value (t : Table) (key : Z) : outcome TValue := s ← luaH_getnum t key; slot_value t s.
Fixpoint linear_loop (fuel : nat) (t : Table) (i : Z) : outcome Z :=
  match fuel with
  | O => Fault NoFuel
  | S fuel => v ← num_value t (s32 i); if ttisnil v then mret (u32 (i - 1)) else linear_loop fuel t (u32 (i + 1))
  end.
(** Binary search: [absent m] says that the element at [m] is nil. *)
Fixpoint binary_loop (fuel : nat) (absent : Z -> outcome bool) (i j : Z) : outcome Z :=
  match fuel with
  | O => Fault NoFuel
  | S fuel =>
    if 1 <? u32 (j - i) then
      let m := u32 (i + j) / 2 in
      b ← absent m;
      if b : bool then binary_loop fuel absent i m else binary_loop fuel absent m j
    else mret i
  end.
Fixpoint unbound_loop (fuel : nat) (t : Table) (i j : Z) : outcome Z :=
  match fuel with
  | O => Fault NoFuel
  | S fuel =>
    v ← num_value t (s32 j);
    if ttisnil v then binary_loop 33 (fun m => v ← num_value t (s32 m); mret (ttisnil v)) i j else
    let i := j in
    let j := u32 (j * 2) in
    if MAX_INT <? j then linear_loop (S (length (array t) + length (node t))) t 1 else unbound_loop fuel t i j
  end.
Definition unbound_search (t : Table) (j : Z) : outcome Z := unbound_loop 33 t j (u32 (j + 1)).
Definition luaH_getn (t : Table) : outcome Z :=
  let j := u32 (sizearray t) in
  v ← (if 0 <? j then of_res (bget (array t) (j - 1)) else mret (VBoolean 1) : outcome TValue);
  if ttisnil v then binary_loop 33 (fun m => v ← of_res (bget (array t) (m - 1)); mret (ttisnil v)) 0 j
  else if dummy t then mret (s32 j)
  else r ← unbound_search t j; mret (s32 r).
End table.
