(* ===== verification/LuaTableChain.v ===== *)
(** The hash part of a table of LuaTable.v: keys and their main positions,
    chains of nodes, searching them, and the three ways in which a node is
    linked: behind its main position, in place of a node that is moved away,
    and at a position that is free. *)
From stdpp Require Import relations.
From S2P Require Import Prelude LuaStr LuaFormat LuaLex LuaTable.

(** What the model relies on of the comparison and the conversion of
    doubles: only zeros compare equal without being the same, and integers of
    32 bits are exact. *)
Class NumbersLaws `{Numbers} : Prop := {
  numeq_sym x y : numeq x y = numeq y x;
  numeq_trans x y z : numeq x y = true -> numeq y z = true -> numeq x z = true;
  numeq_same x y : numeq x y = true -> x = y \/ numeq x (of_Z 0) = true;
  of_Z_eq i : -2147483648 <= i < 2147483648 -> numeq (of_Z i) (of_Z i) = true;
  number2int_eq i x : -2147483648 <= i < 2147483648 -> numeq (of_Z i) x = true -> number2int x = i;
  number2int_range x : -2147483648 <= number2int x < 2147483648;
}.

(** ** Powers of two *)
Lemma twoto_pow x : 0 <= x -> twoto x = 2 ^ x.
Proof. intros. unfold twoto. by rewrite Z.shiftl_1_l. Qed.
Lemma log_2_eq x : 0 <= x < 256 -> bget log_2 x = Ok (if x =? 0 then 0 else Z.log2 x + 1).
Proof.
  intros Hx. apply (range_forallb 256 (fun x => match bget log_2 x with Ok y => y =? (if x =? 0 then 0 else Z.log2 x + 1) | Err _ => false end) 0) in Hx; [|by vm_compute].
  destruct (bget log_2 x); [|done]. apply Z.eqb_eq in Hx. by subst.
Qed.
Lemma log2_loop_eq fuel : forall x l, 0 <= x < 256 ^ (Z.of_nat fuel + 1) ->
  log2_loop (S fuel) x l = Val (l + (if x =? 0 then 0 else Z.log2 x + 1)).
Proof.
  induction fuel as [|fuel IH]; intros x l Hx; cbn [log2_loop]; destruct (Z.leb_spec 256 x) as [Hl|Hl].
  - change (256 ^ (Z.of_nat 0 + 1)) with 256 in Hx. lia.
  - by rewrite log_2_eq by lia.
  - assert (256 ^ (Z.of_nat (S fuel) + 1) = 256 ^ (Z.of_nat fuel + 1) * 256) as E by (rewrite Nat2Z.inj_succ, Z.add_succ_l, Z.pow_succ_r by lia; lia).
    change (log2_loop (S fuel) (Z.shiftr x 8) (l + 8) = Val (l + (if x =? 0 then 0 else Z.log2 x + 1))).
    assert (0 < Z.shiftr x 8 < 256 ^ (Z.of_nat fuel + 1)) as Hs.
    { rewrite Z.shiftr_div_pow2 by lia. change (2 ^ 8) with 256. split; [apply Z.div_str_pos; lia|apply Z.div_lt_upper_bound; lia]. }
    rewrite IH, (proj2 (Z.eqb_neq _ 0)), (proj2 (Z.eqb_neq x 0)), Z.log2_shiftr by lia.
    pose proof (Z.log2_le_mono 256 x Hl). change (Z.log2 256) with 8 in *. f_equal. lia.
  - by rewrite log_2_eq by lia.
Qed.
Lemma ceillog2_eq x : 1 <= x < 4294967296 -> ceillog2 x = Val (Z.log2_up x).
Proof.
  intros Hx. unfold ceillog2, luaO_log2. rewrite wrap_small by (change (2 ^ 32) with 4294967296; lia).
  rewrite (log2_loop_eq 3) by (change (256 ^ (Z.of_nat 3 + 1)) with 4294967296; lia). cbn. destruct (Z.eqb_spec (x - 1) 0) as [E|E].
  - replace x with 1 by lia. done.
  - rewrite Z.log2_up_eqn by lia. replace (Z.pred x) with (x - 1) by lia. f_equal. lia.
Qed.

Section keys.
  Context `{NumbersLaws}.
(** ** Keys *)
Notation keq := luaO_rawequalObj.
Lemma keq_sym a b : keq a b = keq b a.
Proof. destruct a, b; cbn; try done; try apply Z.eqb_sym; [apply numeq_sym|by apply bool_decide_ext|by rewrite (Z.eqb_sym tt), (Z.eqb_sym gc)]. Qed.
Lemma keq_trans a b c : keq a b = true -> keq b c = true -> keq a c = true.
Proof.
  destruct a, b; cbn; try done; destruct c; cbn; try done; intros E E'; bool_to_prop; subst; rewrite ?Z.eqb_refl; try done; [by eapply numeq_trans|].
  apply bool_decide_eq_true in E. by subst.
Qed.
Lemma keq_congr a b c : keq a b = true -> keq a c = keq b c.
Proof.
  intros E. apply eq_true_iff_eq. split; [apply keq_trans; by rewrite keq_sym|by apply keq_trans].
Qed.
Definition valid_key (k : TValue) : Prop := k <> VNil /\ keq k k = true /\ arrayindex k <> -2147483648.
Lemma of_Z_inj i j : -2147483648 <= i < 2147483648 -> -2147483648 <= j < 2147483648 -> numeq (of_Z i) (of_Z j) = true -> i = j.
Proof. intros Hi Hj E. rewrite <- (number2int_eq i (of_Z j)) by done. by rewrite (number2int_eq j) by auto using of_Z_eq. Qed.
Lemma arrayindex_of_Z i : -2147483648 <= i < 2147483648 -> arrayindex (VNumber (of_Z i)) = i.
Proof. intros Hi. cbn. rewrite (number2int_eq i) by auto using of_Z_eq. by rewrite of_Z_eq. Qed.
Lemma arrayindex_range k : -2147483648 <= arrayindex k < 2147483648.
Proof. destruct k; cbn; try lia. pose proof (number2int_range x). destruct (numeq _ _); lia. Qed.
Lemma arrayindex_inv k : arrayindex k <> -1 -> exists x, k = VNumber x /\ numeq (of_Z (arrayindex k)) x = true /\ number2int x = arrayindex k.
Proof. destruct k; cbn; try lia. destruct (numeq _ x) eqn:E; [|lia]. by exists x. Qed.
Lemma arrayindex_same k : 0 < arrayindex k -> k = VNumber (of_Z (arrayindex k)).
Proof.
  intros Hi. pose proof (arrayindex_range k) as Hr. destruct (arrayindex_inv k) as (x & -> & E & _); [lia|]. f_equal. symmetry.
  apply numeq_same in E as E'. destruct E' as [E'|E']; [done|]. apply of_Z_inj in E'; lia.
Qed.
Lemma arrayindex_keq a b : keq a b = true -> arrayindex a = arrayindex b.
Proof.
  assert (forall a b, keq a b = true -> arrayindex a <> -1 -> arrayindex a = arrayindex b) as Ha.
  { intros a' b' E Ei. destruct (arrayindex_inv a' Ei) as (x & -> & E1 & E2). destruct b'; try done. cbn in E.
    pose proof (numeq_trans _ _ _ E1 E) as E3. pose proof (arrayindex_range (VNumber x)).
    change (arrayindex (VNumber x0)) with (if numeq (of_Z (number2int x0)) x0 then number2int x0 else -1).
    rewrite (number2int_eq (arrayindex (VNumber x)) x0) by done. by rewrite E3. }
  intros E. destruct (Z.eq_dec (arrayindex a) (-1)) as [Ea|Ea]; [|by apply Ha]. destruct (Z.eq_dec (arrayindex b) (-1)) as [Eb|Eb]; [lia|].
  symmetry. apply Ha; [by rewrite keq_sym|done].
Qed.
Lemma keq_of_index k : arrayindex k <> -1 -> keq (VNumber (of_Z (arrayindex k))) k = true.
Proof. intros E. destruct (arrayindex_inv k E) as (x & -> & E1 & _). done. Qed.

(** ** Main positions *)
Definition mpos (size : Z) (key : TValue) : nat :=
  match key with
  | VNumber x => hashnum size x
  | VString s => hashpow2 size (string_hash s)
  | VBoolean b => hashpow2 size b
  | VLightUserdata p | VRotable p | VLightFunction p | VObject _ p => hashmod size (u32 p)
  | VNil => O
  end.
Lemma mainposition_eq t k : k <> VNil -> mainposition t k = Val (mpos (sizenode t) k).
Proof. by destruct k. Qed.
Lemma hashpow2_lt l n : 0 <= l -> (hashpow2 (2 ^ l) n < Z.to_nat (2 ^ l))%nat.
Proof.
  intros Hl. unfold hashpow2. replace (2 ^ l - 1) with (Z.ones l) by (rewrite Z.ones_equiv; lia). rewrite Z.land_ones by done.
  pose proof (Z.mod_pos_bound n (2 ^ l)). lia.
Qed.
Lemma hashmod_lt l n : 0 <= l -> (hashmod (2 ^ l) n < Z.to_nat (2 ^ l))%nat.
Proof.
  intros Hl. unfold hashmod. assert (1 <= Z.lor (2 ^ l - 1) 1 <= 2 ^ l) as Hm.
  { destruct (Z.eq_dec l 0) as [->|Hl0]; [by vm_compute|].
    assert (Z.lor (2 ^ l - 1) 1 = 2 ^ l - 1) as ->; [|pose proof (Z.pow_le_mono_r 2 1 l); lia].
    replace (2 ^ l - 1) with (Z.ones l) by (rewrite Z.ones_equiv; lia). change 1 with (Z.ones 1). rewrite Z.lor_comm. apply Z.bits_inj'. intros i Hi.
    rewrite Z.lor_spec, !Z.testbit_ones by lia. destruct (Z.leb_spec 0 i), (Z.ltb_spec i 1), (Z.ltb_spec i l); cbn; try done; lia. }
  pose proof (Z.mod_pos_bound n (Z.lor (2 ^ l - 1) 1)). lia.
Qed.
Lemma mpos_lt l k : 0 <= l -> (mpos (2 ^ l) k < Z.to_nat (2 ^ l))%nat.
Proof.
  intros Hl. destruct k; cbn [mpos]; auto using hashpow2_lt, hashmod_lt.
  - pose proof (Z.pow_pos_nonneg 2 l). lia.
  - unfold hashnum. destruct (numeq x _); [pose proof (Z.pow_pos_nonneg 2 l); lia|]. destruct (num_words x). auto using hashmod_lt.
Qed.
Lemma hashnum_eq size x y : numeq x y = true -> hashnum size x = hashnum size y.
Proof.
  intros E. destruct (numeq_same _ _ E) as [->|Ez]; [done|]. unfold hashnum. rewrite Ez, (numeq_trans y x); [done| |done]. by rewrite numeq_sym.
Qed.
Lemma mpos_keq size a b : keq a b = true -> mpos size a = mpos size b.
Proof.
  destruct a, b; cbn; try done; intros E; bool_to_prop; subst; try done; [by apply hashnum_eq|]. apply bool_decide_eq_true in E. by subst.
Qed.
End keys.

(** ** Links as a graph *)
Record forest (g : nat -> option nat) : Prop := MkForest {
  forest_inj a b m : g a = Some m -> g b = Some m -> a = b;
  forest_rank : exists r : nat -> nat, forall a b, g a = Some b -> (r b < r a)%nat;
}.
Definition lone (g : nat -> option nat) (f : nat) : Prop := g f = None /\ forall a, g a <> Some f.
Definition goes (g : nat -> option nat) : nat -> nat -> Prop := rtc (fun a b => g a = Some b).
Definition behind (g : nat -> option nat) (mp f : nat) : nat -> option nat :=
  fun i => if decide (i = mp) then Some f else if decide (i = f) then g mp else g i.
Definition instead (g : nat -> option nat) (o mp f : nat) : nat -> option nat :=
  fun i => if decide (i = mp) then None else if decide (i = f) then g mp else if decide (i = o) then Some f else g i.
Definition renamed (mp f a : nat) : nat := if decide (a = mp) then f else a.
Ltac dec := repeat match goal with
  | H : context [decide (?x = ?y)] |- _ => destruct (decide (x = y)); subst
  | |- context [decide (?x = ?y)] => destruct (decide (x = y)); subst
  end.
Lemma forest_self g a : forest g -> g a <> Some a.
Proof. intros [_ [r Hr]] E. apply Hr in E. lia. Qed.
Section forest.
  Variables (g : nat -> option nat) (mp f : nat).
  Hypotheses (Hg : forest g) (Hf : lone g f) (Hne : f <> mp).
Lemma behind_forest : forest (behind g mp f).
Proof.
  destruct Hf as [Hf0 Hf1], Hg as [Hi [r Hr]]. split.
  - intros a b m. unfold behind. dec; try congruence; intros; simplify_eq; try (by exfalso; eapply Hf1); eauto; exfalso; eauto.
  - exists (fun a => if decide (a = f) then (2 * r mp)%nat else S (2 * r a)). intros a b. unfold behind. dec; intros E; simplify_eq; try lia; try congruence; try (by exfalso; eapply Hf1); apply Hr in E; lia.
Qed.
Lemma behind_goes a b : goes g a b -> goes (behind g mp f) a b.
Proof.
  intros R. induction R as [|a c b E R IH]; [done|]. destruct Hf as [Hf0 Hf1].
  destruct (decide (a = mp)) as [->|Ha]; [|eapply rtc_l; [|done]; unfold behind; dec; congruence].
  eapply rtc_l; [by unfold behind; dec|]. eapply rtc_l; [|done]. by unfold behind; dec.
Qed.
Variable o : nat.
Hypothesis Ho : g o = Some mp.
Lemma instead_forest : forest (instead g o mp f).
Proof.
  destruct Hf as [Hf0 Hf1]. destruct (Hg) as [Hi [r Hr]]. split.
  - intros a b m. unfold instead. dec; try congruence; intros; simplify_eq; try (by exfalso; eapply Hf1); eauto; exfalso; eauto.
  - exists (fun a => if decide (a = f) then r mp else if decide (a = mp) then O else r a). intros a b. unfold instead. dec; intros E; simplify_eq; try (apply Hr in E as ?; lia); try congruence; eauto.
Qed.
Lemma instead_goes a b : goes g a b -> goes (instead g o mp f) (renamed mp f a) (renamed mp f b).
Proof.
  intros R. induction R as [|a c b E R IH]; [done|]. eapply rtc_l; [|exact IH]. destruct Hf as [Hf0 Hf1], Hg as [Hi _].
  unfold instead, renamed. pose proof (forest_self g mp Hg). dec; try congruence; exfalso; eauto.
Qed.
End forest.
Lemma goes_to_lone g f a : lone g f -> goes g a f -> a = f.
Proof. intros [_ Hl] R. apply rtc_inv_r in R as [?|(y & _ & E)]; [done|]. by apply Hl in E. Qed.
Lemma goes_from_lone g f a : lone g f -> goes g f a -> a = f.
Proof. intros [Hl _] R. apply rtc_inv in R as [?|(y & E & _)]; [done|]. congruence. Qed.

(** ** Chains of nodes *)
Section chains.
  Context `{NumbersLaws}.
Definition link_of (n : Node) : option nat := match gnext n with To j => Some j | _ => None end.
Definition nx (ns : list Node) (i : nat) : option nat := n ← ns !! i; link_of n.
Definition used (ns : list Node) (i : nat) (n : Node) : Prop := ns !! i = Some n /\ gkey n <> VNil.
Record chained (ns : list Node) : Prop := MkChained {
  chained_forest : forest (nx ns);
  chained_in a b : nx ns a = Some b -> exists n, used ns b n;
  chained_node a n : ns !! a = Some n -> gnext n <> Stale /\ (gkey n = VNil -> gnext n = Null /\ gval n = VNil);
}.
Lemma nx_insert ns i n j : (i < length ns)%nat -> nx (<[i := n]> ns) j = if decide (j = i) then link_of n else nx ns j.
Proof. intros Hi. unfold nx. dec; [by rewrite list_lookup_insert_eq|by rewrite list_lookup_insert_ne]. Qed.
Lemma unused_lone ns i n : chained ns -> ns !! i = Some n -> gkey n = VNil -> lone (nx ns) i.
Proof.
  intros Hc E Ek. split.
  - unfold nx. rewrite E. cbn. destruct (chained_node _ Hc _ _ E) as [_ Hn]. unfold link_of. by rewrite (proj1 (Hn Ek)).
  - intros a Ea. destruct (chained_in _ Hc _ _ Ea) as (n' & E' & Hn'). congruence.
Qed.
Lemma chain_find_visit t f (r : nat -> nat) : chained (node t) -> (forall a b, nx (node t) a = Some b -> (r b < r a)%nat) ->
  forall fuel vis i, NoDup vis -> Forall (fun a => a < length (node t) /\ r i < r a)%nat vis -> (i < length (node t))%nat -> (length (node t) < length vis + fuel)%nat ->
  (exists j n, chain_find fuel t f i = Val (Some j) /\ goes (nx (node t)) i j /\ node t !! j = Some n /\ f n = true) \/
  (chain_find fuel t f i = Val None /\ forall j n, goes (nx (node t)) i j -> node t !! j = Some n -> f n = false).
Proof.
  intros Hc Hr. induction fuel as [|fuel IH]; intros vis i Hd Hv Hi Hf.
  - exfalso. assert (length vis <= length (seq 0 (length (node t))))%nat as Hl; [|rewrite length_seq in Hl; lia].
    apply submseteq_length, NoDup_submseteq; [done|]. intros a Ha. rewrite Forall_forall in Hv. apply elem_of_seq. apply Hv in Ha. lia.
  - cbn [chain_find]. unfold at_node. destruct (lookup_lt_is_Some_2 _ _ Hi) as [n E]. rewrite E. cbn [mbind outcome_bind].
    destruct (f n) eqn:Ef; [left; exists i, n; split_and!; auto; reflexivity|].
    assert (nx (node t) i = link_of n) as Ex by (unfold nx; by rewrite E). destruct (chained_node _ Hc _ _ E) as [Hs _]. unfold link_of in Ex.
    destruct (gnext n) as [|j|]; [| |done].
    + right. split; [done|]. intros j n' R E'. apply rtc_inv in R as [->|(y & Ey & _)]; congruence.
    + destruct (IH (i :: vis) j) as [(j' & n' & -> & R & E' & Ef')|[-> Hn]].
      * apply NoDup_cons. split; [|done]. intros Hin. rewrite Forall_forall in Hv. apply Hv in Hin. lia.
      * apply Forall_cons. pose proof (Hr _ _ Ex). split; [lia|]. eapply Forall_impl; [done|]. cbn. lia.
      * destruct (chained_in _ Hc _ _ Ex) as (n' & E' & _). by apply lookup_lt_Some in E'.
      * cbn. lia.
      * left. exists j', n'. split_and!; auto. by eapply rtc_l.
      * right. split; [done|]. intros j' n' R E'. apply rtc_inv in R as [->|(y & Ey & R)]; [congruence|]. simplify_eq. eauto.
Qed.
Lemma chain_find_spec t f i : chained (node t) -> (i < length (node t))%nat ->
  (exists j n, chain_find (chain_fuel t) t f i = Val (Some j) /\ goes (nx (node t)) i j /\ node t !! j = Some n /\ f n = true) \/
  (chain_find (chain_fuel t) t f i = Val None /\ forall j n, goes (nx (node t)) i j -> node t !! j = Some n -> f n = false).
Proof.
  intros Hc Hi. destruct (forest_rank _ (chained_forest _ Hc)) as [r Hr]. apply (chain_find_visit t f r Hc Hr _ []); cbn; auto using NoDup_nil_2; unfold chain_fuel; lia.
Qed.
Lemma next_is_eq ns i n j : ns !! i = Some n -> next_is j n = true <-> nx ns i = Some j.
Proof. intros E. unfold nx, next_is, link_of. rewrite E. cbn. destruct (gnext n); try naive_solver. rewrite Nat.eqb_eq. naive_solver. Qed.
Lemma pred_loop_find fuel : forall t o mp q, chain_find fuel t (next_is mp) o = Val (Some q) -> pred_loop fuel t o mp = Val q.
Proof.
  induction fuel as [|fuel IH]; intros t o mp q; cbn; [done|]. destruct (at_node o t); cbn; try done. destruct (next_is mp a); [intros [= ->]; done|].
  destruct (gnext a); try done. apply IH.
Qed.
(** The node before [mp] on the chain from [o]. *)
Lemma find_pred t o mp : chained (node t) -> (o < length (node t))%nat -> goes (nx (node t)) o mp -> o <> mp ->
  exists q, chain_find (chain_fuel t) t (next_is mp) o = Val (Some q) /\ nx (node t) q = Some mp.
Proof.
  intros Hc Ho R Hne. destruct (chain_find_spec t (next_is mp) o Hc Ho) as [(q & n & E & _ & En & Hq)|[_ Hn]].
  - exists q. split; [done|]. by apply (next_is_eq _ _ n).
  - apply rtc_inv_r in R as [?|(y & R & E)]; [done|]. exfalso. destruct (node t !! y) as [n|] eqn:Ey; [|unfold nx in E; by rewrite Ey in E].
    rewrite <- (next_is_eq _ _ n) in E by done. rewrite (Hn _ _ R Ey) in E. done.
Qed.
Lemma find_no_pred t o mp : chained (node t) -> (o < length (node t))%nat -> (forall q, nx (node t) q <> Some mp) ->
  chain_find (chain_fuel t) t (next_is mp) o = Val None.
Proof.
  intros Hc Ho Hq. destruct (chain_find_spec t (next_is mp) o Hc Ho) as [(q & n & E & _ & En & Hq')|[-> _]]; [|done].
  apply (next_is_eq (node t) q) in Hq'; [by apply Hq in Hq'|done].
Qed.

(** ** Linking nodes *)
Lemma forest_ext g g' : (forall i, g' i = g i) -> forest g -> forest g'.
Proof.
  intros E [Hi [r Hr]]. split; [intros a b m; rewrite !E; apply Hi|]. exists r. intros a b. rewrite E. apply Hr.
Qed.
Lemma goes_ext g g' a b : (forall i, g' i = g i) -> goes g a b -> goes g' a b.
Proof. intros E R. induction R as [|a c b Ea R IH]; [done|]. eapply rtc_l; [|done]. by rewrite E. Qed.
Lemma chained_intro ns g : forest g -> (forall i, nx ns i = g i) -> (forall a b, g a = Some b -> exists n, used ns b n) ->
  (forall a n, ns !! a = Some n -> gnext n <> Stale /\ (gkey n = VNil -> gnext n = Null /\ gval n = VNil)) -> chained ns.
Proof. intros Hg E Hin Hn. split; [by eapply forest_ext|intros a b; rewrite E; apply Hin|done]. Qed.
Lemma used_insert ns i x b n : (i < length ns)%nat -> gkey x <> VNil -> used ns b n -> exists n', used (<[i := x]> ns) b n'.
Proof. intros Hi Hx [E Hn]. unfold used. setoid_rewrite list_lookup_insert. case_decide; eauto. Qed.
Lemma link_chained ns mp f m k v (ns' := <[mp := MkNode (gval m) (gkey m) (To f)]> (<[f := MkNode v k (gnext m)]> ns)) :
  chained ns -> used ns mp m -> (f < length ns)%nat -> f <> mp -> lone (nx ns) f -> k <> VNil ->
  chained ns' /\ forall i, nx ns' i = behind (nx ns) mp f i.
Proof.
  intros Hc [Em Hm] Hf Hne Hl Hk. assert (mp < length ns)%nat as Hmp by by apply lookup_lt_Some in Em.
  assert (forall i, nx ns' i = behind (nx ns) mp f i) as E.
  { intros i. unfold ns', behind. rewrite !nx_insert by (rewrite ?length_insert; lia). dec; try done. unfold nx. by rewrite Em. }
  split; [|done]. eapply chained_intro; [apply behind_forest; [apply Hc|exact Hl|exact Hne]|exact E| |].
  - assert (forall b n, used ns b n -> exists n', used ns' b n') as Hu.
    { intros b n Hb. eapply used_insert in Hb as [n1 Hb]; [eapply used_insert in Hb; [exact Hb|..]|..]; rewrite ?length_insert; try done. }
    intros a b. unfold behind. dec; intros Eb; simplify_eq; try (apply (chained_in _ Hc) in Eb as [n' Hb]; by eapply Hu).
    exists (MkNode v k (gnext m)). split; [|done]. unfold ns'. by rewrite list_lookup_insert_ne, list_lookup_insert_eq by auto.
  - destruct (chained_node _ Hc _ _ Em) as [Hs _]. intros a n. unfold ns'. rewrite !list_lookup_insert. repeat case_decide; intros Ea; simplify_eq; [by split|by split|]. by apply (chained_node _ Hc) in Ea.
Qed.
Lemma move_chained ns o mp f no m x (ns' := <[mp := x]> (<[f := m]> (<[o := MkNode (gval no) (gkey no) (To f)]> ns))) :
  chained ns -> ns !! o = Some no -> nx ns o = Some mp -> used ns mp m -> (f < length ns)%nat -> f <> mp -> lone (nx ns) f -> gkey x <> VNil -> gnext x = Null ->
  chained ns' /\ forall i, nx ns' i = instead (nx ns) o mp f i.
Proof.
  intros Hc Eo Ho [Em Hm] Hf Hne Hl Hx Hx'. assert (mp < length ns)%nat as Hmp by by apply lookup_lt_Some in Em.
  assert (o < length ns)%nat as Hol by by apply lookup_lt_Some in Eo.
  assert (o <> mp) as Hom by (intros ->; by apply (forest_self (nx ns) mp) in Ho; [|apply Hc]). assert (o <> f) as Hof by (intros ->; destruct Hl; congruence).
  assert (forall i, nx ns' i = instead (nx ns) o mp f i) as E.
  { intros i. unfold ns', instead. rewrite !nx_insert by (rewrite ?length_insert; lia). unfold link_of at 1. rewrite Hx'. dec; try done. unfold nx. by rewrite Em. }
  assert (gkey no <> VNil) as Hno. { intros Ek. apply (unused_lone _ _ _ Hc Eo) in Ek as [? _]. congruence. }
  split; [|done]. eapply chained_intro; [apply instead_forest; [apply Hc|exact Hl|exact Hne|exact Ho]|exact E| |].
  - assert (forall b n, used ns b n -> exists n', used ns' b n') as Hu.
    { intros b n Hb. eapply used_insert in Hb as [n1 Hb]; [eapply used_insert in Hb as [n2 Hb]; [eapply used_insert in Hb; [exact Hb|..]|..]|..]; rewrite ?length_insert; try done. }
    intros a b. unfold instead. dec; intros Eb; simplify_eq; try (apply (chained_in _ Hc) in Eb as [n' Hb]; by eapply Hu).
    exists m. split; [|done]. unfold ns'. by rewrite list_lookup_insert_ne, list_lookup_insert_eq by (rewrite ?length_insert; auto).
  - intros a n. unfold ns'. rewrite !list_lookup_insert. repeat case_decide; intros Ea; simplify_eq; [by rewrite Hx'| |by split|].
    + by apply (chained_node _ Hc) in Em.
    + by apply (chained_node _ Hc) in Ea.
Qed.
Lemma put_lone_chained ns i x : chained ns -> (i < length ns)%nat -> lone (nx ns) i -> gnext x = Null -> (gkey x = VNil -> gval x = VNil) ->
  chained (<[i := x]> ns) /\ forall j, nx (<[i := x]> ns) j = nx ns j.
Proof.
  intros Hc Hi [Hl Hl'] Hx Hv. assert (forall j, nx (<[i := x]> ns) j = nx ns j) as E.
  { intros j. rewrite nx_insert by done. dec; [|done]. unfold link_of. by rewrite Hx. }
  split; [|done]. eapply chained_intro; [apply Hc|exact E| |].
  - intros a b Eb. assert (b <> i) as Hb by naive_solver. apply (chained_in _ Hc) in Eb as (n & En & Hn). exists n. split; [|done]. by rewrite list_lookup_insert_ne.
  - intros a n. rewrite list_lookup_insert. case_decide; intros Ea; simplify_eq; [rewrite Hx; auto|]. by apply (chained_node _ Hc) in Ea.
Qed.
Lemma put_key_chained ns i n v k : chained ns -> ns !! i = Some n -> k <> VNil ->
  chained (<[i := MkNode v k (gnext n)]> ns) /\ forall j, nx (<[i := MkNode v k (gnext n)]> ns) j = nx ns j.
Proof.
  intros Hc En Hk. assert (i < length ns)%nat as Hi by by apply lookup_lt_Some in En.
  assert (forall j, nx (<[i := MkNode v k (gnext n)]> ns) j = nx ns j) as E.
  { intros j. rewrite nx_insert by done. dec; [|done]. unfold nx. by rewrite En. }
  split; [|done]. eapply chained_intro; [apply Hc|exact E| |].
  - intros a b Eb. apply (chained_in _ Hc) in Eb as (n' & Hb). by eapply used_insert in Hb.
  - intros a n'. rewrite list_lookup_insert. case_decide; intros Ea; simplify_eq; [|by apply (chained_node _ Hc) in Ea].
    split; [|done]. by apply (chained_node _ Hc) in En as [? _].
Qed.

(** ** Keys at home

    The key [k] at [j] is on the chain [g] of its main position, where there is
    a key whose main position this is. *)
Definition homed (size : Z) (g : nat -> option nat) (ks : list TValue) (j : nat) (k : TValue) : Prop :=
  goes g (mpos size k) j /\ exists k', ks !! mpos size k = Some k' /\ k' <> VNil /\ mpos size k' = mpos size k.
Lemma homed_ext size g g' ks j k : (forall i, g' i = g i) -> homed size g ks j k -> homed size g' ks j k.
Proof. intros E [R Hk]. split; [by eapply goes_ext|done]. Qed.
Lemma homed_at_home size g ks j k : ks !! j = Some k -> k <> VNil -> mpos size k = j -> homed size g ks j k.
Proof. intros E Hk <-. split; [apply rtc_refl|by exists k]. Qed.
(** Another key at a place where nothing is at home. *)
Lemma homed_put size g ks j k f kf : homed size g ks j k -> (forall k', ks !! f = Some k' -> k' <> VNil -> mpos size k' <> f) ->
  homed size g (<[f := kf]> ks) j k.
Proof.
  intros [R (k' & E & Hk' & Em)] Hf. split; [done|]. exists k'. split; [|done].
  rewrite list_lookup_insert_ne; [done|]. intros Ef. apply (Hf k'); congruence.
Qed.
(** Another key at home where it is put. *)
Lemma homed_put_home size g ks j k f kf : homed size g ks j k -> (f < length ks)%nat -> kf <> VNil -> mpos size kf = f ->
  homed size g (<[f := kf]> ks) j k.
Proof.
  intros [R (k' & E & Hk' & Em)] Hf Hn Ef. split; [done|]. destruct (decide (f = mpos size k)) as [E1|Hne].
  - exists kf. subst f. split_and!; auto. rewrite E1. apply list_lookup_insert_eq. congruence.
  - exists k'. by rewrite list_lookup_insert_ne.
Qed.
Section homed.
  Variables (size : Z) (g : nat -> option nat) (ks : list TValue) (mp f : nat).
  Hypotheses (Hg : forest g) (Hf : lone g f) (Hne : f <> mp) (Hlen : (f < length ks)%nat).
  Hypothesis Hnf : forall k', ks !! f = Some k' -> k' <> VNil -> mpos size k' <> f.
Lemma homed_behind j k kf : homed size g ks j k -> homed size (behind g mp f) (<[f := kf]> ks) j k.
Proof. intros Hj. apply homed_put; [|done]. destruct Hj as [R Hj]. split; [by apply behind_goes|done]. Qed.
Lemma homed_new_behind k km : ks !! mp = Some km -> km <> VNil -> mpos size km = mp -> mpos size k = mp -> homed size (behind g mp f) (<[f := k]> ks) f k.
Proof.
  intros E Hk Em Ek. unfold homed. rewrite Ek. split.
  - apply rtc_once. unfold behind. by dec.
  - exists km. by rewrite list_lookup_insert_ne.
Qed.
Variables (o : nat) (km k : TValue).
Hypotheses (Ho : g o = Some mp) (Hmp : ks !! mp = Some km) (Hkm : mpos size km <> mp) (Hk : k <> VNil) (Ek : mpos size k = mp).
Lemma homed_instead j k' : j <> mp -> homed size g ks j k' -> homed size (instead g o mp f) (<[mp := k]> (<[f := km]> ks)) j k'.
Proof.
  intros Hj [R (k2 & E & Hk2 & Em)]. assert (mpos size k' <> mp) as Hm1 by congruence. assert (mpos size k' <> f) as Hm2 by (intros E'; apply (Hnf k2); congruence). split.
  - apply (instead_goes _ _ _ Hg Hf Hne _ Ho) in R. revert R. unfold renamed. by dec.
  - exists k2. by rewrite !list_lookup_insert_ne by done.
Qed.
Lemma homed_moved : homed size g ks mp km -> homed size (instead g o mp f) (<[mp := k]> (<[f := km]> ks)) f km.
Proof.
  intros [R (k2 & E & Hk2 & Em)]. assert (mpos size km <> f) as Hm2 by (intros E'; apply (Hnf k2); congruence). split.
  - apply (instead_goes _ _ _ Hg Hf Hne _ Ho) in R. revert R. unfold renamed. by dec.
  - exists k2. by rewrite !list_lookup_insert_ne by done.
Qed.
Lemma homed_new_instead : homed size (instead g o mp f) (<[mp := k]> (<[f := km]> ks)) mp k.
Proof. apply homed_at_home; [|done|done]. apply list_lookup_insert_eq. rewrite length_insert. by apply lookup_lt_Some in Hmp. Qed.
End homed.
End chains.
