(* ===== verification/LuaTableHash.v ===== *)
(** Tables of LuaTable.v as associations: the entries of a table, the
    invariant [wf], and searching, storing and inserting without a rehash. *)
From stdpp Require Import relations.
From S2P Require Import Prelude LuaStr LuaFormat LuaLex LuaTable LuaTableChain.

Section hash.
  Context `{NumbersLaws}.
Notation keq := luaO_rawequalObj.
(** ** Entries *)
Definition entry (k v : TValue) : list (TValue * TValue) := if ttisnil v then [] else [(k, v)].
Definition node_entries (ns : list Node) : list (TValue * TValue) := ns ≫= fun n => entry (gkey n) (gval n).
Fixpoint array_entries (i : Z) (l : list TValue) : list (TValue * TValue) :=
  match l with [] => [] | v :: l => entry (VNumber (of_Z i)) v ++ array_entries (i + 1) l end.
Definition live (t : Table) : list (TValue * TValue) := array_entries 1 (take (Z.to_nat (sizearray t)) (array t)) ++ node_entries (node t).
Lemma elem_of_entry p k v : p ∈ entry k v <-> p = (k, v) /\ v <> VNil.
Proof. unfold entry. destruct v; cbn; set_solver. Qed.
Lemma elem_of_node_entries p ns : p ∈ node_entries ns <-> exists i n, ns !! i = Some n /\ p = (gkey n, gval n) /\ gval n <> VNil.
Proof.
  unfold node_entries. rewrite list_elem_of_bind. setoid_rewrite elem_of_entry. setoid_rewrite list_elem_of_lookup. naive_solver.
Qed.
Lemma elem_of_array_entries p l : forall i, p ∈ array_entries i l <-> exists (j : nat) v, l !! j = Some v /\ p = (VNumber (of_Z (i + Z.of_nat j)), v) /\ v <> VNil.
Proof.
  induction l as [|w l IH]; intros i; cbn [array_entries]; [set_solver|]. rewrite elem_of_app, elem_of_entry, IH. split.
  - intros [[-> Hw]|(j & v & E & -> & Hv)]; [exists O, w; by rewrite Z.add_0_r|]. exists (S j), v. replace (i + Z.of_nat (S j)) with (i + 1 + Z.of_nat j) by lia. by split_and!.
  - intros ([|j] & v & E & -> & Hv); [left; cbn in E; simplify_eq; by rewrite Z.add_0_r|]. right. exists j, v. replace (i + Z.of_nat (S j)) with (i + 1 + Z.of_nat j) by lia. by split_and!.
Qed.
Lemma node_entries_insert ns i n : ns !! i = Some n -> exists rest, node_entries ns ≡ₚ entry (gkey n) (gval n) ++ rest /\
  (forall n', node_entries (<[i := n']> ns) ≡ₚ entry (gkey n') (gval n') ++ rest) /\
  (forall p, p ∈ rest -> exists j m, j <> i /\ ns !! j = Some m /\ p = (gkey m, gval m) /\ gval m <> VNil).
Proof.
  intros E. pose proof (lookup_lt_Some _ _ _ E) as Hi. exists (node_entries (take i ns) ++ node_entries (drop (S i) ns)). split_and!.
  - rewrite <- (take_drop_middle ns i n E) at 1. unfold node_entries. rewrite bind_app, bind_cons. solve_Permutation.
  - intros n'. rewrite insert_take_drop by done. unfold node_entries. rewrite bind_app, bind_cons. solve_Permutation.
  - intros p. rewrite elem_of_app, !elem_of_node_entries. intros [(j & m & Ej & Hm)|(j & m & Ej & Hm)].
    + apply lookup_take_Some in Ej as [Ej Hj]. exists j, m. split; [lia|done].
    + rewrite lookup_drop in Ej. exists (S i + j)%nat, m. split; [lia|done].
Qed.
Lemma array_entries_app l1 l2 : forall i, array_entries i (l1 ++ l2) = array_entries i l1 ++ array_entries (i + Zlen l1) l2.
Proof.
  induction l1 as [|v l1 IH]; intros i; cbn [array_entries app]; [by rewrite Zlen_nil, Z.add_0_r|].
  rewrite IH, Zlen_cons, <- app_assoc. do 3 f_equal. lia.
Qed.
Lemma array_entries_insert b l i v : l !! i = Some v -> exists rest, array_entries b l ≡ₚ entry (VNumber (of_Z (b + Z.of_nat i))) v ++ rest /\
  (forall v', array_entries b (<[i := v']> l) ≡ₚ entry (VNumber (of_Z (b + Z.of_nat i))) v' ++ rest) /\
  (forall p, p ∈ rest -> exists (j : nat) w, j <> i /\ l !! j = Some w /\ p = (VNumber (of_Z (b + Z.of_nat j)), w) /\ w <> VNil).
Proof.
  intros E. pose proof (lookup_lt_Some _ _ _ E) as Hi. exists (array_entries b (take i l) ++ array_entries (b + Z.of_nat i + 1) (drop (S i) l)).
  assert (Zlen (take i l) = Z.of_nat i) as El by (unfold Zlen; rewrite length_take; lia). split_and!.
  - rewrite <- (take_drop_middle l i v E) at 1. rewrite array_entries_app, El. cbn [array_entries]. solve_Permutation.
  - intros v'. rewrite insert_take_drop by done. rewrite array_entries_app, El. cbn [array_entries]. solve_Permutation.
  - intros p. rewrite elem_of_app, !elem_of_array_entries. intros [(j & w & Ej & Hp)|(j & w & Ej & Hp)].
    + apply lookup_take_Some in Ej as [Ej Hj]. exists j, w. split; [lia|done].
    + rewrite lookup_drop in Ej. exists (S i + j)%nat, w. replace (b + Z.of_nat (S i + j)) with (b + Z.of_nat i + 1 + Z.of_nat j) by lia. split; [lia|done].
Qed.

(** ** The invariant *)
Definition in_array (t : Table) (k : TValue) : bool := (0 <? arrayindex k) && (arrayindex k <=? sizearray t).
Definition keys (ns : list Node) : list TValue := gkey <$> ns.
Definition keyed (ks : list TValue) (i : nat) (k : TValue) : Prop := ks !! i = Some k /\ k <> VNil.
Definition all_homed (size : Z) (g : nat -> option nat) (ks : list TValue) : Prop := forall j k, keyed ks j k -> homed size g ks j k.
Definition unique_keys (ks : list TValue) : Prop := forall i j a b, keyed ks i a -> keyed ks j b -> keq a b = true -> i = j.
Record wf (t : Table) : Prop := MkWf {
  wf_size : 0 <= sizearray t <= MAXASIZE;
  wf_array : sizearray t <= Zlen (array t);
  wf_lsize : 0 <= lsizenode t <= MAXBITS;
  wf_node : Zlen (node t) = 2 ^ lsizenode t;
  wf_dummy : dummy t = true -> node t = [dummynode];
  wf_free : lastfree t <= if dummy t then 0 else Zlen (node t);
  wf_chained : chained (node t);
  wf_homed : all_homed (sizenode t) (nx (node t)) (keys (node t));
  wf_unique : unique_keys (keys (node t));
  wf_keys i k : keyed (keys (node t)) i k -> valid_key k /\ in_array t k = false;
}.
Lemma wf_nonempty t : wf t -> (0 < length (node t))%nat.
Proof. intros Hw. pose proof (wf_node _ Hw). pose proof (wf_lsize _ Hw). pose proof (Z.pow_pos_nonneg 2 (lsizenode t)). unfold Zlen in *. lia. Qed.
Lemma wf_mpos t k : wf t -> (mpos (sizenode t) k < length (node t))%nat.
Proof.
  intros Hw. pose proof (wf_node _ Hw) as E. pose proof (wf_lsize _ Hw). unfold sizenode. rewrite twoto_pow by lia. unfold Zlen in E.
  pose proof (mpos_lt (lsizenode t) k). lia.
Qed.
Lemma used_keyed ns i n : used ns i n -> keyed (keys ns) i (gkey n).
Proof. intros [E Hn]. split; [|done]. unfold keys. by rewrite list_lookup_fmap, E. Qed.
Lemma keyed_used ns i k : keyed (keys ns) i k -> exists n, used ns i n /\ gkey n = k.
Proof. intros [E Hk]. apply list_lookup_fmap_Some in E as (n & -> & E). by exists n. Qed.
Lemma keys_same ns i n v l : ns !! i = Some n -> keys (<[i := MkNode v (gkey n) l]> ns) = keys ns.
Proof. intros E. unfold keys. rewrite list_fmap_insert. cbn. apply list_insert_id. by rewrite list_lookup_fmap, E. Qed.
Lemma key_at ns i n : ns !! i = Some n -> keys ns !! i = Some (gkey n).
Proof. intros E. unfold keys. by rewrite list_lookup_fmap, E. Qed.
Lemma keys_insert ns i n : keys (<[i := n]> ns) = <[i := gkey n]> (keys ns).
Proof. apply list_fmap_insert. Qed.
Lemma keys_length ns : length (keys ns) = length ns.
Proof. apply length_fmap. Qed.
Lemma in_array_spec t k : in_array t k = true <-> 0 < arrayindex k <= sizearray t.
Proof. unfold in_array. rewrite andb_true_iff, Z.ltb_lt, Z.leb_le. done. Qed.
Lemma in_array_keq t a b : keq a b = true -> in_array t a = in_array t b.
Proof. intros E. unfold in_array. by rewrite (arrayindex_keq _ _ E). Qed.

(** ** Searching *)
Lemma chain_find_ext fuel : forall t f g i, (forall n, f n = g n) -> chain_find fuel t f i = chain_find fuel t g i.
Proof.
  induction fuel as [|fuel IH]; intros t f g i E; cbn; [done|]. destruct (at_node i t); cbn; try done. rewrite E.
  destruct (g a); [done|]. destruct (gnext a); auto.
Qed.
Definition find_key (t : Table) (k : TValue) : outcome slot :=
  r ← chain_find (chain_fuel t) t (is_key k) (mpos (sizenode t) k); mret (found r).
Lemma getnum_eq t key : 0 <= sizearray t <= MAXASIZE -> -2147483648 < key < 2147483648 ->
  luaH_getnum t key = if (0 <? key) && (key <=? sizearray t) then Val (SArray (key - 1)) else find_key t (VNumber (of_Z key)).
Proof.
  intros Hs Hk. unfold luaH_getnum. rewrite int32_ok by lia. cbn [of_res mbind outcome_bind]. change MAXASIZE with 67108864 in Hs.
  assert ((u32 (key - 1) <? u32 (sizearray t)) = (0 <? key) && (key <=? sizearray t)) as ->.
  { rewrite (wrap_small 32 (sizearray t)) by (change (2 ^ 32) with 4294967296; lia). destruct (Z.ltb_spec 0 key).
    - rewrite (wrap_small 32 (key - 1)) by (change (2 ^ 32) with 4294967296; lia). apply eq_true_iff_eq. rewrite andb_true_l, Z.ltb_lt, Z.leb_le. lia.
    - rewrite andb_false_l. apply Z.ltb_ge. unfold wrap. change (2 ^ 32) with 4294967296. rewrite <- (Z.mod_unique (key - 1) 4294967296 (-1) (key - 1 + 4294967296)); lia. }
  destruct (_ && _); [done|]. unfold find_key. erewrite chain_find_ext; [done|]. intros n. unfold is_number, is_key. by destruct (gkey n).
Qed.
Lemma getnum_key t x k : wf t -> arrayindex (VNumber x) = k -> numeq (of_Z k) x = true -> k <> -2147483648 ->
  luaH_getnum t k = if in_array t (VNumber x) then Val (SArray (k - 1)) else find_key t (VNumber x).
Proof.
  intros Hw Ea Ex Hk. pose proof (arrayindex_range (VNumber x)). rewrite getnum_eq by (try apply Hw; lia). unfold in_array. rewrite Ea.
  destruct (_ && _); [done|]. unfold find_key. cbn [mpos]. rewrite (hashnum_eq _ _ _ Ex). erewrite chain_find_ext; [done|].
  intros n. unfold is_key. rewrite (keq_sym _ (VNumber (of_Z k))), (keq_sym _ (VNumber x)). by apply keq_congr.
Qed.
Lemma luaH_get_eq t k : wf t -> valid_key k -> luaH_get t k = if in_array t k then Val (SArray (arrayindex k - 1)) else find_key t k.
Proof.
  intros Hw (Hn & Hk & Hm). destruct k; try done.
  cbn [luaH_get]. destruct (numeq (of_Z (number2int x)) x) eqn:E.
  - assert (arrayindex (VNumber x) = number2int x) as Ea by (cbn; by rewrite E). rewrite Ea. apply getnum_key; auto; congruence.
  - unfold in_array. cbn [arrayindex]. rewrite E. done.
Qed.
(** What a search gives for the key [k]. *)
Definition slot_for (t : Table) (s : slot) (k : TValue) : Prop :=
  match s with
  | SArray i => in_array t k = true /\ i = arrayindex k - 1
  | SNode j => in_array t k = false /\ exists n, used (node t) j n /\ keq (gkey n) k = true
  | SNil => False
  end.
Definition absent (t : Table) (k : TValue) : Prop := in_array t k = false /\ forall j n, used (node t) j n -> keq (gkey n) k = false.
Lemma find_key_spec t k : wf t -> k <> VNil -> in_array t k = false -> exists s, find_key t k = Val s /\ (slot_for t s k \/ s = SNil /\ absent t k).
Proof.
  intros Hw Hn Ha. unfold find_key. destruct (chain_find_spec t (is_key k) (mpos (sizenode t) k) (wf_chained _ Hw) (wf_mpos _ _ Hw)) as [(j & n & -> & _ & En & Hk)|[-> Hk]].
  - exists (SNode j). split; [done|]. left. split; [done|]. exists n. split; [|done]. split; [done|]. unfold is_key in Hk. by destruct (gkey n), k.
  - exists SNil. split; [done|]. right. split; [done|]. split; [done|]. intros j n Hu. destruct (keq (gkey n) k) eqn:E; [|done].
    destruct (wf_homed _ Hw _ _ (used_keyed _ _ _ Hu)) as [R _]. rewrite (mpos_keq _ _ _ E) in R. destruct Hu as [En _]. specialize (Hk _ _ R En). unfold is_key in Hk. congruence.
Qed.
Lemma luaH_get_spec t k : wf t -> valid_key k -> exists s, luaH_get t k = Val s /\ (slot_for t s k \/ s = SNil /\ absent t k).
Proof.
  intros Hw Hk. rewrite luaH_get_eq by done. destruct (in_array t k) eqn:Ea; [exists (SArray (arrayindex k - 1)); split; [done|left; by split]|].
  apply find_key_spec; [done|apply Hk|done].
Qed.

(** ** Entries are distinct *)
Lemma live_array_key t k v : (exists i n, used (node t) i n /\ keq (gkey n) k = true) -> wf t ->
  (k, v) ∉ array_entries 1 (take (Z.to_nat (sizearray t)) (array t)).
Proof.
  intros (i & n & Hu & E) Hw Hin. apply elem_of_array_entries in Hin as (j & w & Ej & [= -> ->] & _).
  destruct (wf_keys _ Hw _ _ (used_keyed _ _ _ Hu)) as [_ Ha]. apply lookup_take_Some in Ej as [_ Hj]. pose proof (wf_size _ Hw) as Hs. change MAXASIZE with 67108864 in Hs.
  rewrite (in_array_keq _ _ _ E) in Ha. assert (in_array t (VNumber (of_Z (1 + Z.of_nat j))) = true); [|congruence].
  apply in_array_spec. rewrite arrayindex_of_Z by lia. lia.
Qed.
(** The entry of a slot, and the others. *)
Definition split_at (t : Table) (k : TValue) (v : TValue) (k' : TValue) (rest : list (TValue * TValue)) : Prop :=
  keq k' k = true /\ live t ≡ₚ entry k' v ++ rest /\ Forall (fun p => keq p.1 k = false) rest.
Lemma node_slot_split t j n k : wf t -> used (node t) j n -> keq (gkey n) k = true -> exists rest, split_at t k (gval n) (gkey n) rest /\
  forall v l, live (set_node (<[j := MkNode v (gkey n) l]> (node t)) false t) ≡ₚ entry (gkey n) v ++ rest.
Proof.
  intros Hw Hu E. destruct Hu as [En Hn]. destruct (node_entries_insert _ _ _ En) as (rest & E1 & E2 & Hr).
  exists (array_entries 1 (take (Z.to_nat (sizearray t)) (array t)) ++ rest). split.
  - split; [done|]. split; [unfold live; rewrite E1; solve_Permutation|]. apply Forall_forall. intros [k1 v1]. rewrite elem_of_app. intros [Hin|Hin]; cbn.
    + destruct (keq k1 k) eqn:E'; [|done]. exfalso. eapply live_array_key, Hin; [|done]. exists j, n. split; [done|].
      rewrite keq_sym in E'. by eapply keq_trans.
    + destruct (Hr _ Hin) as (i & m & Hi & Em & [= -> ->] & Hv). destruct (keq (gkey m) k) eqn:E'; [|done]. destruct Hi.
      apply (wf_unique _ Hw _ _ (gkey m) (gkey n)); [apply used_keyed; split; [done|]|by apply used_keyed|rewrite keq_sym in E; by eapply keq_trans].
      intros Hk. by apply (chained_node _ (wf_chained _ Hw) _ _ Em) in Hk as [_ ?].
  - intros v l. unfold live. cbn. rewrite E2. cbn. solve_Permutation.
Qed.
Lemma array_slot_split t k : wf t -> in_array t k = true -> exists v rest, bget (array t) (arrayindex k - 1) = Ok v /\ split_at t k v k rest /\
  forall v', live (set_array (<[Z.to_nat (arrayindex k - 1) := v']> (array t)) t) ≡ₚ entry k v' ++ rest.
Proof.
  intros Hw Ha. apply in_array_spec in Ha as Hi. pose proof (wf_size _ Hw) as Hs. pose proof (wf_array _ Hw) as Hl. change MAXASIZE with 67108864 in Hs. unfold Zlen in Hl.
  destruct (lookup_lt_is_Some_2 (array t) (Z.to_nat (arrayindex k - 1)) ltac:(lia)) as [v E].
  destruct (array_entries_insert 1 (take (Z.to_nat (sizearray t)) (array t)) (Z.to_nat (arrayindex k - 1)) v) as (rest & E1 & E2 & Hr).
  { rewrite lookup_take. case_decide; [done|lia]. }
  replace (1 + Z.of_nat (Z.to_nat (arrayindex k - 1))) with (arrayindex k) in * by lia. rewrite <- (arrayindex_same k) in * by lia.
  exists v, (rest ++ node_entries (node t)). split_and!.
  - apply bget_Ok. split; [lia|done].
  - split; [rewrite (arrayindex_same k) by lia; cbn; apply of_Z_eq; lia|]. split; [unfold live; rewrite E1; solve_Permutation|].
    apply Forall_forall. intros [k1 v1]. rewrite elem_of_app, elem_of_node_entries. intros [Hin|(i & m & Em & [= -> ->] & Hv)]; cbn [fst].
    + destruct (Hr _ Hin) as (j & w & Hj & Ej & [= -> ->] & _). destruct (keq _ k) eqn:E'; [|done]. apply lookup_take_Some in Ej as [_ Hj'].
      apply arrayindex_keq in E'. rewrite arrayindex_of_Z in E' by lia. lia.
    + destruct (keq (gkey m) k) eqn:E'; [|done]. assert (used (node t) i m) as Hu.
      { split; [done|]. intros Hk. by apply (chained_node _ (wf_chained _ Hw) _ _ Em) in Hk as [_ ?]. }
      apply used_keyed, (wf_keys _ Hw) in Hu as [_ Hu]. rewrite (in_array_keq _ _ _ E') in Hu. congruence.
  - intros v'. unfold live. cbn. rewrite take_insert_lt by lia. rewrite E2. solve_Permutation.
Qed.

(** ** Steps of the table's monad *)
Lemma tab_step {A B} (m : tab A) (f : A -> tab B) t t' a : m t = Val (t', a) -> mbind f m t = f a t'.
Proof. intros E. unfold mbind, tab_bind. by rewrite E. Qed.
Lemma reads_step {A B} (m : Table -> outcome A) (f : A -> tab B) t a : m t = Val a -> mbind f (reads_table m) t = f a t.
Proof. intros E. apply tab_step. unfold reads_table. by rewrite E. Qed.
Lemma asks_step {A B} (g : Table -> A) (f : A -> tab B) t : mbind f (asks g) t = f (g t) t.
Proof. done. Qed.
Lemma modify_step {B} g (f : () -> tab B) t : mbind f (modify g) t = f () (g t).
Proof. done. Qed.
Lemma get_node_at t i n : node t !! i = Some n -> get_node i t = Val (t, n).
Proof. intros E. unfold get_node, reads_table, at_node. by rewrite E. Qed.
Lemma put_node_at t i n : dummy t = false -> (i < length (node t))%nat -> put_node i n t = Val (set_node (<[i := n]> (node t)) false t, ()).
Proof. intros Hd Hi. unfold put_node. destruct (lookup_lt_is_Some_2 _ _ Hi) as [m E]. by rewrite Hd, E. Qed.
Lemma put_field_at t i n (f : Node -> Node) : dummy t = false -> node t !! i = Some n ->
  (n ← get_node i; put_node i (f n)) t = Val (set_node (<[i := f n]> (node t)) false t, ()).
Proof.
  intros Hd E. rewrite (tab_step _ _ _ _ _ (get_node_at _ _ _ E)). apply put_node_at; [done|]. by apply lookup_lt_Some in E.
Qed.
Lemma put_val_at t i n v : dummy t = false -> node t !! i = Some n -> put_val i v t = Val (set_node (<[i := MkNode v (gkey n) (gnext n)]> (node t)) false t, ()).
Proof. intros Hd E. by apply (put_field_at t i n (fun n => MkNode v (gkey n) (gnext n))). Qed.
Lemma put_key_at t i n k : dummy t = false -> node t !! i = Some n -> put_key i k t = Val (set_node (<[i := MkNode (gval n) k (gnext n)]> (node t)) false t, ()).
Proof. intros Hd E. by apply (put_field_at t i n (fun n => MkNode (gval n) k (gnext n))). Qed.
Lemma put_next_at t i n l : dummy t = false -> node t !! i = Some n -> put_next i l t = Val (set_node (<[i := MkNode (gval n) (gkey n) l]> (node t)) false t, ()).
Proof. intros Hd E. by apply (put_field_at t i n (fun n => MkNode (gval n) (gkey n) l)). Qed.

(** ** Storing *)
Lemma wf_set_array t a : wf t -> Zlen a = Zlen (array t) -> wf (set_array a t).
Proof. intros [] E. split; cbn; rewrite ?E; done. Qed.
Lemma wf_set_node t ns : wf t -> dummy t = false -> length ns = length (node t) -> chained ns -> all_homed (sizenode t) (nx ns) (keys ns) ->
  unique_keys (keys ns) -> (forall i k, keyed (keys ns) i k -> valid_key k /\ in_array t k = false) -> wf (set_node ns false t).
Proof.
  intros [] Hd El Hc Hh Hu Hk. rewrite Hd in *. assert (Zlen ns = Zlen (node t)) as E by (unfold Zlen; by rewrite El).
  split; cbn; rewrite ?E; done.
Qed.
Lemma wf_not_dummy t i n : wf t -> used (node t) i n -> dummy t = false.
Proof.
  intros Hw [E Hn]. destruct (dummy t) eqn:Ed; [|done]. rewrite (wf_dummy _ Hw Ed) in E. destruct i; [|done]. cbn in E. by simplify_eq.
Qed.
Lemma all_homed_ext size g g' ks : (forall i, g' i = g i) -> all_homed size g ks -> all_homed size g' ks.
Proof. intros E Hh j k Hk. eapply homed_ext, Hh; done. Qed.
Lemma wf_put_val t j n v : wf t -> used (node t) j n -> wf (set_node (<[j := MkNode v (gkey n) (gnext n)]> (node t)) false t).
Proof.
  intros Hw Hu. pose proof (wf_not_dummy _ _ _ Hw Hu) as Hd. destruct Hu as [En Hn].
  destruct (put_key_chained (node t) j n v (gkey n) (wf_chained _ Hw) En Hn) as [Hc Hx].
  apply wf_set_node; rewrite ?length_insert, ?(keys_same _ _ _ _ _ En); [done..| |by apply wf_unique|by apply wf_keys].
  eapply all_homed_ext; [exact Hx|]. by apply wf_homed.
Qed.
(** The array part behind its size is not touched. *)
Definition rest_of_array (t : Table) : list TValue := drop (Z.to_nat (sizearray t)) (array t).
Lemma put_slot_spec t s k : wf t -> slot_for t s k -> exists v0 k' rest, slot_value t s = Val v0 /\ split_at t k v0 k' rest /\
  forall v, exists t', put_slot s v t = Val (t', ()) /\ wf t' /\ live t' ≡ₚ entry k' v ++ rest /\ sizearray t' = sizearray t /\ rest_of_array t' = rest_of_array t /\ Zlen (array t') = Zlen (array t).
Proof.
  intros Hw Hs. destruct s as [i|j|]; [| |done]; cbn in Hs.
  - destruct Hs as [Ha ->]. destruct (array_slot_split t k Hw Ha) as (v0 & rest & E & Hsp & El). exists v0, k, rest. cbn [slot_value]. rewrite E. split_and!; [done..|].
    intros v. assert (0 <= arrayindex k - 1 < Zlen (array t)) as Hi.
    { apply in_array_spec in Ha. pose proof (wf_array _ Hw). lia. }
    eexists. cbn [put_slot]. unfold put_array. rewrite bset_in by done. split; [done|]. split_and!; [|apply El|done| |cbn; by rewrite Zlen_insert].
    + apply wf_set_array; [done|]. by rewrite Zlen_insert.
    + unfold rest_of_array. cbn. apply in_array_spec in Ha. apply drop_insert_lt. lia.
  - destruct Hs as (Ha & n & Hu & E). destruct (node_slot_split t j n k Hw Hu E) as (rest & Hsp & El). exists (gval n), (gkey n), rest.
    pose proof (wf_not_dummy _ _ _ Hw Hu) as Hd. destruct (Hu) as [En _]. split; [cbn [slot_value]; unfold at_node; by rewrite En|]. split; [done|].
    intros v. eexists. split; [by apply put_val_at|]. split_and!; [by apply wf_put_val|apply El|done..].
Qed.

(** ** Free positions *)
Lemma wf_set_lastfree t l : wf t -> l <= lastfree t -> wf (set_lastfree l t).
Proof. intros [] Hl. split; cbn; try done. lia. Qed.
Lemma wf_set_flags t x : wf t -> wf (set_flags x t).
Proof. by intros []. Qed.
Lemma free_loop_spec fuel : forall t, lastfree t <= Zlen (node t) -> Z.max 0 (lastfree t) < Z.of_nat fuel ->
  exists l r, free_loop fuel t = Val (set_lastfree l t, r) /\ l < lastfree t /\
  match r with
  | Some f => l = Z.of_nat f /\ (exists n, node t !! f = Some n /\ gkey n = VNil) /\ (forall i n, (f < i)%nat -> Z.of_nat i < lastfree t -> node t !! i = Some n -> gkey n <> VNil)
  | None => forall i n, Z.of_nat i < lastfree t -> node t !! i = Some n -> gkey n <> VNil
  end.
Proof.
  induction fuel as [|fuel IH]; intros t Hl Hf; [lia|]. cbn [free_loop]. rewrite asks_step, modify_step.
  destruct (Z.ltb_spec 0 (lastfree t)) as [Hp|Hp]; [|exists (lastfree t - 1), None; split_and!; [done|lia|lia]].
  destruct (lookup_lt_is_Some_2 (node t) (Z.to_nat (lastfree t - 1))) as [n En]; [unfold Zlen in Hl; lia|].
  rewrite (tab_step _ _ _ _ _ (get_node_at (set_lastfree (lastfree t - 1) t) _ _ En)). destruct (ttisnil (gkey n)) eqn:Ek.
  - exists (lastfree t - 1), (Some (Z.to_nat (lastfree t - 1))). split_and!; [done|lia|lia| |lia]. exists n. split; [done|]. by destruct (gkey n).
  - destruct (IH (set_lastfree (lastfree t - 1) t)) as (l & r & E & Hl' & Hr); [cbn; lia..|]. cbn in Hl', Hr. exists l, r. split; [exact E|]. split; [lia|].
    assert (gkey n <> VNil) as Hk by by destruct (gkey n).
    assert (forall i m, Z.of_nat i < lastfree t -> (Z.of_nat i < lastfree t - 1 -> node t !! i = Some m -> gkey m <> VNil) -> node t !! i = Some m -> gkey m <> VNil) as Hi.
    { intros i m Hi Hm Em. destruct (decide (Z.of_nat i = lastfree t - 1)) as [Ei|]; [|apply Hm; [lia|done]].
      replace i with (Z.to_nat (lastfree t - 1)) in Em by lia. congruence. }
    destruct r as [f|]; [|eauto]. destruct Hr as (-> & Hn & Hr). split_and!; [done|done|]. eauto.
Qed.
Lemma getfreepos_spec t : lastfree t <= Zlen (node t) -> exists l r, getfreepos t = Val (set_lastfree l t, r) /\ l < lastfree t /\
  match r with
  | Some f => l = Z.of_nat f /\ (exists n, node t !! f = Some n /\ gkey n = VNil) /\ (forall i n, (f < i)%nat -> Z.of_nat i < lastfree t -> node t !! i = Some n -> gkey n <> VNil)
  | None => forall i n, Z.of_nat i < lastfree t -> node t !! i = Some n -> gkey n <> VNil
  end.
Proof. intros Hl. unfold getfreepos. rewrite asks_step. apply free_loop_spec; lia. Qed.

(** ** Insertion without a rehash *)
Lemma keyed_insert ks f k i a : keyed (<[f := k]> ks) i a -> i = f /\ a = k \/ i <> f /\ keyed ks i a.
Proof. unfold keyed. rewrite list_lookup_insert. case_decide as E; [destruct E; naive_solver|]. intros [Ea Ha]. destruct (decide (i = f)) as [->|]; [|by right]. apply lookup_lt_Some in Ea. naive_solver. Qed.
Lemma unique_put ks f k : unique_keys ks -> (forall i a, keyed ks i a -> keq a k = false) -> unique_keys (<[f := k]> ks).
Proof.
  intros Hu Hk i j a b Ha Hb E. apply keyed_insert in Ha as [[-> ->]|[Hi Ha]]; apply keyed_insert in Hb as [[-> ->]|[Hj Hb]]; [done| | |by eapply Hu].
  - apply Hk in Hb. rewrite keq_sym in E. congruence.
  - apply Hk in Ha. congruence.
Qed.
Lemma unique_move ks mp f km k : unique_keys ks -> ks !! mp = Some km -> f <> mp -> (forall i a, keyed ks i a -> keq a k = false) ->
  unique_keys (<[mp := k]> (<[f := km]> ks)).
Proof.
  intros Hu Em Hne Hk i j a b Ha Hb E.
  assert (forall i a, keyed (<[mp := k]> (<[f := km]> ks)) i a -> i = mp /\ a = k \/ i = f /\ keyed ks mp a \/ i <> f /\ i <> mp /\ keyed ks i a) as Hc.
  { clear -Em Hne. intros i a Ha. pose proof (proj2 Ha) as Hn. apply keyed_insert in Ha as [?|[Hi Ha]]; [by left|right].
    apply keyed_insert in Ha as [[-> ->]|[Hf Ha]]; [by left|by right]. }
  destruct (Hc _ _ Ha) as [[-> ->]|[[-> Ha']|(Hi & Hi' & Ha')]], (Hc _ _ Hb) as [[-> ->]|[[-> Hb']|(Hj & Hj' & Hb')]]; try done;
    try (apply Hk in Hb'; rewrite keq_sym in E; congruence); try (apply Hk in Ha'; congruence).
  - by destruct (Hu _ _ _ _ Ha' Hb' E).
  - by destruct (Hu _ _ _ _ Ha' Hb' E).
  - by eapply Hu.
Qed.
Definition inserted (t t' : Table) (j : nat) (k : TValue) : Prop :=
  wf t' /\ live t' ≡ₚ live t /\ slot_for t' (SNode j) k /\ slot_value t' (SNode j) = Val VNil /\
  sizearray t' = sizearray t /\ array t' = array t /\ length (node t') = length (node t) /\ dummy t' = false.
Lemma inserted_intro t ns j k n : wf (set_node ns false t) -> node_entries ns ≡ₚ node_entries (node t) -> ns !! j = Some n -> gkey n = k -> gval n = VNil ->
  valid_key k -> in_array t k = false -> length ns = length (node t) -> inserted t (set_node ns false t) j k.
Proof.
  intros Hw El En <- Ev (Hk & Hkk & _) Ha Hl. split_and!; try done.
  - unfold live. cbn. by rewrite El.
  - split; [done|]. by exists n.
  - cbn. unfold at_node. cbn. rewrite En. cbn. by rewrite Ev.
Qed.
Lemma node_entries_same ns i n n' : ns !! i = Some n -> entry (gkey n') (gval n') = entry (gkey n) (gval n) -> node_entries (<[i := n']> ns) ≡ₚ node_entries ns.
Proof. intros E En. destruct (node_entries_insert _ _ _ E) as (rest & -> & E2 & _). by rewrite E2, En. Qed.
Lemma node_entries_swap ns a b x y x' y' : a <> b -> ns !! a = Some x -> ns !! b = Some y ->
  entry (gkey x') (gval x') = entry (gkey y) (gval y) -> entry (gkey y') (gval y') = entry (gkey x) (gval x) ->
  node_entries (<[a := x']> (<[b := y']> ns)) ≡ₚ node_entries ns.
Proof.
  intros Hne Ex Ey E1 E2. destruct (node_entries_insert ns b y Ey) as (r1 & Eb & Eb' & _). specialize (Eb' y'). rewrite E2 in Eb'.
  destruct (node_entries_insert (<[b := y']> ns) a x) as (r2 & Ea & Ea' & _); [by rewrite list_lookup_insert_ne|]. rewrite Ea', E1, Eb. apply Permutation_app_head.
  rewrite Eb' in Ea. by apply Permutation_app_inv_l in Ea.
Qed.
Section cases.
  Variables (t : Table) (k : TValue) (m : Node).
Let ns := node t.
Let mp := mpos (sizenode t) k.
  Hypotheses (Hw : wf t) (Hk : valid_key k) (Ha : absent t k) (Hd : dummy t = false) (Em : ns !! mp = Some m).
Lemma absent_keyed i a : keyed (keys ns) i a -> keq a k = false.
Proof. intros Hi. apply keyed_used in Hi as (n & Hu & <-). by eapply (proj2 Ha). Qed.
Lemma home_of_inserted : valid_key k /\ in_array t k = false.
Proof. split; [done|apply Ha]. Qed.
Lemma insert_free : gval m = VNil -> inserted t (set_node (<[mp := MkNode (gval m) k (gnext m)]> ns) false t) mp k.
Proof.
  intros Ev. pose proof (lookup_lt_Some _ _ _ Em) as Hl. destruct (put_key_chained ns mp m (gval m) k (wf_chained _ Hw) Em (proj1 Hk)) as [Hc Hx].
  eapply inserted_intro; [| |by apply list_lookup_insert_eq|done|done|done|apply Ha|by rewrite length_insert].
  - apply wf_set_node; [done|done|by rewrite length_insert|done|..]; rewrite keys_insert; cbn.
    + eapply all_homed_ext; [exact Hx|]. intros j k' Hj. apply keyed_insert in Hj as [[-> ->]|[Hj Hu]].
      * apply homed_at_home; [|apply Hk|done]. apply list_lookup_insert_eq. by rewrite keys_length.
      * apply homed_put_home; [by apply (wf_homed _ Hw)|by rewrite keys_length|apply Hk|done].
    + apply unique_put; [apply (wf_unique _ Hw)|apply absent_keyed].
    + intros i k' Hi. apply keyed_insert in Hi as [[-> ->]|[_ Hi]]; [apply home_of_inserted|by eapply (wf_keys _ Hw)].
  - apply (node_entries_same _ _ m); [done|]. cbn. rewrite Ev. done.
Qed.
Variables (f : nat) (n : Node).
Hypotheses (Ef : ns !! f = Some n) (Hn : gkey n = VNil) (Hv : gval m <> VNil).
Lemma target_used : used ns mp m.
Proof. split; [done|]. intros E. by apply (chained_node _ (wf_chained _ Hw) _ _ Em) in E as [_ ?]. Qed.
Lemma free_other : f <> mp.
Proof. intros ->. destruct target_used. congruence. Qed.
Lemma free_lone : lone (nx ns) f.
Proof. by eapply unused_lone; [apply (wf_chained _ Hw)|..]. Qed.
Lemma free_no_home k' : keys ns !! f = Some k' -> k' <> VNil -> mpos (sizenode t) k' <> f.
Proof. rewrite (key_at ns _ _ Ef), Hn. congruence. Qed.
Lemma insert_behind : mpos (sizenode t) (gkey m) = mp ->
  inserted t (set_node (<[mp := MkNode (gval m) (gkey m) (To f)]> (<[f := MkNode VNil k (gnext m)]> ns)) false t) f k.
Proof.
  intros Eh. pose proof (lookup_lt_Some _ _ _ Em) as Hl. pose proof (lookup_lt_Some _ _ _ Ef) as Hf. pose proof target_used as Hu. pose proof free_other as Hne.
  destruct (link_chained ns mp f m k VNil (wf_chained _ Hw) Hu Hf Hne free_lone (proj1 Hk)) as [Hc Hx].
  assert (keys (<[mp := MkNode (gval m) (gkey m) (To f)]> (<[f := MkNode VNil k (gnext m)]> ns)) = <[f := k]> (keys ns)) as Ek.
  { rewrite keys_same by (by rewrite list_lookup_insert_ne). apply keys_insert. }
  eapply inserted_intro; [| |rewrite list_lookup_insert_ne by done; by apply list_lookup_insert_eq|done|done|done|apply Ha|by rewrite !length_insert].
  - apply wf_set_node; [done|done|by rewrite !length_insert|done|..]; rewrite Ek.
    + eapply all_homed_ext; [exact Hx|]. intros j k' Hj. apply keyed_insert in Hj as [[-> ->]|[Hj Hj']].
      * eapply (homed_new_behind _ _ _ _ _ free_lone Hne); [by rewrite keys_length|apply free_no_home|by apply key_at|apply Hu|done|done].
      * apply (homed_behind _ _ _ _ _ free_lone Hne); [apply free_no_home|]. by apply (wf_homed _ Hw).
    + apply unique_put; [apply (wf_unique _ Hw)|apply absent_keyed].
    + intros i k' Hi. apply keyed_insert in Hi as [[-> ->]|[_ Hi]]; [apply home_of_inserted|by eapply (wf_keys _ Hw)].
  - rewrite (node_entries_same _ mp m); [|by rewrite list_lookup_insert_ne|done]. apply (node_entries_same _ _ n); [done|].
    cbn. by rewrite (proj2 (proj2 (chained_node _ (wf_chained _ Hw) _ _ Ef) Hn)).
Qed.
Variables (o : nat) (no : Node).
Hypotheses (Eo : ns !! o = Some no) (Ho : nx ns o = Some mp) (Hm : mpos (sizenode t) (gkey m) <> mp).
Lemma insert_instead : inserted t (set_node (<[mp := MkNode VNil k Null]> (<[f := m]> (<[o := MkNode (gval no) (gkey no) (To f)]> ns))) false t) mp k.
Proof.
  pose proof (lookup_lt_Some _ _ _ Em) as Hl. pose proof (lookup_lt_Some _ _ _ Ef) as Hf. pose proof target_used as Hu. pose proof free_other as Hne.
  assert (o <> f) as Hof by (intros ->; destruct free_lone; congruence).
  assert (o <> mp) as Hom. { intros E. apply (forest_self (nx ns) mp); [apply (wf_chained _ Hw)|]. by rewrite <- E at 1. }
  destruct (move_chained ns o mp f no m (MkNode VNil k Null) (wf_chained _ Hw) Eo Ho Hu Hf Hne free_lone (proj1 Hk) eq_refl) as [Hc Hx].
  assert (keys (<[mp := MkNode VNil k Null]> (<[f := m]> (<[o := MkNode (gval no) (gkey no) (To f)]> ns))) = <[mp := k]> (<[f := gkey m]> (keys ns))) as Ek.
  { rewrite !keys_insert. cbn. do 2 f_equal. apply list_insert_id. by apply key_at. }
  pose proof (chained_forest _ (wf_chained _ Hw)) as Hg. pose proof (key_at ns _ _ Em) as Ekm.
  eapply inserted_intro; [| |apply list_lookup_insert_eq; by rewrite !length_insert|done|done|done|apply Ha|by rewrite !length_insert].
  - apply wf_set_node; [done|done|by rewrite !length_insert|done|..]; rewrite Ek.
    + eapply all_homed_ext; [exact Hx|]. intros j k' Hj. apply keyed_insert in Hj as [[-> ->]|[Hj Hj']]; [|apply keyed_insert in Hj' as [[-> ->]|[Hj2 Hj']]].
      * eapply homed_new_instead; [done|apply Hk|done].
      * eapply (homed_moved _ _ _ _ _ Hg free_lone Hne free_no_home); try done. apply (wf_homed _ Hw). by apply used_keyed.
      * eapply (homed_instead _ _ _ _ _ Hg free_lone Hne free_no_home); try done. by apply (wf_homed _ Hw).
    + apply unique_move; [apply (wf_unique _ Hw)|done|done|apply absent_keyed].
    + intros i k' Hi. apply keyed_insert in Hi as [[-> ->]|[_ Hi]]; [apply home_of_inserted|]. apply keyed_insert in Hi as [[-> ->]|[_ Hi]]; [|by eapply (wf_keys _ Hw)].
      eapply (wf_keys _ Hw). by apply used_keyed.
  - rewrite (node_entries_swap _ mp f m n); [| |by rewrite list_lookup_insert_ne..| |done].
    + by apply (node_entries_same _ _ no).
    + by apply not_eq_sym.
    + cbn. by rewrite (proj2 (proj2 (chained_node _ (wf_chained _ Hw) _ _ Ef) Hn)).
Qed.
End cases.

(** Room for [n] keys below [lastfree], with everything behind it in use. *)
Fixpoint spare (ks : list TValue) : nat := match ks with [] => O | k :: ks => ((if ttisnil k then 1 else 0) + spare ks)%nat end.
Definition ample (t : Table) : Prop := forall i k, lastfree t <= Z.of_nat i -> keys (node t) !! i = Some k -> k <> VNil.
Definition spacious (n : nat) (t : Table) : Prop := ample t /\ (n <= spare (keys (node t)))%nat.
Lemma spare_insert_S k' ks i k : spare (<[S i := k]> (k' :: ks)) = ((if ttisnil k' then 1 else 0) + spare (<[i := k]> ks))%nat.
Proof. done. Qed.
Lemma spare_insert ks i k : (spare ks <= S (spare (<[i := k]> ks)))%nat.
Proof.
  revert i. induction ks as [|k' ks IH]; intros i; [cbn; lia|]. destruct i as [|i]; [cbn; destruct (ttisnil k'), (ttisnil k); lia|].
  rewrite spare_insert_S. cbn [spare]. specialize (IH i). lia.
Qed.
Lemma spare_insert_used ks i k' k : ks !! i = Some k' -> k' <> VNil -> (spare ks <= spare (<[i := k]> ks))%nat.
Proof.
  revert i. induction ks as [|k2 ks IH]; intros i E Hk; [done|]. destruct i as [|i]; [cbn in *; simplify_eq; destruct k'; cbn; done || lia|].
  rewrite spare_insert_S. cbn [spare]. specialize (IH i E Hk). lia.
Qed.
Lemma spare_exists ks : (0 < spare ks)%nat -> exists i, ks !! i = Some VNil.
Proof.
  induction ks as [|k ks IH]; cbn; [lia|]. intros Hl. destruct (ttisnil k) eqn:E; [exists O; cbn; by destruct k|].
  destruct IH as [i Ei]; [lia|]. by exists (S i).
Qed.
Lemma ample_insert (ks : list TValue) (l : Z) f k : (forall i k, l <= Z.of_nat i -> ks !! i = Some k -> k <> VNil) -> k <> VNil ->
  forall i k', l <= Z.of_nat i -> <[f := k]> ks !! i = Some k' -> k' <> VNil.
Proof. intros Ha Hk i k' Hi. rewrite list_lookup_insert. case_decide; [naive_solver|]. by apply Ha. Qed.
Lemma ample_free t f k : ample t -> (forall i n, (f < i)%nat -> Z.of_nat i < lastfree t -> node t !! i = Some n -> gkey n <> VNil) -> k <> VNil -> (f < length (node t))%nat ->
  forall i k', Z.of_nat f <= Z.of_nat i -> <[f := k]> (keys (node t)) !! i = Some k' -> k' <> VNil.
Proof.
  intros Ha Hf Hk Hl i k' Hi. rewrite list_lookup_insert. case_decide as E; [naive_solver|]. intros Ek. rewrite keys_length in E. assert (f <> i) by tauto.
  destruct (decide (Z.of_nat i < lastfree t)); [|by apply (Ha i k'); [lia|]]. apply list_lookup_fmap_Some in Ek as (n & -> & En). apply (Hf i n); [lia|done|done].
Qed.
Lemma spacious_put t t' mp k : k <> VNil -> lastfree t' = lastfree t -> keys (node t') = <[mp := k]> (keys (node t)) -> forall n, spacious (S n) t -> spacious n t'.
Proof.
  intros Hk El Ek n [Ha Hn]. split; [|rewrite Ek; pose proof (spare_insert (keys (node t)) mp k); lia].
  intros i k'. rewrite El, Ek. by apply ample_insert.
Qed.
Lemma spacious_take t t' f k : k <> VNil -> lastfree t' = Z.of_nat f -> (f < length (node t))%nat ->
  (forall i n, (f < i)%nat -> Z.of_nat i < lastfree t -> node t !! i = Some n -> gkey n <> VNil) ->
  keys (node t') = <[f := k]> (keys (node t)) -> forall n, spacious (S n) t -> spacious n t'.
Proof.
  intros Hk El Hf Hb Ek n [Ha Hn]. split; [|rewrite Ek; pose proof (spare_insert (keys (node t)) f k); lia].
  intros i k'. rewrite El, Ek. by apply ample_free.
Qed.
Lemma spacious_move t t' f mp km k : k <> VNil -> km <> VNil -> f <> mp -> lastfree t' = Z.of_nat f -> (f < length (node t))%nat ->
  (forall i n, (f < i)%nat -> Z.of_nat i < lastfree t -> node t !! i = Some n -> gkey n <> VNil) -> keys (node t) !! mp = Some km ->
  keys (node t') = <[mp := k]> (<[f := km]> (keys (node t))) -> forall n, spacious (S n) t -> spacious n t'.
Proof.
  intros Hk Hkm Hne El Hf Hb Em Ek n [Ha Hn]. split.
  - intros i k'. rewrite El, Ek. apply ample_insert; [|done]. by apply ample_free.
  - rewrite Ek. pose proof (spare_insert (keys (node t)) f km). pose proof (spare_insert_used (<[f := km]> (keys (node t))) mp km k) as Hu.
    rewrite list_lookup_insert_ne in Hu by done. specialize (Hu Em Hkm). lia.
Qed.
Lemma spacious_not_full t n : spacious (S n) t -> (forall i n, Z.of_nat i < lastfree t -> node t !! i = Some n -> gkey n <> VNil) -> False.
Proof.
  intros [Ha Hn] Hf. destruct (spare_exists (keys (node t))) as [i Ei]; [lia|]. destruct (decide (Z.of_nat i < lastfree t)).
  - apply list_lookup_fmap_Some in Ei as (m & Em & E). by eapply Hf in E.
  - by eapply (Ha i VNil); [lia|..].
Qed.
Lemma wf_free_len t : wf t -> lastfree t <= Zlen (node t).
Proof. intros Hw. pose proof (wf_free _ Hw). pose proof (wf_nonempty _ Hw). unfold Zlen in *. destruct (dummy t); lia. Qed.
Lemma link_code t mp m f n k : dummy t = false -> node t !! mp = Some m -> node t !! f = Some n -> f <> mp ->
  (x ← (_ ← put_next f (gnext m); _ ← put_next mp (To f); mret f : tab nat); _ ← put_key x k; mret (SNode x)) t =
  Val (set_node (<[mp := MkNode (gval m) (gkey m) (To f)]> (<[f := MkNode (gval n) k (gnext m)]> (node t))) false t, SNode f).
Proof.
  intros Hd Em Ef Hne. pose proof (lookup_lt_Some _ _ _ Ef) as Hf.
  set (t1 := set_node (<[f := MkNode (gval n) (gkey n) (gnext m)]> (node t)) false t).
  assert (node t1 !! mp = Some m) as Em1 by by (cbn; rewrite list_lookup_insert_ne).
  set (t2 := set_node (<[mp := MkNode (gval m) (gkey m) (To f)]> (node t1)) false t1).
  assert (node t2 !! f = Some (MkNode (gval n) (gkey n) (gnext m))) as Ef2 by (cbn; rewrite list_lookup_insert_ne by done; by apply list_lookup_insert_eq).
  rewrite (tab_step _ _ t t2 f).
  - rewrite (tab_step _ _ _ _ _ (put_key_at t2 f _ k eq_refl Ef2)). cbn. unfold mret, tab_ret. do 2 f_equal. unfold set_node. cbn. f_equal.
    by rewrite list_insert_insert_ne, list_insert_insert_eq by done.
  - rewrite (tab_step _ _ _ _ _ (put_next_at t f n (gnext m) Hd Ef)). by rewrite (tab_step _ _ _ _ _ (put_next_at t1 mp m (To f) eq_refl Em1)).
Qed.
Lemma move_code t mp m f o no k other : dummy t = false -> node t !! mp = Some m -> (f < length (node t))%nat -> f <> mp -> node t !! o = Some no -> o <> mp ->
  pred_loop (chain_fuel t) t other mp = Val o ->
  (x ← (o ← reads_table (fun t => pred_loop (chain_fuel t) t other mp);
        _ ← put_next o (To f); m ← get_node mp; _ ← put_node f m; _ ← put_next mp Null; _ ← put_val mp VNil; mret mp : tab nat);
   _ ← put_key x k; mret (SNode x)) t =
  Val (set_node (<[mp := MkNode VNil k Null]> (<[f := m]> (<[o := MkNode (gval no) (gkey no) (To f)]> (node t)))) false t, SNode mp).
Proof.
  intros Hd Em Hf Hne Eo Hom Ep. pose proof (lookup_lt_Some _ _ _ Em) as Hl.
  set (t1 := set_node (<[o := MkNode (gval no) (gkey no) (To f)]> (node t)) false t).
  assert (node t1 !! mp = Some m) as Em1 by by (cbn; rewrite list_lookup_insert_ne).
  assert (f < length (node t1))%nat as Hf1 by by (cbn; rewrite length_insert).
  set (t2 := set_node (<[f := m]> (node t1)) false t1).
  assert (node t2 !! mp = Some m) as Em2 by by (cbn; rewrite list_lookup_insert_ne).
  set (t3 := set_node (<[mp := MkNode (gval m) (gkey m) Null]> (node t2)) false t2).
  assert (mp < length (node t2))%nat as Hl2 by by (cbn; rewrite !length_insert).
  assert (node t3 !! mp = Some (MkNode (gval m) (gkey m) Null)) as Em3 by by (apply list_lookup_insert_eq).
  set (t4 := set_node (<[mp := MkNode VNil (gkey m) Null]> (node t3)) false t3).
  assert (node t4 !! mp = Some (MkNode VNil (gkey m) Null)) as Em4 by (apply list_lookup_insert_eq; cbn; by rewrite !length_insert).
  rewrite (tab_step _ _ t t4 mp).
  - rewrite (tab_step _ _ _ _ _ (put_key_at t4 mp _ k eq_refl Em4)). cbn. unfold mret, tab_ret. do 2 f_equal. unfold set_node. cbn. f_equal.
    by rewrite !list_insert_insert_eq.
  - rewrite (reads_step _ _ _ _ Ep), (tab_step _ _ _ _ _ (put_next_at t o no (To f) Hd Eo)), (tab_step _ _ _ _ _ (get_node_at t1 _ _ Em1)).
    rewrite (tab_step _ _ _ _ _ (put_node_at t1 f m eq_refl Hf1)), (tab_step _ _ _ _ _ (put_next_at t2 mp m Null eq_refl Em2)).
    by rewrite (tab_step _ _ _ _ _ (put_val_at t3 mp _ VNil eq_refl Em3)).
Qed.
(** Insertion, but for a rehash when there is no free position. *)
Lemma newkey_cases nk t k : wf t -> valid_key k -> absent t k ->
  (exists t' j, newkey_body nk k t = Val (t', SNode j) /\ inserted t t' j k /\ forall n, spacious (S n) t -> spacious n t') \/
  (exists l, newkey_body nk k t = (_ ← rehash nk k; set_with nk k) (set_lastfree l t) /\ l < lastfree t /\
     forall i n, Z.of_nat i < lastfree t -> node t !! i = Some n -> gkey n <> VNil).
Proof.
  intros Hw Hk Ha. set (mp := mpos (sizenode t) k). destruct (lookup_lt_is_Some_2 _ _ (wf_mpos t k Hw)) as [m Em]. fold mp in Em.
  unfold newkey_body, main_of. rewrite (reads_step _ _ t mp) by (apply mainposition_eq, Hk). rewrite (tab_step _ _ _ _ _ (get_node_at _ _ _ Em)), asks_step.
  destruct (negb (ttisnil (gval m)) || dummy t) eqn:Ec.
  2:{ apply orb_false_iff in Ec as [Ev Ed]. left. eexists _, mp. rewrite (tab_step _ _ _ _ _ (put_key_at _ _ _ k Ed Em)). split; [done|].
    split; [apply insert_free; try done; by destruct (gval m)|]. eapply spacious_put; [apply Hk|done|apply keys_insert]. }
  destruct (getfreepos_spec t (wf_free_len _ Hw)) as (l & r & Eg & Hlt & Hr). rewrite (tab_step _ _ _ _ _ Eg). clear Eg.
  destruct r as [f|]; [|right; by exists l]. left. destruct Hr as (-> & (n & Ef & Hn) & Hb). pose proof (lookup_lt_Some _ _ _ Ef) as Hf.
  assert (dummy t = false) as Hd. { destruct (dummy t) eqn:Ed; [|done]. pose proof (wf_free _ Hw) as Hfr. rewrite Ed in Hfr. lia. }
  assert (gval m <> VNil) as Hv. { rewrite Hd, orb_false_r in Ec. by destruct (gval m). }
  set (t1 := set_lastfree (Z.of_nat f) t). assert (wf t1) as Hw1 by (apply wf_set_lastfree; [done|lia]).
  pose proof (target_used t1 k m Hw1 Em Hv) as Hu. pose proof (free_other t1 k m Hw1 Em f n Ef Hn Hv) as Hne.
  rewrite (reads_step _ _ t1 (mpos (sizenode t1) (gkey m))) by (apply mainposition_eq, Hu). destruct (Nat.eqb_spec (mpos (sizenode t1) (gkey m)) mp) as [Eh|Eh]; cbn [negb].
  - eexists _, f. split; [by apply (link_code t1 mp m f n)|]. rewrite (proj2 (proj2 (chained_node _ (wf_chained _ Hw) _ _ Ef) Hn)). split; [by eapply (insert_behind t1)|].
    eapply (spacious_take t _ f k); [apply Hk|done|done|done|]. cbn [node set_node t1 set_lastfree]. rewrite keys_same by (by rewrite list_lookup_insert_ne). apply keys_insert.
  - destruct (wf_homed _ Hw1 _ _ (used_keyed _ _ _ Hu)) as [R _].
    destruct (find_pred t1 _ mp (wf_chained _ Hw1) (wf_mpos t1 _ Hw1) R Eh) as (o & Eo & Ho). apply pred_loop_find in Eo.
    destruct (node t1 !! o) as [no|] eqn:Eno; [|unfold nx in Ho; by rewrite Eno in Ho].
    eexists _, mp. split; [eapply (move_code t1 mp m f o no); try done|split; [by eapply (insert_instead t1)|]].
    + intros ->. by apply (forest_self _ mp (chained_forest _ (wf_chained _ Hw1))) in Ho.
    + eapply (spacious_move t _ f mp (gkey m) k); [apply Hk|apply Hu|done|done|done|done|by apply key_at|]. cbn [node set_node t1 set_lastfree]. rewrite !keys_insert.
      cbn [gkey]. do 2 f_equal. apply list_insert_id. by apply key_at.
Qed.
End hash.
