(* ===== verification/LuaTablePlace.v ===== *)
(** The second loop of resize_hashpart in LuaTable.v: nodes without links are
    moved to their main positions, or onto the chains of these. *)
From stdpp Require Import relations.
From S2P Require Import Prelude LuaStr LuaFormat LuaLex LuaTable LuaTableChain LuaTableHash.

Section place.
  Context `{NumbersLaws}.
Notation keq := luaO_rawequalObj.
(** ** Moving nodes to their main positions *)
Definition clean (ns : list Node) : Prop := forall j n, ns !! j = Some n -> gval n = VNil -> gkey n = VNil.
(** Below [i] every key is on the chain of its main position, and from [i] on
    a key that is not is linked to nothing. *)
Record placing (i : nat) (t : Table) : Prop := MkPlacing {
  pl_dummy : dummy t = false;
  pl_lsize : 0 <= lsizenode t <= MAXBITS;
  pl_node : Zlen (node t) = 2 ^ lsizenode t;
  pl_chained : chained (node t);
  pl_clean : clean (node t);
  pl_unique : unique_keys (keys (node t));
  pl_homed j k : keyed (keys (node t)) j k -> homed (sizenode t) (nx (node t)) (keys (node t)) j k \/ (i <= j)%nat /\ lone (nx (node t)) j;
}.
Definition rearranged (t t' : Table) : Prop := exists ns, t' = set_node ns false t /\ length ns = length (node t) /\ node_entries ns ≡ₚ node_entries (node t) /\
  forall j k, keyed (keys ns) j k -> exists j', keyed (keys (node t)) j' k.
Lemma rearranged_refl t : dummy t = false -> rearranged t t.
Proof. intros Hd. exists (node t). split_and!; try done; [|eauto]. destruct t; cbn in *; by subst. Qed.
Lemma rearranged_trans t1 t2 t3 : rearranged t1 t2 -> rearranged t2 t3 -> rearranged t1 t3.
Proof.
  intros (ns & -> & El & Ep & Ek) (ns' & -> & El' & Ep' & Ek'). cbn in *. exists ns'. split_and!; [done|congruence|by rewrite Ep', Ep|].
  intros j k Hk. apply Ek' in Hk as [j' Hk]. eauto.
Qed.
Lemma keyed_swap ks a b ka kb i x : ks !! a = Some ka -> ks !! b = Some kb -> a <> b -> keyed (<[a := kb]> (<[b := ka]> ks)) i x ->
  i = a /\ keyed ks b x \/ i = b /\ keyed ks a x \/ i <> a /\ i <> b /\ keyed ks i x.
Proof.
  intros Ea Eb Hne Hx. pose proof (proj2 Hx) as Hn. apply keyed_insert in Hx as [[-> ->]|[Hi Hx]]; [by left|right].
  apply keyed_insert in Hx as [[-> ->]|[Hi' Hx]]; [by left|by right].
Qed.
Lemma unique_swap ks a b ka kb : ks !! a = Some ka -> ks !! b = Some kb -> a <> b -> unique_keys ks -> unique_keys (<[a := kb]> (<[b := ka]> ks)).
Proof.
  intros Ea Eb Hne Hu i j x y Hx Hy E.
  destruct (keyed_swap _ _ _ _ _ _ _ Ea Eb Hne Hx) as [[-> Hx']|[[-> Hx']|(Hi & Hi' & Hx')]], (keyed_swap _ _ _ _ _ _ _ Ea Eb Hne Hy) as [[-> Hy']|[[-> Hy']|(Hj & Hj' & Hy')]];
    pose proof (Hu _ _ _ _ Hx' Hy' E); congruence.
Qed.
Lemma placing_key t i j n : placing i t -> node t !! j = Some n -> gval n <> VNil -> used (node t) j n.
Proof. intros Hp En Hv. split; [done|]. intros Hk. by apply (chained_node _ (pl_chained _ _ Hp) _ _ En) in Hk as [_ ?]. Qed.
Lemma placing_mpos t i k : placing i t -> (mpos (sizenode t) k < length (node t))%nat.
Proof.
  intros Hp. pose proof (pl_node _ _ Hp) as E. pose proof (pl_lsize _ _ Hp). unfold sizenode. rewrite twoto_pow by lia. unfold Zlen in E.
  pose proof (mpos_lt (lsizenode t) k). lia.
Qed.
Lemma lone_null ns j n : chained ns -> ns !! j = Some n -> lone (nx ns) j -> gnext n = Null.
Proof.
  intros Hc En [Hl _]. unfold nx in Hl. rewrite En in Hl. cbn in Hl. unfold link_of in Hl. apply (chained_node _ Hc) in En as [Hs _]. by destruct (gnext n).
Qed.
Lemma behind_lone g mp f j : lone g j -> j <> mp -> j <> f -> lone (behind g mp f) j.
Proof. intros [Hl Hl'] Hm Hf. split; [unfold behind; by dec|]. intros a. unfold behind. dec; try congruence; auto. Qed.
Lemma instead_lone g o mp f j : lone g j -> j <> mp -> j <> f -> j <> o -> lone (instead g o mp f) j.
Proof. intros [Hl Hl'] Hm Hf Ho. split; [unfold instead; by dec|]. intros a. unfold instead. dec; try congruence; auto. Qed.
Lemma lone_ext g g' j : (forall i, g' i = g i) -> lone g j -> lone g' j.
Proof. intros E [Hl Hl']. split; [by rewrite E|]. intros a. by rewrite E. Qed.
Lemma placing_intro i t ns : placing i t -> length ns = length (node t) -> chained ns -> clean ns -> unique_keys (keys ns) ->
  (forall j k, keyed (keys ns) j k -> homed (sizenode t) (nx ns) (keys ns) j k \/ (i <= j)%nat /\ lone (nx ns) j) -> placing i (set_node ns false t).
Proof. intros [] El Hc Hcl Hu Hh. split; cbn; try done. unfold Zlen in *. by rewrite El. Qed.
Lemma clean_insert ns j n : clean ns -> (gval n = VNil -> gkey n = VNil) -> clean (<[j := n]> ns).
Proof. intros Hc Hn i m. rewrite list_lookup_insert. case_decide; intros E Hv; simplify_eq; [auto|]. by eapply Hc. Qed.

Section cases.
  Variables (i : nat) (t : Table) (nd : nat) (n m : Node).
Let ns := node t.
Let mp := mpos (sizenode t) (gkey n).
  Hypotheses (Hp : placing i t) (En : ns !! nd = Some n) (Hv : gval n <> VNil) (Hne : mp <> nd) (Hl : lone (nx ns) nd) (Hi : (i <= nd)%nat) (Em : ns !! mp = Some m).
Lemma node_used : used ns nd n.
Proof. by eapply placing_key. Qed.
Lemma not_home k' : keys ns !! nd = Some k' -> k' <> VNil -> mpos (sizenode t) k' <> nd.
Proof. rewrite (key_at ns _ _ En). intros [= <-] _. done. Qed.
Lemma node_null : gnext n = Null.
Proof. eapply lone_null; [apply (pl_chained _ _ Hp)|done|done]. Qed.
Lemma move_free : gval m = VNil -> let t' := set_node (<[nd := MkNode VNil VNil Null]> (<[mp := n]> ns)) false t in placing i t' /\ rearranged t t' /\ keys (node t') !! nd = Some VNil.
Proof.
  intros Ev. cbn [node set_node]. pose proof node_used as Hu. pose proof (pl_chained _ _ Hp) as Hc. pose proof (pl_clean _ _ Hp _ _ Em Ev) as Ekm.
  pose proof (lookup_lt_Some _ _ _ En) as Hnd. pose proof (lookup_lt_Some _ _ _ Em) as Hmp. pose proof (unused_lone _ _ _ Hc Em Ekm) as Hlm.
  destruct (put_lone_chained ns mp n Hc Hmp Hlm node_null (fun E => False_ind _ (proj2 Hu E))) as [Hc1 Hx1].
  destruct (put_lone_chained (<[mp := n]> ns) nd (MkNode VNil VNil Null) Hc1) as [Hc2 Hx2]; [by rewrite length_insert|by eapply lone_ext|done|done|].
  assert (forall j, nx (<[nd := MkNode VNil VNil Null]> (<[mp := n]> ns)) j = nx ns j) as Hx by (intros j; by rewrite Hx2, Hx1).
  assert (keys (<[nd := MkNode VNil VNil Null]> (<[mp := n]> ns)) = <[nd := gkey m]> (<[mp := gkey n]> (keys ns))) as Ek by (rewrite !keys_insert; cbn; by rewrite Ekm).
  pose proof (key_at ns _ _ En) as Ekn. pose proof (key_at ns _ _ Em) as Ekm'. split_and!.
  - apply placing_intro; [done|by rewrite !length_insert|done| |rewrite Ek; apply unique_swap; auto using not_eq_sym; apply (pl_unique _ _ Hp)|].
    + apply clean_insert; [|done]. apply clean_insert; [apply (pl_clean _ _ Hp)|done].
    + rewrite Ek. intros j k Hk. assert (homed (sizenode t) (nx ns) (<[nd := gkey m]> (<[mp := gkey n]> (keys ns))) j k \/ (i <= j)%nat /\ lone (nx ns) j) as Hj.
      2:{ destruct Hj as [Hj|[Hj Hj']]; [left; by eapply homed_ext|right; split; [done|by eapply lone_ext]]. }
      apply keyed_swap in Hk as [[-> Hk]|[[-> Hk]|(Hj & Hj' & Hk)]]; [destruct Hk; congruence| | |done|done|by apply not_eq_sym].
      * left. destruct Hk as [E' Hk]. rewrite Ekn in E'. injection E' as <-. apply homed_at_home; [|done|done].
        rewrite list_lookup_insert_ne by (by apply not_eq_sym). apply list_lookup_insert_eq. by rewrite keys_length.
      * apply (pl_homed _ _ Hp) in Hk as [Hk|Hk]; [left|by right]. apply homed_put.
        -- apply homed_put; [done|]. intros k'. rewrite Ekm', Ekm. congruence.
        -- intros k'. rewrite list_lookup_insert_ne by done. apply not_home.
  - eexists. split_and!; [done|by rewrite !length_insert| |].
    + apply (node_entries_swap _ nd mp n m); try done. cbn. by rewrite Ev.
    + intros j k. rewrite Ek. intros Hk. apply keyed_swap in Hk as [[-> Hk]|[[-> Hk]|(_ & _ & Hk)]]; eauto.
  - rewrite Ek, Ekm. apply list_lookup_insert_eq. by rewrite length_insert, keys_length.
Qed.
Lemma move_behind : gval m <> VNil -> mpos (sizenode t) (gkey m) = mp ->
  let t' := set_node (<[mp := MkNode (gval m) (gkey m) (To nd)]> (<[nd := MkNode (gval n) (gkey n) (gnext m)]> ns)) false t in
  placing i t' /\ rearranged t t' /\ homed (sizenode t) (nx (node t')) (keys (node t')) nd (gkey n).
Proof.
  intros Ev Eh. cbn [node set_node]. pose proof node_used as Hu. pose proof (pl_chained _ _ Hp) as Hc. pose proof (placing_key _ _ _ _ Hp Em Ev) as Hum.
  pose proof (lookup_lt_Some _ _ _ En) as Hnd. pose proof (key_at ns _ _ En) as Ekn. pose proof (key_at ns _ _ Em) as Ekm.
  destruct (link_chained ns mp nd m (gkey n) (gval n) Hc Hum Hnd (not_eq_sym Hne) Hl (proj2 Hu)) as [Hc' Hx].
  assert (keys (<[mp := MkNode (gval m) (gkey m) (To nd)]> (<[nd := MkNode (gval n) (gkey n) (gnext m)]> ns)) = keys ns) as Ek.
  { by rewrite !keys_same by (rewrite ?list_lookup_insert_ne; done). }
  assert (homed (sizenode t) (behind (nx ns) mp nd) (keys ns) nd (gkey n)) as Hh.
  { rewrite <- (list_insert_id _ _ _ Ekn). eapply homed_new_behind; try done; [by rewrite keys_length|apply not_home|apply Hum]. }
  split_and!.
  - apply placing_intro; [done|by rewrite !length_insert|done| |by rewrite Ek; apply (pl_unique _ _ Hp)|].
    + apply clean_insert; [|done]. apply clean_insert; [apply (pl_clean _ _ Hp)|done].
    + rewrite Ek. intros j k Hk. destruct (pl_homed _ _ Hp _ _ Hk) as [Hj|[Hj Hj']].
      * left. eapply homed_ext; [exact Hx|]. rewrite <- (list_insert_id _ _ _ Ekn). apply homed_behind; try done. apply not_home.
      * destruct (decide (j = mp)) as [->|Hjm]; [left; apply homed_at_home; try apply Hk; destruct Hk; congruence|].
        destruct (decide (j = nd)) as [->|Hjn]; [|right; split; [done|]; eapply lone_ext; [exact Hx|]; by apply behind_lone].
        left. eapply homed_ext; [exact Hx|]. destruct Hk as [E' _]. rewrite Ekn in E'. injection E' as <-. done.
  - eexists. split_and!; [done|by rewrite !length_insert| |intros j k; rewrite Ek; eauto].
    rewrite (node_entries_same _ mp m); [|by rewrite list_lookup_insert_ne by (by apply not_eq_sym)|done]. by apply (node_entries_same _ _ n).
  - rewrite Ek. by eapply homed_ext.
Qed.
Lemma move_swap : gval m <> VNil -> mpos (sizenode t) (gkey m) <> mp -> lone (nx ns) mp -> (i <= mp)%nat ->
  let t' := set_node (<[mp := n]> (<[nd := m]> ns)) false t in placing i t' /\ rearranged t t' /\ keys (node t') = <[mp := gkey n]> (<[nd := gkey m]> (keys ns)).
Proof.
  intros Ev Eh Hlm Him. cbn [node set_node]. pose proof node_used as Hu. pose proof (pl_chained _ _ Hp) as Hc. pose proof (placing_key _ _ _ _ Hp Em Ev) as Hum.
  pose proof (lookup_lt_Some _ _ _ En) as Hnd. pose proof (lookup_lt_Some _ _ _ Em) as Hmp. pose proof (key_at ns _ _ En) as Ekn. pose proof (key_at ns _ _ Em) as Ekm.
  destruct (put_lone_chained ns nd m Hc Hnd Hl (lone_null _ _ _ Hc Em Hlm) (fun E => False_ind _ (proj2 Hum E))) as [Hc1 Hx1].
  destruct (put_lone_chained (<[nd := m]> ns) mp n Hc1) as [Hc2 Hx2]; [by rewrite length_insert|by eapply lone_ext|apply node_null|intros E; by destruct Hu|].
  assert (forall j, nx (<[mp := n]> (<[nd := m]> ns)) j = nx ns j) as Hx by (intros j; by rewrite Hx2, Hx1).
  assert (keys (<[mp := n]> (<[nd := m]> ns)) = <[mp := gkey n]> (<[nd := gkey m]> (keys ns))) as Ek by by rewrite !keys_insert.
  split_and!; [| |done].
  - apply placing_intro; [done|by rewrite !length_insert|done| |rewrite Ek; apply unique_swap; auto; apply (pl_unique _ _ Hp)|].
    + apply clean_insert; [|done]. apply clean_insert; [apply (pl_clean _ _ Hp)|done].
    + rewrite Ek. intros j k Hk. assert (homed (sizenode t) (nx ns) (<[mp := gkey n]> (<[nd := gkey m]> (keys ns))) j k \/ (i <= j)%nat /\ lone (nx ns) j) as Hj.
      2:{ destruct Hj as [Hj|[Hj Hj']]; [left; by eapply homed_ext|right; split; [done|by eapply lone_ext]]. }
      apply (keyed_swap _ _ _ _ _ _ _ Ekm Ekn Hne) in Hk as [[-> Hk]|[[-> Hk]|(Hj & Hj' & Hk)]]; [|by right|].
      * left. destruct Hk as [E' Hk]. rewrite Ekn in E'. injection E' as <-. apply homed_at_home; [|done|done].
        apply list_lookup_insert_eq. by rewrite length_insert, keys_length.
      * apply (pl_homed _ _ Hp) in Hk as [Hk|Hk]; [left|by right]. apply homed_put.
        -- apply homed_put; [done|apply not_home].
        -- intros k'. rewrite list_lookup_insert_ne by (by apply not_eq_sym). rewrite Ekm. intros [= <-]. done.
  - eexists. split_and!; [done|by rewrite !length_insert| |].
    + by apply (node_entries_swap _ mp nd m n).
    + intros j k. rewrite Ek. intros Hk. apply (keyed_swap _ _ _ _ _ _ _ Ekm Ekn Hne) in Hk as [[-> Hk]|[[-> Hk]|(_ & _ & Hk)]]; eauto.
Qed.
Lemma move_instead q no : gval m <> VNil -> mpos (sizenode t) (gkey m) <> mp -> ns !! q = Some no -> nx ns q = Some mp ->
  let t' := set_node (<[mp := n]> (<[nd := m]> (<[q := MkNode (gval no) (gkey no) (To nd)]> ns))) false t in
  placing i t' /\ rearranged t t' /\ homed (sizenode t) (nx (node t')) (keys (node t')) nd (gkey m) /\ keys (node t') !! nd = Some (gkey m).
Proof.
  intros Ev Eh Eq Hq. cbn [node set_node]. pose proof node_used as Hu. pose proof (pl_chained _ _ Hp) as Hc. pose proof (placing_key _ _ _ _ Hp Em Ev) as Hum.
  pose proof (lookup_lt_Some _ _ _ En) as Hnd. pose proof (lookup_lt_Some _ _ _ Em) as Hmp. pose proof (key_at ns _ _ En) as Ekn. pose proof (key_at ns _ _ Em) as Ekm.
  pose proof (chained_forest _ Hc) as Hg. pose proof (not_eq_sym Hne) as Hne'.
  assert (q <> mp) as Hqm by (intros ->; by apply (forest_self _ _ Hg) in Hq). assert (q <> nd) as Hqn by (intros ->; destruct Hl; congruence).
  destruct (move_chained ns q mp nd no m n Hc Eq Hq Hum Hnd Hne' Hl (proj2 Hu) node_null) as [Hc' Hx].
  assert (homed (sizenode t) (nx ns) (keys ns) mp (gkey m)) as Hm.
  { destruct (pl_homed _ _ Hp _ _ (used_keyed _ _ _ Hum)) as [?|[_ [_ Hj]]]; [done|]. by apply Hj in Hq. }
  assert (keys (<[mp := n]> (<[nd := m]> (<[q := MkNode (gval no) (gkey no) (To nd)]> ns))) = <[mp := gkey n]> (<[nd := gkey m]> (keys ns))) as Ek.
  { rewrite !keys_insert. cbn [gkey]. do 2 f_equal. apply list_insert_id. by apply (key_at ns). }
  assert (homed (sizenode t) (instead (nx ns) q mp nd) (<[mp := gkey n]> (<[nd := gkey m]> (keys ns))) nd (gkey m)) as Hh.
  { by eapply (homed_moved _ _ _ _ _ Hg Hl Hne' not_home). }
  split_and!.
  - apply placing_intro; [done|by rewrite !length_insert|done| |rewrite Ek; apply unique_swap; auto; apply (pl_unique _ _ Hp)|].
    + apply clean_insert; [|done]. apply clean_insert; [|done]. apply clean_insert; [apply (pl_clean _ _ Hp)|]. by apply (pl_clean _ _ Hp q no).
    + rewrite Ek. intros j k Hk. apply (keyed_swap _ _ _ _ _ _ _ Ekm Ekn Hne) in Hk as [[-> Hk]|[[-> Hk]|(Hj & Hj' & Hk)]].
      * left. destruct Hk as [E' Hk]. rewrite Ekn in E'. injection E' as <-. apply homed_at_home; [|done|done].
        apply list_lookup_insert_eq. by rewrite length_insert, keys_length.
      * left. destruct Hk as [E' Hk]. rewrite Ekm in E'. injection E' as <-. by eapply homed_ext.
      * apply (pl_homed _ _ Hp) in Hk as [Hk|[Hi' Hk]]; [left; eapply homed_ext; [exact Hx|]; by eapply (homed_instead _ _ _ _ _ Hg Hl Hne' not_home)|].
        right. split; [done|]. eapply lone_ext; [exact Hx|]. apply instead_lone; try done. intros ->. destruct Hk as [Hk _]. unfold ns in Hq. congruence.
  - eexists. split_and!; [done|by rewrite !length_insert| |].
    + rewrite (node_entries_swap _ mp nd m n) by (rewrite ?list_lookup_insert_ne; done). by apply (node_entries_same _ _ no).
    + intros j k. rewrite Ek. intros Hk. apply (keyed_swap _ _ _ _ _ _ _ Ekm Ekn Hne) in Hk as [[-> Hk]|[[-> Hk]|(_ & _ & Hk)]]; eauto.
  - rewrite Ek. by eapply homed_ext.
  - rewrite Ek, list_lookup_insert_ne by done. apply list_lookup_insert_eq. by rewrite keys_length.
Qed.
End cases.
(** One call of [move_node], and the loop around it: the number of keys that
    are at home grows with every round that does not finish. *)
Definition at_home (size : Z) (ks : list TValue) (j : nat) : bool := match ks !! j with Some k => negb (ttisnil k) && Nat.eqb (mpos size k) j | None => false end.
Definition homes (t : Table) : nat := length (filter (fun j => at_home (sizenode t) (keys (node t)) j = true) (seq 0 (length (node t)))).
Lemma filter_less {A} (P Q : A -> Prop) `{forall x, Decision (P x), forall x, Decision (Q x)} (l : list A) x :
  (forall y, P y -> Q y) -> x ∈ l -> Q x -> ~ P x -> (length (filter P l) < length (filter Q l))%nat.
Proof.
  intros HPQ Hin Hq Hp. assert (forall l, length (filter P l) <= length (filter Q l))%nat as Hle.
  { clear -HPQ. intros l. induction l as [|y l IH]; [done|]. rewrite !filter_cons. repeat case_decide; cbn; try lia. naive_solver. }
  apply list_elem_of_split in Hin as (l1 & l2 & ->). rewrite !filter_app, !filter_cons, !length_app. pose proof (Hle l1). pose proof (Hle l2).
  repeat case_decide; cbn; try done; lia.
Qed.
Lemma homes_swap i t nd n m (mp := mpos (sizenode t) (gkey n)) t' : placing i t -> node t !! nd = Some n -> used (node t) nd n -> node t !! mp = Some m -> mp <> nd ->
  mpos (sizenode t) (gkey m) <> mp -> sizenode t' = sizenode t -> length (node t') = length (node t) ->
  keys (node t') = <[mp := gkey n]> (<[nd := gkey m]> (keys (node t))) -> (homes t < homes t')%nat.
Proof.
  intros Hp En [_ Hu] Em Hne Eh Es El Ek. unfold homes. rewrite El, Es, Ek. pose proof (lookup_lt_Some _ _ _ En). pose proof (lookup_lt_Some _ _ _ Em).
  pose proof (key_at _ _ _ En) as Ekn. pose proof (key_at _ _ _ Em) as Ekm. apply (filter_less _ _ _ mp).
  - intros j. unfold at_home. destruct (decide (j = mp)) as [->|Hj]; [rewrite Ekm|].
    { intros E. apply andb_true_iff in E as [_ E]. by apply Nat.eqb_eq in E. }
    destruct (decide (j = nd)) as [->|Hj']; [rewrite Ekn|by rewrite !list_lookup_insert_ne by done].
    intros E. apply andb_true_iff in E as [_ E]. by apply Nat.eqb_eq in E.
  - apply elem_of_seq. lia.
  - unfold at_home. rewrite list_lookup_insert_eq by (rewrite length_insert, keys_length; lia). fold mp. rewrite Nat.eqb_refl. by destruct (gkey n).
  - unfold at_home. rewrite Ekm. rewrite (proj2 (Nat.eqb_neq _ _) Eh). by rewrite andb_false_r.
Qed.
Definition settled (t : Table) (j : nat) : Prop := forall k, keyed (keys (node t)) j k -> homed (sizenode t) (nx (node t)) (keys (node t)) j k.
Lemma settled_at t j n : node t !! j = Some n -> homed (sizenode t) (nx (node t)) (keys (node t)) j (gkey n) -> settled t j.
Proof. intros En Hh k [Ek _]. rewrite (key_at _ _ _ En) in Ek. by injection Ek as <-. Qed.
Lemma behind_code t nd mp n m : dummy t = false -> node t !! nd = Some n -> node t !! mp = Some m -> nd <> mp ->
  (_ ← put_next nd (gnext m); _ ← put_next mp (To nd); mret true : tab bool) t =
  Val (set_node (<[mp := MkNode (gval m) (gkey m) (To nd)]> (<[nd := MkNode (gval n) (gkey n) (gnext m)]> (node t))) false t, true).
Proof.
  intros Hd En Em Hne. rewrite (tab_step _ _ _ _ _ (put_next_at t nd n (gnext m) Hd En)).
  set (t1 := set_node _ _ _). assert (node t1 !! mp = Some m) as Em1 by by (cbn; rewrite list_lookup_insert_ne).
  by rewrite (tab_step _ _ _ _ _ (put_next_at t1 mp m (To nd) eq_refl Em1)).
Qed.
Lemma swap_code t nd mp n m b : dummy t = false -> (nd < length (node t))%nat -> node t !! mp = Some m -> nd <> mp ->
  (m ← get_node mp; _ ← put_node nd m; _ ← put_node mp n; mret b : tab bool) t = Val (set_node (<[mp := n]> (<[nd := m]> (node t))) false t, b).
Proof.
  intros Hd Hnd Em Hne. rewrite (tab_step _ _ _ _ _ (get_node_at _ _ _ Em)), (tab_step _ _ _ _ _ (put_node_at t nd m Hd Hnd)).
  set (t1 := set_node _ _ _). assert (mp < length (node t1))%nat as Hl by (cbn; rewrite length_insert; by apply lookup_lt_Some in Em).
  by rewrite (tab_step _ _ _ _ _ (put_node_at t1 mp n eq_refl Hl)).
Qed.
Lemma free_code t nd mp n m : dummy t = false -> node t !! nd = Some n -> node t !! mp = Some m -> nd <> mp ->
  (_ ← put_node mp n; _ ← put_next nd Null; _ ← put_key nd VNil; _ ← put_val nd VNil; mret true : tab bool) t =
  Val (set_node (<[nd := MkNode VNil VNil Null]> (<[mp := n]> (node t))) false t, true).
Proof.
  intros Hd En Em Hne. pose proof (lookup_lt_Some _ _ _ Em) as Hmp. pose proof (lookup_lt_Some _ _ _ En) as Hnd.
  rewrite (tab_step _ _ _ _ _ (put_node_at t mp n Hd Hmp)). set (t1 := set_node _ _ _).
  assert (node t1 !! nd = Some n) as E1 by by (cbn; rewrite list_lookup_insert_ne by (by apply not_eq_sym)).
  rewrite (tab_step _ _ _ _ _ (put_next_at t1 nd n Null eq_refl E1)). set (t2 := set_node _ _ _).
  assert (node t2 !! nd = Some (MkNode (gval n) (gkey n) Null)) as E2 by (apply list_lookup_insert_eq; cbn; by rewrite length_insert).
  rewrite (tab_step _ _ _ _ _ (put_key_at t2 nd _ VNil eq_refl E2)). set (t3 := set_node _ _ _).
  assert (node t3 !! nd = Some (MkNode (gval n) VNil Null)) as E3 by (apply list_lookup_insert_eq; cbn; by rewrite !length_insert).
  rewrite (tab_step _ _ _ _ _ (put_val_at t3 nd _ VNil eq_refl E3)). unfold mret, tab_ret. do 2 f_equal. unfold t3, t2, t1, set_node. cbn. f_equal. by rewrite !list_insert_insert_eq.
Qed.
Lemma move_node_spec i t nd n : placing i t -> node t !! nd = Some n -> gval n <> VNil ->
  exists t' b, move_node nd t = Val (t', b) /\ placing i t' /\ rearranged t t' /\
  if b then settled t' nd else (exists n', node t' !! nd = Some n' /\ gval n' <> VNil) /\ (homes t < homes t')%nat.
Proof.
  intros Hp En Hv. pose proof (placing_key _ _ _ _ Hp En Hv) as Hu. pose proof (pl_chained _ _ Hp) as Hc. pose proof (pl_dummy _ _ Hp) as Hd.
  pose proof (rearranged_refl _ Hd) as Hr. pose proof (lookup_lt_Some _ _ _ En) as Hnd. set (mp := mpos (sizenode t) (gkey n)).
  unfold move_node, main_of. rewrite (tab_step _ _ _ _ _ (get_node_at _ _ _ En)), (reads_step _ _ t mp) by apply mainposition_eq, Hu.
  destruct (Nat.eqb_spec mp nd) as [E|Hne].
  { exists t, true. split_and!; try done. eapply settled_at; [done|]. apply homed_at_home; [by apply key_at|apply Hu|done]. }
  pose proof (placing_mpos _ _ (gkey n) Hp) as Hmp. fold mp in Hmp. unfold find_prev_node.
  destruct (chain_find_spec t (next_is nd) mp Hc Hmp) as [(q & nq & Eq & _ & Enq & Hq)|[Eq Hq]]; rewrite (reads_step _ _ _ _ Eq).
  { exists t, true. split_and!; try done. eapply settled_at; [done|]. destruct (pl_homed _ _ Hp _ _ (used_keyed _ _ _ Hu)) as [?|[_ [_ Hl]]]; [done|].
    apply (next_is_eq _ _ _ _ Enq) in Hq. by apply Hl in Hq. }
  assert ((i <= nd)%nat /\ lone (nx (node t)) nd) as [Hi Hl].
  { destruct (pl_homed _ _ Hp _ _ (used_keyed _ _ _ Hu)) as [[R _]|?]; [|done]. destruct (find_pred t _ _ Hc Hmp R Hne) as (q & E & _). congruence. }
  destruct (lookup_lt_is_Some_2 _ _ Hmp) as [m Em]. rewrite (tab_step _ _ _ _ _ (get_node_at _ _ _ Em)), asks_step, Hd, orb_false_r.
  destruct (ttisnil (gval m)) eqn:Ev; cbn [negb].
  { assert (gval m = VNil) as Ev' by by destruct (gval m). destruct (move_free i t nd n m Hp En Hv Hne Hl Em Ev') as (Hp' & Hr' & Hk).
    eexists _, true. split; [by apply (free_code t nd mp n m); auto|]. split_and!; [done|done|]. intros k [Ek Hk']. assert (Some k = Some VNil) as [= ->] by (rewrite <- Ek; exact Hk). done. }
  assert (gval m <> VNil) as Ev' by by destruct (gval m). pose proof (placing_key _ _ _ _ Hp Em Ev') as Hum.
  rewrite (reads_step _ _ t (mpos (sizenode t) (gkey m))) by apply mainposition_eq, Hum.
  destruct (Nat.eqb_spec (mpos (sizenode t) (gkey m)) mp) as [Eh|Eh]; cbn [negb].
  { destruct (move_behind i t nd n m Hp En Hv Hne Hl Em Ev' Eh) as (Hp' & Hr' & Hh). eexists _, true.
    split; [by apply behind_code; auto|]. split_and!; [done|done|]. eapply (settled_at _ _ (MkNode (gval n) (gkey n) (gnext m))); [|exact Hh].
    cbn. rewrite list_lookup_insert_ne by done. by apply list_lookup_insert_eq. }
  pose proof (placing_mpos _ _ (gkey m) Hp) as Hom.
  destruct (chain_find_spec t (next_is mp) _ Hc Hom) as [(q & nq & Eq' & _ & Enq & Hq')|[Eq' Hq']]; rewrite (reads_step _ _ _ _ Eq').
  - apply (next_is_eq _ _ _ _ Enq) in Hq'. destruct (move_instead i t nd n m Hp En Hv Hne Hl Em q nq Ev' Eh Enq Hq') as (Hp' & Hr' & Hh & Ek).
    eexists _, true. split.
    + rewrite (tab_step _ _ _ _ _ (put_next_at t q nq (To nd) Hd Enq)). apply swap_code; [done|cbn; by rewrite length_insert| |by auto].
      cbn. rewrite list_lookup_insert_ne; [done|]. intros ->. by apply (forest_self _ mp (chained_forest _ Hc)) in Hq'.
    + split_and!; [done|done|]. intros k [Ek' _]. assert (Some k = Some (gkey m)) as [= ->] by (rewrite <- Ek'; exact Ek). exact Hh.
  - assert ((i <= mp)%nat /\ lone (nx (node t)) mp) as [Him Hlm].
    { destruct (pl_homed _ _ Hp _ _ (used_keyed _ _ _ Hum)) as [[R _]|?]; [|done]. destruct (find_pred t _ _ Hc Hom R Eh) as (q & E & _). congruence. }
    destruct (move_swap i t nd n m Hp En Hv Hne Hl Hi Em Ev' Eh Hlm Him) as (Hp' & Hr' & Ek). eexists _, false.
    split; [by apply (swap_code t nd mp n m); auto|]. split_and!; [done|done| |].
    + exists m. split; [|done]. cbn. rewrite list_lookup_insert_ne by done. by apply list_lookup_insert_eq.
    + eapply (homes_swap i t nd n m); try done. cbn. by rewrite !length_insert.
Qed.
Lemma homes_le t : (homes t <= length (node t))%nat.
Proof. unfold homes. rewrite <- (length_seq (length (node t)) 0) at 2. apply length_filter. Qed.
Lemma rearranged_length t t' : rearranged t t' -> length (node t') = length (node t).
Proof. by intros (ns & -> & El & _). Qed.
Lemma place_loop_spec fuel : forall i t n, placing i t -> node t !! i = Some n -> gval n <> VNil -> (length (node t) < homes t + fuel)%nat ->
  exists t', place_loop fuel i t = Val (t', ()) /\ placing i t' /\ rearranged t t' /\ settled t' i.
Proof.
  induction fuel as [|fuel IH]; intros i t n Hp En Hv Hf; [pose proof (homes_le t); lia|]. cbn [place_loop].
  destruct (move_node_spec i t i n Hp En Hv) as (t1 & b & Em & Hp1 & Hr1 & Hb). rewrite (tab_step _ _ _ _ _ Em). destruct b; [by exists t1|].
  destruct Hb as [(n' & En' & Hv') Hh]. destruct (IH i t1 n' Hp1 En' Hv') as (t2 & E2 & Hp2 & Hr2 & Hs).
  { rewrite (rearranged_length _ _ Hr1). lia. }
  exists t2. split_and!; try done. by eapply rearranged_trans.
Qed.
Lemma placing_next i t : placing i t -> settled t i -> placing (S i) t.
Proof.
  intros [] Hs. split; try done. intros j k Hk. destruct (decide (j = i)) as [->|Hj]; [left; by apply Hs|].
  destruct (pl_homed0 _ _ Hk) as [?|[? ?]]; [by left|right]. split; [lia|done].
Qed.
Lemma chain_loop_spec n : forall i t, placing i t -> (i + n = length (node t))%nat ->
  exists t', chain_loop n i t = Val (t', ()) /\ placing (i + n) t' /\ rearranged t t'.
Proof.
  induction n as [|n IH]; intros i t Hp Hl; cbn [chain_loop].
  { rewrite Nat.add_0_r. exists t. split_and!; [done|done|]. apply rearranged_refl, (pl_dummy _ _ Hp). }
  destruct (lookup_lt_is_Some_2 (node t) i ltac:(lia)) as [c Ec]. rewrite (tab_step _ _ _ _ _ (get_node_at _ _ _ Ec)).
  assert (exists t1, (if ttisnil (gval c) then mret () else fuel ← asks chain_fuel; place_loop fuel i : tab ()) t = Val (t1, ()) /\ placing (S i) t1 /\ rearranged t t1) as (t1 & E1 & Hp1 & Hr1).
  { destruct (ttisnil (gval c)) eqn:Ev.
    - exists t. split_and!; [done| |apply rearranged_refl, (pl_dummy _ _ Hp)]. apply placing_next; [done|]. intros k [Ek Hk].
      rewrite (key_at _ _ _ Ec), (pl_clean _ _ Hp _ _ Ec) in Ek by (by destruct (gval c)). congruence.
    - rewrite asks_step. destruct (place_loop_spec (chain_fuel t) i t c Hp Ec) as (t1 & E1 & Hp1 & Hr1 & Hs); [by destruct (gval c)|unfold chain_fuel; lia|].
      exists t1. split_and!; [done|by apply placing_next|done]. }
  rewrite (tab_step _ _ _ _ _ E1). destruct (IH (S i) t1 Hp1) as (t2 & E2 & Hp2 & Hr2); [rewrite (rearranged_length _ _ Hr1); lia|].
  exists t2. rewrite Nat.add_succ_r. split_and!; [done|done|by eapply rearranged_trans].
Qed.
End place.
