(* ===== verification/LuaTableRehash.v ===== *)
(** Resizing the hash part of a table of LuaTable.v in place: the nodes are
    compacted into the part of the vector that is kept, and then moved to their
    positions as LuaTablePlace.v says. *)
From stdpp Require Import relations.
From S2P Require Import Prelude LuaStr LuaFormat LuaLex LuaTable LuaTableChain LuaTableHash LuaTablePlace.

Section compact.
  Context `{NumbersLaws}.
Notation keq := luaO_rawequalObj.
(** ** Distinct entries *)
Definition distinct (l : list (TValue * TValue)) : Prop := forall i j p q, l !! i = Some p -> l !! j = Some q -> keq p.1 q.1 = true -> i = j.
Lemma distinct_nil : distinct [].
Proof. intros i j p q E. by rewrite lookup_nil in E. Qed.
Lemma distinct_perm l l' : l ≡ₚ l' -> distinct l' -> distinct l.
Proof.
  intros [_ (f & Hf & El)]%Permutation_inj Hd i j p q Ep Eq E. rewrite El in Ep, Eq. apply Hf. by eapply Hd.
Qed.
Lemma distinct_app l1 l2 p q : distinct (l1 ++ l2) -> p ∈ l1 -> q ∈ l2 -> keq p.1 q.1 = false.
Proof.
  intros Hd [i Ei]%list_elem_of_lookup [j Ej]%list_elem_of_lookup. destruct (keq p.1 q.1) eqn:E; [|done].
  pose proof (lookup_lt_Some _ _ _ Ei). assert (i = length l1 + j)%nat; [|lia]. eapply Hd; [by rewrite lookup_app_l|by rewrite lookup_app_r, Nat.add_comm, Nat.add_sub by lia|done].
Qed.
Lemma distinct_app_l l1 l2 : distinct (l1 ++ l2) -> distinct l1.
Proof. intros Hd i j p q Ei Ej E. eapply (Hd i j); [by apply lookup_app_l_Some..|done]. Qed.
Lemma distinct_app_r l1 l2 : distinct (l1 ++ l2) -> distinct l2.
Proof. intros Hd. eapply distinct_app_l, distinct_perm, Hd. apply Permutation_app_comm. Qed.
Lemma distinct_cons p l : distinct (p :: l) <-> Forall (fun q => keq p.1 q.1 = false) l /\ distinct l.
Proof.
  split.
  - intros Hd. split; [apply Forall_forall; intros q Hq; eapply (distinct_app [p] l); [done|by apply list_elem_of_singleton|done]|].
    intros i j q r Ei Ej E. assert (S i = S j) as [=]; [|done]. by eapply (Hd (S i) (S j) q r).
  - intros [Hp Hd] [|i] [|j] q r Ei Ej E; cbn in *; simplify_eq; try done.
    + rewrite Forall_forall in Hp. apply list_elem_of_lookup_2 in Ej. apply Hp in Ej. congruence.
    + rewrite Forall_forall in Hp. apply list_elem_of_lookup_2 in Ei. apply Hp in Ei. rewrite keq_sym in E. congruence.
    + f_equal. by eapply Hd.
Qed.
Lemma distinct_app_intro l1 l2 : distinct l1 -> distinct l2 -> (forall p q, p ∈ l1 -> q ∈ l2 -> keq p.1 q.1 = false) -> distinct (l1 ++ l2).
Proof.
  induction l1 as [|p l1 IH]; [done|]. cbn. rewrite !distinct_cons. intros [Hp Hd] Hd2 Hc. split.
  - apply Forall_app. split; [done|]. apply Forall_forall. intros q Hq. apply Hc; set_solver.
  - apply IH; [done|done|]. intros p' q Hp' Hq. apply Hc; set_solver.
Qed.
Lemma array_entries_distinct l : forall i, 0 < i -> i + Zlen l < 2147483648 -> distinct (array_entries i l).
Proof.
  induction l as [|v l IH]; intros i Hi Hl; cbn [array_entries]; [apply distinct_nil|]. rewrite Zlen_cons in Hl. pose proof (Zlen_nonneg l).
  apply distinct_app_intro; [|apply IH; lia|].
  - unfold entry. destruct (ttisnil v); [apply distinct_nil|]. apply distinct_cons. split; [done|]. apply distinct_nil.
  - intros p q Hp Hq. apply elem_of_entry in Hp as [-> _]. apply elem_of_array_entries in Hq as (j & w & Ej & -> & _). cbn [fst].
    apply lookup_lt_Some in Ej. unfold Zlen in Hl. destruct (keq _ _) eqn:E; [|done]. apply arrayindex_keq in E. rewrite !arrayindex_of_Z in E by lia. lia.
Qed.
Definition raw (ns : list Node) : Prop := Forall (fun n => gkey n = VNil -> gval n = VNil) ns.
Lemma node_entries_cons n ns : node_entries (n :: ns) = entry (gkey n) (gval n) ++ node_entries ns.
Proof. done. Qed.
Lemma node_entries_app ns ns' : node_entries (ns ++ ns') = node_entries ns ++ node_entries ns'.
Proof. apply bind_app. Qed.
Lemma unique_keys_tail k ks : unique_keys (k :: ks) -> unique_keys ks.
Proof. intros Hu i j a b [Ea Ha] [Eb Hb] E. assert (S i = S j) as [=]; [|done]. by apply (Hu (S i) (S j) a b). Qed.
Lemma node_entries_distinct ns : raw ns -> unique_keys (keys ns) -> distinct (node_entries ns).
Proof.
  induction ns as [|n ns IH]; intros Hr Hu; [apply distinct_nil|]. apply Forall_cons in Hr as [Hn Hr]. rewrite node_entries_cons.
  apply distinct_app_intro; [|apply IH; [done|by eapply unique_keys_tail]|].
  - unfold entry. destruct (ttisnil _); [apply distinct_nil|]. apply distinct_cons. split; [done|]. apply distinct_nil.
  - intros p q Hp Hq. apply elem_of_entry in Hp as [-> Hv]. apply elem_of_node_entries in Hq as (j & m & Ej & -> & Hw). cbn [fst]. destruct (keq _ _) eqn:E; [|done].
    assert (O = S j) as [=]. eapply Hu; [| |exact E]; [by split; auto|]. split; [by apply key_at|]. unfold raw in Hr. rewrite Forall_lookup in Hr. intros Hk. by eapply Hr in Hk.
Qed.
Lemma clean_value ns j n : clean ns -> ns !! j = Some n -> gkey n <> VNil -> gval n <> VNil.
Proof. intros Hc En Hk Hv. by eapply Hc in Hv. Qed.
Lemma distinct_unique_keys ns : clean ns -> distinct (node_entries ns) -> unique_keys (keys ns).
Proof.
  induction ns as [|n ns IH]; intros Hc Hd; [intros i j a b [E _]; by destruct i|]. rewrite node_entries_cons in Hd.
  assert (clean ns) as Hc' by (intros j m Em; by apply (Hc (S j))). pose proof (IH Hc' (distinct_app_r _ _ Hd)) as Hu.
  assert (forall j b, keyed (keys ns) j b -> gkey n <> VNil -> keq (gkey n) b = false) as Hn.
  { intros j b Hb Hk. apply keyed_used in Hb as (m & [Em Hm] & <-). apply (distinct_app _ _ (gkey n, gval n) (gkey m, gval m) Hd).
    - apply elem_of_entry. split; [done|]. by apply (clean_value _ O n Hc).
    - apply elem_of_node_entries. exists j, m. split_and!; [done|done|by eapply clean_value]. }
  intros [|i] [|j] a b [Ea Ha] [Eb Hb] E; cbn in Ea, Eb; try done.
  - injection Ea as <-. rewrite (Hn j b) in E; [done|by split|done].
  - injection Eb as <-. rewrite keq_sym, (Hn i a) in E; [done|by split|done].
  - f_equal. by apply (Hu i j a b).
Qed.

(** ** The first loop: compaction *)
Definition sized (t : Table) : Prop := 0 <= sizearray t <= MAXASIZE /\ sizearray t <= Zlen (array t).
Lemma move_number_spec t i n : dummy t = false -> sized t -> node t !! i = Some n -> valid_key (gkey n) ->
  (if ttisnumber (gkey n) then move_number i else mret false : tab bool) t =
  if in_array t (gkey n)
  then Val (set_node (<[i := MkNode VNil VNil (gnext n)]> (node t)) false (set_array (<[Z.to_nat (arrayindex (gkey n) - 1) := gval n]> (array t)) t), true)
  else Val (t, false).
Proof.
  intros Hd [Hs Ha] En (_ & _ & Hm). change MAXASIZE with 67108864 in Hs. assert (forall k, ttisnumber k = false -> in_array t k = false) as Hnn by by intros [].
  destruct (ttisnumber (gkey n)) eqn:En'; [|by rewrite Hnn]. destruct (gkey n) as [| | |x| | | |] eqn:Ek; try done. clear En' Hnn.
  unfold move_number. rewrite (tab_step _ _ _ _ _ (get_node_at _ _ _ En)), Ek, asks_step. cbn [arrayindex] in Hm. unfold in_array. cbn [arrayindex].
  destruct (numeq (of_Z (number2int x)) x); [|done]. pose proof (number2int_range x) as Hr.
  rewrite (reads_step _ _ t (number2int x - 1)) by (rewrite int32_ok by lia; done).
  assert ((u32 (number2int x - 1) <? u32 (sizearray t)) = (0 <? number2int x) && (number2int x <=? sizearray t)) as ->.
  { rewrite (wrap_small 32 (sizearray t)) by (change (2 ^ 32) with 4294967296; lia). destruct (Z.ltb_spec 0 (number2int x)).
    - rewrite (wrap_small 32 (_ - 1)) by (change (2 ^ 32) with 4294967296; lia). apply eq_true_iff_eq. rewrite andb_true_l, Z.ltb_lt, Z.leb_le. lia.
    - rewrite andb_false_l. apply Z.ltb_ge. unfold wrap. change (2 ^ 32) with 4294967296. rewrite <- (Z.mod_unique (number2int x - 1) 4294967296 (-1) (number2int x - 1 + 4294967296)); lia. }
  destruct (_ && _) eqn:E; [|done]. apply andb_true_iff in E as [E1%Z.ltb_lt E2%Z.leb_le].
  set (t1 := set_array (<[Z.to_nat (number2int x - 1) := gval n]> (array t)) t).
  rewrite (tab_step _ _ _ t1 ()) by (unfold put_array; rewrite bset_in by lia; done).
  rewrite (tab_step _ _ _ _ _ (put_key_at t1 i n VNil Hd En)). set (t2 := set_node _ _ t1).
  assert (node t2 !! i = Some (MkNode (gval n) VNil (gnext n))) as E2' by (apply list_lookup_insert_eq; by apply lookup_lt_Some in En).
  rewrite (tab_step _ _ _ _ _ (put_val_at t2 i _ VNil eq_refl E2')). unfold mret, tab_ret. do 2 f_equal. unfold t2, set_node. cbn. f_equal. by rewrite list_insert_insert_eq.
Qed.
Lemma filter_all {A} (P : A -> Prop) `{forall x, Decision (P x)} (l : list A) : Forall P l -> filter P l = l.
Proof. induction 1 as [|x l Hx _ IH]; [done|]. by rewrite filter_cons_True, IH. Qed.
Lemma node_entries_full ns : Forall (fun n => gval n <> VNil) ns -> length (node_entries ns) = length ns.
Proof. induction 1 as [|n ns Hn _ IH]; [done|]. rewrite node_entries_cons, length_app, IH. unfold entry. by destruct (gval n). Qed.
(** The nodes that count when the loop has come to [i]: those below the new
    size [N], and those not seen yet. *)
Definition counted (N i : nat) (ns : list Node) : list Node := take (i `min` N) ns ++ drop i ns.
Lemma counted_at N i ns n : ns !! i = Some n ->
  node_entries (counted N i ns) ≡ₚ node_entries (take (i `min` N) ns) ++ entry (gkey n) (gval n) ++ node_entries (drop (S i) ns).
Proof. intros En. unfold counted. by rewrite (drop_S _ _ _ En), node_entries_app, node_entries_cons. Qed.
Lemma counted_next N i ns n : (i < length ns)%nat ->
  node_entries (counted N (S i) (<[i := n]> ns)) ≡ₚ node_entries (take (i `min` N) ns) ++ (if decide (i < N)%nat then entry (gkey n) (gval n) else []) ++ node_entries (drop (S i) ns).
Proof.
  intros Hi. unfold counted. rewrite node_entries_app, drop_insert_lt by lia. case_decide as Hd.
  - replace (S i `min` N)%nat with (S i) by lia. replace (i `min` N)%nat with i by lia.
    rewrite (take_S_r _ _ n) by (by apply list_lookup_insert_eq). rewrite node_entries_app, take_insert_ge, node_entries_cons by lia. cbn. rewrite app_nil_r. by rewrite <- app_assoc.
  - replace (S i `min` N)%nat with N by lia. replace (i `min` N)%nat with N by lia. by rewrite take_insert_ge by lia.
Qed.
Section compacting.
  Variables (t0 : Table) (old N : nat).
Let room := length (filter (fun p => in_array t0 p.1 = false) (live t0)).
Let st (a : list TValue) (ns : list Node) (l : Z) : Table := set_lastfree l (set_node ns false (set_array a t0)).
  Hypotheses (Hs : sized t0) (HN : (N <= length (node t0))%nat) (Hold : (old <= length (node t0))%nat)
    (Hd : distinct (live t0)) (Hv : Forall (fun p => valid_key p.1) (live t0)) (Hroom : (room <= N)%nat).
Record compacting (i : nat) (a : list TValue) (ns : list Node) (l : Z) : Prop := MkCompacting {
  cm_len : length ns = length (node t0);
  cm_array : Zlen a = Zlen (array t0);
  cm_rest : drop (Z.to_nat (sizearray t0)) a = rest_of_array t0;
  cm_live : array_entries 1 (take (Z.to_nat (sizearray t0)) a) ++ node_entries (counted N i ns) ≡ₚ live t0;
  cm_done j n : (j < i)%nat -> (j < N)%nat -> ns !! j = Some n -> gnext n = Null /\ (gval n = VNil -> gkey n = VNil) /\ (gval n <> VNil -> gkey n <> VNil /\ in_array t0 (gkey n) = false);
  cm_todo j n : (i <= j)%nat -> ns !! j = Some n -> (gkey n = VNil -> gval n = VNil) /\ ((old <= j)%nat -> n = MkNode VNil VNil Null);
  cm_free : l <= Z.of_nat N /\ ((i <= N)%nat -> l = Z.of_nat N) /\ forall j n, l <= Z.of_nat j -> (j < N)%nat -> ns !! j = Some n -> gkey n <> VNil;
}.
Lemma compacting_entry i a ns l n : compacting i a ns l -> ns !! i = Some n -> gval n <> VNil ->
  (gkey n, gval n) ∈ live t0 /\ valid_key (gkey n) /\ forall v, (VNumber (of_Z (arrayindex (gkey n))), v) ∈ array_entries 1 (take (Z.to_nat (sizearray t0)) a) -> in_array t0 (gkey n) = true -> False.
Proof.
  intros Hc En Hn. assert ((gkey n, gval n) ∈ node_entries (counted N i ns)) as Hin.
  { rewrite (counted_at _ _ _ _ En). rewrite !elem_of_app. right. left. by apply elem_of_entry. }
  assert ((gkey n, gval n) ∈ live t0) as Hl by (rewrite <- (cm_live _ _ _ _ Hc); apply elem_of_app; by right). split; [done|].
  rewrite Forall_forall in Hv. split; [by apply (Hv _ Hl)|]. intros v Ha Hi. apply in_array_spec in Hi.
  pose proof (distinct_app _ _ _ _ (distinct_perm _ _ (cm_live _ _ _ _ Hc) Hd) Ha Hin) as E. cbn [fst] in E. rewrite keq_of_index in E by lia. done.
Qed.
Lemma compact_keep i a ns l n n' : compacting i a ns l -> (i < old)%nat -> ns !! i = Some n -> gnext n' = Null ->
  entry (gkey n') (gval n') = entry (gkey n) (gval n) -> (gval n' = VNil -> gkey n' = VNil) -> (gval n' <> VNil -> gkey n' <> VNil /\ in_array t0 (gkey n') = false) ->
  ((i < N)%nat \/ gval n = VNil) -> compacting (S i) a (<[i := n']> ns) l.
Proof.
  intros Hc Hi En Hx Ee Hk Hk' Hside. pose proof (lookup_lt_Some _ _ _ En) as Hl. destruct Hc as [c1 c2 c3 c4 c5 c6 (c7 & c8 & c9)]. split; try done.
  - by rewrite length_insert.
  - rewrite <- c4. apply Permutation_app_head. rewrite (counted_next N i ns n' Hl), (counted_at _ _ _ _ En), Ee. apply Permutation_app_head. case_decide; [done|].
    destruct Hside as [Hlt|Hnv]; [done|]. by rewrite Hnv.
  - intros j m Hj HjN Em. rewrite list_lookup_insert in Em. case_decide as E; simplify_eq; [done|]. apply (c5 j); try done. assert (i <> j) by tauto. lia.
  - intros j m Hj Em. rewrite list_lookup_insert_ne in Em by lia. apply (c6 j); [lia|done].
  - split_and!; [done|intros; apply c8; lia|]. intros j m Hj HjN Em. rewrite list_lookup_insert in Em. case_decide as E; simplify_eq; [|by apply (c9 j m)].
    destruct E as [-> _]. rewrite c8 in Hj; lia.
Qed.
Lemma compact_array i a ns l n : compacting i a ns l -> (i < old)%nat -> ns !! i = Some n -> gval n <> VNil -> in_array t0 (gkey n) = true ->
  compacting (S i) (<[Z.to_nat (arrayindex (gkey n) - 1) := gval n]> a) (<[i := MkNode VNil VNil Null]> ns) l.
Proof.
  intros Hc Hi En Hn Ha. pose proof (lookup_lt_Some _ _ _ En) as Hl. destruct (compacting_entry _ _ _ _ _ Hc En Hn) as (_ & _ & Hslot).
  apply in_array_spec in Ha as Hr. destruct Hs as [Hs1 Hs2]. set (idx := Z.to_nat (arrayindex (gkey n) - 1)).
  assert (Zlen a = Zlen (array t0)) as Ela by apply (cm_array _ _ _ _ Hc). assert (idx < Z.to_nat (sizearray t0))%nat as Hidx by (unfold idx; lia).
  destruct (lookup_lt_is_Some_2 a idx) as [v Ev]; [unfold Zlen in *; lia|].
  assert (take (Z.to_nat (sizearray t0)) a !! idx = Some v) as Ev' by (rewrite lookup_take; case_decide; [done|lia]).
  destruct (array_entries_insert 1 _ _ _ Ev') as (rest & E1 & E2 & _). replace (1 + Z.of_nat idx) with (arrayindex (gkey n)) in * by (unfold idx; lia).
  assert (v = VNil) as ->.
  { destruct (ttisnil v) eqn:Et; [by destruct v|]. exfalso. apply (Hslot v); [|done]. apply elem_of_array_entries. exists idx, v. split_and!; [done| |by destruct v].
    replace (1 + Z.of_nat idx) with (arrayindex (gkey n)) by (unfold idx; lia). done. }
  destruct Hc as [c1 c2 c3 c4 c5 c6 (c7 & c8 & c9)]. split; try done.
  - by rewrite length_insert.
  - unfold Zlen in *. by rewrite length_insert.
  - by rewrite drop_insert_lt.
  - rewrite <- c4, (counted_next N i ns _ Hl), (counted_at _ _ _ _ En), take_insert_lt, E1, E2 by done. rewrite <- (arrayindex_same (gkey n)) by lia.
    cbn [gkey gval]. change (entry VNil VNil) with (@nil (TValue * TValue)). destruct (decide _); solve_Permutation.
  - intros j m Hj HjN Em. rewrite list_lookup_insert in Em. case_decide as E; simplify_eq; [done|]. apply (c5 j); try done. assert (i <> j) by tauto. lia.
  - intros j m Hj Em. rewrite list_lookup_insert_ne in Em by lia. apply (c6 j); [lia|done].
  - split_and!; [done|intros; apply c8; lia|]. intros j m Hj HjN Em. rewrite list_lookup_insert in Em. case_decide as E; simplify_eq; [|by apply (c9 j m)].
    destruct E as [-> _]. rewrite c8 in Hj; lia.
Qed.
Lemma compact_down i a ns l n f nf : compacting i a ns l -> (i < old)%nat -> ns !! i = Some n -> gval n <> VNil -> in_array t0 (gkey n) = false -> gkey n <> VNil -> (N <= i)%nat ->
  Z.of_nat f < l -> ns !! f = Some nf -> gkey nf = VNil -> (forall j m, (f < j)%nat -> Z.of_nat j < l -> ns !! j = Some m -> gkey m <> VNil) ->
  compacting (S i) a (<[f := MkNode (gval n) (gkey n) Null]> (<[i := MkNode (gval n) (gkey n) Null]> ns)) (Z.of_nat f).
Proof.
  intros Hc Hi En Hn Ha Hk HNi Hfl Ef Hnf Hbetween. pose proof (lookup_lt_Some _ _ _ En) as Hl. destruct Hc as [c1 c2 c3 c4 c5 c6 (c7 & c8 & c9)].
  assert (f < N)%nat as HfN by lia. assert (gval nf = VNil) as Hvf.
  { destruct (ttisnil (gval nf)) eqn:Et; [by destruct (gval nf)|]. destruct (c5 f nf ltac:(lia) HfN Ef) as (_ & _ & Hx). destruct Hx as [Hx _]; [by destruct (gval nf)|done]. }
  split; try done.
  - by rewrite !length_insert.
  - rewrite <- c4. apply Permutation_app_head. rewrite (counted_at _ _ _ _ En). unfold counted. replace (S i `min` N)%nat with N by lia. replace (i `min` N)%nat with N by lia.
    rewrite node_entries_app, !drop_insert_lt, take_insert_lt, take_insert_ge by lia.
    destruct (node_entries_insert (take N ns) f nf) as (rest & E1 & E2 & _); [rewrite lookup_take; case_decide; [done|lia]|]. rewrite E1, E2, Hnf, Hvf. cbn [gkey gval].
    change (entry VNil VNil) with (@nil (TValue * TValue)). solve_Permutation.
  - intros j m Hj HjN Em. rewrite !list_lookup_insert in Em. repeat case_decide; destruct_and?; simplify_eq; [done|exfalso; lia|]. apply (c5 j); [lia|done|done].
  - intros j m Hj Em. rewrite !list_lookup_insert_ne in Em by lia. apply (c6 j); [lia|done].
  - split_and!; [lia|lia|]. intros j m Hj HjN Em. rewrite !list_lookup_insert in Em. repeat case_decide; destruct_and?; simplify_eq; [done|exfalso; lia|].
    destruct (decide (Z.of_nat j < l)) as [Hjl|Hjl]; [|apply (c9 j m); [lia|done|done]]. apply (Hbetween j m); [|done|done].
    destruct (decide (f = j)) as [->|]; [|lia]. exfalso. match goal with H : ~ (j = j /\ _) |- _ => apply H end. split; [done|]. rewrite length_insert. by apply lookup_lt_Some in Ef.
Qed.
(** There is room for a node that moves down. *)
Lemma compact_room i a ns l n : compacting i a ns l -> (N <= i)%nat -> ns !! i = Some n -> gval n <> VNil -> in_array t0 (gkey n) = false ->
  (forall j m, Z.of_nat j < l -> ns !! j = Some m -> gkey m <> VNil) -> False.
Proof.
  intros Hc HNi En Hn Ha Hfull. pose proof (lookup_lt_Some _ _ _ En) as Hl.
  assert (length (node_entries (take N ns)) = N) as Elen.
  { rewrite node_entries_full, length_take; [lia|]. apply Forall_lookup. intros j m [Em Hj]%lookup_take_Some.
    destruct (cm_done _ _ _ _ Hc j m ltac:(lia) Hj Em) as (_ & Hm & _). intros Ev. apply Hm in Ev.
    destruct (decide (Z.of_nat j < l)); [by apply (Hfull j m)|]. by apply (proj2 (proj2 (cm_free _ _ _ _ Hc)) j m ltac:(lia) Hj Em). }
  assert (Forall (fun p => in_array t0 p.1 = false) (node_entries (take N ns))) as Hin.
  { apply Forall_forall. intros p (j & m & [Em Hj]%lookup_take_Some & -> & Hm)%elem_of_node_entries. cbn.
    destruct (cm_done _ _ _ _ Hc j m ltac:(lia) Hj Em) as (_ & _ & Hx). by apply Hx. }
  assert (S N <= room)%nat; [|lia]. unfold room. rewrite <- (cm_live _ _ _ _ Hc), (counted_at _ _ _ _ En). replace (i `min` N)%nat with N by lia.
  rewrite !filter_app, !length_app. rewrite (filter_all _ (node_entries (take N ns))) by done. rewrite Elen. unfold entry.
  destruct (ttisnil (gval n)) eqn:Ev; [by destruct (gval n)|]. rewrite filter_cons_True by done. cbn. lia.
Qed.
Lemma compact_step i a ns l : compacting i a ns l -> (i < old)%nat -> exists a' ns' l', compact_node i (Z.of_nat N) (st a ns l) = Val (st a' ns' l', ()) /\ compacting (S i) a' ns' l'.
Proof.
  intros Hc Hi. pose proof (cm_len _ _ _ _ Hc) as Elen. destruct (lookup_lt_is_Some_2 ns i ltac:(lia)) as [n En].
  unfold compact_node. rewrite (tab_step _ _ _ _ _ (put_next_at (st a ns l) i n Null eq_refl En)). set (n0 := MkNode (gval n) (gkey n) Null).
  change (set_node _ false (st a ns l)) with (st a (<[i := n0]> ns) l). assert (<[i := n0]> ns !! i = Some n0) as En0 by (apply list_lookup_insert_eq; lia).
  rewrite (tab_step _ _ _ _ _ (get_node_at (st a (<[i := n0]> ns) l) _ _ En0)). cbn [gval n0]. destruct (ttisnil (gval n)) eqn:Ev.
  { assert (gval n = VNil) as Ev' by by destruct (gval n). rewrite (put_key_at (st a (<[i := n0]> ns) l) i n0 VNil eq_refl En0).
    exists a, (<[i := MkNode (gval n) VNil Null]> ns), l. split; [unfold st, set_node; cbn; by rewrite list_insert_insert_eq|]. eapply compact_keep; [done|done|done|done|..]; cbn.
    + by rewrite Ev'.
    + done.
    + by rewrite Ev'.
    + by right. }
  assert (gval n <> VNil) as Hn by by destruct (gval n). destruct (compacting_entry _ _ _ _ _ Hc En Hn) as (_ & Hk & _).
  assert (sized (st a (<[i := n0]> ns) l)) as Hs' by (unfold sized; cbn; rewrite (cm_array _ _ _ _ Hc); apply Hs).
  pose proof (move_number_spec (st a (<[i := n0]> ns) l) i n0 eq_refl Hs' En0 Hk) as Em. change (in_array (st a (<[i := n0]> ns) l)) with (in_array t0) in Em. cbn [gkey n0] in Em.
  destruct (in_array t0 (gkey n)) eqn:Ha; rewrite (tab_step _ _ _ _ _ Em).
  { exists (<[Z.to_nat (arrayindex (gkey n) - 1) := gval n]> a), (<[i := MkNode VNil VNil Null]> ns), l.
    split; [unfold st, set_node, set_array; cbn; by rewrite list_insert_insert_eq|]. by apply compact_array. }
  destruct (Z.leb_spec (Z.of_nat N) (Z.of_nat i)) as [HN'|HN'].
  2:{ exists a, (<[i := n0]> ns), l. split; [done|]. eapply compact_keep; try done; [|left; lia]. intros _. split; [apply Hk|done]. }
  assert (lastfree (st a (<[i := n0]> ns) l) <= Zlen (node (st a (<[i := n0]> ns) l))) as Hlf.
  { cbn. unfold Zlen. rewrite length_insert. pose proof (proj1 (cm_free _ _ _ _ Hc)). lia. }
  destruct (getfreepos_spec _ Hlf) as (l' & r & Er & Hl' & Hr). rewrite (tab_step _ _ _ _ _ Er). cbn [lastfree node st set_lastfree set_node] in Hl', Hr.
  pose proof (proj1 (cm_free _ _ _ _ Hc)) as HlN.
  destruct r as [f|]; [|exfalso; eapply (compact_room i a ns l n); try done; [lia|]].
  - destruct Hr as (-> & (nf & Ef & Hnf) & Hbetween). exists a, (<[f := n0]> (<[i := n0]> ns)), (Z.of_nat f). split.
    + rewrite put_node_at; [done|done|]. by apply lookup_lt_Some in Ef.
    + rewrite list_lookup_insert_ne in Ef by lia. eapply compact_down; try done; [apply Hk|lia|].
      intros j m Hj Hjl Ejm. apply (Hbetween j m Hj Hjl). by rewrite list_lookup_insert_ne by lia.
  - intros j m Hj Ejm. apply (Hr j m Hj). by rewrite list_lookup_insert_ne by lia.
Qed.
Lemma compact_loop_spec n : forall i a ns l, compacting i a ns l -> (i + n = old)%nat ->
  exists a' ns' l', compact_loop n i (Z.of_nat N) (st a ns l) = Val (st a' ns' l', ()) /\ compacting old a' ns' l'.
Proof.
  induction n as [|n IH]; intros i a ns l Hc Hi; [exists a, ns, l; split; [done|]; by replace old with i by lia|].
  destruct (compact_step i a ns l Hc ltac:(lia)) as (a1 & ns1 & l1 & E1 & Hc1). destruct (IH (S i) a1 ns1 l1 Hc1 ltac:(lia)) as (a2 & ns2 & l2 & E2 & Hc2).
  exists a2, ns2, l2. split; [|done]. cbn [compact_loop]. by rewrite (tab_step _ _ _ _ _ E1).
Qed.
(** What is left is the first [N] nodes, without links. *)
Lemma compacted a ns l : compacting old a ns l -> ((old <= N)%nat /\ N = length (node t0)) \/ ((N <= old)%nat /\ old = length (node t0)) ->
  length (take N ns) = N /\ array_entries 1 (take (Z.to_nat (sizearray t0)) a) ++ node_entries (take N ns) ≡ₚ live t0 /\
  forall j n, take N ns !! j = Some n -> gnext n = Null /\ (gval n = VNil -> gkey n = VNil) /\ (gval n <> VNil -> gkey n <> VNil /\ in_array t0 (gkey n) = false).
Proof.
  clear HN Hold Hroom Hd Hv Hs. intros Hc Hcase. pose proof (cm_len _ _ _ _ Hc) as El. split_and!.
  - rewrite length_take. lia.
  - rewrite <- (cm_live _ _ _ _ Hc). unfold counted. apply Permutation_app_head. destruct Hcase as [[Hle E]|[Hle E]].
    + rewrite (take_ge ns) by lia. replace (old `min` N)%nat with old by lia. by rewrite take_drop.
    + rewrite (drop_ge ns) by lia. replace (old `min` N)%nat with N by lia. by rewrite app_nil_r.
  - intros j n [En Hj]%lookup_take_Some. destruct (decide (j < old)%nat) as [Hlt|Hge]; [by apply (cm_done _ _ _ _ Hc j)|].
    destruct (cm_todo _ _ _ _ Hc j n ltac:(lia) En) as [_ Hn]. rewrite (Hn ltac:(lia)). done.
Qed.
End compacting.

(** ** The hash part resized *)
Record loose (t : Table) : Prop := MkLoose {
  ls_sized : sized t;
  ls_lsize : 0 <= lsizenode t <= MAXBITS;
  ls_node : Zlen (node t) = 2 ^ lsizenode t;
  ls_dummy : dummy t = true -> node t = [dummynode];
  ls_raw : raw (node t);
  ls_distinct : distinct (live t);
  ls_valid : Forall (fun p => valid_key p.1) (live t);
}.
Definition resized (t t' : Table) : Prop :=
  wf t' /\ clean (node t') /\ live t' ≡ₚ live t /\ sizearray t' = sizearray t /\ rest_of_array t' = rest_of_array t /\ Zlen (array t') = Zlen (array t) /\
  lastfree t' = Zlen (node t') /\ dummy t' = false.
Lemma placing_start t : dummy t = false -> 0 <= lsizenode t <= MAXBITS -> Zlen (node t) = 2 ^ lsizenode t -> distinct (node_entries (node t)) ->
  (forall j n, node t !! j = Some n -> gnext n = Null /\ (gval n = VNil -> gkey n = VNil) /\ (gval n <> VNil -> gkey n <> VNil)) -> placing 0 t.
Proof.
  intros Hd Hl El Hdis Hn. assert (forall j, nx (node t) j = None) as Hx.
  { intros j. unfold nx. destruct (node t !! j) eqn:En; [|done]. cbn. unfold link_of. by rewrite (proj1 (Hn _ _ En)). }
  assert (clean (node t)) as Hcl by (intros j n En; apply (Hn _ _ En)). split; try done.
  - apply (chained_intro _ (fun _ => None)); [split; [done|by exists (fun _ => O)]|done|done|].
    intros j n En. destruct (Hn _ _ En) as (E & _ & Hk). rewrite E. split; [done|]. intros Ek. split; [done|]. destruct (ttisnil (gval n)) eqn:Ev; [by destruct (gval n)|].
    exfalso. apply Hk; [by destruct (gval n)|done].
  - by apply distinct_unique_keys.
  - intros j k _. right. split; [lia|]. split; [done|]. intros a. by rewrite Hx.
Qed.
Lemma chain_loop_wf t N : dummy t = false -> sized t -> 0 <= lsizenode t <= MAXBITS -> Zlen (node t) = 2 ^ lsizenode t -> lastfree t = Zlen (node t) -> length (node t) = N ->
  distinct (live t) -> Forall (fun p => valid_key p.1) (live t) ->
  (forall j n, node t !! j = Some n -> gnext n = Null /\ (gval n = VNil -> gkey n = VNil) /\ (gval n <> VNil -> gkey n <> VNil /\ in_array t (gkey n) = false)) ->
  exists t', chain_loop N 0 t = Val (t', ()) /\ resized t t' /\ length (node t') = N.
Proof.
  intros Hd Hs Hl El Hf HN Hdis Hv Hn. destruct (chain_loop_spec N 0 t) as (t' & E & Hp & (ns & -> & Elen & Hperm & Hkeys)); [|lia|].
  { apply placing_start; try done; [by apply distinct_app_r in Hdis|]. intros j n En. destruct (Hn _ _ En) as (? & ? & Hk). split_and!; [done|done|]. intros Hv'. by apply Hk. }
  eexists. split; [exact E|]. assert (Zlen ns = Zlen (node t)) as Ez by (unfold Zlen; by rewrite Elen). split; [|cbn; congruence].
  split_and!; try done; [|apply (pl_clean _ _ Hp)|unfold live; cbn; by rewrite Hperm|cbn; by rewrite Ez].
  destruct Hp as [p1 p2 p3 p4 p5 p6 p7]. destruct Hs as [Hs1 Hs2]. split; cbn in *; try done.
  - by rewrite Hf, Ez.
  - intros j k Hk. destruct (p7 j k Hk) as [?|[Hj _]]; [done|]. destruct Hk as [Ek _]. apply lookup_lt_Some in Ek. rewrite length_fmap in Ek. lia.
  - intros i k Hk. apply Hkeys in Hk as [j Hk]. apply keyed_used in Hk as (n & [En Hkn] & <-). destruct (Hn _ _ En) as (_ & Hc & Hk).
    assert (gval n <> VNil) as Hvn by auto. split; [|by apply Hk]. rewrite Forall_forall in Hv. apply (Hv (gkey n, gval n)). apply elem_of_app. right. apply elem_of_node_entries. eauto.
Qed.
Definition room (t : Table) : nat := length (filter (fun p => in_array t p.1 = false) (live t)).
Lemma node_entries_stale ns : node_entries (map stale ns) = node_entries ns.
Proof. induction ns as [|n ns IH]; [done|]. cbn [map]. by rewrite !node_entries_cons, IH. Qed.
Lemma node_entries_blank k : node_entries (replicate k (MkNode VNil VNil Null)) = [].
Proof. induction k as [|k IH]; [done|]. cbn [replicate]. by rewrite node_entries_cons, IH. Qed.
Lemma resizenodevector_at t old l (N := 2 ^ l) (o := if dummy t then 0 else old) : 0 <= l <= MAXBITS ->
  resizenodevector old N t = Val (set_lastfree N (set_lsizenode l (set_node (take (Z.to_nat N) (map stale (take (Z.to_nat o) (node t))) ++
    replicate (Z.to_nat (N - o)) (MkNode VNil VNil Null)) false t)), ()).
Proof.
  intros Hl. change MAXBITS with 26 in Hl. pose proof (Z.pow_le_mono_r 2 l 26 ltac:(lia) ltac:(lia)) as Hp. pose proof (Z.pow_pos_nonneg 2 l ltac:(lia) ltac:(lia)) as Hp'.
  change (2 ^ 26) with 67108864 in Hp. unfold resizenodevector, N. rewrite asks_step, (proj2 (Z.eqb_neq _ _)) by lia.
  rewrite (reads_step _ _ t l) by (rewrite ceillog2_eq, Z.log2_up_pow2 by lia; done). rewrite (proj2 (Z.ltb_ge _ _)) by (change MAXBITS with 26; lia).
  rewrite twoto_pow by lia. done.
Qed.
Lemma st_self t : dummy t = false -> set_lastfree (lastfree t) (set_node (node t) false (set_array (array t) t)) = t.
Proof. destruct t; cbn. by intros ->. Qed.
Lemma compact_all t old N : dummy t = false -> sized t -> distinct (live t) -> Forall (fun p => valid_key p.1) (live t) -> (room t <= N)%nat -> lastfree t = Z.of_nat N ->
  raw (node t) -> (forall j n, (old <= j)%nat -> node t !! j = Some n -> n = MkNode VNil VNil Null) ->
  ((old <= N)%nat /\ N = length (node t)) \/ ((N <= old)%nat /\ old = length (node t)) ->
  exists a ns l, compact_loop old 0 (Z.of_nat N) t = Val (set_lastfree l (set_node ns false (set_array a t)), ()) /\ compacting t old N old a ns l.
Proof.
  intros Hd Hs Hdis Hv Hroom Hf Hraw Hblank Hcase. destruct (compact_loop_spec t old N Hs ltac:(lia) ltac:(lia) Hdis Hv Hroom old 0 (array t) (node t) (lastfree t)) as (a & ns & l & E & Hc).
  - split; try done; try lia.
    + intros j n _ En. split; [|intros; by eapply Hblank]. unfold raw in Hraw. rewrite Forall_lookup in Hraw. by eapply Hraw.
    + rewrite Hf. split_and!; [lia|done|lia].
  - lia.
  - rewrite st_self in E by done. by exists a, ns, l.
Qed.
Lemma compact_finish t old N a ns l : dummy t = false -> sized t -> distinct (live t) -> Forall (fun p => valid_key p.1) (live t) ->
  0 <= lsizenode t <= MAXBITS -> Z.of_nat N = 2 ^ lsizenode t -> compacting t old N old a ns l ->
  ((old <= N)%nat /\ N = length (node t)) \/ ((N <= old)%nat /\ old = length (node t)) ->
  exists t', chain_loop N 0 (set_lastfree (Z.of_nat N) (set_node (take N ns) false (set_array a t))) = Val (t', ()) /\ resized t t' /\ length (node t') = N.
Proof.
  intros Hd [Hs1 Hs2] Hdis Hv Hl HN Hc Hcase. destruct (compacted t old N a ns l Hc Hcase) as (Elen & Hperm & Hn). set (t3 := set_lastfree _ _).
  assert (live t3 ≡ₚ live t) as Hlive by exact Hperm. assert (Zlen (take N ns) = Z.of_nat N) as Ez by (unfold Zlen; by rewrite Elen).
  destruct (chain_loop_wf t3 N) as (t' & E & (r1 & r2 & r3 & r4 & r5 & r6 & r7 & r8) & El); try done.
  - split; [done|]. cbn. by rewrite (cm_array _ _ _ _ _ _ _ Hc).
  - cbn. by rewrite Ez.
  - by eapply distinct_perm.
  - by rewrite Hlive.
  - exists t'. split; [done|]. split; [|done]. split_and!; try done; [by rewrite r3| |].
    + rewrite r5. apply (cm_rest _ _ _ _ _ _ _ Hc).
    + rewrite r6. apply (cm_array _ _ _ _ _ _ _ Hc).
Qed.
Definition old_size (t : Table) : Z := if dummy t then 0 else sizenode t.
Definition new_lsize (nh : Z) : Z := if 0 <? nh then Z.log2_up nh else 0.
Definition resize_rest (o N : Z) : tab () :=
  _ ← compact_loop (Z.to_nat o) 0 N;
  _ ← (if N <? o then resizenodevector o N else mret () : tab ());
  chain_loop (Z.to_nat N) 0.
Lemma resize_rest_spec t old N : dummy t = false -> sized t -> distinct (live t) -> Forall (fun p => valid_key p.1) (live t) ->
  0 <= lsizenode t <= MAXBITS -> Z.of_nat N = 2 ^ lsizenode t -> (room t <= N)%nat -> lastfree t = Z.of_nat N -> raw (node t) ->
  (forall j n, (old <= j)%nat -> node t !! j = Some n -> n = MkNode VNil VNil Null) ->
  ((old <= N)%nat /\ N = length (node t)) \/ ((N <= old)%nat /\ old = length (node t)) ->
  exists t', resize_rest (Z.of_nat old) (Z.of_nat N) t = Val (t', ()) /\ resized t t' /\ length (node t') = N.
Proof.
  intros Hd Hs Hdis Hv Hl HN Hroom Hf Hraw Hblank Hcase. destruct (compact_all t old N Hd Hs Hdis Hv Hroom Hf Hraw Hblank Hcase) as (a & ns & l & E & Hc).
  destruct (compact_finish t old N a ns l Hd Hs Hdis Hv Hl HN Hc Hcase) as (t' & E' & Hr). exists t'. split; [|exact Hr]. rewrite <- E'. unfold resize_rest. rewrite !Nat2Z.id.
  rewrite (tab_step _ _ _ _ _ E). set (t2 := set_lastfree l _). destruct (compacted t old N a ns l Hc Hcase) as (_ & _ & Hn).
  assert ((if Z.of_nat N <? Z.of_nat old then resizenodevector (Z.of_nat old) (Z.of_nat N) else mret () : tab ()) t2 = Val (set_lastfree (Z.of_nat N) (set_node (take N ns) false (set_array a t)), ())) as E2;
    [|by rewrite (tab_step _ _ _ _ _ E2)].
  pose proof (cm_len _ _ _ _ _ _ _ Hc) as Elen. destruct (Z.ltb_spec (Z.of_nat N) (Z.of_nat old)) as [Hlt|Hge].
  - rewrite HN at 1. rewrite resizenodevector_at by done. rewrite <- HN. cbn [dummy t2 set_lastfree set_node set_array]. rewrite !Nat2Z.id.
    replace (Z.to_nat (Z.of_nat N - Z.of_nat old)) with O by lia. cbn [node replicate]. rewrite app_nil_r, (take_ge ns) by lia.
    assert (take N (map stale ns) = take N ns) as ->; [|by destruct t].
    rewrite <- fmap_take. apply list_eq. intros j. rewrite list_lookup_fmap. destruct (take N ns !! j) as [n|] eqn:En; [|done]. cbn. f_equal.
    destruct (Hn _ _ En) as [Ex _]. destruct n; cbn in *. by subst.
  - rewrite take_ge by lia. unfold t2. rewrite (proj1 (proj2 (cm_free _ _ _ _ _ _ _ Hc)) ltac:(lia)). done.
Qed.
Lemma log2_up_max nh : 0 < nh -> (MAXBITS <? Z.log2_up nh) = (MAXASIZE <? nh).
Proof.
  intros Hn. apply eq_true_iff_eq. rewrite !Z.ltb_lt. change MAXBITS with 26. change MAXASIZE with (2 ^ 26).
  pose proof (Z.log2_up_le_pow2 nh 26 Hn). lia.
Qed.
Lemma loose_old t : loose t -> 0 <= old_size t <= Zlen (node t) /\ (dummy t = false -> old_size t = Zlen (node t)).
Proof.
  intros Hl. unfold old_size, sizenode. pose proof (ls_lsize _ Hl). rewrite twoto_pow, (ls_node _ Hl) by lia.
  pose proof (Z.pow_pos_nonneg 2 (lsizenode t) ltac:(lia) ltac:(lia)). destruct (dummy t); [lia|]. split; [lia|done].
Qed.
Lemma resize_grow t l (N := Z.to_nat (2 ^ l)) : loose t -> 0 <= l <= MAXBITS -> old_size t < 2 ^ l -> (room t <= N)%nat ->
  exists t', (_ ← resizenodevector (old_size t) (2 ^ l); resize_rest (old_size t) (2 ^ l) : tab ()) t = Val (t', ()) /\ resized t t' /\ length (node t') = N.
Proof.
  intros Hl Hlr Ho Hroom. pose proof (loose_old t Hl) as [Ho1 Ho2]. destruct Hl as [l1 l2 l3 l4 l5 l6 l7]. rewrite (tab_step _ _ _ _ _ (resizenodevector_at t (old_size t) l Hlr)).
  assert ((if dummy t then 0 else old_size t) = old_size t) as -> by (unfold old_size; by destruct (dummy t)). set (t1 := set_lastfree _ _).
  assert (map stale (take (Z.to_nat (old_size t)) (node t)) = if dummy t then [] else map stale (node t)) as Eold.
  { destruct (dummy t) eqn:Ed; [unfold old_size; by rewrite Ed|]. rewrite Ho2, take_ge by (unfold Zlen; done || lia). done. }
  assert (length (map stale (take (Z.to_nat (old_size t)) (node t))) = Z.to_nat (old_size t)) as Elen.
  { rewrite length_map, length_take. unfold Zlen in Ho1. lia. }
  assert (node t1 = map stale (take (Z.to_nat (old_size t)) (node t)) ++ replicate (Z.to_nat (2 ^ l - old_size t)) (MkNode VNil VNil Null)) as Enode.
  { unfold t1. cbn [node set_lastfree set_lsizenode set_node]. by rewrite take_ge by (rewrite Elen; lia). }
  assert (node_entries (node t1) = node_entries (node t)) as Eent.
  { rewrite Enode, node_entries_app, node_entries_blank, app_nil_r, Eold. destruct (dummy t) eqn:Ed; [by rewrite (l4 eq_refl)|apply node_entries_stale]. }
  assert (live t1 = live t) as Elive by (unfold live; by rewrite Eent).
  assert (2 ^ l = Z.of_nat N) as EN by (unfold N; lia).
  destruct (resize_rest_spec t1 (Z.to_nat (old_size t)) N) as (t' & E & Hr & HlN); try done; rewrite ?Elive; try done.
  - unfold room. by rewrite Elive.
  - rewrite Enode. apply Forall_app. split.
    + apply Forall_lookup. intros j n En. rewrite Eold in En. destruct (dummy t); [done|]. apply list_lookup_fmap_Some in En as (m & -> & Em). unfold raw in l5. rewrite Forall_lookup in l5. by eapply (l5 j m).
    + apply Forall_replicate. done.
  - intros j n Hj. rewrite Enode, lookup_app_r by lia. intros Ej. by apply lookup_replicate in Ej as [-> _].
  - left. split; [lia|]. rewrite Enode, length_app, Elen, length_replicate. lia.
  - exists t'. rewrite Z2Nat.id in E by lia. rewrite EN. split; [done|]. split; [|done]. destruct Hr as (r1 & r2 & r3 & r4 & r5 & r6 & r7 & r8). rewrite Elive in r3. by split_and!.
Qed.
Lemma resize_shrink t l (N := Z.to_nat (2 ^ l)) : loose t -> 0 <= l <= MAXBITS -> 2 ^ l <= old_size t -> (room t <= N)%nat ->
  exists t', (_ ← modify (set_lsizenode l); _ ← modify (set_lastfree (2 ^ l)); resize_rest (old_size t) (2 ^ l) : tab ()) t = Val (t', ()) /\ resized t t' /\ length (node t') = N.
Proof.
  intros Hl Hlr Ho Hroom. pose proof (loose_old t Hl) as [Ho1 Ho2]. pose proof (Z.pow_pos_nonneg 2 l ltac:(lia) ltac:(lia)).
  assert (dummy t = false) as Hd. { destruct (dummy t) eqn:Ed; [|done]. unfold old_size in Ho. rewrite Ed in Ho. lia. }
  destruct Hl as [l1 l2 l3 l4 l5 l6 l7]. rewrite !modify_step. set (t1 := set_lastfree _ _). assert (2 ^ l = Z.of_nat N) as EN by (unfold N; lia).
  specialize (Ho2 Hd). destruct (resize_rest_spec t1 (Z.to_nat (old_size t)) N) as (t' & E & Hr & HlN); try done.
  - cbn. intros j n Hj Ej. apply lookup_lt_Some in Ej. unfold Zlen in *. lia.
  - right. split; [lia|]. cbn. unfold Zlen in *. lia.
  - exists t'. rewrite Z2Nat.id in E by lia. rewrite EN. by split_and!.
Qed.
Lemma resize_hashpart_spec t nh : loose t -> 0 <= nh < 4294967296 -> (room t <= Z.to_nat (2 ^ new_lsize nh))%nat ->
  MAXASIZE < nh /\ resize_hashpart nh t = Raise TableOverflow \/
  nh <= MAXASIZE /\ exists t', resize_hashpart nh t = Val (t', ()) /\ resized t t' /\ length (node t') = Z.to_nat (2 ^ new_lsize nh).
Proof.
  intros Hl Hn Hroom. unfold resize_hashpart. rewrite asks_step. change (if dummy t then 0 else sizenode t) with (old_size t).
  assert (MAXASIZE < nh /\ (if 0 <? nh then l ← reads_table (fun _ => ceillog2 nh); if MAXBITS <? l then raise TableOverflow else mret l else mret 0 : tab Z) t = Raise TableOverflow \/
    nh <= MAXASIZE /\ 0 <= new_lsize nh <= MAXBITS /\ (if 0 <? nh then l ← reads_table (fun _ => ceillog2 nh); if MAXBITS <? l then raise TableOverflow else mret l else mret 0 : tab Z) t = Val (t, new_lsize nh)) as [[Hb E]|(Hb & Hlr & E)].
  { unfold new_lsize. destruct (Z.ltb_spec 0 nh) as [Hp|Hp]; [|right; split_and!; [|done..]; by change MAXASIZE with 67108864; lia].
    rewrite (reads_step _ _ t (Z.log2_up nh)) by (by rewrite ceillog2_eq by lia). pose proof (log2_up_max nh Hp) as El. rewrite El.
    destruct (Z.ltb_spec MAXASIZE nh); [by left|right]. split_and!; [done|apply Z.log2_up_nonneg| |done]. by apply Z.ltb_ge in El. }
  - left. split; [done|]. unfold mbind at 1, tab_bind at 1. by rewrite E.
  - right. split; [done|]. rewrite (tab_step _ _ _ _ _ E), twoto_pow by lia. pose proof (Z.pow_pos_nonneg 2 (new_lsize nh) ltac:(lia) ltac:(lia)).
    destruct (Z.ltb_spec (old_size t) (2 ^ new_lsize nh)); [by apply resize_grow|]. rewrite (proj2 (Z.ltb_lt 0 _)) by lia. by apply resize_shrink.
Qed.
End compact.
