(* ===== verification/LuaTableGrow.v ===== *)
(** The sizes of the two parts of a table of LuaTable.v, rehashing, and
    insertion with it: counting the integer keys, the optimal size of the array
    part, and the elements that change their part. *)
From stdpp Require Import relations.
From S2P Require Import Prelude LuaStr LuaFormat LuaLex LuaTable LuaTableChain LuaTableHash LuaTablePlace LuaTableRehash.

Section count.
  Context `{NumbersLaws}.
Notation keq := luaO_rawequalObj.
(** ** Counting *)
Definition counts {A} (f : A -> bool) (l : list A) : Z := Z.of_nat (length (filter (fun x => f x = true) l)).
Lemma counts_cons {A} (f : A -> bool) x l : counts f (x :: l) = (if f x then 1 else 0) + counts f l.
Proof. unfold counts. rewrite filter_cons. destruct (f x); case_decide; try done; cbn [length]; lia. Qed.
Lemma counts_app {A} (f : A -> bool) l l' : counts f (l ++ l') = counts f l + counts f l'.
Proof. unfold counts. rewrite filter_app, length_app. lia. Qed.
Lemma counts_perm {A} (f : A -> bool) l l' : l ≡ₚ l' -> counts f l = counts f l'.
Proof. intros E. unfold counts. by rewrite E. Qed.
Lemma counts_nonneg {A} (f : A -> bool) l : 0 <= counts f l.
Proof. unfold counts. lia. Qed.
Lemma counts_le {A} (f g : A -> bool) l : (forall x, f x = true -> g x = true) -> counts f l <= counts g l.
Proof. intros Hfg. induction l as [|x l IH]; [done|]. rewrite !counts_cons. specialize (Hfg x). destruct (f x), (g x); try lia; by specialize (Hfg eq_refl). Qed.
Lemma counts_add {A} (f g h : A -> bool) l : (forall x, (if h x then 1 else 0) = (if f x then 1 else 0) + (if g x then 1 else 0)) -> counts h l = counts f l + counts g l.
Proof. intros Hh. induction l as [|x l IH]; [done|]. rewrite !counts_cons, Hh, IH. lia. Qed.
Lemma counts_all {A} (f : A -> bool) l : Forall (fun x => f x = true) l -> counts f l = Zlen l.
Proof. induction 1 as [|x l Hx _ IH]; [done|]. by rewrite counts_cons, Hx, IH, Zlen_cons. Qed.
Lemma counts_none {A} (f : A -> bool) l : Forall (fun x => f x = false) l -> counts f l = 0.
Proof. induction 1 as [|x l Hx _ IH]; [done|]. by rewrite counts_cons, Hx, IH. Qed.
Lemma counts_len {A} (f : A -> bool) l : counts f l <= Zlen l.
Proof. induction l as [|x l IH]; [done|]. rewrite counts_cons, Zlen_cons. destruct (f x); lia. Qed.
(** Keys that belong to an array part of the size [n], and to the slice
    [(2^(lg-1), 2^lg]]. *)
Definition within (n : Z) (p : TValue * TValue) : bool := (0 <? arrayindex p.1) && (arrayindex p.1 <=? n).
Definition in_slice (lg : Z) (p : TValue * TValue) : bool := within MAXASIZE p && (Z.log2_up (arrayindex p.1) =? lg).
Lemma within_spec n p : within n p = true <-> 0 < arrayindex p.1 <= n.
Proof. unfold within. rewrite andb_true_iff, Z.ltb_lt, Z.leb_le. done. Qed.
Lemma in_slice_spec lg p : in_slice lg p = true <-> 0 < arrayindex p.1 <= MAXASIZE /\ Z.log2_up (arrayindex p.1) = lg.
Proof. unfold in_slice. by rewrite andb_true_iff, within_spec, Z.eqb_eq. Qed.
(** At most [n] keys fit into [n] places. *)
Lemma within_le n l : 0 <= n -> distinct l -> counts (within n) l <= n.
Proof.
  intros Hn Hd. unfold counts. set (m := map (fun p => arrayindex p.1) (filter (fun x => within n x = true) l)).
  assert (length m <= length (seqZ 1 n))%nat as Hl; [|unfold m in Hl; rewrite length_map, length_seqZ in Hl; lia].
  apply submseteq_length, NoDup_submseteq.
  - unfold m. clear Hn m. induction l as [|p l IH]; [by apply NoDup_nil_2|]. apply distinct_cons in Hd as [Hp Hd]. rewrite filter_cons. case_decide as Hw; [|by apply IH].
    cbn. apply NoDup_cons. split; [|by apply IH]. rewrite list_elem_of_fmap. intros (q & E & Hq). apply list_elem_of_filter in Hq as [Hq Hin].
    rewrite Forall_forall in Hp. specialize (Hp q Hin). apply within_spec in Hw, Hq. rewrite (arrayindex_same q.1), <- E in Hp by lia.
    rewrite keq_sym, keq_of_index in Hp by lia. done.
  - intros x Hx. apply list_elem_of_fmap in Hx as (p & -> & Hp). apply list_elem_of_filter in Hp as [Hp _]. apply within_spec in Hp. apply elem_of_seqZ. lia.
Qed.
Lemma within_pow i l : 0 <= i <= MAXBITS -> counts (within (2 ^ i)) l = (if i =? 0 then 0 else counts (within (2 ^ (i - 1))) l) + counts (in_slice i) l.
Proof.
  intros Hi. change MAXBITS with 26 in Hi. pose proof (Z.pow_le_mono_r 2 i 26 ltac:(lia) ltac:(lia)) as Hp. change (2 ^ 26) with MAXASIZE in Hp.
  destruct (Z.eqb_spec i 0) as [->|Hi0].
  - rewrite Z.add_0_l. unfold counts. do 2 f_equal. apply list_filter_iff. intros p. rewrite within_spec, in_slice_spec. change (2 ^ 0) with 1.
    change MAXASIZE with 67108864. split; [intros Hr; replace (arrayindex p.1) with 1 by lia; split; [lia|done]|]. intros [Hr E]. apply Z.log2_up_null in E. lia.
  - apply counts_add. intros p. assert (within (2 ^ (i - 1)) p = true -> within (2 ^ i) p = true) as Hm1.
    { rewrite !within_spec. pose proof (Z.pow_le_mono_r 2 (i - 1) i). lia. }
    assert (in_slice i p = true <-> within (2 ^ i) p = true /\ within (2 ^ (i - 1)) p = false) as Hm2.
    { rewrite in_slice_spec, <- not_true_iff_false, !within_spec. clear Hm1.
      assert (0 < arrayindex p.1 -> (arrayindex p.1 <= 2 ^ i <-> Z.log2_up (arrayindex p.1) <= i) /\ (arrayindex p.1 <= 2 ^ (i - 1) <-> Z.log2_up (arrayindex p.1) <= i - 1)) as Hlg.
      { intros Hr. split; by apply Z.log2_up_le_pow2. }
      destruct (Z.ltb_spec 0 (arrayindex p.1)) as [Hr|Hr]; [specialize (Hlg Hr)|clear Hlg]; lia. }
    destruct (within (2 ^ i) p), (within (2 ^ (i - 1)) p), (in_slice i p); try done; naive_solver.
Qed.
(** The vector [nums] after the keys of [l]. *)
Definition tallied (nums : list Z) (l : list (TValue * TValue)) : Prop :=
  length nums = 27%nat /\ forall lg, 0 <= lg <= MAXBITS -> bget nums lg = Ok (counts (in_slice lg) l).
Lemma tallied_perm nums l l' : l ≡ₚ l' -> tallied nums l -> tallied nums l'.
Proof. intros E [Hl Hn]. split; [done|]. intros lg Hlg. by rewrite Hn, (counts_perm _ _ _ E). Qed.
Lemma tallied_nil : tallied (replicate (Z.to_nat (MAXBITS + 1)) 0) [].
Proof. split; [done|]. intros lg Hlg. change MAXBITS with 26 in Hlg. apply bget_Ok. split; [lia|]. apply lookup_replicate. split; [done|]. change MAXBITS with 26. lia. Qed.
Lemma count_as_spec nums l lg n l' : tallied nums l -> 0 <= lg <= MAXBITS ->
  (forall i, 0 <= i <= MAXBITS -> counts (in_slice i) l' = counts (in_slice i) l + if i =? lg then n else 0) ->
  exists nums', count_as lg n nums = Val nums' /\ tallied nums' l'.
Proof.
  intros [Hl Hn] Hlg Hl'. unfold count_as. rewrite Hn by done. cbn [of_res mbind outcome_bind]. change MAXBITS with 26 in *. rewrite bset_in by (unfold Zlen; lia).
  eexists. split; [done|]. split; [by rewrite length_insert|]. intros i Hi. change MAXBITS with 26 in Hi. rewrite Hl' by done. specialize (Hn i Hi). apply bget_Ok in Hn as [_ En].
  apply bget_Ok. split; [lia|]. destruct (Z.eqb_spec i lg) as [->|Hne]; [apply list_lookup_insert_eq; lia|].
  rewrite list_lookup_insert_ne by lia. by rewrite Z.add_0_r.
Qed.
Lemma countint_spec nums l k v : tallied nums l -> exists nums', countint k nums = Val (nums', if within MAXASIZE (k, v) then 1 else 0) /\ tallied nums' ((k, v) :: l).
Proof.
  intros Ht. unfold countint. change ((0 <? arrayindex k) && (arrayindex k <=? MAXASIZE)) with (within MAXASIZE (k, v)).
  destruct (within MAXASIZE (k, v)) eqn:Ew.
  - apply within_spec in Ew as Hr. cbn [fst] in Hr. change MAXASIZE with 67108864 in Hr. rewrite ceillog2_eq by lia. cbn [mbind outcome_bind].
    destruct (count_as_spec nums l (Z.log2_up (arrayindex k)) 1 ((k, v) :: l) Ht) as (nums' & -> & Ht').
    + split; [apply Z.log2_up_nonneg|]. change MAXBITS with 26. apply Z.log2_up_le_pow2; [lia|]. change (2 ^ 26) with 67108864. lia.
    + intros i Hi. rewrite counts_cons. unfold in_slice at 1. rewrite Ew. cbn [fst]. rewrite (Z.eqb_sym i). destruct (_ =? i); cbn; lia.
    + by exists nums'.
  - exists nums. split; [done|]. destruct Ht as [Hl Hn]. split; [done|]. intros lg Hlg. rewrite counts_cons. unfold in_slice at 1. rewrite Ew. by rewrite Hn.
Qed.
Lemma numusehash_loop_spec i : forall t a u nums l, (i <= length (node t))%nat -> tallied nums l -> exists nums',
  numusehash_loop i t a u nums = Val (nums', a + counts (within MAXASIZE) (node_entries (take i (node t))), u + Zlen (node_entries (take i (node t)))) /\
  tallied nums' (node_entries (take i (node t)) ++ l).
Proof.
  induction i as [|i IH]; intros t a u nums l Hi Ht; cbn [numusehash_loop].
  { exists nums. split; [|done]. change (node_entries (take 0 (node t))) with (@nil (TValue * TValue)). change (Zlen (@nil (TValue * TValue))) with 0. change (counts (within MAXASIZE) []) with 0. by rewrite !Z.add_0_r. }
  destruct (lookup_lt_is_Some_2 (node t) i ltac:(lia)) as [n En]. unfold at_node. rewrite En. cbn [mbind outcome_bind].
  rewrite (take_S_r _ _ _ En), node_entries_app, node_entries_cons. change (node_entries []) with (@nil (TValue * TValue)). rewrite app_nil_r. unfold entry.
  destruct (ttisnil (gval n)).
  - rewrite app_nil_r. apply IH; [lia|done].
  - destruct (countint_spec nums l (gkey n) (gval n) Ht) as (nums1 & -> & Ht1). cbn [mbind outcome_bind].
    destruct (IH t (a + if within MAXASIZE (gkey n, gval n) then 1 else 0) (u + 1) nums1 _ ltac:(lia) Ht1) as (nums2 & -> & Ht2). exists nums2.
    rewrite counts_app, counts_cons, Zlen_app, Zlen_cons. change (Zlen (@nil (TValue * TValue))) with 0. change (counts (within MAXASIZE) []) with 0. split; [do 2 f_equal; [f_equal|]; lia|].
    by rewrite <- app_assoc.
Qed.
Lemma count_slice_spec n : forall t i lc, 1 <= i -> i - 1 + Z.of_nat n <= Zlen (array t) ->
  count_slice n t i lc = Val (lc + Zlen (array_entries i (take n (drop (Z.to_nat (i - 1)) (array t))))).
Proof.
  induction n as [|n IH]; intros t i lc Hi Hn; cbn [count_slice].
  - change (Zlen (array_entries i (take 0 (drop (Z.to_nat (i - 1)) (array t))))) with 0. by rewrite Z.add_0_r.
  - destruct (lookup_lt_is_Some_2 (array t) (Z.to_nat (i - 1))) as [v Ev]; [unfold Zlen in Hn; lia|].
    rewrite (proj2 (bget_Ok _ _ v)) by (split; [lia|done]). cbn [of_res mbind outcome_bind]. rewrite IH by lia. rewrite (drop_S _ _ _ Ev).
    replace (Z.to_nat (i + 1 - 1)) with (S (Z.to_nat (i - 1))) by lia. cbn [firstn array_entries]. rewrite Zlen_app. unfold entry.
    destruct (ttisnil v); [change (Zlen (@nil (TValue * TValue))) with 0|rewrite Zlen_cons; change (Zlen (@nil (TValue * TValue))) with 0]; f_equal; lia.
Qed.
Definition elements (t : Table) (n : Z) : list (TValue * TValue) := array_entries 1 (take (Z.to_nat n) (array t)).
Lemma elements_split t i n : 1 <= i -> i - 1 <= n -> n <= Zlen (array t) ->
  elements t n = elements t (i - 1) ++ array_entries i (take (Z.to_nat (n - i + 1)) (drop (Z.to_nat (i - 1)) (array t))).
Proof.
  intros Hi Hin Hn. unfold elements. assert (take (Z.to_nat n) (array t) = take (Z.to_nat (i - 1)) (array t) ++ take (Z.to_nat (n - i + 1)) (drop (Z.to_nat (i - 1)) (array t))) as ->.
  { rewrite take_take_drop. f_equal. lia. }
  rewrite array_entries_app. do 2 f_equal. unfold Zlen. rewrite length_take. unfold Zlen in Hn. lia.
Qed.
Definition slice_from (lg : Z) : Z := if lg =? 0 then 0 else 2 ^ (lg - 1).
Lemma slice_log lg x : 0 <= lg -> slice_from lg < x <= 2 ^ lg -> Z.log2_up x = lg.
Proof.
  intros Hl. unfold slice_from. destruct (Z.eqb_spec lg 0) as [->|Hl0]; intros Hx.
  - change (2 ^ 0) with 1 in Hx. replace x with 1 by lia. done.
  - apply Z.log2_up_unique; [lia|]. replace (Z.pred lg) with (lg - 1) by lia. lia.
Qed.
Lemma slice_loop_spec t n : sized t -> forall lg nums, 0 <= lg -> lg + Z.of_nat n = 27 -> let i := Z.min (slice_from lg) (sizearray t) + 1 in
  tallied nums (elements t (i - 1)) -> exists nums', slice_loop n t lg (2 ^ lg) i (Zlen (elements t (i - 1))) nums = Val (nums', Zlen (elements t (sizearray t))) /\ tallied nums' (elements t (sizearray t)).
Proof.
  intros [Hs1 Hs2]. change MAXASIZE with 67108864 in Hs1. induction n as [|n IH]; intros lg nums Hlg Hn i Ht; cbn [slice_loop].
  { assert (i - 1 = sizearray t) as Ei; [|rewrite Ei in *; by exists nums]. unfold i, slice_from. replace lg with 27 by lia. change (2 ^ (27 - 1)) with 67108864. cbn. lia. }
  assert (0 <= slice_from lg) as Hf0 by (unfold slice_from; destruct (lg =? 0); [done|apply Z.pow_nonneg; lia]).
  assert (slice_from lg < 2 ^ lg) as Hf1. { unfold slice_from. destruct (Z.eqb_spec lg 0) as [->|]; [done|]. apply Z.pow_lt_mono_r; lia. }
  assert (slice_from (lg + 1) = 2 ^ lg) as Hf2. { unfold slice_from. rewrite (proj2 (Z.eqb_neq _ _)) by lia. f_equal. lia. }
  destruct ((sizearray t <? 2 ^ lg) && ((if sizearray t <? 2 ^ lg then sizearray t else 2 ^ lg) <? i)) eqn:Eo.
  { apply andb_true_iff in Eo as [Eo1 Eo2]. rewrite Eo1 in Eo2. apply Z.ltb_lt in Eo1, Eo2. assert (i - 1 = sizearray t) as Ei by (unfold i in *; lia). rewrite Ei in *. by exists nums. }
  clear Eo. assert ((if sizearray t <? 2 ^ lg then sizearray t else 2 ^ lg) = Z.min (2 ^ lg) (sizearray t)) as -> by (destruct (Z.ltb_spec (sizearray t) (2 ^ lg)); lia).
  set (lim := Z.min (2 ^ lg) (sizearray t)). assert (1 <= i /\ i - 1 <= lim <= sizearray t) as Hi by (unfold i, lim; lia).
  rewrite count_slice_spec by (unfold Zlen in *; lia). cbn [mbind outcome_bind]. set (new := array_entries i _). pose proof (elements_split t i lim ltac:(lia) ltac:(lia) ltac:(lia)) as Esplit. fold new in Esplit.
  assert (Forall (fun p => in_slice lg p = true) new) as Hnew.
  { apply Forall_forall. intros p (j & v & Ej & -> & _)%elem_of_array_entries. apply lookup_take_Some in Ej as [_ Hj]. apply in_slice_spec. cbn [fst].
    assert (i + Z.of_nat j <= lim) by lia. change MAXASIZE with 67108864. rewrite arrayindex_of_Z by lia. split; [lia|]. apply slice_log; [done|]. unfold i, lim in *. lia. }
  destruct (count_as_spec nums (elements t (i - 1)) lg (0 + Zlen new) (elements t lim) Ht) as (nums1 & -> & Ht1).
  - change MAXBITS with 26. lia.
  - intros x Hx. rewrite Esplit, counts_app. f_equal. destruct (Z.eqb_spec x lg) as [->|Hne]; [by rewrite counts_all by done|].
    apply counts_none. eapply Forall_impl; [exact Hnew|]. intros p Hp. cbn. apply not_true_iff_false. intros Hp'. apply in_slice_spec in Hp as [_ <-], Hp' as [_ <-]. done.
  - cbn [mbind outcome_bind]. replace (Z.max i (lim + 1)) with (lim + 1) by lia. assert (2 ^ lg * 2 = 2 ^ (lg + 1)) as -> by (rewrite Z.pow_add_r by lia; lia).
    assert (lim + 1 = Z.min (slice_from (lg + 1)) (sizearray t) + 1) as Ei by (unfold lim; by rewrite Hf2).
    destruct (IH (lg + 1) nums1) as (nums2 & E2 & Ht2); [lia|lia|rewrite <- Ei; by replace (lim + 1 - 1) with lim by lia|].
    exists nums2. split; [|done]. rewrite <- E2, <- Ei. f_equal. replace (lim + 1 - 1) with lim by lia. rewrite Esplit, Zlen_app. lia.
Qed.
Lemma numusearray_spec t nums : sized t -> tallied nums [] -> exists nums', numusearray t nums = Val (nums', Zlen (elements t (sizearray t))) /\ tallied nums' (elements t (sizearray t)).
Proof.
  intros Hs Ht. destruct (slice_loop_spec t 27 Hs 0 nums ltac:(lia) ltac:(lia)) as (nums' & E & Ht').
  - cbn. replace (Z.min 0 (sizearray t)) with 0 by (destruct Hs; lia). done.
  - exists nums'. split; [|done]. unfold numusearray. change (Z.to_nat (MAXBITS + 1)) with 27%nat. rewrite <- E. cbn [slice_from Z.eqb].
    unfold slice_from. cbn. replace (Z.min 0 (sizearray t)) with 0 by (destruct Hs; lia). done.
Qed.
(** The best size for the array part so far: a power of two of which more than
    half is in use, and the largest one. *)
Definition best (l : list (TValue * TValue)) (i n na : Z) : Prop :=
  na = counts (within n) l /\ (n = 0 \/ exists j, 0 <= j < i /\ n = 2 ^ j /\ n / 2 < na) /\ forall j, 0 <= j < i -> n < 2 ^ j -> counts (within (2 ^ j)) l <= 2 ^ j / 2.
Lemma best_more l i n na : best l i n na -> 0 <= i -> (forall j, i <= j <= MAXBITS -> n < 2 ^ j -> counts (within (2 ^ j)) l <= 2 ^ j / 2) -> i <= MAXBITS + 1 -> best l (MAXBITS + 1) n na.
Proof.
  intros (E & Hn & Hb) Hi Hm Hi'. split; [done|]. split; [destruct Hn as [?|(j & Hj & ?)]; [by left|right; exists j; split; [lia|done]]|].
  intros j Hj Hlt. destruct (Z.lt_ge_cases j i); [apply Hb; lia|apply Hm; lia].
Qed.
Lemma half_pow i : 1 <= i -> 2 ^ i / 2 = 2 ^ (i - 1).
Proof. intros Hi. replace (2 ^ i) with (2 ^ (i - 1) * 2); [by apply Z.div_mul|]. rewrite <- (Z.pow_1_r 2) at 2. rewrite <- Z.pow_add_r by lia. f_equal. lia. Qed.
Lemma sizes_loop_spec l nums fuel : tallied nums l -> distinct l -> forall i n na, 0 <= i <= MAXBITS + 1 -> MAXBITS + 1 - i < Z.of_nat fuel -> best l i n na -> exists n' na',
  sizes_loop fuel nums (counts (within MAXASIZE) l) i (2 ^ i) (if i =? 0 then 0 else counts (within (2 ^ (i - 1))) l) na n = Val (na', n') /\ best l (MAXBITS + 1) n' na'.
Proof.
  intros [_ Ht] Hd. assert (forall j, 0 <= j -> counts (within (2 ^ j)) l <= 2 ^ j) as Hle by (intros j Hj; apply within_le; [apply Z.pow_nonneg; lia|done]).
  assert (forall j, 0 <= j <= MAXBITS -> counts (within (2 ^ j)) l <= counts (within MAXASIZE) l) as Hmax.
  { intros j Hj. apply counts_le. intros p. rewrite !within_spec. change MAXASIZE with (2 ^ MAXBITS). pose proof (Z.pow_le_mono_r 2 j MAXBITS). lia. }
  change MAXBITS with 26 in *. induction fuel as [|fuel IH]; intros i n na Hi Hf Hb; [lia|]. cbn [sizes_loop]. destruct (Z.ltb_spec (2 ^ i / 2) (counts (within MAXASIZE) l)) as [Hlt|Hge].
  2:{ exists n, na. split; [reflexivity|]. apply (best_more _ i); [done|lia| |change MAXBITS with 26; lia]. change MAXBITS with 26. intros j Hj _. pose proof (Hmax j ltac:(lia)).
      pose proof (Z.div_le_mono (2 ^ i) (2 ^ j) 2 ltac:(lia) ltac:(apply Z.pow_le_mono_r; lia)). lia. }
  assert (i <= 26) as Hi26.
  { destruct (Z.eq_dec i 27) as [->|]; [|lia]. pose proof (Hle 26 ltac:(lia)) as Hm. change (2 ^ 26) with MAXASIZE in Hm at 1. change (2 ^ 27 / 2) with (2 ^ 26) in Hlt. lia. }
  rewrite Ht by lia. cbn [of_res mbind outcome_bind]. pose proof (within_pow i l ltac:(change MAXBITS with 26; lia)) as Ew. pose proof (counts_nonneg (in_slice i) l) as H0'.
  set (a0 := if i =? 0 then 0 else counts (within (2 ^ (i - 1))) l) in *. set (x := counts (in_slice i) l) in *. set (a := counts (within (2 ^ i)) l) in *.
  assert ((if 0 <? x then a0 + x else a0) = a) as -> by (destruct (Z.ltb_spec 0 x); lia).
  assert (a0 <= 2 ^ i / 2) as Ha0. { unfold a0. destruct (Z.eqb_spec i 0) as [->|]; [done|]. rewrite half_pow by lia. apply Hle. lia. }
  destruct Hb as (En & Hn & Hbest).
  assert (exists n1 na1, (if (0 <? x) && (2 ^ i / 2 <? a) then (a, 2 ^ i) else (na, n)) = (na1, n1) /\ best l (i + 1) n1 na1) as (n1 & na1 & -> & Hb1).
  { destruct ((0 <? x) && (2 ^ i / 2 <? a)) eqn:Ec.
    - apply andb_true_iff in Ec as [_ Ec%Z.ltb_lt]. exists (2 ^ i), a. split; [done|]. split; [done|]. split; [right; exists i; split_and!; [lia|lia|done|done]|].
      intros j Hj Hlt'. apply Z.pow_lt_mono_r_iff in Hlt'; lia.
    - exists n, na. split; [done|]. split; [done|]. split; [destruct Hn as [?|(j & ? & ?)]; [by left|right; exists j; split; [lia|done]]|].
      intros j Hj Hlt'. destruct (Z.eq_dec j i) as [->|]; [|apply Hbest; lia]. fold a. apply andb_false_iff in Ec as [Ec%Z.ltb_ge|Ec%Z.ltb_ge]; lia. }
  destruct (Z.eqb_spec a (counts (within MAXASIZE) l)) as [Ea|Ea].
  - exists n1, na1. split; [done|]. apply (best_more _ (i + 1)); [done|lia| |change MAXBITS with 26; lia]. intros j Hj _. change MAXBITS with 26 in Hj. pose proof (Hmax j ltac:(lia)). pose proof (Hle i ltac:(lia)).
    rewrite half_pow by lia. pose proof (Z.pow_le_mono_r 2 i (j - 1)). unfold a in Ea. lia.
  - destruct (IH (i + 1) n1 na1) as (n' & na' & E & Hb'); [lia|lia|done|]. exists n', na'. split; [|done]. rewrite <- E. rewrite (proj2 (Z.eqb_neq (i + 1) 0)) by lia.
    replace (i + 1 - 1) with i by lia. f_equal. rewrite Z.pow_add_r by lia. done.
Qed.
Lemma computesizes_spec l nums : tallied nums l -> distinct l -> exists n na, computesizes nums (counts (within MAXASIZE) l) = Val (na, n) /\ best l (MAXBITS + 1) n na.
Proof.
  intros Ht Hd. destruct (sizes_loop_spec l nums 28 Ht Hd 0 0 0) as (n & na & E & Hb); [done|done| |by exists n, na].
  split; [|split; [by left|intros; lia]]. symmetry. apply counts_none. apply Forall_forall. intros p _. apply not_true_iff_false. rewrite within_spec. lia.
Qed.
End count.
