(* ===== verification/LuaTableInsert.v ===== *)
(** Resizing, rehashing and insertion into a full table of LuaTable.v: the
    elements are kept, there is room for those that leave the array part and
    for the new key, and [newkey] ends after one rehash. *)
From stdpp Require Import relations.
From S2P Require Import Prelude LuaStr LuaFormat LuaLex LuaTable LuaTableChain LuaTableHash LuaTablePlace LuaTableRehash LuaTableGrow.

Section insert.
  Context `{NumbersLaws}.
Notation keq := luaO_rawequalObj.
(** ** A table between operations *)
Lemma index_valid i : 0 < i <= MAXASIZE -> valid_key (VNumber (of_Z i)).
Proof. change MAXASIZE with 67108864. intros Hi. split; [done|]. rewrite arrayindex_of_Z by lia. split; [by apply of_Z_eq; lia|lia]. Qed.
Lemma wf_raw t : wf t -> raw (node t).
Proof. intros Hw. apply Forall_lookup. intros j n E Hk. by apply (chained_node _ (wf_chained _ Hw) _ _ E) in Hk as [_ ?]. Qed.
Lemma wf_sized t : wf t -> sized t.
Proof. intros []. done. Qed.
Lemma node_entry_used t p : wf t -> p ∈ node_entries (node t) -> valid_key p.1 /\ in_array t p.1 = false.
Proof.
  intros Hw (i & n & En & -> & Hv)%elem_of_node_entries. apply (wf_keys _ Hw i). apply used_keyed. split; [done|]. intros Hk.
  by apply (chained_node _ (wf_chained _ Hw) _ _ En) in Hk as [_ ?].
Qed.
Lemma array_entry_key t p : sized t -> p ∈ array_entries 1 (take (Z.to_nat (sizearray t)) (array t)) -> valid_key p.1 /\ in_array t p.1 = true.
Proof.
  intros [Hs1 Hs2] (j & v & Ej & -> & _)%elem_of_array_entries. apply lookup_take_Some in Ej as [_ Hj]. cbn [fst]. split; [apply index_valid; lia|].
  apply in_array_spec. change MAXASIZE with 67108864 in Hs1. rewrite arrayindex_of_Z by lia. lia.
Qed.
Lemma live_valid t : wf t -> Forall (fun p => valid_key p.1) (live t).
Proof.
  intros Hw. apply Forall_app. split; apply Forall_forall; intros p Hp; [by apply (array_entry_key t p (wf_sized _ Hw))|by apply (node_entry_used t p)].
Qed.
Lemma live_distinct t : wf t -> distinct (live t).
Proof.
  intros Hw. pose proof (wf_sized _ Hw) as [Hs1 Hs2]. change MAXASIZE with 67108864 in Hs1. apply distinct_app_intro.
  - apply array_entries_distinct; [done|]. unfold Zlen. rewrite length_take. lia.
  - apply node_entries_distinct; [by apply wf_raw|by apply wf_unique].
  - intros p q Hp Hq. apply (array_entry_key t p (wf_sized _ Hw)) in Hp as [_ Hp]. apply (node_entry_used t q Hw) in Hq as [_ Hq].
    destruct (keq p.1 q.1) eqn:E; [|done]. apply (in_array_keq t) in E. congruence.
Qed.
Lemma wf_loose t : wf t -> loose t.
Proof. intros Hw. split; [by apply wf_sized|apply Hw|apply Hw|apply Hw|by apply wf_raw|by apply live_distinct|by apply live_valid]. Qed.
Lemma array_entries_blank n : forall i, array_entries i (replicate n VNil) = [].
Proof. induction n as [|n IH]; intros i; [done|]. cbn. apply IH. Qed.
Lemma setarrayvector_grow t n : loose t -> sizearray t <= n <= MAXASIZE -> exists t', setarrayvector n t = Val (t', ()) /\ loose t' /\ live t' = live t /\ sizearray t' = n /\ Zlen (array t') = n.
Proof.
  intros [[Hs1 Hs2] l2 l3 l4 l5 l6 l7] Hn. set (a := take (Z.to_nat (sizearray t)) (array t) ++ replicate (Z.to_nat (n - sizearray t)) VNil).
  assert (Zlen a = n) as Ea. { unfold a. rewrite Zlen_app. unfold Zlen in *. rewrite length_take, length_replicate. lia. }
  exists (set_sizearray n (set_array a t)). split; [unfold setarrayvector, modify, a; by rewrite Z.min_r by lia|].
  assert (live (set_sizearray n (set_array a t)) = live t) as El.
  { unfold live. cbn. rewrite (take_ge a) by (unfold Zlen in Ea; lia). unfold a. by rewrite array_entries_app, array_entries_blank, app_nil_r. }
  split; [|done]. split; try done; [|by rewrite El..]. split; cbn; lia.
Qed.
(** ** The elements that leave the array part *)
Definition pending (t : Table) (old i : Z) : list (TValue * TValue) := array_entries (i + 1) (take (Z.to_nat (old - i)) (drop (Z.to_nat i) (array t))).
Lemma pending_step t old i v : 0 <= i < old -> array t !! Z.to_nat i = Some v -> pending t old i = entry (VNumber (of_Z (i + 1))) v ++ pending t old (i + 1).
Proof.
  intros Hi E. unfold pending. rewrite (drop_S _ _ _ E). replace (Z.to_nat (old - i)) with (S (Z.to_nat (old - (i + 1)))) by lia.
  cbn [firstn array_entries]. by replace (Z.to_nat (i + 1)) with (S (Z.to_nat i)) by lia.
Qed.
Lemma pending_same t t' old i : sizearray t <= i -> sizearray t' = sizearray t -> rest_of_array t' = rest_of_array t -> pending t' old i = pending t old i.
Proof.
  intros Hi Es Er. unfold pending. do 2 f_equal. unfold rest_of_array in Er. rewrite Es in Er.
  destruct (decide (0 <= sizearray t)) as [Hs|Hs].
  - replace (Z.to_nat i) with (Z.to_nat (sizearray t) + (Z.to_nat i - Z.to_nat (sizearray t)))%nat by lia. by rewrite <- !drop_drop, Er.
  - replace (Z.to_nat (sizearray t)) with O in Er by lia. rewrite !drop_0 in Er. by rewrite Er.
Qed.
Lemma spacious_less n m t : (m <= n)%nat -> spacious n t -> spacious m t.
Proof. intros Hm [Ha Hn]. split; [done|lia]. Qed.
(** A key without an entry. *)
Definition fresh (t : Table) (k : TValue) : Prop := Forall (fun p => keq p.1 k = false) (live t).
Lemma fresh_slot t s k : wf t -> fresh t k -> slot_for t s k -> slot_value t s = Val VNil.
Proof.
  intros Hw Hf Hs. destruct (put_slot_spec t s k Hw Hs) as (v0 & k' & rest & Ev & (Hk & El & _) & _). rewrite Ev. destruct (ttisnil v0) eqn:E; [by destruct v0|].
  unfold entry in El. rewrite E in El. unfold fresh in Hf. rewrite El in Hf. apply Forall_app in Hf as [Hf _]. apply Forall_cons in Hf as [Hf _]. cbn in Hf. congruence.
Qed.
Lemma absent_fresh t k : wf t -> absent t k -> fresh t k.
Proof.
  intros Hw [Ha Hk]. apply Forall_app. split; apply Forall_forall; intros p Hp.
  - apply (array_entry_key t p (wf_sized _ Hw)) in Hp as [_ Hp]. destruct (keq p.1 k) eqn:E; [|done]. apply (in_array_keq t) in E. congruence.
  - apply elem_of_node_entries in Hp as (i & n & En & -> & Hv). apply (Hk i). split; [done|]. intros E. by apply (chained_node _ (wf_chained _ Hw) _ _ En) in E as [_ ?].
Qed.
Lemma spacious_put_slot t s v t' j n k : put_slot s v t = Val (t', ()) -> slot_for t s k -> s = SNode j -> wf t -> spacious n t -> spacious n t'.
Proof.
  intros E Hs -> Hw. cbn in Hs. destruct Hs as (_ & nd & Hu & _). pose proof (wf_not_dummy _ _ _ Hw Hu) as Hd. destruct Hu as [En _]. cbn [put_slot] in E.
  rewrite (put_val_at _ _ _ _ Hd En) in E. injection E as <-. unfold spacious, ample. cbn [node set_node lastfree]. by rewrite (keys_same _ _ _ _ _ En).
Qed.
Lemma fresh_perm t t' k : live t' ≡ₚ live t -> fresh t k -> fresh t' k.
Proof. intros E. unfold fresh. by rewrite E. Qed.
Lemma keq_index a k : keq a k = true -> 0 < arrayindex k -> a = k.
Proof. intros E Hk. apply arrayindex_keq in E. rewrite (arrayindex_same a), (arrayindex_same k), E by lia. done. Qed.
(** A value is stored for a key that had none. *)
Lemma put_new t s k v : wf t -> fresh t k -> slot_for t s k -> exists t' k', put_slot s v t = Val (t', ()) /\ keq k' k = true /\ wf t' /\ live t' ≡ₚ entry k' v ++ live t /\
  sizearray t' = sizearray t /\ rest_of_array t' = rest_of_array t /\ Zlen (array t') = Zlen (array t).
Proof.
  intros Hw Hf Hs. pose proof (fresh_slot t s k Hw Hf Hs) as E0. destruct (put_slot_spec t s k Hw Hs) as (v0 & k' & rest & Ev & (Hk & El & _) & Hput).
  rewrite E0 in Ev. injection Ev as <-. destruct (Hput v) as (t' & E & Hw' & El' & Hrest). exists t', k'. split; [done|]. split; [done|]. split; [done|]. split; [by rewrite El', El|done].
Qed.
Lemma setnum_fresh nk t i n : wf t -> sizearray t < i <= MAXASIZE -> fresh t (VNumber (of_Z i)) -> spacious (S n) t ->
  exists t' j, setnum_with (newkey_body nk) i t = Val (t', SNode j) /\ wf t' /\ live t' ≡ₚ live t /\ slot_for t' (SNode j) (VNumber (of_Z i)) /\
    sizearray t' = sizearray t /\ array t' = array t /\ spacious n t'.
Proof.
  intros Hw Hi Hf Hsp. pose proof (wf_size _ Hw) as Hs. change MAXASIZE with 67108864 in Hi, Hs. assert (arrayindex (VNumber (of_Z i)) = i) as Ei by (apply arrayindex_of_Z; lia).
  assert (valid_key (VNumber (of_Z i))) as Hk by (apply index_valid; change MAXASIZE with 67108864; lia).
  assert (in_array t (VNumber (of_Z i)) = false) as Ha by (apply not_true_iff_false; rewrite in_array_spec; lia).
  unfold setnum_with. pose proof (getnum_key t (of_Z i) i Hw Ei ltac:(apply of_Z_eq; lia) ltac:(lia)) as Eg. rewrite Ha in Eg.
  destruct (find_key_spec t (VNumber (of_Z i)) Hw (proj1 Hk) Ha) as (s & Es & [Hs'|[-> Habs]]); rewrite Es in Eg; rewrite (reads_step _ _ _ _ Eg).
  - destruct s as [?|j|]; [by destruct Hs' as [? _]; congruence| |done]. exists t, j. split_and!; try done. by apply (spacious_less (S n)); [lia|].
  - destruct (newkey_cases nk t (VNumber (of_Z i)) Hw Hk Habs) as [(t' & j & E & (r1 & r2 & r3 & r4 & r5 & r6 & r7 & r8) & Hsp')|(l & _ & _ & Hfull)].
    + exists t', j. split_and!; try done. by apply Hsp'.
    + by eapply spacious_not_full in Hfull.
Qed.
Lemma reinsert_loop_spec nk old m n : forall i t, wf t -> sizearray t <= i -> 0 <= i -> i + Z.of_nat n = old -> old <= MAXASIZE -> old <= Zlen (array t) ->
  distinct (live t ++ pending t old i) -> spacious (length (pending t old i) + m) t ->
  exists t', reinsert_loop (newkey_body nk) n i t = Val (t', ()) /\ wf t' /\ live t' ≡ₚ live t ++ pending t old i /\ sizearray t' = sizearray t /\ spacious m t'.
Proof.
  induction n as [|n IH]; intros i t Hw Hs Hi Hn Hold Hlen Hd Hsp; cbn [reinsert_loop].
  { assert (pending t old i = []) as Ep by (unfold pending; by replace (Z.to_nat (old - i)) with O by lia). rewrite Ep in *. rewrite app_nil_r. by exists t. }
  destruct (lookup_lt_is_Some_2 (array t) (Z.to_nat i)) as [v Ev]; [unfold Zlen in Hlen; lia|]. pose proof (pending_step t old i v ltac:(lia) Ev) as Ep.
  assert (forall t, array t !! Z.to_nat i = Some v -> get_array i t = Val (t, v)) as Hget by (intros t' E; unfold get_array, reads_table; by rewrite (proj2 (bget_Ok _ _ v)) by (split; [lia|done])).
  rewrite (tab_step _ _ _ _ _ (Hget t Ev)). unfold entry in Ep. destruct (ttisnil v) eqn:Enil.
  { rewrite (tab_step (mret ()) _ t t ()) by done. cbn [app] in Ep. rewrite Ep in *. apply IH; try done; lia. }
  rewrite Ep in *. cbn [app length] in *. assert (fresh t (VNumber (of_Z (i + 1)))) as Hf.
  { apply Forall_forall. intros p Hp. apply (distinct_app _ _ p (VNumber (of_Z (i + 1)), v) Hd Hp). left. }
  destruct (setnum_fresh nk t (i + 1) _ Hw ltac:(lia) Hf Hsp) as (t1 & j & E1 & Hw1 & El1 & Hs1 & Es1 & Ea1 & Hsp1).
  destruct (put_new t1 (SNode j) _ v Hw1 (fresh_perm _ _ _ El1 Hf) Hs1) as (t2 & k' & E2 & Hk & Hw2 & El2 & Es2 & Er2 & Ea2).
  apply keq_index in Hk as ->; [|change MAXASIZE with 67108864 in Hold; rewrite arrayindex_of_Z by lia; lia].
  assert ((s ← setnum_with (newkey_body nk) (i + 1); v ← get_array i; put_slot s v : tab ()) t = Val (t2, ())) as E.
  { rewrite (tab_step _ _ _ _ _ E1), (tab_step _ _ _ _ _ (Hget t1 ltac:(by rewrite Ea1))). exact E2. }
  rewrite (tab_step _ _ _ _ _ E). unfold entry in El2. rewrite Enil in El2. assert (live t2 ++ pending t old (i + 1) ≡ₚ live t ++ (VNumber (of_Z (i + 1)), v) :: pending t old (i + 1)) as El.
  { rewrite El2, El1. solve_Permutation. }
  assert (pending t2 old (i + 1) = pending t old (i + 1)) as Ep2.
  { apply pending_same; [lia|by rewrite Es2|]. rewrite Er2. unfold rest_of_array. by rewrite Es1, Ea1. }
  destruct (IH (i + 1) t2) as (t' & E' & r1 & r2 & r3 & r4); rewrite ?Ep2; try lia; try done.
  - by rewrite Ea2, Ea1.
  - eapply distinct_perm, Hd. exact El.
  - by eapply spacious_put_slot.
  - exists t'. split; [done|]. split; [done|]. rewrite r2, Ep2, El, r3, Es2, Es1. done.
Qed.
(** ** Resizing *)
Definition outside (n : Z) (l : list (TValue * TValue)) : Z := counts (fun p => negb (within n p)) l.
Lemma outside_nodes t : wf t -> outside (sizearray t) (live t) = Zlen (node_entries (node t)).
Proof.
  intros Hw. unfold outside, live. rewrite counts_app, counts_none, counts_all; [lia|..]; apply Forall_forall; intros p Hp.
  - apply (node_entry_used t p Hw) in Hp as [_ Hp]. change (in_array t p.1) with (within (sizearray t) p) in Hp. by rewrite Hp.
  - apply (array_entry_key t p (wf_sized _ Hw)) in Hp as [_ Hp]. change (in_array t p.1) with (within (sizearray t) p) in Hp. by rewrite Hp.
Qed.
Lemma outside_mono n m l : n <= m -> outside m l <= outside n l.
Proof. intros Hn. apply counts_le. intros p. rewrite !negb_true_iff, <- !not_true_iff_false, !within_spec. lia. Qed.
Lemma outside_room t : outside (sizearray t) (live t) = Z.of_nat (room t).
Proof.
  unfold outside, counts, room. do 2 f_equal. apply list_filter_iff. intros p. change (in_array t p.1) with (within (sizearray t) p). by rewrite negb_true_iff.
Qed.
Lemma spare_clean ns : clean ns -> raw ns -> (spare (keys ns) + length (node_entries ns))%nat = length ns.
Proof.
  induction ns as [|n ns IH]; intros Hc Hr; [done|]. apply Forall_cons in Hr as [Hn Hr]. cbn [keys fmap list_fmap spare length]. rewrite node_entries_cons, length_app.
  change (gkey <$> ns) with (keys ns). rewrite <- IH; [|intros j m; apply (Hc (S j))|done]. pose proof (Hc O n eq_refl) as Hn'. unfold entry.
  destruct (ttisnil (gkey n)) eqn:Ek, (ttisnil (gval n)) eqn:Ev; cbn [length]; try lia.
  - rewrite Hn in Ev; [done|by destruct (gkey n)].
  - rewrite Hn' in Ek; [done|by destruct (gval n)].
Qed.
Lemma wf_shrink t n : wf t -> 0 <= n <= sizearray t -> wf (set_sizearray n t).
Proof.
  intros [w1 w2 w3 w4 w5 w6 w7 w8 w9 w10] Hn. split; cbn; try done; try lia. intros i k Hk. apply w10 in Hk as [Hv Ha]. split; [done|]. apply not_true_iff_false in Ha. apply not_true_iff_false.
  rewrite in_array_spec in *. cbn. lia.
Qed.
Lemma live_shrink t n : sized t -> 0 <= n <= sizearray t -> live (set_sizearray n t) ++ pending t (sizearray t) n ≡ₚ live t.
Proof.
  intros [Hs1 Hs2] Hn. unfold live, pending. cbn. assert (take (Z.to_nat (sizearray t)) (array t) = take (Z.to_nat n) (array t) ++ take (Z.to_nat (sizearray t - n)) (drop (Z.to_nat n) (array t))) as ->.
  { rewrite take_take_drop. f_equal. lia. }
  rewrite array_entries_app. replace (1 + Zlen (take (Z.to_nat n) (array t))) with (n + 1) by (unfold Zlen in *; rewrite length_take; lia). solve_Permutation.
Qed.
Lemma outside_pending t n : sized t -> 0 <= n -> outside n (pending t (sizearray t) n) = Zlen (pending t (sizearray t) n).
Proof.
  intros [Hs1 Hs2] Hn. apply counts_all, Forall_forall. intros p (j & v & Ej & -> & _)%elem_of_array_entries. apply lookup_take_Some in Ej as [_ Hj]. change MAXASIZE with 67108864 in Hs1.
  apply negb_true_iff, not_true_iff_false. rewrite within_spec. cbn [fst]. rewrite arrayindex_of_Z by lia. lia.
Qed.
Lemma wf_truncate t : wf t -> let t' := set_array (take (Z.to_nat (sizearray t)) (array t)) t in wf t' /\ live t' = live t.
Proof.
  intros Hw t'. pose proof (wf_sized _ Hw) as [Hs1 Hs2]. assert (Zlen (array t') = sizearray t) as E by (unfold t', Zlen in *; cbn; rewrite length_take; lia).
  destruct Hw. split; [split; cbn; try done; cbn in E; lia|]. unfold live, t'. cbn. by rewrite take_take, Nat.min_id.
Qed.
Lemma new_lsize_le nh : 0 <= nh -> nh <= 2 ^ new_lsize nh.
Proof.
  intros Hn. unfold new_lsize. destruct (Z.ltb_spec 0 nh); [|by assert (nh = 0) as -> by lia]. destruct (Z.eq_dec nh 1) as [->|]; [done|]. apply Z.log2_up_spec. lia.
Qed.
Lemma shrink_spec nk t n m : wf t -> clean (node t) -> ample t -> 0 <= n < sizearray t -> outside n (live t) + Z.of_nat m <= Zlen (node t) ->
  exists t', (_ ← modify (set_sizearray n); _ ← reinsert_loop (newkey_body nk) (Z.to_nat (sizearray t - n)) n; modify (fun t => set_array (take (Z.to_nat n) (array t)) t) : tab ()) t = Val (t', ()) /\
    wf t' /\ live t' ≡ₚ live t /\ sizearray t' = n /\ spacious m t'.
Proof.
  intros Hw Hc Ha Hn Hroom. rewrite modify_step. set (t1 := set_sizearray n t). pose proof (wf_sized _ Hw) as Hs. pose proof (live_shrink t n Hs ltac:(lia)) as El. fold t1 in El.
  assert (wf t1) as Hw1 by (apply wf_shrink; [done|lia]). change (pending t (sizearray t) n) with (pending t1 (sizearray t) n) in El. destruct (Hs) as [Hs1 Hs2].
  assert (spacious (length (pending t1 (sizearray t) n) + m) t1) as Hsp.
  { split; [done|]. pose proof (spare_clean (node t) Hc (wf_raw _ Hw)) as Esp. change (node t1) with (node t).
    unfold outside in Hroom. rewrite <- (counts_perm _ _ _ El), counts_app in Hroom. change (pending t1 (sizearray t) n) with (pending t (sizearray t) n) in *.
    pose proof (outside_pending t n Hs ltac:(lia)) as Ep. pose proof (outside_nodes t1 Hw1) as En. unfold outside in *. change (sizearray t1) with n in En. change (node t1) with (node t) in En.
    rewrite Ep, En in Hroom. unfold Zlen in Hroom. lia. }
  destruct (reinsert_loop_spec nk (sizearray t) m (Z.to_nat (sizearray t - n)) n t1) as (t2 & E2 & Hw2 & El2 & Es2 & Hsp2); try done; try lia.
  - eapply distinct_perm; [exact El|]. by apply live_distinct.
  - rewrite (tab_step _ _ _ _ _ E2). cbn in Es2. rewrite <- Es2. destruct (wf_truncate t2 Hw2) as [Hw3 El3]. eexists. split; [done|]. split; [done|]. split; [by rewrite El3, El2, El|done].
Qed.
Lemma resize_spec nk t na nh m : wf t -> 0 <= na <= MAXASIZE -> 0 <= nh < 4294967296 -> outside na (live t) + Z.of_nat m <= nh ->
  MAXASIZE < nh /\ resize (newkey_body nk) na nh t = Raise TableOverflow \/
  nh <= MAXASIZE /\ exists t', resize (newkey_body nk) na nh t = Val (t', ()) /\ wf t' /\ live t' ≡ₚ live t /\ sizearray t' = na /\ spacious m t'.
Proof.
  intros Hw Hna Hnh Hroom. unfold resize. rewrite asks_step. pose proof (wf_size _ Hw) as Hs.
  assert (exists t1, (if sizearray t <? na then setarrayvector na else mret () : tab ()) t = Val (t1, ()) /\ loose t1 /\ live t1 = live t /\ sizearray t1 = Z.max (sizearray t) na) as (t1 & E1 & Hl1 & El1 & Es1).
  { destruct (Z.ltb_spec (sizearray t) na); [|exists t; split_and!; [done|by apply wf_loose|done|lia]].
    destruct (setarrayvector_grow t na (wf_loose _ Hw) ltac:(lia)) as (t1 & ? & ? & ? & Es & _). exists t1. split_and!; try done. lia. }
  rewrite (tab_step _ _ _ _ _ E1). pose proof (outside_mono na (sizearray t1) (live t) ltac:(lia)) as Hm. rewrite <- El1, outside_room in Hm. rewrite <- El1 in Hroom.
  pose proof (new_lsize_le nh ltac:(lia)) as Hsz. destruct (resize_hashpart_spec t1 nh Hl1 Hnh ltac:(lia)) as [[Hb E]|(Hb & t2 & E & (r1 & r2 & r3 & r4 & r5 & r6 & r7 & r8) & Elen)].
  { left. split; [done|]. unfold mbind at 1, tab_bind at 1. by rewrite E. }
  right. split; [done|]. rewrite (tab_step _ _ _ _ _ E). assert (ample t2) as Ha by (intros i k Hi Ek; apply lookup_lt_Some in Ek; rewrite keys_length in Ek; unfold Zlen in r7; lia).
  unfold outside in Hroom. rewrite <- (counts_perm _ _ _ r3) in Hroom. fold (outside na (live t2)) in Hroom. rewrite El1 in r3.
  assert (outside na (live t2) + Z.of_nat m <= Zlen (node t2)) as Hroom2 by (unfold Zlen; rewrite Elen; lia). destruct (Z.ltb_spec na (sizearray t)).
  - assert (sizearray t2 = sizearray t) as Es2 by lia. rewrite <- Es2. destruct (shrink_spec nk t2 na m r1 r2 Ha ltac:(lia) Hroom2) as (t' & E' & q1 & q2 & q3 & q4).
    exists t'. split; [exact E'|]. split; [done|]. by rewrite q2, r3.
  - exists t2. split; [done|]. split; [done|]. split; [done|]. split; [lia|]. split; [done|]. assert (na = sizearray t2) as Ena by lia. rewrite Ena, outside_nodes in Hroom2 by done.
    pose proof (spare_clean _ r2 (wf_raw _ r1)). unfold Zlen in Hroom2. lia.
Qed.
(** ** Rehashing *)
Lemma sizenode_len t : wf t -> Z.to_nat (sizenode t) = length (node t).
Proof. intros Hw. pose proof (wf_lsize _ Hw). unfold sizenode. rewrite twoto_pow, <- (wf_node _ Hw) by lia. unfold Zlen. lia. Qed.
Lemma fresh_distinct t k v : wf t -> fresh t k -> distinct ((k, v) :: live t).
Proof. intros Hw Hf. apply distinct_cons. split; [|by apply live_distinct]. eapply Forall_impl; [exact Hf|]. intros p. cbn. by rewrite keq_sym. Qed.
Lemma rehash_sizes_spec t ek : wf t -> fresh t ek -> let l := (ek, VNil) :: live t in
  exists n na, rehash_sizes ek t = Val (n, Zlen l - na) /\ best l (MAXBITS + 1) n na.
Proof.
  intros Hw Hf l. unfold rehash_sizes. destruct (numusearray_spec t _ (wf_sized _ Hw) tallied_nil) as (nums1 & E1 & Ht1). rewrite E1. cbn [mbind outcome_bind].
  set (el := elements t (sizearray t)) in *. unfold numusehash. rewrite sizenode_len by done.
  destruct (numusehash_loop_spec (length (node t)) t 0 0 nums1 el ltac:(lia) Ht1) as (nums2 & E2 & Ht2). rewrite E2. cbn [mbind outcome_bind]. rewrite firstn_all in *.
  destruct (countint_spec nums2 _ ek VNil Ht2) as (nums3 & E3 & Ht3). rewrite E3. cbn [mbind outcome_bind].
  assert ((ek, VNil) :: node_entries (node t) ++ el ≡ₚ l) as El by (unfold l, live, el, elements; solve_Permutation). apply (tallied_perm _ _ _ El) in Ht3.
  assert (Zlen el + (0 + counts (within MAXASIZE) (node_entries (node t))) + (if within MAXASIZE (ek, VNil) then 1 else 0) = counts (within MAXASIZE) l) as Ec.
  { rewrite <- (counts_perm _ _ _ El), counts_cons, counts_app, (counts_all _ el); [lia|]. apply Forall_forall. intros p Hp. apply (array_entry_key t p (wf_sized _ Hw)) in Hp as [_ Hp].
    apply in_array_spec in Hp. apply within_spec. pose proof (wf_size _ Hw). lia. }
  rewrite Ec. destruct (computesizes_spec l nums3 Ht3 (fresh_distinct t ek VNil Hw Hf)) as (n & na & -> & Hb). cbn [mbind outcome_bind]. exists n, na. split; [|done]. do 2 f_equal.
  unfold l, live. fold (elements t (sizearray t)). fold el. rewrite Zlen_cons, Zlen_app. lia.
Qed.
Lemma best_range l n na : best l (MAXBITS + 1) n na -> 0 <= n <= MAXASIZE.
Proof.
  intros (_ & [->|(j & Hj & -> & _)] & _); [by change MAXASIZE with 67108864; lia|]. change MAXBITS with 26 in Hj. change MAXASIZE with (2 ^ 26).
  split; [apply Z.pow_nonneg; lia|apply Z.pow_le_mono_r; lia].
Qed.
Lemma node_entries_length ns : Zlen (node_entries ns) <= Zlen ns.
Proof.
  induction ns as [|n ns IH]; [done|]. rewrite node_entries_cons, Zlen_app, Zlen_cons. unfold entry.
  destruct (ttisnil (gval n)); [change (Zlen (@nil (TValue * TValue))) with 0|rewrite Zlen_cons; change (Zlen (@nil (TValue * TValue))) with 0]; lia.
Qed.
Lemma array_entries_length i l : Zlen (array_entries i l) <= Zlen l.
Proof.
  revert i. induction l as [|v l IH]; intros i; [done|]. cbn [array_entries]. rewrite Zlen_app, Zlen_cons. specialize (IH (i + 1)). unfold entry.
  destruct (ttisnil v); [change (Zlen (@nil (TValue * TValue))) with 0|rewrite Zlen_cons; change (Zlen (@nil (TValue * TValue))) with 0]; lia.
Qed.
Lemma live_length t : wf t -> Zlen (live t) <= MAXASIZE + MAXASIZE.
Proof.
  intros Hw. unfold live. rewrite Zlen_app. pose proof (wf_lsize _ Hw) as Hl. change MAXBITS with 26 in Hl. pose proof (wf_size _ Hw) as Hs.
  pose proof (node_entries_length (node t)) as Hn.
  pose proof (array_entries_length 1 (take (Z.to_nat (sizearray t)) (array t))) as Ha. pose proof (wf_node _ Hw) as En. pose proof (Z.pow_le_mono_r 2 (lsizenode t) 26 ltac:(lia) ltac:(lia)).
  change (2 ^ 26) with MAXASIZE in *. assert (Zlen (take (Z.to_nat (sizearray t)) (array t)) <= MAXASIZE); [|lia]. unfold Zlen. rewrite length_take. lia.
Qed.
Lemma counts_not {A} (f : A -> bool) l : counts (fun x => negb (f x)) l = Zlen l - counts f l.
Proof. induction l as [|x l IH]; [done|]. rewrite !counts_cons, IH, Zlen_cons. destruct (f x); cbn; lia. Qed.
Lemma rehash_spec nk t ek : wf t -> fresh t ek ->
  MAXASIZE <= Zlen (live t) /\ rehash (newkey_body nk) ek t = Raise TableOverflow \/
  exists t', rehash (newkey_body nk) ek t = Val (t', ()) /\ wf t' /\ live t' ≡ₚ live t /\ (in_array t' ek = false -> spacious 1 t').
Proof.
  intros Hw Hf. destruct (rehash_sizes_spec t ek Hw Hf) as (n & na & E & Hb). pose proof (best_range _ _ _ Hb) as Hn. destruct Hb as (Ena & _). unfold rehash. rewrite (reads_step _ _ _ _ E). cbn [fst snd].
  set (m := if within n (ek, VNil) then O else 1%nat). assert (Zlen ((ek, VNil) :: live t) - na = outside n (live t) + Z.of_nat m) as Em.
  { rewrite Ena, counts_cons, Zlen_cons. unfold outside, m. rewrite counts_not. destruct (within n (ek, VNil)); lia. }
  rewrite Em. pose proof (live_length t Hw) as Hl. unfold outside in *. pose proof (counts_nonneg (fun p => negb (within n p)) (live t)). pose proof (counts_len (fun p => negb (within n p)) (live t)).
  change MAXASIZE with 67108864 in *. destruct (resize_spec nk t n (outside n (live t) + Z.of_nat m) m Hw) as [[Hbig E']|(_ & t' & E' & r1 & r2 & r3 & r4)]; try lia; [done|unfold outside; unfold m; destruct (within _ _); lia| |].
  - left. split; [|exact E']. change MAXASIZE with 67108864 in Hbig. unfold outside, m in Hbig. destruct (within _ _); lia.
  - right. exists t'. split; [exact E'|]. split; [done|]. split; [done|]. intros Ha. change (in_array t' ek) with (within (sizearray t') (ek, VNil)) in Ha. rewrite r3 in Ha. unfold m in r4. by rewrite Ha in r4.
Qed.
(** ** Insertion *)
Lemma newkey_spec nk t k : wf t -> valid_key k -> absent t k ->
  MAXASIZE <= Zlen (live t) /\ newkey_body (newkey_body nk) k t = Raise TableOverflow \/
  exists t' s, newkey_body (newkey_body nk) k t = Val (t', s) /\ wf t' /\ live t' ≡ₚ live t /\ slot_for t' s k.
Proof.
  intros Hw Hk Ha. pose proof (absent_fresh t k Hw Ha) as Hf. destruct (newkey_cases (newkey_body nk) t k Hw Hk Ha) as [(t' & j & E & (r1 & r2 & r3 & _) & _)|(l & E & Hl & _)]; [by right; exists t', (SNode j)|].
  set (t1 := set_lastfree l t) in *. assert (wf t1) as Hw1 by (apply wf_set_lastfree; [done|lia]). assert (live t1 = live t) as El by done. rewrite E. clear E.
  destruct (rehash_spec nk t1 k Hw1 Hf) as [[Hb E]|(t2 & E & Hw2 & El2 & Hsp)]; [left; split; [done|]; unfold mbind, tab_bind; by rewrite E|]. right. rewrite (tab_step _ _ _ _ _ E). rewrite El in El2.
  unfold set_with. destruct (luaH_get_spec t2 k Hw2 Hk) as (s & Eg & Hs). rewrite (reads_step _ _ _ _ Eg), modify_step. set (t3 := set_flags 0 t2). assert (wf t3) as Hw3 by by apply wf_set_flags.
  destruct Hs as [Hs|[-> Habs]].
  - exists t3, s. split; [destruct s; done|done].
  - assert ((match k with VNil => raise TableIndexIsNil | VNumber x => if negb (numeq x x) then raise TableIndexIsNaN else newkey_body nk k | _ => newkey_body nk k end : tab slot) = newkey_body nk k) as ->.
    { destruct Hk as (Hk & Hkk & _). destruct k; try done. cbn in Hkk. by rewrite Hkk. }
    destruct (newkey_cases nk t3 k Hw3 Hk Habs) as [(t' & j & E' & (r1 & r2 & r3 & _) & _)|(l' & _ & _ & Hfull)].
    + exists t', (SNode j). split; [done|]. split; [done|]. split; [by rewrite r2|done].
    + exfalso. apply (spacious_not_full t3 O); [by apply Hsp, Habs|done].
Qed.
End insert.
