(* ===== verification/LuaTableMap.v ===== *)
(** What a table of LuaTable.v promises to the rest of the interpreter: it is
    a map from keys, up to equality without metamethods, to values, and a
    traversal meets every entry once. *)
From stdpp Require Import relations.
From S2P Require Import Prelude LuaStr LuaFormat LuaLex LuaTable LuaTableChain LuaTableHash LuaTablePlace LuaTableRehash LuaTableGrow LuaTableInsert.

Section access.
  Context `{Numbers}.
(** ** Access for the interpreter *)
Definition lua_rawget (k : TValue) : tab TValue := s ← reads_table (fun t => luaH_get t k); reads_table (fun t => slot_value t s).
Definition lua_rawgeti (n : Z) : tab TValue := s ← reads_table (fun t => luaH_getnum t n); reads_table (fun t => slot_value t s).
Definition lua_rawset (k v : TValue) : tab () := s ← luaH_set k; put_slot s v.
Definition lua_rawseti (n : Z) (v : TValue) : tab () := s ← luaH_setnum n; put_slot s v.
(** The room that OP_SETLIST makes for the elements up to [last]. *)
Definition reserve (last : Z) : tab () := n ← asks sizearray; if n <? last then luaH_resizearray last else mret ().
(** ** A client *)
Inductive op := Get (k : TValue) | Set_ (k v : TValue) | GetInt (n : Z) | SetInt (n : Z) (v : TValue) | SetStr (s : list Z) (v : TValue) | Reserve (n : Z).
Definition run_op (o : op) : tab TValue :=
  match o with
  | Get k => lua_rawget k
  | Set_ k v => _ ← lua_rawset k v; mret VNil
  | GetInt n => lua_rawgeti n
  | SetInt n v => _ ← lua_rawseti n v; mret VNil
  | SetStr s v => _ ← (p ← luaH_setstr s; put_slot p v : tab ()); mret VNil
  | Reserve n => _ ← reserve n; mret VNil
  end.
Fixpoint run (ops : list op) : tab (list TValue) :=
  match ops with [] => mret [] | o :: ops => v ← run_op o; vs ← run ops; mret (v :: vs) end.
(** The same client of a map that is a function. *)
Definition put (m : TValue -> TValue) (k v : TValue) : TValue -> TValue := fun k2 => if luaO_rawequalObj k k2 then v else m k2.
Definition map_op (m : TValue -> TValue) (o : op) : (TValue -> TValue) * TValue :=
  match o with
  | Get k => (m, m k)
  | Set_ k v => (put m k v, VNil)
  | GetInt n => (m, m (VNumber (of_Z n)))
  | SetInt n v => (put m (VNumber (of_Z n)) v, VNil)
  | SetStr s v => (put m (VString s) v, VNil)
  | Reserve n => (m, VNil)
  end.
Fixpoint map_run (m : TValue -> TValue) (ops : list op) : list TValue :=
  match ops with [] => [] | o :: ops => let '(m, v) := map_op m o in v :: map_run m ops end.
Definition map_end (m : TValue -> TValue) (ops : list op) : TValue -> TValue := fold_left (fun m o => (map_op m o).1) ops m.
(** A traversal as a [for] loop over [next] makes it, from the key [k] on. *)
Fixpoint traverse (fuel : nat) (t : Table) (k : TValue) : outcome (list (TValue * TValue)) :=
  match fuel with
  | O => Fault NoFuel
  | S fuel =>
    r ← luaH_next t k;
    match r with None => mret [] | Some kv => rest ← traverse fuel t kv.1; mret (kv :: rest) end
  end.
End access.

Section map.
  Context `{NumbersLaws}.
Notation keq := luaO_rawequalObj.
Fixpoint assoc (l : list (TValue * TValue)) (k : TValue) : TValue :=
  match l with [] => VNil | p :: l => if keq p.1 k then p.2 else assoc l k end.
Lemma assoc_none l k : Forall (fun p => keq p.1 k = false) l -> assoc l k = VNil.
Proof. induction 1 as [|p l E _ IH]; [done|]. cbn. by rewrite E. Qed.
Lemma assoc_in l k p : distinct l -> p ∈ l -> keq p.1 k = true -> assoc l k = p.2.
Proof.
  induction l as [|q l IH]; intros Hd Hin E; [by apply not_elem_of_nil in Hin|]. apply distinct_cons in Hd as [Hq Hd]. cbn. apply elem_of_cons in Hin as [->|Hin]; [by rewrite E|].
  rewrite Forall_forall in Hq. specialize (Hq p Hin). destruct (keq q.1 k) eqn:E2; [|by apply IH]. rewrite keq_sym in E. rewrite (keq_trans _ _ _ E2 E) in Hq. done.
Qed.
Lemma assoc_perm l l' k : distinct l -> l ≡ₚ l' -> assoc l k = assoc l' k.
Proof.
  intros Hd E. destruct (decide (Forall (fun p => keq p.1 k = false) l)) as [Hn|Hn]; [rewrite !assoc_none; [done|by rewrite <- E|done]|].
  apply not_Forall_Exists, Exists_exists in Hn as (p & Hin & Hp); [|intros p; destruct (keq p.1 k); [by right|by left]]. apply not_false_iff_true in Hp.
  rewrite (assoc_in l k p), (assoc_in l' k p); try done; [by eapply distinct_perm; [symmetry|]|by rewrite <- E].
Qed.
Lemma assoc_entry l k' v rest k : distinct l -> l ≡ₚ entry k' v ++ rest -> keq k' k = true -> Forall (fun p => keq p.1 k = false) rest -> assoc l k = v.
Proof.
  intros Hd E Hk Hr. rewrite (assoc_perm _ _ _ Hd E). unfold entry. destruct (ttisnil v) eqn:Ev; cbn; [rewrite assoc_none by done; by destruct v|by rewrite Hk].
Qed.
Lemma assoc_other l k' v rest k : distinct l -> l ≡ₚ entry k' v ++ rest -> keq k' k = false -> assoc l k = assoc rest k.
Proof. intros Hd E Hk. rewrite (assoc_perm _ _ _ Hd E). unfold entry. destruct (ttisnil v); cbn; [done|by rewrite Hk]. Qed.
Lemma Zlen_perm {A} (l l' : list A) : l ≡ₚ l' -> Zlen l = Zlen l'.
Proof. intros E. unfold Zlen. by rewrite E. Qed.
(** [t'] is [t] with [v] stored for [k]. *)
Definition stored (t t' : Table) (k v : TValue) : Prop :=
  wf t' /\ Zlen (live t') <= Zlen (live t) + 1 /\ forall k2, assoc (live t') k2 = put (assoc (live t)) k v k2.
Definition full (t : Table) : Prop := MAXASIZE <= Zlen (live t).
Lemma store_spec t t1 s k v : wf t -> wf t1 -> live t1 ≡ₚ live t -> slot_for t1 s k -> exists t', put_slot s v t1 = Val (t', ()) /\ stored t t' k v.
Proof.
  intros Hw Hw1 El Hs. destruct (put_slot_spec t1 s k Hw1 Hs) as (v0 & k' & rest & Ev & (Hk & El1 & Hr) & Hput). destruct (Hput v) as (t' & E & Hw' & El' & _). exists t'. split; [done|].
  split; [done|]. rewrite El1 in El. split.
  - rewrite (Zlen_perm _ _ El'), <- (Zlen_perm _ _ El), !Zlen_app. unfold entry. destruct (ttisnil v0), (ttisnil v); rewrite ?Zlen_cons; lia.
  - intros k2. unfold put. rewrite <- (keq_congr _ _ _ Hk). symmetry in El. destruct (keq k' k2) eqn:E2.
    + apply (assoc_entry _ k' v rest); [by apply live_distinct|done|done|]. eapply Forall_impl; [exact Hr|]. intros p Hp. cbn in *. rewrite keq_sym, (keq_congr k2 k), keq_sym; [done|].
      rewrite keq_sym in E2. by eapply keq_trans.
    + rewrite (assoc_other _ k' v rest), (assoc_other (live t) k' v0 rest); try done; by apply live_distinct.
Qed.
Lemma get_value t k : wf t -> valid_key k -> exists s, luaH_get t k = Val s /\ slot_value t s = Val (assoc (live t) k).
Proof.
  intros Hw Hk. destruct (luaH_get_spec t k Hw Hk) as (s & E & [Hs|[-> Ha]]); exists s || exists SNil; split; try done.
  - destruct (put_slot_spec t s k Hw Hs) as (v0 & k' & rest & Ev & (Hk' & El & Hr) & _). rewrite Ev. f_equal. symmetry. eapply assoc_entry; try done. by apply live_distinct.
  - cbn. f_equal. symmetry. apply assoc_none. by apply absent_fresh.
Qed.
Lemma getnum_get t n : -2147483648 <= n < 2147483648 -> luaH_getnum t n = luaH_get t (VNumber (of_Z n)).
Proof. intros Hn. cbn [luaH_get]. assert (number2int (of_Z n) = n) as -> by (apply number2int_eq; [done|by apply of_Z_eq]). by rewrite of_Z_eq. Qed.
Lemma newkey_once t k : wf t -> valid_key k -> absent t k ->
  full t /\ newkey rehashes k t = Raise TableOverflow \/ exists t' s, newkey rehashes k t = Val (t', s) /\ wf t' /\ live t' ≡ₚ live t /\ slot_for t' s k.
Proof. exact (newkey_spec (newkey 0) t k). Qed.
Lemma new_or_found t k : wf t -> valid_key k -> let get := reads_table (fun t => luaH_get t k) in let m := (p ← get; match p with SNil => newkey rehashes k | _ => mret p end : tab slot) in
  full t /\ m t = Raise TableOverflow \/ exists t' s, m t = Val (t', s) /\ wf t' /\ live t' ≡ₚ live t /\ slot_for t' s k.
Proof.
  intros Hw Hk get m. unfold m, get. destruct (luaH_get_spec t k Hw Hk) as (s & E & [Hs|[-> Ha]]); rewrite (reads_step _ _ _ _ E).
  - right. exists t, s. destruct s; done.
  - by apply newkey_once.
Qed.
Lemma luaH_set_spec t k : wf t -> valid_key k ->
  full t /\ luaH_set k t = Raise TableOverflow \/ exists t' s, luaH_set k t = Val (t', s) /\ wf t' /\ live t' ≡ₚ live t /\ slot_for t' s k.
Proof.
  intros Hw Hk. unfold luaH_set, set_with. destruct (luaH_get_spec t k Hw Hk) as (s & E & Hs). rewrite (reads_step _ _ _ _ E), modify_step. set (t1 := set_flags 0 t).
  assert (wf t1) as Hw1 by by apply wf_set_flags. destruct Hs as [Hs|[-> Ha]]; [right; exists t1, s; by destruct s|].
  assert ((match k with VNil => raise TableIndexIsNil | VNumber x => if negb (numeq x x) then raise TableIndexIsNaN else newkey rehashes k | _ => newkey rehashes k end : tab slot) = newkey rehashes k) as ->.
  { destruct Hk as (Hk & Hkk & _). destruct k; try done. cbn in Hkk. by rewrite Hkk. }
  exact (newkey_once t1 k Hw1 Hk Ha).
Qed.
Lemma then_store t k v (m : tab slot) : wf t -> (full t /\ m t = Raise TableOverflow \/ exists t' s, m t = Val (t', s) /\ wf t' /\ live t' ≡ₚ live t /\ slot_for t' s k) ->
  full t /\ (s ← m; put_slot s v : tab ()) t = Raise TableOverflow \/ exists t', (s ← m; put_slot s v : tab ()) t = Val (t', ()) /\ stored t t' k v.
Proof.
  intros Hw [[Hf E]|(t1 & s & E & Hw1 & El & Hs)]; [left; split; [done|]; unfold mbind, tab_bind; by rewrite E|]. right. rewrite (tab_step _ _ _ _ _ E). by apply store_spec.
Qed.
Lemma reserve_spec t n : wf t -> n <= MAXASIZE -> exists t', reserve n t = Val (t', ()) /\ wf t' /\ live t' ≡ₚ live t.
Proof.
  intros Hw Hn. unfold reserve. rewrite asks_step. destruct (Z.ltb_spec (sizearray t) n) as [Hlt|]; [|by exists t]. unfold luaH_resizearray, luaH_resizearray_with. rewrite asks_step.
  change (if dummy t then 0 else sizenode t) with (old_size t). pose proof (loose_old t (wf_loose _ Hw)) as [Ho1 Ho2]. pose proof (wf_size _ Hw) as Hs.
  pose proof (wf_lsize _ Hw) as Hl. change MAXBITS with 26 in Hl. pose proof (Z.pow_le_mono_r 2 (lsizenode t) 26 ltac:(lia) ltac:(lia)) as Hp. rewrite <- (wf_node _ Hw) in Hp. change (2 ^ 26) with 67108864 in Hp.
  assert (Zlen (node_entries (node t)) <= old_size t) as Hroom.
  { destruct (dummy t) eqn:Ed; [rewrite (wf_dummy _ Hw Ed); change (Zlen (node_entries [dummynode])) with 0; lia|]. rewrite Ho2 by done. apply node_entries_length. }
  pose proof (outside_mono (sizearray t) n (live t) ltac:(lia)) as Hm. rewrite outside_nodes in Hm by done.
  destruct (resize_spec (newkey 1) t n (old_size t) 0 Hw) as [[Hb _]|(_ & t' & E & r1 & r2 & _)]; try lia; [change MAXASIZE with 67108864 in Hb; lia|]. exists t'. split; [exact E|done].
Qed.
(** ** The client *)
Definition represents (t : Table) (m : TValue -> TValue) : Prop := wf t /\ forall k, valid_key k -> assoc (live t) k = m k.
Definition int_key (n : Z) : Prop := -2147483648 < n < 2147483648.
Definition op_ok (o : op) : Prop :=
  match o with Get k | Set_ k _ => valid_key k | GetInt n | SetInt n _ => int_key n | SetStr _ _ => True | Reserve n => n <= MAXASIZE end.
Lemma int_valid n : int_key n -> valid_key (VNumber (of_Z n)).
Proof. unfold int_key. intros Hn. split; [done|]. rewrite arrayindex_of_Z by lia. split; [by apply of_Z_eq; lia|lia]. Qed.
Lemma string_valid s : valid_key (VString s).
Proof. split; [done|]. split; [by apply bool_decide_eq_true_2|done]. Qed.
Lemma represents_stored t t' m k v : represents t m -> valid_key k -> stored t t' k v -> represents t' (put m k v).
Proof.
  intros [Hw Hm] Hk (Hw' & _ & Hst). split; [done|]. intros k2 Hk2. rewrite Hst. unfold put. by rewrite Hm.
Qed.
(** An operation that stores. *)
Lemma store_op t m k v (st : tab ()) : represents t m -> valid_key k -> (full t /\ st t = Raise TableOverflow \/ exists t', st t = Val (t', ()) /\ stored t t' k v) ->
  full t /\ (_ ← st; mret VNil : tab TValue) t = Raise TableOverflow \/
  exists t', (_ ← st; mret VNil : tab TValue) t = Val (t', VNil) /\ represents t' (put m k v) /\ Zlen (live t') <= Zlen (live t) + 1.
Proof.
  intros Hr Hk [[Hf E]|(t' & E & Hst)]; [left; split; [done|]; unfold mbind, tab_bind; by rewrite E|right]. exists t'. rewrite (tab_step _ _ _ _ _ E). split; [done|].
  split; [by eapply represents_stored|apply Hst].
Qed.
Lemma rawget_spec t k : wf t -> valid_key k -> lua_rawget k t = Val (t, assoc (live t) k).
Proof. intros Hw Hk. destruct (get_value t k Hw Hk) as (s & E & Ev). unfold lua_rawget. rewrite (reads_step _ _ _ _ E). unfold reads_table. by rewrite Ev. Qed.
Lemma step_spec t m o : represents t m -> op_ok o -> full t /\ run_op o t = Raise TableOverflow \/
  exists t', run_op o t = Val (t', (map_op m o).2) /\ represents t' (map_op m o).1 /\ Zlen (live t') <= Zlen (live t) + 1.
Proof.
  intros Hr Ho. pose proof Hr as [Hw Hm]. destruct o as [k|k v|n|n v|s v|n]; cbn [run_op map_op fst snd op_ok] in *.
  - right. exists t. rewrite rawget_spec by done. rewrite Hm by done. split_and!; [done..|lia].
  - apply store_op; [done..|]. apply then_store; [done|]. by apply luaH_set_spec.
  - right. exists t. change (lua_rawgeti n) with (s ← reads_table (fun t => luaH_getnum t n); reads_table (fun t => slot_value t s) : tab TValue).
    pose proof (int_valid n Ho) as Hk. destruct (get_value t _ Hw Hk) as (s & E & Ev). rewrite <- getnum_get in E by (unfold int_key in Ho; lia).
    rewrite (reads_step _ _ _ _ E). unfold reads_table. rewrite Ev, Hm by done. split_and!; [done..|lia].
  - apply store_op; [done|by apply int_valid|]. apply then_store; [done|]. pose proof (new_or_found t _ Hw (int_valid n Ho)) as Hn. unfold luaH_setnum, setnum_with.
    unfold mbind, tab_bind, reads_table in *. rewrite getnum_get by (unfold int_key in Ho; lia). exact Hn.
  - apply (store_op t m (VString s) v (p ← luaH_setstr s; put_slot p v)); [done|apply string_valid|]. apply then_store; [done|]. exact (new_or_found t _ Hw (string_valid s)).
  - right. destruct (reserve_spec t n Hw Ho) as (t' & E & Hw' & El). exists t'. rewrite (tab_step _ _ _ _ _ E). split; [done|]. split; [|rewrite (Zlen_perm _ _ El); lia].
    split; [done|]. intros k Hk. rewrite <- Hm by done. apply assoc_perm; [by apply live_distinct|done].
Qed.
Lemma run_spec ops : forall t m, represents t m -> Forall op_ok ops -> Zlen (live t) + Zlen ops <= MAXASIZE ->
  exists t', run ops t = Val (t', map_run m ops) /\ represents t' (map_end m ops).
Proof.
  induction ops as [|o ops IH]; intros t m Hr Hops Hlen; [by exists t|]. apply Forall_cons in Hops as [Ho Hops]. rewrite Zlen_cons in Hlen. cbn [run map_run]. unfold map_end. cbn [fold_left]. fold (map_end (map_op m o).1 ops).
  destruct (step_spec t m o Hr Ho) as [[Hf _]|(t' & E & Hr' & Hl)]; [unfold full in Hf; pose proof (Zlen_nonneg ops); lia|].
  destruct (map_op m o) as [m' v]. cbn [fst snd] in *. destruct (IH t' m' Hr' Hops ltac:(lia)) as (t2 & E2 & Hw2). exists t2. rewrite (tab_step _ _ _ _ _ E), (tab_step _ _ _ _ _ E2). done.
Qed.
(** ** A new table *)
Definition blank (n : nat) : list Node := replicate n (MkNode VNil VNil Null).
Lemma blank_at n i x : blank n !! i = Some x -> x = MkNode VNil VNil Null.
Proof. intros E. by apply lookup_replicate in E as [-> _]. Qed.
Lemma blank_chained n : chained (blank n).
Proof.
  assert (forall i, nx (blank n) i = None) as Hx. { intros i. unfold nx. destruct (blank n !! i) as [x|] eqn:E; [|done]. by rewrite (blank_at _ _ _ E). }
  split; [split| |].
  - intros a b m. by rewrite Hx.
  - exists (fun _ => O). intros a b. by rewrite Hx.
  - intros a b. by rewrite Hx.
  - intros a x E. by rewrite (blank_at _ _ _ E).
Qed.
Lemma blank_keyed n i k : ~ keyed (keys (blank n)) i k.
Proof. intros [E Hk]. apply list_lookup_fmap_Some in E as (x & -> & Ex). by rewrite (blank_at _ _ _ Ex) in Hk. Qed.
Lemma blank_wf fl l na d lf : 0 <= l <= MAXBITS -> 0 <= na <= MAXASIZE -> (d = true -> l = 0) -> lf <= (if d then 0 else 2 ^ l) ->
  let t := MkTable fl l (replicate (Z.to_nat na) VNil) (blank (Z.to_nat (2 ^ l))) d lf na in wf t /\ live t = [].
Proof.
  intros Hl Hna Hd Hlf t. pose proof (Z.pow_pos_nonneg 2 l ltac:(lia) ltac:(lia)) as Hp. assert (Zlen (blank (Z.to_nat (2 ^ l))) = 2 ^ l) as El by (unfold Zlen, blank; rewrite length_replicate; lia). split.
  - split; cbn [t sizearray array lsizenode node dummy lastfree]; try done.
    + unfold Zlen. rewrite length_replicate. lia.
    + intros E. by rewrite (Hd E).
    + by rewrite El.
    + apply blank_chained.
    + intros j k Hk. by apply blank_keyed in Hk.
    + intros i j a b Ha. by apply blank_keyed in Ha.
    + intros i k Hk. by apply blank_keyed in Hk.
  - unfold live. cbn [t sizearray array node]. unfold blank. rewrite node_entries_blank, app_nil_r, take_ge by (rewrite length_replicate; lia). apply array_entries_blank.
Qed.
Lemma luaH_new_spec na nh : 0 <= na <= MAXASIZE -> 0 <= nh <= MAXASIZE -> exists t, luaH_new na nh = Val t /\ wf t /\ live t = [].
Proof.
  intros Hna Hnh. unfold luaH_new, setarrayvector. rewrite modify_step. cbn [array sizearray set_sizearray set_array]. rewrite take_nil, Z.sub_0_r. unfold resizenodevector. rewrite asks_step.
  destruct (Z.eqb_spec nh 0) as [->|Hne].
  - eexists. split; [reflexivity|]. by apply (blank_wf 255 0).
  - change MAXASIZE with 67108864 in Hnh. rewrite (reads_step _ _ _ (Z.log2_up nh)) by (by rewrite ceillog2_eq by lia). rewrite log2_up_max, (proj2 (Z.ltb_ge _ _)) by (change MAXASIZE with 67108864; lia).
    pose proof (Z.log2_up_nonneg nh). rewrite !modify_step. eexists. split; [reflexivity|]. cbn [dummy set_array set_sizearray take map node set_node].
    rewrite twoto_pow by done. change (Z.to_nat 0) with O. cbn [firstn map]. rewrite firstn_nil, Z.sub_0_r. cbn [app]. apply (blank_wf 255 (Z.log2_up nh)); try done.
    split; [done|]. apply Z.log2_up_le_pow2; [lia|]. change (2 ^ MAXBITS) with 67108864. lia.
Qed.
(** ** Traversal *)
Definition after (t : Table) (i : Z) : list (TValue * TValue) := pending t (sizearray t) i ++ node_entries (drop (Z.to_nat (i - sizearray t)) (node t)).
Lemma pending_end t i : sizearray t <= i -> pending t (sizearray t) i = [].
Proof. intros Hi. unfold pending. by replace (Z.to_nat (sizearray t - i)) with O by lia. Qed.
Lemma next_array_spec t n : forall i, sized t -> 0 <= i -> i + Z.of_nat n = sizearray t -> next_array n t i = Val (head (pending t (sizearray t) i)) /\
  forall p l, pending t (sizearray t) i = p :: l -> exists x, i <= x < sizearray t /\ p.1 = VNumber (of_Z (x + 1)) /\ pending t (sizearray t) (x + 1) = l.
Proof.
  induction n as [|n IH]; intros i Hs Hi Hn; cbn [next_array]; [rewrite pending_end by lia; done|]. destruct Hs as [Hs1 Hs2].
  destruct (lookup_lt_is_Some_2 (array t) (Z.to_nat i)) as [v Ev]; [unfold Zlen in Hs2; lia|]. rewrite (proj2 (bget_Ok _ _ v)) by (split; [lia|done]). cbn [of_res mbind outcome_bind].
  rewrite (pending_step t _ i v) by (lia || done). destruct (IH (i + 1) ltac:(done) ltac:(lia) ltac:(lia)) as [E1 E2]. unfold entry. destruct (ttisnil v); cbn [app].
  - split; [exact E1|]. intros p l El. destruct (E2 p l El) as (x & Hx & ?). exists x. split; [lia|done].
  - split; [done|]. intros p l [= <- <-]. exists i. split; [lia|done].
Qed.
Lemma next_node_spec t n : forall i, (i + n = length (node t))%nat -> next_node n t i = Val (head (node_entries (drop i (node t)))) /\
  forall p l, node_entries (drop i (node t)) = p :: l -> exists y nd, (i <= y)%nat /\ node t !! y = Some nd /\ p = (gkey nd, gval nd) /\ gval nd <> VNil /\ node_entries (drop (S y) (node t)) = l.
Proof.
  induction n as [|n IH]; intros i Hn; cbn [next_node]; [rewrite drop_ge by lia; done|]. destruct (lookup_lt_is_Some_2 (node t) i ltac:(lia)) as [nd E]. unfold at_node. rewrite E. cbn [mbind outcome_bind].
  rewrite (drop_S _ _ _ E), node_entries_cons. destruct (IH (S i) ltac:(lia)) as [E1 E2]. unfold entry. destruct (ttisnil (gval nd)) eqn:Ev; cbn [app].
  - split; [exact E1|]. intros p l El. destruct (E2 p l El) as (y & m & Hy & ?). exists y, m. split; [lia|done].
  - split; [done|]. intros p l [= <- <-]. exists i, nd. split_and!; try done. intros E'. by rewrite E' in Ev.
Qed.
Lemma findindex_array t x : sized t -> 0 <= x < sizearray t -> findindex t (VNumber (of_Z (x + 1))) = Val x.
Proof.
  intros [Hs _] Hx. change MAXASIZE with 67108864 in Hs. unfold findindex. cbn [ttisnil]. rewrite arrayindex_of_Z by lia. rewrite (proj2 (Z.ltb_lt _ _)), (proj2 (Z.leb_le _ _)) by lia. cbn [andb]. unfold mret, outcome_ret. f_equal. lia.
Qed.
Lemma findindex_node t y nd : wf t -> node t !! y = Some nd -> gval nd <> VNil -> findindex t (gkey nd) = Val (Z.of_nat y + sizearray t).
Proof.
  intros Hw E Hv. assert (used (node t) y nd) as Hu. { split; [done|]. intros Hk. by apply (chained_node _ (wf_chained _ Hw) _ _ E) in Hk as [_ ?]. }
  destruct (wf_keys _ Hw _ _ (used_keyed _ _ _ Hu)) as [Hk Ha]. unfold findindex. assert (ttisnil (gkey nd) = false) as -> by (destruct (gkey nd) eqn:Ek; try done; by destruct Hu).
  change ((0 <? arrayindex (gkey nd)) && (arrayindex (gkey nd) <=? sizearray t)) with (in_array t (gkey nd)). rewrite Ha, mainposition_eq by apply Hk. cbn [mbind outcome_bind].
  destruct (find_key_spec t (gkey nd) Hw (proj1 Hk) Ha) as (s & Ef & Hs). unfold find_key in Ef. destruct (chain_find _ _ _ _) as [r| |]; try done. injection Ef as <-. cbn [mbind outcome_bind].
  destruct r as [j|]; cbn [found] in Hs.
  - destruct Hs as [(_ & m & Hm & Ek)|[[=] _]]. cbn. do 2 f_equal. f_equal. by apply (wf_unique _ Hw _ _ (gkey m) (gkey nd)); [apply used_keyed..|].
  - destruct Hs as [[]|[_ [_ Habs]]]. specialize (Habs _ _ Hu). destruct Hk as (_ & Hkk & _). congruence.
Qed.
Lemma next_node_from t i : wf t -> next_node (Z.to_nat (sizenode t - Z.of_nat i)) t i = Val (head (node_entries (drop i (node t)))) /\
  forall p l, node_entries (drop i (node t)) = p :: l -> exists y, (i <= y)%nat /\ findindex t p.1 = Val (Z.of_nat y + sizearray t) /\ node_entries (drop (S y) (node t)) = l.
Proof.
  intros Hw. pose proof (sizenode_len t Hw) as Hl. destruct (decide (i <= length (node t))%nat) as [Hi|Hi].
  - destruct (next_node_spec t (Z.to_nat (sizenode t - Z.of_nat i)) i ltac:(lia)) as [E1 E2]. split; [done|]. intros p l El. destruct (E2 p l El) as (y & nd & Hy & Ey & -> & Hv & Ey').
    exists y. split; [done|]. split; [by apply findindex_node|done].
  - rewrite drop_ge by lia. replace (Z.to_nat (sizenode t - Z.of_nat i)) with O by lia. done.
Qed.
Lemma luaH_next_spec t k i : wf t -> 0 <= i -> findindex t k = Val (i - 1) -> luaH_next t k = Val (head (after t i)) /\
  forall p l, after t i = p :: l -> exists j, i < j /\ findindex t p.1 = Val (j - 1) /\ after t j = l.
Proof.
  intros Hw Hi E. unfold luaH_next. rewrite E. cbn [mbind outcome_bind]. replace (i - 1 + 1) with i by lia. pose proof (wf_sized _ Hw) as Hs. set (b := Z.max i (sizearray t) - sizearray t).
  destruct (next_node_from t (Z.to_nat (i - sizearray t)) Hw) as [En1 En2]. replace (Z.of_nat (Z.to_nat (i - sizearray t))) with b in En1 by lia.
  replace (Z.to_nat (i - sizearray t)) with (Z.to_nat b) in * by lia. unfold after. replace (Z.to_nat (i - sizearray t)) with (Z.to_nat b) by lia.
  assert (next_array (Z.to_nat (sizearray t - i)) t i = Val (head (pending t (sizearray t) i)) /\
    forall p l, pending t (sizearray t) i = p :: l -> exists x, i <= x < sizearray t /\ p.1 = VNumber (of_Z (x + 1)) /\ pending t (sizearray t) (x + 1) = l) as [Ea1 Ea2].
  { destruct (decide (i <= sizearray t)); [apply next_array_spec; [done|done|lia]|]. rewrite pending_end by lia. by replace (Z.to_nat (sizearray t - i)) with O by lia. }
  rewrite Ea1. cbn [mbind outcome_bind]. destruct (pending t (sizearray t) i) as [|q r] eqn:Ep; cbn [head app].
  - split; [exact En1|]. intros p l El. destruct (En2 p l El) as (y & Hy & Ef & El'). exists (Z.of_nat y + sizearray t + 1). split; [lia|]. split; [rewrite Ef; f_equal; lia|].
    rewrite pending_end by lia. by replace (Z.to_nat (Z.of_nat y + sizearray t + 1 - sizearray t)) with (S y) by lia.
  - split; [done|]. intros p l [= -> <-]. destruct (Ea2 p r eq_refl) as (x & Hx & Ek & Er). exists (x + 1). split; [lia|]. split; [rewrite Ek, findindex_array by (lia || done); f_equal; lia|].
    rewrite Er. by replace (Z.to_nat (x + 1 - sizearray t)) with (Z.to_nat b) by lia.
Qed.
Lemma traverse_spec t fuel : wf t -> forall k i, 0 <= i -> findindex t k = Val (i - 1) -> (length (after t i) < fuel)%nat -> traverse fuel t k = Val (after t i).
Proof.
  intros Hw. induction fuel as [|fuel IH]; intros k i Hi E Hl; [lia|]. cbn [traverse]. destruct (luaH_next_spec t k i Hw Hi E) as [-> Hn]. cbn [mbind outcome_bind].
  destruct (after t i) as [|p l] eqn:Ea; [done|]. destruct (Hn p l eq_refl) as (j & Hj & Ej & El). cbn [head]. rewrite (IH p.1 j); [by rewrite El|lia|done|]. rewrite El. cbn in Hl. lia.
Qed.
Lemma after_live t : 0 <= sizearray t -> after t 0 = live t.
Proof. intros Hs. unfold after, pending, live. replace (Z.to_nat (0 - sizearray t)) with O by lia. change (Z.to_nat 0) with O. by rewrite Z.sub_0_r, !drop_0. Qed.
(** ** Boundaries *)
Definition missing (t : Table) (n : Z) : bool := ttisnil (assoc (live t) (VNumber (of_Z n))).
(** [n] is a boundary of a sequence: nothing, or a present element, at [n],
    and no element behind it. *)
Definition boundary (absent : Z -> bool) (n : Z) : Prop := (n = 0 \/ absent n = false) /\ absent (n + 1) = true.
Lemma binary_loop_end fuel absent i j : j = i + 1 -> binary_loop (S fuel) absent i j = Val i.
Proof. intros ->. cbn [binary_loop]. by replace (i + 1 - i) with 1 by lia. Qed.
Lemma binary_loop_step fuel absent i j : 0 <= i -> 1 < j - i -> j <= MAX_INT ->
  binary_loop (S fuel) absent i j = (b ← absent ((i + j) / 2); if b : bool then binary_loop fuel absent i ((i + j) / 2) else binary_loop fuel absent ((i + j) / 2) j).
Proof. change MAX_INT with 2147483645. intros Hi Hj Hm. cbn [binary_loop]. rewrite (wrap_small 32 (j - i)), (wrap_small 32 (i + j)) by lia. by rewrite (proj2 (Z.ltb_lt _ _)) by lia. Qed.
Lemma binary_loop_spec absent (P : Z -> bool) fuel : forall i j, 0 <= i < j -> j <= MAX_INT -> j - i <= 2 ^ Z.of_nat fuel -> (forall m, i < m < j -> absent m = Val (P m)) ->
  (i = 0 \/ P i = false) -> P j = true -> exists n, binary_loop (S fuel) absent i j = Val n /\ i <= n < j /\ boundary P n.
Proof.
  induction fuel as [|fuel IH]; intros i j Hij Hj Hf Ha Hi HPj; assert (1 < j - i \/ j = i + 1) as [Hlt|Hge] by lia;
    try (exists i; rewrite binary_loop_end by done; split; [done|]; split; [lia|]; split; [done|]; by rewrite <- Hge).
  { change (2 ^ Z.of_nat 0) with 1 in Hf. lia. }
  rewrite Nat2Z.inj_succ, Z.pow_succ_r in Hf by lia. rewrite binary_loop_step by lia. pose proof (Z.div_mod (i + j) 2 ltac:(lia)). pose proof (Z.mod_pos_bound (i + j) 2 ltac:(lia)). set (m := (i + j) / 2) in *.
  rewrite Ha by lia. cbn [mbind outcome_bind]. destruct (P m) eqn:Em.
  - destruct (IH i m) as (n & E & Hn & Hb); try done; try lia; [intros x Hx; apply Ha; lia|]. exists n. split; [exact E|]. split; [lia|done].
  - destruct (IH m j) as (n & E & Hn & Hb); try done; try lia; [intros x Hx; apply Ha; lia|by right|]. exists n. split; [exact E|]. split; [lia|done].
Qed.
Lemma num_value_spec t n : wf t -> int_key n -> num_value t n = Val (assoc (live t) (VNumber (of_Z n))).
Proof. intros Hw Hn. destruct (get_value t _ Hw (int_valid n Hn)) as (s & E & Ev). unfold num_value. by rewrite getnum_get, E by (unfold int_key in Hn; lia). Qed.
Lemma array_value t n : wf t -> 0 < n <= sizearray t -> bget (array t) (n - 1) = Ok (assoc (live t) (VNumber (of_Z n))).
Proof.
  intros Hw Hn. pose proof (wf_size _ Hw) as Hs. change MAXASIZE with 67108864 in Hs. destruct (get_value t (VNumber (of_Z n)) Hw) as (s & E & Ev); [apply int_valid; unfold int_key; lia|].
  rewrite <- getnum_get, getnum_eq, (proj2 (Z.ltb_lt _ _)), (proj2 (Z.leb_le _ _)) in E by (done || lia). injection E as <-. cbn in Ev. destruct (bget (array t) (n - 1)) as [v|]; cbn in Ev; congruence.
Qed.
(** Elements at [1], ..., [n] are elements of the table. *)
Lemma present_bound t n : wf t -> 0 <= n < 2147483648 -> (forall m, 0 < m <= n -> missing t m = false) -> n <= Zlen (live t).
Proof.
  intros Hw Hn Hm. assert (length (seqZ 1 n) <= length (map (fun p => arrayindex p.1) (live t)))%nat as Hl; [|rewrite length_map, length_seqZ in Hl; unfold Zlen; lia].
  apply submseteq_length, NoDup_submseteq; [apply NoDup_seqZ|]. intros m Hin. apply elem_of_seqZ in Hin. specialize (Hm m ltac:(lia)). unfold missing in Hm.
  destruct (decide (Forall (fun p => keq p.1 (VNumber (of_Z m)) = false) (live t))) as [Hno|Hno]; [by rewrite assoc_none in Hm|].
  apply not_Forall_Exists, Exists_exists in Hno as (p & Hp & Ek); [|intros p; destruct (keq p.1 _); [by right|by left]]. apply not_false_iff_true in Ek.
  apply list_elem_of_fmap. exists p. split; [|done]. rewrite (arrayindex_keq _ _ Ek), arrayindex_of_Z by lia. done.
Qed.
Lemma live_parts t : Zlen (live t) <= Zlen (array t) + Zlen (node t).
Proof.
  unfold live. rewrite Zlen_app. pose proof (node_entries_length (node t)). pose proof (array_entries_length 1 (take (Z.to_nat (sizearray t)) (array t))) as Ha.
  assert (Zlen (take (Z.to_nat (sizearray t)) (array t)) <= Zlen (array t)); [|lia]. unfold Zlen. rewrite length_take. lia.
Qed.
Lemma linear_loop_spec t fuel : wf t -> forall i, 0 < i -> (forall m, 0 < m < i -> missing t m = false) -> i - 1 <= Zlen (live t) -> Zlen (live t) + 1 < i + Z.of_nat fuel ->
  exists n, linear_loop fuel t i = Val n /\ 0 <= n <= Zlen (live t) /\ boundary (missing t) n.
Proof.
  intros Hw. pose proof (live_length t Hw) as Hl. change MAXASIZE with 67108864 in Hl. induction fuel as [|fuel IH]; intros i Hi Hp Hb Hf; [lia|]. cbn [linear_loop].
  rewrite (swrap_small 32), num_value_spec by (unfold int_key; done || lia). cbn [mbind outcome_bind]. fold (missing t i). destruct (missing t i) eqn:Em.
  - exists (i - 1). split; [by rewrite (wrap_small 32) by lia|]. split; [lia|]. split; [|by replace (i - 1 + 1) with i by lia].
    destruct (decide (i = 1)) as [->|]; [by left|right; apply Hp; lia].
  - assert (forall m, 0 < m < i + 1 -> missing t m = false) as Hp'. { intros m Hm. destruct (decide (m = i)) as [->|]; [done|apply Hp; lia]. }
    rewrite (wrap_small 32) by lia. apply IH; [lia|done| |lia]. pose proof (present_bound t i Hw ltac:(lia) ltac:(intros m Hm; apply Hp'; lia)). lia.
Qed.
Lemma unbound_loop_spec t fuel : wf t -> forall i j, 0 <= i < j -> j <= MAX_INT -> MAX_INT < j * 2 ^ Z.of_nat fuel -> (i = 0 \/ missing t i = false) ->
  exists n, unbound_loop fuel t i j = Val n /\ 0 <= n <= MAX_INT /\ boundary (missing t) n.
Proof.
  intros Hw. change MAX_INT with 2147483645. induction fuel as [|fuel IH]; intros i j Hij Hj Hf Hi; [change (2 ^ Z.of_nat 0) with 1 in Hf; lia|]. cbn [unbound_loop].
  rewrite (swrap_small 32), num_value_spec by (unfold int_key; done || lia). cbn [mbind outcome_bind]. fold (missing t j). destruct (missing t j) eqn:Em.
  - destruct (binary_loop_spec (fun m => v ← num_value t (s32 m); mret (ttisnil v)) (missing t) 32 i j Hij) as (n & E & Hn & Hb); try done; [change (2 ^ Z.of_nat 32) with 4294967296; lia| |].
    + intros m Hm. rewrite (swrap_small 32), num_value_spec by (unfold int_key; done || lia). done.
    + exists n. split; [exact E|]. split; [lia|done].
  - rewrite (wrap_small 32) by lia. change MAX_INT with 2147483645. destruct (Z.ltb_spec 2147483645 (j * 2)).
    + destruct (linear_loop_spec t (S (length (array t) + length (node t))) Hw 1) as (n & E & Hn & Hb); try lia; [pose proof (Zlen_nonneg (live t)); lia|pose proof (live_parts t) as Hp; unfold Zlen in *; lia|].
      exists n. split; [exact E|]. split; [|done]. pose proof (live_length t Hw) as Hl. change MAXASIZE with 67108864 in Hl. lia.
    + rewrite Nat2Z.inj_succ, Z.pow_succ_r in Hf by lia. apply IH; [lia|lia|lia|by right].
Qed.
Lemma beyond_array t n : wf t -> dummy t = true -> sizearray t < n < 2147483648 -> missing t n = true.
Proof.
  intros Hw Hd Hn. unfold missing. rewrite assoc_none; [done|]. unfold live. rewrite (wf_dummy _ Hw Hd). change (node_entries [dummynode]) with (@nil (TValue * TValue)). rewrite app_nil_r.
  apply Forall_forall. intros p Hp. apply (array_entry_key t p (wf_sized _ Hw)) in Hp as [_ Hp]. destruct (keq p.1 _) eqn:E; [|done]. apply arrayindex_keq in E.
  apply in_array_spec in Hp. pose proof (wf_size _ Hw). rewrite E, arrayindex_of_Z in Hp by lia. lia.
Qed.
Lemma getn_spec t : wf t -> exists n, luaH_getn t = Val n /\ 0 <= n <= MAX_INT /\ boundary (missing t) n.
Proof.
  intros Hw. pose proof (wf_size _ Hw) as Hs. change MAXASIZE with 67108864 in Hs. unfold luaH_getn. rewrite (wrap_small 32) by lia.
  assert (exists v, (if 0 <? sizearray t then of_res (bget (array t) (sizearray t - 1)) else mret (VBoolean 1) : outcome TValue) = Val v /\ (ttisnil v = true -> 0 < sizearray t /\ missing t (sizearray t) = true) /\
    (ttisnil v = false -> sizearray t = 0 \/ missing t (sizearray t) = false)) as (v & -> & Hv1 & Hv2).
  { destruct (Z.ltb_spec 0 (sizearray t)); [|eexists; split; [done|]; split; [done|]; left; lia]. rewrite array_value by (done || lia). eexists. split; [done|]. unfold missing. split; intros E; [by split|by right]. }
  cbn [mbind outcome_bind]. destruct (ttisnil v).
  - destruct (Hv1 eq_refl) as [Hp Hm]. destruct (binary_loop_spec (fun m => v ← of_res (bget (array t) (m - 1)); mret (ttisnil v)) (missing t) 32 0 (sizearray t)) as (n & E & Hn & Hb); try done; try (by left).
    + change MAX_INT with 2147483645. lia.
    + change (2 ^ Z.of_nat 32) with 4294967296. lia.
    + intros m Hm'. rewrite array_value by (done || lia). done.
    + exists n. change MAX_INT with 2147483645. split; [exact E|]. split; [lia|done].
  - specialize (Hv2 eq_refl). destruct (dummy t) eqn:Ed.
    + change MAX_INT with 2147483645. exists (sizearray t). rewrite (swrap_small 32) by lia. split; [done|]. split; [lia|]. split; [done|]. apply beyond_array; [done|done|lia].
    + unfold unbound_search. rewrite (wrap_small 32) by lia. destruct (unbound_loop_spec t 33 Hw (sizearray t) (sizearray t + 1)) as (n & E & Hn & Hb); try done; try lia.
      * change MAX_INT with 2147483645. lia.
      * change MAX_INT with 2147483645. change (2 ^ Z.of_nat 33) with 8589934592. lia.
      * change MAX_INT with 2147483645 in Hn. rewrite E. cbn [mbind outcome_bind]. exists n. change MAX_INT with 2147483645. rewrite (swrap_small 32) by lia. split; [done|]. split; [lia|exact Hb].
Qed.
End map.
