(* ===== verification/LuaTableSpec.v ===== *)
(** The tables of LuaTable.v from the outside: after any operations on a new
    table, which are a client of a map that is a function. *)
From S2P Require Import Prelude LuaStr LuaFormat LuaLex LuaTable LuaTableChain LuaTableHash LuaTablePlace LuaTableRehash LuaTableGrow LuaTableInsert LuaTableMap.

Section spec.
  Context `{NumbersLaws}.
Notation keq := luaO_rawequalObj.
Definition empty_map : TValue -> TValue := fun _ => VNil.
Lemma nan_key t x : wf t -> numeq x x = false -> luaH_get t (VNumber x) = Val SNil.
Proof.
  intros Hw Hx. assert (forall y, numeq y x = false) as Hy. { intros y. destruct (numeq y x) eqn:E; [|done]. rewrite <- Hx. symmetry. eapply numeq_trans; [rewrite numeq_sym|]; exact E. }
  cbn [luaH_get]. rewrite Hy. unfold get_default. rewrite mainposition_eq by done. cbn [mbind outcome_bind].
  destruct (chain_find_spec t (is_key (VNumber x)) _ (wf_chained _ Hw) (wf_mpos t (VNumber x) Hw)) as [(j & n & _ & _ & _ & Hn)|[-> _]]; [|done].
  unfold is_key in Hn. destruct (gkey n); cbn in Hn; try done. by rewrite Hy in Hn.
Qed.
(** Keys that no element can have. *)
Lemma refused_keys t : wf t -> luaH_set VNil t = Raise TableIndexIsNil /\ lua_rawget VNil t = Val (t, VNil) /\
  forall x, numeq x x = false -> luaH_set (VNumber x) t = Raise TableIndexIsNaN /\ lua_rawget (VNumber x) t = Val (t, VNil).
Proof.
  intros Hw. split; [done|]. split; [done|]. intros x Hx. pose proof (nan_key t x Hw Hx) as E. unfold luaH_set, set_with, lua_rawget. rewrite !(reads_step _ _ _ _ E), modify_step, Hx. done.
Qed.
Lemma live_values t : Forall (fun p => p.2 <> VNil) (live t).
Proof.
  apply Forall_forall. intros p Hp. unfold live in Hp. apply elem_of_app in Hp as [(j & v & _ & -> & Hv)%elem_of_array_entries|(i & n & _ & -> & Hv)%elem_of_node_entries]; done.
Qed.
Lemma missing_fresh t k : assoc (live t) k = VNil -> fresh t k.
Proof.
  unfold fresh. pose proof (live_values t) as Hv. induction Hv as [|p l Hp _ IH]; [done|]. cbn. destruct (keq p.1 k) eqn:E; [done|]. intros Hn. constructor; [done|by apply IH].
Qed.
(** The search for the smallest int overflows, and 0 is no key of the array
    part. *)
Lemma min_key_overflows t : luaH_get t (VNumber (of_Z (-2147483648))) = Fault SignedOverflow.
Proof. rewrite <- getnum_get by lia. done. Qed.
Lemma zero_not_in_array t : wf t -> forall i, luaH_getnum t 0 <> Val (SArray i).
Proof.
  intros Hw i. rewrite getnum_eq by (apply Hw || lia). cbn [Z.ltb Z.compare andb]. unfold find_key.
  by destruct (chain_find (chain_fuel t) t (is_key (VNumber (of_Z 0))) (mpos (sizenode t) (VNumber (of_Z 0)))) as [[j|]| |].
Qed.
Section client.
  Variables (na nh : Z) (ops : list op).
  Hypotheses (Hna : 0 <= na <= MAXASIZE) (Hnh : 0 <= nh <= MAXASIZE) (Hops : Forall op_ok ops) (Hlen : Zlen ops <= MAXASIZE).
(** The table after the operations, and what it represents. *)
Lemma client_runs : exists t0 t, luaH_new na nh = Val t0 /\ run ops t0 = Val (t, map_run empty_map ops) /\ represents t (map_end empty_map ops).
Proof.
  destruct (luaH_new_spec na nh Hna Hnh) as (t0 & E0 & Hw0 & El0). destruct (run_spec ops t0 empty_map) as (t & E & Hr); [|done|rewrite El0; exact Hlen|by exists t0, t].
  split; [done|]. intros k _. by rewrite El0.
Qed.

(** C18: A table is a map from keys to values: whatever is stored, read and
    reserved in a new table, in whatever order, every read gives what was
    stored last for an equal key, across collisions, moves of nodes and
    rehashes, and no operation fails; nil and NaN are refused as keys. *)
Theorem table_refines_map : exists t0 t, luaH_new na nh = Val t0 /\ run ops t0 = Val (t, map_run empty_map ops) /\
  (luaH_set VNil t = Raise TableIndexIsNil /\ lua_rawget VNil t = Val (t, VNil)) /\
  forall x, numeq x x = false -> luaH_set (VNumber x) t = Raise TableIndexIsNaN /\ lua_rawget (VNumber x) t = Val (t, VNil).
Proof.
  destruct client_runs as (t0 & t & E0 & E & Hw & _). exists t0, t. destruct (refused_keys t Hw) as (? & ? & ?). done.
Qed.

(** C19: A traversal with [luaH_next] ends and meets every element of the map that
    the operations have made exactly once, and nothing else. *)
Theorem table_traversal : exists t0 t l, luaH_new na nh = Val t0 /\ run ops t0 = Val (t, map_run empty_map ops) /\
  (forall fuel, (length l < fuel)%nat -> traverse fuel t VNil = Val l) /\
  distinct l /\ Forall (fun p => valid_key p.1 /\ p.2 <> VNil) l /\ forall k, valid_key k -> assoc l k = map_end empty_map ops k.
Proof.
  destruct client_runs as (t0 & t & E0 & E & Hw & Hm). exists t0, t, (live t). split; [done|]. split; [done|]. pose proof (wf_size _ Hw) as [Hs _].
  split; [intros fuel Hf; rewrite <- after_live in * by done; by apply traverse_spec|]. split; [by apply live_distinct|]. split; [|done].
  apply Forall_and. split; [by apply live_valid|apply live_values].
Qed.

(** C20: The length operator gives a boundary of the map: an index with an element,
    or 0, that has no element behind it, whatever the sizes of the parts. *)
Theorem table_length : exists t0 t n, luaH_new na nh = Val t0 /\ run ops t0 = Val (t, map_run empty_map ops) /\
  luaH_getn t = Val n /\ 0 <= n <= MAX_INT /\ boundary (fun i => ttisnil (map_end empty_map ops (VNumber (of_Z i)))) n.
Proof.
  destruct client_runs as (t0 & t & E0 & E & Hw & Hm). destruct (getn_spec t Hw) as (n & En & Hn & Hb1 & Hb2). exists t0, t, n. do 4 (split; [done|]). change MAX_INT with 2147483645 in Hn.
  unfold missing in Hb1, Hb2. split.
  - destruct Hb1 as [->|Hb1]; [by left|]. right. rewrite Hm in Hb1; [done|]. apply int_valid. unfold int_key. lia.
  - rewrite Hm in Hb2; [done|]. apply int_valid. unfold int_key. lia.
Qed.

(** C21: For a new key a rehash asks for the best sizes: the array part is empty or
    a power of two of which more than half is going to be used, every larger
    power of two would be at most half used, and the hash part has room for
    exactly the other elements. *)
Theorem rehash_sizes_best : exists t0 t, luaH_new na nh = Val t0 /\ run ops t0 = Val (t, map_run empty_map ops) /\
  forall k, valid_key k -> map_end empty_map ops k = VNil -> let l := (k, VNil) :: live t in
  exists n, rehash_sizes k t = Val (n, Zlen l - counts (within n) l) /\
    (n = 0 \/ exists j, 0 <= j <= MAXBITS /\ n = 2 ^ j /\ n / 2 < counts (within n) l) /\
    forall j, 0 <= j <= MAXBITS -> n < 2 ^ j -> counts (within (2 ^ j)) l <= 2 ^ j / 2.
Proof.
  destruct client_runs as (t0 & t & E0 & E & Hw & Hm). exists t0, t. do 2 (split; [done|]). intros k Hk Hno l. rewrite <- Hm in Hno by done.
  destruct (rehash_sizes_spec t k Hw (missing_fresh _ _ Hno)) as (n & na' & -> & -> & Hn & Hbig). exists n. split; [done|]. split.
  - destruct Hn as [?|(j & Hj & ?)]; [by left|right]. exists j. split; [lia|done].
  - intros j Hj. apply Hbig. lia.
Qed.
End client.
End spec.

(** ** Numbers with a NaN *)
Section example.
#[local] Instance ints : Double := {| num := option Z; of_Z := Some; trunc x := default 0 x; strtod _ := (None, 0); sprintf_double _ _ := [] |}.
#[local] Instance ints_numbers : @Numbers ints := {|
  numeq (x y : @num ints) := match x, y with Some a, Some b => a =? b | _, _ => false end;
  number2int (x : @num ints) := match x with Some a => swrap 32 a | None => -2147483648 end;
  num_words (x : @num ints) := match x with Some a => (u32 a, u32 (a / 4294967296)) | None => (0, 0) end;
|}.
#[local] Instance ints_laws : @NumbersLaws ints ints_numbers.
Proof.
  split.
  - intros [x|] [y|]; try done. apply Z.eqb_sym.
  - intros [x|] [y|] [z|]; try done. cbn. rewrite !Z.eqb_eq. congruence.
  - intros [x|] [y|]; try done. cbn. rewrite Z.eqb_eq. intros ->. by left.
  - intros i _. apply Z.eqb_refl.
  - intros i [x|] Hi; try done. cbn. rewrite Z.eqb_eq. intros <-. by apply swrap_small.
  - intros [x|]; [exact (swrap_range 32 x eq_refl)|done].
Qed.
(** Colliding keys, an array part that grows and holes in it. *)
Definition number (i : Z) : TValue := VNumber (Some i : @num ints).
Definition client : list op :=
  [Set_ (VString [97]) (number 1); SetInt 1 (number 10); SetInt 2 (VBoolean 1); Set_ (number 4611686018427387904) (number 3); Set_ (VString [98]) (number 4); SetStr [97] (number 5);
   SetInt 3 (number 6); Get (VString [97]); SetInt 1 VNil; Reserve 8; SetInt 8 (VString [99]); GetInt 3; GetInt 1; Set_ (VLightUserdata 5) (number 7); Get (number 4611686018427387904)].
Lemma client_ok : Forall op_ok client.
Proof.
  assert (forall i, number2int (Some i : @num ints) <> -2147483648 -> Z.eqb i i = true -> valid_key (number i)) as Hnum.
  { intros i Hi Ei. split; [done|]. split; [exact Ei|]. cbn. case_match; [exact Hi|done]. }
  repeat constructor; solve [apply string_valid | by vm_compute | apply Hnum; by vm_compute | done].
Qed.
Lemma table_refines_map_witness : map_run empty_map client = [VNil; VNil; VNil; VNil; VNil; VNil; VNil; number 5; VNil; VNil; VNil; number 6; VNil; VNil; number 3] /\
  exists t0 t, luaH_new 0 0 = Val t0 /\ run client t0 = Val (t, map_run empty_map client).
Proof.
  split; [reflexivity|]. destruct (table_refines_map 0 0 client ltac:(done) ltac:(done) client_ok ltac:(done)) as (t0 & t & E0 & E & _). by exists t0, t.
Defined.
Lemma table_traversal_witness : exists t0 t l, luaH_new 4 1 = Val t0 /\ run client t0 = Val (t, map_run empty_map client) /\ traverse (S (length l)) t VNil = Val l.
Proof.
  destruct (table_traversal 4 1 client ltac:(done) ltac:(done) client_ok ltac:(done)) as (t0 & t & l & E0 & E & El & _). exists t0, t, l. split; [done|]. split; [done|]. apply El. lia.
Defined.
Lemma table_length_witness : exists t0 t n, luaH_new 0 0 = Val t0 /\ run client t0 = Val (t, map_run empty_map client) /\ luaH_getn t = Val n /\
  boundary (fun i => ttisnil (map_end empty_map client (VNumber (of_Z i)))) n.
Proof.
  destruct (table_length 0 0 client ltac:(done) ltac:(done) client_ok ltac:(done)) as (t0 & t & n & E0 & E & En & _ & Hb). by exists t0, t, n.
Defined.
Lemma rehash_sizes_best_witness : exists t0 t n m, luaH_new 0 0 = Val t0 /\ run client t0 = Val (t, map_run empty_map client) /\ rehash_sizes (number 4) t = Val (n, m).
Proof.
  destruct (rehash_sizes_best 0 0 client ltac:(done) ltac:(done) client_ok ltac:(done)) as (t0 & t & E0 & E & Hs). 
  destruct (Hs (number 4)) as (n & En & _); [exact (int_valid 4 ltac:(done))|reflexivity|]. exists t0, t, n, (Zlen ((number 4, VNil) :: live t) - counts (within n) ((number 4, VNil) :: live t)). done.
Defined.
End example.
